(* ===== verification/_CoqProject ===== *)
-Q . S2P
Prelude.v
Keccak.v
Pow.v
GoString.v
Config.v
Affinity.v
Pool.v
PoolSystem.v
Sha256.v
LoginLimiter.v
Credentials.v
Json.v
Sse.v
Pump.v
Continue.v
SessionKey.v
Proxy.v
ProxyRouter.v
GoText.v
UpstreamSession.v
CacheKey.v
ResponseCache.v
SingleFlight.v
ResponseStore.v
NetIp.v
RequestGuard.v
StreamEngine.v
ToolScan.v
ToolSieve.v
UpstreamError.v
Models.v
PromptLimit.v
SessionChunk.v
ChunkTurn.v
Traced.v
SessionPrepare.v
Resolver.v
AccountHealth.v
Client.v
Completion.v
AuditText.v
SafetyCheck.v
PrefixPlan.v
PromptText.v
ToolRepair.v
Transcript.v
StreamShared.v
SchemaNormalize.v
ResponsesStream.v
StreamProtocol.v
ClaudeStream.v
ChatStream.v
StreamWire.v
