(* ===== verification/Prelude.v ===== *)
(** A verification library for DeepSeek_Web_To_API, a gateway that serves the public
    chat APIs (OpenAI, Claude, Gemini shapes) from a set of DeepSeek web accounts.

    * The program

    A request passes a guard that resolves the caller's address and refuses listed
    sources.  The response cache answers repeated requests and lets identical requests in
    flight share one upstream call.  A request that goes on is authenticated, given a
    session key, and assigned an account by the account pool, which limits the requests
    in flight per account and overall, keeps a queue of waiting requests and knows which
    accounts cool down or are banned.  Session affinity sends the rounds of one
    conversation to one account, and the store of upstream sessions lets a round continue
    the branch of the previous one; the Responses API keeps what a follow-up refers to.
    The client solves the upstream's proof of work, sends the prompt through the egress
    proxy the account is routed to, and reads a stream of events; incomplete answers are
    continued automatically and spliced into one stream, which a pump parses and batches.
    The stream engine drives a protocol handler with the parsed lines, keep-alives and
    time limits, and a sieve separates tool calls from the text on its way to the client.
    The configuration store holds keys, accounts, proxies and limits, and administrators
    change it behind a login limiter.

    * The files

    - [Prelude] (this file): machine integers ([i64] is the wrap-around of a Go [int]),
      the error type [result] with [let!], byte strings, list and sorting lemmas, the hint
      database [gw] and small tactics.
    - [GoString], [GoText], [Sha256], [Json], [NetIp]: the standard library as the sources
      use it (strings over bytes with slices and searches, splitting, HTTP headers, SHA-256
      and SHA-1, decoded JSON with type assertions, IP addresses and networks).
    - [Keccak], [Pow]: pow/deepseek_hash.go and pow/deepseek_pow.go.  A [uint64] is an
      [N] below 2^64; the unrolled permutation is proved equal to the textbook rounds
      of [KeccakSpec], and the nonce search to the search over the plain hash.
    - [Config]: internal/config account.go, mobile.go, store.go, store_index.go,
      store_accessors.go.  [Store] is the in-memory store with its indexes, and
      [AccountDirectory] is what it promises to the pool.
    - [Credentials]: internal/config credentials.go, the key and account parts of
      config.go, and the updates of one account in store.go.
    - [Affinity], [SessionKey]: internal/account/affinity.go; the binding table, the
      per-key locks as a step relation over goroutines, and the session keys as the
      bytes that are hashed.
    - [Pool]: internal/account pool_core.go, pool_acquire.go, pool_limits.go,
      pool_waiters.go, health.go.  [Pool] is the struct, and every critical section of
      its mutex is a function on it; clock readings are arguments.
    - [PoolSystem]: the loops of AcquireWait and AcquireWaitPreferred and the releases
      of internal/auth/request.go, interleaved by a labelled step function.
    - [LoginLimiter]: internal/httpapi/admin/auth/login_limiter.go.
    - [Sse], [Pump]: internal/sse; one line, one collected stream, and the goroutine
      that batches parsed lines, as a function of the events of its select loop.
    - [Continue]: internal/deepseek/client/client_continue.go; the loop that opens
      follow-up requests and splices their bodies.
    - [StreamEngine]: internal/stream; the select loop as a function of its events, the
      calls of the hooks recorded in order, composed with [Pump].
    - [Proxy], [ProxyRouter]: proxies, their normalisation and policy
      (internal/config, internal/proxyuri) and the assignment of accounts to them
      (internal/proxyservice/router.go).
    - [UpstreamSession]: internal/upstreamsession/store.go; branches per key, selection,
      leases (interleaved by a step relation), recording and expiry, and the diagnosis.
    - [CacheKey], [ResponseCache], [SingleFlight]: internal/responsecache; the canonical
      request and the bytes of its key, the two tiers with budgets and sessions and the
      capturing writer, and the handler around them as a step relation over requests.
    - [ResponseStore]: response_store.go and previous_response.go of
      internal/httpapi/openai/responses; four tables with deadlines as maps.
    - [RequestGuard]: internal/requestmeta and internal/requestguard.
    - [ToolScan]: internal/toolcall toolcalls_scan.go and the XML helpers of
      toolcalls_parse_markup.go, toolcalls_markup.go and toolcalls_dsml.go; [None] is a
      run-time error.
    - [ToolSieve]: internal/toolstream; the sieve for any parser of complete blocks.
    - [UpstreamError]: internal/deepseek/client/errors.go and the decisions taken on
      errors in internal/httpapi/openai/shared; an error is the list of its layers.
    - [Models]: the model names, aliases and resolution of internal/config/models.go.
    - [PromptLimit]: the dynamic prompt limit and the compression of message histories.
    - [SessionChunk], [ChunkTurn], [SessionPrepare]: session_chunking.go,
      session_chunking_failover.go and root_session_failover.go; cutting an oversized
      prompt, reading the answer of one turn, and sending the pieces with replays and
      fail-over to other conversations.
    - [Traced]: a monad of programs that are answered by a world which depends on what
      was called before, with its Hoare triples; [SessionPrepare], [Resolver], [Client]
      and [Completion] are written in it, so that a theorem speaks about every order of
      answers and about the whole trace of calls.
    - [Resolver]: internal/auth/request.go; who calls, accounts for requests and
      sessions, token login and refresh, switching, rejected tokens.  [Lawful] is what
      it relies on in the pool, and [PoolSystem] keeps it.
    - [AccountHealth]: the classification of upstream answers and the reader that watches
      a stream (account_health.go, account_health_stream.go, client_auth.go).
    - [Client], [Completion]: client_auth.go and client_completion.go; creating sessions,
      obtaining proofs of work and the completion request.  They use the resolver through
      the class [AccountSource], which [Resolver] implements.
    - [AuditText], [SafetyCheck]: internal/safetyllm; the text that is reviewed, the
      verdict, its cache, and the checker as a step relation over concurrent checks.
    - [PrefixPlan]: current_input_prefix.go and current_input_file.go of
      internal/httpapi/openai/history; stable prefixes of transcripts and their store.
    - [PromptText]: internal/prompt; the prompt of a conversation and the history of tool
      calls in it.
    - [ToolRepair]: tool_message_repair.go of internal/promptcompat; every shape of tool
      calls and results, matched by a queue of waiting calls.
    - [Transcript]: message_normalize.go and history_transcript.go of
      internal/promptcompat; composed with [PrefixPlan] from turn to turn.
    - [SchemaNormalize]: internal/toolcall/toolcalls_schema_normalize.go; the arguments of
      calls in the types the declared tools ask for.
    - [StreamShared]: tool events and the helpers the event streams share.
    - [ResponsesStream]: the stream runtime of internal/httpapi/openai/responses, from
      parsed lines to events.  [StreamProtocol] states what a client checks of the events
      and proves that every stream passes.
    - [ClaudeStream]: the stream runtime of internal/httpapi/claude, run by [StreamEngine],
      with the client of its message protocol.
    - [ChatStream]: chat_stream_runtime.go and empty_retry_runtime.go of
      internal/httpapi/openai/chat; one stream over several attempts, with its client.
    - [StreamWire]: the payloads of the three streams (internal/format/openai and the
      senders of the runtimes) and their bytes, with a reader of server-sent events.

    * What is shown

    - Proof of work: the hash is the sponge without round 0; the solver returns the
      least nonce, and each error exactly for its cause.
    - Pool: selection in queue order, release against acquire, cooldowns, reset and
      status for single operations; for every interleaving in which accounts are named by
      their identifiers and nothing is reset, reconfigured or lost to a failed switch, the
      counts are exactly the leases and within the limits, and the waiter list is sound.
    - Affinity: the table refines a map with expiry; the locks of a key serialize, with
      lock objects created and dropped on the fly; session keys are stable as a
      conversation grows and separate between callers.
    - Upstream sessions: leases are exclusive in every run, a recorded round is found by
      the next one and only by an extension of it, and the table is bounded.
    - Response cache: what is served was stored under the same key and is live, stored
      responses are found again, the accounting is exact, only complete responses are
      captured, keys separate canonical requests and keep the settings of the body; in
      every interleaving one request per key runs, and all requests finish.
    - Responses API: entries are visible to their owner only and until their deadline,
      use keeps a compaction alive, and a follow-up is given the whole history.
    - Guard: an untrusted peer does not choose its address by headers, behind a trusted
      one the last forwarding entry decides, exactly the listed sources are refused, the cached policy is always the current one, bans are
      effective at once.
    - Configuration: lookups return only what the name denotes; one stored form for a
      mobile number; the two key lists agree after any edit; updates change the first
      match; cooldowns survive a restart.
    - Login limiter: penalties are enforced, address rotation does not evade them, and
      the table is bounded.
    - Streams: reasoning is hidden when it was not asked for and ends at the closing
      tag, filter verdicts stop the stream, collecting only appends, batching is
      invisible up to the merging of plain lines, and continuation terminates and splices
      exactly.  The engine reports the end once, gives a silent upstream up in time, and
      never takes a truncated answer for a finished one, unless its handler asks it to.
    - Tool calls: the scanner stays in bounds and does not fail on ASCII text; the events
      of the sieve are an exact account of the text, shown or cut out as a block that the
      parser took for calls; it is transparent to text without calls, terminates on every
      chunk, and does not delay ordinary text.
    - Errors and models: for a cancelled request the recovery is exactly one of the stated
      ones; every resolved model is a published one.
    - Oversized prompts: the pieces concatenate to the prompt within their budgets, a turn
      is committed only on evidence, preparation is all or nothing with every fragment below
      the confirmed ones, every session that was opened is handed over or deleted, the
      planner's included while the account keeps its token, and the fail-over loop ends.
    - Requests and accounts: every slot taken is given back while no switch fails, a
      conversation keeps its account, the search for accounts tries each at most once,
      rejected tokens are refused for their window only.
    - Upstream calls: session setup and completion requests end within a stated number of
      rounds, pinned calls stay with their account, requests go to sessions of the account
      whose route they take, and watching a body of lines within the limit does not depend
      on how it is cut.
    - Routing: valid assignments are kept, moves go to healthy proxies and balance, and
      deleting proxies is all or nothing.
    - Safety review: with fail-open off a text passes only on an answer to the prompt of a
      text with the same hash, the counters of verdicts and the semaphore are exact in every interleaving, and the cache of verdicts refines a
      bounded list in order of use.
    - Prompts: tool calls cannot break out of their place in the prompt, every result is
      given to the call it answers, transcripts only grow from turn to turn and do not
      depend on volatile metadata, stable prefixes lose nothing and are used again.
    - Event streams: at every moment what was written is a correct beginning, and every end
      is one terminal event or none at all with the failure recorded, for the Responses, the
      Claude and the chat API; what the Claude and the chat stream say is what an independent
      reading of the upstream lines says; the attempts behind one chat stream are bounded;
      arguments of calls have the form an independent reading of their schemas gives; and a client reads back from the bytes every
      frame that was written.
    - Where the code does something else than it means to, a theorem exhibits it: slots
      taken under another spelling of a mobile number leak ([PoolSystem]), a wake-up is
      lost when its receiver is cancelled, a reset forgets requests in flight, an e-mail
      address can disable a mobile account ([Credentials]), the cut at a leaked filter
      marker is misplaced on some non-ASCII text ([Sse]), the scanner fails on letters
      whose lower case is shorter ([ToolScan]), the first of two tool blocks in one chunk
      is lost and a fence after a lone line break is missed ([ToolSieve]), the automatic
      ban is unreachable and a first forwarding line is believed ([RequestGuard]), queries
      collide in the cache key ([CacheKey]), a hit is counted twice ([ResponseCache]), a
      control turn depends on which of two ready channels is taken ([ChunkTurn]), a failed
      switch of accounts gives a slot away twice ([Resolver]) and sends reports to the
      wrong account ([Completion]), a refresh brings back a stale proof of work
      ([Completion]), a huge Retry-After wraps ([AccountHealth]), a banner in a message
      keeps it from being reviewed and a verdict outlives the purge of its model
      ([SafetyCheck]), a refusal is read as a pass ([AuditText]), an image survives the
      removal of images ([PromptText]), calls listed beside content blocks and thinking
      beside a call are lost ([ToolRepair]), two calls of one line share an index
      ([ChatStream]), the final object renames a streamed call and
      a message item is written to after it was closed ([StreamProtocol]).

    * Parameters, bounds and fuel

    The JSON decoder and encoder, the rendering of error values, follow-up requests, the
    parser of node URIs, the parser of complete tool blocks, the translators of messages,
    the planner and builder of prompts, the parsers of numbers and HTTP dates, the
    cleaning of visible text, the source of unique identifiers, the environment, the clock, the iteration order of Go maps and the ends of contexts
    are arguments; services that are called in the middle of an operation (the network,
    logins, the pool) are functions of the calls made so far.  The theorems hold for all
    of them, and hypotheses about them are named in the statements.  Recursion is
    structural except for loops with fuel, each enough by construction: the length of the
    text for tag removal, runes, the tag searches and cutting prompts, the number of
    digits of the nonce, the difficulty for the nonce search, the size of the table for
    eviction, the number of blocks for the hashes, one more than the allowed rounds for
    continuation, twice the held text for the sieve, and, in terms of the accounts and
    the attempts, the loops of [SessionPrepare], [Resolver], [Client] and [Completion],
    whose sufficiency is part of their theorems.

    Case mapping is exact where it is observable against ASCII text (see [GoString]).

    * What is not modelled

    HTTP handlers, request translation, prompt construction, the transport of the upstream
    client with its uploads and session listing, files and SQLite, the Xray process, self
    update and logging: they are glue, network, file or process I/O.  The bookkeeping of proxy
    tests is part of the probes that produce it; the parser of complete tool blocks rests on
    regular expressions, encoding/xml and HTML entities, and is a parameter; citation links
    depend on the iteration order of Go maps; the chat history is kept in SQLite; the
    validation of a configuration only reports. *)
From stdpp Require Export base tactics list gmap strings pretty fin_maps.
From Stdlib Require Export ZArith Lia.

(** ** Machine integers *)

Declare Scope go_scope.
Delimit Scope go_scope with go.

(** Go's [int] and [int64] on the 64-bit targets the gateway is built for:
    two's-complement wrap-around of a mathematical integer. *)
Definition i64 (z : Z) : Z := ((z + 2 ^ 63) mod 2 ^ 64 - 2 ^ 63)%Z.

Definition maxInt : Z := (2 ^ 63 - 1)%Z.
Definition minInt : Z := (- 2 ^ 63)%Z.

Lemma i64_small (z : Z) : (minInt <= z <= maxInt)%Z -> i64 z = z.
Proof.
  unfold i64, minInt, maxInt. intros H.
  rewrite Z.mod_small by lia. lia.
Qed.

Lemma i64_range (z : Z) : (minInt <= i64 z <= maxInt)%Z.
Proof.
  unfold i64, minInt, maxInt.
  pose proof (Z.mod_pos_bound (z + 2 ^ 63) (2 ^ 64) ltac:(lia)). lia.
Qed.

(** ** Results of fallible operations: Go's [(value, error)] pairs *)

Inductive result (E A : Type) : Type :=
| Ok (a : A)
| Err (e : E).
Arguments Ok {E A} a.
Arguments Err {E A} e.

Definition is_ok {E A} (r : result E A) : bool :=
  match r with Ok _ => true | Err _ => false end.

#[global] Instance result_eq_dec {E A} `{EqDecision E, EqDecision A} :
  EqDecision (result E A).
Proof. solve_decision. Defined.

Definition result_bind {E A B} (r : result E A) (k : A -> result E B) : result E B :=
  match r with Ok a => k a | Err e => Err e end.

Notation "'let!' x ':=' r 'in' k" := (result_bind r (fun x => k))
  (at level 10, x pattern, r at level 100, k at level 200) : go_scope.

(** ** Automation *)

Create HintDb gw.

(** Case analysis on the boolean tests the code branches on, turning each test
    into the proposition it decides. *)
Ltac bool_cases :=
  repeat match goal with
  | H : (_ && _)%bool = true |- _ => apply andb_true_iff in H as [? ?]
  | H : (_ || _)%bool = false |- _ => apply orb_false_iff in H as [? ?]
  | H : negb _ = true |- _ => apply negb_true_iff in H
  | H : negb _ = false |- _ => apply negb_false_iff in H
  | H : (_ <? _)%Z = true |- _ => apply Z.ltb_lt in H
  | H : (_ <? _)%Z = false |- _ => apply Z.ltb_ge in H
  | H : (_ <=? _)%Z = true |- _ => apply Z.leb_le in H
  | H : (_ <=? _)%Z = false |- _ => apply Z.leb_gt in H
  | H : (_ =? _)%Z = true |- _ => apply Z.eqb_eq in H
  | H : (_ =? _)%Z = false |- _ => apply Z.eqb_neq in H
  | H : (_ <? _)%nat = true |- _ => apply Nat.ltb_lt in H
  | H : (_ <? _)%nat = false |- _ => apply Nat.ltb_ge in H
  | H : (_ <=? _)%nat = true |- _ => apply Nat.leb_le in H
  | H : (_ <=? _)%nat = false |- _ => apply Nat.leb_gt in H
  | H : bool_decide _ = true |- _ => apply bool_decide_eq_true_1 in H
  | H : bool_decide _ = false |- _ => apply bool_decide_eq_false_1 in H
  end.

(** Destruct every [match]/[if] scrutinee of the goal, then clean up. *)
Ltac split_goal :=
  repeat (case_match; simplify_eq/=; bool_cases).

(** ** Lists *)

Lemma fold_left_ext {A B} (f g : A -> B -> A) (l : list B) (a : A) :
  (forall x y, f x y = g x y) -> fold_left f l a = fold_left g l a.
Proof. intros H. revert a; induction l; simpl; intros; [done|]. by rewrite H. Qed.

Lemma take_app_lt {A} (l k : list A) (n : nat) :
  n <= length l -> take n (l ++ k) = take n l.
Proof. intros. rewrite take_app. replace (n - length l) with 0 by lia. by rewrite take_0, app_nil_r. Qed.

Lemma sum_insert {A} (f : A -> nat) (l : list A) (i : nat) (x y : A) :
  l !! i = Some x -> sum_list_with f (<[i := y]> l) + f x = sum_list_with f l + f y.
Proof.
  revert i. induction l as [|z l IH]; intros [|i] H; try done; simpl in *; [injection H as ->; lia|].
  specialize (IH i H). lia.
Qed.

Lemma sum_zero {A} (f : A -> nat) (l : list A) : Forall (fun x => f x = 0) l -> sum_list_with f l = 0.
Proof. induction 1 as [|x l H _ IH]; [done|]. simpl. by rewrite H, IH. Qed.

Lemma sum_le {A} (f g : A -> nat) (l : list A) : (forall x, f x <= g x) -> sum_list_with f l <= sum_list_with g l.
Proof. intros H. induction l as [|x l IH]; [done|]. simpl. specialize (H x). lia. Qed.

(** ** Stable sorting *)

(** [sort.SliceStable(l, lt)]; [sort.Slice] leaves equal elements in some order. *)
Fixpoint insertBy {A} (lt : A -> A -> bool) (x : A) (l : list A) : list A :=
  match l with
  | [] => [x]
  | y :: l => if lt y x then y :: insertBy lt x l else x :: y :: l
  end.

Definition sortBy {A} (lt : A -> A -> bool) (l : list A) : list A := fold_right (insertBy lt) [] l.

Lemma insertBy_perm {A} (lt : A -> A -> bool) (x : A) (l : list A) : Permutation (insertBy lt x l) (x :: l).
Proof.
  induction l as [|y l IH]; simpl; [done|]. destruct (lt y x); [|done].
  rewrite IH. apply perm_swap.
Qed.

Lemma sortBy_perm {A} (lt : A -> A -> bool) (l : list A) : Permutation (sortBy lt l) l.
Proof. induction l as [|x l IH]; simpl; [done|]. rewrite insertBy_perm. by constructor. Qed.

Lemma sortBy_fmap {A B} (f : A -> B) (lt : B -> B -> bool) (lt' : A -> A -> bool) (l : list A) :
  (forall x y, lt (f x) (f y) = lt' x y) -> sortBy lt (f <$> l) = f <$> sortBy lt' l.
Proof.
  intros H. induction l as [|x l IH]; [done|]. unfold sortBy in *. cbn [foldr fmap list_fmap]. rewrite IH. clear IH.
  induction (foldr (insertBy lt') [] l) as [|y r IHr]; [done|].
  cbn. rewrite H. destruct (lt' y x); [cbn; by f_equal|done].
Qed.

(** ** Bytes of a string *)

(** [[]byte(s)] *)
Fixpoint bytesOf (s : string) : list N :=
  match s with
  | EmptyString => []
  | String c s => Ascii.N_of_ascii c :: bytesOf s
  end.

(** [string(b)] *)
Fixpoint stringOf (b : list N) : string :=
  match b with
  | [] => EmptyString
  | x :: b => String (Ascii.ascii_of_N x) (stringOf b)
  end.

Lemma bytesOf_app (s t : string) : bytesOf (s +:+ t) = bytesOf s ++ bytesOf t.
Proof. induction s; simpl; by f_equal. Qed.

Lemma stringOf_app (a b : list N) : stringOf (a ++ b) = stringOf a +:+ stringOf b.
Proof. induction a as [|x a IH]; [done|]. simpl. by rewrite IH. Qed.

Lemma length_bytesOf (s : string) : length (bytesOf s) = String.length s.
Proof. induction s; simpl; auto. Qed.

Lemma stringOf_bytesOf (s : string) : stringOf (bytesOf s) = s.
Proof. induction s as [|c s IH]; simpl; [done|]. by rewrite IH, Ascii.ascii_N_embedding. Qed.
