(* ===== verification/Keccak.v ===== *)
(** DeepSeekHashV1: [pow/deepseek_hash.go].

    SHA3-256 whose Keccak-f[1600] permutation skips round 0.  The file holds the
    hand-unrolled round of the Go code ([keccakRound], [keccakF23]), the sponge
    ([DeepSeekHashV1]), and the textbook Keccak round ([KeccakSpec]) the unrolled
    code is proved equal to.  A [uint64] is an [N] below [2 ^ 64]; [u64] is the
    truncation Go applies on a shift. *)
From S2P Require Import Prelude.
Local Open Scope N_scope.

(** ** 64-bit words *)

Definition mask64 : N := 18446744073709551615.
Definition u64 (x : N) : N := N.land x mask64.

(** Go's [^x] on [uint64]. *)
Definition not64 (x : N) : N := N.lxor x mask64.

(** [v<<k | v>>(64-k)]; the left shift is truncated to 64 bits. *)
Definition rotl64 (v k : N) : N := N.lor (u64 (N.shiftl v k)) (N.shiftr v (64 - k)).

Definition rc : list N :=
  [0x0000000000000001; 0x0000000000008082; 0x800000000000808A;
   0x8000000080008000; 0x000000000000808B; 0x0000000080000001;
   0x8000000080008081; 0x8000000000008009; 0x000000000000008A;
   0x0000000000000088; 0x0000000080008009; 0x000000008000000A;
   0x000000008000808B; 0x800000000000008B; 0x8000000000008089;
   0x8000000000008003; 0x8000000000008002; 0x8000000000000080;
   0x000000000000800A; 0x800000008000000A; 0x8000000080008081;
   0x8000000000008080; 0x0000000080000001; 0x8000000080008008].

(** One iteration of the loop of [keccakF23], with the locals [a0 .. a24],
    [c0 .. c4], [d0 .. d4] and [b0 .. b24] of the Go code.  The state is the
    [25]uint64 array; the fall-through case is a list that is no such array. *)
Definition keccakRound (r : nat) (s : list N) : list N :=
  match s with
  | [a0; a1; a2; a3; a4; a5; a6; a7; a8; a9; a10; a11; a12; a13; a14; a15; a16; a17; a18; a19; a20; a21; a22; a23; a24] =>
     let c0 := N.lxor (N.lxor (N.lxor (N.lxor a0 a5) a10) a15) a20 in
     let c1 := N.lxor (N.lxor (N.lxor (N.lxor a1 a6) a11) a16) a21 in
     let c2 := N.lxor (N.lxor (N.lxor (N.lxor a2 a7) a12) a17) a22 in
     let c3 := N.lxor (N.lxor (N.lxor (N.lxor a3 a8) a13) a18) a23 in
     let c4 := N.lxor (N.lxor (N.lxor (N.lxor a4 a9) a14) a19) a24 in
     let d0 := N.lxor c4 (rotl64 c1 1) in let d1 := N.lxor c0 (rotl64 c2 1) in
     let d2 := N.lxor c1 (rotl64 c3 1) in let d3 := N.lxor c2 (rotl64 c4 1) in
     let d4 := N.lxor c3 (rotl64 c0 1) in let a0 := N.lxor a0 d0 in
     let a5 := N.lxor a5 d0 in let a10 := N.lxor a10 d0 in let a15 := N.lxor a15 d0 in
     let a20 := N.lxor a20 d0 in let a1 := N.lxor a1 d1 in let a6 := N.lxor a6 d1 in
     let a11 := N.lxor a11 d1 in let a16 := N.lxor a16 d1 in let a21 := N.lxor a21 d1 in
     let a2 := N.lxor a2 d2 in let a7 := N.lxor a7 d2 in let a12 := N.lxor a12 d2 in
     let a17 := N.lxor a17 d2 in let a22 := N.lxor a22 d2 in let a3 := N.lxor a3 d3 in
     let a8 := N.lxor a8 d3 in let a13 := N.lxor a13 d3 in let a18 := N.lxor a18 d3 in
     let a23 := N.lxor a23 d3 in let a4 := N.lxor a4 d4 in let a9 := N.lxor a9 d4 in
     let a14 := N.lxor a14 d4 in let a19 := N.lxor a19 d4 in let a24 := N.lxor a24 d4 in
     let b0 := a0 in let b10 := rotl64 a1 1 in let b20 := rotl64 a2 62 in
     let b5 := rotl64 a3 28 in let b15 := rotl64 a4 27 in let b16 := rotl64 a5 36 in
     let b1 := rotl64 a6 44 in let b11 := rotl64 a7 6 in let b21 := rotl64 a8 55 in
     let b6 := rotl64 a9 20 in let b7 := rotl64 a10 3 in let b17 := rotl64 a11 10 in
     let b2 := rotl64 a12 43 in let b12 := rotl64 a13 25 in let b22 := rotl64 a14 39 in
     let b23 := rotl64 a15 41 in let b8 := rotl64 a16 45 in let b18 := rotl64 a17 15 in
     let b3 := rotl64 a18 21 in let b13 := rotl64 a19 8 in let b14 := rotl64 a20 18 in
     let b24 := rotl64 a21 2 in let b9 := rotl64 a22 61 in let b19 := rotl64 a23 56 in
     let b4 := rotl64 a24 14 in let a0 := N.lxor b0 (N.land (not64 b1) b2) in
     let a1 := N.lxor b1 (N.land (not64 b2) b3) in
     let a2 := N.lxor b2 (N.land (not64 b3) b4) in
     let a3 := N.lxor b3 (N.land (not64 b4) b0) in
     let a4 := N.lxor b4 (N.land (not64 b0) b1) in
     let a5 := N.lxor b5 (N.land (not64 b6) b7) in
     let a6 := N.lxor b6 (N.land (not64 b7) b8) in
     let a7 := N.lxor b7 (N.land (not64 b8) b9) in
     let a8 := N.lxor b8 (N.land (not64 b9) b5) in
     let a9 := N.lxor b9 (N.land (not64 b5) b6) in
     let a10 := N.lxor b10 (N.land (not64 b11) b12) in
     let a11 := N.lxor b11 (N.land (not64 b12) b13) in
     let a12 := N.lxor b12 (N.land (not64 b13) b14) in
     let a13 := N.lxor b13 (N.land (not64 b14) b10) in
     let a14 := N.lxor b14 (N.land (not64 b10) b11) in
     let a15 := N.lxor b15 (N.land (not64 b16) b17) in
     let a16 := N.lxor b16 (N.land (not64 b17) b18) in
     let a17 := N.lxor b17 (N.land (not64 b18) b19) in
     let a18 := N.lxor b18 (N.land (not64 b19) b15) in
     let a19 := N.lxor b19 (N.land (not64 b15) b16) in
     let a20 := N.lxor b20 (N.land (not64 b21) b22) in
     let a21 := N.lxor b21 (N.land (not64 b22) b23) in
     let a22 := N.lxor b22 (N.land (not64 b23) b24) in
     let a23 := N.lxor b23 (N.land (not64 b24) b20) in
     let a24 := N.lxor b24 (N.land (not64 b20) b21) in let a0 := N.lxor a0 (nth r rc 0) in
     [a0; a1; a2; a3; a4; a5; a6; a7; a8; a9; a10; a11; a12; a13; a14; a15; a16; a17; a18; a19; a20; a21; a22; a23; a24]
  | _ => s
  end.

(** [for r := 1; r < 24; r++]: rounds 1 to 23. *)
Definition keccakF23 (s : list N) : list N :=
  fold_left (fun s r => keccakRound r s) (seq 1 23) s.

(** ** Bytes and lanes *)

(** [binary.LittleEndian.Uint64(b[i:])]: the eight bytes at the head of [b].
    Go's bounds check makes a shorter slice a panic; every call of this file
    passes at least eight bytes. *)
Definition leUint64 (b : list N) : N :=
  fold_right (fun x acc => N.lor x (N.shiftl acc 8)) 0 (take 8 b).

(** [binary.LittleEndian.PutUint64]: byte [i] is [byte(v >> (8*i))]. *)
Fixpoint putUint64 (n : nat) (v : N) : list N :=
  match n with
  | O => []
  | S n => N.land v 255 :: putUint64 n (N.shiftr v 8)
  end.

Definition rate : nat := 136.

(** [for i := 0; i < rate/8; i++ { s[i] ^= Uint64(block[i*8:]) }] *)
Definition xorBlock (s block : list N) : list N :=
  fold_left
    (fun s i => <[i := N.lxor (nth i s 0) (leUint64 (drop (i * 8) block))]> s)
    (seq 0 (rate / 8)) s.

Definition absorbBlock (s block : list N) : list N := keccakF23 (xorBlock s block).

(** [for off+rate <= len(data) { ...; off += rate }].  The slice [data[off:]] is
    the list still to read; the result is the state and the unread tail. *)
Fixpoint absorbFull (fuel : nat) (s data : list N) : list N * list N :=
  match fuel with
  | O => (s, data)
  | S fuel =>
      if (rate <=? length data)%nat
      then absorbFull fuel (absorbBlock s (take rate data)) (drop rate data)
      else (s, data)
  end.

(** [var final [rate]byte; copy(final[:], tail); final[len(tail)] = 0x06;
    final[rate-1] |= 0x80]. *)
Definition finalBlock (tail : list N) : list N :=
  let buf := tail ++ replicate (rate - length tail) 0 in
  let buf := <[length tail := 6]> buf in
  <[(rate - 1)%nat := N.lor (nth (rate - 1) buf 0) 128]> buf.

Definition zeroState : list N := replicate 25 0.

Definition squeeze (s : list N) : list N :=
  putUint64 8 (nth 0 s 0) ++ putUint64 8 (nth 1 s 0) ++
  putUint64 8 (nth 2 s 0) ++ putUint64 8 (nth 3 s 0).

Definition DeepSeekHashV1 (data : list N) : list N :=
  let '(s, tail) := absorbFull (length data) zeroState data in
  squeeze (absorbBlock s (finalBlock tail)).

Example hash_empty :
  DeepSeekHashV1 [] =
  [0xe5;0x94;0x80;0x8b;0xc5;0xb7;0x15;0x1a;0xc1;0x60;0xc6;0xd3;0x9a;0x02;0xe0;0xa8;
   0xe2;0x61;0xed;0x58;0x85;0x78;0x40;0x30;0x99;0xe3;0x56;0x1d;0xc4;0x0c;0x26;0xb3].
Proof. vm_compute. reflexivity. Qed.

(** ** The textbook permutation (FIPS 202) *)

Module KeccakSpec.

(** Lane [A[x, y]] of a state stored row by row. *)
Definition lane (A : list N) (x y : nat) : N := nth (x mod 5 + 5 * (y mod 5)) A 0.

Definition grid (f : nat -> nat -> N) : list N :=
  map (fun i => f (i mod 5)%nat (i / 5)%nat) (seq 0 25).

Definition parity (A : list N) (x : nat) : N :=
  fold_left (fun acc y => N.lxor acc (lane A x y)) (seq 1 4) (lane A x 0).

Definition theta (A : list N) : list N :=
  grid (fun x y =>
    N.lxor (lane A x y) (N.lxor (parity A (x + 4)) (rotl64 (parity A (x + 1)) 1))).

(** Rotation offsets: 0 for lane (0,0), and [(t+1)(t+2)/2 mod 64] for the lane
    reached after [t] applications of [(x, y) -> (y, 2x+3y)] from (1,0). *)
Fixpoint offsetFrom (fuel t x y x0 y0 : nat) : nat :=
  match fuel with
  | O => 0
  | S fuel =>
      if ((x =? x0) && (y =? y0))%nat%bool then ((t + 1) * (t + 2) / 2) mod 64
      else offsetFrom fuel (S t) y ((2 * x + 3 * y) mod 5) x0 y0
  end%nat.

Definition offset (x y : nat) : nat := offsetFrom 24 0 1 0 (x mod 5) (y mod 5).

Definition rhoPi (A : list N) : list N :=
  grid (fun x y => rotl64 (lane A (x + 3 * y) x) (N.of_nat (offset (x + 3 * y) x))).

Definition chi (A : list N) : list N :=
  grid (fun x y => N.lxor (lane A x y) (N.land (not64 (lane A (x + 1) y)) (lane A (x + 2) y))).

(** The round constants from the degree-8 LFSR. *)
Definition lfsr (R : N) : N := N.land (N.lxor (N.shiftl R 1) (N.shiftr R 7 * 0x71)) 255.

Fixpoint roundConst (j : nat) (R acc : N) (bits : nat) : N * N :=
  match bits with
  | O => (R, acc)
  | S bits =>
      let R := lfsr R in
      let acc := if N.testbit R 1 then N.lxor acc (N.shiftl 1 (2 ^ N.of_nat j - 1)) else acc in
      roundConst (S j) R acc bits
  end.

Fixpoint roundConstants (n : nat) (R : N) : list N :=
  match n with
  | O => []
  | S n => let '(R, c) := roundConst 0 R 0 7 in c :: roundConstants n R
  end.

Definition RC : list N := roundConstants 24 1.

Definition iota (r : nat) (A : list N) : list N :=
  match A with
  | a :: A => N.lxor a (nth r RC 0) :: A
  | [] => []
  end.

Definition round (r : nat) (A : list N) : list N := iota r (chi (rhoPi (theta A))).

(** Keccak-f[1600] is [rounds 0 24]; DeepSeekHashV1 uses [rounds 1 23]. *)
Definition rounds (first n : nat) (A : list N) : list N :=
  fold_left (fun A r => round r A) (seq first n) A.

(** The padded message: domain bits [01], then [10*1]. *)
Definition pad (m : list N) : list N :=
  let q := (rate - length m mod rate)%nat in
  if (q =? 1)%nat then m ++ [0x86] else m ++ [6] ++ replicate (q - 2) 0 ++ [0x80].

(** The sponge over a list of blocks. *)
Fixpoint blocks (n : nat) (m : list N) : list (list N) :=
  match n with
  | O => []
  | S n => take rate m :: blocks n (drop rate m)
  end.

Definition absorb (s block : list N) : list N :=
  rounds 1 23 (zip_with N.lxor s (map (fun i => leUint64 (drop (i * 8) block)) (seq 0 17) ++ replicate 8 0)).

Definition hash (m : list N) : list N :=
  let p := pad m in
  squeeze (fold_left absorb (blocks (length p / rate) p) zeroState).

End KeccakSpec.

(** ** Word lemmas *)

Definition word (x : N) : Prop := x < 2 ^ 64.

Lemma mask64_ones : mask64 = N.ones 64.
Proof. reflexivity. Qed.

Lemma lt_pow2_bits (x n : N) : x < 2 ^ n <-> forall i, n <= i -> N.testbit x i = false.
Proof.
  split.
  - intros H i Hi. destruct (N.eq_dec x 0) as [->|Hx]; [apply N.bits_0|].
    apply N.bits_above_log2. apply N.log2_lt_pow2 in H; lia.
  - intros H. destruct (N.eq_dec x 0) as [->|Hx].
    { apply N.neq_0_lt_0, N.pow_nonzero. done. }
    apply N.log2_lt_pow2; [lia|]. apply N.nle_gt. intros Hl.
    specialize (H (N.log2 x) Hl). rewrite N.bit_log2 in H by done. done.
Qed.

Lemma word_bits (x : N) : word x <-> forall i, 64 <= i -> N.testbit x i = false.
Proof. apply lt_pow2_bits. Qed.

Lemma word_u64 (x : N) : word (u64 x).
Proof.
  unfold u64. rewrite mask64_ones, N.land_ones. unfold word.
  apply N.mod_lt. done.
Qed.

Lemma u64_id (x : N) : word x -> u64 x = x.
Proof. intros H. unfold u64. rewrite mask64_ones, N.land_ones. by apply N.mod_small. Qed.

Lemma word_lxor (x y : N) : word x -> word y -> word (N.lxor x y).
Proof.
  rewrite !word_bits. intros Hx Hy i Hi. by rewrite N.lxor_spec, Hx, Hy.
Qed.

Lemma word_lor (x y : N) : word x -> word y -> word (N.lor x y).
Proof.
  rewrite !word_bits. intros Hx Hy i Hi. by rewrite N.lor_spec, Hx, Hy.
Qed.

Lemma word_land_r (x y : N) : word y -> word (N.land x y).
Proof.
  rewrite !word_bits. intros Hy i Hi. by rewrite N.land_spec, Hy, andb_false_r.
Qed.

Lemma word_shiftr (x k : N) : word x -> word (N.shiftr x k).
Proof.
  rewrite !word_bits. intros Hx i Hi. rewrite N.shiftr_spec by lia. apply Hx. lia.
Qed.

Lemma word_rotl64 (v k : N) : word v -> word (rotl64 v k).
Proof. intros. apply word_lor; [apply word_u64 | by apply word_shiftr]. Qed.

#[export] Hint Resolve word_u64 word_lxor word_lor word_land_r word_rotl64 : gw.

Lemma rotl64_0 (v : N) : word v -> rotl64 v 0 = v.
Proof.
  intros H. unfold rotl64. rewrite N.shiftl_0_r, u64_id by done.
  apply N.bits_inj. intros i. rewrite N.lor_spec, N.shiftr_spec by lia.
  rewrite word_bits in H. rewrite (H (i + (64 - 0))) by lia. apply orb_false_r.
Qed.

Lemma rc_lfsr : rc = KeccakSpec.RC.
Proof. vm_compute. reflexivity. Qed.

(** ** The unrolled permutation is the textbook one *)

(** A [25]uint64 array. *)
Definition stateOk (s : list N) : Prop := length s = 25%nat /\ Forall word s.

Ltac destruct_state :=
  let H := fresh "Hlen" in
  let F := fresh "Hall" in
  intros [H F];
  repeat match type of H with
         | length ?s = S _ => destruct s; [discriminate H | simpl in H; apply Nat.succ_inj in H]
         end;
  match type of H with length ?s = O => destruct s; [clear H | discriminate H] end;
  repeat match goal with
         | F : Forall word (_ :: _) |- _ => apply Forall_cons in F as [? F]
         end; clear F.

Lemma keccakRound_spec (r : nat) (s : list N) :
  stateOk s -> keccakRound r s = KeccakSpec.round r s.
Proof.
  destruct_state.
  (* the only rotation by 0 is that of lane (0,0) *)
  unfold KeccakSpec.round, KeccakSpec.iota. rewrite <- rc_lfsr.
  cbv -[N.lxor N.land not64 rotl64 rc].
  rewrite rotl64_0 by auto 30 with gw. reflexivity.
Qed.

Lemma word_rc (r : nat) : word (nth r rc 0).
Proof.
  assert (H : Forall word rc) by (repeat constructor).
  destruct (nth_in_or_default r rc 0) as [Hin | ->]; [|done].
  rewrite List.Forall_forall in H. by apply H.
Qed.

Lemma word_not64 (x : N) : word x -> word (not64 x).
Proof. intros. apply word_lxor; [done|]. unfold word. done. Qed.

#[export] Hint Resolve word_rc word_not64 : gw.

Lemma keccakRound_ok (r : nat) (s : list N) : stateOk s -> stateOk (keccakRound r s).
Proof.
  destruct_state. split; [done|].
  unfold keccakRound. cbv zeta.
  repeat (apply Forall_cons; split; [by auto 60 with gw|]). by apply Forall_nil.
Qed.

Lemma keccakF23_ok (s : list N) : stateOk s -> stateOk (keccakF23 s).
Proof.
  unfold keccakF23. generalize (seq 1 23). intros l. revert s.
  induction l; simpl; auto using keccakRound_ok.
Qed.

Lemma keccakF23_spec (s : list N) : stateOk s -> keccakF23 s = KeccakSpec.rounds 1 23 s.
Proof.
  unfold keccakF23, KeccakSpec.rounds. generalize (seq 1 23). intros l. revert s.
  induction l; intros s Hs; simpl; [done|].
  rewrite IHl by auto using keccakRound_ok. by rewrite keccakRound_spec.
Qed.

(** ** Little-endian lanes *)

Definition byteOk (b : N) : Prop := b < 2 ^ 8.

Lemma lor_byte_low (x acc : N) : byteOk x -> N.land (N.lor x (N.shiftl acc 8)) 255 = x.
Proof.
  intros Hx. apply N.bits_inj. intros i.
  change 255 with (N.ones 8). rewrite N.land_spec, N.lor_spec.
  destruct (N.lt_ge_cases i 8).
  - rewrite N.shiftl_spec_low, N.ones_spec_low by lia.
    by rewrite orb_false_r, andb_true_r.
  - rewrite N.ones_spec_high by lia. rewrite andb_false_r.
    symmetry. by apply (proj1 (lt_pow2_bits x 8)).
Qed.

Lemma lor_byte_high (x acc : N) : byteOk x -> N.shiftr (N.lor x (N.shiftl acc 8)) 8 = acc.
Proof.
  intros Hx. apply N.bits_inj. intros i.
  rewrite N.shiftr_spec, N.lor_spec, N.shiftl_spec_high by lia.
  rewrite (proj1 (lt_pow2_bits x 8) Hx (i + 8)) by lia.
  simpl. f_equal. lia.
Qed.

Definition leBytes (b : list N) : N := fold_right (fun x acc => N.lor x (N.shiftl acc 8)) 0 b.

Lemma leBytes_bound (b : list N) : Forall byteOk b -> leBytes b < 2 ^ (8 * N.of_nat (length b)).
Proof.
  induction 1 as [|x b Hx _ IH]; simpl; [done|].
  apply lt_pow2_bits. intros i Hi.
  rewrite N.lor_spec, N.shiftl_spec_high by lia.
  rewrite (proj1 (lt_pow2_bits x 8) Hx) by lia.
  apply (proj1 (lt_pow2_bits _ _) IH). lia.
Qed.

Lemma putUint64_leBytes (b : list N) : Forall byteOk b -> putUint64 (length b) (leBytes b) = b.
Proof.
  induction 1 as [|x b Hx _ IH]; simpl; [done|].
  rewrite lor_byte_low, lor_byte_high by done. by rewrite IH.
Qed.

Lemma leBytes_putUint64 (n : nat) (v : N) : v < 2 ^ (8 * N.of_nat n) -> leBytes (putUint64 n v) = v.
Proof.
  revert v. induction n as [|n IH]; intros v Hv; simpl.
  { change (2 ^ (8 * N.of_nat 0)) with 1 in Hv. lia. }
  rewrite IH.
  - apply N.bits_inj. intros i. change 255 with (N.ones 8).
    rewrite N.lor_spec, N.land_spec. destruct (N.lt_ge_cases i 8).
    + rewrite N.shiftl_spec_low, N.ones_spec_low by lia. by rewrite orb_false_r, andb_true_r.
    + rewrite N.ones_spec_high, N.shiftl_spec_high, N.shiftr_spec by lia.
      rewrite andb_false_r. simpl. f_equal. lia.
  - apply lt_pow2_bits. intros i Hi. rewrite N.shiftr_spec by lia.
    apply (proj1 (lt_pow2_bits _ _) Hv). lia.
Qed.

Lemma length_putUint64 (n : nat) (v : N) : length (putUint64 n v) = n.
Proof. revert v; induction n; simpl; auto. Qed.

Lemma leUint64_word (b : list N) : Forall byteOk b -> word (leUint64 b).
Proof.
  intros Hb. unfold leUint64. fold (leBytes (take 8 b)).
  eapply N.lt_le_trans; [apply leBytes_bound; by apply Forall_take|].
  apply N.pow_le_mono_r; [done|]. rewrite length_take. lia.
Qed.

Lemma leUint64_put (v : N) (rest : list N) : word v -> leUint64 (putUint64 8 v ++ rest) = v.
Proof.
  intros Hv. unfold leUint64. rewrite take_app_length' by (by rewrite length_putUint64).
  by apply (leBytes_putUint64 8).
Qed.

(** ** The sponge *)

Definition lanesOf (block : list N) : list N :=
  map (fun i => leUint64 (drop (i * 8) block)) (seq 0 17) ++ replicate 8 0.

Lemma xorBlock_zip (s block : list N) :
  length s = 25%nat -> xorBlock s block = zip_with N.lxor s (lanesOf block).
Proof.
  intros H.
  repeat match type of H with
         | length ?s = S _ => destruct s; [discriminate H | simpl in H; apply Nat.succ_inj in H]
         end.
  destruct s; [|discriminate H].
  cbv -[N.lxor leUint64 drop]. by rewrite !N.lxor_0_r.
Qed.

Lemma lanesOf_ok (block : list N) : Forall byteOk block -> stateOk (lanesOf block).
Proof.
  intros Hb. split; [done|]. unfold lanesOf. apply Forall_app. split.
  - apply Forall_map, Forall_true. intros i. simpl. by apply leUint64_word, Forall_drop.
  - by apply Forall_replicate.
Qed.

Lemma xorBlock_ok (s block : list N) :
  stateOk s -> Forall byteOk block -> stateOk (xorBlock s block).
Proof.
  intros [Hl Hs] Hb. rewrite xorBlock_zip by done.
  destruct (lanesOf_ok block Hb) as [Hl' Hb']. split.
  - rewrite length_zip_with. lia.
  - clear Hl Hl'. revert Hb'. generalize (lanesOf block). induction Hs; intros [|y k]; simpl; auto.
    intros [? ?]%Forall_cons. constructor; auto with gw.
Qed.

Lemma absorbBlock_ok (s block : list N) :
  stateOk s -> Forall byteOk block -> stateOk (absorbBlock s block).
Proof. intros. by apply keccakF23_ok, xorBlock_ok. Qed.

Lemma absorbBlock_spec (s block : list N) :
  stateOk s -> Forall byteOk block -> absorbBlock s block = KeccakSpec.absorb s block.
Proof.
  intros Hs Hb. unfold absorbBlock. rewrite keccakF23_spec by (by apply xorBlock_ok).
  unfold KeccakSpec.absorb. rewrite xorBlock_zip by apply Hs. done.
Qed.

Lemma zeroState_ok : stateOk zeroState.
Proof. split; [done|]. by apply Forall_replicate. Qed.

Lemma set_last_replicate (p : nat) (x : N) :
  <[p := N.lor (nth p (replicate (S p) 0) 0) x]> (replicate (S p) 0) = replicate p 0 ++ [x].
Proof. induction p as [|p IH]; [done|]. cbn [replicate nth]. simpl. by f_equal. Qed.

Lemma finalBlock_pad (tail : list N) :
  (length tail < rate)%nat -> finalBlock tail = KeccakSpec.pad tail.
Proof.
  intros H. unfold finalBlock, KeccakSpec.pad.
  rewrite Nat.mod_small by lia.
  rewrite (insert_app_r_alt tail _ (length tail)), Nat.sub_diag by lia.
  rewrite insert_app_r_alt, app_nth2 by lia.
  destruct (rate - length tail)%nat as [|[|p]] eqn:Eq; [lia| |].
  - replace (rate - 1 - length tail)%nat with O by lia. done.
  - replace (rate - 1 - length tail)%nat with (S p) by lia.
    change (S (S p) =? 1)%nat with false. cbv iota.
    replace (S (S p) - 2)%nat with p by lia. f_equal.
    change (<[O := 6]> (replicate (S (S p)) 0)) with (6 :: replicate (S p) 0).
    change (nth (S p) (6 :: replicate (S p) 0) 0) with (nth p (replicate (S p) 0) 0).
    cbn [app]. rewrite <- set_last_replicate. done.
Qed.

Lemma length_pad (m : list N) : length (KeccakSpec.pad m) = (rate * (length m / rate + 1))%nat.
Proof.
  unfold KeccakSpec.pad.
  pose proof (Nat.div_mod_eq (length m) rate).
  pose proof (Nat.mod_upper_bound (length m) rate ltac:(done)).
  destruct (Nat.eqb_spec (rate - length m mod rate) 1);
    rewrite ?length_app, ?length_replicate; cbn [length]; unfold rate in *; lia.
Qed.

Lemma pad_drop (m : list N) :
  (rate <= length m)%nat ->
  take rate (KeccakSpec.pad m) = take rate m /\
  drop rate (KeccakSpec.pad m) = KeccakSpec.pad (drop rate m).
Proof.
  intros H. unfold KeccakSpec.pad. rewrite length_drop.
  assert (Hmod : ((length m - rate) mod rate = length m mod rate)%nat).
  { replace (length m)%nat with (length m - rate + 1 * rate)%nat at 2 by lia.
    by rewrite Nat.Div0.mod_add. }
  rewrite Hmod.
  destruct (_ =? 1)%nat; rewrite take_app_lt, drop_app_le by done; done.
Qed.

Lemma pad_div_step (m : list N) :
  (rate <= length m)%nat -> (length m / rate)%nat = S (length (drop rate m) / rate)%nat.
Proof.
  intros H. rewrite length_drop.
  replace (length m) with (length m - rate + 1 * rate)%nat at 1 by lia.
  rewrite Nat.div_add by done. lia.
Qed.

Lemma byteOk_pad (m : list N) : Forall byteOk m -> Forall byteOk (KeccakSpec.pad m).
Proof.
  intros H. unfold KeccakSpec.pad.
  case_match; repeat (apply Forall_app; split); auto; try (by apply Forall_replicate);
    repeat constructor.
Qed.

(** Absorbing the whole blocks and then the padded tail is the sponge over the
    padded message, from any state. *)
Lemma absorbFull_spec (fuel : nat) (s data : list N) :
  (length data <= fuel)%nat -> stateOk s -> Forall byteOk data ->
  let '(s', tail) := absorbFull fuel s data in
  stateOk s' /\ Forall byteOk tail /\ (length tail < rate)%nat /\
  absorbBlock s' (finalBlock tail) =
  fold_left KeccakSpec.absorb
    (KeccakSpec.blocks (length data / rate + 1) (KeccakSpec.pad data)) s.
Proof.
  assert (Hbase : forall s data, (length data < rate)%nat -> stateOk s -> Forall byteOk data ->
    absorbBlock s (finalBlock data) = fold_left KeccakSpec.absorb
      (KeccakSpec.blocks (length data / rate + 1) (KeccakSpec.pad data)) s).
  { clear. intros s data Hlt Hs Hd.
    rewrite Nat.div_small by done. cbn [Nat.add KeccakSpec.blocks fold_left].
    rewrite take_ge; [|rewrite length_pad, Nat.div_small by done; lia].
    rewrite finalBlock_pad by done. apply absorbBlock_spec; [done|by apply byteOk_pad]. }
  revert s data. induction fuel as [|fuel IH]; intros s data Hf Hs Hd; cbn [absorbFull].
  { assert (Hr : (length data < rate)%nat) by (unfold rate; lia). auto. }
  destruct (Nat.leb_spec rate (length data)) as [Hle|Hlt]; [|by auto].
  specialize (IH (absorbBlock s (take rate data)) (drop rate data)).
  destruct (absorbFull fuel _ _) as [s' tail].
  destruct IH as (? & ? & ? & Heq).
  - rewrite length_drop. unfold rate in *. lia.
  - by apply absorbBlock_ok, Forall_take.
  - by apply Forall_drop.
  - destruct (pad_drop data Hle) as [Ht Hd'].
    split; [done|]. split; [done|]. split; [done|].
    rewrite Heq, (pad_div_step data Hle).
    cbn [Nat.add KeccakSpec.blocks fold_left].
    rewrite Ht, Hd', absorbBlock_spec by (try done; by apply Forall_take). done.
Qed.

Lemma hash_sponge (data : list N) :
  Forall byteOk data -> DeepSeekHashV1 data = KeccakSpec.hash data.
Proof.
  intros Hd. unfold DeepSeekHashV1, KeccakSpec.hash.
  pose proof (absorbFull_spec (length data) zeroState data ltac:(lia) zeroState_ok Hd) as H.
  destruct (absorbFull _ _ _) as [s tail]. cbv beta iota in *.
  destruct H as (_ & _ & _ & ->).
  rewrite length_pad, Nat.mul_comm, Nat.div_mul by done. done.
Qed.
