(* ===== verification/Pow.v ===== *)
(** Proof-of-work solver: [pow/deepseek_pow.go].

    [SolvePow] searches the least nonce whose hash is the challenge, with the
    prefix absorbed once outside the loop; the file proves that search equal to
    the naive one over [DeepSeekHashV1(prefix + str(nonce))].  A Go string is a
    [string] of bytes, a [[]byte] a [list N], an [int64] a [Z].  The context is a
    function from the loop counter to the error [ctx.Err()] returns there. *)
From S2P Require Import Prelude Keccak.
Local Open Scope N_scope.

Record Challenge := {
  cAlgorithm : string;
  cChallenge : string;
  cSalt : string;
  cExpireAt : Z;
  cDifficulty : Z;
  cSignature : string;
  cTargetPath : string
}.

Inductive powError (E : Type) : Type :=
| ErrChallengeLength
| ErrHexDecode
| ErrContext (e : E)
| ErrNoSolution
| ErrAlgorithm (name : string)
| ErrMarshal.
Arguments ErrChallengeLength {E}.
Arguments ErrHexDecode {E}.
Arguments ErrContext {E} e.
Arguments ErrNoSolution {E}.
Arguments ErrAlgorithm {E} name.
Arguments ErrMarshal {E}.

(** [strconv.FormatInt(n, 10)] is stdpp's decimal printer. *)
Definition BuildPrefix (salt : string) (expireAt : Z) : string :=
  salt +:+ "_" +:+ pretty expireAt +:+ "_".

(** [hex.DecodeString] *)
Definition hexVal (c : N) : option N :=
  if (48 <=? c) && (c <=? 57) then Some (c - 48)
  else if (97 <=? c) && (c <=? 102) then Some (c - 97 + 10)
  else if (65 <=? c) && (c <=? 70) then Some (c - 65 + 10)
  else None.

Fixpoint hexDecode (s : list N) : option (list N) :=
  match s with
  | [] => Some []
  | h :: l :: rest =>
      match hexVal h, hexVal l, hexDecode rest with
      | Some a, Some b, Some out => Some (N.lor (N.shiftl a 4) b :: out)
      | _, _, _ => None
      end
  | [_] => None
  end.

(** The inner digit loop: [numBuf[pos:]], filled from the last byte backwards;
    [fuel] is the number of free bytes of the 20-byte buffer. *)
Fixpoint decDigits (fuel : nat) (v : N) (buf : list N) : list N :=
  match fuel with
  | O => buf
  | S fuel => if v =? 0 then buf else decDigits fuel (v / 10) (48 + v mod 10 :: buf)
  end.

Definition numBuf (n : Z) : list N :=
  let v := Z.to_N n in
  if v =? 0 then [48] else decDigits 20 v [].

(** The hash state for one nonce: one block when the tail and the digits fit
    below the rate, else a full block and a second one with the remainder. *)
Definition nonceState (base tail num : list N) : list N :=
  let totalTail := (length tail + length num)%nat in
  if (totalTail <? rate)%nat then absorbBlock base (finalBlock (tail ++ num))
  else
    let s := absorbBlock base (tail ++ take (rate - length tail) num) in
    let rem := (totalTail - rate)%nat in
    absorbBlock s (finalBlock (take rem (drop (rate - length tail) num))).

Section Solve.
Context {E : Type}.
Variable ctxErr : Z -> option E.

Fixpoint searchNonce (fuel : nat) (base tail : list N) (t0 t1 t2 t3 : N) (n : Z)
  : result (powError E) Z :=
  match fuel with
  | O => Err ErrNoSolution
  | S fuel =>
      match (if (Z.land n 0x3FF =? 0)%Z then ctxErr n else None) with
      | Some e => Err (ErrContext e)
      | None =>
          let s := nonceState base tail (numBuf n) in
          if (nth 0 s 0 =? t0) && (nth 1 s 0 =? t1) && (nth 2 s 0 =? t2) && (nth 3 s 0 =? t3)
          then Ok n
          else searchNonce fuel base tail t0 t1 t2 t3 (n + 1)
      end
  end.

Definition SolvePow (challengeHex salt : string) (expireAt difficulty : Z)
  : result (powError E) Z :=
  if negb (String.length challengeHex =? 64)%nat then Err ErrChallengeLength
  else
    match hexDecode (bytesOf challengeHex) with
    | None => Err ErrHexDecode
    | Some ta =>
        let t0 := leUint64 ta in
        let t1 := leUint64 (drop 8 ta) in
        let t2 := leUint64 (drop 16 ta) in
        let t3 := leUint64 (drop 24 ta) in
        let prefix := bytesOf (BuildPrefix salt expireAt) in
        let '(base, tail) := absorbFull (length prefix) zeroState prefix in
        searchNonce (Z.to_nat difficulty) base tail t0 t1 t2 t3 0
    end.

(** The JSON object of the header; [encodeHeader] stands for
    [base64(json.Marshal(...))] of its six fields, [None] a marshalling error. *)
Record headerPayload := {
  hAlgorithm : string; hChallenge : string; hSalt : string;
  hAnswer : Z; hSignature : string; hTargetPath : string
}.
Variable encodeHeader : headerPayload -> option string.

Definition BuildPowHeader (c : Challenge) (answer : Z) : result (powError E) string :=
  match encodeHeader {| hAlgorithm := cAlgorithm c; hChallenge := cChallenge c;
                        hSalt := cSalt c; hAnswer := answer;
                        hSignature := cSignature c; hTargetPath := cTargetPath c |} with
  | Some h => Ok h
  | None => Err ErrMarshal
  end.

Definition SolveAndBuildHeader (c : Challenge) : result (powError E) string :=
  if negb (bool_decide (cAlgorithm c = "DeepSeekHashV1")) then Err (ErrAlgorithm (cAlgorithm c))
  else
    let d := if (cDifficulty c =? 0)%Z then 144000%Z else cDifficulty c in
    match SolvePow (cChallenge c) (cSalt c) (cExpireAt c) d with
    | Ok answer => BuildPowHeader c answer
    | Err e => Err e
    end.
End Solve.

Example solve_42 :
  SolvePow (fun _ => None (A := unit))
    "d4a2ea58c89e40887c933484868380c6f803eaa8dc53a3b9df8e431b921a4f09" "testsalt" 1700000000 1000
  = Ok 42%Z.
Proof. vm_compute. reflexivity. Qed.

(** ** Bytes of strings *)

Lemma bytesOf_ok (s : string) : Forall byteOk (bytesOf s).
Proof.
  induction s as [|c s IH]; simpl; constructor; auto.
  unfold byteOk. apply Ascii.N_ascii_bounded.
Qed.

Lemma hexVal_bound (c v : N) : hexVal c = Some v -> v < 16.
Proof.
  unfold hexVal. intros H.
  repeat case_match; simplify_eq; repeat match goal with
    | H : (_ && _)%bool = true |- _ => apply andb_true_iff in H as [?%N.leb_le ?%N.leb_le]
    end; lia.
Qed.

Lemma hexDecode_ok (s out : list N) :
  hexDecode s = Some out -> Forall byteOk out /\ (length s = 2 * length out)%nat.
Proof.
  revert out. induction s as [[|h [|l rest]] IH] using (induction_ltof1 _ (@length N));
    intros out H; simpl in H; simplify_eq; [done|].
  destruct (hexVal h) as [a|] eqn:Ha; [|done].
  destruct (hexVal l) as [b|] eqn:Hb; [|done].
  destruct (hexDecode rest) as [o|] eqn:Hr; [|done]. simplify_eq.
  apply IH in Hr as [Ho Hl]; [|unfold ltof; simpl; lia].
  split; [|simpl; lia]. constructor; [|done].
  apply hexVal_bound in Ha, Hb. apply lt_pow2_bits. intros i Hi.
  rewrite N.lor_spec, N.shiftl_spec_high by lia.
  rewrite (proj1 (lt_pow2_bits a 4) Ha), (proj1 (lt_pow2_bits b 4) Hb) by lia. done.
Qed.

(** ** The digit buffer is the decimal representation *)

Lemma pretty_N_char_code (d : N) : d < 10 -> Ascii.N_of_ascii (pretty_N_char d) = 48 + d.
Proof.
  intros H.
  assert (d = 0 \/ d = 1 \/ d = 2 \/ d = 3 \/ d = 4 \/ d = 5 \/ d = 6 \/ d = 7 \/ d = 8 \/ d = 9)
    as Hd by lia.
  by repeat destruct Hd as [->|Hd]; subst.
Qed.

Lemma decDigits_pretty (fuel : nat) (v : N) (s : string) :
  v < 10 ^ N.of_nat fuel -> decDigits fuel v (bytesOf s) = bytesOf (pretty_N_go v s).
Proof.
  revert v s. induction fuel as [|fuel IH]; intros v s Hv.
  { change (10 ^ N.of_nat 0) with 1 in Hv. replace v with 0 by lia. done. }
  simpl. destruct (N.eqb_spec v 0) as [->|Hne]; [done|].
  rewrite pretty_N_go_step by lia.
  rewrite <- (pretty_N_char_code (v mod 10)) by (by apply N.mod_lt).
  apply (IH (v / 10) (String (pretty_N_char (v mod 10)) s)).
  apply N.Div0.div_lt_upper_bound.
  rewrite Nat2N.inj_succ, N.pow_succ_r' in Hv. lia.
Qed.

Lemma numBuf_pretty (n : Z) : (0 <= n <= maxInt)%Z -> numBuf n = bytesOf (pretty n).
Proof.
  unfold maxInt. intros Hn. unfold numBuf.
  assert (Hp : pretty n = pretty (Z.to_N n)) by (destruct n; [done|done|lia]).
  rewrite Hp. unfold pretty, pretty_N.
  destruct (N.eqb_spec (Z.to_N n) 0) as [->|Hne]; [done|].
  rewrite decide_False by done. apply (decDigits_pretty 20 _ EmptyString).
  change (10 ^ N.of_nat 20) with 100000000000000000000. lia.
Qed.

Lemma decDigits_length (fuel : nat) (v : N) (buf : list N) :
  (length (decDigits fuel v buf) <= fuel + length buf)%nat.
Proof.
  revert v buf. induction fuel; intros; simpl; [lia|].
  destruct (v =? 0); [lia|]. etransitivity; [apply IHfuel|]. simpl. lia.
Qed.

Lemma numBuf_length (n : Z) : (length (numBuf n) <= 20)%nat.
Proof.
  unfold numBuf. destruct (_ =? 0); [simpl; lia|].
  etransitivity; [apply decDigits_length|]. simpl. lia.
Qed.

(** ** Absorbing the prefix once *)

Lemma absorbFull_fuel (f1 f2 : nat) (s data : list N) :
  (length data <= f1)%nat -> (length data <= f2)%nat ->
  absorbFull f1 s data = absorbFull f2 s data.
Proof.
  revert f2 s data. induction f1 as [|f1 IH]; intros [|f2] s data H1 H2;
    cbn [absorbFull]; try done;
    destruct (Nat.leb_spec rate (length data)); try done; unfold rate in *; try lia.
  apply IH; rewrite length_drop; lia.
Qed.

Lemma absorbFull_app (f1 f2 f3 : nat) (s p num : list N) :
  (length (p ++ num) <= f1)%nat -> (length p <= f2)%nat -> (length (p ++ num) <= f3)%nat ->
  absorbFull f1 s (p ++ num) =
  let '(base, tail) := absorbFull f2 s p in absorbFull f3 base (tail ++ num).
Proof.
  revert f1 f3 s p. induction f2 as [|f2 IH]; intros f1 f3 s p H1 H2 H3.
  { destruct p; [|simpl in H2; lia]. cbn [absorbFull]. by apply absorbFull_fuel. }
  cbn [absorbFull]. destruct (Nat.leb_spec rate (length p)) as [Hle|Hlt].
  - destruct f1 as [|f1]; [rewrite length_app in *; unfold rate in *; lia|].
    cbn [absorbFull].
    destruct (Nat.leb_spec rate (length (p ++ num))); [|rewrite length_app in *; lia].
    rewrite take_app_lt, drop_app_le by lia.
    apply IH; rewrite ?length_app, ?length_drop in *; unfold rate in *; lia.
  - by apply absorbFull_fuel.
Qed.

Lemma absorbFull_small (f : nat) (s data : list N) :
  (length data < rate)%nat -> absorbFull f s data = (s, data).
Proof.
  destruct f; cbn [absorbFull]; [done|]. intros H.
  destruct (Nat.leb_spec rate (length data)); [lia|done].
Qed.

Lemma absorbFull_step (f : nat) (s data : list N) :
  (rate <= length data <= f)%nat ->
  absorbFull f s data = absorbFull f (absorbBlock s (take rate data)) (drop rate data).
Proof.
  intros [H Hf]. destruct f; [unfold rate in *; lia|]. cbn [absorbFull].
  destruct (Nat.leb_spec rate (length data)); [|lia].
  apply (absorbFull_fuel f (S f)); rewrite length_drop; unfold rate in *; lia.
Qed.

(** The two branches on [totalTail < rate] are one run of the absorb loop. *)
Lemma nonceState_final (base tail num : list N) :
  (length tail < rate)%nat -> (length num < rate)%nat ->
  nonceState base tail num =
  let '(s, t) := absorbFull (length (tail ++ num)) base (tail ++ num) in
  absorbBlock s (finalBlock t).
Proof.
  intros Ht Hn. unfold nonceState. rewrite <- length_app.
  destruct (Nat.ltb_spec (length (tail ++ num)) rate) as [Hlt|Hge].
  { by rewrite absorbFull_small. }
  rewrite absorbFull_step by lia.
  rewrite length_app in Hge.
  rewrite absorbFull_small by (rewrite length_drop, length_app; lia).
  rewrite take_app, drop_app, (take_ge tail), (drop_ge tail) by lia.
  rewrite (take_ge (drop _ num)); [done|]. rewrite length_drop, length_app. lia.
Qed.

(** The state [SolvePow] compares for a nonce is the state [DeepSeekHashV1]
    squeezes for the prefix followed by the nonce's digits. *)
Lemma nonceState_hash (prefix num base tail : list N) :
  Forall byteOk prefix -> Forall byteOk num -> (length num < rate)%nat ->
  absorbFull (length prefix) zeroState prefix = (base, tail) ->
  stateOk (nonceState base tail num) /\
  squeeze (nonceState base tail num) = DeepSeekHashV1 (prefix ++ num).
Proof.
  intros Hp Hn Hlen Habs.
  pose proof (absorbFull_spec (length prefix) zeroState prefix ltac:(lia) zeroState_ok Hp) as Hsp.
  rewrite Habs in Hsp. destruct Hsp as (Hbase & Htail & Htl & _).
  rewrite nonceState_final by done.
  assert (Hbt : Forall byteOk (tail ++ num)) by (by apply Forall_app).
  assert (Htl' : (length tail <= length prefix)%nat).
  { clear -Habs. revert Habs. generalize zeroState as s, (length prefix) at 1 as f.
    intros s f. revert s prefix. induction f as [|f IH]; intros s prefix; cbn [absorbFull].
    - by intros [= _ <-].
    - destruct (_ <=? _)%nat; [|by intros [= _ <-]].
      intros H%IH. rewrite length_drop in H. lia. }
  unfold DeepSeekHashV1.
  rewrite (absorbFull_app _ (length prefix) (length (prefix ++ num)) zeroState prefix num)
    by (rewrite ?length_app; lia).
  rewrite Habs.
  rewrite (absorbFull_fuel (length (prefix ++ num)) (length (tail ++ num)))
    by (rewrite ?length_app; lia).
  pose proof (absorbFull_spec (length (tail ++ num)) base (tail ++ num) ltac:(lia) Hbase Hbt) as Hsp.
  destruct (absorbFull (length (tail ++ num)) base _) as [s t].
  destruct Hsp as (Hs & Htb & Ht & _). split; [|done].
  apply absorbBlock_ok; [done|]. rewrite finalBlock_pad by done. by apply byteOk_pad.
Qed.

(** ** Comparing lanes is comparing digests *)

Lemma stateOk_nth (s : list N) (i : nat) : stateOk s -> word (nth i s 0).
Proof.
  intros [_ H]. destruct (nth_in_or_default i s 0) as [Hin | ->]; [|done].
  rewrite List.Forall_forall in H. by apply H.
Qed.

Lemma put_leUint64 (l : list N) :
  Forall byteOk l -> (8 <= length l)%nat -> putUint64 8 (leUint64 l) = take 8 l.
Proof.
  intros Hl Hlen. unfold leUint64. fold (leBytes (take 8 l)).
  rewrite <- (putUint64_leBytes (take 8 l)) at 2 by (by apply Forall_take).
  by rewrite length_take, Nat.min_l.
Qed.

Lemma drop8_put (v : N) (l : list N) : drop 8 (putUint64 8 v ++ l) = l.
Proof. apply drop_app_length'. by rewrite length_putUint64. Qed.

Lemma squeeze_eq (s ta : list N) :
  stateOk s -> Forall byteOk ta -> length ta = 32%nat ->
  squeeze s = ta <->
  nth 0 s 0 = leUint64 ta /\ nth 1 s 0 = leUint64 (drop 8 ta) /\
  nth 2 s 0 = leUint64 (drop 16 ta) /\ nth 3 s 0 = leUint64 (drop 24 ta).
Proof.
  intros Hs Hta Hl. unfold squeeze.
  change (drop 16 ta) with (drop (8 + 8) ta). change (drop 24 ta) with (drop (8 + (8 + 8)) ta).
  rewrite <- !drop_drop. split.
  - intros <-. rewrite !drop8_put.
    rewrite !leUint64_put by (by apply stateOk_nth).
    split; [done|]. split; [done|]. split; [done|].
    rewrite <- (app_nil_r (putUint64 8 (nth 3 s 0))). symmetry.
    by apply leUint64_put, stateOk_nth.
  - intros (-> & -> & -> & ->).
    rewrite !put_leUint64 by (repeat apply Forall_drop; rewrite ?length_drop; lia || done).
    rewrite (take_ge (drop 8 (drop 8 (drop 8 ta)))) by (rewrite !length_drop; lia).
    by rewrite !take_drop.
Qed.

(** ** The search *)

Section SearchProof.
Context {E : Type}.
Variable ctxErr : Z -> option E.
Variables (prefix base tail ta : list N).
Hypothesis Hprefix : Forall byteOk prefix.
Hypothesis Habs : absorbFull (length prefix) zeroState prefix = (base, tail).
Hypothesis Hta : Forall byteOk ta.
Hypothesis Htl : length ta = 32%nat.

(** The digest the comment of [SolvePow] talks about. *)
Definition nonceDigest (n : Z) : list N := DeepSeekHashV1 (prefix ++ bytesOf (pretty n)).

Lemma lanes_digest (n : Z) :
  (0 <= n <= maxInt)%Z ->
  let s := nonceState base tail (numBuf n) in
  ((nth 0 s 0 =? leUint64 ta) && (nth 1 s 0 =? leUint64 (drop 8 ta)) &&
   (nth 2 s 0 =? leUint64 (drop 16 ta)) && (nth 3 s 0 =? leUint64 (drop 24 ta)))%bool
  = bool_decide (nonceDigest n = ta).
Proof.
  intros Hn s.
  assert (Hnum : (length (numBuf n) < rate)%nat)
    by (pose proof (numBuf_length n); unfold rate; lia).
  destruct (nonceState_hash prefix (numBuf n) base tail Hprefix) as [Hok Heq]; auto.
  { rewrite numBuf_pretty by done. apply bytesOf_ok. }
  fold s in Hok, Heq. unfold nonceDigest. rewrite <- numBuf_pretty by done.
  rewrite <- Heq. apply Bool.eq_iff_eq_true.
  rewrite bool_decide_eq_true, (squeeze_eq s ta) by done.
  rewrite !andb_true_iff, !N.eqb_eq. tauto.
Qed.

Lemma searchNonce_spec (fuel : nat) (n : Z) :
  (0 <= n)%Z -> (n + Z.of_nat fuel <= maxInt)%Z ->
  match searchNonce ctxErr fuel base tail (leUint64 ta) (leUint64 (drop 8 ta))
          (leUint64 (drop 16 ta)) (leUint64 (drop 24 ta)) n with
  | Ok m => (n <= m < n + Z.of_nat fuel)%Z /\ nonceDigest m = ta /\
            forall k, (n <= k < m)%Z -> nonceDigest k <> ta
  | Err ErrNoSolution => forall k, (n <= k < n + Z.of_nat fuel)%Z -> nonceDigest k <> ta
  | Err (ErrContext e) => exists k, (n <= k < n + Z.of_nat fuel)%Z /\ ctxErr k = Some e /\
            (k mod 1024 = 0)%Z
  | Err _ => False
  end.
Proof.
  revert n. induction fuel as [|fuel IH]; intros n Hn Hmax; cbn [searchNonce].
  { intros k Hk. lia. }
  destruct (if (Z.land n 1023 =? 0)%Z then ctxErr n else None) as [e|] eqn:Hctx.
  { case_match; [|done]. exists n. bool_cases. split; [lia|]. split; [done|].
    change 1023%Z with (Z.ones 10) in *. rewrite Z.land_ones in * by done. done. }
  cbv zeta. rewrite lanes_digest by lia.
  case_bool_decide as Hd.
  { split; [lia|]. split; [done|]. intros k Hk. lia. }
  specialize (IH (n + 1)%Z ltac:(lia) ltac:(lia)).
  destruct (searchNonce _ _ _ _ _ _ _ _ (n + 1)) as [m|[]]; try done.
  - destruct IH as (? & ? & Hmin). split; [lia|]. split; [done|].
    intros k Hk. destruct (decide (k = n)) as [->|]; [done|]. apply Hmin. lia.
  - destruct IH as (k & ? & ? & ?). exists k. split; [lia|done].
  - intros k Hk. destruct (decide (k = n)) as [->|]; [done|]. apply IH. lia.
Qed.
End SearchProof.

Lemma SolvePow_spec {E} (ctxErr : Z -> option E) (ch salt : string) (expireAt difficulty : Z)
  (ta : list N) :
  (difficulty <= maxInt)%Z -> String.length ch = 64%nat -> hexDecode (bytesOf ch) = Some ta ->
  let digest := nonceDigest (bytesOf (BuildPrefix salt expireAt)) in
  match SolvePow ctxErr ch salt expireAt difficulty with
  | Ok m => (0 <= m < difficulty)%Z /\ digest m = ta /\
            forall k, (0 <= k < m)%Z -> digest k <> ta
  | Err ErrNoSolution => forall k, (0 <= k < difficulty)%Z -> digest k <> ta
  | Err (ErrContext e) => exists k, (0 <= k < difficulty)%Z /\ ctxErr k = Some e /\
            (k mod 1024 = 0)%Z
  | Err _ => False
  end.
Proof.
  intros Hd Hlen Hhex digest. unfold SolvePow. rewrite Hlen, Hhex. cbn [Nat.eqb negb].
  destruct (hexDecode_ok _ _ Hhex) as [Hta Hl]. rewrite length_bytesOf, Hlen in Hl.
  set (prefix := bytesOf (BuildPrefix salt expireAt)).
  destruct (absorbFull (length prefix) zeroState prefix) as [base tail] eqn:Habs.
  pose proof (searchNonce_spec ctxErr prefix base tail ta (bytesOf_ok _) Habs Hta ltac:(lia)
    (Z.to_nat difficulty) 0 ltac:(lia)) as H.
  destruct (Z.le_gt_cases 0 difficulty) as [Hnn|Hneg].
  - rewrite Z2Nat.id, Z.add_0_l in H by lia. apply H. lia.
  - replace (Z.to_nat difficulty) with O by lia. simpl. intros k Hk. lia.
Qed.

(** C33. The optimised hash of [pow/deepseek_hash.go] (unrolled rounds 1 to 23,
    in-place padding, block loop) is the FIPS-202 sponge built from the textbook
    theta, rho, pi, chi and iota steps with LFSR-generated round constants. *)
Theorem DeepSeekHashV1_is_sponge (data : list N) :
  Forall byteOk data -> DeepSeekHashV1 data = KeccakSpec.hash data.
Proof. apply hash_sponge. Qed.

Lemma DeepSeekHashV1_is_sponge_witness :
  DeepSeekHashV1 (bytesOf "testsalt_1700000000_42") = KeccakSpec.hash (bytesOf "testsalt_1700000000_42").
Proof.
  apply (DeepSeekHashV1_is_sponge (bytesOf "testsalt_1700000000_42")).
  apply bytesOf_ok.
Defined.

(** C32. When the context is never cancelled and some nonce below the difficulty
    hashes to the challenge, [SolvePow] returns a nonce, and it is the least
    [m] in [0, difficulty) with
    [DeepSeekHashV1(prefix + str(m)) = challenge]: absorbing the prefix once and
    splitting the digits over one or two blocks changes nothing. *)
Theorem SolvePow_finds_least {E} (ctxErr : Z -> option E) (ch salt : string)
  (expireAt difficulty : Z) (ta : list N) (k : Z) :
  (forall n, ctxErr n = None) -> (difficulty <= maxInt)%Z ->
  String.length ch = 64%nat -> hexDecode (bytesOf ch) = Some ta ->
  (0 <= k < difficulty)%Z ->
  DeepSeekHashV1 (bytesOf (BuildPrefix salt expireAt) ++ bytesOf (pretty k)) = ta ->
  exists m, SolvePow ctxErr ch salt expireAt difficulty = Ok m /\ (0 <= m <= k)%Z /\
    DeepSeekHashV1 (bytesOf (BuildPrefix salt expireAt +:+ pretty m)) = ta /\
    forall j, (0 <= j < m)%Z ->
      DeepSeekHashV1 (bytesOf (BuildPrefix salt expireAt +:+ pretty j)) <> ta.
Proof.
  intros Hctx Hd Hlen Hhex Hk Hsol. setoid_rewrite bytesOf_app.
  pose proof (SolvePow_spec ctxErr ch salt expireAt difficulty ta Hd Hlen Hhex) as H.
  cbv zeta in H. destruct (SolvePow _ _ _ _ _) as [m|[]]; try done.
  - destruct H as (Hm & Heq & Hmin). exists m. repeat split; try done; [lia|].
    destruct (Z.le_gt_cases m k); [done|]. by destruct (Hmin k ltac:(lia)).
  - destruct H as (j & _ & Hj & _). by rewrite Hctx in Hj.
  - by destruct (H k Hk).
Qed.

Lemma SolvePow_finds_least_witness :
  exists m, SolvePow (fun _ => None (A := unit))
    "d4a2ea58c89e40887c933484868380c6f803eaa8dc53a3b9df8e431b921a4f09" "testsalt" 1700000000 43 = Ok m.
Proof.
  destruct (SolvePow_finds_least (fun _ => None (A := unit))
    "d4a2ea58c89e40887c933484868380c6f803eaa8dc53a3b9df8e431b921a4f09" "testsalt" 1700000000 43
    (DeepSeekHashV1 (bytesOf "testsalt_1700000000_42")) 42) as (m & H & _).
  - done.
  - by vm_compute.
  - reflexivity.
  - vm_compute. reflexivity.
  - lia.
  - vm_compute. reflexivity.
  - exists m. exact H.
Defined.

(** [SolvePow] on every other branch: a challenge that is not 64
    characters or not hexadecimal is refused before any hashing; a cancelled
    context is only noticed at a nonce that is a multiple of 1024; and
    [ErrNoSolution] means that no nonce below the difficulty matches. *)
Theorem SolvePow_errors {E} (ctxErr : Z -> option E) (ch salt : string)
  (expireAt difficulty : Z) :
  (difficulty <= maxInt)%Z ->
  match SolvePow ctxErr ch salt expireAt difficulty with
  | Ok m => (0 <= m < difficulty)%Z
  | Err ErrChallengeLength => String.length ch <> 64%nat
  | Err ErrHexDecode => String.length ch = 64%nat /\ hexDecode (bytesOf ch) = None
  | Err (ErrContext e) => exists k, (0 <= k < difficulty)%Z /\ ctxErr k = Some e /\
      (k mod 1024 = 0)%Z
  | Err ErrNoSolution => forall k, (0 <= k < difficulty)%Z ->
      Some (DeepSeekHashV1 (bytesOf (BuildPrefix salt expireAt +:+ pretty k)))
      <> hexDecode (bytesOf ch)
  | Err _ => False
  end.
Proof.
  intros Hd.
  destruct (Nat.eqb_spec (String.length ch) 64) as [Hlen|Hlen]; cycle 1.
  { unfold SolvePow. apply Nat.eqb_neq in Hlen as Hl. rewrite Hl. done. }
  destruct (hexDecode (bytesOf ch)) as [ta|] eqn:Hhex; cycle 1.
  { unfold SolvePow. rewrite Hlen, Hhex. done. }
  pose proof (SolvePow_spec ctxErr ch salt expireAt difficulty ta Hd Hlen Hhex) as H.
  cbv zeta in H. destruct (SolvePow _ _ _ _ _) as [m|[]]; try done.
  - apply H.
  - intros k Hk. rewrite bytesOf_app. intros [= Heq]. by apply (H k Hk).
Qed.

Lemma SolvePow_errors_witness :
  String.length "zz" <> 64%nat.
Proof.
  apply (SolvePow_errors (fun _ => None (A := unit)) "zz" "salt" 1 100). by vm_compute.
Defined.
