(* ===== verification/GoString.v ===== *)
(** Go's string primitives, as the sources use them.

    A Go string is a sequence of bytes: stdpp's [string].  [TrimSpace] follows
    [unicode.IsSpace] over the UTF-8 encodings of the white-space code points;
    the case mappings are those of [strings.ToLower], [strings.ToUpper] and
    [strings.EqualFold] as far as they are observable by comparing the result
    with ASCII text: the only non-ASCII code points that map to an ASCII letter
    (long s, Kelvin sign, dotless and dotted i) are mapped, and so is turned a,
    as an instance of the letters whose upper-case form has a longer encoding;
    every other non-ASCII byte is kept. *)
From S2P Require Import Prelude.
From Stdlib Require Import Ascii.

(** ** Code of a byte *)

Definition code (c : Ascii.ascii) : N := Ascii.N_of_ascii c.

Definition isDigit (c : Ascii.ascii) : bool := (48 <=? code c)%N && (code c <=? 57)%N.
Definition isUpper (c : Ascii.ascii) : bool := (65 <=? code c)%N && (code c <=? 90)%N.
Definition isLower (c : Ascii.ascii) : bool := (97 <=? code c)%N && (code c <=? 122)%N.

(** ** White space *)

(** The one-byte white-space characters: tab, LF, VT, FF, CR, space. *)
Definition space1 (a : Ascii.ascii) : bool :=
  ((9 <=? code a)%N && (code a <=? 13)%N) || (code a =? 32)%N.

(** U+0085 and U+00A0. *)
Definition space2 (a b : Ascii.ascii) : bool :=
  (code a =? 0xC2)%N && ((code b =? 0x85)%N || (code b =? 0xA0)%N).

(** U+1680, U+2000 to U+200A, U+2028, U+2029, U+202F, U+205F, U+3000. *)
Definition space3 (a b c : Ascii.ascii) : bool :=
  ((code a =? 0xE1)%N && (code b =? 0x9A)%N && (code c =? 0x80)%N)
  || ((code a =? 0xE2)%N && (code b =? 0x80)%N &&
      (((0x80 <=? code c)%N && (code c <=? 0x8A)%N) || (code c =? 0xA8)%N ||
       (code c =? 0xA9)%N || (code c =? 0xAF)%N))
  || ((code a =? 0xE2)%N && (code b =? 0x81)%N && (code c =? 0x9F)%N)
  || ((code a =? 0xE3)%N && (code b =? 0x80)%N && (code c =? 0x80)%N).

(** [strings.TrimLeftFunc(s, unicode.IsSpace)] *)
Fixpoint trimLeftSpace (s : string) : string :=
  match s with
  | String a s1 =>
      if space1 a then trimLeftSpace s1 else
      match s1 with
      | String b s2 =>
          if space2 a b then trimLeftSpace s2 else
          match s2 with
          | String c s3 => if space3 a b c then trimLeftSpace s3 else s
          | EmptyString => s
          end
      | EmptyString => s
      end
  | EmptyString => s
  end.

(** The same on a reversed string, whose encodings read backwards. *)
Fixpoint trimLeftSpaceRev (s : string) : string :=
  match s with
  | String c s1 =>
      if space1 c then trimLeftSpaceRev s1 else
      match s1 with
      | String b s2 =>
          if space2 b c then trimLeftSpaceRev s2 else
          match s2 with
          | String a s3 => if space3 a b c then trimLeftSpaceRev s3 else s
          | EmptyString => s
          end
      | EmptyString => s
      end
  | EmptyString => s
  end.

Fixpoint revOnto (s acc : string) : string :=
  match s with
  | EmptyString => acc
  | String c s => revOnto s (String c acc)
  end.

Definition strRev (s : string) : string := revOnto s "".

Definition trimRightSpace (s : string) : string := strRev (trimLeftSpaceRev (strRev s)).

(** [strings.TrimSpace] *)
Definition TrimSpace (s : string) : string := trimRightSpace (trimLeftSpace s).

(** ** Prefixes, suffixes and searches *)

Fixpoint HasPrefix (s p : string) : bool :=
  match p, s with
  | EmptyString, _ => true
  | String a p, String b s => bool_decide (a = b) && HasPrefix s p
  | String _ _, EmptyString => false
  end.

(** [s[n:]] and [s[:n]] for an in-range [n]. *)
Fixpoint strDrop (n : nat) (s : string) : string :=
  match n, s with
  | O, _ => s
  | S n, String _ s => strDrop n s
  | S _, EmptyString => ""
  end.

Fixpoint strTake (n : nat) (s : string) : string :=
  match n, s with
  | O, _ => ""
  | S n, String c s => String c (strTake n s)
  | S _, EmptyString => ""
  end.

Definition TrimPrefix (s p : string) : string :=
  if HasPrefix s p then strDrop (String.length p) s else s.

Definition HasSuffix (s p : string) : bool := HasPrefix (strRev s) (strRev p).

Definition TrimSuffix (s p : string) : string :=
  if HasSuffix s p then strTake (String.length s - String.length p) s else s.

(** [strings.Index]: the position of the first occurrence, [None] for [-1]. *)
Fixpoint Index (s sub : string) : option nat :=
  if HasPrefix s sub then Some O
  else match s with
       | EmptyString => None
       | String _ s => S <$> Index s sub
       end.

Definition Contains (s sub : string) : bool :=
  match Index s sub with Some _ => true | None => false end.

(** [strings.Trim(s, "c")] for a one-byte cut set. *)
Fixpoint trimLeftByte (c : Ascii.ascii) (s : string) : string :=
  match s with
  | String a s' => if bool_decide (a = c) then trimLeftByte c s' else s
  | EmptyString => s
  end.

Definition TrimByte (c : Ascii.ascii) (s : string) : string :=
  strRev (trimLeftByte c (strRev (trimLeftByte c s))).

(** ** Case *)

Definition lowerByte (c : Ascii.ascii) : Ascii.ascii :=
  if isUpper c then Ascii.ascii_of_N (code c + 32) else c.
Definition upperByte (c : Ascii.ascii) : Ascii.ascii :=
  if isLower c then Ascii.ascii_of_N (code c - 32) else c.

(** The bytewise [lower] of [internal/config/models.go]. *)
Fixpoint lower (s : string) : string :=
  match s with
  | EmptyString => ""
  | String c s => String (lowerByte c) (lower s)
  end.

(** [strings.ToLower]: U+212A and U+0130 become ASCII letters. *)
Fixpoint ToLower (s : string) : string :=
  match s with
  | String a s1 =>
      match s1 with
      | String b s2 =>
          if (code a =? 0xC4)%N && (code b =? 0xB0)%N then String "i"%char (ToLower s2) else
          match s2 with
          | String c s3 =>
              if (code a =? 0xE2)%N && (code b =? 0x84)%N && (code c =? 0xAA)%N
              then String "k"%char (ToLower s3) else String (lowerByte a) (ToLower s1)
          | EmptyString => String (lowerByte a) (ToLower s1)
          end
      | EmptyString => String (lowerByte a) (ToLower s1)
      end
  | EmptyString => ""
  end.

(** [strings.ToUpper]: U+0131 and U+017F become ASCII letters, U+0250 (two bytes)
    becomes U+2C6F (three bytes). *)
Fixpoint ToUpper (s : string) : string :=
  match s with
  | String a s1 =>
      match s1 with
      | String b s2 =>
          if (code a =? 0xC4)%N && (code b =? 0xB1)%N then String "I"%char (ToUpper s2) else
          if (code a =? 0xC5)%N && (code b =? 0xBF)%N then String "S"%char (ToUpper s2) else
          if (code a =? 0xC9)%N && (code b =? 0x90)%N
          then String (Ascii.ascii_of_N 0xE2) (String (Ascii.ascii_of_N 0xB1) (String (Ascii.ascii_of_N 0xAF) (ToUpper s2))) else
          String (upperByte a) (ToUpper s1)
      | EmptyString => String (upperByte a) (ToUpper s1)
      end
  | EmptyString => ""
  end.

(** Simple case folding to lower case: U+017F and U+212A fold to ASCII. *)
Fixpoint foldCase (s : string) : string :=
  match s with
  | String a s1 =>
      match s1 with
      | String b s2 =>
          if (code a =? 0xC5)%N && (code b =? 0xBF)%N then String "s" (foldCase s2) else
          match s2 with
          | String c s3 =>
              if (code a =? 0xE2)%N && (code b =? 0x84)%N && (code c =? 0xAA)%N
              then String "k"%char (foldCase s3) else String (lowerByte a) (foldCase s1)
          | EmptyString => String (lowerByte a) (foldCase s1)
          end
      | EmptyString => String (lowerByte a) (foldCase s1)
      end
  | EmptyString => ""
  end.

(** [strings.EqualFold(s, t)] for an ASCII [t]. *)
Definition EqualFold (s t : string) : bool := bool_decide (foldCase s = foldCase t).

(** ** Integers *)

Fixpoint digitsVal (s : string) (acc : Z) : option Z :=
  match s with
  | EmptyString => Some acc
  | String c s =>
      if isDigit c then digitsVal s (acc * 10 + (Z.of_N (code c) - 48))%Z else None
  end.

(** [strconv.Atoi] *)
Definition Atoi (s : string) : option Z :=
  let '(neg, body) :=
    match s with
    | String "-"%char r => (true, r)
    | String "+"%char r => (false, r)
    | _ => (false, s)
    end in
  if bool_decide (body = "") then None
  else match digitsVal body 0 with
       | Some v =>
           let v := if neg then (- v)%Z else v in
           if (minInt <=? v)%Z && (v <=? maxInt)%Z then Some v else None
       | None => None
       end.

(** ** Trimming *)

Lemma append_cons (c : ascii) (s t : string) : String c s +:+ t = String c (s +:+ t).
Proof. reflexivity. Qed.

Lemma append_nil_l (s : string) : "" +:+ s = s.
Proof. reflexivity. Qed.

Lemma length_append (s t : string) : String.length (s +:+ t) = String.length s + String.length t.
Proof. induction s; [done|]. rewrite append_cons. simpl. by f_equal. Qed.

Lemma HasPrefix_nil (s : string) : HasPrefix s "" = true.
Proof. by destruct s. Qed.

Lemma HasPrefix_app (p s : string) : HasPrefix (p +:+ s) p = true.
Proof.
  induction p as [|c p IH]; [apply HasPrefix_nil|].
  rewrite append_cons. cbn [HasPrefix]. by rewrite bool_decide_eq_true_2, IH.
Qed.

Lemma append_nil_r (s : string) : s +:+ "" = s.
Proof. induction s; [done|]. rewrite append_cons. by f_equal. Qed.

Lemma append_assoc (s t u : string) : (s +:+ t) +:+ u = s +:+ (t +:+ u).
Proof. induction s; [done|]. rewrite !append_cons. by f_equal. Qed.

(** Induction on the length of a string. *)
Lemma string_length_ind (P : string -> Prop) :
  (forall s, (forall t, String.length t < String.length s -> P t) -> P s) -> forall s, P s.
Proof.
  intros H s. remember (String.length s) as n eqn:Hn. revert s Hn.
  induction n as [n IH] using lt_wf_ind. intros s ->. apply H. eauto.
Qed.

(** The rest of a string after a leading white-space code point, whose two- and
    three-byte encodings [f2] and [f3] recognise. *)
Definition leadRest (f2 : ascii -> ascii -> bool) (f3 : ascii -> ascii -> ascii -> bool)
  (s : string) : option string :=
  match s with
  | String a s1 =>
      if space1 a then Some s1 else
      match s1 with
      | String b s2 =>
          if f2 a b then Some s2 else
          match s2 with
          | String c s3 => if f3 a b c then Some s3 else None
          | EmptyString => None
          end
      | EmptyString => None
      end
  | EmptyString => None
  end.

Definition leadSpace : string -> option string := leadRest space2 space3.
Definition leadSpaceRev : string -> option string :=
  leadRest (fun c b => space2 b c) (fun c b a => space3 a b c).

Lemma trimLeftSpace_eq (s : string) :
  trimLeftSpace s = match leadSpace s with Some r => trimLeftSpace r | None => s end.
Proof.
  destruct s as [|a s1]; [done|]. cbn. destruct (space1 a); [done|].
  destruct s1 as [|b s2]; [done|]. destruct (space2 a b); [done|].
  destruct s2 as [|c s3]; [done|]. by destruct (space3 a b c).
Qed.

Lemma trimLeftSpaceRev_eq (s : string) :
  trimLeftSpaceRev s = match leadSpaceRev s with Some r => trimLeftSpaceRev r | None => s end.
Proof.
  destruct s as [|c s1]; [done|]. cbn. destruct (space1 c); [done|].
  destruct s1 as [|b s2]; [done|]. destruct (space2 b c); [done|].
  destruct s2 as [|a s3]; [done|]. by destruct (space3 a b c).
Qed.

Lemma leadRest_suffix f2 f3 (s r : string) :
  leadRest f2 f3 s = Some r ->
  String.length r < String.length s /\ exists p, s = p +:+ r.
Proof.
  destruct s as [|a [|b [|c s]]]; simpl; intros H; repeat case_match; simplify_eq/=;
    (split; [lia|]); try (by exists (String a ""));
    try (by exists (String a (String b ""))); by exists (String a (String b (String c ""))).
Qed.

Lemma leadRest_app f2 f3 (s t : string) :
  leadRest f2 f3 (s +:+ t) = None -> leadRest f2 f3 s = None.
Proof.
  destruct s as [|a [|b [|c s]]]; rewrite ?append_cons; simpl; intros H;
    repeat case_match; simplify_eq/=; done.
Qed.

Section Trim.
Variables (f2 : ascii -> ascii -> bool) (f3 : ascii -> ascii -> ascii -> bool).
Variable trim : string -> string.
Hypothesis trim_eq : forall s,
  trim s = match leadRest f2 f3 s with Some r => trim r | None => s end.

Lemma trim_lead (s : string) : leadRest f2 f3 (trim s) = None.
Proof.
  induction s as [s IH] using string_length_ind. rewrite trim_eq.
  destruct (leadRest f2 f3 s) as [r|] eqn:H; [|done].
  apply IH. by apply leadRest_suffix in H as [? _].
Qed.

Lemma trim_suffix (s : string) : exists p, s = p +:+ trim s.
Proof.
  induction s as [s IH] using string_length_ind. rewrite trim_eq.
  destruct (leadRest f2 f3 s) as [r|] eqn:H; [|by exists ""].
  apply leadRest_suffix in H as [Hl [p Hp]]. destruct (IH r Hl) as [q Hq].
  exists (p +:+ q). rewrite append_assoc, <- Hq. done.
Qed.

Lemma trim_fix (s : string) : leadRest f2 f3 s = None -> trim s = s.
Proof. intros H. by rewrite trim_eq, H. Qed.
End Trim.

Lemma revOnto_app (s acc : string) : revOnto s acc = strRev s +:+ acc.
Proof.
  unfold strRev. revert acc. induction s as [|c s IH]; intros acc; simpl; [done|].
  rewrite IH, (IH (String c "")), append_assoc. done.
Qed.

Lemma strRev_app (s t : string) : strRev (s +:+ t) = strRev t +:+ strRev s.
Proof.
  induction s as [|c s IH]; [by rewrite append_nil_l, append_nil_r|].
  rewrite append_cons. change (strRev (String c ?s)) with (revOnto s (String c "")).
  rewrite !revOnto_app, IH, append_assoc. done.
Qed.

Lemma strRev_involutive (s : string) : strRev (strRev s) = s.
Proof.
  induction s as [|c s IH]; [done|].
  change (strRev (String c s)) with (revOnto s (String c "")).
  rewrite revOnto_app, strRev_app, IH. done.
Qed.

(** Trimmed strings are fixed points of [TrimSpace]. *)
Lemma TrimSpace_idem (s : string) : TrimSpace (TrimSpace s) = TrimSpace s.
Proof.
  unfold TrimSpace, trimRightSpace.
  set (l := trimLeftSpace s).
  set (r := trimLeftSpaceRev (strRev l)).
  destruct (trim_suffix _ _ trimLeftSpaceRev trimLeftSpaceRev_eq (strRev l)) as [p Hp].
  fold r in Hp.
  assert (Hl : trimLeftSpace (strRev r) = strRev r).
  { apply (trim_fix _ _ trimLeftSpace trimLeftSpace_eq).
    apply (leadRest_app space2 space3 _ (strRev p)).
    rewrite <- strRev_app, <- Hp, strRev_involutive.
    apply (trim_lead _ _ trimLeftSpace trimLeftSpace_eq). }
  rewrite Hl, strRev_involutive.
  f_equal. apply (trim_fix _ _ trimLeftSpaceRev trimLeftSpaceRev_eq).
  apply (trim_lead _ _ trimLeftSpaceRev trimLeftSpaceRev_eq).
Qed.

Lemma TrimSpace_empty : TrimSpace "" = "".
Proof. done. Qed.

(** ** Slices and searches *)

Lemma Index_spec (s sub : string) (i : nat) :
  Index s sub = Some i -> HasPrefix (strDrop i s) sub = true /\ (i <= String.length s)%nat.
Proof.
  revert i. induction s as [|c s IH]; intros i; cbn [Index].
  - destruct (HasPrefix "" sub) eqn:E; [|done]. intros [= <-]. by split.
  - destruct (HasPrefix (String c s) sub) eqn:E.
    + intros [= <-]. split; [done|]. lia.
    + destruct (Index s sub) as [j|]; [|done]. intros [= <-]. destruct (IH j eq_refl). simpl. split; [done|lia].
Qed.

Lemma strTake_drop (n : nat) (s : string) : strTake n s +:+ strDrop n s = s.
Proof.
  revert s. induction n as [|n IH]; intros [|c s]; try done.
  cbn [strTake strDrop]. by rewrite append_cons, IH.
Qed.

Lemma strDrop_app (p s : string) : strDrop (String.length p) (p +:+ s) = s.
Proof. induction p as [|c p IH]; [by destruct s|]. rewrite append_cons. simpl. exact IH. Qed.

Lemma HasPrefix_length (s p : string) : HasPrefix s p = true -> (String.length p <= String.length s)%nat.
Proof.
  revert s. induction p as [|c p IH]; intros [|d s]; simpl; try done; try lia.
  intros [_ H]%andb_true_iff. apply IH in H. lia.
Qed.

Lemma length_strDrop (n : nat) (s : string) : String.length (strDrop n s) = String.length s - n.
Proof. revert s. induction n as [|n IH]; intros [|c s]; simpl; auto. Qed.

Lemma length_strTake (n : nat) (s : string) : String.length (strTake n s) = n `min` String.length s.
Proof. revert s. induction n as [|n IH]; intros [|c s]; simpl; auto. Qed.

Lemma strDrop_drop (n m : nat) (s : string) : strDrop n (strDrop m s) = strDrop (m + n) s.
Proof. revert s. induction m as [|m IH]; intros [|c s]; simpl; auto. by destruct n. Qed.

Lemma strDrop_all (n : nat) (s : string) : String.length s <= n -> strDrop n s = "".
Proof. revert s. induction n as [|n IH]; intros [|c s]; simpl; intros H; try done; [lia|]. apply IH. lia. Qed.

Lemma strTake_all (n : nat) (s : string) : String.length s <= n -> strTake n s = s.
Proof. revert s. induction n as [|n IH]; intros [|c s]; simpl; intros H; try done; [lia|]. f_equal. apply IH. lia. Qed.

Lemma strTake_app (p s : string) : strTake (String.length p) (p +:+ s) = p.
Proof. induction p as [|c p IH]; [by destruct s|]. rewrite append_cons. simpl. by f_equal. Qed.

Lemma strTake_plus (n m : nat) (s : string) : strTake (n + m) s = strTake n s +:+ strTake m (strDrop n s).
Proof. revert s. induction n as [|n IH]; intros [|c s]; simpl; try done; [by destruct m|]. by rewrite IH. Qed.

Lemma ToLower_length (s : string) : String.length (ToLower s) <= String.length s.
Proof.
  induction s as [s IH] using string_length_ind. destruct s as [|a [|b [|c s]]]; [done|done| |].
  - cbn [ToLower]. destruct (_ && _); [simpl; lia|]. simpl. lia.
  - pose proof (IH (String b (String c s)) ltac:(simpl; lia)) as H1. pose proof (IH (String c s) ltac:(simpl; lia)) as H2.
    pose proof (IH s ltac:(simpl; lia)) as H3. cbn [ToLower] in *. simpl String.length in *.
    destruct (_ && _) in |- *; [simpl; lia|]. destruct (_ && _ && _) in |- *; simpl; lia.
Qed.

Fixpoint asciiOnly (s : string) : bool := match s with EmptyString => true | String c s => (code c <? 128)%N && asciiOnly s end.

Lemma ToLower_ascii (s : string) : asciiOnly s = true -> ToLower s = lower s.
Proof.
  induction s as [|a s IH]; [done|]. cbn [asciiOnly]. intros [Ha Hs]%andb_true_iff. apply N.ltb_lt in Ha. specialize (IH Hs).
  destruct s as [|b s]; [done|]. cbn [ToLower]. destruct (N.eqb_spec (code a) 0xC4); [lia|]. cbn [andb]. destruct s as [|c s].
  - by cbn [lower] in *; rewrite <- IH.
  - destruct (N.eqb_spec (code a) 0xE2); [lia|]. cbn [andb lower] in *. by rewrite <- IH.
Qed.

Lemma lower_length (s : string) : String.length (lower s) = String.length s.
Proof. induction s; simpl; auto. Qed.

(** ** Byte-wise lower case and white space *)

Lemma code_lowerByte (a : ascii) (n : N) : (128 <= n)%N -> (code (lowerByte a) =? n)%N = (code a =? n)%N.
Proof.
  intros Hn. unfold lowerByte. destruct (isUpper a) eqn:E; [|done].
  unfold isUpper in E. apply andb_true_iff in E as [E1 E2]. apply N.leb_le in E1, E2.
  assert (Hc : code (Ascii.ascii_of_N (code a + 32)) = (code a + 32)%N) by (apply Ascii.N_ascii_embedding; lia).
  rewrite Hc. transitivity false; [apply N.eqb_neq; lia|symmetry; apply N.eqb_neq; lia].
Qed.

Lemma space1_lower (a : ascii) : space1 (lowerByte a) = space1 a.
Proof. by destruct a as [[] [] [] [] [] [] [] []]. Qed.

Lemma space2_lower (a b : ascii) : space2 (lowerByte a) (lowerByte b) = space2 a b.
Proof. unfold space2. by rewrite !code_lowerByte by lia. Qed.

Lemma range_lower (a : ascii) :
  ((0x80 <=? code (lowerByte a))%N && (code (lowerByte a) <=? 0x8A)%N) = ((0x80 <=? code a)%N && (code a <=? 0x8A)%N).
Proof. by destruct a as [[] [] [] [] [] [] [] []]. Qed.

Lemma space3_lower (a b c : ascii) : space3 (lowerByte a) (lowerByte b) (lowerByte c) = space3 a b c.
Proof. unfold space3. rewrite !code_lowerByte by lia. by rewrite range_lower. Qed.

Lemma leadRest_lower f2 f3 (s : string) :
  (forall a b, f2 (lowerByte a) (lowerByte b) = f2 a b) -> (forall a b c, f3 (lowerByte a) (lowerByte b) (lowerByte c) = f3 a b c) ->
  leadRest f2 f3 (lower s) = lower <$> leadRest f2 f3 s.
Proof.
  intros H2 H3. destruct s as [|a [|b [|c s]]]; simpl; rewrite ?space1_lower, ?H2, ?H3; repeat case_match; done.
Qed.

Lemma trim_lower f2 f3 (trim : string -> string) (s : string) :
  (forall s, trim s = match leadRest f2 f3 s with Some r => trim r | None => s end) ->
  (forall s, leadRest f2 f3 (lower s) = lower <$> leadRest f2 f3 s) -> trim (lower s) = lower (trim s).
Proof.
  intros Heq Hl. induction s as [s IH] using string_length_ind. rewrite Heq, (Heq s), Hl.
  destruct (leadRest f2 f3 s) as [r|] eqn:E; [|done]. simpl. apply IH. by apply leadRest_suffix in E as [? _].
Qed.

Lemma trimLeftSpace_lower (s : string) : trimLeftSpace (lower s) = lower (trimLeftSpace s).
Proof.
  apply (trim_lower space2 space3); [apply trimLeftSpace_eq|]. intros t. apply leadRest_lower; [apply space2_lower|apply space3_lower].
Qed.

Lemma trimLeftSpaceRev_lower (s : string) : trimLeftSpaceRev (lower s) = lower (trimLeftSpaceRev s).
Proof.
  apply (trim_lower (fun c b => space2 b c) (fun c b a => space3 a b c)); [apply trimLeftSpaceRev_eq|]. intros t.
  apply leadRest_lower; intros; [apply space2_lower|apply space3_lower].
Qed.

Lemma lower_app (s t : string) : lower (s +:+ t) = lower s +:+ lower t.
Proof. induction s as [|c s IH]; [done|]. rewrite append_cons. cbn [lower]. by rewrite IH. Qed.

Lemma lower_strRev (s : string) : strRev (lower s) = lower (strRev s).
Proof.
  induction s as [|c s IH]; [done|]. change (lower (String c s)) with (String (lowerByte c) (lower s)).
  change (strRev (String ?d ?u)) with (revOnto u (String d "")). rewrite !revOnto_app, IH, lower_app. done.
Qed.

Lemma TrimSpace_lower (s : string) : TrimSpace (lower s) = lower (TrimSpace s).
Proof.
  unfold TrimSpace, trimRightSpace. by rewrite trimLeftSpace_lower, lower_strRev, trimLeftSpaceRev_lower, lower_strRev.
Qed.

Lemma lower_idem (s : string) : lower (lower s) = lower s.
Proof. induction s as [|c s IH]; [done|]. cbn [lower]. rewrite IH. f_equal. by destruct c as [[] [] [] [] [] [] [] []]. Qed.

(** ** Suffixes *)

Lemma HasPrefix_spec (s p : string) : HasPrefix s p = true -> exists r, s = p +:+ r.
Proof.
  revert s. induction p as [|c p IH]; intros s H; [by exists s|]. destruct s as [|d s]; [done|]. cbn [HasPrefix] in H.
  apply andb_true_iff in H as [->%bool_decide_eq_true_1 H]. destruct (IH s H) as [r ->]. by exists r.
Qed.

Lemma HasSuffix_spec (s p : string) : HasSuffix s p = true -> s = TrimSuffix s p +:+ p.
Proof.
  intros H. unfold TrimSuffix. rewrite H. unfold HasSuffix in H. apply HasPrefix_spec in H as [r Hr].
  apply (f_equal strRev) in Hr. rewrite strRev_involutive, strRev_app, strRev_involutive in Hr. rewrite Hr at 2 3.
  rewrite length_append. replace (_ + _ - _) with (String.length (strRev r)) by lia. rewrite strTake_app. exact Hr.
Qed.

Lemma HasSuffix_app (s p : string) : HasSuffix (s +:+ p) p = true.
Proof. unfold HasSuffix. rewrite strRev_app. apply HasPrefix_app. Qed.

Lemma TrimSuffix_app (s p : string) : TrimSuffix (s +:+ p) p = s.
Proof.
  unfold TrimSuffix. rewrite HasSuffix_app, length_append. replace (_ + _ - _) with (String.length s) by lia. apply strTake_app.
Qed.

(** Bytes that neither start nor end a white-space encoding. *)
Definition plainByte (c : ascii) : bool := (code c <? 128)%N && negb (space1 c).

Lemma plain_leadSpace (c : ascii) (s : string) :
  plainByte c = true -> leadSpace (String c s) = None /\ leadSpaceRev (String c s) = None.
Proof.
  unfold plainByte. rewrite andb_true_iff, negb_true_iff, N.ltb_lt. intros [Hc Hs].
  assert (H2 : forall b, space2 c b = false /\ space2 b c = false).
  { intros b. unfold space2. split; apply not_true_iff_false; intros H;
      repeat (apply andb_true_iff in H as [H ?] || apply orb_true_iff in H as [H|H]
              || match goal with H : (_ || _)%bool = true |- _ => apply orb_true_iff in H as [H|H] end);
      rewrite ?N.eqb_eq in *; lia. }
  assert (H3 : forall b d, space3 c b d = false /\ space3 b d c = false).
  { intros b d. unfold space3. split; apply not_true_iff_false; intros H;
      repeat match goal with
             | H : (_ || _)%bool = true |- _ => apply orb_true_iff in H as [H|H]
             | H : (_ && _)%bool = true |- _ => apply andb_true_iff in H as [? ?]
             end; rewrite ?N.eqb_eq, ?N.leb_le in *; lia. }
  unfold leadSpace, leadSpaceRev, leadRest. rewrite Hs.
  split; destruct s as [|b [|d s]]; try done;
    rewrite ?(proj1 (H2 _)), ?(proj2 (H2 _)), ?(proj1 (H3 _ _)), ?(proj2 (H3 _ _)); done.
Qed.

(** A string delimited by plain bytes is already trimmed. *)
Lemma TrimSpace_plain (c d : ascii) (s : string) :
  plainByte c = true -> plainByte d = true ->
  TrimSpace (String c (s +:+ String d "")) = String c (s +:+ String d "").
Proof.
  intros Hc Hd. unfold TrimSpace, trimRightSpace.
  rewrite (trim_fix _ _ trimLeftSpace trimLeftSpace_eq) by (by apply plain_leadSpace).
  rewrite <- append_cons, strRev_app.
  change (strRev (String d "")) with (String d ""). rewrite append_cons, append_nil_l.
  rewrite (trim_fix _ _ trimLeftSpaceRev trimLeftSpaceRev_eq) by (by apply plain_leadSpace).
  change (String d (strRev (String c s))) with (String d "" +:+ strRev (String c s)).
  by rewrite strRev_app, strRev_involutive.
Qed.
