(* ===== verification/Config.v ===== *)
(** Accounts and the configuration store: [internal/config].

    [Account] and its identity (account.go, mobile.go), the in-memory store with
    its lookup indexes (store.go, store_index.go) and the runtime limits read
    from the configuration or the environment (store_accessors.go).  The store
    keeps the part of [Config] the account subsystem reads: keys, accounts and
    the runtime section.  [os.Getenv] is a function argument; an unset variable
    is the empty string, as in Go. *)
From S2P Require Import Prelude GoString.
From Stdlib Require Import Ascii.
Local Open Scope Z_scope.

(** ** Accounts *)

Record Account := {
  Name : string;
  Remark : string;
  Email : string;
  Mobile : string;
  Password : string;
  Token : string;
  ProxyID : string;
  ProxyAutoRoute : bool;
  Disabled : bool;
  DisabledReason : string;
  DisabledAtUnix : Z;
  CooldownState : string;
  CooldownUntilUnix : Z
}.

(** [Account{}] *)
Definition zeroAccount : Account := {|
  Name := ""; Remark := ""; Email := ""; Mobile := ""; Password := ""; Token := "";
  ProxyID := ""; ProxyAutoRoute := false; Disabled := false; DisabledReason := "";
  DisabledAtUnix := 0; CooldownState := ""; CooldownUntilUnix := 0 |}.

#[global] Instance Account_eq_dec : EqDecision Account.
Proof. solve_decision. Defined.

Definition AccountDisabledInvalidCredentials : string := "invalid_credentials".
Definition AccountDisabledUpstreamBanned : string := "upstream_banned".
Definition AccountCooldownRateLimited : string := "rate_limited".
Definition AccountCooldownTemporarilyMuted : string := "temporarily_muted".

Definition withIdentity (a : Account) (email mobile : string) : Account := {|
  Name := Name a; Remark := Remark a; Email := email; Mobile := mobile;
  Password := Password a; Token := Token a; ProxyID := ProxyID a;
  ProxyAutoRoute := ProxyAutoRoute a; Disabled := Disabled a;
  DisabledReason := DisabledReason a; DisabledAtUnix := DisabledAtUnix a;
  CooldownState := CooldownState a; CooldownUntilUnix := CooldownUntilUnix a |}.

Definition withToken (a : Account) (token : string) : Account := {|
  Name := Name a; Remark := Remark a; Email := Email a; Mobile := Mobile a;
  Password := Password a; Token := token; ProxyID := ProxyID a;
  ProxyAutoRoute := ProxyAutoRoute a; Disabled := Disabled a;
  DisabledReason := DisabledReason a; DisabledAtUnix := DisabledAtUnix a;
  CooldownState := CooldownState a; CooldownUntilUnix := CooldownUntilUnix a |}.

(** ** Mobile numbers *)

Definition isMobileSeparator (c : ascii) : bool :=
  bool_decide (c ∈ [" "; "009"; "010"; "013"; "-"; "("; ")"; "."; "/"]%char).

(** The scan before [collect]: a leading [+], possibly after separators. *)
Fixpoint leadingPlus (s : string) : bool :=
  match s with
  | EmptyString => false
  | String c s =>
      if isDigit c then false
      else if isMobileSeparator c then leadingPlus s
      else bool_decide (c = "+"%char)
  end.

Fixpoint filterDigits (s : string) : string :=
  match s with
  | EmptyString => ""
  | String c s => if isDigit c then String c (filterDigits s) else filterDigits s
  end.

Definition extractMobileDigits (raw : string) : string * bool :=
  let s := TrimSpace raw in
  if bool_decide (s = "") then ("", false)
  else (filterDigits s, leadingPlus s).

Definition isChinaMainlandMobileDigits (digits : string) : bool :=
  match digits with
  | String a (String b _) =>
      (String.length digits =? 11)%nat && bool_decide (a = "1"%char)
      && (51 <=? code b)%N && (code b <=? 57)%N
  | _ => false
  end.

Definition isChinaMobileWithCountryCode (digits : string) : bool :=
  (String.length digits =? 13)%nat && HasPrefix digits "86"
  && isChinaMainlandMobileDigits (strDrop 2 digits).

Definition NormalizeMobileForStorage (raw : string) : string :=
  let '(digits, hasPlus) := extractMobileDigits raw in
  if bool_decide (digits = "") then ""
  else if hasPlus then "+" +:+ digits
  else if isChinaMobileWithCountryCode digits then "+86" +:+ strDrop 2 digits
  else if isChinaMainlandMobileDigits digits then "+86" +:+ digits
  else "+" +:+ digits.

Definition CanonicalMobileKey (raw : string) : string := NormalizeMobileForStorage raw.

(** ** Identity *)

Definition looksLikeEmailIdentifier (raw : string) : bool := Contains (TrimSpace raw) "@".

Definition NormalizeAccountIdentity (a : Account) : Account :=
  let email := TrimSpace (Email a) in
  let mobile := TrimSpace (Mobile a) in
  if bool_decide (email = "") && looksLikeEmailIdentifier mobile
  then withIdentity a mobile ""
  else withIdentity a email (NormalizeMobileForStorage mobile).

Definition Identifier (a : Account) : string :=
  let a := NormalizeAccountIdentity a in
  if negb (bool_decide (TrimSpace (Email a) = "")) then TrimSpace (Email a)
  else if negb (bool_decide (TrimSpace (Mobile a) = "")) then TrimSpace (Mobile a)
  else "".

(** [accountIdentifiersMatch] of store.go. *)
Definition accountIdentifiersMatch (acc : Account) (identifier : string) : bool :=
  if bool_decide (identifier = "") then false
  else if bool_decide (TrimSpace (Email acc) = identifier) || bool_decide (Identifier acc = identifier)
  then true
  else
    let mobile := CanonicalMobileKey identifier in
    negb (bool_decide (mobile = "")) && bool_decide (mobile = CanonicalMobileKey (Mobile acc)).

(** [normalizeAccountCooldown], with [time.Now().Unix()] as [nowUnix]. *)
Definition normalizeAccountCooldown (nowUnix : Z) (state : string) (untilUnix : Z) : string * Z :=
  let state := ToLower (TrimSpace state) in
  if negb (bool_decide (state = AccountCooldownRateLimited))
     && negb (bool_decide (state = AccountCooldownTemporarilyMuted)) then ("", 0)
  else if untilUnix <=? nowUnix then ("", 0)
  else (state, untilUnix).

(** ** The store *)

Record RuntimeConfig := {
  AccountMaxInflight : Z;
  AccountMaxQueue : Z;
  GlobalMaxInflight : Z
}.

Record AccountTestResult := {
  Status : string; Phase : string; FailureReason : string; ErrorCode : Z;
  HTTPStatus : Z; AccountState : string; AutoDisabled : bool; ConfigWarning : string;
  ResponseTimeMs : Z; UpdatedAtUnix : Z
}.

Record Store := {
  sKeys : list string;
  sAccounts : list Account;
  sRuntime : RuntimeConfig;
  keyMap : gset string;
  accMap : gmap string nat;
  accTest : gmap string string;
  accTestResult : gmap string AccountTestResult;
  accSess : gmap string Z
}.

(** Write a value under every non-empty name of the account: its identifier, its
    e-mail address, its canonical mobile number and the hinted identifier. *)
Definition setAccountNames {V} (m : gmap string V) (acc : Account) (hinted : string) (v : V)
  : gmap string V :=
  let put k m := if bool_decide (k = "") then m else <[k := v]> m in
  put (lower hinted) (put (CanonicalMobileKey (Mobile acc)) (put (Email acc) (put (Identifier acc) m))).

Definition setAccountTestStatusLocked (m : gmap string string) (acc : Account)
  (status hinted : string) : gmap string string :=
  let status := lower status in
  if bool_decide (status = "") then m else setAccountNames m acc hinted status.

Definition setAccountTestResultLocked (m : gmap string AccountTestResult) (acc : Account)
  (result : AccountTestResult) (hinted : string) : gmap string AccountTestResult :=
  setAccountNames m acc hinted result.

Definition setAccountSessionCountLocked (m : gmap string Z) (acc : Account)
  (count : Z) (hinted : string) : gmap string Z :=
  let count := if count <? 0 then 0 else count in
  setAccountNames m acc hinted count.

(** The account loop of [rebuildIndexes]: account [i] overwrites the index of an
    earlier account with the same identifier and carries its runtime status over. *)
Fixpoint indexAccounts (prev : Store) (i : nat) (accounts : list Account)
  (am : gmap string nat) (at_ : gmap string string) (ar : gmap string AccountTestResult)
  (as_ : gmap string Z)
  : gmap string nat * gmap string string * gmap string AccountTestResult * gmap string Z :=
  match accounts with
  | [] => (am, at_, ar, as_)
  | acc :: rest =>
      let id := Identifier acc in
      if bool_decide (id = "") then indexAccounts prev (S i) rest am at_ ar as_
      else
        let at_ := match accTest prev !! id with
                   | Some status => setAccountTestStatusLocked at_ acc status ""
                   | None => at_ end in
        let ar := match accTestResult prev !! id with
                  | Some result => setAccountTestResultLocked ar acc result ""
                  | None => ar end in
        let as_ := match accSess prev !! id with
                   | Some count => setAccountSessionCountLocked as_ acc count ""
                   | None => as_ end in
        indexAccounts prev (S i) rest (<[id := i]> am) at_ ar as_
  end.

Definition rebuildIndexes (s : Store) : Store :=
  let '(am, at_, ar, as_) := indexAccounts s 0 (sAccounts s) ∅ ∅ ∅ ∅ in
  {| sKeys := sKeys s; sAccounts := sAccounts s; sRuntime := sRuntime s;
     keyMap := list_to_set (sKeys s); accMap := am; accTest := at_;
     accTestResult := ar; accSess := as_ |}.

Definition HasAPIKey (s : Store) (k : string) : bool := bool_decide (k ∈ keyMap s).

Definition Accounts (s : Store) : list Account := sAccounts s.

(** [findAccountIndexLocked]: the index map for the identifier and then for its
    canonical mobile form, an index out of range being a miss; then a scan. *)
Definition accountCandidates (identifier : string) : list string :=
  let mobile := CanonicalMobileKey identifier in
  identifier :: (if negb (bool_decide (mobile = "")) && negb (bool_decide (mobile = identifier))
                 then [mobile] else []).

Fixpoint firstIndexed (s : Store) (keys : list string) : option nat :=
  match keys with
  | [] => None
  | key :: keys =>
      match accMap s !! key with
      | Some idx => if (idx <? length (sAccounts s))%nat then Some idx else firstIndexed s keys
      | None => firstIndexed s keys
      end
  end.

Fixpoint scanAccounts (keys : list string) (i : nat) (accounts : list Account) : option nat :=
  match accounts with
  | [] => None
  | acc :: rest =>
      if bool_decide (Identifier acc ∈ keys) then Some i else scanAccounts keys (S i) rest
  end.

Definition findAccountIndexLocked (s : Store) (identifier : string) : option nat :=
  let candidates := accountCandidates identifier in
  match firstIndexed s candidates with
  | Some idx => Some idx
  | None => scanAccounts candidates 0 (sAccounts s)
  end.

Definition FindAccount (s : Store) (identifier : string) : option Account :=
  match findAccountIndexLocked s (TrimSpace identifier) with
  | Some idx => sAccounts s !! idx
  | None => None
  end.

(** The in-memory effect of [UpdateAccountToken]; its writes to SQLite and to the
    configuration file are I/O. *)
Definition UpdateAccountToken (s : Store) (identifier token : string) : option Store :=
  let identifier := TrimSpace identifier in
  match findAccountIndexLocked s identifier with
  | None => None
  | Some idx =>
      match sAccounts s !! idx with
      | None => None
      | Some acc =>
          let acc' := withToken acc token in
          let put k m := if bool_decide (k = "") then m else <[k := idx]> m in
          Some {| sKeys := sKeys s; sAccounts := <[idx := acc']> (sAccounts s);
                  sRuntime := sRuntime s; keyMap := keyMap s;
                  accMap := put (Identifier acc') (put (Identifier acc) (put identifier (accMap s)));
                  accTest := accTest s; accTestResult := accTestResult s; accSess := accSess s |}
      end
  end.

(** ** Runtime limits (store_accessors.go) *)

Section Limits.
Variable getenv : string -> string.

(** [strconv.Atoi] of the trimmed variable, kept when [ok] holds of it. *)
Definition envInt (name : string) (ok : Z -> bool) : option Z :=
  let raw := TrimSpace (getenv name) in
  if bool_decide (raw = "") then None
  else match Atoi raw with
       | Some n => if ok n then Some n else None
       | None => None
       end.

Definition RuntimeAccountMaxInflight (s : Store) : Z :=
  if 0 <? AccountMaxInflight (sRuntime s) then AccountMaxInflight (sRuntime s)
  else default 2 (envInt "DEEPSEEK_WEB_TO_API_ACCOUNT_MAX_INFLIGHT" (fun n => 0 <? n)).

Definition RuntimeAccountMaxQueue (s : Store) (defaultSize : Z) : Z :=
  if 0 <? AccountMaxQueue (sRuntime s) then AccountMaxQueue (sRuntime s)
  else match envInt "DEEPSEEK_WEB_TO_API_ACCOUNT_MAX_QUEUE" (fun n => 0 <=? n) with
       | Some n => n
       | None => if defaultSize <? 0 then 0 else defaultSize
       end.

Definition RuntimeGlobalMaxInflight (s : Store) (defaultSize : Z) : Z :=
  if 0 <? GlobalMaxInflight (sRuntime s) then GlobalMaxInflight (sRuntime s)
  else match envInt "DEEPSEEK_WEB_TO_API_GLOBAL_MAX_INFLIGHT" (fun n => 0 <? n) with
       | Some n => n
       | None => if defaultSize <? 0 then 0 else defaultSize
       end.
End Limits.

(** ** Lemmas: identity *)

Lemma Identifier_trimmed (a : Account) : TrimSpace (Identifier a) = Identifier a.
Proof.
  unfold Identifier. repeat case_match; auto using TrimSpace_idem.
Qed.

Fixpoint allDigits (s : string) : bool :=
  match s with EmptyString => true | String c s => isDigit c && allDigits s end.

Lemma filterDigits_all (s : string) : allDigits (filterDigits s) = true.
Proof. induction s as [|c s IH]; simpl; [done|]. destruct (isDigit c) eqn:E; simpl; [by rewrite E|done]. Qed.

Lemma filterDigits_id (s : string) : allDigits s = true -> filterDigits s = s.
Proof.
  induction s as [|c s IH]; simpl; [done|]. intros [-> H]%andb_true_iff. by rewrite IH.
Qed.

Lemma allDigits_drop (n : nat) (s : string) : allDigits s = true -> allDigits (strDrop n s) = true.
Proof.
  revert s. induction n as [|n IH]; intros [|c s]; simpl; auto.
  intros [_ H]%andb_true_iff. auto.
Qed.

Lemma isDigit_plain (c : ascii) : isDigit c = true -> plainByte c = true.
Proof.
  unfold isDigit, plainByte, space1. rewrite !andb_true_iff, !N.leb_le. intros [H1 H2].
  rewrite N.ltb_lt, negb_true_iff, orb_false_iff, andb_false_iff, N.eqb_neq, !N.leb_gt. lia.
Qed.

Lemma allDigits_last (s : string) :
  allDigits s = true -> s <> "" -> exists p d, s = p +:+ String d "" /\ isDigit d = true.
Proof.
  induction s as [|c s IH]; [done|]. simpl. intros [Hc Hs]%andb_true_iff _.
  destruct (decide (s = "")) as [->|Hne]; [by exists "", c|].
  destruct (IH Hs Hne) as (p & d & -> & Hd). by exists (String c p), d.
Qed.

(** The canonical form of a number with a country code is a fixed point. *)
Lemma NormalizeMobile_plus (d : string) :
  allDigits d = true -> d <> "" -> NormalizeMobileForStorage ("+" +:+ d) = "+" +:+ d.
Proof.
  intros Hd Hne. unfold NormalizeMobileForStorage, extractMobileDigits.
  assert (Ht : TrimSpace ("+" +:+ d) = "+" +:+ d).
  { destruct (allDigits_last d Hd Hne) as (p & c & -> & Hc).
    change ("+" +:+ (p +:+ String c "")) with (String "+"%char (p +:+ String c "")).
    apply TrimSpace_plain; [done|]. by apply isDigit_plain. }
  rewrite Ht. change ("+" +:+ d) with (String "+"%char d).
  rewrite bool_decide_eq_false_2 by done. cbn -[bool_decide].
  rewrite filterDigits_id by done. by rewrite bool_decide_eq_false_2.
Qed.

Lemma NormalizeMobile_shape (raw : string) :
  NormalizeMobileForStorage raw = "" \/
  exists d, allDigits d = true /\ d <> "" /\ NormalizeMobileForStorage raw = "+" +:+ d.
Proof.
  unfold NormalizeMobileForStorage, extractMobileDigits.
  destruct (bool_decide (TrimSpace raw = "")); [by left|].
  pose proof (filterDigits_all (TrimSpace raw)) as Hd.
  set (d := filterDigits (TrimSpace raw)) in *.
  case_bool_decide as He; [by left|]. right.
  repeat case_match; eauto.
  - exists ("86" +:+ strDrop 2 d). split; [|done].
    by apply (allDigits_drop 2) in Hd.
  - exists ("86" +:+ d). done.
Qed.

Lemma NormalizeMobile_idem (raw : string) :
  NormalizeMobileForStorage (NormalizeMobileForStorage raw) = NormalizeMobileForStorage raw.
Proof.
  destruct (NormalizeMobile_shape raw) as [->|(d & Hd & Hne & ->)]; [done|].
  by apply NormalizeMobile_plus.
Qed.

(** ** Lemmas: the index *)

(** [id] is an identifier of the accounts, and [j] the last position it has. *)
Definition lastWithId (accounts : list Account) (id : string) (j : nat) : Prop :=
  Identifier <$> accounts !! j = Some id /\
  forall k, (j < k)%nat -> Identifier <$> accounts !! k <> Some id.

Fixpoint accIndex (i : nat) (accounts : list Account) (am : gmap string nat) : gmap string nat :=
  match accounts with
  | [] => am
  | acc :: rest =>
      accIndex (S i) rest
        (if bool_decide (Identifier acc = "") then am else <[Identifier acc := i]> am)
  end.

Lemma indexAccounts_map (prev : Store) (i : nat) (accounts : list Account) am at_ ar as_ :
  (indexAccounts prev i accounts am at_ ar as_).1.1.1 = accIndex i accounts am.
Proof.
  revert i am at_ ar as_. induction accounts as [|acc rest IH]; intros; simpl; [done|].
  by case_bool_decide; rewrite IH.
Qed.

Lemma accIndex_lookup (i : nat) (accounts : list Account) am (id : string) (j : nat) :
  id <> "" ->
  accIndex i accounts am !! id = Some j ->
  (am !! id = Some j /\ (forall k, Identifier <$> accounts !! k <> Some id)) \/
  exists k, j = (i + k)%nat /\ lastWithId accounts id k.
Proof.
  intros Hne. revert i am. induction accounts as [|acc rest IH]; intros i am H.
  { left. split; [done|]. intros k. by rewrite lookup_nil. }
  simpl in H.
  apply IH in H as [[H Hno]|(k & -> & Hk & Hlast)].
  - destruct (decide (Identifier acc = id)) as [<-|Hid].
    + rewrite bool_decide_eq_false_2, lookup_insert_eq in H by done. simplify_eq.
      right. exists O. split; [lia|]. split; [done|].
      intros [|k] Hk; [lia|]. simpl. apply Hno.
    + left. split.
      * case_bool_decide; [done|]. by rewrite lookup_insert_ne in H.
      * intros [|k]; simpl; [naive_solver|apply Hno].
  - right. exists (S k). split; [lia|]. split; [done|].
    intros [|k'] Hk'; [lia|]. simpl. apply Hlast. lia.
Qed.

Lemma accIndex_present (i : nat) (accounts : list Account) am (id : string) :
  id <> "" -> is_Some (am !! id) \/ (exists k, Identifier <$> accounts !! k = Some id) ->
  is_Some (accIndex i accounts am !! id).
Proof.
  intros Hne. revert i am. induction accounts as [|acc rest IH]; intros i am H.
  { destruct H as [H|[k H]]; [done|]. by rewrite lookup_nil in H. }
  simpl.
  apply IH. destruct H as [H|[[|k] H]].
  - left. case_bool_decide; [done|].
    destruct (decide (Identifier acc = id)) as [->|]; [by rewrite lookup_insert_eq|].
    by rewrite lookup_insert_ne.
  - left. simpl in H. simplify_eq. rewrite bool_decide_eq_false_2 by done.
    by rewrite lookup_insert_eq.
  - right. by exists k.
Qed.

Lemma rebuildIndexes_accMap (s : Store) :
  accMap (rebuildIndexes s) = accIndex 0 (sAccounts s) ∅.
Proof.
  unfold rebuildIndexes. rewrite <- (indexAccounts_map s 0 (sAccounts s) ∅ ∅ ∅ ∅).
  by destruct (indexAccounts _ _ _ _ _ _ _) as [[[? ?] ?] ?].
Qed.

Lemma rebuildIndexes_accounts (s : Store) : sAccounts (rebuildIndexes s) = sAccounts s.
Proof. unfold rebuildIndexes. by destruct (indexAccounts _ _ _ _ _ _ _) as [[[? ?] ?] ?]. Qed.

(** A store whose index is the one [rebuildIndexes] computes. *)
Definition indexed (s : Store) : Prop :=
  forall id, id <> "" ->
    (forall j, accMap s !! id = Some j -> lastWithId (sAccounts s) id j) /\
    ((exists k, Identifier <$> sAccounts s !! k = Some id) -> is_Some (accMap s !! id)).

Lemma rebuildIndexes_indexed (s : Store) : indexed (rebuildIndexes s).
Proof.
  intros id Hne. rewrite rebuildIndexes_accMap, rebuildIndexes_accounts. split.
  - intros j H. apply accIndex_lookup in H as [[H _]|(k & -> & Hk)]; [|done..].
    by rewrite lookup_empty in H.
  - intros H. apply accIndex_present; auto.
Qed.

Lemma FindAccount_indexed (s : Store) (id : string) (j : nat) :
  indexed s -> id <> "" -> TrimSpace id = id -> lastWithId (sAccounts s) id j ->
  FindAccount s id = sAccounts s !! j.
Proof.
  intros Hs Hne Ht Hj. unfold FindAccount, findAccountIndexLocked. rewrite Ht.
  destruct (Hs id Hne) as [Hlast Hex].
  destruct (Hex (ex_intro _ j (proj1 Hj))) as [i Hi].
  pose proof (Hlast i Hi) as Hi'. simpl. rewrite Hi.
  assert (i = j) as ->.
  { destruct (lt_eq_lt_dec i j) as [[Hlt| ->]|Hgt]; [|done|].
    - by destruct (proj2 Hi' j Hlt (proj1 Hj)).
    - by destruct (proj2 Hj i Hgt (proj1 Hi')). }
  destruct Hj as [Hj _]. destruct (sAccounts s !! j) eqn:E; [|done].
  apply lookup_lt_Some in E as Hlt. apply Nat.ltb_lt in Hlt. rewrite Hlt. done.
Qed.

(** ** Lemmas: lookups *)

(** Every index entry names an account the key is a spelling of. *)
Definition lookupSound (s : Store) : Prop :=
  forall k j, accMap s !! k = Some j ->
    exists a, sAccounts s !! j = Some a /\ Identifier a ∈ accountCandidates k.

Lemma accIndex_keys (i : nat) (accounts : list Account) (am : gmap string nat) :
  am !! "" = None -> accIndex i accounts am !! "" = None.
Proof.
  revert i am. induction accounts as [|acc rest IH]; intros i am H; simpl; [done|].
  apply IH. case_bool_decide; [done|]. by rewrite lookup_insert_ne.
Qed.

Lemma rebuildIndexes_sound (s : Store) : lookupSound (rebuildIndexes s).
Proof.
  intros k j H. destruct (decide (k = "")) as [->|Hne].
  { by rewrite rebuildIndexes_accMap, accIndex_keys in H. }
  destruct (rebuildIndexes_indexed s k Hne) as [Hl _]. destruct (Hl j H) as [Hj _].
  destruct (sAccounts (rebuildIndexes s) !! j) as [a|] eqn:E; [|done].
  simpl in Hj. simplify_eq. exists a. split; [done|]. apply elem_of_cons. by left.
Qed.

Lemma scanAccounts_sound (keys : list string) (i : nat) (accounts : list Account) (j : nat) :
  scanAccounts keys i accounts = Some j ->
  exists a, accounts !! (j - i)%nat = Some a /\ Identifier a ∈ keys /\ (i <= j)%nat.
Proof.
  revert i. induction accounts as [|acc rest IH]; intros i; simpl; [done|].
  case_bool_decide; intros Hj; simplify_eq.
  - exists acc. by rewrite Nat.sub_diag.
  - apply IH in Hj as (a & Ha & Hin & Hle). exists a.
    replace (j - i)%nat with (S (j - S i)) by lia. split; [done|]. split; [done|lia].
Qed.

Lemma CanonicalMobileKey_idem (k : string) :
  CanonicalMobileKey (CanonicalMobileKey k) = CanonicalMobileKey k.
Proof. apply NormalizeMobile_idem. Qed.

(** The candidates of a candidate are candidates. *)
Lemma accountCandidates_trans (k k' id : string) :
  k' ∈ accountCandidates k -> id ∈ accountCandidates k' -> id ∈ accountCandidates k.
Proof.
  unfold accountCandidates. intros [->|Hk']%elem_of_cons; [done|].
  destruct (_ && _)%bool eqn:E; [|by apply not_elem_of_nil in Hk'].
  apply list_elem_of_singleton in Hk' as ->. rewrite CanonicalMobileKey_idem.
  rewrite (bool_decide_eq_true_2 (CanonicalMobileKey k = CanonicalMobileKey k)) by done.
  rewrite andb_false_r. intros ->%list_elem_of_singleton.
  apply elem_of_cons. right. by apply list_elem_of_singleton.
Qed.

Lemma firstIndexed_sound (s : Store) (keys : list string) (j : nat) :
  firstIndexed s keys = Some j -> exists k, k ∈ keys /\ accMap s !! k = Some j.
Proof.
  induction keys as [|k keys IH]; simpl; [done|]. intros H.
  destruct (accMap s !! k) as [idx|] eqn:E; [destruct (_ <? _)%nat|]; simplify_eq.
  - exists k. split; [apply elem_of_cons; by left|done].
  - destruct (IH H) as (k' & ? & ?). exists k'. split; [apply elem_of_cons; by right|done].
  - destruct (IH H) as (k' & ? & ?). exists k'. split; [apply elem_of_cons; by right|done].
Qed.

Lemma findAccountIndex_sound (s : Store) (k : string) (j : nat) :
  lookupSound s -> findAccountIndexLocked s k = Some j ->
  exists a, sAccounts s !! j = Some a /\ Identifier a ∈ accountCandidates k.
Proof.
  intros Hs. unfold findAccountIndexLocked.
  destruct (firstIndexed s (accountCandidates k)) as [idx|] eqn:E; intros H; simplify_eq.
  - destruct (firstIndexed_sound _ _ _ E) as (k' & Hk' & Hj).
    destruct (Hs k' j Hj) as (a & Ha & Hid). exists a. split; [done|].
    by eapply accountCandidates_trans.
  - apply scanAccounts_sound in H as (a & Ha & Hin & _). rewrite Nat.sub_0_r in Ha. eauto.
Qed.

Lemma FindAccount_sound (s : Store) (k : string) (a : Account) :
  lookupSound s -> FindAccount s k = Some a -> Identifier a ∈ accountCandidates (TrimSpace k).
Proof.
  intros Hs. unfold FindAccount.
  destruct (findAccountIndexLocked s (TrimSpace k)) as [j|] eqn:E; [|done].
  destruct (findAccountIndex_sound s _ j Hs E) as (a' & Ha' & Hin). intros ?. simplify_eq. done.
Qed.

Lemma Identifier_withToken (a : Account) (t : string) : Identifier (withToken a t) = Identifier a.
Proof.
  unfold Identifier, NormalizeAccountIdentity, withToken. cbn.
  by destruct (_ && _)%bool.
Qed.

Lemma Identifier_candidate (k : string) : k ∈ accountCandidates k.
Proof. unfold accountCandidates. apply elem_of_cons. by left. Qed.

(** The three index writes of [UpdateAccountToken]. *)
Lemma putIndex_lookup (k key : string) (idx j : nat) (m : gmap string nat) :
  (if bool_decide (k = "") then m else <[k := idx]> m) !! key = Some j ->
  (key = k /\ j = idx) \/ m !! key = Some j.
Proof.
  case_bool_decide; [by right|]. intros [[-> ->]|[_ ?]]%lookup_insert_Some; [by left|by right].
Qed.

Lemma UpdateAccountToken_sound (s s' : Store) (identifier token : string) :
  lookupSound s -> UpdateAccountToken s identifier token = Some s' -> lookupSound s'.
Proof.
  intros Hs. unfold UpdateAccountToken.
  destruct (findAccountIndexLocked s (TrimSpace identifier)) as [idx|] eqn:E; [|done].
  destruct (findAccountIndex_sound s _ idx Hs E) as (acc & Hacc & Hcand). rewrite Hacc.
  intros [= <-] k j Hk. cbn [accMap sAccounts] in *.
  assert (Hlt : (idx < length (sAccounts s))%nat) by (by eapply lookup_lt_Some).
  assert (Hidx : forall key, Identifier acc ∈ accountCandidates key ->
    exists a, <[idx := withToken acc token]> (sAccounts s) !! idx = Some a /\ Identifier a ∈ accountCandidates key).
  { intros key Hkey. exists (withToken acc token). rewrite list_lookup_insert_eq by done.
    by rewrite Identifier_withToken. }
  rewrite Identifier_withToken in Hk.
  apply putIndex_lookup in Hk as [[-> ->]|Hk]; [apply Hidx, Identifier_candidate|].
  apply putIndex_lookup in Hk as [[-> ->]|Hk]; [apply Hidx, Identifier_candidate|].
  apply putIndex_lookup in Hk as [[-> ->]|Hk]; [by apply Hidx|].
  destruct (Hs k j Hk) as (a & Ha & Hin). destruct (decide (j = idx)) as [->|Hne].
  - rewrite Hacc in Ha. simplify_eq. by apply Hidx.
  - exists a. by rewrite list_lookup_insert_ne.
Qed.

(** A run of token refreshes; a refresh of an unknown account is an error and
    changes nothing. *)
Definition refreshTokens (s : Store) (updates : list (string * string)) : Store :=
  fold_left (fun s u => default s (UpdateAccountToken s u.1 u.2)) updates s.

Lemma refreshTokens_sound (s : Store) (updates : list (string * string)) :
  lookupSound s -> lookupSound (refreshTokens s updates).
Proof.
  unfold refreshTokens. revert s. induction updates as [|[id tok] updates IH]; intros s Hs; simpl; [done|].
  apply IH. destruct (UpdateAccountToken s id tok) as [s'|] eqn:E; [|done]. by eapply UpdateAccountToken_sound.
Qed.

Lemma UpdateAccountToken_ids (s s' : Store) (identifier token : string) :
  UpdateAccountToken s identifier token = Some s' ->
  (Identifier <$> sAccounts s') = (Identifier <$> sAccounts s).
Proof.
  unfold UpdateAccountToken. destruct (findAccountIndexLocked _ _) as [idx|]; [|done].
  destruct (sAccounts s !! idx) as [acc|] eqn:E; [|done]. intros [= <-]. cbn [sAccounts].
  rewrite list_fmap_insert, Identifier_withToken. apply list_insert_id. by rewrite list_lookup_fmap, E.
Qed.

(** ** What the store promises to the account pool *)

(** The identifier of a configured account denotes an account with that identifier. *)
Class AccountDirectory (st : Store) : Prop := {
  directory_own : forall a acc, a ∈ Accounts st -> Identifier a <> "" ->
    FindAccount st (Identifier a) = Some acc -> Identifier acc = Identifier a
}.

(** A store whose index was built keeps the promise. *)
#[global] Instance rebuilt_directory (s : Store) : AccountDirectory (rebuildIndexes s).
Proof.
  split. intros a acc [j Hj]%list_elem_of_lookup_1 Hne Hf.
  destruct (rebuildIndexes_indexed s (Identifier a) Hne) as [Hlast Hex].
  destruct Hex as [i Hi]. { exists j. change (sAccounts _) with (Accounts (rebuildIndexes s)). by rewrite Hj. }
  pose proof (Hlast i Hi) as Hl.
  rewrite (FindAccount_indexed _ _ i (rebuildIndexes_indexed s) Hne (Identifier_trimmed a) Hl) in Hf.
  destruct Hl as [Hl _]. rewrite Hf in Hl. simpl in Hl. by injection Hl.
Qed.

(** ** Properties *)

(** Looking an account up is sound however many tokens have been refreshed
    since the index was built: the account returned is one whose identifier is
    the name itself, trimmed, or the name's canonical mobile form; refreshing
    tokens changes no account's identifier. *)
Theorem FindAccount_never_wrong (s : Store) (updates : list (string * string)) (name : string) (a : Account) :
  let s' := refreshTokens (rebuildIndexes s) updates in
  FindAccount s' name = Some a ->
  (Identifier a = TrimSpace name \/ Identifier a = CanonicalMobileKey (TrimSpace name)) /\
  (Identifier <$> sAccounts s') = (Identifier <$> sAccounts s).
Proof.
  intros s' Hf. split.
  - pose proof (FindAccount_sound s' name a (refreshTokens_sound _ _ (rebuildIndexes_sound s)) Hf) as H.
    unfold accountCandidates in H. apply elem_of_cons in H as [?|H]; [by left|].
    destruct (_ && _); [|by apply elem_of_nil in H]. right. by apply list_elem_of_singleton in H.
  - unfold s', refreshTokens. rewrite <- (rebuildIndexes_accounts s). generalize (rebuildIndexes s). clear.
    induction updates as [|[id tok] updates IH]; intros s; simpl; [done|]. rewrite IH.
    destruct (UpdateAccountToken s id tok) as [s'|] eqn:E; [|done]. by eapply UpdateAccountToken_ids.
Qed.

(** After the index is built every account that has an identifier is found
    under it (the last one, should several share it). *)
Theorem FindAccount_complete (s : Store) (j : nat) (a : Account) :
  sAccounts s !! j = Some a -> Identifier a <> "" ->
  (forall k, (j < k)%nat -> Identifier <$> sAccounts s !! k <> Some (Identifier a)) ->
  FindAccount (rebuildIndexes s) (Identifier a) = Some a.
Proof.
  intros Ha Hne Hlast.
  rewrite (FindAccount_indexed _ (Identifier a) j (rebuildIndexes_indexed s) Hne (Identifier_trimmed a));
    rewrite rebuildIndexes_accounts; [done|]. split; [by rewrite Ha|done].
Qed.

(** A mobile number has one stored form: normalising is idempotent, its result
    is empty exactly when the input has no digit, and otherwise it is a plus sign
    followed by digits only; an eleven-digit mainland number is stored under the
    country code whether or not it was typed with it, with or without separators. *)
Theorem mobile_canonical (raw : string) :
  let m := NormalizeMobileForStorage raw in
  NormalizeMobileForStorage m = m /\
  (m = "" \/ exists d, m = "+" +:+ d /\ allDigits d = true /\ d <> "") /\
  (m = "" <-> filterDigits (TrimSpace raw) = "") /\
  (forall d, (extractMobileDigits raw = (d, false) \/ extractMobileDigits raw = ("86" +:+ d, false)) ->
     isChinaMainlandMobileDigits d = true -> m = "+86" +:+ d).
Proof.
  intros m. split; [apply NormalizeMobile_idem|]. split; [|split].
  - destruct (NormalizeMobile_shape raw) as [?|(d & ? & ? & ?)]; [by left|right; by exists d].
  - unfold m, NormalizeMobileForStorage, extractMobileDigits. case_bool_decide as Ht.
    + rewrite Ht. done.
    + case_bool_decide as Hd; [done|]. split; [|done].
      destruct (leadingPlus _); [done|]. destruct (isChinaMobileWithCountryCode _); [done|].
      by destruct (isChinaMainlandMobileDigits _).
  - intros d Hd Hc.
    assert (Hlen : String.length d = 11%nat).
    { unfold isChinaMainlandMobileDigits in Hc. destruct d as [|x [|y d]]; try done. bool_cases.
      by apply Nat.eqb_eq. }
    unfold m, NormalizeMobileForStorage. destruct Hd as [-> | ->].
    + rewrite bool_decide_eq_false_2 by (by intros ->). unfold isChinaMobileWithCountryCode. rewrite Hlen. simpl.
      by rewrite Hc.
    + rewrite bool_decide_eq_false_2 by done. unfold isChinaMobileWithCountryCode.
      rewrite length_append, Hlen. change (strDrop 2 ("86" +:+ d)) with d. rewrite Hc. by rewrite HasPrefix_app.
Qed.

(** ** A concrete store *)

Definition demoAccounts : list Account :=
  [withIdentity zeroAccount "" "138-0013-8000"; withIdentity zeroAccount "a@example.com" ""].

Definition demoConfig : Store :=
  {| sKeys := []; sAccounts := demoAccounts;
     sRuntime := {| AccountMaxInflight := 0; AccountMaxQueue := 0; GlobalMaxInflight := 0 |};
     keyMap := ∅; accMap := ∅; accTest := ∅; accTestResult := ∅; accSess := ∅ |}.

Lemma FindAccount_never_wrong_witness :
  exists a, FindAccount (refreshTokens (rebuildIndexes demoConfig) [("138 0013 8000", "t")]) "13800138000" = Some a /\
    (Identifier a = TrimSpace "13800138000" \/ Identifier a = CanonicalMobileKey (TrimSpace "13800138000")).
Proof.
  assert (H : FindAccount (refreshTokens (rebuildIndexes demoConfig) [("138 0013 8000", "t")]) "13800138000"
    = Some (withToken (withIdentity zeroAccount "" "138-0013-8000") "t")) by (vm_compute; reflexivity).
  eexists. split; [exact H|]. exact (proj1 (FindAccount_never_wrong demoConfig [("138 0013 8000", "t")] _ _ H)).
Defined.

Lemma FindAccount_complete_witness :
  FindAccount (rebuildIndexes demoConfig) "+8613800138000" = Some (withIdentity zeroAccount "" "138-0013-8000").
Proof.
  change "+8613800138000" with (Identifier (withIdentity zeroAccount "" "138-0013-8000")).
  apply (FindAccount_complete demoConfig 0); [reflexivity|discriminate|].
  intros [|[|k]] Hk; [lia|discriminate|discriminate].
Defined.
