(* ===== verification/Affinity.v ===== *)
(** Session affinity: [internal/account/affinity.go], the binding table and the
    per-session lock.

    [Bindings] models the TTL table ([Lookup], [Bind], [Forget],
    [ForgetAccount], [Stats]); an operation takes the clock reading(s) of its
    [time.Now()] calls.  [Lock] models the reference-counted per-key mutex as a
    step relation over goroutines, each step being one critical section of
    [a.mu] or one operation on the key's own mutex. *)
From S2P Require Import Prelude GoString.
Local Open Scope Z_scope.

(** Times are nanoseconds since the Unix epoch; [time.Time{}] is year 1. *)
Definition second : Z := 1000000000.
Definition zeroTime : Z := (-62135596800) * second.
Definition timeIsZero (t : Z) : bool := t =? zeroTime.
Definition unixTime (sec : Z) : Z := sec * second.

(** [t.Sub(u)]: saturates at the bounds of a duration. *)
Definition timeSub (t u : Z) : Z := Z.max minInt (Z.min maxInt (t - u)).

(** ** The binding table *)

Record affinityEntry := { accountID : string; expiresAt : Z }.

#[global] Instance affinityEntry_eq_dec : EqDecision affinityEntry.
Proof. solve_decision. Defined.

Record Affinity := { bindings : gmap string affinityEntry; ttl : Z }.

Definition defaultAffinityTTLSeconds : Z := 7200.

(** [NewAffinity]: the TTL from the environment when it is a positive integer;
    [time.Duration(n) * time.Second] is an [int64] product. *)
Definition NewAffinity (getenv : string -> string) : Affinity :=
  let v := TrimSpace (getenv "DEEPSEEK_WEB_TO_API_SESSION_AFFINITY_TTL_SECONDS") in
  let n := if bool_decide (v = "") then None else Atoi v in
  {| bindings := ∅;
     ttl := match n with
            | Some n => if 0 <? n then i64 (n * second) else defaultAffinityTTLSeconds * second
            | None => defaultAffinityTTLSeconds * second
            end |}.

(** [Lookup] reads the clock once for the expiry test and once for the refresh. *)
Definition Lookup (a : Affinity) (now now' : Z) (key : string) : Affinity * string :=
  if bool_decide (key = "") then (a, "")
  else match bindings a !! key with
       | None => (a, "")
       | Some e =>
           if expiresAt e <? now
           then ({| bindings := delete key (bindings a); ttl := ttl a |}, "")
           else ({| bindings := <[key := {| accountID := accountID e; expiresAt := now' + ttl a |}]>
                                 (bindings a); ttl := ttl a |}, accountID e)
       end.

Definition Bind (a : Affinity) (now : Z) (key account : string) : Affinity :=
  if bool_decide (key = "") || bool_decide (account = "") then a
  else {| bindings := <[key := {| accountID := account; expiresAt := now + ttl a |}]> (bindings a);
          ttl := ttl a |}.

Definition Forget (a : Affinity) (key : string) : Affinity :=
  if bool_decide (key = "") then a
  else {| bindings := delete key (bindings a); ttl := ttl a |}.

Definition ForgetAccount (a : Affinity) (account : string) : Affinity :=
  if bool_decide (account = "") then a
  else {| bindings := filter (fun kv => accountID kv.2 <> account) (bindings a); ttl := ttl a |}.

Definition Stats (a : Affinity) : nat * Z := (size (bindings a), ttl a).

(** The account a key is bound to at an instant: the abstract map of the table. *)
Definition boundAt (a : Affinity) (now : Z) (key : string) : option string :=
  match bindings a !! key with
  | Some e => if expiresAt e <? now then None else Some (accountID e)
  | None => None
  end.

Definition bindingsOk (a : Affinity) : Prop :=
  forall k e, bindings a !! k = Some e -> k <> "" /\ accountID e <> "".

Lemma Bind_ok (a : Affinity) now key account : bindingsOk a -> bindingsOk (Bind a now key account).
Proof.
  unfold Bind. intros Ha. destruct (_ || _)%bool eqn:E; [done|]. bool_cases.
  intros k e. simpl. rewrite lookup_insert. case_decide; intros; simplify_eq/=; eauto.
Qed.

Lemma Lookup_ok (a : Affinity) now now' key : bindingsOk a -> bindingsOk (Lookup a now now' key).1.
Proof.
  unfold Lookup. intros Ha. case_bool_decide; [done|].
  destruct (bindings a !! key) as [e|] eqn:E; [|done]. destruct (_ <? _); intros k e'; simpl.
  - intros [_ H']%lookup_delete_Some. by eapply Ha.
  - rewrite lookup_insert. case_decide; intros; simplify_eq/=; [|eauto].
    split; [done|]. by eapply Ha.
Qed.

Lemma ForgetAccount_lookup (a : Affinity) account key :
  account <> "" ->
  bindings (ForgetAccount a account) !! key =
  match bindings a !! key with
  | Some e => if bool_decide (accountID e = account) then None else Some e
  | None => None
  end.
Proof.
  intros Hne. unfold ForgetAccount. rewrite bool_decide_eq_false_2 by done. simpl.
  destruct (bindings a !! key) as [e|] eqn:E.
  - case_bool_decide as Hd.
    + apply map_lookup_filter_None. right. intros x Hx. simplify_eq/=. naive_solver.
    + by apply map_lookup_filter_Some.
  - apply map_lookup_filter_None. by left.
Qed.

(** The table refines the abstract map: looking a key up returns what the map
    holds at that instant, a hit prolongs the binding, a miss removes it. *)
Lemma Lookup_boundAt (a : Affinity) now now' key :
  bindingsOk a ->
  (Lookup a now now' key).2 = default "" (boundAt a now key) /\
  forall k t, t <= now' + ttl a ->
    boundAt (Lookup a now now' key).1 t k =
    if bool_decide (k = key) then boundAt a now key else boundAt a t k.
Proof.
  intros Ha. unfold Lookup. case_bool_decide as Hk.
  - subst. assert (Hno : bindings a !! "" = None).
    { destruct (bindings a !! "") eqn:E; [|done]. by destruct (Ha _ _ E). }
    unfold boundAt. rewrite Hno. split; [done|]. intros k t _. case_bool_decide as Hk; [|done].
    simpl. by rewrite Hk, Hno.
  - unfold boundAt. destruct (bindings a !! key) as [e|] eqn:E.
    + destruct (expiresAt e <? now) eqn:Hexp; simpl; (split; [done|]); intros k t Ht.
      * rewrite lookup_delete. case_decide; case_bool_decide; subst; done.
      * rewrite lookup_insert. case_decide; case_bool_decide; subst; try done. simpl.
        by destruct (Z.ltb_spec (now' + ttl a) t); [lia|].
    + split; [done|]. intros k t _. case_bool_decide as Hk'; [|done]. simpl. by rewrite Hk', E.
Qed.

(** ** The per-session lock *)

(** Where a goroutine is inside [Lock] or the closure it returns: blocked on
    [l.mu.Lock()], holding the key, or past [l.mu.Unlock()] and about to drop its
    reference.  Other goroutines have no entry.  A lock object is a heap
    address. *)
Inductive lockPc :=
| Waiting (key : string) (l : nat)
| Holding (key : string) (l : nat)
| Releasing (key : string) (l : nat).

Record LockSys := {
  locks : gmap string nat;
  refs : gmap nat Z;
  nextLock : nat;
  threads : gmap nat lockPc
}.

Definition initLocks : LockSys :=
  {| locks := ∅; refs := ∅; nextLock := 0; threads := ∅ |}.

(** First critical section of [Lock]: find or create the object, count a reference. *)
Definition lockBegin (key : string) (s : LockSys) : LockSys * nat :=
  match locks s !! key with
  | Some l =>
      ({| locks := locks s; refs := <[l := default 0 (refs s !! l) + 1]> (refs s);
          nextLock := nextLock s; threads := threads s |}, l)
  | None =>
      let l := nextLock s in
      ({| locks := <[key := l]> (locks s); refs := <[l := 1]> (refs s);
          nextLock := S (nextLock s); threads := threads s |}, l)
  end.

(** Last critical section of the unlock closure. *)
Definition lockEnd (key : string) (l : nat) (s : LockSys) : LockSys :=
  let r := default 0 (refs s !! l) - 1 in
  {| locks := if (r <=? 0) && bool_decide (locks s !! key = Some l)
              then delete key (locks s) else locks s;
     refs := <[l := r]> (refs s); nextLock := nextLock s; threads := threads s |}.

Definition setThread (t : nat) (p : lockPc) (s : LockSys) : LockSys :=
  {| locks := locks s; refs := refs s; nextLock := nextLock s; threads := <[t := p]> (threads s) |}.
Definition dropThread (t : nat) (s : LockSys) : LockSys :=
  {| locks := locks s; refs := refs s; nextLock := nextLock s; threads := delete t (threads s) |}.

Definition pcKey (p : lockPc) : string :=
  match p with Waiting k _ | Holding k _ | Releasing k _ => k end.
Definition pcLock (p : lockPc) : nat :=
  match p with Waiting _ l | Holding _ l | Releasing _ l => l end.
Definition isHolding (p : lockPc) : bool := match p with Holding _ _ => true | _ => false end.

Inductive lockStep (s : LockSys) : LockSys -> Prop :=
| step_begin t key :
    key <> "" -> threads s !! t = None ->
    lockStep s (let '(s', l) := lockBegin key s in setThread t (Waiting key l) s')
| step_acquire t key l :
    threads s !! t = Some (Waiting key l) ->
    (forall t' p, threads s !! t' = Some p -> pcLock p = l -> isHolding p = false) ->
    lockStep s (setThread t (Holding key l) s)
| step_unlock t key l :
    threads s !! t = Some (Holding key l) ->
    lockStep s (setThread t (Releasing key l) s)
| step_end t key l :
    threads s !! t = Some (Releasing key l) ->
    lockStep s (dropThread t (lockEnd key l s)).

(** The goroutines that hold a reference to a lock object. *)
Definition users (s : LockSys) (l : nat) : gmap nat lockPc :=
  filter (fun tp => pcLock tp.2 = l) (threads s).

Record lockInv (s : LockSys) : Prop := {
  inv_entry : forall t p, threads s !! t = Some p -> locks s !! pcKey p = Some (pcLock p);
  inv_refs : forall k l, locks s !! k = Some l ->
    refs s !! l = Some (Z.of_nat (size (users s l))) /\ (0 < size (users s l))%nat;
  inv_inj : forall k1 k2 l, locks s !! k1 = Some l -> locks s !! k2 = Some l -> k1 = k2;
  inv_fresh : forall k l, locks s !! k = Some l -> (l < nextLock s)%nat;
  inv_mutex : forall t1 t2 p1 p2, threads s !! t1 = Some p1 -> threads s !! t2 = Some p2 ->
    pcLock p1 = pcLock p2 -> isHolding p1 = true -> isHolding p2 = true -> t1 = t2
}.

Lemma lockInv_init : lockInv initLocks.
Proof. split; simpl; intros; simplify_map_eq. Qed.

(** How the number of users changes when a goroutine enters, moves or leaves. *)
Definition userCount (ths : gmap nat lockPc) (l : nat) : nat :=
  size (filter (fun tp : nat * lockPc => pcLock tp.2 = l) ths).

Lemma userCount_enter (ths : gmap nat lockPc) (t l : nat) (p : lockPc) :
  ths !! t = None ->
  userCount (<[t := p]> ths) l = (userCount ths l + if decide (pcLock p = l) then 1 else 0)%nat.
Proof.
  intros Ht. unfold userCount. rewrite map_filter_insert. simpl. case_decide.
  - rewrite map_size_insert_None; [lia|]. apply map_lookup_filter_None. by left.
  - rewrite delete_id by done. lia.
Qed.

Lemma userCount_move (ths : gmap nat lockPc) (t l : nat) (p q : lockPc) :
  ths !! t = Some q -> pcLock q = pcLock p -> userCount (<[t := p]> ths) l = userCount ths l.
Proof.
  intros Ht Hq. unfold userCount. rewrite map_filter_insert. simpl. case_decide as Hl.
  - rewrite map_size_insert_Some; [done|]. exists q. apply map_lookup_filter_Some.
    split; [done|]. simpl. congruence.
  - by rewrite map_filter_delete_not by (intros y ?; simplify_eq/=; congruence).
Qed.

Lemma userCount_leave (ths : gmap nat lockPc) (t l : nat) (q : lockPc) :
  ths !! t = Some q ->
  userCount ths l = (userCount (delete t ths) l + if decide (pcLock q = l) then 1 else 0)%nat.
Proof.
  intros Ht. rewrite <- (insert_delete_id ths t q) at 1 by done.
  apply userCount_enter. apply lookup_delete_eq.
Qed.

Lemma userCount_pos (ths : gmap nat lockPc) (t l : nat) (q : lockPc) :
  ths !! t = Some q -> pcLock q = l -> (0 < userCount ths l)%nat.
Proof. intros Ht Hl. rewrite (userCount_leave ths t l q) by done. rewrite decide_True by done. lia. Qed.

Lemma step_move_inv (s : LockSys) (t : nat) (p q : lockPc) :
  lockInv s -> threads s !! t = Some q -> pcLock q = pcLock p -> pcKey q = pcKey p ->
  (isHolding p = true ->
   forall t' p', threads s !! t' = Some p' -> pcLock p' = pcLock p -> isHolding p' = false) ->
  lockInv (setThread t p s).
Proof.
  intros [He Hr Hi Hf Hm] Ht Hl Hk Hex. split; simpl; try done.
  - intros t' p'. rewrite lookup_insert. case_decide; [|by eauto].
    intros. simplify_eq. rewrite <- Hk, <- Hl. by eapply He.
  - intros k l Hkl. destruct (Hr k l Hkl) as [Hr1 Hr2].
    unfold users in *. simpl. fold (userCount (<[t:=p]> (threads s)) l).
    rewrite (userCount_move _ t l p q) by done. done.
  - intros t1 t2 p1 p2. rewrite !lookup_insert.
    repeat case_decide; intros; simplify_eq; try done; try (by eapply Hm).
    + by rewrite (Hex ltac:(done) t2 p2) in * by congruence.
    + by rewrite (Hex ltac:(done) t1 p1) in * by congruence.
Qed.

Lemma step_begin_inv (s : LockSys) (t : nat) (key : string) :
  lockInv s -> threads s !! t = None ->
  lockInv (let '(s', l) := lockBegin key s in setThread t (Waiting key l) s').
Proof.
  intros [He Hr Hi Hf Hm] Ht. unfold lockBegin.
  destruct (locks s !! key) as [l|] eqn:Hlk; split; simpl.
  - intros t' p'. rewrite lookup_insert. case_decide; [|by eauto]. by intros [= <-].
  - intros k l' Hk. unfold users; simpl. fold (userCount (<[t:=Waiting key l]> (threads s)) l').
    rewrite userCount_enter by done. simpl.
    destruct (Hr k l' Hk) as [Hr1 Hr2]. unfold users in Hr1, Hr2.
    fold (userCount (threads s) l') in Hr1, Hr2.
    rewrite lookup_insert. destruct (decide (l = l')) as [->|]; (split; [|lia]).
    + rewrite Hr1. simpl. f_equal. lia.
    + rewrite Hr1. f_equal. lia.
  - done.
  - done.
  - intros t1 t2 p1 p2. rewrite !lookup_insert.
    repeat case_decide; intros; simplify_eq/=; try done. by eapply Hm.
  - intros t' p'. rewrite lookup_insert. case_decide.
    + intros [= <-]. by rewrite lookup_insert_eq.
    + intros Hp. rewrite lookup_insert_ne by (intros ->; apply He in Hp; congruence). by eapply He.
  - intros k l'. unfold users; simpl.
    fold (userCount (<[t:=Waiting key (nextLock s)]> (threads s)) l').
    rewrite userCount_enter by done. simpl. rewrite lookup_insert. case_decide as Hk.
    + intros [= <-]. rewrite decide_True, lookup_insert_eq by done.
      assert (userCount (threads s) (nextLock s) = 0%nat) as ->.
      { unfold userCount. apply map_size_empty_iff, map_empty. intros t'.
        apply map_lookup_filter_None. right. intros p' Hp Hl. simpl in Hl.
        apply He, Hf in Hp. lia. }
      split; [done|lia].
    + intros Hl'. destruct (Hr k l' Hl') as [Hr1 Hr2]. apply Hf in Hl'.
      rewrite decide_False by lia. rewrite lookup_insert_ne by lia.
      rewrite Nat.add_0_r. done.
  - intros k1 k2 l'. rewrite !lookup_insert.
    repeat case_decide; intros; simplify_eq; try done; try (by eapply Hi);
      repeat match goal with H : locks s !! _ = Some _ |- _ => apply Hf in H end; lia.
  - intros k l'. rewrite lookup_insert. case_decide; intros Hl; simplify_eq; [lia|].
    apply Hf in Hl. lia.
  - intros t1 t2 p1 p2. rewrite !lookup_insert.
    repeat case_decide; intros; simplify_eq/=; try done. by eapply Hm.
Qed.

Lemma step_end_inv (s : LockSys) (t : nat) (key : string) (l : nat) :
  lockInv s -> threads s !! t = Some (Releasing key l) ->
  lockInv (dropThread t (lockEnd key l s)).
Proof.
  intros [He Hr Hi Hf Hm] Ht.
  pose proof (He t _ Ht) as Hkey. simpl in Hkey.
  destruct (Hr key l Hkey) as [Hrl Hpos]. unfold users in Hrl, Hpos.
  fold (userCount (threads s) l) in Hrl, Hpos.
  pose proof (userCount_leave (threads s) t l _ Ht) as Hcnt. simpl in Hcnt.
  rewrite decide_True in Hcnt by done.
  unfold lockEnd, dropThread; simpl. rewrite Hrl, (bool_decide_eq_true_2 _ Hkey), andb_true_r. simpl.
  assert (Hother : forall t' p', delete t (threads s) !! t' = Some p' -> pcLock p' = l ->
    (0 < userCount (delete t (threads s)) l)%nat) by (intros; by eapply userCount_pos).
  split; simpl.
  - intros t' p' Hp. pose proof Hp as [Hne Hp']%lookup_delete_Some. apply He in Hp' as Hent.
    destruct (Z.leb_spec (Z.of_nat (userCount (threads s) l) - 1) 0); [|done].
    rewrite lookup_delete_ne; [done|]. intros ->. rewrite Hkey in Hent.
    injection Hent as Hent. pose proof (Hother t' p' Hp (eq_sym Hent)). lia.
  - intros k l' Hk. unfold users; simpl. fold (userCount (delete t (threads s)) l').
    assert (Hk' : locks s !! k = Some l').
    { destruct (_ <=? _); [|done]. by apply lookup_delete_Some in Hk as [_ ?]. }
    destruct (decide (l' = l)) as [->|Hne].
    + assert (k = key) as -> by (by eapply Hi).
      destruct (Z.leb_spec (Z.of_nat (userCount (threads s) l) - 1) 0).
      { by rewrite lookup_delete_eq in Hk. }
      rewrite lookup_insert_eq. split; [f_equal|]; lia.
    + rewrite lookup_insert_ne by done. destruct (Hr k l' Hk') as [Hr1 Hr2].
      unfold users in Hr1, Hr2. fold (userCount (threads s) l') in Hr1, Hr2.
      rewrite (userCount_leave (threads s) t l' _ Ht) in Hr1, Hr2. simpl in Hr1, Hr2.
      rewrite decide_False in Hr1, Hr2 by done. rewrite Nat.add_0_r in *. done.
  - intros k1 k2 l' H1 H2. destruct (_ <=? _); [|by eapply Hi].
    apply lookup_delete_Some in H1 as [_ ?], H2 as [_ ?]. by eapply Hi.
  - intros k l' H. destruct (_ <=? _); [|by eapply Hf].
    apply lookup_delete_Some in H as [_ ?]. by eapply Hf.
  - intros t1 t2 p1 p2 [_ H1]%lookup_delete_Some [_ H2]%lookup_delete_Some. by eapply Hm.
Qed.

Lemma lockStep_inv (s s' : LockSys) : lockInv s -> lockStep s s' -> lockInv s'.
Proof.
  intros Hs Hstep. destruct Hstep as [t key Hk Ht|t key l Ht Hno|t key l Ht|t key l Ht].
  - by apply step_begin_inv.
  - eapply step_move_inv; [done..| |done]; done.
  - by eapply (step_move_inv s t (Releasing key l)).
  - by apply step_end_inv.
Qed.

Lemma reachable_lockInv (s : LockSys) : rtc lockStep initLocks s -> lockInv s.
Proof.
  intros H. remember initLocks as s0 eqn:E.
  assert (Hi : lockInv s0) by (subst; apply lockInv_init). clear E.
  induction H; [done|]. eauto using lockStep_inv.
Qed.

(** ** Properties *)

(** C34. The lock of a session key serializes: in every reachable interleaving of
    the goroutines that lock keys, at most one of them holds a given key, even
    though lock objects are created and dropped on the fly. *)
Theorem Lock_serializes (s : LockSys) (t1 t2 : nat) (key : string) (l1 l2 : nat) :
  rtc lockStep initLocks s ->
  threads s !! t1 = Some (Holding key l1) -> threads s !! t2 = Some (Holding key l2) ->
  t1 = t2.
Proof.
  intros [He _ _ _ Hm]%reachable_lockInv H1 H2.
  pose proof (He _ _ H1) as E1. pose proof (He _ _ H2) as E2. simpl in *.
  by eapply (Hm t1 t2 _ _ H1 H2); [simpl; congruence|..].
Qed.

Definition lockDemo : LockSys :=
  setThread 7 (Holding "k" 0) (setThread 7 (Waiting "k" 0)
    {| locks := {["k" := 0%nat]}; refs := {[0%nat := 1]}; nextLock := 1; threads := ∅ |}).

Lemma lockDemo_reachable : rtc lockStep initLocks lockDemo.
Proof.
  eapply rtc_l; [exact (step_begin initLocks 7 "k" ltac:(done) eq_refl)|].
  apply rtc_once. apply (step_acquire _ 7 "k" 0); [done|].
  intros t' p'. simpl. rewrite lookup_insert. case_decide; [|done]. by intros [= <-].
Qed.

Lemma Lock_serializes_witness : (7 = 7)%nat.
Proof.
  exact (Lock_serializes lockDemo 7 7 "k" 0 0 lockDemo_reachable eq_refl eq_refl).
Defined.

(** The lock table holds no garbage: a key has a lock object exactly while
    some goroutine waits for, holds or releases that key, and the object's
    reference count is the number of those goroutines. *)
Theorem Lock_table_exact (s : LockSys) (key : string) :
  rtc lockStep initLocks s ->
  (is_Some (locks s !! key) <-> exists t p, threads s !! t = Some p /\ pcKey p = key) /\
  forall l, locks s !! key = Some l -> refs s !! l = Some (Z.of_nat (size (users s l))).
Proof.
  intros [He Hr Hi _ _]%reachable_lockInv. split; [split|].
  - intros [l Hl]. destruct (Hr key l Hl) as [_ Hpos].
    destruct (map_choose (users s l)) as (t & p & Hp).
    { intros Hem. rewrite Hem, map_size_empty in Hpos. lia. }
    apply map_lookup_filter_Some in Hp as [Hp Hpl]. simpl in Hpl. exists t, p. split; [done|].
    apply He in Hp. rewrite Hpl in Hp. by eapply Hi.
  - intros (t & p & Hp & <-). apply He in Hp. by eexists.
  - intros l Hl. by apply (Hr key l Hl).
Qed.

Lemma Lock_table_exact_witness :
  is_Some (locks lockDemo !! "k").
Proof.
  apply (Lock_table_exact lockDemo "k" lockDemo_reachable).
  exists 7%nat, (Holding "k" 0). split; reflexivity.
Defined.

(** The binding table is a map with expiry: [Lookup] returns the account the
    key is bound to at that instant (the empty string when there is none), a hit
    keeps the binding alive for a full TTL from the second clock reading, an
    expired entry disappears, and no other key is affected. *)
Theorem Lookup_refines_map (a : Affinity) (now now' : Z) (key : string) :
  bindingsOk a ->
  (Lookup a now now' key).2 = default "" (boundAt a now key) /\
  forall k t, t <= now' + ttl a ->
    boundAt (Lookup a now now' key).1 t k =
    if bool_decide (k = key) then boundAt a now key else boundAt a t k.
Proof. apply Lookup_boundAt. Qed.

Definition affinityDemo : Affinity :=
  Bind {| bindings := ∅; ttl := 7200 * second |} 0 "k" "alice".

Lemma affinityDemo_ok : bindingsOk affinityDemo.
Proof. apply Bind_ok. intros k e H. simpl in H. by rewrite lookup_empty in H. Qed.

Lemma Lookup_refines_map_witness : (Lookup affinityDemo (60 * second) (60 * second) "k").2 = "alice".
Proof.
  etransitivity;
    [exact (proj1 (Lookup_refines_map affinityDemo (60 * second) (60 * second) "k" affinityDemo_ok))
    |vm_compute; reflexivity].
Defined.

(** After [ForgetAccount acc] no key is bound to [acc] at any instant, and
    the bindings of every other account are untouched. *)
Theorem ForgetAccount_exact (a : Affinity) (acc : string) (key : string) (t : Z) :
  acc <> "" ->
  boundAt (ForgetAccount a acc) t key =
  match boundAt a t key with
  | Some b => if bool_decide (b = acc) then None else Some b
  | None => None
  end.
Proof.
  intros Hne. unfold boundAt. rewrite ForgetAccount_lookup by done.
  destruct (bindings a !! key) as [e|]; [|done].
  destruct (expiresAt e <? t) eqn:E; simpl; case_bool_decide; simpl; rewrite ?E; done.
Qed.

Lemma ForgetAccount_exact_witness :
  boundAt (ForgetAccount affinityDemo "alice") 5 "k" = None.
Proof. etransitivity; [apply (ForgetAccount_exact affinityDemo "alice" "k" 5); done|]. vm_compute. reflexivity. Defined.
