(* ===== verification/Pool.v ===== *)
(** The account pool: [internal/account/pool_core.go], [pool_acquire.go],
    [pool_limits.go], [pool_waiters.go] and [health.go].

    [Pool] is the struct; every operation that the code runs under [p.mu] is a
    function on it, taking the store (shared, changed only between operations)
    and the readings of its [time.Now()] calls: [clk i] is the reading of the
    [i]-th candidate an operation examines, so that a scan of the queue may see
    time advance.  A waiter channel is a number; [closed] is the set of the
    channels closed so far and [nextChan] the next fresh one, the part of the
    heap that [make(chan struct{})] and [close] act on. *)
From S2P Require Import Prelude GoString Config Affinity.
Local Open Scope Z_scope.

(** ** Health *)

Inductive HealthState :=
| HealthHealthy
| HealthDisabled
| HealthRateLimited
| HealthTemporarilyMuted
| HealthInvalidCredentials
| HealthPermanentlyBanned.

#[global] Instance HealthState_eq_dec : EqDecision HealthState.
Proof. solve_decision. Defined.

(** The string values of the constants. *)
Definition healthStateName (h : HealthState) : string :=
  match h with
  | HealthHealthy => "healthy"
  | HealthDisabled => "disabled"
  | HealthRateLimited => "rate_limited"
  | HealthTemporarilyMuted => "temporarily_muted"
  | HealthInvalidCredentials => "invalid_credentials"
  | HealthPermanentlyBanned => "permanently_banned"
  end.

Record Health := { State : HealthState; Until : Z; Reason : string; UpdatedAt : Z }.

#[global] Instance Health_eq_dec : EqDecision Health.
Proof. solve_decision. Defined.

Definition defaultMuteCooldown : Z := 7 * 24 * 3600 * second.
Definition defaultRateLimitCooldown : Z := 60 * second.

Definition isTransientHealth (h : HealthState) : bool :=
  bool_decide (h = HealthTemporarilyMuted) || bool_decide (h = HealthRateLimited).

(** [isTransientHealth(h.State) && !h.Until.After(now)] *)
Definition healthExpired (h : Health) (now : Z) : bool :=
  isTransientHealth (State h) && negb (now <? Until h).

(** ** The pool *)

Record Pool := {
  queue : list string;
  inUse : gmap string Z;
  waiters : list nat;
  health : gmap string Health;
  maxInflightPerAccount : Z;
  recommendedConcurrency : Z;
  maxQueueSize : Z;
  globalMaxInflight : Z;
  affinity : Affinity;
  closed : gset nat;
  nextChan : nat
}.

Definition setQueue (q : list string) (p : Pool) : Pool := {|
  queue := q; inUse := inUse p; waiters := waiters p; health := health p;
  maxInflightPerAccount := maxInflightPerAccount p; recommendedConcurrency := recommendedConcurrency p;
  maxQueueSize := maxQueueSize p; globalMaxInflight := globalMaxInflight p; affinity := affinity p;
  closed := closed p; nextChan := nextChan p |}.

Definition setInUse (u : gmap string Z) (p : Pool) : Pool := {|
  queue := queue p; inUse := u; waiters := waiters p; health := health p;
  maxInflightPerAccount := maxInflightPerAccount p; recommendedConcurrency := recommendedConcurrency p;
  maxQueueSize := maxQueueSize p; globalMaxInflight := globalMaxInflight p; affinity := affinity p;
  closed := closed p; nextChan := nextChan p |}.

Definition setWaiters (w : list nat) (c : gset nat) (n : nat) (p : Pool) : Pool := {|
  queue := queue p; inUse := inUse p; waiters := w; health := health p;
  maxInflightPerAccount := maxInflightPerAccount p; recommendedConcurrency := recommendedConcurrency p;
  maxQueueSize := maxQueueSize p; globalMaxInflight := globalMaxInflight p; affinity := affinity p;
  closed := c; nextChan := n |}.

Definition setHealth (h : gmap string Health) (p : Pool) : Pool := {|
  queue := queue p; inUse := inUse p; waiters := waiters p; health := h;
  maxInflightPerAccount := maxInflightPerAccount p; recommendedConcurrency := recommendedConcurrency p;
  maxQueueSize := maxQueueSize p; globalMaxInflight := globalMaxInflight p; affinity := affinity p;
  closed := closed p; nextChan := nextChan p |}.

Definition setLimits (perAccount recommended maxQueue global : Z) (p : Pool) : Pool := {|
  queue := queue p; inUse := inUse p; waiters := waiters p; health := health p;
  maxInflightPerAccount := perAccount; recommendedConcurrency := recommended;
  maxQueueSize := maxQueue; globalMaxInflight := global; affinity := affinity p;
  closed := closed p; nextChan := nextChan p |}.

Definition setAffinity (a : Affinity) (p : Pool) : Pool := {|
  queue := queue p; inUse := inUse p; waiters := waiters p; health := health p;
  maxInflightPerAccount := maxInflightPerAccount p; recommendedConcurrency := recommendedConcurrency p;
  maxQueueSize := maxQueueSize p; globalMaxInflight := globalMaxInflight p; affinity := a;
  closed := closed p; nextChan := nextChan p |}.

(** [p.inUse[id]]: a missing key reads as zero. *)
Definition inUseOf (p : Pool) (id : string) : Z := default 0 (inUse p !! id).

(** [currentInUseLocked] *)
Definition currentInUse (u : gmap string Z) : Z := map_fold (fun _ n total => total + n) 0 u.

(** ** Waiters (pool_waiters.go) *)

Definition notifyWaiterLocked (p : Pool) : Pool :=
  match waiters p with
  | [] => p
  | w :: ws => setWaiters ws ({[w]} ∪ closed p) (nextChan p) p
  end.

Fixpoint removeFirst (w : nat) (ws : list nat) : list nat * bool :=
  match ws with
  | [] => ([], false)
  | w' :: ws => if bool_decide (w' = w) then (ws, true)
                else let '(ws', found) := removeFirst w ws in (w' :: ws', found)
  end.

Definition removeWaiterLocked (w : nat) (p : Pool) : Pool * bool :=
  let '(ws, found) := removeFirst w (waiters p) in
  (setWaiters ws (closed p) (nextChan p) p, found).

Definition drainWaitersLocked (p : Pool) : Pool :=
  setWaiters [] (list_to_set (waiters p) ∪ closed p) (nextChan p) p.

Definition canQueueLocked (st : Store) (target : string) (exclude : gset string) (p : Pool) : bool :=
  let admissible :=
    if bool_decide (target = "") then true
    else negb (bool_decide (target ∈ exclude)) &&
         match FindAccount st target with Some _ => true | None => false end in
  admissible && negb (maxQueueSize p <=? 0) && (Z.of_nat (length (waiters p)) <? maxQueueSize p).

(** ** Health marks (health.go) *)

Definition ClearHealth (id : string) (p : Pool) : Pool :=
  if bool_decide (id = "") then p
  else notifyWaiterLocked (setHealth (delete id (health p)) p).

Definition markTransientAccount (id : string) (state : HealthState) (until : Z) (reason : string)
  (now : Z) (p : Pool) : Pool :=
  if bool_decide (id = "") then p
  else if negb (now <? until) then ClearHealth id p
  else
    let h := {| State := state; Until := until; Reason := reason; UpdatedAt := now |} in
    let p := setHealth (<[id := h]> (health p)) p in
    let p := setAffinity (ForgetAccount (affinity p) id) p in
    notifyWaiterLocked p.

(** [now] is the reading for the default cooldown, [now'] that of the mark. *)
Definition MarkRateLimited (id : string) (until : Z) (reason : string) (now now' : Z) (p : Pool) : Pool :=
  let until := if timeIsZero until then now + defaultRateLimitCooldown else until in
  markTransientAccount id HealthRateLimited until reason now' p.

Definition MarkTemporaryMute (id : string) (until : Z) (reason : string) (now now' : Z) (p : Pool) : Pool :=
  let until := if timeIsZero until then now + defaultMuteCooldown else until in
  markTransientAccount id HealthTemporarilyMuted until reason now' p.

Definition markBlockedAccount (id : string) (state : HealthState) (reason : string) (now : Z)
  (p : Pool) : Pool :=
  if bool_decide (id = "") then p
  else
    let h := {| State := state; Until := zeroTime; Reason := reason; UpdatedAt := now |} in
    let p := setHealth (<[id := h]> (health p)) p in
    let p := setAffinity (ForgetAccount (affinity p) id) p in
    notifyWaiterLocked p.

Definition MarkPermanentlyBanned (id reason : string) (now : Z) (p : Pool) : Pool :=
  markBlockedAccount id HealthPermanentlyBanned reason now p.

Definition MarkInvalidCredentials (id reason : string) (now : Z) (p : Pool) : Pool :=
  markBlockedAccount id HealthInvalidCredentials reason now p.

(** The health entry an operation sees; an expired cooldown is removed. *)
Definition accountHealthLocked (id : string) (now : Z) (p : Pool) : Pool * option Health :=
  match health p !! id with
  | None => (p, None)
  | Some h => if healthExpired h now then (setHealth (delete id (health p)) p, None)
              else (p, Some h)
  end.

Definition AccountHealth (id : string) (now : Z) (p : Pool) : Pool * option Health :=
  if bool_decide (id = "") then (p, None) else accountHealthLocked id now p.

(** ** Acquiring (pool_acquire.go, pool_limits.go) *)

Definition canAcquireIDLocked (st : Store) (now : Z) (id : string) (p : Pool) : Pool * bool :=
  if bool_decide (id = "") then (p, false)
  else
    match FindAccount st id with
    | None => (p, false)
    | Some acc =>
        if Disabled acc then (p, false)
        else
          let '(p, h) := accountHealthLocked id now p in
          match h with
          | Some _ => (p, false)
          | None =>
              if maxInflightPerAccount p <=? inUseOf p id then (p, false)
              else if (0 <? globalMaxInflight p) && (globalMaxInflight p <=? currentInUse (inUse p))
              then (p, false)
              else (p, true)
          end
    end.

Fixpoint bump (id : string) (q : list string) : option (list string) :=
  match q with
  | [] => None
  | x :: q => if bool_decide (x = id) then Some q else cons x <$> bump id q
  end.

(** The first occurrence moves to the back; an absent id leaves the queue alone. *)
Definition bumpQueue (id : string) (p : Pool) : Pool :=
  match bump id (queue p) with
  | Some q => setQueue (q ++ [id]) p
  | None => p
  end.

(** [p.inUse[id]++; p.bumpQueue(id)] *)
Definition takeSlot (id : string) (p : Pool) : Pool :=
  bumpQueue id (setInUse (<[id := inUseOf p id + 1]> (inUse p)) p).

Fixpoint tryAcquireFrom (st : Store) (clk : nat -> Z) (exclude : gset string) (i : nat)
  (ids : list string) (p : Pool) : Pool * option Account :=
  match ids with
  | [] => (p, None)
  | id :: ids =>
      if bool_decide (id ∈ exclude) then tryAcquireFrom st clk exclude (S i) ids p
      else
        let '(p, ok) := canAcquireIDLocked st (clk i) id p in
        if negb ok then tryAcquireFrom st clk exclude (S i) ids p
        else match FindAccount st id with
             | None => tryAcquireFrom st clk exclude (S i) ids p
             | Some acc => (takeSlot id p, Some acc)
             end
  end.

Definition tryAcquire (st : Store) (clk : nat -> Z) (exclude : gset string) (p : Pool)
  : Pool * option Account :=
  tryAcquireFrom st clk exclude 0 (queue p) p.

Definition acquireLocked (st : Store) (clk : nat -> Z) (target : string) (exclude : gset string)
  (p : Pool) : Pool * option Account :=
  if bool_decide (target = "") then tryAcquire st clk exclude p
  else if bool_decide (target ∈ exclude) then (p, None)
  else
    let '(p, ok) := canAcquireIDLocked st (clk O) target p in
    if negb ok then (p, None)
    else match FindAccount st target with
         | None => (p, None)
         | Some acc => (takeSlot target p, Some acc)
         end.

Definition acquirePreferredLocked (st : Store) (clk : nat -> Z) (preferred : string)
  (exclude : gset string) (p : Pool) : Pool * option Account :=
  if bool_decide (preferred = "") then tryAcquire st clk exclude p
  else
    match acquireLocked st clk preferred exclude p with
    | (p, Some acc) => (p, Some acc)
    | (p, None) => tryAcquire st (fun i => clk (S i)) exclude p
    end.

(** [Acquire]; a nil [exclude] is the empty set. *)
Definition Acquire (st : Store) (clk : nat -> Z) (target : string) (exclude : gset string)
  (p : Pool) : Pool * option Account := acquireLocked st clk target exclude p.

(** One turn of the loops of [AcquireWait] and [AcquireWaitPreferred]. *)
Inductive turn :=
| Acquired (acc : Account)
| Refused
| Queued (w : nat).

Definition enqueueWaiter (p : Pool) : Pool * nat :=
  let w := nextChan p in (setWaiters (waiters p ++ [w]) (closed p) (S w) p, w).

Definition waitTurn (st : Store) (target : string) (exclude : gset string)
  (attempt : Pool -> Pool * option Account) (p : Pool) : Pool * turn :=
  match attempt p with
  | (p, Some acc) => (p, Acquired acc)
  | (p, None) =>
      if negb (canQueueLocked st target exclude p) then (p, Refused)
      else let '(p, w) := enqueueWaiter p in (p, Queued w)
  end.

Definition acquireWaitTurn (st : Store) (clk : nat -> Z) (target : string) (exclude : gset string)
  : Pool -> Pool * turn :=
  waitTurn st target exclude (acquireLocked st clk target exclude).

Definition acquirePreferredTurn (st : Store) (clk : nat -> Z) (preferred : string)
  (exclude : gset string) : Pool -> Pool * turn :=
  waitTurn st "" exclude (acquirePreferredLocked st clk preferred exclude).

(** ** Releasing *)

Definition Release (id : string) (p : Pool) : Pool :=
  if bool_decide (id = "") then p
  else
    let count := inUseOf p id in
    if count <=? 0 then p
    else if count =? 1 then notifyWaiterLocked (setInUse (delete id (inUse p)) p)
    else notifyWaiterLocked (setInUse (<[id := count - 1]> (inUse p)) p).

Definition AccountInUse (id : string) (p : Pool) : bool :=
  if bool_decide (id = "") then false else 0 <? inUseOf p id.

(** ** Limits (pool_limits.go) *)

Definition defaultRecommendedConcurrency (accountCount perAccount : Z) : Z :=
  if accountCount <=? 0 then 0
  else i64 (accountCount * (if perAccount <=? 0 then 2 else perAccount)).

Definition ApplyRuntimeLimits (st : Store) (perAccount maxQueue global : Z) (p : Pool) : Pool :=
  let perAccount := if perAccount <=? 0 then 1 else perAccount in
  let maxQueue := if maxQueue <? 0 then 0 else maxQueue in
  let accountCount := Z.of_nat (length (Accounts st)) in
  let global :=
    if global <=? 0 then
      let g := i64 (perAccount * accountCount) in if g <=? 0 then perAccount else g
    else global in
  notifyWaiterLocked
    (setLimits perAccount
       (defaultRecommendedConcurrency (Z.of_nat (length (queue p))) perAccount) maxQueue global p).

(** ** Reset (pool_core.go) *)

Definition parseCooldownState (s : string) : option HealthState :=
  if bool_decide (s = healthStateName HealthRateLimited) then Some HealthRateLimited
  else if bool_decide (s = healthStateName HealthTemporarilyMuted) then Some HealthTemporarilyMuted
  else None.

Definition persistedCooldownHealth (acc : Account) (now : Z) : option Health :=
  let until := unixTime (CooldownUntilUnix acc) in
  if negb (now <? until) then None
  else match parseCooldownState (CooldownState acc) with
       | None => None
       | Some state => Some {| State := state; Until := until;
                               Reason := "restored persisted cooldown"; UpdatedAt := now |}
       end.

Definition hasToken (a : Account) : bool := negb (bool_decide (Token a = "")).

(** The stable sort that puts the accounts with a token first. *)
Definition tokenFirst (accounts : list Account) : list Account :=
  filter (fun a => hasToken a = true) accounts ++ filter (fun a => hasToken a = false) accounts.

(** The identifiers of the accounts that are enabled and have one. *)
Fixpoint enabledIDs (accounts : list Account) : list string :=
  match accounts with
  | [] => []
  | a :: rest =>
      if Disabled a then enabledIDs rest
      else if bool_decide (Identifier a = "") then enabledIDs rest
      else Identifier a :: enabledIDs rest
  end.

(** Their unexpired persisted cooldowns; a later account wins. *)
Fixpoint persistedHealths (accounts : list Account) (now : Z) (m : gmap string Health)
  : gmap string Health :=
  match accounts with
  | [] => m
  | a :: rest =>
      if Disabled a then persistedHealths rest now m
      else if bool_decide (Identifier a = "") then persistedHealths rest now m
      else persistedHealths rest now
             (match persistedCooldownHealth a now with
              | Some h => <[Identifier a := h]> m
              | None => m
              end)
  end.

Definition Reset (getenv : string -> string) (st : Store) (now : Z) (p : Pool) : Pool :=
  let accounts := tokenFirst (Accounts st) in
  let ids := enabledIDs accounts in
  let persisted := persistedHealths accounts now ∅ in
  let perAccount := RuntimeAccountMaxInflight getenv st in
  let recommended := defaultRecommendedConcurrency (Z.of_nat (length ids)) perAccount in
  let p := drainWaitersLocked p in
  let p := setQueue ids p in
  let p := setInUse ∅ p in
  let p := setHealth (persisted ∪
    filter (fun kv => kv.1 ∈ ids /\ healthExpired kv.2 now = false) (health p)) p in
  setLimits perAccount recommended (RuntimeAccountMaxQueue getenv st recommended)
    (RuntimeGlobalMaxInflight getenv st recommended) p.

Definition NewPool (getenv : string -> string) (st : Store) (now : Z) : Pool :=
  Reset getenv st now
    {| queue := []; inUse := ∅; waiters := []; health := ∅;
       maxInflightPerAccount := RuntimeAccountMaxInflight getenv st; recommendedConcurrency := 0;
       maxQueueSize := 0; globalMaxInflight := 0; affinity := NewAffinity getenv;
       closed := ∅; nextChan := 0 |}.

(** ** Status (pool_core.go) *)

Record AccountRuntime := {
  rState : string;
  rActivity : string;
  rInUse : Z;
  rAvailableSlots : Z
}.

Record PoolStatus := {
  stAvailable : list string;
  stInUseAccounts : gset string;
  stInUse : Z;
  stTotal : nat;
  stDisabled : nat;
  stHealth : gmap string Health;
  stRuntime : gmap string AccountRuntime;
  stStateCounts : gmap string nat
}.

(** The ids of the queue that could take a request (global limit aside). *)
Fixpoint availableIDs (clk : nat -> Z) (i : nat) (ids : list string) (p : Pool)
  : Pool * list string :=
  match ids with
  | [] => (p, [])
  | id :: ids =>
      let '(p, h) := accountHealthLocked id (clk i) p in
      let '(p', rest) := availableIDs clk (S i) ids p in
      (p', match h with
           | Some _ => rest
           | None => if inUseOf p id <? maxInflightPerAccount p then id :: rest else rest
           end)
  end.

Definition activityState (n perAccount : Z) : string :=
  if perAccount <=? n then "saturated" else if 0 <? n then "busy" else "idle".

(** The [state] of one account of the configuration. *)
Definition accountState (acc : Account) (h : option Health) (activity : string) : string :=
  if Disabled acc then
    if bool_decide (DisabledReason acc = AccountDisabledUpstreamBanned)
    then healthStateName HealthPermanentlyBanned
    else if bool_decide (DisabledReason acc = AccountDisabledInvalidCredentials)
    then healthStateName HealthInvalidCredentials
    else "disabled"
  else match h with
       | Some h => healthStateName (State h)
       | None => activity
       end.

Fixpoint accountRuntimes (clk : nat -> Z) (i : nat) (accounts : list Account) (p : Pool)
  (disabled : nat) (rt : gmap string AccountRuntime) (counts : gmap string nat)
  : Pool * nat * gmap string AccountRuntime * gmap string nat :=
  match accounts with
  | [] => (p, disabled, rt, counts)
  | acc :: rest =>
      let id := Identifier acc in
      let n := inUseOf p id in
      let slots := Z.max 0 (maxInflightPerAccount p - n) in
      let activity := activityState n (maxInflightPerAccount p) in
      let '(p, h) := if Disabled acc then (p, None) else accountHealthLocked id (clk i) p in
      let state := accountState acc h activity in
      let blocked := Disabled acc || match h with Some _ => true | None => false end in
      let r := {| rState := state; rActivity := activity; rInUse := n;
                  rAvailableSlots := if blocked then 0 else slots |} in
      accountRuntimes clk (S i) rest p (if Disabled acc then S disabled else disabled)
        (<[id := r]> rt) (<[state := S (default O (counts !! state))]> counts)
  end.

Definition initialStateCounts : gmap string nat :=
  list_to_map ((fun s => (s, O)) <$>
    ["idle"; "busy"; "saturated"; "disabled"; "rate_limited"; "temporarily_muted";
     "invalid_credentials"; "permanently_banned"]).

(** The returned map, less the limits it repeats from the pool and the
    utilization percentages; the sorted [in_use_accounts] are a set.
    [now] is the reading of the health loop, [clk] and [clk'] those of the scans of
    the queue and of the accounts. *)
Definition PoolStatusOf (st : Store) (clk : nat -> Z) (now : Z) (clk' : nat -> Z) (p : Pool)
  : Pool * PoolStatus :=
  let '(p, available) := availableIDs clk 0 (queue p) p in
  let busy := filter (fun kv => 0 < kv.2) (inUse p) in
  let p := setHealth (filter (fun kv => healthExpired kv.2 now = false) (health p)) p in
  let shown := health p in
  let accounts := Accounts st in
  let '(p, disabled, rt, counts) := accountRuntimes clk' 0 accounts p 0 ∅ initialStateCounts in
  (p, {| stAvailable := available; stInUseAccounts := dom busy;
         stInUse := currentInUse busy; stTotal := length accounts; stDisabled := disabled;
         stHealth := shown; stRuntime := rt; stStateCounts := counts |}).

(** ** Lemmas: in-use counts *)

Lemma currentInUse_insert_new (u : gmap string Z) (id : string) (n : Z) :
  u !! id = None -> currentInUse (<[id := n]> u) = currentInUse u + n.
Proof.
  intros H. unfold currentInUse. rewrite map_fold_insert_L; [done| |done]. intros. lia.
Qed.

Lemma currentInUse_delete (u : gmap string Z) (id : string) (n : Z) :
  u !! id = Some n -> currentInUse (delete id u) = currentInUse u - n.
Proof.
  intros H. rewrite <- (insert_delete_id u id n H) at 2.
  rewrite currentInUse_insert_new by apply lookup_delete_eq. lia.
Qed.

Lemma currentInUse_insert (u : gmap string Z) (id : string) (n : Z) :
  currentInUse (<[id := n]> u) = currentInUse u + n - default 0 (u !! id).
Proof.
  destruct (u !! id) as [m|] eqn:E; simpl.
  - rewrite <- insert_delete_eq, currentInUse_insert_new by apply lookup_delete_eq.
    rewrite (currentInUse_delete u id m E). lia.
  - rewrite currentInUse_insert_new by done. lia.
Qed.

Definition countsPositive (u : gmap string Z) : Prop := forall id n, u !! id = Some n -> 0 < n.

Lemma currentInUse_ge (u : gmap string Z) (id : string) :
  countsPositive u -> default 0 (u !! id) <= currentInUse u /\ 0 <= currentInUse u.
Proof.
  intros Hpos.
  assert (Hnn : forall v : gmap string Z, countsPositive v -> 0 <= currentInUse v).
  { clear. intros v. induction v as [|i x m Hi IH] using map_ind; intros Hv; [done|].
    rewrite currentInUse_insert_new by done.
    assert (0 < x) by (apply (Hv i); apply lookup_insert_eq).
    enough (0 <= currentInUse m) by lia. apply IH.
    intros j n Hj. apply (Hv j). rewrite lookup_insert_ne; [done|]. congruence. }
  split; [|by apply Hnn].
  destruct (u !! id) as [n|] eqn:E; simpl; [|by apply Hnn].
  pose proof (currentInUse_delete u id n E) as Hd.
  assert (0 <= currentInUse (delete id u)); [|lia].
  apply Hnn. intros j m [_ Hj]%lookup_delete_Some. by apply (Hpos j).
Qed.

(** ** Lemmas: eligibility *)

(** The health entry that blocks an account at an instant. *)
Definition blockedAt (p : Pool) (now : Z) (id : string) : option Health :=
  match health p !! id with
  | Some h => if healthExpired h now then None else Some h
  | None => None
  end.

(** What [canAcquireIDLocked] decides. *)
Definition eligible (st : Store) (p : Pool) (now : Z) (id : string) : bool :=
  negb (bool_decide (id = "")) &&
  match FindAccount st id with Some acc => negb (Disabled acc) | None => false end &&
  match blockedAt p now id with Some _ => false | None => true end &&
  (inUseOf p id <? maxInflightPerAccount p) &&
  ((globalMaxInflight p <=? 0) || (currentInUse (inUse p) <? globalMaxInflight p)).

Lemma accountHealthLocked_spec (id : string) (now : Z) (p : Pool) :
  (accountHealthLocked id now p).2 = blockedAt p now id /\
  (accountHealthLocked id now p).1 =
    setHealth (if match health p !! id with Some h => healthExpired h now | None => false end
               then delete id (health p) else health p) p.
Proof.
  unfold accountHealthLocked, blockedAt. destruct (health p !! id) as [h|] eqn:E.
  - destruct (healthExpired h now); split; try done. by destruct p.
  - split; [done|]. by destruct p.
Qed.

Lemma canAcquireIDLocked_spec (st : Store) (now : Z) (id : string) (p : Pool) :
  (canAcquireIDLocked st now id p).2 = eligible st p now id /\
  exists h, (canAcquireIDLocked st now id p).1 = setHealth h p /\
    forall k, k <> id -> h !! k = health p !! k.
Proof.
  unfold canAcquireIDLocked, eligible.
  assert (Hself : exists h, p = setHealth h p /\ forall k, k <> id -> h !! k = health p !! k).
  { exists (health p). by destruct p. }
  case_bool_decide; simpl; [by split|].
  destruct (FindAccount st id) as [acc|]; simpl; [|by split].
  destruct (Disabled acc); simpl; [by split|].
  pose proof (accountHealthLocked_spec id now p) as [Hh Hp].
  destruct (accountHealthLocked id now p) as [p' h]. simpl in Hh, Hp. subst h p'.
  match goal with |- context [setHealth ?x p] => set (h' := x) end.
  assert (Hex : exists h, setHealth h' p = setHealth h p /\ forall k, k <> id -> h !! k = health p !! k).
  { exists h'. split; [done|]. intros k Hk. unfold h'.
    destruct (match _ with Some _ => _ | None => _ end); [|done]. by apply lookup_delete_ne. }
  destruct (blockedAt p now id); simpl; [by split|].
  change (inUseOf (setHealth h' p) id) with (inUseOf p id).
  destruct (Z.leb_spec (maxInflightPerAccount p) (inUseOf p id));
    destruct (Z.ltb_spec (inUseOf p id) (maxInflightPerAccount p)); try lia; simpl; [by split|].
  destruct (Z.ltb_spec 0 (globalMaxInflight p)); destruct (Z.leb_spec (globalMaxInflight p) 0);
    try lia; simpl; [|by split].
  destruct (Z.leb_spec (globalMaxInflight p) (currentInUse (inUse p)));
    destruct (Z.ltb_spec (currentInUse (inUse p)) (globalMaxInflight p)); try lia; by split.
Qed.

Lemma eligible_setHealth (st : Store) (h : gmap string Health) (p : Pool) (now : Z) (id : string) :
  h !! id = health p !! id -> eligible st (setHealth h p) now id = eligible st p now id.
Proof. intros H. unfold eligible, blockedAt. simpl. by rewrite H. Qed.

Lemma eligible_found (st : Store) (p : Pool) (now : Z) (id : string) :
  eligible st p now id = true -> exists acc, FindAccount st id = Some acc /\ Disabled acc = false.
Proof.
  unfold eligible. intros H. bool_cases. destruct (FindAccount st id) as [acc|]; [|done].
  exists acc. split; [done|]. by apply negb_true_iff.
Qed.

(** Candidate [j] of the scan is passed over. *)
Definition passedOver (st : Store) (clk : nat -> Z) (exclude : gset string) (p : Pool)
  (ids : list string) (i j : nat) : Prop :=
  forall id, ids !! j = Some id ->
    id ∈ exclude \/ eligible st p (clk (i + j)%nat) id = false.

Lemma passedOver_cons st clk exclude p id ids i j :
  passedOver st clk exclude p ids (S i) j -> passedOver st clk exclude p (id :: ids) i (S j).
Proof. unfold passedOver. simpl. intros H x Hx. replace (i + S j)%nat with (S i + j)%nat by lia. auto. Qed.

Lemma passedOver_setHealth st clk exclude h p id ids i j :
  id ∉ ids -> (forall k, k <> id -> h !! k = health p !! k) ->
  passedOver st clk exclude (setHealth h p) ids i j -> passedOver st clk exclude p ids i j.
Proof.
  unfold passedOver. intros Hid Hh H x Hx.
  destruct (H x Hx) as [?|Hel]; [by left|]. right.
  rewrite eligible_setHealth in Hel; [done|]. apply Hh. intros ->.
  apply Hid. by apply list_elem_of_lookup_2 in Hx.
Qed.

Lemma tryAcquireFrom_spec (st : Store) (clk : nat -> Z) (exclude : gset string) (i : nat)
  (ids : list string) (p : Pool) :
  NoDup ids ->
  match tryAcquireFrom st clk exclude i ids p with
  | (p', None) => (exists h, p' = setHealth h p) /\
      forall j, passedOver st clk exclude p ids i j
  | (p', Some acc) => exists j id h, ids !! j = Some id /\ (id ∉ exclude) /\
      eligible st p (clk (i + j)%nat) id = true /\ FindAccount st id = Some acc /\
      p' = takeSlot id (setHealth h p) /\
      forall j', (j' < j)%nat -> passedOver st clk exclude p ids i j'
  end.
Proof.
  revert i p. induction ids as [|id ids IH]; intros i p Hnd; simpl.
  { split; [|done]. exists (health p). by destruct p. }
  apply NoDup_cons in Hnd as [Hid Hnd].
  case_bool_decide as Hex.
  - specialize (IH (S i) p Hnd).
    assert (H0 : passedOver st clk exclude p (id :: ids) i 0).
    { intros x Hx. simpl in Hx. simplify_eq. by left. }
    destruct (tryAcquireFrom _ _ _ _ _ _) as [p' [acc|]].
    + destruct IH as (j & x & h & ? & ? & ? & ? & ? & Hpre). exists (S j), x, h.
      replace (i + S j)%nat with (S i + j)%nat by lia.
      do 5 (split; [done|]). intros [|j'] Hj'; [done|]. apply passedOver_cons, Hpre. lia.
    + destruct IH as [? Hpre]. split; [done|]. intros [|j]; [done|]. apply passedOver_cons, Hpre.
  - pose proof (canAcquireIDLocked_spec st (clk i) id p) as [Hok (h & Hp & Hh)].
    destruct (canAcquireIDLocked st (clk i) id p) as [p1 ok]. simpl in Hok, Hp. subst ok p1.
    destruct (eligible st p (clk i) id) eqn:Hel; simpl.
    + destruct (eligible_found _ _ _ _ Hel) as (acc & Hacc & _). rewrite Hacc.
      exists O, id, h. rewrite Nat.add_0_r. do 5 (split; [done|]). lia.
    + assert (H0 : passedOver st clk exclude p (id :: ids) i 0).
      { intros x Hx. simpl in Hx. simplify_eq. right. by rewrite Nat.add_0_r. }
      specialize (IH (S i) (setHealth h p) Hnd).
      destruct (tryAcquireFrom _ _ _ _ _ _) as [p' [acc|]].
      * destruct IH as (j & x & h2 & Hx & ? & Hel2 & ? & ? & Hpre). exists (S j), x, h2.
        replace (i + S j)%nat with (S i + j)%nat by lia.
        rewrite eligible_setHealth in Hel2
          by (apply Hh; intros ->; apply Hid; by apply list_elem_of_lookup_2 in Hx).
        do 5 (split; [done|]). intros [|j'] Hj'; [done|].
        eapply passedOver_cons, passedOver_setHealth; [done..|]. apply Hpre. lia.
      * destruct IH as [(h2 & ->) Hpre]. split; [by exists h2|]. intros [|j]; [done|].
        eapply passedOver_cons, passedOver_setHealth; [done..|]. apply Hpre.
Qed.

(** ** Lemmas: the queue *)

Lemma bump_spec (id : string) (q : list string) :
  match bump id q with
  | Some q' => exists l r, q = l ++ id :: r /\ q' = l ++ r /\ id ∉ l
  | None => id ∉ q
  end.
Proof.
  induction q as [|x q IH]; simpl; [by apply not_elem_of_nil|].
  case_bool_decide as Hx.
  - subst. exists [], q. split; [done|]. split; [done|]. by apply not_elem_of_nil.
  - destruct (bump id q) as [q'|]; simpl.
    + destruct IH as (l & r & -> & -> & Hl). exists (x :: l), r. split; [done|]. split; [done|].
      rewrite not_elem_of_cons. split; [by intros ->|done].
    + rewrite not_elem_of_cons. split; [by intros ->|done].
Qed.

Lemma bumpQueue_perm (id : string) (p : Pool) : Permutation (queue p) (queue (bumpQueue id p)).
Proof.
  unfold bumpQueue. pose proof (bump_spec id (queue p)) as H.
  destruct (bump id (queue p)) as [q|]; simpl; [|done].
  destruct H as (l & r & -> & -> & _). rewrite <- app_assoc.
  rewrite (Permutation_app_comm r). simpl. apply Permutation_app_head. by rewrite Permutation_cons_append.
Qed.

Lemma takeSlot_fields (id : string) (p : Pool) :
  inUse (takeSlot id p) = <[id := inUseOf p id + 1]> (inUse p) /\
  health (takeSlot id p) = health p /\ waiters (takeSlot id p) = waiters p /\
  closed (takeSlot id p) = closed p /\ nextChan (takeSlot id p) = nextChan p /\
  maxInflightPerAccount (takeSlot id p) = maxInflightPerAccount p /\
  globalMaxInflight (takeSlot id p) = globalMaxInflight p /\
  maxQueueSize (takeSlot id p) = maxQueueSize p.
Proof. unfold takeSlot, bumpQueue. by destruct (bump _ _). Qed.

(** ** Lemmas: every operation on one page *)

(** The account an acquisition took a slot of, or nothing taken. *)
Definition acquireResult (st : Store) (p p' : Pool) (r : option Account) : Prop :=
  match r with
  | None => exists h, p' = setHealth h p
  | Some acc => exists id now h, FindAccount st id = Some acc /\
      eligible st p now id = true /\ p' = takeSlot id (setHealth h p)
  end.

Lemma setHealth_setHealth h1 h2 p : setHealth h1 (setHealth h2 p) = setHealth h1 p.
Proof. by destruct p. Qed.

Lemma tryAcquire_result (st : Store) (clk : nat -> Z) (exclude : gset string) (p : Pool) :
  NoDup (queue p) ->
  acquireResult st p (tryAcquire st clk exclude p).1 (tryAcquire st clk exclude p).2 /\
  forall acc, (tryAcquire st clk exclude p).2 = Some acc ->
    exists id now h, id ∈ queue p /\ (id ∉ exclude) /\ FindAccount st id = Some acc /\
      eligible st p now id = true /\ (tryAcquire st clk exclude p).1 = takeSlot id (setHealth h p).
Proof.
  intros Hnd. unfold tryAcquire.
  pose proof (tryAcquireFrom_spec st clk exclude 0 (queue p) p Hnd) as H.
  destruct (tryAcquireFrom _ _ _ _ _ _) as [p' [acc|]]; simpl.
  - destruct H as (j & id & h & Hj & Hex & Hel & Hf & -> & _).
    split; [by exists id, (clk (0 + j)%nat), h|].
    intros ? [= <-]. exists id, (clk (0 + j)%nat), h. split; [|done].
    by apply list_elem_of_lookup_2 in Hj.
  - destruct H as [Hh _]. split; [done|]. done.
Qed.

Lemma acquireLocked_target (st : Store) (clk : nat -> Z) (target : string) (exclude : gset string)
  (p : Pool) :
  target <> "" ->
  match acquireLocked st clk target exclude p with
  | (p', Some acc) => (target ∉ exclude) /\ FindAccount st target = Some acc /\
      eligible st p (clk O) target = true /\ exists h, p' = takeSlot target (setHealth h p)
  | (p', None) => (target ∈ exclude \/ eligible st p (clk O) target = false) /\
      exists h, p' = setHealth h p
  end.
Proof.
  intros Hne. unfold acquireLocked. rewrite bool_decide_eq_false_2 by done.
  case_bool_decide as Hex; [split; [by left|]; exists (health p); by destruct p|].
  pose proof (canAcquireIDLocked_spec st (clk O) target p) as [Hok (h & Hp & Hh)].
  destruct (canAcquireIDLocked st (clk O) target p) as [p1 ok]. simpl in Hok, Hp. subst ok p1.
  destruct (eligible st p (clk O) target) eqn:Hel; simpl.
  - destruct (eligible_found _ _ _ _ Hel) as (acc & Hacc & _). rewrite Hacc. eauto.
  - eauto.
Qed.

Lemma acquireLocked_result (st : Store) (clk : nat -> Z) (target : string) (exclude : gset string)
  (p : Pool) :
  NoDup (queue p) ->
  acquireResult st p (acquireLocked st clk target exclude p).1 (acquireLocked st clk target exclude p).2.
Proof.
  intros Hnd. destruct (decide (target = "")) as [->|Hne].
  - unfold acquireLocked. rewrite bool_decide_eq_true_2 by done. by apply tryAcquire_result.
  - pose proof (acquireLocked_target st clk target exclude p Hne) as H.
    destruct (acquireLocked _ _ _ _ _) as [p' [acc|]]; simpl.
    + destruct H as (_ & Hf & Hel & h & ->). by exists target, (clk O), h.
    + by destruct H as [_ ?].
Qed.

Lemma acquirePreferred_result (st : Store) (clk : nat -> Z) (preferred : string)
  (exclude : gset string) (p : Pool) :
  NoDup (queue p) ->
  exists h0, acquireResult st (setHealth h0 p) (acquirePreferredLocked st clk preferred exclude p).1
    (acquirePreferredLocked st clk preferred exclude p).2.
Proof.
  intros Hnd. unfold acquirePreferredLocked.
  assert (Hself : p = setHealth (health p) p) by (by destruct p).
  case_bool_decide as Hne.
  { exists (health p). rewrite <- Hself. by apply tryAcquire_result. }
  pose proof (acquireLocked_result st clk preferred exclude p Hnd) as H.
  destruct (acquireLocked st clk preferred exclude p) as [p' [acc|]]; simpl in *.
  - exists (health p). by rewrite <- Hself.
  - destruct H as [h ->]. exists h. by apply tryAcquire_result.
Qed.

(** ** Properties *)

Lemma bumpQueue_split (l r : list string) (id : string) (p : Pool) :
  queue p = l ++ id :: r -> id ∉ l -> queue (bumpQueue id p) = l ++ r ++ [id].
Proof.
  intros Hq Hl. unfold bumpQueue. rewrite Hq.
  assert (Hb : bump id (l ++ id :: r) = Some (l ++ r)).
  { clear Hq. induction l as [|x l IH]; simpl; [by rewrite bool_decide_eq_true_2|].
    apply not_elem_of_cons in Hl as [Hx Hl]. rewrite bool_decide_eq_false_2 by done.
    by rewrite (IH Hl). }
  rewrite Hb. simpl. by rewrite <- app_assoc.
Qed.

(** Without a target the pool serves the queue in order: it gives out the
    first account that is not excluded and is eligible at the moment it is
    examined (known, enabled, not cooling down or banned, below its own and the
    global limit), every account before it having been passed over for one of
    these reasons; that account has one more request in flight and moves to the
    back of the queue, the order of the others is kept.  When nothing is given
    out, every account of the queue was passed over, and neither the queue nor
    the counts have changed. *)
Theorem tryAcquire_first_eligible (st : Store) (clk : nat -> Z) (exclude : gset string) (p : Pool) :
  NoDup (queue p) ->
  match tryAcquire st clk exclude p with
  | (p', Some acc) => exists l id r,
      queue p = l ++ id :: r /\ (id ∉ exclude) /\ FindAccount st id = Some acc /\
      eligible st p (clk (length l)) id = true /\
      (forall j, (j < length l)%nat -> passedOver st clk exclude p (queue p) 0 j) /\
      queue p' = l ++ r ++ [id] /\ inUse p' = <[id := inUseOf p id + 1]> (inUse p) /\
      waiters p' = waiters p /\ closed p' = closed p
  | (p', None) => (forall j, passedOver st clk exclude p (queue p) 0 j) /\
      queue p' = queue p /\ inUse p' = inUse p /\ waiters p' = waiters p /\ closed p' = closed p
  end.
Proof.
  intros Hnd. unfold tryAcquire.
  pose proof (tryAcquireFrom_spec st clk exclude 0 (queue p) p Hnd) as H.
  destruct (tryAcquireFrom _ _ _ _ _ _) as [p' [acc|]].
  - destruct H as (j & id & h & Hj & Hex & Hel & Hf & -> & Hpre).
    exists (take j (queue p)), id, (drop (S j) (queue p)).
    pose proof (take_drop_middle _ _ _ Hj) as Hq.
    assert (Hlen : length (take j (queue p)) = j).
    { apply length_take_le. apply lookup_lt_Some in Hj. lia. }
    rewrite Hlen. do 5 (split; [done|]).
    destruct (takeSlot_fields id (setHealth h p)) as (Hu & _ & Hw & Hc & _).
    rewrite Hu, Hw, Hc. split; [|done]. unfold takeSlot. apply bumpQueue_split; [by symmetry|].
    intros Hin. rewrite <- Hq in Hnd. apply NoDup_app in Hnd as (_ & Hd & _).
    apply (Hd id Hin). by apply elem_of_cons; left.
  - destruct H as [(h & ->) Hpre]. done.
Qed.

(** A request with an affinity preference gets the preferred account whenever
    that account is not excluded and is eligible, whatever the state of the rest
    of the queue; otherwise it is served like a request without preference, from
    a pool that differs at most in the preferred account's health entry. *)
Theorem acquirePreferred_falls_back (st : Store) (clk : nat -> Z) (preferred : string)
  (exclude : gset string) (p : Pool) :
  preferred <> "" ->
  if negb (bool_decide (preferred ∈ exclude)) && eligible st p (clk O) preferred
  then exists acc p', acquirePreferredLocked st clk preferred exclude p = (p', Some acc) /\
         FindAccount st preferred = Some acc /\
         inUse p' = <[preferred := inUseOf p preferred + 1]> (inUse p)
  else exists h, acquirePreferredLocked st clk preferred exclude p =
         tryAcquire st (fun i => clk (S i)) exclude (setHealth h p).
Proof.
  intros Hne. unfold acquirePreferredLocked. rewrite (bool_decide_eq_false_2 (preferred = "")) by done.
  pose proof (acquireLocked_target st clk preferred exclude p Hne) as H.
  destruct (acquireLocked st clk preferred exclude p) as [p' [acc|]].
  - destruct H as (Hex & Hf & Hel & h & ->). rewrite bool_decide_eq_false_2, Hel by done. simpl.
    exists acc, (takeSlot preferred (setHealth h p)). split; [done|]. split; [done|].
    by destruct (takeSlot_fields preferred (setHealth h p)) as [-> _].
  - destruct H as [H (h & ->)].
    assert (negb (bool_decide (preferred ∈ exclude)) && eligible st p (clk O) preferred = false) as ->.
    { destruct H as [H|H]; [by rewrite bool_decide_eq_true_2|]. rewrite H. apply andb_false_r. }
    by exists h.
Qed.

Lemma notifyWaiterLocked_inUse (p : Pool) : inUse (notifyWaiterLocked p) = inUse p.
Proof. unfold notifyWaiterLocked. by destruct (waiters p). Qed.

Lemma Release_inUse (id : string) (p : Pool) :
  id <> "" -> 0 < inUseOf p id ->
  inUse (Release id p) =
    if inUseOf p id =? 1 then delete id (inUse p) else <[id := inUseOf p id - 1]> (inUse p).
Proof.
  intros Hne Hpos. unfold Release. rewrite bool_decide_eq_false_2 by done.
  destruct (Z.leb_spec (inUseOf p id) 0); [lia|].
  destruct (inUseOf p id =? 1); by rewrite notifyWaiterLocked_inUse.
Qed.

(** Acquiring a targeted account and releasing it restores every in-flight
    count, and the release hands the slot on: it takes the longest waiting
    request off the queue of waiters and wakes it. *)
Theorem Release_undoes_Acquire (st : Store) (clk : nat -> Z) (target : string)
  (exclude : gset string) (p p' : Pool) (acc : Account) :
  target <> "" -> countsPositive (inUse p) ->
  Acquire st clk target exclude p = (p', Some acc) ->
  inUse (Release target p') = inUse p /\
  match waiters p with
  | [] => waiters (Release target p') = [] /\ closed (Release target p') = closed p
  | w :: ws => waiters (Release target p') = ws /\ closed (Release target p') = {[w]} ∪ closed p
  end.
Proof.
  intros Hne Hpos Hacq.
  pose proof (acquireLocked_target st clk target exclude p Hne) as H.
  unfold Acquire in Hacq. rewrite Hacq in H. destruct H as (_ & _ & _ & h & ->).
  destruct (takeSlot_fields target (setHealth h p)) as (Hu & _ & Hw & Hc & _).
  assert (Hn : inUseOf (takeSlot target (setHealth h p)) target = inUseOf p target + 1).
  { unfold inUseOf at 1. rewrite Hu. by rewrite lookup_insert_eq. }
  assert (0 <= inUseOf p target).
  { unfold inUseOf. destruct (inUse p !! target) as [n|] eqn:E; simpl; [|lia].
    apply Hpos in E. lia. }
  split.
  - rewrite Release_inUse by (done || lia). rewrite Hn, Hu. change (inUse (setHealth h p)) with (inUse p).
    change (inUseOf (setHealth h p) target) with (inUseOf p target).
    destruct (Z.eqb_spec (inUseOf p target + 1) 1) as [He|He].
    + rewrite delete_insert_eq. apply delete_id. unfold inUseOf in *.
      destruct (inUse p !! target) as [n|] eqn:E; [|done]. apply Hpos in E. simpl in *. lia.
    + rewrite insert_insert_eq. apply insert_id. unfold inUseOf in *.
      destruct (inUse p !! target) as [n|] eqn:E; simpl in *; [f_equal; lia|lia].
  - unfold Release. rewrite bool_decide_eq_false_2, Hn by done.
    destruct (Z.leb_spec (inUseOf p target + 1) 0); [lia|]. unfold notifyWaiterLocked.
    change (waiters (setHealth h p)) with (waiters p) in Hw.
    change (closed (setHealth h p)) with (closed p) in Hc.
    destruct (inUseOf p target + 1 =? 1); simpl; rewrite Hw;
      destruct (waiters p) eqn:Ew; simpl; rewrite ?Hc, ?Hw; done.
Qed.

Lemma enabledIDs_app (l1 l2 : list Account) : enabledIDs (l1 ++ l2) = enabledIDs l1 ++ enabledIDs l2.
Proof.
  induction l1 as [|a l1 IH]; simpl; [done|].
  destruct (Disabled a); [done|]. case_bool_decide; [done|]. by rewrite IH.
Qed.

Lemma elem_of_enabledIDs (id : string) (l : list Account) :
  id ∈ enabledIDs l <-> exists a, a ∈ l /\ Disabled a = false /\ Identifier a = id /\ id <> "".
Proof.
  induction l as [|a l IH]; simpl.
  { split; [by intros ?%elem_of_nil|]. intros (a & Ha & _). by apply elem_of_nil in Ha. }
  assert (Hskip : (Disabled a = true \/ Identifier a = "") ->
    (id ∈ enabledIDs l <-> exists b, b ∈ a :: l /\ Disabled b = false /\ Identifier b = id /\ id <> "")).
  { intros Hs. rewrite IH. setoid_rewrite elem_of_cons. split.
    - intros (b & ? & ?). exists b. auto.
    - intros (b & [->|Hb] & Hd & Hi & Hne); [destruct Hs; congruence|]. by exists b. }
  destruct (Disabled a) eqn:Hd; [by apply Hskip; left|].
  case_bool_decide as Hi; [by apply Hskip; right|].
  rewrite elem_of_cons, IH. setoid_rewrite elem_of_cons. split.
  - intros [->|(b & ? & ?)]; [by exists a; auto|]. exists b. auto.
  - intros (b & [->|Hb] & Hbd & Hbi & Hne); [by left|]. right. by exists b.
Qed.

Lemma tokenFirst_perm (l : list Account) : Permutation l (tokenFirst l).
Proof.
  unfold tokenFirst. induction l as [|a l IH]; [done|].
  rewrite !filter_cons. destruct (hasToken a) eqn:Ha; simpl.
  - by apply perm_skip.
  - transitivity (a :: filter (fun b => hasToken b = true) l ++ filter (fun b => hasToken b = false) l).
    + by apply perm_skip.
    + apply Permutation_middle.
Qed.

Lemma persistedHealths_spec (l : list Account) (now : Z) (m : gmap string Health) (id : string) (h : Health) :
  persistedHealths l now m !! id = Some h ->
  m !! id = Some h \/ (id ∈ enabledIDs l /\ exists a, a ∈ l /\ Identifier a = id /\
    persistedCooldownHealth a now = Some h).
Proof.
  revert m. induction l as [|a l IH]; intros m; simpl; [by left|].
  assert (Hskip : persistedHealths l now m !! id = Some h -> m !! id = Some h \/
    (id ∈ enabledIDs l /\ exists b, b ∈ a :: l /\ Identifier b = id /\ persistedCooldownHealth b now = Some h)).
  { intros [?|(? & b & ? & ?)]%IH; [by left|]. right. split; [done|]. exists b.
    rewrite elem_of_cons. auto. }
  destruct (Disabled a); [done|]. case_bool_decide as Hi; [done|].
  intros Hl. apply IH in Hl as [Hm|(? & b & Hb & ?)].
  - destruct (persistedCooldownHealth a now) as [ha|] eqn:Hp; [|by left].
    apply lookup_insert_Some in Hm as [[<- <-]|[_ ?]]; [|by left].
    right. rewrite elem_of_cons. split; [by left|]. exists a. rewrite elem_of_cons. auto.
  - right. rewrite elem_of_cons. split; [by right|]. exists b. rewrite elem_of_cons. auto.
Qed.

Lemma persistedCooldown_active (a : Account) (now : Z) (h : Health) :
  persistedCooldownHealth a now = Some h -> healthExpired h now = false.
Proof.
  unfold persistedCooldownHealth, healthExpired. destruct (now <? unixTime _) eqn:E; simpl; [|done].
  destruct (parseCooldownState _); [|done]. intros [= <-]. simpl. rewrite E. apply andb_false_r.
Qed.

(** [Reset] rebuilds the pool from the configuration: the queue holds exactly
    the identifiers of the enabled accounts, those of the accounts with a token
    before the others; nothing is counted in flight; every request that was
    waiting is woken and none is left on the list; every health entry that
    survives belongs to a queued account and is still in force; and an entry in
    force of a queued account survives unless the configuration has a persisted
    cooldown that replaces it. *)
Theorem Reset_rebuilds (getenv : string -> string) (st : Store) (now : Z) (p : Pool) :
  let p' := Reset getenv st now p in
  (forall id, id ∈ queue p' <->
     exists a, a ∈ Accounts st /\ Disabled a = false /\ Identifier a = id /\ id <> "") /\
  (exists withToken without, queue p' = withToken ++ without /\
     (forall id, id ∈ withToken -> exists a, a ∈ Accounts st /\ Identifier a = id /\ Token a <> "") /\
     (forall id, id ∈ without -> exists a, a ∈ Accounts st /\ Identifier a = id /\ Token a = "")) /\
  inUse p' = ∅ /\ waiters p' = [] /\ (forall w, w ∈ waiters p -> w ∈ closed p') /\
  (forall id h, health p' !! id = Some h -> id ∈ queue p' /\ healthExpired h now = false) /\
  (forall id h, id ∈ queue p' -> health p !! id = Some h -> healthExpired h now = false ->
     health p' !! id = Some h \/
     exists a h', a ∈ Accounts st /\ Identifier a = id /\ persistedCooldownHealth a now = Some h' /\
       health p' !! id = Some h').
Proof.
  set (accs := tokenFirst (Accounts st)). intros p'.
  assert (Hin : forall a, a ∈ accs <-> a ∈ Accounts st).
  { intros a. unfold accs. by rewrite <- tokenFirst_perm. }
  assert (Hq : queue p' = enabledIDs accs) by done.
  assert (Hh : health p' = persistedHealths accs now ∅ ∪
    filter (fun kv => kv.1 ∈ enabledIDs accs /\ healthExpired kv.2 now = false) (health p)) by done.
  rewrite Hq, Hh. split; [|split; [|split; [done|split; [done|split; [|split]]]]].
  - intros id. rewrite elem_of_enabledIDs. by setoid_rewrite Hin.
  - eexists _, _. unfold accs, tokenFirst. rewrite enabledIDs_app. split; [done|].
    split; intros id (a & Ha & _ & Hi & _)%elem_of_enabledIDs;
      apply list_elem_of_filter in Ha as [Ht Ha]; exists a; split; [done| |done|];
      (split; [done|]); unfold hasToken in Ht; case_bool_decide; done.
  - intros w Hw. apply elem_of_union_l, elem_of_list_to_set, Hw.
  - intros id h [Hp|[_ Hf]]%lookup_union_Some_raw.
    + apply persistedHealths_spec in Hp as [Hp|(? & a & _ & _ & Hp)]; [by rewrite lookup_empty in Hp|].
      split; [done|]. by eapply persistedCooldown_active.
    + by apply map_lookup_filter_Some in Hf as [_ [? ?]].
  - intros id h Hid Hph Hex. destruct (persistedHealths accs now ∅ !! id) as [h'|] eqn:Hp.
    + right. pose proof Hp as Hp'. apply persistedHealths_spec in Hp' as [Hp'|(_ & a & Ha & ? & ?)];
        [by rewrite lookup_empty in Hp'|].
      exists a, h'. rewrite <- Hin. do 3 (split; [done|]). by apply lookup_union_Some_l.
    + left. rewrite lookup_union_r by done. by apply map_lookup_filter_Some.
Qed.

Lemma notifyWaiterLocked_fields (p : Pool) :
  health (notifyWaiterLocked p) = health p /\ affinity (notifyWaiterLocked p) = affinity p /\
  queue (notifyWaiterLocked p) = queue p /\
  maxInflightPerAccount (notifyWaiterLocked p) = maxInflightPerAccount p /\
  globalMaxInflight (notifyWaiterLocked p) = globalMaxInflight p /\
  maxQueueSize (notifyWaiterLocked p) = maxQueueSize p /\
  nextChan (notifyWaiterLocked p) = nextChan p.
Proof. unfold notifyWaiterLocked. by destruct (waiters p). Qed.

(** Eligibility depends on these parts of the pool only. *)
Lemma eligible_ext (st : Store) (p p' : Pool) (now : Z) (id : string) :
  inUse p' = inUse p -> health p' !! id = health p !! id ->
  maxInflightPerAccount p' = maxInflightPerAccount p -> globalMaxInflight p' = globalMaxInflight p ->
  eligible st p' now id = eligible st p now id.
Proof.
  intros Hu Hh Hm Hg. unfold eligible, blockedAt, inUseOf. by rewrite Hu, Hh, Hm, Hg.
Qed.

Lemma ForgetAccount_unbound (a : Affinity) (id key : string) (now : Z) :
  id <> "" -> boundAt (ForgetAccount a id) now key <> Some id.
Proof.
  intros Hid. unfold boundAt. rewrite ForgetAccount_lookup by done.
  destruct (bindings a !! key) as [e|]; [|done]. case_bool_decide as He; [done|].
  destruct (expiresAt e <? now); [done|]. intros [= H]. done.
Qed.

(** Marking an account rate limited or muted until an instant in the future
    makes it ineligible strictly before that instant, whatever the store; from
    that instant on it is exactly as eligible as with no health entry at all; no
    other account's eligibility changes, no session remains bound to the account,
    and the longest waiting request is woken to try another account. *)
Theorem cooldown_blocks_until (st : Store) (id : string) (state : HealthState) (until : Z)
  (reason : string) (now : Z) (p : Pool) :
  id <> "" -> isTransientHealth state = true -> now < until ->
  let p' := markTransientAccount id state until reason now p in
  (forall t, t < until -> eligible st p' t id = false) /\
  (forall t, until <= t -> eligible st p' t id = eligible st (setHealth (delete id (health p)) p) t id) /\
  (forall t other, other <> id -> eligible st p' t other = eligible st p t other) /\
  (forall t key, boundAt (affinity p') t key <> Some id) /\
  (forall w ws, waiters p = w :: ws -> waiters p' = ws /\ w ∈ closed p').
Proof.
  intros Hid Htr Hnow. unfold markTransientAccount. rewrite bool_decide_eq_false_2 by done.
  destruct (Z.ltb_spec now until); [|lia]. simpl.
  set (h := {| State := state; Until := until; Reason := reason; UpdatedAt := now |}).
  set (q := setAffinity _ _). simpl.
  destruct (notifyWaiterLocked_fields q) as (Hh & Ha & _ & Hm & Hg & _).
  assert (Hu : inUse (notifyWaiterLocked q) = inUse p) by apply (notifyWaiterLocked_inUse q).
  assert (Hhid : health (notifyWaiterLocked q) !! id = Some h).
  { rewrite Hh. apply lookup_insert_eq. }
  split; [|split; [|split; [|split]]].
  - intros t Ht. unfold eligible, blockedAt. rewrite Hhid. unfold healthExpired. simpl.
    rewrite Htr. destruct (Z.ltb_spec t until); [|lia]. simpl. by rewrite andb_false_r.
  - intros t Ht. unfold eligible, blockedAt, inUseOf. rewrite Hhid, Hu, Hm, Hg.
    unfold healthExpired. simpl. rewrite Htr, lookup_delete_eq.
    destruct (Z.ltb_spec t until); [lia|]. done.
  - intros t other Ho. apply eligible_ext; [done| |done|done]. rewrite Hh. by apply lookup_insert_ne.
  - intros t key. rewrite Ha. by apply ForgetAccount_unbound.
  - intros w ws Hw. unfold notifyWaiterLocked. change (waiters q) with (waiters p). rewrite Hw. simpl.
    set_solver.
Qed.

(** A ban or a credential failure is permanent: the account is never eligible
    again until the entry is cleared, and the clearing restores its eligibility
    (and every other account's) to what it was with no entry. *)
Theorem block_until_cleared (st : Store) (id : string) (state : HealthState) (reason : string)
  (now : Z) (p : Pool) :
  id <> "" -> isTransientHealth state = false ->
  let p' := markBlockedAccount id state reason now p in
  (forall t, eligible st p' t id = false) /\
  (forall t other, eligible st (ClearHealth id p') t other =
     eligible st (setHealth (delete id (health p)) p) t other).
Proof.
  intros Hid Htr. unfold markBlockedAccount, ClearHealth. rewrite bool_decide_eq_false_2 by done.
  set (q := setAffinity _ _). simpl.
  destruct (notifyWaiterLocked_fields q) as (Hh & Ha & _ & Hm & Hg & _).
  assert (Hu : inUse (notifyWaiterLocked q) = inUse p) by apply (notifyWaiterLocked_inUse q).
  split.
  - intros t. unfold eligible, blockedAt. rewrite Hh. simpl. rewrite lookup_insert_eq.
    unfold healthExpired. simpl. rewrite Htr. simpl. by rewrite andb_false_r.
  - intros t other. rewrite Hh. simpl. rewrite delete_insert_eq.
    set (r := setHealth (delete id (health p)) (notifyWaiterLocked q)).
    destruct (notifyWaiterLocked_fields r) as (Hrh & _ & _ & Hrm & Hrg & _).
    apply eligible_ext; [by rewrite notifyWaiterLocked_inUse| |by rewrite Hrm|by rewrite Hrg].
    by rewrite Hrh.
Qed.

(** ** The status report *)

Definition sumCounts (m : gmap string nat) : nat := map_fold (fun _ n total => (n + total)%nat) O m.

Lemma sumCounts_incr (m : gmap string nat) (s : string) :
  sumCounts (<[s := S (default O (m !! s))]> m) = S (sumCounts m).
Proof.
  unfold sumCounts. destruct (m !! s) as [n|] eqn:E; simpl.
  - rewrite <- (insert_delete_id m s n E) at 2. rewrite <- insert_delete_eq.
    rewrite !map_fold_insert_L; try (intros; lia); by rewrite ?lookup_delete_eq.
  - rewrite map_fold_insert_L; [done| |done]. intros. lia.
Qed.

Lemma accountHealthLocked_fields (id : string) (now : Z) (p : Pool) :
  inUse (accountHealthLocked id now p).1 = inUse p /\
  maxInflightPerAccount (accountHealthLocked id now p).1 = maxInflightPerAccount p.
Proof.
  destruct (accountHealthLocked_spec id now p) as [_ ->]. done.
Qed.

Lemma accountRuntimes_spec (clk : nat -> Z) (accounts : list Account) (i : nat) (p : Pool)
  (disabled : nat) (rt : gmap string AccountRuntime) (counts : gmap string nat) :
  match accountRuntimes clk i accounts p disabled rt counts with
  | (p', disabled', rt', counts') =>
      sumCounts counts' = (length accounts + sumCounts counts)%nat /\
      disabled' = (length (filter (fun a => Disabled a = true) accounts) + disabled)%nat /\
      (forall id r, rt' !! id = Some r -> rt !! id = Some r \/
         (rInUse r = inUseOf p id /\ 0 <= rAvailableSlots r /\
          rAvailableSlots r <= Z.max 0 (maxInflightPerAccount p - inUseOf p id) /\
          exists a, a ∈ accounts /\ Identifier a = id /\ (Disabled a = true -> rAvailableSlots r = 0))) /\
      (forall id, is_Some (rt !! id) \/ id ∈ (Identifier <$> accounts) -> is_Some (rt' !! id))
  end.
Proof.
  revert i p disabled rt counts.
  induction accounts as [|acc accounts IH]; intros i p disabled rt counts; simpl.
  { split; [done|]. split; [done|]. split; [by auto|]. intros id [?|Hn]; [done|]. by apply elem_of_nil in Hn. }
  set (hp := if Disabled acc then (p, None) else accountHealthLocked (Identifier acc) (clk i) p).
  assert (Hf : inUse hp.1 = inUse p /\ maxInflightPerAccount hp.1 = maxInflightPerAccount p).
  { unfold hp. destruct (Disabled acc); [done|]. apply accountHealthLocked_fields. }
  destruct hp as [p1 h]. simpl in Hf. destruct Hf as [Hu Hm].
  set (r0 := Build_AccountRuntime _ _ _ _). set (state := accountState _ _ _).
  specialize (IH (S i) p1 (if Disabled acc then S disabled else disabled)
    (<[Identifier acc := r0]> rt) (<[state := S (default O (counts !! state))]> counts)).
  destruct (accountRuntimes _ _ _ _ _ _ _) as [[[p' disabled'] rt'] counts'].
  destruct IH as (Hs & Hd & Hr & Hdom). rewrite sumCounts_incr in Hs.
  assert (Hin : forall id, inUseOf p1 id = inUseOf p id) by (intros id; unfold inUseOf; by rewrite Hu).
  split; [lia|]. split; [|split].
  - rewrite Hd, filter_cons. destruct (Disabled acc); simpl; lia.
  - intros id r Hl. apply Hr in Hl as [Hl|(? & ? & ? & a & Ha & ?)].
    + apply lookup_insert_Some in Hl as [[<- <-]|[_ ?]]; [|by left].
      right. unfold r0. simpl.
      split; [done|].
      assert (Hb : 0 <= (if Disabled acc || (match h with Some _ => true | None => false end) then 0
        else Z.max 0 (maxInflightPerAccount p - inUseOf p (Identifier acc))) <=
        Z.max 0 (maxInflightPerAccount p - inUseOf p (Identifier acc))) by (destruct (_ || _); lia).
      split; [lia|]. split; [lia|]. exists acc. rewrite elem_of_cons. split; [by left|]. split; [done|].
      intros ->. done.
    + right. rewrite Hin, Hm in *. do 3 (split; [done|]). exists a. rewrite elem_of_cons. auto.
  - intros id Hid. apply Hdom. destruct Hid as [[x Hx]|Hid].
    + left. destruct (decide (id = Identifier acc)) as [->|]; [by rewrite lookup_insert_eq|].
      rewrite lookup_insert_ne by done. by exists x.
    + apply elem_of_cons in Hid as [->|?]; [|by right]. left. by rewrite lookup_insert_eq.
Qed.

Lemma accountRuntimes_inUse (clk : nat -> Z) (accounts : list Account) (i : nat) (p : Pool) disabled rt counts :
  inUse (accountRuntimes clk i accounts p disabled rt counts).1.1.1 = inUse p.
Proof.
  revert i p disabled rt counts. induction accounts as [|acc accounts IH]; intros i p disabled rt counts; [done|].
  simpl. destruct (Disabled acc); [by rewrite IH|].
  pose proof (accountHealthLocked_fields (Identifier acc) (clk i) p) as [Hu _].
  destruct (accountHealthLocked _ _ _) as [p1 h]. by rewrite IH.
Qed.

Lemma availableIDs_fields (clk : nat -> Z) (i : nat) (ids : list string) (p : Pool) :
  inUse (availableIDs clk i ids p).1 = inUse p /\
  maxInflightPerAccount (availableIDs clk i ids p).1 = maxInflightPerAccount p /\
  forall id, id ∈ (availableIDs clk i ids p).2 ->
    id ∈ ids /\ inUseOf p id < maxInflightPerAccount p.
Proof.
  revert i p. induction ids as [|x ids IH]; intros i p; simpl.
  { split; [done|]. split; [done|]. by intros id ?%elem_of_nil. }
  pose proof (accountHealthLocked_fields x (clk i) p) as [Hu Hm].
  destruct (accountHealthLocked x (clk i) p) as [p1 h]. simpl in Hu, Hm.
  specialize (IH (S i) p1). destruct (availableIDs clk (S i) ids p1) as [p2 rest]. simpl in *.
  destruct IH as (Hu2 & Hm2 & Hin). split; [by rewrite Hu2|]. split; [by rewrite Hm2|].
  assert (Hrest : forall id, id ∈ rest -> id ∈ x :: ids /\ inUseOf p id < maxInflightPerAccount p).
  { intros id Hid. destruct (Hin id Hid) as [? Hlt]. rewrite elem_of_cons. split; [by right|].
    unfold inUseOf in *. by rewrite Hu, Hm in Hlt. }
  destruct h; [done|]. destruct (Z.ltb_spec (inUseOf p1 x) (maxInflightPerAccount p1)); [|done].
  intros id [->|Hid]%elem_of_cons; [|by apply Hrest]. split; [by apply elem_of_cons; left|].
  assert (inUseOf p1 x = inUseOf p x) by (unfold inUseOf; by rewrite Hu). lia.
Qed.

(** The status report is consistent: every configured account is counted in
    exactly one state, so the state counts add up to the total; the disabled count
    is the number of disabled accounts; every configured account has a runtime
    entry, whose in-flight number is the pool's count and whose advertised free
    slots never exceed what the per-account limit leaves, and are none for an
    entry of a disabled account; every account reported available is queued and
    below its limit; reading the status changes no in-flight count. *)
Theorem Status_consistent (st : Store) (clk : nat -> Z) (now : Z) (clk' : nat -> Z) (p : Pool) :
  match PoolStatusOf st clk now clk' p with
  | (p', s) =>
      sumCounts (stStateCounts s) = stTotal s /\ stTotal s = length (Accounts st) /\
      stDisabled s = length (filter (fun a => Disabled a = true) (Accounts st)) /\
      (forall id r, stRuntime s !! id = Some r ->
         rInUse r = inUseOf p id /\ 0 <= rAvailableSlots r /\
         rAvailableSlots r <= Z.max 0 (maxInflightPerAccount p - inUseOf p id) /\
         exists a, a ∈ Accounts st /\ Identifier a = id /\ (Disabled a = true -> rAvailableSlots r = 0)) /\
      (forall a, a ∈ Accounts st -> is_Some (stRuntime s !! Identifier a)) /\
      (forall id, id ∈ stAvailable s -> id ∈ queue p /\ inUseOf p id < maxInflightPerAccount p) /\
      inUse p' = inUse p
  end.
Proof.
  unfold PoolStatusOf.
  pose proof (availableIDs_fields clk 0 (queue p) p) as (Hu & Hm & Hav).
  destruct (availableIDs clk 0 (queue p) p) as [p1 available]. simpl in Hu, Hm, Hav.
  set (p2 := setHealth _ p1).
  pose proof (accountRuntimes_spec clk' (Accounts st) 0 p2 0 ∅ initialStateCounts) as H.
  pose proof (accountRuntimes_inUse clk' (Accounts st) 0 p2 0 ∅ initialStateCounts) as Hsame.
  destruct (accountRuntimes _ _ _ _ _ _ _) as [[[p' disabled] rt] counts].
  destruct H as (Hs & Hd & Hr & Hdom). simpl in Hsame |- *.
  assert (Hi : forall id, inUseOf p2 id = inUseOf p id) by (intros id; unfold inUseOf; simpl; by rewrite Hu).
  split; [|split; [done|split; [lia|split; [|split; [|split]]]]].
  - rewrite Hs. assert (sumCounts initialStateCounts = O) as -> by (vm_compute; reflexivity). lia.
  - intros id r Hl. apply Hr in Hl as [Hl|Hl]; [by rewrite lookup_empty in Hl|].
    change (maxInflightPerAccount p2) with (maxInflightPerAccount p1) in Hl. rewrite Hi, Hm in Hl. done.
  - intros a Ha. apply Hdom. right. by apply list_elem_of_fmap_2.
  - done.
  - by rewrite Hsame.
Qed.

(** ** A concrete pool *)

Definition alice : Account := withToken (withIdentity zeroAccount "alice@example.com" "") "t".
Definition bob : Account := withIdentity zeroAccount "" "13800138000".

(** Two accounts: one with an e-mail and a token, one known by its mobile number. *)
Definition demoStore : Store := rebuildIndexes {|
  sKeys := []; sAccounts := [bob; alice];
  sRuntime := {| AccountMaxInflight := 1; AccountMaxQueue := 2; GlobalMaxInflight := 2 |};
  keyMap := ∅; accMap := ∅; accTest := ∅; accTestResult := ∅; accSess := ∅ |}.

Definition noEnv (_ : string) : string := "".
Definition demoPool : Pool := NewPool noEnv demoStore 0.

Example demoPool_queue : queue demoPool = ["alice@example.com"; "+8613800138000"].
Proof. vm_compute. reflexivity. Qed.

Lemma demoPool_nodup : NoDup (queue demoPool).
Proof. rewrite demoPool_queue. apply (bool_decide_eq_true_1 _). vm_compute. reflexivity. Qed.

Lemma demoPool_counts : countsPositive (inUse demoPool).
Proof. intros id n H. change (inUse demoPool) with (∅ : gmap string Z) in H. by rewrite lookup_empty in H. Qed.

Lemma tryAcquire_first_eligible_witness :
  match tryAcquire demoStore (fun _ => 0) ∅ demoPool with
  | (p', Some acc) => acc = alice /\ NoDup (queue demoPool)
  | (_, None) => False
  end.
Proof.
  pose proof (tryAcquire_first_eligible demoStore (fun _ => 0) ∅ demoPool demoPool_nodup) as H.
  destruct (tryAcquire demoStore (fun _ => 0) ∅ demoPool) as [p' [acc|]] eqn:E.
  - split; [|exact demoPool_nodup].
    assert (Ha : (tryAcquire demoStore (fun _ => 0) ∅ demoPool).2 = Some alice) by (vm_compute; reflexivity).
    rewrite E in Ha. by injection Ha.
  - apply (f_equal snd) in E. vm_compute in E. discriminate.
Defined.

Lemma acquirePreferred_falls_back_witness :
  exists acc p', acquirePreferredLocked demoStore (fun _ => 0) "+8613800138000" ∅ demoPool = (p', Some acc) /\
    inUse p' = <["+8613800138000" := 1]> ∅.
Proof.
  assert (Hne : "+8613800138000" <> "") by discriminate.
  pose proof (acquirePreferred_falls_back demoStore (fun _ => 0) "+8613800138000" ∅ demoPool Hne) as H.
  match type of H with if ?c then _ else _ =>
    destruct c eqn:Hc; [|vm_compute in Hc; discriminate] end.
  destruct H as (acc & p' & Hp & _ & Hu). by exists acc, p'.
Defined.

Lemma Release_undoes_Acquire_witness :
  inUse (Release "alice@example.com" (Acquire demoStore (fun _ => 0) "alice@example.com" ∅ demoPool).1) = ∅.
Proof.
  assert (Hne : "alice@example.com" <> "") by discriminate.
  refine (proj1 (Release_undoes_Acquire demoStore (fun _ => 0) "alice@example.com" ∅ demoPool
    (Acquire demoStore (fun _ => 0) "alice@example.com" ∅ demoPool).1 alice Hne demoPool_counts _)).
  rewrite (surjective_pairing (Acquire demoStore (fun _ => 0) "alice@example.com" ∅ demoPool)) at 1.
  apply (f_equal (pair _)). vm_compute. reflexivity.
Defined.

Lemma cooldown_blocks_until_witness :
  eligible demoStore (markTransientAccount "alice@example.com" HealthRateLimited (60 * second) "" 0 demoPool)
    (59 * second) "alice@example.com" = false.
Proof.
  refine (proj1 (cooldown_blocks_until demoStore "alice@example.com" HealthRateLimited (60 * second) "" 0
    demoPool _ _ _) (59 * second) _); (discriminate || reflexivity).
Defined.

Lemma block_until_cleared_witness :
  eligible demoStore (markBlockedAccount "alice@example.com" HealthPermanentlyBanned "" 0 demoPool)
    (10 ^ 30) "alice@example.com" = false.
Proof.
  refine (proj1 (block_until_cleared demoStore "alice@example.com" HealthPermanentlyBanned "" 0
    demoPool _ _) (10 ^ 30)); (discriminate || reflexivity).
Defined.
