(* ===== verification/PoolSystem.v ===== *)
(** Requests competing for the accounts of one pool.

    [Pool.v] gives the critical sections of [p.mu]; here they are interleaved.
    A request runs the loop of [AcquireWait] or [AcquireWaitPreferred]
    ([internal/account/pool_acquire.go]), keeps the account it obtained as a
    lease, and gives it back the way its callers do
    ([internal/auth/request.go]: [Release(acc.Identifier())]).  One step is one
    critical section or one reception from a waiter channel; the clock readings
    of a section are arbitrary. *)
From S2P Require Import Prelude GoString Config Affinity Pool.
Local Open Scope Z_scope.

Record Request := { rTarget : string; rPreferred : bool; rExclude : gset string }.

Inductive Phase :=
| Trying
| Parked (w : nat)
| Leasing (id : string).

#[global] Instance Request_eq_dec : EqDecision Request.
Proof. solve_decision. Defined.
#[global] Instance Phase_eq_dec : EqDecision Phase.
Proof. solve_decision. Defined.

Record Sys := { pool : Pool; reqs : gmap nat (Request * Phase) }.

(** The turn of the loop that a request runs. *)
Definition requestTurn (st : Store) (clk : nat -> Z) (r : Request) : Pool -> Pool * turn :=
  if rPreferred r then acquirePreferredTurn st clk (rTarget r) (rExclude r)
  else acquireWaitTurn st clk (rTarget r) (rExclude r).

(** The request after its turn: it holds the account under the identifier that it
    will release, is gone, or is parked on its channel. *)
Definition afterTurn (r : Request) (k : nat) (t : turn) (m : gmap nat (Request * Phase))
  : gmap nat (Request * Phase) :=
  match t with
  | Acquired acc => <[k := (r, Leasing (Identifier acc))]> m
  | Refused => delete k m
  | Queued w => <[k := (r, Parked w)]> m
  end.

Inductive Label :=
| LArrive (k : nat) (r : Request)
| LTurn (k : nat) (clk : nat -> Z)
| LGiveUp (k : nat)
| LWake (k : nat)
| LCancel (k : nat)
| LFinish (k : nat)
| LCooldown (id : string) (state : HealthState) (until : Z) (now : Z)
| LBlock (id : string) (state : HealthState) (now : Z)
| LClear (id : string)
| LHealth (id : string) (now : Z).

(** One step, [None] when the label is not enabled. *)
Definition sysStep (st : Store) (l : Label) (s : Sys) : option Sys :=
  match l with
  | LArrive k r =>
      match reqs s !! k with
      | Some _ => None
      | None => Some {| pool := pool s; reqs := <[k := (r, Trying)]> (reqs s) |}
      end
  | LTurn k clk =>
      match reqs s !! k with
      | Some (r, Trying) =>
          let '(p, t) := requestTurn st clk r (pool s) in
          Some {| pool := p; reqs := afterTurn r k t (reqs s) |}
      | _ => None
      end
  | LGiveUp k =>
      match reqs s !! k with
      | Some (r, Trying) => Some {| pool := pool s; reqs := delete k (reqs s) |}
      | _ => None
      end
  | LWake k =>
      match reqs s !! k with
      | Some (r, Parked w) =>
          if bool_decide (w ∈ closed (pool s))
          then Some {| pool := pool s; reqs := <[k := (r, Trying)]> (reqs s) |} else None
      | _ => None
      end
  | LCancel k =>
      match reqs s !! k with
      | Some (r, Parked w) =>
          Some {| pool := (removeWaiterLocked w (pool s)).1; reqs := delete k (reqs s) |}
      | _ => None
      end
  | LFinish k =>
      match reqs s !! k with
      | Some (r, Leasing id) => Some {| pool := Release id (pool s); reqs := delete k (reqs s) |}
      | _ => None
      end
  | LCooldown id state until now =>
      Some {| pool := markTransientAccount id state until "" now (pool s); reqs := reqs s |}
  | LBlock id state now => Some {| pool := markBlockedAccount id state "" now (pool s); reqs := reqs s |}
  | LClear id => Some {| pool := ClearHealth id (pool s); reqs := reqs s |}
  | LHealth id now => Some {| pool := (AccountHealth id now (pool s)).1; reqs := reqs s |}
  end.

Fixpoint sysRun (st : Store) (ls : list Label) (s : Sys) : option Sys :=
  match ls with
  | [] => Some s
  | l :: ls => match sysStep st l s with Some s => sysRun st ls s | None => None end
  end.

(** ** What the counts should say *)

Definition holds (id : string) (kv : nat * (Request * Phase)) : Prop := kv.2.2 = Leasing id.
#[global] Instance holds_dec id kv : Decision (holds id kv).
Proof. unfold holds. apply _. Defined.

Definition isLease (kv : nat * (Request * Phase)) : Prop :=
  match kv.2.2 with Leasing _ => True | _ => False end.
#[global] Instance isLease_dec kv : Decision (isLease kv).
Proof. unfold isLease. destruct kv.2.2; apply _. Defined.

Definition leaseCount (m : gmap nat (Request * Phase)) (id : string) : Z :=
  Z.of_nat (size (filter (holds id) m)).

Definition totalLeases (m : gmap nat (Request * Phase)) : Z := Z.of_nat (size (filter isLease m)).

(** A name under which an account is found is its identifier. *)
Definition canonical (st : Store) (id : string) : Prop :=
  forall acc, FindAccount st id = Some acc -> Identifier acc = id.

Definition canonicalLabel (st : Store) (l : Label) : Prop :=
  match l with LArrive _ r => canonical st (rTarget r) | _ => True end.

(** A filter's size when one key changes. *)
Lemma size_filter_insert {A} (P : nat * A -> Prop) `{forall x, Decision (P x)} (m : gmap nat A) (k : nat) (v : A) :
  Z.of_nat (size (filter P (<[k := v]> m))) =
  Z.of_nat (size (filter P (delete k m))) + (if decide (P (k, v)) then 1 else 0).
Proof.
  rewrite <- insert_delete_eq. case_decide as Hp.
  - rewrite map_filter_insert_True by done. rewrite map_size_insert_None; [lia|].
    apply map_lookup_filter_None. left. apply lookup_delete_eq.
  - rewrite map_filter_insert_False by done. rewrite delete_delete_eq. lia.
Qed.

Lemma size_filter_delete {A} (P : nat * A -> Prop) `{forall x, Decision (P x)} (m : gmap nat A) (k : nat) (v : A) :
  m !! k = Some v ->
  Z.of_nat (size (filter P (delete k m))) =
  Z.of_nat (size (filter P m)) - (if decide (P (k, v)) then 1 else 0).
Proof.
  intros Hk. rewrite <- (insert_id m k v Hk) at 2. rewrite size_filter_insert. lia.
Qed.

(** ** What a turn does *)

Definition admissible (p : Pool) (id : string) : Prop :=
  id <> "" /\ inUseOf p id < maxInflightPerAccount p /\
  (0 < globalMaxInflight p -> currentInUse (inUse p) < globalMaxInflight p).

Lemma eligible_admissible (st : Store) (h : gmap string Health) (p : Pool) (now : Z) (id : string) :
  eligible st (setHealth h p) now id = true -> admissible p id.
Proof.
  unfold eligible. rewrite !andb_true_iff, orb_true_iff, negb_true_iff, bool_decide_eq_false, Z.ltb_lt.
  intros ((((Hne & _) & _) & Hlt) & Hg). split; [done|]. split; [done|]. intros Hpos.
  destruct Hg as [Hg|Hg]; [apply Z.leb_le in Hg|apply Z.ltb_lt in Hg]; simpl in *; lia.
Qed.

(** What an attempt under the lock leaves: one more slot of an admissible account
    under its identifier, or only health entries changed. *)
Definition attemptOk (p : Pool) (res : Pool * option Account) : Prop :=
  match res.2 with
  | Some acc => (exists h, res.1 = takeSlot (Identifier acc) (setHealth h p)) /\ admissible p (Identifier acc)
  | None => exists h, res.1 = setHealth h p
  end.

Section Turns.
Context (st : Store) (clk : nat -> Z) (exclude : gset string).

Lemma tryAcquire_attempt (h0 : gmap string Health) (p : Pool) :
  NoDup (queue p) -> (forall id, id ∈ queue p -> canonical st id) ->
  attemptOk p (tryAcquire st clk exclude (setHealth h0 p)).
Proof.
  intros Hnd Hcan.
  destruct (tryAcquire_result st clk exclude (setHealth h0 p) Hnd) as [Hr Hs]. unfold attemptOk.
  destruct (tryAcquire st clk exclude (setHealth h0 p)) as [p' [acc|]]; simpl in *.
  - destruct (Hs acc eq_refl) as (id & now & h & Hin & _ & Hf & Hel & ->).
    rewrite (Hcan id Hin acc Hf). rewrite setHealth_setHealth. split; [by exists h|].
    by eapply eligible_admissible.
  - destruct Hr as [h ->]. rewrite setHealth_setHealth. by exists h.
Qed.

Lemma target_attempt (target : string) (p : Pool) :
  target <> "" -> canonical st target -> attemptOk p (acquireLocked st clk target exclude p).
Proof.
  intros Hne Hcan. pose proof (acquireLocked_target st clk target exclude p Hne) as H.
  unfold attemptOk. destruct (acquireLocked st clk target exclude p) as [p' [acc|]]; simpl.
  - destruct H as (_ & Hf & Hel & h & ->). rewrite (Hcan acc Hf). split; [by exists h|].
    apply (eligible_admissible st (health p) p (clk O)). by destruct p.
  - by destruct H.
Qed.
End Turns.

Lemma setHealth_self (p : Pool) : setHealth (health p) p = p.
Proof. by destruct p. Qed.

Lemma acquireLocked_attempt st clk exclude target p :
  NoDup (queue p) -> (forall id, id ∈ queue p -> canonical st id) -> canonical st target ->
  attemptOk p (acquireLocked st clk target exclude p).
Proof.
  intros Hnd Hq Hc. destruct (decide (target = "")) as [->|Hne].
  - unfold acquireLocked. rewrite bool_decide_eq_true_2 by done.
    pose proof (tryAcquire_attempt st clk exclude (health p) p Hnd Hq) as H.
    by rewrite setHealth_self in H.
  - by apply target_attempt.
Qed.

Lemma acquirePreferred_attempt st clk exclude target p :
  NoDup (queue p) -> (forall id, id ∈ queue p -> canonical st id) -> canonical st target ->
  attemptOk p (acquirePreferredLocked st clk target exclude p).
Proof.
  intros Hnd Hq Hc. unfold acquirePreferredLocked. case_bool_decide as Hne.
  - rewrite <- (setHealth_self p) at 2. by apply tryAcquire_attempt.
  - pose proof (target_attempt st clk exclude target p Hne Hc) as H. unfold attemptOk in H.
    destruct (acquireLocked st clk target exclude p) as [p' [acc|]]; simpl in *; [done|].
    destruct H as [h ->]. by apply tryAcquire_attempt.
Qed.

(** The three outcomes of a turn. *)
Definition turnOk (p : Pool) (res : Pool * turn) : Prop :=
  match res.2 with
  | Acquired acc => (exists h, res.1 = takeSlot (Identifier acc) (setHealth h p)) /\ admissible p (Identifier acc)
  | Refused => exists h, res.1 = setHealth h p
  | Queued w => w = nextChan p /\ Z.of_nat (length (waiters p)) < maxQueueSize p /\
      exists h, res.1 = setWaiters (waiters p ++ [w]) (closed p) (S w) (setHealth h p)
  end.

Lemma waitTurn_ok st target exclude attempt p :
  attemptOk p (attempt p) -> turnOk p (waitTurn st target exclude attempt p).
Proof.
  unfold attemptOk, turnOk, waitTurn. destruct (attempt p) as [p' [acc|]]; simpl; [done|].
  intros [h ->]. destruct (canQueueLocked st target exclude (setHealth h p)) eqn:E; simpl.
  - unfold canQueueLocked in E. apply andb_true_iff in E as [_ E]. apply Z.ltb_lt in E.
    split; [done|]. split; [done|]. by exists h.
  - by exists h.
Qed.

Lemma requestTurn_ok st clk r p :
  NoDup (queue p) -> (forall id, id ∈ queue p -> canonical st id) -> canonical st (rTarget r) ->
  turnOk p (requestTurn st clk r p).
Proof.
  intros Hnd Hq Hc. unfold requestTurn. destruct (rPreferred r).
  - apply waitTurn_ok. by apply acquirePreferred_attempt.
  - apply waitTurn_ok. by apply acquireLocked_attempt.
Qed.

(** ** The slots *)

Record slotInv (st : Store) (s : Sys) : Prop := {
  si_nodup : NoDup (queue (pool s));
  si_queue : forall id, id ∈ queue (pool s) -> canonical st id;
  si_reqs : forall k r ph, reqs s !! k = Some (r, ph) -> canonical st (rTarget r);
  si_count : forall id, inUseOf (pool s) id = leaseCount (reqs s) id;
  si_total : currentInUse (inUse (pool s)) = totalLeases (reqs s);
  si_pos : countsPositive (inUse (pool s));
  si_names : leaseCount (reqs s) "" = 0;
  si_limit : forall id, inUseOf (pool s) id <= Z.max 0 (maxInflightPerAccount (pool s));
  si_global : 0 < globalMaxInflight (pool s) -> currentInUse (inUse (pool s)) <= globalMaxInflight (pool s)
}.

(** Everything about slots that an operation may leave alone. *)
Definition sameSlots (p p' : Pool) : Prop :=
  queue p' = queue p /\ inUse p' = inUse p /\ maxInflightPerAccount p' = maxInflightPerAccount p /\
  globalMaxInflight p' = globalMaxInflight p.

(** The leases of two request tables agree. *)
Definition sameLeases (m m' : gmap nat (Request * Phase)) : Prop :=
  (forall id, leaseCount m' id = leaseCount m id) /\ totalLeases m' = totalLeases m.

Lemma slotInv_same (st : Store) (s s' : Sys) :
  slotInv st s -> sameSlots (pool s) (pool s') -> sameLeases (reqs s) (reqs s') ->
  (forall k r ph, reqs s' !! k = Some (r, ph) -> canonical st (rTarget r)) ->
  slotInv st s'.
Proof.
  intros [] (Hq & Hu & Hm & Hg) (Hl & Ht) Hr.
  constructor; unfold inUseOf in *; rewrite ?Hq, ?Hu, ?Hm, ?Hg, ?Ht, ?Hl; try done.
  intros id. by rewrite Hl.
Qed.

(** A step that changes a request that holds nothing into one that holds nothing. *)
Lemma sameLeases_insert (m : gmap nat (Request * Phase)) (k : nat) (v : Request * Phase) :
  (forall v0, m !! k = Some v0 -> ~ isLease (k, v0)) -> ~ isLease (k, v) ->
  sameLeases m (<[k := v]> m).
Proof.
  intros H0 Hv.
  assert (Hh : forall id v0, ~ isLease (k, v0) -> ~ holds id (k, v0)).
  { unfold isLease, holds. simpl. intros id v0 Hn E. rewrite E in Hn. by apply Hn. }
  assert (HP : forall (P : nat * (Request * Phase) -> Prop) `(forall x, Decision (P x)),
    (forall v0, ~ isLease (k, v0) -> ~ P (k, v0)) ->
    Z.of_nat (size (filter P (<[k := v]> m))) = Z.of_nat (size (filter P m))).
  { intros P HD HPn. rewrite size_filter_insert. rewrite decide_False by auto.
    destruct (m !! k) as [v0|] eqn:E.
    - rewrite (size_filter_delete P m k v0 E), decide_False by auto. lia.
    - rewrite delete_id by done. lia. }
  split.
  - intros id. apply HP. auto.
  - apply HP. auto.
Qed.

Lemma sameLeases_delete (m : gmap nat (Request * Phase)) (k : nat) (v : Request * Phase) :
  m !! k = Some v -> ~ isLease (k, v) -> sameLeases m (delete k m).
Proof.
  intros Hk Hv. split; [intros id|]; unfold leaseCount, totalLeases;
    rewrite (size_filter_delete _ m k v Hk), decide_False; try lia; try done.
  unfold holds, isLease in *. simpl in *. intros E. rewrite E in Hv. by apply Hv.
Qed.

Lemma leaseCount_take (m : gmap nat (Request * Phase)) (k : nat) (r : Request) (v : Request * Phase) (id : string) :
  m !! k = Some v -> ~ isLease (k, v) ->
  (forall id', leaseCount (<[k := (r, Leasing id)]> m) id' =
     leaseCount m id' + (if bool_decide (id' = id) then 1 else 0)) /\
  totalLeases (<[k := (r, Leasing id)]> m) = totalLeases m + 1.
Proof.
  intros Hk Hv.
  destruct (sameLeases_delete m k v Hk Hv) as [Hl Ht]. split.
  - intros id'. unfold leaseCount in *. rewrite size_filter_insert, Hl. f_equal.
    case_decide as Hd; unfold holds in Hd; simpl in Hd; case_bool_decide; congruence.
  - unfold totalLeases in *. rewrite size_filter_insert, Ht. by rewrite decide_True.
Qed.

Lemma leaseCount_finish (m : gmap nat (Request * Phase)) (k : nat) (r : Request) (id : string) :
  m !! k = Some (r, Leasing id) ->
  (forall id', leaseCount (delete k m) id' = leaseCount m id' - (if bool_decide (id' = id) then 1 else 0)) /\
  totalLeases (delete k m) = totalLeases m - 1.
Proof.
  intros Hk. split.
  - intros id'. unfold leaseCount. rewrite (size_filter_delete _ m k _ Hk). f_equal.
    case_decide as Hd; unfold holds in Hd; simpl in Hd; case_bool_decide; congruence.
  - unfold totalLeases. rewrite (size_filter_delete _ m k _ Hk). by rewrite decide_True.
Qed.

Lemma slotInv_take (st : Store) (s : Sys) (k : nat) (r : Request) (id : string) (h : gmap string Health) :
  slotInv st s -> reqs s !! k = Some (r, Trying) -> admissible (pool s) id ->
  slotInv st {| pool := takeSlot id (setHealth h (pool s)); reqs := <[k := (r, Leasing id)]> (reqs s) |}.
Proof.
  intros [] Hk (Hne & Hlt & Hg).
  destruct (leaseCount_take (reqs s) k r (r, Trying) id Hk (fun H => H)) as [Hl Ht].
  destruct (takeSlot_fields id (setHealth h (pool s))) as (Hu & _ & _ & _ & _ & Hm & Hgm & _).
  simpl in Hu, Hm, Hgm.
  pose proof (bumpQueue_perm id (setInUse (<[id := inUseOf (pool s) id + 1]> (inUse (pool s)))
    (setHealth h (pool s)))) as Hperm. simpl in Hperm.
  change (bumpQueue _ _) with (takeSlot id (setHealth h (pool s))) in Hperm.
  assert (Hof : forall id', inUseOf (takeSlot id (setHealth h (pool s))) id' =
    inUseOf (pool s) id' + (if bool_decide (id' = id) then 1 else 0)).
  { intros id'. unfold inUseOf at 1. rewrite Hu. case_bool_decide as Hd.
    - subst. by rewrite lookup_insert_eq.
    - rewrite lookup_insert_ne by done. unfold inUseOf. lia. }
  assert (Hcur : currentInUse (inUse (takeSlot id (setHealth h (pool s)))) = currentInUse (inUse (pool s)) + 1).
  { rewrite Hu, currentInUse_insert. unfold inUseOf. simpl. lia. }
  constructor; simpl; rewrite ?Hcur, ?Hm, ?Hgm.
  - by rewrite <- Hperm.
  - intros id' Hid. rewrite <- Hperm in Hid. auto.
  - intros k' r' ph [[<- [= <- <-]]|[_ ?]]%lookup_insert_Some; eauto.
  - intros id'. by rewrite Hof, Hl, si_count0.
  - by rewrite Ht, si_total0.
  - intros id' n. rewrite Hu. intros [[<- <-]|[_ ?]]%lookup_insert_Some; [|eauto].
    unfold inUseOf. simpl. destruct (inUse (pool s) !! id) as [x|] eqn:E; simpl; [|lia].
    apply si_pos0 in E. lia.
  - rewrite Hl. rewrite bool_decide_eq_false_2 by congruence. lia.
  - intros id'. rewrite Hof. case_bool_decide; [subst; lia|]. specialize (si_limit0 id'). lia.
  - intros Hpos. specialize (Hg Hpos). lia.
Qed.

Lemma leaseCount_pos (m : gmap nat (Request * Phase)) k r id :
  m !! k = Some (r, Leasing id) -> 0 < leaseCount m id.
Proof.
  intros Hk. unfold leaseCount. enough (size (filter (holds id) m) <> 0)%nat by lia.
  intros Hz. apply map_size_empty_inv in Hz.
  assert (Hf : filter (holds id) m !! k = Some (r, Leasing id)) by (apply map_lookup_filter_Some; done).
  rewrite Hz, lookup_empty in Hf. done.
Qed.

Lemma slotInv_finish (st : Store) (s : Sys) (k : nat) (r : Request) (id : string) :
  slotInv st s -> reqs s !! k = Some (r, Leasing id) ->
  slotInv st {| pool := Release id (pool s); reqs := delete k (reqs s) |}.
Proof.
  intros [] Hk. destruct (leaseCount_finish _ _ _ _ Hk) as [Hl Ht].
  pose proof (leaseCount_pos _ _ _ _ Hk) as Hpos.
  assert (Hne : id <> "") by (intros ->; lia).
  assert (Hn : 0 < inUseOf (pool s) id) by (rewrite si_count0; lia).
  assert (Hfr : queue (Release id (pool s)) = queue (pool s) /\
    maxInflightPerAccount (Release id (pool s)) = maxInflightPerAccount (pool s) /\
    globalMaxInflight (Release id (pool s)) = globalMaxInflight (pool s)).
  { unfold Release, notifyWaiterLocked. repeat case_match; done. }
  destruct Hfr as (Hq & Hm & Hgm). pose proof (Release_inUse id (pool s) Hne Hn) as Hu.
  assert (Hof : forall id', inUseOf (Release id (pool s)) id' =
    inUseOf (pool s) id' - (if bool_decide (id' = id) then 1 else 0)).
  { intros id'. unfold inUseOf at 1. rewrite Hu.
    destruct (Z.eqb_spec (inUseOf (pool s) id) 1); case_bool_decide as Hd.
    - subst. rewrite lookup_delete_eq. simpl. lia.
    - rewrite lookup_delete_ne by done. unfold inUseOf. lia.
    - subst. rewrite lookup_insert_eq. done.
    - rewrite lookup_insert_ne by done. unfold inUseOf. lia. }
  assert (Hcur : currentInUse (inUse (Release id (pool s))) = currentInUse (inUse (pool s)) - 1).
  { rewrite Hu. unfold inUseOf in *. destruct (inUse (pool s) !! id) as [n|] eqn:E; [|simpl in Hn; lia].
    simpl in *. destruct (Z.eqb_spec n 1).
    - rewrite (currentInUse_delete _ _ n E). lia.
    - rewrite currentInUse_insert, E. simpl. lia. }
  constructor; simpl; rewrite ?Hcur, ?Hm, ?Hgm, ?Hq; try done.
  - intros k' r' ph [_ ?]%lookup_delete_Some. eauto.
  - intros id'. by rewrite Hof, Hl, si_count0.
  - by rewrite Ht, si_total0.
  - intros id' n. rewrite Hu. destruct (Z.eqb_spec (inUseOf (pool s) id) 1).
    + intros [_ ?]%lookup_delete_Some. eauto.
    + intros [[<- <-]|[_ ?]]%lookup_insert_Some; [lia|eauto].
  - rewrite Hl, bool_decide_eq_false_2 by congruence. lia.
  - intros id'. rewrite Hof. specialize (si_limit0 id'). case_bool_decide; lia.
  - intros Hp. specialize (si_global0 Hp). lia.
Qed.

Lemma sameSlots_refl p : sameSlots p p.
Proof. done. Qed.

Lemma sameSlots_notify p p' : sameSlots p p' -> sameSlots p (notifyWaiterLocked p').
Proof.
  intros (Hq & Hu & Hm & Hg). destruct (notifyWaiterLocked_fields p') as (_ & _ & Hq' & Hm' & Hg' & _).
  unfold sameSlots. rewrite notifyWaiterLocked_inUse, Hq', Hm', Hg'. done.
Qed.

Lemma ClearHealth_slots id p : sameSlots p (ClearHealth id p).
Proof. unfold ClearHealth. case_bool_decide; [done|]. by apply sameSlots_notify. Qed.

Lemma marks_slots id state until reason now p :
  sameSlots p (markTransientAccount id state until reason now p) /\
  sameSlots p (markBlockedAccount id state reason now p).
Proof.
  unfold markTransientAccount, markBlockedAccount.
  case_bool_decide; [done|]. split; [|by apply sameSlots_notify].
  destruct (negb _); [apply ClearHealth_slots|]. by apply sameSlots_notify.
Qed.

Lemma AccountHealth_slots id now p : sameSlots p (AccountHealth id now p).1.
Proof.
  unfold AccountHealth. case_bool_decide; [done|].
  destruct (accountHealthLocked_spec id now p) as [_ ->]. done.
Qed.

Lemma sameLeases_refl m : sameLeases m m.
Proof. done. Qed.

#[export] Hint Resolve sameSlots_refl sameLeases_refl ClearHealth_slots AccountHealth_slots : gw.

Lemma slotInv_turn (st : Store) (s : Sys) (k : nat) (r : Request) (clk : nat -> Z) p t :
  slotInv st s -> reqs s !! k = Some (r, Trying) -> requestTurn st clk r (pool s) = (p, t) ->
  slotInv st {| pool := p; reqs := afterTurn r k t (reqs s) |}.
Proof.
  intros Hinv Hk Ht. pose proof Hinv as [].
  pose proof (requestTurn_ok st clk r (pool s) si_nodup0 si_queue0 (si_reqs0 _ _ _ Hk)) as H.
  rewrite Ht in H. unfold turnOk in H. destruct t as [acc| |w]; simpl in H.
  - destruct H as [[h ->] Ha]. by apply slotInv_take.
  - destruct H as [h ->]. eapply slotInv_same; [done..| |]; simpl.
    + eapply sameLeases_delete; [done|by intros []].
    + intros k' r' ph [_ ?]%lookup_delete_Some. eauto.
  - destruct H as (_ & _ & h & ->). eapply slotInv_same; [done..| |]; simpl.
    + apply sameLeases_insert; [|by intros []]. intros v0 Hv0. rewrite Hk in Hv0. simplify_eq. by intros [].
    + intros k' r' ph [[_ [= <- _]]|[_ ?]]%lookup_insert_Some; eauto.
Qed.

Lemma slotInv_step (st : Store) (l : Label) (s s' : Sys) :
  canonicalLabel st l -> slotInv st s -> sysStep st l s = Some s' -> slotInv st s'.
Proof.
  intros Hl Hinv Hs. pose proof Hinv as [].
  assert (Hother : forall p, sameSlots (pool s) p -> slotInv st {| pool := p; reqs := reqs s |}).
  { intros p Hp. eapply slotInv_same; eauto with gw. }
  destruct l as [k r|k clk|k|k|k|k|id state until now|id state now|id|id now]; simpl in Hs.
  - destruct (reqs s !! k) eqn:E; simplify_eq/=. eapply slotInv_same; [done..| |]; simpl.
    + apply sameLeases_insert; [|by intros []]. congruence.
    + intros k' r' ph [[_ [= <- _]]|[_ ?]]%lookup_insert_Some; eauto.
  - destruct (reqs s !! k) as [[r [| |]]|] eqn:E; try done.
    destruct (requestTurn st clk r (pool s)) as [p t] eqn:Ht. simplify_eq/=. by eapply slotInv_turn.
  - destruct (reqs s !! k) as [[r [| |]]|] eqn:E; simplify_eq/=. eapply slotInv_same; [done..| |]; simpl.
    + eapply sameLeases_delete; [done|by intros []].
    + intros k' r' ph [_ ?]%lookup_delete_Some. eauto.
  - destruct (reqs s !! k) as [[r [|w|]]|] eqn:E; try done. case_bool_decide; simplify_eq/=.
    eapply slotInv_same; [done..| |]; simpl.
    + apply sameLeases_insert; [|by intros []]. intros v0 Hv0. rewrite E in Hv0. simplify_eq. by intros [].
    + intros k' r' ph [[_ [= <- _]]|[_ ?]]%lookup_insert_Some; eauto.
  - destruct (reqs s !! k) as [[r [|w|]]|] eqn:E; simplify_eq/=. eapply slotInv_same; [done| |..]; simpl.
    + unfold removeWaiterLocked. by destruct (removeFirst _ _).
    + eapply sameLeases_delete; [done|by intros []].
    + intros k' r' ph [_ ?]%lookup_delete_Some. eauto.
  - destruct (reqs s !! k) as [[r [|w|id]]|] eqn:E; simplify_eq/=. by eapply slotInv_finish.
  - simplify_eq. apply Hother. apply marks_slots.
  - simplify_eq. apply Hother. apply (marks_slots id state now).
  - simplify_eq. apply Hother. auto with gw.
  - simplify_eq. apply Hother. auto with gw.
Qed.

(** ** The waiters *)

Record waitInv (s : Sys) : Prop := {
  wi_nodup : NoDup (waiters (pool s));
  wi_fresh : forall w, w ∈ waiters (pool s) \/ w ∈ closed (pool s) -> (w < nextChan (pool s))%nat;
  wi_disj : forall w, w ∈ waiters (pool s) -> w ∉ closed (pool s);
  wi_parked : forall k r w, reqs s !! k = Some (r, Parked w) -> w ∈ waiters (pool s) \/ w ∈ closed (pool s);
  wi_inj : forall k k' r r' w, reqs s !! k = Some (r, Parked w) -> reqs s !! k' = Some (r', Parked w) -> k = k';
  wi_owner : forall w, w ∈ waiters (pool s) -> exists k r, reqs s !! k = Some (r, Parked w);
  wi_bound : Z.of_nat (length (waiters (pool s))) <= Z.max 0 (maxQueueSize (pool s))
}.

Definition sameWaiters (p p' : Pool) : Prop :=
  waiters p' = waiters p /\ closed p' = closed p /\ nextChan p' = nextChan p /\ maxQueueSize p' = maxQueueSize p.

(** The parked requests of two tables agree on the channels of the list. *)
Lemma waitInv_same (s s' : Sys) :
  waitInv s -> sameWaiters (pool s) (pool s') ->
  (forall k r w, reqs s' !! k = Some (r, Parked w) -> reqs s !! k = Some (r, Parked w)) ->
  (forall k r w, w ∈ waiters (pool s) -> reqs s !! k = Some (r, Parked w) -> reqs s' !! k = Some (r, Parked w)) ->
  waitInv s'.
Proof.
  intros [] (Hw & Hc & Hn & Hm) Hback Hfwd.
  constructor; rewrite ?Hw, ?Hc, ?Hn, ?Hm; try done.
  - eauto.
  - eauto.
  - intros w Hin. destruct (wi_owner0 w Hin) as (k & r & Hk). eauto.
Qed.

Lemma waitInv_notify (p : Pool) (m : gmap nat (Request * Phase)) :
  waitInv {| pool := p; reqs := m |} -> waitInv {| pool := notifyWaiterLocked p; reqs := m |}.
Proof.
  intros Hinv. unfold notifyWaiterLocked. destruct (waiters p) as [|w ws] eqn:E; [done|].
  destruct Hinv as [Hnd Hfr Hdj Hpk Hinj How Hb]; simpl in *. rewrite E in *.
  apply NoDup_cons in Hnd as [Hw Hnd].
  constructor; simpl; [done|..].
  - intros w'. rewrite elem_of_union, elem_of_singleton. intros [?|[->|?]]; apply Hfr; rewrite ?elem_of_cons; auto.
  - intros w' Hw'. rewrite not_elem_of_union, not_elem_of_singleton. split; [by intros ->|].
    apply Hdj. by apply elem_of_cons; right.
  - intros k r w' Hk. rewrite elem_of_union, elem_of_singleton.
    destruct (Hpk k r w' Hk) as [[->|?]%elem_of_cons|?]; auto.
  - done.
  - intros w' Hw'. apply How. by apply elem_of_cons; right.
  - simpl in Hb. lia.
Qed.

Lemma removeFirst_spec (w : nat) (ws : list nat) :
  NoDup ws -> NoDup (removeFirst w ws).1 /\ (length (removeFirst w ws).1 <= length ws)%nat /\
  forall x, x ∈ (removeFirst w ws).1 <-> x ∈ ws /\ x <> w.
Proof.
  induction ws as [|y ws IH]; simpl; intros Hnd.
  { split; [done|]. split; [done|]. intros x. split; [by intros ?%elem_of_nil|]. by intros [?%elem_of_nil _]. }
  apply NoDup_cons in Hnd as [Hy Hnd]. case_bool_decide as Hyw; simpl.
  - subst. split; [done|]. split; [lia|]. intros x. rewrite elem_of_cons. split.
    + intros Hx. split; [by right|]. by intros ->.
    + by intros [[->|?] ?].
  - destruct (IH Hnd) as (Hnd' & Hlen & Hel). destruct (removeFirst w ws) as [ws' found]. simpl in *.
    split; [|split; [lia|]].
    + apply NoDup_cons. split; [|done]. rewrite Hel. by intros [? _].
    + intros x. rewrite !elem_of_cons, Hel. split; [intros [->|[? ?]]; auto|]. intros [[->|?] ?]; auto.
Qed.

Lemma waitInv_cancel (s : Sys) (k : nat) (r : Request) (w : nat) :
  waitInv s -> reqs s !! k = Some (r, Parked w) ->
  waitInv {| pool := (removeWaiterLocked w (pool s)).1; reqs := delete k (reqs s) |}.
Proof.
  intros [] Hk. unfold removeWaiterLocked.
  destruct (removeFirst_spec w _ wi_nodup0) as (Hnd & Hlen & Hel).
  destruct (removeFirst w (waiters (pool s))) as [ws found]. simpl in *.
  constructor; simpl; try done.
  - intros w' [Hw'|?]; [|auto]. apply Hel in Hw' as [? _]. auto.
  - intros w' [? _]%Hel. auto.
  - intros k' r' w' [Hne Hk']%lookup_delete_Some. rewrite Hel.
    destruct (wi_parked0 _ _ _ Hk') as [?|?]; [|by right]. left. split; [done|].
    intros ->. apply Hne. by eapply wi_inj0.
  - intros k1 k2 r1 r2 w' [_ ?]%lookup_delete_Some [_ ?]%lookup_delete_Some. by eapply wi_inj0.
  - intros w' [Hw' Hne]%Hel. destruct (wi_owner0 w' Hw') as (k' & r' & Hk').
    exists k', r'. rewrite lookup_delete_ne; [done|]. intros ->. rewrite Hk in Hk'. by simplify_eq.
  - lia.
Qed.

Lemma waitInv_push (s : Sys) (k : nat) (r : Request) (h : gmap string Health) :
  waitInv s -> reqs s !! k = Some (r, Trying) ->
  Z.of_nat (length (waiters (pool s))) < maxQueueSize (pool s) ->
  waitInv {| pool := setWaiters (waiters (pool s) ++ [nextChan (pool s)]) (closed (pool s))
                       (S (nextChan (pool s))) (setHealth h (pool s));
             reqs := <[k := (r, Parked (nextChan (pool s)))]> (reqs s) |}.
Proof.
  intros [] Hk Hlen. set (n := nextChan (pool s)) in *.
  assert (Hnw : n ∉ waiters (pool s)) by (intros Hn; specialize (wi_fresh0 n (or_introl Hn)); lia).
  assert (Hnc : n ∉ closed (pool s)) by (intros Hn; specialize (wi_fresh0 n (or_intror Hn)); lia).
  assert (Hnp : forall k' r', reqs s !! k' <> Some (r', Parked n)).
  { intros k' r' Hk'. by destruct (wi_parked0 _ _ _ Hk'). }
  assert (Hin : forall w, w ∈ waiters (pool s) ++ [n] <-> w ∈ waiters (pool s) \/ w = n).
  { intros w. by rewrite elem_of_app, list_elem_of_singleton. }
  constructor; simpl.
  - apply NoDup_app. split; [done|]. split; [|apply NoDup_singleton].
    intros x Hx ->%list_elem_of_singleton. done.
  - intros w [[?| ->]%Hin|?]; [|lia|]; apply Nat.lt_lt_succ_r; auto.
  - intros w [?| ->]%Hin; auto.
  - intros k' r' w [[_ [= _ <-]]|[_ ?]]%lookup_insert_Some; rewrite Hin; [auto|].
    edestruct wi_parked0; eauto.
  - intros k1 k2 r1 r2 w [[<- E1]|[? H1]]%lookup_insert_Some [[<- E2]|[? H2]]%lookup_insert_Some.
    + done.
    + simplify_eq. by apply Hnp in H2.
    + simplify_eq. by apply Hnp in H1.
    + by eapply wi_inj0.
  - intros w [Hw| ->]%Hin.
    + destruct (wi_owner0 w Hw) as (k' & r' & Hk'). exists k', r'. rewrite lookup_insert_ne; [done|].
      intros ->. by rewrite Hk in Hk'.
    + exists k, r. by rewrite lookup_insert_eq.
  - rewrite length_app. simpl. lia.
Qed.

Lemma sameWaiters_refl p : sameWaiters p p.
Proof. done. Qed.

Lemma waitInv_marks (s : Sys) (q : Pool) :
  waitInv s -> sameWaiters (pool s) q -> waitInv {| pool := notifyWaiterLocked q; reqs := reqs s |}.
Proof. intros Hinv Hq. apply waitInv_notify. by eapply waitInv_same. Qed.

Lemma waitInv_clear (s : Sys) (id : string) :
  waitInv s -> waitInv {| pool := ClearHealth id (pool s); reqs := reqs s |}.
Proof.
  intros Hinv. unfold ClearHealth. case_bool_decide; [by destruct s|]. by apply waitInv_marks.
Qed.

Lemma waitInv_turn (st : Store) (s : Sys) (k : nat) (r : Request) p t :
  waitInv s -> reqs s !! k = Some (r, Trying) -> turnOk (pool s) (p, t) ->
  waitInv {| pool := p; reqs := afterTurn r k t (reqs s) |}.
Proof.
  intros Hinv Hk Ht. unfold turnOk in Ht. destruct t as [acc| |w]; simpl in Ht.
  - destruct Ht as [[h ->] _].
    destruct (takeSlot_fields (Identifier acc) (setHealth h (pool s))) as (_ & _ & Hw & Hc & Hn & _ & _ & Hm).
    eapply waitInv_same; [done|done| |]; simpl.
    + intros k' r' w [[_ [=]]|[_ ?]]%lookup_insert_Some. done.
    + intros k' r' w _ Hk'. rewrite lookup_insert_ne; [done|]. intros ->. by rewrite Hk in Hk'.
  - destruct Ht as [h ->]. eapply waitInv_same; [done|done| |]; simpl.
    + by intros k' r' w [_ ?]%lookup_delete_Some.
    + intros k' r' w _ Hk'. rewrite lookup_delete_ne; [done|]. intros ->. by rewrite Hk in Hk'.
  - destruct Ht as (-> & Hlen & h & ->). by apply waitInv_push.
Qed.

Lemma waitInv_release (s : Sys) (k : nat) (r : Request) (id : string) :
  waitInv s -> reqs s !! k = Some (r, Leasing id) ->
  waitInv {| pool := Release id (pool s); reqs := delete k (reqs s) |}.
Proof.
  intros Hinv Hk.
  assert (Hdel : forall q, sameWaiters (pool s) q -> waitInv {| pool := q; reqs := delete k (reqs s) |}).
  { intros q Hq. eapply waitInv_same; [done|done| |]; simpl.
    - by intros k' r' w [_ ?]%lookup_delete_Some.
    - intros k' r' w _ Hk'. rewrite lookup_delete_ne; [done|]. intros ->. by rewrite Hk in Hk'. }
  unfold Release. case_bool_decide; [by apply Hdel|]. destruct (_ <=? 0); [by apply Hdel|].
  destruct (_ =? 1); apply waitInv_notify; by apply Hdel.
Qed.

Lemma waitInv_step (st : Store) (l : Label) (s s' : Sys) :
  canonicalLabel st l -> slotInv st s -> waitInv s -> sysStep st l s = Some s' -> waitInv s'.
Proof.
  intros Hl [] Hinv Hs.
  destruct l as [k r|k clk|k|k|k|k|id state until now|id state now|id|id now]; simpl in Hs.
  - destruct (reqs s !! k) eqn:E; simplify_eq/=. eapply waitInv_same; [done|done| |]; simpl.
    + by intros k' r' w [[_ [=]]|[_ ?]]%lookup_insert_Some.
    + intros k' r' w _ Hk'. rewrite lookup_insert_ne; [done|]. by intros ->; rewrite E in Hk'.
  - destruct (reqs s !! k) as [[r [| |]]|] eqn:E; try done.
    destruct (requestTurn st clk r (pool s)) as [p t] eqn:Ht. simplify_eq/=.
    apply (waitInv_turn st); [done..|]. rewrite <- Ht. apply requestTurn_ok; eauto.
  - destruct (reqs s !! k) as [[r [| |]]|] eqn:E; simplify_eq/=. eapply waitInv_same; [done|done| |]; simpl.
    + by intros k' r' w [_ ?]%lookup_delete_Some.
    + intros k' r' w _ Hk'. rewrite lookup_delete_ne; [done|]. by intros ->; rewrite E in Hk'.
  - destruct (reqs s !! k) as [[r [|w|]]|] eqn:E; try done. case_bool_decide as Hcl; simplify_eq/=.
    eapply waitInv_same; [done|done| |]; simpl.
    + by intros k' r' w' [[_ [=]]|[_ ?]]%lookup_insert_Some.
    + intros k' r' w' Hw' Hk'. rewrite lookup_insert_ne; [done|]. intros ->. rewrite E in Hk'.
      simplify_eq. by apply (wi_disj _ Hinv) in Hw'.
  - destruct (reqs s !! k) as [[r [|w|]]|] eqn:E; simplify_eq/=. by eapply waitInv_cancel.
  - destruct (reqs s !! k) as [[r [|w|id]]|] eqn:E; simplify_eq/=. by eapply waitInv_release.
  - simplify_eq. unfold markTransientAccount. case_bool_decide; [by destruct s|].
    destruct (negb _); [by apply waitInv_clear|]. by apply waitInv_marks.
  - simplify_eq. unfold markBlockedAccount. case_bool_decide; [by destruct s|]. by apply waitInv_marks.
  - simplify_eq. by apply waitInv_clear.
  - simplify_eq. unfold AccountHealth. case_bool_decide; [by destruct s|].
    eapply waitInv_same; [done| |done|done]. simpl.
    by destruct (accountHealthLocked_spec id now (pool s)) as [_ ->].
Qed.

(** The limits of the pool never change in these steps. *)
Definition sameLimits (p p' : Pool) : Prop :=
  maxInflightPerAccount p' = maxInflightPerAccount p /\ globalMaxInflight p' = globalMaxInflight p /\
  maxQueueSize p' = maxQueueSize p.

Lemma run_inv (st : Store) (ls : list Label) (s s' : Sys) :
  Forall (canonicalLabel st) ls -> slotInv st s -> waitInv s -> sysRun st ls s = Some s' ->
  slotInv st s' /\ waitInv s'.
Proof.
  intros Hls. revert s. induction Hls as [|l ls Hl Hls IH]; intros s Hsi Hwi Hr; simpl in Hr.
  { by simplify_eq. }
  destruct (sysStep st l s) as [s1|] eqn:E; [|done].
  eapply IH; [| |done]; [by eapply slotInv_step|by eapply waitInv_step].
Qed.

(** ** The initial state *)

Definition sysInit (getenv : string -> string) (st : Store) (now : Z) : Sys :=
  {| pool := NewPool getenv st now; reqs := ∅ |}.

Lemma queue_canonical (st : Store) `{!AccountDirectory st} (id : string) :
  id ∈ enabledIDs (tokenFirst (Accounts st)) -> canonical st id.
Proof.
  intros (a & Ha & _ & <- & Hne)%elem_of_enabledIDs acc Hf. rewrite <- tokenFirst_perm in Ha.
  by eapply directory_own.
Qed.

Lemma sysInit_slots (getenv : string -> string) (st : Store) `{!AccountDirectory st} (now : Z) :
  NoDup (enabledIDs (tokenFirst (Accounts st))) -> slotInv st (sysInit getenv st now).
Proof.
  intros Hnd. assert (Hl : forall id, leaseCount ∅ id = 0).
  { intros id. unfold leaseCount. by rewrite map_filter_empty. }
  assert (Ht : totalLeases ∅ = 0) by (unfold totalLeases; by rewrite map_filter_empty).
  constructor; simpl.
  - done.
  - intros id Hid. by apply queue_canonical.
  - by intros k r ph Hk.
  - intros id. by rewrite Hl.
  - by rewrite Ht.
  - intros id n Hn. by rewrite lookup_empty in Hn.
  - done.
  - intros id. change (inUseOf _ id) with 0. lia.
  - intros Hp. change (currentInUse ∅) with 0. lia.
Qed.

Lemma sysInit_waiters (getenv : string -> string) (st : Store) (now : Z) :
  waitInv (sysInit getenv st now).
Proof.
  constructor; simpl; try done.
  - constructor.
  - intros w [Hw|Hw]; [by apply elem_of_nil in Hw|].
    rewrite union_empty_r_L in Hw. by apply elem_of_empty in Hw.
  - by intros w Hw%elem_of_nil.
  - lia.
Qed.

Lemma step_limits (st : Store) (l : Label) (s s' : Sys) :
  canonicalLabel st l -> slotInv st s -> sysStep st l s = Some s' -> sameLimits (pool s) (pool s').
Proof.
  intros Hl [] Hs.
  assert (Hn : forall q, sameLimits (pool s) q -> sameLimits (pool s) (notifyWaiterLocked q)).
  { intros q (? & ? & ?). destruct (notifyWaiterLocked_fields q) as (_ & _ & _ & Hm & Hg & Hq & _).
    unfold sameLimits. by rewrite Hm, Hg, Hq. }
  destruct l as [k r|k clk|k|k|k|k|id state until now|id state now|id|id now]; simpl in Hs.
  - destruct (reqs s !! k) eqn:E; by simplify_eq/=.
  - destruct (reqs s !! k) as [[r [| |]]|] eqn:E; try done.
    pose proof (requestTurn_ok st clk r (pool s) si_nodup0 si_queue0 (si_reqs0 _ _ _ E)) as Ht.
    destruct (requestTurn st clk r (pool s)) as [p t]. simplify_eq/=. unfold turnOk in Ht.
    destruct t as [acc| |w]; simpl in Ht.
    + destruct Ht as [[h ->] _].
      destruct (takeSlot_fields (Identifier acc) (setHealth h (pool s))) as (_ & _ & _ & _ & _ & Hm & Hg & Hq).
      by unfold sameLimits; rewrite Hm, Hg, Hq.
    + by destruct Ht as [h ->].
    + by destruct Ht as (_ & _ & h & ->).
  - destruct (reqs s !! k) as [[r [| |]]|]; by simplify_eq/=.
  - destruct (reqs s !! k) as [[r [|w|]]|]; try done. case_bool_decide; by simplify_eq/=.
  - destruct (reqs s !! k) as [[r [|w|]]|]; simplify_eq/=. unfold removeWaiterLocked. by destruct (removeFirst _ _).
  - destruct (reqs s !! k) as [[r [|w|id]]|]; simplify_eq/=. unfold Release.
    repeat case_match; try done; by apply Hn.
  - simplify_eq/=. unfold markTransientAccount, ClearHealth. repeat case_match; try done; by apply Hn.
  - simplify_eq/=. unfold markBlockedAccount. repeat case_match; try done; by apply Hn.
  - simplify_eq/=. unfold ClearHealth. repeat case_match; try done; by apply Hn.
  - simplify_eq/=. unfold AccountHealth. case_bool_decide; [done|].
    by destruct (accountHealthLocked_spec id now (pool s)) as [_ ->].
Qed.

Lemma run_limits (st : Store) (ls : list Label) (s s' : Sys) :
  Forall (canonicalLabel st) ls -> slotInv st s -> sysRun st ls s = Some s' -> sameLimits (pool s) (pool s').
Proof.
  intros Hls. revert s. induction Hls as [|l ls Hl Hls IH]; intros s Hsi Hr; simpl in Hr; [by simplify_eq|].
  destruct (sysStep st l s) as [s1|] eqn:E; [|done].
  pose proof (step_limits st l s s1 Hl Hsi E) as (H1 & H2 & H3).
  destruct (IH s1 (slotInv_step st l s s1 Hl Hsi E) Hr) as (H4 & H5 & H6).
  unfold sameLimits. by rewrite H4, H5, H6.
Qed.

(** ** Properties *)

Lemma RuntimeAccountMaxInflight_pos (getenv : string -> string) (st : Store) :
  0 < RuntimeAccountMaxInflight getenv st.
Proof.
  unfold RuntimeAccountMaxInflight. destruct (Z.ltb_spec 0 (AccountMaxInflight (sRuntime st))); [done|].
  unfold envInt. case_bool_decide; [done|]. destruct (Atoi _) as [n|]; [|done].
  destruct (Z.ltb_spec 0 n); done.
Qed.

(** C1. While the configuration stays as it is, with its limits, and the pool is not reset, in every
    interleaving of requests that name accounts by their identifiers (or name none), each of
    which gives back what it took and no more, with waits, cancellations, health marks and
    releases in any order, the pool's count of an account is exactly the number of requests that
    hold it, no account has more holders than the per-account limit, and when there is a global
    limit no more requests hold accounts than it allows.  The conditions are needed: see
    [alias_slot_leaks] and [Reset_forgets_leases] below. *)
Theorem pool_slots_exact (getenv : string -> string) (s0 : Store) (now : Z) (ls : list Label) (s : Sys) :
  let st := rebuildIndexes s0 in
  NoDup (enabledIDs (tokenFirst (Accounts st))) -> Forall (canonicalLabel st) ls ->
  sysRun st ls (sysInit getenv st now) = Some s ->
  (forall id, inUseOf (pool s) id = leaseCount (reqs s) id /\
     leaseCount (reqs s) id <= RuntimeAccountMaxInflight getenv st) /\
  currentInUse (inUse (pool s)) = totalLeases (reqs s) /\
  (0 < globalMaxInflight (NewPool getenv st now) ->
   totalLeases (reqs s) <= globalMaxInflight (NewPool getenv st now)).
Proof.
  intros st Hnd Hls Hr. pose proof (sysInit_slots getenv st now Hnd) as Hi.
  destruct (run_inv st ls _ s Hls Hi (sysInit_waiters getenv st now) Hr) as [[] _].
  destruct (run_limits st ls _ s Hls Hi Hr) as (Hm & Hg & _).
  pose proof (RuntimeAccountMaxInflight_pos getenv st).
  split; [|split; [done|]].
  - intros id. split; [done|]. rewrite <- si_count0. specialize (si_limit0 id). rewrite Hm in si_limit0.
    change (maxInflightPerAccount _) with (RuntimeAccountMaxInflight getenv st) in si_limit0. lia.
  - intros Hp. rewrite <- si_total0. change (pool (sysInit getenv st now)) with (NewPool getenv st now) in Hg.
    rewrite Hg in si_global0. auto.
Qed.

(** In every such interleaving the waiter list is sound: it never exceeds the
    queue limit; every channel on it is open and belongs to exactly one parked
    request, so waking a waiter never closes a channel twice; and every parked
    request is on the list or has already been woken, so none is stranded
    outside it. *)
Theorem waiters_sound (getenv : string -> string) (s0 : Store) (now : Z) (ls : list Label) (s : Sys) :
  let st := rebuildIndexes s0 in
  NoDup (enabledIDs (tokenFirst (Accounts st))) -> Forall (canonicalLabel st) ls ->
  sysRun st ls (sysInit getenv st now) = Some s ->
  Z.of_nat (length (waiters (pool s))) <= Z.max 0 (maxQueueSize (NewPool getenv st now)) /\
  NoDup (waiters (pool s)) /\
  (forall w, w ∈ waiters (pool s) -> (w ∉ closed (pool s)) /\
     exists k r, reqs s !! k = Some (r, Parked w) /\
       forall k' r', reqs s !! k' = Some (r', Parked w) -> k' = k) /\
  (forall k r w, reqs s !! k = Some (r, Parked w) -> w ∈ waiters (pool s) \/ w ∈ closed (pool s)).
Proof.
  intros st Hnd Hls Hr. pose proof (sysInit_slots getenv st now Hnd) as Hi.
  destruct (run_inv st ls _ s Hls Hi (sysInit_waiters getenv st now) Hr) as [_ []].
  destruct (run_limits st ls _ s Hls Hi Hr) as (_ & _ & Hq).
  rewrite Hq in wi_bound0. split; [done|]. split; [done|]. split; [|done].
  intros w Hw. split; [auto|]. destruct (wi_owner0 w Hw) as (k & r & Hk). exists k, r.
  split; [done|]. intros k' r' Hk'. by eapply wi_inj0.
Qed.

Definition anyAccount : Request := {| rTarget := ""; rPreferred := false; rExclude := ∅ |}.
Definition forAccount (id : string) : Request := {| rTarget := id; rPreferred := false; rExclude := ∅ |}.
Definition noon (_ : nat) : Z := 0.

(** Three requests on an account with one slot: one is served, two wait. *)
Definition demoLabels : list Label :=
  [LArrive 1 (forAccount "alice@example.com"); LTurn 1 noon;
   LArrive 2 (forAccount "alice@example.com"); LTurn 2 noon;
   LArrive 3 (forAccount "alice@example.com"); LTurn 3 noon].

Lemma canonical_None (st : Store) (id : string) : FindAccount st id = None -> canonical st id.
Proof. intros H acc Hf. congruence. Qed.

Lemma canonical_Some (st : Store) (id : string) (acc : Account) :
  FindAccount st id = Some acc -> Identifier acc = id -> canonical st id.
Proof. intros H Hi acc' Hf. congruence. Qed.

Lemma demoStore_nodup : NoDup (enabledIDs (tokenFirst (Accounts demoStore))).
Proof. exact demoPool_nodup. Qed.

Lemma demo_canonical : Forall (canonicalLabel demoStore) demoLabels.
Proof.
  assert (Ha : canonical demoStore "alice@example.com").
  { apply (canonical_Some _ _ alice); vm_compute; reflexivity. }
  repeat constructor; done.
Qed.

Definition demoSys : Sys := default (sysInit noEnv demoStore 0) (sysRun demoStore demoLabels (sysInit noEnv demoStore 0)).

Lemma demoSys_run : sysRun demoStore demoLabels (sysInit noEnv demoStore 0) = Some demoSys.
Proof.
  unfold demoSys. destruct (sysRun _ _ _) as [s|] eqn:E; [done|]. vm_compute in E. discriminate.
Qed.

Lemma pool_slots_exact_witness :
  inUseOf (pool demoSys) "alice@example.com" = leaseCount (reqs demoSys) "alice@example.com" /\
  leaseCount (reqs demoSys) "alice@example.com" <= 1.
Proof.
  exact (proj1 (pool_slots_exact noEnv _ 0 demoLabels demoSys demoStore_nodup demo_canonical demoSys_run)
    "alice@example.com").
Defined.

Lemma waiters_sound_witness : Z.of_nat (length (waiters (pool demoSys))) <= Z.max 0 2.
Proof.
  exact (proj1 (waiters_sound noEnv _ 0 demoLabels demoSys demoStore_nodup demo_canonical demoSys_run)).
Defined.

(** ** Where the guarantees end *)

(** A request for the second account under another spelling of its mobile number,
    served and finished. *)
Definition aliasLabels : list Label :=
  [LArrive 1 (forAccount "13800138000"); LTurn 1 noon; LFinish 1].

(** The restriction to identifiers above is needed: a request that names an
    account by another spelling of its mobile number takes the slot under the
    spelling it was given, and the release, made under the account's identifier,
    does not find it.  When the request is over and nobody holds anything, the
    spelling is still counted in flight, and at one slot per account it is
    refused at every later instant. *)
Theorem alias_slot_leaks :
  exists s, sysRun demoStore aliasLabels (sysInit noEnv demoStore 0) = Some s /\
    reqs s = ∅ /\ inUseOf (pool s) "13800138000" = 1 /\ inUseOf (pool s) "+8613800138000" = 0 /\
    (exists acc, FindAccount demoStore "13800138000" = Some acc /\ Identifier acc = "+8613800138000") /\
    forall clk, (acquireLocked demoStore clk "13800138000" ∅ (pool s)).2 = None.
Proof.
  destruct (sysRun demoStore aliasLabels (sysInit noEnv demoStore 0)) as [s|] eqn:E;
    [|vm_compute in E; discriminate].
  exists s. split; [done|].
  assert (Hs : (fun s => (bool_decide (reqs s = ∅), inUseOf (pool s) "13800138000",
      inUseOf (pool s) "+8613800138000", maxInflightPerAccount (pool s))) <$> Some s
    = Some (true, 1, 0, 1)) by (rewrite <- E; vm_compute; reflexivity).
  simpl in Hs. injection Hs as H1 H2 H3 H4. apply bool_decide_eq_true_1 in H1.
  do 3 (split; [done|]). split; [exists bob; split; vm_compute; reflexivity|].
  intros clk. pose proof (acquireLocked_target demoStore clk "13800138000" ∅ (pool s)) as H.
  destruct (acquireLocked _ _ _ _ _) as [p' [acc|]]; [|done].
  destruct H as (_ & _ & Hel & _); [done|]. unfold eligible in Hel.
  rewrite H2, H4 in Hel. simpl in Hel. by rewrite andb_false_r in Hel.
Qed.

(** Of the two waiting requests the first is woken by the release, but its
    context is done as well and it leaves through that branch. *)
Definition lostWakeLabels : list Label := demoLabels ++ [LFinish 1; LCancel 2].

(** A wake-up can be lost: when the request that a release woke leaves because
    its context ended, the wake-up is not handed on.  The account is then
    eligible at every instant, nobody holds it, and the other request stays
    parked on an open channel, unable to move. *)
Theorem wakeup_lost_on_cancel :
  exists s w, sysRun demoStore lostWakeLabels (sysInit noEnv demoStore 0) = Some s /\
    totalLeases (reqs s) = 0 /\
    (forall t, eligible demoStore (pool s) t "alice@example.com" = true) /\
    reqs s = {[ 3%nat := (forAccount "alice@example.com", Parked w) ]} /\ w ∈ waiters (pool s) /\
    (w ∉ closed (pool s)) /\ sysStep demoStore (LWake 3) s = None.
Proof.
  destruct (sysRun demoStore lostWakeLabels (sysInit noEnv demoStore 0)) as [s|] eqn:E;
    [|vm_compute in E; discriminate].
  exists s, 1%nat. split; [done|].
  assert (Hs : (fun s => (totalLeases (reqs s), eligible demoStore (pool s) 0 "alice@example.com",
      health (pool s) !! "alice@example.com",
      bool_decide (reqs s = {[ 3%nat := (forAccount "alice@example.com", Parked 1) ]}),
      bool_decide (1%nat ∈ waiters (pool s)), bool_decide (1%nat ∈ closed (pool s)))) <$> Some s
    = Some (0, true, None, true, true, false)) by (rewrite <- E; vm_compute; reflexivity).
  simpl in Hs. injection Hs as H1 H2 H3 H4 H5 H6.
  apply bool_decide_eq_true_1 in H4, H5. apply bool_decide_eq_false_1 in H6.
  split; [done|]. split.
  { intros t. unfold eligible, blockedAt in *. by rewrite H3 in *. }
  do 3 (split; [done|]). simpl. rewrite H4, lookup_singleton_eq. by rewrite bool_decide_eq_false_2.
Qed.

(** [Reset] forgets the requests in flight: with one slot per account and a
    request holding the account, the pool serves a second one right after a
    reset, so the limit is exceeded until the first has finished; and that
    request's release then returns the slot the second one took, so a third is
    served beside it. *)
Theorem Reset_forgets_leases :
  let id := "alice@example.com" in
  let acquire p := Acquire demoStore noon id ∅ p in
  let p1 := (acquire demoPool).1 in
  let p2 := Reset noEnv demoStore 0 p1 in
  let p3 := Release id (acquire p2).1 in
  maxInflightPerAccount demoPool = 1 /\ (acquire demoPool).2 = Some alice /\
  (acquire p1).2 = None /\ (acquire p2).2 = Some alice /\ (acquire p3).2 = Some alice.
Proof. vm_compute. done. Qed.
