(* ===== verification/Sha256.v ===== *)
(** SHA-256 and SHA-1 ([crypto/sha256], [crypto/sha1] of the Go standard library), on
    byte lists, and the hexadecimal encoding of [encoding/hex].  The account affinity
    keys, the login limiter's fingerprints and the ids of proxies are computed with
    them. *)
From S2P Require Import Prelude GoString.
Local Open Scope N_scope.

Definition mask32 : N := 0xffffffff.
Definition add32 (x y : N) : N := N.land (x + y) mask32.
Definition rotr32 (x k : N) : N :=
  N.lor (N.shiftr x k) (N.land (N.shiftl x (32 - k)) mask32).
Definition not32 (x : N) : N := N.lxor x mask32.

(** The constants are the first 32 fractional bits of roots of the first primes. *)
Definition isPrime (n : nat) : bool :=
  forallb (fun d => negb (n mod d =? 0)%nat) (seq 2 (n - 2)).

Definition primes : list N := Eval vm_compute in N.of_nat <$> filter (fun n => isPrime n = true) (seq 2 310).

(** Integer cube root, bit by bit from the top. *)
Fixpoint cubeRootFrom (bits : nat) (r n : N) : N :=
  match bits with
  | O => r
  | S bits =>
      let r' := N.lor r (N.shiftl 1 (N.of_nat bits)) in
      cubeRootFrom bits (if r' * r' * r' <=? n then r' else r) n
  end.

Definition sha256_K : list N :=
  Eval vm_compute in (fun p => N.land (cubeRootFrom 36 0 (N.shiftl p 96)) mask32) <$> take 64 primes.

Definition sha256_H : list N :=
  Eval vm_compute in (fun p => N.land (N.sqrt (N.shiftl p 64)) mask32) <$> take 8 primes.

(** Big-endian words. *)
Fixpoint wordsBE (fuel : nat) (b : list N) : list N :=
  match fuel, b with
  | S fuel, b0 :: b1 :: b2 :: b3 :: b =>
      N.lor (N.shiftl b0 24) (N.lor (N.shiftl b1 16) (N.lor (N.shiftl b2 8) b3)) :: wordsBE fuel b
  | _, _ => []
  end.

Definition bytesBE (n : nat) (v : N) : list N :=
  (fun i => N.land (N.shiftr v (8 * N.of_nat (n - 1 - i))) 255) <$> seq 0 n.

Definition sigma0 (x : N) : N := N.lxor (rotr32 x 7) (N.lxor (rotr32 x 18) (N.shiftr x 3)).
Definition sigma1 (x : N) : N := N.lxor (rotr32 x 17) (N.lxor (rotr32 x 19) (N.shiftr x 10)).

(** The message schedule, newest word first. *)
Fixpoint schedule (n : nat) (w : list N) : list N :=
  match n with
  | O => w
  | S n =>
      let w' := schedule n w in
      let at_ i := nth i w' 0 in
      add32 (add32 (sigma1 (at_ 1%nat)) (at_ 6%nat)) (add32 (sigma0 (at_ 14%nat)) (at_ 15%nat)) :: w'
  end.

Definition compressStep (s : list N) (kw : N * N) : list N :=
  match s with
  | [a; b; c; d; e; f; g; h] =>
      let S1 := N.lxor (rotr32 e 6) (N.lxor (rotr32 e 11) (rotr32 e 25)) in
      let ch := N.lxor (N.land e f) (N.land (not32 e) g) in
      let t1 := add32 (add32 (add32 h S1) (add32 ch kw.1)) kw.2 in
      let S0 := N.lxor (rotr32 a 2) (N.lxor (rotr32 a 13) (rotr32 a 22)) in
      let maj := N.lxor (N.land a b) (N.lxor (N.land a c) (N.land b c)) in
      [add32 t1 (add32 S0 maj); a; b; c; add32 d t1; e; f; g]
  | _ => s
  end.

Definition compress (h : list N) (block : list N) : list N :=
  let w := rev (schedule 48 (rev (wordsBE 16 block))) in
  zip_with add32 h (fold_left compressStep (zip sha256_K w) h).

Definition sha256_pad (m : list N) : list N :=
  let len := length m in
  m ++ [0x80] ++ replicate ((119 - len mod 64) mod 64) 0 ++ bytesBE 8 (8 * N.of_nat len).

Fixpoint sha256_blocks (fuel : nat) (h : list N) (m : list N) : list N :=
  match fuel with
  | O => h
  | S fuel => match m with
              | [] => h
              | _ => sha256_blocks fuel (compress h (take 64 m)) (drop 64 m)
              end
  end.

Definition Sum256 (m : list N) : list N :=
  let p := sha256_pad m in
  mbind (bytesBE 4) (sha256_blocks (length p / 64) sha256_H p).

(** ** SHA-1 *)

Definition rotl32 (x k : N) : N := rotr32 x (32 - k).

Fixpoint sha1_schedule (n : nat) (w : list N) : list N :=
  match n with
  | O => w
  | S n =>
      let w' := sha1_schedule n w in
      let at_ i := nth i w' 0 in
      rotl32 (N.lxor (at_ 2%nat) (N.lxor (at_ 7%nat) (N.lxor (at_ 13%nat) (at_ 15%nat)))) 1 :: w'
  end.

(** The function and the constant of a step. *)
Definition sha1_fk (i : nat) (b c d : N) : N * N :=
  if (i <? 20)%nat then (N.lor (N.land b c) (N.land (not32 b) d), 0x5a827999)
  else if (i <? 40)%nat then (N.lxor b (N.lxor c d), 0x6ed9eba1)
  else if (i <? 60)%nat then (N.lor (N.land b c) (N.lor (N.land b d) (N.land c d)), 0x8f1bbcdc)
  else (N.lxor b (N.lxor c d), 0xca62c1d6).

Definition sha1_step (s : list N) (iw : nat * N) : list N :=
  match s with
  | [a; b; c; d; e] =>
      let '(f, k) := sha1_fk iw.1 b c d in
      [add32 (add32 (rotl32 a 5) f) (add32 (add32 e k) iw.2); a; rotl32 b 30; c; d]
  | _ => s
  end.

Definition sha1_compress (h block : list N) : list N :=
  let w := rev (sha1_schedule 64 (rev (wordsBE 16 block))) in
  zip_with add32 h (fold_left sha1_step (zip (seq 0 80) w) h).

Fixpoint sha1_blocks (fuel : nat) (h m : list N) : list N :=
  match fuel, m with
  | S fuel, _ :: _ => sha1_blocks fuel (sha1_compress h (take 64 m)) (drop 64 m)
  | _, _ => h
  end.

(** [sha1.Sum] *)
Definition sha1Sum (m : list N) : list N :=
  let p := sha256_pad m in
  mbind (bytesBE 4) (sha1_blocks (length p / 64) [0x67452301; 0xefcdab89; 0x98badcfe; 0x10325476; 0xc3d2e1f0] p).

(** ** Hexadecimal *)

Definition hexDigit (n : N) : N := if n <? 10 then 48 + n else 87 + n.

(** [hex.EncodeToString] *)
Definition EncodeToString (b : list N) : string :=
  stringOf (mbind (fun x => [hexDigit (x / 16); hexDigit (x mod 16)]) b).

Example sha256_empty : EncodeToString (Sum256 []) =
  "e3b0c44298fc1c149afbf4c8996fb92427ae41e4649b934ca495991b7852b855".
Proof. vm_compute. reflexivity. Qed.

Example sha256_abc : EncodeToString (Sum256 (bytesOf "abc")) =
  "ba7816bf8f01cfea414140de5dae2223b00361a396177a9cb410ff61f20015ad".
Proof. vm_compute. reflexivity. Qed.

(** A message of two blocks. *)
Example sha256_two_blocks :
  EncodeToString (Sum256 (bytesOf "abcdbcdecdefdefgefghfghighijhijkijkljklmklmnlmnomnopnopq")) =
  "248d6a61d20638b8e5c026930c3e6039a33ce45964ff2167f6ecedd419db06c1".
Proof. vm_compute. reflexivity. Qed.

Example sha1_abc : EncodeToString (sha1Sum (bytesOf "abc")) = "a9993e364706816aba3e25717850c26c9cd0d89d".
Proof. vm_compute. reflexivity. Qed.

Example sha1_two_blocks :
  EncodeToString (sha1Sum (bytesOf "abcdbcdecdefdefgefghfghighijhijkijkljklmklmnlmnomnopnopq")) =
  "84983e441c3bd26ebaae4aa1f95129e5e54670f1".
Proof. vm_compute. reflexivity. Qed.

(** ** Lengths *)

Lemma compressStep_length (s : list N) (kw : N * N) : length s = 8%nat -> length (compressStep s kw) = 8%nat.
Proof. intros H. do 9 (destruct s as [|? s]; try done). Qed.

Lemma compress_length (h block : list N) : length h = 8%nat -> length (compress h block) = 8%nat.
Proof.
  intros H. unfold compress. rewrite length_zip_with.
  assert (Hf : forall l s, length s = 8%nat -> length (fold_left compressStep l s) = 8%nat).
  { intros l. induction l as [|kw l IH]; intros s Hs; simpl; [done|]. apply IH. by apply compressStep_length. }
  rewrite Hf by done. lia.
Qed.

Lemma Sum256_length (m : list N) : length (Sum256 m) = 32%nat.
Proof.
  unfold Sum256. generalize (length (sha256_pad m) / 64)%nat. generalize (sha256_pad m). intros p n.
  assert (Hb : forall fuel h q, length h = 8%nat -> length (sha256_blocks fuel h q) = 8%nat).
  { induction fuel as [|fuel IH]; intros h q Hh; simpl; [done|]. destruct q; [done|]. apply IH. by apply compress_length. }
  specialize (Hb n sha256_H p eq_refl).
  destruct (sha256_blocks n sha256_H p) as [|a [|b [|c [|d [|e [|f [|g [|h [|i w]]]]]]]]]; try done.
Qed.

Lemma EncodeToString_length (b : list N) : String.length (EncodeToString b) = (2 * length b)%nat.
Proof.
  unfold EncodeToString. induction b as [|x b IH]; [done|]. rewrite bind_cons.
  cbn [app stringOf String.length length]. rewrite IH. lia.
Qed.

(** ** Lemmas: hexadecimal is trimmed *)

Lemma hex_plain (n : N) : (n < 16)%N -> plainByte (Ascii.ascii_of_N (hexDigit n)) = true.
Proof.
  intros H. assert (Hin : n ∈ (N.of_nat <$> seq 0%nat 16%nat)).
  { apply list_elem_of_fmap. exists (N.to_nat n). split; [lia|]. apply elem_of_seq. lia. }
  clear H. revert n Hin. apply Forall_forall. vm_compute. repeat constructor.
Qed.

Lemma hex_last (b : list N) :
  EncodeToString b = "" \/ exists s d, EncodeToString b = s +:+ String d "" /\ plainByte d = true.
Proof.
  destruct b as [|x b _] using rev_ind; [by left|right].
  unfold EncodeToString. rewrite bind_app, bind_singleton, stringOf_app.
  exists (stringOf (mbind (fun x => [hexDigit (x / 16); hexDigit (x mod 16)]) b)
          +:+ String (Ascii.ascii_of_N (hexDigit (x / 16))) ""), (Ascii.ascii_of_N (hexDigit (x mod 16))).
  split; [by rewrite append_assoc|]. apply hex_plain, N.mod_lt. done.
Qed.

(** A plain prefix before a number in hexadecimal leaves nothing to trim. *)
Lemma TrimSpace_hex (c d : Ascii.ascii) (p : string) (b : list N) :
  plainByte c = true -> plainByte d = true ->
  TrimSpace (String c (p +:+ String d "") +:+ EncodeToString b) = String c (p +:+ String d "") +:+ EncodeToString b.
Proof.
  intros Hc Hd. destruct (hex_last b) as [->|(s & e & -> & He)].
  - rewrite append_nil_r. by apply TrimSpace_plain.
  - rewrite append_cons, <- append_assoc. by apply TrimSpace_plain.
Qed.
