(* ===== verification/LoginLimiter.v ===== *)
(** The admin login limiter: [internal/httpapi/admin/auth/login_limiter.go].

    Failed logins are counted in up to three buckets (source address, credential
    fingerprint, both); from the third failure on a bucket blocks for a time that
    doubles up to a minute.  The table is the Go map; an operation that ranges
    over it takes the order of the iteration, which Go leaves open, as a
    parameter. *)
From S2P Require Import Prelude GoString Sha256 Affinity.
Local Open Scope Z_scope.

Definition loginFailureThreshold : Z := 3.
Definition loginBackoffBase : Z := second.
Definition loginBackoffMax : Z := 60 * second.
Definition loginStateTTL : Z := 15 * 60 * second.
Definition loginStateMaxEntries : nat := 4096.

Record loginLimitState := { failures : Z; lastFailure : Z; blockedTill : Z }.

Definition zeroLimitState : loginLimitState :=
  {| failures := 0; lastFailure := zeroTime; blockedTill := zeroTime |}.

Notation entries := (gmap string loginLimitState).

Definition bucketKeys (ip credential : string) : list string :=
  let ip := TrimSpace ip in
  let ip := if bool_decide (ip = "") then "unknown" else ip in
  let keys := ["ip:" +:+ ip] in
  if bool_decide (TrimSpace credential = "") then keys
  else
    let fingerprint := EncodeToString (take 8 (Sum256 (bytesOf credential))) in
    keys ++ ["credential:" +:+ fingerprint; "credential-ip:" +:+ ip +:+ ":" +:+ fingerprint].

Definition loginBackoff (failures : Z) : Z :=
  if failures <? loginFailureThreshold then 0
  else
    let exponent := i64 (failures - loginFailureThreshold) in
    let exponent := if 6 <? exponent then 6 else exponent in
    let d := i64 (Z.shiftl loginBackoffBase exponent) in
    if loginBackoffMax <? d then loginBackoffMax else d.

(** ** Pruning *)

Definition stateStale (now : Z) (state : loginLimitState) : bool :=
  negb (timeIsZero (lastFailure state)) &&
  (loginStateTTL <? timeSub now (lastFailure state)) &&
  negb (now <? blockedTill state).

Definition stateStamp (state : loginLimitState) : Z :=
  let stamp := lastFailure state in
  if timeIsZero stamp then blockedTill state
  else if negb (timeIsZero (blockedTill state)) && (blockedTill state <? stamp) then blockedTill state
  else stamp.

(** The scan for the oldest state, in an order of the map's entries. *)
Fixpoint oldestIn (l : list (string * loginLimitState)) (oldestKey : string) (oldest : Z) : string :=
  match l with
  | [] => oldestKey
  | (key, state) :: l =>
      let stamp := stateStamp state in
      if bool_decide (oldestKey = "") || (stamp <? oldest) then oldestIn l key stamp
      else oldestIn l oldestKey oldest
  end.

Section Prune.
(** The order in which the [i]-th loop of a run ranges over a map. *)
Variable order : nat -> entries -> list (string * loginLimitState).

Fixpoint evictOldest (fuel i : nat) (m : entries) : entries :=
  match fuel with
  | O => m
  | S fuel =>
      if (size m <=? loginStateMaxEntries)%nat then m
      else
        let key := oldestIn (order i m) "" zeroTime in
        if bool_decide (key = "") then m
        else evictOldest fuel (S i) (delete key m)
  end.

Definition pruneLocked (now : Z) (m : entries) : entries :=
  if (size m <=? loginStateMaxEntries)%nat
  then filter (fun kv => stateStale now kv.2 = false) m
  else evictOldest (size m) 0 m.

(** ** The operations *)

Definition blockedFor (m : entries) (now : Z) (key : string) : Z :=
  match m !! key with
  | Some state => if now <? blockedTill state then timeSub (blockedTill state) now else 0
  | None => 0
  end.

Definition check (ip credential : string) (now : Z) (m : entries) : entries * Z :=
  let m := pruneLocked now m in
  (m, fold_left (fun wait key => if wait <? blockedFor m now key then blockedFor m now key else wait)
        (bucketKeys ip credential) 0).

(** One bucket's new state and the time it blocks for. *)
Definition failBucket (now : Z) (state : loginLimitState) : loginLimitState * Z :=
  let n := if timeIsZero (lastFailure state) || (loginStateTTL <? timeSub now (lastFailure state))
           then 0 else failures state in
  let n := i64 (n + 1) in
  let d := loginBackoff n in
  ({| failures := n; lastFailure := now;
      blockedTill := if 0 <? d then now + d else blockedTill state |}, d).

Fixpoint failKeys (now : Z) (keys : list string) (m : entries) (wait : Z) : entries * Z :=
  match keys with
  | [] => (m, wait)
  | key :: keys =>
      let '(state, d) := failBucket now (default zeroLimitState (m !! key)) in
      failKeys now keys (<[key := state]> m) (if (0 <? d) && (wait <? d) then d else wait)
  end.

Definition failure (ip credential : string) (now : Z) (m : entries) : entries * Z :=
  failKeys now (bucketKeys ip credential) (pruneLocked now m) 0.
End Prune.

Definition success (ip credential : string) (m : entries) : entries :=
  fold_left (fun m key => delete key m) (bucketKeys ip credential) m.

(** ** Lemmas: the backoff *)

Lemma loginBackoff_eq (f : Z) :
  f <= maxInt ->
  loginBackoff f = if f <? 3 then 0 else Z.min loginBackoffMax (second * 2 ^ Z.min 6 (f - 3)).
Proof.
  intros Hf. unfold loginBackoff, loginFailureThreshold, loginBackoffBase. unfold maxInt in Hf.
  destruct (Z.ltb_spec f 3); [done|].
  rewrite (i64_small (f - 3)) by (unfold minInt, maxInt; lia).
  set (e := if 6 <? f - 3 then 6 else f - 3).
  assert (He : e = Z.min 6 (f - 3)) by (unfold e; destruct (Z.ltb_spec 6 (f - 3)); lia).
  rewrite <- He. rewrite Z.shiftl_mul_pow2 by lia.
  assert (Hp : 1 <= 2 ^ e <= 64).
  { split; [change 1 with (2 ^ 0)|change 64 with (2 ^ 6)]; apply Z.pow_le_mono_r; lia. }
  rewrite i64_small by (unfold minInt, maxInt, second; lia).
  unfold loginBackoffMax. destruct (Z.ltb_spec (60 * second) (second * 2 ^ e)); lia.
Qed.

Lemma loginBackoff_range (f : Z) : f <= maxInt -> 0 <= loginBackoff f <= loginBackoffMax.
Proof.
  intros Hf. rewrite loginBackoff_eq by done. unfold loginBackoffMax, second.
  destruct (f <? 3); [lia|]. pose proof (Z.pow_nonneg 2 (Z.min 6 (f - 3))). lia.
Qed.

Lemma loginBackoff_mono (f g : Z) : f <= g -> g <= maxInt -> loginBackoff f <= loginBackoff g.
Proof.
  intros Hfg Hg. destruct (Z.ltb_spec f 3) as [Hlt|Hge].
  - rewrite (loginBackoff_eq f) by lia. destruct (Z.ltb_spec f 3); [|lia].
    by apply loginBackoff_range.
  - rewrite !loginBackoff_eq by lia. destruct (Z.ltb_spec f 3), (Z.ltb_spec g 3); try lia.
    apply Z.min_le_compat_l. apply Z.mul_le_mono_nonneg_l; [unfold second; lia|].
    apply Z.pow_le_mono_r; lia.
Qed.

(** ** Lemmas: the table *)

Lemma bucketKeys_nonempty (ip credential key : string) : key ∈ bucketKeys ip credential -> key <> "".
Proof.
  unfold bucketKeys. intros H ->.
  destruct (bool_decide (TrimSpace credential = "")); simpl in H;
    rewrite ?elem_of_cons in H; rewrite ?elem_of_nil in H; naive_solver.
Qed.

Lemma bucketKeys_length (ip credential : string) : (length (bucketKeys ip credential) <= 3)%nat.
Proof. unfold bucketKeys. case_bool_decide; simpl; lia. Qed.

Lemma success_lookup (ip credential key : string) (m : entries) :
  success ip credential m !! key =
  if bool_decide (key ∈ bucketKeys ip credential) then None else m !! key.
Proof.
  unfold success. generalize (bucketKeys ip credential). intros keys. revert m.
  induction keys as [|k keys IH]; intros m; cbn [fold_left].
  - rewrite bool_decide_eq_false_2; [done|]. apply not_elem_of_nil.
  - rewrite IH. case_bool_decide as H1; case_bool_decide as H2; rewrite elem_of_cons in H2; try naive_solver.
    + destruct H2 as [->|?]; [apply lookup_delete_eq|done].
    + apply lookup_delete_ne. naive_solver.
Qed.

Lemma fold_wait_zero (f : string -> Z) (keys : list string) :
  (forall k, k ∈ keys -> f k = 0) ->
  fold_left (fun wait key => if wait <? f key then f key else wait) keys 0 = 0.
Proof.
  induction keys as [|k keys IH]; intros H; simpl; [done|].
  rewrite (H k) by (apply elem_of_cons; by left). simpl. apply IH. intros k' Hk'. apply H. by apply elem_of_cons; right.
Qed.

Lemma fold_wait_ge (f : string -> Z) (keys : list string) (w : Z) :
  w <= fold_left (fun wait key => if wait <? f key then f key else wait) keys w /\
  forall k, k ∈ keys -> f k <= fold_left (fun wait key => if wait <? f key then f key else wait) keys w.
Proof.
  revert w. induction keys as [|k keys IH]; intros w; simpl.
  { split; [lia|]. by intros k Hk%elem_of_nil. }
  destruct (IH (if w <? f k then f k else w)) as [H1 H2].
  split; [destruct (Z.ltb_spec w (f k)); lia|].
  intros k' [->|Hk']%elem_of_cons; [destruct (Z.ltb_spec w (f k)); lia|]. by apply H2.
Qed.

(** Every loop of the program may range over a map in its own order. *)
Definition mapOrder (order : nat -> entries -> list (string * loginLimitState)) : Prop :=
  forall i m, Permutation (order i m) (map_to_list m).

(** The scan finds an entry whose stamp is the least. *)
Lemma oldestIn_spec (l : list (string * loginLimitState)) (key : string) (stamp : Z) :
  (forall k s, (k, s) ∈ l -> k <> "") ->
  let r := oldestIn l key stamp in
  (key <> "" -> (r = key /\ forall k s, (k, s) ∈ l -> stamp <= stateStamp s) \/
     exists s, (r, s) ∈ l /\ stateStamp s <= stamp /\ forall k' s', (k', s') ∈ l -> stateStamp s <= stateStamp s') /\
  (key = "" -> l <> [] ->
     exists s, (r, s) ∈ l /\ forall k' s', (k', s') ∈ l -> stateStamp s <= stateStamp s').
Proof.
  revert key stamp. induction l as [|[k s] l IH]; intros key stamp Hne; simpl.
  { split; [|done]. intros _. left. split; [done|]. by intros ? ? ?%elem_of_nil. }
  assert (Hk : k <> "") by (apply (Hne k s), elem_of_cons; by left).
  assert (Hl : forall k s, (k, s) ∈ l -> k <> "") by (intros k' s' H'; apply (Hne k' s'), elem_of_cons; by right).
  destruct (IH k (stateStamp s) Hl) as [IHk _]. specialize (IHk Hk).
  (* taking the head: the result is least among head and tail *)
  assert (Hhead : exists s0, (oldestIn l k (stateStamp s), s0) ∈ (k, s) :: l /\ stateStamp s0 <= stateStamp s /\
    forall k' s', (k', s') ∈ (k, s) :: l -> stateStamp s0 <= stateStamp s').
  { destruct IHk as [[-> Hmin]|(s0 & Hin & Hle & Hmin)].
    - exists s. split; [apply elem_of_cons; by left|]. split; [lia|].
      intros k' s' [[= -> ->]|H']%elem_of_cons; [lia|]. eauto.
    - exists s0. split; [apply elem_of_cons; by right|]. split; [done|].
      intros k' s' [[= -> ->]|H']%elem_of_cons; [lia|]. eauto. }
  split.
  - intros Hkey. rewrite bool_decide_eq_false_2 by done. simpl. destruct (Z.ltb_spec (stateStamp s) stamp).
    + right. destruct Hhead as (s0 & ? & ? & ?). exists s0. split; [done|]. split; [lia|done].
    + destruct (IH key stamp Hl) as [IH2 _]. destruct (IH2 Hkey) as [[-> Hmin]|(s0 & Hin & Hle & Hmin)].
      * left. split; [done|]. intros k' s' [[= -> ->]|H']%elem_of_cons; [lia|]. eauto.
      * right. exists s0. split; [apply elem_of_cons; by right|]. split; [done|].
        intros k' s' [[= -> ->]|H']%elem_of_cons; [lia|]. eauto.
  - intros -> _. rewrite bool_decide_eq_true_2 by done. simpl.
    destruct Hhead as (s0 & ? & _ & ?). by exists s0.
Qed.

Section PruneFacts.
Context (order : nat -> entries -> list (string * loginLimitState)) (Horder : mapOrder order).

Lemma oldest_spec (i : nat) (m : entries) :
  m !! "" = None -> m <> ∅ ->
  exists s, m !! oldestIn (order i m) "" zeroTime = Some s /\
    forall k' s', m !! k' = Some s' -> stateStamp s <= stateStamp s'.
Proof.
  intros He Hm.
  assert (Hin : forall k s, (k, s) ∈ order i m <-> m !! k = Some s).
  { intros k s. rewrite (Horder i m). apply elem_of_map_to_list. }
  destruct (oldestIn_spec (order i m) "" zeroTime) as [_ H].
  { intros k s Hk%Hin ->. congruence. }
  destruct H as (s & Hs & Hmin); [done| |].
  - intros E. apply Hm. apply map_to_list_empty_iff. apply Permutation_nil. rewrite <- E. apply Horder.
  - exists s. split; [by apply Hin|]. intros k' s' Hk'. eapply Hmin. by apply Hin.
Qed.

(** The eviction loop leaves exactly the bound, and whatever it evicts is not
    newer than what it keeps. *)
Lemma evictOldest_spec (fuel i : nat) (m : entries) :
  m !! "" = None -> (size m <= loginStateMaxEntries + fuel)%nat ->
  let m' := evictOldest order fuel i m in
  m' ⊆ m /\ size m' = Nat.min loginStateMaxEntries (size m) /\
  forall k s k' s', m !! k = Some s -> m' !! k = None -> m' !! k' = Some s' -> stateStamp s <= stateStamp s'.
Proof.
  revert i m. induction fuel as [|fuel IH]; intros i m He Hsz; cbn [evictOldest]; cbv zeta.
  { split; [done|]. split; [lia|]. intros. congruence. }
  destruct (Nat.leb_spec (size m) loginStateMaxEntries) as [Hle|Hgt].
  { split; [done|]. split; [lia|]. intros. congruence. }
  assert (Hm : m <> ∅) by (intros ->; rewrite map_size_empty in Hgt; lia).
  destruct (oldest_spec i m He Hm) as (s0 & Hs0 & Hmin). set (key := oldestIn _ _ _) in *.
  rewrite bool_decide_eq_false_2 by congruence.
  assert (Hd : size (delete key m) = (size m - 1)%nat).
  { rewrite map_size_delete. rewrite Hs0. lia. }
  destruct (IH (S i) (delete key m)) as (Hsub & Hsize & Hold).
  { by rewrite lookup_delete_ne by congruence. }
  { lia. }
  split; [|split; [lia|]].
  - etransitivity; [done|]. apply delete_subseteq.
  - intros k s k' s' Hk Hk0 Hk'.
    assert (Hk'd : delete key m !! k' = Some s') by (by eapply lookup_weaken).
    destruct (decide (k = key)) as [->|Hne].
    + rewrite Hs0 in Hk. simplify_eq. apply lookup_delete_Some in Hk'd as [_ ?]. eauto.
    + eapply Hold; [|done..]. by rewrite lookup_delete_ne.
Qed.
End PruneFacts.

(** ** Lemmas: recording a failure *)

Lemma bucketKeys_nodup (ip credential : string) : NoDup (bucketKeys ip credential).
Proof.
  unfold bucketKeys. case_bool_decide; [apply NoDup_singleton|]. cbn [app].
  repeat (apply NoDup_cons; split); [..|apply NoDup_nil_2]; rewrite ?elem_of_cons, ?elem_of_nil;
    intros HH; repeat (destruct HH as [HH|HH]); try discriminate HH; done.
Qed.

Definition bucketState (m : entries) (key : string) : loginLimitState := default zeroLimitState (m !! key).

Lemma failKeys_spec (now : Z) (keys : list string) (m : entries) (wait : Z) :
  NoDup keys ->
  let '(m', wait') := failKeys now keys m wait in
  (forall k, m' !! k = if bool_decide (k ∈ keys) then Some (failBucket now (bucketState m k)).1 else m !! k) /\
  wait <= wait' /\ (forall k, k ∈ keys -> (failBucket now (bucketState m k)).2 <= Z.max 0 wait') /\
  (wait' = wait \/ exists k, k ∈ keys /\ (failBucket now (bucketState m k)).2 = wait' /\ 0 < wait') /\
  (size m' <= size m + length keys)%nat.
Proof.
  revert m wait. induction keys as [|key keys IH]; intros m wait Hnd; cbn [failKeys].
  { split; [intros k; by rewrite bool_decide_eq_false_2 by apply not_elem_of_nil|].
    split; [lia|]. split; [by intros k Hk%elem_of_nil|]. split; [by left|lia]. }
  apply NoDup_cons in Hnd as [Hkey Hnd].
  destruct (failBucket now (default zeroLimitState (m !! key))) as [state d] eqn:E.
  set (w := if (0 <? d) && (wait <? d) then d else wait).
  assert (Hw : wait <= w /\ d <= Z.max 0 w /\ (w = wait \/ (w = d /\ 0 < w))).
  { unfold w. destruct (Z.ltb_spec 0 d), (Z.ltb_spec wait d); simpl; lia. }
  specialize (IH (<[key := state]> m) w Hnd).
  destruct (failKeys now keys (<[key := state]> m) w) as [m' w'].
  destruct IH as (Hl & Hge & Hd & Hex & Hsz).
  assert (Hst : forall k, k ∈ keys -> bucketState (<[key := state]> m) k = bucketState m k).
  { intros k Hk. unfold bucketState. rewrite lookup_insert_ne; [done|]. by intros ->. }
  assert (Hkeyd : failBucket now (bucketState m key) = (state, d)) by done.
  split; [|split; [lia|split; [|split]]].
  - intros k. rewrite Hl. destruct (decide (k = key)) as [->|Hne].
    + rewrite bool_decide_eq_false_2 by done. rewrite lookup_insert_eq.
      rewrite bool_decide_eq_true_2 by (apply elem_of_cons; by left). by rewrite Hkeyd.
    + rewrite lookup_insert_ne by done.
      assert (Hiff : k ∈ key :: keys <-> k ∈ keys) by (rewrite elem_of_cons; tauto).
      rewrite (bool_decide_ext _ _ Hiff). case_bool_decide; [by rewrite Hst|done].
  - intros k [->|Hk]%elem_of_cons; [rewrite Hkeyd; simpl; lia|].
    rewrite <- (Hst k Hk). by apply Hd.
  - destruct Hex as [->|(k & Hk & Hkd & Hpos)].
    + destruct Hw as (_ & _ & [->|[-> Hp]]); [by left|]. right. exists key. rewrite Hkeyd.
      split; [apply elem_of_cons; by left|done].
    + right. exists k. rewrite <- (Hst k Hk). split; [apply elem_of_cons; by right|done].
  - etransitivity; [exact Hsz|]. rewrite map_size_insert. destruct (m !! key); simpl; lia.
Qed.

Lemma failBucket_wait (now : Z) (s : loginLimitState) :
  0 <= (failBucket now s).2 <= loginBackoffMax /\
  (0 < (failBucket now s).2 -> blockedTill (failBucket now s).1 = now + (failBucket now s).2).
Proof.
  unfold failBucket. simpl. split.
  - apply loginBackoff_range. apply i64_range.
  - intros H. destruct (Z.ltb_spec 0 (loginBackoff (i64
      ((if timeIsZero (lastFailure s) || (loginStateTTL <? timeSub now (lastFailure s)) then 0 else failures s) + 1))));
      [done|lia].
Qed.

Lemma prune_small (order : nat -> entries -> list (string * loginLimitState)) (now : Z) (m : entries) :
  (size m <= loginStateMaxEntries)%nat ->
  pruneLocked order now m = filter (fun kv => stateStale now kv.2 = false) m.
Proof. intros H. unfold pruneLocked. apply Nat.leb_le in H. by rewrite H. Qed.

Lemma prune_keeps (order : nat -> entries -> list (string * loginLimitState)) (now : Z) (m : entries) key s :
  (size m <= loginStateMaxEntries)%nat -> m !! key = Some s -> stateStale now s = false ->
  pruneLocked order now m !! key = Some s.
Proof. intros Hsz Hk Hs. rewrite prune_small by done. by apply map_lookup_filter_Some. Qed.

(** ** Properties *)

(** The penalty for a bucket's n-th failure is nothing for the first two, then
    one second doubling with every failure, and never more than a minute; it
    never decreases. *)
Theorem loginBackoff_exact (f g : Z) :
  f <= g <= maxInt ->
  loginBackoff f = (if f <? 3 then 0 else Z.min (60 * second) (second * 2 ^ Z.min 6 (f - 3))) /\
  0 <= loginBackoff f <= loginBackoff g /\ loginBackoff g <= 60 * second.
Proof.
  intros [Hfg Hg]. split; [apply loginBackoff_eq; lia|].
  pose proof (loginBackoff_range f ltac:(lia)). pose proof (loginBackoff_range g Hg).
  pose proof (loginBackoff_mono f g Hfg Hg). unfold loginBackoffMax in *. lia.
Qed.

Lemma loginBackoff_exact_witness : loginBackoff 5 = 4 * second /\ loginBackoff 5 <= loginBackoff 100.
Proof.
  assert (H : 5 <= 100 <= maxInt) by (vm_compute; split; discriminate).
  destruct (loginBackoff_exact 5 100 H) as (H1 & H2 & _). split; [rewrite H1; reflexivity|apply H2].
Defined.

(** A penalty is enforced: when a failed login returns a wait, every check of
    the same address and credential before the wait has passed reports at least
    the time that remains, as long as the table is within its bound. *)
Theorem failure_enforced order (ip credential : string) (now t : Z) (m m' : entries) (wait : Z) :
  failure order ip credential now m = (m', wait) ->
  (size m' <= loginStateMaxEntries)%nat -> now <= t < now + wait ->
  now + wait - t <= (check order ip credential t m').2.
Proof.
  unfold failure. intros Hf Hsz Ht.
  pose proof (failKeys_spec now (bucketKeys ip credential) (pruneLocked order now m) 0
    (bucketKeys_nodup ip credential)) as H.
  rewrite Hf in H. destruct H as (Hl & _ & _ & [->|(k & Hk & Hd & Hpos)] & _); [lia|].
  set (s := (failBucket now (bucketState (pruneLocked order now m) k)).1) in *.
  destruct (failBucket_wait now (bucketState (pruneLocked order now m) k)) as [Hr Hb].
  rewrite Hd in Hr, Hb. specialize (Hb Hpos). fold s in Hb.
  assert (Hs : m' !! k = Some s) by (rewrite Hl; by rewrite bool_decide_eq_true_2).
  assert (Hkeep : pruneLocked order t m' !! k = Some s).
  { apply prune_keeps; [done..|]. unfold stateStale. rewrite Hb.
    destruct (Z.ltb_spec t (now + wait)); [|lia]. apply andb_false_r. }
  unfold check. simpl.
  etransitivity; [|by apply (proj2 (fold_wait_ge (blockedFor (pruneLocked order t m') t)
    (bucketKeys ip credential) 0) k)].
  unfold blockedFor. rewrite Hkeep, Hb. destruct (Z.ltb_spec t (now + wait)); [|lia].
  unfold timeSub, minInt, maxInt, loginBackoffMax, second in *. lia.
Qed.

(** A successful login clears the record: an immediate check of the same
    address and credential finds nothing to wait for, at any instant and in any
    table; buckets of other addresses and credentials are untouched. *)
Theorem success_clears order (ip credential : string) (t : Z) (m : entries) :
  m !! "" = None -> mapOrder order ->
  (check order ip credential t (success ip credential m)).2 = 0 /\
  forall key, key ∉ bucketKeys ip credential -> success ip credential m !! key = m !! key.
Proof.
  intros He Ho. split.
  - unfold check. simpl. apply fold_wait_zero. intros k Hk. unfold blockedFor.
    assert (Hn : success ip credential m !! k = None).
    { rewrite success_lookup. by rewrite bool_decide_eq_true_2. }
    destruct (pruneLocked order t (success ip credential m) !! k) as [s|] eqn:E; [|done].
    assert (Hsub : pruneLocked order t (success ip credential m) ⊆ success ip credential m).
    { unfold pruneLocked. destruct (_ <=? _)%nat; [apply map_filter_subseteq|].
      apply evictOldest_spec; [done| |lia]. rewrite success_lookup. by case_bool_decide. }
    by rewrite (lookup_weaken _ _ _ _ E Hsub) in Hn.
  - intros key Hk. rewrite success_lookup. by rewrite bool_decide_eq_false_2.
Qed.

(** The table stays bounded however many addresses an attacker uses: pruning
    an oversized table leaves exactly the allowed number of entries, never adds
    one, and evicts oldest first, so that no evicted state is newer than a state
    that is kept; a recorded failure adds at most three entries to that. *)
Theorem limiter_bounded order (ip credential : string) (now : Z) (m : entries) :
  mapOrder order -> m !! "" = None ->
  (size (pruneLocked order now m) <= loginStateMaxEntries)%nat /\ pruneLocked order now m ⊆ m /\
  (size (failure order ip credential now m).1 <= loginStateMaxEntries + 3)%nat /\
  ((loginStateMaxEntries < size m)%nat -> forall k s k' s', m !! k = Some s ->
     pruneLocked order now m !! k = None -> pruneLocked order now m !! k' = Some s' ->
     stateStamp s <= stateStamp s').
Proof.
  intros Ho He.
  assert (Hp : (size (pruneLocked order now m) <= loginStateMaxEntries)%nat /\ pruneLocked order now m ⊆ m).
  { unfold pruneLocked. destruct (Nat.leb_spec (size m) loginStateMaxEntries).
    - split; [|apply map_filter_subseteq]. etransitivity; [|done]. apply map_subseteq_size, map_filter_subseteq.
    - destruct (evictOldest_spec order Ho (size m) 0 m He) as (? & Hs & _); [lia|]. split; [lia|done]. }
  destruct Hp as [Hsz Hsub]. split; [done|]. split; [done|]. split.
  - unfold failure. pose proof (failKeys_spec now (bucketKeys ip credential) (pruneLocked order now m) 0
      (bucketKeys_nodup ip credential)) as H.
    destruct (failKeys _ _ _ _) as [m' w]. destruct H as (_ & _ & _ & _ & H).
    pose proof (bucketKeys_length ip credential). cbn [fst]. lia.
  - intros Hgt. unfold pruneLocked. destruct (Nat.leb_spec (size m) loginStateMaxEntries); [lia|].
    apply evictOldest_spec; [done..|lia].
Qed.

(** ** Rotating the source address *)

(** Failures with one credential from a list of addresses and instants; the wait
    of the last one. *)
Fixpoint failMany order (credential : string) (attempts : list (string * Z)) (m : entries) (wait : Z)
  : entries * Z :=
  match attempts with
  | [] => (m, wait)
  | (ip, now) :: rest =>
      let '(m, wait) := failure order ip credential now m in failMany order credential rest m wait
  end.

Definition credentialBucket (credential : string) : string :=
  "credential:" +:+ EncodeToString (take 8 (Sum256 (bytesOf credential))).

(** The instants are set, and no two consecutive ones are farther apart than the
    time a failure is remembered. *)
Fixpoint withinTTL (last : Z) (attempts : list (string * Z)) : Prop :=
  match attempts with
  | [] => True
  | (_, now) :: rest => timeIsZero now = false /\ timeSub now last <= loginStateTTL /\ withinTTL now rest
  end.

Lemma credentialBucket_in (ip credential : string) :
  TrimSpace credential <> "" -> credentialBucket credential ∈ bucketKeys ip credential.
Proof.
  intros Hc. unfold bucketKeys. rewrite (bool_decide_eq_false_2 (TrimSpace credential = "")) by done.
  cbn [app]. rewrite !elem_of_cons. right. left. done.
Qed.

Lemma failure_credential order (ip credential : string) (now : Z) (m : entries) (s : loginLimitState) :
  TrimSpace credential <> "" -> (size m <= loginStateMaxEntries)%nat ->
  m !! credentialBucket credential = Some s -> timeIsZero (lastFailure s) = false ->
  timeSub now (lastFailure s) <= loginStateTTL ->
  let '(m', wait) := failure order ip credential now m in
  (exists s', m' !! credentialBucket credential = Some s' /\
     failures s' = i64 (failures s + 1) /\ lastFailure s' = now) /\
  loginBackoff (i64 (failures s + 1)) <= wait /\ (size m' <= size m + 3)%nat.
Proof.
  intros Hc Hsz Hs Hz Httl. unfold failure.
  pose proof (failKeys_spec now (bucketKeys ip credential) (pruneLocked order now m) 0
    (bucketKeys_nodup ip credential)) as H.
  destruct (failKeys _ _ _ _) as [m' w]. destruct H as (Hl & Hw & Hd & _ & Hsize).
  pose proof (credentialBucket_in ip credential Hc) as Hin.
  assert (Hst : bucketState (pruneLocked order now m) (credentialBucket credential) = s).
  { unfold bucketState. rewrite (prune_keeps order now m _ s Hsz Hs); [done|].
    unfold stateStale. destruct (Z.ltb_spec loginStateTTL (timeSub now (lastFailure s))); [lia|].
    by rewrite andb_false_r. }
  assert (Hfb : failures (failBucket now s).1 = i64 (failures s + 1) /\
    (failBucket now s).2 = loginBackoff (i64 (failures s + 1))).
  { unfold failBucket. rewrite Hz. destruct (Z.ltb_spec loginStateTTL (timeSub now (lastFailure s))); [lia|]. done. }
  split; [|split].
  - exists (failBucket now s).1. rewrite Hl, bool_decide_eq_true_2, Hst by done. split; [done|]. split; [apply Hfb|done].
  - specialize (Hd _ Hin). rewrite Hst in Hd. destruct Hfb as [_ Hfb]. rewrite Hfb in Hd. lia.
  - pose proof (bucketKeys_length ip credential). pose proof (prune_small order now m Hsz) as Hp.
    rewrite Hp in Hsize. pose proof (map_subseteq_size _ _ (map_filter_subseteq
      (fun kv : string * loginLimitState => stateStale now kv.2 = false) m)). lia.
Qed.

Lemma failMany_spec order (credential : string) (attempts : list (string * Z)) (m : entries) (w : Z)
  (s : loginLimitState) :
  TrimSpace credential <> "" -> (size m + 3 * length attempts <= loginStateMaxEntries)%nat ->
  m !! credentialBucket credential = Some s -> timeIsZero (lastFailure s) = false ->
  0 <= failures s -> failures s + Z.of_nat (length attempts) <= maxInt ->
  loginBackoff (failures s) <= w -> withinTTL (lastFailure s) attempts ->
  loginBackoff (failures s + Z.of_nat (length attempts)) <= (failMany order credential attempts m w).2.
Proof.
  intros Hc. revert m w s. induction attempts as [|[ip now] attempts IH]; intros m w s Hsz Hs Hz Hpos Hmax Hw Httl.
  { simpl. by rewrite Z.add_0_r. }
  cbn [length] in *. destruct Httl as (Hnz & Hle & Hrest).
  cbn [failMany].
  pose proof (failure_credential order ip credential now m s Hc ltac:(lia) Hs Hz Hle) as H.
  destruct (failure order ip credential now m) as [m' w']. destruct H as ((s' & Hs' & Hf' & Hl') & Hw' & Hsz').
  rewrite i64_small in Hf', Hw' by (unfold minInt, maxInt in *; lia).
  replace (failures s + Z.of_nat (S (length attempts))) with (failures s' + Z.of_nat (length attempts)) by lia.
  apply IH; try done; try lia.
  - by rewrite Hl'.
  - by rewrite Hf'.
  - by rewrite Hl'.
Qed.

(** Changing the source address does not evade the backoff: however the
    addresses are chosen, the n-th consecutive failure with one credential is
    answered with at least the penalty of n failures, as long as the attempts
    follow each other within the time failures are remembered and the table is
    within its bound. *)
Theorem rotation_does_not_evade order (credential ip : string) (now : Z) (attempts : list (string * Z)) (m : entries) :
  TrimSpace credential <> "" -> m !! credentialBucket credential = None ->
  (size m + 3 * S (length attempts) <= loginStateMaxEntries)%nat ->
  timeIsZero now = false -> withinTTL now attempts ->
  loginBackoff (Z.of_nat (S (length attempts))) <= (failMany order credential ((ip, now) :: attempts) m 0).2.
Proof.
  intros Hc Hnone Hsz Hz Httl. cbn [failMany]. unfold failure.
  pose proof (failKeys_spec now (bucketKeys ip credential) (pruneLocked order now m) 0
    (bucketKeys_nodup ip credential)) as H.
  destruct (failKeys _ _ _ _) as [m1 w1]. destruct H as (Hl & Hw & Hd & _ & Hsize).
  pose proof (credentialBucket_in ip credential Hc) as Hin.
  assert (Hp : pruneLocked order now m = filter (fun kv => stateStale now kv.2 = false) m) by (apply prune_small; lia).
  assert (Hst : bucketState (pruneLocked order now m) (credentialBucket credential) = zeroLimitState).
  { unfold bucketState. rewrite Hp. assert (filter (fun kv => stateStale now kv.2 = false) m
      !! credentialBucket credential = None) as ->; [|done]. apply map_lookup_filter_None. by left. }
  assert (Hs : m1 !! credentialBucket credential = Some (failBucket now zeroLimitState).1).
  { by rewrite Hl, bool_decide_eq_true_2, Hst. }
  assert (Hf : failures (failBucket now zeroLimitState).1 = 1) by done.
  assert (Hlen : Z.of_nat (S (length attempts)) = failures (failBucket now zeroLimitState).1 + Z.of_nat (length attempts)).
  { rewrite Hf. lia. }
  rewrite Hlen. pose proof (bucketKeys_length ip credential).
  pose proof (map_subseteq_size _ _ (map_filter_subseteq
      (fun kv : string * loginLimitState => stateStale now kv.2 = false) m)). rewrite Hp in Hsize.
  assert (Hbig : Z.of_nat loginStateMaxEntries = 4096) by (vm_compute; reflexivity).
  apply failMany_spec; try done; try lia.
  rewrite Hf. unfold maxInt. lia.
Qed.

Definition goOrder (_ : nat) (m : entries) : list (string * loginLimitState) := map_to_list m.

Lemma goOrder_ok : mapOrder goOrder.
Proof. intros i m. done. Qed.

(** Four wrong passwords from four addresses, a second apart. *)
Definition rotationDemo : list (string * Z) :=
  [("10.0.0.2", 2 * second); ("10.0.0.3", 3 * second); ("10.0.0.4", 4 * second)].

Lemma rotation_does_not_evade_witness :
  2 * second <= (failMany goOrder "guess" (("10.0.0.1", second) :: rotationDemo) ∅ 0).2.
Proof.
  change (2 * second) with (loginBackoff (Z.of_nat (S (length rotationDemo)))).
  apply (rotation_does_not_evade goOrder "guess" "10.0.0.1" second rotationDemo ∅);
    [discriminate|reflexivity|apply Nat.leb_le; vm_compute; reflexivity|reflexivity|].
  repeat split; vm_compute; discriminate.
Defined.

Definition limiterDemo : entries := (failMany goOrder "guess" (("10.0.0.1", second) :: rotationDemo) ∅ 0).1.

Lemma failure_enforced_witness :
  4 * second <= (check goOrder "10.0.0.5" "guess" (5 * second)
    (failure goOrder "10.0.0.5" "guess" (5 * second) limiterDemo).1).2.
Proof.
  apply (failure_enforced goOrder "10.0.0.5" "guess" (5 * second) (5 * second) limiterDemo
    (failure goOrder "10.0.0.5" "guess" (5 * second) limiterDemo).1 (4 * second)).
  - rewrite (surjective_pairing (failure goOrder "10.0.0.5" "guess" (5 * second) limiterDemo)) at 1.
    apply (f_equal (pair _)). vm_compute. reflexivity.
  - apply Nat.leb_le. vm_compute. reflexivity.
  - vm_compute. split; [discriminate|reflexivity].
Defined.

Lemma success_clears_witness :
  (check goOrder "10.0.0.4" "guess" (4 * second) (success "10.0.0.4" "guess" limiterDemo)).2 = 0.
Proof.
  refine (proj1 (success_clears goOrder "10.0.0.4" "guess" (4 * second) limiterDemo _ goOrder_ok)).
  vm_compute. reflexivity.
Defined.

Lemma limiter_bounded_witness : (size (pruneLocked goOrder 0 limiterDemo) <= loginStateMaxEntries)%nat.
Proof.
  refine (proj1 (limiter_bounded goOrder "10.0.0.4" "guess" 0 limiterDemo goOrder_ok _)).
  vm_compute. reflexivity.
Defined.
