(* ===== verification/Credentials.v ===== *)
(** Credentials of the configuration: [internal/config/credentials.go], the key and
    account parts of [NormalizeCredentials] ([config.go]), and the updates of one
    account in [store.go] ([SetAccountDisabled], [SetAccountCooldown],
    [ClearAccountCooldown]) through [Store.Update].

    Client keys are kept twice, as plain strings ([keys]) and with metadata
    ([api_keys]); an administrator may edit either list.  [Cfg] is the part of
    [Config] these functions touch; a nil slice is the empty list. *)
From S2P Require Import Prelude GoString Config Affinity Pool.
From Stdlib Require Import Ascii.
Local Open Scope Z_scope.

Record APIKey := { Key : string; KeyName : string; KeyRemark : string }.

#[global] Instance APIKey_eq_dec : EqDecision APIKey.
Proof. solve_decision. Defined.

Record Cfg := { Keys : list string; APIKeys : list APIKey; CfgAccounts : list Account }.

(** ** Key lists (credentials.go) *)

(** The loops keep the first occurrence of every trimmed, non-empty key; [seen]
    holds the keys met so far. *)
Fixpoint normalizeKeysFrom (seen : gset string) (keys : list string) : list string :=
  match keys with
  | [] => []
  | key :: keys =>
      let key := TrimSpace key in
      if bool_decide (key = "") || bool_decide (key ∈ seen) then normalizeKeysFrom seen keys
      else key :: normalizeKeysFrom ({[key]} ∪ seen) keys
  end.

Definition normalizeKeys (keys : list string) : list string := normalizeKeysFrom ∅ keys.

Definition trimAPIKey (key : string) (item : APIKey) : APIKey :=
  {| Key := key; KeyName := TrimSpace (KeyName item); KeyRemark := TrimSpace (KeyRemark item) |}.

Fixpoint normalizeAPIKeysFrom (seen : gset string) (items : list APIKey) : list APIKey :=
  match items with
  | [] => []
  | item :: items =>
      let key := TrimSpace (Key item) in
      if bool_decide (key = "") || bool_decide (key ∈ seen) then normalizeAPIKeysFrom seen items
      else trimAPIKey key item :: normalizeAPIKeysFrom ({[key]} ∪ seen) items
  end.

Definition normalizeAPIKeys (items : list APIKey) : list APIKey := normalizeAPIKeysFrom ∅ items.

Fixpoint apiKeysFromStringsFrom (seen : gset string) (keys : list string) (meta : gmap string APIKey)
  : list APIKey :=
  match keys with
  | [] => []
  | key :: keys =>
      let key := TrimSpace key in
      if bool_decide (key = "") || bool_decide (key ∈ seen) then apiKeysFromStringsFrom seen keys meta
      else
        let item := match meta !! key with
                    | Some item => trimAPIKey key item
                    | None => {| Key := key; KeyName := ""; KeyRemark := "" |}
                    end in
        item :: apiKeysFromStringsFrom ({[key]} ∪ seen) keys meta
  end.

Definition apiKeysFromStrings (keys : list string) (meta : gmap string APIKey) : list APIKey :=
  apiKeysFromStringsFrom ∅ keys meta.

Fixpoint apiKeysToStrings (items : list APIKey) : list string :=
  match items with
  | [] => []
  | item :: items =>
      let key := TrimSpace (Key item) in
      if bool_decide (key = "") then apiKeysToStrings items else key :: apiKeysToStrings items
  end.

(** The first item of a key wins. *)
Fixpoint apiKeyMapFrom (out : gmap string APIKey) (items : list APIKey) : gmap string APIKey :=
  match items with
  | [] => out
  | item :: items =>
      let key := TrimSpace (Key item) in
      if bool_decide (key = "") then apiKeyMapFrom out items
      else match out !! key with
           | Some _ => apiKeyMapFrom out items
           | None => apiKeyMapFrom (<[key := trimAPIKey key item]> out) items
           end
  end.

Definition apiKeyMap (items : list APIKey) : gmap string APIKey := apiKeyMapFrom ∅ items.

Fixpoint equalAPIKeys (a b : list APIKey) : bool :=
  match a, b with
  | [], [] => true
  | x :: a, y :: b =>
      bool_decide (TrimSpace (Key x) = TrimSpace (Key y)) &&
      bool_decide (TrimSpace (KeyName x) = TrimSpace (KeyName y)) &&
      bool_decide (TrimSpace (KeyRemark x) = TrimSpace (KeyRemark y)) && equalAPIKeys a b
  | _, _ => false
  end.

Definition ReconcileCredentials (base c : Cfg) : Cfg :=
  let currKeys := normalizeKeys (Keys c) in
  let currAPIKeys := normalizeAPIKeys (APIKeys c) in
  let baseKeys := normalizeKeys (Keys base) in
  let baseAPIKeys := normalizeAPIKeys (APIKeys base) in
  let keysChanged := negb (bool_decide (currKeys = baseKeys)) in
  let apiKeysChanged := negb (equalAPIKeys currAPIKeys baseAPIKeys) in
  let apiKeys := if keysChanged && negb apiKeysChanged
                 then apiKeysFromStrings currKeys (apiKeyMap baseAPIKeys)
                 else currAPIKeys in
  {| Keys := apiKeysToStrings apiKeys; APIKeys := apiKeys; CfgAccounts := CfgAccounts c |}.

(** ** [NormalizeCredentials]: keys, then accounts *)

Definition normalizeCfgKeys (c : Cfg) : Cfg :=
  let normalized := normalizeAPIKeys (APIKeys c) in
  match normalized with
  | _ :: _ => {| Keys := apiKeysToStrings normalized; APIKeys := normalized; CfgAccounts := CfgAccounts c |}
  | [] =>
      let keys := normalizeKeys (Keys c) in
      {| Keys := keys; APIKeys := apiKeysFromStrings keys ∅; CfgAccounts := CfgAccounts c |}
  end.

(** One account, at the second [nowUnix]. *)
Definition normalizeCfgAccount (nowUnix : Z) (a : Account) : Account :=
  let a := NormalizeAccountIdentity a in
  let '(state, until) := normalizeAccountCooldown nowUnix (CooldownState a) (CooldownUntilUnix a) in
  {| Name := TrimSpace (Name a); Remark := TrimSpace (Remark a); Email := Email a; Mobile := Mobile a;
     Password := Password a; Token := Token a; ProxyID := ProxyID a; ProxyAutoRoute := ProxyAutoRoute a;
     Disabled := Disabled a; DisabledReason := DisabledReason a; DisabledAtUnix := DisabledAtUnix a;
     CooldownState := state; CooldownUntilUnix := until |}.

Definition NormalizeCredentials (nowUnix : Z) (c : Cfg) : Cfg :=
  let c := normalizeCfgKeys c in
  {| Keys := Keys c; APIKeys := APIKeys c; CfgAccounts := normalizeCfgAccount nowUnix <$> CfgAccounts c |}.

Definition DropInvalidAccounts (c : Cfg) : Cfg :=
  {| Keys := Keys c; APIKeys := APIKeys c;
     CfgAccounts := filter (fun a => Identifier a <> "") (CfgAccounts c) |}.

Definition ClearAccountTokens (c : Cfg) : Cfg :=
  {| Keys := Keys c; APIKeys := APIKeys c; CfgAccounts := (fun a => withToken a "") <$> CfgAccounts c |}.

(** ** [Store.Update] and the updates of one account *)

(** [None] is the mutator's error; the writes to disk and to SQLite are I/O. *)
Definition Update (nowUnix : Z) (mutator : Cfg -> option Cfg) (base : Cfg) : option Cfg :=
  match mutator base with
  | None => None
  | Some c => Some (NormalizeCredentials nowUnix (ReconcileCredentials base c))
  end.

(** The mutators change the first account the name matches. *)
Fixpoint updateFirst (identifier : string) (f : Account -> Account) (accounts : list Account)
  : option (list Account) :=
  match accounts with
  | [] => None
  | acc :: rest =>
      if accountIdentifiersMatch acc identifier then Some (f acc :: rest)
      else cons acc <$> updateFirst identifier f rest
  end.

Definition updateAccount (identifier : string) (f : Account -> Account) (c : Cfg) : option Cfg :=
  (fun l => {| Keys := Keys c; APIKeys := APIKeys c; CfgAccounts := l |}) <$>
  updateFirst identifier f (CfgAccounts c).

Definition disableAccount (disabled : bool) (reason : string) (nowUnix : Z) (a : Account) : Account :=
  {| Name := Name a; Remark := Remark a; Email := Email a; Mobile := Mobile a; Password := Password a;
     Token := Token a; ProxyID := ProxyID a; ProxyAutoRoute := ProxyAutoRoute a; Disabled := disabled;
     DisabledReason := if disabled then TrimSpace reason else "";
     DisabledAtUnix := if disabled then nowUnix else 0;
     CooldownState := ""; CooldownUntilUnix := 0 |}.

Definition SetAccountDisabled (nowUnix : Z) (identifier : string) (disabled : bool) (reason : string)
  (base : Cfg) : option Cfg :=
  Update nowUnix (updateAccount (TrimSpace identifier) (disableAccount disabled reason nowUnix)) base.

Definition coolAccount (state : string) (untilUnix : Z) (a : Account) : Account :=
  {| Name := Name a; Remark := Remark a; Email := Email a; Mobile := Mobile a; Password := Password a;
     Token := Token a; ProxyID := ProxyID a; ProxyAutoRoute := ProxyAutoRoute a; Disabled := Disabled a;
     DisabledReason := DisabledReason a; DisabledAtUnix := DisabledAtUnix a;
     CooldownState := state; CooldownUntilUnix := untilUnix |}.

(** [current] is the account [FindAccount] returns. *)
Definition SetAccountCooldown (nowUnix : Z) (current : option Account) (identifier state : string)
  (until : Z) (base : Cfg) : option Cfg :=
  let identifier := TrimSpace identifier in
  let '(state, untilUnix) := normalizeAccountCooldown nowUnix state until in
  if bool_decide (identifier = "") then None
  else
    let same := match current with
                | Some a => bool_decide (CooldownState a = state) && (CooldownUntilUnix a =? untilUnix)
                | None => false
                end in
    if same then Some base
    else Update nowUnix (updateAccount identifier (coolAccount state untilUnix)) base.

Definition ClearAccountCooldown (nowUnix : Z) (current : option Account) (identifier : string)
  (base : Cfg) : option Cfg :=
  let identifier := TrimSpace identifier in
  if bool_decide (identifier = "") then None
  else
    let clear := match current with
                 | Some a => bool_decide (CooldownState a = "") && (CooldownUntilUnix a =? 0)
                 | None => false
                 end in
    if clear then Some base else SetAccountCooldown nowUnix current identifier "" (zeroTime / second) base.

(** ** Lemmas: key lists *)

Definition goodKey (k : string) : Prop := TrimSpace k = k /\ k <> "".

Lemma normalizeKeysFrom_spec (seen : gset string) (keys : list string) :
  NoDup (normalizeKeysFrom seen keys) /\ Forall goodKey (normalizeKeysFrom seen keys) /\
  forall k, k ∈ normalizeKeysFrom seen keys <->
    (exists raw, raw ∈ keys /\ TrimSpace raw = k) /\ k <> "" /\ (k ∉ seen).
Proof.
  revert seen. induction keys as [|raw keys IH]; intros seen; simpl.
  { split; [constructor|]. split; [constructor|]. intros k. split; [by intros ?%elem_of_nil|].
    by intros ((r & ?%elem_of_nil & _) & _). }
  case_bool_decide as He; simpl; [|case_bool_decide as Hs].
  - destruct (IH seen) as (Hnd & Hg & Hin). split; [done|]. split; [done|]. intros k. rewrite Hin.
    setoid_rewrite elem_of_cons. split; [intros ((r & ? & ?) & ?); eauto 6|].
    intros ((r & [->|Hr] & <-) & Hne & Hk); [done|eauto 6].
  - destruct (IH seen) as (Hnd & Hg & Hin). split; [done|]. split; [done|]. intros k. rewrite Hin.
    setoid_rewrite elem_of_cons. split; [intros ((r & ? & ?) & ?); eauto 6|].
    intros ((r & [->|Hr] & <-) & Hne & Hk); [done|eauto 6].
  - destruct (IH ({[TrimSpace raw]} ∪ seen)) as (Hnd & Hg & Hin).
    split; [|split].
    + apply NoDup_cons. split; [|done]. rewrite Hin. intros (_ & _ & Hk).
      apply Hk. apply elem_of_union_l. by apply elem_of_singleton.
    + constructor; [|done]. split; [apply TrimSpace_idem|done].
    + intros k. rewrite elem_of_cons, Hin, not_elem_of_union, not_elem_of_singleton.
      setoid_rewrite elem_of_cons. split.
      * intros [->|((r & ? & ?) & ? & ? & ?)]; [eauto 6|]. split; [|done]. exists r. auto.
      * intros ((r & Hr & Hrk) & Hne & Hk). destruct (decide (k = TrimSpace raw)) as [->|Hd]; [by left|].
        right. split; [|done]. destruct Hr as [->|Hr]; [congruence|]. eauto.
Qed.

Lemma normalizeKeysFrom_fix (seen : gset string) (keys : list string) :
  NoDup keys -> Forall goodKey keys -> (forall k, k ∈ keys -> k ∉ seen) -> normalizeKeysFrom seen keys = keys.
Proof.
  revert seen. induction keys as [|k keys IH]; intros seen Hnd Hg Hs; simpl; [done|].
  apply NoDup_cons in Hnd as [Hk Hnd]. apply Forall_cons in Hg as [[Ht Hne] Hg]. rewrite Ht.
  rewrite (bool_decide_eq_false_2 (k = "")) by done.
  rewrite bool_decide_eq_false_2 by (apply Hs, elem_of_cons; by left). simpl. f_equal. apply IH; [done..|].
  intros k' Hk'. rewrite not_elem_of_union, not_elem_of_singleton. split; [by intros ->|].
  apply Hs, elem_of_cons. by right.
Qed.

Lemma normalizeAPIKeysFrom_keys (seen : gset string) (items : list APIKey) :
  Key <$> normalizeAPIKeysFrom seen items = normalizeKeysFrom seen (Key <$> items).
Proof.
  revert seen. induction items as [|item items IH]; intros seen; simpl; [done|].
  destruct (_ || _); [done|]. simpl. by rewrite IH.
Qed.

Lemma apiKeysFromStringsFrom_keys (seen : gset string) (keys : list string) (meta : gmap string APIKey) :
  Key <$> apiKeysFromStringsFrom seen keys meta = normalizeKeysFrom seen keys.
Proof.
  revert seen. induction keys as [|k keys IH]; intros seen; simpl; [done|].
  destruct (_ || _); [done|]. simpl. rewrite IH. by destruct (meta !! TrimSpace k).
Qed.

Lemma apiKeysToStrings_keys (items : list APIKey) :
  Forall goodKey (Key <$> items) -> apiKeysToStrings items = Key <$> items.
Proof.
  induction items as [|item items IH]; simpl; [done|]. intros [[Ht Hne] Hg]%Forall_cons.
  rewrite Ht, bool_decide_eq_false_2 by done. by rewrite IH.
Qed.

Lemma normalizeAPIKeys_good (items : list APIKey) :
  NoDup (Key <$> normalizeAPIKeys items) /\ Forall goodKey (Key <$> normalizeAPIKeys items).
Proof. unfold normalizeAPIKeys. rewrite normalizeAPIKeysFrom_keys. split; apply normalizeKeysFrom_spec. Qed.

Lemma apiKeysFromStrings_good (keys : list string) (meta : gmap string APIKey) :
  NoDup (Key <$> apiKeysFromStrings keys meta) /\ Forall goodKey (Key <$> apiKeysFromStrings keys meta).
Proof. unfold apiKeysFromStrings. rewrite apiKeysFromStringsFrom_keys. split; apply normalizeKeysFrom_spec. Qed.

Lemma apiKeyMapFrom_spec (out : gmap string APIKey) (items : list APIKey) (k : string) (item : APIKey) :
  apiKeyMapFrom out items !! k = Some item ->
  out !! k = Some item \/ exists i, i ∈ items /\ TrimSpace (Key i) = k /\ item = trimAPIKey k i.
Proof.
  revert out. induction items as [|i items IH]; intros out; simpl; [by left|].
  assert (Hlift : (exists j, j ∈ items /\ TrimSpace (Key j) = k /\ item = trimAPIKey k j) ->
    exists j, j ∈ i :: items /\ TrimSpace (Key j) = k /\ item = trimAPIKey k j).
  { intros (j & ? & ?). exists j. rewrite elem_of_cons. auto. }
  case_bool_decide; [intros [?|?]%IH; auto|].
  destruct (out !! TrimSpace (Key i)) as [x|] eqn:E; [intros [?|?]%IH; auto|].
  intros [Ho|?]%IH; [|auto]. apply lookup_insert_Some in Ho as [[<- <-]|[_ ?]]; [|by left].
  right. exists i. rewrite elem_of_cons. auto.
Qed.

(** The items of distinct keys are found in the map. *)
Lemma apiKeyMapFrom_present (out : gmap string APIKey) (items : list APIKey) (i : APIKey) :
  NoDup (Key <$> items) -> Forall goodKey (Key <$> items) -> i ∈ items ->
  (forall j, j ∈ items -> out !! Key j = None) ->
  apiKeyMapFrom out items !! Key i = Some (trimAPIKey (Key i) i).
Proof.
  revert out. induction items as [|x items IH]; intros out Hnd Hg Hi Hout; simpl in *; [by apply elem_of_nil in Hi|].
  apply NoDup_cons in Hnd as [Hx Hnd]. apply Forall_cons in Hg as [[Ht Hne] Hg].
  rewrite Ht, bool_decide_eq_false_2 by done. rewrite Hout by (apply elem_of_cons; by left).
  assert (Hkeep : forall l o k v, o !! k = Some v -> apiKeyMapFrom o l !! k = Some v).
  { clear. induction l as [|y l IHl]; intros o k v Ho; simpl; [done|]. case_bool_decide; [auto|].
    destruct (o !! TrimSpace (Key y)) eqn:E; [auto|]. apply IHl. rewrite lookup_insert_ne; [done|].
    intros Heq. by rewrite Heq, Ho in E. }
  apply elem_of_cons in Hi as [->|Hi].
  - apply Hkeep. apply lookup_insert_eq.
  - apply IH; [done..|]. intros j Hj. rewrite lookup_insert_ne; [apply Hout, elem_of_cons; by right|].
    intros Heq. apply Hx. rewrite Heq. by apply list_elem_of_fmap_2.
Qed.

Lemma normalizeAPIKeysFrom_trimmed (seen : gset string) (items : list APIKey) (i : APIKey) :
  i ∈ normalizeAPIKeysFrom seen items -> trimAPIKey (Key i) i = i.
Proof.
  revert seen. induction items as [|x items IH]; intros seen; simpl; [by intros ?%elem_of_nil|].
  destruct (_ || _); [apply IH|]. intros [->|Hi]%elem_of_cons; [|by eapply IH].
  unfold trimAPIKey. simpl. by rewrite !TrimSpace_idem.
Qed.

Lemma apiKeysFromStringsFrom_meta (seen : gset string) (keys : list string) (meta : gmap string APIKey) (i : APIKey) :
  meta !! Key i = Some i -> trimAPIKey (Key i) i = i ->
  Key i ∈ normalizeKeysFrom seen keys -> i ∈ apiKeysFromStringsFrom seen keys meta.
Proof.
  intros Hm Ht. revert seen. induction keys as [|k keys IH]; intros seen; simpl; [by intros ?%elem_of_nil|].
  destruct (_ || _); [apply IH|]. rewrite !elem_of_cons. intros [Hk|Hk]; [|right; by apply IH].
  left. rewrite <- Hk, Hm. by symmetry.
Qed.

(** ** Properties *)

(** After an edit of the configuration the two key lists agree: the plain
    keys are exactly the keys of the entries with metadata, in order, trimmed,
    non-empty and without duplicates.  An edit of the plain list alone keeps
    exactly the keys it lists, and the name and remark of every key that stays;
    any edit of the list with metadata wins over the plain list. *)
Theorem reconcile_in_sync (base c : Cfg) :
  let r := ReconcileCredentials base c in
  Keys r = Key <$> APIKeys r /\ NoDup (Keys r) /\ Forall goodKey (Keys r) /\
  (if equalAPIKeys (normalizeAPIKeys (APIKeys c)) (normalizeAPIKeys (APIKeys base))
      && negb (bool_decide (normalizeKeys (Keys c) = normalizeKeys (Keys base)))
   then Keys r = normalizeKeys (Keys c) /\
        forall item, item ∈ normalizeAPIKeys (APIKeys base) -> Key item ∈ Keys r -> item ∈ APIKeys r
   else APIKeys r = normalizeAPIKeys (APIKeys c)).
Proof.
  intros r.
  assert (Hgood : NoDup (Key <$> APIKeys r) /\ Forall goodKey (Key <$> APIKeys r)).
  { unfold r, ReconcileCredentials. simpl. destruct (_ && _);
      [apply apiKeysFromStrings_good|apply normalizeAPIKeys_good]. }
  destruct Hgood as [Hnd Hg].
  assert (Hsync : Keys r = Key <$> APIKeys r) by (apply apiKeysToStrings_keys; exact Hg).
  rewrite Hsync. do 3 (split; [done|]).
  assert (Hr : APIKeys r = if negb (bool_decide (normalizeKeys (Keys c) = normalizeKeys (Keys base))) &&
    negb (negb (equalAPIKeys (normalizeAPIKeys (APIKeys c)) (normalizeAPIKeys (APIKeys base))))
    then apiKeysFromStrings (normalizeKeys (Keys c)) (apiKeyMap (normalizeAPIKeys (APIKeys base)))
    else normalizeAPIKeys (APIKeys c)) by done.
  rewrite negb_involutive, andb_comm in Hr. destruct (_ && _) eqn:E; [|done]. rewrite Hr in *.
  destruct (normalizeKeysFrom_spec ∅ (Keys c)) as (Hknd & Hkg & _). fold (normalizeKeys (Keys c)) in Hknd, Hkg.
  assert (Hk : Key <$> apiKeysFromStrings (normalizeKeys (Keys c)) (apiKeyMap (normalizeAPIKeys (APIKeys base)))
    = normalizeKeys (Keys c)).
  { unfold apiKeysFromStrings. rewrite apiKeysFromStringsFrom_keys. apply normalizeKeysFrom_fix; [done..|].
    intros k _. apply not_elem_of_empty. }
  split; [done|]. intros item Hi Hin. destruct (normalizeAPIKeys_good (APIKeys base)) as [Hbnd Hbg].
  pose proof (normalizeAPIKeysFrom_trimmed ∅ (APIKeys base) item Hi) as Ht.
  apply apiKeysFromStringsFrom_meta; [|done|].
  - unfold apiKeyMap. rewrite (apiKeyMapFrom_present ∅ (normalizeAPIKeys (APIKeys base)) item Hbnd Hbg Hi);
      [by rewrite Ht|]. intros j _. apply lookup_empty.
  - rewrite Hk in Hin. rewrite normalizeKeysFrom_fix; [done..|]. intros k _. apply not_elem_of_empty.
Qed.

Lemma digits_no_at (d : string) : allDigits d = true -> Index d "@" = None.
Proof.
  induction d as [|c d IH]; [done|]. cbn [allDigits]. intros [Hc Hd]%andb_true_iff.
  assert (HasPrefix (String c d) "@" = false) as Hp.
  { cbn [HasPrefix]. rewrite bool_decide_eq_false_2; [done|]. intros <-. done. }
  cbn [Index]. rewrite Hp. by rewrite (IH Hd).
Qed.

(** A stored mobile number: trimmed, stable and not taken for an e-mail address. *)
Lemma NormalizeMobile_stored (raw : string) :
  let m := NormalizeMobileForStorage raw in
  TrimSpace m = m /\ NormalizeMobileForStorage m = m /\ looksLikeEmailIdentifier m = false.
Proof.
  intros m.
  assert (Ht : TrimSpace m = m).
  { unfold m. destruct (NormalizeMobile_shape raw) as [->|(d & Hd & Hne & ->)]; [done|].
    destruct (allDigits_last d Hd Hne) as (p & c & -> & Hc).
    change ("+" +:+ (p +:+ String c "")) with (String "+"%char (p +:+ String c "")).
    apply TrimSpace_plain; [done|by apply isDigit_plain]. }
  split; [done|]. split; [apply NormalizeMobile_idem|].
  unfold looksLikeEmailIdentifier. rewrite Ht. unfold m, Contains.
  destruct (NormalizeMobile_shape raw) as [->|(d & Hd & Hne & ->)]; [done|].
  change ("+" +:+ d) with (String "+"%char d). cbn [Index].
  rewrite (digits_no_at d Hd). done.
Qed.

Lemma NormalizeAccountIdentity_idem (a : Account) :
  NormalizeAccountIdentity (NormalizeAccountIdentity a) = NormalizeAccountIdentity a.
Proof.
  unfold NormalizeAccountIdentity at 2 3.
  destruct (bool_decide (TrimSpace (Email a) = "") && looksLikeEmailIdentifier (TrimSpace (Mobile a))) eqn:E.
  - unfold NormalizeAccountIdentity. simpl. rewrite TrimSpace_idem, TrimSpace_empty.
    by rewrite andb_false_r.
  - destruct (NormalizeMobile_stored (TrimSpace (Mobile a))) as (Ht & Hs & He).
    unfold NormalizeAccountIdentity. simpl. rewrite TrimSpace_idem, Ht, Hs, He. by rewrite andb_false_r.
Qed.

Lemma Identifier_normalized (a : Account) : Identifier (NormalizeAccountIdentity a) = Identifier a.
Proof. unfold Identifier. by rewrite NormalizeAccountIdentity_idem. Qed.

Lemma Identifier_ext (a b : Account) : Email a = Email b -> Mobile a = Mobile b -> Identifier a = Identifier b.
Proof.
  intros He Hm. unfold Identifier, NormalizeAccountIdentity. rewrite He, Hm.
  by destruct (bool_decide (TrimSpace (Email b) = "") && looksLikeEmailIdentifier (TrimSpace (Mobile b)))%bool.
Qed.

Lemma cfgAccount_identity (nowUnix : Z) (a : Account) :
  Email (normalizeCfgAccount nowUnix a) = Email (NormalizeAccountIdentity a) /\
  Mobile (normalizeCfgAccount nowUnix a) = Mobile (NormalizeAccountIdentity a).
Proof. unfold normalizeCfgAccount. by destruct (normalizeAccountCooldown _ _ _). Qed.

Lemma Identifier_cfgAccount (nowUnix : Z) (a : Account) : Identifier (normalizeCfgAccount nowUnix a) = Identifier a.
Proof. rewrite <- (Identifier_normalized a). apply Identifier_ext; apply cfgAccount_identity. Qed.

Lemma NormalizeAccountIdentity_ext (a b : Account) :
  Email a = Email b -> Mobile a = Mobile b ->
  Email (NormalizeAccountIdentity a) = Email (NormalizeAccountIdentity b) /\
  Mobile (NormalizeAccountIdentity a) = Mobile (NormalizeAccountIdentity b).
Proof.
  intros He Hm. unfold NormalizeAccountIdentity. rewrite He, Hm.
  by destruct (bool_decide (TrimSpace (Email b) = "") && looksLikeEmailIdentifier (TrimSpace (Mobile b)))%bool.
Qed.

(** An account whose address and number are stored forms is left alone. *)
Lemma NormalizeAccountIdentity_id (b a : Account) :
  Email b = Email (NormalizeAccountIdentity a) -> Mobile b = Mobile (NormalizeAccountIdentity a) ->
  NormalizeAccountIdentity b = b.
Proof.
  intros He Hm. destruct (NormalizeAccountIdentity_ext b (NormalizeAccountIdentity a) He Hm) as [He' Hm'].
  rewrite NormalizeAccountIdentity_idem, <- He, <- Hm in *.
  assert (Hb : NormalizeAccountIdentity b =
    withIdentity b (Email (NormalizeAccountIdentity b)) (Mobile (NormalizeAccountIdentity b))).
  { unfold NormalizeAccountIdentity.
    by destruct (bool_decide (TrimSpace (Email b) = "") && looksLikeEmailIdentifier (TrimSpace (Mobile b)))%bool. }
  rewrite Hb, He', Hm'. by destruct b.
Qed.

Lemma normalizeAccountCooldown_idem (nowUnix : Z) (state : string) (until : Z) :
  let '(s, u) := normalizeAccountCooldown nowUnix state until in
  normalizeAccountCooldown nowUnix s u = (s, u).
Proof.
  unfold normalizeAccountCooldown at 1.
  destruct (negb _ && negb _) eqn:E; [done|]. destruct (Z.leb_spec until nowUnix); [done|].
  apply andb_false_iff in E as [E|E]; apply negb_false_iff, bool_decide_eq_true_1 in E; rewrite E;
    unfold normalizeAccountCooldown; simpl; destruct (Z.leb_spec until nowUnix); (lia || done).
Qed.

Lemma normalizeCfgAccount_idem (nowUnix : Z) (a : Account) :
  normalizeCfgAccount nowUnix (normalizeCfgAccount nowUnix a) = normalizeCfgAccount nowUnix a.
Proof.
  destruct (cfgAccount_identity nowUnix a) as [He Hm].
  unfold normalizeCfgAccount at 1. rewrite (NormalizeAccountIdentity_id _ a He Hm).
  unfold normalizeCfgAccount.
  pose proof (normalizeAccountCooldown_idem nowUnix (CooldownState (NormalizeAccountIdentity a))
    (CooldownUntilUnix (NormalizeAccountIdentity a))) as Hc.
  destruct (normalizeAccountCooldown _ _ _) as [s u]. cbn [CooldownState CooldownUntilUnix]. rewrite Hc.
  cbn [Name Remark Email Mobile Password Token ProxyID ProxyAutoRoute Disabled DisabledReason DisabledAtUnix].
  by rewrite !TrimSpace_idem.
Qed.

Lemma normalizeAPIKeysFrom_fix (seen : gset string) (items : list APIKey) :
  NoDup (Key <$> items) -> Forall goodKey (Key <$> items) ->
  (forall i, i ∈ items -> trimAPIKey (Key i) i = i /\ Key i ∉ seen) ->
  normalizeAPIKeysFrom seen items = items.
Proof.
  revert seen. induction items as [|i items IH]; intros seen Hnd Hg Hs; simpl in *; [done|].
  apply NoDup_cons in Hnd as [Hk Hnd]. apply Forall_cons in Hg as [[Ht Hne] Hg].
  destruct (Hs i) as [Hi Hseen]; [apply elem_of_cons; by left|]. rewrite Ht.
  rewrite (bool_decide_eq_false_2 (Key i = "")) by done.
  rewrite bool_decide_eq_false_2 by done. simpl. rewrite Hi. f_equal. apply IH; [done..|].
  intros j Hj. rewrite not_elem_of_union, not_elem_of_singleton.
  destruct (Hs j) as [? ?]; [apply elem_of_cons; by right|]. split; [done|]. split; [|done].
  intros Heq. apply Hk. rewrite <- Heq. by apply list_elem_of_fmap_2.
Qed.

Lemma apiKeysFromStringsFrom_plain (seen : gset string) (keys : list string) (i : APIKey) :
  i ∈ apiKeysFromStringsFrom seen keys ∅ -> trimAPIKey (Key i) i = i.
Proof.
  revert seen. induction keys as [|k keys IH]; intros seen; simpl; [by intros ?%elem_of_nil|].
  destruct (_ || _); [apply IH|]. rewrite lookup_empty. intros [->|Hi]%elem_of_cons; [done|]. by eapply IH.
Qed.

Lemma normalizeCfgKeys_idem (c : Cfg) : normalizeCfgKeys (normalizeCfgKeys c) = normalizeCfgKeys c.
Proof.
  assert (Hfix : forall items, NoDup (Key <$> items) -> Forall goodKey (Key <$> items) ->
    (forall i, i ∈ items -> trimAPIKey (Key i) i = i) -> normalizeAPIKeys items = items).
  { intros items Hnd Hg Ht. apply normalizeAPIKeysFrom_fix; [done..|]. intros i Hi.
    split; [by apply Ht|]. apply not_elem_of_empty. }
  destruct (normalizeAPIKeys_good (APIKeys c)) as [Hnd Hg].
  pose proof (normalizeAPIKeysFrom_trimmed ∅ (APIKeys c)) as Ht. fold (normalizeAPIKeys (APIKeys c)) in Ht.
  unfold normalizeCfgKeys at 2 3. destruct (normalizeAPIKeys (APIKeys c)) as [|x l] eqn:E.
  - destruct (apiKeysFromStrings_good (normalizeKeys (Keys c)) ∅) as [Hnd' Hg'].
    unfold normalizeCfgKeys. simpl. rewrite (Hfix (apiKeysFromStrings _ _)); [|done..|apply apiKeysFromStringsFrom_plain].
    destruct (normalizeKeysFrom_spec ∅ (Keys c)) as (Hknd & Hkg & _). fold (normalizeKeys (Keys c)) in Hknd, Hkg.
    assert (Hkk : normalizeKeys (normalizeKeys (Keys c)) = normalizeKeys (Keys c)).
    { apply normalizeKeysFrom_fix; [done..|]. intros k _. apply not_elem_of_empty. }
    assert (Hks : Key <$> apiKeysFromStrings (normalizeKeys (Keys c)) ∅ = normalizeKeys (Keys c)).
    { unfold apiKeysFromStrings. by rewrite apiKeysFromStringsFrom_keys. }
    rewrite Hkk. destruct (apiKeysFromStrings (normalizeKeys (Keys c)) ∅) as [|y r] eqn:E2; [done|].
    rewrite apiKeysToStrings_keys by done. by rewrite Hks.
  - unfold normalizeCfgKeys. cbn [APIKeys CfgAccounts]. rewrite (Hfix (x :: l)) by done. done.
Qed.

(** Normalising the configuration keeps every account's identifier, so a name
    denotes the same account before and after; doing it twice at one instant is
    the same as doing it once, and a stored cooldown is kept exactly when it is of
    a known kind and still in the future. *)
Theorem NormalizeCredentials_stable (nowUnix : Z) (c : Cfg) :
  let r := NormalizeCredentials nowUnix c in
  (Identifier <$> CfgAccounts r) = (Identifier <$> CfgAccounts c) /\
  NormalizeCredentials nowUnix r = r /\
  (forall i a, CfgAccounts c !! i = Some a -> exists a', CfgAccounts r !! i = Some a' /\
     (CooldownState a', CooldownUntilUnix a') =
       normalizeAccountCooldown nowUnix (CooldownState a) (CooldownUntilUnix a)).
Proof.
  intros r. split; [|split].
  - unfold r, NormalizeCredentials. cbn [CfgAccounts].
    assert (CfgAccounts (normalizeCfgKeys c) = CfgAccounts c) as ->
      by (unfold normalizeCfgKeys; by destruct (normalizeAPIKeys (APIKeys c))).
    rewrite <- list_fmap_compose. apply list_fmap_ext. intros i a _. apply Identifier_cfgAccount.
  - assert (Hk : normalizeCfgKeys r = r).
    { pose proof (normalizeCfgKeys_idem c) as H.
      assert (Hext : forall a b, Keys a = Keys b -> APIKeys a = APIKeys b ->
        normalizeCfgKeys a = {| Keys := Keys (normalizeCfgKeys b); APIKeys := APIKeys (normalizeCfgKeys b);
                                CfgAccounts := CfgAccounts a |}).
      { intros a b Ha Hb. unfold normalizeCfgKeys. rewrite Ha, Hb. by destruct (normalizeAPIKeys (APIKeys b)). }
      rewrite (Hext r (normalizeCfgKeys c)), H by done. done. }
    unfold NormalizeCredentials at 1. rewrite Hk. unfold r, NormalizeCredentials. cbn [Keys APIKeys CfgAccounts].
    f_equal. rewrite <- list_fmap_compose. apply list_fmap_ext. intros i a _. apply normalizeCfgAccount_idem.
  - intros i a Ha. exists (normalizeCfgAccount nowUnix a). unfold r, NormalizeCredentials. cbn [CfgAccounts].
    assert (CfgAccounts (normalizeCfgKeys c) = CfgAccounts c) as ->
      by (unfold normalizeCfgKeys; by destruct (normalizeAPIKeys (APIKeys c))).
    rewrite list_lookup_fmap, Ha. split; [done|]. unfold normalizeCfgAccount.
    assert (CooldownState (NormalizeAccountIdentity a) = CooldownState a /\
      CooldownUntilUnix (NormalizeAccountIdentity a) = CooldownUntilUnix a) as [-> ->].
    { unfold NormalizeAccountIdentity. by destruct (_ && _)%bool. }
    by destruct (normalizeAccountCooldown _ _ _).
Qed.

Lemma updateFirst_spec (identifier : string) (f : Account -> Account) (accounts : list Account) :
  match updateFirst identifier f accounts with
  | Some l' => exists l a r, accounts = l ++ a :: r /\ l' = l ++ f a :: r /\
      accountIdentifiersMatch a identifier = true /\
      forall b, b ∈ l -> accountIdentifiersMatch b identifier = false
  | None => forall b, b ∈ accounts -> accountIdentifiersMatch b identifier = false
  end.
Proof.
  induction accounts as [|x accounts IH]; simpl; [by intros b ?%elem_of_nil|].
  destruct (accountIdentifiersMatch x identifier) eqn:E.
  - exists [], x, accounts. do 3 (split; [done|]). by intros b ?%elem_of_nil.
  - destruct (updateFirst identifier f accounts) as [l'|]; simpl.
    + destruct IH as (l & a & r & -> & -> & Hm & Hl). exists (x :: l), a, r. do 3 (split; [done|]).
      intros b [->|?]%elem_of_cons; auto.
    + intros b [->|?]%elem_of_cons; auto.
Qed.

Lemma Update_accounts (nowUnix : Z) (mutator : Cfg -> option Cfg) (base : Cfg) :
  CfgAccounts <$> Update nowUnix mutator base =
  (fun c => normalizeCfgAccount nowUnix <$> CfgAccounts c) <$> mutator base.
Proof.
  unfold Update. destruct (mutator base) as [c|]; [|done]. simpl. unfold NormalizeCredentials. cbn [CfgAccounts].
  unfold normalizeCfgKeys. by destruct (normalizeAPIKeys _).
Qed.

(** Disabling or enabling an account by name changes the first account the
    name matches and no other one: it fails exactly when no account matches, it
    records the reason and the time when disabling and clears them when enabling,
    it clears the account's cooldown either way, and every account keeps its
    identifier. *)
Theorem SetAccountDisabled_first (nowUnix : Z) (identifier : string) (disabled : bool) (reason : string) (base : Cfg) :
  match SetAccountDisabled nowUnix identifier disabled reason base with
  | None => forall b, b ∈ CfgAccounts base -> accountIdentifiersMatch b (TrimSpace identifier) = false
  | Some c => exists l a r, CfgAccounts base = l ++ a :: r /\
      accountIdentifiersMatch a (TrimSpace identifier) = true /\
      (forall b, b ∈ l -> accountIdentifiersMatch b (TrimSpace identifier) = false) /\
      CfgAccounts c = (normalizeCfgAccount nowUnix <$> l) ++
        normalizeCfgAccount nowUnix (disableAccount disabled reason nowUnix a) ::
        (normalizeCfgAccount nowUnix <$> r) /\
      (Identifier <$> CfgAccounts c) = (Identifier <$> CfgAccounts base)
  end.
Proof.
  unfold SetAccountDisabled.
  pose proof (Update_accounts nowUnix (updateAccount (TrimSpace identifier)
    (disableAccount disabled reason nowUnix)) base) as H.
  pose proof (updateFirst_spec (TrimSpace identifier) (disableAccount disabled reason nowUnix) (CfgAccounts base)) as Hu.
  unfold updateAccount in H at 2.
  destruct (updateFirst _ _ _) as [l'|]; simpl in H.
  - destruct (Update _ _ _) as [c|]; [|done]. simpl in H. injection H as Hc.
    destruct Hu as (l & a & r & Hb & -> & Hm & Hl). exists l, a, r. do 3 (split; [done|]).
    rewrite Hc, fmap_app, fmap_cons. split; [done|].
    rewrite Hb, !fmap_app, !fmap_cons, <- !list_fmap_compose.
    assert (Hid : forall k : list Account, (Identifier ∘ normalizeCfgAccount nowUnix) <$> k = Identifier <$> k).
    { intros k. apply list_fmap_ext. intros ? ? _. apply Identifier_cfgAccount. }
    rewrite !Hid, Identifier_cfgAccount. f_equal. f_equal. by apply Identifier_ext.
  - destruct (Update _ _ _) as [c|]; [discriminate H|done].
Qed.

(** Two accounts of one person: one by mobile number, one by the mail address
    that the operator derives from the same number. *)
Definition twinCfg : Cfg := {|
  Keys := []; APIKeys := [];
  CfgAccounts := [withIdentity zeroAccount "" "13800138000";
                  withIdentity zeroAccount "13800138000@qq.com" ""] |}.

(** A name that is one account's exact e-mail address can disable another
    account: the digits of the address are compared with the mobile numbers, so a
    report that 13800138000@qq.com is banned disables the account with the
    mobile number 13800138000 when it comes first, and leaves the banned account
    enabled. *)
Theorem email_disables_mobile_account :
  Identifier <$> CfgAccounts twinCfg = ["+8613800138000"; "13800138000@qq.com"] /\
  exists c, SetAccountDisabled 5 "13800138000@qq.com" true "upstream_banned" twinCfg = Some c /\
    (Identifier <$> CfgAccounts c) = (Identifier <$> CfgAccounts twinCfg) /\
    (Disabled <$> CfgAccounts c) = [true; false].
Proof.
  split; [vm_compute; reflexivity|].
  assert (Hv : (fun c => (Identifier <$> CfgAccounts c, Disabled <$> CfgAccounts c)) <$>
      SetAccountDisabled 5 "13800138000@qq.com" true "upstream_banned" twinCfg =
    Some (["+8613800138000"; "13800138000@qq.com"], [true; false])) by (vm_compute; reflexivity).
  destruct (SetAccountDisabled 5 "13800138000@qq.com" true "upstream_banned" twinCfg) as [c|];
    [|discriminate Hv].
  exists c. split; [done|]. injection Hv as H1 H2. rewrite H1, H2. split; [|done]. vm_compute. reflexivity.
Qed.

Lemma parse_transient (h : HealthState) :
  isTransientHealth h = true ->
  parseCooldownState (healthStateName h) = Some h /\ ToLower (TrimSpace (healthStateName h)) = healthStateName h /\
  (healthStateName h = AccountCooldownRateLimited \/ healthStateName h = AccountCooldownTemporarilyMuted).
Proof. destruct h; try discriminate; intros _; (split; [reflexivity|split; [reflexivity|auto]]). Qed.

Lemma normalizeAccountCooldown_keeps (h : HealthState) (nowUnix untilUnix : Z) :
  isTransientHealth h = true -> nowUnix < untilUnix ->
  normalizeAccountCooldown nowUnix (healthStateName h) untilUnix = (healthStateName h, untilUnix).
Proof.
  intros Hh Hlt. destruct (parse_transient h Hh) as (_ & Hn & Hor). unfold normalizeAccountCooldown.
  rewrite Hn. destruct (Z.leb_spec untilUnix nowUnix); [lia|].
  destruct Hor as [->| ->]; reflexivity.
Qed.

(** A cooldown survives a restart: once it has been stored for an account,
    the pool that is rebuilt from the stored configuration at a later instant
    finds the same state with the same end, as long as that end has not passed,
    and nothing from then on. *)
Theorem cooldown_survives_restart (h : HealthState) (nowUnix untilUnix : Z) (identifier : string) (base c : Cfg) :
  isTransientHealth h = true -> nowUnix < untilUnix ->
  SetAccountCooldown nowUnix None identifier (healthStateName h) untilUnix base = Some c ->
  exists a a', a ∈ CfgAccounts base /\ accountIdentifiersMatch a (TrimSpace identifier) = true /\
    a' ∈ CfgAccounts c /\ Identifier a' = Identifier a /\
    forall t, persistedCooldownHealth a' t =
      if t <? untilUnix * second
      then Some {| State := h; Until := untilUnix * second; Reason := "restored persisted cooldown"; UpdatedAt := t |}
      else None.
Proof.
  intros Hh Hlt. unfold SetAccountCooldown. rewrite (normalizeAccountCooldown_keeps h) by done.
  case_bool_decide as Hid; [done|]. simpl. intros HU.
  pose proof (Update_accounts nowUnix (updateAccount (TrimSpace identifier)
    (coolAccount (healthStateName h) untilUnix)) base) as H.
  pose proof (updateFirst_spec (TrimSpace identifier) (coolAccount (healthStateName h) untilUnix) (CfgAccounts base)) as Hu.
  unfold updateAccount in H at 2. rewrite HU in H. destruct (updateFirst _ _ _) as [l'|]; simpl in H; [|done].
  injection H as Hc. destruct Hu as (l & a & r & Hb & -> & Hm & _).
  set (cooled := coolAccount (healthStateName h) untilUnix a).
  exists a, (normalizeCfgAccount nowUnix cooled).
  split; [rewrite Hb; apply elem_of_app; right; apply elem_of_cons; by left|]. split; [done|].
  split; [rewrite Hc, fmap_app, fmap_cons; apply elem_of_app; right; apply elem_of_cons; by left|].
  split; [rewrite Identifier_cfgAccount; by apply Identifier_ext|].
  assert (Hcd : CooldownState (normalizeCfgAccount nowUnix cooled) = healthStateName h /\
    CooldownUntilUnix (normalizeCfgAccount nowUnix cooled) = untilUnix).
  { unfold normalizeCfgAccount.
    assert (CooldownState (NormalizeAccountIdentity cooled) = healthStateName h /\
      CooldownUntilUnix (NormalizeAccountIdentity cooled) = untilUnix) as [-> ->].
    { unfold NormalizeAccountIdentity. by destruct (_ && _)%bool. }
    by rewrite (normalizeAccountCooldown_keeps h). }
  destruct Hcd as [Hs Hunt]. intros t. unfold persistedCooldownHealth, unixTime. rewrite Hs, Hunt.
  destruct (parse_transient h Hh) as [-> _]. by destruct (t <? untilUnix * second).
Qed.

Lemma cooldown_survives_restart_witness :
  exists c a', SetAccountCooldown 10 None "13800138000" "rate_limited" 70 twinCfg = Some c /\
    a' ∈ CfgAccounts c /\ persistedCooldownHealth a' (60 * second) <> None.
Proof.
  destruct (SetAccountCooldown 10 None "13800138000" "rate_limited" 70 twinCfg) as [c|] eqn:E;
    [|vm_compute in E; discriminate].
  destruct (cooldown_survives_restart HealthRateLimited 10 70 "13800138000" twinCfg c eq_refl ltac:(lia) E)
    as (a & a' & _ & _ & Hin & _ & Ht).
  exists c, a'. split; [reflexivity|]. split; [exact Hin|]. rewrite (Ht (60 * second)). discriminate.
Defined.
