(* ===== verification/Json.v ===== *)
(** Decoded JSON: the [any] values that [encoding/json] produces, with the type
    assertions and the integer conversion ([internal/util/helpers.go]) that the
    sources apply to them.

    A number is the exact rational value of its [float64]; an object is the list
    of its members, whose names are distinct in a decoded value. *)
From S2P Require Import Prelude.
Local Open Scope Z_scope.

Inductive json :=
| JNull
| JBool (b : bool)
| JNum (num : Z) (den : positive)
| JStr (s : string)
| JArr (items : list json)
| JObj (members : list (string * json)).

(** [m[k]] with its presence. *)
Fixpoint member (k : string) (m : list (string * json)) : option json :=
  match m with
  | [] => None
  | (k', v) :: m => if bool_decide (k = k') then Some v else member k m
  end.

(** [s, _ := v.(string)]: anything else reads as the empty string. *)
Definition asString (v : option json) : string :=
  match v with Some (JStr s) => s | _ => "" end.

(** [s, ok := v.(string)] *)
Definition isString (v : option json) : option string :=
  match v with Some (JStr s) => Some s | _ => None end.

(** [a, ok := v.([]any)] *)
Definition isArray (v : option json) : option (list json) :=
  match v with Some (JArr l) => Some l | _ => None end.

(** [m, ok := v.(map[string]any)] *)
Definition isObject (v : option json) : option (list (string * json)) :=
  match v with Some (JObj m) => Some m | _ => None end.

(** [IntFrom]: truncation of a number; a value outside [int64] converts to the
    least integer, as on the 64-bit targets. *)
Definition IntFrom (v : option json) : Z :=
  match v with
  | Some (JNum n d) =>
      let q := Z.quot n (Zpos d) in
      if (minInt <=? q) && (q <=? maxInt) then q else minInt
  | _ => 0
  end.
