(* ===== verification/Sse.v ===== *)
(** Upstream events: [internal/sse] ([parser.go], [line.go], [dedupe.go],
    [content_filter_leak.go], [consumer.go]) and the skip lists of
    [internal/deepseek/protocol/constants.go] with the embedded constants that
    replace them at start-up.

    A line of the upstream stream is decoded into typed content parts (thinking
    or text), a stop signal and the fragment type that the next line inherits;
    [CollectStream] folds a whole stream.  The JSON decoder and the rendering of
    an upstream error object are parameters.  The functions that write through
    pointers ([newType], [parts]) take the old values and return the new ones. *)
From S2P Require Import Prelude GoString Json.
From Stdlib Require Import Ascii.
Local Open Scope Z_scope.

Record ContentPart := { Text : string; Type_ : string }.

#[global] Instance ContentPart_eq_dec : EqDecision ContentPart.
Proof. solve_decision. Defined.

(** ** Paths *)

Definition defaultSkipContainsPatterns : list string :=
  ["quasi_status"; "elapsed_secs"; "token_usage"; "pending_fragment"; "conversation_mode";
   "fragments/-1/status"; "fragments/-2/status"; "fragments/-3/status"].

Definition defaultSkipExactPaths : list string := ["response/search_status"].

(** The lists of the embedded [constants_shared.json]. *)
Definition sharedSkipContainsPatterns : list string :=
  ["quasi_status"; "elapsed_secs"; "pending_fragment"; "conversation_mode";
   "fragments/-1/status"; "fragments/-2/status"; "fragments/-3/status"].

Definition sharedSkipExactPaths : list string := ["response/search_status"].

(** [applySharedConstants], which [init] runs: a non-empty list replaces the default. *)
Definition applyShared (defaults shared : list string) : list string :=
  match shared with [] => defaults | _ => shared end.

Definition SkipContainsPatterns : list string :=
  applyShared defaultSkipContainsPatterns sharedSkipContainsPatterns.

Definition SkipExactPathSet : list string := applyShared defaultSkipExactPaths sharedSkipExactPaths.

Fixpoint allDigitBytes (s : string) : bool :=
  match s with
  | EmptyString => true
  | String c s => isDigit c && allDigitBytes s
  end.

Definition isFragmentStatusPath (path : string) : bool :=
  if bool_decide (path = "") || bool_decide (path = "response/status") then false
  else if negb (HasPrefix path "response/fragments/") || negb (HasSuffix path "/status") then false
  else
    let mid := TrimSuffix (TrimPrefix path "response/fragments/") "/status" in
    if bool_decide (mid = "") then false
    else
      let mid := TrimPrefix mid "-" in
      if bool_decide (mid = "") then false else allDigitBytes mid.

Definition shouldSkipPath (path : string) : bool :=
  isFragmentStatusPath path || bool_decide (path ∈ SkipExactPathSet) ||
  existsb (Contains path) SkipContainsPatterns.

Definition isStatusPath (path : string) : bool :=
  bool_decide (path ∈ ["response/status"; "status"; "response/quasi_status"; "quasi_status"]).

(** ** The thinking tags *)

(** [\s] of the regular expression. *)
Definition reSpace (c : ascii) : bool :=
  bool_decide (c ∈ [" "; "009"; "010"; "012"; "013"]%char).

Fixpoint skipReSpace (s : string) : string :=
  match s with
  | String c s' => if reSpace c then skipReSpace s' else s
  | EmptyString => s
  end.

(** [think], letters in either case; the Kelvin sign folds to [k]. *)
Definition matchThink (s : string) : option string :=
  match s with
  | String c1 (String c2 (String c3 (String c4 rest))) =>
      if bool_decide (lower (String c1 (String c2 (String c3 (String c4 "")))) = "thin") then
        match rest with
        | String a r1 =>
            if bool_decide (lowerByte a = "k"%char) then Some r1
            else match r1 with
                 | String b (String c r3) =>
                     if (code a =? 0xE2)%N && (code b =? 0x84)%N && (code c =? 0xAA)%N then Some r3 else None
                 | _ => None
                 end
        | EmptyString => None
        end
      else None
  | _ => None
  end.

(** The rest after [\s*think\s*>]. *)
Definition matchThinkTail (s : string) : option string :=
  match matchThink (skipReSpace s) with
  | Some rest => match skipReSpace rest with
                 | String ">"%char r => Some r
                 | _ => None
                 end
  | None => None
  end.

(** A match of [(?i)</\s*think\s*>] at the start of the string: what follows it. *)
Definition matchClose (s : string) : option string :=
  match s with
  | String "<"%char (String "/"%char r) => matchThinkTail r
  | _ => None
  end.

(** The same for [(?i)<\s*think\s*>]. *)
Definition matchOpen (s : string) : option string :=
  match s with
  | String "<"%char r => matchThinkTail r
  | _ => None
  end.

(** [FindStringIndex]: the text before the leftmost match and the text after it. *)
Fixpoint findTag (pat : string -> option string) (s : string) : option (string * string) :=
  match pat s with
  | Some rest => Some ("", rest)
  | None => match s with
            | EmptyString => None
            | String c s => (fun ba => (String c ba.1, ba.2)) <$> findTag pat s
            end
  end.

(** [ReplaceAllString(s, "")]: one pass over the leftmost matches. *)
Fixpoint removeTags (fuel : nat) (pat : string -> option string) (s : string) : string :=
  match fuel with
  | O => s
  | S fuel => match findTag pat s with
              | Some (before, after) => before +:+ removeTags fuel pat after
              | None => s
              end
  end.

Definition ReplaceAll (pat : string -> option string) (s : string) : string :=
  removeTags (String.length s) pat s.

Definition stripThinkTags (s : string) : string := ReplaceAll matchOpen (ReplaceAll matchClose s).

(** The part is kept unless nothing is left of it. *)
Definition keepPart (text kind : string) (out : list ContentPart) : list ContentPart :=
  if bool_decide (text = "") then out else out ++ [{| Text := text; Type_ := kind |}].

Fixpoint splitThinkingFrom (thinkingDone : bool) (parts : list ContentPart) (out : list ContentPart)
  : list ContentPart * bool :=
  match parts with
  | [] => (out, thinkingDone)
  | p :: parts =>
      if thinkingDone && bool_decide (Type_ p = "thinking")
      then splitThinkingFrom thinkingDone parts (keepPart (stripThinkTags (Text p)) "text" out)
      else if negb (bool_decide (Type_ p = "thinking"))
      then splitThinkingFrom thinkingDone parts (keepPart (stripThinkTags (Text p)) (Type_ p) out)
      else match findTag matchClose (Text p) with
           | None => splitThinkingFrom thinkingDone parts (out ++ [p])
           | Some (before, after) =>
               splitThinkingFrom true parts
                 (keepPart (stripThinkTags after) "text" (keepPart before "thinking" out))
           end
  end.

Definition splitThinkingParts (parts : list ContentPart) : list ContentPart * bool :=
  splitThinkingFrom false parts [].

(** ** One chunk *)

Definition appendContentPart (parts : list ContentPart) (content kind : string) : list ContentPart :=
  if bool_decide (content = "") then parts else parts ++ [{| Text := content; Type_ := kind |}].

(** The upper-cased type name (returned twice by the code) and the content. *)
Definition parseFragmentTypeContent (m : list (string * json)) : string * string * string :=
  let typeName := asString (member "type" m) in
  let content := asString (member "content" m) in
  (ToUpper typeName, content, ToUpper typeName).

Definition isThinkType (t : string) : bool := bool_decide (t = "THINK") || bool_decide (t = "THINKING").

Definition updateTypeFromExplicitPath (path : string) (thinkingEnabled : bool) (newType : string) : string :=
  if bool_decide (path = "response/content") then "text"
  else if bool_decide (path = "response/thinking_content") then
    if negb thinkingEnabled || negb (bool_decide (newType = "text")) then "thinking" else newType
  else newType.

(** The loops over fragments of [collectDirectFragments] and
    [appendWrappedFragments], which differ in the type of an untyped fragment. *)
Fixpoint collectFragments (defaultType : string) (frags : list json) (st : string * list ContentPart)
  : string * list ContentPart :=
  match frags with
  | [] => st
  | frag :: frags =>
      let '(newType, parts) := st in
      match isObject (Some frag) with
      | None => collectFragments defaultType frags st
      | Some m =>
          let '(typeName, content, fragType) := parseFragmentTypeContent m in
          let typeName := if bool_decide (typeName = "") then fragType else typeName in
          if isThinkType typeName
          then collectFragments defaultType frags ("thinking", appendContentPart parts content "thinking")
          else if bool_decide (typeName = "RESPONSE")
          then collectFragments defaultType frags ("text", appendContentPart parts content "text")
          else collectFragments defaultType frags (newType, appendContentPart parts content defaultType)
      end
  end.

Definition collectDirectFragments (path : string) (chunk : list (string * json)) (v : json)
  (st : string * list ContentPart) : string * list ContentPart :=
  if negb (bool_decide (path = "response/fragments")) then st
  else if negb (EqualFold (asString (member "o" chunk)) "APPEND") then st
  else match isArray (Some v) with
       | None => st
       | Some frags => collectFragments "text" frags st
       end.

Fixpoint nestedFragmentTypes (frags : list json) (newType : string) : string :=
  match frags with
  | [] => newType
  | frag :: frags =>
      match isObject (Some frag) with
      | None => nestedFragmentTypes frags newType
      | Some fm =>
          let '(typeName, _, _) := parseFragmentTypeContent fm in
          nestedFragmentTypes frags
            (if isThinkType typeName then "thinking"
             else if bool_decide (typeName = "RESPONSE") then "text" else newType)
      end
  end.

Fixpoint nestedResponseTypes (items : list json) (newType : string) : string :=
  match items with
  | [] => newType
  | it :: items =>
      match isObject (Some it) with
      | None => nestedResponseTypes items newType
      | Some m =>
          if negb (bool_decide (isString (member "p" m) = Some "fragments"))
             || negb (bool_decide (isString (member "o" m) = Some "APPEND"))
          then nestedResponseTypes items newType
          else match isArray (member "v" m) with
               | None => nestedResponseTypes items newType
               | Some frags => nestedResponseTypes items (nestedFragmentTypes frags newType)
               end
      end
  end.

Definition updateTypeFromNestedResponse (path : string) (v : json) (newType : string) : string :=
  if negb (bool_decide (path = "response")) then newType
  else match isArray (Some v) with
       | None => newType
       | Some arr => nestedResponseTypes arr newType
       end.

Definition resolvePartType (path : string) (thinkingEnabled : bool) (newType : string) : string :=
  if bool_decide (path = "response/thinking_content") then
    if negb thinkingEnabled then "thinking"
    else if bool_decide (newType = "text") then "text" else "thinking"
  else if bool_decide (path = "response/content") then "text"
  else if Contains path "response/fragments" && Contains path "/content" then newType
  else if bool_decide (path = "") then (if bool_decide (newType = "") then "text" else newType)
  else "text".

Definition selectThinkingParts (parts : list ContentPart) : list ContentPart :=
  filter (fun p => Type_ p = "thinking") parts.

Definition dropThinkingParts (parts : list ContentPart) : list ContentPart :=
  filter (fun p => Type_ p <> "thinking") parts.

(** The type of an item or fragment by its type name. *)
Definition kindOf (typeName defaultType : string) : string :=
  let typeName := ToUpper typeName in
  if isThinkType typeName then "thinking"
  else if bool_decide (typeName = "RESPONSE") then "text" else defaultType.

Fixpoint extractInner (partType : string) (items : list json) (parts : list ContentPart) : list ContentPart :=
  match items with
  | [] => parts
  | JObj x :: items =>
      extractInner partType items
        (appendContentPart parts (asString (member "content" x)) (kindOf (asString (member "type" x)) partType))
  | JStr x :: items => extractInner partType items (appendContentPart parts x partType)
  | _ :: items => extractInner partType items parts
  end.

(** [None] is the finished signal, which drops the parts. *)
Fixpoint extractContentRecursive (items : list json) (defaultType : string) (parts : list ContentPart)
  : option (list ContentPart) :=
  match items with
  | [] => Some parts
  | it :: items =>
      match isObject (Some it) with
      | None => extractContentRecursive items defaultType parts
      | Some m =>
          let itemPath := asString (member "p" m) in
          match member "v" m with
          | None => extractContentRecursive items defaultType parts
          | Some itemV =>
              if isStatusPath itemPath then
                match itemV with
                | JStr s => if EqualFold (TrimSpace s) "FINISHED" then None
                            else extractContentRecursive items defaultType parts
                | _ => extractContentRecursive items defaultType parts
                end
              else if shouldSkipPath itemPath then extractContentRecursive items defaultType parts
              else if negb (bool_decide (asString (member "content" m) = "")) then
                extractContentRecursive items defaultType
                  (parts ++ [{| Text := asString (member "content" m);
                                Type_ := kindOf (asString (member "type" m)) defaultType |}])
              else
                let partType :=
                  if Contains itemPath "thinking" then "thinking"
                  else if Contains itemPath "content" || bool_decide (itemPath = "response")
                          || bool_decide (itemPath = "fragments") then "text"
                  else defaultType in
                extractContentRecursive items defaultType
                  (match itemV with
                   | JStr v => if negb (bool_decide (v = "")) && negb (bool_decide (v = "FINISHED"))
                               then parts ++ [{| Text := v; Type_ := partType |}] else parts
                   | JArr v => extractInner partType v parts
                   | _ => parts
                   end)
          end
      end
  end.

(** The text of an object, when the path asks for it. *)
Definition objectContentByPath (path : string) (val : list (string * json)) : option string :=
  if negb (bool_decide (path = "response/content")) && negb (bool_decide (path = "response/thinking_content"))
     && negb (bool_decide (path = "")) then None
  else
    let text := asString (member "text" val) in
    let text := if bool_decide (text = "") then asString (member "content" val) else text in
    if bool_decide (text = "") then None else Some text.

Definition appendWrappedFragments (val : list (string * json)) (partType : string)
  (st : string * list ContentPart) : string * list ContentPart :=
  let resp := match isObject (member "response" val) with Some wrapped => wrapped | None => val end in
  match isArray (member "fragments" resp) with
  | None => st
  | Some frags => collectFragments partType frags st
  end.

(** [None] is the finished signal. *)
Definition appendChunkValueContent (v : json) (partType : string) (path : string)
  (st : string * list ContentPart) : option (string * list ContentPart) :=
  let '(newType, parts) := st in
  match v with
  | JStr val =>
      if bool_decide (val = "FINISHED") && (bool_decide (path = "") || bool_decide (path = "status")) then None
      else if isStatusPath path then Some st
      else Some (newType, appendContentPart parts val partType)
  | JArr val =>
      match extractContentRecursive val partType [] with
      | None => None
      | Some pp => Some (newType, parts ++ pp)
      end
  | JObj val =>
      match objectContentByPath path val with
      | Some text => Some (newType, appendContentPart parts text partType)
      | None => Some (appendWrappedFragments val partType st)
      end
  | _ => Some st
  end.

(** The content of a chunk whose path is not skipped: parts, thinking parts for
    tool detection, finished, next type. *)
Definition chunkContent (chunk : list (string * json)) (v : json) (path : string) (thinkingEnabled : bool)
  (currentFragmentType : string) : list ContentPart * list ContentPart * bool * string :=
  let newType := updateTypeFromExplicitPath path thinkingEnabled currentFragmentType in
  let '(newType, parts) := collectDirectFragments path chunk v (newType, []) in
  let newType := updateTypeFromNestedResponse path v newType in
  let partType := resolvePartType path thinkingEnabled newType in
  match appendChunkValueContent v partType path (newType, parts) with
  | None => ([], [], true, newType)
  | Some (newType, parts) =>
      let '(parts, transitioned) := splitThinkingParts parts in
      let newType := if transitioned then "text" else newType in
      let detection := selectThinkingParts parts in
      let parts := if negb thinkingEnabled then dropThinkingParts parts else parts in
      (parts, detection, false, newType)
  end.

Definition ParseSSEChunkForContentDetailed (chunk : list (string * json)) (thinkingEnabled : bool)
  (currentFragmentType : string) : list ContentPart * list ContentPart * bool * string :=
  match member "v" chunk with
  | None => ([], [], false, currentFragmentType)
  | Some v =>
      let path := asString (member "p" chunk) in
      if shouldSkipPath path then ([], [], false, currentFragmentType)
      else if isStatusPath path then
        match v with
        | JStr s => ([], [], EqualFold (TrimSpace s) "FINISHED", currentFragmentType)
        | _ => chunkContent chunk v path thinkingEnabled currentFragmentType
        end
      else chunkContent chunk v path thinkingEnabled currentFragmentType
  end.

Definition ParseSSEChunkForContent (chunk : list (string * json)) (thinkingEnabled : bool)
  (currentFragmentType : string) : list ContentPart * bool * string :=
  let '(parts, _, finished, nextType) :=
    ParseSSEChunkForContentDetailed chunk thinkingEnabled currentFragmentType in
  (parts, finished, nextType).

Definition IsCitation (text : string) : bool := HasPrefix (TrimSpace text) "[citation:".

(** ** Content filter *)

Definition isFilterText (s : string) : bool := EqualFold (TrimSpace s) "content_filter".

Fixpoint hasContentFilterStatusValue (v : json) : bool :=
  match v with
  | JArr items => existsb hasContentFilterStatusValue items
  | JObj x =>
      (Contains (ToLower (asString (member "p" x))) "status" && isFilterText (asString (member "v" x)))
      || isFilterText (asString (member "code" x))
      || existsb (fun kv => match kv with (_, vv) => hasContentFilterStatusValue vv end) x
  | _ => false
  end.

Definition hasContentFilterStatus (chunk : list (string * json)) : bool :=
  isFilterText (asString (member "code" chunk)) || hasContentFilterStatusValue (JObj chunk).

(** [strings.TrimRight(s, " \t\r")] *)
Fixpoint trimBlankRev (s : string) : string :=
  match s with
  | String c s' => if bool_decide (c ∈ [" "; "009"; "013"]%char) then trimBlankRev s' else s
  | EmptyString => s
  end.

Definition trimRightBlank (s : string) : string := strRev (trimBlankRev (strRev s)).

(** [text[:idx]] with the index taken in the upper-cased text; [None] when the
    slice is out of range. *)
Definition stripLeakedContentFilterSuffix (text : string) : option (string * bool) :=
  if bool_decide (text = "") then Some (text, false)
  else match Index (ToUpper text) "CONTENT_FILTER" with
       | None => Some (text, false)
       | Some idx => if (idx <=? String.length text)%nat then Some (trimRightBlank (strTake idx text), true) else None
       end.

Definition newline : string := String "010" "".

Definition shouldDropCleanedLeakedChunk (cleaned : string) : bool :=
  if bool_decide (cleaned = "") then true
  else if Contains cleaned newline then false
  else bool_decide (TrimSpace cleaned = "").

Fixpoint filterLeakedContentFilterParts (parts : list ContentPart) : option (list ContentPart) :=
  match parts with
  | [] => Some []
  | p :: parts =>
      match stripLeakedContentFilterSuffix (Text p), filterLeakedContentFilterParts parts with
      | Some (cleaned, stripped), Some out =>
          if stripped && shouldDropCleanedLeakedChunk cleaned then Some out
          else if stripped then Some ({| Text := cleaned; Type_ := Type_ p |} :: out)
          else Some (p :: out)
      | _, _ => None
      end
  end.

(** ** Message ids *)

(** A positive id replaces the one observed so far. *)
Definition takeID (v : option json) (out : Z) : Z := if 0 <? IntFrom v then IntFrom v else out.

Definition observeResponseMessageID (chunk : list (string * json)) (out : Z) : Z :=
  let out := takeID (member "response_message_id" chunk) out in
  let out := match isObject (member "v" chunk) with
             | Some v => match isObject (member "response" v) with
                         | Some response => takeID (member "message_id" response) out
                         | None => out
                         end
             | None => out
             end in
  match isObject (member "message" chunk) with
  | Some message => match isObject (member "response" message) with
                    | Some response => takeID (member "message_id" response) out
                    | None => out
                    end
  | None => out
  end.

(** ** One line *)

Section Lines.
(** [json.Unmarshal] into a map, and [fmt.Sprintf] of the error object. *)
Variable Unmarshal : string -> option (list (string * json)).
Variable formatValue : json -> string.

(** Chunk, done, parsed. *)
Definition ParseDeepSeekSSELine (raw : string) : list (string * json) * bool * bool :=
  let line := TrimSpace raw in
  if bool_decide (line = "") || negb (HasPrefix line "data:") then ([], false, false)
  else
    let dataStr := TrimSpace (TrimPrefix line "data:") in
    if bool_decide (dataStr = "[DONE]") then ([], true, true)
    else match Unmarshal dataStr with
         | None => ([], false, false)
         | Some chunk => (chunk, false, true)
         end.

Record LineResult := {
  Parsed : bool;
  Stop : bool;
  ContentFilter : bool;
  ErrorMessage : string;
  Parts : list ContentPart;
  ToolDetectionThinkingParts : list ContentPart;
  NextType : string;
  ResponseMessageID : Z
}.

Definition lineStop (contentFilter : bool) (message currentType : string) : LineResult :=
  {| Parsed := true; Stop := true; ContentFilter := contentFilter; ErrorMessage := message; Parts := [];
     ToolDetectionThinkingParts := []; NextType := currentType; ResponseMessageID := 0 |}.

(** [None] is the run-time error of the out-of-range slice. *)
Definition ParseDeepSeekContentLine (raw : string) (thinkingEnabled : bool) (currentType : string)
  : option LineResult :=
  let '(chunk, done, parsed) := ParseDeepSeekSSELine raw in
  if negb parsed then
    Some {| Parsed := false; Stop := false; ContentFilter := false; ErrorMessage := ""; Parts := [];
            ToolDetectionThinkingParts := []; NextType := currentType; ResponseMessageID := 0 |}
  else if done then Some (lineStop false "" currentType)
  else match member "error" chunk with
  | Some errObj => Some (lineStop false (formatValue errObj) currentType)
  | None =>
      if bool_decide (asString (member "code" chunk) = "content_filter") then Some (lineStop true "" currentType)
      else if hasContentFilterStatus chunk then Some (lineStop true "" currentType)
      else
        let '(parts, detection, finished, nextType) :=
          ParseSSEChunkForContentDetailed chunk thinkingEnabled currentType in
        match filterLeakedContentFilterParts parts, filterLeakedContentFilterParts detection with
        | Some parts, Some detection =>
            Some {| Parsed := true; Stop := finished; ContentFilter := false; ErrorMessage := "";
                    Parts := parts; ToolDetectionThinkingParts := detection; NextType := nextType;
                    ResponseMessageID := observeResponseMessageID chunk 0 |}
        | _, _ => None
        end
  end.

(** ** Collecting a stream (consumer.go, dedupe.go) *)

Definition minContinuationSnapshotLen : nat := 32.

Definition TrimContinuationOverlap (existing incoming : string) : string :=
  if bool_decide (incoming = "") then ""
  else if bool_decide (existing = "") then incoming
  else if (minContinuationSnapshotLen <=? String.length incoming)%nat && HasPrefix incoming existing
  then strDrop (String.length existing) incoming
  else if (minContinuationSnapshotLen <=? String.length incoming)%nat && HasPrefix existing incoming
  then ""
  else incoming.

Definition grow (existing incoming : string) : string := existing +:+ TrimContinuationOverlap existing incoming.

(** The variables of [CollectStream], the citation collector apart. *)
Record Collect := {
  cText : string;
  cThinking : string;
  cDetection : string;
  cFilter : bool;
  cStopped : bool;
  cMessageID : Z;
  cType : string
}.

Definition startCollect (thinkingEnabled : bool) : Collect :=
  {| cText := ""; cThinking := ""; cDetection := ""; cFilter := false; cStopped := false; cMessageID := 0;
     cType := if thinkingEnabled then "thinking" else "text" |}.

(** Append the parts of a line to the two builders. *)
Fixpoint growParts (parts : list ContentPart) (text thinking : string) : string * string :=
  match parts with
  | [] => (text, thinking)
  | p :: parts =>
      if bool_decide (Type_ p = "thinking") then growParts parts text (grow thinking (Text p))
      else growParts parts (grow text (Text p)) thinking
  end.

(** One call of the line callback: the new state and whether to go on; [None] is
    a run-time error. *)
Definition collectLine (thinkingEnabled : bool) (line : string) (c : Collect) : option (Collect * bool) :=
  let '(chunk, done, parsed) := ParseDeepSeekSSELine line in
  let id := if parsed && negb done then observeResponseMessageID chunk (cMessageID c) else cMessageID c in
  let c := {| cText := cText c; cThinking := cThinking c; cDetection := cDetection c; cFilter := cFilter c;
              cStopped := cStopped c; cMessageID := id; cType := cType c |} in
  if done then Some (c, false)
  else if cStopped c then Some (c, true)
  else
    match ParseDeepSeekContentLine line thinkingEnabled (cType c) with
    | None => None
    | Some r =>
        if negb (Parsed r) then
          Some ({| cText := cText c; cThinking := cThinking c; cDetection := cDetection c; cFilter := cFilter c;
                   cStopped := false; cMessageID := id; cType := NextType r |}, true)
        else if Stop r then
          Some ({| cText := cText c; cThinking := cThinking c; cDetection := cDetection c;
                   cFilter := if ContentFilter r then true else cFilter c;
                   cStopped := true; cMessageID := id; cType := NextType r |}, true)
        else
          let '(text, thinking) := growParts (Parts r) (cText c) (cThinking c) in
          Some ({| cText := text; cThinking := thinking;
                   cDetection := fold_left (fun d p => grow d (Text p)) (ToolDetectionThinkingParts r) (cDetection c);
                   cFilter := cFilter c; cStopped := false; cMessageID := id; cType := NextType r |}, true)
    end.

(** [ScanSSELines] over the lines of the body. *)
Fixpoint collectLines (thinkingEnabled : bool) (lines : list string) (c : Collect) : option Collect :=
  match lines with
  | [] => Some c
  | line :: lines =>
      match collectLine thinkingEnabled line c with
      | None => None
      | Some (c, true) => collectLines thinkingEnabled lines c
      | Some (c, false) => Some c
      end
  end.

Definition CollectStream (thinkingEnabled : bool) (lines : list string) : option Collect :=
  collectLines thinkingEnabled lines (startCollect thinkingEnabled).
End Lines.

(** ** Lemmas: parts *)

Definition isThinking (p : ContentPart) : Prop := Type_ p = "thinking".

Lemma filterLeaked_types (parts out : list ContentPart) (P : string -> Prop) :
  filterLeakedContentFilterParts parts = Some out ->
  Forall (fun p => P (Type_ p)) parts -> Forall (fun p => P (Type_ p)) out.
Proof.
  revert out. induction parts as [|p parts IH]; intros out; simpl; [by intros [= <-]|].
  destruct (stripLeakedContentFilterSuffix (Text p)) as [[cleaned stripped]|]; [|done].
  destruct (filterLeakedContentFilterParts parts) as [rest|]; [|done].
  intros Ho [Hp Hps]%Forall_cons. specialize (IH rest eq_refl Hps).
  destruct stripped; simpl in Ho; [destruct (shouldDropCleanedLeakedChunk cleaned)|]; simplify_eq;
    try done; by constructor.
Qed.

Lemma chunkContent_facts chunk v path (thinkingEnabled : bool) ty :
  let '(parts, detection, fin, _) := chunkContent chunk v path thinkingEnabled ty in
  Forall isThinking detection /\ (thinkingEnabled = false -> Forall (fun p => ~ isThinking p) parts) /\
  (fin = true -> parts = [] /\ detection = []).
Proof.
  unfold chunkContent. destruct (collectDirectFragments _ _ _ _) as [nt ps].
  destruct (appendChunkValueContent _ _ _ _) as [[nt' ps']|]; [|done].
  destruct (splitThinkingParts ps') as [out tr]. split; [|split; [|done]].
  - apply Forall_forall. intros p Hp. unfold selectThinkingParts in Hp. by apply list_elem_of_filter in Hp as [? _].
  - intros ->. simpl. apply Forall_forall. intros p Hp. unfold dropThinkingParts in Hp.
    by apply list_elem_of_filter in Hp as [? _].
Qed.

(** Without thinking no thinking part is passed on; the parts for tool detection
    are thinking parts; a finished chunk has no parts. *)
Lemma chunk_facts (chunk : list (string * json)) (thinkingEnabled : bool) (ty : string) :
  let '(parts, detection, fin, _) := ParseSSEChunkForContentDetailed chunk thinkingEnabled ty in
  Forall isThinking detection /\ (thinkingEnabled = false -> Forall (fun p => ~ isThinking p) parts) /\
  (fin = true -> parts = [] /\ detection = []).
Proof.
  unfold ParseSSEChunkForContentDetailed.
  destruct (member "v" chunk) as [v|]; [|done]. destruct (shouldSkipPath _); [done|].
  destruct (isStatusPath _); [|apply chunkContent_facts]. destruct v; try apply chunkContent_facts. done.
Qed.

Section LineFacts.
Context (Unmarshal : string -> option (list (string * json))) (formatValue : json -> string).

Lemma line_types (raw : string) (thinkingEnabled : bool) (ty : string) (r : LineResult) :
  ParseDeepSeekContentLine Unmarshal formatValue raw thinkingEnabled ty = Some r ->
  Forall isThinking (ToolDetectionThinkingParts r) /\
  (thinkingEnabled = false -> Forall (fun p => ~ isThinking p) (Parts r)).
Proof.
  unfold ParseDeepSeekContentLine. destruct (ParseDeepSeekSSELine Unmarshal raw) as [[chunk done] parsed].
  destruct parsed; simpl; [|by intros [= <-]]. destruct done; [by intros [= <-]|].
  destruct (member "error" chunk); [by intros [= <-]|].
  case_bool_decide; [by intros [= <-]|]. destruct (hasContentFilterStatus chunk); [by intros [= <-]|].
  pose proof (chunk_facts chunk thinkingEnabled ty) as Ht.
  destruct (ParseSSEChunkForContentDetailed chunk thinkingEnabled ty) as [[[parts detection] fin] nt].
  destruct Ht as (Hd & Hp & _).
  destruct (filterLeakedContentFilterParts parts) as [parts'|] eqn:E1; [|done].
  destruct (filterLeakedContentFilterParts detection) as [detection'|] eqn:E2; [|done].
  intros [= <-]. simpl. split.
  - by apply (filterLeaked_types detection detection' (fun t => t = "thinking")).
  - intros Hth. by apply (filterLeaked_types parts parts' (fun t => t <> "thinking")); [|apply Hp].
Qed.

(** A line that stops carries no content. *)
Lemma line_stop_empty (raw : string) (thinkingEnabled : bool) (ty : string) (r : LineResult) :
  ParseDeepSeekContentLine Unmarshal formatValue raw thinkingEnabled ty = Some r ->
  Stop r = true -> Parts r = [] /\ ToolDetectionThinkingParts r = [].
Proof.
  unfold ParseDeepSeekContentLine. destruct (ParseDeepSeekSSELine Unmarshal raw) as [[chunk done] parsed].
  destruct parsed; simpl; [|by intros [= <-]]. destruct done; [by intros [= <-]|].
  destruct (member "error" chunk); [by intros [= <-]|].
  case_bool_decide; [by intros [= <-]|]. destruct (hasContentFilterStatus chunk); [by intros [= <-]|].
  pose proof (chunk_facts chunk thinkingEnabled ty) as Hfin.
  destruct (ParseSSEChunkForContentDetailed chunk thinkingEnabled ty) as [[[parts detection] fin] nt].
  destruct (filterLeakedContentFilterParts parts) as [parts'|] eqn:E1; [|done].
  destruct (filterLeakedContentFilterParts detection) as [detection'|] eqn:E2; [|done].
  intros [= <-]. simpl. intros ->. destruct Hfin as (_ & _ & Hfin). destruct (Hfin eq_refl) as [-> ->]. simpl in *. by simplify_eq.
Qed.
End LineFacts.

(** ** Lemmas: collecting *)

(** [b] continues [a]. *)
Definition extends (a b : string) : Prop := exists t, b = a +:+ t.

Lemma extends_refl a : extends a a.
Proof. exists "". by rewrite append_nil_r. Qed.

Lemma extends_trans a b c : extends a b -> extends b c -> extends a c.
Proof. intros [t ->] [u ->]. exists (t +:+ u). by rewrite append_assoc. Qed.

Lemma grow_extends existing incoming : extends existing (grow existing incoming).
Proof. by eexists. Qed.

#[export] Hint Resolve extends_refl grow_extends : gw.

Lemma growParts_extends (parts : list ContentPart) (text thinking : string) :
  extends text (growParts parts text thinking).1 /\ extends thinking (growParts parts text thinking).2.
Proof.
  revert text thinking. induction parts as [|p parts IH]; intros text thinking; simpl; [auto with gw|].
  case_bool_decide.
  - destruct (IH text (grow thinking (Text p))) as [H1 H2]. split; [done|].
    eapply extends_trans; [apply grow_extends|done].
  - destruct (IH (grow text (Text p)) thinking) as [H1 H2]. split; [|done].
    eapply extends_trans; [apply grow_extends|done].
Qed.

Lemma growParts_no_thinking (parts : list ContentPart) (text thinking : string) :
  Forall (fun p => ~ isThinking p) parts -> (growParts parts text thinking).2 = thinking.
Proof.
  intros H. revert text. induction H as [|p parts Hp H IH]; intros text; simpl; [done|].
  rewrite bool_decide_eq_false_2 by exact Hp. apply IH.
Qed.

Section CollectFacts.
Context (Unmarshal : string -> option (list (string * json))) (formatValue : json -> string).
Context (thinkingEnabled : bool).

(** The content of two states: text, thinking, detection text and filter flag. *)
Definition sameContent (c c' : Collect) : Prop :=
  cText c' = cText c /\ cThinking c' = cThinking c /\ cDetection c' = cDetection c /\ cFilter c' = cFilter c.

Lemma collectLine_facts (line : string) (c c' : Collect) (go : bool) :
  collectLine Unmarshal formatValue thinkingEnabled line c = Some (c', go) ->
  extends (cText c) (cText c') /\ extends (cThinking c) (cThinking c') /\
  (cStopped c = true -> sameContent c c' /\ cStopped c' = true) /\
  (thinkingEnabled = false -> cThinking c' = cThinking c).
Proof.
  unfold collectLine, sameContent.
  destruct (ParseDeepSeekSSELine Unmarshal line) as [[chunk done] parsed].
  destruct done; [intros [= <- <-]; simpl; split_and!; intros; split_and?; auto with gw; congruence|]. simpl.
  destruct (cStopped c) eqn:Es; [intros [= <- <-]; simpl; split_and!; intros; split_and?; auto with gw; congruence|].
  destruct (ParseDeepSeekContentLine Unmarshal formatValue line thinkingEnabled (cType c)) as [r|] eqn:E; [|done].
  destruct (line_types Unmarshal formatValue _ _ _ _ E) as [_ Hth].
  destruct (Parsed r); simpl; [|intros [= <- <-]; simpl; split_and!; intros; split_and?; auto with gw; congruence].
  destruct (Stop r); [intros [= <- <-]; simpl; split_and!; intros; split_and?; auto with gw; congruence|].
  pose proof (growParts_extends (Parts r) (cText c) (cThinking c)) as [H1 H2].
  pose proof (fun H => growParts_no_thinking (Parts r) (cText c) (cThinking c) (Hth H)) as H3.
  destruct (growParts (Parts r) (cText c) (cThinking c)) as [text thinking].
  intros [= <- <-]. simpl in *. split_and!; auto; congruence.
Qed.

Lemma collectLines_facts (lines : list string) (c c' : Collect) :
  collectLines Unmarshal formatValue thinkingEnabled lines c = Some c' ->
  extends (cText c) (cText c') /\ extends (cThinking c) (cThinking c') /\
  (cStopped c = true -> sameContent c c') /\ (thinkingEnabled = false -> cThinking c' = cThinking c).
Proof.
  revert c. induction lines as [|line lines IH]; intros c; simpl.
  { intros [= <-]. unfold sameContent. auto 12 with gw. }
  destruct (collectLine Unmarshal formatValue thinkingEnabled line c) as [[c1 go]|] eqn:E; [|done].
  destruct (collectLine_facts line c c1 go E) as (H1 & H2 & H3 & H4). destruct go.
  - intros Hc. destruct (IH c1 Hc) as (G1 & G2 & G3 & G4).
    split; [by eapply extends_trans|]. split; [by eapply extends_trans|]. split.
    + intros Hs. destruct (H3 Hs) as [(? & ? & ? & ?) Hs1]. destruct (G3 Hs1) as (? & ? & ? & ?).
      unfold sameContent. intuition congruence.
    + intros Hth. rewrite (G4 Hth). auto.
  - intros [= <-]. split; [done|]. split; [done|]. split; [|done]. intros Hs. by destruct (H3 Hs).
Qed.

Lemma collectLines_app (l1 l2 : list string) (c c2 : Collect) :
  collectLines Unmarshal formatValue thinkingEnabled (l1 ++ l2) c = Some c2 ->
  exists c1, collectLines Unmarshal formatValue thinkingEnabled l1 c = Some c1 /\
    (c2 = c1 \/ collectLines Unmarshal formatValue thinkingEnabled l2 c1 = Some c2).
Proof.
  revert c. induction l1 as [|line l1 IH]; intros c; simpl; [eauto|].
  destruct (collectLine Unmarshal formatValue thinkingEnabled line c) as [[c1 [|]]|]; [apply IH| |done].
  intros [= <-]. eauto.
Qed.
End CollectFacts.

(** ** Properties *)

(** Collecting an upstream stream only ever appends: what has been collected
    after some lines is a prefix of what is collected after more of them, for the
    answer and for the reasoning; and once a terminal line (finished, error or
    content filter) has been seen, later lines change neither text nor reasoning
    nor the filter flag. *)
Theorem collect_appends Unmarshal formatValue (thinkingEnabled : bool) (l1 l2 : list string) (c2 : Collect) :
  CollectStream Unmarshal formatValue thinkingEnabled (l1 ++ l2) = Some c2 ->
  exists c1, CollectStream Unmarshal formatValue thinkingEnabled l1 = Some c1 /\
    extends (cText c1) (cText c2) /\ extends (cThinking c1) (cThinking c2) /\
    (cStopped c1 = true -> sameContent c1 c2).
Proof.
  intros H. destruct (collectLines_app _ _ _ _ _ _ _ H) as (c1 & H1 & [->|H2]); exists c1; (split; [exact H1|]).
  - unfold sameContent. auto 12 with gw.
  - by destruct (collectLines_facts _ _ _ _ _ _ H2) as (? & ? & ? & _).
Qed.

(** When the client did not ask for reasoning none reaches it: no part of any
    line is a thinking part, whatever the upstream sends and whatever type the
    line inherits, and a collected stream has an empty reasoning text; the parts
    kept for tool detection are always the thinking ones. *)
Theorem thinking_hidden Unmarshal formatValue (lines : list string) (c : Collect) :
  CollectStream Unmarshal formatValue false lines = Some c ->
  cThinking c = "" /\
  forall raw ty r, ParseDeepSeekContentLine Unmarshal formatValue raw false ty = Some r ->
    Forall (fun p => Type_ p <> "thinking") (Parts r) /\
    Forall (fun p => Type_ p = "thinking") (ToolDetectionThinkingParts r).
Proof.
  intros H. split.
  - by destruct (collectLines_facts _ _ _ _ _ _ H) as (_ & _ & _ & ->).
  - intros raw ty r Hr. destruct (line_types _ _ _ _ _ _ Hr) as [? Hp]. auto.
Qed.

(** ** Lemmas: the closing tag *)

Lemma keepPart_app (text kind : string) (out : list ContentPart) :
  keepPart text kind out = out ++ keepPart text kind [].
Proof. unfold keepPart. case_bool_decide; [by rewrite app_nil_r|done]. Qed.

Lemma select_keep_other (text kind : string) :
  kind <> "thinking" -> selectThinkingParts (keepPart text kind []) = [].
Proof.
  intros Hk. unfold keepPart. case_bool_decide; [done|]. simpl. unfold selectThinkingParts.
  rewrite filter_cons_False by done. done.
Qed.

Lemma select_app (l1 l2 : list ContentPart) :
  selectThinkingParts (l1 ++ l2) = selectThinkingParts l1 ++ selectThinkingParts l2.
Proof. apply filter_app. Qed.

(** After the transition no thinking part is produced. *)
Lemma splitThinkingFrom_done (parts out : list ContentPart) :
  (splitThinkingFrom true parts out).2 = true /\
  selectThinkingParts (splitThinkingFrom true parts out).1 = selectThinkingParts out.
Proof.
  revert out. induction parts as [|p parts IH]; intros out; simpl; [done|].
  case_bool_decide as Hp; simpl.
  - destruct (IH (keepPart (stripThinkTags (Text p)) "text" out)) as [H1 H2]. split; [done|].
    rewrite H2, keepPart_app, select_app, select_keep_other by done. apply app_nil_r.
  - destruct (IH (keepPart (stripThinkTags (Text p)) (Type_ p) out)) as [H1 H2]. split; [done|].
    rewrite H2, keepPart_app, select_app, select_keep_other by done. apply app_nil_r.
Qed.

(** No thinking part of the list holds a closing tag. *)
Definition noCloseTag (parts : list ContentPart) : Prop :=
  forall p, p ∈ parts -> Type_ p = "thinking" -> findTag matchClose (Text p) = None.

Lemma splitThinkingFrom_spec (parts out : list ContentPart) :
  match splitThinkingFrom false parts out with
  | (res, false) => noCloseTag parts /\
      selectThinkingParts res = selectThinkingParts out ++ selectThinkingParts parts
  | (res, true) => exists ps1 p ps2 before after, parts = ps1 ++ p :: ps2 /\ noCloseTag ps1 /\
      Type_ p = "thinking" /\ findTag matchClose (Text p) = Some (before, after) /\
      selectThinkingParts res =
        selectThinkingParts out ++ selectThinkingParts ps1 ++ keepPart before "thinking" []
  end.
Proof.
  revert out. induction parts as [|p parts IH]; intros out; simpl.
  { split; [by intros p ?%elem_of_nil|]. by rewrite app_nil_r. }
  case_bool_decide as Hp; simpl.
  - destruct (findTag matchClose (Text p)) as [[before after]|] eqn:E.
    + set (out' := keepPart (stripThinkTags after) "text" (keepPart before "thinking" out)).
      destruct (splitThinkingFrom_done parts out') as [H1 H2].
      destruct (splitThinkingFrom true parts out') as [res d]. simpl in H1, H2. subst d.
      exists [], p, parts, before, after. split; [done|]. split; [by intros q ?%elem_of_nil|].
      split; [done|]. split; [done|]. rewrite H2. unfold out'.
      rewrite keepPart_app, select_app, select_keep_other, app_nil_r by done.
      rewrite keepPart_app, select_app. simpl. f_equal. unfold keepPart. by case_bool_decide.
    + specialize (IH (out ++ [p])). destruct (splitThinkingFrom false parts (out ++ [p])) as [res [|]].
      * destruct IH as (ps1 & q & ps2 & before & after & -> & Hno & Hq & Hf & Hs).
        exists (p :: ps1), q, ps2, before, after. split; [done|]. split.
        { intros x [->|Hx]%elem_of_cons Hth; auto. }
        split; [done|]. split; [done|]. rewrite Hs, select_app, <- !app_assoc.
        unfold selectThinkingParts at 2 5. rewrite !filter_cons_True by done. done.
      * destruct IH as [Hno Hs]. split.
        { intros x [->|Hx]%elem_of_cons Hth; auto. }
        rewrite Hs, select_app, <- !app_assoc. unfold selectThinkingParts at 2 5.
        rewrite !filter_cons_True by done. done.
  - specialize (IH (keepPart (stripThinkTags (Text p)) (Type_ p) out)).
    assert (Ho : selectThinkingParts (keepPart (stripThinkTags (Text p)) (Type_ p) out) = selectThinkingParts out).
    { rewrite keepPart_app, select_app, select_keep_other by done. apply app_nil_r. }
    destruct (splitThinkingFrom false parts _) as [res [|]].
    + destruct IH as (ps1 & q & ps2 & before & after & -> & Hno & Hq & Hf & Hs).
      exists (p :: ps1), q, ps2, before, after. split; [done|]. split.
      { intros x [->|Hx]%elem_of_cons Hth; [done|auto]. }
      split; [done|]. split; [done|]. rewrite Hs, Ho.
      unfold selectThinkingParts at 4. by rewrite filter_cons_False.
    + destruct IH as [Hno Hs]. split.
      { intros x [->|Hx]%elem_of_cons Hth; [done|auto]. }
      rewrite Hs, Ho. unfold selectThinkingParts at 4. by rewrite filter_cons_False.
Qed.

(** A closing think tag ends the reasoning for good: the reasoning that is
    passed on is exactly the reasoning before the first closing tag, whatever the
    upstream labels the rest; without such a tag every reasoning part is passed on
    unchanged.  The result also tells which of the two happened. *)
Theorem reasoning_ends_at_tag (parts : list ContentPart) :
  match splitThinkingParts parts with
  | (out, false) => noCloseTag parts /\ selectThinkingParts out = selectThinkingParts parts
  | (out, true) => exists ps1 p ps2 before after, parts = ps1 ++ p :: ps2 /\ noCloseTag ps1 /\
      Type_ p = "thinking" /\ findTag matchClose (Text p) = Some (before, after) /\
      selectThinkingParts out = selectThinkingParts ps1 ++ keepPart before "thinking" []
  end.
Proof. apply (splitThinkingFrom_spec parts []). Qed.

(** ** Lemmas: content filter *)

(** [v] occurs in [w]. *)
Inductive inside (v : json) : json -> Prop :=
| inside_self : inside v v
| inside_arr items x : x ∈ items -> inside v x -> inside v (JArr items)
| inside_obj members k x : (k, x) ∈ members -> inside v x -> inside v (JObj members).

Lemma filterStatus_inside (v w : json) :
  inside v w -> hasContentFilterStatusValue v = true -> hasContentFilterStatusValue w = true.
Proof.
  intros H Hv. induction H as [|items x Hx H IH|members k x Hx H IH]; [done| |]; simpl.
  - apply existsb_exists. exists x. split; [by apply list_elem_of_In|done].
  - apply orb_true_iff. right. apply existsb_exists. exists (k, x). split; [by apply list_elem_of_In|done].
Qed.

(** A content-filter verdict is never missed: when an object anywhere inside
    the chunk carries the code "content_filter" (in any case, with surrounding
    blanks), the line stops the stream with the filter flag and without content,
    unless the chunk reports an error, which stops it as well. *)
Theorem content_filter_stops Unmarshal formatValue (raw : string) (chunk m : list (string * json))
  (thinkingEnabled : bool) (ty : string) (r : LineResult) :
  ParseDeepSeekSSELine Unmarshal raw = (chunk, false, true) ->
  inside (JObj m) (JObj chunk) -> EqualFold (TrimSpace (asString (member "code" m))) "content_filter" = true ->
  ParseDeepSeekContentLine Unmarshal formatValue raw thinkingEnabled ty = Some r ->
  Stop r = true /\ Parts r = [] /\ ToolDetectionThinkingParts r = [] /\
  (member "error" chunk = None -> ContentFilter r = true).
Proof.
  intros Hl Hin Hcode Hr.
  assert (Hstat : hasContentFilterStatus chunk = true).
  { unfold hasContentFilterStatus. apply orb_true_iff. right. apply (filterStatus_inside (JObj m)); [done|].
    simpl. unfold isFilterText at 2. rewrite Hcode. by rewrite orb_true_r. }
  unfold ParseDeepSeekContentLine in Hr. rewrite Hl in Hr. simpl in Hr.
  destruct (member "error" chunk); [by simplify_eq|].
  case_bool_decide; [by simplify_eq|]. rewrite Hstat in Hr. by simplify_eq.
Qed.

(** ** Lemmas: the leaked marker *)

Fixpoint upperBytes (s : string) : string :=
  match s with
  | EmptyString => ""
  | String c s => String (upperByte c) (upperBytes s)
  end.

Lemma ToUpper_ascii (s : string) : asciiOnly s = true -> ToUpper s = upperBytes s.
Proof.
  induction s as [|a s IH]; [done|]. cbn [asciiOnly]. intros [Ha Hs]%andb_true_iff. apply N.ltb_lt in Ha.
  specialize (IH Hs). destruct s as [|b s].
  - done.
  - cbn [ToUpper]. cbn [ToUpper] in IH.
    destruct (N.eqb_spec (code a) 0xC4); [lia|]. destruct (N.eqb_spec (code a) 0xC5); [lia|].
    destruct (N.eqb_spec (code a) 0xC9); [lia|]. cbn [andb]. cbn [upperBytes]. by rewrite IH.
Qed.

Lemma upperBytes_drop (n : nat) (s : string) : strDrop n (upperBytes s) = upperBytes (strDrop n s).
Proof. revert s. induction n as [|n IH]; intros [|c s]; simpl; auto. Qed.

Lemma upperBytes_length (s : string) : String.length (upperBytes s) = String.length s.
Proof. induction s; simpl; auto. Qed.

Fixpoint allBlank (s : string) : bool :=
  match s with
  | EmptyString => true
  | String c s => bool_decide (c ∈ [" "; "009"; "013"]%char) && allBlank s
  end.

Lemma allBlank_app (s t : string) : allBlank (s +:+ t) = allBlank s && allBlank t.
Proof. induction s as [|c s IH]; [done|]. rewrite append_cons. cbn [allBlank]. rewrite IH. apply andb_assoc. Qed.

Lemma allBlank_rev (s : string) : allBlank (strRev s) = allBlank s.
Proof.
  induction s as [|c s IH]; [done|]. change (strRev (String c s)) with (revOnto s (String c "")).
  rewrite revOnto_app, allBlank_app, IH. cbn [allBlank]. by rewrite andb_true_r, andb_comm.
Qed.

Lemma trimBlankRev_spec (s : string) : exists b, s = b +:+ trimBlankRev s /\ allBlank b = true.
Proof.
  induction s as [|c s IH]; [by exists ""|]. cbn [trimBlankRev]. case_bool_decide as Hc.
  - destruct IH as (b & Hb & Hbl). exists (String c b). rewrite append_cons, <- Hb. split; [done|].
    cbn [allBlank]. by rewrite bool_decide_eq_true_2.
  - exists "". by split.
Qed.

Lemma trimRightBlank_spec (s : string) : exists b, s = trimRightBlank s +:+ b /\ allBlank b = true.
Proof.
  destruct (trimBlankRev_spec (strRev s)) as (b & Hb & Hbl). exists (strRev b). split.
  - unfold trimRightBlank. rewrite <- strRev_app, <- Hb. by rewrite strRev_involutive.
  - by rewrite allBlank_rev.
Qed.

(** On ASCII text the leaked marker is cut precisely: text without the marker
    is untouched, otherwise the text is kept up to the first occurrence of the
    marker in any case, less the blanks before it, and nothing else is lost. *)
Theorem leaked_marker_cut (text : string) :
  asciiOnly text = true ->
  match stripLeakedContentFilterSuffix text with
  | None => False
  | Some (cleaned, false) => cleaned = text /\ Index (upperBytes text) "CONTENT_FILTER" = None
  | Some (cleaned, true) => exists blanks leaked, text = cleaned +:+ blanks +:+ leaked /\
      allBlank blanks = true /\ HasPrefix (upperBytes leaked) "CONTENT_FILTER" = true /\
      Index (upperBytes text) "CONTENT_FILTER" = Some (String.length cleaned + String.length blanks)%nat
  end.
Proof.
  intros Ha. unfold stripLeakedContentFilterSuffix.
  case_bool_decide as He; [subst; by split|]. rewrite (ToUpper_ascii text Ha).
  destruct (Index (upperBytes text) "CONTENT_FILTER") as [i|] eqn:E; [|by split].
  destruct (Index_spec _ _ _ E) as [Hp Hi]. rewrite upperBytes_length in Hi.
  destruct (Nat.leb_spec i (String.length text)) as [_|]; [|lia].
  destruct (trimRightBlank_spec (strTake i text)) as (b & Hb & Hbl).
  exists b, (strDrop i text). split.
  - rewrite <- append_assoc, <- Hb. symmetry. apply strTake_drop.
  - split; [done|]. rewrite upperBytes_drop in Hp. split; [done|]. f_equal.
    rewrite <- length_append, <- Hb. clear -Hi. revert text Hi.
    induction i as [|i IH]; intros [|c s] Hi; simpl in *; try lia. rewrite <- IH by lia. done.
Qed.

(** Turned a and dotless i, as UTF-8. *)
Definition turnedA : string := String (ascii_of_N 0xC9) (String (ascii_of_N 0x90) "").
Definition dotlessI : string := String (ascii_of_N 0xC4) (String (ascii_of_N 0xB1) "").

Fixpoint repeatStr (n : nat) (s : string) : string :=
  match n with O => "" | S n => s +:+ repeatStr n s end.

(** On other text the cut can be wrong, because the position is computed in
    the upper-cased text and applied to the original: fifteen turned a's before
    the marker make the slice run out of range, which stops the program; and a
    dotless i before the marker costs the last character of the text that should
    have been kept. *)
Theorem leaked_marker_misplaced :
  stripLeakedContentFilterSuffix (repeatStr 15 turnedA +:+ "content_filter") = None /\
  stripLeakedContentFilterSuffix (dotlessI +:+ "yi.CONTENT_FILTER") = Some (dotlessI +:+ "yi", true).
Proof. split; vm_compute; reflexivity. Qed.

(** Continuation rounds that resend the text so far do not duplicate it: a
    snapshot of at least 32 bytes that extends the collected text replaces it, a
    snapshot that the collected text already contains as a prefix adds nothing,
    and resending a snapshot any number of times changes nothing; a chunk shorter
    than 32 bytes is always appended as it is. *)
Theorem snapshot_not_duplicated (existing incoming : string) :
  ((32 <= String.length incoming)%nat -> extends existing incoming ->
     grow existing incoming = incoming /\ grow (grow existing incoming) incoming = incoming) /\
  ((32 <= String.length incoming)%nat -> extends incoming existing -> grow existing incoming = existing) /\
  ((String.length incoming < 32)%nat -> grow existing incoming = existing +:+ incoming).
Proof.
  assert (Hext : forall e i, (32 <= String.length i)%nat -> extends e i -> grow e i = i).
  { intros e i Hlen [t ->]. unfold grow, TrimContinuationOverlap.
    rewrite bool_decide_eq_false_2 by (intros E; rewrite E in Hlen; simpl in Hlen; lia).
    case_bool_decide as He; [by subst|].
    apply Nat.leb_le in Hlen. unfold minContinuationSnapshotLen. rewrite Hlen, HasPrefix_app. simpl.
    by rewrite strDrop_app. }
  split; [|split].
  - intros Hlen Hx. rewrite (Hext existing incoming Hlen Hx). split; [done|]. apply Hext; auto with gw.
  - intros Hlen [t ->]. unfold grow, TrimContinuationOverlap.
    assert (Hne : incoming <> "") by (intros E; rewrite E in Hlen; simpl in Hlen; lia).
    rewrite (bool_decide_eq_false_2 (incoming = "")) by done.
    rewrite bool_decide_eq_false_2 by (destruct incoming; [done|rewrite append_cons; done]).
    apply Nat.leb_le in Hlen as Hleb. unfold minContinuationSnapshotLen. rewrite Hleb, HasPrefix_app. simpl.
    destruct (HasPrefix incoming (incoming +:+ t)) eqn:E; [|by rewrite append_nil_r].
    assert (t = "") as ->.
    { apply HasPrefix_length in E. rewrite length_append in E. destruct t; [done|simpl in E; lia]. }
    rewrite !append_nil_r. pose proof (strDrop_app incoming "") as Hd. rewrite append_nil_r in Hd.
    by rewrite Hd, append_nil_r.
  - intros Hlen. unfold grow, TrimContinuationOverlap. case_bool_decide as Hi; [by subst|].
    case_bool_decide as He; [done|]. unfold minContinuationSnapshotLen.
    destruct (Nat.leb_spec 32 (String.length incoming)); [lia|]. done.
Qed.

(** ** A concrete stream *)

(** A decoder that knows four payloads. *)
Definition demoUnmarshal (s : string) : option (list (string * json)) :=
  if bool_decide (s = "hello") then Some [("v", JStr "hello")]
  else if bool_decide (s = "world") then Some [("p", JStr "response/content"); ("v", JStr " world")]
  else if bool_decide (s = "fin") then Some [("p", JStr "response/status"); ("v", JStr "FINISHED")]
  else if bool_decide (s = "filter")
  then Some [("v", JArr [JObj [("x", JNull); ("y", JObj [("code", JStr " CONTENT_FILTER ")])]])]
  else None.

Definition demoFormat (_ : json) : string := "error".

Definition demoLines : list string := ["data: hello"; ": ping"; "data: world"].

Example demo_collect :
  (fun c => (cText c, cThinking c)) <$> CollectStream demoUnmarshal demoFormat true demoLines
  = Some (" world", "hello").
Proof. vm_compute. reflexivity. Qed.

Lemma collect_appends_witness :
  exists c1 c2, CollectStream demoUnmarshal demoFormat true demoLines = Some c1 /\
    CollectStream demoUnmarshal demoFormat true (demoLines ++ ["data: fin"; "data: world"]) = Some c2 /\
    extends (cText c1) (cText c2).
Proof.
  destruct (CollectStream demoUnmarshal demoFormat true (demoLines ++ ["data: fin"; "data: world"])) as [c2|] eqn:E;
    [|vm_compute in E; discriminate].
  destruct (collect_appends demoUnmarshal demoFormat true demoLines ["data: fin"; "data: world"] c2 E)
    as (c1 & H1 & H2 & _).
  exists c1, c2. split; [exact H1|]. split; [reflexivity|exact H2].
Defined.

Lemma thinking_hidden_witness :
  exists c, CollectStream demoUnmarshal demoFormat false demoLines = Some c /\ cThinking c = "".
Proof.
  destruct (CollectStream demoUnmarshal demoFormat false demoLines) as [c|] eqn:E; [|vm_compute in E; discriminate].
  exists c. split; [reflexivity|]. exact (proj1 (thinking_hidden demoUnmarshal demoFormat demoLines c E)).
Defined.

Lemma content_filter_stops_witness :
  exists r, ParseDeepSeekContentLine demoUnmarshal demoFormat "data: filter" true "text" = Some r /\ Stop r = true.
Proof.
  destruct (ParseDeepSeekContentLine demoUnmarshal demoFormat "data: filter" true "text") as [r|] eqn:E;
    [|vm_compute in E; discriminate].
  exists r. split; [reflexivity|].
  refine (proj1 (content_filter_stops demoUnmarshal demoFormat "data: filter"
    [("v", JArr [JObj [("x", JNull); ("y", JObj [("code", JStr " CONTENT_FILTER ")])]])]
    [("code", JStr " CONTENT_FILTER ")] true "text" r _ _ _ E)); [vm_compute; reflexivity| |vm_compute; reflexivity].
  eapply inside_obj; [apply elem_of_cons; left; reflexivity|].
  eapply inside_arr; [apply elem_of_cons; left; reflexivity|].
  eapply inside_obj; [apply elem_of_cons; right; apply elem_of_cons; left; reflexivity|]. apply inside_self.
Defined.

Lemma leaked_marker_cut_witness :
  stripLeakedContentFilterSuffix "done. content_filter" = Some ("done.", true) /\
  exists blanks leaked, "done. content_filter" = "done." +:+ blanks +:+ leaked.
Proof.
  split; [vm_compute; reflexivity|].
  pose proof (leaked_marker_cut "done. content_filter" eq_refl) as H.
  assert (E : stripLeakedContentFilterSuffix "done. content_filter" = Some ("done.", true)) by (vm_compute; reflexivity).
  rewrite E in H. destruct H as (b & l & H & _). exists b, l. exact H.
Defined.
