(* ===== verification/Pump.v ===== *)
(** The line pump of the streaming handlers: [internal/sse/stream.go].

    A goroutine parses the upstream lines and hands the results to a handler
    through a channel, collecting small content lines into one result until 160
    bytes have gathered or a tick of the flush timer passes.  The goroutine is a
    function of the events its [select] receives, one list entry per iteration:
    a line, a tick, the end of the body (with the reader's error) or the end of
    the context.  [accept n] tells whether the [n]-th send finds a receiver or
    the ended context. *)
From S2P Require Import Prelude GoString Json Sse.
Local Open Scope Z_scope.

Definition minFlushChars : Z := 160.

(** The errors reported on [done]. *)
Inductive pumpError :=
| ErrContext
| ErrUnexpectedEOF
| ErrRead (msg : string).

Inductive pumpEvent :=
| EvLine (raw : string)
| EvTick
| EvEnd (err : option pumpError)
| EvCancel.

(** How the goroutine ends; a run-time error ends the program. *)
Inductive pumpEnd :=
| Ended (err : option pumpError)
| Crashed.

Record PumpState := {
  currentType : string;
  pending : option LineResult;
  pendingChars : Z;
  terminalSeen : bool;
  parsedSeen : bool;
  sent : list LineResult
}.

Definition partChars (parts : list ContentPart) : Z :=
  fold_left (fun n p => n + Z.of_nat (String.length (Text p))) parts 0.

(** [pending] with another line's parts appended. *)
Definition mergePending (pending : option LineResult) (r : LineResult) : LineResult :=
  match pending with
  | None => r
  | Some p => {| Parsed := Parsed p; Stop := Stop p; ContentFilter := ContentFilter p;
                 ErrorMessage := ErrorMessage p; Parts := Parts p ++ Parts r;
                 ToolDetectionThinkingParts := ToolDetectionThinkingParts p ++ ToolDetectionThinkingParts r;
                 NextType := NextType r; ResponseMessageID := ResponseMessageID p |}
  end.

Section Pump.
Variable Unmarshal : string -> option (list (string * json)).
Variable formatValue : json -> string.
Variable thinkingEnabled : bool.
Variable accept : nat -> bool.

Definition sendResult (r : LineResult) (s : PumpState) : PumpState * bool :=
  if accept (length (sent s))
  then ({| currentType := currentType s; pending := pending s; pendingChars := pendingChars s;
           terminalSeen := terminalSeen s; parsedSeen := parsedSeen s; sent := sent s ++ [r] |}, true)
  else (s, false).

Definition flushPending (s : PumpState) : PumpState * bool :=
  match pending s with
  | None => (s, true)
  | Some p =>
      let '(s, ok) := sendResult p s in
      if negb ok then (s, false)
      else ({| currentType := currentType s; pending := None; pendingChars := 0;
               terminalSeen := terminalSeen s; parsedSeen := parsedSeen s; sent := sent s |}, true)
  end.

Definition canAccumulate (r : LineResult) : bool :=
  Parsed r && negb (Stop r) && bool_decide (ErrorMessage r = "") && negb (ContentFilter r)
  && (ResponseMessageID r =? 0).

(** The handling of one parsed line. *)
Definition pumpLine (r : LineResult) (s : PumpState) : PumpState * option pumpEnd :=
  let s := {| currentType := NextType r; pending := pending s; pendingChars := pendingChars s;
              terminalSeen := terminalSeen s || (Stop r || negb (bool_decide (ErrorMessage r = "")) || ContentFilter r);
              parsedSeen := parsedSeen s || Parsed r; sent := sent s |} in
  let lineChars := partChars (Parts r) + partChars (ToolDetectionThinkingParts r) in
  if canAccumulate r && (0 <? lineChars) then
    let s := {| currentType := currentType s; pending := Some (mergePending (pending s) r);
                pendingChars := pendingChars s + lineChars; terminalSeen := terminalSeen s;
                parsedSeen := parsedSeen s; sent := sent s |} in
    if pendingChars s <? minFlushChars then (s, None)
    else let '(s, ok) := flushPending s in (s, if ok then None else Some (Ended (Some ErrContext)))
  else
    let '(s, ok) := flushPending s in
    if negb ok then (s, Some (Ended (Some ErrContext)))
    else let '(s, ok) := sendResult r s in (s, if ok then None else Some (Ended (Some ErrContext))).

Definition pumpStep (e : pumpEvent) (s : PumpState) : PumpState * option pumpEnd :=
  match e with
  | EvCancel => (s, Some (Ended (Some ErrContext)))
  | EvTick => let '(s, ok) := flushPending s in (s, if ok then None else Some (Ended (Some ErrContext)))
  | EvEnd err =>
      let '(s, ok) := flushPending s in
      if negb ok then (s, Some (Ended (Some ErrContext)))
      else
        let err := match err with
                   | None => if parsedSeen s && negb (terminalSeen s) then Some ErrUnexpectedEOF else None
                   | Some e => Some e
                   end in
        (s, Some (Ended err))
  | EvLine raw =>
      match ParseDeepSeekContentLine Unmarshal formatValue raw thinkingEnabled (currentType s) with
      | None => (s, Some Crashed)
      | Some r => pumpLine r s
      end
  end.

(** Run over the events; [None] when the goroutine still waits for more. *)
Fixpoint pumpRun (events : list pumpEvent) (s : PumpState) : PumpState * option pumpEnd :=
  match events with
  | [] => (s, None)
  | e :: events =>
      match pumpStep e s with
      | (s, Some fin) => (s, Some fin)
      | (s, None) => pumpRun events s
      end
  end.

Definition pumpStart (initialType : string) : PumpState :=
  {| currentType := initialType; pending := None; pendingChars := 0; terminalSeen := false;
     parsedSeen := false; sent := [] |}.

Definition StartParsedLinePump (initialType : string) (events : list pumpEvent) : PumpState * option pumpEnd :=
  pumpRun events (pumpStart initialType).

(** ** The reference: every line on its own *)

(** The results of the lines among the events, each with the type it inherits. *)
Fixpoint lineResults (events : list pumpEvent) (ty : string) : option (list LineResult) :=
  match events with
  | [] => Some []
  | EvLine raw :: events =>
      match ParseDeepSeekContentLine Unmarshal formatValue raw thinkingEnabled ty with
      | None => None
      | Some r => cons r <$> lineResults events (NextType r)
      end
  | _ :: events => lineResults events ty
  end.
End Pump.

(** ** Lemmas *)

Definition allParts (rs : list LineResult) : list ContentPart := mjoin (Parts <$> rs).
Definition allDetection (rs : list LineResult) : list ContentPart := mjoin (ToolDetectionThinkingParts <$> rs).

Definition isTerminal (r : LineResult) : bool :=
  Stop r || negb (bool_decide (ErrorMessage r = "")) || ContentFilter r.

(** What the receiver gets when everything pending is sent. *)
Definition delivered (s : PumpState) : list LineResult :=
  sent s ++ match pending s with Some p => [p] | None => [] end.

(** A line that carries content and nothing else: no end, no error, no message id. *)
Definition plain (r : LineResult) : Prop :=
  Parsed r = true /\ Stop r = false /\ ContentFilter r = false /\ ErrorMessage r = "" /\ ResponseMessageID r = 0.

(** [out] stands for the lines [g]: the one line as it is, or the parts of several plain
    lines in order, under the type the last one leaves. *)
Definition batch (out : LineResult) (g : list LineResult) : Prop :=
  g = [out] \/
  Forall plain g /\ plain out /\ Parts out = allParts g /\ ToolDetectionThinkingParts out = allDetection g /\ Some (NextType out) = NextType <$> last g.

(** The results [outs] are the lines [rs] in consecutive batches. *)
Definition batched (outs rs : list LineResult) : Prop := exists groups, rs = concat groups /\ Forall2 batch outs groups.

Lemma allParts_app r1 r2 : allParts (r1 ++ r2) = allParts r1 ++ allParts r2.
Proof. unfold allParts. by rewrite fmap_app, join_app. Qed.

Lemma allDetection_app r1 r2 : allDetection (r1 ++ r2) = allDetection r1 ++ allDetection r2.
Proof. unfold allDetection. by rewrite fmap_app, join_app. Qed.

Lemma batched_app o1 r1 o2 r2 : batched o1 r1 -> batched o2 r2 -> batched (o1 ++ o2) (r1 ++ r2).
Proof. intros (g1 & -> & H1) (g2 & -> & H2). exists (g1 ++ g2). split; [by rewrite concat_app|by apply Forall2_app]. Qed.

Lemma batched_one out g : batch out g -> batched [out] g.
Proof. intros H. exists [g]. simpl. rewrite app_nil_r. split; [done|by constructor]. Qed.

Lemma plain_terminal (r : LineResult) : plain r -> isTerminal r = false.
Proof. intros (_ & H1 & H2 & H3 & _). unfold isTerminal. by rewrite H1, H2, H3, bool_decide_eq_true_2. Qed.

Lemma plain_filter (g : list LineResult) : Forall plain g -> filter (fun r => isTerminal r = true) g = [].
Proof. induction 1 as [|r g Hr _ IH]; [done|]. rewrite filter_cons_False; [done|]. by rewrite plain_terminal. Qed.

(** What batching does not change. *)
Lemma batched_same (outs rs : list LineResult) :
  batched outs rs ->
  allParts outs = allParts rs /\ allDetection outs = allDetection rs /\
  filter (fun r => isTerminal r = true) outs = filter (fun r => isTerminal r = true) rs.
Proof.
  intros (groups & -> & H). induction H as [|out g outs groups Hb _ (IH1 & IH2 & IH3)]; [done|]. cbn [concat].
  change (out :: outs) with ([out] ++ outs). rewrite !allParts_app, !allDetection_app, !filter_app, IH1, IH2, IH3.
  destruct Hb as [->|(Hg & Ho & Hp & Hd & _)]; [done|]. unfold allParts, allDetection at 1. cbn [fmap list_fmap mjoin list_join].
  rewrite !app_nil_r, Hp, Hd, (plain_filter g Hg). split; [done|]. split; [done|].
  rewrite filter_cons_False; [done|]. by rewrite plain_terminal.
Qed.

Lemma canAccumulate_plain (r : LineResult) : canAccumulate r = true -> plain r.
Proof. unfold canAccumulate, plain. intros H. bool_cases. repeat split; try done; by apply Z.eqb_eq. Qed.

(** Merging a plain line into the pending batch extends it. *)
Lemma mergePending_batch (p r : LineResult) (g : list LineResult) :
  batch p g -> Forall plain g -> plain r -> batch (mergePending (Some p) r) (g ++ [r]) /\ plain (mergePending (Some p) r).
Proof.
  intros Hb Hg Hr.
  assert (Hp : plain p /\ Parts p = allParts g /\ ToolDetectionThinkingParts p = allDetection g).
  { destruct Hb as [->|(_ & Hp & H1 & H2 & _)]; [|done]. inversion Hg; subst. unfold allParts, allDetection. simpl. by rewrite !app_nil_r. }
  destruct Hp as (Hp & H1 & H2). assert (plain (mergePending (Some p) r)) as Hm by (unfold plain in *; simpl; naive_solver). split; [right|done].
  split; [apply Forall_app; split; [done|by apply Forall_singleton]|]. split; [done|]. rewrite allParts_app, allDetection_app, last_snoc. simpl. rewrite H1, H2.
  unfold allParts, allDetection. simpl. by rewrite !app_nil_r.
Qed.

(** The lines [seen] have been sent or wait as one batch of plain lines. *)
Definition waitsFor (s : PumpState) (seen : list LineResult) : Prop :=
  exists done_ g, seen = done_ ++ g /\ batched (sent s) done_ /\
    match pending s with None => g = [] | Some p => batch p g /\ Forall plain g end.

Lemma waits_delivered (s : PumpState) (seen : list LineResult) : waitsFor s seen -> batched (delivered s) seen.
Proof.
  intros (d & g & -> & Hd & Hp). unfold delivered. apply batched_app; [done|]. destruct (pending s) as [p|]; [apply batched_one; tauto|].
  rewrite Hp. by exists [].
Qed.

Lemma waits_sent (s : PumpState) (seen : list LineResult) : pending s = None -> batched (sent s) seen -> waitsFor s seen.
Proof. intros Hp H. exists seen, []. rewrite Hp, app_nil_r. by split_and!. Qed.

Section PumpFacts.
Context (Unmarshal : string -> option (list (string * json))) (formatValue : json -> string).
Context (thinkingEnabled : bool) (accept : nat -> bool) (Haccept : forall n, accept n = true).

Lemma sendResult_ok (r : LineResult) (s : PumpState) :
  sendResult accept r s = ({| currentType := currentType s; pending := pending s; pendingChars := pendingChars s;
    terminalSeen := terminalSeen s; parsedSeen := parsedSeen s; sent := sent s ++ [r] |}, true).
Proof. unfold sendResult. by rewrite Haccept. Qed.

Lemma flushPending_ok (s : PumpState) :
  exists s', flushPending accept s = (s', true) /\ pending s' = None /\ sent s' = delivered s /\
    currentType s' = currentType s /\ terminalSeen s' = terminalSeen s /\ parsedSeen s' = parsedSeen s.
Proof.
  unfold flushPending, delivered. destruct (pending s) as [p|] eqn:E.
  - rewrite sendResult_ok. simpl. eexists. split; [done|]. done.
  - exists s. by rewrite app_nil_r.
Qed.

Lemma delivered_flushed (s : PumpState) : pending s = None -> delivered s = sent s.
Proof. unfold delivered. intros ->. apply app_nil_r. Qed.

(** One line: nothing ends, and the receiver will get the line's result. *)
Lemma pumpLine_ok (r : LineResult) (s : PumpState) (seen : list LineResult) :
  waitsFor s seen ->
  exists s', pumpLine accept r s = (s', None) /\ waitsFor s' (seen ++ [r]) /\ currentType s' = NextType r /\
    terminalSeen s' = terminalSeen s || isTerminal r /\ parsedSeen s' = parsedSeen s || Parsed r.
Proof.
  intros Hwait. unfold pumpLine.
  set (s1 := Build_PumpState (NextType r) (pending s) (pendingChars s) _ _ (sent s)).
  assert (Hw1 : waitsFor s1 seen) by exact Hwait.
  destruct (canAccumulate r && _) eqn:Ecan.
  - apply andb_true_iff in Ecan as [Hcan _]. apply canAccumulate_plain in Hcan.
    set (s2 := Build_PumpState (currentType s1) (Some (mergePending (pending s1) r)) _ _ _ _).
    assert (Hw2 : waitsFor s2 (seen ++ [r])).
    { destruct Hw1 as (d & g & -> & Hd & Hp). exists d, (g ++ [r]). split; [by rewrite app_assoc|]. split; [exact Hd|]. simpl in *.
      destruct (pending s) as [p|]; [|subst g; split; [by left|by apply Forall_singleton]]. destruct Hp as [Hb Hg].
      destruct (mergePending_batch p r g Hb Hg Hcan) as [Hm _]. split; [exact Hm|]. apply Forall_app; split; [done|by apply Forall_singleton]. }
    destruct (_ <? minFlushChars); [by exists s2|].
    destruct (flushPending_ok s2) as (s3 & -> & Hp3 & Hs3 & Hc3 & Ht3 & Hpa3).
    exists s3. split; [done|]. split; [apply waits_sent; [done|]; rewrite Hs3; by apply waits_delivered|].
    rewrite Hc3, Ht3, Hpa3. by unfold isTerminal.
  - destruct (flushPending_ok s1) as (s3 & -> & Hp3 & Hs3 & Hc3 & Ht3 & Hpa3). simpl.
    rewrite sendResult_ok. eexists. split; [done|]. split.
    + apply waits_sent; [done|]. simpl. rewrite Hs3. apply batched_app; [by apply waits_delivered|]. apply batched_one. by left.
    + simpl. by rewrite Hc3, Ht3, Hpa3.
Qed.

(** Lines and ticks only. *)
Definition isBody (e : pumpEvent) : Prop :=
  match e with EvLine _ | EvTick => True | _ => False end.

Lemma pumpRun_body (events rest : list pumpEvent) (s : PumpState) (seen : list LineResult) :
  Forall isBody events -> waitsFor s seen ->
  match lineResults Unmarshal formatValue thinkingEnabled events (currentType s) with
  | None => (pumpRun Unmarshal formatValue thinkingEnabled accept (events ++ rest) s).2 = Some Crashed
  | Some rs => exists s', pumpRun Unmarshal formatValue thinkingEnabled accept (events ++ rest) s =
        pumpRun Unmarshal formatValue thinkingEnabled accept rest s' /\ waitsFor s' (seen ++ rs) /\
      terminalSeen s' = terminalSeen s || existsb isTerminal rs /\
      parsedSeen s' = parsedSeen s || existsb Parsed rs
  end.
Proof.
  intros Hb. revert s seen. induction Hb as [|e events He Hb IH]; intros s seen Hw.
  { simpl. exists s. by rewrite app_nil_r, !orb_false_r. }
  destruct e as [raw| | |]; try done; cbn [lineResults app pumpRun pumpStep].
  - destruct (ParseDeepSeekContentLine Unmarshal formatValue raw thinkingEnabled (currentType s)) as [r|]; [|done].
    destruct (pumpLine_ok r s seen Hw) as (s1 & -> & Hw1 & Hc1 & Ht1 & Hp1).
    specialize (IH s1 _ Hw1). rewrite Hc1 in IH.
    destruct (lineResults Unmarshal formatValue thinkingEnabled events (NextType r)) as [rs|]; simpl; [|done].
    destruct IH as (s2 & Hrun & Hw2 & Ht2 & Hp2). exists s2. split; [done|]. rewrite <- app_assoc in Hw2. split; [done|].
    rewrite Ht2, Hp2, Ht1, Hp1. by rewrite !orb_assoc.
  - destruct (flushPending_ok s) as (s1 & -> & Hp1 & Hs1 & Hc1 & Ht1 & Hpa1).
    assert (Hw1 : waitsFor s1 seen) by (apply waits_sent; [done|]; rewrite Hs1; by apply waits_delivered).
    specialize (IH s1 seen Hw1). by rewrite Hc1, Ht1, Hpa1 in IH.
Qed.
End PumpFacts.

(** ** Properties *)

(** What the receiver has when the body ended. *)
Lemma pump_delivers Unmarshal formatValue (thinkingEnabled : bool) (accept : nat -> bool)
  (initialType : string) (events : list pumpEvent) (err : option pumpError) :
  (forall n, accept n = true) -> Forall isBody events ->
  match lineResults Unmarshal formatValue thinkingEnabled events initialType with
  | None => (StartParsedLinePump Unmarshal formatValue thinkingEnabled accept initialType (events ++ [EvEnd err])).2
              = Some Crashed
  | Some rs => exists s, StartParsedLinePump Unmarshal formatValue thinkingEnabled accept initialType (events ++ [EvEnd err])
      = (s, Some (Ended (match err with
                         | Some e => Some e
                         | None => if existsb Parsed rs && negb (existsb isTerminal rs)
                                   then Some ErrUnexpectedEOF else None
                         end))) /\
      pending s = None /\ batched (sent s) rs
  end.
Proof.
  intros Ha Hb. unfold StartParsedLinePump.
  assert (Hw : waitsFor (pumpStart initialType) []) by (apply waits_sent; [done|by exists []]).
  pose proof (pumpRun_body Unmarshal formatValue thinkingEnabled accept Ha events [EvEnd err] _ _ Hb Hw) as H.
  change (currentType (pumpStart initialType)) with initialType in H.
  destruct (lineResults Unmarshal formatValue thinkingEnabled events initialType) as [rs|]; [|done].
  destruct H as (s' & -> & Hw' & Ht & Hp). cbn [pumpRun pumpStep].
  destruct (flushPending_ok accept Ha s') as (s2 & -> & Hp2 & Hs2 & _ & Ht2 & Hpa2). cbn [negb].
  exists s2. rewrite Ht2, Hpa2, Ht, Hp. split; [done|]. split; [done|]. rewrite Hs2. by apply waits_delivered.
Qed.

(** C28. Batching is invisible: if the context is not cancelled and the receiver takes
    every result (when it stops, the goroutine does too), then whatever the timing of the
    flush ticks, when the body ends the receiver has been sent all lines in consecutive
    batches, nothing stays behind: a line that ends the answer, reports an error or carries
    a message id, and one that was not understood, is sent as it is; only lines of content
    are sent together, as one result with all their parts in order and the type of the
    last.  The reported error is the reader's, or "unexpected EOF" exactly when some line
    was understood but none was terminal.  A line that makes the parser fail ends the
    program. *)
Theorem pump_transparent Unmarshal formatValue (thinkingEnabled : bool) (accept : nat -> bool)
  (initialType : string) (events : list pumpEvent) (err : option pumpError) :
  (forall n, accept n = true) -> Forall isBody events ->
  match lineResults Unmarshal formatValue thinkingEnabled events initialType with
  | None => (StartParsedLinePump Unmarshal formatValue thinkingEnabled accept initialType (events ++ [EvEnd err])).2
              = Some Crashed
  | Some rs => exists s, StartParsedLinePump Unmarshal formatValue thinkingEnabled accept initialType (events ++ [EvEnd err])
      = (s, Some (Ended (match err with
                         | Some e => Some e
                         | None => if existsb Parsed rs && negb (existsb isTerminal rs)
                                   then Some ErrUnexpectedEOF else None
                         end))) /\
      pending s = None /\ batched (sent s) rs
  end.
Proof. apply pump_delivers. Qed.

Definition demoEvents : list pumpEvent := [EvLine "data: hello"; EvTick; EvLine "data: world"; EvLine ": ping"].

Lemma pump_transparent_witness :
  exists s, StartParsedLinePump demoUnmarshal demoFormat true (fun _ => true) "thinking" (demoEvents ++ [EvEnd None])
    = (s, Some (Ended (Some ErrUnexpectedEOF))) /\ pending s = None.
Proof.
  assert (Hb : Forall isBody demoEvents) by (repeat constructor).
  assert (E : exists rs, lineResults demoUnmarshal demoFormat true demoEvents "thinking" = Some rs /\
    existsb Parsed rs && negb (existsb isTerminal rs) = true).
  { eexists. split; [vm_compute; reflexivity|]. vm_compute. reflexivity. }
  destruct E as (rs & E & Hrs).
  pose proof (pump_transparent demoUnmarshal demoFormat true (fun _ => true) "thinking" demoEvents None
    (fun _ => eq_refl) Hb) as H.
  rewrite E, Hrs in H. destruct H as (s & H & Hp & _). exists s. split; [exact H|exact Hp].
Defined.
