(* ===== verification/Continue.v ===== *)
(** Automatic continuation: [internal/deepseek/client/client_continue.go].

    When the upstream marks an answer incomplete, a goroutine opens a follow-up
    request and splices its stream onto the first one, so that the reader of the
    pipe sees one stream.  A body is the list of the lines that [ReadBytes]
    returns and the error that ends it ([None] for EOF); the decoder, the
    rendering of a non-string value and the follow-up request are parameters, and
    so are the ends of the context and of the pipe's reader, seen at each line. *)
From S2P Require Import Prelude GoString Json Sse.
From Stdlib Require Import Ascii.
Local Open Scope Z_scope.

Record continueState := {
  sessionID : string;
  responseMessageID : Z;
  lastStatus : string;
  finished : bool
}.

Definition setMessageID (id : Z) (s : continueState) : continueState :=
  {| sessionID := sessionID s; responseMessageID := id; lastStatus := lastStatus s; finished := finished s |}.
Definition setLastStatus (status : string) (s : continueState) : continueState :=
  {| sessionID := sessionID s; responseMessageID := responseMessageID s; lastStatus := status; finished := finished s |}.

Record Body (E : Type) := { bodyLines : list string; bodyErr : option E }.
Arguments bodyLines {E}.
Arguments bodyErr {E}.

Definition setStatus (status : string) (s : continueState) : continueState :=
  let normalized := TrimSpace status in
  if bool_decide (normalized = "") then s
  else {| sessionID := sessionID s; responseMessageID := responseMessageID s; lastStatus := normalized;
          finished := if EqualFold normalized "FINISHED" || EqualFold normalized "CONTENT_FILTER"
                      then true else finished s |}.

Definition shouldContinue (s : continueState) : bool :=
  if finished s || (responseMessageID s <=? 0) || bool_decide (TrimSpace (sessionID s) = "") then false
  else
    let status := ToUpper (TrimSpace (lastStatus s)) in
    bool_decide (status = "INCOMPLETE") || bool_decide (status = "AUTO_CONTINUE").

Definition prepareForNextRound (s : continueState) : continueState :=
  {| sessionID := sessionID s; responseMessageID := responseMessageID s; lastStatus := ""; finished := false |}.

(** [maxRounds] of the body, 16 unless the environment says otherwise. *)
Definition defaultAutoContinueLimit (getenv : string -> string) : Z :=
  let v := TrimSpace (getenv "DEEPSEEK_WEB_TO_API_AUTO_CONTINUE_ROUNDS") in
  if bool_decide (v = "") then 16
  else match Atoi v with
       | Some n => if 0 <? n then n else 16
       | None => 16
       end.

Section Observe.
Variable Unmarshal : string -> option (list (string * json)).
(** The trimmed [fmt.Sprint] of a value that is not a string. *)
Variable sprint : json -> string.

Definition cAsString (v : option json) : string :=
  match v with
  | None | Some JNull => ""
  | Some (JStr x) => x
  | Some w => let s := sprint w in if bool_decide (s = "<nil>") then "" else s
  end.

(** The two kinds of status patch, by trimmed path. *)
Definition observePath (path : string) (value : option json) (s : continueState) : continueState :=
  let path := TrimByte "/" (TrimSpace path) in
  if isStatusPath path then setStatus (cAsString value) s
  else if bool_decide (path = "response/auto_continue") || bool_decide (path = "auto_continue") then
    match value with
    | Some (JBool true) => setLastStatus "AUTO_CONTINUE" s
    | _ => s
    end
  else s.

Definition observeDirectPatch (path : string) (value : option json) (s : continueState) : continueState :=
  observePath path value s.

Definition observeResponseObject (raw : option json) (s : continueState) : continueState :=
  match isObject raw with
  | None => s
  | Some response =>
      let id := IntFrom (member "message_id" response) in
      let s := if 0 <? id then setMessageID id s else s in
      let s := setStatus (cAsString (member "status" response)) s in
      match member "auto_continue" response with
      | Some (JBool true) => setLastStatus "AUTO_CONTINUE" s
      | _ => s
      end
  end.

Fixpoint observePatches (parentPath : string) (patches : list json) (s : continueState) : continueState :=
  match patches with
  | [] => s
  | patch :: patches =>
      match isObject (Some patch) with
      | None => observePatches parentPath patches s
      | Some m =>
          let path := TrimSpace (cAsString (member "p" m)) in
          if bool_decide (path = "") then observePatches parentPath patches s
          else
            let parent := TrimByte "/" (TrimSpace parentPath) in
            let fullPath := if negb (bool_decide (parent = "")) && negb (Contains path "/")
                            then parent +:+ "/" +:+ path else path in
            observePatches parentPath patches (observePath fullPath (member "v" m) s)
      end
  end.

Definition observeBatchPatches (parentPath : string) (raw : option json) (s : continueState) : continueState :=
  match isArray raw with
  | None => s
  | Some patches => observePatches parentPath patches s
  end.

Definition observe (data : string) (s : continueState) : continueState :=
  if bool_decide (TrimSpace data = "") then s
  else match Unmarshal data with
  | None => s
  | Some chunk =>
      let id := IntFrom (member "response_message_id" chunk) in
      let s := if 0 <? id then setMessageID id s else s in
      let s := observeDirectPatch (cAsString (member "p" chunk)) (member "v" chunk) s in
      let s := if bool_decide (asString (member "p" chunk) = "response")
               then observeBatchPatches "response" (member "v" chunk) s
               else observeBatchPatches "" (member "v" chunk) s in
      let s := match isObject (member "v" chunk) with
               | Some v => observeResponseObject (member "response" v) s
               | None => s
               end in
      match isObject (member "message" chunk) with
      | Some message => observeResponseObject (member "response" message) s
      | None => s
      end
  end.

(** ** One body *)

Context {E : Type}.

(** [done n]: the context has ended before line [n]; [accept n]: the [n]-th write
    finds a reader.  Both count over all bodies. *)
Variable ctxErr : E.
Variable pipeErr : E.
Variable done : nat -> bool.
Variable accept : nat -> bool.

(** The pump: lines read, lines written, and the observed state. *)
Record Pumped := { nRead : nat; written : list string; cstate : continueState }.

Definition ensureNewline (line : string) : string :=
  if HasSuffix line newline then line else line +:+ newline.

Definition isDone (line : string) : bool :=
  let trimmed := TrimSpace line in
  HasPrefix trimmed "data:" && bool_decide (TrimSpace (TrimPrefix trimmed "data:") = "[DONE]").

(** Whether [\[DONE\]] was seen, or the error.  A line without a newline comes
    together with the end of the body. *)
Fixpoint streamLines (lines : list string) (err : option E) (hadDone : bool) (p : Pumped)
  : Pumped * result E bool :=
  if done (nRead p) then (p, Err ctxErr)
  else
    let finish had q := (q, match err with None => Ok had | Some e => Err e end) in
    let next := {| nRead := S (nRead p); written := written p; cstate := cstate p |} in
    match lines with
    | [] => finish hadDone next
    | line :: lines =>
        let continue_ had q := if HasSuffix line newline then streamLines lines err had q else finish had q in
        let trimmed := TrimSpace line in
        if bool_decide (trimmed = "") then continue_ hadDone next
        else if isDone line then continue_ true next
        else
          let st := if HasPrefix trimmed "data:"
                    then observe (TrimSpace (TrimPrefix trimmed "data:")) (cstate p) else cstate p in
          if accept (length (written p))
          then continue_ hadDone
                 {| nRead := S (nRead p); written := written p ++ [ensureNewline line]; cstate := st |}
          else ({| nRead := S (nRead p); written := written p; cstate := st |}, Err pipeErr)
    end.

Definition streamBodyWithContinueState (b : Body E) (p : Pumped) : Pumped * result E bool :=
  streamLines (bodyLines b) (bodyErr b) false p.

(** ** The rounds *)

(** [openContinue(session, message id)] at the given round. *)
Variable openContinue : nat -> string -> Z -> result E (Body E).

Record ContinueRun := {
  crPumped : Pumped;
  crCalls : list (string * Z);
  crErr : option E
}.

(** [None] when the fuel runs out. *)
Fixpoint pumpRounds (fuel : nat) (maxRounds : Z) (rounds : nat) (current : Body E) (p : Pumped)
  (calls : list (string * Z)) : option ContinueRun :=
  match fuel with
  | O => None
  | S fuel =>
      match streamBodyWithContinueState current p with
      | (p, Err e) => Some {| crPumped := p; crCalls := calls; crErr := Some e |}
      | (p, Ok hadDone) =>
          if shouldContinue (cstate p) && (Z.of_nat rounds <? maxRounds) then
            let id := responseMessageID (cstate p) in
            let calls := calls ++ [(sessionID (cstate p), id)] in
            match openContinue (S rounds) (sessionID (cstate p)) id with
            | Err e => Some {| crPumped := p; crCalls := calls; crErr := Some e |}
            | Ok next =>
                pumpRounds fuel maxRounds (S rounds) next
                  {| nRead := nRead p; written := written p; cstate := prepareForNextRound (cstate p) |} calls
            end
          else if hadDone then
            if accept (length (written p))
            then Some {| crPumped := {| nRead := nRead p; written := written p ++ ["data: [DONE]" +:+ newline];
                                        cstate := cstate p |};
                         crCalls := calls; crErr := None |}
            else Some {| crPumped := p; crCalls := calls; crErr := Some pipeErr |}
          else Some {| crPumped := p; crCalls := calls; crErr := None |}
      end
  end.

Definition pumpAutoContinue (fuel : nat) (maxRounds : Z) (initial : Body E) (session : string) : option ContinueRun :=
  pumpRounds fuel maxRounds 0 initial
    {| nRead := 0; written := [];
       cstate := {| sessionID := session; responseMessageID := 0; lastStatus := ""; finished := false |} |} [].
End Observe.

(** ** Lemmas *)

(** The lines of a body that the reader of the pipe gets. *)
Definition forwarded (lines : list string) : list string :=
  filter (fun l => TrimSpace l <> "" /\ isDone l = false) lines.

(** [ReadBytes] returns an unterminated line only as the last one. *)
Fixpoint linesOk (lines : list string) : Prop :=
  match lines with
  | [] => True
  | line :: lines => (HasSuffix line newline = true \/ lines = []) /\ linesOk lines
  end.

Section Facts.
Context (Unmarshal : string -> option (list (string * json))) (sprint : json -> string).
Context {E : Type} (ctxErr pipeErr : E) (done accept : nat -> bool).

Lemma setStatus_session status s : sessionID (setStatus status s) = sessionID s.
Proof. unfold setStatus. by case_bool_decide. Qed.

Lemma observePath_session path v s : sessionID (observePath sprint path v s) = sessionID s.
Proof.
  unfold observePath. destruct (isStatusPath _); [apply setStatus_session|].
  destruct (_ || _); [|done]. by destruct v as [[| [|] | | | |]|].
Qed.

Lemma observeResponseObject_session raw s : sessionID (observeResponseObject sprint raw s) = sessionID s.
Proof.
  unfold observeResponseObject. destruct (isObject raw) as [m|]; [|done].
  assert (H : sessionID (setStatus (cAsString sprint (member "status" m))
    (if 0 <? IntFrom (member "message_id" m) then setMessageID (IntFrom (member "message_id" m)) s else s)) = sessionID s).
  { rewrite setStatus_session. by destruct (_ <? _). }
  destruct (member "auto_continue" m) as [[| [|] | | | |]|]; exact H.
Qed.

Lemma observePatches_session parent patches s :
  sessionID (observePatches sprint parent patches s) = sessionID s.
Proof.
  revert s. induction patches as [|x patches IH]; intros s; cbn [observePatches]; [done|].
  destruct (isObject (Some x)) as [m|]; [|apply IH]. case_bool_decide; [apply IH|].
  rewrite IH. apply observePath_session.
Qed.

Lemma observe_session data s : sessionID (observe Unmarshal sprint data s) = sessionID s.
Proof.
  unfold observe. case_bool_decide; [done|]. destruct (Unmarshal data) as [chunk|]; [|done]. cbv zeta.
  set (s1 := if 0 <? _ then _ else _). assert (H1 : sessionID s1 = sessionID s) by (unfold s1; by destruct (_ <? _)).
  set (s2 := observeDirectPatch _ _ _ _).
  assert (H2 : sessionID s2 = sessionID s) by (unfold s2, observeDirectPatch; by rewrite observePath_session).
  set (s3 := if bool_decide (asString _ = _) then _ else _).
  assert (H3 : sessionID s3 = sessionID s).
  { unfold s3, observeBatchPatches. case_bool_decide; destruct (isArray _); rewrite ?observePatches_session; done. }
  set (s4 := match isObject (member "v" chunk) with Some _ => _ | None => _ end).
  assert (H4 : sessionID s4 = sessionID s).
  { unfold s4. destruct (isObject _); rewrite ?observeResponseObject_session; done. }
  destruct (isObject (member "message" chunk)); rewrite ?observeResponseObject_session; done.
Qed.

Notation stream := (streamLines Unmarshal sprint ctxErr pipeErr done accept).

Lemma streamLines_session (lines : list string) (err : option E) (hadDone : bool) (p : Pumped) :
  sessionID (cstate (stream lines err hadDone p).1) = sessionID (cstate p).
Proof.
  revert hadDone p. induction lines as [|line lines IH]; intros hadDone p; simpl.
  { by destruct (done (nRead p)). }
  destruct (done (nRead p)); [done|].
  case_bool_decide; [destruct (HasSuffix line newline); [by rewrite IH|done]|].
  destruct (isDone line); [destruct (HasSuffix line newline); [by rewrite IH|done]|].
  destruct (accept _); [destruct (HasSuffix line newline); [rewrite IH|]|]; simpl;
    destruct (HasPrefix _ _); rewrite ?observe_session; done.
Qed.

(** What is written is what should be forwarded, up to the point of a failure. *)
Lemma streamLines_written (lines : list string) (err : option E) (hadDone : bool) (p : Pumped) :
  linesOk lines ->
  match stream lines err hadDone p with
  | (p', Ok had) => written p' = written p ++ (ensureNewline <$> forwarded lines) /\
      had = hadDone || existsb isDone lines /\ err = None
  | (p', Err _) => exists k, written p' = written p ++ (ensureNewline <$> take k (forwarded lines))
  end.
Proof.
  assert (Hnone : forall (q : Pumped) l, exists k, written q = written q ++ (ensureNewline <$> take k (forwarded l))).
  { intros q l. exists O. by rewrite app_nil_r. }
  revert hadDone p. induction lines as [|line lines IH]; intros hadDone p Hok; simpl.
  { destruct (done (nRead p)); [apply Hnone|]. destruct err; simpl; [|by rewrite app_nil_r, orb_false_r].
    exists O. by rewrite app_nil_r. }
  destruct Hok as [Hterm Hok].
  destruct (done (nRead p)); [apply Hnone|].
  assert (Hskip : forall had q, written q = written p -> forwarded (line :: lines) = forwarded lines ->
    isDone line || hadDone = had \/ (isDone line = false /\ had = hadDone) ->
    match (if HasSuffix line newline then stream lines err had q
           else (q, match err with Some e => Err e | None => Ok had end)) with
    | (p', Ok had') => written p' = written p ++ (ensureNewline <$> forwarded (line :: lines)) /\
        had' = hadDone || (isDone line || existsb isDone lines) /\ err = None
    | (p', Err _) => exists k, written p' = written p ++ (ensureNewline <$> take k (forwarded (line :: lines)))
    end).
  { intros had q Hq Hf Hh. rewrite Hf. assert (Hb : had = hadDone || isDone line) by
      (destruct Hh as [<-|[-> ->]]; [apply orb_comm|by rewrite orb_false_r]).
    destruct (HasSuffix line newline).
    - specialize (IH had q Hok). rewrite Hq in IH. destruct (stream lines err had q) as [p' [h|e]]; [|done].
      destruct IH as (? & -> & ?). split; [done|]. by rewrite Hb, orb_assoc.
    - destruct Hterm as [?| ->]; [done|]. destruct err; simpl.
      + exists O. by rewrite app_nil_r.
      + rewrite app_nil_r, orb_false_r. by rewrite Hq. }
  case_bool_decide as Ht.
  - assert (Hd : isDone line = false) by (unfold isDone; by rewrite Ht). apply Hskip; [done| |by right].
    unfold forwarded. rewrite filter_cons_False; [done|]. by intros [? _].
  - destruct (isDone line) eqn:Hd.
    + apply Hskip; [done| |by left]. unfold forwarded. rewrite filter_cons_False; [done|]. rewrite Hd. by intros [_ ?].
    + assert (Hf : forwarded (line :: lines) = line :: forwarded lines).
      { unfold forwarded. by rewrite filter_cons_True. }
      destruct (accept _); [|by exists O; rewrite app_nil_r].
      set (q := Build_Pumped _ _ _). destruct (HasSuffix line newline).
      * specialize (IH hadDone q Hok). destruct (stream lines err hadDone q) as [p' [h|e]].
        -- destruct IH as (Hw & Hh & He). split; [|done]. rewrite Hw, Hf. simpl. by rewrite <- app_assoc.
        -- destruct IH as (k & Hw). exists (S k). rewrite Hw, Hf. simpl. by rewrite <- app_assoc.
      * destruct Hterm as [?| ->]; [done|]. rewrite Hf. destruct err; simpl.
        -- by exists 1%nat.
        -- by rewrite orb_false_r.
Qed.
End Facts.

Section Rounds.
Context (Unmarshal : string -> option (list (string * json))) (sprint : json -> string).
Context {E : Type} (ctxErr pipeErr : E) (done accept : nat -> bool).
Context (openContinue : nat -> string -> Z -> result E (Body E)) (maxRounds : Z).
Context (Hopen : forall i s id b, openContinue i s id = Ok b -> linesOk (bodyLines b)).

Notation rounds_ := (pumpRounds Unmarshal sprint ctxErr pipeErr done accept openContinue).

Definition doneLine : string := "data: [DONE]" +:+ newline.

(** The stream that one after the other of some bodies make. *)
Definition spliced (bodies : list (Body E)) : list string :=
  mjoin ((fun b => ensureNewline <$> forwarded (bodyLines b)) <$> bodies).

(** The bodies are those the calls opened, in order. *)
Definition opened (c : string * Z) (b : Body E) : Prop := exists i, openContinue i c.1 c.2 = Ok b.

(** A follow-up call names the session and a message that was observed. *)
Definition callOk (session : string) (c : string * Z) : Prop := c.1 = session /\ 0 < c.2.

Lemma shouldContinue_call (s : continueState) :
  shouldContinue s = true -> callOk (sessionID s) (sessionID s, responseMessageID s).
Proof.
  unfold shouldContinue. destruct (_ || _) eqn:Eo; [done|]. intros _. bool_cases. by split.
Qed.

Lemma pumpRounds_spec (fuel : nat) (rounds : nat) (current : Body E) (p : Pumped) (calls : list (string * Z)) :
  linesOk (bodyLines current) -> (Z.to_nat maxRounds < fuel + rounds)%nat -> (0 < fuel)%nat ->
  exists run bodies new, rounds_ fuel maxRounds rounds current p calls = Some run /\
    crCalls run = calls ++ new /\ Forall (callOk (sessionID (cstate p))) new /\
    (length new + rounds <= Nat.max rounds (Z.to_nat maxRounds))%nat /\
    Forall2 opened (take (length bodies) new) bodies /\
    match crErr run with
    | None => length bodies = length new /\
        exists hadDone, written (crPumped run) =
          written p ++ spliced (current :: bodies) ++ (if hadDone : bool then [doneLine] else [])
    | Some _ => exists k, written (crPumped run) = written p ++ take k (spliced (current :: bodies))
    end.
Proof.
  revert rounds current p calls. induction fuel as [|fuel IH]; intros rounds current p calls Hok Hfuel Hpos; [lia|].
  cbn [pumpRounds]. unfold streamBodyWithContinueState.
  pose proof (streamLines_written Unmarshal sprint ctxErr pipeErr done accept (bodyLines current)
    (bodyErr current) false p Hok) as Hw.
  pose proof (streamLines_session Unmarshal sprint ctxErr pipeErr done accept (bodyLines current)
    (bodyErr current) false p) as Hses.
  destruct (streamLines _ _ _ _ _ _ _ _ _ _) as [p1 [hadDone|e]]; simpl in Hses.
  2: { destruct Hw as [k Hk]. eexists _, [], []. split; [done|]. simpl. rewrite app_nil_r. split; [done|].
       split; [done|]. split; [lia|]. split; [constructor|]. exists k. rewrite Hk. unfold spliced. simpl. rewrite app_nil_r.
       by rewrite fmap_take. }
  destruct Hw as (Hw & _ & _).
  destruct (shouldContinue (cstate p1) && _) eqn:Econt.
  - apply andb_true_iff in Econt as [Hsc Hlt]. apply Z.ltb_lt in Hlt.
    pose proof (shouldContinue_call _ Hsc) as Hcall. rewrite Hses in Hcall.
    destruct (openContinue (S rounds) (sessionID (cstate p1)) (responseMessageID (cstate p1))) as [next|e] eqn:Eo.
    + set (p2 := Build_Pumped _ _ _).
      assert (0 < fuel)%nat by lia.
      destruct (IH (S rounds) next p2 (calls ++ [(sessionID (cstate p1), responseMessageID (cstate p1))]))
        as (run & bodies & new & Hrun & Hcalls & Hnew & Hlen & Hop & Hres); [by eapply Hopen|lia|done|].
      exists run, (next :: bodies), ((sessionID (cstate p1), responseMessageID (cstate p1)) :: new).
      split; [done|]. split; [by rewrite Hcalls, <- app_assoc|].
      assert (Hs2 : sessionID (cstate p2) = sessionID (cstate p)) by exact Hses. rewrite Hs2 in Hnew.
      split; [constructor; [by rewrite Hses|done]|]. split; [simpl; lia|].
      split; [cbn [length take]; constructor; [by exists (S rounds)|done]|].
      destruct (crErr run) as [e|].
      * destruct Hres as [k Hk]. exists (length (ensureNewline <$> forwarded (bodyLines current)) + k)%nat.
        rewrite Hk. cbn [p2 written]. rewrite Hw. unfold spliced. cbn [fmap list_fmap mjoin list_join].
        rewrite take_app_add. by rewrite <- app_assoc.
      * destruct Hres as [Hlen2 [had Hk]]. split; [simpl; lia|]. exists had. rewrite Hk. cbn [p2 written]. rewrite Hw.
        unfold spliced. cbn [fmap list_fmap mjoin list_join]. by rewrite <- !app_assoc.
    + eexists _, [], [_]. split; [done|]. simpl. split; [done|].
      split; [constructor; [by rewrite Hses|done]|]. split; [simpl; lia|]. split; [constructor|].
      exists (length (ensureNewline <$> forwarded (bodyLines current))). rewrite Hw. unfold spliced. simpl.
      by rewrite app_nil_r, firstn_all.
  - assert (Hsp : spliced [current] = ensureNewline <$> forwarded (bodyLines current)).
    { unfold spliced. simpl. by rewrite app_nil_r. }
    destruct hadDone; [destruct (accept _)|]; (eexists _, [], []; split; [done|]; simpl;
      rewrite app_nil_r; split; [done|]; split; [done|]; split; [lia|]; split; [constructor|]).
    + split; [done|]. exists true. simpl. by rewrite Hw, Hsp, <- app_assoc.
    + exists (length (ensureNewline <$> forwarded (bodyLines current))). by rewrite Hw, Hsp, firstn_all.
    + split; [done|]. exists false. by rewrite Hw, Hsp, app_nil_r.
Qed.
End Rounds.

(** ** Properties *)

(** Automatic continuation always ends: the pump makes at most the configured
    number of follow-up requests, each for the original session and a message id
    that the upstream has announced, and then returns, whatever the upstream
    sends; fuel of one more than the number of rounds is enough. *)
Theorem continue_terminates {E} Unmarshal sprint (ctxErr pipeErr : E) done accept openContinue
  (maxRounds : Z) (initial : Body E) (session : string) :
  linesOk (bodyLines initial) ->
  (forall i s id b, openContinue i s id = Ok b -> linesOk (bodyLines b)) ->
  exists run, pumpAutoContinue Unmarshal sprint ctxErr pipeErr done accept openContinue
      (S (Z.to_nat maxRounds)) maxRounds initial session = Some run /\
    (length (crCalls run) <= Z.to_nat maxRounds)%nat /\ Forall (callOk session) (crCalls run).
Proof.
  intros Hok Ho. unfold pumpAutoContinue.
  set (p0 := Build_Pumped _ _ _).
  destruct (pumpRounds_spec Unmarshal sprint ctxErr pipeErr done accept openContinue maxRounds Ho
    (S (Z.to_nat maxRounds)) 0 initial p0 [] Hok) as (run & bodies & new & Hrun & Hc & Hn & Hlen & _); [lia|lia|].
  exists run. rewrite Hrun, Hc. simpl. split; [done|]. split; [lia|done].
Qed.

(** C31. The reader sees one seamless stream: when the pump ends without an error
    it has written exactly the non-blank lines of the first body and of every
    follow-up body, in order, each ended by a newline, without any of the bodies'
    own end markers, followed by at most one end marker; when it ends with an
    error it has written a prefix of that. *)
Theorem continue_splices {E} Unmarshal sprint (ctxErr pipeErr : E) done accept openContinue
  (maxRounds : Z) (initial : Body E) (session : string) (run : ContinueRun) :
  linesOk (bodyLines initial) ->
  (forall i s id b, openContinue i s id = Ok b -> linesOk (bodyLines b)) ->
  pumpAutoContinue Unmarshal sprint ctxErr pipeErr done accept openContinue
    (S (Z.to_nat maxRounds)) maxRounds initial session = Some run ->
  exists bodies,
    Forall (fun b => Forall (fun l => isDone l = false) (forwarded (bodyLines b))) (initial :: bodies) /\
    Forall2 (opened openContinue) (take (length bodies) (crCalls run)) bodies /\
    match crErr run with
    | None => length bodies = length (crCalls run) /\
        exists hadDone : bool, written (crPumped run) =
          spliced (initial :: bodies) ++ (if hadDone then [doneLine] else [])
    | Some _ => exists k, written (crPumped run) = take k (spliced (initial :: bodies))
    end.
Proof.
  intros Hok Ho Hr. unfold pumpAutoContinue in Hr.
  set (p0 := Build_Pumped _ _ _) in Hr.
  destruct (pumpRounds_spec Unmarshal sprint ctxErr pipeErr done accept openContinue maxRounds Ho
    (S (Z.to_nat maxRounds)) 0 initial p0 [] Hok) as (run' & bodies & new & Hrun & Hc & _ & _ & Hop & Hres); [lia|lia|].
  rewrite Hr in Hrun. injection Hrun as <-. exists bodies. split.
  - apply Forall_forall. intros b _. apply Forall_forall. intros l Hl. unfold forwarded in Hl.
    by apply list_elem_of_filter in Hl as [[_ ?] _].
  - rewrite Hc. split; [exact Hop|exact Hres].
Qed.

(** An upstream that stops twice and then finishes. *)
Definition demoContinue : nat -> string -> Z -> result string (Body string) :=
  fun i _ _ => if (i <=? 1)%nat
    then Ok {| bodyLines := ["data: more" +:+ newline; "data: part" +:+ newline; "data: [DONE]"]; bodyErr := None |}
    else Ok {| bodyLines := ["data: end" +:+ newline; "data: [DONE]" +:+ newline]; bodyErr := None |}.

Definition partUnmarshal (s : string) : option (list (string * json)) :=
  if bool_decide (s = "part")
  then Some [("response_message_id", JNum 7 1); ("p", JStr "response/status"); ("v", JStr "INCOMPLETE")]
  else Some [("v", JStr s)].

Definition demoInitial : Body string :=
  {| bodyLines := ["data: begin" +:+ newline; newline; "data: part" +:+ newline]; bodyErr := None |}.

Lemma demoContinue_ok : forall i s id b, demoContinue i s id = Ok b -> linesOk (bodyLines b).
Proof. intros i s id b. unfold demoContinue. destruct (i <=? 1)%nat; intros [= <-]; vm_compute; auto. Qed.

Lemma continue_terminates_witness :
  exists run, pumpAutoContinue partUnmarshal (fun _ => "x") "ctx" "pipe" (fun _ => false) (fun _ => true) demoContinue
      17 16 demoInitial "session" = Some run /\ (length (crCalls run) <= 16)%nat.
Proof.
  assert (Hok : linesOk (bodyLines demoInitial)) by (vm_compute; auto).
  destruct (continue_terminates partUnmarshal (fun _ => "x") "ctx" "pipe" (fun _ => false) (fun _ => true) demoContinue
    16 demoInitial "session" Hok demoContinue_ok) as (run & Hrun & Hlen & _).
  exists run. split; [exact Hrun|exact Hlen].
Defined.

Lemma continue_splices_witness :
  exists run bodies, pumpAutoContinue partUnmarshal (fun _ => "x") "ctx" "pipe" (fun _ => false) (fun _ => true) demoContinue
      17 16 demoInitial "session" = Some run /\ length bodies = 2%nat /\
    Forall2 (opened demoContinue) (take (length bodies) (crCalls run)) bodies.
Proof.
  assert (Hok : linesOk (bodyLines demoInitial)) by (vm_compute; auto).
  assert (Hex : exists run, pumpAutoContinue partUnmarshal (fun _ => "x") "ctx" "pipe" (fun _ => false)
    (fun _ => true) demoContinue (S (Z.to_nat 16)) 16 demoInitial "session" = Some run)
    by (eexists; vm_compute; reflexivity).
  destruct Hex as [run Hrun].
  destruct (continue_splices partUnmarshal (fun _ => "x") "ctx" "pipe" (fun _ => false) (fun _ => true) demoContinue
    16 demoInitial "session" run Hok demoContinue_ok Hrun) as (bodies & _ & Hop & Hres).
  exists run, bodies. split; [exact Hrun|].
  assert (Hv : (fun r => (length (crCalls r), crErr r)) <$> pumpAutoContinue partUnmarshal (fun _ => "x") "ctx" "pipe"
      (fun _ => false) (fun _ => true) demoContinue 17 16 demoInitial "session" = Some (2%nat, None))
    by (vm_compute; reflexivity).
  change (S (Z.to_nat 16)) with 17%nat in Hrun. rewrite Hrun in Hv. injection Hv as H1 H2. rewrite H2 in Hres.
  destruct Hres as [Hlen _]. split; [congruence|exact Hop].
Defined.
