(* ===== verification/SessionKey.v ===== *)
(** Session keys: the second half of [internal/account/affinity.go].

    A session key fingerprints the caller, explicit identity fields, the system
    prompt and the first user message of a request body, so that the rounds of
    one conversation are sent to one account.  The hasher is the list of the
    bytes written to it; a function that writes to it returns what it writes. *)
From S2P Require Import Prelude GoString Json Sha256.
Local Open Scope Z_scope.

Definition identityFields : list (string * string) :=
  [("user", "user"); ("user_id", "user_id"); ("userId", "user_id"); ("session_id", "session_id");
   ("sessionId", "session_id"); ("conversation_id", "conversation_id"); ("conversationId", "conversation_id");
   ("thread_id", "thread_id"); ("threadId", "thread_id"); ("response_id", "response_id");
   ("responseId", "response_id"); ("previous_response_id", "previous_response_id");
   ("previousResponseId", "previous_response_id")].

Definition writeIdentityField (label value : string) : list N :=
  bytesOf "id:" ++ bytesOf label ++ bytesOf ":" ++ bytesOf value ++ [0%N].

(** The identity fields of one object, the labels prefixed. *)
Definition hashIdentityOf (prefix : string) (m : list (string * json)) : list N :=
  mjoin ((fun f => let v := TrimSpace (asString (member f.1 m)) in
                   if bool_decide (v = "") then [] else writeIdentityField (prefix +:+ f.2) v) <$> identityFields).

Definition hashSessionIdentity (doc : list (string * json)) : list N :=
  hashIdentityOf "" doc ++
  match isObject (member "metadata" doc) with
  | Some meta => hashIdentityOf "metadata." meta
  | None => []
  end.

(** ["sys:" text 0], nothing for an empty text. *)
Definition writeSys (text : string) : list N :=
  if bool_decide (text = "") then [] else bytesOf "sys:" ++ bytesOf text ++ [0%N].

(** The [text] members of a list of blocks. *)
Definition blockTexts (items : list json) : list string :=
  omap (fun item => match isObject (Some item) with
                    | Some m => match isString (member "text" m) with
                                | Some t => if bool_decide (t = "") then None else Some t
                                | None => None
                                end
                    | None => None
                    end) items.

Definition writeSysBlocks (items : list json) : list N := mjoin (writeSys <$> blockTexts items).

Definition responseInputText (msg : list (string * json)) : string :=
  let text := TrimSpace (asString (member "text" msg)) in
  if negb (bool_decide (text = "")) then text
  else match member "content" msg with
       | Some (JStr c) => TrimSpace c
       | Some (JArr c) =>
           TrimSpace (fold_left (fun b item =>
             match isObject (Some item) with
             | Some block => let text := TrimSpace (asString (member "text" block)) in
                             if bool_decide (text = "") then b else b +:+ text +:+ String (Ascii.ascii_of_N 10) ""
             | None => b
             end) c "")
       | _ => ""
       end.

Definition isSystemRole (role : string) : bool := bool_decide (role = "system") || bool_decide (role = "developer").

Definition inputRole (msg : list (string * json)) : string := ToLower (TrimSpace (asString (member "role" msg))).

Definition hashInputSystem (doc : list (string * json)) : list N :=
  match isArray (member "input" doc) with
  | None => []
  | Some items =>
      mjoin ((fun item => match isObject (Some item) with
                          | Some msg => if isSystemRole (inputRole msg) then writeSys (responseInputText msg) else []
                          | None => []
                          end) <$> items)
  end.

(** One entry of [messages]. *)
Definition hashSystemMessage (m : json) : list N :=
  match isObject (Some m) with
  | None => []
  | Some mm =>
      if negb (isSystemRole (asString (member "role" mm))) then []
      else match member "content" mm with
           | Some (JStr c) => writeSys c
           | Some (JArr ca) => writeSysBlocks ca
           | _ => []
           end
  end.

Definition hashSystem (doc : list (string * json)) : list N :=
  writeSys (TrimSpace (asString (member "instructions" doc))) ++
  match member "system" doc with
  | Some (JStr s) => writeSys s
  | Some (JArr s) => writeSysBlocks s
  | _ => []
  end ++
  match isObject (member "systemInstruction" doc) with
  | Some si => match isArray (member "parts" si) with Some parts => writeSysBlocks parts | None => [] end
  | None => []
  end ++
  match isArray (member "messages" doc) with
  | Some msgs => mjoin (hashSystemMessage <$> msgs)
  | None => []
  end ++
  hashInputSystem doc.

Definition writeUser (text : string) : list N := bytesOf "usr:" ++ bytesOf text.

(** ["usr:"] and the texts of the blocks, [None] when there is no text. *)
Definition writeUserBlocks (items : list json) : option (list N) :=
  match blockTexts items with
  | [] => None
  | ts => Some (bytesOf "usr:" ++ mjoin (bytesOf <$> ts))
  end.

(** The first message with the role [user], which ends the loop with or without
    content. *)
Fixpoint firstUserMessage (msgs : list json) : option (list N) :=
  match msgs with
  | [] => None
  | m :: msgs =>
      match isObject (Some m) with
      | None => firstUserMessage msgs
      | Some mm =>
          if negb (bool_decide (asString (member "role" mm) = "user")) then firstUserMessage msgs
          else match member "content" mm with
               | Some (JStr c) => if bool_decide (c = "") then None else Some (writeUser c)
               | Some (JArr c) => writeUserBlocks c
               | _ => None
               end
      end
  end.

Fixpoint firstInputItem (items : list json) : option (list N) :=
  match items with
  | [] => None
  | JStr x :: items =>
      if bool_decide (TrimSpace x = "") then firstInputItem items else Some (writeUser (TrimSpace x))
  | JObj x :: items =>
      let role := inputRole x in
      if negb (bool_decide (role = "")) && negb (bool_decide (role = "user")) then firstInputItem items
      else if bool_decide (responseInputText x = "") then firstInputItem items
      else Some (writeUser (responseInputText x))
  | _ :: items => firstInputItem items
  end.

Definition hashResponsesInputFirstUser (input : option json) : option (list N) :=
  match input with
  | Some (JStr v) => if bool_decide (TrimSpace v = "") then None else Some (writeUser (TrimSpace v))
  | Some (JArr v) => firstInputItem v
  | Some (JObj v) => if bool_decide (responseInputText v = "") then None else Some (writeUser (responseInputText v))
  | _ => None
  end.

Fixpoint firstContents (conts : list json) : option (list N) :=
  match conts with
  | [] => None
  | c :: conts =>
      match isObject (Some c) with
      | None => firstContents conts
      | Some cm =>
          let role := asString (member "role" cm) in
          if negb (bool_decide (role = "")) && negb (bool_decide (role = "user")) then firstContents conts
          else match isArray (member "parts" cm) with
               | None => firstContents conts
               | Some parts => writeUserBlocks parts
               end
      end
  end.

(** What is written, [None] for no user content. *)
Definition hashFirstUserText (doc : list (string * json)) : option (list N) :=
  match match isArray (member "messages" doc) with Some msgs => firstUserMessage msgs | None => None end with
  | Some w => Some w
  | None =>
      match hashResponsesInputFirstUser (member "input" doc) with
      | Some w => Some w
      | None => match isArray (member "contents" doc) with
                | Some conts => firstContents conts
                | None => None
                end
      end
  end.

(** What the hasher holds when the key is taken. *)
Definition sessionPreimage (callerHash : list N) (doc : list (string * json)) : option (list N) :=
  (fun usr => callerHash ++ [0%N] ++ hashSessionIdentity doc ++ hashSystem doc ++ usr) <$> hashFirstUserText doc.

Definition hashKey (preimage : list N) : string := EncodeToString (take 8 (Sum256 preimage)).

(** [Unmarshal] is [json.Unmarshal] of the body into a map. *)
Definition SessionKey (Unmarshal : list N -> option (list (string * json))) (callerHash body : list N) : string :=
  match body with
  | [] => ""
  | _ => match Unmarshal body with
         | None => ""
         | Some doc => match sessionPreimage callerHash doc with
                       | None => ""
                       | Some pre => hashKey pre
                       end
         end
  end.

Definition scopePreimage (callerHash : list N) (scope : string) : list N :=
  callerHash ++ [0%N] ++ bytesOf "scope:" ++ bytesOf (TrimSpace scope).

Definition ScopedSessionKey (callerHash : list N) (scope : string) : string :=
  if bool_decide (TrimSpace scope = "") then "" else hashKey (scopePreimage callerHash scope).

Definition CallerHash (token : string) : list N := Sum256 (bytesOf (TrimSpace token)).

(** ** Lemmas *)

(** The role of an entry of [messages]. *)
Definition messageRole (m : json) : string :=
  match isObject (Some m) with Some mm => asString (member "role" mm) | None => "" end.

Lemma firstUserMessage_app (ms extra : list json) :
  "user" ∈ (messageRole <$> ms) -> firstUserMessage (ms ++ extra) = firstUserMessage ms.
Proof.
  induction ms as [|m ms IH]; [by intros ?%elem_of_nil|].
  intros Hin. cbn [app firstUserMessage]. destruct (isObject (Some m)) as [mm|] eqn:Em.
  - case_bool_decide as Hr; simpl; [done|]. apply IH. apply elem_of_cons in Hin as [Hm|?]; [|done].
    exfalso. apply Hr. unfold messageRole in Hm. by rewrite Em in Hm.
  - apply IH. apply elem_of_cons in Hin as [Hm|?]; [|done]. unfold messageRole in Hm. by rewrite Em in Hm.
Qed.

Lemma hashSystemMessage_other (m : json) : isSystemRole (messageRole m) = false -> hashSystemMessage m = [].
Proof.
  unfold messageRole, hashSystemMessage. destruct (isObject (Some m)) as [mm|]; [|done]. intros ->. done.
Qed.

Lemma hashSystem_messages_app (ms extra : list json) :
  (forall m, m ∈ extra -> isSystemRole (messageRole m) = false) ->
  mjoin (hashSystemMessage <$> (ms ++ extra)) = mjoin (hashSystemMessage <$> ms).
Proof.
  intros H. rewrite fmap_app, join_app.
  assert (mjoin (hashSystemMessage <$> extra) = []) as ->; [|apply app_nil_r].
  induction extra as [|m extra IH]; [done|]. cbn [fmap list_fmap mjoin list_join].
  rewrite (hashSystemMessage_other m) by (apply H, elem_of_cons; by left). apply IH.
  intros m' Hm'. apply H, elem_of_cons. by right.
Qed.

(** Two bodies that agree on everything but [messages]. *)
Definition sameButMessages (doc doc' : list (string * json)) : Prop :=
  forall k, k <> "messages" -> member k doc' = member k doc.

Lemma hashIdentityOf_ext (prefix : string) (doc doc' : list (string * json)) :
  sameButMessages doc doc' -> hashIdentityOf prefix doc' = hashIdentityOf prefix doc.
Proof.
  intros H. unfold hashIdentityOf. f_equal. apply list_fmap_ext. intros i f Hf.
  rewrite (H f.1); [done|]. apply list_elem_of_lookup_2 in Hf. intros E.
  assert (Hno : Forall (fun f => f.1 <> "messages") identityFields) by (repeat constructor; discriminate).
  rewrite Forall_forall in Hno. by apply (Hno f).
Qed.

(** ** Tags and lengths *)

(** The writers' output starts with its tag. *)
Definition tagged (tag : string) (w : list N) : Prop := w = [] \/ exists r, w = bytesOf tag ++ r.

Lemma tagged_app tag w w' : tagged tag w -> tagged tag w' -> tagged tag (w ++ w').
Proof.
  intros [->|[r ->]] Hw'; [done|]. right. exists (r ++ w'). by rewrite app_assoc.
Qed.

Lemma tagged_join tag (ws : list (list N)) : Forall (tagged tag) ws -> tagged tag (mjoin ws).
Proof. induction 1 as [|w ws Hw Hws IH]; [by left|]. by apply tagged_app. Qed.

Lemma tagged_map {A} tag (f : A -> list N) (l : list A) :
  (forall x, tagged tag (f x)) -> tagged tag (mjoin (f <$> l)).
Proof. intros H. apply tagged_join. apply Forall_fmap, Forall_forall. intros x _. apply H. Qed.

Lemma tagged_sys text : tagged "sys:" (writeSys text).
Proof. unfold writeSys. case_bool_decide; [by left|]. right. by eexists. Qed.

Lemma tagged_nil tag : tagged tag [].
Proof. by left. Qed.

#[export] Hint Resolve tagged_app tagged_sys tagged_nil : gw.

Lemma tagged_blocks items : tagged "sys:" (writeSysBlocks items).
Proof. apply tagged_map. intros t. apply tagged_sys. Qed.

#[export] Hint Resolve tagged_blocks : gw.

Lemma hashSystem_tagged (doc : list (string * json)) : tagged "sys:" (hashSystem doc).
Proof.
  unfold hashSystem. repeat apply tagged_app; auto with gw.
  - destruct (member "system" doc) as [[]|]; auto with gw.
  - destruct (isObject _) as [si|]; [|auto with gw]. destruct (isArray _); auto with gw.
  - destruct (isArray _) as [msgs|]; [|auto with gw]. apply tagged_map. intros m. unfold hashSystemMessage.
    destruct (isObject _) as [mm|]; [|auto with gw]. destruct (negb _); [auto with gw|].
    destruct (member "content" mm) as [[]|]; auto with gw.
  - unfold hashInputSystem. destruct (isArray _) as [items|]; [|auto with gw]. apply tagged_map. intros m.
    destruct (isObject _); [|auto with gw]. destruct (isSystemRole _); auto with gw.
Qed.

Lemma hashIdentity_tagged (doc : list (string * json)) : tagged "id:" (hashSessionIdentity doc).
Proof.
  assert (Hof : forall prefix m, tagged "id:" (hashIdentityOf prefix m)).
  { intros prefix m. apply tagged_map. intros f. cbv zeta. case_bool_decide; [by left|]. right. by eexists. }
  unfold hashSessionIdentity. apply tagged_app; [apply Hof|]. destruct (isObject _); [apply Hof|by left].
Qed.

Lemma writeUserBlocks_tagged items w : writeUserBlocks items = Some w -> exists r, w = bytesOf "usr:" ++ r.
Proof. unfold writeUserBlocks. destruct (blockTexts items); [done|]. intros [= <-]. by eexists. Qed.

Lemma firstUser_tagged (doc : list (string * json)) w :
  hashFirstUserText doc = Some w -> exists r, w = bytesOf "usr:" ++ r.
Proof.
  assert (Hm : forall msgs w, firstUserMessage msgs = Some w -> exists r, w = bytesOf "usr:" ++ r).
  { intros msgs. induction msgs as [|m msgs IH]; intros u; cbn [firstUserMessage]; [done|].
    destruct (isObject _) as [mm|]; [|apply IH]. destruct (negb _); [apply IH|].
    destruct (member "content" mm) as [[]|]; try done; [|apply writeUserBlocks_tagged].
    case_bool_decide; [done|]. intros [= <-]. by eexists. }
  assert (Hi : forall items w, firstInputItem items = Some w -> exists r, w = bytesOf "usr:" ++ r).
  { intros items. induction items as [|m items IH]; intros u; cbn [firstInputItem]; [done|].
    destruct m; try apply IH.
    - case_bool_decide; [apply IH|]. intros [= <-]. by eexists.
    - destruct (_ && _); [apply IH|]. case_bool_decide; [apply IH|]. intros [= <-]. by eexists. }
  assert (Hc : forall conts w, firstContents conts = Some w -> exists r, w = bytesOf "usr:" ++ r).
  { intros conts. induction conts as [|m conts IH]; intros u; cbn [firstContents]; [done|].
    destruct (isObject _) as [mm|]; [|apply IH]. destruct (_ && _); [apply IH|].
    destruct (isArray _); [apply writeUserBlocks_tagged|apply IH]. }
  unfold hashFirstUserText. destruct (match isArray _ with Some _ => _ | None => _ end) as [u|] eqn:E1.
  - intros [= <-]. destruct (isArray (member "messages" doc)); [by eapply Hm|done].
  - destruct (hashResponsesInputFirstUser (member "input" doc)) as [u|] eqn:E2.
    + intros [= <-]. unfold hashResponsesInputFirstUser in E2.
      destruct (member "input" doc) as [[]|]; try done; try (by eapply Hi);
        case_bool_decide; simplify_eq; by eexists.
    + destruct (isArray (member "contents" doc)); [apply Hc|done].
Qed.

(** ** Properties *)

(** A conversation keeps its session key as it grows: appending messages to a
    body that already has a user message leaves the key unchanged, as long as
    none of them is a system or developer message and the rest of the body stays
    the same. *)
Theorem session_key_stable Unmarshal (callerHash body body' : list N) (doc doc' : list (string * json))
  (ms extra : list json) :
  body <> [] -> body' <> [] -> Unmarshal body = Some doc -> Unmarshal body' = Some doc' ->
  sameButMessages doc doc' ->
  member "messages" doc = Some (JArr ms) -> member "messages" doc' = Some (JArr (ms ++ extra)) ->
  "user" ∈ (messageRole <$> ms) -> (forall m, m ∈ extra -> isSystemRole (messageRole m) = false) ->
  SessionKey Unmarshal callerHash body' = SessionKey Unmarshal callerHash body.
Proof.
  intros Hb Hb' Hu Hu' Hsame Hm Hm' Huser Hextra. unfold SessionKey.
  destruct body as [|b body]; [done|]. destruct body' as [|b' body']; [done|]. rewrite Hu, Hu'.
  assert (Hget : forall k, k <> "messages" -> member k doc' = member k doc) by exact Hsame.
  unfold sessionPreimage.
  assert (hashFirstUserText doc' = hashFirstUserText doc) as ->.
  { unfold hashFirstUserText. rewrite Hm, Hm'. cbn [isArray].
    rewrite (firstUserMessage_app ms extra Huser), !Hget by done. done. }
  assert (hashSessionIdentity doc' = hashSessionIdentity doc) as ->.
  { unfold hashSessionIdentity. rewrite (hashIdentityOf_ext "" doc doc' Hsame), Hget by done. done. }
  assert (hashSystem doc' = hashSystem doc) as ->; [|done].
  unfold hashSystem, hashInputSystem. rewrite Hm, Hm'. cbn [isArray].
  rewrite (hashSystem_messages_app ms extra Hextra), !Hget by done. done.
Qed.

(** Sessions of different callers are hashed from different bytes: equal
    preimages come from equal caller hashes, for derived keys and for scoped
    keys, and a derived key is never hashed from the bytes of a scoped key.  So
    two callers share a key only by a collision of the truncated hash. *)
Theorem session_keys_separate (h1 h2 : list N) (doc1 doc2 : list (string * json)) (scope1 scope2 : string) (p1 p2 : list N) :
  length h1 = length h2 ->
  (sessionPreimage h1 doc1 = Some p1 -> sessionPreimage h2 doc2 = Some p2 -> p1 = p2 -> h1 = h2) /\
  (scopePreimage h1 scope1 = scopePreimage h2 scope2 -> h1 = h2 /\ TrimSpace scope1 = TrimSpace scope2) /\
  (sessionPreimage h1 doc1 = Some p1 -> p1 <> scopePreimage h2 scope2).
Proof.
  intros Hlen. unfold sessionPreimage, scopePreimage. split; [|split].
  - intros H1 H2 ->. destruct (hashFirstUserText doc1), (hashFirstUserText doc2); simplify_eq/=.
    apply app_inj_1 in H1; [|done]. by destruct H1.
  - intros H. apply app_inj_1 in H as [Hh H]; [|done]. split; [done|].
    apply app_inj_1 in H as [_ H]; [|done]. apply app_inj_1 in H as [_ H]; [|done].
    rewrite <- (stringOf_bytesOf (TrimSpace scope1)), H. apply stringOf_bytesOf.
  - destruct (hashFirstUserText doc1) as [u|] eqn:Eu; simpl; [|done]. intros [= <-] H.
    apply app_inj_1 in H as [_ H]; [|done]. injection H as H.
    destruct (firstUser_tagged doc1 u Eu) as [r ->].
    destruct (hashIdentity_tagged doc1) as [Hi|[ri Hi]]; rewrite Hi in H; [|discriminate H].
    destruct (hashSystem_tagged doc1) as [Hs|[rs Hs]]; rewrite Hs in H; discriminate H.
Qed.

Definition demoDoc (ms : list json) : list (string * json) :=
  [("model", JStr "m"); ("messages", JArr ms)].

Definition demoMessage (role text : string) : json := JObj [("role", JStr role); ("content", JStr text)].

Definition demoRound1 : list json := [demoMessage "system" "be brief"; demoMessage "user" "hi"].
Definition demoReply : list json := [demoMessage "assistant" "hello"; demoMessage "user" "and now?"].

(** A decoder that tells the two bodies apart by their first byte. *)
Definition demoBody (b : list N) : option (list (string * json)) :=
  match b with
  | 1%N :: _ => Some (demoDoc demoRound1)
  | 2%N :: _ => Some (demoDoc (demoRound1 ++ demoReply))
  | _ => None
  end.

Lemma session_key_stable_witness :
  SessionKey demoBody (CallerHash "k") [2%N] = SessionKey demoBody (CallerHash "k") [1%N].
Proof.
  apply (session_key_stable demoBody (CallerHash "k") [1%N] [2%N] (demoDoc demoRound1)
    (demoDoc (demoRound1 ++ demoReply)) demoRound1 demoReply); try reflexivity; try discriminate.
  - intros k Hk. cbn. case_bool_decide; [reflexivity|]. case_bool_decide; [contradiction|reflexivity].
  - apply elem_of_cons. right. apply elem_of_cons. left. reflexivity.
  - intros m [->|[->|Hm%elem_of_nil]%elem_of_cons]%elem_of_cons; [reflexivity|reflexivity|contradiction].
Defined.

Lemma session_keys_separate_witness :
  CallerHash "a" = CallerHash " a " /\ TrimSpace "x" = TrimSpace " x".
Proof.
  assert (Hl : length (CallerHash "a") = length (CallerHash " a "))
    by (unfold CallerHash; rewrite !Sum256_length; reflexivity).
  apply (session_keys_separate (CallerHash "a") (CallerHash " a ") [] [] "x" " x" [] [] Hl).
  vm_compute. reflexivity.
Defined.
