(* ===== verification/Proxy.v ===== *)
(** Egress proxies: [Proxy], [NormalizeProxy], [StableProxyID] of
    [internal/config/config.go], the policy of [internal/config/proxy_policy.go]
    and the type names of [internal/proxyuri/node.go].

    The parser of node URIs ([proxyuri.Parse]) is a parameter, of which only the
    address, the port and the display name are used here; what is proved holds for
    every parser.  Clock readings are in seconds since the epoch. *)
From S2P Require Import Prelude GoString Config Affinity Sha256.
From Stdlib Require Import Ascii.
Local Open Scope Z_scope.

(** ** Runes *)

Definition inRange (lo hi : N) (c : ascii) : bool := (lo <=? code c)%N && (code c <=? hi)%N.

(** The first rune of a string as it is encoded, and the rest; a byte that does
    not start a valid encoding is one rune, encoded as U+FFFD. *)
Definition nextRune (s : string) : option (string * string) :=
  let bad r := Some (stringOf [0xEF; 0xBF; 0xBD]%N, r) in
  let cont := inRange 0x80 0xBF in
  match s with
  | EmptyString => None
  | String a r1 =>
      if (code a <? 0x80)%N then Some (String a "", r1)
      else match r1 with
      | EmptyString => bad r1
      | String b r2 =>
          if inRange 0xC2 0xDF a && cont b then Some (String a (String b ""), r2)
          else match r2 with
          | EmptyString => bad r1
          | String c r3 =>
              let b3 := if (code a =? 0xE0)%N then inRange 0xA0 0xBF b
                        else if (code a =? 0xED)%N then inRange 0x80 0x9F b else cont b in
              if inRange 0xE0 0xEF a && b3 && cont c then Some (String a (String b (String c "")), r3)
              else match r3 with
              | EmptyString => bad r1
              | String d r4 =>
                  let b4 := if (code a =? 0xF0)%N then inRange 0x90 0xBF b
                            else if (code a =? 0xF4)%N then inRange 0x80 0x8F b else cont b in
                  if inRange 0xF0 0xF4 a && b4 && cont c && cont d
                  then Some (String a (String b (String c (String d ""))), r4) else bad r1
              end
          end
      end
  end.

(** [[]rune(s)], every rune as its encoding. *)
Fixpoint runesFrom (fuel : nat) (s : string) : list string :=
  match fuel with
  | O => []
  | S fuel => match nextRune s with
              | None => []
              | Some (r, s) => r :: runesFrom fuel s
              end
  end.

Definition runes (s : string) : list string := runesFrom (String.length s) s.

Definition concatStr (l : list string) : string := fold_right (fun a b => a +:+ b) "" l.

(** Cut after [n] runes, with an ellipsis. *)
Definition truncateRunes (n : nat) (s : string) : string :=
  if (n <? length (runes s))%nat then concatStr (take n (runes s)) +:+ "..." else s.

(** ** Types *)

Definition NormalizeType (value : string) : string :=
  let v := ToLower (TrimSpace value) in
  if bool_decide (v ∈ ["hy2"; "hysteria2"]) then "hysteria2"
  else if bool_decide (v ∈ ["ss"; "shadowsocks"]) then "shadowsocks"
  else v.

Definition IsCoreType (value : string) : bool :=
  bool_decide (NormalizeType value ∈ ["vless"; "vmess"; "hysteria2"; "shadowsocks"]).

(** ** Proxies *)

Record Proxy := {
  pID : string; pName : string; pType : string; pHost : string; pPort : Z;
  pUsername : string; pPassword : string; pURI : string; pSubscriptionID : string;
  pDisabled : bool; pDisabledReason : string; pDisabledAtUnix : Z; ConsecutiveFailures : Z;
  LastTestAtUnix : Z; LastTestSuccess : bool; LastLatencyMS : Z; LastHTTPStatus : Z;
  LastTestError : string; LastExitIP : string; LastCountry : string; LastColo : string
}.

Definition ProxyDisabledHealth : string := "health_check_failed".

Record ProxyPolicyConfig := {
  HealthCheckEnabled : option bool;
  AutomaticRoutingEnabled : option bool;
  HealthCheckIntervalMinutes : Z;
  AutoDisableAfterFailures : Z;
  AutoEnableOnRecovery : option bool;
  FallbackProxyID : string;
  SubscriptionUpdateIntervalMinutes : Z;
  TestConcurrency : Z
}.

Record Node := { nType : string; Address : string; nPort : Z; DisplayName : string }.

Definition StableProxyID (p : Proxy) : string :=
  let ty := NormalizeType (pType p) in
  if IsCoreType ty then
    "proxy_" +:+ EncodeToString (take 6 (Sum256 (bytesOf (ty +:+ "|" +:+ TrimSpace (pURI p)))))
  else
    "proxy_" +:+ EncodeToString (take 6 (sha1Sum (bytesOf
      (ToLower (TrimSpace ty) +:+ "|" +:+ ToLower (TrimSpace (pHost p)) +:+ "|" +:+ pretty (pPort p) +:+ "|"
       +:+ TrimSpace (pUsername p))))).

Section Normalize.
Variable Parse : string -> string -> option Node.

Definition NormalizeProxy (p : Proxy) : Proxy :=
  let ty := NormalizeType (pType p) in
  let name := TrimSpace (pName p) in
  let uri := TrimSpace (pURI p) in
  let core := IsCoreType ty in
  let node := if core then Parse ty uri else None in
  let host := if core then match node with Some n => Address n | None => "" end else TrimSpace (pHost p) in
  let port := if core then match node with Some n => nPort n | None => 0 end else pPort p in
  let name := match node with
              | Some n => if bool_decide (name = "") then DisplayName n else name
              | None => name
              end in
  let q := {|
    pID := TrimSpace (pID p); pName := name; pType := ty; pHost := host; pPort := port;
    pUsername := if core then "" else TrimSpace (pUsername p);
    pPassword := if core then "" else TrimSpace (pPassword p);
    pURI := if core then uri else "";
    pSubscriptionID := TrimSpace (pSubscriptionID p);
    pDisabled := pDisabled p; pDisabledReason := TrimSpace (pDisabledReason p);
    pDisabledAtUnix := pDisabledAtUnix p;
    ConsecutiveFailures := if ConsecutiveFailures p <? 0 then 0 else ConsecutiveFailures p;
    LastTestAtUnix := LastTestAtUnix p; LastTestSuccess := LastTestSuccess p;
    LastLatencyMS := LastLatencyMS p; LastHTTPStatus := LastHTTPStatus p;
    LastTestError := truncateRunes 600 (TrimSpace (LastTestError p));
    LastExitIP := TrimSpace (LastExitIP p); LastCountry := ToUpper (TrimSpace (LastCountry p));
    LastColo := ToUpper (TrimSpace (LastColo p)) |} in
  {|
    pID := if bool_decide (pID q = "") then StableProxyID q else pID q;
    pName := if bool_decide (pName q = "") && negb (bool_decide (pHost q = "")) && (0 <? pPort q)
             then pHost q +:+ ":" +:+ pretty (pPort q) else pName q;
    pType := pType q; pHost := pHost q; pPort := pPort q; pUsername := pUsername q; pPassword := pPassword q;
    pURI := pURI q; pSubscriptionID := pSubscriptionID q; pDisabled := pDisabled q;
    pDisabledReason := pDisabledReason q; pDisabledAtUnix := pDisabledAtUnix q;
    ConsecutiveFailures := ConsecutiveFailures q; LastTestAtUnix := LastTestAtUnix q;
    LastTestSuccess := LastTestSuccess q; LastLatencyMS := LastLatencyMS q; LastHTTPStatus := LastHTTPStatus q;
    LastTestError := LastTestError q; LastExitIP := LastExitIP q; LastCountry := LastCountry q;
    LastColo := LastColo q |}.

(** ** Policy *)

Definition AutoRouteEnabled (p : ProxyPolicyConfig) : bool := default false (AutomaticRoutingEnabled p).
Definition HealthChecksEnabled (p : ProxyPolicyConfig) : bool := default true (HealthCheckEnabled p).
Definition EnableOnRecovery (p : ProxyPolicyConfig) : bool := default true (AutoEnableOnRecovery p).

Definition orDefault (n d : Z) : Z := if 0 <? n then n else d.

Definition HealthIntervalMinutes (p : ProxyPolicyConfig) : Z := orDefault (HealthCheckIntervalMinutes p) 15.
Definition DisableAfterFailures (p : ProxyPolicyConfig) : Z := orDefault (AutoDisableAfterFailures p) 3.
Definition SubscriptionIntervalMinutes (p : ProxyPolicyConfig) : Z :=
  orDefault (SubscriptionUpdateIntervalMinutes p) 60.
Definition Concurrency (p : ProxyPolicyConfig) : Z := orDefault (TestConcurrency p) 4.

Definition minute : Z := 60 * second.

Definition ProxyRouteHealthMaxAge (policy : ProxyPolicyConfig) : Z :=
  let maxAge := i64 (i64 (HealthIntervalMinutes policy * 2) * minute) in
  if maxAge <? 30 * minute then 30 * minute else maxAge.

Definition ProxyAvailableForRoutingAt (p : Proxy) (nowUnix maxAge : Z) : bool :=
  let p := NormalizeProxy p in
  if pDisabled p || (LastTestAtUnix p <=? 0) || negb (LastTestSuccess p) then false
  else if (maxAge <=? 0) || (nowUnix <=? LastTestAtUnix p) then true
  else i64 (nowUnix - LastTestAtUnix p) <=? Z.quot maxAge second.

Definition ProxyAvailableForRouting (p : Proxy) (policy : ProxyPolicyConfig) (nowUnix : Z) : bool :=
  ProxyAvailableForRoutingAt p nowUnix (ProxyRouteHealthMaxAge policy).
End Normalize.
