(* ===== verification/ProxyRouter.v ===== *)
(** Assignment of accounts to egress proxies: [internal/proxyservice/router.go]:
    automatic routing, and the evacuation of accounts from deleted proxies.

    [ProxyCfg] is the part of the configuration these functions read and write;
    [clk i] is the clock reading when the [i]-th proxy is judged.  A function that
    may fail returns the configuration it leaves beside the error. *)
From S2P Require Import Prelude GoString Config Affinity Sha256 Proxy.
From Stdlib Require Import Ascii.
Local Open Scope Z_scope.

Record ProxyCfg := {
  pcProxies : list Proxy;
  pcAccounts : list Account;
  pcPolicy : ProxyPolicyConfig
}.

Definition setAccounts (l : list Account) (c : ProxyCfg) : ProxyCfg :=
  {| pcProxies := pcProxies c; pcAccounts := l; pcPolicy := pcPolicy c |}.

Record AutoRouteChange := {
  AccountID : string;
  FromProxyID : string;
  ToProxyID : string;
  ChangeReason : string
}.

Inductive routeError :=
| FallbackSelected (id : string)
| NoFallback
| FallbackMissing (id : string)
| FallbackDisabled (id : string)
| AutoRouteOff
| NoReplacement
| SubscriptionManual
| SubscriptionLeft
| SubscriptionWrapped (e : routeError).

(** Route of an account, and the account on another route: its login token was
    bound to the old egress and is dropped. *)
Definition routeOf (a : Account) : string := TrimSpace (ProxyID a).

Definition moveAccount (target : string) (a : Account) : Account :=
  {| Name := Name a; Remark := Remark a; Email := Email a; Mobile := Mobile a; Password := Password a;
     Token := ""; ProxyID := target; ProxyAutoRoute := ProxyAutoRoute a; Disabled := Disabled a;
     DisabledReason := DisabledReason a; DisabledAtUnix := DisabledAtUnix a;
     CooldownState := CooldownState a; CooldownUntilUnix := CooldownUntilUnix a |}.

(** ** Counts *)

(** [counts[id]++] *)
Definition incr (id : string) (counts : gmap string Z) : gmap string Z :=
  <[id := default 0 (counts !! id) + 1]> counts.

Definition countAssigned (keep : Account -> bool) (accounts : list Account) : gmap string Z :=
  fold_left (fun m a => if Disabled a || bool_decide (routeOf a = "") || negb (keep a) then m else incr (routeOf a) m)
    accounts ∅.

(** Assigned and automatically assigned accounts per proxy. *)
Definition ProxyAssignmentCounts (c : ProxyCfg) : gmap string Z * gmap string Z :=
  (countAssigned (fun _ => true) (pcAccounts c), countAssigned ProxyAutoRoute (pcAccounts c)).

Definition activeAssignmentsExcluding (accounts : list Account) (excluded : gset string) : gmap string Z :=
  countAssigned (fun a => negb (bool_decide (routeOf a ∈ excluded))) accounts.

Definition effectiveRouteLatency (latency : Z) : Z := if latency <=? 0 then maxInt else latency.

(** The order of the candidates: fewer accounts, lower latency, smaller id. *)
Definition routeBefore (available : gmap string Proxy) (counts : gmap string Z) (x y : string) : bool :=
  let count id := default 0 (counts !! id) in
  let latency id := effectiveRouteLatency (match available !! id with Some p => LastLatencyMS p | None => 0 end) in
  if negb (count x =? count y) then count x <? count y
  else if negb (latency x =? latency y) then latency x <? latency y
  else String.ltb x y.

(** The first candidate of the sorted list, that is the least one. *)
Definition leastAssignedRoute (available : gmap string Proxy) (counts : gmap string Z) : string :=
  match (map_to_list available).*1 with
  | [] => ""
  | id :: ids => fold_left (fun best id => if routeBefore available counts id best then id else best) ids id
  end.

(** ** Sorting account indices *)

(** ["%08d"] *)
Definition pad8 (n : nat) : string :=
  let s := pretty n in concatStr (replicate (8 - String.length s) "0") +:+ s.

Definition accountSortKey (a : Account) (index : nat) : string :=
  Identifier a +:+ String (ascii_of_N 0) "" +:+ pad8 index.

Definition accountAt (l : list Account) (i : nat) : Account := default zeroAccount (l !! i).

Section Routing.
Variable Parse : string -> string -> option Node.
Notation NormalizeProxy := (NormalizeProxy Parse).

(** The normalised proxies that are not excluded and are fit for routing, by id. *)
Fixpoint availableFrom (policy : ProxyPolicyConfig) (clk : nat -> Z) (excluded : gset string) (i : nat)
  (proxies : list Proxy) (m : gmap string Proxy) : gmap string Proxy :=
  match proxies with
  | [] => m
  | raw :: proxies =>
      let p := NormalizeProxy raw in
      if bool_decide (pID p ∈ excluded) then availableFrom policy clk excluded (S i) proxies m
      else availableFrom policy clk excluded (S i) proxies
             (if ProxyAvailableForRouting Parse p policy (clk i) then <[pID p := p]> m else m)
  end.

Definition availableRoutes (c : ProxyCfg) (clk : nat -> Z) (excluded : gset string) : gmap string Proxy :=
  availableFrom (pcPolicy c) clk excluded 0 (pcProxies c) ∅.

(** The proxies that stay, by id. *)
Definition remainingProxies (c : ProxyCfg) (wanted : gset string) : gmap string Proxy :=
  fold_left (fun m raw => let p := NormalizeProxy raw in
                          if bool_decide (pID p ∈ wanted) then m else <[pID p := p]> m) (pcProxies c) ∅.

(** ** Automatic routing *)

Definition autoRouted (a : Account) : bool :=
  negb (Disabled a) && ProxyAutoRoute a && negb (bool_decide (TrimSpace (Password a) = "")).

Record RouteState := { rAccounts : list Account; rCounts : gmap string Z; rChanges : list AutoRouteChange }.

Definition autoRouteOne (available : gmap string Proxy) (s : RouteState) (index : nat) : RouteState :=
  let a := accountAt (rAccounts s) index in
  let currentID := routeOf a in
  match available !! currentID with
  | Some _ => s
  | None =>
      let nextID := leastAssignedRoute available (rCounts s) in
      if bool_decide (nextID = "") || bool_decide (nextID = currentID) then s
      else {| rAccounts := alter (moveAccount nextID) index (rAccounts s);
              rCounts := incr nextID (rCounts s);
              rChanges := rChanges s ++
                [{| AccountID := Identifier (moveAccount nextID a); FromProxyID := currentID; ToProxyID := nextID;
                    ChangeReason := if bool_decide (currentID = "") then "unassigned" else "node_unavailable" |}] |}
  end.

Definition autoIndices (accounts : list Account) : list nat :=
  sortBy (fun i j => String.ltb (Identifier (accountAt accounts i)) (Identifier (accountAt accounts j)))
    (filter (fun i => autoRouted (accountAt accounts i) = true) (seq 0 (length accounts))).

Definition applyAutoRouteChanges (clk : nat -> Z) (c : ProxyCfg) : ProxyCfg * list AutoRouteChange :=
  if negb (AutoRouteEnabled (pcPolicy c)) then (c, [])
  else
    let available := availableRoutes c clk ∅ in
    let '(counts, _) := ProxyAssignmentCounts c in
    let s := fold_left (autoRouteOne available) (autoIndices (pcAccounts c))
               {| rAccounts := pcAccounts c; rCounts := counts; rChanges := [] |} in
    (setAccounts (rAccounts s) c, rChanges s).

(** The plan is the same computation on a copy. *)
Definition planAutoRouteChanges (clk : nat -> Z) (c : ProxyCfg) : list AutoRouteChange :=
  (applyAutoRouteChanges clk c).2.

(** ** Deleting proxies *)

(** The closure [move] with the count that follows it. *)
Definition moveOne (reason target : string) (index : nat) (s : RouteState) : RouteState :=
  let a := accountAt (rAccounts s) index in
  let counts := if Disabled a then rCounts s else incr target (rCounts s) in
  if bool_decide (routeOf a = target) then {| rAccounts := rAccounts s; rCounts := counts; rChanges := rChanges s |}
  else {| rAccounts := alter (moveAccount target) index (rAccounts s); rCounts := counts;
          rChanges := if Disabled a then rChanges s
                      else rChanges s ++ [{| AccountID := Identifier (moveAccount target a); FromProxyID := routeOf a;
                                             ToProxyID := target; ChangeReason := reason |}] |}.

(** The loop over the automatic accounts; it stops at a missing replacement. *)
Fixpoint moveAutomatic (available : gmap string Proxy) (indices : list nat) (s : RouteState) : RouteState * bool :=
  match indices with
  | [] => (s, true)
  | index :: indices =>
      let nextID := leastAssignedRoute available (rCounts s) in
      if bool_decide (nextID = "") then (s, false)
      else moveAutomatic available indices (moveOne "node_deleted" nextID index s)
  end.

Definition trimmedSet (ids : list string) : gset string := list_to_set (filter (fun s => s <> "") (TrimSpace <$> ids)).

Definition indicesOf (pick : Account -> bool) (accounts : list Account) : list nat :=
  sortBy (fun i j => String.ltb (accountSortKey (accountAt accounts i) i) (accountSortKey (accountAt accounts j) j))
    (filter (fun i => pick (accountAt accounts i) = true) (seq 0 (length accounts))).

Definition ReassignDeletedProxyRoutes (clk : nat -> Z) (deleted : list string) (c : ProxyCfg)
  : ProxyCfg * result routeError (list AutoRouteChange) :=
  let wanted := trimmedSet deleted in
  if bool_decide (wanted = ∅) then (c, Ok [])
  else
    let remaining := remainingProxies c wanted in
    let available := availableRoutes c clk wanted in
    let fallbackID := TrimSpace (FallbackProxyID (pcPolicy c)) in
    let affected a := bool_decide (routeOf a ∈ wanted) in
    let manual := indicesOf (fun a => affected a && negb (ProxyAutoRoute a)) (pcAccounts c) in
    let automatic := indicesOf (fun a => affected a && ProxyAutoRoute a) (pcAccounts c) in
    let manualErr :=
      match manual with
      | [] => None
      | _ => if bool_decide (fallbackID = "") then Some NoFallback
             else match remaining !! fallbackID with
                  | None => Some (FallbackMissing fallbackID)
                  | Some p => if pDisabled p then Some (FallbackDisabled fallbackID) else None
                  end
      end in
    let autoErr :=
      match automatic with
      | [] => None
      | _ => if negb (AutoRouteEnabled (pcPolicy c)) then Some AutoRouteOff
             else if bool_decide (available = ∅) then Some NoReplacement else None
      end in
    if negb (bool_decide (fallbackID = "")) && bool_decide (fallbackID ∈ wanted)
    then (c, Err (FallbackSelected fallbackID))
    else match manualErr, autoErr with
    | Some e, _ => (c, Err e)
    | None, Some e => (c, Err e)
    | None, None =>
        let s := fold_left (fun s i => moveOne "node_deleted_fallback" fallbackID i s) manual
                   {| rAccounts := pcAccounts c; rCounts := activeAssignmentsExcluding (pcAccounts c) wanted;
                      rChanges := [] |} in
        let '(s, ok) := moveAutomatic available automatic s in
        (setAccounts (rAccounts s) c, if ok then Ok (rChanges s) else Err NoReplacement)
    end.

Definition ReassignSubscriptionRemovedRoutes (clk : nat -> Z) (deleted : list string) (c : ProxyCfg)
  : ProxyCfg * result routeError (list AutoRouteChange) :=
  let wanted := trimmedSet deleted in
  if bool_decide (wanted = ∅) then (c, Ok [])
  else
    let fallbackID := TrimSpace (FallbackProxyID (pcPolicy c)) in
    let fallbackRemoved := negb (bool_decide (fallbackID = "")) && bool_decide (fallbackID ∈ wanted) in
    let manualAffected := existsb (fun a => negb (ProxyAutoRoute a) && bool_decide (routeOf a ∈ wanted)) (pcAccounts c) in
    if fallbackRemoved && manualAffected then (c, Err SubscriptionManual)
    else
      let c := if fallbackRemoved
               then {| pcProxies := pcProxies c; pcAccounts := pcAccounts c;
                       pcPolicy := {| HealthCheckEnabled := HealthCheckEnabled (pcPolicy c);
                         AutomaticRoutingEnabled := AutomaticRoutingEnabled (pcPolicy c);
                         HealthCheckIntervalMinutes := HealthCheckIntervalMinutes (pcPolicy c);
                         AutoDisableAfterFailures := AutoDisableAfterFailures (pcPolicy c);
                         AutoEnableOnRecovery := AutoEnableOnRecovery (pcPolicy c);
                         FallbackProxyID := "";
                         SubscriptionUpdateIntervalMinutes := SubscriptionUpdateIntervalMinutes (pcPolicy c);
                         TestConcurrency := TestConcurrency (pcPolicy c) |} |}
               else c in
      match ReassignDeletedProxyRoutes clk (elements wanted) c with
      | (c, Err e) => (c, Err (SubscriptionWrapped e))
      | (c, Ok changes) =>
          if existsb (fun a => bool_decide (routeOf a ∈ wanted)) (pcAccounts c) then (c, Err SubscriptionLeft)
          else (c, Ok changes)
      end.
End Routing.

(** ** Lemmas: choice and order *)

Definition countOf (counts : gmap string Z) (id : string) : Z := default 0 (counts !! id).

Lemma routeBefore_count (available : gmap string Proxy) (counts : gmap string Z) (x y : string) :
  if routeBefore available counts x y then countOf counts x <= countOf counts y
  else countOf counts y <= countOf counts x.
Proof.
  unfold routeBefore, countOf. destruct (Z.eqb_spec (default 0 (counts !! x)) (default 0 (counts !! y))) as [E|E]; simpl.
  - destruct (negb _); [destruct (_ <? _)|destruct (String.ltb x y)]; lia.
  - destruct (Z.ltb_spec (default 0 (counts !! x)) (default 0 (counts !! y))); lia.
Qed.

(** The least assigned route is one of the candidates, and no candidate has fewer
    accounts. *)
Lemma leastAssignedRoute_spec (available : gmap string Proxy) (counts : gmap string Z) :
  available <> ∅ ->
  is_Some (available !! leastAssignedRoute available counts) /\
  forall id, is_Some (available !! id) -> countOf counts (leastAssignedRoute available counts) <= countOf counts id.
Proof.
  intros Hne. unfold leastAssignedRoute.
  assert (Hin : forall id, id ∈ (map_to_list available).*1 <-> is_Some (available !! id)).
  { intros id. rewrite list_elem_of_fmap. split.
    - intros ([k p] & -> & Hk). apply elem_of_map_to_list in Hk. by exists p.
    - intros [p Hp]. exists (id, p). split; [done|]. by apply elem_of_map_to_list. }
  destruct ((map_to_list available).*1) as [|id ids] eqn:E.
  { destruct Hne. apply map_eq. intros k. rewrite lookup_empty. destruct (available !! k) as [p|] eqn:Hk; [|done].
    assert (Hk' : k ∈ ([] : list string)) by (apply Hin; by exists p). by apply elem_of_nil in Hk'. }
  assert (Hfold : forall l best, let r := fold_left (fun best id => if routeBefore available counts id best then id else best) l best in
    (r = best \/ r ∈ l) /\ countOf counts r <= countOf counts best /\ forall x, x ∈ l -> countOf counts r <= countOf counts x).
  { clear. induction l as [|x l IH]; intros best; simpl.
    - split; [by left|]. split; [lia|]. by intros x ?%elem_of_nil.
    - pose proof (routeBefore_count available counts x best) as Hb.
      destruct (IH (if routeBefore available counts x best then x else best)) as (H1 & H2 & H3).
      destruct (routeBefore available counts x best).
      + split; [destruct H1 as [->|?]; right; apply elem_of_cons; auto|]. split; [lia|].
        intros y [->|?]%elem_of_cons; [lia|auto].
      + split; [destruct H1 as [->|?]; [by left|right; apply elem_of_cons; auto]|]. split; [lia|].
        intros y [->|?]%elem_of_cons; [lia|auto]. }
  destruct (Hfold ids id) as (H1 & H2 & H3). split.
  - apply Hin, elem_of_cons. exact H1.
  - intros x [->|?]%Hin%elem_of_cons; auto.
Qed.

(** The indices that a sort of the picked accounts yields. *)
Lemma picked_indices (lt : nat -> nat -> bool) (pick : Account -> bool) (accounts : list Account) :
  let l := sortBy lt (filter (fun i => pick (accountAt accounts i) = true) (seq 0 (length accounts))) in
  NoDup l /\ forall i a, accounts !! i = Some a -> (i ∈ l <-> pick a = true).
Proof.
  intros l. unfold l. split.
  - rewrite sortBy_perm. apply NoDup_filter, NoDup_seq.
  - intros i a Ha. rewrite sortBy_perm, list_elem_of_filter, elem_of_seq.
    unfold accountAt. rewrite Ha. simpl. apply lookup_lt_Some in Ha. intuition lia.
Qed.

(** ** Lemmas: running over indices *)

Lemma fold_indices {S} (acc : S -> list Account) (f : S -> nat -> S) (P : Account -> Account -> Prop)
  (l : list nat) (s0 : S) :
  NoDup l ->
  (forall s i a, acc s !! i = Some a -> exists a', acc (f s i) !! i = Some a' /\ P a a') ->
  (forall s i j, j <> i -> acc (f s i) !! j = acc s !! j) ->
  forall j a, acc s0 !! j = Some a ->
    exists a', acc (fold_left f l s0) !! j = Some a' /\ (j ∈ l -> P a a') /\ ((j ∉ l) -> a' = a).
Proof.
  intros Hnd Hself Hother. revert s0. induction Hnd as [|i l Hi Hnd IH]; intros s0 j a Ha; simpl.
  { exists a. split; [done|]. split; [by intros ?%elem_of_nil|done]. }
  destruct (decide (j = i)) as [->|Hne].
  - destruct (Hself s0 i a Ha) as (a' & Ha' & HP).
    destruct (IH (f s0 i) i a' Ha') as (a2 & Ha2 & _ & Hsame). specialize (Hsame Hi). subst a2.
    exists a'. split; [done|]. split; [done|]. intros Hn. destruct Hn. apply elem_of_cons. by left.
  - rewrite <- (Hother s0 i j Hne) in Ha. destruct (IH (f s0 i) j a Ha) as (a' & Ha' & HP & Hsame).
    exists a'. split; [done|]. split; [intros [?|?]%elem_of_cons; [done|auto]|].
    intros Hn. apply Hsame. intros ?. apply Hn, elem_of_cons. by right.
Qed.

Lemma alter_self (g : Account -> Account) (i : nat) (l : list Account) (a : Account) :
  l !! i = Some a -> alter g i l !! i = Some (g a).
Proof. intros H. by rewrite list_lookup_alter_eq, H. Qed.

Lemma accountAt_lookup (l : list Account) (i : nat) (a : Account) : l !! i = Some a -> accountAt l i = a.
Proof. intros H. unfold accountAt. by rewrite H. Qed.

(** ** Lemmas: candidates *)

Section RouteFacts.
Context (Parse : string -> string -> option Node).

Lemma proxy_id_nonempty (s : string) : "proxy_" +:+ s <> "".
Proof. discriminate. Qed.

Lemma StableProxyID_nonempty (p : Proxy) : StableProxyID p <> "".
Proof. unfold StableProxyID. cbv zeta. destruct (IsCoreType _); apply proxy_id_nonempty. Qed.

Lemma NormalizeProxy_id (p : Proxy) : pID (NormalizeProxy Parse p) <> "".
Proof.
  unfold NormalizeProxy. cbv zeta. cbn [pID].
  destruct (decide (TrimSpace (pID p) = "")) as [H|H].
  - rewrite bool_decide_eq_true_2 by exact H. apply StableProxyID_nonempty.
  - rewrite bool_decide_eq_false_2 by exact H. exact H.
Qed.

(** What a candidate is: a configured proxy, not excluded, tested successfully and
    recently enough. *)
Definition goodRoute (c : ProxyCfg) (clk : nat -> Z) (excluded : gset string) (id : string) (p : Proxy) : Prop :=
  id = pID p /\ id <> "" /\ (id ∉ excluded) /\
  (exists raw, raw ∈ pcProxies c /\ p = NormalizeProxy Parse raw) /\
  exists i, ProxyAvailableForRouting Parse p (pcPolicy c) (clk i) = true.

Lemma availableFrom_spec (c : ProxyCfg) clk excluded i proxies m :
  (forall raw, raw ∈ proxies -> raw ∈ pcProxies c) ->
  (forall id p, m !! id = Some p -> goodRoute c clk excluded id p) ->
  forall id p, availableFrom Parse (pcPolicy c) clk excluded i proxies m !! id = Some p ->
    goodRoute c clk excluded id p.
Proof.
  revert i m. induction proxies as [|raw proxies IH]; intros i m Hin Hm; cbn [availableFrom]; [done|].
  assert (Hin' : forall r, r ∈ proxies -> r ∈ pcProxies c) by (intros r Hr; apply Hin, elem_of_cons; by right).
  case_bool_decide as Hex; [by apply IH|].
  apply IH; [done|]. destruct (ProxyAvailableForRouting _ _ _ _) eqn:Eav; [|done].
  intros id p [[<- <-]|[_ ?]]%lookup_insert_Some; [|auto].
  split; [done|]. split; [apply NormalizeProxy_id|]. split; [done|]. split; [|by exists i].
  exists raw. split; [apply Hin, elem_of_cons; by left|done].
Qed.

Lemma availableRoutes_spec (c : ProxyCfg) clk excluded id p :
  availableRoutes Parse c clk excluded !! id = Some p -> goodRoute c clk excluded id p.
Proof.
  refine (availableFrom_spec c clk excluded 0 (pcProxies c) ∅ (fun _ H => H) _ id p).
  intros k q H. rewrite lookup_empty in H. discriminate H.
Qed.

Lemma leastRoute_nonempty (c : ProxyCfg) clk excluded counts :
  availableRoutes Parse c clk excluded <> ∅ ->
  leastAssignedRoute (availableRoutes Parse c clk excluded) counts <> "".
Proof.
  intros Hne. destruct (leastAssignedRoute_spec _ counts Hne) as [[p Hp] _].
  by apply availableRoutes_spec in Hp as (_ & ? & _).
Qed.

Lemma leastRoute_empty counts : leastAssignedRoute ∅ counts = "".
Proof. unfold leastAssignedRoute. by rewrite map_to_list_empty. Qed.

(** ** Lemmas: automatic routing *)

(** What one account may become. *)
Definition rerouted (available : gmap string Proxy) (a a' : Account) : Prop :=
  match available !! routeOf a with
  | Some _ => a' = a
  | None => if bool_decide (available = ∅) then a' = a
            else exists id, is_Some (available !! id) /\ a' = moveAccount id a
  end.

Lemma autoRouteOne_self (c : ProxyCfg) clk s i a :
  rAccounts s !! i = Some a ->
  exists a', rAccounts (autoRouteOne (availableRoutes Parse c clk ∅) s i) !! i = Some a' /\
    rerouted (availableRoutes Parse c clk ∅) a a'.
Proof.
  intros Ha. unfold autoRouteOne, rerouted. rewrite (accountAt_lookup _ _ _ Ha). cbv zeta.
  set (available := availableRoutes Parse c clk ∅).
  destruct (available !! routeOf a) as [p|] eqn:Er; [by exists a|].
  destruct (decide (available = ∅)) as [Hem|Hem].
  - rewrite (bool_decide_eq_true_2 (available = ∅)) by exact Hem. rewrite Hem, leastRoute_empty. by exists a.
  - rewrite (bool_decide_eq_false_2 (available = ∅)) by exact Hem.
    destruct (leastAssignedRoute_spec available (rCounts s) Hem) as [Hsome _].
    rewrite (bool_decide_eq_false_2 (_ = "")) by (by apply leastRoute_nonempty).
    rewrite bool_decide_eq_false_2 by (intros Heq; rewrite Heq, Er in Hsome; by destruct Hsome).
    eexists. split; [by apply alter_self|]. by eexists.
Qed.

Lemma autoRouteOne_other available s i j :
  j <> i -> rAccounts (autoRouteOne available s i) !! j = rAccounts s !! j.
Proof.
  intros Hne. unfold autoRouteOne. destruct (available !! _); [done|].
  destruct (_ || _); [done|]. simpl. by rewrite list_lookup_alter_ne.
Qed.
End RouteFacts.

(** ** Lemmas: assigned accounts *)

Definition onRoute (keep : Account -> bool) (id : string) (a : Account) : bool :=
  negb (Disabled a) && bool_decide (routeOf a = id) && keep a.

(** The accounts that use a route, counted. *)
Fixpoint assignedTo (keep : Account -> bool) (id : string) (l : list Account) : Z :=
  match l with
  | [] => 0
  | a :: l => Z.b2z (onRoute keep id a) + assignedTo keep id l
  end.

Lemma countOf_incr (id k : string) (m : gmap string Z) :
  countOf (incr id m) k = countOf m k + Z.b2z (bool_decide (id = k)).
Proof.
  unfold countOf, incr. destruct (decide (id = k)) as [->|Hne].
  - rewrite lookup_insert_eq, bool_decide_eq_true_2 by done. simpl. lia.
  - rewrite lookup_insert_ne, bool_decide_eq_false_2 by done. simpl. lia.
Qed.

Lemma countOf_countAssigned (keep : Account -> bool) (id : string) (l : list Account) :
  id <> "" -> countOf (countAssigned keep l) id = assignedTo keep id l.
Proof.
  intros Hid. unfold countAssigned.
  enough (H : forall m, countOf (fold_left (fun m a => if Disabled a || bool_decide (routeOf a = "") || negb (keep a)
                                  then m else incr (routeOf a) m) l m) id = countOf m id + assignedTo keep id l).
  { rewrite H. unfold countOf. by rewrite lookup_empty. }
  induction l as [|a l IH]; intros m; cbn [fold_left assignedTo]; [lia|]. rewrite IH. unfold onRoute.
  destruct (Disabled a); cbn [negb andb orb]; [simpl; lia|].
  destruct (decide (routeOf a = "")) as [He|He].
  - rewrite (bool_decide_eq_true_2 (routeOf a = "")) by done.
    rewrite (bool_decide_eq_false_2 (routeOf a = id)) by congruence. cbn [orb andb Z.b2z]. lia.
  - rewrite (bool_decide_eq_false_2 (routeOf a = "")) by done. cbn [orb].
    destruct (keep a); cbn [negb]; rewrite ?andb_true_r, ?andb_false_r; [rewrite countOf_incr; lia|simpl; lia].
Qed.

Lemma assignedTo_alter (keep : Account -> bool) (id : string) (f : Account -> Account) (i : nat) l a :
  l !! i = Some a ->
  assignedTo keep id (alter f i l) = assignedTo keep id l - Z.b2z (onRoute keep id a) + Z.b2z (onRoute keep id (f a)).
Proof.
  revert i. induction l as [|b l IH]; intros [|i] Ha; [done|done| |]; cbn [assignedTo].
  - injection Ha as ->. change (alter f 0%nat (a :: l)) with (f a :: l). cbn [assignedTo]. lia.
  - change (alter f (S i) (b :: l)) with (b :: alter f i l). cbn [assignedTo]. rewrite (IH i Ha). lia.
Qed.

(** ** Lemmas: ids are trimmed *)

Lemma proxy_id_trimmed (b : list N) : TrimSpace ("proxy_" +:+ EncodeToString b) = "proxy_" +:+ EncodeToString b.
Proof.
  by apply (TrimSpace_hex "p" "_" "roxy").
Qed.

Lemma NormalizeProxy_id_trimmed Parse (p : Proxy) :
  TrimSpace (pID (NormalizeProxy Parse p)) = pID (NormalizeProxy Parse p).
Proof.
  unfold NormalizeProxy. cbv zeta. cbn [pID].
  destruct (decide (TrimSpace (pID p) = "")) as [H|H].
  - rewrite bool_decide_eq_true_2 by exact H. unfold StableProxyID. cbv zeta.
    destruct (IsCoreType _); apply proxy_id_trimmed.
  - rewrite bool_decide_eq_false_2 by exact H. apply TrimSpace_idem.
Qed.

(** ** Lemmas: balance *)

Section AutoRoute.
Context (Parse : string -> string -> option Node) (clk : nat -> Z) (c : ProxyCfg).
Notation available := (availableRoutes Parse c clk ∅).
Notation total := (fun _ : Account => true).

Lemma available_id excluded id :
  is_Some (availableRoutes Parse c clk excluded !! id) ->
  id <> "" /\ TrimSpace id = id /\ (id ∉ excluded).
Proof.
  intros [p Hp]. apply availableRoutes_spec in Hp as (-> & Hne & Hex & (raw & _ & ->) & _).
  split; [done|]. split; [apply NormalizeProxy_id_trimmed|done].
Qed.

(** Counts of the candidates are exact, and the target of every change has at most
    one account more than any candidate. *)
Record balanced (s : RouteState) : Prop := {
  bal_counts : forall id, is_Some (available !! id) -> countOf (rCounts s) id = assignedTo total id (rAccounts s);
  bal_changes : forall ch, ch ∈ rChanges s -> is_Some (available !! ToProxyID ch) /\
    forall id, is_Some (available !! id) -> countOf (rCounts s) (ToProxyID ch) <= countOf (rCounts s) id + 1
}.

(** One turn: nothing, or a move to the least assigned candidate. *)
Lemma autoRouteOne_cases (s : RouteState) i a :
  rAccounts s !! i = Some a ->
  autoRouteOne available s i = s \/
  available !! routeOf a = None /\ available <> ∅ /\
  let next := leastAssignedRoute available (rCounts s) in
  exists reason, autoRouteOne available s i =
    {| rAccounts := alter (moveAccount next) i (rAccounts s); rCounts := incr next (rCounts s);
       rChanges := rChanges s ++ [{| AccountID := Identifier (moveAccount next a); FromProxyID := routeOf a;
                                     ToProxyID := next; ChangeReason := reason |}] |}.
Proof.
  intros Ha. unfold autoRouteOne. rewrite (accountAt_lookup _ _ _ Ha). cbv zeta.
  destruct (available !! routeOf a) as [p|] eqn:Er; [by left|].
  destruct (bool_decide (leastAssignedRoute _ _ = "")) eqn:E1; [by left|].
  destruct (bool_decide (leastAssignedRoute _ _ = routeOf a)) eqn:E2; [by left|right].
  split; [done|]. split; [|by eexists].
  intros Hem. rewrite Hem, leastRoute_empty in E1. by apply bool_decide_eq_false in E1.
Qed.

Lemma balanced_step (s : RouteState) i a :
  balanced s -> rAccounts s !! i = Some a -> Disabled a = false -> balanced (autoRouteOne available s i).
Proof.
  intros [Hc Hch] Ha Hd. destruct (autoRouteOne_cases s i a Ha) as [->|(Hr & Hem & reason & ->)]; [done|].
  destruct (leastAssignedRoute_spec available (rCounts s) Hem) as [Hsome Hmin].
  set (next := leastAssignedRoute available (rCounts s)) in *.
  destruct (available_id _ _ Hsome) as (_ & Htrim & _).
  split; cbn [rCounts rAccounts rChanges].
  - intros id Hid. rewrite countOf_incr, (Hc id Hid), (assignedTo_alter _ _ _ _ _ a Ha).
    unfold onRoute. cbn [moveAccount Disabled]. change (routeOf (moveAccount next a)) with (TrimSpace next).
    rewrite Hd, Htrim, (bool_decide_eq_false_2 (routeOf a = id)) by (intros He; rewrite <- He, Hr in Hid; by destruct Hid).
    cbn [negb andb Z.b2z]. rewrite andb_true_r. lia.
  - assert (Hnext : forall id, is_Some (available !! id) ->
      countOf (incr next (rCounts s)) next <= countOf (incr next (rCounts s)) id + 1).
    { intros id Hid. rewrite !countOf_incr, (bool_decide_eq_true_2 (next = next)) by done.
      specialize (Hmin id Hid). destruct (bool_decide (next = id)); cbn [Z.b2z]; lia. }
    intros ch [Hin| ->%list_elem_of_singleton]%elem_of_app; [|done].
    destruct (Hch ch Hin) as [Ht Hle]. split; [done|]. intros id Hid.
    destruct (decide (ToProxyID ch = next)) as [->|Hne]; [auto|].
    rewrite !countOf_incr, (bool_decide_eq_false_2 (next = ToProxyID ch)) by congruence.
    specialize (Hle id Hid). destruct (bool_decide (next = id)); cbn [Z.b2z]; lia.
Qed.

Lemma autoRouteOne_enabled s i j :
  (exists a, rAccounts s !! j = Some a /\ Disabled a = false) ->
  exists a, rAccounts (autoRouteOne available s i) !! j = Some a /\ Disabled a = false.
Proof.
  intros (a & Ha & Hd). destruct (decide (j = i)) as [->|Hne].
  - destruct (autoRouteOne_cases s i a Ha) as [->|(_ & _ & reason & ->)]; [by exists a|].
    cbn [rAccounts]. rewrite (alter_self _ _ _ _ Ha). by eexists.
  - exists a. by rewrite autoRouteOne_other.
Qed.

Lemma balanced_run l s :
  balanced s -> (forall i, i ∈ l -> exists a, rAccounts s !! i = Some a /\ Disabled a = false) ->
  balanced (fold_left (autoRouteOne available) l s).
Proof.
  revert s. induction l as [|i l IH]; intros s Hb Hl; simpl; [done|]. apply IH.
  - destruct (Hl i) as (a & Ha & Hd); [apply elem_of_cons; by left|]. by eapply balanced_step.
  - intros j Hj. apply autoRouteOne_enabled, Hl, elem_of_cons. by right.
Qed.

Lemma autoIndices_enabled l i : i ∈ autoIndices l -> exists a, l !! i = Some a /\ autoRouted a = true.
Proof.
  unfold autoIndices. rewrite sortBy_perm, list_elem_of_filter, elem_of_seq. intros [Hp Hi].
  destruct (lookup_lt_is_Some_2 l i ltac:(lia)) as [a Ha]. exists a. split; [done|].
  by rewrite (accountAt_lookup _ _ _ Ha) in Hp.
Qed.

Lemma autoRouted_enabled a : autoRouted a = true -> Disabled a = false.
Proof. unfold autoRouted. by destruct (Disabled a). Qed.
End AutoRoute.

(** Automatic routing keeps valid assignments: an account changes only when
    automatic routing is on, the account takes part in it, its route is not a
    candidate and there is one; it then moves to a configured, enabled proxy whose
    last test succeeded recently (never to direct egress) and loses its token. *)
Theorem auto_route_sticky (Parse : string -> string -> option Node)
  (clk : nat -> Z) (c : ProxyCfg) (i : nat) (a : Account) :
  pcAccounts c !! i = Some a ->
  let available := availableRoutes Parse c clk ∅ in
  let c' := (applyAutoRouteChanges Parse clk c).1 in
  pcProxies c' = pcProxies c /\ pcPolicy c' = pcPolicy c /\
  exists a', pcAccounts c' !! i = Some a' /\
    if AutoRouteEnabled (pcPolicy c) && autoRouted a && bool_decide (available !! routeOf a = None)
       && negb (bool_decide (available = ∅))
    then exists id p, goodRoute Parse c clk ∅ id p /\ a' = moveAccount id a /\ Token a' = ""
    else a' = a.
Proof.
  intros Ha available c'. unfold c', applyAutoRouteChanges.
  destruct (AutoRouteEnabled (pcPolicy c)); cbn [negb andb fst]; [|eauto].
  split; [done|]. split; [done|]. cbn [pcAccounts setAccounts fst].
  destruct (picked_indices (fun i j => String.ltb (Identifier (accountAt (pcAccounts c) i))
    (Identifier (accountAt (pcAccounts c) j))) autoRouted (pcAccounts c)) as [Hnd Hin].
  destruct (fold_indices rAccounts (autoRouteOne available) (rerouted available) (autoIndices (pcAccounts c))
    {| rAccounts := pcAccounts c; rCounts := (ProxyAssignmentCounts c).1; rChanges := [] |} Hnd
    (fun s i a => autoRouteOne_self Parse c clk s i a)
    (fun s i j => autoRouteOne_other available s i j) i a Ha) as (a' & Ha' & Hyes & Hno).
  exists a'. split; [exact Ha'|].
  destruct (autoRouted a) eqn:Er; cbn [andb].
  - specialize (Hyes (proj2 (Hin i a Ha) Er)). unfold rerouted in Hyes.
    destruct (available !! routeOf a) eqn:El; cbn [bool_decide andb]; [done|].
    rewrite (bool_decide_eq_true_2 (_ = None)) by done.
    destruct (bool_decide (available = ∅)); cbn [andb negb]; [done|].
    destruct Hyes as (id & [p Hp] & ->). exists id, p. split; [by apply availableRoutes_spec|done].
  - apply Hno. intros Hbad. apply (proj1 (Hin i a Ha)) in Hbad. congruence.
Qed.

(** Automatic routing balances: after it, the proxy that received an account
    serves at most one account more than any candidate does. *)
Theorem auto_route_balanced (Parse : string -> string -> option Node)
  (clk : nat -> Z) (c : ProxyCfg) (ch : AutoRouteChange) (id : string) :
  let '(c', changes) := applyAutoRouteChanges Parse clk c in
  ch ∈ changes -> is_Some (availableRoutes Parse c clk ∅ !! id) ->
  is_Some (availableRoutes Parse c clk ∅ !! ToProxyID ch) /\
  countOf (ProxyAssignmentCounts c').1 (ToProxyID ch) <= countOf (ProxyAssignmentCounts c').1 id + 1.
Proof.
  unfold applyAutoRouteChanges. destruct (AutoRouteEnabled (pcPolicy c)); cbn [negb]; [|by intros ?%elem_of_nil].
  cbn [ProxyAssignmentCounts]. cbv zeta beta iota. intros Hch Hid.
  set (s0 := {| rAccounts := pcAccounts c; rCounts := _; rChanges := [] |}) in *.
  assert (Hb : balanced Parse clk c
    (fold_left (autoRouteOne (availableRoutes Parse c clk ∅)) (autoIndices (pcAccounts c)) s0)).
  { apply balanced_run.
    - split; cbn [rCounts rAccounts rChanges s0]; [|by intros ? ?%elem_of_nil].
      intros k Hk. apply countOf_countAssigned. by destruct (available_id _ _ _ _ _ Hk).
    - intros i Hi. destruct (autoIndices_enabled _ _ Hi) as (a & Ha & Hr). eauto using autoRouted_enabled. }
  destruct Hb as [Hc Hchs]. destruct (Hchs ch Hch) as [Hto Hle]. split; [done|].
  specialize (Hle id Hid). rewrite (Hc _ Hto), (Hc _ Hid) in Hle.
  cbn [ProxyAssignmentCounts fst setAccounts pcAccounts].
  rewrite !countOf_countAssigned; [done|by destruct (available_id _ _ _ _ _ Hid)
    |by destruct (available_id _ _ _ _ _ Hto)].
Qed.

(** ** Lemmas: deletion *)

Section Deletion.
Context (Parse : string -> string -> option Node) (clk : nat -> Z) (c : ProxyCfg)
        (wanted : gset string).
Notation available := (availableRoutes Parse c clk wanted).

Lemma moveOne_self reason target s i a :
  rAccounts s !! i = Some a -> routeOf a <> target ->
  rAccounts (moveOne reason target i s) !! i = Some (moveAccount target a).
Proof.
  intros Ha Hne. unfold moveOne. rewrite (accountAt_lookup _ _ _ Ha). cbv zeta.
  rewrite bool_decide_eq_false_2 by exact Hne. cbn [rAccounts]. by apply alter_self.
Qed.

Lemma moveOne_other reason target s i j :
  j <> i -> rAccounts (moveOne reason target i s) !! j = rAccounts s !! j.
Proof.
  intros Hne. unfold moveOne. cbv zeta. destruct (bool_decide _); [done|].
  cbn [rAccounts]. by rewrite list_lookup_alter_ne.
Qed.

Lemma moveOne_some reason target s i a :
  rAccounts s !! i = Some a -> exists a', rAccounts (moveOne reason target i s) !! i = Some a' /\
    (routeOf a <> target -> a' = moveAccount target a).
Proof.
  intros Ha. destruct (decide (routeOf a = target)) as [He|He].
  - exists a. split; [|done]. unfold moveOne. rewrite (accountAt_lookup _ _ _ Ha). cbv zeta.
    by rewrite bool_decide_eq_true_2 by exact He.
  - eexists. split; [by apply moveOne_self|done].
Qed.

(** With a candidate the loop never stops early. *)
Lemma moveAutomatic_fold l s :
  available <> ∅ ->
  moveAutomatic available l s =
    (fold_left (fun s i => moveOne "node_deleted" (leastAssignedRoute available (rCounts s)) i s) l s, true).
Proof.
  intros Hne. revert s. induction l as [|i l IH]; intros s; [done|]. cbn [moveAutomatic fold_left]. cbv zeta.
  rewrite bool_decide_eq_false_2 by (by apply leastRoute_nonempty). apply IH.
Qed.

Lemma automatic_target s i a :
  available <> ∅ -> rAccounts s !! i = Some a ->
  exists a', rAccounts (moveOne "node_deleted" (leastAssignedRoute available (rCounts s)) i s) !! i = Some a' /\
    (routeOf a ∈ wanted -> exists id, is_Some (available !! id) /\ a' = moveAccount id a).
Proof.
  intros Hne Ha. destruct (leastAssignedRoute_spec available (rCounts s) Hne) as [Hs _].
  destruct (moveOne_some "node_deleted" (leastAssignedRoute available (rCounts s)) s i a Ha) as (a' & Ha' & Hm).
  exists a'. split; [done|]. intros Hw. eexists. split; [exact Hs|]. apply Hm. intros He.
  destruct (available_id _ _ _ _ _ Hs) as (_ & _ & Hex). by rewrite <- He in Hex.
Qed.

Lemma indicesOf_spec (pick : Account -> bool) (l : list Account) :
  NoDup (indicesOf pick l) /\ forall i a, l !! i = Some a -> (i ∈ indicesOf pick l <-> pick a = true).
Proof. apply picked_indices. Qed.

Lemma elem_nonempty {A} (x : A) (l : list A) : x ∈ l -> l <> [].
Proof. intros H ->. by apply elem_of_nil in H. Qed.

Lemma remaining_spec id p :
  remainingProxies Parse c wanted !! id = Some p ->
  id = pID p /\ (id ∉ wanted) /\ exists raw, raw ∈ pcProxies c /\ p = NormalizeProxy Parse raw.
Proof.
  unfold remainingProxies.
  set (good := fun id p => id = pID p /\ (id ∉ wanted) /\
    exists raw, raw ∈ pcProxies c /\ p = NormalizeProxy Parse raw).
  enough (H : forall l (m : gmap string Proxy), (forall r, r ∈ l -> r ∈ pcProxies c) ->
    (forall k q, m !! k = Some q -> good k q) -> forall k q,
    fold_left (fun m raw => let p := NormalizeProxy Parse raw in
                            if bool_decide (pID p ∈ wanted) then m else <[pID p := p]> m) l m !! k = Some q -> good k q).
  { refine (H (pcProxies c) ∅ (fun _ H => H) _ id p). intros k q Hk. rewrite lookup_empty in Hk. discriminate Hk. }
  induction l as [|raw l IH]; intros m Hl Hm; cbn [fold_left]; [exact Hm|]. apply IH.
  { intros r Hr. apply Hl, elem_of_cons. by right. }
  cbv zeta. destruct (bool_decide (pID _ ∈ wanted)) eqn:Ew; [exact Hm|]. apply bool_decide_eq_false in Ew.
  intros k q [[<- <-]|[_ ?]]%lookup_insert_Some; [|auto]. split; [done|]. split; [exact Ew|].
  exists raw. split; [apply Hl, elem_of_cons; by left|done].
Qed.

(** Both loops of a deletion that passes its checks. *)
Lemma deletion_moves (fallback : string) counts i a :
  let affected a := bool_decide (routeOf a ∈ wanted) in
  let manual := indicesOf (fun a => affected a && negb (ProxyAutoRoute a)) (pcAccounts c) in
  let automatic := indicesOf (fun a => affected a && ProxyAutoRoute a) (pcAccounts c) in
  (automatic <> [] -> available <> ∅) ->
  (manual <> [] -> fallback ∉ wanted) ->
  pcAccounts c !! i = Some a ->
  exists s, moveAutomatic available automatic
      (fold_left (fun s i => moveOne "node_deleted_fallback" fallback i s) manual
         {| rAccounts := pcAccounts c; rCounts := counts; rChanges := [] |}) = (s, true) /\
    exists a', rAccounts s !! i = Some a' /\
      if affected a
      then if ProxyAutoRoute a then exists id, is_Some (available !! id) /\ a' = moveAccount id a
           else manual <> [] /\ a' = moveAccount fallback a
      else a' = a.
Proof.
  intros affected manual automatic Hav Hfb Ha.
  destruct (indicesOf_spec (fun a => affected a && negb (ProxyAutoRoute a)) (pcAccounts c)) as [Hnd1 Hin1].
  destruct (indicesOf_spec (fun a => affected a && ProxyAutoRoute a) (pcAccounts c)) as [Hnd2 Hin2].
  fold manual in Hnd1, Hin1. fold automatic in Hnd2, Hin2. specialize (Hin1 i a Ha). specialize (Hin2 i a Ha).
  destruct (fold_indices rAccounts (fun s i => moveOne "node_deleted_fallback" fallback i s)
    (fun a a' => routeOf a <> fallback -> a' = moveAccount fallback a) manual
    {| rAccounts := pcAccounts c; rCounts := counts; rChanges := [] |} Hnd1
    (fun s i a => moveOne_some _ _ s i a) (fun s i j => moveOne_other _ _ s i j) i a Ha)
    as (a1 & Ha1 & Hyes1 & Hno1).
  set (s1 := fold_left _ manual _) in *.
  destruct (decide (automatic = [])) as [He|He].
  - exists s1. rewrite He. split; [done|]. exists a1. split; [exact Ha1|]. rewrite He in Hin2.
    destruct (affected a) eqn:Ea; cbn [andb] in *; [|apply Hno1; rewrite Hin1; done].
    destruct (ProxyAutoRoute a); cbn [negb] in *; [by apply proj2, (fun H => H eq_refl), elem_of_nil in Hin2|].
    assert (Hm : i ∈ manual) by (by apply Hin1). apply elem_nonempty in Hm as Hne. split; [done|].
    apply Hyes1; [done|]. apply bool_decide_eq_true in Ea. intros E. rewrite E in Ea. by apply Hfb.
  - rewrite moveAutomatic_fold by auto. eexists. split; [done|].
    destruct (fold_indices rAccounts
      (fun s i => moveOne "node_deleted" (leastAssignedRoute available (rCounts s)) i s)
      (fun a a' => routeOf a ∈ wanted -> exists id, is_Some (available !! id) /\ a' = moveAccount id a) automatic
      s1 Hnd2 (fun s i a => automatic_target s i a (Hav He)) (fun s i j => moveOne_other _ _ s i j) i a1 Ha1)
      as (a2 & Ha2 & Hyes2 & Hno2).
    exists a2. split; [exact Ha2|].
    destruct (affected a) eqn:Ea; cbn [andb] in *.
    2: { rewrite Hno2 by (rewrite Hin2; done). apply Hno1. by rewrite Hin1. }
    apply bool_decide_eq_true in Ea. destruct (ProxyAutoRoute a); cbn [negb] in *.
    + assert (a1 = a) as -> by (apply Hno1; rewrite Hin1; done). apply Hyes2; [by apply Hin2|done].
    + rewrite Hno2 by (rewrite Hin2; done). assert (Hm : i ∈ manual) by (by apply Hin1).
      apply elem_nonempty in Hm as Hne. split; [done|]. apply Hyes1; [done|]. intros E. rewrite E in Ea. by apply Hfb.
Qed.
End Deletion.

(** C36. Deleting proxies is all or nothing: an error leaves the configuration as it
    was; on success the accounts on a deleted proxy, and only those, have moved and
    lost their token, automatic ones to a healthy candidate and the others to the
    configured fallback, which stays and is enabled. *)
Theorem deleted_proxies_evacuated (Parse : string -> string -> option Node)
  (clk : nat -> Z) (deleted : list string) (c : ProxyCfg) (i : nat) (a : Account) :
  pcAccounts c !! i = Some a ->
  let wanted := trimmedSet deleted in
  let '(c', r) := ReassignDeletedProxyRoutes Parse clk deleted c in
  match r with
  | Err _ => c' = c
  | Ok _ => exists a', pcAccounts c' !! i = Some a' /\
      if bool_decide (routeOf a ∈ wanted)
      then exists target p, a' = moveAccount target a /\ (target ∉ wanted) /\ Token a' = "" /\
             if ProxyAutoRoute a then goodRoute Parse c clk wanted target p
             else target = TrimSpace (FallbackProxyID (pcPolicy c)) /\ pDisabled p = false /\
                  remainingProxies Parse c wanted !! target = Some p
      else a' = a
  end.
Proof.
  intros Ha wanted. unfold ReassignDeletedProxyRoutes. fold wanted. cbv zeta.
  destruct (bool_decide (wanted = ∅)) eqn:Ew.
  { apply bool_decide_eq_true in Ew. exists a. split; [done|]. rewrite Ew, bool_decide_eq_false_2; [done|set_solver]. }
  set (fallback := TrimSpace (FallbackProxyID (pcPolicy c))).
  set (manual := indicesOf _ (pcAccounts c)). set (automatic := indicesOf _ (pcAccounts c)).
  destruct (negb (bool_decide (fallback = "")) && bool_decide (fallback ∈ wanted)) eqn:Efb; [done|].
  destruct (match manual with [] => None | _ => _ end) eqn:Em; [done|].
  destruct (match automatic with [] => None | _ => _ end) eqn:Eauto; [done|].
  assert (Hman : manual <> [] -> exists p, remainingProxies Parse c wanted !! fallback = Some p /\ pDisabled p = false).
  { destruct manual; [done|]. intros _. destruct (bool_decide (fallback = "")); [done|].
    destruct (remainingProxies _ _ _ !! fallback) as [p|]; [|done]. exists p. split; [done|]. by destruct (pDisabled p). }
  assert (Hav : automatic <> [] -> availableRoutes Parse c clk wanted <> ∅).
  { destruct automatic; [done|]. intros _. destruct (AutoRouteEnabled _); [|done]. cbn [negb] in Eauto.
    destruct (bool_decide (availableRoutes _ _ _ _ = ∅)) eqn:E; [done|]. by apply bool_decide_eq_false in E. }
  assert (Hfb : manual <> [] -> fallback ∉ wanted).
  { intros Hm. destruct (Hman Hm) as (p & Hp & _). by apply remaining_spec in Hp as (_ & ? & _). }
  destruct (deletion_moves Parse clk c wanted fallback (activeAssignmentsExcluding (pcAccounts c) wanted) i a
    Hav Hfb Ha) as (s & Hmove & a' & Ha' & Hcase).
  fold manual automatic in Hmove. rewrite Hmove.
  exists a'. split; [done|]. destruct (bool_decide (routeOf a ∈ wanted)); [|done].
  destruct (ProxyAutoRoute a).
  - destruct Hcase as (id & Hid & ->). destruct (available_id _ _ _ _ _ Hid) as (_ & _ & Hex).
    destruct Hid as [p Hp]. exists id, p. do 3 (split; [done|]). by apply availableRoutes_spec.
  - destruct Hcase as [Hm ->]. destruct (Hman Hm) as (p & Hp & Hd). exists fallback, p.
    split; [done|]. split; [auto|]. done.
Qed.

(** ** Witnesses *)

Definition noParse (_ _ : string) : option Node := None.

Definition demoProxy (id : string) (ok : bool) (latency : Z) : Proxy := {|
  pID := id; pName := ""; pType := "http"; pHost := "10.0.0.1"; pPort := 8080; pUsername := ""; pPassword := "";
  pURI := ""; pSubscriptionID := ""; pDisabled := false; pDisabledReason := ""; pDisabledAtUnix := 0;
  ConsecutiveFailures := 0; LastTestAtUnix := 1000; LastTestSuccess := ok; LastLatencyMS := latency;
  LastHTTPStatus := 200; LastTestError := ""; LastExitIP := ""; LastCountry := ""; LastColo := "" |}.

Definition routedAccount (email proxy : string) (auto : bool) : Account := {|
  Name := ""; Remark := ""; Email := email; Mobile := ""; Password := "pw"; Token := "old"; ProxyID := proxy;
  ProxyAutoRoute := auto; Disabled := false; DisabledReason := ""; DisabledAtUnix := 0; CooldownState := "";
  CooldownUntilUnix := 0 |}.

Definition demoPolicy : ProxyPolicyConfig := {|
  HealthCheckEnabled := None; AutomaticRoutingEnabled := Some true; HealthCheckIntervalMinutes := 0;
  AutoDisableAfterFailures := 0; AutoEnableOnRecovery := None; FallbackProxyID := "p1";
  SubscriptionUpdateIntervalMinutes := 0; TestConcurrency := 0 |}.

Definition demoRoutes : ProxyCfg := {|
  pcProxies := [demoProxy "p1" true 300; demoProxy "p2" true 100; demoProxy "dead" false 50];
  pcAccounts := [routedAccount "a@x" "dead" true; routedAccount "b@x" "p1" true; routedAccount "c@x" "dead" false];
  pcPolicy := demoPolicy |}.

Definition demoClock (_ : nat) : Z := 1060.

Lemma auto_route_sticky_witness :
  pcAccounts demoRoutes !! 0%nat = Some (routedAccount "a@x" "dead" true) /\
  exists a', pcAccounts (applyAutoRouteChanges noParse demoClock demoRoutes).1 !! 0%nat = Some a' /\
    exists id p, goodRoute noParse demoRoutes demoClock ∅ id p /\
      a' = moveAccount id (routedAccount "a@x" "dead" true) /\ Token a' = "".
Proof.
  split; [reflexivity|].
  destruct (auto_route_sticky noParse demoClock demoRoutes 0 (routedAccount "a@x" "dead" true) eq_refl)
    as (_ & _ & a' & Ha' & H).
  exists a'. split; [exact Ha'|].
  match type of H with if ?b then _ else _ => assert (Hc : b = true) by (vm_compute; reflexivity) end.
  rewrite Hc in H. exact H.
Defined.

Lemma auto_route_balanced_witness :
  let ch := {| AccountID := "a@x"; FromProxyID := "dead"; ToProxyID := "p2"; ChangeReason := "node_unavailable" |} in
  let r := applyAutoRouteChanges noParse demoClock demoRoutes in
  r.2 = [ch] /\ countOf (ProxyAssignmentCounts r.1).1 "p2" <= countOf (ProxyAssignmentCounts r.1).1 "p1" + 1.
Proof.
  intros ch r. assert (Hch : r.2 = [ch]) by (vm_compute; reflexivity). split; [exact Hch|].
  pose proof (auto_route_balanced noParse demoClock demoRoutes ch "p1") as H. fold r in H.
  rewrite (surjective_pairing r) in H. rewrite Hch in H.
  refine (proj2 (H (list_elem_of_here _ _) _)). vm_compute. eexists. reflexivity.
Defined.

Lemma deleted_proxies_evacuated_witness :
  let deleted := [" dead "] in
  let c' := (ReassignDeletedProxyRoutes noParse demoClock deleted demoRoutes).1 in
  pcAccounts demoRoutes !! 2%nat = Some (routedAccount "c@x" "dead" false) /\
  exists a' target p, pcAccounts c' !! 2%nat = Some a' /\
    a' = moveAccount target (routedAccount "c@x" "dead" false) /\ (target ∉ trimmedSet deleted) /\ Token a' = "" /\
    target = TrimSpace "p1" /\ pDisabled p = false /\
    remainingProxies noParse demoRoutes (trimmedSet deleted) !! target = Some p.
Proof.
  intros deleted c'. split; [reflexivity|].
  pose proof (deleted_proxies_evacuated noParse demoClock deleted demoRoutes 2
                (routedAccount "c@x" "dead" false) eq_refl) as H.
  assert (Hok : exists l, (ReassignDeletedProxyRoutes noParse demoClock deleted demoRoutes).2 = Ok l)
    by (vm_compute; eexists; reflexivity).
  unfold c'. revert H Hok. generalize (ReassignDeletedProxyRoutes noParse demoClock deleted demoRoutes).
  intros [c1 r] H [l Hl]. cbn [snd] in Hl. subst r. destruct H as (a' & Ha' & H).
  rewrite bool_decide_eq_true_2 in H by (vm_compute; reflexivity).
  destruct H as (target & p & H). exists a', target, p. split; [exact Ha'|exact H].
Defined.
