(* ===== verification/GoText.v ===== *)
(** Go's text and header helpers that the request-facing components share:
    [strings.Join], [strings.Split], [strings.Fields], [sort.Strings] and
    [net/http.Header] with its canonical keys.

    A header is the Go map from canonical names to values.  The order in which Go
    visits a map is arbitrary; the definitions below visit it in one order. *)
From S2P Require Import Prelude GoString.
From Stdlib Require Import Ascii.

(** ** Joining and splitting *)

Fixpoint Join (parts : list string) (sep : string) : string :=
  match parts with
  | [] => ""
  | [p] => p
  | p :: parts => p +:+ sep +:+ Join parts sep
  end.

(** [strings.Split(s, sep)] for a one-byte separator. *)
Fixpoint SplitByte (sep : ascii) (s : string) : list string :=
  match s with
  | EmptyString => [""]
  | String c s =>
      if bool_decide (c = sep) then "" :: SplitByte sep s
      else match SplitByte sep s with
           | [] => [String c ""]
           | p :: ps => String c p :: ps
           end
  end.

(** [strings.Fields]: the maximal runs without white space. *)
Fixpoint fieldsFrom (fuel : nat) (s cur : string) : list string :=
  let flush := if bool_decide (cur = "") then [] else [strRev cur] in
  match fuel with
  | O => flush
  | S fuel =>
      match s with
      | EmptyString => flush
      | String c s' =>
          match leadSpace s with
          | Some r => flush ++ fieldsFrom fuel r ""
          | None => fieldsFrom fuel s' (String c cur)
          end
      end
  end.

Definition Fields (s : string) : list string := fieldsFrom (S (String.length s)) s "".

(** [sort.Strings] *)
Definition sortStrings (l : list string) : list string := sortBy String.ltb l.

Example fields_ex : Fields "  a b   c " = ["a"; "b"; "c"].
Proof. reflexivity. Qed.
Lemma SplitByte_nonempty (sep : ascii) (s : string) : SplitByte sep s <> [].
Proof. destruct s as [|c s]; [done|]. cbn [SplitByte]. case_bool_decide; [done|]. by destruct (SplitByte sep s). Qed.

(** A separator splits what is before it from what is after it. *)
Lemma SplitByte_sep (sep : ascii) (a b : string) : SplitByte sep (a +:+ String sep b) = SplitByte sep a ++ SplitByte sep b.
Proof.
  induction a as [|c a IH]; [by simpl; rewrite bool_decide_eq_true_2|].
  change (String c a +:+ String sep b) with (String c (a +:+ String sep b)). cbn [SplitByte]. rewrite IH. case_bool_decide; [done|].
  destruct (SplitByte sep a) as [|p ps] eqn:E; [|done]. exfalso. by apply (SplitByte_nonempty sep a).
Qed.

Example split_ex : SplitByte "," "a,,b" = ["a"; ""; "b"].
Proof. reflexivity. Qed.

(** ** Headers *)

Definition Header := gmap string (list string).

(** The bytes of a header field name. *)
Definition tokenByte (c : ascii) : bool :=
  isDigit c || isUpper c || isLower c ||
  bool_decide (c ∈ ["!"; "#"; "$"; "%"; "&"; "'"; "*"; "+"; "-"; "."; "^"; "_"; "`"; "|"; "~"]%char).

Fixpoint allBytes (f : ascii -> bool) (s : string) : bool :=
  match s with EmptyString => true | String c s => f c && allBytes f s end.

Fixpoint canonicalBytes (upper : bool) (s : string) : string :=
  match s with
  | EmptyString => ""
  | String c s => String (if upper then upperByte c else lowerByte c) (canonicalBytes (bool_decide (c = "-"%char)) s)
  end.

(** [textproto.CanonicalMIMEHeaderKey] *)
Definition CanonicalHeaderKey (s : string) : string := if allBytes tokenByte s then canonicalBytes true s else s.

(** [h.Values(name)], [h.Get(name)], [h.Set(name, v)], [h.Add(name, v)], [h.Del(name)] *)
Definition HeaderValues (h : Header) (name : string) : list string := default [] (h !! CanonicalHeaderKey name).
Definition HeaderGet (h : Header) (name : string) : string := match HeaderValues h name with v :: _ => v | [] => "" end.
Definition HeaderSet (h : Header) (name v : string) : Header := <[CanonicalHeaderKey name := [v]]> h.
Definition HeaderAdd (h : Header) (name v : string) : Header := <[CanonicalHeaderKey name := HeaderValues h name ++ [v]]> h.

Example canonical_ex : CanonicalHeaderKey "x-deepseek-WEB" = "X-Deepseek-Web".
Proof. reflexivity. Qed.

(** ** Lemmas *)

Lemma upperByte_token (c : ascii) : tokenByte c = true -> tokenByte (upperByte c) = true.
Proof. by destruct c as [[] [] [] [] [] [] [] []]; vm_compute. Qed.

Lemma lowerByte_token (c : ascii) : tokenByte c = true -> tokenByte (lowerByte c) = true.
Proof. by destruct c as [[] [] [] [] [] [] [] []]; vm_compute. Qed.

Lemma canonicalBytes_idem (u : bool) (s : string) : canonicalBytes u (canonicalBytes u s) = canonicalBytes u s.
Proof.
  revert u. induction s as [|c s IH]; intros u; simpl; [done|].
  assert (H1 : (if u then upperByte (if u then upperByte c else lowerByte c) else lowerByte (if u then upperByte c else lowerByte c))
          = (if u then upperByte c else lowerByte c)).
  { destruct u, c as [[] [] [] [] [] [] [] []]; vm_compute; reflexivity. }
  assert (H2 : bool_decide ((if u then upperByte c else lowerByte c) = "-"%char) = bool_decide (c = "-"%char)).
  { destruct u, c as [[] [] [] [] [] [] [] []]; vm_compute; reflexivity. }
  rewrite H1, H2. f_equal. apply IH.
Qed.

Lemma canonicalBytes_token (u : bool) (s : string) : allBytes tokenByte s = true -> allBytes tokenByte (canonicalBytes u s) = true.
Proof.
  revert u. induction s as [|c s IH]; intros u; simpl; [done|]. rewrite !andb_true_iff. intros [Hc Hs].
  split; [destruct u; auto using upperByte_token, lowerByte_token|by apply IH].
Qed.

(** A canonical name is its own canonical name. *)
Lemma CanonicalHeaderKey_idem (s : string) : CanonicalHeaderKey (CanonicalHeaderKey s) = CanonicalHeaderKey s.
Proof.
  unfold CanonicalHeaderKey at 2 3. destruct (allBytes tokenByte s) eqn:H; unfold CanonicalHeaderKey.
  - by rewrite canonicalBytes_token, canonicalBytes_idem.
  - by rewrite H.
Qed.
