(* ===== verification/UpstreamSession.v ===== *)
(** Reuse of upstream chat sessions: [internal/upstreamsession/store.go].

    A branch is an upstream session with the canonical messages it has seen.  A
    request that extends a branch leases it, sends only the messages the session
    does not know, and completes, invalidates or releases the lease.  [SessionStore]
    is the Go [Store]; an operation takes the reading of its [time.Now()] call.
    JSON encoding and decoding are parameters: [Marshal v] is [None] on an error.
    The entries of a key are the slice of pointers that the Go map holds; a lease
    refers to its entry by key and id, as the Go one does. *)
From S2P Require Import Prelude GoString GoText Json Affinity Sha256.
Local Open Scope Z_scope.

(** ** Data *)

Record Scope := {
  CallerID : string; ScopeSessionKey : string; ScopeAccountID : string; Surface : string; Variant : string
}.

#[global] Instance Scope_eq_dec : EqDecision Scope.
Proof. solve_decision. Defined.

Record entry := {
  eid : string;
  escope : Scope;
  esessionID : string;
  eparent : Z;
  requestMessages : list string;
  responseMessages : list string;
  turns : Z;
  updatedAt : Z;
  busy : bool
}.

Record SessionStore := {
  sttl : Z;
  maxBranches : Z;
  nextID : N;
  branches : gmap string (list entry)
}.

Record Lease := {
  leaseKey : string;
  entryID : string;
  SessionID : string;
  ParentMessageID : Z;
  DeltaMessages : list json;
  TurnCount : Z;
  Rotate : bool;
  MatchMode : string
}.

Definition defaultTTL : Z := 6 * 3600 * second.
Definition defaultMaxBranches : Z := 8.

Definition NewStore (ttl maxB : Z) : SessionStore := {|
  sttl := if ttl <=? 0 then defaultTTL else ttl;
  maxBranches := if maxB <=? 0 then defaultMaxBranches else maxB;
  nextID := 0; branches := ∅ |}.

Definition validScope (s : Scope) : bool :=
  negb (bool_decide (TrimSpace (CallerID s) = "")) && negb (bool_decide (TrimSpace (ScopeSessionKey s) = "")) &&
  negb (bool_decide (TrimSpace (ScopeAccountID s) = "")) && negb (bool_decide (TrimSpace (Surface s) = "")) &&
  negb (bool_decide (TrimSpace (Variant s) = "")).

Definition nul : string := String (Ascii.ascii_of_N 0) "".

Definition scopeKey (s : Scope) : string :=
  CallerID s +:+ nul +:+ ScopeSessionKey s +:+ nul +:+ ScopeAccountID s +:+ nul +:+ Surface s +:+ nul +:+ Variant s.

(** [fmt.Sprintf("inc-%d", n)] *)
Definition branchID (n : N) : string := "inc-" +:+ pretty n.

(** ** Canonical messages *)

(** [delete(item, k)] *)
Definition deleteMember (k : string) (m : list (string * json)) : list (string * json) :=
  filter (fun kv => kv.1 <> k) m.

(** [item[k] = v] for a present [k]. *)
Definition setMember (k : string) (v : json) (m : list (string * json)) : list (string * json) :=
  (fun kv => if bool_decide (kv.1 = k) then (k, v) else kv) <$> m.

Definition reasoningKeys : list string := ["reasoning_content"; "reasoning"; "thinking"; "thought_signature"].

Definition hiddenBlock (block : json) : bool :=
  let blockMap := default [] (isObject (Some block)) in
  bool_decide (ToLower (TrimSpace (asString (member "type" blockMap))) ∈ ["reasoning"; "thinking"; "redacted_thinking"]).

(** The assistant message without the provider's transient reasoning. *)
Definition visibleItem (item : list (string * json)) : list (string * json) :=
  let item := fold_left (fun m k => deleteMember k m) reasoningKeys item in
  match isArray (member "content" item) with
  | Some blocks => setMember "content" (JArr (filter (fun b => hiddenBlock b = false) blocks)) item
  | None => item
  end.

Section Store.
Variable Marshal : json -> option string.
Variable Unmarshal : string -> option json.

Definition canonicalMessage (message : json) : option string :=
  match Marshal message with
  | None => None
  | Some b =>
      match Unmarshal b with
      | None => None
      | Some (JObj item) =>
          if EqualFold (TrimSpace (asString (member "role" item))) "assistant"
          then Marshal (JObj (visibleItem item)) else Marshal (JObj item)
      | Some normalized => Marshal normalized
      end
  end.

Fixpoint canonicalMessages (messages : list json) : option (list string) :=
  match messages with
  | [] => Some []
  | message :: messages =>
      match canonicalMessage message with
      | None => None
      | Some b => match canonicalMessages messages with None => None | Some out => Some (b :: out) end
      end
  end.

Definition cloneAnyMessages (messages : list json) : list json :=
  match messages with
  | [] => []
  | _ => match Marshal (JArr messages) with
         | None => []
         | Some b => default [] (isArray (Unmarshal b))
         end
  end.

Definition canonicalMessageRole (raw : string) : string :=
  match isObject (Unmarshal raw) with
  | None => ""
  | Some item => ToLower (TrimSpace (asString (member "role" item)))
  end.

(** ** Matching *)

Definition messagePrefixEqual (current expected : list string) (offset : nat) : bool :=
  if (length current <? offset + length expected)%nat then false
  else bool_decide (take (length expected) (drop offset current) = expected).

Fixpoint leadingSystemCount (messages : list string) : nat :=
  match messages with
  | [] => O
  | raw :: messages => if bool_decide (canonicalMessageRole raw = "system") then S (leadingSystemCount messages) else O
  end.

Definition rawMessagesContainRole (messages : list string) (role : string) : bool :=
  existsb (fun raw => bool_decide (canonicalMessageRole raw = role)) messages.

(** The loop over the overlaps, from the longest down to the least allowed. *)
Fixpoint slidingOverlap (stored conversation : list string) (responses overlap : nat) : option nat :=
  match overlap with
  | O => None
  | S smaller =>
      if (overlap <? responses + 1)%nat then None
      else
        let storedStart := (length stored - overlap)%nat in
        let requestOverlapEnd := (length stored - responses)%nat in
        if bool_decide (take overlap conversation = drop storedStart stored)
           && rawMessagesContainRole (take (requestOverlapEnd - storedStart) (drop storedStart stored)) "user"
        then Some overlap else slidingOverlap stored conversation responses smaller
  end.

Definition storedConversation (systems : nat) (candidate : entry) : list string :=
  drop systems (requestMessages candidate) ++ responseMessages candidate.

Definition matchBranchExtension (current : list string) (candidate : entry) : option (nat * string) :=
  let strictConsumed := (length (requestMessages candidate) + length (responseMessages candidate))%nat in
  if (strictConsumed <? length current)%nat && messagePrefixEqual current (requestMessages candidate) 0
     && messagePrefixEqual current (responseMessages candidate) (length (requestMessages candidate))
  then Some (strictConsumed, "strict_prefix")
  else
    let requestSystemCount := leadingSystemCount (requestMessages candidate) in
    let currentSystemCount := leadingSystemCount current in
    if negb (requestSystemCount =? currentSystemCount)%nat
       || negb (messagePrefixEqual current (take requestSystemCount (requestMessages candidate)) 0)
    then None
    else
      let stored := storedConversation requestSystemCount candidate in
      let conversation := drop currentSystemCount current in
      let maxOverlap := Nat.min (length stored) (length conversation - 1) in
      match slidingOverlap stored conversation (length (responseMessages candidate)) maxOverlap with
      | None => None
      | Some overlap => Some ((currentSystemCount + overlap)%nat, "sliding_suffix")
      end.

(** ** Pruning *)

Definition fresh (s : SessionStore) (now : Z) (e : entry) : bool := busy e || (timeSub now (updatedAt e) <=? sttl s).

Definition keepFresh (s : SessionStore) (now : Z) (items : list entry) : option (list entry) :=
  match filter (fun e => fresh s now e = true) items with [] => None | kept => Some kept end.

Definition setBranches (m : gmap string (list entry)) (s : SessionStore) : SessionStore :=
  {| sttl := sttl s; maxBranches := maxBranches s; nextID := nextID s; branches := m |}.

Definition pruneEntries (now : Z) (s : SessionStore) : SessionStore :=
  setBranches (omap (keepFresh s now) (branches s)) s.

Definition entriesOf (s : SessionStore) (key : string) : list entry := default [] (branches s !! key).

(** ** Leasing *)

Definition reusable (scope : Scope) (candidate : entry) : bool :=
  bool_decide (escope candidate = scope) && (0 <? eparent candidate)
  && negb (bool_decide (TrimSpace (esessionID candidate) = "")).

(** The selection loop: index, consumed messages and mode of the best branch. *)
Fixpoint selectBranch (scope : Scope) (current : list string) (i : nat) (candidates : list entry)
  (selected : option (nat * nat * string)) : option (nat * nat * string) :=
  match candidates with
  | [] => selected
  | candidate :: candidates =>
      if busy candidate || negb (reusable scope candidate)
      then selectBranch scope current (S i) candidates selected
      else
        let selected :=
          match matchBranchExtension current candidate, selected with
          | None, _ => selected
          | Some (consumed, mode), None => Some (i, consumed, mode)
          | Some (consumed, mode), Some (_, selectedConsumed, selectedMode) =>
              if (consumed <? selectedConsumed)%nat
                 || ((consumed =? selectedConsumed)%nat && bool_decide (selectedMode = "strict_prefix"))
              then selected else Some (i, consumed, mode)
          end in
        selectBranch scope current (S i) candidates selected
  end.

Definition setBusy (b : bool) (e : entry) : entry :=
  {| eid := eid e; escope := escope e; esessionID := esessionID e; eparent := eparent e;
     requestMessages := requestMessages e; responseMessages := responseMessages e; turns := turns e;
     updatedAt := updatedAt e; busy := b |}.

Definition PrepareWithMaxTurns (now : Z) (scope : Scope) (messages : list json) (maxTurns : Z) (s : SessionStore)
  : SessionStore * option Lease :=
  if negb (validScope scope) || bool_decide (messages = []) then (s, None)
  else match canonicalMessages messages with
  | None => (s, None)
  | Some current =>
      let key := scopeKey scope in
      let s := pruneEntries now s in
      match selectBranch scope current 0 (entriesOf s key) None with
      | None => (s, None)
      | Some (i, consumed, mode) =>
          match entriesOf s key !! i with
          | None => (s, None)
          | Some selected =>
              (setBranches (<[key := alter (setBusy true) i (entriesOf s key)]> (branches s)) s,
               Some {| leaseKey := key; entryID := eid selected; SessionID := esessionID selected;
                       ParentMessageID := eparent selected;
                       DeltaMessages := cloneAnyMessages (drop consumed messages);
                       TurnCount := turns selected;
                       Rotate := (0 <? maxTurns) && (maxTurns <=? turns selected); MatchMode := mode |})
          end
      end
  end.

(** ** Recording *)

(** The index of the entry that was updated first, the first of them on ties. *)
Fixpoint oldestIndex (items : list entry) (i oldest : nat) (stamp : Z) : nat :=
  match items with
  | [] => oldest
  | e :: items => if updatedAt e <? stamp then oldestIndex items (S i) i (updatedAt e)
                  else oldestIndex items (S i) oldest stamp
  end.

Definition evictOne (items : list entry) : list entry :=
  match items with
  | [] => []
  | e :: rest => delete (oldestIndex rest 1 0 (updatedAt e)) items
  end.

(** The canonical messages of a finished round, unless something is missing. *)
Definition roundMessages (scope : Scope) (req resp : list json) (session : string) (parent : Z)
  : option (list string * list string) :=
  if negb (validScope scope) || bool_decide (TrimSpace session = "") || (parent <=? 0) then None
  else match canonicalMessages req, canonicalMessages resp with
       | Some (q :: qs), Some (r :: rs) => Some (q :: qs, r :: rs)
       | _, _ => None
       end.

Definition Record_ (now : Z) (scope : Scope) (req resp : list json) (session : string) (parent : Z) (s : SessionStore)
  : SessionStore :=
  match roundMessages scope req resp session parent with
  | None => s
  | Some (reqs, resps) =>
      let key := scopeKey scope in
      let s := pruneEntries now s in
      let id := N.modulo (nextID s + 1) (2 ^ 64) in
      let created := {| eid := branchID id; escope := scope; esessionID := TrimSpace session; eparent := parent;
                        requestMessages := reqs; responseMessages := resps; turns := 1; updatedAt := now; busy := false |} in
      let items := entriesOf s key ++ [created] in
      let items := if maxBranches s <? Z.of_nat (length items) then evictOne items else items in
      {| sttl := sttl s; maxBranches := maxBranches s; nextID := id; branches := <[key := items]> (branches s) |}
  end.

(** ** Ending a lease *)

Fixpoint updateEntry (id : string) (f : entry -> entry) (items : list entry) : list entry :=
  match items with
  | [] => []
  | e :: items => if bool_decide (eid e = id) then f e :: items else e :: updateEntry id f items
  end.

Fixpoint removeEntry (id : string) (items : list entry) : list entry :=
  match items with
  | [] => []
  | e :: items => if bool_decide (eid e = id) then items else e :: removeEntry id items
  end.

Definition updateKey (key : string) (f : list entry -> list entry) (s : SessionStore) : SessionStore :=
  setBranches (alter f key (branches s)) s.

Definition Invalidate (l : Lease) (s : SessionStore) : SessionStore :=
  let items := removeEntry (entryID l) (entriesOf s (leaseKey l)) in
  setBranches (match items with [] => delete (leaseKey l) (branches s) | _ => <[leaseKey l := items]> (branches s) end) s.

Definition ReleaseLease (l : Lease) (s : SessionStore) : SessionStore :=
  updateKey (leaseKey l) (updateEntry (entryID l) (setBusy false)) s.

Definition Complete (now : Z) (l : Lease) (scope : Scope) (req resp : list json) (session : string) (parent : Z)
  (s : SessionStore) : SessionStore :=
  match roundMessages scope req resp session parent with
  | None => Invalidate l s
  | Some (reqs, resps) =>
      updateKey (leaseKey l) (updateEntry (entryID l) (fun e =>
        {| eid := eid e; escope := scope; esessionID := TrimSpace session; eparent := parent;
           requestMessages := reqs; responseMessages := resps; turns := i64 (turns e + 1);
           updatedAt := now; busy := false |})) s
  end.

(** ** Diagnosis of a miss *)

(** [fmt.Sprintf("%T", v)] of a decoded value that is neither a string, an array nor null. *)
Definition goTypeName (v : json) : string :=
  match v with
  | JBool _ => "bool" | JNum _ _ => "float64" | JObj _ => "map[string]interface {}" | JStr _ => "string" | JArr _ => "[]interface {}"
  | JNull => "<nil>"
  end.

Definition blockMapOf (block : json) : list (string * json) := default [] (isObject (Some block)).

Definition blockShape (block : json) : string :=
  let blockType := TrimSpace (asString (member "type" (blockMapOf block))) in if bool_decide (blockType = "") then "unknown" else blockType.

Definition contentShape (content : option json) : string :=
  match content with
  | Some (JStr c) => "content=string:" +:+ pretty (N.of_nat (String.length c))
  | Some (JArr blocks) =>
      "content=blocks:" +:+ pretty (N.of_nat (length blocks)) +:+ ":" +:+ Join (blockShape <$> blocks) "," +:+ ":text_bytes=" +:+
      pretty (N.of_nat (fold_right (fun b n => String.length (asString (member "text" (blockMapOf b))) + n)%nat 0%nat blocks))
  | None | Some JNull => "content=nil"
  | Some v => "content=" +:+ goTypeName v
  end.

Definition canonicalMessageShape (raw : string) : string :=
  match Unmarshal raw with
  | Some (JObj _) | Some JNull =>
      let item := default [] (isObject (Unmarshal raw)) in
      Join (["keys=" +:+ Join (sortStrings item.*1) ","; "role=" +:+ asString (member "role" item); contentShape (member "content" item)]
            ++ match isArray (member "tool_calls" item) with
               | Some calls => ["tool_calls=" +:+ pretty (N.of_nat (length calls))]
               | None => []
               end) ";"
  | _ => "invalid"
  end.

Definition canonicalMessageHash (raw : string) : string := EncodeToString (take 8 (Sum256 (bytesOf raw))).

Record slidingSuffixDiagnostic := { candidateOverlap : nat; matchedPrefix : nat; sdExpected : string; sdCurrent : string }.

(** The number of leading messages that agree. *)
Fixpoint agreeing (expected current : list string) : nat :=
  match expected, current with
  | e :: expected, c :: current => if bool_decide (e = c) then S (agreeing expected current) else O
  | _, _ => O
  end.

Fixpoint bestOverlap (stored conversation : list string) (responses overlap : nat) (best : slidingSuffixDiagnostic)
  : slidingSuffixDiagnostic :=
  match overlap with
  | O => best
  | S smaller =>
      if (overlap <? responses + 1)%nat then best
      else
        let expected := drop (length stored - overlap) stored in
        let matched := agreeing expected (take overlap conversation) in
        let best :=
          if (matched <? matchedPrefix best)%nat || ((matched =? matchedPrefix best)%nat && (overlap <=? candidateOverlap best)%nat)
          then best
          else {| candidateOverlap := overlap; matchedPrefix := matched;
                  sdExpected := if (matched <? overlap)%nat then default "" (expected !! matched) else sdExpected best;
                  sdCurrent := if (matched <? overlap)%nat then default "" (conversation !! matched) else sdCurrent best |} in
        bestOverlap stored conversation responses smaller best
  end.

Definition noSliding : slidingSuffixDiagnostic := {| candidateOverlap := 0; matchedPrefix := 0; sdExpected := ""; sdCurrent := "" |}.

Definition diagnoseSlidingSuffix (current : list string) (candidate : entry) : slidingSuffixDiagnostic :=
  let requestSystemCount := leadingSystemCount (requestMessages candidate) in
  let currentSystemCount := leadingSystemCount current in
  if negb (requestSystemCount =? currentSystemCount)%nat
     || negb (messagePrefixEqual current (take requestSystemCount (requestMessages candidate)) 0)
  then noSliding
  else
    let stored := storedConversation requestSystemCount candidate in
    let conversation := drop currentSystemCount current in
    bestOverlap stored conversation (length (responseMessages candidate)) (Nat.min (length stored) (length conversation - 1)) noSliding.

Record MatchDiagnostics := {
  InvalidInput : bool; Branches : nat; Busy : nat; NotExtendable : nat; RequestPrefixMismatch : nat;
  ResponsePrefixMismatch : nat; Extendable : nat;
  ExpectedResponseShape : string; CurrentResponseShape : string; ExpectedResponseHash : string; CurrentResponseHash : string;
  SlidingSuffixMatches : nat; SlidingCandidateOverlap : nat; SlidingMatchedPrefix : nat;
  SlidingExpectedShape : string; SlidingCurrentShape : string; SlidingExpectedHash : string; SlidingCurrentHash : string
}.

Definition noDiagnostics (invalid : bool) : MatchDiagnostics := {|
  InvalidInput := invalid; Branches := 0; Busy := 0; NotExtendable := 0; RequestPrefixMismatch := 0;
  ResponsePrefixMismatch := 0; Extendable := 0;
  ExpectedResponseShape := ""; CurrentResponseShape := ""; ExpectedResponseHash := ""; CurrentResponseHash := "";
  SlidingSuffixMatches := 0; SlidingCandidateOverlap := 0; SlidingMatchedPrefix := 0;
  SlidingExpectedShape := ""; SlidingCurrentShape := ""; SlidingExpectedHash := ""; SlidingCurrentHash := "" |}.

(** One more branch, in the given classes. *)
Definition countBranch (d : MatchDiagnostics) (isBusy ext sliding short req resp : bool) : MatchDiagnostics := {|
  InvalidInput := InvalidInput d; Branches := S (Branches d); Busy := Nat.b2n isBusy + Busy d;
  NotExtendable := Nat.b2n short + NotExtendable d; RequestPrefixMismatch := Nat.b2n req + RequestPrefixMismatch d;
  ResponsePrefixMismatch := Nat.b2n resp + ResponsePrefixMismatch d; Extendable := Nat.b2n ext + Extendable d;
  ExpectedResponseShape := ExpectedResponseShape d; CurrentResponseShape := CurrentResponseShape d;
  ExpectedResponseHash := ExpectedResponseHash d; CurrentResponseHash := CurrentResponseHash d;
  SlidingSuffixMatches := Nat.b2n sliding + SlidingSuffixMatches d; SlidingCandidateOverlap := SlidingCandidateOverlap d;
  SlidingMatchedPrefix := SlidingMatchedPrefix d; SlidingExpectedShape := SlidingExpectedShape d;
  SlidingCurrentShape := SlidingCurrentShape d; SlidingExpectedHash := SlidingExpectedHash d; SlidingCurrentHash := SlidingCurrentHash d |}.

Definition noteSliding (sliding : slidingSuffixDiagnostic) (d : MatchDiagnostics) : MatchDiagnostics :=
  if (0 <? candidateOverlap sliding)%nat && (SlidingMatchedPrefix d <=? matchedPrefix sliding)%nat then {|
    InvalidInput := InvalidInput d; Branches := Branches d; Busy := Busy d; NotExtendable := NotExtendable d;
    RequestPrefixMismatch := RequestPrefixMismatch d; ResponsePrefixMismatch := ResponsePrefixMismatch d; Extendable := Extendable d;
    ExpectedResponseShape := ExpectedResponseShape d; CurrentResponseShape := CurrentResponseShape d;
    ExpectedResponseHash := ExpectedResponseHash d; CurrentResponseHash := CurrentResponseHash d;
    SlidingSuffixMatches := SlidingSuffixMatches d; SlidingCandidateOverlap := candidateOverlap sliding;
    SlidingMatchedPrefix := matchedPrefix sliding; SlidingExpectedShape := canonicalMessageShape (sdExpected sliding);
    SlidingCurrentShape := canonicalMessageShape (sdCurrent sliding); SlidingExpectedHash := canonicalMessageHash (sdExpected sliding);
    SlidingCurrentHash := canonicalMessageHash (sdCurrent sliding) |}
  else d.

(** The first response message that differs, described once. *)
Fixpoint noteResponse (expected current : list string) (d : MatchDiagnostics) : MatchDiagnostics :=
  match expected, current with
  | e :: expected, c :: current =>
      if bool_decide (c = e) then noteResponse expected current d
      else {|
        InvalidInput := InvalidInput d; Branches := Branches d; Busy := Busy d; NotExtendable := NotExtendable d;
        RequestPrefixMismatch := RequestPrefixMismatch d; ResponsePrefixMismatch := ResponsePrefixMismatch d; Extendable := Extendable d;
        ExpectedResponseShape := canonicalMessageShape e; CurrentResponseShape := canonicalMessageShape c;
        ExpectedResponseHash := canonicalMessageHash e; CurrentResponseHash := canonicalMessageHash c;
        SlidingSuffixMatches := SlidingSuffixMatches d; SlidingCandidateOverlap := SlidingCandidateOverlap d;
        SlidingMatchedPrefix := SlidingMatchedPrefix d; SlidingExpectedShape := SlidingExpectedShape d;
        SlidingCurrentShape := SlidingCurrentShape d; SlidingExpectedHash := SlidingExpectedHash d; SlidingCurrentHash := SlidingCurrentHash d |}
  | _, _ => d
  end.

Definition diagnoseOne (scope : Scope) (current : list string) (d : MatchDiagnostics) (candidate : entry)
  : MatchDiagnostics :=
  if negb (reusable scope candidate) then d
  else if busy candidate then countBranch d true false false false false false
  else match matchBranchExtension current candidate with
  | Some (_, mode) => countBranch d false true (bool_decide (mode = "sliding_suffix")) false false false
  | None =>
      let d := noteSliding (diagnoseSlidingSuffix current candidate) d in
      let consumed := (length (requestMessages candidate) + length (responseMessages candidate))%nat in
      if (length current <=? consumed)%nat then countBranch d false false false true false false
      else if negb (messagePrefixEqual current (requestMessages candidate) 0)
      then countBranch d false false false false true false
      else if negb (messagePrefixEqual current (responseMessages candidate) (length (requestMessages candidate)))
      then
        let d := countBranch d false false false false false true in
        if bool_decide (ExpectedResponseShape d = "")
        then noteResponse (responseMessages candidate) (drop (length (requestMessages candidate)) current) d else d
      else countBranch d false false false false false false
  end.

Definition Diagnose (now : Z) (scope : Scope) (messages : list json) (s : SessionStore)
  : SessionStore * MatchDiagnostics :=
  if negb (validScope scope) || bool_decide (messages = []) then (s, noDiagnostics true)
  else match canonicalMessages messages with
  | None => (s, noDiagnostics true)
  | Some current =>
      let s := pruneEntries now s in
      (s, fold_left (diagnoseOne scope current) (entriesOf s (scopeKey scope)) (noDiagnostics false))
  end.

(** ** Requests that hold leases *)

Record LeaseSys := { sessions : SessionStore; held : gmap nat Lease }.

Inductive LeaseLabel :=
| SPrepare (k : nat) (now : Z) (scope : Scope) (messages : list json) (maxTurns : Z)
| SDiagnose (now : Z) (scope : Scope) (messages : list json)
| SRecord (now : Z) (scope : Scope) (req resp : list json) (session : string) (parent : Z)
| SComplete (k : nat) (now : Z) (scope : Scope) (req resp : list json) (session : string) (parent : Z)
| SInvalidate (k : nat)
| SRelease (k : nat).

(** A request prepares while it holds no lease, and ends the lease it holds. *)
Definition leaseStep (l : LeaseLabel) (s : LeaseSys) : option LeaseSys :=
  match l with
  | SPrepare k now scope messages maxTurns =>
      match held s !! k with
      | Some _ => None
      | None =>
          let '(st, r) := PrepareWithMaxTurns now scope messages maxTurns (sessions s) in
          Some {| sessions := st; held := match r with Some lease => <[k := lease]> (held s) | None => held s end |}
      end
  | SDiagnose now scope messages => Some {| sessions := (Diagnose now scope messages (sessions s)).1; held := held s |}
  | SRecord now scope req resp session parent =>
      Some {| sessions := Record_ now scope req resp session parent (sessions s); held := held s |}
  | SComplete k now scope req resp session parent =>
      (fun lease => {| sessions := Complete now lease scope req resp session parent (sessions s);
                       held := delete k (held s) |}) <$> held s !! k
  | SInvalidate k => (fun lease => {| sessions := Invalidate lease (sessions s); held := delete k (held s) |}) <$> held s !! k
  | SRelease k => (fun lease => {| sessions := ReleaseLease lease (sessions s); held := delete k (held s) |}) <$> held s !! k
  end.

Fixpoint leaseRun (ls : list LeaseLabel) (s : LeaseSys) : option LeaseSys :=
  match ls with
  | [] => Some s
  | l :: ls => match leaseStep l s with Some s => leaseRun ls s | None => None end
  end.

(** ** Identifiers *)

Definition ids (s : SessionStore) (key : string) : list string := eid <$> entriesOf s key.

Lemma branchID_inj (n m : N) : branchID n = branchID m -> n = m.
Proof. unfold branchID. intros H. by simplify_eq. Qed.

Lemma fmap_sublist {A B} (f : A -> B) (l k : list A) : l `sublist_of` k -> f <$> l `sublist_of` f <$> k.
Proof. induction 1; csimpl; by constructor. Qed.

(** Every operation but [Record_] only removes entries or updates them in place:
    ids persist, and an entry stops being busy only if its id is in [X]. *)
Definition shrinks (X : string -> Prop) (s s' : SessionStore) : Prop :=
  nextID s' = nextID s /\ maxBranches s' = maxBranches s /\
  (forall key, ids s' key `sublist_of` ids s key) /\
  (forall key e', e' ∈ entriesOf s' key ->
     exists e, e ∈ entriesOf s key /\ eid e = eid e' /\ (busy e = true -> ~ X (eid e) -> busy e' = true)).

Lemma entriesOf_prune (now : Z) (s : SessionStore) (key : string) :
  entriesOf (pruneEntries now s) key = filter (fun e => fresh s now e = true) (entriesOf s key).
Proof.
  unfold entriesOf, pruneEntries, setBranches; simpl. rewrite lookup_omap.
  destruct (branches s !! key) as [items|]; simpl; [|done]. unfold keepFresh. by destruct (filter _ items).
Qed.

Lemma prune_shrinks (now : Z) (s : SessionStore) : shrinks (fun _ => False) s (pruneEntries now s).
Proof.
  split_and!; [done..| |].
  - intros key. unfold ids. rewrite entriesOf_prune. apply fmap_sublist, sublist_filter.
  - intros key e'. rewrite entriesOf_prune, list_elem_of_filter. intros [_ He]. eauto.
Qed.

Lemma updateEntry_ids (id : string) (f : entry -> entry) (items : list entry) :
  (forall e, eid (f e) = eid e) -> eid <$> updateEntry id f items = eid <$> items.
Proof. intros Hf. induction items as [|e items IH]; simpl; [done|]. case_bool_decide; csimpl; by rewrite ?Hf, ?IH. Qed.

Lemma updateEntry_elem (id : string) (f : entry -> entry) (items : list entry) (e' : entry) :
  e' ∈ updateEntry id f items -> e' ∈ items \/ exists e, e ∈ items /\ eid e = id /\ e' = f e.
Proof.
  induction items as [|e items IH]; simpl; [set_solver|].
  case_bool_decide as Hid; intros [->|H]%elem_of_cons; [right; exists e; set_solver|set_solver|set_solver|]. destruct (IH H) as [?|(e0 & ? & ? & ?)]; [set_solver|]. right. exists e0. set_solver.
Qed.

Lemma removeEntry_sublist (id : string) (items : list entry) : removeEntry id items `sublist_of` items.
Proof.
  induction items as [|e items IH]; simpl; [done|].
  case_bool_decide; [by apply sublist_cons|by apply sublist_skip].
Qed.

Lemma entriesOf_updateKey (key : string) (f : list entry -> list entry) (s : SessionStore) (key' : string) :
  f [] = [] -> entriesOf (updateKey key f s) key' = if bool_decide (key = key') then f (entriesOf s key') else entriesOf s key'.
Proof.
  intros Hf. unfold entriesOf, updateKey, setBranches; simpl. case_bool_decide as Hk.
  - subst. rewrite lookup_alter_eq. by destruct (branches s !! key').
  - by rewrite lookup_alter_ne.
Qed.

Lemma entriesOf_insert (m : gmap string (list entry)) (items : list entry) (s : SessionStore) (key key' : string) :
  entriesOf (setBranches (<[key := items]> m) s) key' =
  if bool_decide (key = key') then items else entriesOf (setBranches m s) key'.
Proof. unfold entriesOf; simpl. case_bool_decide; [subst; by rewrite lookup_insert_eq|by rewrite lookup_insert_ne]. Qed.

Lemma update_shrinks (key id : string) (f : entry -> entry) (s : SessionStore) :
  (forall e, eid (f e) = eid e) -> shrinks (fun x => x = id) s (updateKey key (updateEntry id f) s).
Proof.
  intros Hf. split_and!; [done..| |].
  - intros key'. unfold ids. rewrite entriesOf_updateKey by done. case_bool_decide; [by rewrite updateEntry_ids|done].
  - intros key' e'. rewrite entriesOf_updateKey by done. case_bool_decide; [|eauto].
    intros [?|(e & He & Hid & ->)]%updateEntry_elem; [eauto|]. exists e. rewrite Hf. naive_solver.
Qed.

Lemma entriesOf_Invalidate (l : Lease) (s : SessionStore) (key : string) :
  entriesOf (Invalidate l s) key =
  if bool_decide (leaseKey l = key) then removeEntry (entryID l) (entriesOf s key) else entriesOf s key.
Proof.
  unfold Invalidate. case_bool_decide as Hk.
  - subst key. destruct (removeEntry _ _) as [|e r]; unfold entriesOf; simpl; [by rewrite lookup_delete_eq|by rewrite lookup_insert_eq].
  - destruct (removeEntry _ _) as [|e r]; unfold entriesOf; simpl; [by rewrite lookup_delete_ne|by rewrite lookup_insert_ne].
Qed.

Lemma Invalidate_shrinks (l : Lease) (s : SessionStore) : shrinks (fun x => x = entryID l) s (Invalidate l s).
Proof.
  split_and!; [unfold Invalidate; by destruct (removeEntry _ _)..| |].
  - intros key. unfold ids. rewrite entriesOf_Invalidate. case_bool_decide; [|done]. apply fmap_sublist, removeEntry_sublist.
  - intros key e'. rewrite entriesOf_Invalidate. case_bool_decide; [|eauto]. intros He. exists e'.
    split_and!; [|done..]. eapply elem_of_sublist; [exact He|apply removeEntry_sublist].
Qed.

Lemma Complete_shrinks (now : Z) (l : Lease) scope req resp session parent (s : SessionStore) :
  shrinks (fun x => x = entryID l) s (Complete now l scope req resp session parent s).
Proof.
  unfold Complete. destruct (roundMessages _ _ _ _ _) as [[reqs resps]|]; [|apply Invalidate_shrinks].
  by apply update_shrinks.
Qed.

(** ** The selected branch *)

Definition candidateFor (scope : Scope) (current : list string) (e : entry) (consumed : nat) (mode : string) : Prop :=
  busy e = false /\ reusable scope e = true /\ matchBranchExtension current e = Some (consumed, mode).

(** A longer match wins; of two equally long ones a strict one is never replaced. *)
Definition outranked (c : nat) (m : string) (c' : nat) (m' : string) : Prop :=
  (c < c')%nat \/ c = c' /\ (m = "strict_prefix" -> m' = "strict_prefix").

Lemma outranked_refl (c : nat) (m : string) : outranked c m c m.
Proof. right. done. Qed.

Lemma outranked_trans c m c' m' c'' m'' : outranked c m c' m' -> outranked c' m' c'' m'' -> outranked c m c'' m''.
Proof. unfold outranked. intros [|[-> ?]] [|[-> ?]]; (left; lia) || (right; auto). Qed.

Lemma selectBranch_from (scope : Scope) (current : list string) (cs : list entry) (i : nat) sel j c m :
  selectBranch scope current i cs sel = Some (j, c, m) ->
  sel = Some (j, c, m) \/ (i <= j)%nat /\ exists e, cs !! (j - i)%nat = Some e /\ candidateFor scope current e c m.
Proof.
  revert i sel. induction cs as [|e cs IH]; intros i sel; [auto|].
  cbn [selectBranch]. destruct (busy e || negb (reusable scope e)) eqn:Hb.
  - intros [H|(H & e' & He & Hc)]%IH; [auto|]. right. split; [lia|]. exists e'. split; [|done].
    replace (j - i)%nat with (S (j - S i)) by lia. done.
  - apply orb_false_elim in Hb as [Hb Hr%negb_false_iff]. intros [H|(H & e' & He & Hc)]%IH.
    + destruct (matchBranchExtension current e) as [[c' m']|] eqn:Hm; [|auto].
      assert (sel = Some (j, c, m) \/ (i, c', m') = (j, c, m)) as [?|?]; [|auto|].
      { destruct sel as [[[? ?] ?]|]; [|naive_solver]. destruct (_ || _); naive_solver. }
      simplify_eq. right. split; [lia|]. exists e. rewrite Nat.sub_diag. done.
    + right. split; [lia|]. exists e'. split; [|done]. replace (j - i)%nat with (S (j - S i)) by lia. done.
Qed.

Lemma selectBranch_best (scope : Scope) (current : list string) (cs : list entry) (i : nat) sel c m :
  (exists j, sel = Some (j, c, m)) \/ (exists e, e ∈ cs /\ candidateFor scope current e c m) ->
  exists j c' m', selectBranch scope current i cs sel = Some (j, c', m') /\ outranked c m c' m'.
Proof.
  revert i sel c m. induction cs as [|e cs IH]; intros i sel c m.
  { intros [[j ->]|(e & He & _)]; [|set_solver]. exists j, c, m. auto using outranked_refl. }
  intros H. cbn [selectBranch]. destruct (busy e || negb (reusable scope e)) eqn:Hb.
  { apply IH. destruct H as [?|(e' & [->|He']%elem_of_cons & Hc)]; [auto| |eauto].
    destruct Hc as (H1 & H2 & _). by rewrite H1, H2 in Hb. }
  assert (exists c0 m0, outranked c m c0 m0 /\
    ((exists j, match matchBranchExtension current e, sel with
       | None, _ => sel
       | Some (consumed, mode), None => Some (i, consumed, mode)
       | Some (consumed, mode), Some (_, selectedConsumed, selectedMode) =>
           if (consumed <? selectedConsumed)%nat
              || ((consumed =? selectedConsumed)%nat && bool_decide (selectedMode = "strict_prefix"))
           then sel else Some (i, consumed, mode)
       end = Some (j, c0, m0)) \/ (exists e, e ∈ cs /\ candidateFor scope current e c0 m0))) as (c0 & m0 & Ho & H0).
  { destruct H as [[j ->]|(e' & [->|He']%elem_of_cons & Hc)].
    - destruct (matchBranchExtension current e) as [[c' m']|]; [|eauto 6 using outranked_refl].
      destruct (c' <? c)%nat eqn:Hlt; simpl; [eauto 6 using outranked_refl|]. apply Nat.ltb_ge in Hlt.
      destruct (c' =? c)%nat eqn:He; simpl; [apply Nat.eqb_eq in He; subst c'|apply Nat.eqb_neq in He].
      + case_bool_decide; [eauto 6 using outranked_refl|]. exists c, m'. split; [right; naive_solver|eauto].
      + exists c', m'. split; [left; lia|eauto].
    - destruct Hc as (_ & _ & ->). destruct sel as [[[j c1] m1]|]; [|eauto 6 using outranked_refl].
      destruct (c <? c1)%nat eqn:Hlt; simpl.
      { apply Nat.ltb_lt in Hlt. exists c1, m1. split; [left; lia|eauto]. }
      destruct (c =? c1)%nat eqn:He; simpl; [|eauto 6 using outranked_refl]. apply Nat.eqb_eq in He; subst c1.
      case_bool_decide; [|eauto 6 using outranked_refl]. exists c, m1. split; [right; auto|eauto].
    - exists c, m. split; [apply outranked_refl|eauto]. }
  destruct (IH (S i) _ c0 m0 H0) as (j & c' & m' & Hs & Ho'). exists j, c', m'. split; [exact Hs|eauto using outranked_trans].
Qed.

Lemma Prepare_inv (now : Z) (scope : Scope) (messages : list json) (maxTurns : Z) (s s' : SessionStore) (l : Lease) :
  PrepareWithMaxTurns now scope messages maxTurns s = (s', Some l) ->
  exists current i consumed e,
    validScope scope = true /\ canonicalMessages messages = Some current /\
    entriesOf (pruneEntries now s) (scopeKey scope) !! i = Some e /\
    selectBranch scope current 0 (entriesOf (pruneEntries now s) (scopeKey scope)) None = Some (i, consumed, MatchMode l) /\
    candidateFor scope current e consumed (MatchMode l) /\
    s' = setBranches (<[scopeKey scope := alter (setBusy true) i (entriesOf (pruneEntries now s) (scopeKey scope))]>
                        (branches (pruneEntries now s))) (pruneEntries now s) /\
    leaseKey l = scopeKey scope /\ entryID l = eid e /\ SessionID l = esessionID e /\ ParentMessageID l = eparent e /\
    TurnCount l = turns e /\ Rotate l = (0 <? maxTurns) && (maxTurns <=? turns e) /\
    DeltaMessages l = cloneAnyMessages (drop consumed messages).
Proof.
  unfold PrepareWithMaxTurns. destruct (validScope scope) eqn:Hv; simpl; [|done]. case_bool_decide; simpl; [done|].
  destruct (canonicalMessages messages) as [current|]; [|done].
  destruct (selectBranch _ _ _ _ _) as [[[i c] m]|] eqn:Hsel; [|done].
  destruct (selectBranch_from _ _ _ _ _ _ _ _ Hsel) as [?|(_ & e & He & Hc)]; [done|].
  rewrite Nat.sub_0_r in He. rewrite He. intros [= <- <-]. exists current, i, c, e. by split_and!.
Qed.

Lemma Prepare_none (now : Z) (scope : Scope) (messages : list json) (maxTurns : Z) (s s' : SessionStore) :
  PrepareWithMaxTurns now scope messages maxTurns s = (s', None) -> s' = s \/ s' = pruneEntries now s.
Proof.
  unfold PrepareWithMaxTurns. destruct (_ || _); [naive_solver|]. destruct (canonicalMessages messages); [|naive_solver].
  destruct (selectBranch _ _ _ _ _) as [[[i c] m]|]; [|naive_solver]. destruct (_ !! i); naive_solver.
Qed.

(** ** Exclusive leases *)

Record leaseInv (s : LeaseSys) : Prop := {
  li_id : forall key x, x ∈ ids (sessions s) key -> exists n, x = branchID n /\ (n <= nextID (sessions s))%N;
  li_nodup : forall key, NoDup (ids (sessions s) key);
  li_key : forall k1 k2 x, x ∈ ids (sessions s) k1 -> x ∈ ids (sessions s) k2 -> k1 = k2;
  li_held : forall k l, held s !! k = Some l -> exists n, entryID l = branchID n /\ (n <= nextID (sessions s))%N;
  li_busy : forall k l key e, held s !! k = Some l -> e ∈ entriesOf (sessions s) key -> eid e = entryID l -> busy e = true;
  li_excl : forall k1 k2 l1 l2, held s !! k1 = Some l1 -> held s !! k2 = Some l2 -> entryID l1 = entryID l2 -> k1 = k2
}.

Lemma elem_ids (s : SessionStore) (key : string) (e : entry) : e ∈ entriesOf s key -> eid e ∈ ids s key.
Proof. intros. unfold ids. set_solver. Qed.

Lemma shrinks_leaseInv (X : string -> Prop) (s : LeaseSys) (st : SessionStore) (h : gmap nat Lease) :
  leaseInv s -> shrinks X (sessions s) st -> h ⊆ held s -> (forall k l, h !! k = Some l -> ~ X (entryID l)) ->
  leaseInv {| sessions := st; held := h |}.
Proof.
  intros [I1 I2 I3 I4 I5 I6] (Hn & _ & Hs & He) Hh HX.
  assert (Hm : forall key x, x ∈ ids st key -> x ∈ ids (sessions s) key) by (intros; eapply elem_of_sublist; eauto).
  assert (Hl : forall k l, h !! k = Some l -> held s !! k = Some l) by (intros; by eapply lookup_weaken).
  split; simpl; rewrite ?Hn; eauto using sublist_NoDup.
  intros k l key e' Hk He' Hid. destruct (He _ _ He') as (e & Hin & Heq & Hb).
  apply Hb; [|rewrite Heq, Hid; eauto]. eapply I5; eauto. congruence.
Qed.

Lemma prune_leaseInv (now : Z) (s : LeaseSys) :
  leaseInv s -> leaseInv {| sessions := pruneEntries now (sessions s); held := held s |}.
Proof. intros I. eapply shrinks_leaseInv; eauto using prune_shrinks. Qed.

Lemma end_leaseInv (s : LeaseSys) (k : nat) (l : Lease) (st : SessionStore) :
  leaseInv s -> held s !! k = Some l -> shrinks (fun x => x = entryID l) (sessions s) st ->
  leaseInv {| sessions := st; held := delete k (held s) |}.
Proof.
  intros I Hk Hs. apply (shrinks_leaseInv _ _ _ _ I Hs); [apply delete_subseteq|].
  intros k' l' [Hne Hk']%lookup_delete_Some Heq. apply Hne. eapply li_excl; eauto.
Qed.

Lemma evictOne_sublist (items : list entry) : evictOne items `sublist_of` items.
Proof. destruct items; [done|]. unfold evictOne. apply sublist_delete. Qed.

Lemma Record_inv (now : Z) scope req resp session parent (s : SessionStore) :
  let s' := Record_ now scope req resp session parent s in
  s' = s \/
  exists created, eid created = branchID ((nextID s + 1) mod 2 ^ 64) /\ busy created = false /\
    nextID s' = ((nextID s + 1) mod 2 ^ 64)%N /\ maxBranches s' = maxBranches s /\
    forall key, entriesOf s' key `sublist_of`
      entriesOf (pruneEntries now s) key ++ (if bool_decide (key = scopeKey scope) then [created] else []).
Proof.
  unfold Record_. destruct (roundMessages _ _ _ _ _) as [[reqs resps]|]; [|auto]. right.
  exists {| eid := branchID ((nextID s + 1) mod 2 ^ 64); escope := scope; esessionID := TrimSpace session; eparent := parent;
            requestMessages := reqs; responseMessages := resps; turns := 1; updatedAt := now; busy := false |}.
  split_and!; [done..|]. intros key. unfold entriesOf at 1; simpl. destruct (decide (key = scopeKey scope)) as [->|Hk].
  - rewrite lookup_insert_eq, bool_decide_eq_true_2 by done. simpl. destruct (_ <? _); [apply evictOne_sublist|done].
  - rewrite lookup_insert_ne, bool_decide_eq_false_2, app_nil_r by done. done.
Qed.

Lemma Record_leaseInv (now : Z) scope req resp session parent (s : LeaseSys) :
  leaseInv s -> (nextID (sessions s) + 1 < 2 ^ 64)%N ->
  leaseInv {| sessions := Record_ now scope req resp session parent (sessions s); held := held s |}.
Proof.
  intros I Hw. destruct (Record_inv now scope req resp session parent (sessions s)) as [E|(c & Hc & Hb & Hn & _ & Hs)].
  { rewrite E. by destruct s. }
  rewrite N.mod_small in Hc, Hn by done. destruct (prune_leaseInv now s I) as [I1 I2 I3 I4 I5 I6]; simpl in *.
  set (st := Record_ now scope req resp session parent (sessions s)) in *.
  assert (Hm : forall key e, e ∈ entriesOf st key ->
    e ∈ entriesOf (pruneEntries now (sessions s)) key \/ key = scopeKey scope /\ e = c).
  { intros key e He. eapply elem_of_sublist in He; [|apply Hs]. apply elem_of_app in He as [He|He]; [auto|].
    case_bool_decide; set_solver. }
  assert (Hx : forall key x, x ∈ ids st key ->
    x ∈ ids (pruneEntries now (sessions s)) key \/ key = scopeKey scope /\ x = eid c).
  { intros key x. unfold ids at 1. rewrite list_elem_of_fmap. intros (e & -> & He). apply Hm in He as [He|[-> ->]]; eauto using elem_ids. }
  assert (Hfresh : forall n, (n <= nextID (sessions s))%N -> branchID n <> eid c).
  { intros n Hle. rewrite Hc. intros E%branchID_inj. lia. }
  assert (Hnew : forall key, eid c ∉ ids (pruneEntries now (sessions s)) key).
  { intros key (n & E & ?)%I1. naive_solver. }
  split; simpl; rewrite ?Hn.
  - intros key x [H|[-> ->]]%Hx; [|exists (nextID (sessions s) + 1)%N; split; [done|lia]].
    destruct (I1 _ _ H) as (n & -> & ?). exists n. split; [done|lia].
  - intros key. unfold ids. eapply sublist_NoDup; [|by apply fmap_sublist, Hs]. rewrite fmap_app.
    apply NoDup_app. split_and!; [apply I2| |case_bool_decide; simpl; [apply NoDup_singleton|constructor]].
    case_bool_decide; simpl; [|set_solver]. intros x Hx0 ->%list_elem_of_singleton. by apply (Hnew key).
  - intros k1 k2 x [H1|[-> ->]]%Hx [H2|[-> E]]%Hx; subst; eauto; exfalso; by eapply Hnew.
  - intros k l (n & -> & ?)%I4. exists n. split; [done|lia].
  - intros k l key e Hk [He|[-> ->]]%Hm Hid; [eauto|]. destruct (I4 _ _ Hk) as (n & E & ?). rewrite E in Hid. by apply Hfresh in H.
  - eauto.
Qed.

Lemma alter_busy_elem (i : nat) (items : list entry) (e e' : entry) :
  items !! i = Some e -> NoDup (eid <$> items) -> e' ∈ alter (setBusy true) i items ->
  (e' ∈ items /\ eid e' <> eid e) \/ (e' = setBusy true e).
Proof.
  intros Hi Hnd [j Hj]%list_elem_of_lookup. rewrite list_lookup_alter in Hj. case_decide as Hij.
  - subst. rewrite Hi in Hj. simplify_eq/=. auto.
  - left. split; [by eapply list_elem_of_lookup_2|]. intros E. apply Hij.
    eapply NoDup_lookup; [exact Hnd|rewrite list_lookup_fmap, Hi; done|rewrite list_lookup_fmap, Hj; simpl; congruence].
Qed.

Lemma alter_busy_ids (i : nat) (items : list entry) : eid <$> alter (setBusy true) i items = eid <$> items.
Proof. revert i. induction items as [|e items IH]; intros [|i]; csimpl; [done..|]. f_equal. apply IH. Qed.

Lemma Prepare_leaseInv (k : nat) (now : Z) scope messages maxTurns (s : LeaseSys) st l :
  leaseInv s -> held s !! k = None -> PrepareWithMaxTurns now scope messages maxTurns (sessions s) = (st, Some l) ->
  leaseInv {| sessions := st; held := <[k := l]> (held s) |}.
Proof.
  intros I Hk (current & i & c & e & _ & _ & Hi & _ & Hc & -> & Hkey & Hid & _)%Prepare_inv.
  apply (prune_leaseInv now) in I as [I1 I2 I3 I4 I5 I6]; simpl in *. set (p := pruneEntries now (sessions s)) in *.
  set (st := setBranches _ p).
  assert (Hin : e ∈ entriesOf p (scopeKey scope)) by (by eapply list_elem_of_lookup_2).
  assert (Hids : forall key, ids st key = ids p key).
  { intros key. unfold ids, st. rewrite entriesOf_insert. case_bool_decide; [subst; apply alter_busy_ids|done]. }
  assert (Hel : forall key e', e' ∈ entriesOf st key ->
    (e' ∈ entriesOf p key /\ eid e' <> eid e) \/ e' = setBusy true e).
  { intros key e'. unfold st. rewrite entriesOf_insert. case_bool_decide as Hkk.
    - subst key. intros H. by eapply alter_busy_elem in H; [|exact Hi|apply I2].
    - intros H. left. split; [exact H|]. intros E. apply Hkk. symmetry.
      eapply I3; [by eapply elem_ids|rewrite E; by eapply elem_ids]. }
  assert (Hfree : forall k' l', held s !! k' = Some l' -> entryID l' <> eid e).
  { intros k' l' Hk' E. destruct Hc as [Hb _]. rewrite (I5 _ _ _ _ Hk' Hin) in Hb; congruence. }
  split; simpl.
  - intros key x. rewrite Hids. apply I1.
  - intros key. rewrite Hids. apply I2.
  - intros k1 k2 x. rewrite !Hids. apply I3.
  - intros k' l' [[_ <-]|[_ H]]%lookup_insert_Some; [|by eapply I4]. rewrite Hid. eapply I1. by eapply elem_ids.
  - intros k' l' key e' [[_ <-]|[_ H]]%lookup_insert_Some [[He Hne]|He]%Hel E; [congruence|by subst| |by subst].
    by eapply I5.
  - intros k1 k2 l1 l2 [[<- <-]|[Hn1 H1]]%lookup_insert_Some [[<- <-]|[Hn2 H2]]%lookup_insert_Some E; [done| | |eauto];
      exfalso; [eapply Hfree; [exact H2|congruence]|eapply Hfree; [exact H1|congruence]].
Qed.

Lemma leaseInv_start (ttl maxB : Z) : leaseInv {| sessions := NewStore ttl maxB; held := ∅ |}.
Proof. split; simpl; unfold ids, entriesOf; simpl; try setoid_rewrite lookup_empty; simpl; try set_solver. intros; constructor. Qed.

Lemma leaseStep_inv (lb : LeaseLabel) (s s' : LeaseSys) :
  leaseInv s -> (nextID (sessions s) + 1 < 2 ^ 64)%N -> leaseStep lb s = Some s' ->
  leaseInv s' /\ (nextID (sessions s') <= nextID (sessions s) + 1)%N.
Proof.
  intros I Hw. destruct lb as [k now sc ms mt|now sc ms|now sc rq rs ss pm|k now sc rq rs ss pm|k|k]; cbn [leaseStep].
  - destruct (held s !! k) eqn:Hk; [done|]. destruct (PrepareWithMaxTurns _ _ _ _ _) as [st [l|]] eqn:Hp; intros [= <-].
    + split; [by eapply Prepare_leaseInv|]. apply Prepare_inv in Hp as (? & ? & ? & ? & _ & _ & _ & _ & _ & -> & _). simpl. lia.
    + apply Prepare_none in Hp as [->| ->]; [destruct s; simpl; split; [done|lia]|].
      split; [by apply prune_leaseInv|simpl; lia].
  - intros [= <-]. unfold Diagnose. destruct (_ || _); [destruct s; simpl; split; [done|lia]|].
    destruct (canonicalMessages ms); [|destruct s; simpl; split; [done|lia]]. split; [by apply prune_leaseInv|simpl; lia].
  - intros [= <-]. split; [by apply Record_leaseInv|]. simpl.
    destruct (Record_inv now sc rq rs ss pm (sessions s)) as [->|(c & _ & _ & -> & _)]; [lia|]. rewrite N.mod_small; lia.
  - destruct (held s !! k) as [l|] eqn:Hk; [|done]. intros [= <-].
    pose proof (Complete_shrinks now l sc rq rs ss pm (sessions s)) as H. split; [by eapply end_leaseInv|].
    destruct H as (Hn & _). cbn [sessions]. rewrite Hn. lia.
  - destruct (held s !! k) as [l|] eqn:Hk; [|done]. intros [= <-].
    pose proof (Invalidate_shrinks l (sessions s)) as H. split; [by eapply end_leaseInv|].
    destruct H as (Hn & _). cbn [sessions]. rewrite Hn. lia.
  - destruct (held s !! k) as [l|] eqn:Hk; [|done]. intros [= <-].
    assert (shrinks (fun x => x = entryID l) (sessions s) (ReleaseLease l (sessions s))) as H by by apply update_shrinks.
    split; [by eapply end_leaseInv|]. destruct H as (Hn & _). cbn [sessions]. rewrite Hn. lia.
Qed.

Lemma leaseRun_inv (ls : list LeaseLabel) (s s' : LeaseSys) :
  leaseInv s -> (nextID (sessions s) + N.of_nat (length ls) < 2 ^ 64)%N -> leaseRun ls s = Some s' -> leaseInv s'.
Proof.
  revert s. induction ls as [|lb ls IH]; intros s I Hw; [by intros [= <-]|].
  cbn [leaseRun length] in *. destruct (leaseStep lb s) as [s1|] eqn:Hs; [|done].
  apply leaseStep_inv in Hs as [I1 Hn]; [|done|lia]. apply IH; [done|lia].
Qed.

(** C26. Leases are exclusive: after any run of fewer than 2^64 calls in which a
    request ends only the lease it holds, no two requests hold the same upstream
    session branch, and the stored branch of a held lease is still marked busy. *)
Theorem lease_exclusive (ls : list LeaseLabel) (ttl maxB : Z) (s : LeaseSys) (k1 k2 : nat) (l1 l2 : Lease) :
  (N.of_nat (length ls) < 2 ^ 64)%N ->
  leaseRun ls {| sessions := NewStore ttl maxB; held := ∅ |} = Some s ->
  held s !! k1 = Some l1 -> held s !! k2 = Some l2 ->
  (entryID l1 = entryID l2 -> k1 = k2) /\
  (forall key e, e ∈ entriesOf (sessions s) key -> eid e = entryID l1 -> busy e = true).
Proof.
  intros Hlen Hrun H1 H2. apply leaseRun_inv in Hrun as I; [|apply leaseInv_start|exact Hlen].
  split; [by eapply li_excl|]. intros key e. by eapply li_busy.
Qed.

(** ** What a lease extends *)

(** [c] messages of the request are already part of the branch: all of the stored
    round, or the system messages and a suffix of the round that holds a user
    message and the whole answer. *)
Definition extension (current : list string) (e : entry) (c : nat) (mode : string) : Prop :=
  (c < length current)%nat /\
  (mode = "strict_prefix" /\ take c current = requestMessages e ++ responseMessages e \/
   mode = "sliding_suffix" /\ exists n dropped kept,
     n = leadingSystemCount current /\ take n current = take n (requestMessages e) /\
     drop n (requestMessages e) = dropped ++ kept /\ rawMessagesContainRole kept "user" = true /\
     take c current = take n current ++ kept ++ responseMessages e).

Lemma messagePrefixEqual_true (current expected : list string) (offset : nat) :
  messagePrefixEqual current expected offset = true <->
  (offset + length expected <= length current)%nat /\ take (length expected) (drop offset current) = expected.
Proof.
  unfold messagePrefixEqual. destruct (_ <? _)%nat eqn:H; [apply Nat.ltb_lt in H|apply Nat.ltb_ge in H].
  - split; [done|]. intros [? _]. lia.
  - rewrite bool_decide_eq_true. naive_solver lia.
Qed.

Lemma slidingOverlap_sound (stored conversation : list string) (responses overlap o : nat) :
  slidingOverlap stored conversation responses overlap = Some o ->
  (responses + 1 <= o <= overlap)%nat /\ take o conversation = drop (length stored - o) stored /\
  rawMessagesContainRole
    (take (length stored - responses - (length stored - o)) (drop (length stored - o) stored)) "user" = true.
Proof.
  induction overlap as [|n IH]; [done|]. cbn [slidingOverlap].
  destruct (S n <? responses + 1)%nat eqn:H; [done|]. apply Nat.ltb_ge in H. case_bool_decide as Heq; simpl.
  - match goal with |- (if ?b then _ else _) = _ -> _ => destruct b eqn:Hu end.
    + intros [= <-]. split_and!; [lia|lia|done|done].
    + intros (? & ? & ?)%IH. split_and!; [lia|lia|done|done].
  - intros (? & ? & ?)%IH. split_and!; [lia|lia|done|done].
Qed.

Lemma leadingSystemCount_le (l : list string) : (leadingSystemCount l <= length l)%nat.
Proof. induction l as [|x l IH]; simpl; [lia|]. case_bool_decide; lia. Qed.

(** A suffix of [req ++ resp] longer than [resp] is a suffix of [req], then [resp]. *)
Lemma drop_into {A} (req resp : list A) (o : nat) : (length resp <= o <= length req + length resp)%nat ->
  drop (length (req ++ resp) - o) (req ++ resp) = drop (length req + length resp - o) req ++ resp.
Proof. intros. rewrite length_app, drop_app_le by lia. done. Qed.

Lemma match_extension (current : list string) (e : entry) (c : nat) (mode : string) :
  matchBranchExtension current e = Some (c, mode) -> extension current e c mode.
Proof.
  unfold matchBranchExtension. match goal with |- (if ?b then _ else _) = _ -> _ => destruct b eqn:Hs end.
  { intros [= <- <-]. apply andb_true_iff in Hs as [[Hlt%Nat.ltb_lt H1]%andb_true_iff H2].
    apply messagePrefixEqual_true in H1 as [_ H1], H2 as [_ H2]. rewrite drop_0 in H1.
    split; [lia|]. left. split; [done|]. rewrite <- H1 at 2. rewrite <- H2 at 2. by rewrite take_take_drop. }
  destruct (_ =? _)%nat eqn:Hn; simpl; [apply Nat.eqb_eq in Hn|done].
  destruct (messagePrefixEqual current (take _ _) 0) eqn:Hp; simpl; [|done].
  destruct (slidingOverlap _ _ _ _) as [o|] eqn:Ho; [|done]. intros [= <- <-].
  apply slidingOverlap_sound in Ho as (Hr & Heq & Hu). apply messagePrefixEqual_true in Hp as [Hl Hp].
  pose proof (leadingSystemCount_le (requestMessages e)). pose proof (leadingSystemCount_le current).
  rewrite length_take, drop_0, Nat.min_l in Hp by lia. unfold storedConversation in *. rewrite Hn in *.
  rewrite length_app, !length_drop in Hr. rewrite drop_into in Heq, Hu by (rewrite length_drop; lia).
  rewrite length_drop in Heq, Hu. split; [lia|]. right. split; [done|].
  exists (leadingSystemCount current),
    (take (length (requestMessages e) - leadingSystemCount current + length (responseMessages e) - o)
       (drop (leadingSystemCount current) (requestMessages e))),
    (drop (length (requestMessages e) - leadingSystemCount current + length (responseMessages e) - o)
       (drop (leadingSystemCount current) (requestMessages e))).
  split_and!; [done|done|by rewrite take_drop| |by rewrite <- Heq, take_take_drop].
  rewrite take_app_le, take_ge in Hu by (rewrite ?length_app, !length_drop; lia). exact Hu.
Qed.

(** A request that strictly extends a stored round always matches it. *)
Lemma match_strict (e : entry) (rest : list string) :
  rest <> [] ->
  matchBranchExtension (requestMessages e ++ responseMessages e ++ rest) e =
  Some ((length (requestMessages e) + length (responseMessages e))%nat, "strict_prefix").
Proof.
  intros Hr. unfold matchBranchExtension. replace (_ && _ && _) with true; [done|]. symmetry.
  rewrite !andb_true_iff, !messagePrefixEqual_true, Nat.ltb_lt, drop_0, drop_app_length, !take_app_length, !length_app.
  destruct rest; [done|]. simpl. split_and!; (lia || done).
Qed.

Lemma reusable_true (scope : Scope) (e : entry) :
  reusable scope e = true <-> escope e = scope /\ 0 < eparent e /\ TrimSpace (esessionID e) <> "".
Proof.
  unfold reusable. rewrite !andb_true_iff, bool_decide_eq_true, Z.ltb_lt, negb_true_iff, bool_decide_eq_false. tauto.
Qed.

Lemma canonicalMessages_length (messages : list json) (current : list string) :
  canonicalMessages messages = Some current -> length current = length messages.
Proof.
  revert current. induction messages as [|m messages IH]; simpl; [by intros ? [= <-]|]. intros current.
  destruct (canonicalMessage m), (canonicalMessages messages); try done. intros [= <-]. simpl. by rewrite IH.
Qed.

(** A lease always continues what its upstream session has seen: the branch has
    the scope of the request, was idle and is not past its lifetime; the messages left
    out are exactly its last round (or its system messages and a suffix of the round with
    a user message and the whole answer); something remains to be sent; no other idle
    branch of the scope matches more; and nothing else about the store changes. *)
Theorem prepare_extends (now : Z) (scope : Scope) (messages : list json) (maxTurns : Z) (s s' : SessionStore) (l : Lease) :
  PrepareWithMaxTurns now scope messages maxTurns s = (s', Some l) ->
  exists current i c e,
    canonicalMessages messages = Some current /\
    entriesOf (pruneEntries now s) (scopeKey scope) !! i = Some e /\
    busy e = false /\ escope e = scope /\ fresh s now e = true /\
    extension current e c (MatchMode l) /\ (c < length messages)%nat /\
    (forall e' c' mode', e' ∈ entriesOf (pruneEntries now s) (scopeKey scope) ->
       candidateFor scope current e' c' mode' -> outranked c' mode' c (MatchMode l)) /\
    entryID l = eid e /\ SessionID l = esessionID e /\ ParentMessageID l = eparent e /\ 0 < eparent e /\
    DeltaMessages l = cloneAnyMessages (drop c messages) /\
    entriesOf s' (scopeKey scope) = alter (setBusy true) i (entriesOf (pruneEntries now s) (scopeKey scope)) /\
    (forall key, key <> scopeKey scope -> entriesOf s' key = entriesOf (pruneEntries now s) key).
Proof.
  intros (current & i & c & e & _ & Hm & Hi & Hsel & Hc & -> & _ & Hid & Hss & Hp & _ & _ & Hd)%Prepare_inv.
  pose proof Hc as (Hb & [Hscope [Hpos _]]%reusable_true & Hx%match_extension).
  exists current, i, c, e. split_and!; try done.
  - apply list_elem_of_lookup_2 in Hi. rewrite entriesOf_prune, list_elem_of_filter in Hi. apply Hi.
  - rewrite <- (canonicalMessages_length _ _ Hm). apply Hx.
  - intros e' c' m' He' Hc'. destruct (selectBranch_best scope current _ 0 None c' m' (or_intror (ex_intro _ e' (conj He' Hc')))) as (j & c1 & m1 & Hs & Ho).
    rewrite Hsel in Hs. by simplify_eq.
  - by rewrite entriesOf_insert, bool_decide_eq_true_2.
  - intros key Hk. by rewrite entriesOf_insert, bool_decide_eq_false_2.
Qed.

(** ** Diagnosis *)

Definition accounted (d : MatchDiagnostics) : Prop :=
  Branches d = (Busy d + Extendable d + NotExtendable d + RequestPrefixMismatch d + ResponsePrefixMismatch d)%nat /\
  (SlidingSuffixMatches d <= Extendable d)%nat.

(** The counters, which the descriptions do not touch. *)
Definition sameCounts (d d' : MatchDiagnostics) : Prop :=
  Branches d' = Branches d /\ Busy d' = Busy d /\ NotExtendable d' = NotExtendable d /\
  RequestPrefixMismatch d' = RequestPrefixMismatch d /\ ResponsePrefixMismatch d' = ResponsePrefixMismatch d /\
  Extendable d' = Extendable d /\ SlidingSuffixMatches d' = SlidingSuffixMatches d.

Lemma noteSliding_counts (sl : slidingSuffixDiagnostic) (d : MatchDiagnostics) : sameCounts d (noteSliding sl d).
Proof. unfold noteSliding. by destruct (_ && _). Qed.

Lemma noteResponse_counts (expected current : list string) (d : MatchDiagnostics) : sameCounts d (noteResponse expected current d).
Proof.
  revert current. induction expected as [|e expected IH]; intros [|c current]; try done. cbn [noteResponse].
  case_bool_decide; [apply IH|done].
Qed.

Lemma sameCounts_accounted (d d' : MatchDiagnostics) : sameCounts d d' -> accounted d -> accounted d'.
Proof. unfold sameCounts, accounted. lia. Qed.

Lemma diagnoseOne_accounted (scope : Scope) (current : list string) (d : MatchDiagnostics) (e : entry) :
  accounted d -> accounted (diagnoseOne scope current d e).
Proof.
  intros Hd. unfold diagnoseOne. destruct (reusable scope e); simpl; [|done].
  destruct (busy e); [destruct Hd; split; simpl; lia|]. destruct (matchBranchExtension current e) as [[c m]|] eqn:Hm.
  { destruct Hd. split; simpl; [|destruct (bool_decide _)]; simpl; lia. }
  assert (Hs : accounted (noteSliding (diagnoseSlidingSuffix current e) d)) by (by eapply sameCounts_accounted; [apply noteSliding_counts|]).
  set (d1 := noteSliding _ d) in *. clearbody d1.
  unfold matchBranchExtension in Hm. destruct (_ <=? _)%nat eqn:Hl; [destruct Hs; split; simpl; lia|].
  rewrite Nat.leb_antisym in Hl. apply negb_false_iff in Hl. rewrite Hl in Hm. cbn [andb] in Hm.
  destruct (messagePrefixEqual current (requestMessages e) 0); [|destruct Hs; split; simpl; lia].
  destruct (messagePrefixEqual current (responseMessages e) _); [done|]. cbn [negb].
  assert (Hc : accounted (countBranch d1 false false false false false true)) by (destruct Hs; split; simpl; lia).
  case_bool_decide; [|done]. by eapply sameCounts_accounted; [apply noteResponse_counts|].
Qed.

Lemma diagnoseOne_extendable (scope : Scope) (current : list string) (d : MatchDiagnostics) (e : entry) :
  Extendable (diagnoseOne scope current d e) = 0%nat <->
  Extendable d = 0%nat /\ forall c m, ~ candidateFor scope current e c m.
Proof.
  unfold diagnoseOne, candidateFor. destruct (reusable scope e); simpl; [|split; [split; [done|by intros ? ? (_ & ? & _)]|tauto]].
  destruct (busy e); simpl; [split; [split; [done|by intros ? ? (? & _)]|tauto]|].
  destruct (matchBranchExtension current e) as [[c m]|]; simpl.
  { split; [lia|]. intros [_ H]. exfalso. by apply (H c m). }
  assert (forall x, x = 0%nat <-> x = 0%nat /\ forall (c : nat) (m : string), ~ (false = false /\ true = true /\ None = Some (c, m))) as H.
  { intros x. split; [|tauto]. split; [done|]. by intros ? ? (_ & _ & ?). }
  destruct (noteSliding_counts (diagnoseSlidingSuffix current e) d) as (_ & _ & _ & _ & _ & E & _). rewrite <- E.
  set (d1 := noteSliding _ d). destruct (_ <=? _)%nat; simpl; [apply H|]. destruct (messagePrefixEqual _ _ 0); simpl; [|apply H].
  destruct (messagePrefixEqual _ _ _); simpl; [apply H|]. case_bool_decide; [|apply H].
  destruct (noteResponse_counts (responseMessages e) (drop (length (requestMessages e)) current)
    (countBranch d1 false false false false false true)) as (_ & _ & _ & _ & _ & -> & _). apply H.
Qed.

Lemma diagnose_fold (scope : Scope) (current : list string) (cs : list entry) (d : MatchDiagnostics) :
  accounted d ->
  accounted (fold_left (diagnoseOne scope current) cs d) /\
  (Extendable (fold_left (diagnoseOne scope current) cs d) = 0%nat <->
   Extendable d = 0%nat /\ forall e c m, e ∈ cs -> ~ candidateFor scope current e c m).
Proof.
  revert d. induction cs as [|e cs IH]; intros d Hd; simpl.
  { split; [done|]. set_solver. }
  destruct (IH _ (diagnoseOne_accounted scope current d e Hd)) as [H1 H2]. split; [done|].
  rewrite H2, diagnoseOne_extendable. setoid_rewrite elem_of_cons. naive_solver.
Qed.

Lemma Prepare_misses (now : Z) (scope : Scope) (messages : list json) (maxTurns : Z) (s : SessionStore) current :
  validScope scope = true -> messages <> [] -> canonicalMessages messages = Some current ->
  ((PrepareWithMaxTurns now scope messages maxTurns s).2 = None <->
   forall e c m, e ∈ entriesOf (pruneEntries now s) (scopeKey scope) -> ~ candidateFor scope current e c m).
Proof.
  intros Hv Hne Hm. unfold PrepareWithMaxTurns. rewrite Hv, Hm, bool_decide_eq_false_2 by done. simpl.
  set (cs := entriesOf (pruneEntries now s) (scopeKey scope)).
  destruct (selectBranch scope current 0 cs None) as [[[i c] m]|] eqn:Hs; simpl.
  - destruct (selectBranch_from _ _ _ _ _ _ _ _ Hs) as [?|(_ & e & He & Hc)]; [done|]. rewrite Nat.sub_0_r in He.
    rewrite He. split; [done|]. intros H. exfalso. eapply H; [|exact Hc]. by eapply list_elem_of_lookup_2.
  - split; [|done]. intros _ e c m He Hc.
    destruct (selectBranch_best scope current cs 0 None c m) as (? & ? & ? & ? & _); [eauto|congruence].
Qed.

(** The diagnosis of a miss is complete and truthful: every reusable branch of the
    scope is counted in exactly one class, the sliding matches are among the extendable
    ones, and no branch is extendable exactly when a lease is refused. *)
Theorem diagnose_partition (now : Z) (scope : Scope) (messages : list json) (maxTurns : Z) (s : SessionStore) :
  let d := (Diagnose now scope messages s).2 in
  Branches d = (Busy d + Extendable d + NotExtendable d + RequestPrefixMismatch d + ResponsePrefixMismatch d)%nat /\
  (SlidingSuffixMatches d <= Extendable d)%nat /\
  (Extendable d = 0%nat <-> (PrepareWithMaxTurns now scope messages maxTurns s).2 = None).
Proof.
  unfold Diagnose. destruct (validScope scope) eqn:Hv; simpl; [|unfold PrepareWithMaxTurns; by rewrite Hv].
  case_bool_decide as Hne; simpl.
  { unfold PrepareWithMaxTurns. by rewrite Hv, bool_decide_eq_true_2. }
  destruct (canonicalMessages messages) as [current|] eqn:Hm; simpl.
  2: { unfold PrepareWithMaxTurns. by rewrite Hm, orb_comm; destruct (bool_decide _), (validScope scope). }
  destruct (diagnose_fold scope current (entriesOf (pruneEntries now s) (scopeKey scope)) (noDiagnostics false)) as [[H1 H2] H3]; [done|].
  split_and!; [done|done|]. rewrite H3, (Prepare_misses _ _ _ _ _ current) by done. naive_solver.
Qed.

(** ** Recording a round *)

Lemma oldestIndex_keeps_last (l : list entry) (c : entry) (i o : nat) (stamp : Z) :
  stamp <= updatedAt c -> (o < i)%nat -> (oldestIndex (l ++ [c]) i o stamp < i + length l)%nat.
Proof.
  revert i o stamp. induction l as [|e l IH]; intros i o stamp Hs Ho; simpl.
  - destruct (updatedAt c <? stamp) eqn:H; [apply Z.ltb_lt in H; lia|lia].
  - destruct (updatedAt e <? stamp) eqn:H; [apply Z.ltb_lt in H|]; eapply Nat.lt_le_trans; try apply IH; lia.
Qed.

(** The entry that was just appended is not the one that is evicted, unless it is
    alone or the clock went backwards. *)
Lemma evictOne_keeps_last (items : list entry) (c : entry) :
  items <> [] -> (forall e, e ∈ items -> updatedAt e <= updatedAt c) -> c ∈ evictOne (items ++ [c]).
Proof.
  destruct items as [|e items]; [done|]. intros _ H. simpl.
  pose proof (oldestIndex_keeps_last items c 1 0 (updatedAt e)) as Hl. set (j := oldestIndex _ _ _ _) in *.
  assert (j < length (e :: items))%nat by (simpl; apply Hl; [apply H; set_solver|lia]).
  change (c ∈ delete j ((e :: items) ++ [c])). rewrite delete_take_drop, drop_app_le by lia. set_solver.
Qed.

Lemma evictOne_length (items : list entry) : items <> [] -> S (length (evictOne items)) = length items.
Proof.
  destruct items as [|e items]; [done|]. intros _. unfold evictOne.
  assert (forall l i o st, (o < i)%nat -> (oldestIndex l i o st < i + length l)%nat) as H.
  { induction l as [|x l IH]; intros i o st Ho; simpl; [lia|].
    destruct (_ <? _); (eapply Nat.lt_le_trans; [apply IH; lia|lia]). }
  rewrite length_delete; [simpl; lia|]. apply lookup_lt_is_Some. specialize (H items 1%nat 0%nat (updatedAt e)). simpl. lia.
Qed.

Lemma canonicalMessages_app (a b : list json) (ca cb : list string) :
  canonicalMessages a = Some ca -> canonicalMessages b = Some cb -> canonicalMessages (a ++ b) = Some (ca ++ cb).
Proof.
  intros Ha Hb. revert ca Ha. induction a as [|m a IH]; intros ca; simpl; [by intros [= <-]|].
  destruct (canonicalMessage m), (canonicalMessages a) as [ca'|]; try done. intros [= <-]. by rewrite (IH ca').
Qed.

Lemma Record_stores (now : Z) scope req resp session parent (s : SessionStore) reqs resps :
  roundMessages scope req resp session parent = Some (reqs, resps) -> 1 <= maxBranches s ->
  (forall e, e ∈ entriesOf s (scopeKey scope) -> updatedAt e <= now) ->
  exists e, e ∈ entriesOf (Record_ now scope req resp session parent s) (scopeKey scope) /\
    escope e = scope /\ esessionID e = TrimSpace session /\ eparent e = parent /\
    requestMessages e = reqs /\ responseMessages e = resps /\ updatedAt e = now /\ busy e = false.
Proof.
  intros Hr Hmax Hold. unfold Record_. rewrite Hr.
  exists {| eid := branchID ((nextID s + 1) mod 2 ^ 64); escope := scope; esessionID := TrimSpace session; eparent := parent;
            requestMessages := reqs; responseMessages := resps; turns := 1; updatedAt := now; busy := false |}.
  split; [|done].
  unfold entriesOf at 1; simpl. rewrite lookup_insert_eq; simpl. destruct (_ <? _) eqn:Hlt; [|set_solver].
  apply Z.ltb_lt in Hlt. rewrite length_app in Hlt; simpl in Hlt. apply evictOne_keeps_last.
  - intros E. rewrite E in Hlt. simpl in Hlt. lia.
  - intros e. rewrite entriesOf_prune, list_elem_of_filter. intros [_ He]. by apply Hold.
Qed.

(** A recorded round is found again: while it is within its lifetime, a later
    request of the same scope that repeats the round's messages and adds some is given
    a lease, and only messages after the repeated round are sent. *)
Theorem record_then_prepare (now later : Z) scope req resp next session parent maxTurns (s : SessionStore) :
  validScope scope = true -> TrimSpace session <> "" -> 0 < parent -> req <> [] -> resp <> [] -> next <> [] ->
  is_Some (canonicalMessages req) -> is_Some (canonicalMessages resp) ->
  is_Some (canonicalMessages next) -> 1 <= maxBranches s ->
  (forall e, e ∈ entriesOf s (scopeKey scope) -> updatedAt e <= now) -> timeSub later now <= sttl s ->
  exists l c, (PrepareWithMaxTurns later scope (req ++ resp ++ next) maxTurns
                 (Record_ now scope req resp session parent s)).2 = Some l /\
    (length req + length resp <= c)%nat /\ DeltaMessages l = cloneAnyMessages (drop c (req ++ resp ++ next)).
Proof.
  intros Hv Hs Hp Hq Hr Hn [cq Hcq] [cr Hcr] [cn Hcn] Hmax Hold Hage.
  pose proof (canonicalMessages_length _ _ Hcq) as Lq. pose proof (canonicalMessages_length _ _ Hcr) as Lr.
  pose proof (canonicalMessages_length _ _ Hcn) as Ln.
  assert (Hround : roundMessages scope req resp session parent = Some (cq, cr)).
  { unfold roundMessages. rewrite Hv, Hcq, Hcr, bool_decide_eq_false_2 by done. simpl.
    destruct (parent <=? 0) eqn:E; [apply Z.leb_le in E; lia|].
    destruct cq, req, cr, resp; done. }
  destruct (Record_stores now scope req resp session parent s cq cr Hround Hmax Hold)
    as (e & He & Hsc & Hss & Hpar & Hrq & Hrs & Hup & Hb).
  set (s1 := Record_ _ _ _ _ _ _ s) in *.
  assert (Httl : sttl s1 = sttl s) by (unfold s1, Record_; by rewrite Hround).
  assert (Hall : canonicalMessages (req ++ resp ++ next) = Some (cq ++ cr ++ cn)) by (repeat apply canonicalMessages_app; done).
  assert (Hin : e ∈ entriesOf (pruneEntries later s1) (scopeKey scope)).
  { rewrite entriesOf_prune, list_elem_of_filter. split; [|done]. unfold fresh. rewrite Hup, Httl.
    by rewrite (proj2 (Z.leb_le _ _) Hage), orb_true_r. }
  assert (Hcand : candidateFor scope (cq ++ cr ++ cn) e (length cq + length cr) "strict_prefix").
  { split_and!; [done| |].
    - rewrite reusable_true, Hss, Hpar, Hsc. split_and!; [done|done|]. by rewrite TrimSpace_idem.
    - rewrite <- Hrq, <- Hrs. apply match_strict. destruct cn, next; done. }
  destruct (PrepareWithMaxTurns later scope (req ++ resp ++ next) maxTurns s1) as [s2 [l|]] eqn:Hprep.
  - apply Prepare_inv in Hprep as (current & i & c & e' & _ & Hm & _ & Hsel & _ & _ & _ & _ & _ & _ & _ & _ & Hd).
    rewrite Hall in Hm. injection Hm as <-. exists l, c. split_and!; [done| |done].
    destruct (selectBranch_best scope (cq ++ cr ++ cn) _ 0 None _ _ (or_intror (ex_intro _ e (conj Hin Hcand))))
      as (j & c1 & m1 & Hs1 & Ho). rewrite Hsel in Hs1. injection Hs1 as <- <- <-. rewrite <- Lq, <- Lr. destruct Ho as [?|[<- _]]; lia.
  - exfalso. assert (Hnone : (PrepareWithMaxTurns later scope (req ++ resp ++ next) maxTurns s1).2 = None) by (by rewrite Hprep).
    assert (Hne : req ++ resp ++ next <> []) by (by destruct req).
    rewrite (Prepare_misses _ _ _ _ _ _ Hv Hne Hall) in Hnone. by eapply Hnone.
Qed.

(** ** Bound on the branches of a scope *)

Definition bounded (max : Z) (s : SessionStore) : Prop :=
  maxBranches s = max /\ 1 <= max /\ forall key, Z.of_nat (length (entriesOf s key)) <= max.

Lemma ids_bounded (max : Z) (s s' : SessionStore) :
  maxBranches s' = maxBranches s -> (forall key, ids s' key `sublist_of` ids s key) -> bounded max s -> bounded max s'.
Proof.
  intros Hm Hs (H0 & H1 & H2). split_and!; [by rewrite Hm|done|]. intros key.
  specialize (Hs key). apply sublist_length in Hs. unfold ids in Hs. rewrite !length_fmap in Hs. specialize (H2 key). lia.
Qed.

Lemma shrinks_bounded (max : Z) (X : string -> Prop) (s s' : SessionStore) : shrinks X s s' -> bounded max s -> bounded max s'.
Proof. intros (_ & Hm & Hs & _). by apply ids_bounded. Qed.

Lemma Prepare_bounded (now : Z) scope messages maxTurns (s : SessionStore) max :
  bounded max s -> bounded max (PrepareWithMaxTurns now scope messages maxTurns s).1.
Proof.
  intros H. pose proof (shrinks_bounded _ _ _ _ (prune_shrinks now s) H) as Hp.
  destruct (PrepareWithMaxTurns _ _ _ _ _) as [st [l|]] eqn:E; simpl; [|by apply Prepare_none in E as [->| ->]].
  apply Prepare_inv in E as (current & i & c & e & _ & _ & _ & _ & _ & -> & _).
  apply (ids_bounded _ (pruneEntries now s)); [done| |done]. intros key. unfold ids. rewrite entriesOf_insert.
  case_bool_decide; [subst; by rewrite alter_busy_ids|done].
Qed.

Lemma Record_bounded (now : Z) scope req resp session parent (s : SessionStore) max :
  bounded max s -> bounded max (Record_ now scope req resp session parent s).
Proof.
  intros H. pose proof (shrinks_bounded _ _ _ _ (prune_shrinks now s) H) as (H0 & H1 & H2). unfold Record_.
  destruct (roundMessages _ _ _ _ _) as [[reqs resps]|]; [|done]. split_and!; [done|done|]. intros key.
  unfold entriesOf at 1; cbn [branches]. destruct (decide (key = scopeKey scope)) as [->|Hk].
  - rewrite lookup_insert_eq. simpl. destruct (_ <? _) eqn:Hlt; change (maxBranches (pruneEntries now s)) with (maxBranches s) in *; rewrite H0 in Hlt; [|by apply Z.ltb_ge in Hlt].
    set (items := entriesOf (pruneEntries now s) (scopeKey scope) ++ _).
    pose proof (evictOne_length items) as Hl. specialize (H2 (scopeKey scope)).
    assert (items <> []) as Hne by (unfold items; by destruct (entriesOf (pruneEntries now s) (scopeKey scope))).
    apply Hl in Hne. unfold items at 2 in Hne. rewrite length_app in Hne. simpl in *. lia.
  - rewrite lookup_insert_ne by done. apply (H2 key).
Qed.

Lemma leaseStep_bounded (lb : LeaseLabel) (s s' : LeaseSys) (max : Z) :
  leaseStep lb s = Some s' -> bounded max (sessions s) -> bounded max (sessions s').
Proof.
  intros Hs H. destruct lb as [k now sc ms mt|now sc ms|now sc rq rs ss pm|k now sc rq rs ss pm|k|k]; cbn [leaseStep] in Hs.
  - destruct (held s !! k); [done|]. pose proof (Prepare_bounded now sc ms mt _ max H) as Hb.
    destruct (PrepareWithMaxTurns _ _ _ _ _) as [st r]. by injection Hs as <-.
  - injection Hs as <-. unfold Diagnose. destruct (_ || _); [done|]. destruct (canonicalMessages ms); [|done].
    exact (shrinks_bounded _ _ _ _ (prune_shrinks now _) H).
  - injection Hs as <-. by apply Record_bounded.
  - destruct (held s !! k); [|done]. injection Hs as <-. by eapply shrinks_bounded; [apply Complete_shrinks|].
  - destruct (held s !! k); [|done]. injection Hs as <-. by eapply shrinks_bounded; [apply Invalidate_shrinks|].
  - destruct (held s !! k); [|done]. injection Hs as <-. by eapply shrinks_bounded; [by apply update_shrinks|].
Qed.

(** The store is bounded: after any run of calls no scope key holds more than the
    configured number of branches, which is at least one whatever was configured. *)
Theorem branches_bounded (ls : list LeaseLabel) (ttl maxB : Z) (s : LeaseSys) (key : string) :
  leaseRun ls {| sessions := NewStore ttl maxB; held := ∅ |} = Some s ->
  1 <= maxBranches (NewStore ttl maxB) /\
  Z.of_nat (length (entriesOf (sessions s) key)) <= maxBranches (NewStore ttl maxB).
Proof.
  intros Hrun. assert (bounded (maxBranches (NewStore ttl maxB)) (sessions s)) as (_ & ? & ?); [|by split].
  revert Hrun. assert (bounded (maxBranches (NewStore ttl maxB)) (sessions {| sessions := NewStore ttl maxB; held := ∅ |})) as H.
  { split_and!; [done| |]; unfold NewStore, defaultMaxBranches; cbn [maxBranches sessions].
    - destruct (maxB <=? 0) eqn:E; [|apply Z.leb_gt in E]; lia.
    - intros key'. unfold entriesOf. cbn [branches]. rewrite lookup_empty. simpl. destruct (maxB <=? 0) eqn:E; [|apply Z.leb_gt in E]; lia. }
  revert H. generalize {| sessions := NewStore ttl maxB; held := ∅ |}. generalize (maxBranches (NewStore ttl maxB)). intros max.
  induction ls as [|lb ls IH]; intros s0 H; [by intros [= <-]|]. cbn [leaseRun].
  destruct (leaseStep lb s0) as [s1|] eqn:Hs; [|done]. apply IH. clear IH. by eapply leaseStep_bounded.
Qed.
End Store.

(** ** Instances *)

(** A codec for messages with a role and a text, and for arrays of one of them. *)
Definition demoMarshal (v : json) : option string :=
  match v with
  | JObj [("role", JStr r); ("content", JStr c)] =>
      if bool_decide (r = "user") then Some ("U" +:+ c) else if bool_decide (r = "assistant") then Some ("A" +:+ c) else None
  | JArr [JObj [("role", JStr "user"); ("content", JStr c)]] => Some ("[U" +:+ c)
  | _ => None
  end.

Definition demoMessage (role content : string) : json := JObj [("role", JStr role); ("content", JStr content)].

Definition demoUnmarshal (b : string) : option json :=
  if HasPrefix b "U" then Some (demoMessage "user" (strDrop 1 b))
  else if HasPrefix b "A" then Some (demoMessage "assistant" (strDrop 1 b))
  else if HasPrefix b "[U" then Some (JArr [demoMessage "user" (strDrop 2 b)]) else None.

Definition demoScope : Scope :=
  {| CallerID := "caller"; ScopeSessionKey := "key"; ScopeAccountID := "account"; Surface := "openai"; Variant := "chat" |}.
Definition demoReq : list json := [demoMessage "user" "hi"].
Definition demoResp : list json := [demoMessage "assistant" "hello"].
Definition demoNext : list json := [demoMessage "user" "more"].
Definition demoRecord (now : Z) : LeaseLabel := SRecord now demoScope demoReq demoResp "session" 4.
Definition demoPrepare (k : nat) (now : Z) : LeaseLabel := SPrepare k now demoScope (demoReq ++ demoResp ++ demoNext) 0.
Definition demoRun : list LeaseLabel := [demoRecord 10; demoRecord 20; demoPrepare 0 30; demoPrepare 1 40].
Definition demoSys : LeaseSys :=
  default {| sessions := NewStore 0 0; held := ∅ |}
    (leaseRun demoMarshal demoUnmarshal demoRun {| sessions := NewStore 0 0; held := ∅ |}).

Lemma lease_exclusive_witness :
  leaseRun demoMarshal demoUnmarshal demoRun {| sessions := NewStore 0 0; held := ∅ |} = Some demoSys /\
  match held demoSys !! 0%nat, held demoSys !! 1%nat with
  | Some l1, Some l2 => entryID l1 <> entryID l2
  | _, _ => False
  end.
Proof.
  split; [vm_compute; reflexivity|].
  destruct (held demoSys !! 0%nat) as [l1|] eqn:H1; [|vm_compute in H1; discriminate H1].
  destruct (held demoSys !! 1%nat) as [l2|] eqn:H2; [|vm_compute in H2; discriminate H2].
  intros E. discriminate (proj1 (lease_exclusive demoMarshal demoUnmarshal demoRun 0 0 demoSys 0 1 l1 l2
    ltac:(vm_compute; reflexivity) ltac:(vm_compute; reflexivity) H1 H2) E).
Defined.

Definition demoStore : SessionStore :=
  Record_ demoMarshal demoUnmarshal 10 demoScope demoReq demoResp "session" 4 (NewStore 0 0).

Lemma prepare_extends_witness :
  match PrepareWithMaxTurns demoMarshal demoUnmarshal 30 demoScope (demoReq ++ demoResp ++ demoNext) 0 demoStore with
  | (s', Some l) => exists c, DeltaMessages l = cloneAnyMessages demoMarshal demoUnmarshal (drop c (demoReq ++ demoResp ++ demoNext)) /\
                              DeltaMessages l = demoNext
  | _ => False
  end.
Proof.
  destruct (PrepareWithMaxTurns demoMarshal demoUnmarshal 30 demoScope (demoReq ++ demoResp ++ demoNext) 0 demoStore)
    as [s' [l|]] eqn:H; [|vm_compute in H; discriminate H].
  destruct (prepare_extends demoMarshal demoUnmarshal 30 demoScope (demoReq ++ demoResp ++ demoNext) 0 demoStore s' l H)
    as (current & i & c & e & _ & _ & _ & _ & _ & _ & _ & _ & _ & _ & _ & _ & Hd & _).
  exists c. split; [exact Hd|]. vm_compute in H. injection H as _ <-. reflexivity.
Defined.

Lemma record_then_prepare_witness :
  exists l c, (PrepareWithMaxTurns demoMarshal demoUnmarshal 30 demoScope (demoReq ++ demoResp ++ demoNext) 0 demoStore).2 = Some l /\
    (length demoReq + length demoResp <= c)%nat /\
    DeltaMessages l = cloneAnyMessages demoMarshal demoUnmarshal (drop c (demoReq ++ demoResp ++ demoNext)).
Proof.
  refine (record_then_prepare demoMarshal demoUnmarshal 10 30 demoScope demoReq demoResp demoNext "session" 4 0 (NewStore 0 0)
    _ _ _ _ _ _ _ _ _ _ _ _);
    try (vm_compute; reflexivity); try (vm_compute; discriminate); try (eexists; vm_compute; reflexivity).
  intros e He. vm_compute in He. inversion He.
Defined.

Lemma branches_bounded_witness : (length (entriesOf (sessions demoSys) (scopeKey demoScope)) <= 8)%nat.
Proof.
  pose proof (branches_bounded demoMarshal demoUnmarshal demoRun 0 0 demoSys (scopeKey demoScope) ltac:(vm_compute; reflexivity)) as [_ H].
  change (maxBranches (NewStore 0 0)) with 8 in H. lia.
Defined.
