(* ===== verification/CacheKey.v ===== *)
(** The keys of the response cache: [internal/responsecache/cache.go] (which
    requests are cached and under which key) and [path_policy.go].

    A request is its method, path, decoded query, headers and declared length; the
    body comes apart, as the bytes that were read.  JSON decoding with [UseNumber]
    keeps the text of numbers, so [keyJson] has their literals; [Decode] (one value
    and nothing after it) and [Marshal] are parameters. *)
From S2P Require Import Prelude GoString GoText Sha256.
From Stdlib Require Import Ascii.

(** ** Requests *)

Record Request := {
  Method : string; URLPath : string; URLQuery : gmap string (list string); ReqHeader : Header; ContentLength : Z
}.

Record pathPolicy := { PolicyPath : string; SharedAcrossCallers : bool }.

Definition pathPolicyFor (path : string) : pathPolicy :=
  {| PolicyPath := path;
     SharedAcrossCallers := bool_decide (path ∈ ["/v1/embeddings"; "/v1/messages/count_tokens"]) |}.

Definition canonicalRequestPath (p : string) : string :=
  let path := TrimSpace p in
  if bool_decide (path ∈ ["/chat/completions"; "/v1/v1/chat/completions"]) then "/v1/chat/completions"
  else if bool_decide (path ∈ ["/responses"; "/v1/v1/responses"]) then "/v1/responses"
  else if bool_decide (path ∈ ["/embeddings"; "/v1/v1/embeddings"]) then "/v1/embeddings"
  else if bool_decide (path ∈ ["/anthropic/v1/messages"; "/messages"; "/v1/v1/messages"]) then "/v1/messages"
  else if bool_decide (path ∈ ["/anthropic/v1/messages/count_tokens"; "/messages/count_tokens"; "/v1/v1/messages/count_tokens"])
  then "/v1/messages/count_tokens"
  else path.

(** ** Headers of the request *)

Definition hasHeaderToken (raw token : string) : bool :=
  existsb (fun part => bool_decide (ToLower (TrimSpace part) = ToLower (TrimSpace token))) (SplitByte "," raw).

Fixpoint firstValue (h : Header) (names : list string) : string :=
  match names with
  | [] => ""
  | name :: names =>
      let value := TrimSpace (HeaderGet h name) in if bool_decide (value = "") then firstValue h names else value
  end.

Definition requestHeaderValue (h : Header) (primary : string) (legacy : list string) : string :=
  firstValue h (primary :: legacy).

Fixpoint firstValues (h : Header) (names : list string) : list string :=
  match names with
  | [] => []
  | name :: names => match HeaderValues h name with [] => firstValues h names | values => values end
  end.

Definition requestHeaderValues (h : Header) (primary : string) (legacy : list string) : list string :=
  firstValues h (primary :: legacy).

Definition requestForcesBypass (r : Request) : bool :=
  let cacheControl := HeaderGet (ReqHeader r) "Cache-Control" in
  if hasHeaderToken cacheControl "no-cache" || hasHeaderToken cacheControl "no-store" then true
  else EqualFold (requestHeaderValue (ReqHeader r) "X-DeepSeek-Web-To-API-Cache-Control" ["X-Ds2-Cache-Control"]) "bypass".

Definition cacheablePaths : list string :=
  ["/v1/chat/completions"; "/v1/responses"; "/v1/embeddings";
   "/anthropic/v1/messages"; "/v1/messages"; "/messages";
   "/anthropic/v1/messages/count_tokens"; "/v1/messages/count_tokens"; "/messages/count_tokens"].

Definition CacheableRequest (r : Request) : bool :=
  if negb (bool_decide (Method r = "POST")) then false
  else if requestForcesBypass r then false
  else
    let path := canonicalRequestPath (URLPath r) in
    if bool_decide (path ∈ cacheablePaths) then true
    else if HasPrefix path "/v1beta/models/" || HasPrefix path "/v1/models/"
    then HasSuffix path ":generateContent" || HasSuffix path ":streamGenerateContent"
    else false.

Record varyRequestHeader := { VaryName : string; Legacy : list string }.

Definition varyRequestHeaders : list varyRequestHeader := [
  {| VaryName := "Accept"; Legacy := [] |};
  {| VaryName := "Anthropic-Beta"; Legacy := [] |};
  {| VaryName := "Anthropic-Version"; Legacy := [] |};
  {| VaryName := "Content-Type"; Legacy := [] |};
  {| VaryName := "X-DeepSeek-Web-To-API-Session-Affinity-Key"; Legacy := ["X-Ds2-Session-Affinity-Key"] |};
  {| VaryName := "X-DeepSeek-Web-To-API-Source"; Legacy := ["X-Ds2-Source"] |};
  {| VaryName := "X-DeepSeek-Web-To-API-Target-Account"; Legacy := ["X-Ds2-Target-Account"] |} ].

(** ["\x1f"] *)
Definition unitSep : string := String (ascii_of_N 31) "".

Definition canonicalQuery (values : gmap string (list string)) : string :=
  let keys := sortStrings (map_to_list values).*1 in
  Join ((fun key => key +:+ "=" +:+ Join (sortStrings (default [] (values !! key))) unitSep) <$> keys) "&".

(** ** Normalised bodies *)

Inductive keyJson :=
| KNull
| KBool (b : bool)
| KNumber (literal : string)
| KStr (s : string)
| KArr (items : list keyJson)
| KObj (members : list (string * keyJson)).

Fixpoint keyMember (k : string) (m : list (string * keyJson)) : option keyJson :=
  match m with
  | [] => None
  | (k', v) :: m => if bool_decide (k = k') then Some v else keyMember k m
  end.

Definition cacheKeyMapShouldDrop (value : list (string * keyJson)) : bool :=
  let typ := match keyMember "type" value with Some (KStr s) => s | _ => "" end in
  EqualFold (TrimSpace typ) "cache_edits".

Definition cacheMarkers : list string := ["cache_control"; "cache_reference"; "context_management"].
Definition identifierFields : list string :=
  ["id"; "call_id"; "tool_call_id"; "tool_use_id"; "message_id"; "request_id"; "trace_id"; "event_id";
   "conversation_id"; "conversationid"; "chat_id"; "chatid"; "thread_id"; "threadid"; "session_id"; "sessionid"].
Definition topLevelFields : list string :=
  ["metadata"; "user"; "service_tier"; "parallel_tool_calls"; "seed"; "store"; "betas"].

Definition ignoredCacheKeyField (key : string) (topLevel semanticKey : bool) : bool :=
  let k := ToLower (TrimSpace key) in
  if bool_decide (k ∈ cacheMarkers) then true
  else if semanticKey && bool_decide (k ∈ identifierFields) then true
  else if negb topLevel then false
  else bool_decide (k ∈ topLevelFields).

Definition semanticStringKey (key : string) : bool :=
  bool_decide (ToLower (TrimSpace key) ∈ ["content"; "text"; "input"; "prompt"; "query"; "instructions"; "system"]).

Definition semanticLowerStringKey (key : string) : bool := bool_decide (ToLower (TrimSpace key) ∈ ["role"; "type"]).

Definition normalizeSemanticString (s : string) : string :=
  let raw := TrimSpace s in
  if bool_decide (raw = "") then ""
  else let fields := Fields raw in if (length fields <=? 1) then raw else Join fields " ".

(** [None] is the second result [false]: the value is dropped. *)
Fixpoint normalizeCacheKeyJSONValue (semanticKey : bool) (value : keyJson) (topLevel : bool) (key : string)
  : option keyJson :=
  match value with
  | KObj v =>
      if cacheKeyMapShouldDrop v then None
      else
        Some (KObj ((fix members (v : list (string * keyJson)) :=
          match v with
          | [] => []
          | (key, item) :: v =>
              if ignoredCacheKeyField key topLevel semanticKey then members v
              else match normalizeCacheKeyJSONValue semanticKey item false key with
                   | None => members v
                   | Some normalized => (key, normalized) :: members v
                   end
          end) v))
  | KArr v =>
      Some (KArr ((fix items (v : list keyJson) :=
        match v with
        | [] => []
        | item :: v =>
            match normalizeCacheKeyJSONValue semanticKey item false key with
            | None => items v
            | Some normalized => normalized :: items v
            end
        end) v))
  | KStr v =>
      if semanticKey && semanticStringKey key then Some (KStr (normalizeSemanticString v))
      else if semanticKey && semanticLowerStringKey key then Some (KStr (ToLower (TrimSpace v)))
      else Some value
  | _ => Some value
  end.

Definition isJSONContentType (raw : string) : bool :=
  let raw := ToLower (TrimSpace raw) in
  bool_decide (raw = "application/json") || Contains raw "+json" || Contains raw "/json".

Definition cacheKeyShouldNormalizeJSON (r : Request) : bool :=
  if isJSONContentType (HeaderGet (ReqHeader r) "Content-Type") then true else CacheableRequest r.

(** ** Keys *)

Section Keys.
Variable Decode : list N -> option keyJson.
Variable Marshal : keyJson -> option (list N).

Definition canonicalRequestBodyForKey (r : Request) (body : list N) (semanticKey : bool) : list N :=
  if bool_decide (body = []) || negb (cacheKeyShouldNormalizeJSON r) then body
  else match Decode body with
  | None => body
  | Some value =>
      match normalizeCacheKeyJSONValue semanticKey value true "" with
      | None => body
      | Some value => match Marshal value with None | Some [] => body | Some normalized => normalized end
      end
  end.

(** What [writeKeyPart] writes. *)
Definition writeKeyPart (value : string) : list N := bytesOf value ++ [0%N].

Definition ownerPart (owner : string) (policy : pathPolicy) : string :=
  if SharedAcrossCallers policy then "shared" else TrimSpace owner.

Definition headerPart (r : Request) (header : varyRequestHeader) : string :=
  ToLower (VaryName header) +:+ ":" +:+ Join (requestHeaderValues (ReqHeader r) (VaryName header) (Legacy header)) unitSep.

Definition versionPart (semanticKey : bool) : string := if semanticKey then "v2-semantic" else "v1".

(** The parts after version and owner. *)
Definition requestParts (r : Request) (body : list N) (semanticKey : bool) : list string :=
  [ToUpper (TrimSpace (Method r)); canonicalRequestPath (URLPath r); canonicalQuery (URLQuery r)]
  ++ (headerPart r <$> varyRequestHeaders)
  ++ [EncodeToString (Sum256 (canonicalRequestBodyForKey r body semanticKey))].

(** Everything that is written to the hash. *)
Definition keyPreimage (r : Request) (owner : string) (body : list N) (semanticKey : bool) (policy : pathPolicy) : list N :=
  mbind writeKeyPart (versionPart semanticKey :: ownerPart owner policy :: requestParts r body semanticKey).

Definition requestKey (r : Request) (owner : string) (body : list N) (semanticKey : bool) (policy : pathPolicy) : string :=
  EncodeToString (Sum256 (keyPreimage r owner body semanticKey policy)).

Definition RequestKey (r : Request) (owner : string) (body : list N) : string :=
  requestKey r owner body true (pathPolicyFor (canonicalRequestPath (URLPath r))).
End Keys.

(** [hex.DecodeString] succeeds on an even number of hexadecimal digits. *)
Definition hexByte (c : ascii) : bool :=
  isDigit c || ((97 <=? code c)%N && (code c <=? 102)%N) || ((65 <=? code c)%N && (code c <=? 70)%N).

Definition normalizeKey (k : string) : string :=
  let key := ToLower (TrimSpace k) in
  if negb (String.length key =? 64) then ""
  else if allBytes hexByte key then key else "".

(** [Stream any] of the decoded body: an error reads as not streaming. *)
Definition requestBodyStreamEnabled (Unmarshal : list N -> option (option keyJson)) (body : list N) : bool :=
  match body with
  | [] => false
  | _ => match Unmarshal body with
         | Some (Some (KBool v)) => v
         | Some (Some (KStr v)) => EqualFold (TrimSpace v) "true"
         | _ => false
         end
  end.

(** ** Separation of keys *)

Definition noNul (s : string) : Prop := 0%N ∉ bytesOf s.

#[global] Instance noNul_dec (s : string) : Decision (noNul s).
Proof. unfold noNul. apply _. Defined.

Lemma bytesOf_inj (s t : string) : bytesOf s = bytesOf t -> s = t.
Proof. intros H. by rewrite <- (stringOf_bytesOf s), H, stringOf_bytesOf. Qed.

(** A part that holds no NUL is delimited by the one that follows it. *)
Lemma writeKeyPart_split (s t : string) (x y : list N) :
  noNul s -> noNul t -> writeKeyPart s ++ x = writeKeyPart t ++ y -> s = t /\ x = y.
Proof.
  unfold writeKeyPart, noNul. rewrite <- !app_assoc. intros Hs Ht H.
  assert (bytesOf s = bytesOf t /\ x = y) as [E ->]; [|split; [by apply bytesOf_inj|done]].
  revert Hs Ht H. generalize (bytesOf s) (bytesOf t). intros a. induction a as [|c a IH]; intros [|d b] Ha Hb H; simpl in *.
  - by simplify_eq.
  - injection H as <- _. set_solver.
  - injection H as -> _. set_solver.
  - injection H as <- H. apply IH in H as [-> ->]; set_solver.
Qed.

Lemma writeKeyParts_inj (ps qs : list string) :
  length ps = length qs -> Forall noNul ps -> Forall noNul qs -> mbind writeKeyPart ps = mbind writeKeyPart qs -> ps = qs.
Proof.
  revert qs. induction ps as [|p ps IH]; intros [|q qs] Hl Hp Hq; try done. rewrite !bind_cons. intros H.
  inversion Hp; inversion Hq; subst. apply writeKeyPart_split in H as [-> H]; [|done|done]. f_equal. apply IH; [simpl in Hl; lia|done..].
Qed.

Definition policyOf (r : Request) : pathPolicy := pathPolicyFor (canonicalRequestPath (URLPath r)).

Lemma versionPart_inj (b b' : bool) : versionPart b = versionPart b' -> b = b'.
Proof. by destruct b, b'. Qed.

Lemma versionPart_noNul (b : bool) : noNul (versionPart b).
Proof. destruct b; refine (bool_decide_unpack _ _); exact I. Qed.

(** Responses never cross tenants: on a path whose answers are private to a caller,
    whatever method, path, query, headers or bodies the two requests carry, the text that
    is hashed into the key differs for any two callers, and differs from every key of a
    path that callers share (the callers' names hold no NUL byte, and none is the tag of
    the shared entries). *)
Theorem key_tenant_isolation Decode Marshal (r r' : Request) (owner owner' : string) (body body' : list N) (sem sem' : bool) :
  SharedAcrossCallers (policyOf r) = false ->
  noNul (TrimSpace owner) -> noNul (TrimSpace owner') -> TrimSpace owner <> "shared" ->
  keyPreimage Decode Marshal r owner body sem (policyOf r) = keyPreimage Decode Marshal r' owner' body' sem' (policyOf r') ->
  sem = sem' /\ SharedAcrossCallers (policyOf r') = false /\ TrimSpace owner = TrimSpace owner'.
Proof.
  intros Hr Ho Ho' Hne. unfold keyPreimage. rewrite !bind_cons. intros H.
  assert (forall b, noNul (versionPart b)) as Hv by (intros b; exact (versionPart_noNul b)).
  apply writeKeyPart_split in H as [Hsem%versionPart_inj H]; [|done|done].
  assert (noNul (ownerPart owner' (policyOf r')))
    by (unfold ownerPart; destruct (SharedAcrossCallers (policyOf r')); [exact (bool_decide_unpack (noNul "shared") I)|exact Ho']).
  apply writeKeyPart_split in H as [H _]; [|unfold ownerPart; by rewrite Hr|done].
  unfold ownerPart in H. rewrite Hr in H. destruct (SharedAcrossCallers (policyOf r')); done.
Qed.

Lemma fmap_eq_Forall {A B} (f g : A -> B) (l : list A) : f <$> l = g <$> l -> Forall (fun x => f x = g x) l.
Proof. induction l as [|x l IH]; csimpl; [constructor|]. intros [= H1 H2]. constructor; auto. Qed.

(** A header's part tells the header's values. *)
Lemma headerPart_values (r r' : Request) (header : varyRequestHeader) : headerPart r header = headerPart r' header ->
  Join (requestHeaderValues (ReqHeader r) (VaryName header) (Legacy header)) unitSep =
  Join (requestHeaderValues (ReqHeader r') (VaryName header) (Legacy header)) unitSep.
Proof. unfold headerPart. by intros H%(inj _)%(inj _). Qed.

(** The headers that vary a response, with the names they had. *)
Definition varyingNames : list (string * list string) :=
  [("Accept", []); ("Anthropic-Beta", []); ("Anthropic-Version", []); ("Content-Type", []);
   ("X-DeepSeek-Web-To-API-Session-Affinity-Key", ["X-Ds2-Session-Affinity-Key"]);
   ("X-DeepSeek-Web-To-API-Source", ["X-Ds2-Source"]);
   ("X-DeepSeek-Web-To-API-Target-Account", ["X-Ds2-Target-Account"])].

(** C30. Nothing that the key is meant to depend on is lost: if no part that is hashed holds a NUL
    byte, equal hashed texts mean the same format, the same owner tag, method and canonical
    path, the same canonical form of the query (which is not the query itself: names and values
    are sorted and joined without escaping), the same joined values of each of the headers
    [Accept], [Anthropic-Beta], [Anthropic-Version], [Content-Type], session affinity key,
    source and target account, and the same digest of the canonical body. *)
Theorem key_separates Decode Marshal (r r' : Request) (owner owner' : string) (body body' : list N) (sem sem' : bool) policy policy' :
  Forall noNul (ownerPart owner policy :: requestParts Decode Marshal r body sem) ->
  Forall noNul (ownerPart owner' policy' :: requestParts Decode Marshal r' body' sem') ->
  keyPreimage Decode Marshal r owner body sem policy = keyPreimage Decode Marshal r' owner' body' sem' policy' ->
  sem = sem' /\ ownerPart owner policy = ownerPart owner' policy' /\
  ToUpper (TrimSpace (Method r)) = ToUpper (TrimSpace (Method r')) /\
  canonicalRequestPath (URLPath r) = canonicalRequestPath (URLPath r') /\
  canonicalQuery (URLQuery r) = canonicalQuery (URLQuery r') /\
  Forall (fun names => Join (requestHeaderValues (ReqHeader r) names.1 names.2) unitSep =
                       Join (requestHeaderValues (ReqHeader r') names.1 names.2) unitSep) varyingNames /\
  EncodeToString (Sum256 (canonicalRequestBodyForKey Decode Marshal r body sem)) =
  EncodeToString (Sum256 (canonicalRequestBodyForKey Decode Marshal r' body' sem')).
Proof.
  intros Hp Hp' H. apply writeKeyParts_inj in H; [|done|..].
  - pose proof (f_equal (fun l => default "" (head l)) H) as Hsem%versionPart_inj. subst sem'.
    assert (H' := f_equal tail H). pose proof (f_equal (fun l => default "" (head l)) H') as Ho.
    apply (f_equal tail) in H'. cbn [tail] in H'. unfold requestParts in H'. apply app_inj_1 in H' as [Hm H']; [|done].
    apply app_inj_tail in H' as [Hh Hb]. injection Hm as Hm Hpath Hq. split_and!; try done.
    change varyingNames with ((fun h => (VaryName h, Legacy h)) <$> varyRequestHeaders).
    apply Forall_fmap. eapply Forall_impl; [exact (fmap_eq_Forall _ _ _ Hh)|]. intros h. apply headerPart_values.
  - constructor; [apply versionPart_noNul|done].
  - constructor; [apply versionPart_noNul|done].
Qed.

(** ** What normalisation keeps *)

Definition normalMember (semanticKey topLevel : bool) (kv : string * keyJson) : option (string * keyJson) :=
  if ignoredCacheKeyField kv.1 topLevel semanticKey then None
  else (fun v => (kv.1, v)) <$> normalizeCacheKeyJSONValue semanticKey kv.2 false kv.1.

Lemma normalize_object (semanticKey topLevel : bool) (key : string) (m : list (string * keyJson)) :
  normalizeCacheKeyJSONValue semanticKey (KObj m) topLevel key =
  if cacheKeyMapShouldDrop m then None else Some (KObj (omap (normalMember semanticKey topLevel) m)).
Proof.
  cbn [normalizeCacheKeyJSONValue]. destruct (cacheKeyMapShouldDrop m); [done|]. do 2 f_equal.
  induction m as [|[k v] m IH]; [done|]. cbn [omap list_omap]. unfold normalMember at 1. cbn [fst snd].
  destruct (ignoredCacheKeyField k topLevel semanticKey); [exact IH|].
  destruct (normalizeCacheKeyJSONValue semanticKey v false k); simpl; [by f_equal|exact IH].
Qed.

Lemma keyMember_omap (semanticKey topLevel : bool) (m : list (string * keyJson)) (k : string) :
  NoDup m.*1 -> ignoredCacheKeyField k topLevel semanticKey = false ->
  keyMember k (omap (normalMember semanticKey topLevel) m) =
  match keyMember k m with Some v => normalizeCacheKeyJSONValue semanticKey v false k | None => None end.
Proof.
  intros Hnd Hk. induction m as [|[k' v] m IH]; [done|]. apply NoDup_cons in Hnd as [Hni Hnd]. specialize (IH Hnd).
  cbn [omap list_omap]. unfold normalMember at 1. cbn [fst snd keyMember]. case_bool_decide as E.
  - subst k'. rewrite Hk. destruct (normalizeCacheKeyJSONValue semanticKey v false k) as [w|]; simpl.
    + by rewrite bool_decide_eq_true_2.
    + fold (omap (normalMember semanticKey topLevel) m). rewrite IH. replace (keyMember k m) with (@None keyJson); [done|].
      symmetry. clear -Hni. induction m as [|[k1 v1] m IH]; [done|]. simpl in *. rewrite bool_decide_eq_false_2; set_solver.
  - fold (omap (normalMember semanticKey topLevel) m) in *. destruct (ignoredCacheKeyField k' topLevel semanticKey); [exact IH|].
    destruct (normalizeCacheKeyJSONValue semanticKey v false k'); simpl; [|exact IH].
    by rewrite bool_decide_eq_false_2.
Qed.

(** A setting: a null, a boolean, a number, or a string whose case and spacing count. *)
Definition plainSetting (k : string) (semanticKey : bool) (v : keyJson) : bool :=
  match v with
  | KNull | KBool _ | KNumber _ => true
  | KStr _ => negb (semanticKey && (semanticStringKey k || semanticLowerStringKey k))
  | KArr _ | KObj _ => false
  end.

Lemma plain_normal (semanticKey : bool) (k : string) (v w : keyJson) :
  plainSetting k semanticKey v = true ->
  (normalizeCacheKeyJSONValue semanticKey w false k = Some v <-> w = v) /\
  normalizeCacheKeyJSONValue semanticKey v false k = Some v.
Proof.
  intros Hv.
  assert (Hs : forall x, normalizeCacheKeyJSONValue semanticKey (KStr x) false k =
     if semanticKey && semanticStringKey k then Some (KStr (normalizeSemanticString x))
     else if semanticKey && semanticLowerStringKey k then Some (KStr (ToLower (TrimSpace x))) else Some (KStr x)) by done.
  split; [split|].
  - destruct w as [|b|n|s|a|m]; [simpl; congruence..| | |].
    + rewrite Hs. destruct semanticKey; simpl in *; [|congruence]. destruct v; simpl in Hv; try (repeat case_match; congruence).
      apply negb_true_iff, orb_false_iff in Hv as [-> ->]. congruence.
    + simpl. intros [= <-]. done.
    + rewrite normalize_object. destruct (cacheKeyMapShouldDrop m); [discriminate 1|]. intros [= <-]. done.
  - intros ->. destruct v as [| | |s| |]; try done. rewrite Hs. simpl in Hv.
    destruct semanticKey; [|done]. apply negb_true_iff, orb_false_iff in Hv as [-> ->]. done.
  - destruct v as [| | |s| |]; try done. rewrite Hs. simpl in Hv.
    destruct semanticKey; [|done]. apply negb_true_iff, orb_false_iff in Hv as [-> ->]. done.
Qed.

(** Bodies that share a normal form agree on every setting: if two request objects
    normalise alike, then each top-level field that is not listed as irrelevant and holds
    a null, a boolean, a number literal or an ordinary string (the model, the temperature,
    the token limit, ...) is present with that very value in the other one. *)
Theorem key_keeps_settings (sem : bool) (m m' : list (string * keyJson)) (k : string) (v : keyJson) :
  NoDup m.*1 -> NoDup m'.*1 ->
  normalizeCacheKeyJSONValue sem (KObj m) true "" = normalizeCacheKeyJSONValue sem (KObj m') true "" ->
  cacheKeyMapShouldDrop m = false -> ignoredCacheKeyField k true sem = false ->
  plainSetting k sem v = true -> keyMember k m = Some v -> keyMember k m' = Some v.
Proof.
  intros Hn Hn' H Hd Hk Hv Hm. rewrite !normalize_object, Hd in H.
  destruct (cacheKeyMapShouldDrop m'); [done|]. injection H as H.
  pose proof (keyMember_omap sem true m k Hn Hk) as E. pose proof (keyMember_omap sem true m' k Hn' Hk) as E'.
  rewrite <- H, E, Hm in E'. destruct (plain_normal sem k v v Hv) as [_ Hself]. rewrite Hself in E'.
  destruct (keyMember k m') as [w|]; [|done]. f_equal. by apply (plain_normal sem k v w Hv).
Qed.

(** Two different queries with one canonical text: neither ["="] nor ["&"] nor the
    separator is escaped. *)
Example canonicalQuery_collision :
  canonicalQuery {[ "a" := ["1&b=2"] ]} = canonicalQuery (<[ "a" := ["1"] ]> {[ "b" := ["2"] ]}).
Proof. vm_compute. reflexivity. Qed.

(** ** Instances *)

Definition demoRequest : Request :=
  {| Method := "POST"; URLPath := "/chat/completions"; URLQuery := ∅;
     ReqHeader := {[ "Content-Type" := ["application/json"] ]}; ContentLength := 2 |}.

Definition noDecode (b : list N) : option keyJson := None.
Definition noMarshal (v : keyJson) : option (list N) := None.

Lemma key_tenant_isolation_witness :
  keyPreimage noDecode noMarshal demoRequest "caller:a" [1%N] true (policyOf demoRequest) <>
  keyPreimage noDecode noMarshal demoRequest "caller:b" [1%N] true (policyOf demoRequest).
Proof.
  intros H. discriminate (proj2 (proj2 (key_tenant_isolation noDecode noMarshal demoRequest demoRequest "caller:a" "caller:b"
    [1%N] [1%N] true true eq_refl ltac:(refine (bool_decide_unpack _ _); vm_compute; exact I)
    ltac:(refine (bool_decide_unpack _ _); vm_compute; exact I) ltac:(vm_compute; discriminate) H))).
Defined.

Definition demoAlias : Request :=
  {| Method := "post"; URLPath := " /v1/v1/chat/completions"; URLQuery := ∅;
     ReqHeader := {[ "Content-Type" := ["application/json"] ]}; ContentLength := 2 |}.

Lemma key_separates_witness :
  keyPreimage noDecode noMarshal demoRequest "caller:a" [1%N] true (policyOf demoRequest) =
  keyPreimage noDecode noMarshal demoAlias " caller:a " [1%N] true (policyOf demoAlias) /\
  canonicalRequestPath (URLPath demoRequest) = canonicalRequestPath (URLPath demoAlias).
Proof.
  assert (keyPreimage noDecode noMarshal demoRequest "caller:a" [1%N] true (policyOf demoRequest) =
          keyPreimage noDecode noMarshal demoAlias " caller:a " [1%N] true (policyOf demoAlias)) as H
    by (vm_compute; reflexivity).
  split; [exact H|].
  exact (proj1 (proj2 (proj2 (proj2 (key_separates noDecode noMarshal demoRequest demoAlias "caller:a" " caller:a " [1%N] [1%N] true true
    (policyOf demoRequest) (policyOf demoAlias)
    ltac:(refine (bool_decide_unpack _ _); vm_compute; exact I) ltac:(refine (bool_decide_unpack _ _); vm_compute; exact I) H))))).
Defined.

Definition demoBodyA : list (string * keyJson) :=
  [("model", KStr "m1"); ("user", KStr "u"); ("messages", KArr [KObj [("role", KStr "USER"); ("content", KStr " a  b ")]])].
Definition demoBodyB : list (string * keyJson) :=
  [("model", KStr "m1"); ("messages", KArr [KObj [("id", KStr "7"); ("role", KStr "user"); ("content", KStr "a b")]])].

Lemma key_keeps_settings_witness :
  normalizeCacheKeyJSONValue true (KObj demoBodyA) true "" = normalizeCacheKeyJSONValue true (KObj demoBodyB) true "" /\
  keyMember "model" demoBodyB = Some (KStr "m1").
Proof.
  split; [vm_compute; reflexivity|].
  apply (key_keeps_settings true demoBodyA demoBodyB "model" (KStr "m1"));
    try (vm_compute; reflexivity); refine (bool_decide_unpack _ _); vm_compute; exact I.
Defined.
