(* ===== verification/ResponseCache.v ===== *)
(** The response cache: [internal/responsecache/cache.go], its two tiers.

    [Cache] is the Go struct with the cache directory as a map from keys to files:
    a file holds its decoded record, or [None] when gzip or JSON decoding fails, and
    the size and modification time that a directory walk reports.  Paths are derived
    from 64 hexadecimal digits, so a file never leaves the directory.  What the file
    system decides is an argument: the size and time of a written file, or [None] when
    the write fails, and which files can be removed.  [now] is the reading of the
    cache's clock.  Single flight and the HTTP handler are in SingleFlight. *)
From S2P Require Import Prelude GoString GoText Affinity Sha256 CacheKey.
Local Open Scope Z_scope.

(** ** Data *)

Definition defaultMemoryTTL : Z := 30 * 60 * second.
Definition defaultDiskTTL : Z := 48 * 3600 * second.
Definition defaultMaxBody : Z := Z.shiftl 64 20.
Definition defaultMemoryMaxBytes : Z := 3800 * 1000 * 1000.
Definition defaultDiskMaxBytes : Z := 16 * 1000 * 1000 * 1000.
Definition recordVersion : Z := 1.

Record Options := {
  OptDir : string; OptMemoryTTL : Z; OptDiskTTL : Z; OptMaxBody : Z; OptMemoryMaxBytes : Z; OptDiskMaxBytes : Z;
  OptSemanticKey : bool
}.

Record Entry := { Status : Z; EntryHeader : Header; Body : list N; DiskExpiresAt : Z }.

Record memoryEntry := { mentry : Entry; memoryExpiresAt : Z; msize : Z; msession : string }.

Record diskRecord := {
  RecVersion : Z; RecKey : string; CreatedAtUnix : Z; ExpiresAtUnix : Z; RecStatus : Z; RecHeader : Header; RecBody : list N
}.

Record diskFile := { content : option diskRecord; fsize : Z; modTime : Z }.

Record pathStat := {
  PHits : Z; PMisses : Z; PStores : Z; PMemoryHits : Z; PDiskHits : Z; PInflightHits : Z; PUncacheable : gmap string Z
}.

Record Cache := {
  dir : string;
  memoryTTL : Z; diskTTL : Z; maxBody : Z; memoryMaxBytes : Z; diskMaxBytes : Z;
  memoryBytes : Z;
  hits : Z; misses : Z; stores : Z; memoryHits : Z; diskHits : Z; inflightHits : Z; sessionHits : Z;
  uncacheable : gmap string Z;
  pathStats : gmap string pathStat;
  items : gmap string memoryEntry;
  sessionEntries : gmap string (gset string);
  lastDiskSweep : Z;
  semanticKey : bool;
  disk : gmap string (gmap string diskFile)
}.

(** ** Field updates *)

Definition withMemory (c : Cache) (bytes : Z) (its : gmap string memoryEntry) (ses : gmap string (gset string)) : Cache :=
  {| dir := dir c; memoryTTL := memoryTTL c; diskTTL := diskTTL c; maxBody := maxBody c; memoryMaxBytes := memoryMaxBytes c;
     diskMaxBytes := diskMaxBytes c; memoryBytes := bytes; hits := hits c; misses := misses c; stores := stores c;
     memoryHits := memoryHits c; diskHits := diskHits c; inflightHits := inflightHits c; sessionHits := sessionHits c;
     uncacheable := uncacheable c; pathStats := pathStats c; items := its; sessionEntries := ses;
     lastDiskSweep := lastDiskSweep c; semanticKey := semanticKey c; disk := disk c |}.

Definition withDisk (c : Cache) (sweep : Z) (d : gmap string (gmap string diskFile)) : Cache :=
  {| dir := dir c; memoryTTL := memoryTTL c; diskTTL := diskTTL c; maxBody := maxBody c; memoryMaxBytes := memoryMaxBytes c;
     diskMaxBytes := diskMaxBytes c; memoryBytes := memoryBytes c; hits := hits c; misses := misses c; stores := stores c;
     memoryHits := memoryHits c; diskHits := diskHits c; inflightHits := inflightHits c; sessionHits := sessionHits c;
     uncacheable := uncacheable c; pathStats := pathStats c; items := items c; sessionEntries := sessionEntries c;
     lastDiskSweep := sweep; semanticKey := semanticKey c; disk := d |}.

(** The counters of a cache: hits, misses, stores, memory, disk and in-flight hits, session hits. *)
Definition withCounters (c : Cache) (h m s mh dh ih sh : Z) (u : gmap string Z) (ps : gmap string pathStat) : Cache :=
  {| dir := dir c; memoryTTL := memoryTTL c; diskTTL := diskTTL c; maxBody := maxBody c; memoryMaxBytes := memoryMaxBytes c;
     diskMaxBytes := diskMaxBytes c; memoryBytes := memoryBytes c; hits := h; misses := m; stores := s;
     memoryHits := mh; diskHits := dh; inflightHits := ih; sessionHits := sh;
     uncacheable := u; pathStats := ps; items := items c; sessionEntries := sessionEntries c;
     lastDiskSweep := lastDiskSweep c; semanticKey := semanticKey c; disk := disk c |}.

(** ** Construction *)

Definition orDefault (v d : Z) : Z := if v <=? 0 then d else v.

(** [resolveDir]: the trimmed directory or the configured default, cleaned by [filepath.Clean]. *)
Definition normalizeOptions (resolveDir : string -> string) (opts : Options) : Options :=
  {| OptDir := resolveDir (TrimSpace (OptDir opts)); OptMemoryTTL := orDefault (OptMemoryTTL opts) defaultMemoryTTL;
     OptDiskTTL := orDefault (OptDiskTTL opts) defaultDiskTTL; OptMaxBody := orDefault (OptMaxBody opts) defaultMaxBody;
     OptMemoryMaxBytes := orDefault (OptMemoryMaxBytes opts) defaultMemoryMaxBytes;
     OptDiskMaxBytes := orDefault (OptDiskMaxBytes opts) defaultDiskMaxBytes; OptSemanticKey := OptSemanticKey opts |}.

Definition New (resolveDir : string -> string) (d : gmap string (gmap string diskFile)) (o : Options) : Cache :=
  let opts := normalizeOptions resolveDir o in
  {| dir := OptDir opts; memoryTTL := OptMemoryTTL opts; diskTTL := OptDiskTTL opts; maxBody := OptMaxBody opts;
     memoryMaxBytes := OptMemoryMaxBytes opts; diskMaxBytes := OptDiskMaxBytes opts; memoryBytes := 0;
     hits := 0; misses := 0; stores := 0; memoryHits := 0; diskHits := 0; inflightHits := 0; sessionHits := 0;
     uncacheable := ∅; pathStats := ∅; items := ∅; sessionEntries := ∅; lastDiskSweep := zeroTime;
     semanticKey := OptSemanticKey opts; disk := d |}.

Definition ApplyOptions (resolveDir : string -> string) (o : Options) (c : Cache) : Cache :=
  let opts := normalizeOptions resolveDir o in
  {| dir := OptDir opts; memoryTTL := OptMemoryTTL opts; diskTTL := OptDiskTTL opts; maxBody := OptMaxBody opts;
     memoryMaxBytes := OptMemoryMaxBytes opts; diskMaxBytes := OptDiskMaxBytes opts; memoryBytes := 0;
     hits := hits c; misses := misses c; stores := stores c; memoryHits := memoryHits c; diskHits := diskHits c;
     inflightHits := inflightHits c; sessionHits := sessionHits c; uncacheable := uncacheable c; pathStats := pathStats c;
     items := ∅; sessionEntries := ∅; lastDiskSweep := zeroTime; semanticKey := OptSemanticKey opts; disk := disk c |}.

(** ** Entries *)

Definition uncacheableReason (e : Entry) (maxBody : Z) : string :=
  if (Status e <? 200) || (300 <=? Status e) then "status_non_2xx"
  else if bool_decide (Body e = []) then "empty_body"
  else if (0 <? maxBody) && (maxBody <? Z.of_nat (length (Body e))) then "oversized_response"
  else if hasHeaderToken (HeaderGet (EntryHeader e) "Cache-Control") "no-store" then "response_no_store"
  else match HeaderValues (EntryHeader e) "Set-Cookie" with [] => "" | _ => "set_cookie" end.

Definition cacheable (e : Entry) (maxBody : Z) : bool := bool_decide (uncacheableReason e maxBody = "").

Definition valuesSize (vv : list string) : Z := fold_right (fun v n => Z.of_nat (String.length v) + n) 0 vv.

Definition memorySize (e : Entry) : Z :=
  Z.of_nat (length (Body e)) + map_fold (fun k vv n => Z.of_nat (String.length k) + valuesSize vv + n) 0 (EntryHeader e).

Definition skipResponseHeader (name : string) : bool :=
  bool_decide (ToLower (TrimSpace name) ∈
    ["connection"; "content-length"; "date"; "keep-alive"; "proxy-authenticate"; "proxy-authorization"; "te"; "trailer";
     "transfer-encoding"; "upgrade"; "x-deepseek-web-to-api-cache"; "x-deepseek-web-to-api-cache-expires-at";
     "x-ds2-cache"; "x-ds2-cache-expires-at"]).

Definition sanitizeResponseHeader (h : Header) : Header :=
  fold_left (fun out kv => if skipResponseHeader kv.1 then out else fold_left (fun out v => HeaderAdd out kv.1 v) kv.2 out)
    (map_to_list h) ∅.

(** ** Sessions *)

Definition addToSessionLocked (sessionKey cacheKey : string) (m : gmap string (gset string)) : gmap string (gset string) :=
  if bool_decide (sessionKey = "") || bool_decide (cacheKey = "") then m
  else <[sessionKey := {[cacheKey]} ∪ default ∅ (m !! sessionKey)]> m.

Definition removeFromSessionLocked (sessionKey cacheKey : string) (m : gmap string (gset string)) : gmap string (gset string) :=
  if bool_decide (sessionKey = "") || bool_decide (cacheKey = "") then m
  else match m !! sessionKey with
       | None => m
       | Some bucket =>
           let bucket := bucket ∖ {[cacheKey]} in
           if bool_decide (bucket = ∅) then delete sessionKey m else <[sessionKey := bucket]> m
       end.

(** [delete(c.items, key)], the accounting and the session of one item. *)
Definition dropItem (c : Cache) (kv : string * memoryEntry) : Cache :=
  withMemory c (i64 (memoryBytes c - msize kv.2)) (delete kv.1 (items c))
    (removeFromSessionLocked (msession kv.2) kv.1 (sessionEntries c)).

Definition clampBytes (c : Cache) : Cache :=
  if memoryBytes c <? 0 then withMemory c 0 (items c) (sessionEntries c) else c.

Definition expired (now : Z) (it : memoryEntry) : bool :=
  negb (now <? memoryExpiresAt it) || negb (now <? DiskExpiresAt (mentry it)).

Definition sweepMemoryLocked (now : Z) (c : Cache) : Cache :=
  clampBytes (fold_left (fun c kv => if expired now kv.2 then dropItem c kv else c) (map_to_list (items c)) c).

(** The candidates by deadline, dropped until the memory fits. *)
Definition evictStep (c : Cache) (cand : string * memoryEntry) : Cache :=
  if memoryBytes c <=? memoryMaxBytes c then c
  else match items c !! cand.1 with None => c | Some _ => dropItem c cand end.

Definition enforceMemoryLimitLocked (c : Cache) : Cache :=
  if (memoryMaxBytes c <=? 0) || (memoryBytes c <=? memoryMaxBytes c) then c
  else clampBytes (fold_left evictStep
         (sortBy (fun a b : string * memoryEntry => memoryExpiresAt a.2 <? memoryExpiresAt b.2) (map_to_list (items c))) c).

(** ** Leases *)

Definition bumpSingleEntryExpiryLocked (now ttl : Z) (it : memoryEntry) : memoryEntry :=
  let extended := Z.min (now + ttl) (DiskExpiresAt (mentry it)) in
  if memoryExpiresAt it <? extended
  then {| mentry := mentry it; memoryExpiresAt := extended; msize := msize it; msession := msession it |} else it.

Definition bumpSibling (key : string) (now ttl : Z) (its : gmap string memoryEntry) (sibling : string) : gmap string memoryEntry :=
  if bool_decide (sibling = key) then its else alter (bumpSingleEntryExpiryLocked now ttl) sibling its.

Definition bumpSiblings (key : string) (now ttl : Z) (siblings : gset string) (its : gmap string memoryEntry)
  : gmap string memoryEntry :=
  fold_left (bumpSibling key now ttl) (elements siblings) its.

Definition countSessionHit (c : Cache) : Cache :=
  withCounters c (hits c) (misses c) (stores c) (memoryHits c) (diskHits c) (inflightHits c) (i64 (sessionHits c + 1))
    (uncacheable c) (pathStats c).

Definition bumpMemoryExpiryLocked (key : string) (now : Z) (c : Cache) : Cache :=
  match items c !! key with
  | None => c
  | Some item =>
      if memoryTTL c <=? 0 then c
      else
        let its := <[key := bumpSingleEntryExpiryLocked now (memoryTTL c) item]> (items c) in
        let c1 := withMemory c (memoryBytes c) its (sessionEntries c) in
        if bool_decide (msession item = "") then c1
        else match sessionEntries c !! msession item with
             | None => c1
             | Some siblings =>
                 if (size siblings <=? 1)%nat then c1
                 else countSessionHit (withMemory c (memoryBytes c) (bumpSiblings key now (memoryTTL c) siblings its) (sessionEntries c))
             end
  end.

(** ** Statistics *)

Definition newPathStat : pathStat :=
  {| PHits := 0; PMisses := 0; PStores := 0; PMemoryHits := 0; PDiskHits := 0; PInflightHits := 0; PUncacheable := ∅ |}.

(** [pathStatLocked] and the update of the bucket it returns; an empty path has none. *)
Definition updatePathStat (path : string) (f : pathStat -> pathStat) (m : gmap string pathStat) : gmap string pathStat :=
  let path := TrimSpace path in
  if bool_decide (path = "") then m else <[path := f (default newPathStat (m !! path))]> m.

Definition one (b : bool) : Z := if b then 1 else 0.

Definition recordHitLocked (path source : string) (c : Cache) : Cache :=
  let mem := one (bool_decide (source = "memory")) in
  let dsk := one (bool_decide (source = "disk")) in
  withCounters c (i64 (hits c + 1)) (misses c) (stores c) (i64 (memoryHits c + mem)) (i64 (diskHits c + dsk)) (inflightHits c)
    (sessionHits c) (uncacheable c)
    (updatePathStat path (fun s =>
       {| PHits := i64 (PHits s + 1); PMisses := PMisses s; PStores := PStores s; PMemoryHits := i64 (PMemoryHits s + mem);
          PDiskHits := i64 (PDiskHits s + dsk); PInflightHits := PInflightHits s; PUncacheable := PUncacheable s |}) (pathStats c)).

Definition recordMiss (path : string) (c : Cache) : Cache :=
  withCounters c (hits c) (i64 (misses c + 1)) (stores c) (memoryHits c) (diskHits c) (inflightHits c) (sessionHits c) (uncacheable c)
    (updatePathStat path (fun s =>
       {| PHits := PHits s; PMisses := i64 (PMisses s + 1); PStores := PStores s; PMemoryHits := PMemoryHits s;
          PDiskHits := PDiskHits s; PInflightHits := PInflightHits s; PUncacheable := PUncacheable s |}) (pathStats c)).

Definition recordStore (path : string) (c : Cache) : Cache :=
  withCounters c (hits c) (misses c) (i64 (stores c + 1)) (memoryHits c) (diskHits c) (inflightHits c) (sessionHits c) (uncacheable c)
    (updatePathStat path (fun s =>
       {| PHits := PHits s; PMisses := PMisses s; PStores := i64 (PStores s + 1); PMemoryHits := PMemoryHits s;
          PDiskHits := PDiskHits s; PInflightHits := PInflightHits s; PUncacheable := PUncacheable s |}) (pathStats c)).

Definition recordInflightHit (path : string) (c : Cache) : Cache :=
  withCounters c (i64 (hits c + 1)) (misses c) (stores c) (memoryHits c) (diskHits c) (i64 (inflightHits c + 1)) (sessionHits c)
    (uncacheable c)
    (updatePathStat path (fun s =>
       {| PHits := i64 (PHits s + 1); PMisses := PMisses s; PStores := PStores s; PMemoryHits := PMemoryHits s;
          PDiskHits := PDiskHits s; PInflightHits := i64 (PInflightHits s + 1); PUncacheable := PUncacheable s |}) (pathStats c)).

Definition countReason (reason : string) (m : gmap string Z) : gmap string Z := <[reason := i64 (default 0 (m !! reason) + 1)]> m.

Definition recordUncacheable (path r : string) (c : Cache) : Cache :=
  let trimmed := TrimSpace r in
  let reason := if bool_decide (trimmed = "") then "unknown" else trimmed in
  withCounters c (hits c) (misses c) (stores c) (memoryHits c) (diskHits c) (inflightHits c) (sessionHits c)
    (countReason reason (uncacheable c))
    (updatePathStat path (fun s =>
       {| PHits := PHits s; PMisses := PMisses s; PStores := PStores s; PMemoryHits := PMemoryHits s; PDiskHits := PDiskHits s;
          PInflightHits := PInflightHits s; PUncacheable := countReason reason (PUncacheable s) |}) (pathStats c)).

(** ** The memory tier *)

Definition putMemoryWithPolicySession (key sessionKey : string) (entry : Entry) (now : Z) (c0 : Cache) : Cache :=
  let c := sweepMemoryLocked now c0 in
  let size := memorySize entry in
  if (0 <? memoryMaxBytes c) && (memoryMaxBytes c <? size) then c
  else
    let expiresAt := Z.min (now + memoryTTL c) (DiskExpiresAt entry) in
    if negb (now <? expiresAt) then c
    else
      let '(bytes, ses) :=
        match items c !! key with
        | None => (memoryBytes c, sessionEntries c)
        | Some old =>
            (i64 (memoryBytes c - msize old),
             if negb (bool_decide (msession old = "")) && negb (bool_decide (msession old = sessionKey))
             then removeFromSessionLocked (msession old) key (sessionEntries c) else sessionEntries c)
        end in
      let its := <[key := {| mentry := entry; memoryExpiresAt := expiresAt; msize := size; msession := sessionKey |}]> (items c) in
      let ses := addToSessionLocked sessionKey key ses in
      let its := if bool_decide (sessionKey = "") then its
                 else match ses !! sessionKey with
                      | Some siblings => bumpSiblings key now (memoryTTL c) siblings its
                      | None => its
                      end in
      enforceMemoryLimitLocked (withMemory c (i64 (bytes + size)) its ses).

(** ** The disk tier *)

Definition diskFiles (c : Cache) : gmap string diskFile := default ∅ (disk c !! dir c).

Definition setFiles (c : Cache) (files : gmap string diskFile) : Cache :=
  withDisk c (lastDiskSweep c) (<[dir c := files]> (disk c)).

(** [t.Unix()] *)
Definition toUnix (t : Z) : Z := t / second.

Definition putDisk (key : string) (entry : Entry) (now : Z) (written : option (Z * Z)) (c : Cache) : Cache * bool :=
  match written with
  | None => (c, false)
  | Some (fileSize, mtime) =>
      let record := {| RecVersion := recordVersion; RecKey := key; CreatedAtUnix := toUnix now;
                       ExpiresAtUnix := toUnix (DiskExpiresAt entry); RecStatus := Status entry;
                       RecHeader := EntryHeader entry; RecBody := Body entry |} in
      (setFiles c (<[key := {| content := Some record; fsize := fileSize; modTime := mtime |}]> (diskFiles c)), true)
  end.

(** [removeDiskCacheFile] succeeds on the files that [removable] accepts. *)
Definition removeDiskCacheFile (removable : string -> bool) (key : string) (files : gmap string diskFile) : gmap string diskFile :=
  if removable key then delete key files else files.

Definition getDisk (removable : string -> bool) (key : string) (now : Z) (c : Cache) : Cache * option Entry :=
  match diskFiles c !! key with
  | None => (c, None)
  | Some file =>
      let removed := setFiles c (removeDiskCacheFile removable key (diskFiles c)) in
      match content file with
      | None => (removed, None)
      | Some record =>
          let expiresAt := unixTime (ExpiresAtUnix record) in
          if negb (RecVersion record =? recordVersion) || negb (bool_decide (RecKey record = key)) || negb (now <? expiresAt)
          then (removed, None)
          else
            let entry := {| Status := RecStatus record; EntryHeader := sanitizeResponseHeader (RecHeader record);
                            Body := RecBody record; DiskExpiresAt := expiresAt |} in
            if negb (cacheable entry (maxBody c)) then (removed, None) else (c, Some entry)
      end
  end.

Definition maybeSweepDisk (removable : string -> bool) (now : Z) (c : Cache) : Cache :=
  if timeSub now (lastDiskSweep c) <? 10 * 60 * second then c
  else withDisk c now
         (<[dir c := filter (fun kf => negb ((diskTTL c <? timeSub now (modTime kf.2)) && removable kf.1) = true) (diskFiles c)]> (disk c)).

(** The files that are not too old, after removing those that are. *)
Definition diskFilesAt (removable : string -> bool) (now : Z) (c : Cache) : list (string * diskFile) * gmap string diskFile :=
  let tooOld (f : diskFile) := (0 <? diskTTL c) && (diskTTL c <? timeSub now (modTime f)) in
  (filter (fun kf => tooOld kf.2 = false) (map_to_list (diskFiles c)),
   filter (fun kf => negb (tooOld kf.2 && removable kf.1) = true) (diskFiles c)).

Definition evictFile (removable : string -> bool) (maxBytes : Z) (st : Z * gmap string diskFile) (kf : string * diskFile)
  : Z * gmap string diskFile :=
  if fst st <=? maxBytes then st
  else if removable kf.1 then (fst st - fsize kf.2, delete kf.1 (snd st)) else st.

Definition enforceDiskLimit (removable : string -> bool) (now : Z) (c : Cache) : Cache :=
  if diskMaxBytes c <=? 0 then c
  else
    let '(files, kept) := diskFilesAt removable now c in
    let total := fold_right (fun kf n => fsize kf.2 + n) 0 files in
    if total <=? diskMaxBytes c then setFiles c kept
    else setFiles c (fold_left (evictFile removable (diskMaxBytes c))
           (sortBy (fun a b : string * diskFile => modTime a.2 <? modTime b.2) files) (total, kept)).2.

(** ** Lookup and store *)

Definition getWithPolicy (removable : string -> bool) (k : string) (policy : pathPolicy) (now : Z) (c0 : Cache)
  : Cache * option (Entry * string) :=
  let key := normalizeKey k in
  if bool_decide (key = "") then (c0, None)
  else
    let c := sweepMemoryLocked now c0 in
    let fromDisk (c : Cache) :=
      match getDisk removable key now c with
      | (c, None) => (recordMiss (PolicyPath policy) c, None)
      | (c, Some entry) =>
          (recordHitLocked (PolicyPath policy) "disk" (putMemoryWithPolicySession key "" entry now c), Some (entry, "disk"))
      end in
    match items c !! key with
    | Some item =>
        if (now <? memoryExpiresAt item) && (now <? DiskExpiresAt (mentry item))
        then (recordHitLocked (PolicyPath policy) "memory" (bumpMemoryExpiryLocked key now c), Some (mentry item, "memory"))
        else fromDisk (dropItem c (key, item))
    | None => fromDisk c
    end.

Definition noPolicy : pathPolicy := {| PolicyPath := ""; SharedAcrossCallers := false |}.

Definition Get (removable : string -> bool) (k : string) (now : Z) (c : Cache) : Cache * option (Entry * string) :=
  getWithPolicy removable k noPolicy now c.

(** The deadline a stored entry gets. *)
Definition dated (now : Z) (c : Cache) (e : Entry) : Entry :=
  if timeIsZero (DiskExpiresAt e) || negb (now <? DiskExpiresAt e)
  then {| Status := Status e; EntryHeader := EntryHeader e; Body := Body e; DiskExpiresAt := now + diskTTL c |} else e.

Definition setWithPolicySession (removable : string -> bool) (k sessionKey : string) (e : Entry) (policy : pathPolicy)
  (now : Z) (written : option (Z * Z)) (c : Cache) : Cache :=
  let key := normalizeKey k in
  if bool_decide (key = "") || negb (cacheable e (maxBody c)) then c
  else
    let entry := dated now c e in
    let c := putMemoryWithPolicySession key sessionKey entry now c in
    let '(c, ok) := putDisk key entry now written c in
    let c := if ok then enforceDiskLimit removable now c else c in
    maybeSweepDisk removable now (recordStore (PolicyPath policy) c).

Definition Set_ (removable : string -> bool) (k : string) (e : Entry) (now : Z) (written : option (Z * Z)) (c : Cache) : Cache :=
  setWithPolicySession removable k "" e noPolicy now written c.

(** ** Capturing a response *)

Record captureResponseWriter := { cstatus : Z; cwroteHeader : bool; cbody : list N; cmaxBody : Z; truncated : bool }.

Definition newCaptureResponseWriter (maxBody : Z) : captureResponseWriter :=
  {| cstatus := 0; cwroteHeader := false; cbody := []; cmaxBody := maxBody; truncated := false |}.

Definition WriteHeader (status : Z) (w : captureResponseWriter) : captureResponseWriter :=
  if cwroteHeader w then w
  else {| cstatus := status; cwroteHeader := true; cbody := cbody w; cmaxBody := cmaxBody w; truncated := truncated w |}.

Definition capture (p : list N) (w : captureResponseWriter) : captureResponseWriter :=
  if truncated w || bool_decide (p = []) then w
  else if (0 <? cmaxBody w) && (cmaxBody w <? Z.of_nat (length (cbody w) + length p))
  then
    let remaining := cmaxBody w - Z.of_nat (length (cbody w)) in
    {| cstatus := cstatus w; cwroteHeader := cwroteHeader w;
       cbody := if 0 <? remaining then cbody w ++ take (Z.to_nat remaining) p else cbody w;
       cmaxBody := cmaxBody w; truncated := true |}
  else {| cstatus := cstatus w; cwroteHeader := cwroteHeader w; cbody := cbody w ++ p; cmaxBody := cmaxBody w; truncated := truncated w |}.

Definition CaptureWrite (p : list N) (w : captureResponseWriter) : captureResponseWriter :=
  capture p (if cwroteHeader w then w else WriteHeader 200 w).

(** [header]: the headers of the wrapped writer when the handler returns. *)
Definition cacheEntry (header : Header) (w : captureResponseWriter) : result string Entry :=
  let entry := {| Status := if cstatus w =? 0 then 200 else cstatus w; EntryHeader := sanitizeResponseHeader header;
                  Body := cbody w; DiskExpiresAt := zeroTime |} in
  if truncated w then Err "oversized_response"
  else let reason := uncacheableReason entry (cmaxBody w) in
       if bool_decide (reason = "") then Ok entry else Err reason.

(** ** The invariant of the memory tier *)

Definition memSum (m : gmap string memoryEntry) : Z := map_fold (fun _ it n => msize it + n) 0 m.

Lemma memSum_empty : memSum ∅ = 0.
Proof. unfold memSum. by rewrite map_fold_empty. Qed.

Lemma memSum_insert (m : gmap string memoryEntry) (k : string) (it : memoryEntry) :
  m !! k = None -> memSum (<[k := it]> m) = msize it + memSum m.
Proof. intros H. unfold memSum. rewrite map_fold_insert_L; [done| |done]. intros. lia. Qed.

Lemma memSum_delete (m : gmap string memoryEntry) (k : string) (it : memoryEntry) :
  m !! k = Some it -> memSum m = msize it + memSum (delete k m).
Proof.
  intros H. rewrite <- (insert_delete_id m k it H) at 1. apply memSum_insert, lookup_delete_eq.
Qed.

Lemma memSum_replace (m : gmap string memoryEntry) (k : string) (it : memoryEntry) :
  memSum (<[k := it]> m) = msize it + memSum (delete k m).
Proof. rewrite <- insert_delete_eq. apply memSum_insert, lookup_delete_eq. Qed.

Lemma memSum_nonneg (m : gmap string memoryEntry) :
  (forall k it, m !! k = Some it -> 0 <= msize it) -> 0 <= memSum m.
Proof.
  induction m as [|k it m Hk IH] using map_ind; intros H; [by rewrite memSum_empty|].
  rewrite memSum_insert by done. assert (0 <= msize it) by (eapply H, lookup_insert_eq).
  assert (0 <= memSum m); [|lia]. apply IH. intros k' it' Hk'. apply (H k').
  rewrite lookup_insert_ne; [done|]. intros ->. congruence.
Qed.

(** The members of a session's bucket. *)
Definition bucketOf (ses : gmap string (gset string)) (s : string) : gset string := default ∅ (ses !! s).

(** What is known of an item: its key, its accounted size, its deadline and [Q]. *)
Definition itemOk (Q : string -> Entry -> Prop) (k : string) (it : memoryEntry) : Prop :=
  k <> "" /\ msize it = memorySize (mentry it) /\ 0 <= msize it /\
  memoryExpiresAt it <= DiskExpiresAt (mentry it) /\ Q k (mentry it).

(** The session index is exact: a bucket lists exactly the items of its session. *)
Definition indexed (its : gmap string memoryEntry) (ses : gmap string (gset string)) : Prop :=
  (forall s k, k ∈ bucketOf ses s <-> s <> "" /\ exists it, its !! k = Some it /\ msession it = s) /\
  (forall s b, ses !! s = Some b -> b <> ∅).

Record memInv (Q : string -> Entry -> Prop) (c : Cache) : Prop := {
  mi_sum : memoryBytes c = memSum (items c);
  mi_range : memoryBytes c <= maxInt;
  mi_item : forall k it, items c !! k = Some it -> itemOk Q k it;
  mi_index : indexed (items c) (sessionEntries c)
}.

Lemma bucketOf_insert (ses : gmap string (gset string)) (s s' : string) (b : gset string) :
  bucketOf (<[s := b]> ses) s' = if bool_decide (s = s') then b else bucketOf ses s'.
Proof. unfold bucketOf. case_bool_decide; [subst; by rewrite lookup_insert_eq|by rewrite lookup_insert_ne]. Qed.

Lemma bucketOf_delete (ses : gmap string (gset string)) (s s' : string) :
  bucketOf (delete s ses) s' = if bool_decide (s = s') then ∅ else bucketOf ses s'.
Proof. unfold bucketOf. case_bool_decide; [subst; by rewrite lookup_delete_eq|by rewrite lookup_delete_ne]. Qed.

Lemma bucketOf_remove (ses : gmap string (gset string)) (s k s' : string) :
  k <> "" ->
  bucketOf (removeFromSessionLocked s k ses) s' =
  if bool_decide (s = s' /\ s <> "") then bucketOf ses s' ∖ {[k]} else bucketOf ses s'.
Proof.
  intros Hk. unfold removeFromSessionLocked. rewrite (bool_decide_eq_false_2 (k = "")) by done. rewrite orb_false_r.
  case_bool_decide as Hs; [subst; rewrite bool_decide_eq_false_2; naive_solver|].
  destruct (ses !! s) as [b|] eqn:Hb.
  - case_bool_decide as He.
    + rewrite bucketOf_delete. destruct (decide (s = s')) as [<-|Hne].
      * rewrite !bool_decide_eq_true_2 by done. unfold bucketOf. by rewrite Hb.
      * rewrite !bool_decide_eq_false_2; naive_solver.
    + rewrite bucketOf_insert. destruct (decide (s = s')) as [<-|Hne].
      * rewrite !bool_decide_eq_true_2 by done. unfold bucketOf. by rewrite Hb.
      * rewrite !bool_decide_eq_false_2; naive_solver.
  - case_bool_decide as He; [|done]. destruct He as [<- _]. unfold bucketOf. rewrite Hb. set_solver.
Qed.

Lemma remove_nonempty (ses : gmap string (gset string)) (s k : string) :
  (forall s b, ses !! s = Some b -> b <> ∅) -> forall s' b, removeFromSessionLocked s k ses !! s' = Some b -> b <> ∅.
Proof.
  intros H s' b. unfold removeFromSessionLocked. destruct (_ || _); [apply H|]. destruct (ses !! s) as [b0|]; [|apply H].
  case_bool_decide as He; [intros [_ ?]%lookup_delete_Some; eauto|]. intros [[_ <-]|[_ ?]]%lookup_insert_Some; eauto.
Qed.

(** Removing an item together with its place in its bucket. *)
Lemma indexed_delete (its : gmap string memoryEntry) (ses : gmap string (gset string)) (k : string) (it : memoryEntry) :
  k <> "" -> its !! k = Some it -> indexed its ses ->
  indexed (delete k its) (removeFromSessionLocked (msession it) k ses).
Proof.
  intros Hk Hit [H1 H2]. split; [|by apply remove_nonempty]. intros s x. rewrite bucketOf_remove by done.
  destruct (decide (x = k)) as [->|Hx].
  - rewrite lookup_delete_eq. split; [|naive_solver]. case_bool_decide as Hs; [set_solver|].
    rewrite H1. intros (Hne & it' & Hit' & <-). naive_solver.
  - rewrite lookup_delete_ne by done. case_bool_decide; [rewrite elem_of_difference, H1; set_solver|apply H1].
Qed.

(** The settings and the disk, which the memory operations do not touch. *)
Definition sameRest (c c' : Cache) : Prop :=
  memoryMaxBytes c' = memoryMaxBytes c /\ memoryTTL c' = memoryTTL c /\ diskTTL c' = diskTTL c /\
  maxBody c' = maxBody c /\ dir c' = dir c /\ disk c' = disk c.

Lemma sameRest_refl (c : Cache) : sameRest c c.
Proof. done. Qed.

Lemma sameRest_trans (c1 c2 c3 : Cache) : sameRest c1 c2 -> sameRest c2 c3 -> sameRest c1 c3.
Proof. unfold sameRest. intuition congruence. Qed.

Lemma elem_fst {A B} (l : list (A * B)) (a : A) (b : B) : (a, b) ∈ l -> a ∈ l.*1.
Proof. intros H. apply list_elem_of_fmap. by exists (a, b). Qed.

Section Invariant.
Variable Q : string -> Entry -> Prop.

Lemma dropItem_inv (c : Cache) (k : string) (it : memoryEntry) :
  memInv Q c -> items c !! k = Some it ->
  memInv Q (dropItem c (k, it)) /\ memoryBytes (dropItem c (k, it)) = memoryBytes c - msize it.
Proof.
  intros [Hs Hr Hi Hx] Hk. pose proof (Hi _ _ Hk) as (Hne & _ & Hpos & _).
  pose proof (memSum_delete _ _ _ Hk) as Hsum.
  assert (Hnn : 0 <= memSum (delete k (items c))).
  { apply memSum_nonneg. intros k' it' [_ H]%lookup_delete_Some. by apply (Hi k'). }
  assert (Hb : memoryBytes (dropItem c (k, it)) = memoryBytes c - msize it).
  { simpl. rewrite i64_small; [done|]. unfold minInt, maxInt in *. lia. }
  split; [|exact Hb]. split.
  - rewrite Hb. simpl. lia.
  - rewrite Hb. lia.
  - simpl. intros k' it' [_ H]%lookup_delete_Some. by apply Hi.
  - simpl. by apply indexed_delete.
Qed.

Lemma clampBytes_inv (c : Cache) : memInv Q c -> clampBytes c = c.
Proof.
  intros [Hs _ Hi _]. unfold clampBytes. assert (0 <= memoryBytes c); [|by rewrite (proj2 (Z.ltb_ge _ _))].
  rewrite Hs. apply memSum_nonneg. intros k it Hk. by apply (Hi k).
Qed.

Lemma sweep_fold (now : Z) (l : list (string * memoryEntry)) (c : Cache) :
  memInv Q c -> NoDup l.*1 -> (forall k it, (k, it) ∈ l -> items c !! k = Some it) ->
  let c' := fold_left (fun c kv => if expired now kv.2 then dropItem c kv else c) l c in
  memInv Q c' /\ sameRest c c' /\ memoryBytes c' <= memoryBytes c /\
  forall k it, items c' !! k = Some it <-> items c !! k = Some it /\ (expired now it = false \/ (k, it) ∉ l).
Proof.
  revert c. induction l as [|[k it] l IH]; intros c I Hnd Hl; cbn [fold_left snd].
  { split_and!; [done|done|lia|]. set_solver. }
  apply NoDup_cons in Hnd as [Hk Hnd]. cbn [fst] in Hk.
  assert (Hkit : items c !! k = Some it) by (apply Hl, elem_of_cons; auto).
  destruct (expired now it) eqn:He.
  - destruct (dropItem_inv c k it I Hkit) as [I' Hb]. destruct I as [_ _ Hi _].
    destruct (IH (dropItem c (k, it)) I' Hnd) as (J1 & J2 & J3 & J4).
    { intros k' it' H. simpl. rewrite lookup_delete_ne; [apply Hl, elem_of_cons; auto|]. intros ->. by eapply Hk, elem_fst. }
    split_and!; [done|exact (sameRest_trans c (dropItem c (k, it)) _ (sameRest_refl c) J2)|pose proof (Hi _ _ Hkit) as (_ & _ & ? & _); lia|].
    intros k' it'. rewrite J4. simpl. rewrite lookup_delete_Some. destruct (decide (k' = k)) as [->|Hne].
    + split; [by intros [[? _] _]|]. intros [Hk' H]. assert (it' = it) as -> by congruence. exfalso.
      destruct H as [H|H]; [congruence|]. apply H, elem_of_cons. by left.
    + rewrite elem_of_cons. clear -Hne. intuition congruence.
  - destruct (IH c I Hnd) as (J1 & J2 & J3 & J4); [intros; apply Hl, elem_of_cons; auto|].
    split_and!; [done..|]. intros k' it'. rewrite J4. destruct (decide (k' = k)) as [->|Hne].
    + assert (items c !! k = Some it' -> expired now it' = false) by (intros; congruence). tauto.
    + rewrite elem_of_cons. clear -Hne. intuition congruence.
Qed.

(** Sweeping keeps the invariant and exactly the items that have not expired. *)
Lemma sweep_inv (now : Z) (c : Cache) :
  memInv Q c ->
  memInv Q (sweepMemoryLocked now c) /\ sameRest c (sweepMemoryLocked now c) /\
  memoryBytes (sweepMemoryLocked now c) <= memoryBytes c /\
  forall k it, items (sweepMemoryLocked now c) !! k = Some it <-> items c !! k = Some it /\ expired now it = false.
Proof.
  intros I. unfold sweepMemoryLocked.
  destruct (sweep_fold now (map_to_list (items c)) c I) as (J1 & J2 & J3 & J4).
  { apply NoDup_fst_map_to_list. }
  { intros k it. by rewrite elem_of_map_to_list. }
  rewrite clampBytes_inv by done. split_and!; [done..|]. intros k it. rewrite J4, elem_of_map_to_list. naive_solver.
Qed.

Lemma evict_fold (l : list (string * memoryEntry)) (c : Cache) :
  memInv Q c -> NoDup l.*1 -> (forall k it, (k, it) ∈ l -> items c !! k = Some it) ->
  let c' := fold_left evictStep l c in
  memInv Q c' /\ sameRest c c' /\ items c' ⊆ items c /\
  (memoryBytes c <= memoryMaxBytes c -> c' = c) /\
  (memoryBytes c' <= memoryMaxBytes c \/ memoryBytes c' = memoryBytes c - fold_right (fun kv n => msize kv.2 + n) 0 l).
Proof.
  revert c. induction l as [|[k it] l IH]; intros c I Hnd Hl; cbn [fold_left].
  { split_and!; [done..|right; simpl; lia]. }
  apply NoDup_cons in Hnd as [Hk Hnd]. cbn [fst] in Hk.
  assert (Hkit : items c !! k = Some it) by (apply Hl, elem_of_cons; auto).
  replace (evictStep c (k, it)) with (if memoryBytes c <=? memoryMaxBytes c then c else dropItem c (k, it))
    by (unfold evictStep; cbn [fst]; by rewrite Hkit).
  destruct (memoryBytes c <=? memoryMaxBytes c) eqn:Hle.
  - apply Z.leb_le in Hle. destruct (IH c I Hnd) as (J1 & J2 & J3 & J4 & J5); [intros; apply Hl, elem_of_cons; auto|].
    rewrite J4 by done. split_and!; auto using sameRest_refl.
  - apply Z.leb_gt in Hle. destruct (dropItem_inv c k it I Hkit) as [I' Hb].
    destruct (IH (dropItem c (k, it)) I' Hnd) as (J1 & J2 & J3 & J4 & J5).
    { intros k' it' H. simpl. rewrite lookup_delete_ne; [apply Hl, elem_of_cons; auto|]. intros ->. by eapply Hk, elem_fst. }
    split_and!; [done|exact (sameRest_trans c (dropItem c (k, it)) _ (sameRest_refl c) J2)| |lia|].
    + etrans; [exact J3|]. simpl. apply delete_subseteq.
    + destruct J5 as [J5|J5]; [by left|right]. rewrite J5, Hb. simpl. lia.
Qed.

Lemma memSum_list (m : gmap string memoryEntry) : fold_right (fun kv n => msize kv.2 + n) 0 (map_to_list m) = memSum m.
Proof. unfold memSum. rewrite map_fold_foldr. induction (map_to_list m) as [|[k it] l IH]; simpl; [done|]. by rewrite IH. Qed.

(** Eviction restores the bound by dropping items only. *)
Lemma enforce_inv (c : Cache) :
  memInv Q c -> 0 < memoryMaxBytes c ->
  memInv Q (enforceMemoryLimitLocked c) /\ sameRest c (enforceMemoryLimitLocked c) /\
  items (enforceMemoryLimitLocked c) ⊆ items c /\
  memoryBytes (enforceMemoryLimitLocked c) <= memoryMaxBytes c /\
  (memoryBytes c <= memoryMaxBytes c -> enforceMemoryLimitLocked c = c).
Proof.
  intros I Hmax. unfold enforceMemoryLimitLocked. rewrite (proj2 (Z.leb_gt _ _) Hmax). cbn [orb].
  destruct (memoryBytes c <=? memoryMaxBytes c) eqn:Hle; [apply Z.leb_le in Hle; by split_and!|]. apply Z.leb_gt in Hle.
  set (lt := fun a b : string * memoryEntry => memoryExpiresAt a.2 <? memoryExpiresAt b.2).
  set (l := sortBy lt (map_to_list (items c))).
  assert (Hp : Permutation l (map_to_list (items c))) by apply sortBy_perm.
  destruct (evict_fold l c I) as (J1 & J2 & J3 & _ & J5).
  { rewrite Hp. apply NoDup_fst_map_to_list. }
  { intros k it. rewrite Hp. by rewrite elem_of_map_to_list. }
  rewrite clampBytes_inv by done. split_and!; [done..| |lia].
  destruct J5 as [?|J5]; [done|]. rewrite J5.
  assert (fold_right (fun kv n => msize kv.2 + n) 0 l = memSum (items c)) as ->; [|destruct I as [-> _ _ _]; lia].
  rewrite <- memSum_list. clear -Hp. induction Hp; simpl; lia.
Qed.

(** ** Leases *)

Lemma bump_same (now ttl : Z) (it : memoryEntry) :
  let it' := bumpSingleEntryExpiryLocked now ttl it in
  mentry it' = mentry it /\ msize it' = msize it /\ msession it' = msession it /\
  memoryExpiresAt it <= memoryExpiresAt it' /\
  (memoryExpiresAt it <= DiskExpiresAt (mentry it) -> memoryExpiresAt it' <= DiskExpiresAt (mentry it)).
Proof.
  unfold bumpSingleEntryExpiryLocked. destruct (_ <? _) eqn:H; simpl; [apply Z.ltb_lt in H|]; split_and!; lia || done.
Qed.

Lemma bump_itemOk (now ttl : Z) (k : string) (it : memoryEntry) :
  itemOk Q k it -> itemOk Q k (bumpSingleEntryExpiryLocked now ttl it).
Proof.
  destruct (bump_same now ttl it) as (E1 & E2 & E3 & E4 & E5). unfold itemOk. rewrite E1, E2. naive_solver.
Qed.

(** Two maps with the same keys, entries, sizes and sessions. *)
Definition sameItems (m m' : gmap string memoryEntry) : Prop :=
  forall k, match m !! k, m' !! k with
            | Some it, Some it' => mentry it' = mentry it /\ msize it' = msize it /\ msession it' = msession it /\
                                   memoryExpiresAt it <= memoryExpiresAt it'
            | None, None => True
            | _, _ => False
            end.

Lemma sameItems_refl (m : gmap string memoryEntry) : sameItems m m.
Proof. intros k. destruct (m !! k); [|done]. split_and!; done || lia. Qed.

Lemma sameItems_trans (m1 m2 m3 : gmap string memoryEntry) : sameItems m1 m2 -> sameItems m2 m3 -> sameItems m1 m3.
Proof.
  intros H1 H2 k. specialize (H1 k). specialize (H2 k). destruct (m1 !! k), (m2 !! k), (m3 !! k); try done.
  destruct H1 as (? & ? & ? & ?), H2 as (? & ? & ? & ?). split_and!; congruence || lia.
Qed.

Lemma sameItems_alter (now ttl : Z) (k : string) (m : gmap string memoryEntry) :
  sameItems m (alter (bumpSingleEntryExpiryLocked now ttl) k m).
Proof.
  intros k'. destruct (decide (k = k')) as [->|Hne].
  - rewrite lookup_alter_eq. destruct (m !! k') as [it|]; simpl; [|done].
    destruct (bump_same now ttl it) as (? & ? & ? & ? & _). done.
  - rewrite lookup_alter_ne by done. apply sameItems_refl.
Qed.

Lemma bumpSiblings_ok (key : string) (now ttl : Z) (siblings : gset string) (m : gmap string memoryEntry) :
  (forall k it, m !! k = Some it -> itemOk Q k it) ->
  sameItems m (bumpSiblings key now ttl siblings m) /\
  (forall k it, bumpSiblings key now ttl siblings m !! k = Some it -> itemOk Q k it) /\
  bumpSiblings key now ttl siblings m !! key = m !! key.
Proof.
  unfold bumpSiblings. revert m. induction (elements siblings) as [|s l IH]; intros m Hm; simpl.
  { split_and!; [apply sameItems_refl|done|done]. }
  unfold bumpSibling at 2 4 6. case_bool_decide as Hs; [by apply IH|].
  destruct (IH (alter (bumpSingleEntryExpiryLocked now ttl) s m)) as (J1 & J2 & J3).
  { intros k it. rewrite lookup_alter_Some. intros [(-> & it0 & Hk & ->)|[_ Hk]]; [apply bump_itemOk|]; auto. }
  split_and!; [|done|by rewrite J3, lookup_alter_ne]. eapply sameItems_trans; [apply sameItems_alter|exact J1].
Qed.

Lemma memSum_sizes (m : gmap string memoryEntry) : memSum m = map_fold (fun _ z n => z + n) 0 (msize <$> m).
Proof. unfold memSum. by rewrite map_fold_fmap. Qed.

Lemma sameItems_sum (m m' : gmap string memoryEntry) : sameItems m m' -> memSum m' = memSum m.
Proof.
  intros H. rewrite !memSum_sizes. f_equal. apply map_eq. intros k. rewrite !lookup_fmap. specialize (H k).
  destruct (m !! k), (m' !! k); try done. simpl. f_equal. apply H.
Qed.

Lemma sameItems_indexed (m m' : gmap string memoryEntry) (ses : gmap string (gset string)) :
  sameItems m m' -> indexed m ses -> indexed m' ses.
Proof.
  intros H [H1 H2]. split; [|done]. intros s k. rewrite H1. specialize (H k).
  destruct (m !! k) as [it|], (m' !! k) as [it'|]; try done. destruct H as (_ & _ & E & _).
  split; intros (Hs & it0 & [= <-] & <-); eauto.
Qed.

(** Only deadlines change. *)
Lemma lease_inv (c : Cache) (m : gmap string memoryEntry) :
  memInv Q c -> sameItems (items c) m -> (forall k it, m !! k = Some it -> itemOk Q k it) ->
  memInv Q (withMemory c (memoryBytes c) m (sessionEntries c)).
Proof.
  intros [Hs Hr Hi Hx] Hm Hok. split; simpl; [by rewrite (sameItems_sum _ _ Hm)|done|done|by eapply sameItems_indexed].
Qed.

Lemma bumpMemory_inv (key : string) (now : Z) (c : Cache) :
  memInv Q c -> memInv Q (bumpMemoryExpiryLocked key now c) /\ sameRest c (bumpMemoryExpiryLocked key now c) /\
  memoryBytes (bumpMemoryExpiryLocked key now c) = memoryBytes c /\
  sameItems (items c) (items (bumpMemoryExpiryLocked key now c)).
Proof.
  intros I. unfold bumpMemoryExpiryLocked. destruct (items c !! key) as [it|] eqn:Hk.
  2: split_and!; [done..|apply sameItems_refl].
  destruct (memoryTTL c <=? 0); [split_and!; [done..|apply sameItems_refl]|].
  assert (Ha : <[key := bumpSingleEntryExpiryLocked now (memoryTTL c) it]> (items c) =
               alter (bumpSingleEntryExpiryLocked now (memoryTTL c)) key (items c)).
  { apply map_eq. intros k. destruct (decide (key = k)) as [->|Hne].
    - by rewrite lookup_insert_eq, lookup_alter_eq, Hk.
    - by rewrite lookup_insert_ne, lookup_alter_ne. }
  rewrite Ha. set (m1 := alter _ key (items c)).
  assert (Hs1 : sameItems (items c) m1) by apply sameItems_alter.
  assert (Hok1 : forall k it, m1 !! k = Some it -> itemOk Q k it).
  { intros k it'. unfold m1. rewrite lookup_alter_Some. destruct I as [_ _ Hi _].
    intros [(-> & it0 & ? & ->)|[_ ?]]; [apply bump_itemOk|]; auto. }
  case_bool_decide; [split_and!; [by apply lease_inv|done..]|].
  destruct (sessionEntries c !! msession it) as [sib|]; [|split_and!; [by apply lease_inv|done..]].
  destruct (size sib <=? 1)%nat; [split_and!; [by apply lease_inv|done..]|].
  destruct (bumpSiblings_ok key now (memoryTTL c) sib m1 Hok1) as (J1 & J2 & _).
  assert (Hs2 : sameItems (items c) (bumpSiblings key now (memoryTTL c) sib m1)) by (by eapply sameItems_trans).
  split_and!; [|done..]. destruct (lease_inv c _ I Hs2 J2) as [? ? ? ?]. by split.
Qed.

Lemma bucketOf_add (ses : gmap string (gset string)) (s k s' : string) :
  k <> "" ->
  bucketOf (addToSessionLocked s k ses) s' = if bool_decide (s = s' /\ s <> "") then {[k]} ∪ bucketOf ses s' else bucketOf ses s'.
Proof.
  intros Hk. unfold addToSessionLocked. rewrite (bool_decide_eq_false_2 (k = "")) by done. rewrite orb_false_r.
  case_bool_decide as Hs; [subst; rewrite bool_decide_eq_false_2; naive_solver|]. rewrite bucketOf_insert.
  destruct (decide (s = s')) as [<-|Hne]; [by rewrite !bool_decide_eq_true_2|rewrite !bool_decide_eq_false_2; naive_solver].
Qed.

(** The sessions after the old item of a key left its session, if it must. *)
Definition leaveSession (its : gmap string memoryEntry) (ses : gmap string (gset string)) (key sessionKey : string)
  : gmap string (gset string) :=
  match its !! key with
  | None => ses
  | Some old => if negb (bool_decide (msession old = "")) && negb (bool_decide (msession old = sessionKey))
                then removeFromSessionLocked (msession old) key ses else ses
  end.

Lemma indexed_insert (its : gmap string memoryEntry) (ses : gmap string (gset string)) (k : string) (it : memoryEntry) :
  k <> "" -> indexed its ses ->
  indexed (<[k := it]> its) (addToSessionLocked (msession it) k (leaveSession its ses k (msession it))).
Proof.
  intros Hk [H1 H2].
  assert (Hl : forall s x, x ∈ bucketOf (leaveSession its ses k (msession it)) s <->
    x ∈ bucketOf ses s /\ (x <> k \/ s = msession it)).
  { intros s x. unfold leaveSession. destruct (its !! k) as [old|] eqn:Hold.
    - case_bool_decide as E1; cbn [negb andb].
      { rewrite H1. split; [|tauto]. intros (Hs & it' & Hit' & E). split; [eauto|]. left. intros ->. congruence. }
      case_bool_decide as E2; cbn [negb].
      { rewrite H1. split; [|tauto]. intros (Hs & it' & Hit' & E). split; [eauto|].
        destruct (decide (x = k)) as [->|]; [right|by left]. congruence. }
      rewrite bucketOf_remove by done. case_bool_decide as E3.
      + destruct E3 as [<- _]. set_solver.
      + split; [|tauto]. intros Hx. split; [done|]. destruct (decide (x = k)) as [->|]; [|by left]. exfalso.
        apply H1 in Hx as (Hs & it' & Hit' & E). apply E3. split; [|done]. congruence.
    - rewrite H1. split; [|tauto]. intros (Hs & it' & Hit' & E). split; [eauto|]. left. intros ->. congruence. }
  assert (Hne : forall s b, leaveSession its ses k (msession it) !! s = Some b -> b <> ∅).
  { unfold leaveSession. destruct (its !! k); [|done]. destruct (_ && _); [by apply remove_nonempty|done]. }
  split.
  - intros s x. rewrite bucketOf_add by done. destruct (decide (x = k)) as [->|Hx].
    + rewrite lookup_insert_eq. case_bool_decide as E.
      * destruct E as [<- Hs]. split; [eauto|set_solver].
      * rewrite Hl. split; [|naive_solver]. intros [Hin [?| ->]]; [done|]. apply H1 in Hin as [Hs _]. naive_solver.
    + rewrite lookup_insert_ne by done. rewrite <- H1. case_bool_decide; [rewrite elem_of_union, elem_of_singleton|]; rewrite Hl; tauto.
  - intros s b. unfold addToSessionLocked. destruct (_ || _); [apply Hne|].
    intros [[_ <-]|[_ ?]]%lookup_insert_Some; [set_solver|eauto].
Qed.

Lemma memorySize_nonneg (e : Entry) : 0 <= memorySize e.
Proof.
  unfold memorySize. assert (0 <= map_fold (fun k vv n => Z.of_nat (String.length k) + valuesSize vv + n) 0 (EntryHeader e)); [|lia].
  assert (Hv : forall vv, 0 <= valuesSize vv) by (induction vv; simpl; lia).
  unfold Header. generalize (EntryHeader e : gmap string (list string)). intros m. rewrite map_fold_foldr.
  induction (map_to_list m) as [|[k vv] l IH]; simpl; [lia|]. specialize (Hv vv). lia.
Qed.

(** A cache whose memory tier is consistent and within its budget. *)
Definition cacheOk (c : Cache) : Prop :=
  memInv Q c /\ memoryBytes c <= memoryMaxBytes c /\ 0 < memoryMaxBytes c < 2 ^ 62 /\ 0 < memoryTTL c.

(** The item that a store creates. *)
Definition storedItem (c : Cache) (entry : Entry) (now : Z) (sessionKey : string) : memoryEntry :=
  {| mentry := entry; memoryExpiresAt := Z.min (now + memoryTTL c) (DiskExpiresAt entry); msize := memorySize entry;
     msession := sessionKey |}.

Lemma putMemory_inv (key sessionKey : string) (entry : Entry) (now : Z) (c : Cache) :
  cacheOk c -> key <> "" -> Q key entry ->
  let c' := putMemoryWithPolicySession key sessionKey entry now c in
  cacheOk c' /\ sameRest c c' /\
  (now < DiskExpiresAt entry -> memoryBytes (sweepMemoryLocked now c) + memorySize entry <= memoryMaxBytes c ->
   items c' !! key = Some (storedItem c entry now sessionKey)).
Proof.
  intros (I & Hle & Hmax & Httl) Hk HQ. unfold putMemoryWithPolicySession.
  destruct (sweep_inv now c I) as (I1 & R1 & Hb1 & Hit1). set (c1 := sweepMemoryLocked now c) in *.
  destruct R1 as (E1 & E2 & E3 & E4 & E5 & E6). rewrite E1, E2.
  assert (Hok1 : cacheOk c1) by (split_and!; [done|rewrite ?E1, ?E2; lia..]).
  assert (Hbnn : 0 <= memoryBytes c1).
  { destruct I1 as [-> _ Hi _]. apply memSum_nonneg. intros k it H. by apply (Hi k). }
  pose proof (memorySize_nonneg entry) as Hsz.
  destruct ((0 <? memoryMaxBytes c) && (memoryMaxBytes c <? memorySize entry)) eqn:Hbig.
  { apply andb_true_iff in Hbig as [_ Hbig%Z.ltb_lt]. split_and!; [done|done|lia]. }
  destruct (now <? Z.min (now + memoryTTL c) (DiskExpiresAt entry)) eqn:Hnow; cbn [negb].
  2: { apply Z.ltb_ge in Hnow. split_and!; [done|done|lia]. }
  rewrite (proj2 (Z.ltb_lt _ _) (proj1 Hmax)) in Hbig. cbn [andb] in Hbig. apply Z.ltb_ge in Hbig.
  set (p := match items c1 !! key with None => _ | Some _ => _ end).
  assert (Hp : p = (memSum (delete key (items c1)), leaveSession (items c1) (sessionEntries c1) key sessionKey)).
  { unfold p, leaveSession. destruct I1 as [Hs Hr Hi _]. destruct (items c1 !! key) as [old|] eqn:Hold.
    - f_equal. pose proof (memSum_delete _ _ _ Hold) as Hd. rewrite Hs, i64_small; [lia|].
      pose proof (Hi _ _ Hold) as (_ & _ & Hp0 & _). assert (Hnn : 0 <= memSum (delete key (items c1))).
      { apply memSum_nonneg. intros k it [_ H]%lookup_delete_Some. by apply (Hi k). }
      unfold minInt, maxInt in *. lia.
    - by rewrite Hs, delete_id. }
  rewrite Hp. clear p Hp. cbv beta iota.
  change {| mentry := entry; memoryExpiresAt := _; msize := _; msession := _ |} with (storedItem c entry now sessionKey).
  set (its := <[key := storedItem c entry now sessionKey]> (items c1)).
  pose proof (indexed_insert (items c1) (sessionEntries c1) key (storedItem c entry now sessionKey) Hk (mi_index _ _ I1)) as Hx.
  cbn [msession storedItem] in Hx. set (ses := addToSessionLocked sessionKey key _) in *.
  assert (Hits : forall k it, its !! k = Some it -> itemOk Q k it).
  { intros k it [[<- <-]|[_ H]]%lookup_insert_Some; [|by apply (mi_item _ _ I1)]. split_and!; simpl; lia || done. }
  set (m := if bool_decide (sessionKey = "") then its else _).
  assert (sameItems its m /\ (forall k it, m !! k = Some it -> itemOk Q k it) /\ m !! key = its !! key) as (M1 & M2 & M3).
  { unfold m. case_bool_decide; [split_and!; [apply sameItems_refl|done..]|].
    destruct (ses !! sessionKey); [by apply bumpSiblings_ok|split_and!; [apply sameItems_refl|done..]]. }
  assert (Hsum : memSum its = memorySize entry + memSum (delete key (items c1))) by apply memSum_replace.
  assert (Hd : 0 <= memSum (delete key (items c1)) <= memoryBytes c1).
  { destruct I1 as [Hs _ Hi _]. split; [apply memSum_nonneg; intros k it [_ H]%lookup_delete_Some; by apply (Hi k)|].
    rewrite Hs. destruct (items c1 !! key) as [old|] eqn:Hold; [|by rewrite delete_id].
    rewrite (memSum_delete _ _ _ Hold). pose proof (Hi _ _ Hold) as (_ & _ & ? & _). lia. }
  assert (Hi64 : i64 (memSum (delete key (items c1)) + memorySize entry) = memSum its).
  { rewrite Hsum, i64_small; [lia|]. unfold minInt, maxInt. lia. }
  rewrite Hi64. set (c2 := withMemory c1 (memSum its) m ses).
  assert (I2 : memInv Q c2).
  { split; simpl; [by rewrite (sameItems_sum _ _ M1)|unfold maxInt; lia|done|by eapply sameItems_indexed]. }
  assert (R2 : sameRest c c2) by (by unfold sameRest; simpl; split_and!).
  destruct (enforce_inv c2 I2) as (J1 & J2 & _ & J4 & J5); [simpl; lia|].
  pose proof (sameRest_trans _ _ _ R2 J2) as R3. pose proof R3 as (F1 & F2 & _).
  split_and!; [|done|].
  - split_and!; [done|rewrite F1; simpl in J4; lia|lia..|lia].
  - intros _ Hfit. rewrite J5; [|simpl; lia]. simpl. rewrite M3. unfold its. apply lookup_insert_eq.
Qed.
End Invariant.

(** ** Operations on the whole cache *)

Inductive CacheOp :=
| OGet (k : string) (policy : pathPolicy) (now : Z)
| OSet (k session : string) (e : Entry) (policy : pathPolicy) (now : Z) (written : option (Z * Z))
| OUncacheable (path reason : string)
| OInflightHit (path : string)
| OApply (o : Options).

Section Runs.
Variable resolveDir : string -> string.
Variable removable : string -> bool.

Definition cacheStep (op : CacheOp) (c : Cache) : Cache :=
  match op with
  | OGet k policy now => (getWithPolicy removable k policy now c).1
  | OSet k session e policy now written => setWithPolicySession removable k session e policy now written c
  | OUncacheable path reason => recordUncacheable path reason c
  | OInflightHit path => recordInflightHit path c
  | OApply o => ApplyOptions resolveDir o c
  end.

(** What a store adds to the history: the key and the entry with its deadline. *)
Definition storedBy (op : CacheOp) (c : Cache) : list (string * Entry) :=
  match op with
  | OSet k session e policy now written =>
      if bool_decide (normalizeKey k = "") || negb (cacheable e (maxBody c)) then [] else [(normalizeKey k, dated now c e)]
  | _ => []
  end.

Fixpoint cacheRun (ops : list CacheOp) (c : Cache) (h : list (string * Entry)) : Cache * list (string * Entry) :=
  match ops with
  | [] => (c, h)
  | op :: ops => cacheRun ops (cacheStep op c) (storedBy op c ++ h)
  end.

(** An entry [e] that may be served for a stored one. *)
Definition servedFor (e0 e : Entry) : Prop :=
  Status e = Status e0 /\ Body e = Body e0 /\ DiskExpiresAt e <= DiskExpiresAt e0 /\
  (EntryHeader e = EntryHeader e0 \/ EntryHeader e = sanitizeResponseHeader (EntryHeader e0)).

Definition fromHistory (mb : Z) (h : list (string * Entry)) (k : string) (e : Entry) : Prop :=
  cacheable e mb = true /\ exists e0, (k, e0) ∈ h /\ servedFor e0 e.

(** Every readable file was written by a store of its key. *)
Definition diskOk (h : list (string * Entry)) (c : Cache) : Prop :=
  forall d files k f rec, disk c !! d = Some files -> files !! k = Some f -> content f = Some rec -> RecKey rec = k ->
    exists e0, (k, e0) ∈ h /\ RecStatus rec = Status e0 /\ RecBody rec = Body e0 /\ RecHeader rec = EntryHeader e0 /\
      ExpiresAtUnix rec = toUnix (DiskExpiresAt e0).

(** Files are only removed. *)
Definition diskShrinks (c c' : Cache) : Prop :=
  forall d files k f, disk c' !! d = Some files -> files !! k = Some f -> exists files0, disk c !! d = Some files0 /\ files0 !! k = Some f.

Definition systemOk (h : list (string * Entry)) (c : Cache) : Prop := cacheOk (fromHistory (maxBody c) h) c /\ diskOk h c.

(** The memory tier and the settings are the same. *)
Definition sameMemory (c c' : Cache) : Prop :=
  memoryBytes c' = memoryBytes c /\ items c' = items c /\ sessionEntries c' = sessionEntries c /\
  memoryMaxBytes c' = memoryMaxBytes c /\ memoryTTL c' = memoryTTL c /\ diskTTL c' = diskTTL c /\ maxBody c' = maxBody c /\
  dir c' = dir c.

Lemma sameMemory_ok (Q : string -> Entry -> Prop) (c c' : Cache) : sameMemory c c' -> cacheOk Q c -> cacheOk Q c'.
Proof.
  intros (E1 & E2 & E3 & E4 & E5 & E6 & E7 & E8) ([H1 H2 H3 H4] & H5 & H6 & H7).
  split_and!; [split; rewrite ?E1, ?E2, ?E3; done|rewrite ?E1, ?E4, ?E5; lia..].
Qed.

Lemma diskShrinks_ok (h : list (string * Entry)) (c c' : Cache) : diskShrinks c c' -> diskOk h c -> diskOk h c'.
Proof. intros Hs H d files k f rec Hd Hk. destruct (Hs _ _ _ _ Hd Hk) as (files0 & ? & ?). eauto. Qed.

Lemma diskShrinks_refl (c : Cache) : diskShrinks c c.
Proof. intros d files k f H1 H2. eauto. Qed.

Lemma diskShrinks_eq (c c' : Cache) : disk c' = disk c -> diskShrinks c c'.
Proof. intros E d files k f. rewrite E. eauto. Qed.

Lemma setFiles_shrinks (c : Cache) (files : gmap string diskFile) : files ⊆ diskFiles c -> diskShrinks c (setFiles c files).
Proof.
  intros Hsub d fs k f. simpl. intros [[<- <-]|[_ Hd]]%lookup_insert_Some Hk; [|eauto].
  apply (lookup_weaken _ _ _ _ Hk) in Hsub. unfold diskFiles in Hsub. destruct (disk c !! dir c) as [fs0|]; [eauto|].
  simpl in Hsub. by rewrite lookup_empty in Hsub.
Qed.

Lemma removeDisk_sub (k : string) (files : gmap string diskFile) : removeDiskCacheFile removable k files ⊆ files.
Proof. unfold removeDiskCacheFile. destruct (removable k); [apply delete_subseteq|done]. Qed.

Lemma getDisk_spec (h : list (string * Entry)) (key : string) (now : Z) (c c' : Cache) (r : option Entry) :
  getDisk removable key now c = (c', r) ->
  sameMemory c c' /\ diskShrinks c c' /\
  match r with
  | None => True
  | Some e => now < DiskExpiresAt e /\ cacheable e (maxBody c) = true /\ (diskOk h c -> fromHistory (maxBody c) h key e)
  end.
Proof.
  unfold getDisk. destruct (diskFiles c !! key) as [f|] eqn:Hf; [|intros [= <- <-]; split_and!; [done|apply diskShrinks_refl|done]].
  pose proof (setFiles_shrinks c _ (removeDisk_sub key (diskFiles c))) as Hrm.
  set (c1 := setFiles c (removeDiskCacheFile removable key (diskFiles c))) in *.
  assert (Hm : sameMemory c c1) by by split_and!.
  destruct (content f) as [rec|] eqn:Hc; [|by intros [= <- <-]].
  destruct (_ || _) eqn:Hbad; [by intros [= <- <-]|]. destruct (cacheable _ (maxBody c)) eqn:Hcb; cbn [negb]; [|by intros [= <- <-]].
  intros [= <- <-]. apply orb_false_iff in Hbad as [[Hv Hk%negb_false_iff%bool_decide_eq_true]%orb_false_iff Hexp%negb_false_iff%Z.ltb_lt].
  split_and!; [done|apply diskShrinks_refl|done|done|]. intros Hd. split; [done|].
  unfold diskFiles in Hf. destruct (disk c !! dir c) as [files|] eqn:Hdir; [|simpl in Hf; by rewrite lookup_empty in Hf].
  destruct (Hd _ _ _ _ _ Hdir Hf Hc Hk) as (e0 & Hin & E1 & E2 & E3 & E4). exists e0. split; [done|].
  split_and!; simpl; [done|done| |right; by rewrite E3].
  rewrite E4. unfold unixTime, toUnix, second. pose proof (Z.mul_div_le (DiskExpiresAt e0) 1000000000 ltac:(lia)). lia.
Qed.

Lemma fromHistory_mono (mb : Z) (h h' : list (string * Entry)) (k : string) (e : Entry) :
  fromHistory mb h k e -> fromHistory mb (h' ++ h) k e.
Proof. intros (Hc & e0 & Hin & Hs). split; [done|]. exists e0. split; [|done]. apply elem_of_app. auto. Qed.

Lemma diskOk_mono (h h' : list (string * Entry)) (c : Cache) : diskOk h c -> diskOk (h' ++ h) c.
Proof.
  intros H d files k f rec H1 H2 H3 H4. destruct (H _ _ _ _ _ H1 H2 H3 H4) as (e0 & Hin & Hr). exists e0.
  split; [|done]. apply elem_of_app. auto.
Qed.

Lemma cacheOk_mono (Q Q' : string -> Entry -> Prop) (c : Cache) :
  (forall k e, Q k e -> Q' k e) -> cacheOk Q c -> cacheOk Q' c.
Proof.
  intros HQ ([H1 H2 H3 H4] & H5). split; [|done]. split; [done|done| |done]. intros k it Hk.
  destruct (H3 _ _ Hk) as (? & ? & ? & ? & ?). split_and!; auto.
Qed.

(** [sameRest] and a consistent memory tier carry [systemOk] over. *)
Lemma systemOk_put (h : list (string * Entry)) (c : Cache) (key session : string) (e : Entry) (now : Z) :
  systemOk h c -> key <> "" -> fromHistory (maxBody c) h key e ->
  systemOk h (putMemoryWithPolicySession key session e now c).
Proof.
  intros [Hc Hd] Hk HQ. destruct (putMemory_inv _ key session e now c Hc Hk HQ) as (J1 & (_ & _ & _ & E4 & E5 & E6) & _).
  split; [by rewrite E4|]. unfold diskOk. by rewrite E6.
Qed.

Lemma systemOk_same (h : list (string * Entry)) (c c' : Cache) :
  sameMemory c c' -> diskShrinks c c' -> systemOk h c -> systemOk h c'.
Proof.
  intros Hm Hs [Hc Hd]. pose proof Hm as (_ & _ & _ & _ & _ & _ & E & _). split; [rewrite E; by eapply sameMemory_ok|by eapply diskShrinks_ok].
Qed.

Lemma sameMemory_trans (c1 c2 c3 : Cache) : sameMemory c1 c2 -> sameMemory c2 c3 -> sameMemory c1 c3.
Proof. unfold sameMemory. intuition congruence. Qed.

(** Lookup: the invariant, and what is served. *)
Lemma get_ok (h : list (string * Entry)) (k : string) (policy : pathPolicy) (now : Z) (c c' : Cache) (r : option (Entry * string)) :
  systemOk h c -> getWithPolicy removable k policy now c = (c', r) ->
  systemOk h c' /\
  match r with
  | None => True
  | Some (e, _) => now < DiskExpiresAt e /\ fromHistory (maxBody c) h (normalizeKey k) e
  end.
Proof.
  intros [Hc Hd]. unfold getWithPolicy. case_bool_decide as Hk; [by intros [= <- <-]|].
  destruct Hc as (I & Hle & Hmax & Httl). destruct (sweep_inv _ now c I) as (I1 & R1 & Hb1 & Hit1).
  set (c1 := sweepMemoryLocked now c) in *. pose proof R1 as (E1 & E2 & E3 & E4 & E5 & E6).
  assert (S1 : systemOk h c1).
  { split; [rewrite E4; split_and!; [done|rewrite ?E1, ?E2; lia..]|]. unfold diskOk. by rewrite E6. }
  assert (Hdisk : forall c2, systemOk h c2 -> maxBody c2 = maxBody c ->
    match getDisk removable (normalizeKey k) now c2 with
    | (c3, None) => (recordMiss (PolicyPath policy) c3, None)
    | (c3, Some entry) => (recordHitLocked (PolicyPath policy) "disk"
         (putMemoryWithPolicySession (normalizeKey k) "" entry now c3), Some (entry, "disk"))
    end = (c', r) ->
    systemOk h c' /\ match r with None => True | Some (e, _) => now < DiskExpiresAt e /\ fromHistory (maxBody c) h (normalizeKey k) e end).
  { intros c2 S2 Emb. destruct (getDisk removable (normalizeKey k) now c2) as [c3 [e|]] eqn:Hg;
      destruct (getDisk_spec h _ _ _ _ _ Hg) as (M & Sh & Hr); intros [= <- <-].
    - destruct Hr as (Hexp & Hcb & Hfrom). specialize (Hfrom (proj2 S2)). rewrite Emb in Hfrom. split; [|done].
      apply (systemOk_same h (putMemoryWithPolicySession (normalizeKey k) "" e now c3)); [done|by apply diskShrinks_eq|].
      apply systemOk_put; [by eapply systemOk_same|done|]. destruct M as (_ & _ & _ & _ & _ & _ & -> & _). by rewrite Emb.
    - split; [|done]. apply (systemOk_same h c3); [done|by apply diskShrinks_eq|]. by eapply systemOk_same. }
  destruct (items c1 !! normalizeKey k) as [it|] eqn:Hit; [|by apply Hdisk].
  destruct ((now <? memoryExpiresAt it) && _) eqn:Hlive.
  - intros [= <- <-]. apply andb_true_iff in Hlive as [_ Hlive%Z.ltb_lt]. split.
    + destruct S1 as [(_ & S1b & S1c & S1d) S1e].
      destruct (bumpMemory_inv _ (normalizeKey k) now c1 I1) as (J1 & (F1 & F2 & F3 & F4 & F5 & F6) & J3 & _).
      apply (systemOk_same h (bumpMemoryExpiryLocked (normalizeKey k) now c1)); [done|by apply diskShrinks_eq|].
      split; [rewrite F4, E4; split_and!; [done|rewrite ?F1, ?F2, ?J3; lia..]|]. unfold diskOk. by rewrite F6.
    + split; [done|]. apply (mi_item _ _ I1) in Hit as (_ & _ & _ & _ & HQ). exact HQ.
  - exfalso. apply Hit1 in Hit as [_ Hexp]. unfold expired in Hexp.
    apply orb_false_iff in Hexp as [Ha%negb_false_iff Hb%negb_false_iff]. by rewrite Ha, Hb in Hlive.
Qed.

(** ** Stores *)

Lemma enforceDisk_ok (now : Z) (c : Cache) : sameMemory c (enforceDiskLimit removable now c) /\ diskShrinks c (enforceDiskLimit removable now c).
Proof.
  unfold enforceDiskLimit. destruct (diskMaxBytes c <=? 0); [split; [done|apply diskShrinks_refl]|].
  unfold diskFilesAt. set (kept := filter _ (diskFiles c)).
  assert (Hk : kept ⊆ diskFiles c) by apply map_filter_subseteq.
  destruct (_ <=? diskMaxBytes c); [split; [done|by apply setFiles_shrinks]|].
  split; [done|]. apply setFiles_shrinks. etrans; [|exact Hk].
  generalize (sortBy (fun a b : string * diskFile => modTime a.2 <? modTime b.2)
    (filter (fun kf : string * diskFile => (0 <? diskTTL c) && (diskTTL c <? timeSub now (modTime kf.2)) = false) (map_to_list (diskFiles c)))).
  generalize (fold_right (fun (kf : string * diskFile) n => fsize kf.2 + n) 0
    (filter (fun kf : string * diskFile => (0 <? diskTTL c) && (diskTTL c <? timeSub now (modTime kf.2)) = false) (map_to_list (diskFiles c)))).
  intros total l. assert (H : forall st, (fold_left (evictFile removable (diskMaxBytes c)) l st).2 ⊆ st.2); [|apply (H (total, kept))].
  clear. induction l as [|kf l IH]; intros st; [done|]. cbn [fold_left]. etrans; [apply IH|]. unfold evictFile.
  destruct (_ <=? _); [done|]. destruct (removable kf.1); [apply delete_subseteq|done].
Qed.

Lemma maybeSweep_ok (now : Z) (c : Cache) : sameMemory c (maybeSweepDisk removable now c) /\ diskShrinks c (maybeSweepDisk removable now c).
Proof.
  unfold maybeSweepDisk. destruct (_ <? _); [split; [done|apply diskShrinks_refl]|]. split; [done|].
  set (kept := filter _ (diskFiles c)). intros d files k f.
  exact (setFiles_shrinks c kept ltac:(apply map_filter_subseteq) d files k f).
Qed.

(** Everything after the memory tier: the memory stays, files shrink but for the new one. *)
Lemma set_rest (k session : string) (e : Entry) (policy : pathPolicy) (now : Z) (written : option (Z * Z)) (c : Cache) :
  normalizeKey k <> "" -> cacheable e (maxBody c) = true ->
  exists c2 ok, putDisk (normalizeKey k) (dated now c e) now written
                  (putMemoryWithPolicySession (normalizeKey k) session (dated now c e) now c) = (c2, ok) /\
    sameMemory c2 (setWithPolicySession removable k session e policy now written c) /\
    diskShrinks c2 (setWithPolicySession removable k session e policy now written c).
Proof.
  intros Hk Hc. unfold setWithPolicySession. rewrite bool_decide_eq_false_2, Hc by done. cbn [negb orb].
  destruct (putDisk _ _ _ _ _) as [c2 ok]. exists c2, ok. split; [done|].
  set (c3 := if ok then _ else c2).
  assert (H3 : sameMemory c2 c3 /\ diskShrinks c2 c3) by (unfold c3; destruct ok; [apply enforceDisk_ok|split; [done|apply diskShrinks_refl]]).
  destruct H3 as [M3 D3]. destruct (maybeSweep_ok now (recordStore (PolicyPath policy) c3)) as [M4 D4]. split.
  - eapply sameMemory_trans; [exact M3|]. exact M4.
  - intros d files key f H1 H2. destruct (D4 _ _ _ _ H1 H2) as (f0 & H3 & H4). simpl in H3. eauto.
Qed.

Lemma dated_same (now : Z) (c : Cache) (e : Entry) :
  Status (dated now c e) = Status e /\ Body (dated now c e) = Body e /\ EntryHeader (dated now c e) = EntryHeader e /\
  (forall mb, cacheable (dated now c e) mb = cacheable e mb).
Proof. unfold dated. by destruct (_ || _). Qed.

Lemma set_ok (h : list (string * Entry)) (k session : string) (e : Entry) (policy : pathPolicy) (now : Z) written (c : Cache) :
  systemOk h c ->
  systemOk (storedBy (OSet k session e policy now written) c ++ h) (setWithPolicySession removable k session e policy now written c).
Proof.
  intros S. unfold storedBy. destruct (bool_decide (normalizeKey k = "") || negb (cacheable e (maxBody c))) eqn:Hskip.
  { unfold setWithPolicySession. by rewrite Hskip. }
  apply orb_false_iff in Hskip as [Hk%bool_decide_eq_false Hcb%negb_false_iff].
  destruct (set_rest k session e policy now written c Hk Hcb) as (c2 & ok & Hput & M & D).
  apply (systemOk_same _ c2); [done|done|]. set (e1 := dated now c e) in *. set (h' := [(normalizeKey k, e1)] ++ h).
  assert (S' : systemOk h' c).
  { destruct S as [Sc Sd]. split; [|by apply diskOk_mono]. eapply cacheOk_mono; [|exact Sc]. intros ? ?. apply fromHistory_mono. }
  assert (Hin : (normalizeKey k, e1) ∈ h') by (apply elem_of_app; left; by apply list_elem_of_singleton).
  assert (HQ : fromHistory (maxBody c) h' (normalizeKey k) e1).
  { destruct (dated_same now c e) as (_ & _ & _ & E). split; [by unfold e1; rewrite E|]. exists e1. split; [done|].
    split_and!; [done|done|lia|by left]. }
  pose proof (systemOk_put h' c (normalizeKey k) session e1 now S' Hk HQ) as [Pc Pd].
  set (c1 := putMemoryWithPolicySession (normalizeKey k) session e1 now c) in *.
  unfold putDisk in Hput. destruct written as [[sz mt]|]; injection Hput as <- <-; [|done].
  split; [by apply (sameMemory_ok (fromHistory (maxBody c1) h') c1)|]. intros d files key f rec Hd Hf Hrec Hkey. simpl in Hd.
  apply lookup_insert_Some in Hd as [[<- <-]|[_ Hd]]; [|by eapply Pd].
  apply lookup_insert_Some in Hf as [[<- <-]|[_ Hf]].
  - injection Hrec as <-. exists e1. by split_and!.
  - unfold diskFiles in Hf. destruct (disk c1 !! dir c1) as [fs|] eqn:Hdir; [by eapply Pd|]. simpl in Hf. by rewrite lookup_empty in Hf.
Qed.

Definition budgetOk (op : CacheOp) : Prop := match op with OApply o => OptMemoryMaxBytes o < 2 ^ 62 | _ => True end.

Lemma emptyOk (Q : string -> Entry -> Prop) (c : Cache) :
  items c = ∅ -> sessionEntries c = ∅ -> memoryBytes c = 0 -> 0 < memoryMaxBytes c < 2 ^ 62 -> 0 < memoryTTL c -> cacheOk Q c.
Proof.
  intros E1 E2 E3 Hm Ht. split_and!; [|lia..]. split; rewrite ?E1, ?E2, ?E3.
  - by rewrite memSum_empty.
  - unfold maxInt. lia.
  - intros k it H. by rewrite lookup_empty in H.
  - split; [|intros s b H; by rewrite lookup_empty in H]. intros s k. unfold bucketOf. rewrite !lookup_empty. simpl.
    split; [set_solver|]. intros (_ & it & H & _). done.
Qed.

Lemma orDefault_bounds (v d : Z) : v < 2 ^ 62 -> 0 < d < 2 ^ 62 -> 0 < orDefault v d < 2 ^ 62.
Proof. unfold orDefault. intros. destruct (v <=? 0) eqn:E; [|apply Z.leb_gt in E]; lia. Qed.

Lemma orDefault_pos (v d : Z) : 0 < d -> 0 < orDefault v d.
Proof. unfold orDefault. intros. destruct (v <=? 0) eqn:E; [|apply Z.leb_gt in E]; lia. Qed.

Lemma step_ok (h : list (string * Entry)) (op : CacheOp) (c : Cache) :
  systemOk h c -> budgetOk op -> systemOk (storedBy op c ++ h) (cacheStep op c).
Proof.
  intros S Hb. destruct op as [k policy now|k session e policy now written|path reason|path|o]; cbn [cacheStep].
  - destruct (getWithPolicy removable k policy now c) as [c' r] eqn:Hg. by destruct (get_ok h _ _ _ _ _ _ S Hg).
  - by apply set_ok.
  - by apply (systemOk_same h c); [|apply diskShrinks_eq|].
  - by apply (systemOk_same h c); [|apply diskShrinks_eq|].
  - destruct S as [_ Sd]. split; [|exact Sd].
    apply emptyOk; try done; [apply orDefault_bounds; [done|unfold defaultMemoryMaxBytes; lia]|apply orDefault_pos; reflexivity].
Qed.

Lemma run_ok (ops : list CacheOp) (c : Cache) (h : list (string * Entry)) :
  systemOk h c -> Forall budgetOk ops -> let '(c', h') := cacheRun ops c h in systemOk h' c'.
Proof.
  revert c h. induction ops as [|op ops IH]; intros c h S Hf; [done|]. inversion Hf; subst. cbn [cacheRun].
  apply IH; [by apply step_ok|done].
Qed.

Lemma new_ok (o : Options) : OptMemoryMaxBytes o < 2 ^ 62 -> systemOk [] (New resolveDir ∅ o).
Proof.
  intros Hb. split.
  - apply emptyOk; try done; [apply orDefault_bounds; [done|unfold defaultMemoryMaxBytes; lia]|apply orDefault_pos; reflexivity].
  - intros d files k f rec H. cbn [disk New] in H. by rewrite lookup_empty in H.
Qed.

(** C22. What the cache serves was stored: after any run of lookups, stores and
    reconfigurations that starts with empty memory and disk, a hit returns an entry that
    is not past its deadline and has the status and body of an entry that an earlier store
    put under the same key; it is fit for caching under the current limits. *)
Theorem cache_serves_stored (ops : list CacheOp) (o : Options) (k : string) (policy : pathPolicy) (now : Z)
  (c c' : Cache) (h : list (string * Entry)) (e : Entry) (source : string) :
  OptMemoryMaxBytes o < 2 ^ 62 -> Forall budgetOk ops ->
  cacheRun ops (New resolveDir ∅ o) [] = (c, h) ->
  getWithPolicy removable k policy now c = (c', Some (e, source)) ->
  now < DiskExpiresAt e /\ cacheable e (maxBody c) = true /\
  exists e0, (normalizeKey k, e0) ∈ h /\ Status e = Status e0 /\ Body e = Body e0 /\ DiskExpiresAt e <= DiskExpiresAt e0.
Proof.
  intros Ho Hops Hrun Hget. pose proof (run_ok ops _ [] (new_ok o Ho) Hops) as S. rewrite Hrun in S.
  destruct (get_ok h k policy now c c' _ S Hget) as (_ & Hlive & Hcb & e0 & Hin & Hs).
  destruct Hs as (? & ? & ? & _). split_and!; [done|done|]. by exists e0.
Qed.

(** The memory tier is accounted exactly: after any such run the byte counter is the
    sum of the sizes of the stored entries and within the configured budget, and a session's
    bucket lists exactly the entries of that session, none of them empty. *)
Theorem cache_accounting (ops : list CacheOp) (o : Options) (c : Cache) (h : list (string * Entry)) :
  OptMemoryMaxBytes o < 2 ^ 62 -> Forall budgetOk ops ->
  cacheRun ops (New resolveDir ∅ o) [] = (c, h) ->
  memoryBytes c = map_fold (fun _ it n => memorySize (mentry it) + n) 0 (items c) /\
  memoryBytes c <= memoryMaxBytes c /\
  (forall s k, k ∈ bucketOf (sessionEntries c) s <-> s <> "" /\ exists it, items c !! k = Some it /\ msession it = s) /\
  (forall s b, sessionEntries c !! s = Some b -> b <> ∅).
Proof.
  intros Ho Hops Hrun. pose proof (run_ok ops _ [] (new_ok o Ho) Hops) as S. rewrite Hrun in S.
  destruct S as [([H1 _ H3 [H4 H5]] & Hle & _) _]. split_and!; [|done..]. rewrite H1. clear -H3. unfold memSum.
  induction (items c) as [|k it m Hk IH] using map_ind; [by rewrite !map_fold_empty|].
  rewrite !map_fold_insert_L by (done || (intros; lia)). rewrite IH.
  - by destruct (H3 k it (lookup_insert_eq _ _ _)) as (_ & -> & _).
  - intros k' it' Hk'. apply (H3 k'). rewrite lookup_insert_ne; [done|]. intros ->. congruence.
Qed.

(** A stored response is found again: if the entry is fit for caching and fits beside
    what the memory tier still holds, then a lookup under the same key before both its
    deadlines serves exactly that entry from memory, whatever happened to the disk. *)
Theorem set_then_get (ops : list CacheOp) (o : Options) (c : Cache) (h : list (string * Entry))
  (k session : string) (e : Entry) (policy policy' : pathPolicy) (now later : Z) (written : option (Z * Z)) :
  OptMemoryMaxBytes o < 2 ^ 62 -> Forall budgetOk ops -> cacheRun ops (New resolveDir ∅ o) [] = (c, h) ->
  normalizeKey k <> "" -> cacheable e (maxBody c) = true ->
  memoryBytes (sweepMemoryLocked now c) + memorySize (dated now c e) <= memoryMaxBytes c ->
  now < DiskExpiresAt (dated now c e) -> now <= later < now + memoryTTL c -> later < DiskExpiresAt (dated now c e) ->
  (getWithPolicy removable k policy' later (setWithPolicySession removable k session e policy now written c)).2 =
  Some (dated now c e, "memory").
Proof.
  intros Ho Hops Hrun Hk Hcb Hfit Hnow Hlater Hdisk. pose proof (run_ok ops _ [] (new_ok o Ho) Hops) as S. rewrite Hrun in S.
  destruct (set_rest k session e policy now written c Hk Hcb) as (c2 & ok & Hput & M & _).
  pose proof (set_ok h k session e policy now written c S) as [(I & _) _].
  set (c3 := setWithPolicySession removable k session e policy now written c) in *. set (e1 := dated now c e) in *.
  assert (Hitem : items c3 !! normalizeKey k = Some (storedItem c e1 now session)).
  { destruct M as (_ & -> & _).
    assert (items c2 = items (putMemoryWithPolicySession (normalizeKey k) session e1 now c)) as ->
      by (unfold putDisk in Hput; destruct written as [[]|]; by injection Hput as <- <-).
    destruct S as [Sc _].
    apply (putMemory_inv (fun k e => fromHistory (maxBody c) h k e \/ e = e1) (normalizeKey k) session e1 now c); auto.
    eapply cacheOk_mono; [|exact Sc]. auto. }
  destruct (sweep_inv _ later c3 I) as (_ & _ & _ & Hsw).
  assert (Hlive : items (sweepMemoryLocked later c3) !! normalizeKey k = Some (storedItem c e1 now session)).
  { apply Hsw. split; [done|]. unfold expired. simpl. rewrite (proj2 (Z.ltb_lt _ _)), (proj2 (Z.ltb_lt _ _)); [done|lia..]. }
  unfold getWithPolicy. rewrite bool_decide_eq_false_2 by done. rewrite Hlive. cbn [mentry memoryExpiresAt storedItem].
  rewrite (proj2 (Z.ltb_lt _ _)), (proj2 (Z.ltb_lt _ _)) by lia. done.
Qed.
End Runs.

(** ** Captured responses *)

Inductive WriterCall := CallWriteHeader (status : Z) | CallWrite (p : list N).

Definition writerStep (w : captureResponseWriter) (call : WriterCall) : captureResponseWriter :=
  match call with CallWriteHeader s => WriteHeader s w | CallWrite p => CaptureWrite p w end.

Definition writtenBytes (calls : list WriterCall) : list N :=
  mbind (fun call => match call with CallWrite p => p | CallWriteHeader _ => [] end) calls.

(** The status that reaches the client: that of the first call. *)
Definition sentStatus (calls : list WriterCall) : Z :=
  match calls with CallWriteHeader s :: _ => s | _ => 200 end.

Lemma capture_spec (p : list N) (w : captureResponseWriter) :
  cstatus (capture p w) = cstatus w /\ cwroteHeader (capture p w) = cwroteHeader w /\ cmaxBody (capture p w) = cmaxBody w /\
  (truncated (capture p w) = false -> truncated w = false /\ cbody (capture p w) = cbody w ++ p) /\
  (truncated w = false -> 0 < cmaxBody w -> Z.of_nat (length (cbody w) + length p) <= cmaxBody w ->
   truncated (capture p w) = false).
Proof.
  unfold capture. destruct (truncated w) eqn:Ht; cbn [orb]; [split_and!; done || congruence|].
  case_bool_decide as Hp; [subst; rewrite app_nil_r; split_and!; done|].
  destruct (_ && _) eqn:Hb; split_and!; try done. simpl. intros _ _ Hle. apply andb_true_iff in Hb as [_ Hb%Z.ltb_lt]. lia.
Qed.

Lemma writer_fold (calls : list WriterCall) (w : captureResponseWriter) :
  let w' := fold_left writerStep calls w in
  cmaxBody w' = cmaxBody w /\
  (truncated w' = false -> truncated w = false /\ cbody w' = cbody w ++ writtenBytes calls) /\
  (cwroteHeader w = true -> cstatus w' = cstatus w /\ cwroteHeader w' = true) /\
  (truncated w = false -> 0 < cmaxBody w -> Z.of_nat (length (cbody w) + length (writtenBytes calls)) <= cmaxBody w ->
   truncated w' = false).
Proof.
  revert w. induction calls as [|call calls IH]; intros w; cbn [fold_left].
  { split_and!; [done| |done|done]. intros ->. by rewrite app_nil_r. }
  assert (Hstep : cmaxBody (writerStep w call) = cmaxBody w /\
    (truncated (writerStep w call) = false -> truncated w = false /\ cbody (writerStep w call) = cbody w ++ writtenBytes [call]) /\
    (cwroteHeader w = true -> cstatus (writerStep w call) = cstatus w /\ cwroteHeader (writerStep w call) = true) /\
    (truncated w = false -> 0 < cmaxBody w -> Z.of_nat (length (cbody w) + length (writtenBytes [call])) <= cmaxBody w ->
     truncated (writerStep w call) = false)).
  { destruct call as [s|p]; cbn [writerStep writtenBytes mbind list_bind]; rewrite ?app_nil_r.
    - unfold WriteHeader. destruct (cwroteHeader w) eqn:Hw; by split_and!.
    - unfold CaptureWrite. set (w1 := if cwroteHeader w then w else WriteHeader 200 w).
      assert (E : cmaxBody w1 = cmaxBody w /\ truncated w1 = truncated w /\ cbody w1 = cbody w /\ (cwroteHeader w = true -> w1 = w)).
      { unfold w1, WriteHeader. destruct (cwroteHeader w); by split_and!. }
      destruct E as (E1 & E2 & E3 & E4). destruct (capture_spec p w1) as (S1 & S2 & S3 & S4 & S5).
      rewrite E1, E2, E3 in *. split_and!; [done|done| |done]. intros Hw. rewrite S1, S2, E4 by done. done. }
  destruct Hstep as (K1 & K2 & K3 & K4). destruct (IH (writerStep w call)) as (J1 & J2 & J3 & J4).
  assert (Happ : writtenBytes (call :: calls) = writtenBytes [call] ++ writtenBytes calls).
  { change (call :: calls) with ([call] ++ calls). unfold writtenBytes. by rewrite bind_app. }
  rewrite Happ, length_app. split_and!; [congruence| | |].
  - intros Ht. destruct (J2 Ht) as [Ht1 ->]. destruct (K2 Ht1) as [? ->]. by rewrite app_assoc.
  - intros Hw. destruct (K3 Hw) as [<- Hw1]. by apply J3.
  - intros Ht Hm Hle. assert (Ht1 : truncated (writerStep w call) = false) by (apply K4; [done|done|lia]).
    apply J4; [done|lia|]. destruct (K2 Ht1) as [_ ->]. rewrite K1, length_app. lia.
Qed.

Lemma captured_status (calls : list WriterCall) (maxB : Z) :
  sentStatus calls <> 0 ->
  let w := fold_left writerStep calls (newCaptureResponseWriter maxB) in
  (if cstatus w =? 0 then 200 else cstatus w) = sentStatus calls.
Proof.
  intros Hne. destruct calls as [|[s|p] calls]; [done| |]; cbn [fold_left sentStatus] in *.
  - destruct (writer_fold calls (writerStep (newCaptureResponseWriter maxB) (CallWriteHeader s))) as (_ & _ & K & _).
    destruct (K eq_refl) as [-> _]. simpl. by rewrite (proj2 (Z.eqb_neq _ _)).
  - destruct (writer_fold calls (writerStep (newCaptureResponseWriter maxB) (CallWrite p))) as (_ & _ & K & _).
    assert (Hc : cstatus (CaptureWrite p (newCaptureResponseWriter maxB)) = 200 /\
                 cwroteHeader (CaptureWrite p (newCaptureResponseWriter maxB)) = true).
    { unfold CaptureWrite. simpl. by destruct (capture_spec p (WriteHeader 200 (newCaptureResponseWriter maxB))) as (-> & -> & _). }
    cbn [writerStep] in *. destruct (K (proj2 Hc)) as [-> _]. by rewrite (proj1 Hc).
Qed.

Lemma uncacheableReason_none (e : Entry) (maxB : Z) :
  uncacheableReason e maxB = "" ->
  200 <= Status e < 300 /\ Body e <> [] /\ (0 < maxB -> Z.of_nat (length (Body e)) <= maxB) /\
  hasHeaderToken (HeaderGet (EntryHeader e) "Cache-Control") "no-store" = false /\ HeaderValues (EntryHeader e) "Set-Cookie" = [].
Proof.
  unfold uncacheableReason. destruct (_ || _) eqn:H1; [done|]. case_bool_decide; [done|]. destruct (_ && _) eqn:H2; [done|].
  destruct (hasHeaderToken _ _); [done|]. destruct (HeaderValues _ _); [|done]. intros _.
  apply orb_false_iff in H1 as [H1%Z.ltb_ge H1'%Z.leb_gt]. split_and!; try done. intros Hm.
  rewrite (proj2 (Z.ltb_lt _ _) Hm) in H2. cbn [andb] in H2. by apply Z.ltb_ge in H2.
Qed.

(** Only complete, reusable responses are cached: whatever sequence of header and body
    writes a handler makes, a captured entry has exactly the bytes that were written and the
    status the client saw, which is a success; it is not empty, within the size limit, and
    carries neither a cookie nor a prohibition to store it.  And a response within the limit
    is never cut. *)
Theorem capture_complete (calls : list WriterCall) (header : Header) (maxB : Z) :
  0 < maxB -> sentStatus calls <> 0 ->
  let w := fold_left writerStep calls (newCaptureResponseWriter maxB) in
  (truncated w = true -> maxB < Z.of_nat (length (writtenBytes calls))) /\
  forall e, cacheEntry header w = Ok e ->
    Body e = writtenBytes calls /\ Status e = sentStatus calls /\ 200 <= Status e < 300 /\
    Body e <> [] /\ Z.of_nat (length (Body e)) <= maxB /\
    HeaderValues (EntryHeader e) "Set-Cookie" = [] /\
    hasHeaderToken (HeaderGet (EntryHeader e) "Cache-Control") "no-store" = false.
Proof.
  intros Hm Hst w. unfold w. destruct (writer_fold calls (newCaptureResponseWriter maxB)) as (H1 & H2 & _ & H4).
  pose proof (captured_status calls maxB Hst) as Hs. set (w' := fold_left writerStep calls _) in *. split.
  - intros Ht. simpl in H4. destruct (decide (Z.of_nat (length (writtenBytes calls)) <= maxB)) as [Hle|]; [|lia].
    rewrite H4 in Ht by done. done.
  - intros e. unfold cacheEntry. destruct (truncated w') eqn:Ht; [discriminate 1|].
    case_bool_decide as Hr; [|discriminate 1]. intros [= <-]. apply uncacheableReason_none in Hr as (R1 & R2 & R3 & R4 & R5).
    rewrite H1 in R3. cbn [Body Status EntryHeader] in *. rewrite Hs in *. destruct (H2 eq_refl) as [_ Hb]. simpl in Hb. rewrite Hb in *.
    split_and!; try done; try lia. by apply R3.
Qed.

(** ** Instances *)

Definition demoOptions : Options :=
  {| OptDir := "cache"; OptMemoryTTL := 0; OptDiskTTL := 0; OptMaxBody := 0; OptMemoryMaxBytes := 100; OptDiskMaxBytes := 0;
     OptSemanticKey := true |}.
Definition demoKey : string := EncodeToString (Sum256 []).
Definition demoEntry : Entry := {| Status := 200; EntryHeader := {[ "Content-Type" := ["text/plain"] ]}; Body := [104; 105]%N; DiskExpiresAt := zeroTime |}.
Definition demoOps : list CacheOp := [OSet demoKey "session" demoEntry noPolicy 10 (Some (50, 10)); OGet demoKey noPolicy 20].
Definition demoCache : Cache := (cacheRun id (fun _ => true) demoOps (New id ∅ demoOptions) []).1.
Definition demoHistory : list (string * Entry) := (cacheRun id (fun _ => true) demoOps (New id ∅ demoOptions) []).2.
Definition demoServed : Entry := dated 10 demoCache demoEntry.

Lemma demoBudget : Forall budgetOk demoOps.
Proof. by repeat constructor. Defined.

Lemma cache_serves_stored_witness :
  (getWithPolicy (fun _ => true) demoKey noPolicy 30 demoCache).2 = Some (demoServed, "memory") /\ 30 < DiskExpiresAt demoServed.
Proof.
  assert ((getWithPolicy (fun _ => true) demoKey noPolicy 30 demoCache).2 = Some (demoServed, "memory")) as H by (vm_compute; reflexivity).
  split; [exact H|].
  destruct (getWithPolicy (fun _ => true) demoKey noPolicy 30 demoCache) as [c' r] eqn:Hg. simpl in H. subst r.
  exact (proj1 (cache_serves_stored id (fun _ => true) demoOps demoOptions demoKey noPolicy 30 demoCache c' demoHistory demoServed
    "memory" ltac:(vm_compute; reflexivity) demoBudget (surjective_pairing _) Hg)).
Defined.

Lemma cache_accounting_witness :
  memoryBytes demoCache = map_fold (fun _ it n => memorySize (mentry it) + n) 0 (items demoCache) /\ memoryBytes demoCache = 24.
Proof.
  split; [|vm_compute; reflexivity].
  exact (proj1 (cache_accounting id (fun _ => true) demoOps demoOptions demoCache demoHistory
    ltac:(vm_compute; reflexivity) demoBudget (surjective_pairing _))).
Defined.

Lemma set_then_get_witness :
  (getWithPolicy (fun _ => true) demoKey noPolicy 60
     (setWithPolicySession (fun _ => true) demoKey "other" demoEntry noPolicy 50 None demoCache)).2 =
  Some (dated 50 demoCache demoEntry, "memory").
Proof.
  apply (set_then_get id (fun _ => true) demoOps demoOptions demoCache demoHistory demoKey "other" demoEntry noPolicy noPolicy 50 60 None);
    try exact demoBudget; try exact (surjective_pairing _); try (vm_compute; reflexivity); try (vm_compute; discriminate).
  split; [vm_compute; discriminate|vm_compute; reflexivity].
Defined.

Lemma capture_complete_witness :
  exists e, cacheEntry ∅ (fold_left writerStep [CallWriteHeader 201; CallWrite [1%N]; CallWrite [2%N; 3%N]] (newCaptureResponseWriter 3)) = Ok e /\
            Body e = [1%N; 2%N; 3%N].
Proof.
  destruct (cacheEntry ∅ (fold_left writerStep [CallWriteHeader 201; CallWrite [1%N]; CallWrite [2%N; 3%N]] (newCaptureResponseWriter 3)))
    as [e|r] eqn:H; [|vm_compute in H; discriminate H].
  exists e. split; [reflexivity|].
  exact (proj1 (proj2 (capture_complete [CallWriteHeader 201; CallWrite [1%N]; CallWrite [2%N; 3%N]] ∅ 3
    ltac:(reflexivity) ltac:(discriminate)) e H)).
Defined.

(** One response that a waiting request receives counts as two hits: the lookup counts
    it, and so does [recordInflightHit]. *)
Example inflight_hit_counted_twice :
  hits (recordInflightHit "/v1/chat/completions" (getWithPolicy (fun _ => true) demoKey noPolicy 30 demoCache).1) = hits demoCache + 2.
Proof. vm_compute. reflexivity. Qed.
