(* ===== verification/SingleFlight.v ===== *)
(** The caching handler: [Wrap], [waitForInflightOwner], [acquireInflight] and
    [releaseInflight] of [internal/responsecache/cache.go].

    [wrapPrepare] is the part of the handler before the lookup.  The rest is a step
    relation on a system of concurrent requests that share one cache: a step is one
    critical section or one event that a request waits for (the slot closes, the wait
    times out, the client goes away, the upstream handler returns or panics), so runs
    are the interleavings of the goroutines. *)
From S2P Require Import Prelude GoString GoText Affinity Sha256 Json SessionKey CacheKey ResponseCache.
Local Open Scope Z_scope.

(** ** Before the lookup *)

(** The body as a stream: what [io.ReadAll] of the limited reader returned, and the rest. *)
Definition readRequestBody (maxBody : Z) (body : list N) : list N * bool * list N :=
  if maxBody <=? 0 then (body, false, [])
  else
    let n := Z.to_nat (maxBody + 1) in
    let raw := take n body in
    if maxBody <? Z.of_nat (length raw) then (raw, true, drop n body) else (raw, false, drop n body).

(** [replayBody(prefix, rest)] reads the prefix, then the rest. *)
Definition replayBody (prefix rest : list N) : list N := prefix ++ rest.

Definition requestBodyTooLarge (maxBody : Z) (r : Request) : bool := (0 <? maxBody) && (maxBody <? ContentLength r).

Inductive Prepared :=
| Bypass (body : list N) (uncached : option string)
| Lookup (key sessionKey : string) (policy : pathPolicy) (body : list N).

Section Prepare.
Variable Decode : list N -> option keyJson.
Variable Marshal : keyJson -> option (list N).
Variable UnmarshalStream : list N -> option (option keyJson).
Variable UnmarshalMap : list N -> option (list (string * json)).

(** [caller]: the caller's id when [DetermineCaller] succeeds.  [readFails]: the error of
    reading the body, with the bytes that were read before it. *)
Definition wrapPrepare (c : Cache) (r : Request) (body : list N) (readFails : option nat) (caller : option string) : Prepared :=
  if negb (CacheableRequest r) then Bypass body None
  else if requestBodyTooLarge (maxBody c) r then Bypass body None
  else match readFails with
  | Some n => Bypass (replayBody (take n body) (drop n body)) None
  | None =>
      let '(rawBody, tooLarge, rest) := readRequestBody (maxBody c) body in
      if tooLarge then Bypass (replayBody rawBody rest) None
      else
        let policy := pathPolicyFor (canonicalRequestPath (URLPath r)) in
        if requestBodyStreamEnabled UnmarshalStream rawBody then Bypass rawBody (Some "stream_request")
        else
          let owner := match caller with Some id => TrimSpace id | None => "" end in
          if negb (SharedAcrossCallers policy) && bool_decide (owner = "") then Bypass rawBody None
          else
            let key := requestKey Decode Marshal r owner rawBody (semanticKey c) policy in
            let sessionKey := if negb (SharedAcrossCallers policy) && negb (bool_decide (owner = ""))
                              then SessionKey UnmarshalMap (Sum256 (bytesOf owner)) rawBody else "" in
            Lookup key sessionKey policy rawBody
  end.
End Prepare.

(** ** Single flight *)

(** A slot is a number; its [done] channel is closed once it is in [closedSlots]. *)
Record Flight := { inflight : gmap string nat; closedSlots : gset nat; nextSlot : nat }.

Definition acquireInflight (key : string) (f : Flight) : Flight * nat * bool :=
  match inflight f !! key with
  | Some slot => (f, slot, false)
  | None => ({| inflight := <[key := nextSlot f]> (inflight f); closedSlots := closedSlots f; nextSlot := S (nextSlot f) |},
             nextSlot f, true)
  end.

Definition releaseInflight (key : string) (f : Flight) : Flight :=
  match inflight f !! key with
  | None => f
  | Some slot => {| inflight := delete key (inflight f); closedSlots := {[slot]} ∪ closedSlots f; nextSlot := nextSlot f |}
  end.

(** Where a request is: before the lookup, about to claim the slot, waiting on it (for the
    first or the second time), running the upstream handler, between the store and the
    deferred release, done. *)
Inductive Phase :=
| PLookup
| PAcquire (again : bool)
| PWaiting (again : bool) (slot : nat)
| PRunning (owner : bool)
| PStored (owner : bool)
| PDone (served : option Entry).

Record Req := { rkey : string; rsession : string; rpolicy : pathPolicy; rphase : Phase }.

Record WrapSys := { wcache : Cache; wflight : Flight; reqs : gmap nat Req }.

Definition setPhase (p : Phase) (q : Req) : Req := {| rkey := rkey q; rsession := rsession q; rpolicy := rpolicy q; rphase := p |}.

Inductive WrapLabel :=
| WLookup (r : nat) (now : Z)
| WAcquire (r : nat)
| WWake (r : nat) (now : Z)
| WTimeout (r : nat)
| WCancel (r : nat)
| WReturn (r : nat) (resp : result string Entry) (now : Z) (written : option (Z * Z))
| WPanic (r : nat)
| WRelease (r : nat).

Definition actor (l : WrapLabel) : nat :=
  match l with
  | WLookup r _ | WAcquire r | WWake r _ | WTimeout r | WCancel r | WReturn r _ _ _ | WPanic r | WRelease r => r
  end.

(** After a wait that served nothing: claim the slot once more, or run without it. *)
Definition afterWait (again : bool) : Phase := if again then PRunning false else PAcquire true.

Definition move (s : WrapSys) (r : nat) (q : Req) (c : Cache) (f : Flight) (p : Phase) : WrapSys :=
  {| wcache := c; wflight := f; reqs := <[r := setPhase p q]> (reqs s) |}.

Section Steps.
Variable removable : string -> bool.

Definition wrapStep (l : WrapLabel) (s : WrapSys) : option WrapSys :=
  match reqs s !! actor l with
  | None => None
  | Some q =>
      let go := move s (actor l) q in
      match l, rphase q with
      | WLookup _ now, PLookup =>
          match getWithPolicy removable (rkey q) (rpolicy q) now (wcache s) with
          | (c, Some (e, _)) => Some (go c (wflight s) (PDone (Some e)))
          | (c, None) => Some (go c (wflight s) (PAcquire false))
          end
      | WAcquire _, PAcquire again =>
          match acquireInflight (rkey q) (wflight s) with
          | (f, _, true) => Some (go (wcache s) f (PRunning true))
          | (f, slot, false) => Some (go (wcache s) f (PWaiting again slot))
          end
      | WWake _ now, PWaiting again slot =>
          if bool_decide (slot ∈ closedSlots (wflight s))
          then match getWithPolicy removable (rkey q) (rpolicy q) now (wcache s) with
               | (c, Some (e, _)) => Some (go (recordInflightHit (PolicyPath (rpolicy q)) c) (wflight s) (PDone (Some e)))
               | (c, None) => Some (go c (wflight s) (afterWait again))
               end
          else None
      | WTimeout _, PWaiting again slot => Some (go (wcache s) (wflight s) (afterWait again))
      | WCancel _, PWaiting again slot => Some (go (wcache s) (wflight s) (PDone None))
      | WReturn _ resp now written, PRunning owner =>
          let c := match resp with
                   | Ok e => setWithPolicySession removable (rkey q) (rsession q) e (rpolicy q) now written (wcache s)
                   | Err reason => recordUncacheable (PolicyPath (rpolicy q)) reason (wcache s)
                   end in
          Some (go c (wflight s) (PStored owner))
      | WPanic _, PRunning owner => Some (go (wcache s) (wflight s) (PStored owner))
      | WRelease _, PStored owner =>
          Some (go (wcache s) (if owner then releaseInflight (rkey q) (wflight s) else wflight s) (PDone None))
      | _, _ => None
      end
  end.

Fixpoint wrapRun (ls : list WrapLabel) (s : WrapSys) : option WrapSys :=
  match ls with
  | [] => Some s
  | l :: ls => match wrapStep l s with Some s => wrapRun ls s | None => None end
  end.
End Steps.

Definition wrapStart (c : Cache) (qs : gmap nat Req) : WrapSys :=
  {| wcache := c; wflight := {| inflight := ∅; closedSlots := ∅; nextSlot := 0 |}; reqs := setPhase PLookup <$> qs |}.

(** ** One owner per key *)

Definition holds (q : Req) : bool :=
  match rphase q with PRunning true | PStored true => true | _ => false end.

Record flightInv (s : WrapSys) : Prop := {
  fi_claimed : forall r q, reqs s !! r = Some q -> holds q = true -> is_Some (inflight (wflight s) !! rkey q);
  fi_unique : forall r1 r2 q1 q2, reqs s !! r1 = Some q1 -> reqs s !! r2 = Some q2 -> holds q1 = true -> holds q2 = true ->
              rkey q1 = rkey q2 -> r1 = r2;
  fi_owner : forall key slot, inflight (wflight s) !! key = Some slot ->
             (slot < nextSlot (wflight s))%nat /\ slot ∉ closedSlots (wflight s) /\
             exists r q, reqs s !! r = Some q /\ holds q = true /\ rkey q = key;
  fi_closed : forall slot, slot ∈ closedSlots (wflight s) -> (slot < nextSlot (wflight s))%nat;
  fi_waiting : forall r q again slot, reqs s !! r = Some q -> rphase q = PWaiting again slot ->
               slot ∈ closedSlots (wflight s) \/ inflight (wflight s) !! rkey q = Some slot;
  fi_inj : forall k1 k2 slot, inflight (wflight s) !! k1 = Some slot -> inflight (wflight s) !! k2 = Some slot -> k1 = k2
}.

(** A request that changes phase without claiming or giving up a slot. *)
Lemma move_inv (s : WrapSys) (r : nat) (q : Req) (c : Cache) (p : Phase) :
  flightInv s -> reqs s !! r = Some q -> holds (setPhase p q) = holds q ->
  (forall again slot, p = PWaiting again slot -> inflight (wflight s) !! rkey q = Some slot) ->
  flightInv (move s r q c (wflight s) p).
Proof.
  intros [H1 H2 H3 H4 H5 H6] Hr Hh Hw. unfold move.
  assert (Hback : forall r' q', <[r := setPhase p q]> (reqs s) !! r' = Some q' ->
    exists q0, reqs s !! r' = Some q0 /\ rkey q0 = rkey q' /\ holds q0 = holds q').
  { intros r' q' [[<- <-]|[_ ?]]%lookup_insert_Some; [exists q; by rewrite Hh|eauto]. }
  split; simpl.
  - intros r' q' (q0 & Hq & <- & <-)%Hback Hhold. eauto.
  - intros r1 r2 q1 q2 (a & Ha & Ka & <-)%Hback (b & Hb & Kb & <-)%Hback ? ? E. eapply H2; eauto. congruence.
  - intros key slot Hk. destruct (H3 _ _ Hk) as (? & ? & r' & q' & Hq' & Hh' & E). split_and!; [done|done|].
    destruct (decide (r' = r)) as [->|Hne].
    + exists r, (setPhase p q). rewrite lookup_insert_eq. assert (q' = q) as -> by congruence. rewrite Hh. done.
    + exists r', q'. by rewrite lookup_insert_ne.
  - done.
  - intros r' q' again slot [[<- <-]|[_ Hq']]%lookup_insert_Some Hp; [|by eapply H5]. right. by eapply Hw.
  - done.
Qed.

Lemma claim_inv (s : WrapSys) (r : nat) (q : Req) :
  flightInv s -> reqs s !! r = Some q -> holds q = false -> inflight (wflight s) !! rkey q = None ->
  flightInv (move s r q (wcache s) (acquireInflight (rkey q) (wflight s)).1.1 (PRunning true)).
Proof.
  intros [H1 H2 H3 H4 H5 H6] Hr Hh Hnone. unfold acquireInflight. rewrite Hnone. unfold move. cbn [fst]. split; simpl.
  - intros r' q' [[<- <-]|[_ Hq]]%lookup_insert_Some Hhold; simpl; [rewrite lookup_insert_eq; eauto|].
    destruct (H1 _ _ Hq Hhold) as [slot Hs]. rewrite lookup_insert_ne; [eauto|]. intros E. congruence.
  - intros r1 r2 q1 q2 [[<- <-]|[? Ha]]%lookup_insert_Some [[<- <-]|[? Hb]]%lookup_insert_Some Hh1 Hh2 E; [done| | |eauto];
      simpl in E; [destruct (H1 _ _ Hb Hh2) as [? Hx]|destruct (H1 _ _ Ha Hh1) as [? Hx]]; congruence.
  - intros key slot [[<- <-]|[Hne Hk]]%lookup_insert_Some.
    + split; [lia|]. split; [intros Hc%H4; lia|]. exists r, (setPhase (PRunning true) q). by rewrite lookup_insert_eq.
    + destruct (H3 _ _ Hk) as (? & ? & r' & q' & Hq' & Hh' & E). split; [lia|]. split; [done|].
      exists r', q'. rewrite lookup_insert_ne; [done|]. intros <-. assert (q' = q) as -> by congruence. congruence.
  - intros slot Hc%H4. lia.
  - intros r' q' again slot [[<- <-]|[_ Hq']]%lookup_insert_Some Hp; [done|].
    destruct (H5 _ _ _ _ Hq' Hp) as [?|Hk]; [by left|right]. rewrite lookup_insert_ne; [done|]. intros E. congruence.
  - intros k1 k2 slot [[<- <-]|[? Ha]]%lookup_insert_Some [[<- E]|[? Hb]]%lookup_insert_Some; [done| | |eauto];
      [destruct (H3 _ _ Hb) as [? _]|destruct (H3 _ _ Ha) as [? _]]; lia.
Qed.

Lemma release_inv (s : WrapSys) (r : nat) (q : Req) :
  flightInv s -> reqs s !! r = Some q -> holds q = true ->
  flightInv (move s r q (wcache s) (releaseInflight (rkey q) (wflight s)) (PDone None)).
Proof.
  intros [H1 H2 H3 H4 H5 H6] Hr Hh. destruct (H1 _ _ Hr Hh) as [slot Hs]. unfold releaseInflight. rewrite Hs.
  destruct (H3 _ _ Hs) as (Hlt & _ & _). unfold move. split; simpl.
  - intros r' q' [[<- <-]|[Hne Hq]]%lookup_insert_Some Hhold; [done|]. rewrite lookup_delete_ne; [eauto|].
    intros E. apply Hne. eapply H2; eauto.
  - intros r1 r2 q1 q2 [[<- <-]|[? Ha]]%lookup_insert_Some [[<- <-]|[? Hb]]%lookup_insert_Some Hh1 Hh2 E; try done. eauto.
  - intros key slot' [Hne Hk]%lookup_delete_Some. destruct (H3 _ _ Hk) as (Hlt' & Hnc & r' & q' & Hq' & Hh' & E).
    split; [done|]. assert (Hrr : r' <> r) by (intros ->; assert (q' = q) as -> by congruence; congruence).
    split; [|exists r', q'; by rewrite lookup_insert_ne].
    intros [E'%elem_of_singleton|?]%elem_of_union; [|done]. subst slot'. apply Hne. by eapply H6.
  - intros slot' [->%elem_of_singleton|?]%elem_of_union; auto.
  - intros r' q' again slot' [[<- <-]|[_ Hq']]%lookup_insert_Some Hp; [done|].
    destruct (H5 _ _ _ _ Hq' Hp) as [?|Hk]; [left; set_solver|]. destruct (decide (rkey q' = rkey q)) as [E|Hne].
    + left. rewrite E in Hk. assert (slot' = slot) as -> by congruence. set_solver.
    + right. by rewrite lookup_delete_ne.
  - intros k1 k2 slot' [_ Ha]%lookup_delete_Some [_ Hb]%lookup_delete_Some. eauto.
Qed.

Section Runs.
Variable removable : string -> bool.

Lemma wrapStep_inv (l : WrapLabel) (s s' : WrapSys) : flightInv s -> wrapStep removable l s = Some s' -> flightInv s'.
Proof.
  intros I. unfold wrapStep. destruct (reqs s !! actor l) as [q|] eqn:Hq; [|done].
  destruct l as [r now|r|r now|r|r|r resp now written|r|r]; destruct (rphase q) as [|again|again slot|owner|owner|served] eqn:Hp;
    try discriminate 1; cbn [actor] in Hq; cbv zeta.
  - destruct (getWithPolicy _ _ _ _ _) as [c [[e src]|]]; intros [= <-]; apply move_inv; try done; by unfold holds; rewrite Hp.
  - destruct (inflight (wflight s) !! rkey q) as [slot|] eqn:Hs.
    + unfold acquireInflight. rewrite Hs. intros [= <-]. apply move_inv; [done|done|by unfold holds; rewrite Hp|].
      by intros again' slot' [= <- <-].
    + pose proof (claim_inv s r q I Hq ltac:(unfold holds; by rewrite Hp) Hs) as J.
      unfold acquireInflight in *. rewrite Hs in *. by intros [= <-].
  - case_bool_decide; [|done]. destruct (getWithPolicy _ _ _ _ _) as [c [[e src]|]]; intros [= <-]; apply move_inv; try done;
      try (unfold holds; rewrite Hp; by destruct again). by destruct again.
  - intros [= <-]. apply move_inv; try done; try (unfold holds; rewrite Hp; by destruct again). by destruct again.
  - intros [= <-]. apply move_inv; try done. by unfold holds; rewrite Hp.
  - intros [= <-]. apply move_inv; try done. by unfold holds; rewrite Hp.
  - intros [= <-]. apply move_inv; try done. by unfold holds; rewrite Hp.
  - intros [= <-]. destruct owner; [apply release_inv|apply move_inv]; try done; by unfold holds; rewrite Hp.
Qed.

Lemma wrapRun_inv (ls : list WrapLabel) (s s' : WrapSys) : flightInv s -> wrapRun removable ls s = Some s' -> flightInv s'.
Proof.
  revert s. induction ls as [|l ls IH]; intros s I; [by intros [= <-]|]. cbn [wrapRun].
  destruct (wrapStep removable l s) as [s1|] eqn:Hs; [|done]. apply IH. by eapply wrapStep_inv.
Qed.

Lemma start_inv (c : Cache) (qs : gmap nat Req) : flightInv (wrapStart c qs).
Proof.
  assert (Hl : forall r q, (setPhase PLookup <$> qs) !! r = Some q -> rphase q = PLookup).
  { intros r q. rewrite lookup_fmap. destruct (qs !! r); [|done]. by intros [= <-]. }
  split; simpl.
  - intros r q Hr Hh. apply Hl in Hr. unfold holds in Hh. by rewrite Hr in Hh.
  - intros r1 r2 q1 q2 Hr _ Hh. apply Hl in Hr. unfold holds in Hh. by rewrite Hr in Hh.
  - intros key slot H. by rewrite lookup_empty in H.
  - set_solver.
  - intros r q again slot Hr%Hl Hp. congruence.
  - intros k1 k2 slot H. by rewrite lookup_empty in H.
Qed.

(** C25. Identical requests collapse onto one upstream call: in every interleaving at most
    one request per key runs the upstream handler as the owner of its slot, and a request
    waits on a slot that is not closed only while some request with the same key is still
    running as the owner or about to release it, so no wake-up is ever lost. *)
Theorem single_flight (ls : list WrapLabel) (c : Cache) (qs : gmap nat Req) (s : WrapSys) :
  wrapRun removable ls (wrapStart c qs) = Some s ->
  (forall r1 r2 q1 q2, reqs s !! r1 = Some q1 -> reqs s !! r2 = Some q2 -> holds q1 = true -> holds q2 = true ->
     rkey q1 = rkey q2 -> r1 = r2) /\
  (forall r q again slot, reqs s !! r = Some q -> rphase q = PWaiting again slot -> slot ∉ closedSlots (wflight s) ->
     exists r' q', reqs s !! r' = Some q' /\ holds q' = true /\ rkey q' = rkey q).
Proof.
  intros Hrun. apply wrapRun_inv in Hrun as I; [|apply start_inv]. split; [apply I|].
  intros r q again slot Hr Hp Hc. destruct (fi_waiting _ I _ _ _ _ Hr Hp) as [?|Hk]; [done|].
  by destruct (fi_owner _ I _ _ Hk) as (_ & _ & ?).
Qed.

(** ** Progress and termination *)

Definition rank (q : Req) : nat :=
  match rphase q with
  | PLookup => 7 | PAcquire false => 6 | PWaiting false _ => 5 | PAcquire true => 4 | PWaiting true _ => 3
  | PRunning _ => 2 | PStored _ => 1 | PDone _ => 0
  end.

Definition totalRank (m : gmap nat Req) : nat := map_fold (fun _ q n => rank q + n)%nat 0%nat m.

Lemma totalRank_insert (m : gmap nat Req) (r : nat) (q : Req) : m !! r = None -> totalRank (<[r := q]> m) = (rank q + totalRank m)%nat.
Proof. intros H. unfold totalRank. rewrite map_fold_insert_L; [done| |done]. intros. lia. Qed.

Lemma totalRank_move (m : gmap nat Req) (r : nat) (q : Req) (p : Phase) :
  m !! r = Some q -> (rank (setPhase p q) < rank q)%nat -> (totalRank (<[r := setPhase p q]> m) < totalRank m)%nat.
Proof.
  intros Hr Hlt. rewrite <- (insert_delete_id m r q Hr) at 2. rewrite <- insert_delete_eq.
  rewrite !totalRank_insert by apply lookup_delete_eq. lia.
Qed.

Lemma wrapStep_rank (l : WrapLabel) (s s' : WrapSys) :
  wrapStep removable l s = Some s' -> (totalRank (reqs s') < totalRank (reqs s))%nat.
Proof.
  unfold wrapStep. destruct (reqs s !! actor l) as [q|] eqn:Hq; [|done].
  assert (Hm : forall c f p, (rank (setPhase p q) < rank q)%nat -> (totalRank (reqs (move s (actor l) q c f p)) < totalRank (reqs s))%nat)
    by (intros; by apply totalRank_move).
  destruct l as [r now|r|r now|r|r|r resp now written|r|r]; destruct (rphase q) as [|again|again slot|owner|owner|served] eqn:Hp;
    try discriminate 1; cbv zeta.
  - destruct (getWithPolicy _ _ _ _ _) as [c [[e src]|]]; intros [= <-]; apply Hm; unfold rank; rewrite Hp; simpl; lia.
  - destruct (acquireInflight _ _) as [[f slot] []]; intros [= <-]; apply Hm; unfold rank; rewrite Hp; destruct again; simpl; lia.
  - case_bool_decide; [|done]. destruct (getWithPolicy _ _ _ _ _) as [c [[e src]|]]; intros [= <-]; apply Hm; unfold rank; rewrite Hp;
      destruct again; simpl; lia.
  - intros [= <-]. apply Hm. unfold rank. rewrite Hp. destruct again; simpl; lia.
  - intros [= <-]. apply Hm. unfold rank. rewrite Hp. destruct again; simpl; lia.
  - intros [= <-]. apply Hm. unfold rank. rewrite Hp. simpl. lia.
  - intros [= <-]. apply Hm. unfold rank. rewrite Hp. simpl. lia.
  - intros [= <-]. apply Hm. unfold rank. rewrite Hp. simpl. lia.
Qed.

Lemma totalRank_start (qs : gmap nat Req) : totalRank (setPhase PLookup <$> qs) = (7 * size qs)%nat.
Proof.
  induction qs as [|r q qs Hr IH] using map_ind; [by rewrite fmap_empty, map_size_empty|].
  rewrite fmap_insert, totalRank_insert, IH, map_size_insert_None by (rewrite ?lookup_fmap, ?Hr; done). simpl. lia.
Qed.

Lemma run_rank (ls : list WrapLabel) (s s' : WrapSys) :
  wrapRun removable ls s = Some s' -> (length ls + totalRank (reqs s') <= totalRank (reqs s))%nat.
Proof.
  revert s. induction ls as [|l ls IH]; intros s; [by intros [= <-]|]. cbn [wrapRun length].
  destruct (wrapStep removable l s) as [s1|] eqn:Hs; [|done]. intros H%IH. apply wrapStep_rank in Hs. lia.
Qed.

Definition finished (q : Req) : bool := match rphase q with PDone _ => true | _ => false end.

(** Steps that need neither a timeout nor a client that leaves. *)
Definition ordinary (l : WrapLabel) : bool := match l with WTimeout _ | WCancel _ => false | _ => true end.

Lemma holder_steps (s : WrapSys) (r : nat) (q : Req) :
  reqs s !! r = Some q -> holds q = true -> exists l, ordinary l = true /\ is_Some (wrapStep removable l s).
Proof.
  intros Hr Hh. unfold holds in Hh. destruct (rphase q) as [|again|again slot|[]|[]|served] eqn:Hp; try done.
  - exists (WPanic r). split; [done|]. unfold wrapStep. cbn [actor]. rewrite Hr, Hp. eauto.
  - exists (WRelease r). split; [done|]. unfold wrapStep. cbn [actor]. rewrite Hr, Hp. eauto.
Qed.

(** C39. Every request is answered: in any interleaving [n] requests take at most [7 n]
    steps in total (a request waits at most twice), and as long as one of them is not
    finished some step is possible that is neither a timeout nor a cancellation, once the
    upstream handlers return. *)
Theorem wrap_completes (ls : list WrapLabel) (c : Cache) (qs : gmap nat Req) (s : WrapSys) :
  wrapRun removable ls (wrapStart c qs) = Some s ->
  (length ls <= 7 * size qs)%nat /\
  forall r q, reqs s !! r = Some q -> finished q = false ->
    exists l, ordinary l = true /\ is_Some (wrapStep removable l s).
Proof.
  intros Hrun. split.
  { apply run_rank in Hrun. simpl in Hrun. rewrite totalRank_start in Hrun. lia. }
  apply wrapRun_inv in Hrun as I; [|apply start_inv]. intros r q Hr Hf.
  unfold finished in Hf. destruct (rphase q) as [|again|again slot|owner|owner|served] eqn:Hp; [| | | | |done].
  - exists (WLookup r 0). split; [done|]. unfold wrapStep. cbn [actor]. rewrite Hr, Hp.
    destruct (getWithPolicy _ _ _ _ _) as [c' [[e src]|]]; eauto.
  - exists (WAcquire r). split; [done|]. unfold wrapStep. cbn [actor]. rewrite Hr, Hp.
    destruct (acquireInflight _ _) as [[f slot] []]; eauto.
  - destruct (decide (slot ∈ closedSlots (wflight s))) as [Hc|Hc].
    + exists (WWake r 0). split; [done|]. unfold wrapStep. cbn [actor]. rewrite Hr, Hp. rewrite bool_decide_eq_true_2 by done.
      destruct (getWithPolicy _ _ _ _ _) as [c' [[e src]|]]; eauto.
    + destruct (fi_waiting _ I _ _ _ _ Hr Hp) as [?|Hk]; [done|].
      destruct (fi_owner _ I _ _ Hk) as (_ & _ & r' & q' & Hr' & Hh' & _). by eapply holder_steps.
  - exists (WPanic r). split; [done|]. unfold wrapStep. cbn [actor]. rewrite Hr, Hp. eauto.
  - exists (WRelease r). split; [done|]. unfold wrapStep. cbn [actor]. rewrite Hr, Hp. eauto.
Qed.
End Runs.

(** ** The prepared request *)

(** Caching is transparent to the handler and private by default: whatever the handler
    decides, the upstream handler is given the bytes of the original body; a lookup is only
    made for a request that may be cached and does not ask for a stream, and on a path whose
    answers are private only with the name of a resolved caller in the key. *)
Theorem wrapPrepare_safe Decode Marshal US UM (c : Cache) (r : Request) (body : list N) (fails : option nat) (caller : option string) :
  match wrapPrepare Decode Marshal US UM c r body fails caller with
  | Bypass body' _ => body' = body
  | Lookup key sessionKey policy body' =>
      body' = body /\ CacheableRequest r = true /\ requestBodyStreamEnabled US body = false /\
      policy = pathPolicyFor (canonicalRequestPath (URLPath r)) /\
      key = requestKey Decode Marshal r (default "" (TrimSpace <$> caller)) body (semanticKey c) policy /\
      (SharedAcrossCallers policy = false -> exists id, caller = Some id /\ TrimSpace id <> "")
  end.
Proof.
  unfold wrapPrepare. destruct (CacheableRequest r); cbn [negb]; [|done]. destruct (requestBodyTooLarge _ _); [done|].
  destruct fails as [n|]; [apply take_drop|]. unfold readRequestBody.
  assert (Hrest : forall rawBody, rawBody = body ->
    match (if requestBodyStreamEnabled US rawBody then Bypass rawBody (Some "stream_request")
      else let owner := match caller with Some id => TrimSpace id | None => "" end in
        if negb (SharedAcrossCallers (pathPolicyFor (canonicalRequestPath (URLPath r)))) && bool_decide (owner = "") then Bypass rawBody None
        else Lookup (requestKey Decode Marshal r owner rawBody (semanticKey c) (pathPolicyFor (canonicalRequestPath (URLPath r))))
               (if negb (SharedAcrossCallers (pathPolicyFor (canonicalRequestPath (URLPath r)))) && negb (bool_decide (owner = ""))
                then SessionKey UM (Sum256 (bytesOf owner)) rawBody else "") (pathPolicyFor (canonicalRequestPath (URLPath r))) rawBody) with
    | Bypass body' _ => body' = body
    | Lookup key sessionKey policy body' =>
        body' = body /\ true = true /\ requestBodyStreamEnabled US body = false /\
        policy = pathPolicyFor (canonicalRequestPath (URLPath r)) /\
        key = requestKey Decode Marshal r (default "" (TrimSpace <$> caller)) body (semanticKey c) policy /\
        (SharedAcrossCallers policy = false -> exists id, caller = Some id /\ TrimSpace id <> "")
    end).
  { intros rawBody ->. destruct (requestBodyStreamEnabled US body) eqn:Hs; [done|]. cbv zeta.
    destruct (SharedAcrossCallers _) eqn:Hsh; cbn [negb andb].
    - split_and!; [done..|by destruct caller|]. intros E. congruence.
    - case_bool_decide as Ho; [done|]. split_and!; [done..|by destruct caller|]. intros _. destruct caller as [id|]; [eauto|done]. }
  destruct (maxBody c <=? 0) eqn:Hm; [by apply Hrest|]. apply Z.leb_gt in Hm.
  destruct (maxBody c <? Z.of_nat (length (take (Z.to_nat (maxBody c + 1)) body))) eqn:Hbig; [apply take_drop|].
  apply Hrest. apply Z.ltb_ge in Hbig. rewrite length_take in Hbig. apply take_ge. lia.
Qed.

(** ** Instances *)

Definition demoReqs : gmap nat Req :=
  <[0%nat := {| rkey := demoKey; rsession := ""; rpolicy := noPolicy; rphase := PLookup |}]>
    {[ 1%nat := {| rkey := demoKey; rsession := ""; rpolicy := noPolicy; rphase := PLookup |} ]}.

Definition demoWrap : list WrapLabel :=
  [WLookup 0 10; WLookup 1 11; WAcquire 0; WAcquire 1; WReturn 0 (Ok demoEntry) 12 None].

Definition demoMid : WrapSys :=
  default (wrapStart demoCache ∅) (wrapRun (fun _ => true) demoWrap (wrapStart (New id ∅ demoOptions) demoReqs)).

Definition demoWaiter : Req := default {| rkey := ""; rsession := ""; rpolicy := noPolicy; rphase := PLookup |} (reqs demoMid !! 1%nat).

Lemma single_flight_witness :
  rphase demoWaiter = PWaiting false 0 /\ exists r q, reqs demoMid !! r = Some q /\ holds q = true /\ rkey q = rkey demoWaiter.
Proof.
  assert (wrapRun (fun _ => true) demoWrap (wrapStart (New id ∅ demoOptions) demoReqs) = Some demoMid) as H
    by (vm_compute; reflexivity).
  split; [vm_compute; reflexivity|].
  apply (proj2 (single_flight (fun _ => true) demoWrap (New id ∅ demoOptions) demoReqs demoMid H) 1%nat demoWaiter false 0%nat);
    [vm_compute; reflexivity|vm_compute; reflexivity|].
  refine (bool_decide_unpack _ _). vm_compute. exact I.
Defined.

Lemma wrap_completes_witness : exists l, ordinary l = true /\ is_Some (wrapStep (fun _ => true) l demoMid).
Proof.
  assert (wrapRun (fun _ => true) demoWrap (wrapStart (New id ∅ demoOptions) demoReqs) = Some demoMid) as H
    by (vm_compute; reflexivity).
  apply (proj2 (wrap_completes (fun _ => true) demoWrap (New id ∅ demoOptions) demoReqs demoMid H) 1%nat demoWaiter);
    vm_compute; reflexivity.
Defined.
