(* ===== verification/ResponseStore.v ===== *)
(** The state behind the Responses API: [response_store.go] and
    [previous_response.go] of [internal/httpapi/openai/responses].

    Four tables with deadlines, keyed by owner and id: responses, their inputs, their
    session keys and compacted histories.  The four Go structs differ in their payload
    only, so an entry is [stored V].  Shallow copies are equal to their originals here;
    the JSON copies of tool contracts go through the parameters [Marshal] and
    [Unmarshal].  [now] is the reading of the store's clock, [handle] the generated
    handle of a compaction. *)
From S2P Require Import Prelude GoString Json Affinity.
Local Open Scope Z_scope.

(** ** Data *)

Definition localCompactionHandlePrefix : string := "ds2api_compact_".
Definition minimumCompactionIdleTTL : Z := 24 * 3600 * second.

Record stored (V : Type) := { Owner : string; Payload : V; ExpiresAt : Z }.
Arguments Owner {V} _.
Arguments Payload {V} _.
Arguments ExpiresAt {V} _.

(** The fields of [storedInput] and [storedCompaction] besides owner and deadline. *)
Record inputState := { Messages : list json; Tools : option json; HasTools : bool; ToolChoice : option json; HasToolChoice : bool }.

Definition storedResponse := stored (list (string * json)).
Definition storedInput := stored inputState.
Definition storedSession := stored string.
Definition storedCompaction := stored inputState.

Record responseStore := {
  rttl : Z; compactionTTL : Z;
  ritems : gmap string storedResponse;
  inputs : gmap string storedInput;
  rsessions : gmap string storedSession;
  compactions : gmap string storedCompaction
}.

Definition maxDuration (a b : Z) : Z := if b <? a then a else b.

Definition newResponseStore (t : Z) : responseStore :=
  let ttl := if t <=? 0 then 15 * 60 * second else t in
  {| rttl := ttl; compactionTTL := maxDuration ttl minimumCompactionIdleTTL; ritems := ∅; inputs := ∅; rsessions := ∅; compactions := ∅ |}.

(** [owner + "\x00" + id] *)
Definition responseStoreKey (owner id : string) : string := owner +:+ String (Ascii.ascii_of_N 0) id.

(** ** Expiry *)

Definition liveAt {V} (now : Z) (m : gmap string (stored V)) : gmap string (stored V) :=
  filter (fun kv => negb (ExpiresAt kv.2 <? now) = true) m.

Definition sweepLocked (now : Z) (s : responseStore) : responseStore :=
  {| rttl := rttl s; compactionTTL := compactionTTL s; ritems := liveAt now (ritems s); inputs := liveAt now (inputs s);
     rsessions := liveAt now (rsessions s); compactions := liveAt now (compactions s) |}.

(** The entry of a key, if it belongs to the owner. *)
Definition ownedBy {V} (owner id : string) (m : gmap string (stored V)) : option (stored V) :=
  match m !! responseStoreKey owner id with
  | Some item => if bool_decide (Owner item = owner) then Some item else None
  | None => None
  end.

(** ** Operations *)

Definition withItems (s : responseStore) m : responseStore :=
  {| rttl := rttl s; compactionTTL := compactionTTL s; ritems := m; inputs := inputs s; rsessions := rsessions s; compactions := compactions s |}.
Definition withInputs (s : responseStore) m : responseStore :=
  {| rttl := rttl s; compactionTTL := compactionTTL s; ritems := ritems s; inputs := m; rsessions := rsessions s; compactions := compactions s |}.
Definition withSessions (s : responseStore) m : responseStore :=
  {| rttl := rttl s; compactionTTL := compactionTTL s; ritems := ritems s; inputs := inputs s; rsessions := m; compactions := compactions s |}.
Definition withCompactions (s : responseStore) m : responseStore :=
  {| rttl := rttl s; compactionTTL := compactionTTL s; ritems := ritems s; inputs := inputs s; rsessions := rsessions s; compactions := m |}.

Definition isEmpty (s : string) : bool := bool_decide (s = "").

(** [value]: [None] is the nil map. *)
Definition put (now : Z) (owner id : string) (value : option (list (string * json))) (s0 : responseStore) : responseStore :=
  match value with
  | None => s0
  | Some v =>
      if isEmpty owner || isEmpty id then s0
      else let s := sweepLocked now s0 in
           withItems s (<[responseStoreKey owner id := {| Owner := owner; Payload := v; ExpiresAt := now + rttl s |}]> (ritems s))
  end.

Definition get (now : Z) (owner id : string) (s0 : responseStore) : responseStore * option (list (string * json)) :=
  if isEmpty owner || isEmpty id then (s0, None)
  else let s := sweepLocked now s0 in (s, Payload <$> ownedBy owner id (ritems s)).

Definition putSessionKey (now : Z) (owner id sessionKey : string) (s0 : responseStore) : responseStore :=
  if isEmpty owner || isEmpty id || isEmpty (TrimSpace sessionKey) then s0
  else let s := sweepLocked now s0 in
       withSessions s (<[responseStoreKey owner id := {| Owner := owner; Payload := TrimSpace sessionKey; ExpiresAt := now + rttl s |}]> (rsessions s)).

Definition getSessionKey (now : Z) (owner id : string) (s0 : responseStore) : responseStore * option string :=
  if isEmpty owner || isEmpty id then (s0, None)
  else let s := sweepLocked now s0 in
       (s, match ownedBy owner id (rsessions s) with
           | Some item => if isEmpty (TrimSpace (Payload item)) then None else Some (Payload item)
           | None => None
           end).

Section Copies.
Variable Marshal : json -> option string.
Variable Unmarshal : string -> option json.

Definition cloneAnyValue (v : option json) : option json :=
  match v with
  | None => None
  | Some v => match Marshal v with
              | None => Some v
              | Some raw => match Unmarshal raw with None => Some v | Some out => Some out end
              end
  end.

Definition cloneState (x : inputState) : inputState :=
  {| Messages := Messages x; Tools := cloneAnyValue (Tools x); HasTools := HasTools x;
     ToolChoice := cloneAnyValue (ToolChoice x); HasToolChoice := HasToolChoice x |}.

Definition putInputState (now : Z) (owner id : string) (x : inputState) (s0 : responseStore) : responseStore :=
  if isEmpty owner || isEmpty id || bool_decide (length (Messages x) = 0%nat) then s0
  else let s := sweepLocked now s0 in
       withInputs s (<[responseStoreKey owner id := {| Owner := owner; Payload := cloneState x; ExpiresAt := now + rttl s |}]> (inputs s)).

Definition getInputState (now : Z) (owner id : string) (s0 : responseStore) : responseStore * option inputState :=
  if isEmpty owner || isEmpty id then (s0, None)
  else let s := sweepLocked now s0 in (s, (fun item => cloneState (Payload item)) <$> ownedBy owner id (inputs s)).

Definition putCompactionState (now : Z) (owner handle : string) (x : inputState) (s0 : responseStore) : responseStore * string :=
  if isEmpty owner || bool_decide (length (Messages x) = 0%nat) then (s0, "")
  else let s := sweepLocked now s0 in
       (withCompactions s (<[responseStoreKey owner handle :=
          {| Owner := owner; Payload := cloneState x; ExpiresAt := now + compactionTTL s |}]> (compactions s)), handle).

Definition getCompactionState (now : Z) (owner handle : string) (s0 : responseStore) : responseStore * option inputState :=
  if isEmpty owner || negb (HasPrefix handle localCompactionHandlePrefix) then (s0, None)
  else let s := sweepLocked now s0 in
       match ownedBy owner handle (compactions s) with
       | None => (s, None)
       | Some item =>
           (withCompactions s (<[responseStoreKey owner handle :=
              {| Owner := Owner item; Payload := Payload item; ExpiresAt := now + compactionTTL s |}]> (compactions s)),
            Some (cloneState (Payload item)))
       end.

(** ** Following up on a response *)

Definition fieldPresent (k : string) (req : list (string * json)) : bool := match member k req with Some _ => true | None => false end.

(** [req[k] = v] for an absent key; a nil value is JSON null. *)
Definition addField (k : string) (v : option json) (req : list (string * json)) : list (string * json) := req ++ [(k, default JNull v)].

Definition inheritOne (k : string) (has : bool) (v : option json) (req : list (string * json)) : list (string * json) :=
  if has && negb (fieldPresent k req) then addField k (cloneAnyValue v) req else req.

Definition inheritStoredToolContract (req : list (string * json)) (x : inputState) : list (string * json) :=
  inheritOne "tool_choice" (HasToolChoice x) (ToolChoice x) (inheritOne "tools" (HasTools x) (Tools x) req).

(** [req[k] = v], in place when the key is there. *)
Fixpoint setField (k : string) (v : json) (req : list (string * json)) : list (string * json) :=
  match req with
  | [] => [(k, v)]
  | (k', v') :: req => if bool_decide (k' = k) then (k, v) :: req else (k', v') :: setField k v req
  end.

Definition dropField (k : string) (req : list (string * json)) : list (string * json) := filter (fun kv => kv.1 <> k) req.

Inductive previousError := NotFound (id : string) | NothingToReconstruct (id : string).

Section Merge.
(** The translators of [internal/promptcompat]. *)
Variable NormalizeResponsesInputAsMessages : list json -> list json.
Variable ResponsesMessagesFromRequest : list (string * json) -> list json.

(** [now], [now']: the two readings of the clock. *)
Definition mergePreviousResponseInput (now now' : Z) (owner : string) (req : list (string * json)) (s : responseStore)
  : responseStore * result previousError (list (string * json)) :=
  let previousID := TrimSpace (asString (member "previous_response_id" req)) in
  if isEmpty previousID then (s, Ok req)
  else match getInputState now owner previousID s with
  | (s, None) => (s, Err (NotFound previousID))
  | (s, Some previousState) =>
      match get now' owner previousID s with
      | (s, None) => (s, Err (NotFound previousID))
      | (s, Some previousResponse) =>
          let req := inheritStoredToolContract req previousState in
          let visible := match isArray (member "output" previousResponse) with
                         | Some output => NormalizeResponsesInputAsMessages output
                         | None => []
                         end in
          let combined := Messages previousState ++ visible ++ ResponsesMessagesFromRequest req in
          match combined with
          | [] => (s, Err (NothingToReconstruct previousID))
          | _ => (s, Ok (dropField "messages" (setField "input" (JArr combined) req)))
          end
      end
  end.
End Merge.
End Copies.

(** ** Runs of the store *)

Inductive storeOp :=
| RPut (now : Z) (owner id : string) (value : option (list (string * json)))
| RGet (now : Z) (owner id : string)
| RPutInput (now : Z) (owner id : string) (x : inputState)
| RGetInput (now : Z) (owner id : string)
| RPutSession (now : Z) (owner id key : string)
| RGetSession (now : Z) (owner id : string)
| RPutCompaction (now : Z) (owner handle : string) (x : inputState)
| RGetCompaction (now : Z) (owner handle : string).

Section Runs.
Variable Marshal : json -> option string.
Variable Unmarshal : string -> option json.

Definition storeStep (op : storeOp) (s : responseStore) : responseStore :=
  match op with
  | RPut now owner id v => put now owner id v s
  | RGet now owner id => (get now owner id s).1
  | RPutInput now owner id x => putInputState Marshal Unmarshal now owner id x s
  | RGetInput now owner id => (getInputState Marshal Unmarshal now owner id s).1
  | RPutSession now owner id key => putSessionKey now owner id key s
  | RGetSession now owner id => (getSessionKey now owner id s).1
  | RPutCompaction now owner handle x => (putCompactionState Marshal Unmarshal now owner handle x s).1
  | RGetCompaction now owner handle => (getCompactionState Marshal Unmarshal now owner handle s).1
  end.

Definition storeRun (ops : list storeOp) (s : responseStore) : responseStore := fold_left (fun s op => storeStep op s) ops s.

(** Every entry was put by its owner, under the id of its key, with its deadline. *)
Definition table {V} (m : gmap string (stored V)) (P : string -> string -> V -> Z -> Prop) : Prop :=
  forall k item, m !! k = Some item -> exists id, k = responseStoreKey (Owner item) id /\ P (Owner item) id (Payload item) (ExpiresAt item).

Record provenance (ops : list storeOp) (ttl cttl : Z) (s : responseStore) : Prop := {
  pv_ttl : rttl s = ttl /\ compactionTTL s = cttl;
  pv_items : table (ritems s) (fun owner id v d => exists now, RPut now owner id (Some v) ∈ ops /\ d = now + ttl);
  pv_inputs : table (inputs s) (fun owner id x d => exists now x0, RPutInput now owner id x0 ∈ ops /\
                x = cloneState Marshal Unmarshal x0 /\ d = now + ttl);
  pv_sessions : table (rsessions s) (fun owner id key d => exists now key0, RPutSession now owner id key0 ∈ ops /\
                  key = TrimSpace key0 /\ d = now + ttl);
  pv_compactions : table (compactions s) (fun owner id x d => exists now x0, RPutCompaction now owner id x0 ∈ ops /\
                     x = cloneState Marshal Unmarshal x0)
}.

Lemma table_sub {V} (m m' : gmap string (stored V)) (P : string -> string -> V -> Z -> Prop) : m' ⊆ m -> table m P -> table m' P.
Proof. intros Hs H k item Hk. apply H. by eapply lookup_weaken. Qed.

Lemma table_weaken {V} (m : gmap string (stored V)) (P P' : string -> string -> V -> Z -> Prop) :
  (forall o i v d, P o i v d -> P' o i v d) -> table m P -> table m P'.
Proof. intros HP H k item (id & ? & ?)%H. eauto. Qed.

Lemma table_insert {V} (m : gmap string (stored V)) (P : string -> string -> V -> Z -> Prop) (owner id : string) (v : V) (d : Z) :
  table m P -> P owner id v d -> table (<[responseStoreKey owner id := {| Owner := owner; Payload := v; ExpiresAt := d |}]> m) P.
Proof. intros H HP k item [[<- <-]|[_ Hk]]%lookup_insert_Some; [eauto|by apply H]. Qed.

Lemma liveAt_sub {V} (now : Z) (m : gmap string (stored V)) : liveAt now m ⊆ m.
Proof. apply map_filter_subseteq. Qed.

Lemma provenance_sweep (ops : list storeOp) (ttl cttl now : Z) (s : responseStore) :
  provenance ops ttl cttl s -> provenance ops ttl cttl (sweepLocked now s).
Proof. intros [H0 H1 H2 H3 H4]. split; simpl; [done|..]; (eapply table_sub; [apply liveAt_sub|done]). Qed.

Lemma provenance_mono (ops ops' : list storeOp) (ttl cttl : Z) (s : responseStore) :
  (forall op, op ∈ ops -> op ∈ ops') -> provenance ops ttl cttl s -> provenance ops' ttl cttl s.
Proof. intros Hin [H0 H1 H2 H3 H4]. split; [done|..]; (eapply table_weaken; [|eassumption]); naive_solver. Qed.

Lemma responseStoreKey_inj (owner id id' : string) : responseStoreKey owner id = responseStoreKey owner id' -> id = id'.
Proof. unfold responseStoreKey. induction owner as [|c owner IH]; simpl; intros [=]; auto. Qed.

Lemma ownedBy_Some {V} (owner id : string) (m : gmap string (stored V)) (item : stored V) :
  ownedBy owner id m = Some item -> m !! responseStoreKey owner id = Some item /\ Owner item = owner.
Proof. unfold ownedBy. destruct (m !! _) as [it|]; [|done]. case_bool_decide; [|done]. intros [= <-]. done. Qed.

Lemma table_owned {V} (owner id : string) (m : gmap string (stored V)) (P : string -> string -> V -> Z -> Prop) (item : stored V) :
  table m P -> ownedBy owner id m = Some item -> P owner id (Payload item) (ExpiresAt item).
Proof.
  intros H [Hk <-]%ownedBy_Some. destruct (H _ _ Hk) as (id' & E & HP). apply responseStoreKey_inj in E as <-. done.
Qed.

Lemma storeStep_provenance (op : storeOp) (ops : list storeOp) (ttl cttl : Z) (s : responseStore) :
  op ∈ ops -> provenance ops ttl cttl s -> provenance ops ttl cttl (storeStep op s).
Proof.
  intros Hop P. pose proof P as [[E1 E2] _ _ _ _].
  destruct op as [now o i v|now o i|now o i x|now o i|now o i k|now o i|now o i x|now o i]; cbn [storeStep].
  - unfold put. destruct v as [v|]; [|done]. destruct (_ || _); [done|].
    pose proof (provenance_sweep _ _ _ now _ P) as [S0 S1 S2 S3 S4]. split; simpl; try done. apply table_insert; [done|]. rewrite E1. eauto.
  - unfold get. destruct (_ || _); [done|]. by apply provenance_sweep.
  - unfold putInputState. destruct (_ || _); [done|].
    pose proof (provenance_sweep _ _ _ now _ P) as [S0 S1 S2 S3 S4]. split; simpl; try done. apply table_insert; [done|]. rewrite E1. eauto 6.
  - unfold getInputState. destruct (_ || _); [done|]. by apply provenance_sweep.
  - unfold putSessionKey. destruct (_ || _); [done|].
    pose proof (provenance_sweep _ _ _ now _ P) as [S0 S1 S2 S3 S4]. split; simpl; try done. apply table_insert; [done|]. rewrite E1. eauto 6.
  - unfold getSessionKey. destruct (_ || _); [done|]. by apply provenance_sweep.
  - unfold putCompactionState. destruct (_ || _); [done|].
    pose proof (provenance_sweep _ _ _ now _ P) as [S0 S1 S2 S3 S4]. split; simpl; try done. apply table_insert; [done|]. eauto 6.
  - unfold getCompactionState. destruct (_ || _); [done|].
    pose proof (provenance_sweep _ _ _ now _ P) as [S0 S1 S2 S3 S4]. destruct (ownedBy _ _ _) as [item|] eqn:Ho; [|done].
    pose proof (table_owned _ _ _ _ _ S4 Ho) as HP. apply ownedBy_Some in Ho as [_ Hown].
    split; simpl; try done. rewrite Hown. by apply table_insert.
Qed.

Lemma storeRun_provenance (ops : list storeOp) (t : Z) :
  provenance ops (rttl (newResponseStore t)) (compactionTTL (newResponseStore t)) (storeRun ops (newResponseStore t)).
Proof.
  assert (H : forall done s, (forall op, op ∈ done -> op ∈ ops) ->
    provenance ops (rttl (newResponseStore t)) (compactionTTL (newResponseStore t)) s ->
    provenance ops (rttl (newResponseStore t)) (compactionTTL (newResponseStore t)) (storeRun done s)).
  { induction done as [|op rest IH]; intros s Hin P; [exact P|]. unfold storeRun in *. cbn [fold_left].
    apply IH; [set_solver|]. apply storeStep_provenance; [set_solver|done]. }
  apply H; [done|]. split; [done|..]; intros k item Hk; simpl in Hk; by rewrite lookup_empty in Hk.
Qed.

Lemma liveAt_lookup {V} (now : Z) (m : gmap string (stored V)) (k : string) (item : stored V) :
  liveAt now m !! k = Some item <-> m !! k = Some item /\ now <= ExpiresAt item.
Proof. unfold liveAt. rewrite map_lookup_filter_Some. simpl. rewrite negb_true_iff, Z.ltb_ge. done. Qed.

(** Stored state belongs to its owner: after any run of operations, whatever a lookup
    returns to an owner was put by that same owner under that same id and has not expired,
    for all four tables and for any owner and id strings, even if two pairs share a key. *)
Theorem responses_isolated (ops : list storeOp) (t now : Z) (owner id : string) :
  let s := storeRun ops (newResponseStore t) in
  (forall s' v, get now owner id s = (s', Some v) ->
     exists t0, RPut t0 owner id (Some v) ∈ ops /\ now <= t0 + rttl s) /\
  (forall s' x, getInputState Marshal Unmarshal now owner id s = (s', Some x) ->
     exists t0 x0, RPutInput t0 owner id x0 ∈ ops /\ now <= t0 + rttl s /\ Messages x = Messages x0) /\
  (forall s' k, getSessionKey now owner id s = (s', Some k) ->
     exists t0 k0, RPutSession t0 owner id k0 ∈ ops /\ now <= t0 + rttl s /\ k = TrimSpace k0) /\
  (forall s' x, getCompactionState Marshal Unmarshal now owner id s = (s', Some x) ->
     exists t0 x0, RPutCompaction t0 owner id x0 ∈ ops /\ Messages x = Messages x0).
Proof.
  intros s. pose proof (storeRun_provenance ops t) as P. fold s in P. pose proof P as [[E1 E2] _ _ _ _]. rewrite <- E1 in P.
  pose proof (provenance_sweep _ _ _ now _ P) as [_ S1 S2 S3 S4]. split_and!.
  - intros s' v. unfold get. destruct (_ || _); [done|]. destruct (ownedBy _ _ _) as [item|] eqn:Ho; [|done]. intros [= _ <-].
    destruct (table_owned _ _ _ _ _ S1 Ho) as (t0 & ? & E). apply ownedBy_Some in Ho as [[_ ?]%liveAt_lookup _]. exists t0. split; [done|lia].
  - intros s' x. unfold getInputState. destruct (_ || _); [done|]. destruct (ownedBy _ _ _) as [item|] eqn:Ho; [|done]. intros [= _ <-].
    destruct (table_owned _ _ _ _ _ S2 Ho) as (t0 & x0 & ? & Ex & E). apply ownedBy_Some in Ho as [[_ ?]%liveAt_lookup _].
    exists t0, x0. split_and!; [done|lia|]. by rewrite Ex.
  - intros s' k. unfold getSessionKey. destruct (_ || _); [done|]. destruct (ownedBy _ _ _) as [item|] eqn:Ho; [|done].
    destruct (isEmpty _); [done|]. intros [= _ <-].
    destruct (table_owned _ _ _ _ _ S3 Ho) as (t0 & k0 & ? & Ek & E). apply ownedBy_Some in Ho as [[_ ?]%liveAt_lookup _].
    exists t0, k0. split_and!; [done|lia|done].
  - intros s' x. unfold getCompactionState. destruct (_ || _); [done|]. destruct (ownedBy _ _ _) as [item|] eqn:Ho; [|done].
    intros [= _ <-]. destruct (table_owned _ _ _ _ _ S4 Ho) as (t0 & x0 & ? & Ex). exists t0, x0. split; [done|]. by rewrite Ex.
Qed.

(** ** Lifetimes *)

Lemma ownedBy_put {V} (owner id : string) (m : gmap string (stored V)) (v : V) (d : Z) :
  ownedBy owner id (<[responseStoreKey owner id := {| Owner := owner; Payload := v; ExpiresAt := d |}]> m) =
  Some {| Owner := owner; Payload := v; ExpiresAt := d |}.
Proof. unfold ownedBy. by rewrite lookup_insert_eq, bool_decide_eq_true_2. Qed.

Lemma ownedBy_live {V} (now : Z) (owner id : string) (m : gmap string (stored V)) (item : stored V) :
  ownedBy owner id m = Some item -> now <= ExpiresAt item -> ownedBy owner id (liveAt now m) = Some item.
Proof.
  intros [Hk Ho]%ownedBy_Some Hd. unfold ownedBy. rewrite (proj2 (liveAt_lookup now m _ item)) by done.
  by rewrite bool_decide_eq_true_2.
Qed.

Lemma isEmpty_false (s : string) : s <> "" -> isEmpty s = false.
Proof. apply bool_decide_eq_false_2. Qed.

(** The handle stays usable while it is used: one access keeps it for another period. *)
Lemma compaction_access (now : Z) (owner handle : string) (item : storedCompaction) (s : responseStore) :
  owner <> "" -> HasPrefix handle localCompactionHandlePrefix = true ->
  ownedBy owner handle (compactions s) = Some item -> now <= ExpiresAt item ->
  let r := getCompactionState Marshal Unmarshal now owner handle s in
  r.2 = Some (cloneState Marshal Unmarshal (Payload item)) /\ compactionTTL r.1 = compactionTTL s /\
  ownedBy owner handle (compactions r.1) = Some {| Owner := owner; Payload := Payload item; ExpiresAt := now + compactionTTL s |}.
Proof.
  intros Ho Hp Hi Hd. unfold getCompactionState. rewrite isEmpty_false, Hp by done. cbn [orb negb].
  cbv zeta. change (compactions (sweepLocked now s)) with (liveAt now (compactions s)).
  rewrite (ownedBy_live now owner handle (compactions s) item Hi Hd). pose proof (ownedBy_Some _ _ _ _ Hi) as [_ E].
  split_and!; [done|done|]. simpl. rewrite E. apply ownedBy_put.
Qed.

Fixpoint accesses (owner handle : string) (times : list Z) (s : responseStore) : responseStore * list (option inputState) :=
  match times with
  | [] => (s, [])
  | now :: times =>
      let '(s, r) := getCompactionState Marshal Unmarshal now owner handle s in
      let '(s, rs) := accesses owner handle times s in (s, r :: rs)
  end.

(** Each access at most [ttl] after the one before. *)
Fixpoint gapsWithin (ttl start : Z) (times : list Z) : Prop :=
  match times with [] => True | now :: times => now <= start + ttl /\ gapsWithin ttl now times end.

(** A compacted history does not vanish under a client that uses it: once stored it is
    returned with the same messages by every access, as long as no two accesses are further
    apart than the idle period, which is at least a day whatever lifetime is configured. *)
Theorem compaction_kept_alive (t now : Z) (owner handle : string) (x : inputState) (times : list Z) (ops : list storeOp) :
  owner <> "" -> HasPrefix handle localCompactionHandlePrefix = true -> Messages x <> [] ->
  let s0 := storeRun ops (newResponseStore t) in
  gapsWithin (compactionTTL s0) now times ->
  minimumCompactionIdleTTL <= compactionTTL s0 /\
  Forall (fun r => exists y, r = Some y /\ Messages y = Messages x)
    (accesses owner handle times (putCompactionState Marshal Unmarshal now owner handle x s0).1).2.
Proof.
  intros Ho Hp Hx s0 Hg. pose proof (storeRun_provenance ops t) as [[_ E] _ _ _ _]. split.
  { unfold s0. rewrite E. unfold newResponseStore, maxDuration. simpl. destruct (_ <? _) eqn:H; [apply Z.ltb_lt in H|]; lia. }
  unfold putCompactionState. rewrite isEmpty_false, bool_decide_eq_false_2 by (done || by destruct (Messages x)). cbn [orb fst].
  set (s1 := withCompactions _ _).
  assert (H1 : exists item, ownedBy owner handle (compactions s1) = Some item /\ Messages (Payload item) = Messages x /\
                 ExpiresAt item = now + compactionTTL s0).
  { eexists. split; [simpl; apply ownedBy_put|]. done. }
  assert (Hc : compactionTTL s1 = compactionTTL s0) by done. clearbody s1.
  revert now s1 Hg H1 Hc. induction times as [|t1 times IH]; intros now s1 Hg H1 Hc; [constructor|].
  destruct Hg as [Hle Hg], H1 as (item & Hi & Hm & Hd). cbn [accesses].
  destruct (compaction_access t1 owner handle item s1 Ho Hp Hi) as (R1 & R2 & R3); [lia|].
  destruct (getCompactionState _ _ _ _ _ _) as [s2 r]. simpl in R1, R2, R3. subst r.
  specialize (IH t1 s2 Hg). destruct (accesses owner handle times s2) as [s3 rs] eqn:Ha. simpl in *.
  constructor; [eexists; split; [done|exact Hm]|]. apply IH; [|congruence].
  eexists. split; [exact R3|]. simpl. split; [done|]. by rewrite Hc.
Qed.
End Runs.

(** ** Follow-up requests *)

Lemma member_setField (k k' : string) (v : json) (req : list (string * json)) :
  member k' (setField k v req) = if bool_decide (k' = k) then Some v else member k' req.
Proof.
  induction req as [|[k1 v1] req IH]; simpl; [done|]. destruct (decide (k1 = k)) as [->|E1].
  - rewrite (bool_decide_eq_true_2 (k = k)) by done. simpl. by case_bool_decide.
  - rewrite (bool_decide_eq_false_2 (k1 = k)) by done. simpl. rewrite IH. repeat case_bool_decide; congruence.
Qed.

Lemma member_dropField (k k' : string) (req : list (string * json)) :
  member k' (dropField k req) = if bool_decide (k' = k) then None else member k' req.
Proof.
  induction req as [|[k1 v1] req IH]; [by case_bool_decide|]. unfold dropField in *. rewrite filter_cons. cbn [fst].
  destruct (decide (k1 = k)) as [->|Hk]; [rewrite decide_False by (intros H; by apply H)|rewrite decide_True by done];
    cbn [member]; rewrite IH; repeat case_bool_decide; congruence.
Qed.

Lemma member_app (k : string) (a b : list (string * json)) :
  member k (a ++ b) = match member k a with Some v => Some v | None => member k b end.
Proof. induction a as [|[k1 v1] a IH]; simpl; [done|]. by case_bool_decide. Qed.

Section Follow.
Variable Marshal : json -> option string.
Variable Unmarshal : string -> option json.
Variable NormalizeItems : list json -> list json.
Variable RequestMessages : list (string * json) -> list json.

Lemma member_inheritOne (k k' : string) (has : bool) (v : option json) (req : list (string * json)) :
  member k' (inheritOne Marshal Unmarshal k has v req) =
  if bool_decide (k' = k) && has && negb (fieldPresent k req) then Some (default JNull (cloneAnyValue Marshal Unmarshal v)) else member k' req.
Proof.
  unfold inheritOne, addField. destruct has; cbn [andb]; [|by rewrite andb_false_r].
  rewrite andb_true_r. unfold fieldPresent. destruct (member k req) as [w|] eqn:E; cbn [negb]; [by rewrite andb_false_r|].
  rewrite andb_true_r, member_app. simpl. case_bool_decide; [subst; by rewrite E|]. by destruct (member k' req).
Qed.

(** A follow-up request continues the conversation it names: within the lifetime of
    the stored response, [previous_response_id] is replaced by an input that consists of
    the stored messages, the visible output and the new messages, in this order; the tools
    are the request's own if it names any, otherwise those of the stored request. *)
Theorem follow_up_continues (t1 t2 t3 t4 : Z) (owner id : string) (x : inputState) (resp req : list (string * json)) (s : responseStore) :
  owner <> "" -> id <> "" -> Messages x <> [] -> TrimSpace (asString (member "previous_response_id" req)) = id ->
  t2 <= t1 + rttl s -> t3 <= t1 + rttl s -> t3 <= t2 + rttl s -> t4 <= t2 + rttl s ->
  let s2 := put t2 owner id (Some resp) (putInputState Marshal Unmarshal t1 owner id x s) in
  let x' := cloneState Marshal Unmarshal (cloneState Marshal Unmarshal x) in
  exists s3 req', mergePreviousResponseInput Marshal Unmarshal NormalizeItems RequestMessages t3 t4 owner req s2 = (s3, Ok req') /\
    member "input" req' = Some (JArr (Messages x
      ++ match isArray (member "output" resp) with Some output => NormalizeItems output | None => [] end
      ++ RequestMessages (inheritStoredToolContract Marshal Unmarshal req x'))) /\
    member "messages" req' = None /\
    member "tools" req' = (if HasTools x && negb (fieldPresent "tools" req)
                           then Some (default JNull (cloneAnyValue Marshal Unmarshal (Tools x'))) else member "tools" req) /\
    (forall k, k ∉ ["input"; "messages"; "tools"; "tool_choice"] -> member k req' = member k req).
Proof.
  intros Ho Hid Hx Hprev H2 H3 H3' H4 s2 x'. unfold mergePreviousResponseInput. rewrite Hprev. rewrite (isEmpty_false id) by done.
  pose proof (isEmpty_false _ Ho) as Eo. pose proof (isEmpty_false _ Hid) as Ei.
  assert (Em : bool_decide (length (Messages x) = 0%nat) = false) by (apply bool_decide_eq_false_2; by destruct (Messages x)).
  assert (Hs2 : s2 = withItems (sweepLocked t2 (putInputState Marshal Unmarshal t1 owner id x s))
    (<[responseStoreKey owner id := {| Owner := owner; Payload := resp; ExpiresAt := t2 + rttl s |}]>
       (liveAt t2 (liveAt t1 (ritems s))))).
  { unfold s2, put, putInputState. rewrite Eo, Ei, Em. done. }
  assert (Hin : getInputState Marshal Unmarshal t3 owner id s2 = (sweepLocked t3 s2, Some x')).
  { unfold getInputState. rewrite Eo, Ei. cbn [orb]. f_equal. rewrite Hs2. unfold putInputState. rewrite Eo, Ei, Em. cbn [orb].
    change (inputs (sweepLocked t3 _)) with (liveAt t3 (liveAt t2 (<[responseStoreKey owner id :=
      {| Owner := owner; Payload := cloneState Marshal Unmarshal x; ExpiresAt := t1 + rttl s |}]> (liveAt t1 (inputs s))))).
    rewrite (ownedBy_live t3 owner id _ _ (ownedBy_live t2 owner id _ _ (ownedBy_put _ _ _ _ _) H2) H3). done. }
  assert (Hget : get t4 owner id (sweepLocked t3 s2) = (sweepLocked t4 (sweepLocked t3 s2), Some resp)).
  { unfold get. rewrite Eo, Ei. cbn [orb]. f_equal. rewrite Hs2.
    change (ritems (sweepLocked t4 _)) with (liveAt t4 (liveAt t3 (<[responseStoreKey owner id :=
      {| Owner := owner; Payload := resp; ExpiresAt := t2 + rttl s |}]> (liveAt t2 (liveAt t1 (ritems s)))))).
    rewrite (ownedBy_live t4 owner id _ _ (ownedBy_live t3 owner id _ _ (ownedBy_put _ _ _ _ _) H3') H4). done. }
  rewrite Hin, Hget. cbv zeta. change (Messages x') with (Messages x).
  set (combined := Messages x ++ _). assert (Hc : combined <> []) by (unfold combined; by destruct (Messages x)).
  destruct combined as [|m ms] eqn:Ec; [done|]. unfold combined in Ec. clear combined. eexists _, _. split; [reflexivity|].
  assert (Hm : forall k, k <> "input" -> k <> "messages" ->
    member k (dropField "messages" (setField "input" (JArr (m :: ms)) (inheritStoredToolContract Marshal Unmarshal req x'))) =
    member k (inheritStoredToolContract Marshal Unmarshal req x')).
  { intros k ? ?. by rewrite member_dropField, member_setField, !bool_decide_eq_false_2. }
  split_and!.
  - rewrite member_dropField, member_setField. simpl. by rewrite <- Ec.
  - by rewrite member_dropField.
  - rewrite Hm by done. unfold inheritStoredToolContract. by rewrite !member_inheritOne.
  - intros k Hk. rewrite Hm by set_solver. unfold inheritStoredToolContract. rewrite !member_inheritOne.
    rewrite !bool_decide_eq_false_2 by set_solver. done.
Qed.
End Follow.

(** ** Instances *)

Definition demoState : inputState := {| Messages := [JStr "hi"]; Tools := Some (JArr []); HasTools := true; ToolChoice := None; HasToolChoice := false |}.
Definition demoResponse : list (string * json) := [("output", JArr [JStr "hello"])].
Definition demoFollow : list (string * json) := [("previous_response_id", JStr "resp_1"); ("messages", JArr [JStr "more"])].
Definition noCopy (v : json) : option string := None.
Definition noParse (v : string) : option json := None.
Definition demoMessages (req : list (string * json)) : list json := default [] (isArray (member "messages" req)).

Lemma compaction_kept_alive_witness :
  Forall (fun r => exists y, r = Some y /\ Messages y = [JStr "hi"])
    (accesses noCopy noParse "caller" "ds2api_compact_1" [1000; 2000; 2000 + 20 * 3600 * second]
      (putCompactionState noCopy noParse 10 "caller" "ds2api_compact_1" demoState (newResponseStore 0)).1).2.
Proof.
  refine (proj2 (compaction_kept_alive noCopy noParse 0 10 "caller" "ds2api_compact_1" demoState [1000; 2000; 2000 + 20 * 3600 * second] []
    _ _ _ _)); [discriminate|vm_compute; reflexivity|discriminate|].
  vm_compute. repeat split; discriminate.
Defined.

Lemma follow_up_continues_witness :
  exists s3 req', mergePreviousResponseInput noCopy noParse id demoMessages 30 40 "caller" demoFollow
      (put 20 "caller" "resp_1" (Some demoResponse) (putInputState noCopy noParse 10 "caller" "resp_1" demoState (newResponseStore 0))) = (s3, Ok req') /\
    member "input" req' = Some (JArr [JStr "hi"; JStr "hello"; JStr "more"]).
Proof.
  destruct (follow_up_continues noCopy noParse id demoMessages 10 20 30 40 "caller" "resp_1" demoState demoResponse demoFollow (newResponseStore 0))
    as (s3 & req' & H1 & H2 & _);
    [discriminate|discriminate|discriminate|vm_compute; reflexivity|vm_compute; discriminate..|].
  exists s3, req'. split; [exact H1|exact H2].
Defined.
