(* ===== verification/NetIp.v ===== *)
(** Internet addresses as the sources use them: [net.ParseIP], [IP.String],
    [IP.Equal], [net.ParseCIDR], [IPNet.Contains] and [net.SplitHostPort].

    An address is its 128-bit value; an IPv4 address is the one that is mapped into
    IPv6, as in the 16-byte form of [net.IP], so that [IP.Equal] is equality. *)
From S2P Require Import Prelude GoString GoText.
From Stdlib Require Import Ascii.
Local Open Scope N_scope.

Definition IP := N.

(** [ip.To4() != nil] *)
Definition is4 (ip : IP) : bool := N.shiftr ip 32 =? 0xffff.
Definition of4 (v : N) : IP := N.shiftl 0xffff 32 + v.
Definition to4 (ip : IP) : N := N.land ip 0xffffffff.

(** ** Parsing *)

(** The digits of a number and the rest. *)
Fixpoint spanBytes (f : ascii -> bool) (s : string) : string * string :=
  match s with
  | String c r => if f c then let '(a, b) := spanBytes f r in (String c a, b) else ("", s)
  | EmptyString => ("", "")
  end.

Fixpoint decimal (s : string) (acc : N) : N :=
  match s with EmptyString => acc | String c s => decimal s (acc * 10 + (code c - 48)) end.

(** One field of a dotted address: no leading zero, at most 255. *)
Definition octet (s : string) : option N :=
  if negb (allBytes isDigit s) || bool_decide (s = "") then None
  else if (1 <? N.of_nat (String.length s)) && HasPrefix s "0" then None
  else let v := decimal s 0 in if v <=? 255 then Some v else None.

Definition parse4 (s : string) : option N :=
  match octet <$> SplitByte "." s with
  | [Some a; Some b; Some c; Some d] => Some (((a * 256 + b) * 256 + c) * 256 + d)
  | _ => None
  end.

Definition isHex (c : ascii) : bool :=
  isDigit c || ((97 <=? code c) && (code c <=? 102)) || ((65 <=? code c) && (code c <=? 70)).
Definition hexVal (c : ascii) : N := if isDigit c then code c - 48 else if 97 <=? code c then code c - 87 else code c - 55.
Fixpoint hexadecimal (s : string) (acc : N) : N :=
  match s with EmptyString => acc | String c s => hexadecimal s (acc * 16 + hexVal c) end.

(** The groups read so far, where the ellipsis was, and whether the text was used up. *)
Fixpoint groups6 (fuel : nat) (s : string) (groups : list N) (ellipsis : option nat) : option (list N * option nat) :=
  match fuel with
  | O => None
  | S fuel =>
      let '(digits, rest) := spanBytes isHex s in
      if bool_decide (digits = "") || (4 <? N.of_nat (String.length digits)) then None
      else match rest with
      | String "." _ =>
          let i := length groups in
          if (match ellipsis with None => negb (i =? 6)%nat | Some _ => false end) || (8 <? N.of_nat (i + 2)) then None
          else match parse4 s with
               | Some v => Some (groups ++ [N.shiftr v 16; N.land v 0xffff], ellipsis)
               | None => None
               end
      | EmptyString => Some (groups ++ [hexadecimal digits 0], ellipsis)
      | String ":" rest =>
          let groups := groups ++ [hexadecimal digits 0] in
          match rest with
          | EmptyString => None
          | String ":" rest =>
              match ellipsis with
              | Some _ => None
              | None =>
                  match rest with
                  | EmptyString => Some (groups, Some (length groups))
                  | _ => if (length groups =? 8)%nat then None else groups6 fuel rest groups (Some (length groups))
                  end
              end
          | _ => if (length groups =? 8)%nat then None else groups6 fuel rest groups ellipsis
          end
      | _ => None
      end
  end.

Definition joinGroups (groups : list N) : N := fold_left (fun acc g => acc * 65536 + g) groups 0.

Definition expand6 (groups : list N) (ellipsis : option nat) : option IP :=
  match ellipsis with
  | None => if (length groups =? 8)%nat then Some (joinGroups groups) else None
  | Some k => if (length groups <? 8)%nat
              then Some (joinGroups (take k groups ++ replicate (8 - length groups) 0 ++ drop k groups)) else None
  end.

Definition parse6 (s : string) : option IP :=
  if HasPrefix s "::" then
    let s := strDrop 2 s in
    if bool_decide (s = "") then Some 0
    else match groups6 (S (String.length s)) s [] (Some 0%nat) with
         | Some (g, e) => expand6 g e
         | None => None
         end
  else match groups6 (S (String.length s)) s [] None with
       | Some (g, e) => expand6 g e
       | None => None
       end.

(** The first of the bytes that tell the two forms apart. *)
Fixpoint firstOf (s : string) : option ascii :=
  match s with
  | EmptyString => None
  | String c s => if bool_decide (c ∈ ["."; ":"; "%"]%char) then Some c else firstOf s
  end.

(** [net.ParseIP]; an address with a zone is refused, its ["%"] is not a digit. *)
Definition ParseIP (s : string) : option IP :=
  match firstOf s with
  | Some "."%char => of4 <$> parse4 s
  | Some ":"%char => parse6 s
  | _ => None
  end.

(** ** Printing *)

Definition byteOf (v : N) (i : N) : N := N.land (N.shiftr v (8 * i)) 255.

Definition string4 (v : N) : string :=
  pretty (byteOf v 3) +:+ "." +:+ pretty (byteOf v 2) +:+ "." +:+ pretty (byteOf v 1) +:+ "." +:+ pretty (byteOf v 0).

Definition hexDigitOf (d : N) : ascii := ascii_of_N (if d <? 10 then 48 + d else 87 + d).

(** Hexadecimal without leading zeros. *)
Definition hexString (g : N) : string :=
  let digits := [N.shiftr g 12; N.land (N.shiftr g 8) 15; N.land (N.shiftr g 4) 15; N.land g 15] in
  let fix strip l := match l with [] => [] | [d] => [d] | d :: l => if d =? 0 then strip l else d :: l end in
  fold_right (fun d s => String (hexDigitOf d) s) "" (strip digits).

Definition groupsOf (ip : IP) : list N := (fun i => N.land (N.shiftr ip (16 * (7 - N.of_nat i))) 0xffff) <$> seq 0 8.

Fixpoint zeroRun (l : list N) : nat := match l with 0 :: l => S (zeroRun l) | _ => O end.

(** The first longest run of at least two zero groups. *)
Fixpoint bestRun (l : list N) (i : nat) (best : nat * nat) : nat * nat :=
  match l with
  | [] => best
  | _ :: l' => let n := zeroRun l in bestRun l' (S i) (if ((1 <? n) && (snd best <? n))%nat then (i, n) else best)
  end.

Definition string6 (ip : IP) : string :=
  let groups := groupsOf ip in
  let '(at_, n) := bestRun groups 0 (0, 0)%nat in
  if (n =? 0)%nat then Join (hexString <$> groups) ":"
  else Join (hexString <$> take at_ groups) ":" +:+ "::" +:+ Join (hexString <$> drop (at_ + n) groups) ":".

Definition IPString (ip : IP) : string := if is4 ip then string4 (to4 ip) else string6 ip.

(** ** Networks *)

(** The masked address, the prefix length and the width of the mask. *)
Record IPNet := { network : IP; ones : N; maskBits : N }.

Definition maskTop (v ones width : N) : N := N.shiftl (N.shiftr v (width - ones)) (width - ones).

Definition ParseCIDR (s : string) : option IPNet :=
  match SplitByte "/" s with
  | addr :: m :: ms =>
      let mask := Join (m :: ms) "/" in
      match ParseIP addr with
      | None => None
      | Some ip =>
          let v4 := match firstOf addr with Some "."%char => true | _ => false end in
          let width := if v4 then 32 else 128 in
          if bool_decide (mask = "") || negb (allBytes isDigit mask) then None
          else let n := decimal mask 0 in
               if width <? n then None
               else Some {| network := if v4 then of4 (maskTop (to4 ip) n 32) else maskTop ip n 128; ones := n; maskBits := width |}
      end
  | _ => None
  end.

(** The mask applies to the last four bytes when the network is an IPv4 one. *)
Definition netContains (n : IPNet) (ip : IP) : bool :=
  if is4 (network n)
  then is4 ip &&
       (let bits := if maskBits n =? 32 then ones n else ones n - 96 in maskTop (to4 ip) bits 32 =? maskTop (to4 (network n)) bits 32)
  else negb (is4 ip) && (maskTop ip (ones n) 128 =? maskTop (network n) (ones n) 128).

(** ** Hosts and ports *)

Fixpoint lastIndexByte (c : ascii) (s : string) (i : nat) (found : option nat) : option nat :=
  match s with
  | EmptyString => found
  | String a s => lastIndexByte c s (S i) (if bool_decide (a = c) then Some i else found)
  end.

Definition hasByte (c : ascii) (s : string) : bool := match lastIndexByte c s 0 None with Some _ => true | None => false end.

(** [net.SplitHostPort]: [None] is an error. *)
Definition SplitHostPort (s : string) : option (string * string) :=
  match lastIndexByte ":" s 0 None with
  | None => None
  | Some i =>
      let port := strDrop (S i) s in
      let check host j k := if hasByte "[" (strDrop j s) || hasByte "]" (strDrop k s) then None else Some (host, port) in
      if HasPrefix s "["
      then match Index s "]" with
           | None => None
           | Some e => if (S e =? i)%nat then check (strTake (e - 1) (strDrop 1 s)) 1%nat (S e) else None
           end
      else let host := strTake i s in if hasByte ":" host then None else check host 0%nat 0%nat
  end.

(** [strings.Trim(s, "[]")] *)
Definition isBracket (c : ascii) : bool := bool_decide (c ∈ ["["; "]"]%char).
Definition trimBrackets (s : string) : string :=
  let left := (spanBytes isBracket s).2 in strRev (spanBytes isBracket (strRev left)).2.

(** ** Examples *)

Example ip_examples :
  (IPString <$> ParseIP "192.0.2.17") = Some "192.0.2.17" /\
  (IPString <$> ParseIP "::ffff:192.0.2.17") = Some "192.0.2.17" /\
  (IPString <$> ParseIP "2001:DB8:0:0:1::1") = Some "2001:db8::1:0:0:1" /\
  (IPString <$> ParseIP "2001:db8:0:0:1:0:0:1") = Some "2001:db8::1:0:0:1" /\
  (IPString <$> ParseIP "::1") = Some "::1" /\ (IPString <$> ParseIP "::") = Some "::" /\
  (IPString <$> ParseIP "fe80::") = Some "fe80::" /\
  ParseIP "1.2.3" = None /\ ParseIP "01.2.3.4" = None /\ ParseIP "256.1.1.1" = None /\ ParseIP "1::2::3" = None /\
  ParseIP "fe80::1%eth0" = None /\ ParseIP "" = None /\ ParseIP "1:2:3:4:5:6:7:8:9" = None.
Proof. vm_compute. repeat split. Qed.

Example cidr_examples :
  let within c a := match ParseCIDR c, ParseIP a with Some n, Some ip => netContains n ip | _, _ => false end in
  within "127.0.0.0/8" "127.3.2.1" = true /\ within "127.0.0.0/8" "128.0.0.1" = false /\ within "::1/128" "::1" = true /\
  within "::/0" "1.2.3.4" = false /\ within "0.0.0.0/0" "1.2.3.4" = true /\ within "::ffff:0:0/96" "1.2.3.4" = true /\
  within "10.1.2.3/16" "10.1.9.9" = true /\ within "10.0.0.0/33" "10.0.0.1" = false.
Proof. vm_compute. repeat split. Qed.

Example host_examples :
  SplitHostPort "1.2.3.4:80" = Some ("1.2.3.4", "80") /\ SplitHostPort "[::1]:80" = Some ("::1", "80") /\
  SplitHostPort "::1" = None /\ SplitHostPort "1.2.3.4" = None /\ trimBrackets "[::1]" = "::1".
Proof. vm_compute. repeat split. Qed.

(** ** Round trip of IPv4 addresses *)

Lemma octet_pretty (n : N) : n < 256 -> octet (pretty n) = Some n.
Proof.
  intros Hn. assert (H : forallb (fun k => bool_decide (octet (pretty (N.of_nat k)) = Some (N.of_nat k))) (seq 0 256) = true)
    by (vm_compute; reflexivity).
  rewrite forallb_forall in H. specialize (H (N.to_nat n)). rewrite N2Nat.id in H.
  specialize (H ltac:(apply in_seq; lia)). apply bool_decide_eq_true_1 in H. exact H.
Qed.

Lemma pretty_plain (n : N) : n < 256 -> allBytes isDigit (pretty n) = true /\ pretty n <> "".
Proof.
  intros Hn. assert (H : forallb (fun k => bool_decide (allBytes isDigit (pretty (N.of_nat k)) = true /\ pretty (N.of_nat k) <> "")) (seq 0 256) = true)
    by (vm_compute; reflexivity).
  rewrite forallb_forall in H. specialize (H (N.to_nat n)). rewrite N2Nat.id in H.
  specialize (H ltac:(apply in_seq; lia)). apply bool_decide_eq_true_1 in H. exact H.
Qed.

(** Splitting at the dot after a run of digits. *)
Lemma SplitByte_digits (s t : string) : allBytes isDigit s = true -> SplitByte "." (s +:+ "." +:+ t) = s :: SplitByte "." t.
Proof.
  induction s as [|c s IH]; intros H; [done|]. simpl in H. apply andb_true_iff in H as [Hc Hs].
  change (String c s +:+ "." +:+ t) with (String c (s +:+ "." +:+ t)). cbn [SplitByte].
  rewrite bool_decide_eq_false_2 by (intros ->; vm_compute in Hc; discriminate). by rewrite (IH Hs).
Qed.

Lemma SplitByte_last (s : string) : allBytes isDigit s = true -> SplitByte "." s = [s].
Proof.
  induction s as [|c s IH]; intros H; [done|]. simpl in H. apply andb_true_iff in H as [Hc Hs]. cbn [SplitByte].
  rewrite bool_decide_eq_false_2 by (intros ->; vm_compute in Hc; discriminate). by rewrite (IH Hs).
Qed.

Lemma firstOf_digits (s t : string) : allBytes isDigit s = true -> firstOf (s +:+ "." +:+ t) = Some "."%char.
Proof.
  induction s as [|c s IH]; intros H; [done|]. simpl in H. apply andb_true_iff in H as [Hc Hs].
  change (String c s +:+ "." +:+ t) with (String c (s +:+ "." +:+ t)). cbn [firstOf].
  rewrite bool_decide_eq_false_2; [by apply IH|]. intros Hin. repeat (apply elem_of_cons in Hin as [->|Hin]; [vm_compute in Hc; discriminate|]).
  by apply elem_of_nil in Hin.
Qed.

Lemma byteOf_lt (v i : N) : byteOf v i < 256.
Proof. unfold byteOf. change 255 with (N.ones 8). rewrite N.land_ones. apply N.mod_lt. done. Qed.

Lemma bytes_value (v : N) : v < 2 ^ 32 -> ((byteOf v 3 * 256 + byteOf v 2) * 256 + byteOf v 1) * 256 + byteOf v 0 = v.
Proof.
  intros Hv. unfold byteOf. change 255 with (N.ones 8). rewrite !N.land_ones, !N.shiftr_div_pow2.
  change (2 ^ (8 * 0)) with 1. change (2 ^ (8 * 1)) with 256. change (2 ^ (8 * 2)) with 65536. change (2 ^ (8 * 3)) with 16777216.
  change (2 ^ 8) with 256. rewrite N.div_1_r.
  rewrite (N.mod_small (v / 16777216)) by (apply N.Div0.div_lt_upper_bound; lia).
  assert (forall x, x = 256 * (x / 256) + x mod 256) as Hd by (intros; apply N.div_mod'; done).
  pose proof (Hd v) as D1. pose proof (Hd (v / 256)) as D2. pose proof (Hd (v / 65536)) as D3.
  rewrite N.Div0.div_div in D2 by done. rewrite N.Div0.div_div in D3 by done. change (256 * 256) with 65536 in D2. change (65536 * 256) with 16777216 in D3. lia.
Qed.

Lemma string4_parse (v : N) : v < 2 ^ 32 -> parse4 (string4 v) = Some v.
Proof.
  intros Hv. unfold parse4, string4.
  rewrite !SplitByte_digits, SplitByte_last by (apply pretty_plain, byteOf_lt).
  rewrite !fmap_cons, fmap_nil, !octet_pretty by apply byteOf_lt. cbv beta iota. by rewrite bytes_value.
Qed.

Lemma to4_of4 (v : N) : v < 2 ^ 32 -> to4 (of4 v) = v /\ is4 (of4 v) = true.
Proof.
  intros Hv. unfold to4, of4, is4. change 0xffffffff with (N.ones 32). rewrite N.land_ones, N.shiftr_div_pow2, N.shiftl_mul_pow2. split.
  - rewrite N.add_comm, N.Div0.mod_add. by apply N.mod_small.
  - rewrite N.add_comm, N.div_add by done. rewrite N.div_small by done. done.
Qed.

(** Printing and parsing an IPv4 address gives it back. *)
Lemma ParseIP_IPString (v : N) : v < 2 ^ 32 -> ParseIP (IPString (of4 v)) = Some (of4 v).
Proof.
  intros Hv. destruct (to4_of4 v Hv) as [E1 E2]. unfold IPString. rewrite E2, E1. unfold ParseIP.
  assert (firstOf (string4 v) = Some "."%char) as -> by (apply firstOf_digits, pretty_plain, byteOf_lt).
  by rewrite string4_parse.
Qed.
