(* ===== verification/RequestGuard.v ===== *)
(** The guard in front of every request: [internal/requestmeta/requestmeta.go] (who
    is calling) and [internal/requestguard/guard.go] (what is refused).

    The trusted networks, the policy cache and the table of offenders are explicit
    state; the SQLite lists are the lists that [Snapshot] and [AllowedIPs] return,
    [None] when the query fails, and [writeOK] says whether [AddBlockedIP] succeeds. *)
From S2P Require Import Prelude GoString GoText Affinity NetIp CacheKey.
From stdpp Require Import pretty countable.
From Stdlib Require Import Ascii.
Local Open Scope Z_scope.

(** ** The caller's address *)

Definition defaultTrustedProxyCIDRs : list string := ["127.0.0.0/8"; "::1/128"].

Definition parseTrustedNets (raw : list string) : list IPNet :=
  omap (fun c => match ParseCIDR (TrimSpace c) with
                 | Some n => if (ones n =? 0)%N then None else Some n
                 | None => None
                 end) raw.

Definition SetTrustedProxyCIDRs (cidrs : list string) : list IPNet :=
  match cidrs with [] => parseTrustedNets defaultTrustedProxyCIDRs | _ => parseTrustedNets cidrs end.

Definition isTrustedProxy (trusted : list IPNet) (ip : option IP) : bool :=
  match ip with None => false | Some ip => existsb (fun n => netContains n ip) trusted end.

Definition parsePeerIP (remoteAddr : string) : option IP :=
  let host := match SplitHostPort (TrimSpace remoteAddr) with Some (h, _) => h | None => TrimSpace remoteAddr end in
  ParseIP (trimBrackets host).

Definition cleanIP (r : string) : string :=
  let raw := TrimSpace r in
  if bool_decide (raw = "") then ""
  else let raw := match SplitHostPort raw with Some (host, _) => host | None => raw end in
       match ParseIP (trimBrackets raw) with None => "" | Some ip => IPString ip end.

(** The right-most hop that is not a trusted proxy, then the left-most hop. *)
Fixpoint untrustedHop (trusted : list IPNet) (hops : list string) : option string :=
  match hops with
  | [] => None
  | p :: hops =>
      let ip := cleanIP p in
      if bool_decide (ip = "") then untrustedHop trusted hops
      else match ParseIP ip with
           | None => untrustedHop trusted hops
           | Some parsed => if isTrustedProxy trusted (Some parsed) then untrustedHop trusted hops else Some ip
           end
  end.

Fixpoint firstHop (parts : list string) : option string :=
  match parts with
  | [] => None
  | p :: parts => let ip := cleanIP p in if bool_decide (ip = "") then firstHop parts else Some ip
  end.

Fixpoint forwardedFor (trusted : list IPNet) (values : list string) : option string :=
  match values with
  | [] => None
  | raw :: values =>
      let parts := SplitByte "," raw in
      match untrustedHop trusted (rev parts) with
      | Some ip => Some ip
      | None => match firstHop parts with Some ip => Some ip | None => forwardedFor trusted values end
      end
  end.

Fixpoint singleHeader (h : Header) (names : list string) : option string :=
  match names with
  | [] => None
  | name :: names =>
      let v := TrimSpace (HeaderGet h name) in
      if bool_decide (v = "") then singleHeader h names
      else let ip := cleanIP v in if bool_decide (ip = "") then singleHeader h names else Some ip
  end.

Definition ownAddress (remoteAddr : string) : string :=
  match parsePeerIP remoteAddr with Some ip => IPString ip | None => cleanIP remoteAddr end.

Definition ClientIP (trusted : list IPNet) (remoteAddr : string) (h : Header) : string :=
  if negb (isTrustedProxy trusted (parsePeerIP remoteAddr)) then ownAddress remoteAddr
  else match singleHeader h ["CF-Connecting-IP"; "X-Real-IP"] with
       | Some ip => ip
       | None => match forwardedFor trusted (HeaderValues h "X-Forwarded-For") with
                 | Some ip => ip
                 | None => ownAddress remoteAddr
                 end
       end.

(** ** The conversation *)

Definition ConversationIDHeaders : list string :=
  ["X-DeepSeek-Web-To-API-Conversation-ID"; "X-Ds2-Conversation-ID"; "X-Conversation-ID"; "Conversation-ID";
   "X-Codex-Conversation-ID"; "X-Codex-Session-ID"; "X-OpenCode-Conversation-ID"; "X-OpenCode-Session-ID";
   "OpenAI-Conversation-ID"; "Anthropic-Conversation-ID"; "X-OpenClaw-Session-Id"; "X-Client-Request-Id";
   "X-Session-Affinity"; "Session-Id"].

Definition conversationIDBodyKeys : list string :=
  ["conversation_id"; "conversationid"; "chat_id"; "chatid"; "thread_id"; "threadid"; "session_id"; "sessionid";
   "parent_id"; "parentid"; "openclaw_session_id"; "openclawsessionid"].

(** [strings.ReplaceAll] of one byte by another. *)
Fixpoint replaceByte (a b : ascii) (s : string) : string :=
  match s with EmptyString => "" | String c s => String (if bool_decide (c = a) then b else c) (replaceByte a b s) end.

Definition canonicalIDKey (key : string) : string := ToLower (replaceByte " " "_" (replaceByte "-" "_" (TrimSpace key))).

Definition printable (c : ascii) : bool := negb ((code c <? 32)%N || (code c =? 127)%N).

Definition normalizeIDString (s : string) : string :=
  let raw := TrimSpace s in
  if bool_decide (raw = "") || (256 <? String.length raw)%nat then ""
  else if allBytes printable raw then raw else "".

Definition normalizeID (v : keyJson) : string :=
  match v with KStr s => normalizeIDString s | KNumber n => normalizeIDString n | _ => "" end.

Fixpoint firstID (m : list (string * keyJson)) : string :=
  match m with
  | [] => ""
  | (key, item) :: m =>
      if bool_decide (canonicalIDKey key ∈ conversationIDBodyKeys)
      then let id := normalizeID item in if bool_decide (id = "") then firstID m else id
      else firstID m
  end.

(** [levels]: how much deeper the search may go; the members are visited in one order. *)
Fixpoint conversationIDFromJSON (levels : nat) (value : keyJson) : string :=
  match levels, value with
  | S levels, KObj v =>
      let id := firstID v in
      if negb (bool_decide (id = "")) then id
      else fold_left (fun found key =>
             if negb (bool_decide (found = "")) then found
             else match keyMember key v with Some nested => conversationIDFromJSON levels nested | None => "" end)
             ["metadata"; "conversation"; "session"; "thread"] ""
  | _, _ => ""
  end.

Fixpoint headerID (h : Header) (names : list string) : string :=
  match names with
  | [] => ""
  | name :: names => let id := normalizeIDString (HeaderGet h name) in if bool_decide (id = "") then headerID h names else id
  end.

(** [Decode]: one JSON value and nothing after it. *)
Definition ConversationID (Decode : list N -> option keyJson) (h : Header) (body : list N) : string :=
  let id := headerID h ConversationIDHeaders in
  if negb (bool_decide (id = "")) then id
  else match body with
       | [] => ""
       | _ => match Decode body with Some value => conversationIDFromJSON 4 value | None => "" end
       end.

Record Metadata := { MetaClientIP : string; MetaConversationID : string }.

(** ** The policy *)

Definition defaultBlockMessage : string := "request blocked by safety policy".

Record SafetyAutoBanConfig := { BanEnabled : option bool; Threshold : Z; WindowSeconds : Z }.

Record SafetyConfig := {
  SafetyEnabled : option bool; BlockMessage : string; BlockedIPs : list string; BlockedConversationIDs : list string;
  BannedContent : list string; BannedRegex : list string; JailbreakPatterns : list string; AutoBan : SafetyAutoBanConfig
}.

Inductive ipMatcher := MatchIP (raw : string) (ip : IP) | MatchNet (raw : string) (cidr : IPNet).

Record policy := { enabled : bool; blockMessage : string; blockedIPs : list ipMatcher; blockedConversationIDs : list string }.

Record decision := { blocked : bool; dcode : string; detail : string }.

Definition appendUnique (base extra : list string) : list string :=
  fold_left (fun out v => if bool_decide (v ∈ out) then out else out ++ [v]) extra base.

(** The two SQLite stores, [None] when they are not wired or fail. *)
Record SafetySnapshot := {
  wordsSnapshot : option (list string * list string * list string);
  ipsSnapshot : option (list string * list string * list string)
}.

Definition mergeSafetySources (cfg : SafetyConfig) (snap : SafetySnapshot) : SafetyConfig :=
  let cfg := match wordsSnapshot snap with
    | Some (content, regex, jail) =>
        {| SafetyEnabled := SafetyEnabled cfg; BlockMessage := BlockMessage cfg; BlockedIPs := BlockedIPs cfg;
           BlockedConversationIDs := BlockedConversationIDs cfg; BannedContent := appendUnique (BannedContent cfg) content;
           BannedRegex := appendUnique (BannedRegex cfg) regex; JailbreakPatterns := appendUnique (JailbreakPatterns cfg) jail;
           AutoBan := AutoBan cfg |}
    | None => cfg
    end in
  match ipsSnapshot snap with
  | Some (blockedList, _, blockedConv) =>
      {| SafetyEnabled := SafetyEnabled cfg; BlockMessage := BlockMessage cfg; BlockedIPs := appendUnique (BlockedIPs cfg) blockedList;
         BlockedConversationIDs := appendUnique (BlockedConversationIDs cfg) blockedConv; BannedContent := BannedContent cfg;
         BannedRegex := BannedRegex cfg; JailbreakPatterns := JailbreakPatterns cfg; AutoBan := AutoBan cfg |}
  | None => cfg
  end.

Definition parseIPMatcher (r : string) : option ipMatcher :=
  let raw := TrimSpace r in
  if bool_decide (raw = "") then None
  else match ParseIP raw with
       | Some ip => Some (MatchIP raw ip)
       | None => match ParseCIDR raw with Some n => Some (MatchNet raw n) | None => None end
       end.

Definition buildPolicy (cfg : SafetyConfig) : policy :=
  let on := default false (SafetyEnabled cfg) in
  let message := TrimSpace (BlockMessage cfg) in
  let message := if bool_decide (message = "") then defaultBlockMessage else message in
  if negb on then {| enabled := on; blockMessage := message; blockedIPs := []; blockedConversationIDs := [] |}
  else {| enabled := on; blockMessage := message; blockedIPs := omap parseIPMatcher (BlockedIPs cfg);
          blockedConversationIDs :=
            omap (fun id => let id := TrimSpace id in if bool_decide (id = "") then None else Some (ToLower id)) (BlockedConversationIDs cfg) |}.

Definition matches (ip : IP) (m : ipMatcher) : bool :=
  match m with MatchIP _ a => (a =? ip)%N | MatchNet _ n => netContains n ip end.

Definition ipBlocked (p : policy) (rawIP : string) : bool :=
  match ParseIP (TrimSpace rawIP) with None => false | Some ip => existsb (matches ip) (blockedIPs p) end.

Definition allowed : decision := {| blocked := false; dcode := ""; detail := "" |}.

Definition evaluate (p : policy) (meta : Metadata) : decision :=
  if negb (enabled p) then allowed
  else if ipBlocked p (MetaClientIP meta) then {| blocked := true; dcode := "ip_blocked"; detail := "request ip is blocked" |}
  else if negb (bool_decide (MetaConversationID meta = ""))
          && bool_decide (ToLower (MetaConversationID meta) ∈ blockedConversationIDs p)
  then {| blocked := true; dcode := "conversation_blocked"; detail := "conversation id is blocked" |}
  else allowed.

(** The cache of the compiled policy; [Sign] is the JSON text of the configuration. *)
Record policyCache := { signature : string; cached : policy }.

Definition emptyPolicy : policy := {| enabled := false; blockMessage := ""; blockedIPs := []; blockedConversationIDs := [] |}.
Definition newPolicyCache : policyCache := {| signature := ""; cached := emptyPolicy |}.

Definition load (Sign : SafetyConfig -> string) (cfg : SafetyConfig) (snap : SafetySnapshot) (c : policyCache) : policyCache * policy :=
  let cfg := mergeSafetySources cfg snap in
  if bool_decide (Sign cfg = signature c) then (c, cached c)
  else let p := buildPolicy cfg in ({| signature := Sign cfg; cached := p |}, p).

(** ** Repeated offenders *)

Definition maxOffenderRecords : nat := Z.to_nat 50000.

Record offenderRecord := { count : Z; firstSeen : Z; banned : bool }.

Record guardState := { offenders : gmap string offenderRecord; policies : policyCache; storedIPs : list string }.

Definition setOffenders (m : gmap string offenderRecord) (g : guardState) : guardState :=
  {| offenders := m; policies := policies g; storedIPs := storedIPs g |}.

Definition sweepOffenders (window now : Z) (m : gmap string offenderRecord) : gmap string offenderRecord :=
  filter (fun kv => banned kv.2 || (timeSub now (firstSeen kv.2) <=? window) = true) m.

Definition isAllowlisted (allowedIPs : option (list string)) (ip : string) : bool :=
  match allowedIPs, ParseIP (TrimSpace ip) with
  | Some allowedIPs, Some parsed =>
      existsb (fun r => let raw := TrimSpace r in
        negb (bool_decide (raw = "")) &&
        ((match ParseIP raw with Some literal => (literal =? parsed)%N | None => false end) ||
         (match ParseCIDR raw with Some n => netContains n parsed | None => false end))) allowedIPs
  | _, _ => false
  end.

Definition thresholdOf (cfg : SafetyAutoBanConfig) : Z := if Threshold cfg <=? 0 then 3 else Threshold cfg.
Definition windowOf (cfg : SafetyAutoBanConfig) : Z := i64 ((if WindowSeconds cfg <=? 0 then 600 else WindowSeconds cfg) * second).

(** One call of [note]; the calls of different requests are taken one after another. *)
Definition note (rawIP : string) (cfg : SafetyAutoBanConfig) (now : Z) (allowedIPs : option (list string)) (writeOK : bool)
  (g : guardState) : guardState * bool :=
  if negb (default true (BanEnabled cfg)) then (g, false)
  else
    let ip := TrimSpace rawIP in
    if bool_decide (ip = "") then (g, false)
    else
      let window := windowOf cfg in
      let m := if (maxOffenderRecords <? size (offenders g))%nat then sweepOffenders window now (offenders g) else offenders g in
      let fresh := (setOffenders (<[ip := {| count := 1; firstSeen := now; banned := false |}]> m) g, false) in
      match m !! ip with
      | None => fresh
      | Some rec =>
          if window <? timeSub now (firstSeen rec) then fresh
          else if banned rec then (setOffenders m g, false)
          else
            let rec := {| count := i64 (count rec + 1); firstSeen := firstSeen rec; banned := false |} in
            let g := setOffenders (<[ip := rec]> m) g in
            if negb (thresholdOf cfg <=? count rec) then (g, false)
            else if isAllowlisted allowedIPs ip then (g, false)
            else if negb writeOK then (g, false)
            else ({| offenders := <[ip := {| count := count rec; firstSeen := firstSeen rec; banned := true |}]> (offenders g);
                     policies := {| signature := ""; cached := cached (policies g) |};
                     storedIPs := appendUnique (storedIPs g) [ip] |}, true)
      end.

Definition shouldCountAutoBan (c : string) : bool :=
  bool_decide (c ∈ ["llm_safety_blocked"; "content_blocked"; "content_regex_blocked"; "jailbreak_blocked"]).

(** The middleware after the body was read: the new state, and the refusal if there is one. *)
Definition guardRequest (Sign : SafetyConfig -> string) (cfg : SafetyConfig) (snap : SafetySnapshot) (meta : Metadata) (now : Z)
  (allowedIPs : option (list string)) (writeOK : bool) (g : guardState) : guardState * option (decision * string) :=
  let '(cache, p) := load Sign cfg snap (policies g) in
  let g := {| offenders := offenders g; policies := cache; storedIPs := storedIPs g |} in
  let d := evaluate p meta in
  if blocked d
  then ((if shouldCountAutoBan (dcode d) then (note (MetaClientIP meta) (AutoBan cfg) now allowedIPs writeOK g).1 else g),
        Some (d, blockMessage p))
  else (g, None).

(** ** The body *)

Definition maxScanBodyBytes : Z := Z.shiftl 64 20.
Definition maxCollectedText : Z := Z.shiftl 512 10.

(** [hasBody]: neither nil nor [http.NoBody]. *)
Definition requestBodyShouldBeRead (r : Request) (hasBody : bool) : bool :=
  if negb hasBody then false
  else if HasPrefix (TrimSpace (URLPath r)) "/admin/" then false
  else if negb (bool_decide (Method r ∈ ["POST"; "PUT"; "PATCH"])) then false
  else
    let contentType := ToLower (TrimSpace (HeaderGet (ReqHeader r) "Content-Type")) in
    if HasPrefix contentType "multipart/" || HasPrefix contentType "application/octet-stream" then false
    else CacheableRequest r || Contains contentType "json" || Contains contentType "+json".

Inductive bodyError := ReadFailed | TooLarge.

(** [readErr]: reading failed.  The handler is given the bytes that are returned. *)
Definition readAndRestoreBody (body : list N) (readErr : bool) : result bodyError (list N) :=
  let rawBody := take (Z.to_nat (maxScanBodyBytes + 1)) body in
  if readErr then Err ReadFailed
  else if maxScanBodyBytes <? Z.of_nat (length rawBody) then Err TooLarge else Ok rawBody.

Definition textLen (s : string) : Z := Z.of_nat (String.length s).

Definition appendText (out t : string) : string :=
  let text := TrimSpace t in
  if bool_decide (text = "") || (maxCollectedText <=? textLen out) then out
  else
    let out := if 0 <? textLen out then out +:+ String (ascii_of_N 10) "" else out in
    let remaining := maxCollectedText - textLen out in
    out +:+ (if remaining <? textLen text then strTake (Z.to_nat remaining) text else text).

(** [levels]: how much deeper the walk may go, 13 from the root. *)
Fixpoint collectText (levels : nat) (value : keyJson) (out : string) : string :=
  match levels with
  | O => out
  | S levels =>
      if maxCollectedText <=? textLen out then out
      else match value with
           | KStr v => appendText out v
           | KObj v => fold_left (fun out kv => collectText levels kv.2 out) v out
           | KArr v => fold_left (fun out item => collectText levels item out) v out
           | _ => out
           end
  end.

Definition extractRequestText (DecodeFirst : list N -> option keyJson) (body : list N) : string :=
  match DecodeFirst body with None => stringOf body | Some value => collectText 13 value "" end.

Definition modelFromBody (Unmarshal : list N -> option (list (string * keyJson))) (body : list N) : string :=
  match Unmarshal body with
  | None => ""
  | Some obj => match keyMember "model" obj with Some (KStr m) => TrimSpace m | _ => "" end
  end.

(** ** What is refused *)

Lemma appendUnique_elem (base extra : list string) (v : string) : v ∈ appendUnique base extra <-> v ∈ base \/ v ∈ extra.
Proof.
  revert base. induction extra as [|e extra IH]; intros base; unfold appendUnique; cbn [fold_left]; [set_solver|].
  change (fold_left _ extra ?b) with (appendUnique b extra). rewrite IH. case_bool_decide; set_solver.
Qed.

Lemma merged_ips (cfg : SafetyConfig) (snap : SafetySnapshot) (v : string) :
  v ∈ BlockedIPs (mergeSafetySources cfg snap) <->
  v ∈ BlockedIPs cfg \/ match ipsSnapshot snap with Some (b, _, _) => v ∈ b | None => False end.
Proof.
  unfold mergeSafetySources. destruct (wordsSnapshot snap) as [[[? ?] ?]|]; destruct (ipsSnapshot snap) as [[[b ?] ?]|]; simpl;
    rewrite ?appendUnique_elem; tauto.
Qed.

(** The policy that the guard enforces: by address, or by conversation. *)
Definition listedIP (listed : list string) (ip : IP) : Prop :=
  exists raw, raw ∈ listed /\ TrimSpace raw <> "" /\
    (ParseIP (TrimSpace raw) = Some ip \/
     ParseIP (TrimSpace raw) = None /\ exists n, ParseCIDR (TrimSpace raw) = Some n /\ netContains n ip = true).

Definition listedConversation (listed : list string) (id : string) : Prop :=
  exists raw, raw ∈ listed /\ TrimSpace raw <> "" /\ ToLower (TrimSpace raw) = ToLower id.

Lemma elem_omap {A B} (f : A -> option B) (l : list A) (b : B) : b ∈ omap f l <-> exists a, a ∈ l /\ f a = Some b.
Proof. apply list_elem_of_omap. Qed.

Lemma ipBlocked_listed (cfg : SafetyConfig) (rawIP : string) :
  SafetyEnabled cfg = Some true ->
  (ipBlocked (buildPolicy cfg) rawIP = true <-> exists ip, ParseIP (TrimSpace rawIP) = Some ip /\ listedIP (BlockedIPs cfg) ip).
Proof.
  intros He. unfold buildPolicy, ipBlocked. rewrite He. cbn [default negb blockedIPs]. cbv zeta.
  destruct (ParseIP (TrimSpace rawIP)) as [ip|]; [|split; [done|by intros (? & ? & _)]].
  rewrite existsb_exists. split.
  - intros (m & [raw [Hin Hp]]%list_elem_of_In%elem_omap & Hm). exists ip. split; [done|]. exists raw. split; [done|].
    unfold parseIPMatcher in Hp. case_bool_decide; [done|]. split; [done|].
    destruct (ParseIP (TrimSpace raw)) as [a|]; [injection Hp as <-; left; simpl in Hm; apply N.eqb_eq in Hm; by rewrite Hm|].
    destruct (ParseCIDR (TrimSpace raw)) as [n|]; [|done]. injection Hp as <-. right. eauto.
  - intros (ip' & [= <-] & raw & Hin & Hne & Hm).
    destruct Hm as [Hm|(Hn & n & Hc & Hm)].
    + exists (MatchIP (TrimSpace raw) ip). split; [|apply N.eqb_refl]. apply list_elem_of_In, elem_omap. exists raw. split; [done|].
      unfold parseIPMatcher. rewrite bool_decide_eq_false_2 by done. by rewrite Hm.
    + exists (MatchNet (TrimSpace raw) n). split; [|done]. apply list_elem_of_In, elem_omap. exists raw. split; [done|].
      unfold parseIPMatcher. rewrite bool_decide_eq_false_2 by done. by rewrite Hn, Hc.
Qed.

Lemma conversation_listed (cfg : SafetyConfig) (id : string) :
  SafetyEnabled cfg = Some true ->
  (ToLower id ∈ blockedConversationIDs (buildPolicy cfg) <-> listedConversation (BlockedConversationIDs cfg) id).
Proof.
  intros He. unfold buildPolicy. rewrite He. change (blockedConversationIDs _) with (omap (fun id => let id := TrimSpace id in if bool_decide (id = "") then None else Some (ToLower id))
    (BlockedConversationIDs cfg)).
  rewrite elem_omap. unfold listedConversation.
  split; intros (raw & Hin & H); exists raw; (split; [done|]); cbv zeta in *.
  - case_bool_decide; [done|]. injection H as H. done.
  - destruct H as [Hne E]. rewrite bool_decide_eq_false_2 by done. by rewrite E.
Qed.

(** ** The policy cache *)

Section Cache.
Variable Sign : SafetyConfig -> string.
(** The JSON text of a configuration is not empty and determines it. *)
Hypothesis Sign_inj : forall a b, Sign a = Sign b -> a = b.
Hypothesis Sign_nonempty : forall a, Sign a <> "".

(** The cached policy is the one of the signed configuration. *)
Definition faithful (c : policyCache) : Prop := signature c = "" \/ exists cfg, signature c = Sign cfg /\ cached c = buildPolicy cfg.

Lemma load_faithful (cfg : SafetyConfig) (snap : SafetySnapshot) (c : policyCache) :
  faithful c -> faithful (load Sign cfg snap c).1 /\ (load Sign cfg snap c).2 = buildPolicy (mergeSafetySources cfg snap).
Proof.
  intros Hc. unfold load. case_bool_decide as E; simpl; [|split; [right; eauto|done]].
  destruct Hc as [Hc|(cfg' & Hs & Hp)]; [by rewrite Hc in E; apply Sign_nonempty in E|].
  rewrite Hs in E. apply Sign_inj in E as ->. split; [right; eauto|done].
Qed.

Lemma note_faithful (ip : string) (cfg : SafetyAutoBanConfig) (now : Z) al ok (g : guardState) :
  faithful (policies g) -> faithful (policies (note ip cfg now al ok g).1).
Proof.
  intros Hf. unfold note. destruct (negb _); [done|]. case_bool_decide; [done|]. cbv zeta.
  set (m := if (maxOffenderRecords <? size (offenders g))%nat then _ else _). destruct (m !! TrimSpace ip) as [rec|]; [|done].
  destruct (_ <? _); [done|]. destruct (banned rec); [done|]. destruct (negb (_ <=? _)); [done|].
  destruct (isAllowlisted _ _); [done|]. destruct (negb ok); [done|]. by left.
Qed.

Record guardCall := { gcfg : SafetyConfig; gsnap : SafetySnapshot; gmeta : Metadata; gnow : Z; gallowed : option (list string); gwrite : bool }.

Definition guardOne (g : guardState) (r : guardCall) : guardState * option (decision * string) :=
  guardRequest Sign (gcfg r) (gsnap r) (gmeta r) (gnow r) (gallowed r) (gwrite r) g.

Fixpoint guardRun (g : guardState) (rs : list guardCall) : guardState * list (option (decision * string)) :=
  match rs with
  | [] => (g, [])
  | r :: rs => let '(g, d) := guardOne g r in let '(g, ds) := guardRun g rs in (g, d :: ds)
  end.

(** What a guard without a cache would answer. *)
Definition reference (r : guardCall) : option (decision * string) :=
  let p := buildPolicy (mergeSafetySources (gcfg r) (gsnap r)) in
  let d := evaluate p (gmeta r) in if blocked d then Some (d, blockMessage p) else None.

Lemma guardOne_reference (g : guardState) (r : guardCall) :
  faithful (policies g) -> faithful (policies (guardOne g r).1) /\ (guardOne g r).2 = reference r.
Proof.
  intros Hf. unfold guardOne, guardRequest, reference. destruct (load_faithful (gcfg r) (gsnap r) _ Hf) as [H1 H2].
  destruct (load Sign (gcfg r) (gsnap r) (policies g)) as [c p]. simpl in H1, H2. subst p.
  destruct (blocked _); simpl; [|done]. split; [|done]. destruct (shouldCountAutoBan _); [|done]. by apply note_faithful.
Qed.

(** Caching the compiled policy is invisible: over any sequence of requests, with the
    configuration and the stored lists changing in between and bans being added, every
    request is judged exactly by the policy of the moment. *)
Theorem guard_cache_transparent (rs : list guardCall) (offs : gmap string offenderRecord) (ips : list string) :
  (guardRun {| offenders := offs; policies := newPolicyCache; storedIPs := ips |} rs).2 = reference <$> rs.
Proof.
  assert (H : forall rs g, faithful (policies g) -> (guardRun g rs).2 = reference <$> rs).
  { clear rs. intros rs; induction rs as [|r rs IH]; intros g Hf; [done|]. cbn [guardRun].
    destruct (guardOne_reference g r Hf) as [H1 H2]. destruct (guardOne g r) as [g1 d]. specialize (IH g1 H1).
    destruct (guardRun g1 rs) as [g2 ds]. simpl in *. by subst. }
  apply H. by left.
Qed.

(** The guard refuses exactly the listed sources: with the safety policy on, a request
    is refused if and only if its address equals a listed address or lies in a listed
    network, or its conversation id is listed, in the configuration or in the stored
    lists; refusals name which of the two it was. *)
Theorem guard_blocks_exactly (cfg : SafetyConfig) (snap : SafetySnapshot) (meta : Metadata) (now : Z) al ok (g : guardState) :
  faithful (policies g) -> SafetyEnabled cfg = Some true ->
  let merged := mergeSafetySources cfg snap in
  let byIP := exists ip, ParseIP (TrimSpace (MetaClientIP meta)) = Some ip /\ listedIP (BlockedIPs merged) ip in
  let byConversation := MetaConversationID meta <> "" /\ listedConversation (BlockedConversationIDs merged) (MetaConversationID meta) in
  (forall v, v ∈ BlockedIPs merged <-> v ∈ BlockedIPs cfg \/ match ipsSnapshot snap with Some (b, _, _) => v ∈ b | None => False end) /\
  match (guardRequest Sign cfg snap meta now al ok g).2 with
  | None => ~ byIP /\ ~ byConversation
  | Some (d, _) => dcode d = "ip_blocked" /\ byIP \/ dcode d = "conversation_blocked" /\ ~ byIP /\ byConversation
  end.
Proof.
  intros Hf He merged byIP byConversation. split; [intros v; apply merged_ips|].
  pose proof (guardOne_reference g {| gcfg := cfg; gsnap := snap; gmeta := meta; gnow := now; gallowed := al; gwrite := ok |} Hf) as [_ Href].
  unfold guardOne in Href. cbn [gcfg gsnap gmeta gnow gallowed gwrite] in Href. rewrite Href. unfold reference, evaluate.
  cbn [gcfg gsnap gmeta]. fold merged.
  assert (He' : SafetyEnabled merged = Some true).
  { unfold merged, mergeSafetySources. destruct (wordsSnapshot snap) as [[[? ?] ?]|], (ipsSnapshot snap) as [[[? ?] ?]|]; done. }
  assert (Hen : enabled (buildPolicy merged) = true) by (unfold buildPolicy; by rewrite He'). rewrite Hen. cbn [negb].
  pose proof (ipBlocked_listed merged (MetaClientIP meta) He') as Hip. fold byIP in Hip.
  destruct (ipBlocked (buildPolicy merged) (MetaClientIP meta)); cbn [blocked dcode]; [left; split; [done|by apply Hip]|].
  assert (Hno : ~ byIP) by (intros H; apply Hip in H; done).
  pose proof (conversation_listed merged (MetaConversationID meta) He') as Hcv.
  destruct (negb (bool_decide (MetaConversationID meta = "")) && _) eqn:Hc; cbn [blocked dcode allowed].
  - apply andb_true_iff in Hc as [H1%negb_true_iff%bool_decide_eq_false H2%bool_decide_eq_true]. right. split_and!; try done. by split; [|apply Hcv].
  - split; [done|]. intros [H1 H2]. rewrite bool_decide_eq_false_2 in Hc by done. cbn [negb andb] in Hc.
    apply bool_decide_eq_false in Hc. by apply Hc, Hcv.
Qed.

Lemma note_true (ip : string) (cfg : SafetyAutoBanConfig) (now : Z) al ok (g g' : guardState) :
  note ip cfg now al ok g = (g', true) ->
  signature (policies g') = "" /\ storedIPs g' = appendUnique (storedIPs g) [TrimSpace ip] /\ TrimSpace ip <> "" /\
  isAllowlisted al (TrimSpace ip) = false /\
  exists rec, offenders g !! TrimSpace ip = Some rec /\ banned rec = false /\ timeSub now (firstSeen rec) <= windowOf cfg /\
    thresholdOf cfg <= i64 (count rec + 1).
Proof.
  unfold note. destruct (negb _); [done|]. case_bool_decide as Hne; [done|]. cbv zeta.
  set (m := if (maxOffenderRecords <? size (offenders g))%nat then _ else _). destruct (m !! TrimSpace ip) as [rec|] eqn:Hm; [|done].
  destruct (_ <? timeSub _ _) eqn:Hw; [done|]. destruct (banned rec) eqn:Hb; [done|]. destruct (negb (_ <=? _)) eqn:Ht; [done|].
  destruct (isAllowlisted _ _) eqn:Ha; [done|]. destruct (negb ok); [done|]. intros [= <-]. simpl.
  apply negb_false_iff, Z.leb_le in Ht. apply Z.ltb_ge in Hw. split_and!; try done. exists rec. split_and!; try done.
  unfold m in Hm. destruct (_ <? _)%nat; [|done]. unfold sweepOffenders in Hm. by apply map_lookup_filter_Some in Hm as [? _].
Qed.

(** A ban takes effect at once: when a violation bans an address, the address is on the
    stored list, was not allow-listed, and the very next request from it is refused as
    blocked by address, even though the policy was cached. *)
Theorem ban_takes_effect (rawIP : string) (ip : IP) (bcfg : SafetyAutoBanConfig) (now later : Z) al al' ok ok' (g g' : guardState)
  (cfg : SafetyConfig) (words : option (list string * list string * list string)) (allowedList convs : list string) (meta : Metadata) :
  note rawIP bcfg now al ok g = (g', true) -> ParseIP (TrimSpace rawIP) = Some ip ->
  SafetyEnabled cfg = Some true -> MetaClientIP meta = TrimSpace rawIP ->
  isAllowlisted al (TrimSpace rawIP) = false /\
  exists d msg, (guardRequest Sign cfg {| wordsSnapshot := words; ipsSnapshot := Some (storedIPs g', allowedList, convs) |}
                   meta later al' ok' g').2 = Some (d, msg) /\ dcode d = "ip_blocked".
Proof.
  intros Hn Hip He Hmeta. destruct (note_true _ _ _ _ _ _ _ Hn) as (Hsig & Hst & Hne & Hal & _). split; [done|].
  set (snap := {| wordsSnapshot := words; ipsSnapshot := Some (storedIPs g', allowedList, convs) |}).
  pose proof (guardOne_reference g' {| gcfg := cfg; gsnap := snap; gmeta := meta; gnow := later; gallowed := al'; gwrite := ok' |} (or_introl Hsig)) as [_ Href].
  unfold guardOne in Href. cbn [gcfg gsnap gmeta gnow gallowed gwrite] in Href. rewrite Href. unfold reference, evaluate. cbn [gcfg gsnap gmeta].
  set (merged := mergeSafetySources cfg snap).
  assert (He' : SafetyEnabled merged = Some true).
  { unfold merged, mergeSafetySources. destruct (wordsSnapshot snap) as [[[? ?] ?]|], (ipsSnapshot snap) as [[[? ?] ?]|]; done. }
  assert (Hen : enabled (buildPolicy merged) = true) by (unfold buildPolicy; by rewrite He'). rewrite Hen. cbn [negb].
  assert (Hb : ipBlocked (buildPolicy merged) (MetaClientIP meta) = true).
  { apply ipBlocked_listed; [done|]. exists ip. rewrite Hmeta, TrimSpace_idem. split; [done|]. exists (TrimSpace rawIP).
    split_and!; [|by rewrite TrimSpace_idem|left; by rewrite TrimSpace_idem].
    apply merged_ips. right. simpl. rewrite Hst. apply appendUnique_elem. right. by apply list_elem_of_singleton. }
  rewrite Hb. cbn [blocked]. eauto.
Qed.
End Cache.

(** ** A signature that determines the configuration *)

(** A concrete signature with the two properties: the decimal code of the record. *)
Definition banTuple (b : SafetyAutoBanConfig) := (BanEnabled b, Threshold b, WindowSeconds b).
Definition safetyTuple (c : SafetyConfig) :=
  (SafetyEnabled c, BlockMessage c, BlockedIPs c, BlockedConversationIDs c, (BannedContent c, BannedRegex c, JailbreakPatterns c),
   banTuple (AutoBan c)).
Definition signConfig (c : SafetyConfig) : string := String "{" (pretty (Npos (encode (safetyTuple c)))).

Lemma signConfig_inj (a b : SafetyConfig) : signConfig a = signConfig b -> a = b.
Proof.
  unfold signConfig. intros [= H]. apply pretty_N_inj in H. injection H as H. apply encode_inj in H.
  destruct a as [? ? ? ? ? ? ? []], b as [? ? ? ? ? ? ? []]. unfold safetyTuple, banTuple in H. simpl in H. by simplify_eq.
Qed.

Lemma signConfig_nonempty (a : SafetyConfig) : signConfig a <> "".
Proof. done. Qed.

Definition demoBan : SafetyAutoBanConfig := {| BanEnabled := None; Threshold := 2; WindowSeconds := 60 |}.
Definition demoSafety : SafetyConfig :=
  {| SafetyEnabled := Some true; BlockMessage := ""; BlockedIPs := ["10.0.0.0/8"]; BlockedConversationIDs := [" Conv-1 "];
     BannedContent := []; BannedRegex := []; JailbreakPatterns := []; AutoBan := demoBan |}.
Definition demoSnap : SafetySnapshot := {| wordsSnapshot := None; ipsSnapshot := Some (["203.0.113.9"], [], []) |}.
Definition demoIP : IP := of4 0xcb007109.
Definition demoMeta : Metadata := {| MetaClientIP := "203.0.113.9"; MetaConversationID := "c" |}.
Definition demoGuard : guardState :=
  {| offenders := {["203.0.113.9" := {| count := 1; firstSeen := 0; banned := false |}]}; policies := newPolicyCache; storedIPs := [] |}.

Lemma guard_cache_transparent_witness :
  (guardRun signConfig {| offenders := ∅; policies := newPolicyCache; storedIPs := [] |}
     [{| gcfg := demoSafety; gsnap := demoSnap; gmeta := demoMeta; gnow := 0; gallowed := None; gwrite := true |}]).2 =
  reference <$> [{| gcfg := demoSafety; gsnap := demoSnap; gmeta := demoMeta; gnow := 0; gallowed := None; gwrite := true |}].
Proof. apply (guard_cache_transparent signConfig signConfig_inj signConfig_nonempty). Defined.

Lemma guard_blocks_exactly_witness :
  exists d m, (guardRequest signConfig demoSafety demoSnap demoMeta 0 None true demoGuard).2 = Some (d, m) /\ dcode d = "ip_blocked".
Proof.
  pose proof (guard_blocks_exactly signConfig signConfig_inj signConfig_nonempty demoSafety demoSnap demoMeta 0 None true demoGuard
    (or_introl eq_refl) eq_refl) as [_ H].
  destruct (guardRequest _ _ _ _ _ _ _ _).2 as [[d m]|].
  - exists d, m. split; [reflexivity|]. destruct H as [[H _]|(_ & H & _)]; [exact H|]. exfalso. apply H.
    exists demoIP. split; [vm_compute; reflexivity|]. exists "203.0.113.9". split_and!.
    + vm_compute. by repeat constructor.
    + done.
    + left. vm_compute. reflexivity.
  - exfalso. apply (proj1 H). exists demoIP. split; [vm_compute; reflexivity|]. exists "203.0.113.9". split_and!.
    + vm_compute. by repeat constructor.
    + done.
    + left. vm_compute. reflexivity.
Defined.

Lemma ban_takes_effect_witness :
  exists d msg, (guardRequest signConfig demoSafety
     {| wordsSnapshot := None; ipsSnapshot := Some (storedIPs (note "203.0.113.9" demoBan 5 None true demoGuard).1, [], []) |}
     demoMeta 6 None true (note "203.0.113.9" demoBan 5 None true demoGuard).1).2 = Some (d, msg) /\ dcode d = "ip_blocked".
Proof.
  apply (ban_takes_effect signConfig signConfig_inj signConfig_nonempty "203.0.113.9" demoIP demoBan 5 6 None None true true demoGuard
           (note "203.0.113.9" demoBan 5 None true demoGuard).1 demoSafety None [] [] demoMeta).
  - destruct (note "203.0.113.9" demoBan 5 None true demoGuard) as [g b] eqn:E. simpl. f_equal. change b with (g, b).2. rewrite <- E.
    vm_compute. reflexivity.
  - vm_compute. reflexivity.
  - reflexivity.
  - vm_compute. reflexivity.
Defined.

(** ** The address cannot be chosen by the client *)

(** C40. A client that connects from an address outside the trusted proxies cannot choose
    its address: the headers have no influence.  Behind a trusted proxy that sends neither
    [CF-Connecting-IP] nor [X-Real-IP] and a single [X-Forwarded-For] line of at least two
    entries, the last entry decides when it is an address outside the trusted proxies, whatever
    stands before it.  (With several lines the first one decides, [client_ip_first_line].) *)
Theorem client_ip_unspoofable (trusted : list IPNet) (remoteAddr : string) (h : Header) (spoofed : string) (hop : string) (ip : IP) :
  (isTrustedProxy trusted (parsePeerIP remoteAddr) = false ->
     forall h', ClientIP trusted remoteAddr h = ClientIP trusted remoteAddr h' /\ ClientIP trusted remoteAddr h = ownAddress remoteAddr) /\
  (isTrustedProxy trusted (parsePeerIP remoteAddr) = true ->
     HeaderGet h "CF-Connecting-IP" = "" -> HeaderGet h "X-Real-IP" = "" ->
     HeaderValues h "X-Forwarded-For" = [spoofed +:+ String "," hop] -> SplitByte "," hop = [hop] ->
     cleanIP hop = IPString ip -> ParseIP (IPString ip) = Some ip -> isTrustedProxy trusted (Some ip) = false ->
     ClientIP trusted remoteAddr h = IPString ip).
Proof.
  unfold ClientIP. split; [intros -> h'; done|]. intros -> H1 H2 H3 Hs Hc Hp Hu. cbn [negb singleHeader]. rewrite H1, H2.
  change (TrimSpace "") with "". cbn [bool_decide decide_rel]. rewrite !bool_decide_eq_true_2 by done. rewrite H3. cbn [forwardedFor].
  rewrite SplitByte_sep, Hs, rev_app_distr. cbn [rev app untrustedHop]. cbv zeta. rewrite Hc.
  rewrite bool_decide_eq_false_2; [|intros E; by rewrite E in Hp]. by rewrite Hp, Hu.
Qed.

Definition loopbackOnly : list IPNet := SetTrustedProxyCIDRs [].
Definition forwarded (values : list string) : Header := {["X-Forwarded-For" := values]}.

Lemma client_ip_unspoofable_witness :
  ClientIP loopbackOnly "198.51.100.7:4711" (forwarded ["10.1.1.1"]) = "198.51.100.7" /\
  ClientIP loopbackOnly "127.0.0.1:80" (forwarded ["10.1.1.1,203.0.113.9"]) = "203.0.113.9".
Proof.
  split.
  - refine (proj2 (proj1 (client_ip_unspoofable loopbackOnly "198.51.100.7:4711" (forwarded ["10.1.1.1"]) "" "" demoIP) _ ∅)).
    vm_compute. reflexivity.
  - refine (proj2 (client_ip_unspoofable loopbackOnly "127.0.0.1:80" (forwarded ["10.1.1.1,203.0.113.9"]) "10.1.1.1" "203.0.113.9" demoIP)
              _ _ _ _ _ _ _ _); vm_compute; reflexivity.
Defined.

(** Only the first of several header lines is walked, which a client can send itself. *)
Example client_ip_first_line :
  ClientIP loopbackOnly "127.0.0.1:80" (forwarded ["10.1.1.1"; "203.0.113.9"]) = "10.1.1.1".
Proof. vm_compute. reflexivity. Qed.

(** ** Bans *)

(** The first violation never bans, even when the threshold is one. *)
Lemma first_violation_free (ip : string) (cfg : SafetyAutoBanConfig) (now : Z) al ok (g : guardState) :
  offenders g !! TrimSpace ip = None -> (note ip cfg now al ok g).2 = false.
Proof.
  intros H. destruct (note ip cfg now al ok g) as [g' []] eqn:E; [|done].
  apply note_true in E as (_ & _ & _ & _ & rec & Hr & _). by rewrite H in Hr.
Qed.

(** The automatic ban is never triggered by the middleware: the policy only refuses by
    address or by conversation, and neither of these refusals is counted, so a request
    never changes the table of offenders nor the stored addresses. *)
Theorem auto_ban_unreachable (Sign : SafetyConfig -> string) (cfg : SafetyConfig) (snap : SafetySnapshot) (meta : Metadata) (now : Z)
  al ok (g : guardState) :
  let g' := (guardRequest Sign cfg snap meta now al ok g).1 in
  offenders g' = offenders g /\ storedIPs g' = storedIPs g /\
  forall p, shouldCountAutoBan (dcode (evaluate p meta)) = false.
Proof.
  assert (H : forall p, shouldCountAutoBan (dcode (evaluate p meta)) = false).
  { intros p. unfold evaluate. destruct (negb (enabled p)); [done|]. destruct (ipBlocked _ _); [done|]. by destruct (_ && _). }
  simpl. unfold guardRequest. destruct (load _ _ _ _) as [c p]. rewrite H. by destruct (blocked _).
Qed.
