(* ===== verification/StreamEngine.v ===== *)
(** The stream engine: [internal/stream/engine.go], which waits for parsed lines,
    keep-alive ticks and the end of the request, and [terminal_failure.go], which
    tells the client how a stream ended.

    One round of the loop is a [selectEvent]: the case the select took, the time, and
    whether the context had ended at the loop head and after the select.  The hooks
    are functions on a state of the caller; their calls are recorded in order. *)
From S2P Require Import Prelude GoString Affinity Json Sse Pump.
Local Open Scope Z_scope.

(** An open type in the source: handlers pass reasons of their own. *)
Definition StopReason := string.
Definition StopReasonNone : StopReason := "".
Definition StopReasonContextCancelled : StopReason := "context_cancelled".
Definition StopReasonNoContentTimeout : StopReason := "no_content_timeout".
Definition StopReasonIdleTimeout : StopReason := "idle_timeout".
Definition StopReasonUpstreamCompleted : StopReason := "upstream_completed".
Definition StopReasonHandlerRequested : StopReason := "handler_requested".

Record ConsumeConfig := {
  ThinkingEnabled : bool; InitialType : string; KeepAliveInterval : Z; IdleTimeout : Z; MaxKeepAliveNoInput : Z
}.

Record ParsedDecision := { DecStop : bool; DecStopReason : StopReason; ContentSeen : bool }.

(** What the engine does to its caller. *)
Inductive action :=
| OnParsed (parsed : LineResult)
| OnKeepAlive
| OnFinalize (reason : StopReason) (scannerErr : option pumpError)
| OnContextDone.

Inductive selected :=
| SelDone
| SelTick
| SelLine (parsed : LineResult)
| SelClosed (err : option pumpError).

(** [ctxBefore], [ctxAfter]: [cfg.Context.Err() != nil] at the two checks. *)
Record selectEvent := { ctxBefore : bool; sel : selected; ctxAfter : bool; at_ : Z }.

Record engineState (H : Type) := { hasContent : bool; lastContent : Z; keepaliveCount : Z; hook : H; calls : list action }.
Arguments hasContent {H}.
Arguments lastContent {H}.
Arguments keepaliveCount {H}.
Arguments hook {H}.
Arguments calls {H}.
Arguments Build_engineState {H}.

(** The type that the pump starts with. *)
Definition initialTypeOf (cfg : ConsumeConfig) : string :=
  if bool_decide (InitialType cfg = "") then (if ThinkingEnabled cfg then "thinking" else "text") else InitialType cfg.

Section Engine.
Context {H : Type} (onParsed : option (H -> LineResult -> H * ParsedDecision)).
Variable cfg : ConsumeConfig.

Definition call (a : action) (s : engineState H) : engineState H :=
  Build_engineState (hasContent s) (lastContent s) (keepaliveCount s) (hook s) (calls s ++ [a]).

Definition finalize (reason : StopReason) (err : option pumpError) (s : engineState H) : engineState H := call (OnFinalize reason err) s.

Definition onTick (now : Z) (s : engineState H) : engineState H * bool :=
  let s := if negb (hasContent s)
           then Build_engineState (hasContent s) (lastContent s) (i64 (keepaliveCount s + 1)) (hook s) (calls s) else s in
  if negb (hasContent s) && ((0 <? MaxKeepAliveNoInput cfg) && (MaxKeepAliveNoInput cfg <=? keepaliveCount s))
  then (finalize StopReasonNoContentTimeout None s, true)
  else if hasContent s && (0 <? IdleTimeout cfg) && (IdleTimeout cfg <? timeSub now (lastContent s))
  then (finalize StopReasonIdleTimeout None s, true)
  else (call OnKeepAlive s, false).

Definition onLine (now : Z) (parsed : LineResult) (s : engineState H) : engineState H * bool :=
  match onParsed with
  | None => (s, false)
  | Some f =>
      let '(h, decision) := f (hook s) parsed in
      let s := call (OnParsed parsed) s in
      let s := if ContentSeen decision then Build_engineState true now 0 h (calls s)
               else Build_engineState (hasContent s) (lastContent s) (keepaliveCount s) h (calls s) in
      if DecStop decision
      then (finalize (if bool_decide (DecStopReason decision = StopReasonNone) then StopReasonHandlerRequested else DecStopReason decision) None s, true)
      else (s, false)
  end.

(** One round; [true]: the engine returned. *)
Definition engineStep (e : selectEvent) (s : engineState H) : engineState H * bool :=
  if ctxBefore e then (call OnContextDone s, true)
  else match sel e with
       | SelDone => ((if ctxAfter e then call OnContextDone s else s), true)
       | SelTick => if ctxAfter e then (call OnContextDone s, true) else onTick (at_ e) s
       | SelLine parsed => if ctxAfter e then (call OnContextDone s, true) else onLine (at_ e) parsed s
       | SelClosed err => if ctxAfter e then (call OnContextDone s, true) else (finalize StopReasonUpstreamCompleted err s, true)
       end.

Fixpoint engineRun (events : list selectEvent) (s : engineState H) : engineState H * bool :=
  match events with
  | [] => (s, false)
  | e :: events => let '(s, ret) := engineStep e s in if ret then (s, true) else engineRun events s
  end.

Definition ConsumeSSE (start : Z) (h : H) (events : list selectEvent) : engineState H * bool :=
  engineRun events (Build_engineState false start 0 h []).
End Engine.

(** ** How the end is reported *)

Record TerminalFailure := { Status : Z; Code : string; Message : string }.

Definition ClassifyTerminalFailure (reason : StopReason) (scannerErr : option pumpError) : option TerminalFailure :=
  match scannerErr with
  | Some _ => Some {| Status := 502; Code := "upstream_stream_error";
                      Message := "Upstream stream ended unexpectedly; the request did not complete." |}
  | None =>
      if bool_decide (reason = StopReasonNoContentTimeout)
      then Some {| Status := 504; Code := "upstream_stream_timeout"; Message := "Upstream stream timed out before it produced content." |}
      else if bool_decide (reason = StopReasonIdleTimeout)
      then Some {| Status := 504; Code := "upstream_stream_timeout"; Message := "Upstream stream became idle before it completed." |}
      else None
  end.

(** ** Facts *)

Definition isEnd (a : action) : bool := match a with OnFinalize _ _ | OnContextDone => true | _ => false end.

(** A context is done exactly when it has an error. *)
Definition wellTimed (e : selectEvent) : Prop := sel e = SelDone -> ctxAfter e = true.

Section Facts.
Context {H : Type} (onParsed : option (H -> LineResult -> H * ParsedDecision)) (cfg : ConsumeConfig).
Implicit Type s : engineState H.

(** The calls of a run: final only at the end, and final exactly when it returned. *)
Definition endsWith (ret : bool) (more : list action) : Prop :=
  exists body fin, more = body ++ fin /\ Forall (fun a => isEnd a = false) body /\
    if ret then exists a, fin = [a] /\ isEnd a = true else fin = [].

Lemma endsWith_body (more : list action) : Forall (fun a => isEnd a = false) more -> endsWith false more.
Proof. intros Hb. exists more, []. by rewrite app_nil_r. Qed.

Lemma endsWith_end (body : list action) (a : action) : Forall (fun a => isEnd a = false) body -> isEnd a = true -> endsWith true (body ++ [a]).
Proof. intros Hb Ha. exists body, [a]. eauto. Qed.

Lemma endsWith_app (ret : bool) (m1 m2 : list action) : endsWith false m1 -> endsWith ret m2 -> endsWith ret (m1 ++ m2).
Proof.
  intros (b1 & f1 & -> & H1 & ->) (b2 & f2 & -> & H2 & H3). exists (b1 ++ b2), f2. rewrite app_nil_r, <- app_assoc. split; [done|].
  split; [by apply Forall_app|done].
Qed.

Lemma engineStep_ends (e : selectEvent) s s' (ret : bool) :
  wellTimed e -> engineStep onParsed cfg e s = (s', ret) -> exists more, calls s' = calls s ++ more /\ endsWith ret more.
Proof.
  intros Hw E. unfold engineStep in E.
  assert (Hend : forall a, isEnd a = true -> exists more, calls s ++ [a] = calls s ++ more /\ endsWith true more).
  { intros a Ha. exists [a]. split; [done|]. by apply (endsWith_end []). }
  destruct (ctxBefore e); [injection E as <- <-; by apply Hend|].
  destruct (sel e) as [| |parsed|err] eqn:Hs.
  - rewrite (Hw Hs) in E. injection E as <- <-. by apply Hend.
  - destruct (ctxAfter e); [injection E as <- <-; by apply Hend|]. unfold onTick in E.
    destruct (hasContent s) eqn:Hc; cbn [negb andb hasContent] in E; rewrite ?Hc in E; cbn [negb andb] in E.
    + destruct (_ && _) in E; injection E as <- <-; [by apply Hend|]. exists [OnKeepAlive]. split; [done|]. apply endsWith_body. by repeat constructor.
    + destruct (_ && _) in E; injection E as <- <-; [by apply (Hend (OnFinalize StopReasonNoContentTimeout None))|].
      exists [OnKeepAlive]. split; [done|]. apply endsWith_body. by repeat constructor.
  - destruct (ctxAfter e); [injection E as <- <-; by apply Hend|]. unfold onLine in E.
    destruct onParsed as [f|]; [|injection E as <- <-; exists []; rewrite app_nil_r; split; [done|by apply endsWith_body]].
    destruct (f (hook s) parsed) as [h d]. destruct (DecStop d); injection E as <- <-.
    + eexists ([OnParsed parsed] ++ [OnFinalize _ None]). split; [by destruct (ContentSeen d); simpl; rewrite <- app_assoc|].
      apply endsWith_end; [by repeat constructor|done].
    + exists [OnParsed parsed]. split; [by destruct (ContentSeen d)|]. apply endsWith_body. by repeat constructor.
  - destruct (ctxAfter e); injection E as <- <-; by apply Hend.
Qed.

Lemma engineRun_ends (events : list selectEvent) s s' (ret : bool) :
  Forall wellTimed events -> engineRun onParsed cfg events s = (s', ret) -> exists more, calls s' = calls s ++ more /\ endsWith ret more.
Proof.
  intros Hw. revert s. induction Hw as [|e events He Hw IH]; intros s E; cbn [engineRun] in E.
  { injection E as <- <-. exists []. rewrite app_nil_r. split; [done|by apply endsWith_body]. }
  destruct (engineStep onParsed cfg e s) as [s1 r1] eqn:E1. destruct (engineStep_ends e s s1 r1 He E1) as (m1 & Hc1 & Hm1).
  destruct r1; [injection E as <- <-; eauto|]. destruct (IH s1 E) as (m2 & Hc2 & Hm2).
  exists (m1 ++ m2). rewrite Hc2, Hc1, app_assoc. split; [done|]. by apply endsWith_app.
Qed.

(** The request is not cancelled while this event is taken. *)
Definition uncancelled (e : selectEvent) : Prop := ctxBefore e = false /\ ctxAfter e = false.

Lemma engineRun_uncancelled (events : list selectEvent) s s' (ret : bool) : Forall wellTimed events -> Forall uncancelled events ->
  engineRun onParsed cfg events s = (s', ret) -> exists more, calls s' = calls s ++ more /\ OnContextDone ∉ more.
Proof.
  intros Hw Hu. revert s. induction Hu as [|e events [Hb Ha] Hu IH]; intros s E; cbn [engineRun] in E.
  { injection E as <- <-. exists []. rewrite app_nil_r. split; [done|apply not_elem_of_nil]. }
  inversion Hw as [|? ? He Hw']; subst. destruct (engineStep onParsed cfg e s) as [s1 r1] eqn:E1.
  assert (exists m, calls s1 = calls s ++ m /\ OnContextDone ∉ m) as (m1 & Hc1 & Hm1).
  { unfold engineStep in E1. rewrite Hb, Ha in E1. unfold wellTimed in He. destruct (sel e).
    - rewrite He in Ha by done. discriminate.
    - unfold onTick in E1. destruct (negb (hasContent s)); repeat case_match; simplify_eq; eexists; (split; [reflexivity|set_solver]).
    - unfold onLine in E1. destruct onParsed as [f|]; [|injection E1 as <- <-; exists []; rewrite app_nil_r; split; [done|apply not_elem_of_nil]].
      destruct (f (hook s) parsed) as [h d]. destruct (ContentSeen d), (DecStop d); injection E1 as <- <-; cbn [calls finalize call];
        rewrite <- ?app_assoc; eexists; (split; [reflexivity|set_solver]).
    - injection E1 as <- <-. eexists. split; [reflexivity|set_solver]. }
  destruct r1; [injection E as <- <-; eauto|]. destruct (IH Hw' s1 E) as (m2 & Hc2 & Hm2). exists (m1 ++ m2). rewrite Hc2, Hc1, app_assoc.
  split; [done|]. rewrite elem_of_app. naive_solver.
Qed.

(** An event that makes the engine return. *)
Definition closing (e : selectEvent) : bool :=
  ctxBefore e || match sel e with SelDone | SelClosed _ => true | SelTick | SelLine _ => ctxAfter e end.

Lemma engineRun_returns (events : list selectEvent) s : existsb closing events = true -> (engineRun onParsed cfg events s).2 = true.
Proof.
  revert s. induction events as [|e events IH]; intros s He; [done|]. cbn [existsb] in He. cbn [engineRun].
  destruct (engineStep onParsed cfg e s) as [s1 r1] eqn:E1. destruct r1; [done|]. apply IH. destruct (closing e) eqn:Hc; [|exact He]. exfalso.
  unfold closing in Hc. unfold engineStep in E1. destruct (ctxBefore e); [done|]. cbn [orb] in Hc. by destruct (sel e), (ctxAfter e).
Qed.

(** *** Silence *)

Definition isTick (e : selectEvent) : bool := match sel e with SelTick => true | _ => false end.
Definition ticks (events : list selectEvent) : Z := Z.of_nat (length (List.filter isTick events)).

(** The context lives on, and the round is a tick or a line. *)
Definition waiting (e : selectEvent) : Prop :=
  ctxBefore e = false /\ ctxAfter e = false /\ match sel e with SelTick | SelLine _ => True | _ => False end.

Definition isKeepAlive (a : action) : bool := match a with OnKeepAlive => true | _ => false end.
Definition keepAlives (l : list action) : Z := Z.of_nat (length (List.filter isKeepAlive l)).

Lemma keepAlives_app (a b : list action) : keepAlives (a ++ b) = keepAlives a + keepAlives b.
Proof. unfold keepAlives. rewrite List.filter_app, length_app. lia. Qed.

Lemma ticks_cons (e : selectEvent) (events : list selectEvent) : ticks (e :: events) = (if isTick e then 1 else 0) + ticks events.
Proof. unfold ticks. simpl. destruct (isTick e); simpl; lia. Qed.

(** The handler sees no content and does not stop. *)
Definition silent : Prop :=
  forall f, onParsed = Some f -> forall h r, ContentSeen (f h r).2 = false /\ DecStop (f h r).2 = false.

Lemma silent_line (now : Z) (r : LineResult) s :
  silent -> hasContent s = false ->
  exists s' more, onLine onParsed now r s = (s', false) /\ hasContent s' = false /\ keepaliveCount s' = keepaliveCount s /\
    calls s' = calls s ++ more /\ keepAlives more = 0.
Proof.
  intros Hsil Hc. unfold onLine. destruct onParsed as [f|] eqn:Ef; [|exists s, []; by rewrite app_nil_r].
  destruct (f (hook s) r) as [h d] eqn:E. destruct (Hsil f Ef (hook s) r) as [H1 H2]. rewrite E in H1, H2. simpl in H1, H2. rewrite H1, H2.
  eexists _, [OnParsed r]. done.
Qed.

Lemma silent_run (events : list selectEvent) s :
  silent -> 0 < MaxKeepAliveNoInput cfg <= maxInt -> Forall waiting events -> hasContent s = false -> 0 <= keepaliveCount s < MaxKeepAliveNoInput cfg ->
  let '(s', ret) := engineRun onParsed cfg events s in
  exists more, calls s' = calls s ++ more /\
  if ret then MaxKeepAliveNoInput cfg <= keepaliveCount s + ticks events /\ last more = Some (OnFinalize StopReasonNoContentTimeout None) /\
              keepAlives more = MaxKeepAliveNoInput cfg - keepaliveCount s - 1
  else keepaliveCount s + ticks events < MaxKeepAliveNoInput cfg /\ keepAlives more = ticks events.
Proof.
  intros Hsil Hmax Hw. revert s. induction Hw as [|e events (Hb & Ha & Hs) Hw IH]; intros s Hc Hk; cbn [engineRun].
  { exists []. rewrite app_nil_r. split; [done|]. change (ticks []) with 0. change (keepAlives []) with 0. lia. }
  rewrite ticks_cons. unfold engineStep, isTick. rewrite Hb, Ha. destruct (sel e) as [| |r|]; try done.
  - unfold onTick. rewrite Hc. cbn [negb andb hasContent keepaliveCount].
    rewrite i64_small by (unfold minInt, maxInt in *; lia). rewrite (proj2 (Z.ltb_lt 0 _)) by lia. cbn [andb].
    destruct (_ <=? _) eqn:Hle; [apply Z.leb_le in Hle|apply Z.leb_gt in Hle].
    + eexists [_]. split; [done|]. assert (0 <= ticks events) by (unfold ticks; lia). split; [lia|]. split; [done|]. change (keepAlives [_]) with 0. lia.
    + set (s1 := call OnKeepAlive _). specialize (IH s1 eq_refl ltac:(simpl; lia)).
      destruct (engineRun onParsed cfg events s1) as [s2 ret]. destruct IH as (m & Hm & H2). exists (OnKeepAlive :: m).
      split; [rewrite Hm; simpl; by rewrite <- app_assoc|]. change (OnKeepAlive :: m) with ([OnKeepAlive] ++ m). rewrite keepAlives_app.
      change (keepAlives [OnKeepAlive]) with 1. cbn [call keepaliveCount s1] in H2.
      destruct ret; [destruct H2 as (? & ? & ?); split_and!; [lia| |lia]; by destruct m|]. lia.
  - destruct (silent_line (at_ e) r s Hsil Hc) as (s1 & m1 & -> & Hc1 & Hk1 & Hm1 & Hz). rewrite <- Hk1 in Hk. specialize (IH s1 Hc1 Hk).
    destruct (engineRun onParsed cfg events s1) as [s2 ret]. destruct IH as (m & Hm & H2). exists (m1 ++ m).
    split; [rewrite Hm, Hm1; by rewrite <- app_assoc|]. rewrite keepAlives_app, Hz, <- Hk1.
    destruct ret; [destruct H2 as (? & ? & ?); split_and!; [lia| |lia]; rewrite last_app; by destruct (last m)|]. lia.
Qed.
End Facts.

(** The caller is told the end exactly once: whatever arrives, in whatever order, when
    the engine returns its last call is the final one ([OnFinalize] or [OnContextDone])
    and no call before it was final; while it runs no final call has been made. *)
Theorem engine_ends_once {H} (onParsed : option (H -> LineResult -> H * ParsedDecision)) (cfg : ConsumeConfig) (start : Z) (h : H)
  (events : list selectEvent) :
  Forall wellTimed events ->
  let '(s, ret) := ConsumeSSE onParsed cfg start h events in
  if ret then exists body a, calls s = body ++ [a] /\ isEnd a = true /\ Forall (fun a => isEnd a = false) body
  else Forall (fun a => isEnd a = false) (calls s).
Proof.
  intros Hw. destruct (ConsumeSSE onParsed cfg start h events) as [s ret] eqn:E.
  destruct (engineRun_ends _ _ _ _ _ _ Hw E) as (more & Hc & body & fin & -> & Hn & Hf). simpl in Hc. rewrite Hc.
  destruct ret; [destruct Hf as (a & -> & Ha); eauto|]. subst fin. by rewrite app_nil_r.
Qed.

(** A silent upstream is given up after the configured number of keep-alives, not
    before: while no line carries content and the request lives, the engine returns at
    the [MaxKeepAliveNoInput]-th tick with the no-content timeout, whatever lines
    arrive in between, and until then sends one keep-alive per tick. *)
Theorem engine_gives_up {H} (onParsed : option (H -> LineResult -> H * ParsedDecision)) (cfg : ConsumeConfig) (start : Z) (h : H)
  (events : list selectEvent) :
  silent onParsed -> 0 < MaxKeepAliveNoInput cfg <= maxInt -> Forall waiting events ->
  let '(s, ret) := ConsumeSSE onParsed cfg start h events in
  if ret then MaxKeepAliveNoInput cfg <= ticks events /\ last (calls s) = Some (OnFinalize StopReasonNoContentTimeout None) /\
              keepAlives (calls s) = MaxKeepAliveNoInput cfg - 1
  else ticks events < MaxKeepAliveNoInput cfg /\ keepAlives (calls s) = ticks events.
Proof.
  intros Hs Hm Hw. pose proof (silent_run onParsed cfg events (Build_engineState false start 0 h []) Hs Hm Hw eq_refl) as Hr.
  unfold ConsumeSSE. destruct (engineRun _ _ _ _) as [s ret]. destruct Hr as (more & Hc & Hr); [simpl; lia|]. simpl in Hc, Hr. rewrite Hc.
  destruct ret; [destruct Hr as (? & ? & ?); split_and!; [lia|done|lia]|lia].
Qed.

(** ** The engine on the pump *)

(** The select loop receives the results [sent] in order, and the end after the last. *)
Fixpoint fedBy (sent : list LineResult) (err : option pumpError) (events : list selectEvent) : Prop :=
  match events with
  | [] => True
  | e :: events =>
      match sel e with
      | SelLine r => match sent with x :: sent => r = x /\ fedBy sent err events | [] => False end
      | SelClosed err' => sent = [] /\ err' = err
      | _ => fedBy sent err events
      end
  end.

Fixpoint parsedOf (l : list action) : list LineResult :=
  match l with [] => [] | OnParsed r :: l => r :: parsedOf l | _ :: l => parsedOf l end.

Lemma parsedOf_app (a b : list action) : parsedOf (a ++ b) = parsedOf a ++ parsedOf b.
Proof. induction a as [|[] a IH]; simpl; by rewrite ?IH. Qed.

(** The handler's state after the lines it has been given. *)
Definition hookAfter {H} (f : H -> LineResult -> H * ParsedDecision) (h : H) (rs : list LineResult) : H := fold_left (fun h r => (f h r).1) rs h.

(** The handler itself asked to stop, at the last line it was given, which does not end the answer. *)
Definition handlerStopped {H} (f : H -> LineResult -> H * ParsedDecision) (h : H) (rs : list LineResult) : Prop :=
  exists before r, rs = before ++ [r] /\ isTerminal r = false /\ DecStop (f (hookAfter f h before) r).2 = true.

(** What the calls say about the end of a stream without a terminal result. *)
Definition reported {H} (f : H -> LineResult -> H * ParsedDecision) (h : H) (sent : list LineResult) (err : option pumpError) (more : list action) : Prop :=
  match last more with
  | Some OnContextDone => True
  | Some (OnFinalize reason e) =>
      e = None /\ ClassifyTerminalFailure reason None <> None \/
      reason = StopReasonUpstreamCompleted /\ e = err /\ parsedOf more = sent \/
      e = None /\ handlerStopped f h (parsedOf more)
  | _ => False
  end.

Section Fed.
Context {H : Type} (f : H -> LineResult -> H * ParsedDecision) (cfg : ConsumeConfig).
Implicit Type s : engineState H.

(** One more line, for which the handler did not ask to stop. *)
Lemma reported_line (x : LineResult) (h : H) sent err more :
  reported f (f h x).1 sent err more -> reported f h (x :: sent) err (OnParsed x :: more).
Proof.
  unfold reported. change (OnParsed x :: more) with ([OnParsed x] ++ more). rewrite last_app, parsedOf_app.
  destruct (last more) as [[]|]; try done. intros [?|[(? & ? & <-)|(? & before & r & Hp & Hr)]]; [by left|right; by left|right; right].
  split; [done|]. exists (x :: before), r. split; [simpl; by rewrite Hp|exact Hr].
Qed.

Lemma fed_run (events : list selectEvent) (sent : list LineResult) (err : option pumpError) s s' :
  Forall wellTimed events -> fedBy sent err events -> Forall (fun r => isTerminal r = false) sent ->
  engineRun (Some f) cfg events s = (s', true) ->
  exists more, calls s' = calls s ++ more /\ reported f (hook s) sent err more.
Proof.
  intros Hw. revert sent s. induction Hw as [|e events He Hw IH]; intros sent s Hf Ht E; cbn [engineRun] in E; [done|].
  cbn [fedBy] in Hf. unfold engineStep in E.
  destruct (ctxBefore e); [injection E as <-; by exists [OnContextDone]|].
  destruct (sel e) as [| |r|err'] eqn:Hs.
  - rewrite (He Hs) in E. injection E as <-. by exists [OnContextDone].
  - destruct (ctxAfter e); [injection E as <-; by exists [OnContextDone]|].
    destruct (onTick cfg (at_ e) s) as [s1 r1] eqn:Et. assert (H1 : exists a, calls s1 = calls s ++ [a] /\ parsedOf [a] = [] /\
      (if r1 then exists reason, a = OnFinalize reason None /\ ClassifyTerminalFailure reason None <> None else True)).
    { clear -Et. unfold onTick in Et. destruct (hasContent s) eqn:Hc; cbn [negb andb hasContent] in Et; rewrite ?Hc in Et; cbn [negb andb] in Et;
        destruct (_ && _) in Et; injection Et as <- <-; eexists; split; try done; split; try done; eexists; by split. }
    destruct H1 as (a & Hca & Hpa & Hr). destruct r1.
    + injection E as <-. destruct Hr as (reason & -> & Hcl). exists [OnFinalize reason None]. split; [done|]. by left.
    + assert (Hh : hook s1 = hook s).
      { clear -Et. unfold onTick in Et. destruct (hasContent s) eqn:Hc; cbn [negb andb hasContent] in Et; rewrite ?Hc in Et; cbn [negb andb] in Et;
          destruct (_ && _) in Et; by injection Et as <-. }
      destruct (IH sent s1 Hf Ht E) as (more & Hm & Hrep). exists (a :: more). split; [rewrite Hm, Hca; by rewrite <- app_assoc|].
      rewrite Hh in Hrep. unfold reported in *. change (a :: more) with ([a] ++ more). rewrite last_app, parsedOf_app, Hpa. by destruct (last more).
  - destruct sent as [|x sent]; [done|]. destruct Hf as [-> Hf]. apply Forall_cons in Ht as [Hx Ht].
    destruct (ctxAfter e); [injection E as <-; by exists [OnContextDone]|]. unfold onLine in E.
    destruct (f (hook s) x) as [h d] eqn:Ed. destruct (DecStop d) eqn:Hd.
    + injection E as <-. eexists [OnParsed x; OnFinalize _ None]. split; [destruct (ContentSeen d); simpl; by rewrite <- app_assoc|].
      right. right. split; [done|]. exists [], x. split; [done|]. split; [done|]. simpl. by rewrite Ed.
    + eapply IH in E as (more & Hm & Hrep); [|done..]. exists (OnParsed x :: more).
      split; [rewrite Hm; destruct (ContentSeen d); simpl; by rewrite <- app_assoc|]. apply reported_line. rewrite Ed. simpl.
      by destruct (ContentSeen d).
  - destruct Hf as [-> ->]. destruct (ctxAfter e); injection E as <-; [by exists [OnContextDone]|]. eexists [_]. split; [done|]. right. by left.
Qed.
End Fed.

(** C29. A truncated answer is never taken for a finished one: when the upstream body
    breaks off after some line was understood but before any line that ends the answer,
    then for every handler and every timing of flush ticks, keep-alive ticks and cancelled
    contexts, an engine that returns has last reported one of: the end of the client's
    request; a failure, and when that is the reader's the handler has been given all lines
    of the body, in consecutive batches; or the stop that the handler itself asked for, at
    the last line it was given, one that does not end the answer (as the chat handler does
    after a complete tool call; the Claude handler never does, [claude_stops_at_terminal]). *)
Theorem truncation_reported {H} Unmarshal formatValue (f : H -> LineResult -> H * ParsedDecision) (cfg : ConsumeConfig) (start : Z) (h : H)
  (accept : nat -> bool) (body : list pumpEvent) (err : option pumpError) (rs : list LineResult) (events : list selectEvent) :
  (forall n, accept n = true) -> Forall isBody body ->
  lineResults Unmarshal formatValue (ThinkingEnabled cfg) body (initialTypeOf cfg) = Some rs ->
  existsb Parsed rs = true -> existsb isTerminal rs = false -> Forall wellTimed events ->
  let '(pump, fin) := StartParsedLinePump Unmarshal formatValue (ThinkingEnabled cfg) accept (initialTypeOf cfg) (body ++ [EvEnd err]) in
  exists e, fin = Some (Ended (Some e)) /\
  (fedBy (sent pump) (Some e) events ->
   let '(s, ret) := ConsumeSSE (Some f) cfg start h events in
   ret = true ->
   last (calls s) = Some OnContextDone \/
   exists reason scannerErr, last (calls s) = Some (OnFinalize reason scannerErr) /\
     ((exists failure, ClassifyTerminalFailure reason scannerErr = Some failure /\ (scannerErr = None \/ batched (parsedOf (calls s)) rs)) \/
      scannerErr = None /\ handlerStopped f h (parsedOf (calls s)))).
Proof.
  intros Hacc Hb Hl Hp Ht Hw.
  pose proof (pump_delivers Unmarshal formatValue (ThinkingEnabled cfg) accept (initialTypeOf cfg) body err Hacc Hb) as Hpump.
  rewrite Hl, Hp, Ht in Hpump. destruct Hpump as (ps & -> & _ & Hbat). destruct (batched_same _ _ Hbat) as (_ & _ & Hterm).
  exists (match err with Some e => e | None => ErrUnexpectedEOF end). split; [by destruct err|]. intros Hfed.
  destruct (ConsumeSSE (Some f) cfg start h events) as [s ret] eqn:E. intros ->.
  assert (Hno : Forall (fun r => isTerminal r = false) (sent ps)).
  { apply Forall_forall. intros r Hr. destruct (isTerminal r) eqn:Hr'; [|done]. exfalso.
    assert (Hin : r ∈ filter (fun r => isTerminal r = true) (sent ps)) by (by apply list_elem_of_filter).
    rewrite Hterm in Hin. apply list_elem_of_filter in Hin as [_ Hin].
    assert (existsb isTerminal rs = true); [apply existsb_exists; exists r; split; [by apply list_elem_of_In|done]|congruence]. }
  destruct (fed_run f cfg events _ _ _ s Hw Hfed Hno E) as (more & Hc & Hrep). simpl in Hc, Hrep. rewrite Hc. unfold reported in Hrep.
  destruct (last more) as [[| |reason e|]|]; try done; [|by left]. right. exists reason, e. split; [done|].
  destruct Hrep as [[-> Hx]|[(-> & -> & Hs)|Hrep]]; [left|left|by right].
  - destruct (ClassifyTerminalFailure reason None) as [fl|]; [|done]. exists fl. split; [done|by left].
  - eexists. split; [reflexivity|]. right. by rewrite Hs.
Qed.

Definition demoCfg : ConsumeConfig :=
  {| ThinkingEnabled := true; InitialType := ""; KeepAliveInterval := 5; IdleTimeout := 60; MaxKeepAliveNoInput := 2 |}.
Definition demoHandler (h : unit) (r : LineResult) : unit * ParsedDecision :=
  (h, {| DecStop := isTerminal r; DecStopReason := StopReasonNone; ContentSeen := false |}).
Definition quiet (x : selected) : selectEvent := {| ctxBefore := false; sel := x; ctxAfter := false; at_ := 0 |}.

Lemma quiet_timed (l : list selected) : SelDone ∉ l -> Forall wellTimed (quiet <$> l).
Proof. intros Hl. apply Forall_forall. intros e (x & -> & Hx)%list_elem_of_fmap E. simpl in E. by subst. Qed.

Lemma engine_ends_once_witness :
  let '(s, ret) := ConsumeSSE (Some demoHandler) demoCfg 0 tt (quiet <$> [SelTick; SelClosed None]) in
  if ret then exists body a, calls s = body ++ [a] /\ isEnd a = true /\ Forall (fun a => isEnd a = false) body
  else Forall (fun a => isEnd a = false) (calls s).
Proof. apply engine_ends_once. apply quiet_timed. set_solver. Defined.

Lemma engine_gives_up_witness :
  let '(s, ret) := ConsumeSSE (H := unit) None demoCfg 0 tt (quiet <$> [SelTick; SelTick; SelTick]) in
  ret = true /\ last (calls s) = Some (OnFinalize StopReasonNoContentTimeout None).
Proof.
  pose proof (engine_gives_up (H := unit) None demoCfg 0 tt (quiet <$> [SelTick; SelTick; SelTick])) as G.
  destruct (ConsumeSSE None demoCfg 0 tt (quiet <$> [SelTick; SelTick; SelTick])) as [s [|]].
  - split; [done|]. apply G; [done|by unfold maxInt|by repeat constructor].
  - exfalso. destruct G as [G _]; [done|by unfold maxInt|by repeat constructor|]. vm_compute in G. done.
Defined.

Lemma truncation_reported_witness :
  exists rs, lineResults demoUnmarshal demoFormat true demoEvents "thinking" = Some rs /\
  let '(pump, fin) := StartParsedLinePump demoUnmarshal demoFormat true (fun _ => true) "thinking" (demoEvents ++ [EvEnd None]) in
  exists e, fin = Some (Ended (Some e)) /\
  let '(s, ret) := ConsumeSSE (Some demoHandler) demoCfg 0 tt (quiet <$> (SelLine <$> sent pump) ++ [SelClosed (Some e)]) in
  ret = true ->
   last (calls s) = Some OnContextDone \/
   exists reason scannerErr, last (calls s) = Some (OnFinalize reason scannerErr) /\
     ((exists failure, ClassifyTerminalFailure reason scannerErr = Some failure /\ (scannerErr = None \/ batched (parsedOf (calls s)) rs)) \/
      scannerErr = None /\ handlerStopped demoHandler tt (parsedOf (calls s))).
Proof.
  eexists. split; [vm_compute; reflexivity|].
  destruct (StartParsedLinePump demoUnmarshal demoFormat true (fun _ => true) "thinking" (demoEvents ++ [EvEnd None])) as [pump fin] eqn:E.
  assert (Hf : fin = Some (Ended (Some ErrUnexpectedEOF))) by (change fin with (pump, fin).2; rewrite <- E; vm_compute; reflexivity).
  eexists. split; [exact Hf|].
  epose proof (truncation_reported demoUnmarshal demoFormat demoHandler demoCfg 0 tt (fun _ => true) demoEvents None _
    (quiet <$> (SelLine <$> sent pump) ++ [SelClosed (Some ErrUnexpectedEOF)])) as G.
  change (ThinkingEnabled demoCfg) with true in G. change (initialTypeOf demoCfg) with "thinking" in G. rewrite E in G.
  edestruct G as (e & He & G'); clear G.
  - done.
  - by repeat constructor.
  - vm_compute; reflexivity.
  - vm_compute; reflexivity.
  - vm_compute; reflexivity.
  - apply quiet_timed. by intros [(? & ? & _)%list_elem_of_fmap|?%list_elem_of_singleton]%elem_of_app.
  - rewrite Hf in He. injection He as <-. apply G'. clear. generalize (sent pump) as l. induction l as [|x l IH]; [done|]. split; [done|exact IH].
Defined.
