(* ===== verification/ToolScan.v ===== *)
(** Tool markup in model output: the scanner [internal/toolcall/toolcalls_scan.go] and
    the XML helpers it shares with [toolcalls_parse_markup.go] and
    [toolcalls_markup.go].

    The scanner looks for tags at byte offsets of [text] and compares names in
    [strings.ToLower(text)] at the same offsets.  Where a letter's lower case has
    another encoded length the two are out of step, and slicing the shorter one can
    fail: [option] is a run-time error that ends the call ([None]), so a result is
    [Some None] when there is no tag and [Some (Some tag)] when there is one. *)
From S2P Require Import Prelude GoString GoText.
From Stdlib Require Import Ascii.
Local Open Scope nat_scope.

(** ** Slices *)

(** [s[i:]] *)
Definition sliceFrom (s : string) (i : nat) : option string := if i <=? String.length s then Some (strDrop i s) else None.

(** [s[i:j]] for in-range bounds. *)
Definition substr (s : string) (i j : nat) : string := strTake (j - i) (strDrop i s).

(** [s[i]], [None] past the end. *)
Definition byteAt (s : string) (i : nat) : option ascii := match strDrop i s with String c _ => Some c | EmptyString => None end.

Fixpoint bytes (l : list N) : string := match l with [] => "" | n :: l => String (ascii_of_N n) (bytes l) end.

(** The full-width vertical bar, U+FF5C. *)
Definition wideBar : string := bytes [0xEF; 0xBD; 0x9C]%N.

(** Space, tab, carriage return, line feed. *)
Definition isBlank (c : ascii) : bool := bool_decide (c ∈ [" "%char; ascii_of_N 9; ascii_of_N 13; ascii_of_N 10]).

(** ** Names *)

(** The names, each with the same name in the spelling of the parser: in Chinese "tool
    call", "call" and "parameter". *)
Definition chToolCall : string := bytes [0xE5; 0xB7; 0xA5; 0xE5; 0x85; 0xB7; 0xE8; 0xB0; 0x83; 0xE7; 0x94; 0xA8]%N.
Definition chCall : string := bytes [0xE8; 0xB0; 0x83; 0xE7; 0x94; 0xA8]%N.
Definition chParameter : string := bytes [0xE5; 0x8F; 0x82; 0xE6; 0x95; 0xB0]%N.

Definition toolMarkupNames : list string :=
  ["tool_calls"; "tool-calls"; "tool_call"; "tool-call"; "invoke"; "parameter"; chToolCall; chCall; chParameter].

(** U+200B, U+200C, U+200D, U+2060, U+FEFF, U+2581. *)
Definition toolMarkupTokenArtifacts : list string :=
  [bytes [0xE2; 0x80; 0x8B]%N; bytes [0xE2; 0x80; 0x8C]%N; bytes [0xE2; 0x80; 0x8D]%N; bytes [0xE2; 0x81; 0xA0]%N;
   bytes [0xEF; 0xBB; 0xBF]%N; bytes [0xE2; 0x96; 0x81]%N].

Definition canonicalToolMarkupName (name : string) : string :=
  if bool_decide (name ∈ [chToolCall; "tool_call"; "tool-calls"; "tool-call"]) then "tool_calls"
  else if bool_decide (name = chCall) then "invoke"
  else if bool_decide (name = chParameter) then "parameter"
  else name.

Record ToolMarkupTag := {
  Start : nat; End_ : nat; NameStart : nat; NameEnd : nat; Name : string; Closing : bool; SelfClosing : bool; DSMLLike : bool;
  Canonical : bool
}.

Definition hasToolMarkupNamePrefix (lowerTail : string) : bool :=
  existsb (fun name => HasPrefix lowerTail name || HasPrefix name lowerTail) toolMarkupNames.

Definition hasToolMarkupDSMLPrefixPrefix (lowerTail : string) : bool :=
  existsb (fun prefix => HasPrefix prefix lowerTail) ["dsml"; "{:dsml}"].

Definition consumeToolMarkupPipe (text : string) (idx : nat) : option nat :=
  match strDrop idx text with
  | EmptyString => None
  | String c _ as rest =>
      if bool_decide (c = "|"%char) then Some (idx + 1)
      else if HasPrefix rest wideBar then Some (idx + String.length wideBar) else None
  end.

Definition consumeToolMarkupSpaceSeparator (text : string) (idx : nat) : option nat :=
  match byteAt text idx with Some c => if isBlank c then Some (idx + 1) else None | None => None end.

Definition consumeToolMarkupTokenArtifact (text : string) (idx : nat) : option nat :=
  match strDrop idx text with
  | EmptyString => None
  | rest => match List.find (fun a => HasPrefix rest a) toolMarkupTokenArtifacts with
            | Some a => Some (idx + String.length a)
            | None => None
            end
  end.

Definition consumeToolMarkupHyphenSeparator (low text : string) (idx : nat) : option (option nat) :=
  match byteAt text idx with
  | None => Some None
  | Some c =>
      if negb (bool_decide (c ∈ ["-"; "_"]%char)) then Some None
      else tail ← sliceFrom low (idx + 1);
           Some (if hasToolMarkupNamePrefix tail then Some (idx + 1) else None)
  end.

Definition consumeToolMarkupNamePrefixOnce (low text : string) (idx : nat) (allowTokenArtifacts : bool) : option (option nat) :=
  match consumeToolMarkupPipe text idx with
  | Some next => Some (Some next)
  | None =>
      match consumeToolMarkupSpaceSeparator text idx with
      | Some next => Some (Some next)
      | None =>
          tail ← sliceFrom low idx;
          if HasPrefix tail "{:dsml}" then Some (Some (idx + String.length "{:dsml}"))
          else if HasPrefix tail "dsml" then Some (Some (idx + String.length "dsml"))
          else
            sep ← consumeToolMarkupHyphenSeparator low text idx;
            match sep with
            | Some next => Some (Some next)
            | None => Some (if allowTokenArtifacts then consumeToolMarkupTokenArtifact text idx else None)
            end
      end
  end.

(** Every round moves on, so [S (len(text) - idx)] rounds are enough. *)
Fixpoint consumePrefixes (fuel : nat) (low text : string) (idx : nat) (dsmlLike : bool) : option (nat * bool) :=
  match fuel with
  | O => Some (idx, dsmlLike)
  | S fuel =>
      next ← consumeToolMarkupNamePrefixOnce low text idx dsmlLike;
      match next with
      | None => Some (idx, dsmlLike)
      | Some next => consumePrefixes fuel low text next true
      end
  end.

Definition consumeToolMarkupNamePrefix (low text : string) (idx : nat) : option (nat * bool) :=
  consumePrefixes (S (String.length text)) low text idx false.

(** Go's [("", 0)] is [None]. *)
Definition matchToolMarkupName (low : string) (start : nat) : option (option string) :=
  tail ← sliceFrom low start; Some (List.find (fun name => HasPrefix tail name) toolMarkupNames).

Definition hasToolMarkupBoundary (text : string) (idx : nat) : bool :=
  match strDrop idx text with
  | EmptyString => true
  | String c _ as rest => isBlank c || bool_decide (c ∈ [">"; "/"; "|"]%char) || HasPrefix rest wideBar
  end.

Fixpoint consumePipes (fuel : nat) (text : string) (idx : nat) : nat :=
  match fuel with
  | O => idx
  | S fuel => match consumeToolMarkupPipe text idx with Some next => consumePipes fuel text next | None => idx end
  end.

(** ** Ignored sections and the ends of tags *)

Definition cdataOpenerByteLenAt (low : string) (i : nat) : nat :=
  if String.length low <=? i then 0
  else
    let rest := strDrop i low in
    if HasPrefix rest "<![cdata[" then String.length "<![cdata["
    else if HasPrefix rest "<![cdata|" then String.length "<![cdata|"
    else if HasPrefix rest ("<![cdata" +:+ wideBar) then String.length ("<![cdata" +:+ wideBar)
    else 0.

Inductive skipped := NoSkip | SkipTo (next : nat) | Blocked.

Definition skipXMLIgnoredSection (low : string) (i : nat) : option skipped :=
  let openerLen := cdataOpenerByteLenAt low i in
  if 0 <? openerLen then
    rest ← sliceFrom low (i + openerLen);
    Some (match Index rest "]]>" with None => Blocked | Some e => SkipTo (i + openerLen + e + 3) end)
  else
    rest ← sliceFrom low i;
    if HasPrefix rest "<!--" then
      rest ← sliceFrom low (i + 4);
      Some (match Index rest "-->" with None => Blocked | Some e => SkipTo (i + 4 + e + 3) end)
    else Some NoSkip.

(** The offset of the closing bracket in [rest], which starts at [i]. *)
Fixpoint tagEndFrom (rest : string) (i : nat) (quote : option ascii) : option nat :=
  match rest with
  | EmptyString => None
  | String ch rest =>
      match quote with
      | Some q => tagEndFrom rest (S i) (if bool_decide (ch = q) then None else quote)
      | None =>
          if bool_decide (ch = ascii_of_N 34) || bool_decide (ch = "'"%char) then tagEndFrom rest (S i) (Some ch)
          else if bool_decide (ch = ">"%char) then Some i
          else tagEndFrom rest (S i) None
      end
  end.

Definition findXMLTagEnd (text : string) (from : nat) : option nat := tagEndFrom (strDrop from text) from None.

Definition hasXMLTagBoundary (text : string) (idx : nat) : bool :=
  match byteAt text idx with None => true | Some c => isBlank c || bool_decide (c ∈ [">"; "/"]%char) end.

Definition isSelfClosingXMLTag (startTag : string) : bool := HasSuffix (TrimSpace startTag) "/".

(** ** The scanner *)

Fixpoint leadingLT (s : string) : nat :=
  match s with String c s => if bool_decide (c = "<"%char) then S (leadingLT s) else 0 | EmptyString => 0 end.

Definition scanToolMarkupTagAt (text : string) (start : nat) : option (option ToolMarkupTag) :=
  if negb (bool_decide (byteAt text start = Some "<"%char)) then Some None
  else
    let low := ToLower text in
    let i := start + leadingLT (strDrop start text) in
    let closing := bool_decide (byteAt text i = Some "/"%char) in
    let i := if closing then i + 1 else i in
    prefix ← consumeToolMarkupNamePrefix low text i;
    let '(i, dsmlLike) := prefix in
    name ← matchToolMarkupName low i;
    match name with
    | None => Some None
    | Some name =>
        let nameEndBeforePipes := i + String.length name in
        let nameEnd := consumePipes (String.length text) text nameEndBeforePipes in
        let hasTrailingPipe := nameEndBeforePipes <? nameEnd in
        if negb (hasToolMarkupBoundary text nameEnd) then Some None
        else
          match findXMLTagEnd text nameEnd, hasTrailingPipe with
          | None, false => Some None
          | e, _ =>
              let e := default (nameEnd - 1) e in
              let e := if hasTrailingPipe
                       then match Index (strDrop nameEnd text) "<" with
                            | Some nextLT => if nameEnd + nextLT <=? e then nameEnd - 1 else e
                            | None => e
                            end
                       else e in
              let trimmed := TrimSpace (substr text start (e + 1)) in
              Some (Some {| Start := start; End_ := e; NameStart := i; NameEnd := nameEnd; Name := name; Closing := closing;
                            SelfClosing := HasSuffix trimmed "/>"; DSMLLike := dsmlLike; Canonical := negb dsmlLike |})
          end
    end.

(** The loop of the searches: the next tag at or after [i]. *)
Fixpoint findTagFrom (fuel : nat) (text : string) (i : nat) : option (option ToolMarkupTag) :=
  match fuel with
  | O => Some None
  | S fuel =>
      if String.length text <=? i then Some None
      else
        skip ← skipXMLIgnoredSection (ToLower text) i;
        match skip with
        | Blocked => Some None
        | SkipTo next => findTagFrom fuel text next
        | NoSkip =>
            tag ← scanToolMarkupTagAt text i;
            match tag with
            | Some tag => Some (Some tag)
            | None => findTagFrom fuel text (S i)
            end
        end
  end.

Definition FindToolMarkupTagOutsideIgnored (text : string) (start : nat) : option (option ToolMarkupTag) :=
  findTagFrom (S (String.length text)) text start.

Fixpoint matchingClose (fuel : nat) (text : string) (name : string) (depth pos : nat) : option (option ToolMarkupTag) :=
  match fuel with
  | O => Some None
  | S fuel =>
      if String.length text <=? pos then Some None
      else
        tag ← FindToolMarkupTagOutsideIgnored text pos;
        match tag with
        | None => Some None
        | Some tag =>
            if negb (bool_decide (Name tag = name)) then matchingClose fuel text name depth (End_ tag + 1)
            else if Closing tag then
              if bool_decide (depth = 1) then Some (Some tag) else matchingClose fuel text name (depth - 1) (End_ tag + 1)
            else matchingClose fuel text name (if SelfClosing tag then depth else depth + 1) (End_ tag + 1)
        end
  end.

Definition FindMatchingToolMarkupClose (text : string) (open : ToolMarkupTag) : option (option ToolMarkupTag) :=
  if bool_decide (text = "") || bool_decide (Name open = "") || Closing open then Some None
  else matchingClose (S (String.length text)) text (Name open) 1 (End_ open + 1).

(** [hasDSML] and [hasCanonical] so far; [wrapperOnly]: only wrapper tags count. *)
Fixpoint containsFrom (fuel : nat) (wrapperOnly : bool) (text : string) (i : nat) (found : bool * bool) : option (bool * bool) :=
  match fuel with
  | O => Some found
  | S fuel =>
      if String.length text <=? i then Some found
      else
        skip ← skipXMLIgnoredSection (ToLower text) i;
        match skip with
        | Blocked => Some found
        | SkipTo next => containsFrom fuel wrapperOnly text next found
        | NoSkip =>
            tag ← scanToolMarkupTagAt text i;
            match tag with
            | None => containsFrom fuel wrapperOnly text (S i) found
            | Some tag =>
                if wrapperOnly && negb (bool_decide (Name tag = "tool_calls")) then containsFrom fuel wrapperOnly text (End_ tag + 1) found
                else
                  let found := if DSMLLike tag then (true, found.2) else (found.1, true) in
                  if found.1 && found.2 then Some (true, true) else containsFrom fuel wrapperOnly text (End_ tag + 1) found
            end
        end
  end.

Definition ContainsToolMarkupSyntaxOutsideIgnored (text : string) : option (bool * bool) :=
  containsFrom (S (String.length text)) false text 0 (false, false).

Definition ContainsToolCallWrapperSyntaxOutsideIgnored (text : string) : option (bool * bool) :=
  containsFrom (S (String.length text)) true text 0 (false, false).

(** The loop over the decorations of an unfinished tag. *)
Fixpoint partialFrom (fuel : nat) (low text : string) (i : nat) (dsmlLike : bool) : option bool :=
  match fuel with
  | O => Some false
  | S fuel =>
      if String.length text <? i then Some false
      else if bool_decide (i = String.length text) then Some true
      else
        tail ← sliceFrom low i;
        if hasToolMarkupNamePrefix tail then Some true
        else if hasToolMarkupDSMLPrefixPrefix tail then Some true
        else
          next ← consumeToolMarkupNamePrefixOnce low text i dsmlLike;
          match next with None => Some false | Some next => partialFrom fuel low text next true end
  end.

Definition IsPartialToolMarkupTagPrefix (text : string) : option bool :=
  if negb (bool_decide (byteAt text 0 = Some "<"%char)) || Contains text ">" then Some false
  else
    let i := leadingLT text in
    if String.length text <=? i then Some true
    else
      let i := if bool_decide (byteAt text i = Some "/"%char) then i + 1 else i in
      partialFrom (S (String.length text)) (ToLower text) text i false.

(** ** Repair of CDATA sections *)

Definition isLetterOrUnderscore (c : ascii) : bool := isLower c || isUpper c || bool_decide (c = "_"%char).

(** [rest] starts at the bracket. *)
Definition isLikelyTagStart (rest : string) : bool :=
  match rest with
  | String "<" rest =>
      let rest := match rest with String "/" r => r | _ => rest end in
      match rest with
      | EmptyString => false
      | String c _ => isLetterOrUnderscore c || bool_decide (c = "|"%char) || HasPrefix rest wideBar
      end
  | _ => false
  end.

(** Relative to the start of [rest]. *)
Fixpoint findLooseCDATAClose (rest : string) : option nat :=
  match rest with
  | EmptyString => None
  | String c r =>
      if HasPrefix rest "]]<" && isLikelyTagStart (strDrop 2 rest) then Some 0 else S <$> findLooseCDATAClose r
  end.

(** [None]: run-time error.  [out] is the text built so far. *)
Fixpoint sanitizeFrom (fuel : nat) (low text : string) (pos : nat) (out : string) (changed : bool) : option (string * bool) :=
  match fuel with
  | O => Some (out, changed)
  | S fuel =>
      if String.length text <=? pos then Some (out, changed)
      else
        lowRest ← sliceFrom low pos;
        match Index lowRest "<![cdata[" with
        | None => Some (out +:+ strDrop pos text, changed)
        | Some startRel =>
            let start := pos + startRel in
            let contentStart := start + 9 in
            let out := out +:+ substr text pos start in
            content ← sliceFrom text contentStart;
            let properRel := Index content "]]>" in
            let looseRel := findLooseCDATAClose content in
            match properRel, looseRel with
            | None, None => Some (out +:+ content, true)
            | Some p, None =>
                sanitizeFrom fuel low text (contentStart + p + 3) (out +:+ substr text start (contentStart + p + 3)) changed
            | Some p, Some l =>
                if p <=? l
                then sanitizeFrom fuel low text (contentStart + p + 3) (out +:+ substr text start (contentStart + p + 3)) changed
                else sanitizeFrom fuel low text (contentStart + l + 2) (out +:+ substr text start (contentStart + l) +:+ "]]>") true
            | None, Some l =>
                sanitizeFrom fuel low text (contentStart + l + 2) (out +:+ substr text start (contentStart + l) +:+ "]]>") true
            end
        end
  end.

Definition SanitizeLooseCDATA (text : string) : option string :=
  r ← sanitizeFrom (S (String.length text)) (ToLower text) text 0 "" false;
  let '(out, changed) := r in Some (if changed : bool then out else text).

(** ** Elements *)

Record xmlElementBlock := { Attrs : string; Body : string; BStart : nat; BEnd : nat }.

Fixpoint startTagFrom (fuel : nat) (low text target : string) (i : nat) : option (option (nat * nat * string)) :=
  match fuel with
  | O => Some None
  | S fuel =>
      if String.length text <=? i then Some None
      else
        skip ← skipXMLIgnoredSection low i;
        match skip with
        | Blocked => Some None
        | SkipTo next => startTagFrom fuel low text target next
        | NoSkip =>
            rest ← sliceFrom low i;
            if HasPrefix rest target && hasXMLTagBoundary text (i + String.length target) then
              match findXMLTagEnd text (i + String.length target) with
              | None => Some None
              | Some e => Some (Some (i, e + 1, substr text (i + String.length target) e))
              end
            else startTagFrom fuel low text target (S i)
        end
  end.

Definition findXMLStartTagOutsideCDATA (text tag : string) (from : nat) : option (option (nat * nat * string)) :=
  startTagFrom (S (String.length text)) (ToLower text) text ("<" +:+ ToLower tag) from.

Fixpoint endTagFrom (fuel : nat) (low text openTarget closeTarget : string) (depth i : nat) : option (option (nat * nat)) :=
  match fuel with
  | O => Some None
  | S fuel =>
      if String.length text <=? i then Some None
      else
        skip ← skipXMLIgnoredSection low i;
        match skip with
        | Blocked => Some None
        | SkipTo next => endTagFrom fuel low text openTarget closeTarget depth next
        | NoSkip =>
            rest ← sliceFrom low i;
            if HasPrefix rest closeTarget && hasXMLTagBoundary text (i + String.length closeTarget) then
              match findXMLTagEnd text (i + String.length closeTarget) with
              | None => Some None
              | Some e => if bool_decide (depth = 1) then Some (Some (i, e + 1))
                          else endTagFrom fuel low text openTarget closeTarget (depth - 1) (e + 1)
              end
            else if HasPrefix rest openTarget && hasXMLTagBoundary text (i + String.length openTarget) then
              match findXMLTagEnd text (i + String.length openTarget) with
              | None => Some None
              | Some e => endTagFrom fuel low text openTarget closeTarget
                            (if isSelfClosingXMLTag (strTake e text) then depth else depth + 1) (e + 1)
              end
            else endTagFrom fuel low text openTarget closeTarget depth (S i)
        end
  end.

Definition findMatchingXMLEndTagOutsideCDATA (text tag : string) (from : nat) : option (option (nat * nat)) :=
  endTagFrom (S (String.length text)) (ToLower text) text ("<" +:+ ToLower tag) ("</" +:+ ToLower tag) 1 from.

Fixpoint elementBlocksFrom (fuel : nat) (text tag : string) (pos : nat) : option (list xmlElementBlock) :=
  match fuel with
  | O => Some []
  | S fuel =>
      if String.length text <=? pos then Some []
      else
        open ← findXMLStartTagOutsideCDATA text tag pos;
        match open with
        | None => Some []
        | Some (start, bodyStart, attrs) =>
            close ← findMatchingXMLEndTagOutsideCDATA text tag bodyStart;
            match close with
            | None => elementBlocksFrom fuel text tag bodyStart
            | Some (closeStart, closeEnd) =>
                rest ← elementBlocksFrom fuel text tag closeEnd;
                Some ({| Attrs := attrs; Body := substr text bodyStart closeStart; BStart := start; BEnd := closeEnd |} :: rest)
            end
        end
  end.

Definition findXMLElementBlocks (text tag : string) : option (list xmlElementBlock) :=
  if bool_decide (text = "") || bool_decide (tag = "") then Some [] else elementBlocksFrom (S (String.length text)) text tag 0.

(** ** Rewriting decorated tags (toolcalls_dsml.go) *)

(** [strings.TrimRight(s, " \t\r\n")] *)
Fixpoint trimLeftBlank (s : string) : string :=
  match s with String c s' => if isBlank c then trimLeftBlank s' else s | EmptyString => "" end.
Definition trimRightBlank (s : string) : string := strRev (trimLeftBlank (strRev s)).

Definition stripDSMLTrailingPipe (seg : string) : string :=
  if negb (HasSuffix seg ">") then seg
  else
    let body := trimRightBlank (strTake (String.length seg - 1) seg) in
    if HasSuffix body "|" then trimRightBlank (TrimSuffix body "|") +:+ ">"
    else if HasSuffix body wideBar then trimRightBlank (TrimSuffix body wideBar) +:+ ">"
    else seg.

Fixpoint rewriteFrom (fuel : nat) (text : string) (i : nat) (out : string) : option string :=
  match fuel with
  | O => Some out
  | S fuel =>
      if String.length text <=? i then Some out
      else
        skip ← skipXMLIgnoredSection (ToLower text) i;
        match skip with
        | Blocked => Some (out +:+ strDrop i text)
        | SkipTo next => rewriteFrom fuel text next (out +:+ substr text i next)
        | NoSkip =>
            tag ← scanToolMarkupTagAt text i;
            match tag with
            | None => rewriteFrom fuel text (S i) (out +:+ substr text i (S i))
            | Some tag =>
                let canonicalName := canonicalToolMarkupName (Name tag) in
                if DSMLLike tag || negb (bool_decide (canonicalName = Name tag)) then
                  let out := out +:+ "<" +:+ (if Closing tag then "/" else "") +:+ canonicalName
                             +:+ stripDSMLTrailingPipe (substr text (NameEnd tag) (End_ tag + 1))
                             +:+ (if bool_decide (byteAt text (End_ tag) = Some ">"%char) then "" else ">") in
                  rewriteFrom fuel text (End_ tag + 1) out
                else rewriteFrom fuel text (End_ tag + 1) (out +:+ substr text (Start tag) (End_ tag + 1))
            end
        end
  end.

Definition rewriteDSMLToolMarkupOutsideIgnored (text : string) : option string := rewriteFrom (S (String.length text)) text 0 "".

(** ** Facts: bounds *)

Lemma byteAt_lt (s : string) (i : nat) (c : ascii) : byteAt s i = Some c -> i < String.length s.
Proof.
  unfold byteAt. intros H. destruct (decide (i < String.length s)) as [|Hn]; [done|]. by rewrite strDrop_all in H by lia.
Qed.

Lemma sliceFrom_Some (s t : string) (i : nat) : sliceFrom s i = Some t <-> i <= String.length s /\ t = strDrop i s.
Proof.
  unfold sliceFrom. destruct (Nat.leb_spec i (String.length s)); split; intros H1; try done.
  - by injection H1 as <-.
  - by destruct H1 as [_ ->].
  - lia.
Qed.

Lemma prefix_in_range (s p : string) (i : nat) : i <= String.length s -> HasPrefix (strDrop i s) p = true -> i + String.length p <= String.length s.
Proof. intros Hi H%HasPrefix_length. rewrite length_strDrop in H. lia. Qed.

Lemma pipe_bounds (text : string) (idx next : nat) :
  consumeToolMarkupPipe text idx = Some next -> idx < next <= String.length text.
Proof.
  unfold consumeToolMarkupPipe. destruct (strDrop idx text) as [|c rest] eqn:E; [done|].
  assert (Hi : idx < String.length text) by (apply (byteAt_lt text idx c); unfold byteAt; by rewrite E).
  case_bool_decide; [intros [= <-]; lia|]. destruct (HasPrefix _ wideBar) eqn:Hp; [|done]. intros [= <-].
  rewrite <- E in Hp. apply prefix_in_range in Hp; [|lia]. change (String.length wideBar) with 3 in *. lia.
Qed.

Lemma space_bounds (text : string) (idx next : nat) :
  consumeToolMarkupSpaceSeparator text idx = Some next -> idx < next <= String.length text.
Proof.
  unfold consumeToolMarkupSpaceSeparator. destruct (byteAt text idx) as [c|] eqn:E; [|done]. apply byteAt_lt in E.
  destruct (isBlank c); [|done]. intros [= <-]. lia.
Qed.

Lemma artifact_bounds (text : string) (idx next : nat) :
  consumeToolMarkupTokenArtifact text idx = Some next -> idx < next <= String.length text.
Proof.
  unfold consumeToolMarkupTokenArtifact. destruct (strDrop idx text) as [|c rest] eqn:E; [done|].
  assert (Hi : idx < String.length text) by (apply (byteAt_lt text idx c); unfold byteAt; by rewrite E).
  destruct (List.find _ _) as [a|] eqn:Hf; [|done]. apply List.find_some in Hf as [Hin Hp]. intros [= <-].
  rewrite <- E in Hp. apply prefix_in_range in Hp; [|lia].
  assert (String.length a = 3); [|lia]. clear -Hin. by repeat destruct Hin as [<-|Hin].
Qed.

Lemma once_bounds (low text : string) (idx next : nat) (allow : bool) :
  String.length low <= String.length text ->
  consumeToolMarkupNamePrefixOnce low text idx allow = Some (Some next) -> idx < next <= String.length text.
Proof.
  intros Hl. unfold consumeToolMarkupNamePrefixOnce.
  destruct (consumeToolMarkupPipe text idx) eqn:E1; [intros [= <-]; by apply pipe_bounds in E1|].
  destruct (consumeToolMarkupSpaceSeparator text idx) eqn:E2; [intros [= <-]; by apply space_bounds in E2|].
  destruct (sliceFrom low idx) as [tail|] eqn:Es; cbn [mbind option_bind]; [|done]. apply sliceFrom_Some in Es as [Hi ->].
  destruct (HasPrefix _ "{:dsml}") eqn:H1.
  { intros [= <-]. apply prefix_in_range in H1; [|done]. change (String.length "{:dsml}") with 7 in *. lia. }
  destruct (HasPrefix _ "dsml") eqn:H2.
  { intros [= <-]. apply prefix_in_range in H2; [|done]. change (String.length "dsml") with 4 in *. lia. }
  unfold consumeToolMarkupHyphenSeparator. destruct (byteAt text idx) as [c|] eqn:Eb.
  - apply byteAt_lt in Eb. destruct (negb _); cbn [mbind option_bind]; [destruct allow; [|done]; intros [= H]; by apply artifact_bounds in H|].
    destruct (sliceFrom low (idx + 1)); cbn [mbind option_bind]; [|done].
    destruct (hasToolMarkupNamePrefix _); [intros [= <-]; lia|]. destruct allow; [|done]. intros [= H]. by apply artifact_bounds in H.
  - cbn [mbind option_bind]. destruct allow; [|done]. intros [= H]. by apply artifact_bounds in H.
Qed.

Lemma prefixes_bounds (fuel : nat) (low text : string) (idx i : nat) (d d' : bool) :
  String.length low <= String.length text -> idx <= String.length text ->
  consumePrefixes fuel low text idx d = Some (i, d') -> idx <= i <= String.length text.
Proof.
  intros Hl. revert idx d. induction fuel as [|fuel IH]; intros idx d Hi; cbn [consumePrefixes]; [intros [= <- _]; lia|].
  destruct (consumeToolMarkupNamePrefixOnce low text idx d) as [[next|]|] eqn:E; cbn [mbind option_bind]; [|intros [= <- _]; lia|done].
  apply once_bounds in E; [|done]. intros H. apply IH in H; lia.
Qed.

Lemma pipes_bounds (fuel : nat) (text : string) (idx : nat) :
  idx <= consumePipes fuel text idx /\ (idx <= String.length text -> consumePipes fuel text idx <= String.length text).
Proof.
  revert idx. induction fuel as [|fuel IH]; intros idx; cbn [consumePipes]; [lia|].
  destruct (consumeToolMarkupPipe text idx) as [next|] eqn:E; [|lia]. apply pipe_bounds in E. specialize (IH next). lia.
Qed.

Lemma tagEndFrom_bounds (rest : string) (i e : nat) (q : option ascii) : tagEndFrom rest i q = Some e -> i <= e < i + String.length rest.
Proof.
  revert i q. induction rest as [|c rest IH]; intros i q; simpl; [done|]. destruct q as [q|].
  - intros H%IH. lia.
  - destruct (_ || _); [intros H%IH; lia|]. case_bool_decide; [intros [= <-]; lia|]. intros Hm%IH. lia.
Qed.

Lemma findXMLTagEnd_bounds (text : string) (from e : nat) : findXMLTagEnd text from = Some e -> from <= e < String.length text.
Proof. unfold findXMLTagEnd. intros H%tagEndFrom_bounds. rewrite length_strDrop in H. lia. Qed.

Lemma leadingLT_bounds (s : string) : leadingLT s <= String.length s.
Proof. induction s as [|c s IH]; simpl; [lia|]. case_bool_decide; lia. Qed.

Lemma name_nonempty (name : string) : name ∈ toolMarkupNames -> 6 <= String.length name.
Proof. intros H%list_elem_of_In. repeat destruct H as [<-|H]; simpl; try lia; done. Qed.

(** What the scanner guarantees about a tag it reports. *)
Lemma scan_bounds (text : string) (start : nat) (tag : ToolMarkupTag) :
  scanToolMarkupTagAt text start = Some (Some tag) ->
  Start tag = start /\ start < End_ tag < String.length text /\ start < NameStart tag < NameEnd tag /\ NameEnd tag <= End_ tag + 1 /\
  Name tag ∈ toolMarkupNames /\ byteAt text start = Some "<"%char.
Proof.
  unfold scanToolMarkupTagAt. destruct (negb _) eqn:Hb; [done|]. apply negb_false_iff, bool_decide_eq_true in Hb. cbv zeta.
  pose proof (byteAt_lt _ _ _ Hb) as Hs. pose proof (ToLower_length text) as Hl.
  assert (HLT : 1 <= leadingLT (strDrop start text)).
  { unfold byteAt in Hb. destruct (strDrop start text) as [|c r]; [done|]. injection Hb as ->. simpl. lia. }
  pose proof (leadingLT_bounds (strDrop start text)) as HLT2. rewrite length_strDrop in HLT2.
  set (i0 := start + leadingLT (strDrop start text)) in *. set (cl := bool_decide (byteAt text i0 = _)).
  assert (Hi1 : start < (if cl then i0 + 1 else i0) <= String.length text).
  { unfold cl. case_bool_decide as E; [apply byteAt_lt in E|]; lia. }
  destruct (consumeToolMarkupNamePrefix _ _ _) as [[i d]|] eqn:Ep; cbn [mbind option_bind]; [|done].
  apply prefixes_bounds in Ep; [|lia..]. unfold matchToolMarkupName.
  destruct (sliceFrom (ToLower text) i) as [tail|] eqn:Es; cbn [mbind option_bind]; [|done]. apply sliceFrom_Some in Es as [Hi ->].
  destruct (List.find _ _) as [name|] eqn:Hf; [|done]. apply List.find_some in Hf as [Hin%list_elem_of_In Hp].
  apply prefix_in_range in Hp; [|done]. pose proof (name_nonempty name Hin) as Hn.
  destruct (pipes_bounds (String.length text) text (i + String.length name)) as [Hp1 Hp2].
  set (ne := consumePipes _ _ _) in *. specialize (Hp2 ltac:(lia)). destruct (negb _); [done|].
  assert (Hmain : forall e, ne - 1 <= e < String.length text -> 
    Some (Some {| Start := start; End_ := e; NameStart := i; NameEnd := ne; Name := name; Closing := cl;
      SelfClosing := HasSuffix (TrimSpace (substr text start (e + 1))) "/>"; DSMLLike := d; Canonical := negb d |}) = Some (Some tag) ->
    Start tag = start /\ start < End_ tag < String.length text /\ start < NameStart tag < NameEnd tag /\ NameEnd tag <= End_ tag + 1 /\
    Name tag ∈ toolMarkupNames /\ byteAt text start = Some "<"%char).
  { intros e He [= <-]. simpl. split_and!; try done; lia. }
  destruct (findXMLTagEnd text ne) as [e|] eqn:Ee.
  - apply findXMLTagEnd_bounds in Ee. apply Hmain. unfold default, id. repeat case_match; lia.
  - destruct (_ <? ne) eqn:Hpipe; [|done]. apply Nat.ltb_lt in Hpipe. apply Hmain. unfold default, id. repeat case_match; lia.
Qed.

Lemma skip_bounds (low : string) (i next : nat) : skipXMLIgnoredSection low i = Some (SkipTo next) -> i < next <= String.length low.
Proof.
  unfold skipXMLIgnoredSection. set (n := cdataOpenerByteLenAt low i). destruct (0 <? n) eqn:Hn.
  - destruct (sliceFrom low (i + n)) as [r|] eqn:Es; cbn [mbind option_bind]; [|done]. apply sliceFrom_Some in Es as [Hi ->].
    destruct (Index _ _) as [e|] eqn:E; [|done]. intros [= <-]. apply Index_spec in E as [Hp He]. rewrite length_strDrop in He.
    rewrite strDrop_drop in Hp. apply prefix_in_range in Hp; [|lia]. simpl in Hp. lia.
  - destruct (sliceFrom low i) as [r|] eqn:Es; cbn [mbind option_bind]; [|done]. destruct (HasPrefix r "<!--"); [|done].
    destruct (sliceFrom low (i + 4)) as [r'|] eqn:Es'; cbn [mbind option_bind]; [|done]. apply sliceFrom_Some in Es' as [Hi ->].
    destruct (Index _ _) as [e|] eqn:E; [|done]. intros [= <-]. apply Index_spec in E as [Hp He]. rewrite length_strDrop in He.
    rewrite strDrop_drop in Hp. apply prefix_in_range in Hp; [|lia]. simpl in Hp. lia.
Qed.

(** A found tag is one that scans at its start, at or after the given offset. *)
Lemma find_bounds (text : string) (start : nat) (tag : ToolMarkupTag) :
  FindToolMarkupTagOutsideIgnored text start = Some (Some tag) ->
  start <= Start tag < End_ tag /\ End_ tag < String.length text /\ scanToolMarkupTagAt text (Start tag) = Some (Some tag).
Proof.
  unfold FindToolMarkupTagOutsideIgnored. generalize (S (String.length text)) as fuel. intros fuel. revert start.
  induction fuel as [|fuel IH]; intros i; cbn [findTagFrom]; [done|]. destruct (_ <=? _); [done|].
  destruct (skipXMLIgnoredSection (ToLower text) i) as [[|next|]|] eqn:E; cbn [mbind option_bind]; try done.
  - destruct (scanToolMarkupTagAt text i) as [[t|]|] eqn:Et; cbn [mbind option_bind]; [| |done].
    + intros [= <-]. pose proof (scan_bounds _ _ _ Et) as (H1 & H2 & _). rewrite H1. split; [lia|]. split; [lia|done].
    + intros H%IH. split; [lia|]. tauto.
  - apply skip_bounds in E. intros H%IH. split; [lia|]. tauto.
Qed.

Lemma close_bounds (text : string) (open tag : ToolMarkupTag) :
  FindMatchingToolMarkupClose text open = Some (Some tag) -> End_ open < Start tag < End_ tag /\ End_ tag < String.length text.
Proof.
  unfold FindMatchingToolMarkupClose. destruct (_ || _); [done|]. generalize (S (String.length text)) as fuel. intros fuel.
  assert (G : forall fuel depth pos, matchingClose fuel text (Name open) depth pos = Some (Some tag) ->
    pos <= Start tag < End_ tag /\ End_ tag < String.length text).
  { clear fuel. induction fuel as [|fuel IH]; intros depth pos; cbn [matchingClose]; [done|]. destruct (_ <=? _); [done|].
    destruct (FindToolMarkupTagOutsideIgnored text pos) as [[t|]|] eqn:E; cbn [mbind option_bind]; try done.
    apply find_bounds in E as (H1 & H2 & _). destruct (negb _); [intros H%IH; lia|].
    destruct (Closing t); [case_bool_decide; [intros [= <-]; lia|]|]; intros Hm%IH; lia. }
  intros H%G. lia.
Qed.

(** ** Facts: the scanner does not fail on text whose lower case has the same length *)

Definition aligned (text : string) : Prop := String.length (ToLower text) = String.length text.

Lemma aligned_ascii (text : string) : asciiOnly text = true -> aligned text.
Proof. intros H. unfold aligned. by rewrite ToLower_ascii, lower_length. Qed.

Lemma sliceFrom_in (s : string) (i : nat) : i <= String.length s -> sliceFrom s i = Some (strDrop i s).
Proof. intros H. by apply sliceFrom_Some. Qed.

Lemma once_total (low text : string) (idx : nat) (allow : bool) :
  String.length low = String.length text -> idx <= String.length text -> is_Some (consumeToolMarkupNamePrefixOnce low text idx allow).
Proof.
  intros Hl Hi. unfold consumeToolMarkupNamePrefixOnce. destruct (consumeToolMarkupPipe text idx); [done|].
  destruct (consumeToolMarkupSpaceSeparator text idx); [done|]. rewrite sliceFrom_in by lia. cbn [mbind option_bind].
  destruct (HasPrefix _ _); [done|]. destruct (HasPrefix _ _); [done|]. unfold consumeToolMarkupHyphenSeparator.
  destruct (byteAt text idx) as [c|] eqn:E; [|done]. apply byteAt_lt in E. destruct (negb _); [done|].
  rewrite sliceFrom_in by lia. cbn [mbind option_bind]. by destruct (hasToolMarkupNamePrefix _).
Qed.

Lemma prefixes_total (fuel : nat) (low text : string) (idx : nat) (d : bool) :
  String.length low = String.length text -> idx <= String.length text -> is_Some (consumePrefixes fuel low text idx d).
Proof.
  intros Hl. revert idx d. induction fuel as [|fuel IH]; intros idx d Hi; cbn [consumePrefixes]; [done|].
  destruct (once_total low text idx d Hl Hi) as [[next|] E]; rewrite E; cbn [mbind option_bind]; [|done].
  apply once_bounds in E; [|lia]. apply IH. lia.
Qed.

Lemma scan_total (text : string) (start : nat) : aligned text -> is_Some (scanToolMarkupTagAt text start).
Proof.
  intros Ha. unfold aligned in Ha. unfold scanToolMarkupTagAt. destruct (negb _) eqn:Hb; [done|].
  apply negb_false_iff, bool_decide_eq_true in Hb. cbv zeta. apply byteAt_lt in Hb.
  pose proof (leadingLT_bounds (strDrop start text)) as HLT. rewrite length_strDrop in HLT.
  set (i0 := start + leadingLT (strDrop start text)) in *. set (cl := bool_decide (byteAt text i0 = _)).
  assert (Hi1 : (if cl then i0 + 1 else i0) <= String.length text).
  { unfold cl. case_bool_decide as E; [apply byteAt_lt in E|]; lia. }
  unfold consumeToolMarkupNamePrefix.
  destruct (prefixes_total (S (String.length text)) (ToLower text) text _ false Ha Hi1) as [[i d] E]. rewrite E. cbn [mbind option_bind].
  apply prefixes_bounds in E; [|lia..]. unfold matchToolMarkupName. rewrite sliceFrom_in by lia. cbn [mbind option_bind].
  destruct (List.find _ _) as [name|]; [|done]. destruct (negb _); [done|]. destruct (findXMLTagEnd _ _); [done|]. by destruct (_ <? _).
Qed.

Lemma skip_total (low : string) (i : nat) : i <= String.length low -> is_Some (skipXMLIgnoredSection low i).
Proof.
  intros Hi. unfold skipXMLIgnoredSection, cdataOpenerByteLenAt. destruct (Nat.leb_spec (String.length low) i) as [|Hlt].
  { cbv zeta. change (0 <? 0) with false. cbv iota. rewrite (sliceFrom_in low i Hi). cbn [mbind option_bind]. by rewrite strDrop_all. }
  set (c1 := HasPrefix (strDrop i low) "<![cdata["). set (c2 := HasPrefix _ "<![cdata|"). set (c3 := HasPrefix _ ("<![cdata" +:+ wideBar)).
  assert (Hopen : forall p : string, HasPrefix (strDrop i low) p = true -> 0 < String.length p ->
    is_Some (if 0 <? String.length p then rest ← sliceFrom low (i + String.length p);
       Some (match Index rest "]]>" with None => Blocked | Some e => SkipTo (i + String.length p + e + 3) end)
     else rest ← sliceFrom low i; if HasPrefix rest "<!--" then rest ← sliceFrom low (i + 4);
       Some (match Index rest "-->" with None => Blocked | Some e => SkipTo (i + 4 + e + 3) end) else Some NoSkip)).
  { intros p Hp Hlen. apply prefix_in_range in Hp; [|lia]. rewrite (proj2 (Nat.ltb_lt 0 _)) by done.
    rewrite sliceFrom_in by done. cbn [mbind option_bind]. done. }
  destruct c1 eqn:E1; [apply (Hopen _ E1); simpl; lia|]. destruct c2 eqn:E2; [apply (Hopen _ E2); simpl; lia|].
  destruct c3 eqn:E3; [apply (Hopen _ E3); simpl; lia|].
  cbv zeta. change (0 <? 0) with false. cbv iota. rewrite (sliceFrom_in low i Hi). cbn [mbind option_bind]. destruct (HasPrefix (strDrop i low) "<!--") eqn:E4; [|done].
  apply prefix_in_range in E4; [|lia]. simpl in E4. by rewrite sliceFrom_in by lia.
Qed.

Lemma find_total (text : string) (start : nat) : aligned text -> is_Some (FindToolMarkupTagOutsideIgnored text start).
Proof.
  intros Ha. unfold FindToolMarkupTagOutsideIgnored. generalize (S (String.length text)) as fuel. intros fuel. revert start.
  induction fuel as [|fuel IH]; intros i; cbn [findTagFrom]; [done|]. destruct (Nat.leb_spec (String.length text) i); [done|].
  destruct (skip_total (ToLower text) i) as [[|next|] E]; [unfold aligned in Ha; lia|..]; rewrite E; cbn [mbind option_bind]; [|apply IH|done].
  destruct (scan_total text i Ha) as [[tag|] Et]; rewrite Et; cbn [mbind option_bind]; [done|apply IH].
Qed.

Lemma close_total (text : string) (open : ToolMarkupTag) : aligned text -> is_Some (FindMatchingToolMarkupClose text open).
Proof.
  intros Ha. unfold FindMatchingToolMarkupClose. destruct (_ || _); [done|]. generalize (S (String.length text)) as fuel. intros fuel.
  generalize (End_ open + 1) as pos. generalize 1 as depth. induction fuel as [|fuel IH]; intros depth pos; cbn [matchingClose]; [done|].
  destruct (_ <=? _); [done|]. destruct (find_total text pos Ha) as [[t|] E]; rewrite E; cbn [mbind option_bind]; [|done].
  destruct (negb _); [apply IH|]. destruct (Closing t); [case_bool_decide; [done|apply IH]|apply IH].
Qed.

Lemma partial_total (text : string) : aligned text -> is_Some (IsPartialToolMarkupTagPrefix text).
Proof.
  intros Ha. unfold IsPartialToolMarkupTagPrefix. destruct (_ || _); [done|]. destruct (_ <=? _); [done|].
  set (i := if bool_decide _ then _ else _). generalize (S (String.length text)) as fuel. intros fuel. generalize false as d.
  generalize i as j. induction fuel as [|fuel IH]; intros j d; cbn [partialFrom]; [done|].
  destruct (Nat.ltb_spec (String.length text) j); [done|]. case_bool_decide; [done|]. unfold aligned in Ha. rewrite sliceFrom_in by lia.
  cbn [mbind option_bind]. destruct (hasToolMarkupNamePrefix _); [done|]. destruct (hasToolMarkupDSMLPrefixPrefix _); [done|].
  destruct (once_total (ToLower text) text j d Ha) as [[next|] E]; [lia|..]; rewrite E; cbn [mbind option_bind]; [apply IH|done].
Qed.

(** The Kelvin sign (three bytes) is lower-cased to one byte: the search for tags in a
    text that ends with it slices past the end of the lower-cased text. *)
Definition kelvin : string := bytes [0xE2; 0x84; 0xAA]%N.

Theorem scanner_crashes : FindToolMarkupTagOutsideIgnored ("300 " +:+ kelvin) 0 = None.
Proof. vm_compute. reflexivity. Qed.
