(* ===== verification/ToolSieve.v ===== *)
(** The stream sieve that separates tool calls from streamed text:
    [internal/toolstream] (tool_sieve_core.go, tool_sieve_xml.go, tool_sieve_xml_scan.go,
    tool_sieve_jsonscan.go, tool_sieve_state.go).

    Text arrives in chunks; ordinary text is passed on, text from a tool tag on is
    captured until the block is complete, and a complete block is given to the parser
    of tool calls, which is an argument here ([parse], see [ToolScan] for the tags).
    [None] is a run-time error of the scanner. *)
From S2P Require Import Prelude GoString GoText ToolScan.
From Stdlib Require Import Ascii.
Local Open Scope nat_scope.

(** ** Code fences (tool_sieve_state.go) *)

Record codeFenceSimulation := { stack : list Z; pendingTicks : Z; pendingTildes : Z; lineStart : bool }.

(** Positive markers are runs of backticks, negative ones runs of tildes; the top of the
    stack is the last element. *)
Definition applyFenceMarker (stk : list Z) (marker : Z) : list Z :=
  if bool_decide (marker = 0%Z) then stk
  else match last stk with
       | None => stk ++ [marker]
       | Some top =>
           let sameType := ((0 <? top)%Z && (0 <? marker)%Z) || ((top <? 0)%Z && (marker <? 0)%Z) in
           if negb sameType then stk ++ [marker]
           else if (Z.abs top <=? Z.abs marker)%Z then removelast stk
           else stk ++ [marker]
       end.

Definition flushPendingFence (f : codeFenceSimulation) : codeFenceSimulation :=
  let f := if (0 <? pendingTicks f)%Z
           then {| stack := if lineStart f && (3 <=? pendingTicks f)%Z then applyFenceMarker (stack f) (pendingTicks f) else stack f;
                   pendingTicks := 0; pendingTildes := pendingTildes f; lineStart := false |}
           else f in
  if (0 <? pendingTildes f)%Z
  then {| stack := if lineStart f && (3 <=? pendingTildes f)%Z then applyFenceMarker (stack f) (- pendingTildes f) else stack f;
          pendingTicks := pendingTicks f; pendingTildes := 0; lineStart := false |}
  else f.

Definition setLineStart (b : bool) (f : codeFenceSimulation) : codeFenceSimulation :=
  {| stack := stack f; pendingTicks := pendingTicks f; pendingTildes := pendingTildes f; lineStart := b |}.

Definition fenceByte (f : codeFenceSimulation) (ch : ascii) : codeFenceSimulation :=
  if bool_decide (ch = "`"%char) then
    let f := if (0 <? pendingTildes f)%Z then flushPendingFence f else f in
    {| stack := stack f; pendingTicks := i64 (pendingTicks f + 1); pendingTildes := pendingTildes f; lineStart := lineStart f |}
  else if bool_decide (ch = "~"%char) then
    let f := if (0 <? pendingTicks f)%Z then flushPendingFence f else f in
    {| stack := stack f; pendingTicks := pendingTicks f; pendingTildes := i64 (pendingTildes f + 1); lineStart := lineStart f |}
  else
    let f := flushPendingFence f in
    if bool_decide (ch ∈ [ascii_of_N 10; ascii_of_N 13]) then setLineStart true f
    else if bool_decide (ch ∈ [" "%char; ascii_of_N 9]) then (if lineStart f then f else setLineStart false f)
    else setLineStart false f.

Fixpoint simulateCodeFenceState (f : codeFenceSimulation) (text : string) : codeFenceSimulation :=
  match text with EmptyString => f | String ch text => simulateCodeFenceState (fenceByte f ch) text end.

(** ** The state *)

Record Incremental := {
  disableDeltas : bool; toolNameSent : bool; toolName : string; toolArgsStart : Z; toolArgsSent : Z; toolArgsString : bool; toolArgsDone : bool
}.

Definition resetIncrementalToolState : Incremental :=
  {| disableDeltas := false; toolNameSent := false; toolName := ""; toolArgsStart := -1; toolArgsSent := -1; toolArgsString := false;
     toolArgsDone := false |}.

Definition hasMeaningfulText (text : string) : bool := negb (bool_decide (TrimSpace text = "")).

(** ** The tags of a capture (tool_sieve_xml.go, tool_sieve_xml_scan.go, tool_sieve_jsonscan.go) *)

Fixpoint firstTagByName (fuel : nat) (s : string) (pos : nat) (name : string) (closing : bool) : option (option ToolMarkupTag) :=
  match fuel with
  | O => Some None
  | S fuel =>
      if String.length s <=? pos then Some None
      else
        tag ← FindToolMarkupTagOutsideIgnored s pos;
        match tag with
        | None => Some None
        | Some tag => if bool_decide (Name tag = name) && Bool.eqb (Closing tag) closing then Some (Some tag)
                      else firstTagByName fuel s (End_ tag + 1) name closing
        end
  end.

Definition findFirstToolMarkupTagByNameFrom (s : string) (start : nat) (name : string) (closing : bool) : option (option ToolMarkupTag) :=
  firstTagByName (S (String.length s)) s start name closing.

Definition findFirstToolMarkupTagByName (s : string) (start : nat) (name : string) : option (option ToolMarkupTag) :=
  findFirstToolMarkupTagByNameFrom s start name false.

(** [strings.LastIndex(s, sub)] *)
Fixpoint lastIndexFrom (s sub : string) (i : nat) : option nat :=
  match s with
  | EmptyString => if HasPrefix s sub then Some i else None
  | String _ r => match lastIndexFrom r sub (S i) with Some j => Some j | None => if HasPrefix s sub then Some i else None end
  end.
Definition LastIndex (s sub : string) : option nat := lastIndexFrom s sub 0.

(** [strings.Count(s, sub)] for a non-empty [sub]. *)
Fixpoint countFrom (fuel : nat) (s sub : string) : nat :=
  match fuel with
  | O => 0
  | S fuel => match Index s sub with Some i => S (countFrom fuel (strDrop (i + String.length sub) s) sub) | None => 0 end
  end.
Definition Count (s sub : string) : nat := countFrom (String.length s) s sub.

Definition trimWrappingJSONFence (prefix suffix : string) : string * string :=
  let trimmedPrefix := trimRightBlank prefix in
  match LastIndex trimmedPrefix "```" with
  | None => (prefix, suffix)
  | Some fenceIdx =>
      if Nat.even (Count (strTake (fenceIdx + 3) trimmedPrefix) "```") then (prefix, suffix)
      else
        let fenceHeader := TrimSpace (strDrop (fenceIdx + 3) trimmedPrefix) in
        if negb (bool_decide (fenceHeader = "")) && negb (EqualFold fenceHeader "json") then (prefix, suffix)
        else
          let trimmedSuffix := trimLeftBlank suffix in
          if negb (HasPrefix trimmedSuffix "```") then (prefix, suffix)
          else (strTake fenceIdx trimmedPrefix, strDrop 3 trimmedSuffix)
  end.

(** The number of brackets that end at [idx]. *)
Fixpoint includeDuplicateLeadingLessThan (s : string) (idx : nat) : nat :=
  match idx with
  | O => 0
  | S i => if bool_decide (byteAt s i = Some "<"%char) then includeDuplicateLeadingLessThan s i else idx
  end.

Definition isBareSingularToolCallTag (text : string) (tag : ToolMarkupTag) : bool :=
  if DSMLLike tag then false
  else if bool_decide (Name tag = "tool_call") then true
  else if negb (bool_decide (Name tag = "tool_calls")) then false
  else if (String.length text <? NameEnd tag) || (NameEnd tag <=? NameStart tag) then false
  else EqualFold (substr text (NameStart tag) (NameEnd tag)) "tool_call".

Definition findPartialXMLToolTagStart (s : string) : option (option nat) :=
  match LastIndex s "<" with
  | None => Some None
  | Some lastLT =>
      let start := includeDuplicateLeadingLessThan s lastLT in
      let tail := strDrop start s in
      if Contains tail ">" then Some None
      else partial ← IsPartialToolMarkupTagPrefix tail; Some (if partial : bool then Some start else None)
  end.

Fixpoint openToolTagFrom (fuel : nat) (captured : string) (searchFrom : nat) : option bool :=
  match fuel with
  | O => Some false
  | S fuel =>
      if String.length captured <=? searchFrom then Some false
      else
        tag ← FindToolMarkupTagOutsideIgnored captured searchFrom;
        match tag with
        | None => Some false
        | Some tag =>
            if Closing tag || negb (bool_decide (Name tag = "tool_calls")) then openToolTagFrom fuel captured (End_ tag + 1)
            else
              close ← FindMatchingToolMarkupClose captured tag;
              match close with None => Some true | Some _ => openToolTagFrom fuel captured (End_ tag + 1) end
        end
  end.

Definition hasOpenXMLToolTag (captured : string) : option bool := openToolTagFrom (S (String.length captured)) captured 0.

Definition shouldKeepBareInvokeCapture (captured : string) : option bool :=
  invoke ← findFirstToolMarkupTagByName captured 0 "invoke";
  match invoke with
  | None => Some false
  | Some invokeTag =>
      wrapper ← findFirstToolMarkupTagByName captured 0 "tool_calls";
      if match wrapper with Some w => Start w <=? Start invokeTag | None => false end then Some false
      else
        close ← findFirstToolMarkupTagByNameFrom captured (Start invokeTag + 1) "tool_calls" true;
        if match close with Some c => Start invokeTag <? Start c | None => false end then Some true
        else
          let trimmedBody := trimLeftBlank (strDrop (End_ invokeTag + 1) captured) in
          if bool_decide (trimmedBody = "") then Some true
          else
            invokeClose ← findFirstToolMarkupTagByNameFrom captured (End_ invokeTag + 1) "invoke" true;
            match invokeClose with
            | Some c => Some (bool_decide (TrimSpace (strDrop (End_ c + 1) captured) = ""))
            | None =>
                let trimmedLower := ToLower trimmedBody in
                Some (HasPrefix trimmedLower "<parameter" || HasPrefix trimmedLower "{" || HasPrefix trimmedLower "[")
            end
  end.

Section Sieve.
Context {Call : Type}.
(** [ParseStandaloneToolCallsDetailed]: the calls, and whether the text looked like tool calls. *)
Variable parse : string -> option (list Call * bool).

Record State := {
  pending : string; capture : string; capturing : bool; codeFenceStack : list Z; codeFencePendingTicks : Z; codeFencePendingTildes : Z;
  codeFenceNotLineStart : bool; pendingToolRaw : string; pendingToolCalls : list Call; incremental : Incremental
}.

(** The deltas of an event are never set. *)
Record Event := { Content : string; ToolCalls : list Call }.

Definition content (s : string) : Event := {| Content := s; ToolCalls := [] |}.
Definition calls (c : list Call) : Event := {| Content := ""; ToolCalls := c |}.

Definition fenceOf (st : State) : codeFenceSimulation :=
  {| stack := codeFenceStack st; pendingTicks := codeFencePendingTicks st; pendingTildes := codeFencePendingTildes st;
     lineStart := negb (codeFenceNotLineStart st) |}.

Definition insideCodeFenceWithState (st : State) (text : string) : bool :=
  match stack (simulateCodeFenceState (fenceOf st) text) with [] => false | _ => true end.

Definition withText (p c : string) (capt : bool) (inc : Incremental) (st : State) : State :=
  {| pending := p; capture := c; capturing := capt; codeFenceStack := codeFenceStack st; codeFencePendingTicks := codeFencePendingTicks st;
     codeFencePendingTildes := codeFencePendingTildes st; codeFenceNotLineStart := codeFenceNotLineStart st;
     pendingToolRaw := pendingToolRaw st; pendingToolCalls := pendingToolCalls st; incremental := inc |}.

Definition withCalls (c : list Call) (st : State) : State :=
  {| pending := pending st; capture := capture st; capturing := capturing st; codeFenceStack := codeFenceStack st;
     codeFencePendingTicks := codeFencePendingTicks st; codeFencePendingTildes := codeFencePendingTildes st;
     codeFenceNotLineStart := codeFenceNotLineStart st; pendingToolRaw := pendingToolRaw st; pendingToolCalls := c;
     incremental := incremental st |}.

Definition updateCodeFenceState (st : State) (text : string) : State :=
  if negb (hasMeaningfulText text) then st
  else
    let next := simulateCodeFenceState (fenceOf st) text in
    {| pending := pending st; capture := capture st; capturing := capturing st; codeFenceStack := stack next;
       codeFencePendingTicks := pendingTicks next; codeFencePendingTildes := pendingTildes next;
       codeFenceNotLineStart := negb (lineStart next); pendingToolRaw := pendingToolRaw st; pendingToolCalls := pendingToolCalls st;
       incremental := incremental st |}.

Definition noteText (st : State) (text : string) : State := if negb (hasMeaningfulText text) then st else updateCodeFenceState st text.

(** Text that is passed on: it is noted, and an event when it is not empty. *)
Definition emit (text : string) (st : State) (events : list Event) : State * list Event :=
  if bool_decide (text = "") then (st, events) else (noteText st text, events ++ [content text]).

Inductive captureLoop :=
| Best (prefix : string) (found : list Call) (suffix : string)
| Searched (anyOpenFound : bool) (rejected : option (nat * string * string)).

Fixpoint captureFrom (fuel : nat) (captured : string) (searchFrom : nat) (anyOpenFound : bool) (rejected : option (nat * string * string))
  : option captureLoop :=
  match fuel with
  | O => Some (Searched anyOpenFound rejected)
  | S fuel =>
      if String.length captured <=? searchFrom then Some (Searched anyOpenFound rejected)
      else
        tag ← FindToolMarkupTagOutsideIgnored captured searchFrom;
        match tag with
        | None => Some (Searched anyOpenFound rejected)
        | Some tag =>
            if Closing tag || negb (bool_decide (Name tag = "tool_calls")) then captureFrom fuel captured (End_ tag + 1) anyOpenFound rejected
            else
              close ← FindMatchingToolMarkupClose captured tag;
              match close with
              | None => captureFrom fuel captured (End_ tag + 1) true rejected
              | Some closeTag =>
                  let xmlBlock := substr captured (Start tag) (End_ closeTag + 1) in
                  let prefixPart := strTake (Start tag) captured in
                  let suffixPart := strDrop (End_ closeTag + 1) captured in
                  parsed ← parse xmlBlock;
                  match parsed with
                  | ((_ :: _) as found, _) =>
                      let '(prefixPart, suffixPart) := trimWrappingJSONFence prefixPart suffixPart in
                      Some (Best prefixPart found suffixPart)
                  | ([], saw) =>
                      let prefixPart := if saw : bool then prefixPart else prefixPart +:+ xmlBlock in
                      let rejected := match rejected with
                        | Some (s, p, q) => if Start tag <? s then Some (Start tag, prefixPart, suffixPart) else Some (s, p, q)
                        | None => Some (Start tag, prefixPart, suffixPart)
                        end in
                      captureFrom fuel captured (End_ tag + 1) anyOpenFound rejected
                  end
              end
        end
  end.

(** [None]: not ready. *)
Definition consumeXMLToolCapture (captured : string) : option (option (string * list Call * string)) :=
  loop ← captureFrom (S (String.length captured)) captured 0 false None;
  match loop with
  | Best prefix found suffix => Some (Some (prefix, found, suffix))
  | Searched true _ => Some None
  | Searched false (Some (_, prefix, suffix)) => Some (Some (prefix, [], suffix))
  | Searched false None =>
      invoke ← findFirstToolMarkupTagByName captured 0 "invoke";
      match invoke with
      | None => Some None
      | Some invokeTag =>
          wrapper ← findFirstToolMarkupTagByName captured 0 "tool_calls";
          if match wrapper with Some w => Start invokeTag <? Start w | None => true end then
            close ← findFirstToolMarkupTagByNameFrom captured (Start invokeTag + 1) "tool_calls" true;
            match close with
            | Some closeTag =>
                if Start invokeTag <? Start closeTag then
                  let block := substr captured (Start invokeTag) (End_ closeTag + 1) in
                  let prefixPart := strTake (Start invokeTag) captured in
                  let suffixPart := strDrop (End_ closeTag + 1) captured in
                  parsed ← parse ("<tool_calls>" +:+ block);
                  match parsed with
                  | ((_ :: _) as found, _) => let '(p, q) := trimWrappingJSONFence prefixPart suffixPart in Some (Some (p, found, q))
                  | ([], true) => Some (Some (prefixPart, [], suffixPart))
                  | ([], false) => Some (Some (prefixPart +:+ block, [], suffixPart))
                  end
                else Some None
            | None => Some None
            end
          else Some None
      end
  end.

Definition consumeToolCapture (captured : string) : option (option (string * list Call * string)) :=
  if bool_decide (captured = "") then Some None
  else
    xml ← consumeXMLToolCapture captured;
    match xml with
    | Some r => Some (Some r)
    | None =>
        open ← hasOpenXMLToolTag captured;
        if open : bool then Some None
        else
          keep ← shouldKeepBareInvokeCapture captured;
          Some (if keep : bool then None else Some (captured, [], ""))
    end.

(** ** The sieve (tool_sieve_core.go) *)

Fixpoint segmentStartFrom (fuel : nat) (st : State) (s : string) (offset : nat) : option (option nat) :=
  match fuel with
  | O => Some None
  | S fuel =>
      tag ← FindToolMarkupTagOutsideIgnored s offset;
      match tag with
      | None => Some None
      | Some tag =>
          if isBareSingularToolCallTag s tag then segmentStartFrom fuel st s (End_ tag + 1)
          else
            let start := includeDuplicateLeadingLessThan s (Start tag) in
            if negb (insideCodeFenceWithState st (strTake start s)) then Some (Some start)
            else segmentStartFrom fuel st s (End_ tag + 1)
      end
  end.

Definition findToolSegmentStart (st : State) (s : string) : option (option nat) :=
  if bool_decide (s = "") then Some None else segmentStartFrom (S (String.length s)) st s 0.

Definition splitSafeContentForToolDetection (st : State) (s : string) : option (string * string) :=
  if bool_decide (s = "") then Some ("", "")
  else
    xml ← findPartialXMLToolTagStart s;
    Some (match xml with
          | Some xmlIdx =>
              if insideCodeFenceWithState st (strTake xmlIdx s) then (s, "")
              else if 0 <? xmlIdx then (strTake xmlIdx s, strDrop xmlIdx s)
              else ("", s)
          | None => (s, "")
          end).

(** The loop of [ProcessChunk]; the flag says that it ended by itself. *)
Fixpoint sieveLoop (fuel : nat) (st : State) (events : list Event) : option (State * list Event * bool) :=
  match fuel with
  | O => Some (st, events, false)
  | S fuel =>
      if capturing st then
        let st := withText "" (capture st +:+ pending st) true (incremental st) st in
        ready ← consumeToolCapture (capture st);
        match ready with
        | None => Some (st, events, true)
        | Some (prefix, found, suffix) =>
            let st := withText (pending st) "" false resetIncrementalToolState st in
            let '(st, events) := emit prefix st events in
            let st := withText (pending st +:+ suffix) (capture st) (capturing st) (incremental st) st in
            sieveLoop fuel (match found with [] => st | _ => withCalls found st end) events
        end
      else
        let p := pending st in
        if bool_decide (p = "") then Some (st, events, true)
        else
          start ← findToolSegmentStart st p;
          match start with
          | Some start =>
              let '(st, events) := emit (strTake start p) st events in
              sieveLoop fuel (withText "" (capture st +:+ strDrop start p) true resetIncrementalToolState st) events
          | None =>
              split ← splitSafeContentForToolDetection st p;
              let '(safe, hold) := split in
              if bool_decide (safe = "") then Some (st, events, true)
              else
                let st := withText hold (capture st) (capturing st) (incremental st) st in
                sieveLoop fuel (noteText st safe) (events ++ [content safe])
          end
  end.

Definition clearPendingCalls (st : State) : State :=
  {| pending := pending st; capture := capture st; capturing := capturing st; codeFenceStack := codeFenceStack st;
     codeFencePendingTicks := codeFencePendingTicks st; codeFencePendingTildes := codeFencePendingTildes st;
     codeFenceNotLineStart := codeFenceNotLineStart st; pendingToolRaw := ""; pendingToolCalls := []; incremental := incremental st |}.

Definition takePendingCalls (st : State) (events : list Event) : State * list Event :=
  match pendingToolCalls st with [] => (st, events) | c => (clearPendingCalls st, events ++ [calls c]) end.

(** Each round of the loop shortens the text that is held, or starts a capture of it. *)
Definition sieveFuel (st : State) : nat := 2 * (String.length (pending st) + String.length (capture st)) + 3.

Definition ProcessChunk (st : State) (chunk : string) : option (State * list Event * bool) :=
  let st := withText (pending st +:+ chunk) (capture st) (capturing st) (incremental st) st in
  let '(st, events) := takePendingCalls st [] in
  sieveLoop (sieveFuel st) st events.

(** The end of a capture in [Flush]. *)
Definition flushCapture (st : State) (events : list Event) : option (State * list Event) :=
  ready ← consumeToolCapture (capture st);
  match ready with
  | Some (prefix, found, suffix) =>
      let '(st, events) := emit prefix st events in
      let events := match found with [] => events | _ => events ++ [calls found] end in
      Some (emit suffix st events)
  | None =>
      let captured := capture st in
      if bool_decide (captured = "") then Some (st, events)
      else
        recovered ← SanitizeLooseCDATA captured;
        if bool_decide (recovered = captured) then Some (noteText st captured, events ++ [content captured])
        else
          xml ← consumeXMLToolCapture recovered;
          match xml with
          | Some (prefix, (_ :: _) as found, suffix) =>
              let '(st, events) := emit prefix st events in
              Some (emit suffix st (events ++ [calls found]))
          | _ => Some (noteText st captured, events ++ [content captured])
          end
  end.

Definition Flush (st : State) : option (State * list Event) :=
  r ← ProcessChunk st "";
  let '(st, events, _) := r in
  let '(st, events) := takePendingCalls st events in
  r ← (if capturing st then
         r ← flushCapture st events;
         let '(st, events) := r in Some (withText (pending st) "" false resetIncrementalToolState st, events)
       else Some (st, events));
  let '(st, events) := r in
  Some (if bool_decide (pending st = "") then (st, events)
        else (withText "" (capture st) (capturing st) (incremental st) (noteText st (pending st)), events ++ [content (pending st)])).

Definition newState : State :=
  {| pending := ""; capture := ""; capturing := false; codeFenceStack := []; codeFencePendingTicks := 0; codeFencePendingTildes := 0;
     codeFenceNotLineStart := false; pendingToolRaw := ""; pendingToolCalls := [];
     incremental := {| disableDeltas := false; toolNameSent := false; toolName := ""; toolArgsStart := 0; toolArgsSent := 0;
                       toolArgsString := false; toolArgsDone := false |} |}.
End Sieve.
Arguments State : clear implicits.
Arguments Event : clear implicits.

(** ** Facts: pieces of text *)

Lemma split3 (s : string) (i j : nat) : i <= j -> s = strTake i s +:+ substr s i j +:+ strDrop j s.
Proof.
  intros H. unfold substr. rewrite <- (strTake_drop i s) at 1. f_equal. rewrite <- (strTake_drop (j - i) (strDrop i s)) at 1. f_equal.
  rewrite strDrop_drop. f_equal. lia.
Qed.

Lemma HasPrefix_split (s p : string) : HasPrefix s p = true -> s = p +:+ strDrop (String.length p) s.
Proof.
  revert s. induction p as [|a p IH]; intros s; [by destruct s|]. destruct s as [|b s]; [done|]. cbn [HasPrefix].
  intros [Ha Hp]%andb_true_iff. apply bool_decide_eq_true in Ha as ->. rewrite append_cons. f_equal. by apply IH.
Qed.

Lemma trimLeftBlank_split (s : string) : exists b, s = b +:+ trimLeftBlank s /\ allBytes isBlank b = true.
Proof.
  induction s as [|c s (b & Hb & Ha)]; [by exists ""|]. cbn [trimLeftBlank]. destruct (isBlank c) eqn:E; [|by exists ""].
  exists (String c b). rewrite append_cons, <- Hb. split; [done|]. simpl. by rewrite E.
Qed.

Lemma allBytes_rev (f : ascii -> bool) (s : string) : allBytes f s = true -> allBytes f (strRev s) = true.
Proof.
  assert (G : forall t acc, allBytes f t = true -> allBytes f acc = true -> allBytes f (revOnto t acc) = true).
  { induction t as [|c t IH]; intros acc Ht Ha; [done|]. simpl in *. apply andb_true_iff in Ht as [Hc Ht]. apply IH; [done|].
    simpl. by rewrite Hc. }
  intros H. by apply G.
Qed.

Lemma trimRightBlank_split (s : string) : exists b, s = trimRightBlank s +:+ b /\ allBytes isBlank b = true.
Proof.
  destruct (trimLeftBlank_split (strRev s)) as (b & Hb & Ha). exists (strRev b). unfold trimRightBlank. split; [|by apply allBytes_rev].
  rewrite <- strRev_app, <- Hb. by rewrite strRev_involutive.
Qed.

Lemma LastIndex_spec (s sub : string) (i : nat) : LastIndex s sub = Some i -> HasPrefix (strDrop i s) sub = true.
Proof.
  unfold LastIndex. assert (G : forall s k, lastIndexFrom s sub k = Some i -> k <= i /\ HasPrefix (strDrop (i - k) s) sub = true).
  { clear s. induction s as [|c s IH]; intros k; cbn [lastIndexFrom].
    - destruct (HasPrefix "" sub) eqn:E; [|done]. intros [= ->]. split; [lia|]. by rewrite Nat.sub_diag.
    - destruct (lastIndexFrom s sub (S k)) as [j|] eqn:E.
      + intros [= ->]. apply IH in E as [H1 H2]. split; [lia|]. replace (i - k) with (S (i - S k)) by lia. exact H2.
      + destruct (HasPrefix (String c s) sub) eqn:E'; [|done]. intros [= ->]. split; [lia|]. by rewrite Nat.sub_diag. }
  intros H%G. rewrite Nat.sub_0_r in H. tauto.
Qed.

(** A fence around a block: an opening fence, possibly labelled json, and a closing one. *)
Definition fenceWrap (a b : string) : Prop :=
  exists header blank blank', a = "```" +:+ header +:+ blank /\ b = blank' +:+ "```" /\
    (TrimSpace header = "" \/ EqualFold (TrimSpace header) "json" = true) /\ allBytes isBlank blank = true /\ allBytes isBlank blank' = true.

Lemma trimWrapping_split (p s p' s' : string) :
  trimWrappingJSONFence p s = (p', s') ->
  exists a b, p = p' +:+ a /\ s = b +:+ s' /\ (a = "" /\ b = "" \/ fenceWrap a b).
Proof.
  assert (Hsame : forall x y : string, (p, s) = (x, y) -> exists a b, p = x +:+ a /\ s = b +:+ y /\ (a = "" /\ b = "" \/ fenceWrap a b)).
  { intros x y [= <- <-]. exists "", "". rewrite append_nil_r. split; [done|]. split; [done|by left]. }
  unfold trimWrappingJSONFence. destruct (LastIndex _ _) as [k|] eqn:E; [|apply Hsame]. destruct (Nat.even _); [apply Hsame|]. cbv zeta.
  set (header := strDrop (k + 3) (trimRightBlank p)). destruct (negb _ && _) eqn:Eh; [apply Hsame|].
  destruct (negb (HasPrefix _ _)) eqn:Ep; [apply Hsame|]. apply negb_false_iff in Ep. intros [= <- <-].
  apply LastIndex_spec in E. destruct (trimRightBlank_split p) as (bl & Hp & Hbl). destruct (trimLeftBlank_split s) as (bl' & Hs & Hbl').
  exists ("```" +:+ header +:+ bl), (bl' +:+ "```"). split_and!.
  - rewrite Hp at 1. rewrite <- (strTake_drop k (trimRightBlank p)) at 1. rewrite append_assoc. f_equal.
    apply HasPrefix_split in E. rewrite E at 1. rewrite strDrop_drop. change (String.length "```") with 3. fold header. by rewrite append_assoc.
  - rewrite Hs at 1. rewrite append_assoc. f_equal. by apply HasPrefix_split in Ep.
  - right. exists header, bl, bl'. split_and!; try done. apply andb_false_iff in Eh as [Eh%negb_false_iff|Eh%negb_false_iff];
      [left; by apply bool_decide_eq_true in Eh|by right].
Qed.

Section SieveFacts.
Context {Call : Type} (parse : string -> option (list Call * bool)).
Implicit Types (st : State Call) (events : list (Event Call)).

(** *** The account of a stream

    What became of the streamed text, in order: passed on, or cut out as a block, possibly
    with a code fence around it, that the parser took for the calls [found] (none: it only
    looked like calls). At the flush a capture may be repaired before it is parsed: [shown]
    and [shown'] is then what stays of [captured]. *)
Inductive piece :=
| Shown (text : string)
| Cut (before block after : string) (found : list Call)
| Mended (captured shown shown' : string) (found : list Call).

Definition source (p : piece) : string :=
  match p with Shown t => t | Cut a block b _ => a +:+ block +:+ b | Mended captured _ _ _ => captured end.

Definition foundIn (p : piece) : list Call := match p with Shown _ => [] | Cut _ _ _ f | Mended _ _ _ f => f end.

(** The parser took a block for the calls [found]; the wrapper's opening tag may be missing. *)
Definition parsedAs (block : string) (found : list Call) (saw : bool) : Prop :=
  exists x, (x = block \/ x = "<tool_calls>" +:+ block) /\ parse x = Some (found, saw).

(** A block without calls is cut only if it looked like calls, and never its fence. *)
Definition justified (p : piece) : Prop :=
  match p with
  | Shown _ => True
  | Cut a block b found =>
      exists saw, parsedAs block found saw /\ (found = [] -> saw = true /\ a = "" /\ b = "") /\ (a = "" /\ b = "" \/ fenceWrap a b)
  | Mended captured shown shown' found =>
      found <> [] /\
      exists a block b saw, SanitizeLooseCDATA captured = Some (shown +:+ (a +:+ block +:+ b) +:+ shown') /\ parsedAs block found saw /\
        (a = "" /\ b = "" \/ fenceWrap a b)
  end.

Fixpoint sources (ps : list piece) : string := match ps with [] => "" | p :: ps => source p +:+ sources ps end.

Definition textEvent (t : string) : list (Event Call) := if bool_decide (t = "") then [] else [content t].
Definition callEvent (c : list Call) : list (Event Call) := match c with [] => [] | c => [calls c] end.

(** While chunks arrive the text of a piece is passed on at once; the calls of the chunk's
    last block are kept for the next chunk, those of the blocks before it are overwritten. *)
Definition said (ps : list piece) : list (Event Call) := flat_map (fun p => match p with Shown t => textEvent t | _ => [] end) ps.
Definition lastFound (pend : list Call) (ps : list piece) : list Call :=
  fold_left (fun acc p => match foundIn p with [] => acc | f => f end) ps pend.

(** The events of a run: each chunk first reports the calls left by the chunk before it. *)
Fixpoint played (pend : list Call) (log : list (list piece)) : list (Event Call) :=
  match log with [] => [] | ps :: log => callEvent pend ++ said ps ++ played (lastFound [] ps) log end.
Fixpoint waiting (pend : list Call) (log : list (list piece)) : list Call :=
  match log with [] => pend | ps :: log => waiting (lastFound [] ps) log end.

(** At the end of the stream text and calls are reported where they stand. *)
Definition closing (ps : list piece) : list (Event Call) :=
  flat_map (fun p => match p with
    | Shown t => textEvent t | Cut _ _ _ f => callEvent f | Mended _ t t' f => textEvent t ++ callEvent f ++ textEvent t' end) ps.

Lemma sources_app (a b : list piece) : sources (a ++ b) = sources a +:+ sources b.
Proof. induction a as [|p a IH]; [done|]. simpl. by rewrite IH, append_assoc. Qed.
Lemma saidPieces_app (a b : list piece) : said (a ++ b) = said a ++ said b.
Proof. apply flat_map_app. Qed.
Lemma lastFound_app (pend : list Call) (a b : list piece) : lastFound pend (a ++ b) = lastFound (lastFound pend a) b.
Proof. apply fold_left_app. Qed.

(** A block cut out of [s]; the text after it is shorter. *)
Lemma cut_block (s : string) (i j : nat) :
  i < j <= String.length s -> s = strTake i s +:+ substr s i j +:+ strDrop j s /\ String.length (strDrop j s) < String.length s.
Proof. intros H. split; [apply split3; lia|]. rewrite length_strDrop. lia. Qed.

(** A capture: [p] is passed on, [q] is looked at again, [cut] is cut out between them. *)
Definition splits (captured p : string) (found : list Call) (q : string) : Prop :=
  exists cut, captured = p +:+ sources cut +:+ q /\ String.length q < String.length captured /\
    (cut = [] /\ found = [] \/ exists a block b, cut = [Cut a block b found] /\ justified (Cut a block b found)).

Lemma splits_removed (s : string) (i j : nat) :
  i < j <= String.length s -> parsedAs (substr s i j) [] true -> splits s (strTake i s) [] (strDrop j s).
Proof.
  intros H Hr. destruct (cut_block s i j H) as [H1 H2]. exists [Cut "" (substr s i j) "" []]. simpl. rewrite !append_nil_r, append_nil_l.
  split; [done|]. split; [done|]. right. eexists _, _, _. split; [done|]. exists true. split; [done|]. split; [done|by left].
Qed.

Lemma splits_kept (s : string) (i j : nat) :
  i < j <= String.length s -> splits s (strTake i s +:+ substr s i j) [] (strDrop j s).
Proof. intros H. destruct (cut_block s i j H) as [H1 H2]. exists []. simpl. rewrite append_nil_l, append_assoc. split; [done|]. split; [done|by left]. Qed.

(** A block with calls is cut out, with the fence around it. *)
Lemma splits_trimmed (s p q : string) (i j : nat) (c : Call) (cs : list Call) (saw : bool) :
  i < j <= String.length s -> parsedAs (substr s i j) (c :: cs) saw ->
  trimWrappingJSONFence (strTake i s) (strDrop j s) = (p, q) ->
  exists a b, strTake i s = p +:+ a /\ strDrop j s = b +:+ q /\ s = p +:+ (a +:+ substr s i j +:+ b) +:+ q /\
    String.length q < String.length s /\ justified (Cut a (substr s i j) b (c :: cs)).
Proof.
  intros H Hr Ht. destruct (cut_block s i j H) as [H1 H2]. destruct (trimWrapping_split _ _ _ _ Ht) as (a & b & Hp & Hq & Hab).
  exists a, b. split_and!; [done|done| | |].
  - rewrite H1 at 1. by rewrite Hp, Hq, !append_assoc.
  - rewrite Hq, length_append in H2. lia.
  - exists saw. by split_and!.
Qed.

Lemma splits_found (s p q : string) (i j : nat) (c : Call) (cs : list Call) (saw : bool) :
  i < j <= String.length s -> parsedAs (substr s i j) (c :: cs) saw ->
  trimWrappingJSONFence (strTake i s) (strDrop j s) = (p, q) -> splits s p (c :: cs) q.
Proof.
  intros H Hr Ht. destruct (splits_trimmed _ _ _ _ _ _ _ _ H Hr Ht) as (a & b & _ & _ & H1 & H2 & H3). exists [Cut a (substr s i j) b (c :: cs)].
  simpl. rewrite append_nil_r. split; [done|]. split; [done|]. right. by eexists _, _, _.
Qed.

Lemma capture_splits (fuel : nat) (captured : string) (from : nat) (anyOpen : bool) rejected r :
  (forall k p q, rejected = Some (k, p, q) -> splits captured p [] q) ->
  captureFrom parse fuel captured from anyOpen rejected = Some r ->
  match r with
  | Best p found q => splits captured p found q
  | Searched _ (Some (_, p, q)) => splits captured p [] q
  | Searched _ None => True
  end.
Proof.
  revert from anyOpen rejected. induction fuel as [|fuel IH]; intros from anyOpen rejected Hrej E; cbn [captureFrom] in E.
  { injection E as <-. destruct rejected as [[[k p] q]|]; [by eapply Hrej|done]. }
  assert (Hdone : match rejected with Some (_, p, q) => splits captured p [] q | None => True end).
  { destruct rejected as [[[k p] q]|]; [by eapply Hrej|done]. }
  destruct (_ <=? from); [by injection E as <-|].
  destruct (FindToolMarkupTagOutsideIgnored captured from) as [[tag|]|] eqn:Ef; cbn [mbind option_bind] in E; [|by injection E as <-|done].
  destruct (_ || _); [by eapply IH|].
  destruct (FindMatchingToolMarkupClose captured tag) as [[close|]|] eqn:Ec; cbn [mbind option_bind] in E; [|by eapply IH|done].
  apply find_bounds in Ef as (Hf1 & Hf2 & _). apply close_bounds in Ec as (Hc1 & Hc2).
  destruct (parse _) as [[[|c found] saw]|] eqn:Ep; cbn [mbind option_bind] in E; [| |done].
  - refine (IH _ _ _ _ E). intros k p q Hk.
    assert (Hnew : splits captured (if saw then strTake (Start tag) captured else strTake (Start tag) captured +:+ substr captured (Start tag) (End_ close + 1))
       [] (strDrop (End_ close + 1) captured)).
    { destruct saw; [apply splits_removed; [lia|]|apply splits_kept; lia]. eexists. split; [by left|done]. }
    destruct rejected as [[[k0 p0] q0]|]; [destruct (_ <? k0)|]; injection Hk as <- <- <-; try done.
  - destruct (trimWrappingJSONFence _ _) as [p q] eqn:Et. injection E as <-. eapply splits_found; [|..|exact Et]; [lia|].
    eexists. split; [by left|exact Ep].
Qed.

Lemma firstTag_bounds (s : string) (start : nat) (name : string) (closing : bool) (tag : ToolMarkupTag) :
  findFirstToolMarkupTagByNameFrom s start name closing = Some (Some tag) ->
  start <= Start tag < End_ tag /\ End_ tag < String.length s.
Proof.
  unfold findFirstToolMarkupTagByNameFrom. generalize (S (String.length s)) as fuel. intros fuel. revert start.
  induction fuel as [|fuel IH]; intros pos; cbn [firstTagByName]; [done|]. destruct (_ <=? _); [done|].
  destruct (FindToolMarkupTagOutsideIgnored s pos) as [[t|]|] eqn:E; cbn [mbind option_bind]; try done.
  apply find_bounds in E as (H1 & H2 & _). destruct (_ && _); [intros [= <-]; lia|]. intros Hm%IH. lia.
Qed.

Lemma consumeXML_splits (captured p q : string) (found : list Call) :
  consumeXMLToolCapture parse captured = Some (Some (p, found, q)) -> splits captured p found q.
Proof.
  unfold consumeXMLToolCapture. destruct (captureFrom _ _ _ _ _ _) as [r|] eqn:E; cbn [mbind option_bind]; [|done].
  apply capture_splits in E; [|done]. destruct r as [p' f' q'|[|] [[[k p'] q']|]]; try done.
  { intros [= <- <- <-]. exact E. } { intros [= <- <- <-]. exact E. }
  destruct (findFirstToolMarkupTagByName captured 0 "invoke") as [[t|]|] eqn:Et; cbn [mbind option_bind]; try done.
  apply firstTag_bounds in Et as [H1 H2].
  destruct (findFirstToolMarkupTagByName captured 0 "tool_calls") as [w|] eqn:Ew; cbn [mbind option_bind]; [|done].
  destruct (match w with Some _ => _ | None => _ end); [|done].
  destruct (findFirstToolMarkupTagByNameFrom _ (Start t + 1) _ _) as [[c|]|] eqn:Ec; cbn [mbind option_bind]; try done.
  apply firstTag_bounds in Ec as [H3 H4]. destruct (_ <? _) eqn:Hlt; [|done]. apply Nat.ltb_lt in Hlt.
  assert (Hrange : Start t < End_ c + 1 <= String.length captured) by lia.
  destruct (parse _) as [[[|c0 f0] [|]]|] eqn:Ep; cbn [mbind option_bind]; [| |destruct (trimWrappingJSONFence _ _) as [p' q'] eqn:Etr..|done].
  - intros [= <- <- <-]. apply splits_removed; [done|]. eexists. split; [by right|exact Ep].
  - intros [= <- <- <-]. by apply splits_kept.
  - intros [= <- <- <-]. eapply splits_found; [exact Hrange| |exact Etr]. eexists. split; [by right|exact Ep].
  - intros [= <- <- <-]. eapply splits_found; [exact Hrange| |exact Etr]. eexists. split; [by right|exact Ep].
Qed.

Lemma consume_splits (captured p q : string) (found : list Call) :
  consumeToolCapture parse captured = Some (Some (p, found, q)) -> splits captured p found q.
Proof.
  unfold consumeToolCapture. destruct (bool_decide (captured = "")) eqn:Hne; [done|]. apply bool_decide_eq_false in Hne.
  destruct (consumeXMLToolCapture parse captured) as [[[[p' f'] q']|]|] eqn:E; cbn [mbind option_bind]; [| |done].
  - intros [= <- <- <-]. by apply consumeXML_splits in E.
  - destruct (hasOpenXMLToolTag captured) as [[|]|]; cbn [mbind option_bind]; try done.
    destruct (shouldKeepBareInvokeCapture captured) as [[|]|]; cbn [mbind option_bind]; try done. intros [= <- <- <-].
    exists []. simpl. rewrite append_nil_l, append_nil_r. split; [done|]. split; [destruct captured; [done|simpl; lia]|by left].
Qed.

Fixpoint texts events : string := match events with [] => "" | e :: es => Content e +:+ texts es end.

Lemma texts_app (a b : list (Event Call)) : texts (a ++ b) = texts a +:+ texts b.
Proof. induction a as [|e a IH]; [done|]. simpl. by rewrite IH, append_assoc. Qed.

(** The text that has not been decided on. *)
Definition held st : string := capture st +:+ pending st.

Definition wellFormed st : Prop := capturing st = false -> capture st = "".

Lemma noteText_same st t :
  pending (noteText st t) = pending st /\ capture (noteText st t) = capture st /\ capturing (noteText st t) = capturing st /\
  pendingToolCalls (noteText st t) = pendingToolCalls st.
Proof. unfold noteText, updateCodeFenceState. destruct (negb _); [done|]. by destruct (negb _). Qed.

Lemma emit_spec (text : string) st events st' events' :
  emit text st events = (st', events') ->
  events' = events ++ textEvent text /\ pending st' = pending st /\ capture st' = capture st /\ capturing st' = capturing st /\
  pendingToolCalls st' = pendingToolCalls st.
Proof.
  unfold emit, textEvent. case_bool_decide as E; intros [= <- <-].
  - by rewrite app_nil_r.
  - split; [done|]. apply noteText_same.
Qed.

(** The pieces [ps] account for the step from [st] to [st']. *)
Record accounts (ps : list piece) st events st' events' : Prop := {
  ac_just : Forall justified ps;
  ac_text : held st = sources ps +:+ held st';
  ac_said : events' = events ++ said ps;
  ac_calls : pendingToolCalls st' = lastFound (pendingToolCalls st) ps;
  ac_wf : wellFormed st'
}.

Lemma accounts_nil st events : wellFormed st -> accounts [] st events st events.
Proof. intros H. split; [constructor|done|by rewrite app_nil_r|done|done]. Qed.

Lemma accounts_app a b st1 e1 st2 e2 st3 e3 : accounts a st1 e1 st2 e2 -> accounts b st2 e2 st3 e3 -> accounts (a ++ b) st1 e1 st3 e3.
Proof.
  intros [J1 T1 S1 C1 _] [J2 T2 S2 C2 W]. split; [by apply Forall_app| | | |done].
  - by rewrite T1, T2, sources_app, append_assoc.
  - by rewrite S2, S1, saidPieces_app, app_assoc.
  - by rewrite C2, C1, lastFound_app.
Qed.

Lemma accounts_shown (t : string) st events st' :
  held st = t +:+ held st' -> pendingToolCalls st' = pendingToolCalls st -> wellFormed st' ->
  accounts [Shown t] st events st' (events ++ textEvent t).
Proof. intros Ht Hc Hw. split; [by repeat constructor|by cbn [sources source]; rewrite append_nil_r|by unfold said; simpl; rewrite app_nil_r|done|done]. Qed.

Lemma split_safe st (s safe hold : string) : splitSafeContentForToolDetection st s = Some (safe, hold) -> s = safe +:+ hold.
Proof.
  unfold splitSafeContentForToolDetection. case_bool_decide as E; [by intros [= <- <-]|].
  destruct (findPartialXMLToolTagStart s) as [[k|]|]; cbn [mbind option_bind]; [| |done].
  - destruct (insideCodeFenceWithState _ _); [intros [= <- <-]; by rewrite append_nil_r|].
    destruct (_ <? k); intros [= <- <-]; [by rewrite strTake_drop|done].
  - intros [= <- <-]. by rewrite append_nil_r.
Qed.

(** One capture that is complete: its text is passed on, its block cut out. *)
Lemma captured_accounts st events (p q : string) (found : list Call) st1 events1 (cut : list piece) :
  capturing st = true -> capture st +:+ pending st = p +:+ sources cut +:+ q ->
  cut = [] /\ found = [] \/ (exists a block b, cut = [Cut a block b found] /\ justified (Cut a block b found)) ->
  emit p (withText "" "" false resetIncrementalToolState st) events = (st1, events1) ->
  let st2 := withText (pending st1 +:+ q) (capture st1) (capturing st1) (incremental st1) st1 in
  let st3 := match found with [] => st2 | _ => withCalls found st2 end in
  accounts (Shown p :: cut) st events st3 events1 /\ pending st3 = q /\ capture st3 = "" /\ capturing st3 = false.
Proof.
  intros Hc Hs Hcut Ee st2 st3. apply emit_spec in Ee as (Ht & Hp & Hca & Hcg & Hpc). simpl in Hp, Hca, Hcg, Hpc.
  assert (H3 : pending st3 = q /\ capture st3 = "" /\ capturing st3 = false) by (unfold st3, st2; destruct found; simpl; by rewrite Hp, Hca, Hcg).
  split; [|done]. destruct H3 as (H3a & H3b & H3c).
  assert (Hcalls : pendingToolCalls st3 = match found with [] => pendingToolCalls st | _ => found end) by (unfold st3, st2; destruct found; simpl; by rewrite ?Hpc).
  split.
  - constructor; [done|]. by destruct Hcut as [[-> _]|(a & block & b & -> & Hj)]; repeat constructor.
  - unfold held at 1. rewrite Hs. unfold held. rewrite H3a, H3b. by cbn [sources source]; rewrite !append_assoc.
  - rewrite Ht. f_equal. destruct Hcut as [[-> _]|(a & block & b & -> & _)]; unfold said; simpl; by rewrite !app_nil_r.
  - rewrite Hcalls. destruct Hcut as [[Hcut Hf]|(a & block & b & Hcut & _)]; rewrite Hcut; [by rewrite Hf|by destruct found].
  - by intros _.
Qed.

Lemma sieveLoop_accounts (fuel : nat) st events st' events' (b : bool) :
  wellFormed st -> sieveLoop parse fuel st events = Some (st', events', b) -> exists ps, accounts ps st events st' events'.
Proof.
  revert st events. induction fuel as [|fuel IH]; intros st events Hw E; cbn [sieveLoop] in E.
  { injection E as <- <- _. exists []. by apply accounts_nil. }
  destruct (capturing st) eqn:Hc.
  - cbv zeta in E. set (st0 := withText "" (capture st +:+ pending st) true (incremental st) st) in E.
    destruct (consumeToolCapture parse (capture st0)) as [[[[p found] q]|]|] eqn:Ec; cbn [mbind option_bind] in E; [| |done].
    + apply consume_splits in Ec as (cut & Hcut & _ & Hj). destruct (emit p _ events) as [st1 ev1] eqn:Ee.
      destruct (captured_accounts st events p q found st1 ev1 cut Hc Hcut Hj Ee) as (H & Hp & Hca & Hcg).
      apply IH in E as [ps Hps]; [|by intros _]. exists ((Shown p :: cut) ++ ps). by eapply accounts_app.
    + injection E as <- <- _. exists []. split; [constructor| |by rewrite app_nil_r|done|done]. unfold held, st0. simpl. by rewrite append_nil_r.
  - cbv zeta in E. case_bool_decide as Hpend; [injection E as <- <- _; exists []; by apply accounts_nil|].
    destruct (findToolSegmentStart st (pending st)) as [[k|]|]; cbn [mbind option_bind] in E; [| |done].
    + destruct (emit _ st events) as [st1 ev1] eqn:Ee. apply emit_spec in Ee as (Ht & Hp & Hca & Hcg & Hpc).
      apply IH in E as [ps Hps]; [|done]. exists ([Shown (strTake k (pending st))] ++ ps). eapply accounts_app; [|exact Hps]. rewrite Ht.
      apply accounts_shown; [|simpl; by rewrite Hpc|done].
      unfold held. simpl. by rewrite Hca, (Hw Hc), append_nil_r, !append_nil_l, strTake_drop.
    + destruct (splitSafeContentForToolDetection st (pending st)) as [[safe hold]|] eqn:Es; cbn [mbind option_bind] in E; [|done].
      apply split_safe in Es. case_bool_decide as Hsafe; [injection E as <- <- _; exists []; by apply accounts_nil|].
      set (st1 := withText hold (capture st) false (incremental st) st) in E. destruct (noteText_same st1 safe) as (N1 & N2 & N3 & N4).
      assert (Hw1 : wellFormed (noteText st1 safe)) by (unfold wellFormed; rewrite N2; intros _; exact (Hw Hc)).
      apply IH in E as [ps Hps]; [|done]. exists ([Shown safe] ++ ps). eapply accounts_app; [|exact Hps].
      replace [content safe] with (textEvent safe) by (unfold textEvent; by rewrite bool_decide_eq_false_2).
      apply accounts_shown; [|exact N4|done]. unfold held. rewrite N1, N2. simpl. by rewrite (Hw Hc), !append_nil_l, Es.
Qed.

(** The rounds that are needed at most. *)
Definition measure st : nat := 2 * String.length (held st) + (if capturing st then 0 else 1).

Lemma sieveLoop_ends (fuel : nat) st events st' events' (b : bool) :
  wellFormed st -> measure st < fuel -> sieveLoop parse fuel st events = Some (st', events', b) -> b = true.
Proof.
  revert st events. induction fuel as [|fuel IH]; intros st events Hw Hm E; [lia|]. cbn [sieveLoop] in E. unfold measure, held in Hm.
  rewrite length_append in Hm. destruct (capturing st) eqn:Hc.
  - cbv zeta in E. set (st0 := withText "" (capture st +:+ pending st) true (incremental st) st) in E.
    destruct (consumeToolCapture parse (capture st0)) as [[[[p found] q]|]|] eqn:Ec; cbn [mbind option_bind] in E; [| |done].
    + apply consume_splits in Ec as (r & _ & Hlen & _). unfold st0 in Hlen. simpl in Hlen. rewrite length_append in Hlen.
      destruct (emit p _ events) as [st1 ev1] eqn:Ee. apply emit_spec in Ee as (_ & Hp & Hca & Hcg & _). simpl in Hp, Hca, Hcg.
      apply IH in E; [done|..]; destruct found; unfold wellFormed, measure, held; simpl; rewrite ?Hcg, ?Hp, ?Hca, ?append_nil_l; try done; lia.
    + by injection E as _ _ <-.
  - cbv zeta in E. specialize (Hw Hc). case_bool_decide as Hpend; [by injection E as _ _ <-|].
    destruct (findToolSegmentStart st (pending st)) as [[k|]|]; cbn [mbind option_bind] in E; [| |done].
    + destruct (emit _ st events) as [st1 ev1] eqn:Ee. apply emit_spec in Ee as (_ & Hp & Hca & Hcg & _).
      apply IH in E; [done|done|]. unfold measure, held. simpl. rewrite Hca, !length_append, Hw, length_strDrop. simpl. rewrite Hw in Hm. simpl in Hm. lia.
    + destruct (splitSafeContentForToolDetection st (pending st)) as [[safe hold]|] eqn:Es; cbn [mbind option_bind] in E; [|done].
      apply split_safe in Es. case_bool_decide as Hsafe; [by injection E as _ _ <-|].
      set (st1 := withText hold (capture st) false (incremental st) st) in E. destruct (noteText_same st1 safe) as (N1 & N2 & N3 & _).
      apply IH in E; [done|..]; [intros _; by rewrite N2|]. unfold measure, held. rewrite N1, N2, N3. simpl. rewrite length_append, Hw. simpl.
      rewrite Hw, Es, length_append in Hm. simpl in Hm. destruct safe; [done|]. simpl in Hm. lia.
Qed.

Lemma takePending_spec st events st' events' :
  takePendingCalls st events = (st', events') ->
  events' = events ++ callEvent (pendingToolCalls st) /\ pending st' = pending st /\ capture st' = capture st /\ capturing st' = capturing st /\
  pendingToolCalls st' = [].
Proof. unfold takePendingCalls, callEvent. destruct (pendingToolCalls st) as [|c cs] eqn:E; intros [= <- <-]; [by rewrite app_nil_r|done]. Qed.

Lemma takePending_fence st events st' events' : takePendingCalls st events = (st', events') -> fenceOf st' = fenceOf st.
Proof. unfold takePendingCalls. by destruct (pendingToolCalls st); intros [= <- <-]. Qed.

Lemma processChunk_accounts st (chunk : string) st' events (b : bool) :
  wellFormed st -> ProcessChunk parse st chunk = Some (st', events, b) ->
  b = true /\ wellFormed st' /\
  exists ps, Forall justified ps /\ held st +:+ chunk = sources ps +:+ held st' /\ events = callEvent (pendingToolCalls st) ++ said ps /\
    pendingToolCalls st' = lastFound [] ps.
Proof.
  intros Hw E. unfold ProcessChunk in E. cbv zeta in E. set (st0 := withText _ _ _ _ _) in E.
  destruct (takePendingCalls st0 []) as [st1 ev1] eqn:Et. apply takePending_spec in Et as (Ht & Hp & Hca & Hcg & Hpc). simpl in Ht, Hp, Hca, Hcg.
  assert (Hw1 : wellFormed st1) by (unfold wellFormed; rewrite Hcg, Hca; exact Hw).
  split; [eapply sieveLoop_ends; [exact Hw1| |exact E]; unfold measure, held, sieveFuel; rewrite length_append; destruct (capturing st1); lia|].
  apply sieveLoop_accounts in E as [ps [Hj Htx Hs Hcs Hw']]; [|done]. split; [done|]. exists ps. split; [done|].
  rewrite <- Htx, Hs, Ht, Hcs, Hpc. unfold held. by rewrite Hp, Hca, append_assoc.
Qed.

Fixpoint runChunks st (chunks : list string) : option (State Call * list (Event Call)) :=
  match chunks with
  | [] => Some (st, [])
  | c :: cs =>
      r ← ProcessChunk parse st c;
      let '(st, ev, _) := r in
      r ← runChunks st cs;
      let '(st, evs) := r in Some (st, ev ++ evs)
  end.

Definition concat_ (chunks : list string) : string := foldr (fun c t => c +:+ t) "" chunks.

Lemma runChunks_accounts st (chunks : list string) st' events :
  wellFormed st -> runChunks st chunks = Some (st', events) ->
  wellFormed st' /\
  exists log, length log = length chunks /\ Forall (Forall justified) log /\
    held st +:+ concat_ chunks = sources (concat log) +:+ held st' /\ events = played (pendingToolCalls st) log /\
    pendingToolCalls st' = waiting (pendingToolCalls st) log.
Proof.
  revert st events. induction chunks as [|c cs IH]; intros st events Hw E; cbn [runChunks] in E.
  { injection E as <- <-. split; [done|]. exists []. simpl. rewrite append_nil_r. by split_and!. }
  destruct (ProcessChunk parse st c) as [[[st1 ev1] b]|] eqn:Ep; cbn [mbind option_bind] in E; [|done].
  apply processChunk_accounts in Ep as (_ & Hw1 & ps & Hj & Htx & Hs & Hc); [|done].
  destruct (runChunks st1 cs) as [[st2 ev2]|] eqn:Er; cbn [mbind option_bind] in E; [|done]. injection E as <- <-.
  destruct (IH st1 ev2 Hw1 Er) as (Hw2 & log & Hl & Hjs & Htxs & Hss & Hcs). split; [done|]. exists (ps :: log). simpl.
  split; [by rewrite Hl|]. split; [by constructor|]. rewrite sources_app, !append_assoc, <- Htxs, Hss, Hcs, Hs, Hc, <- append_assoc, Htx.
  by rewrite !append_assoc, <- app_assoc.
Qed.
End SieveFacts.

(** ** Facts: ASCII text never fails *)

Lemma asciiOnly_app (a b : string) : asciiOnly (a +:+ b) = asciiOnly a && asciiOnly b.
Proof. induction a as [|c a IH]; [done|]. rewrite append_cons. cbn [asciiOnly]. by rewrite IH, andb_assoc. Qed.

Lemma asciiOnly_drop (n : nat) (s : string) : asciiOnly s = true -> asciiOnly (strDrop n s) = true.
Proof. intros H. rewrite <- (strTake_drop n s), asciiOnly_app in H. by apply andb_true_iff in H as [_ H]. Qed.

Lemma asciiOnly_take (n : nat) (s : string) : asciiOnly s = true -> asciiOnly (strTake n s) = true.
Proof. intros H. rewrite <- (strTake_drop n s), asciiOnly_app in H. by apply andb_true_iff in H as [H _]. Qed.

Lemma sanitize_total (text : string) : asciiOnly text = true -> exists out, SanitizeLooseCDATA text = Some out /\ asciiOnly out = true.
Proof.
  intros Ha. pose proof (aligned_ascii text Ha) as Hl. unfold SanitizeLooseCDATA.
  assert (G : forall fuel pos out ch, asciiOnly out = true -> exists o c, sanitizeFrom fuel (ToLower text) text pos out ch = Some (o, c) /\ asciiOnly o = true).
  { induction fuel as [|fuel IH]; intros pos out ch Ho; cbn [sanitizeFrom]; [by exists out, ch|].
    destruct (Nat.leb_spec (String.length text) pos); [by exists out, ch|]. unfold aligned in Hl.
    rewrite sliceFrom_in by lia. cbn [mbind option_bind]. destruct (Index _ "<![cdata[") as [k|] eqn:Ek.
    2: { eexists _, _. split; [done|]. rewrite asciiOnly_app, Ho. by apply asciiOnly_drop. }
    apply Index_spec in Ek as [Hk _]. rewrite strDrop_drop in Hk. apply HasPrefix_length in Hk. rewrite length_strDrop in Hk. simpl in Hk.
    cbv zeta. rewrite sliceFrom_in by lia. cbn [mbind option_bind].
    assert (Hsub : forall i j, asciiOnly (substr text i j) = true) by (intros; by apply asciiOnly_take, asciiOnly_drop).
    destruct (Index (strDrop _ text) "]]>") as [p|], (findLooseCDATAClose _) as [l|]; [destruct (p <=? l)|..]; try apply IH;
      rewrite ?asciiOnly_app, ?Ho, ?Hsub; try done.
    eexists _, _. split; [done|]. rewrite !asciiOnly_app, Ho, Hsub. by apply asciiOnly_drop. }
  destruct (G (S (String.length text)) 0 "" false eq_refl) as (o & c & E & Hoa). rewrite E. cbn [mbind option_bind]. eexists. split; [done|].
  by destruct c.
Qed.

Section Total.
Context {Call : Type} (parse : string -> option (list Call * bool)) (Hparse : forall x, is_Some (parse x)).
Implicit Types (st : State Call) (events : list (Event Call)).

Lemma firstTag_total (s : string) (start : nat) (name : string) (closing : bool) :
  aligned s -> is_Some (findFirstToolMarkupTagByNameFrom s start name closing).
Proof.
  intros Ha. unfold findFirstToolMarkupTagByNameFrom. generalize (S (String.length s)) as fuel. intros fuel. revert start.
  induction fuel as [|fuel IH]; intros pos; cbn [firstTagByName]; [done|]. destruct (_ <=? _); [done|].
  destruct (find_total s pos Ha) as [[t|] E]; rewrite E; cbn [mbind option_bind]; [|done]. destruct (_ && _); [done|]. apply IH.
Qed.

Lemma captureFrom_total (fuel : nat) (s : string) (from : nat) (anyOpen : bool) rejected :
  aligned s -> is_Some (captureFrom parse fuel s from anyOpen rejected).
Proof.
  intros Ha. revert from anyOpen rejected. induction fuel as [|fuel IH]; intros from anyOpen rejected; cbn [captureFrom]; [done|].
  destruct (_ <=? _); [done|]. destruct (find_total s from Ha) as [[t|] E]; rewrite E; cbn [mbind option_bind]; [|done].
  destruct (_ || _); [apply IH|]. destruct (close_total s t Ha) as [[c|] Ec]; rewrite Ec; cbn [mbind option_bind]; [|apply IH].
  destruct (Hparse (substr s (Start t) (End_ c + 1))) as [[[|f fs] saw] Ep]; rewrite Ep; cbn [mbind option_bind]; [apply IH|].
  by destruct (trimWrappingJSONFence _ _).
Qed.

Lemma consumeXML_total (s : string) : aligned s -> is_Some (consumeXMLToolCapture parse s).
Proof.
  intros Ha. unfold consumeXMLToolCapture. destruct (captureFrom_total (S (String.length s)) s 0 false None Ha) as [r E]. rewrite E.
  cbn [mbind option_bind]. destruct r as [| [|] [[[? ?] ?]|]]; try done.
  destruct (firstTag_total s 0 "invoke" false Ha) as [i Ei]. unfold findFirstToolMarkupTagByName. rewrite Ei. cbn [mbind option_bind].
  destruct i as [i|]; [|done]. destruct (firstTag_total s 0 "tool_calls" false Ha) as [w Ew]. rewrite Ew. cbn [mbind option_bind].
  destruct (match w with Some _ => _ | None => _ end); [|done].
  destruct (firstTag_total s (Start i + 1) "tool_calls" true Ha) as [c Ec]. rewrite Ec. cbn [mbind option_bind]. destruct c as [c|]; [|done].
  destruct (_ <? _); [|done]. cbv zeta. match goal with |- context [parse ?x] => destruct (Hparse x) as [[[|f fs] [|]] Ep]; rewrite Ep end;
    cbn [mbind option_bind]; try done; by destruct (trimWrappingJSONFence _ _).
Qed.

Lemma openTag_total (s : string) : aligned s -> is_Some (hasOpenXMLToolTag s).
Proof.
  intros Ha. unfold hasOpenXMLToolTag. generalize (S (String.length s)) as fuel. generalize 0 as pos. intros pos fuel. revert pos.
  induction fuel as [|fuel IH]; intros pos; cbn [openToolTagFrom]; [done|]. destruct (_ <=? _); [done|].
  destruct (find_total s pos Ha) as [[t|] E]; rewrite E; cbn [mbind option_bind]; [|done]. destruct (_ || _); [apply IH|].
  destruct (close_total s t Ha) as [[c|] Ec]; rewrite Ec; cbn [mbind option_bind]; [apply IH|done].
Qed.

Lemma keepBare_total (s : string) : aligned s -> is_Some (shouldKeepBareInvokeCapture s).
Proof.
  intros Ha. unfold shouldKeepBareInvokeCapture, findFirstToolMarkupTagByName.
  destruct (firstTag_total s 0 "invoke" false Ha) as [i Ei]. rewrite Ei. cbn [mbind option_bind]. destruct i as [i|]; [|done].
  destruct (firstTag_total s 0 "tool_calls" false Ha) as [w Ew]. rewrite Ew. cbn [mbind option_bind].
  destruct (match w with Some _ => _ | None => _ end); [done|].
  destruct (firstTag_total s (Start i + 1) "tool_calls" true Ha) as [c Ec]. rewrite Ec. cbn [mbind option_bind].
  destruct (match c with Some _ => _ | None => _ end); [done|]. cbv zeta. case_bool_decide; [done|].
  destruct (firstTag_total s (End_ i + 1) "invoke" true Ha) as [k Ek]. rewrite Ek. cbn [mbind option_bind]. by destruct k.
Qed.

Lemma consume_total (s : string) : aligned s -> is_Some (consumeToolCapture parse s).
Proof.
  intros Ha. unfold consumeToolCapture. case_bool_decide; [done|]. destruct (consumeXML_total s Ha) as [[r|] E]; rewrite E; cbn [mbind option_bind]; [done|].
  destruct (openTag_total s Ha) as [[|] Eo]; rewrite Eo; cbn [mbind option_bind]; [done|].
  by destruct (keepBare_total s Ha) as [k Ek]; rewrite Ek.
Qed.

Lemma segmentStart_total st (s : string) : aligned s -> is_Some (findToolSegmentStart st s).
Proof.
  intros Ha. unfold findToolSegmentStart. case_bool_decide; [done|]. generalize (S (String.length s)) as fuel. generalize 0 as pos. intros pos fuel.
  revert pos. induction fuel as [|fuel IH]; intros pos; cbn [segmentStartFrom]; [done|].
  destruct (find_total s pos Ha) as [[t|] E]; rewrite E; cbn [mbind option_bind]; [|done]. destruct (isBareSingularToolCallTag _ _); [apply IH|].
  cbv zeta. destruct (negb _); [done|apply IH].
Qed.

Lemma splitSafe_total st (s : string) : asciiOnly s = true -> is_Some (splitSafeContentForToolDetection st s).
Proof.
  intros Ha. unfold splitSafeContentForToolDetection, findPartialXMLToolTagStart. case_bool_decide; [done|].
  destruct (LastIndex s "<") as [k|]; [|done]. cbv zeta. destruct (Contains _ _); [done|].
  destruct (partial_total (strDrop (includeDuplicateLeadingLessThan s k) s)) as [b E]; [by apply aligned_ascii, asciiOnly_drop|].
  by rewrite E.
Qed.

Lemma sieveLoop_total (fuel : nat) st events :
  asciiOnly (held st) = true -> wellFormed st -> exists st' events' b, sieveLoop parse fuel st events = Some (st', events', b) /\ asciiOnly (held st') = true.
Proof.
  revert st events. induction fuel as [|fuel IH]; intros st events Ha Hw; cbn [sieveLoop]; [by exists st, events, false|].
  pose proof Ha as Ha0. unfold held in Ha. destruct (capturing st) eqn:Hc.
  - cbv zeta. set (st0 := withText "" (capture st +:+ pending st) true (incremental st) st).
    destruct (consume_total (capture st0) (aligned_ascii _ Ha)) as [[[[p found] q]|] Ec]; rewrite Ec; cbn [mbind option_bind].
    + apply consume_splits in Ec as (r & Hr & _). change (capture st0) with (capture st +:+ pending st) in Hr. rewrite Hr, !asciiOnly_app in Ha.
      destruct (emit p _ events) as [st1 ev1] eqn:Ee. apply emit_spec in Ee as (_ & Hp & Hca & Hcg & _). simpl in Hp, Hca, Hcg.
      apply IH; destruct found; unfold held, wellFormed; simpl; rewrite ?Hca, ?Hp, ?append_nil_l; try done;
        by apply andb_true_iff in Ha as [_ [_ Ha]%andb_true_iff].
    + exists st0, events, true. split; [done|]. unfold held, st0. simpl. by rewrite append_nil_r.
  - cbv zeta. case_bool_decide as Hpend; [by exists st, events, true|]. rewrite (Hw Hc), append_nil_l in Ha.
    destruct (segmentStart_total st (pending st) (aligned_ascii _ Ha)) as [[k|] Ek]; rewrite Ek; cbn [mbind option_bind].
    + destruct (emit _ st events) as [st1 ev1] eqn:Ee. apply emit_spec in Ee as (_ & Hp & Hca & Hcg & _). apply IH; [|done].
      unfold held. simpl. rewrite Hca, (Hw Hc), append_nil_r, append_nil_l. by apply asciiOnly_drop.
    + destruct (splitSafe_total st (pending st) Ha) as [[safe hold] Es]. rewrite Es. cbn [mbind option_bind]. apply split_safe in Es.
      case_bool_decide; [by exists st, events, true|]. set (st1 := withText hold (capture st) false (incremental st) st).
      destruct (noteText_same st1 safe) as (N1 & N2 & N3 & _). rewrite Es, asciiOnly_app in Ha. apply andb_true_iff in Ha as [_ Ha].
      apply IH; unfold held, wellFormed; rewrite ?N1, ?N2; simpl; by rewrite (Hw Hc).
Qed.

Lemma processChunk_total st (chunk : string) :
  asciiOnly (held st) = true -> asciiOnly chunk = true -> wellFormed st ->
  exists st' events, ProcessChunk parse st chunk = Some (st', events, true) /\ asciiOnly (held st') = true /\ wellFormed st'.
Proof.
  intros Ha Hc Hw. destruct (ProcessChunk parse st chunk) as [[[st' events] b]|] eqn:E.
  - pose proof E as E'. apply processChunk_accounts in E as (-> & Hw' & _); [|done]. exists st', events. split; [done|]. split; [|done].
    unfold ProcessChunk in E'. cbv zeta in E'. set (st0 := withText _ _ _ _ _) in E'.
    destruct (takePendingCalls st0 []) as [st1 ev1] eqn:Et. apply takePending_spec in Et as (_ & Hp & Hca & Hcg & _). simpl in Hp, Hca, Hcg.
    destruct (sieveLoop_total (sieveFuel st1) st1 ev1) as (a & e & b & Hl & Hx).
    + unfold held. rewrite Hca, Hp, <- append_assoc, asciiOnly_app. change (capture st +:+ pending st) with (held st). by rewrite Ha.
    + unfold wellFormed. rewrite Hcg, Hca. exact Hw.
    + rewrite Hl in E'. by injection E' as <- _ _.
  - exfalso. unfold ProcessChunk in E. cbv zeta in E. set (st0 := withText _ _ _ _ _) in E.
    destruct (takePendingCalls st0 []) as [st1 ev1] eqn:Et. apply takePending_spec in Et as (_ & Hp & Hca & Hcg & _). simpl in Hp, Hca, Hcg.
    destruct (sieveLoop_total (sieveFuel st1) st1 ev1) as (a & e & b & Hl & _).
    + unfold held. rewrite Hca, Hp, <- append_assoc, asciiOnly_app. change (capture st +:+ pending st) with (held st). by rewrite Ha.
    + unfold wellFormed. rewrite Hcg, Hca. exact Hw.
    + congruence.
Qed.
End Total.

(** ** Properties *)

Section SieveTheorems.
Context {Call : Type} (parse : string -> option (list Call * bool)).
Implicit Types (st : State Call) (events : list (Event Call)).

(** The parser never recognises anything. *)
Definition blind : Prop := forall x found saw, parse x = Some (found, saw) -> found = [] /\ saw = false.

Lemma flushCapture_accounts st events st' events' :
  flushCapture parse st events = Some (st', events') ->
  exists tail, Forall (justified parse) tail /\ capture st = sources tail /\ events' = events ++ closing tail /\ pending st' = pending st.
Proof.
  intros E. unfold flushCapture in E.
  assert (Hwhole : forall st3 ev3, Some (noteText st (capture st), events ++ [content (capture st)]) = Some (st3, ev3) -> capture st <> "" ->
    exists tail, Forall (justified parse) tail /\ capture st = sources tail /\ ev3 = events ++ closing tail /\ pending st3 = pending st).
  { intros st3 ev3 [= <- <-] Hne. exists [Shown (capture st)]. split; [by repeat constructor|]. split; [simpl; by rewrite append_nil_r|].
    split; [|apply noteText_same]. unfold closing, textEvent. simpl. by rewrite bool_decide_eq_false_2. }
  assert (Hcut : forall (p q : string) (found : list Call) st4 ev4 st5 ev5,
    emit p st events = (st4, ev4) -> emit q st4 (ev4 ++ callEvent found) = (st5, ev5) ->
    ev5 = events ++ textEvent p ++ callEvent found ++ textEvent q /\ pending st5 = pending st).
  { intros p q found st4 ev4 st5 ev5 E4 E5. apply emit_spec in E4 as (T4 & P4 & _). apply emit_spec in E5 as (T5 & P5 & _).
    split; [by rewrite T5, T4, <- !app_assoc|by rewrite P5]. }
  destruct (consumeToolCapture parse (capture st)) as [[[[p found] q]|]|] eqn:Ec; cbn [mbind option_bind] in E; [| |done].
  - destruct (emit p st events) as [s4 e4] eqn:E4. apply (inj Some) in E.
    replace (match found with [] => e4 | _ => e4 ++ [calls found] end) with (e4 ++ callEvent found) in E by (destruct found; [by rewrite app_nil_r|done]).
    destruct (Hcut _ _ _ _ _ _ _ E4 E) as [-> ->]. apply consume_splits in Ec as (cut & Hr & _ & Hj).
    exists (Shown p :: cut ++ [Shown q]). destruct Hj as [[-> ->]|(a & block & b & -> & Hj)].
    + split; [by repeat constructor|]. split; [rewrite Hr; simpl; by rewrite append_nil_r|]. split; [|done]. unfold closing. simpl. by rewrite app_nil_r.
    + split; [by repeat constructor|]. split; [rewrite Hr; simpl; by rewrite !append_nil_r|]. split; [|done]. unfold closing. simpl. by rewrite app_nil_r.
  - cbv zeta in E. destruct (bool_decide (capture st = "")) eqn:Hne.
    { apply bool_decide_eq_true in Hne. injection E as <- <-. exists []. rewrite app_nil_r. by split_and!. }
    apply bool_decide_eq_false in Hne.
    destruct (SanitizeLooseCDATA (capture st)) as [rec|] eqn:Es; cbn [mbind option_bind] in E; [|done].
    destruct (bool_decide (rec = capture st)); [by apply Hwhole|].
    destruct (consumeXMLToolCapture parse rec) as [[[[p [|c f]] q]|]|] eqn:Ex; cbn [mbind option_bind] in E; try done; try (by apply Hwhole).
    destruct (emit p st events) as [s4 e4] eqn:E4. apply (inj Some) in E. change ([calls (c :: f)]) with (callEvent (c :: f)) in E.
    destruct (Hcut _ _ _ _ _ _ _ E4 E) as [-> ->]. apply consumeXML_splits in Ex as (cut & Hr & _ & [[_ ?]|(a & block & b & -> & saw & Hj1 & _ & Hj2)]); [done|].
    exists [Mended (capture st) p q (c :: f)]. split.
    { constructor; [|done]. split; [done|]. exists a, block, b, saw. split; [|done]. rewrite Es, Hr. simpl. by rewrite append_nil_r. }
    split; [simpl; by rewrite append_nil_r|]. split; [|done]. unfold closing. cbn [flat_map]. by rewrite app_nil_r.
Qed.

Lemma flush_accounts st st' events :
  wellFormed st -> Flush parse st = Some (st', events) ->
  held st' = "" /\
  exists ps tail, Forall (justified parse) ps /\ Forall (justified parse) tail /\ held st = sources ps +:+ sources tail /\
    events = callEvent (pendingToolCalls st) ++ said ps ++ callEvent (lastFound [] ps) ++ closing tail.
Proof.
  intros Hw E. unfold Flush in E. destruct (ProcessChunk parse st "") as [[[st1 ev1] b]|] eqn:Ep; cbn [mbind option_bind] in E; [|done].
  apply processChunk_accounts in Ep as (_ & Hw1 & ps & Hj & Htx & Hs & Hc); [|done]. rewrite append_nil_r in Htx.
  destruct (takePendingCalls st1 ev1) as [st2 ev2] eqn:Et. apply takePending_spec in Et as (Ht & Hp & Hca & Hcg & _).
  assert (Hfin : forall (st3 : State Call) (ev3 : list (Event Call)) tail, capture st3 = "" -> Forall (justified parse) tail ->
    held st1 = sources tail +:+ pending st3 -> ev3 = ev2 ++ closing tail ->
    Some (if bool_decide (pending st3 = "") then (st3, ev3)
     else (withText "" (capture st3) (capturing st3) (incremental st3) (noteText st3 (pending st3)), ev3 ++ [content (pending st3)])) = Some (st', events) ->
    held st' = "" /\ exists ps tail, Forall (justified parse) ps /\ Forall (justified parse) tail /\ held st = sources ps +:+ sources tail /\
      events = callEvent (pendingToolCalls st) ++ said ps ++ callEvent (lastFound [] ps) ++ closing tail).
  { intros st3 ev3 tail Hc3 Hjt Htt -> Er. rewrite Ht, Hs, Hc, <- !app_assoc in Er. case_bool_decide as Hpe; injection Er as <- <-.
    - split; [unfold held; by rewrite Hc3, Hpe|]. exists ps, tail. rewrite Htx, Htt, Hpe, append_nil_r. by split_and!.
    - split; [unfold held; simpl; by rewrite Hc3|]. exists ps, (tail ++ [Shown (pending st3)]). split; [done|]. split; [apply Forall_app; by repeat constructor|].
      rewrite sources_app, Htx, Htt. simpl. rewrite append_nil_r. split; [done|]. unfold closing. rewrite flat_map_app. simpl. rewrite app_nil_r.
      replace (textEvent (pending st3)) with [content (Call := Call) (pending st3)] by (unfold textEvent; by rewrite bool_decide_eq_false_2).
      by rewrite !app_assoc. }
  destruct (capturing st2) eqn:Hc2.
  - destruct (flushCapture parse st2 ev2) as [[st3 ev3]|] eqn:Ef; cbn [mbind option_bind] in E; [|done].
    apply flushCapture_accounts in Ef as (tail & Hjt & Hct & Het & Hpt).
    eapply (Hfin (withText (pending st3) "" false resetIncrementalToolState st3) ev3 tail) in E; [exact E|done..| |done].
    simpl. unfold held. by rewrite Hpt, Hp, <- Hct, Hca.
  - cbn [mbind option_bind] in E. assert (Hempty : capture st1 = "") by (apply Hw1; by rewrite <- Hcg).
    eapply (Hfin st2 ev2 []) in E; [exact E|by rewrite Hca|done| |by rewrite app_nil_r]. simpl. unfold held. by rewrite Hempty, Hp, !append_nil_l.
Qed.

(** A complete wrapper at the first tag. *)
Lemma consume_first (captured : string) (tag close : ToolMarkupTag) (c : Call) (cs : list Call) (saw : bool) :
  captured <> "" -> FindToolMarkupTagOutsideIgnored captured 0 = Some (Some tag) -> Closing tag || negb (bool_decide (Name tag = "tool_calls")) = false ->
  FindMatchingToolMarkupClose captured tag = Some (Some close) ->
  parse (substr captured (Start tag) (End_ close + 1)) = Some (c :: cs, saw) ->
  consumeToolCapture parse captured =
    let '(p, q) := trimWrappingJSONFence (strTake (Start tag) captured) (strDrop (End_ close + 1) captured) in Some (Some (p, c :: cs, q)).
Proof.
  intros Hne Hf Hw Hc Hp. unfold consumeToolCapture, consumeXMLToolCapture. rewrite bool_decide_eq_false_2 by done. cbn [captureFrom].
  destruct (Nat.leb_spec (String.length captured) 0) as [Hl|_]; [by destruct captured; simpl in Hl; [|lia]|].
  rewrite Hf. cbn [mbind option_bind]. rewrite Hw, Hc. cbn [mbind option_bind]. cbv zeta. rewrite Hp. cbn [mbind option_bind].
  by destruct (trimWrappingJSONFence _ _).
Qed.

(** The text from [k] on is, or becomes, a capture: one is under way, or the first tag of the
    text is no bare singular one and does not stand in a code fence. *)
Definition captures st (text : string) (k : nat) : Prop :=
  capturing st = true /\ k = 0 \/
  capturing st = false /\ exists tag, FindToolMarkupTagOutsideIgnored text 0 = Some (Some tag) /\ isBareSingularToolCallTag text tag = false /\
    k = includeDuplicateLeadingLessThan text (Start tag) /\ insideCodeFenceWithState st (strTake k text) = false.

(** The block at the first tag of [captured], a wrapper, which the parser takes for [found]. *)
Definition blockFirst (captured : string) (before : string) (block : string) (found : list Call) : Prop :=
  found <> [] /\ exists tag close saw, FindToolMarkupTagOutsideIgnored captured 0 = Some (Some tag) /\ Closing tag = false /\ Name tag = "tool_calls" /\
    FindMatchingToolMarkupClose captured tag = Some (Some close) /\ before = strTake (Start tag) captured /\
    block = substr captured (Start tag) (End_ close + 1) /\ parse block = Some (found, saw).

Lemma loop_takes_block (fuel : nat) st events st' events' (ended : bool) (before block : string) (found : list Call) :
  capturing st = true -> blockFirst (capture st +:+ pending st) before block found -> sieveLoop parse (S fuel) st events = Some (st', events', ended) ->
  exists p a b ps, before = p +:+ a /\ accounts parse (Shown p :: Cut a block b found :: ps) st events st' events'.
Proof.
  intros Hc (Hne & tag & close & saw & Hf & Hcl & Hn & Hm & -> & -> & Hp) E. destruct found as [|c cs]; [done|].
  cbn [sieveLoop] in E. rewrite Hc in E. cbv zeta in E. cbn [capture withText] in E.
  assert (Hcap : capture st +:+ pending st <> "") by (intros Hx; rewrite Hx in Hf; by vm_compute in Hf).
  erewrite consume_first in E; [|done|exact Hf|by rewrite Hcl, Hn|exact Hm|exact Hp].
  pose proof (find_bounds _ _ _ Hf) as (B1 & B2 & _). pose proof (close_bounds _ _ _ Hm) as (B3 & B4).
  destruct (trimWrappingJSONFence _ _) as [p q] eqn:Et. cbn [mbind option_bind] in E.
  destruct (splits_trimmed parse (capture st +:+ pending st) p q (Start tag) (End_ close + 1) c cs saw) as (a & b & Hpa & _ & Hs & _ & Hj); [lia| |exact Et|].
  { eexists. split; [by left|exact Hp]. }
  destruct (emit p _ events) as [st1 ev1] eqn:Ee.
  set (block := substr _ _ _) in *.
  destruct (captured_accounts parse st events p q (c :: cs) st1 ev1 [Cut a block b (c :: cs)] Hc) as (H & _ & _ & Hcg).
  { rewrite Hs at 1. cbn [sources source]. by rewrite append_nil_r. } { right. by eexists _, _, _. } { exact Ee. }
  apply sieveLoop_accounts in E as [ps Hps]; [|intros _; exact (ac_wf _ _ _ _ _ _ H Hcg)].
  exists p, a, b, ps. split; [done|]. exact (accounts_app parse [_; _] ps _ _ _ _ _ _ H Hps).
Qed.

Lemma chunk_takes_block st (chunk : string) st' events (ended : bool) (k : nat) (before block : string) (found : list Call) :
  wellFormed st -> captures st (held st +:+ chunk) k -> blockFirst (strDrop k (held st +:+ chunk)) before block found ->
  ProcessChunk parse st chunk = Some (st', events, ended) ->
  exists p a b ps, before = p +:+ a /\ Forall (justified parse) (Cut a block b found :: ps) /\
    held st +:+ chunk = strTake k (held st +:+ chunk) +:+ p +:+ sources (Cut a block b found :: ps) +:+ held st' /\
    events = callEvent (pendingToolCalls st) ++ textEvent (strTake k (held st +:+ chunk)) ++ textEvent p ++ said ps /\
    pendingToolCalls st' = lastFound found ps.
Proof.
  intros Hw Hk Hb E. unfold ProcessChunk in E. cbv zeta in E. set (st0 := withText _ _ _ _ _) in E.
  destruct (takePendingCalls st0 []) as [st1 ev1] eqn:Et.
  assert (Hfen : fenceOf st1 = fenceOf st) by exact (takePending_fence _ _ _ _ Et).
  apply takePending_spec in Et as (Ht & Hp & Hca & Hcg & Hpc). simpl in Ht, Hp, Hca, Hcg.
  assert (Htext : held st1 = held st +:+ chunk) by (unfold held; by rewrite Hp, Hca, append_assoc). rewrite <- Htext in *. clear Htext.
  assert (Hf : exists n, sieveFuel st1 = S (S n)) by (unfold sieveFuel; eexists; rewrite Nat.add_comm; simpl; reflexivity).
  destruct Hf as [n Hn]. rewrite Hn in E.
  assert (Hlast : lastFound [] [Cut "" "" "" found] = found) by (unfold lastFound; simpl; by destruct found).
  assert (Hfind : forall p a b ps, lastFound (pendingToolCalls st1) (Shown p :: Cut a block b found :: ps) = lastFound found ps).
  { intros. rewrite Hpc. change (lastFound (lastFound [] [Cut "" "" "" found]) ps = lastFound found ps). by rewrite Hlast. }
  destruct Hk as [[Hc ->]|(Hc & tag & Hf & Hbare & Hk & Hfence)].
  - rewrite <- Hcg in Hc. change (strDrop 0 (held st1)) with (held st1) in Hb. destruct (loop_takes_block _ _ _ _ _ _ _ _ _ Hc Hb E) as (p & a & b & ps & Hpa & [J T S C W]).
    exists p, a, b, ps. split; [done|]. split; [by inversion J|]. change (strTake 0 (held st1)) with "". rewrite append_nil_l.
    split; [etransitivity; [exact T|]; cbn [sources source]; by rewrite !append_assoc|]. split; [by rewrite S, Ht|by rewrite C].
  - rewrite <- Hcg in Hc. assert (Hempty : capture st1 = "") by (rewrite Hca; apply Hw; by rewrite <- Hcg).
    assert (Hheld : held st1 = pending st1) by (unfold held; by rewrite Hempty). rewrite Hheld in *.
    assert (Hne : pending st1 <> "") by (intros Hx; rewrite Hx in Hf; by vm_compute in Hf).
    remember (S n) as fuel eqn:Hfuel. cbn [sieveLoop] in E. rewrite Hc in E. cbv zeta in E. rewrite bool_decide_eq_false_2 in E by done.
    assert (Hseg : findToolSegmentStart st1 (pending st1) = Some (Some k)).
    { unfold findToolSegmentStart. rewrite bool_decide_eq_false_2 by done. cbn [segmentStartFrom]. rewrite Hf. cbn [mbind option_bind].
      rewrite Hbare. cbv zeta. rewrite <- Hk.
      assert (Hsame : insideCodeFenceWithState st1 (strTake k (pending st1)) = insideCodeFenceWithState st (strTake k (pending st1))).
      { unfold insideCodeFenceWithState. by rewrite Hfen. }
      by rewrite Hsame, Hfence. }
    rewrite Hseg in E. cbn [mbind option_bind] in E. destruct (emit _ st1 ev1) as [st2 ev2] eqn:Ee. apply emit_spec in Ee as (Te & Pe & Ce & Ge & Le).
    subst fuel. match type of E with sieveLoop _ _ ?s _ = _ => set (st3 := s) in E end.
    assert (Hst3 : capture st3 +:+ pending st3 = strDrop k (pending st1)) by (unfold st3; simpl; by rewrite Ce, Hempty, append_nil_r, append_nil_l).
    rewrite <- Hst3 in Hb. destruct (loop_takes_block n st3 ev2 _ _ _ _ _ _ eq_refl Hb E) as (p & a & b & ps & Hpa & [J T S C W]).
    exists p, a, b, ps. split; [done|]. split; [by inversion J|]. split.
    { rewrite <- (strTake_drop k (pending st1)) at 1. f_equal. rewrite <- Hst3. etransitivity; [exact T|]. cbn [sources source]. by rewrite !append_assoc. }
    split; [rewrite S, Te, Ht; unfold said; simpl; by rewrite <- !app_assoc|]. rewrite C. rewrite <- (Hfind p a b ps). by rewrite <- Le.
Qed.

(** C27. What becomes of streamed text, two-sided. After any chunks there is an account, one
    list of pieces per chunk, that splits the streamed text, in order, into text passed on
    and blocks cut out, up to the text still held: a block is cut out only if the parser
    took it for calls (with at most a code fence around it) or, with nothing around it,
    for the syntax of calls; and the events are exactly those of the account - each chunk
    reports the calls left by the chunk before it, then its own text - so that no text of a
    block whose calls are reported is also shown, and no calls are reported without their
    block having gone. Of several blocks with calls in one chunk only the last one's calls are
    kept ([first_block_lost]). At the flush the rest is accounted for in the same way,
    nothing stays held, and a capture may be repaired ([SanitizeLooseCDATA]) before it is
    parsed. Conversely a block is not missed: when the next chunk completes a wrapper that
    the parser takes for calls at the first tag of the capture, which is under way or which
    that tag opens, then this block is cut out and its calls are the ones
    left for the next chunk, unless a later block of the chunk replaces them. *)
Theorem sieve_conserves (chunks : list string) st events :
  runChunks parse newState chunks = Some (st, events) ->
  (exists log, length log = length chunks /\ Forall (Forall (justified parse)) log /\ concat_ chunks = sources (concat log) +:+ held st /\
     events = played [] log /\ pendingToolCalls st = waiting [] log) /\
  (forall st' events', Flush parse st = Some (st', events') ->
     held st' = "" /\
     exists ps tail, Forall (justified parse) ps /\ Forall (justified parse) tail /\ held st = sources ps +:+ sources tail /\
       events' = callEvent (pendingToolCalls st) ++ said ps ++ callEvent (lastFound [] ps) ++ closing tail) /\
  (forall chunk st' events' ended k before block found,
     captures st (held st +:+ chunk) k -> blockFirst (strDrop k (held st +:+ chunk)) before block found ->
     ProcessChunk parse st chunk = Some (st', events', ended) ->
     exists p a b ps, before = p +:+ a /\ Forall (justified parse) (Cut a block b found :: ps) /\
       held st +:+ chunk = strTake k (held st +:+ chunk) +:+ p +:+ sources (Cut a block b found :: ps) +:+ held st' /\
       events' = callEvent (pendingToolCalls st) ++ textEvent (strTake k (held st +:+ chunk)) ++ textEvent p ++ said ps /\
       pendingToolCalls st' = lastFound found ps).
Proof.
  intros E. apply runChunks_accounts in E as (Hw & log & Hl & Hj & Ht & Hs & Hc); [|done].
  split; [exists log; by split_and!|]. split; intros *; [by apply flush_accounts|by apply chunk_takes_block].
Qed.

(** With a parser that recognises nothing every piece is shown. *)
Lemma blind_shown (p : piece) : blind -> justified parse p -> exists t, p = Shown t.
Proof.
  intros Hb. destruct p as [t|a block b found|cap t t' found]; [by exists t|..].
  - intros (saw & (x & _ & Hp) & Hn & _). apply Hb in Hp as [-> ->]. by destruct (Hn eq_refl).
  - intros (Hn & a & block & b & saw & _ & (x & _ & Hp) & _). by apply Hb in Hp as [-> _].
Qed.

Lemma texts_textEvent (t : string) : texts (textEvent (Call := Call) t) = t.
Proof. unfold textEvent. case_bool_decide as E; [by rewrite E|]. simpl. by rewrite append_nil_r. Qed.

Lemma texts_callEvent (c : list Call) : texts (callEvent c) = "".
Proof. by destruct c. Qed.

Lemma blind_said (ps : list piece) : blind -> Forall (justified parse) ps -> texts (said ps) = sources ps /\ texts (closing ps) = sources ps.
Proof.
  intros Hb H. induction H as [|p ps Hp H [IH1 IH2]]; [done|]. destruct (blind_shown p Hb Hp) as [t ->].
  unfold said, closing in *. cbn [flat_map sources source]. by rewrite !texts_app, texts_textEvent, IH1, IH2.
Qed.

Lemma blind_played (pend : list Call) (log : list (list piece)) : blind -> Forall (Forall (justified parse)) log -> texts (played pend log) = sources (concat log).
Proof.
  intros Hb H. revert pend. induction H as [|ps log Hp H IH]; intros pend; [done|]. cbn [played concat].
  rewrite !texts_app, texts_callEvent, (proj1 (blind_said ps Hb Hp)), IH, sources_app. done.
Qed.

(** Text without tool calls comes out unchanged: if the parser recognises nothing (no
    calls and no syntax of calls), then after the final [Flush] the contents of all events
    together are exactly the streamed text, and nothing is held back, whatever brackets,
    partial tags or unclosed blocks the text contains and however it was cut into chunks. *)
Theorem sieve_transparent (chunks : list string) st st' events events' :
  blind -> runChunks parse newState chunks = Some (st, events) -> Flush parse st = Some (st', events') ->
  texts (events ++ events') = concat_ chunks /\ held st' = "".
Proof.
  intros Hb E Ef. apply runChunks_accounts in E as (Hw & log & _ & Hj & Ht & Hs & _); [|done].
  apply flush_accounts in Ef as (Hh & ps & tail & Hj1 & Hj2 & Ht2 & Hs2); [|done]. split; [|done]. rewrite append_nil_l in Ht.
  rewrite Ht, Ht2, Hs, Hs2, !texts_app, !texts_callEvent, !append_nil_l. rewrite blind_played by done.
  by rewrite (proj1 (blind_said ps Hb Hj1)), (proj2 (blind_said tail Hb Hj2)).
Qed.

(** On ASCII text, with a parser that returns, the sieve never fails: every chunk is
    processed, the loop of each chunk ends by itself within the fuel, and so does the flush. *)
Theorem sieve_total (chunks : list string) :
  (forall x, is_Some (parse x)) -> asciiOnly (concat_ chunks) = true ->
  (exists st events, runChunks parse newState chunks = Some (st, events) /\ is_Some (Flush parse st)) /\
  forall st chunk st' events ended, wellFormed st -> ProcessChunk parse st chunk = Some (st', events, ended) -> ended = true.
Proof.
  intros Hp Ha. split; [|intros st chunk st' events ended Hw E; by apply processChunk_accounts in E as [-> _]].
  assert (G : forall chunks st, asciiOnly (concat_ chunks) = true -> asciiOnly (held st) = true -> wellFormed st ->
    exists st' events, runChunks parse st chunks = Some (st', events) /\ asciiOnly (held st') = true /\ wellFormed st').
  { clear chunks Ha. induction chunks as [|c cs IH]; intros st Ha Hh Hw; cbn [runChunks]; [by exists st, []|].
    simpl in Ha. rewrite asciiOnly_app in Ha. apply andb_true_iff in Ha as [Hc Hcs].
    destruct (processChunk_total parse Hp st c Hh Hc Hw) as (st1 & ev1 & E & Hh1 & Hw1). rewrite E. cbn [mbind option_bind].
    destruct (IH st1 Hcs Hh1 Hw1) as (st2 & ev2 & E2 & H2). rewrite E2. cbn [mbind option_bind]. by eexists _, _. }
  destruct (G chunks newState Ha eq_refl ltac:(done)) as (st & events & E & Hh & Hw). exists st, events. split; [done|].
  unfold Flush. destruct (processChunk_total parse Hp st "" Hh eq_refl Hw) as (st1 & ev1 & E1 & Hh1 & Hw1). rewrite E1. cbn [mbind option_bind].
  destruct (takePendingCalls st1 ev1) as [st2 ev2] eqn:Et. apply takePending_spec in Et as (_ & Hpe & Hca & Hcg & _).
  destruct (capturing st2); [|cbn [mbind option_bind]; by case_bool_decide].
  assert (Hcapt : asciiOnly (capture st2) = true).
  { rewrite Hca. unfold held in Hh1. rewrite asciiOnly_app in Hh1. by apply andb_true_iff in Hh1 as [? _]. }
  assert (Hf : is_Some (flushCapture parse st2 ev2)).
  { unfold flushCapture. destruct (consume_total parse Hp (capture st2) (aligned_ascii _ Hcapt)) as [[[[p f] q]|] Ec]; rewrite Ec; cbn [mbind option_bind].
    - by destruct (emit p st2 ev2).
    - cbv zeta. case_bool_decide; [done|]. destruct (sanitize_total _ Hcapt) as (o & Eo & Ho). rewrite Eo. cbn [mbind option_bind].
      case_bool_decide; [done|]. destruct (consumeXML_total parse Hp o (aligned_ascii _ Ho)) as [[[[p [|c f]] q]|] Ex]; rewrite Ex; cbn [mbind option_bind]; try done.
      by destruct (emit p st2 ev2). }
  destruct Hf as [[st3 ev3] E3]. rewrite E3. cbn [mbind option_bind]. by case_bool_decide.
Qed.
End SieveTheorems.

(** *** Ordinary text is not delayed *)

Fixpoint noByte (c : ascii) (s : string) : bool := match s with EmptyString => true | String d s => negb (bool_decide (d = c)) && noByte c s end.

Lemma noByte_drop (c : ascii) (n : nat) (s : string) : noByte c s = true -> noByte c (strDrop n s) = true.
Proof. revert s. induction n as [|n IH]; intros [|d s]; simpl; try done. intros [_ H]%andb_true_iff. by apply IH. Qed.

Lemma noByte_at (c : ascii) (s : string) (i : nat) : noByte c s = true -> byteAt s i <> Some c.
Proof.
  intros H%(noByte_drop c i). unfold byteAt. destruct (strDrop i s) as [|d r]; [done|]. simpl in H.
  apply andb_true_iff in H as [H%negb_true_iff%bool_decide_eq_false _]. congruence.
Qed.

Lemma scan_none (text : string) (start : nat) : noByte "<" text = true -> scanToolMarkupTagAt text start = Some None.
Proof. intros H. unfold scanToolMarkupTagAt. rewrite bool_decide_eq_false_2; [done|]. by apply noByte_at. Qed.

Lemma find_none (text : string) (start : nat) : noByte "<" text = true -> aligned text -> FindToolMarkupTagOutsideIgnored text start = Some None.
Proof.
  intros Hn Ha. destruct (find_total text start Ha) as [[tag|] E]; [|done]. apply find_bounds in E as (_ & _ & H). by rewrite scan_none in H.
Qed.

Lemma lastIndex_none (s : string) : noByte "<" s = true -> LastIndex s "<" = None.
Proof.
  intros H. destruct (LastIndex s "<") as [i|] eqn:E; [|done]. apply LastIndex_spec in E. apply (noByte_drop _ i) in H.
  destruct (strDrop i s) as [|d r]; [done|]. simpl in E, H. rewrite HasPrefix_nil, andb_true_r in E. apply bool_decide_eq_true in E as <-.
  by rewrite bool_decide_eq_true_2 in H.
Qed.

(** Ordinary text is not delayed: outside a capture and with nothing held, a chunk
    without an opening bracket is passed on whole by the very call that receives it, after
    the calls that were waiting. *)
Theorem text_not_delayed {Call} (parse : string -> option (list Call * bool)) (st : State Call) (chunk : string) :
  capturing st = false -> pending st = "" -> chunk <> "" -> noByte "<" chunk = true -> aligned chunk ->
  exists st', ProcessChunk parse st chunk =
    Some (st', match pendingToolCalls st with [] => [] | c => [calls c] end ++ [content chunk], true) /\
    pending st' = "" /\ capturing st' = false.
Proof.
  intros Hc Hp Hne Hn Ha. unfold ProcessChunk. rewrite Hp, append_nil_l. cbv zeta. set (st0 := withText chunk _ _ _ st).
  assert (Ht : exists st1, takePendingCalls st0 [] = (st1, match pendingToolCalls st with [] => [] | c => [calls c] end) /\
     pending st1 = chunk /\ capturing st1 = false /\ capture st1 = capture st).
  { unfold takePendingCalls, st0. simpl. destruct (pendingToolCalls st); eexists; (split; [done|]); simpl; by rewrite Hc. }
  destruct Ht as (st1 & -> & Hp1 & Hc1 & Hca1). set (ev := match pendingToolCalls st with [] => _ | _ => _ end).
  assert (Hf : exists n, sieveFuel st1 = S (S n)) by (unfold sieveFuel; eexists; rewrite Nat.add_comm; simpl; reflexivity).
  destruct Hf as [n ->]. cbn [sieveLoop]. rewrite Hc1. cbv zeta. rewrite Hp1. rewrite bool_decide_eq_false_2 by done.
  assert (Hs : findToolSegmentStart st1 chunk = Some None).
  { unfold findToolSegmentStart. rewrite bool_decide_eq_false_2 by done. cbn [segmentStartFrom]. by rewrite find_none. }
  rewrite Hs. cbn [mbind option_bind]. unfold splitSafeContentForToolDetection, findPartialXMLToolTagStart.
  rewrite bool_decide_eq_false_2 by done. rewrite lastIndex_none by done. cbn [mbind option_bind]. rewrite bool_decide_eq_false_2 by done.
  set (st2 := withText "" _ _ _ _). destruct (noteText_same st2 chunk) as (N1 & N2 & N3 & _). rewrite N3. unfold st2 at 1. cbn [capturing withText].
  rewrite N1. unfold st2 at 1. cbn [pending withText]. rewrite bool_decide_eq_true_2 by done. eexists. split; [done|]. by rewrite N1, N3.
Qed.

(** *** Code fences *)

Lemma simulate_app (f : codeFenceSimulation) (a b : string) :
  simulateCodeFenceState f (a +:+ b) = simulateCodeFenceState (simulateCodeFenceState f a) b.
Proof. revert f. induction a as [|c a IH]; intros f; [done|]. rewrite append_cons. cbn [simulateCodeFenceState]. apply IH. Qed.

(** Following code fences is independent of the cuts: noting pieces of text one after
    the other leaves the same fence state as noting them at once, provided that every
    piece has something else than white space. *)
Theorem fences_follow_text {Call} (st : State Call) (pieces : list string) :
  Forall (fun p => hasMeaningfulText p = true) pieces ->
  fenceOf (fold_left noteText pieces st) = simulateCodeFenceState (fenceOf st) (concat_ pieces).
Proof.
  intros H. revert st. induction H as [|p pieces Hp H IH]; intros st; [done|]. cbn [fold_left]. rewrite IH. simpl. rewrite simulate_app. f_equal.
  unfold noteText, updateCodeFenceState. rewrite Hp. cbn [negb]. unfold fenceOf at 1. simpl. rewrite negb_involutive.
  by destruct (simulateCodeFenceState (fenceOf st) p).
Qed.

(** *** What goes wrong *)

Definition nl : string := String (ascii_of_N 10) "".
Definition callBlock (name : string) : string := "<tool_calls><invoke name='" +:+ name +:+ "'></invoke></tool_calls>".
Definition fenceOpen : string := "```" +:+ nl.

Lemma loop_capture {Call} (parse : string -> option (list Call * bool)) (n : nat) (st : State Call) events (c : Call) (q : string) :
  capturing st = true -> consumeToolCapture parse (capture st +:+ pending st) = Some (Some ("", [c], q)) ->
  exists st', sieveLoop parse (S n) st events = sieveLoop parse n st' events /\ pending st' = q /\ capture st' = "" /\ capturing st' = false /\
    pendingToolCalls st' = [c] /\ codeFenceStack st' = codeFenceStack st.
Proof.
  intros Hc E. cbn [sieveLoop]. rewrite Hc. cbv zeta. cbn [capture withText]. rewrite E. cbn [mbind option_bind].
  unfold emit. rewrite bool_decide_eq_true_2 by done. eexists. split; [done|]. done.
Qed.

Definition openTag : ToolMarkupTag :=
  {| Start := 0; End_ := 11; NameStart := 1; NameEnd := 11; Name := "tool_calls"; Closing := false; SelfClosing := false; DSMLLike := false;
     Canonical := true |}.

(** A pending text that starts with a wrapper tag is captured. *)
Lemma loop_starts {Call} (parse : string -> option (list Call * bool)) (n : nat) (st : State Call) events (s : string) :
  codeFenceStack st = [] -> capture st = "" -> capturing st = false -> pending st = s -> s <> "" ->
  FindToolMarkupTagOutsideIgnored s 0 = Some (Some openTag) -> isBareSingularToolCallTag s openTag = false ->
  exists st', sieveLoop parse (S n) st events = sieveLoop parse n st' events /\ pending st' = "" /\ capture st' = s /\ capturing st' = true /\
    codeFenceStack st' = [].
Proof.
  intros Hfs Hcap Hcg Hp Hne Hf Hb. cbn [sieveLoop]. rewrite Hcg. cbv zeta. rewrite Hp. rewrite bool_decide_eq_false_2 by exact Hne.
  assert (Hst : findToolSegmentStart st s = Some (Some 0)).
  { unfold findToolSegmentStart. rewrite bool_decide_eq_false_2 by exact Hne. cbn [segmentStartFrom]. rewrite Hf. cbn [mbind option_bind].
    rewrite Hb. cbv zeta. change (includeDuplicateLeadingLessThan s (Start openTag)) with 0. change (strTake 0 s) with "".
    unfold insideCodeFenceWithState. cbn [simulateCodeFenceState stack fenceOf]. by rewrite Hfs. }
  rewrite Hst. cbn [mbind option_bind]. unfold emit. change (strTake 0 s) with "". rewrite bool_decide_eq_true_2 by reflexivity.
  eexists. split; [reflexivity|]. split_and!; [reflexivity|simpl; by rewrite Hcap|reflexivity|exact Hfs].
Qed.

Lemma loop_idle {Call} (parse : string -> option (list Call * bool)) (n : nat) (st : State Call) events :
  pending st = "" -> capturing st = false -> sieveLoop parse (S n) st events = Some (st, events, true).
Proof. intros Hp Hcg. cbn [sieveLoop]. rewrite Hcg. cbv zeta. by rewrite Hp, bool_decide_eq_true_2. Qed.

(** Two complete blocks in one chunk: the calls of the first are overwritten by those of
    the second and never reported, for every parser that recognises both. *)
Theorem first_block_lost {Call} (parse : string -> option (list Call * bool)) (a b : Call) :
  parse (callBlock "a") = Some ([a], true) -> parse (callBlock "b") = Some ([b], true) ->
  exists st events st' events',
    ProcessChunk parse newState (callBlock "a" +:+ callBlock "b") = Some (st, events, true) /\ Flush parse st = Some (st', events') /\
    events ++ events' = [calls [b]] /\ held st' = "".
Proof.
  intros Ha Hb. set (AB := callBlock "a" +:+ callBlock "b").
  assert (HcA : consumeToolCapture parse AB = Some (Some ("", [a], callBlock "b"))).
  { erewrite consume_first; [|by vm_compute|vm_compute; reflexivity|vm_compute; reflexivity|vm_compute; reflexivity|vm_compute in Ha |- *; exact Ha].
    vm_compute. reflexivity. }
  assert (HcB : consumeToolCapture parse (callBlock "b") = Some (Some ("", [b], ""))).
  { erewrite consume_first; [|by vm_compute|vm_compute; reflexivity|vm_compute; reflexivity|vm_compute; reflexivity|vm_compute in Hb |- *; exact Hb].
    vm_compute. reflexivity. }
  assert (FA : FindToolMarkupTagOutsideIgnored AB 0 = Some (Some openTag)) by (vm_compute; reflexivity).
  assert (FB : FindToolMarkupTagOutsideIgnored (callBlock "b") 0 = Some (Some openTag)) by (vm_compute; reflexivity).
  unfold ProcessChunk. cbv zeta. set (st0 := withText _ _ _ _ _).
  assert (T0 : takePendingCalls st0 [] = (st0, [])) by done. rewrite T0.
  assert (Hf : exists n, sieveFuel st0 = S (S (S (S (S n))))) by (eexists; vm_compute; reflexivity). destruct Hf as [n ->].
  destruct (loop_starts parse (S (S (S (S n)))) st0 [] AB eq_refl eq_refl eq_refl eq_refl ltac:(discriminate) FA eq_refl) as (s1 & E1 & P1 & C1 & G1 & F1).
  destruct (loop_capture parse (S (S (S n))) s1 [] a (callBlock "b") G1) as (s2 & E2 & P2 & C2 & G2 & _ & F2); [by rewrite C1, P1, append_nil_r|].
  rewrite F1 in F2. destruct (loop_starts parse (S (S n)) s2 [] (callBlock "b") F2 C2 G2 P2 ltac:(discriminate) FB eq_refl) as (s3 & E3 & P3 & C3 & G3 & F3).
  destruct (loop_capture parse (S n) s3 [] b "" G3) as (s4 & E4 & P4 & C4 & G4 & Q4 & _); [by rewrite C3, P3, append_nil_r|].
  pose proof (loop_idle parse n s4 [] P4 G4) as E5.
  eexists s4, [], _, _. split; [by rewrite E1, E2, E3, E4, E5|].
  unfold Flush, ProcessChunk. cbv zeta. rewrite P4, C4, G4. set (s5 := withText _ _ _ _ _).
  assert (T5 : takePendingCalls s5 [] = (clearPendingCalls s5, [calls [b]])) by (unfold takePendingCalls; change (pendingToolCalls s5) with (pendingToolCalls s4); by rewrite Q4).
  rewrite T5. assert (Hf : exists m, sieveFuel (clearPendingCalls s5) = S m) by (unfold sieveFuel; eexists; rewrite Nat.add_comm; reflexivity).
  destruct Hf as [m ->]. rewrite (loop_idle parse m (clearPendingCalls s5) _ eq_refl eq_refl). cbn [mbind option_bind].
  change (takePendingCalls (clearPendingCalls s5) _) with (clearPendingCalls s5, [calls [b]]). cbn [mbind option_bind].
  change (capturing (clearPendingCalls s5)) with false. cbn [mbind option_bind]. rewrite bool_decide_eq_true_2 by reflexivity.
  split; [reflexivity|]. split; reflexivity.
Qed.

(** ** Witnesses *)

Definition toyParse (s : string) : option (list string * bool) := Some (if Contains s "<invoke" then [s] else [], Contains s "<tool_calls").
Definition blindParse (s : string) : option (list string * bool) := Some ([], false).
Definition demoChunks : list string := ["see <to"; "ol_calls><invoke name='a'></invo"; "ke></tool_calls> done"].

(** The third chunk completes the block that the first two have begun. *)
Definition demoBlock : string := "<tool_calls><invoke name='a'></invoke></tool_calls>".
Definition demoState : State string :=
  match runChunks toyParse newState (take 2 demoChunks) with Some (st, _) => st | None => newState end.

Lemma sieve_conserves_witness :
  runChunks toyParse newState (take 2 demoChunks) = Some (demoState, [content "see "]) /\
  exists st' events' p a b ps, ProcessChunk toyParse demoState "ke></tool_calls> done" = Some (st', events', true) /\
    "" = p +:+ a /\ Forall (justified toyParse) (Cut a demoBlock b [demoBlock] :: ps) /\
    demoBlock +:+ " done" = p +:+ sources (Cut a demoBlock b [demoBlock] :: ps) +:+ held st' /\
    events' = textEvent p ++ said ps /\ pendingToolCalls st' = lastFound [demoBlock] ps.
Proof.
  assert (E : runChunks toyParse newState (take 2 demoChunks) = Some (demoState, [content "see "])) by (vm_compute; reflexivity).
  split; [exact E|]. destruct (sieve_conserves toyParse _ _ _ E) as (_ & _ & H).
  destruct (ProcessChunk toyParse demoState "ke></tool_calls> done") as [[[st' events'] ended]|] eqn:Ep; [|exfalso; vm_compute in Ep; discriminate].
  assert (Hended : ended = true) by (vm_compute in Ep; congruence).
  destruct (H "ke></tool_calls> done" st' events' ended 0 "" demoBlock [demoBlock]) as (p & a & b & ps & H1 & H2 & H3 & H4 & H5).
  - left. split; vm_compute; reflexivity.
  - split; [discriminate|]. eexists _, _, true. split; [vm_compute; reflexivity|]. split; [reflexivity|]. split; [reflexivity|].
    split; [vm_compute; reflexivity|]. split; [reflexivity|]. split; vm_compute; reflexivity.
  - exact Ep.
  - exists st', events', p, a, b, ps. rewrite Hended. split; [reflexivity|]. split; [exact H1|]. split; [exact H2|]. split; [exact H3|]. split; [exact H4|exact H5].
Defined.

Lemma sieve_transparent_witness :
  exists st events st' events', runChunks blindParse newState demoChunks = Some (st, events) /\ Flush blindParse st = Some (st', events') /\
    texts (events ++ events') = concat_ demoChunks.
Proof.
  destruct (runChunks blindParse newState demoChunks) as [[st events]|] eqn:E; [|exfalso; vm_compute in E; discriminate].
  destruct (Flush blindParse st) as [[st' events']|] eqn:Ef.
  - exists st, events, st', events'. split; [reflexivity|]. split; [exact Ef|].
    refine (proj1 (sieve_transparent blindParse demoChunks st st' events events' _ E Ef)). intros x f w [= <- <-]. split; reflexivity.
  - exfalso. vm_compute in E. injection E as <- <-. vm_compute in Ef. discriminate.
Defined.

Lemma sieve_total_witness : exists st events, runChunks toyParse newState demoChunks = Some (st, events) /\ is_Some (Flush toyParse st).
Proof. apply (sieve_total toyParse demoChunks); [intros x; eexists; reflexivity|vm_compute; reflexivity]. Defined.

Lemma text_not_delayed_witness : exists st' : State string, ProcessChunk toyParse newState "hello" = Some (st', [content "hello"], true).
Proof.
  destruct (text_not_delayed toyParse newState "hello") as (st' & H & _);
    [reflexivity|reflexivity|discriminate|reflexivity|vm_compute; reflexivity|]. exists st'. exact H.
Defined.

Lemma fences_follow_text_witness :
  fenceOf (fold_left noteText ["a" +:+ nl +:+ "``"; "`" +:+ nl +:+ "x"] (newState (Call := string))) =
  simulateCodeFenceState (fenceOf (newState (Call := string))) (concat_ ["a" +:+ nl +:+ "``"; "`" +:+ nl +:+ "x"]).
Proof. apply fences_follow_text. repeat constructor. Defined.

Lemma first_block_lost_witness :
  exists st events st' events',
    ProcessChunk toyParse newState (callBlock "a" +:+ callBlock "b") = Some (st, events, true) /\ Flush toyParse st = Some (st', events') /\
    events ++ events' = [calls [callBlock "b"]] /\ held st' = "".
Proof. apply (first_block_lost toyParse (callBlock "a") (callBlock "b")); vm_compute; reflexivity. Defined.

(** A fence is missed when the line break before it arrives as a chunk of its own: the
    calls inside the code block are then reported as calls. *)
Example fence_missed :
  match runChunks toyParse newState ["text"; nl; fenceOpen; callBlock "a"; nl +:+ "```"] with
  | Some (_, events) => existsb (fun e => negb (bool_decide (ToolCalls e = []))) events | None => false
  end = true /\
  match runChunks toyParse newState ["text" +:+ nl; fenceOpen; callBlock "a"; nl +:+ "```"] with
  | Some (_, events) => existsb (fun e => negb (bool_decide (ToolCalls e = []))) events | None => true
  end = false.
Proof. split; vm_compute; reflexivity. Qed.

(** The sieve compares names as the model wrote them, without [canonicalToolMarkupName]: a
    hyphenated wrapper, which the parser of complete texts rewrites and accepts, is
    streamed as text even if the parser would take anything for a call. *)
Example hyphenated_wrapper_streamed :
  let text := "<dsml-tool-calls><dsml-invoke name='Bash'></dsml-invoke></dsml-tool-calls>" in
  let eager s : option (list string * bool) := Some ([s], true) in
  match runChunks eager newState [text] with
  | Some (st, events) => match Flush eager st with Some (_, rest) => Some (events ++ rest) | None => None end | None => None
  end = Some [content text] /\
  rewriteDSMLToolMarkupOutsideIgnored text = Some "<tool_calls><invoke name='Bash'></invoke></tool_calls>".
Proof. split; vm_compute; reflexivity. Qed.
