(* ===== verification/UpstreamError.v ===== *)
(** Errors of upstream requests and what the gateway concludes from them:
    [internal/deepseek/client/errors.go], [internal/auth/account_health.go],
    [internal/httpapi/openai/shared/upstream_error.go] and the error types and
    classifications of root_session_failover.go, session_chunking.go and
    session_chunking_failover.go in the same directory.

    A Go error is the list of its layers, outermost first: each layer unwraps to the next,
    [nil] is the empty list, [errors.As] finds the first layer of its type. *)
From S2P Require Import Prelude GoString GoText Pool.
Local Open Scope string_scope.
Local Open Scope Z_scope.

Inductive FailureKind :=
| FailureUnknown | FailureDirectUnauthorized | FailureManagedUnauthorized | FailureClientCancelled
| FailureUpstreamTimeout | FailureUpstreamNetwork | FailureUpstreamStatus.

#[global] Instance FailureKind_eq_dec : EqDecision FailureKind.
Proof. solve_decision. Defined.

Inductive RateLimitScope := ScopeUnset | RateLimitScopeAccount | RateLimitScopeSessionCapacity.

#[global] Instance RateLimitScope_eq_dec : EqDecision RateLimitScope.
Proof. solve_decision. Defined.

(** [Cause] is the rest of the layers. *)
Record RequestFailure := { Op : string; Kind : FailureKind; FMessage : string; StatusCode : Z; Scope : RateLimitScope }.

(** [HUntil] is the rendered time, [None] for the zero time. *)
Record AccountHealthError := { HState : HealthState; HUntil : option string; HCode : Z; HMessage : string }.

Inductive sessionChunkTerminal := sessionChunkTerminalEOF | sessionChunkTerminalDone | sessionChunkTerminalTimeout.

#[global] Instance sessionChunkTerminal_eq_dec : EqDecision sessionChunkTerminal.
Proof. solve_decision. Defined.

(** [cause] is the rest of the layers. *)
Record sessionChunkUncommittedError :=
  { reason : string; terminal : sessionChunkTerminal; responseMessageID : Z; started : bool }.

Inductive rootSessionStage := rootSessionStageCreate | rootSessionStagePow.

Section Layers.
(** The settings a limit error carries. *)
Context {Cfg : Type}.

Inductive layer :=
| LText (message : string)          (** any other error: its whole text *)
| LWrap (prefix : string)           (** [fmt.Errorf(prefix + "%w", inner)] *)
| LCanceled                         (** [context.Canceled] *)
| LDeadline                         (** [context.DeadlineExceeded] *)
| LHealth (h : AccountHealthError)
| LRequest (f : RequestFailure)
| LUncommitted (u : sessionChunkUncommittedError)
| LRoot (stage : rootSessionStage)
| LPromptLimit (message : string) (limit : Cfg)
| LIncrementalUnavailable.

Definition error := list layer.

(** [errors.As] for each type, with what the found layer unwraps to. *)
Fixpoint asHealth (e : error) : option AccountHealthError :=
  match e with [] => None | LHealth h :: _ => Some h | _ :: e => asHealth e end.

Fixpoint asRequest (e : error) : option RequestFailure :=
  match e with [] => None | LRequest f :: _ => Some f | _ :: e => asRequest e end.

Fixpoint asUncommitted (e : error) : option (sessionChunkUncommittedError * error) :=
  match e with [] => None | LUncommitted u :: cause => Some (u, cause) | _ :: e => asUncommitted e end.

Fixpoint asRoot (e : error) : option rootSessionStage :=
  match e with [] => None | LRoot s :: _ => Some s | _ :: e => asRoot e end.

Fixpoint asPromptLimit (e : error) : option (string * Cfg) :=
  match e with [] => None | LPromptLimit m c :: _ => Some (m, c) | _ :: e => asPromptLimit e end.

(** [errors.Is(err, context.Canceled)], [errors.Is(err, context.DeadlineExceeded)] *)
Definition isCanceled (e : error) : bool := existsb (fun l => match l with LCanceled => true | _ => false end) e.
Definition isDeadline (e : error) : bool := existsb (fun l => match l with LDeadline => true | _ => false end) e.

Definition RequestFailureText (f : RequestFailure) : string :=
  let op := TrimSpace (Op f) in
  let message := TrimSpace (FMessage f) in
  if negb (bool_decide (op = "")) && (0 <? StatusCode f) && negb (bool_decide (message = ""))
  then op +:+ " failed with HTTP " +:+ pretty (StatusCode f) +:+ ": " +:+ message
  else if negb (bool_decide (op = "")) && (0 <? StatusCode f) then op +:+ " failed with HTTP " +:+ pretty (StatusCode f)
  else if negb (bool_decide (op = "")) && negb (bool_decide (message = "")) then op +:+ ": " +:+ message
  else if negb (bool_decide (op = "")) then op +:+ " failed"
  else if negb (bool_decide (message = "")) then message
  else "request failed".

Definition AccountHealthErrorText (h : AccountHealthError) : string :=
  if negb (bool_decide (HMessage h = "")) then HMessage h
  else match HState h with
  | HealthTemporarilyMuted =>
      match HUntil h with Some t => "account temporarily muted until " +:+ t | None => "account temporarily muted" end
  | HealthRateLimited =>
      match HUntil h with Some t => "account rate limited until " +:+ t | None => "account rate limited" end
  | HealthPermanentlyBanned => "account permanently banned"
  | HealthInvalidCredentials => "account credentials rejected"
  | _ => "account health rejected"
  end.

Definition stageName (s : rootSessionStage) : string := match s with rootSessionStageCreate => "create" | rootSessionStagePow => "pow" end.

(** [err.Error()] *)
Fixpoint Error (e : error) : string :=
  match e with
  | [] => ""
  | LText m :: _ => m
  | LWrap p :: e => p +:+ Error e
  | LCanceled :: _ => "context canceled"
  | LDeadline :: _ => "context deadline exceeded"
  | LHealth h :: _ => AccountHealthErrorText h
  | LRequest f :: _ => RequestFailureText f
  | LUncommitted u :: cause =>
      let message := if bool_decide (TrimSpace (reason u) = "") then "upstream stream ended before fragment commit" else TrimSpace (reason u) in
      match cause with [] => message | _ => message +:+ ": " +:+ Error cause end
  | LRoot s :: e => match e with [] => "root session setup failed" | _ => "root session " +:+ stageName s +:+ ": " +:+ Error e end
  | LPromptLimit m _ :: _ => if bool_decide (TrimSpace m = "") then "prompt exceeds replacement account input limit" else m
  | LIncrementalUnavailable :: _ => "incremental pinned completion is unavailable"
  end.

Definition IsManagedUnauthorizedError (e : error) : bool :=
  match asRequest e with Some f => bool_decide (Kind f = FailureManagedUnauthorized) | None => false end.
Definition IsDirectUnauthorizedError (e : error) : bool :=
  match asRequest e with Some f => bool_decide (Kind f = FailureDirectUnauthorized) | None => false end.
Definition IsClientCancelledError (e : error) : bool :=
  isCanceled e || match asRequest e with Some f => bool_decide (Kind f = FailureClientCancelled) | None => false end.
Definition IsUpstreamTimeoutError (e : error) : bool :=
  isDeadline e || match asRequest e with Some f => bool_decide (Kind f = FailureUpstreamTimeout) | None => false end.
Definition IsSessionCapacityRateLimit (e : error) : bool :=
  match asRequest e with Some f => bool_decide (Scope f = RateLimitScopeSessionCapacity) | None => false end.

Definition firstError (primary fallback : error) : error := match primary with [] => fallback | _ => primary end.

Definition failure (op : string) (kind : FailureKind) (message : string) : layer :=
  LRequest {| Op := op; Kind := kind; FMessage := message; StatusCode := 0; Scope := ScopeUnset |}.

(** [ctxErr] is [ctx.Err()]; a missing context is the empty one. *)
Definition requestContextFailure (op : string) (ctxErr cause : error) : option error :=
  if isCanceled ctxErr then Some (failure op FailureClientCancelled "client cancelled request" :: firstError cause ctxErr)
  else if isDeadline ctxErr then Some (failure op FailureUpstreamTimeout "request timed out" :: firstError cause ctxErr)
  else if isCanceled cause then Some (failure op FailureClientCancelled "client cancelled request" :: cause)
  else if isDeadline cause then Some (failure op FailureUpstreamTimeout "request timed out" :: cause)
  else None.

(** [netTimeout]: the cause is a [net.Error] that timed out. *)
Definition transportFailure (op : string) (ctxErr cause : error) (netTimeout : bool) : error :=
  match requestContextFailure op ctxErr cause with
  | Some e => e
  | None => failure op (if netTimeout then FailureUpstreamTimeout else FailureUpstreamNetwork) (Error cause) :: cause
  end.

Definition requestFailureKind (e : error) : FailureKind := match asRequest e with Some f => Kind f | None => FailureUnknown end.

Fixpoint afterRequest (e : error) : error :=
  match e with [] => [] | LRequest _ :: cause => cause | _ :: e => afterRequest e end.

Definition requestFailureWithOp (op : string) (e : error) : error :=
  match asRequest e with
  | Some f => LRequest {| Op := op; Kind := Kind f; FMessage := FMessage f; StatusCode := StatusCode f; Scope := Scope f |} :: afterRequest e
  | None => e
  end.

(** ** What a client is told *)

Record UpstreamErrorDetail := { DStatus : Z; DMessage : string; DCode : string; FinishReason : string; Stopped : bool }.

(** [http.StatusText] *)
Definition StatusText (status : Z) : string :=
  match status with
  | 100 => "Continue" | 101 => "Switching Protocols" | 102 => "Processing" | 103 => "Early Hints"
  | 200 => "OK" | 201 => "Created" | 202 => "Accepted" | 203 => "Non-Authoritative Information" | 204 => "No Content"
  | 205 => "Reset Content" | 206 => "Partial Content" | 207 => "Multi-Status" | 208 => "Already Reported" | 226 => "IM Used"
  | 300 => "Multiple Choices" | 301 => "Moved Permanently" | 302 => "Found" | 303 => "See Other" | 304 => "Not Modified"
  | 305 => "Use Proxy" | 307 => "Temporary Redirect" | 308 => "Permanent Redirect"
  | 400 => "Bad Request" | 401 => "Unauthorized" | 402 => "Payment Required" | 403 => "Forbidden" | 404 => "Not Found"
  | 405 => "Method Not Allowed" | 406 => "Not Acceptable" | 407 => "Proxy Authentication Required" | 408 => "Request Timeout"
  | 409 => "Conflict" | 410 => "Gone" | 411 => "Length Required" | 412 => "Precondition Failed" | 413 => "Request Entity Too Large"
  | 414 => "Request URI Too Long" | 415 => "Unsupported Media Type" | 416 => "Requested Range Not Satisfiable"
  | 417 => "Expectation Failed" | 418 => "I'm a teapot" | 421 => "Misdirected Request" | 422 => "Unprocessable Entity"
  | 423 => "Locked" | 424 => "Failed Dependency" | 425 => "Too Early" | 426 => "Upgrade Required" | 428 => "Precondition Required"
  | 429 => "Too Many Requests" | 431 => "Request Header Fields Too Large" | 451 => "Unavailable For Legal Reasons"
  | 500 => "Internal Server Error" | 501 => "Not Implemented" | 502 => "Bad Gateway" | 503 => "Service Unavailable"
  | 504 => "Gateway Timeout" | 505 => "HTTP Version Not Supported" | 506 => "Variant Also Negotiates" | 507 => "Insufficient Storage"
  | 508 => "Loop Detected" | 510 => "Not Extended" | 511 => "Network Authentication Required"
  | _ => ""
  end.

Definition prefixUpstreamHTTPMessage (op : string) (status : Z) (detail : string) : string :=
  let prefix := "Upstream " +:+ TrimSpace op +:+ " failed" in
  let prefix := if 0 <? status then
      let p := prefix +:+ " with HTTP " +:+ pretty status in
      if bool_decide (StatusText status = "") then p else p +:+ " " +:+ StatusText status
    else prefix in
  if bool_decide (TrimSpace detail = "") then prefix +:+ "." else prefix +:+ ": " +:+ TrimSpace detail.

Definition prefixUpstreamMessage (op why detail : string) : string :=
  let prefix := "Upstream " +:+ TrimSpace op +:+ " " +:+ TrimSpace why in
  if bool_decide (TrimSpace detail = "") then prefix +:+ "." else prefix +:+ ": " +:+ TrimSpace detail.

Definition errorMessage (e : error) (fallback : string) : string :=
  match e with [] => fallback | _ => if bool_decide (TrimSpace (Error e) = "") then fallback else TrimSpace (Error e) end.

Definition detail (status : Z) (message code finish : string) (stopped : bool) : UpstreamErrorDetail :=
  {| DStatus := status; DMessage := message; DCode := code; FinishReason := finish; Stopped := stopped |}.

Definition cancelledDetail : UpstreamErrorDetail :=
  detail 499 "Client cancelled the request before upstream completion." "client_cancelled" "context_cancelled" true.

(** The part about an account's health. *)
Definition healthDetail (e : error) : option UpstreamErrorDetail :=
  match asHealth e with
  | Some h =>
      match HState h with
      | HealthTemporarilyMuted =>
          Some (detail 429 "Upstream account is temporarily muted; the account was skipped until the upstream mute expires."
            "account_temporarily_muted" "account_temporarily_muted" false)
      | HealthPermanentlyBanned =>
          Some (detail 403 "Upstream account is permanently banned and has been removed from rotation."
            "account_permanently_banned" "account_permanently_banned" false)
      | _ => None
      end
  | None => None
  end.

(** The part about a failed request. *)
Definition requestDetail (e : error) (op : string) : option UpstreamErrorDetail :=
  match asRequest e with
  | None => None
  | Some f =>
      if IsSessionCapacityRateLimit e then
        Some (detail 413 "Upstream conversation reached its context or turn capacity; the account remains available and this session should be rotated."
          "upstream_session_capacity" "upstream_session_capacity" false)
      else match Kind f with
      | FailureClientCancelled => Some cancelledDetail
      | FailureUpstreamTimeout => Some (detail 504 (prefixUpstreamMessage op "timed out" (FMessage f)) "upstream_timeout" "upstream_timeout" false)
      | FailureUpstreamNetwork =>
          Some (detail 502 (prefixUpstreamMessage op "network error" (FMessage f)) "upstream_network_error" "upstream_network_error" false)
      | FailureUpstreamStatus =>
          let status := if StatusCode f <=? 0 then 502 else StatusCode f in
          Some (detail status (prefixUpstreamHTTPMessage op status (FMessage f)) "upstream_http_status" "upstream_http_status" false)
      | FailureManagedUnauthorized =>
          Some (detail 401 "Account token is invalid. Please re-login the account in admin." "authentication_failed" "managed_unauthorized" false)
      | FailureDirectUnauthorized =>
          Some (detail 401 "Invalid token. If this should be a DeepSeek_Web_To_API key, add it to config.keys first."
            "authentication_failed" "direct_unauthorized" false)
      | FailureUnknown => None
      end
  end.

Definition upstreamRequestErrorDetail (e : error) (op : string) : UpstreamErrorDetail :=
  match healthDetail e with
  | Some d => d
  | None =>
  match requestDetail e op with
  | Some d => d
  | None =>
      if isCanceled e then cancelledDetail
      else if isDeadline e then detail 504 (prefixUpstreamMessage op "timed out" (Error e)) "upstream_timeout" "upstream_timeout" false
      else detail 502 (prefixUpstreamMessage op "failed" (errorMessage e "request failed")) "upstream_request_failed" "upstream_request_failed" false
  end
  end.

Definition CompletionErrorDetail (e : error) : UpstreamErrorDetail := upstreamRequestErrorDetail e "completion".
Definition SessionErrorDetail (e : error) : UpstreamErrorDetail := upstreamRequestErrorDetail e "session".
Definition PowErrorDetail (e : error) : UpstreamErrorDetail := upstreamRequestErrorDetail e "pow".

(** ** What the gateway does next *)

(** A child of the conversation must not go on: rebuild it under another account. *)
Definition ShouldReplayPinnedBranch (e : error) : bool :=
  match e with
  | [] => false
  | _ =>
      match asHealth e with
      | Some h => bool_decide (HState h ∈ [HealthRateLimited; HealthTemporarilyMuted; HealthInvalidCredentials; HealthPermanentlyBanned])
      | None => false
      end || bool_decide (DStatus (CompletionErrorDetail e) ∈ [429; 401; 403])
  end.

Definition isTransientSessionChunkStatus (status : Z) : bool := bool_decide (status ∈ [500; 502; 503; 504]).

(** The same fragment may be sent again in the same conversation. *)
Definition isRetryableSameSessionFragmentFailure (e : error) : bool :=
  match e with
  | [] => false
  | _ =>
      if IsSessionCapacityRateLimit e || ShouldReplayPinnedBranch e then false
      else if Stopped (CompletionErrorDetail e) then false
      else match asUncommitted e with
      | Some (u, _) => bool_decide (terminal u = sessionChunkTerminalDone) && (responseMessageID u =? 0) && negb (started u)
      | None =>
          let d := CompletionErrorDetail e in
          if bool_decide (DCode d = "upstream_network_error") then true
          else bool_decide (DCode d = "upstream_http_status") && isTransientSessionChunkStatus (DStatus d)
      end
  end.

(** The whole prompt may be sent again in a new conversation. *)
Definition IsRetryableSessionChunkingFailure (e : error) : bool :=
  match e with
  | [] => false
  | _ =>
      if IsSessionCapacityRateLimit e || ShouldReplayPinnedBranch e then false
      else match asUncommitted e with
      | Some (u, cause) => match cause with [] => true | _ => negb (Stopped (CompletionErrorDetail cause)) end
      | None =>
          let d := CompletionErrorDetail e in
          if Stopped d then false
          else if bool_decide (DCode d = "upstream_network_error") || bool_decide (DCode d = "upstream_timeout") then true
          else bool_decide (DCode d = "upstream_http_status") && isTransientSessionChunkStatus (DStatus d)
      end
  end.

Definition isRetryableSessionChunkControlError (e : error) : bool :=
  match e with
  | [] => false
  | _ => Contains (Error e) "upstream stream ended before fragment commit" ||
         Contains (Error e) "upstream finished before required reasoning/content started"
  end.

Definition sessionChunkTerminalFailureClass (t : sessionChunkTerminal) : string :=
  match t with
  | sessionChunkTerminalDone => "done_without_commit"
  | sessionChunkTerminalEOF => "eof_without_commit"
  | sessionChunkTerminalTimeout => "timeout_without_commit"
  end.

Definition sessionChunkFailureClass (e : error) : string :=
  match e with
  | [] => "none"
  | _ =>
      if IsSessionCapacityRateLimit e then "session_capacity_429"
      else if ShouldReplayPinnedBranch e then "account_scoped_failure"
      else match asUncommitted e with
      | Some (u, _) => sessionChunkTerminalFailureClass (terminal u)
      | None =>
          let d := CompletionErrorDetail e in
          if bool_decide (DCode d = "upstream_network_error") then "network"
          else if bool_decide (DCode d = "upstream_timeout") then "timeout"
          else if bool_decide (DCode d = "upstream_http_status") then "upstream_http_" +:+ pretty (DStatus d)
          else DCode d
      end
  end.

Definition sessionChunkFailureStatus (e : error) : Z :=
  match e with
  | [] => 0
  | _ => match asRequest e with
         | Some f => if 0 <? StatusCode f then StatusCode f else DStatus (CompletionErrorDetail e)
         | None => DStatus (CompletionErrorDetail e)
         end
  end.

Definition capacityPatterns : list string :=
  ["conversation context"; "conversation limit"; "conversation turn"; "conversation has reached";
   "session context"; "session limit"; "session turn"; "session has reached";
   "maximum turns"; "maximum messages"; "too many messages"; "context window";
   "context length"; "prompt is too long"; "input is too long";
   "会话上下文"; "会话轮次"; "会话达到上限"; "会话已达到上限";
   "对话上下文"; "对话轮次"; "对话达到上限"; "上下文长度"; "上下文超限"].

Definition sessionChunkBodyIndicatesCapacity (body : string) : bool :=
  let message := ToLower (TrimSpace body) in
  if bool_decide (message = "") then false else existsb (Contains message) capacityPatterns.

Definition sessionChunkHTTPFailure (status : Z) (body : string) : error :=
  [LRequest {| Op := "completion"; Kind := FailureUpstreamStatus; FMessage := TrimSpace body; StatusCode := status;
               Scope := if (status =? 429) && sessionChunkBodyIndicatesCapacity body then RateLimitScopeSessionCapacity else ScopeUnset |}].

Definition RootSessionErrorIsPow (e : error) : bool := match asRoot e with Some rootSessionStagePow => true | _ => false end.

Definition RootSessionPromptLimitMessage (e : error) : option string :=
  match asPromptLimit e with
  | Some (m, _) => Some (if bool_decide (TrimSpace m = "") then "prompt exceeds replacement account input limit" else m)
  | None => None
  end.

Definition RootSessionPromptLimitSettings (e : error) : option Cfg := snd <$> asPromptLimit e.
End Layers.

Arguments layer : clear implicits.
Arguments error : clear implicits.

(** ** The classifications *)

Section Classify.
Context {Cfg : Type}.
Implicit Types e : error Cfg.

(** Layers [errors.As] and [errors.Is] look through. *)
Definition sameClass (d d' : UpstreamErrorDetail) : Prop :=
  DStatus d = DStatus d' /\ DCode d = DCode d' /\ FinishReason d = FinishReason d' /\ Stopped d = Stopped d'.

Lemma wrap_nonempty_detail (p : string) e op :
  sameClass (upstreamRequestErrorDetail (LWrap p :: e) op) (upstreamRequestErrorDetail e op).
Proof.
  unfold sameClass, upstreamRequestErrorDetail, healthDetail, requestDetail, IsSessionCapacityRateLimit. simpl.
  destruct (asHealth e) as [h|]; [destruct (HState h)|]; try done;
    (destruct (asRequest e) as [f|]; [case_bool_decide; [done|]; destruct (Kind f)|]; try done;
     destruct (isCanceled e); try done; by destruct (isDeadline e)).
Qed.

(** Context added to an error on its way up ([fmt.Errorf("...: %w", err)]) changes
    nothing about how the gateway classifies it: the same status and code for the client,
    and the same decision to rotate the conversation, to change the account, to send the
    fragment again, to rebuild the conversation, or to give up. *)
Theorem classification_ignores_context (p : string) e :
  e <> [] ->
  sameClass (CompletionErrorDetail (LWrap p :: e)) (CompletionErrorDetail e) /\
  IsSessionCapacityRateLimit (LWrap p :: e) = IsSessionCapacityRateLimit e /\
  ShouldReplayPinnedBranch (LWrap p :: e) = ShouldReplayPinnedBranch e /\
  isRetryableSameSessionFragmentFailure (LWrap p :: e) = isRetryableSameSessionFragmentFailure e /\
  IsRetryableSessionChunkingFailure (LWrap p :: e) = IsRetryableSessionChunkingFailure e /\
  IsClientCancelledError (LWrap p :: e) = IsClientCancelledError e.
Proof.
  intros Hne. pose proof (wrap_nonempty_detail p e "completion") as H. fold (CompletionErrorDetail (LWrap p :: e)) in H. fold (CompletionErrorDetail e) in H.
  split; [done|]. destruct H as (H1 & H2 & H3 & H4). destruct e as [|l e]; [done|]. split; [done|].
  assert (HR : ShouldReplayPinnedBranch (LWrap p :: l :: e) = ShouldReplayPinnedBranch (l :: e)).
  { unfold ShouldReplayPinnedBranch. by rewrite H1. }
  split; [done|]. unfold isRetryableSameSessionFragmentFailure, IsRetryableSessionChunkingFailure. rewrite HR, H1, H2, H4.
  split; [done|]. split; done.
Qed.

(** The client has gone: the failed request says so, or, where no failed request tells a reason,
    the context of the error does; and nothing else in it comes first, a muted or banned account
    or a full conversation. *)
Definition clientGone e : Prop :=
  (forall h, asHealth e = Some h -> HState h <> HealthTemporarilyMuted /\ HState h <> HealthPermanentlyBanned) /\
  (forall f, asRequest e = Some f -> Scope f <> RateLimitScopeSessionCapacity /\ (Kind f = FailureClientCancelled \/ (Kind f = FailureUnknown /\ LCanceled ∈ e))) /\
  (asRequest e = None -> LCanceled ∈ e).

Lemma isCanceled_spec e : isCanceled e = true <-> LCanceled ∈ e.
Proof.
  unfold isCanceled. rewrite existsb_exists. split.
  - intros (l & I & E). destruct l; try discriminate E. by apply list_elem_of_In.
  - intros I. exists LCanceled. split; [by apply list_elem_of_In|done].
Qed.

Lemma gone_detail e op : clientGone e -> upstreamRequestErrorDetail e op = cancelledDetail /\ IsSessionCapacityRateLimit e = false.
Proof.
  intros (H & R & N). assert (Hh : healthDetail e = None).
  { unfold healthDetail. destruct (asHealth e) as [h|]; [|done]. destruct (H h eq_refl). by destruct (HState h). }
  unfold upstreamRequestErrorDetail, requestDetail, IsSessionCapacityRateLimit. rewrite Hh.
  destruct (asRequest e) as [f|]; [|by rewrite (proj2 (isCanceled_spec e) (N eq_refl))].
  destruct (R f eq_refl) as [S K]. rewrite bool_decide_eq_false_2 by done. split; [|done].
  destruct K as [->|[-> I]]; [done|]. by rewrite (proj2 (isCanceled_spec e) I).
Qed.

(** The error says that an account was rate limited or its credentials were rejected. *)
Definition accountLimited e : Prop := exists h, asHealth e = Some h /\ (HState h = HealthRateLimited \/ HState h = HealthInvalidCredentials).


(** The three ways to recover exclude each other, up to the order in which the code asks. *)
Lemma recovery_exclusive e :
  (IsRetryableSessionChunkingFailure e = true \/ isRetryableSameSessionFragmentFailure e = true) ->
  IsSessionCapacityRateLimit e = false /\ ShouldReplayPinnedBranch e = false.
Proof.
  unfold isRetryableSameSessionFragmentFailure, IsRetryableSessionChunkingFailure. destruct e as [|l e]; [by intros [|]|].
  destruct (IsSessionCapacityRateLimit (l :: e)); [intros [H|H]; discriminate H|]. destruct (ShouldReplayPinnedBranch (l :: e)); [intros [H|H]; discriminate H|done].
Qed.

(** A request that fails in transport is classified by the request's context first and
    by the cause second: cancelled, timed out, or a network error. *)
Theorem transport_classified (op : string) (ctxErr cause : error Cfg) (netTimeout : bool) :
  asHealth ctxErr = None -> asHealth cause = None ->
  let d := CompletionErrorDetail (transportFailure op ctxErr cause netTimeout) in
  let cancelled := isCanceled ctxErr || (negb (isDeadline ctxErr) && isCanceled cause) in
  let timedOut := isDeadline ctxErr || isDeadline cause || netTimeout in
  Stopped d = cancelled /\
  DStatus d = (if cancelled then 499 else if timedOut then 504 else 502) /\
  DCode d = (if cancelled then "client_cancelled" else if timedOut then "upstream_timeout" else "upstream_network_error").
Proof.
  intros Hx Hc d cancelled timedOut. subst d cancelled timedOut. unfold transportFailure, requestContextFailure, failure.
  assert (Hh : forall l, asHealth (firstError cause ctxErr) = None /\ (l = firstError cause ctxErr -> asHealth l = None)).
  { intros l. assert (H' : asHealth (firstError cause ctxErr) = None) by (by destruct cause). split; [done|by intros ->]. }
  destruct (Hh []) as [Hf _]. unfold CompletionErrorDetail, upstreamRequestErrorDetail, healthDetail.
  destruct (isCanceled ctxErr); simpl; [rewrite Hf; done|]. destruct (isDeadline ctxErr); simpl; [rewrite Hf; done|].
  destruct (isCanceled cause); simpl; [rewrite Hc; done|]. destruct (isDeadline cause); simpl; [rewrite Hc; done|].
  rewrite Hc. by destruct netTimeout.
Qed.

(** The status a client gets is an error status, when the upstream's was one. *)
Lemma detail_status_error e op :
  (forall f, asRequest e = Some f -> StatusCode f <= 0 \/ 400 <= StatusCode f <= 599) -> 400 <= DStatus (upstreamRequestErrorDetail e op) <= 599.
Proof.
  intros H. unfold upstreamRequestErrorDetail, healthDetail, requestDetail.
  assert (G : 400 <= DStatus (match requestDetail e op with Some d => d | None => if isCanceled e then cancelledDetail
     else if isDeadline e then detail 504 (prefixUpstreamMessage op "timed out" (Error e)) "upstream_timeout" "upstream_timeout" false
      else detail 502 (prefixUpstreamMessage op "failed" (errorMessage e "request failed")) "upstream_request_failed" "upstream_request_failed" false end) <= 599).
  { unfold requestDetail. destruct (asRequest e) as [f|].
    - specialize (H f eq_refl). destruct (IsSessionCapacityRateLimit e); simpl; [lia|]. destruct (Kind f); simpl; try lia.
      + destruct (isCanceled e); simpl; [lia|]. destruct (isDeadline e); simpl; lia.
      + destruct (Z.leb_spec (StatusCode f) 0); lia.
    - destruct (isCanceled e); simpl; [lia|]. destruct (isDeadline e); simpl; lia. }
  unfold requestDetail in G. destruct (asHealth e) as [h|]; [destruct (HState h)|]; simpl; try exact G; lia.
Qed.
End Classify.

Definition cancelledRequest : error unit := LWrap "commit session chunk 1/2: " :: transportFailure "completion" [LCanceled] [LText "dial"] false.

Lemma classification_ignores_context_witness :
  IsRetryableSessionChunkingFailure (LWrap "commit: " :: sessionChunkHTTPFailure (Cfg := unit) 502 "bad") = true.
Proof.
  destruct (classification_ignores_context "commit: " (sessionChunkHTTPFailure (Cfg := unit) 502 "bad") ltac:(done)) as (_ & _ & _ & _ & -> & _).
  reflexivity.
Defined.


Lemma transport_classified_witness :
  DStatus (CompletionErrorDetail (transportFailure (Cfg := unit) "pow" [] [LText "reset"] false)) = 502.
Proof. apply (transport_classified (Cfg := unit) "pow" [] [LText "reset"] false); reflexivity. Defined.

(** A 429 that names the conversation is not the account's fault. *)
Example capacity_ex :
  let e := sessionChunkHTTPFailure (Cfg := unit) 429 "Conversation has reached its limit" in
  (IsSessionCapacityRateLimit e, ShouldReplayPinnedBranch e, DStatus (CompletionErrorDetail e)) = (true, false, 413).
Proof. vm_compute. reflexivity. Qed.

Example detail_ex :
  DMessage (CompletionErrorDetail (sessionChunkHTTPFailure (Cfg := unit) 502 " down ")) = "Upstream completion failed with HTTP 502 Bad Gateway: down".
Proof. vm_compute. reflexivity. Qed.
