(* ===== verification/Models.v ===== *)
(** Model names: [internal/config/models.go].

    The aliases an operator configured are the pairs of the map in the order in which Go
    visits it. *)
From S2P Require Import Prelude GoString.
Local Open Scope string_scope.

(** [Permission] is [None] for a nil slice. *)
Record ModelInfo := { ID : string; Object_ : string; Created : Z; OwnedBy : string; Permission : option (list string) }.

Definition noThinkingModelSuffix : string := "-nothinking".

Definition deepSeekModel (id : string) : ModelInfo :=
  {| ID := id; Object_ := "model"; Created := 1677610602; OwnedBy := "deepseek"; Permission := Some [] |}.

Definition deepSeekBaseModels : list ModelInfo :=
  deepSeekModel <$> ["deepseek-v4-flash"; "deepseek-v4-pro"; "deepseek-v4-flash-search"; "deepseek-v4-pro-search"].

Definition blockedDeepSeekModels : list string := ["deepseek-v4-vision"].

Definition claudeModel (id : string) : ModelInfo :=
  {| ID := id; Object_ := "model"; Created := 1715635200; OwnedBy := "anthropic"; Permission := None |}.

Definition claudeBaseModels : list ModelInfo :=
  claudeModel <$>
  ["claude-opus-4-6"; "claude-sonnet-4-6"; "claude-haiku-4-5"; "claude-sonnet-4-5";
   "claude-opus-4-1"; "claude-opus-4-1-20250805"; "claude-opus-4-0"; "claude-opus-4-20250514";
   "claude-sonnet-4-5-20250929"; "claude-sonnet-4-0"; "claude-sonnet-4-20250514"; "claude-haiku-4-5-20251001";
   "claude-3-7-sonnet-latest"; "claude-3-7-sonnet-20250219"; "claude-3-5-sonnet-latest"; "claude-3-5-sonnet-20240620";
   "claude-3-5-sonnet-20241022"; "claude-3-opus-20240229"; "claude-3-sonnet-20240229"; "claude-3-5-haiku-latest";
   "claude-3-5-haiku-20241022"; "claude-3-haiku-20240307"].

Definition DefaultModelAliases : list (string * string) :=
  [("chatgpt-4o", "deepseek-v4-flash"); ("gpt-4", "deepseek-v4-flash");
   ("gpt-4-turbo", "deepseek-v4-flash"); ("gpt-4-turbo-preview", "deepseek-v4-flash"); ("gpt-4.5-preview", "deepseek-v4-flash");
   ("gpt-4o", "deepseek-v4-flash"); ("gpt-4o-mini", "deepseek-v4-flash"); ("gpt-4.1", "deepseek-v4-flash");
   ("gpt-4.1-mini", "deepseek-v4-flash"); ("gpt-4.1-nano", "deepseek-v4-flash"); ("gpt-5", "deepseek-v4-flash");
   ("gpt-5-chat", "deepseek-v4-flash"); ("gpt-5.1", "deepseek-v4-flash"); ("gpt-5.1-chat", "deepseek-v4-flash");
   ("gpt-5.2", "deepseek-v4-flash"); ("gpt-5.2-chat", "deepseek-v4-flash"); ("gpt-5.3-chat", "deepseek-v4-flash");
   ("gpt-5.4", "deepseek-v4-flash"); ("gpt-5.5", "deepseek-v4-flash"); ("gpt-5-mini", "deepseek-v4-flash");
   ("gpt-5-nano", "deepseek-v4-flash"); ("gpt-5.4-mini", "deepseek-v4-flash"); ("gpt-5.4-nano", "deepseek-v4-flash");
   ("gpt-5-pro", "deepseek-v4-pro"); ("gpt-5.2-pro", "deepseek-v4-pro"); ("gpt-5.4-pro", "deepseek-v4-pro");
   ("gpt-5.5-pro", "deepseek-v4-pro"); ("gpt-5-codex", "deepseek-v4-pro"); ("gpt-5.1-codex", "deepseek-v4-pro");
   ("gpt-5.1-codex-mini", "deepseek-v4-pro"); ("gpt-5.1-codex-max", "deepseek-v4-pro"); ("gpt-5.2-codex", "deepseek-v4-pro");
   ("gpt-5.3-codex", "deepseek-v4-pro"); ("codex-mini-latest", "deepseek-v4-pro"); ("o1", "deepseek-v4-pro");
   ("o1-preview", "deepseek-v4-pro"); ("o1-mini", "deepseek-v4-pro"); ("o1-pro", "deepseek-v4-pro");
   ("o3", "deepseek-v4-pro"); ("o3-mini", "deepseek-v4-pro"); ("o3-pro", "deepseek-v4-pro");
   ("o3-deep-research", "deepseek-v4-pro-search"); ("o4-mini", "deepseek-v4-pro"); ("o4-mini-deep-research", "deepseek-v4-pro-search");
   ("claude-opus-4-6", "deepseek-v4-pro"); ("claude-opus-4-1", "deepseek-v4-pro"); ("claude-opus-4-1-20250805", "deepseek-v4-pro");
   ("claude-opus-4-0", "deepseek-v4-pro"); ("claude-opus-4-20250514", "deepseek-v4-pro"); ("claude-sonnet-4-6", "deepseek-v4-flash");
   ("claude-sonnet-4-5", "deepseek-v4-flash"); ("claude-sonnet-4-5-20250929", "deepseek-v4-flash"); ("claude-sonnet-4-0", "deepseek-v4-flash");
   ("claude-sonnet-4-20250514", "deepseek-v4-flash"); ("claude-haiku-4-5", "deepseek-v4-flash"); ("claude-haiku-4-5-20251001", "deepseek-v4-flash");
   ("claude-3-7-sonnet", "deepseek-v4-flash"); ("claude-3-7-sonnet-latest", "deepseek-v4-flash"); ("claude-3-7-sonnet-20250219", "deepseek-v4-flash");
   ("claude-3-5-sonnet", "deepseek-v4-flash"); ("claude-3-5-sonnet-latest", "deepseek-v4-flash"); ("claude-3-5-sonnet-20240620", "deepseek-v4-flash");
   ("claude-3-5-sonnet-20241022", "deepseek-v4-flash"); ("claude-3-5-haiku", "deepseek-v4-flash"); ("claude-3-5-haiku-latest", "deepseek-v4-flash");
   ("claude-3-5-haiku-20241022", "deepseek-v4-flash"); ("claude-3-opus", "deepseek-v4-pro"); ("claude-3-opus-20240229", "deepseek-v4-pro");
   ("claude-3-sonnet", "deepseek-v4-flash"); ("claude-3-sonnet-20240229", "deepseek-v4-flash"); ("claude-3-haiku", "deepseek-v4-flash");
   ("claude-3-haiku-20240307", "deepseek-v4-flash"); ("gemini-pro", "deepseek-v4-pro"); ("gemini-pro-latest", "deepseek-v4-pro");
   ("gemini-flash-latest", "deepseek-v4-flash"); ("gemini-1.5-pro", "deepseek-v4-pro"); ("gemini-1.5-flash", "deepseek-v4-flash");
   ("gemini-1.5-flash-8b", "deepseek-v4-flash"); ("gemini-2.0-flash", "deepseek-v4-flash"); ("gemini-2.0-flash-lite", "deepseek-v4-flash");
   ("gemini-2.5-pro", "deepseek-v4-pro"); ("gemini-2.5-flash", "deepseek-v4-flash"); ("gemini-2.5-flash-lite", "deepseek-v4-flash");
   ("gemini-3.1-pro", "deepseek-v4-pro"); ("gemini-3-pro", "deepseek-v4-pro"); ("gemini-3-flash", "deepseek-v4-flash");
   ("gemini-3.1-flash", "deepseek-v4-flash"); ("gemini-3.1-flash-lite", "deepseek-v4-flash"); ("llama-3.1-70b-instruct", "deepseek-v4-flash");
   ("qwen-max", "deepseek-v4-flash")].

Definition blocked (base : string) : bool := bool_decide (base ∈ blockedDeepSeekModels).

Definition splitNoThinkingModel (model : string) : string * bool :=
  let model := lower (TrimSpace model) in
  if HasSuffix model noThinkingModelSuffix then (TrimSuffix model noThinkingModelSuffix, true) else (model, false).

Definition withNoThinkingVariant (model : string) (enabled : bool) : string :=
  let baseModel := (splitNoThinkingModel model).1 in
  if negb enabled then baseModel
  else if bool_decide (baseModel = "") then "" else baseModel +:+ noThinkingModelSuffix.

Definition appendNoThinkingVariants (models : list ModelInfo) : list ModelInfo :=
  concat ((fun m => [m; {| ID := withNoThinkingVariant (ID m) true; Object_ := Object_ m; Created := Created m;
                           OwnedBy := OwnedBy m; Permission := Permission m |}]) <$> models).

Definition DeepSeekModels : list ModelInfo := appendNoThinkingVariants deepSeekBaseModels.
Definition ClaudeModels : list ModelInfo := appendNoThinkingVariants claudeBaseModels.

(** [(thinking, search)], or not a model. *)
Definition GetModelConfig (model : string) : option (bool * bool) :=
  let '(baseModel, noThinking) := splitNoThinkingModel model in
  if bool_decide (baseModel = "") then None
  else if blocked baseModel then None
  else if bool_decide (baseModel ∈ ["deepseek-v4-flash"; "deepseek-v4-pro"]) then Some (negb noThinking, false)
  else if bool_decide (baseModel ∈ ["deepseek-v4-flash-search"; "deepseek-v4-pro-search"]) then Some (negb noThinking, true)
  else None.

Definition GetModelType (model : string) : option string :=
  let baseModel := (splitNoThinkingModel model).1 in
  if blocked baseModel then None
  else if bool_decide (baseModel ∈ ["deepseek-v4-flash"; "deepseek-v4-flash-search"]) then Some "default"
  else if bool_decide (baseModel ∈ ["deepseek-v4-pro"; "deepseek-v4-pro-search"]) then Some "expert"
  else None.

Definition IsSupportedDeepSeekModel (model : string) : bool := match GetModelConfig model with Some _ => true | None => false end.

Definition IsNoThinkingModel (model : string) : bool := (splitNoThinkingModel model).2.

Definition isBlockedModel (model : string) : bool :=
  if bool_decide (model = "") then false
  else if blocked model then true else blocked (splitNoThinkingModel model).1.

Definition isRetiredHistoricalModel (model : string) : bool :=
  HasPrefix model "claude-1." || HasPrefix model "claude-2." || HasPrefix model "claude-instant-" || HasPrefix model "gpt-3.5".

(** [store] is what [store.ModelAliases()] returns; no store has no aliases. *)
Definition loadModelAliases (store : list (string * string)) : gmap string string :=
  fold_left (fun m '(k, v) => <[lower (TrimSpace k) := lower (TrimSpace v)]> m) store (list_to_map DefaultModelAliases).

Definition aliasTarget (aliases : gmap string string) (model : string) : option string :=
  match aliases !! model with
  | Some mapped => if IsSupportedDeepSeekModel mapped && negb (isBlockedModel mapped) then Some mapped else None
  | None => None
  end.

Definition resolveCanonicalModel (aliases : gmap string string) (model : string) : option string :=
  let model := lower (TrimSpace model) in
  if bool_decide (model = "") then None
  else if isRetiredHistoricalModel model then None
  else if IsSupportedDeepSeekModel model then Some model
  else aliasTarget aliases model.

Definition ResolveModel (store : list (string * string)) (requested : string) : option string :=
  let model := lower (TrimSpace requested) in
  if bool_decide (model = "") then None
  else if isBlockedModel model then None
  else
    let aliases := loadModelAliases store in
    if IsSupportedDeepSeekModel model then Some model
    else match aliasTarget aliases model with
    | Some mapped => Some mapped
    | None =>
        let '(baseModel, noThinking) := splitNoThinkingModel model in
        if isBlockedModel baseModel then None
        else match resolveCanonicalModel aliases baseModel with
        | Some resolved => Some (withNoThinkingVariant resolved noThinking)
        | None => None
        end
    end.

Definition OpenAIModelByID (store : list (string * string)) (id : string) : option ModelInfo :=
  match ResolveModel store id with
  | Some canonical => List.find (fun m => bool_decide (ID m = canonical)) DeepSeekModels
  | None => None
  end.

Record ClaudeList := { Data : list ModelInfo; FirstID : option string; LastID : option string; HasMore : bool }.

Definition ClaudeModelsResponse : ClaudeList :=
  {| Data := ClaudeModels; FirstID := ID <$> head ClaudeModels; LastID := ID <$> last ClaudeModels; HasMore := false |}.

(** ** Resolution *)

Definition modelIDs : list string := ID <$> DeepSeekModels.

Lemma split_eq (model : string) :
  lower (TrimSpace model) = (splitNoThinkingModel model).1 +:+ (if (splitNoThinkingModel model).2 then noThinkingModelSuffix else "").
Proof.
  unfold splitNoThinkingModel. destruct (HasSuffix _ _) eqn:E; simpl; [by apply HasSuffix_spec|by rewrite append_nil_r].
Qed.

Definition baseIDs : list string := ID <$> deepSeekBaseModels.

Lemma base_two (b : string) :
  b ∈ ["deepseek-v4-flash"; "deepseek-v4-pro"] \/ b ∈ ["deepseek-v4-flash-search"; "deepseek-v4-pro-search"] -> b ∈ baseIDs.
Proof.
  intros H. apply (bool_decide_eq_true_1 (b ∈ baseIDs)). rewrite !elem_of_cons in H. destruct H as [[->|[->|H]]|[->|[->|H]]];
    try (by apply elem_of_nil in H); vm_compute; reflexivity.
Qed.

Lemma config_base (model : string) (c : bool * bool) :
  GetModelConfig model = Some c -> (splitNoThinkingModel model).1 ∈ baseIDs /\ c.1 = negb (splitNoThinkingModel model).2.
Proof.
  unfold GetModelConfig. destruct (splitNoThinkingModel model) as [b n]. simpl. destruct (bool_decide (b = "")); [done|].
  destruct (blocked b); [done|].
  destruct (bool_decide (b ∈ ["deepseek-v4-flash"; "deepseek-v4-pro"])) eqn:E1.
  { apply bool_decide_eq_true_1 in E1. intros [= <-]. split; [|done]. apply base_two. by left. }
  destruct (bool_decide (b ∈ ["deepseek-v4-flash-search"; "deepseek-v4-pro-search"])) eqn:E2; [|done].
  apply bool_decide_eq_true_1 in E2. intros [= <-]. split; [|done]. apply base_two. by right.
Qed.

(** A supported name is, trimmed and in lower case, one of the published ones. *)
Lemma supported_published (model : string) : IsSupportedDeepSeekModel model = true -> lower (TrimSpace model) ∈ modelIDs.
Proof.
  unfold IsSupportedDeepSeekModel. destruct (GetModelConfig model) as [c|] eqn:E; [|done]. intros _. apply config_base in E as [E _].
  rewrite split_eq. destruct (splitNoThinkingModel model) as [b n]. simpl in *.
  change baseIDs with ["deepseek-v4-flash"; "deepseek-v4-pro"; "deepseek-v4-flash-search"; "deepseek-v4-pro-search"] in E.
  rewrite !elem_of_cons in E. destruct E as [->|[->|[->|[->|E]]]]; [..|by apply elem_of_nil in E]; destruct n; apply (bool_decide_eq_true_1 (_ ∈ modelIDs)); vm_compute; reflexivity.
Qed.

Lemma published_supported (model : string) : model ∈ modelIDs ->
  IsSupportedDeepSeekModel model = true /\ isBlockedModel model = false /\ lower (TrimSpace model) = model /\ model <> "" /\
  is_Some (GetModelType model) /\
  forall enabled, withNoThinkingVariant model enabled ∈ modelIDs /\ (IsNoThinkingModel (withNoThinkingVariant model enabled) = enabled).
Proof.
  intros H. change modelIDs with ["deepseek-v4-flash"; "deepseek-v4-flash-nothinking"; "deepseek-v4-pro"; "deepseek-v4-pro-nothinking";
    "deepseek-v4-flash-search"; "deepseek-v4-flash-search-nothinking"; "deepseek-v4-pro-search"; "deepseek-v4-pro-search-nothinking"] in H.
  rewrite !elem_of_cons in H.
  destruct H as [->|[->|[->|[->|[->|[->|[->|[->|H]]]]]]]]; [..|by apply elem_of_nil in H];
    (repeat split; [vm_compute; discriminate|eexists; vm_compute; reflexivity| |];
     destruct enabled; try (vm_compute; reflexivity); apply (bool_decide_eq_true_1 (_ ∈ modelIDs)); vm_compute; reflexivity).
Qed.

Definition normal (m : string) : Prop := lower (TrimSpace m) = m.

Lemma normal_lower_trim (s : string) : normal (lower (TrimSpace s)).
Proof. unfold normal. rewrite TrimSpace_lower, TrimSpace_idem. apply lower_idem. Qed.

(** Every target of an alias is trimmed and in lower case. *)
Lemma aliases_normal (store : list (string * string)) (k v : string) : loadModelAliases store !! k = Some v -> normal v.
Proof.
  unfold loadModelAliases.
  assert (H0 : forall k v, (list_to_map DefaultModelAliases : gmap string string) !! k = Some v -> normal v).
  { intros k' v' H. apply elem_of_list_to_map_2, list_elem_of_In in H.
    assert (HF : forallb (fun p => bool_decide (lower (TrimSpace p.2) = p.2)) DefaultModelAliases = true) by (vm_compute; reflexivity).
    exact (bool_decide_eq_true_1 _ (proj1 (List.forallb_forall _ _) HF _ H)). }
  revert H0. generalize (list_to_map DefaultModelAliases : gmap string string). induction store as [|[k' v'] store IH]; intros m H0; simpl; [by apply H0|].
  apply IH. intros k2 v2. destruct (decide (k2 = lower (TrimSpace k'))) as [->|Hne].
  - rewrite lookup_insert_eq. intros [= <-]. apply normal_lower_trim.
  - rewrite lookup_insert_ne by done. apply H0.
Qed.

Lemma aliasTarget_published (store : list (string * string)) (k v : string) : aliasTarget (loadModelAliases store) k = Some v -> v ∈ modelIDs.
Proof.
  unfold aliasTarget. destruct (_ !! k) as [t|] eqn:E; [|done]. destruct (IsSupportedDeepSeekModel t) eqn:Es; simpl; [|done].
  destruct (isBlockedModel t); simpl; [done|]. intros [= <-]. apply supported_published in Es. apply aliases_normal in E. by rewrite E in Es.
Qed.

Lemma resolveCanonical_published (store : list (string * string)) (b m : string) :
  resolveCanonicalModel (loadModelAliases store) b = Some m -> m ∈ modelIDs.
Proof.
  unfold resolveCanonicalModel. destruct (bool_decide _); [done|]. destruct (isRetiredHistoricalModel _); [done|].
  destruct (IsSupportedDeepSeekModel _) eqn:Es; [|apply aliasTarget_published]. intros [= <-].
  apply supported_published in Es. by rewrite normal_lower_trim in Es.
Qed.

Lemma resolve_published (store : list (string * string)) (r m : string) : ResolveModel store r = Some m -> m ∈ modelIDs.
Proof.
  unfold ResolveModel. destruct (bool_decide _); [done|]. destruct (isBlockedModel _); [done|].
  destruct (IsSupportedDeepSeekModel _) eqn:Es.
  { intros [= <-]. apply supported_published in Es. by rewrite normal_lower_trim in Es. }
  destruct (aliasTarget _ _) as [v|] eqn:Ea; [intros [= <-]; by apply aliasTarget_published in Ea|].
  destruct (splitNoThinkingModel _) as [b n]. destruct (isBlockedModel b); [done|].
  destruct (resolveCanonicalModel _ _) as [c|] eqn:Ec; [|done]. intros [= <-]. apply resolveCanonical_published in Ec.
  by apply published_supported.
Qed.

Lemma resolve_direct (store : list (string * string)) (m : string) : m ∈ modelIDs -> ResolveModel store m = Some m.
Proof.
  intros H. destruct (published_supported m H) as (Hs & Hb & Hn & Hne & _). unfold ResolveModel. rewrite Hn, Hb, Hs.
  by rewrite bool_decide_eq_false_2.
Qed.

(** C37. Whatever aliases the operator configured, a requested name resolves to one of the
    eight published models or to nothing: the disabled vision model is out of reach, the
    resolved name resolves to itself, has a tier, and is found in the list of models. *)
Theorem resolve_strict (store store' : list (string * string)) (r m : string) :
  ResolveModel store r = Some m ->
  m ∈ modelIDs /\ isBlockedModel m = false /\ ResolveModel store' m = Some m /\ is_Some (GetModelType m) /\
  exists info, OpenAIModelByID store r = Some info /\ ID info = m.
Proof.
  intros H. assert (Hm : m ∈ modelIDs) by by apply resolve_published in H.
  destruct (published_supported m Hm) as (Hs & Hb & Hn & Hne & Ht & _).
  split; [done|]. split; [done|]. split; [by apply resolve_direct|]. split; [done|]. unfold OpenAIModelByID. rewrite H.
  destruct (List.find _ DeepSeekModels) as [info|] eqn:E.
  - exists info. split; [done|]. apply List.find_some in E as [_ E]. by apply bool_decide_eq_true_1 in E.
  - exfalso. unfold modelIDs in Hm. apply list_elem_of_fmap in Hm as (info & -> & Hin). apply list_elem_of_In in Hin.
    pose proof (List.find_none _ _ E info Hin) as Hf. simpl in Hf. rewrite bool_decide_eq_true_2 in Hf by done. discriminate Hf.
Qed.

(** There are no guesses: a name that is not published, and that neither with its
    suffix nor without is in the table of aliases, is refused. *)
Theorem resolve_no_heuristics (store : list (string * string)) (r : string) :
  let n := lower (TrimSpace r) in
  let b := lower (TrimSpace (splitNoThinkingModel n).1) in
  n ∉ modelIDs -> b ∉ modelIDs -> loadModelAliases store !! n = None -> loadModelAliases store !! b = None ->
  ResolveModel store r = None.
Proof.
  intros n b Hn Hb Ln Lb. unfold ResolveModel. fold n. destruct (bool_decide (n = "")); [done|]. destruct (isBlockedModel n); [done|].
  assert (Hs : forall x, lower (TrimSpace x) ∉ modelIDs -> IsSupportedDeepSeekModel x = false).
  { intros x Hx. destruct (IsSupportedDeepSeekModel x) eqn:E; [|done]. by apply supported_published in E. }
  assert (Hnn : normal n) by apply normal_lower_trim. unfold normal in Hnn.
  rewrite Hs by (by rewrite Hnn). unfold aliasTarget at 1. rewrite Ln. subst b. destruct (splitNoThinkingModel n) as [b0 nt]. simpl in *.
  destruct (isBlockedModel b0); [done|]. unfold resolveCanonicalModel. destruct (bool_decide (lower _ = "")); [done|].
  destruct (isRetiredHistoricalModel _); [done|]. rewrite Hs by (by rewrite normal_lower_trim). unfold aliasTarget. by rewrite Lb.
Qed.

(** A suffix is carried over to the model, unless the name with it is an alias itself. *)
Lemma suffix_forwarded (store : list (string * string)) (r m : string) :
  IsNoThinkingModel r = true -> loadModelAliases store !! lower (TrimSpace r) = None -> ResolveModel store r = Some m -> IsNoThinkingModel m = true.
Proof.
  intros Hn Hl. unfold ResolveModel. destruct (bool_decide _); [done|]. destruct (isBlockedModel _); [done|].
  assert (Hsplit : splitNoThinkingModel (lower (TrimSpace r)) = splitNoThinkingModel r).
  { unfold splitNoThinkingModel. by rewrite normal_lower_trim. }
  destruct (IsSupportedDeepSeekModel _).
  { intros [= <-]. unfold IsNoThinkingModel in *. by rewrite Hsplit. }
  unfold aliasTarget. rewrite Hl. rewrite Hsplit. unfold IsNoThinkingModel in Hn. destruct (splitNoThinkingModel r) as [b n]. simpl in Hn. subst n.
  destruct (isBlockedModel b); [done|]. destruct (resolveCanonicalModel _ _) as [c|] eqn:Ec; [|done]. intros [= <-].
  apply resolveCanonical_published in Ec. destruct (published_supported c Ec) as (_ & _ & _ & _ & _ & H). by apply (H true).
Qed.

(** Thinking is off exactly for the suffixed models. *)
Lemma thinking_by_suffix (m : string) (c : bool * bool) : GetModelConfig m = Some c -> c.1 = negb (IsNoThinkingModel m).
Proof. intros H. by apply config_base in H as [_ ->]. Qed.

(** An operator's alias of a retired name is served, its suffixed form is not. *)
Example retired_alias :
  let store := [("gpt-3.5-turbo", "deepseek-v4-flash")] in
  (ResolveModel store "gpt-3.5-turbo", ResolveModel store "gpt-3.5-turbo-nothinking", ResolveModel store "gpt-4o-nothinking") =
  (Some "deepseek-v4-flash", None, Some "deepseek-v4-flash-nothinking").
Proof. vm_compute. reflexivity. Qed.

Lemma resolve_strict_witness : "deepseek-v4-pro-nothinking" ∈ modelIDs.
Proof. apply (resolve_strict [] [] " O3-nothinking " "deepseek-v4-pro-nothinking"). vm_compute. reflexivity. Defined.

Lemma resolve_no_heuristics_witness : ResolveModel [] "gpt-99-future" = None.
Proof.
  apply (resolve_no_heuristics [] "gpt-99-future");
    [apply (bool_decide_eq_true_1 (_ ∉ modelIDs)); vm_compute; reflexivity|apply (bool_decide_eq_true_1 (_ ∉ modelIDs)); vm_compute; reflexivity| |];
    vm_compute; reflexivity.
Defined.
