(* ===== verification/PromptLimit.v ===== *)
(** The size limits of prompts: the settings of [internal/config] (config.go and
    store_accessors.go), the provider's ceilings laid over them
    ([internal/httpapi/openai/shared/dynamic_prompt_limit.go], prompt_compress.go), and the
    trimming of histories in [internal/promptcompat/prompt_compress.go].

    A prompt is the list of its runes; its size is in UTF-16 code units.  A [float64] is a
    binary64 number of the Standard Library's specification of floating point. *)
From S2P Require Import Prelude GoString Json Models.
From Stdlib Require Import Floats.SpecFloat.
Local Open Scope Z_scope.

Definition rune := N.

(** [len(utf16.Encode([]rune{r}))] *)
Definition runeUnits (r : rune) : Z := if (0x10000 <=? r)%N && (r <=? 0x10FFFF)%N then 2 else 1.

Definition PromptUnits (text : list rune) : Z := fold_right (fun r n => runeUnits r + n) 0 text.


(** ** Floating point *)

Definition float64 := spec_float.

(** [float64(z)], [x * y], [x < y] *)
Definition ofInt (z : Z) : float64 := binary_normalize 53 1024 z 0 false.
Definition mul64 (x y : float64) : float64 := SFmul 53 1024 x y.
Definition lt64 (x y : float64) : bool := SFltb x y.

(** [int(x)] on the 64-bit targets: the part before the point, or the least integer. *)
Definition toInt (x : float64) : Z :=
  match x with
  | S754_finite s m e =>
      let q := if 0 <=? e then Zpos m * 2 ^ e else Zpos m / 2 ^ (- e) in
      let z := if s then - q else q in
      if (minInt <=? z) && (z <=? maxInt) then z else minInt
  | S754_zero _ => 0
  | _ => minInt
  end.

(** A decimal fraction [num / 10 ^ digits], read by the compiler or the decoder. *)
Definition decimal (num : positive) (den : positive) : float64 :=
  SFdiv 53 1024 (ofInt (Zpos num)) (ofInt (Zpos den)).

(** ** Settings *)

Record PromptLimitConfig := {
  cEnabled : option bool; cMaxCharsDefault : Z; cMaxCharsExpert : Z; cAutoCompressEnabled : option bool; cCompressKeepRecent : Z;
  cCompressKeepSystem : option bool; cProFlashCompressionEnabled : option bool; cProFlashCompressionTargetChars : Z;
  cSessionChunkingEnabled : option bool; cSessionChunkingTargetRatio : float64; cSessionChunkingMaxChunks : Z;
  cSessionChunkingCommitTimeoutSeconds : Z; cSummaryCompactionEnabled : option bool; cSummaryCompactionThreshold : float64;
  cIncrementalMaxTurns : option Z; cIncrementalRotationKeepRecent : Z }.

Record PromptLimitSettings := {
  Enabled : bool; MaxCharsDefault : Z; MaxCharsExpert : Z; MaxCharsDefaultConfigured : bool; MaxCharsExpertConfigured : bool;
  AutoCompressEnable : bool; KeepRecentTurns : Z; KeepSystemMessage : bool; ProFlashCompressionEnable : bool;
  ProFlashCompressionTarget : Z; SessionChunkingEnable : bool; SessionChunkingTargetRatio : float64; SessionChunkingMaxChunks : Z;
  SessionChunkingCommitTimeoutSeconds : Z; SummaryCompactionEnable : bool; SummaryCompactionThreshold : float64;
  IncrementalMaxTurns : Z; IncrementalRotationKeepRecent : Z }.

Definition defaultPromptMaxCharsDefault : Z := 380000.
Definition defaultPromptMaxCharsExpert : Z := 150000.
Definition defaultPromptKeepRecentTurns : Z := 6.

Definition DefaultPromptLimitSettings : PromptLimitSettings :=
  {| Enabled := true; MaxCharsDefault := defaultPromptMaxCharsDefault; MaxCharsExpert := defaultPromptMaxCharsExpert;
     MaxCharsDefaultConfigured := false; MaxCharsExpertConfigured := false; AutoCompressEnable := false;
     KeepRecentTurns := defaultPromptKeepRecentTurns; KeepSystemMessage := true; ProFlashCompressionEnable := false;
     ProFlashCompressionTarget := defaultPromptMaxCharsExpert; SessionChunkingEnable := false;
     SessionChunkingTargetRatio := decimal 85 100; SessionChunkingMaxChunks := 16; SessionChunkingCommitTimeoutSeconds := 30;
     SummaryCompactionEnable := false; SummaryCompactionThreshold := decimal 8 10; IncrementalMaxTurns := 0;
     IncrementalRotationKeepRecent := defaultPromptKeepRecentTurns |}.

Definition orPositive (configured fallback : Z) : Z := if 0 <? configured then configured else fallback.
Definition orFraction (configured fallback : float64) : float64 :=
  if lt64 (ofInt 0) configured && lt64 configured (ofInt 1) then configured else fallback.

(** [promptLimitLocked]; one snapshot of one configuration. *)
Definition PromptLimitSnapshot (pl : PromptLimitConfig) : PromptLimitSettings :=
  let d := DefaultPromptLimitSettings in
  {| Enabled := default (Enabled d) (cEnabled pl);
     MaxCharsDefault := orPositive (cMaxCharsDefault pl) (MaxCharsDefault d);
     MaxCharsExpert := orPositive (cMaxCharsExpert pl) (MaxCharsExpert d);
     MaxCharsDefaultConfigured := 0 <? cMaxCharsDefault pl;
     MaxCharsExpertConfigured := 0 <? cMaxCharsExpert pl;
     AutoCompressEnable := default (AutoCompressEnable d) (cAutoCompressEnabled pl);
     KeepRecentTurns := orPositive (cCompressKeepRecent pl) (KeepRecentTurns d);
     KeepSystemMessage := default (KeepSystemMessage d) (cCompressKeepSystem pl);
     ProFlashCompressionEnable := default (ProFlashCompressionEnable d) (cProFlashCompressionEnabled pl);
     ProFlashCompressionTarget := orPositive (cProFlashCompressionTargetChars pl) (ProFlashCompressionTarget d);
     SessionChunkingEnable := default (SessionChunkingEnable d) (cSessionChunkingEnabled pl);
     SessionChunkingTargetRatio := orFraction (cSessionChunkingTargetRatio pl) (SessionChunkingTargetRatio d);
     SessionChunkingMaxChunks := orPositive (cSessionChunkingMaxChunks pl) (SessionChunkingMaxChunks d);
     SessionChunkingCommitTimeoutSeconds := orPositive (cSessionChunkingCommitTimeoutSeconds pl) (SessionChunkingCommitTimeoutSeconds d);
     SummaryCompactionEnable := default (SummaryCompactionEnable d) (cSummaryCompactionEnabled pl);
     SummaryCompactionThreshold := orFraction (cSummaryCompactionThreshold pl) (SummaryCompactionThreshold d);
     IncrementalMaxTurns := match cIncrementalMaxTurns pl with Some n => if 0 <=? n then n else IncrementalMaxTurns d | None => IncrementalMaxTurns d end;
     IncrementalRotationKeepRecent := orPositive (cIncrementalRotationKeepRecent pl) (IncrementalRotationKeepRecent d) |}.

(** The provider's ceilings; 0 is none. *)
Record ModelInputLimits := { LDefault : Z; LExpert : Z }.

Definition overlay (configured : bool) (current advertised : Z) : Z :=
  if 0 <? advertised then if negb configured || (current <=? 0) || (advertised <? current) then advertised else current else current.

(** [limits] is the provider's answer, [None] when there is none to ask or it failed:
    the settings are then as before and not applied. *)
Definition ResolveDynamicPromptLimits (limits : option ModelInputLimits) (cfg : PromptLimitSettings) : PromptLimitSettings :=
  match limits with
  | Some l =>
      if negb (Enabled cfg) then cfg
      else
        let d := overlay (MaxCharsDefaultConfigured cfg) (MaxCharsDefault cfg) (LDefault l) in
        let e := overlay (MaxCharsExpertConfigured cfg) (MaxCharsExpert cfg) (LExpert l) in
        {| Enabled := Enabled cfg; MaxCharsDefault := d; MaxCharsExpert := e; MaxCharsDefaultConfigured := MaxCharsDefaultConfigured cfg;
           MaxCharsExpertConfigured := MaxCharsExpertConfigured cfg; AutoCompressEnable := AutoCompressEnable cfg;
           KeepRecentTurns := KeepRecentTurns cfg; KeepSystemMessage := KeepSystemMessage cfg;
           ProFlashCompressionEnable := ProFlashCompressionEnable cfg;
           ProFlashCompressionTarget := if e <? ProFlashCompressionTarget cfg then e else ProFlashCompressionTarget cfg;
           SessionChunkingEnable := SessionChunkingEnable cfg; SessionChunkingTargetRatio := SessionChunkingTargetRatio cfg;
           SessionChunkingMaxChunks := SessionChunkingMaxChunks cfg;
           SessionChunkingCommitTimeoutSeconds := SessionChunkingCommitTimeoutSeconds cfg;
           SummaryCompactionEnable := SummaryCompactionEnable cfg; SummaryCompactionThreshold := SummaryCompactionThreshold cfg;
           IncrementalMaxTurns := IncrementalMaxTurns cfg; IncrementalRotationKeepRecent := IncrementalRotationKeepRecent cfg |}
  | None => cfg
  end.

(** ** Limits *)

Definition IsExpertModel (model : string) : bool := bool_decide (GetModelType model = Some "expert"%string).

(** The parts of a [StandardRequest] the limits depend on. *)
Record StandardRequest := { RequestedModel : string; ResolvedModel : string; FinalPrompt : list rune; IncrementalFormatPrompt : list rune }.

Definition EffectiveModel (req : StandardRequest) : string :=
  let m := TrimSpace (ResolvedModel req) in if bool_decide (m = ""%string) then TrimSpace (RequestedModel req) else m.

Definition LimitForModel (cfg : PromptLimitSettings) (model : string) : Z :=
  if negb (Enabled cfg) then 0 else if IsExpertModel model then MaxCharsExpert cfg else MaxCharsDefault cfg.

Definition LimitExceededMessage (cfg : PromptLimitSettings) (prompt : list rune) (model : string) : string :=
  let limit := LimitForModel cfg model in
  let units := PromptUnits prompt in
  if (limit <=? 0) || (units <=? limit) then ""%string
  else
    let tier := if IsExpertModel model then "expert"%string else "default"%string in
    ("prompt size " +:+ pretty units +:+ " UTF-16 code units exceeds the " +:+ tier +:+ " model limit of " +:+ pretty limit +:+
     " by " +:+ pretty (units - limit) +:+ " units; shorten the conversation or raise prompt_limit.max_chars_" +:+ tier)%string.

Definition EnforcePromptLimit (cfg : PromptLimitSettings) (req : StandardRequest) : string :=
  if negb (Enabled cfg) then ""%string else LimitExceededMessage cfg (FinalPrompt req) (EffectiveModel req).

Definition EnforcePromptLimitBeforeCIF (cfg : PromptLimitSettings) (req : StandardRequest) (remoteFileUploadEnabled : bool) : string :=
  if remoteFileUploadEnabled || ProFlashCompressionEnable cfg || SessionChunkingEnable cfg then ""%string else EnforcePromptLimit cfg req.

(** ** Trimming a history *)

Definition isToolResultRole (role : string) : bool := bool_decide (ToLower (TrimSpace role) ∈ ["tool"; "function"]%string).

Definition messageRole (item : json) : string :=
  match isObject (Some item) with Some m => ToLower (TrimSpace (asString (member "role" m))) | None => ""%string end.

Fixpoint dropLeadingOrphanToolResults (messages : list json) : list json :=
  match messages with
  | m :: ms => if isToolResultRole (messageRole m) then dropLeadingOrphanToolResults ms else messages
  | [] => []
  end.

(** The leading system messages, if they are kept, and the rest. *)
Fixpoint splitSystem (keepSystem : bool) (messages : list json) : list json * list json :=
  match messages with
  | m :: ms =>
      if keepSystem && bool_decide (messageRole m = "system"%string)
      then let '(s, r) := splitSystem keepSystem ms in (m :: s, r)
      else ([], messages)
  | [] => ([], [])
  end.

Definition isUser (m : json) : bool := bool_decide (messageRole m = "user"%string).

(** The positions of the user messages. *)
Fixpoint turnStartsFrom (i : nat) (messages : list json) : list nat :=
  match messages with
  | m :: ms => (if isUser m then [i] else []) ++ turnStartsFrom (S i) ms
  | [] => []
  end.

Definition keptOr (kept nonSystem : list json) : list json :=
  match kept with [] => drop (length nonSystem - 1) nonSystem | _ => kept end.

Definition CompressMessages (messages : list json) (keepSystem : bool) (keepRecent : Z) : list json * bool :=
  match messages with
  | [] => (messages, false)
  | _ =>
      let '(systemMsgs, nonSystem) := splitSystem keepSystem messages in
      let keepRecent := if keepRecent <? 1 then 1 else keepRecent in
      let turnStarts := turnStartsFrom 0 nonSystem in
      if Z.of_nat (length turnStarts) <=? keepRecent then (messages, false)
      else
        let start := nth (length turnStarts - Z.to_nat keepRecent) turnStarts 0%nat in
        let kept := dropLeadingOrphanToolResults (drop start nonSystem) in
        (systemMsgs ++ keptOr kept nonSystem, true)
  end.

Definition userTurns (messages : list json) : Z := Z.of_nat (length (List.filter isUser messages)).

Definition CompactMessages (messages : list json) (keepSystem : bool) (keepRecent : Z) : list json * bool :=
  let turns := userTurns messages in
  if turns <=? 1 then (messages, false)
  else
    let keepRecent := if keepRecent <? 1 then 1 else keepRecent in
    let keepRecent := if turns <=? keepRecent then Z.max 1 (Z.quot turns 2) else keepRecent in
    CompressMessages messages keepSystem keepRecent.

Definition CompressMessagesForIncrementalRotation (messages : list json) (keepSystem : bool) (keepRecent : Z) : list json * bool :=
  match messages with
  | [] => (messages, false)
  | _ =>
      let '(systemMsgs, nonSystem) := splitSystem keepSystem messages in
      let window := Z.max 2 (i64 (keepRecent * 2)) in
      if Z.of_nat (length nonSystem) <=? window then (messages, false)
      else
        let kept := dropLeadingOrphanToolResults (drop (length nonSystem - Z.to_nat window) nonSystem) in
        (systemMsgs ++ keptOr kept nonSystem, true)
  end.

Section Fit.
(** [BuildOpenAIPrompt] of the messages, with the request's tools and choices. *)
Variable build : list json -> list rune.

(** The loop; [fuel] bounds the number of halvings. *)
Fixpoint compressFrom (fuel : nat) (cfg : PromptLimitSettings) (limit : Z) (original : list json) (keep : Z)
  (messages : list json) (prompt : list rune) (changed : bool) : list json * list rune * bool :=
  match fuel with
  | O => (messages, prompt, changed)
  | S fuel =>
      if keep <? 1 then (messages, prompt, changed)
      else
        let '(compressed, ok) := CompressMessages original (KeepSystemMessage cfg) keep in
        if negb ok then compressFrom fuel cfg limit original (keep / 2) messages prompt changed
        else if PromptUnits (build compressed) <=? limit then (compressed, build compressed, true)
        else compressFrom fuel cfg limit original (keep / 2) compressed (build compressed) true
  end.

(** The request's messages and prompt, and whether history was dropped. *)
Definition CompressToFit (cfg : PromptLimitSettings) (req : StandardRequest) (messages : list json) : list json * list rune * bool :=
  if negb (Enabled cfg) || negb (AutoCompressEnable cfg) then (messages, FinalPrompt req, false)
  else
    let limit := LimitForModel cfg (EffectiveModel req) in
    if (limit <=? 0) || (PromptUnits (FinalPrompt req) <=? limit) then (messages, FinalPrompt req, false)
    else compressFrom 64 cfg limit messages (KeepRecentTurns cfg) messages (FinalPrompt req) false.
End Fit.

(** ** Sizes *)

Lemma runeUnits_bounds (r : rune) : 1 <= runeUnits r <= 2.
Proof. unfold runeUnits. destruct (_ && _); lia. Qed.

Lemma PromptUnits_app (a b : list rune) : PromptUnits (a ++ b) = PromptUnits a + PromptUnits b.
Proof. unfold PromptUnits. induction a as [|r a IH]; simpl; lia. Qed.

Lemma PromptUnits_bounds (a : list rune) : Z.of_nat (length a) <= PromptUnits a <= 2 * Z.of_nat (length a).
Proof. unfold PromptUnits. induction a as [|r a IH]; simpl; [lia|]. pose proof (runeUnits_bounds r). lia. Qed.

Lemma units_take_mono (text : list rune) (i j : nat) : (i <= j)%nat -> PromptUnits (take i text) <= PromptUnits (take j text).
Proof.
  intros H. replace (take i text) with (take i (take j text)) by (rewrite take_take; f_equal; lia).
  rewrite <- (take_drop i (take j text)) at 2. rewrite PromptUnits_app. pose proof (PromptUnits_bounds (drop i (take j text))). lia.
Qed.

Lemma units_take_step (text : list rune) (i : nat) :
  (i < length text)%nat -> PromptUnits (take i text) < PromptUnits (take (S i) text) <= PromptUnits (take i text) + 2.
Proof.
  intros H. destruct (lookup_lt_is_Some_2 text i H) as [r Hr]. rewrite (take_S_r text i r Hr), PromptUnits_app.
  assert (PromptUnits [r] = runeUnits r) as -> by (unfold PromptUnits; simpl; lia). pose proof (runeUnits_bounds r). lia.
Qed.

(** ** Ceilings *)

(** A provider's ceiling replaces the built-in fallback, but never lifts a ceiling the
    operator set, and the limit in force is within what the provider advertised. *)
Theorem dynamic_limit_capped (l : ModelInputLimits) (cfg : PromptLimitSettings) (model : string) :
  Enabled cfg = true -> 0 < LDefault l -> 0 < LExpert l ->
  let advertised := if IsExpertModel model then LExpert l else LDefault l in
  let configured := if IsExpertModel model then MaxCharsExpertConfigured cfg else MaxCharsDefaultConfigured cfg in
  let before := LimitForModel cfg model in
  let after := LimitForModel (ResolveDynamicPromptLimits (Some l) cfg) model in
  0 < after <= advertised /\ (configured = true -> 0 < before -> after <= before) /\ (configured = false -> after = advertised) /\
  ResolveDynamicPromptLimits (Some l) (ResolveDynamicPromptLimits (Some l) cfg) = ResolveDynamicPromptLimits (Some l) cfg.
Proof.
  intros He Hd Hx. unfold LimitForModel, ResolveDynamicPromptLimits. rewrite He. cbn [negb Enabled MaxCharsDefault MaxCharsExpert].
  assert (G : forall c cur adv, 0 < adv -> 0 < overlay c cur adv <= adv /\ (c = true -> 0 < cur -> overlay c cur adv <= cur) /\
      (c = false -> overlay c cur adv = adv) /\ overlay c (overlay c cur adv) adv = overlay c cur adv).
  { intros c cur adv Ha. unfold overlay. destruct (Z.ltb_spec 0 adv); [|lia].
    destruct c; simpl; [|repeat split; try done; lia].
    destruct (Z.leb_spec cur 0), (Z.ltb_spec adv cur); simpl;
      repeat match goal with |- context [?a <=? ?b] => destruct (Z.leb_spec a b) | |- context [?a <? ?b] => destruct (Z.ltb_spec a b) end;
      simpl; repeat split; try done; lia. }
  destruct (G (MaxCharsDefaultConfigured cfg) (MaxCharsDefault cfg) (LDefault l) Hd) as (D1 & D2 & D3 & D4).
  destruct (G (MaxCharsExpertConfigured cfg) (MaxCharsExpert cfg) (LExpert l) Hx) as (X1 & X2 & X3 & X4).
  split; [destruct (IsExpertModel model); lia|]. split; [destruct (IsExpertModel model); [exact X2|exact D2]|].
  split; [destruct (IsExpertModel model); [exact X3|exact D3]|].
  cbn. rewrite D4, X4. f_equal. destruct (Z.ltb_spec (overlay (MaxCharsExpertConfigured cfg) (MaxCharsExpert cfg) (LExpert l)) (ProFlashCompressionTarget cfg)).
  - by rewrite Z.ltb_irrefl.
  - destruct (Z.ltb_spec (overlay (MaxCharsExpertConfigured cfg) (MaxCharsExpert cfg) (LExpert l)) (ProFlashCompressionTarget cfg)); [lia|done].
Qed.

(** The enforcement is silent exactly for a prompt within the limit, or without one. *)
Lemma enforce_exact (cfg : PromptLimitSettings) (req : StandardRequest) :
  EnforcePromptLimit cfg req = ""%string <->
  LimitForModel cfg (EffectiveModel req) <= 0 \/ PromptUnits (FinalPrompt req) <= LimitForModel cfg (EffectiveModel req).
Proof.
  unfold EnforcePromptLimit, LimitExceededMessage. destruct (Enabled cfg) eqn:E; simpl; [|unfold LimitForModel; rewrite E; simpl; tauto || (split; [left; lia|done])].
  destruct (Z.leb_spec (LimitForModel cfg (EffectiveModel req)) 0); simpl; [split; [by left|done]|].
  destruct (Z.leb_spec (PromptUnits (FinalPrompt req)) (LimitForModel cfg (EffectiveModel req))); [split; [by right|done]|].
  split; [done|]. lia.
Qed.

(** ** Windows *)

Lemma splitSystem_app (ks : bool) (ms s r : list json) : splitSystem ks ms = (s, r) -> ms = s ++ r /\ Forall (fun m => messageRole m = "system"%string) s.
Proof.
  revert s r. induction ms as [|m ms IH]; intros s r; simpl; [intros [= <- <-]; by split|].
  destruct ks; simpl; [|intros [= <- <-]; by split].
  destruct (bool_decide _) eqn:E; [|intros [= <- <-]; by split]. apply bool_decide_eq_true_1 in E.
  destruct (splitSystem true ms) as [s' r']. intros [= <- <-]. destruct (IH s' r' eq_refl) as [-> HF]. split; [done|by constructor].
Qed.

Lemma turnStarts_length (i : nat) (ms : list json) : length (turnStartsFrom i ms) = length (List.filter isUser ms).
Proof. revert i. induction ms as [|m ms IH]; intros i; simpl; [done|]. rewrite length_app, IH. by destruct (isUser m). Qed.

(** From the [k]-th turn on there are all but the first [k] user messages, and the first
    of them is a user's. *)
Lemma turnStarts_nth (ms : list json) (i k : nat) :
  (k < length (turnStartsFrom i ms))%nat ->
  let s := (nth k (turnStartsFrom i ms) 0 - i)%nat in
  (i <= nth k (turnStartsFrom i ms) 0)%nat /\ (s < length ms)%nat /\ (exists m rest, drop s ms = m :: rest /\ isUser m = true) /\
  length (List.filter isUser (drop s ms)) = (length (List.filter isUser ms) - k)%nat.
Proof.
  revert i k. induction ms as [|m ms IH]; intros i k; simpl; [lia|]. destruct (isUser m) eqn:E; simpl.
  - destruct k as [|k].
    + intros _. rewrite Nat.sub_diag. split; [lia|]. split; [lia|]. split; [by exists m, ms|]. simpl. rewrite E. simpl. lia.
    + intros Hk. destruct (IH (S i) k ltac:(lia)) as (I1 & I2 & I3 & I4). set (p := nth k (turnStartsFrom (S i) ms) 0%nat) in *.
      replace (p - i)%nat with (S (p - S i)) by lia. simpl. split; [lia|]. split; [lia|]. split; [exact I3|]. rewrite I4. lia.
  - intros Hk. destruct (IH (S i) k ltac:(lia)) as (I1 & I2 & I3 & I4). set (p := nth k (turnStartsFrom (S i) ms) 0%nat) in *.
    replace (p - i)%nat with (S (p - S i)) by lia. simpl. split; [lia|]. split; [lia|]. split; [exact I3|]. exact I4.
Qed.

Lemma user_not_tool (m : json) : isUser m = true -> isToolResultRole (messageRole m) = false.
Proof.
  unfold isUser. intros H%bool_decide_eq_true_1. rewrite H. vm_compute. reflexivity.
Qed.

Lemma compress_spec (ms : list json) (ks : bool) (k : Z) :
  let '(out, ok) := CompressMessages ms ks k in
  if ok then exists system dropped kept first rest,
    ms = system ++ dropped ++ kept /\ out = system ++ kept /\ Forall (fun m => messageRole m = "system"%string) system /\
    kept = first :: rest /\ isUser first = true /\ userTurns kept = Z.max 1 k /\ dropped <> []
  else out = ms.
Proof.
  destruct ms as [|m0 ms0]; [done|]. set (ms := m0 :: ms0). unfold CompressMessages. cbn [ms]. fold ms.
  destruct (splitSystem ks ms) as [s r] eqn:Es. apply splitSystem_app in Es as [Es Hs].
  set (k' := if k <? 1 then 1 else k). assert (Hk : k' = Z.max 1 k) by (unfold k'; destruct (Z.ltb_spec k 1); lia). clearbody k'.
  destruct (Z.leb_spec (Z.of_nat (length (turnStartsFrom 0 r))) k') as [|Hlt]; [done|].
  pose proof (turnStarts_nth r 0 (length (turnStartsFrom 0 r) - Z.to_nat k') ltac:(lia)) as (_ & H2 & (f & rest & H3 & H4) & H5).
  rewrite Nat.sub_0_r in *. set (st := nth _ _ 0%nat) in *.
  rewrite turnStarts_length in H5, Hlt.
  exists s, (take st r), (drop st r), f, rest. rewrite take_drop. split; [done|]. rewrite H3. cbn [dropLeadingOrphanToolResults].
  rewrite (user_not_tool f H4). split; [done|]. split; [done|]. split; [done|]. split; [done|].
  split; [unfold userTurns; rewrite <- H3, H5; lia|].
  intros E. assert (E0 : st = 0%nat). { apply (f_equal length) in E. rewrite length_take in E. simpl in E. lia. }
  rewrite E0, drop_0 in H5. lia.
Qed.

(** Trimming drops whole turns only: what is left is the leading system messages and
    the most recent turns, as many as asked for, verbatim and in order, beginning with a
    user's message; and when there is nothing to drop the history is untouched. *)
Theorem compress_keeps_turns (ms : list json) (ks : bool) (k : Z) :
  let '(out, ok) := CompressMessages ms ks k in
  if ok then exists system dropped kept first rest,
    ms = system ++ dropped ++ kept /\ out = system ++ kept /\ Forall (fun m => messageRole m = "system"%string) system /\
    kept = first :: rest /\ isUser first = true /\ userTurns kept = Z.max 1 k /\ dropped <> []
  else out = ms.
Proof. apply compress_spec. Qed.

(** ** Fitting *)

Section FitProofs.
Variable build : list json -> list rune.

Lemma compress_ok_mono (ms : list json) (ks : bool) (k k' : Z) :
  k' <= k -> (CompressMessages ms ks k).2 = true -> (CompressMessages ms ks k').2 = true.
Proof.
  intros Hk. destruct ms as [|m0 ms0]; [done|]. unfold CompressMessages. destruct (splitSystem ks _) as [s r].
  destruct (Z.ltb_spec k 1), (Z.ltb_spec k' 1); try lia;
    repeat match goal with |- context [?a <=? ?b] => destruct (Z.leb_spec a b) end; simpl; try done; lia.
Qed.

Lemma compress_small (ms : list json) (ks : bool) (k : Z) : k <= 1 -> CompressMessages ms ks k = CompressMessages ms ks 1.
Proof.
  intros Hk. destruct ms as [|m ms]; [done|]. unfold CompressMessages. destruct (splitSystem ks _).
  destruct (Z.ltb_spec k 1); [done|]. by replace k with 1 by lia.
Qed.

Lemma compressFrom_spec (fuel : nat) (cfg : PromptLimitSettings) (limit : Z) (original : list json) (keep : Z)
  (messages : list json) (prompt : list rune) (changed : bool) :
  keep < 2 ^ Z.of_nat fuel ->
  (changed = true -> prompt = build messages /\ exists k, k <= KeepRecentTurns cfg /\ messages = (CompressMessages original (KeepSystemMessage cfg) k).1) ->
  (1 <= keep <= KeepRecentTurns cfg \/ keep < 1 /\
    (changed = true -> messages = (CompressMessages original (KeepSystemMessage cfg) 1).1)) ->
  let '(messages', prompt', changed') := compressFrom build fuel cfg limit original keep messages prompt changed in
  (changed' = false -> changed = false /\ messages' = messages /\ prompt' = prompt) /\
  (changed' = true -> prompt' = build messages' /\
     (exists k, k <= KeepRecentTurns cfg /\ messages' = (CompressMessages original (KeepSystemMessage cfg) k).1) /\
     (PromptUnits prompt' <= limit \/ messages' = (CompressMessages original (KeepSystemMessage cfg) 1).1)).
Proof.
  revert keep messages prompt changed. induction fuel as [|fuel IH]; intros keep messages prompt changed Hf Hp Hk; cbn [compressFrom].
  - assert (keep < 1) by (change (2 ^ Z.of_nat 0) with 1 in Hf; lia). split; [done|]. intros E. destruct (Hp E) as [-> Hex]. split; [done|]. split; [done|].
    right. destruct Hk as [|[_ Hk]]; [lia|by apply Hk].
  - rewrite Nat2Z.inj_succ, Z.pow_succ_r in Hf by lia. destruct (Z.ltb_spec keep 1) as [Hlt|Hge].
    { split; [done|]. intros E. destruct (Hp E) as [-> Hex]. split; [done|]. split; [done|]. right. destruct Hk as [|[_ Hk]]; [lia|by apply Hk]. }
    assert (Hhalf : keep / 2 < 2 ^ Z.of_nat fuel) by (apply Z.div_lt_upper_bound; lia).
    assert (Hle : keep / 2 <= keep) by (apply Z.div_le_upper_bound; lia). destruct Hk as [Hk|]; [|lia].
    destruct (CompressMessages original (KeepSystemMessage cfg) keep) as [c ok] eqn:Ec. destruct ok; cbn [negb].
    + destruct (Z.leb_spec (PromptUnits (build c)) limit) as [Hfit|Hbig].
      { split; [done|]. intros _. split; [done|]. split; [exists keep; rewrite Ec; split; [lia|done]|by left]. }
      specialize (IH (keep / 2) c (build c) true Hhalf). destruct (compressFrom _ _ _ _ _ _ _ _ _) as [[m' p'] c'].
      destruct IH as [IH1 IH2].
      * intros _. split; [done|]. exists keep. rewrite Ec. split; [lia|done].
      * destruct (decide (keep = 1)) as [->|]; [right; split; [done|by rewrite Ec]|]. left. split; [apply Z.div_le_lower_bound; lia|lia].
      * split; [intros E; by destruct (IH1 E)|exact IH2].
    + specialize (IH (keep / 2) messages prompt changed Hhalf Hp). apply IH. destruct (decide (keep = 1)) as [->|].
      * right. split; [done|]. intros E. destruct (Hp E) as [_ (k & Hk1 & ->)].
        destruct (CompressMessages original (KeepSystemMessage cfg) k) as [o ok] eqn:Eo. destruct ok.
        { pose proof (compress_ok_mono original (KeepSystemMessage cfg) k 1) as Hm. rewrite Eo, Ec in Hm.
          destruct (Z.le_gt_cases 1 k) as [H1|H1]; [by specialize (Hm H1 eq_refl)|].
          rewrite (compress_small original _ k) in Eo by lia. congruence. }
        simpl. rewrite Ec. simpl. pose proof (compress_spec original (KeepSystemMessage cfg) k) as G1.
        pose proof (compress_spec original (KeepSystemMessage cfg) 1) as G2. rewrite Eo in G1. rewrite Ec in G2. congruence.
      * left. split; [apply Z.div_le_lower_bound; lia|lia].
Qed.

(** Fitting a prompt is honest and thorough: if it reports no change the request is
    untouched, and otherwise the prompt is the one built from a trimmed history, which fits
    the model's limit or consists of the most recent turn alone. *)
Theorem compress_to_fit_sound (cfg : PromptLimitSettings) (req : StandardRequest) (messages : list json) :
  KeepRecentTurns cfg <= maxInt ->
  let '(messages', prompt', changed) := CompressToFit build cfg req messages in
  if changed then prompt' = build messages' /\
     (exists k, k <= KeepRecentTurns cfg /\ messages' = (CompressMessages messages (KeepSystemMessage cfg) k).1) /\
     (PromptUnits prompt' <= LimitForModel cfg (EffectiveModel req) \/ messages' = (CompressMessages messages (KeepSystemMessage cfg) 1).1)
  else messages' = messages /\ prompt' = FinalPrompt req.
Proof.
  intros Hk. unfold CompressToFit. destruct (_ || _); [done|]. destruct (_ || _); [done|].
  pose proof (compressFrom_spec 64 cfg (LimitForModel cfg (EffectiveModel req)) messages (KeepRecentTurns cfg) messages (FinalPrompt req) false) as H.
  destruct (compressFrom _ _ _ _ _ _ _ _ _) as [[m' p'] c']. destruct H as [H1 H2].
  - unfold maxInt in Hk. change (2 ^ Z.of_nat 64) with (2 ^ 64). lia.
  - done.
  - destruct (Z.le_gt_cases 1 (KeepRecentTurns cfg)); [left; lia|right; done].
  - destruct c'; [by apply H2|by destruct (H1 eq_refl) as (_ & -> & ->)].
Qed.
End FitProofs.

Definition msg (role : string) : json := JObj [("role", JStr role)]%string.

Lemma dynamic_limit_capped_witness :
  0 < LimitForModel (ResolveDynamicPromptLimits (Some {| LDefault := 1000000; LExpert := 200000 |}) DefaultPromptLimitSettings) "deepseek-v4-pro" <= 200000.
Proof.
  destruct (dynamic_limit_capped {| LDefault := 1000000; LExpert := 200000 |} DefaultPromptLimitSettings "deepseek-v4-pro" eq_refl ltac:(simpl; lia) ltac:(simpl; lia)) as [H _].
  replace (if IsExpertModel "deepseek-v4-pro" then _ else _) with 200000 in H by (vm_compute; reflexivity). exact H.
Defined.

Example compress_ex :
  CompressMessages (msg <$> ["system"; "user"; "assistant"; "user"; "tool"]%string) true 1 = (msg <$> ["system"; "user"; "tool"]%string, true).
Proof. vm_compute. reflexivity. Qed.

Definition fitCfg : PromptLimitSettings :=
  PromptLimitSnapshot {| cEnabled := Some true; cMaxCharsDefault := 3; cMaxCharsExpert := 0; cAutoCompressEnabled := Some true; cCompressKeepRecent := 4;
    cCompressKeepSystem := None; cProFlashCompressionEnabled := None; cProFlashCompressionTargetChars := 0; cSessionChunkingEnabled := None;
    cSessionChunkingTargetRatio := ofInt 0; cSessionChunkingMaxChunks := 0; cSessionChunkingCommitTimeoutSeconds := 0;
    cSummaryCompactionEnabled := None; cSummaryCompactionThreshold := ofInt 0; cIncrementalMaxTurns := None; cIncrementalRotationKeepRecent := 0 |}.

Definition fitReq : StandardRequest :=
  {| RequestedModel := "m"; ResolvedModel := ""; FinalPrompt := repeat 97%N 9; IncrementalFormatPrompt := [] |}.

(** One rune for each message. *)
Lemma compress_to_fit_sound_witness :
  CompressToFit (fun ms => repeat 97%N (length ms)) fitCfg fitReq (msg <$> ["user"; "assistant"; "user"; "assistant"; "user"]%string) =
    (msg <$> ["user"; "assistant"; "user"]%string, repeat 97%N 3, true) /\ PromptUnits (repeat 97%N 3) <= 3.
Proof.
  pose proof (compress_to_fit_sound (fun ms => repeat 97%N (length ms)) fitCfg fitReq (msg <$> ["user"; "assistant"; "user"; "assistant"; "user"]%string)
    ltac:(unfold maxInt; vm_compute; discriminate)) as H.
  assert (E : CompressToFit (fun ms => repeat 97%N (length ms)) fitCfg fitReq (msg <$> ["user"; "assistant"; "user"; "assistant"; "user"]%string)
    = (msg <$> ["user"; "assistant"; "user"]%string, repeat 97%N 3, true)) by (vm_compute; reflexivity).
  rewrite E in H. split; [exact E|]. destruct H as (_ & _ & [H|H]); [exact H|vm_compute in H; discriminate H].
Defined.
