(* ===== verification/SessionChunk.v ===== *)
(** Oversized prompts in one upstream conversation: the boundaries of
    [internal/httpapi/openai/shared/session_chunking.go].

    A prompt is the list of its runes, as [[]rune(prompt)] of valid UTF-8; its size is
    counted in UTF-16 code units.  The boundary planner asks the upstream model for an
    offset; [ask] is what the model replies in the given round, [None] for every failure
    up to and including the decoding of the reply. *)
From S2P Require Import Prelude GoString GoText PromptLimit.
From Stdlib Require Import Ascii Floats.SpecFloat.
Local Open Scope Z_scope.

Definition sessionChunkPlannerLookbehindUnits : Z := 12000.
Definition sessionChunkPlannerLookaheadUnits : Z := 4000.
Definition sessionChunkEnvelopeReserveUnits : Z := 4096.
Definition sessionChunkControlMaxAttempts : nat := 4.
Definition sessionChunkFragmentMaxAttempts : nat := 2.

(** The units before each rune, and at the end. *)
Fixpoint prefixFrom (acc : Z) (text : list rune) : list Z :=
  acc :: match text with [] => [] | r :: text => prefixFrom (acc + runeUnits r) text end.

Definition sessionChunkUTF16Prefix (text : list rune) : list Z := prefixFrom 0 text.

Definition at_ (prefix : list Z) (i : Z) : Z := nth (Z.to_nat i) prefix 0.

(** Binary search; [fuel] is the length of the list. *)
Fixpoint searchAbove (fuel : nat) (prefix : list Z) (units low high : Z) : Z :=
  match fuel with
  | O => low
  | S fuel =>
      if low <? high then
        let mid := low + (high - low) / 2 in
        if at_ prefix mid <=? units then searchAbove fuel prefix units (mid + 1) high else searchAbove fuel prefix units low mid
      else low
  end.

Definition runeIndexAtOrBelow (prefix : list Z) (units : Z) : Z :=
  searchAbove (length prefix) prefix units 0 (Z.of_nat (length prefix)) - 1.

Definition sessionChunkHasSuffix (text : list rune) (end_ : Z) (suffix : list rune) : bool :=
  if bool_decide (suffix = []) || (end_ <? Z.of_nat (length suffix)) || (Z.of_nat (length text) <? end_) then false
  else bool_decide (take (length suffix) (drop (Z.to_nat end_ - length suffix) text) = suffix).

Definition boundaries : list (list rune) :=
  [[10; 10]; [10]; [46; 32]; [33; 32]; [63; 32]; [0x3002]; [0xFF01]; [0xFF1F]; [59; 32]; [0xFF1B]]%N.

(** From [i] downwards while at least [minUnits] are before it. *)
Fixpoint lastWhere (good : Z -> bool) (prefix : list Z) (minUnits : Z) (i : nat) : option Z :=
  match i with
  | O => None
  | S j => if at_ prefix (Z.of_nat i) <? minUnits then None
           else if good (Z.of_nat i) then Some (Z.of_nat i) else lastWhere good prefix minUnits j
  end.

Fixpoint firstBoundary (text : list rune) (prefix : list Z) (hardEnd minUnits : Z) (bs : list (list rune)) : option Z :=
  match bs with
  | [] => None
  | b :: bs => match lastWhere (fun i => sessionChunkHasSuffix text i b) prefix minUnits (Z.to_nat hardEnd) with
               | Some i => Some i
               | None => firstBoundary text prefix hardEnd minUnits bs
               end
  end.

Definition isSpaceBefore (text : list rune) (i : Z) : bool := bool_decide (nth (Z.to_nat (i - 1)) text 0%N ∈ [32%N; 9%N]).

Definition deterministicSessionChunkCut (text : list rune) (prefix : list Z) (hardEnd minUnits : Z) : Z :=
  match firstBoundary text prefix hardEnd minUnits boundaries with
  | Some i => i
  | None => default hardEnd (lastWhere (isSpaceBefore text) prefix minUnits (Z.to_nat hardEnd))
  end.

(** [choose] after the reply was decoded. *)
Definition plannerOffset (reply : option Z) (minOffset maxOffset : Z) : option Z :=
  match reply with
  | Some o => if (o <? minOffset) || (maxOffset <? o) then None else Some o
  | None => None
  end.

Section Split.
(** The reply to the window, with the allowed range. *)
Variable ask : nat -> list rune -> Z -> Z -> option Z.

Definition chooseSessionChunkCut (round : nat) (text : list rune) (budget : Z) : Z :=
  let prefix := sessionChunkUTF16Prefix text in
  let hardEnd := runeIndexAtOrBelow prefix budget in
  if hardEnd <=? 0 then 0
  else
    let startUnits := Z.max 0 (at_ prefix hardEnd - sessionChunkPlannerLookbehindUnits) in
    let windowStart := runeIndexAtOrBelow prefix startUnits in
    let previewUnits := at_ prefix hardEnd + sessionChunkPlannerLookaheadUnits in
    let windowEnd := Z.max hardEnd (runeIndexAtOrBelow prefix previewUnits) in
    let minAbsoluteUnits := Z.max (Z.quot (i64 (budget * 60)) 100) (at_ prefix windowStart + 1) in
    let minOffset := minAbsoluteUnits - at_ prefix windowStart in
    let maxOffset := at_ prefix hardEnd - at_ prefix windowStart in
    let window := take (Z.to_nat (windowEnd - windowStart)) (drop (Z.to_nat windowStart) text) in
    let fallback := deterministicSessionChunkCut text prefix hardEnd minAbsoluteUnits in
    match plannerOffset (ask round window minOffset maxOffset) minOffset maxOffset with
    | Some offset =>
        let chosen := runeIndexAtOrBelow prefix (at_ prefix windowStart + offset) in
        if (0 <? chosen) && (chosen <=? hardEnd) then chosen else fallback
    | None => fallback
    end.

Inductive splitError := TooManyChunks (maxChunks : Z) | NoBoundary.

(** Every round takes at least one rune off. *)
Fixpoint splitFrom (fuel : nat) (remaining : list rune) (contentBudget maxChunks : Z) (chunks : list (list rune))
  : result splitError (list (list rune)) :=
  match fuel with
  | O => Err NoBoundary
  | S fuel =>
      if PromptUnits remaining <=? contentBudget then Ok (chunks ++ [remaining])
      else if maxChunks <=? Z.of_nat (length chunks) + 1 then Err (TooManyChunks maxChunks)
      else
        let cutRune := chooseSessionChunkCut (length chunks) remaining contentBudget in
        if (cutRune <=? 0) || (Z.of_nat (length remaining) <=? cutRune) then Err NoBoundary
        else splitFrom fuel (drop (Z.to_nat cutRune) remaining) contentBudget maxChunks (chunks ++ [take (Z.to_nat cutRune) remaining])
  end.

Definition splitSessionChunks (prompt : list rune) (contentBudget maxChunks : Z) : result splitError (list (list rune)) :=
  splitFrom (S (length prompt)) prompt contentBudget (if maxChunks <=? 0 then 16 else maxChunks) [].
End Split.

(** ** Sizes *)

Lemma prefixFrom_length (acc : Z) (text : list rune) : length (prefixFrom acc text) = S (length text).
Proof. revert acc. induction text as [|r text IH]; intros acc; simpl; [done|]. by rewrite IH. Qed.

Lemma prefixFrom_nth (acc : Z) (text : list rune) (i : nat) :
  (i <= length text)%nat -> nth i (prefixFrom acc text) 0 = acc + PromptUnits (take i text).
Proof.
  revert acc i. induction text as [|r text IH]; intros acc [|i] Hi; simpl in *; try lia. rewrite IH by lia. unfold PromptUnits. simpl. lia.
Qed.

Lemma prefix_at (text : list rune) (i : Z) :
  0 <= i <= Z.of_nat (length text) -> at_ (sessionChunkUTF16Prefix text) i = PromptUnits (take (Z.to_nat i) text).
Proof. intros Hi. unfold at_, sessionChunkUTF16Prefix. rewrite prefixFrom_nth by lia. lia. Qed.

(** ** The search *)

Lemma searchAbove_spec (text : list rune) (units : Z) (fuel : nat) (low high : Z) :
  let n := Z.of_nat (length text) in
  0 <= low <= high -> high <= n + 1 -> high - low <= Z.of_nat fuel -> 0 <= units ->
  (0 < low -> PromptUnits (take (Z.to_nat (low - 1)) text) <= units) ->
  (high <= n -> units < PromptUnits (take (Z.to_nat high) text)) ->
  let r := searchAbove fuel (sessionChunkUTF16Prefix text) units low high in
  low <= r <= high /\ (0 < r -> PromptUnits (take (Z.to_nat (r - 1)) text) <= units) /\
  (r <= n -> units < PromptUnits (take (Z.to_nat r) text)).
Proof.
  intros n. revert low high. induction fuel as [|fuel IH]; intros low high H1 H2 H3 Hu Hlo Hhi; cbn [searchAbove].
  - assert (low = high) as -> by lia. split; [lia|done].
  - destruct (Z.ltb_spec low high) as [Hlt|Hge]; [|assert (low = high) as -> by lia; split; [lia|done]]. cbv zeta.
    set (mid := low + (high - low) / 2). assert (Hm : low <= mid < high).
    { unfold mid. pose proof (Z.div_pos (high - low) 2). pose proof (Z.div_lt (high - low) 2). lia. }
    rewrite prefix_at by lia. destruct (Z.leb_spec (PromptUnits (take (Z.to_nat mid) text)) units) as [Hle|Hgt].
    + pose proof (IH (mid + 1) high) as G. cbv zeta in G. destruct G as (G1 & G2 & G3); [lia|lia|lia|lia| |exact Hhi|].
      * intros _. by replace (mid + 1 - 1) with mid by lia.
      * split; [lia|]. split; assumption.
    + pose proof (IH low mid) as G. cbv zeta in G. destruct G as (G1 & G2 & G3); [lia|lia|lia|lia|exact Hlo|intros _; exact Hgt|].
      split; [lia|]. split; assumption.
Qed.

(** The greatest index with at most [units] before it. *)
Lemma runeIndex_spec (text : list rune) (units : Z) :
  0 <= units ->
  let i := runeIndexAtOrBelow (sessionChunkUTF16Prefix text) units in
  0 <= i <= Z.of_nat (length text) /\ PromptUnits (take (Z.to_nat i) text) <= units /\
  (i < Z.of_nat (length text) -> units < PromptUnits (take (Z.to_nat (i + 1)) text)).
Proof.
  intros Hu. unfold runeIndexAtOrBelow. assert (Hl : length (sessionChunkUTF16Prefix text) = S (length text)) by apply prefixFrom_length.
  rewrite Hl. pose proof (searchAbove_spec text units (S (length text)) 0 (Z.of_nat (S (length text)))) as G. cbv zeta in G.
  destruct G as (G1 & G2 & G3); try lia. set (r := searchAbove _ _ _ _ _) in *. cbv zeta.
  assert (0 < r).
  { destruct (decide (r = 0)) as [E|]; [|lia]. rewrite E in G3. specialize (G3 ltac:(lia)). change (PromptUnits (take (Z.to_nat 0) text)) with 0 in G3. lia. }
  split; [lia|]. split; [apply G2; lia|]. intros Hi. replace (r - 1 + 1) with r by lia. apply G3. lia.
Qed.

Lemma lastWhere_spec (good : Z -> bool) (prefix : list Z) (minUnits : Z) (i : nat) (j : Z) :
  lastWhere good prefix minUnits i = Some j -> 0 < j <= Z.of_nat i /\ minUnits <= at_ prefix j /\ good j = true.
Proof.
  induction i as [|i IH]; cbn [lastWhere]; [done|]. destruct (Z.ltb_spec (at_ prefix (Z.of_nat (S i))) minUnits); [done|].
  destruct (good (Z.of_nat (S i))) eqn:E; [intros [= <-]; split; [lia|]; by split|]. intros H'%IH. split; [lia|]. tauto.
Qed.

Lemma firstBoundary_spec (text : list rune) (prefix : list Z) (hardEnd minUnits : Z) bs (j : Z) :
  firstBoundary text prefix hardEnd minUnits bs = Some j -> 0 < j <= Z.of_nat (Z.to_nat hardEnd) /\ minUnits <= at_ prefix j.
Proof.
  induction bs as [|b bs IH]; cbn [firstBoundary]; [done|]. destruct (lastWhere _ _ _ _) as [i|] eqn:E; [|exact IH].
  intros [= <-]. apply lastWhere_spec in E. tauto.
Qed.

(** The fallback stays within the hard end and does not go below the minimum without need. *)
Lemma deterministic_spec (text : list rune) (prefix : list Z) (hardEnd minUnits : Z) :
  0 < hardEnd ->
  let i := deterministicSessionChunkCut text prefix hardEnd minUnits in
  0 < i <= hardEnd /\ (minUnits <= at_ prefix i \/ i = hardEnd).
Proof.
  intros Hh. unfold deterministicSessionChunkCut. destruct (firstBoundary _ _ _ _ _) as [j|] eqn:E.
  - apply firstBoundary_spec in E. split; [lia|]. left. tauto.
  - destruct (lastWhere _ _ _ _) as [j|] eqn:E2; simpl; [apply lastWhere_spec in E2; split; [lia|left; tauto]|]. split; [lia|by right].
Qed.

(** ** The cut *)

(** The least part of the budget a cut aims at: [budget * 60 / 100]. *)
Definition share (budget : Z) : Z := budget * 60 / 100.

Lemma share_eq (budget : Z) : 0 <= budget <= 2 ^ 56 -> Z.quot (i64 (budget * 60)) 100 = share budget.
Proof. intros H. rewrite i64_small by (unfold minInt, maxInt; lia). unfold share. apply Z.quot_div_nonneg; lia. Qed.

Lemma share_le (budget : Z) : 2 <= budget -> 1 <= share budget <= budget - 1.
Proof.
  intros H. unfold share. split; [apply Z.div_le_lower_bound; lia|]. apply Z.lt_le_pred. apply Z.div_lt_upper_bound; lia.
Qed.

Section Choose.
Variable ask : nat -> list rune -> Z -> Z -> option Z.

(** Whatever the planner replies, the cut is a proper one, fits the budget, and uses at
    least three fifths of it up to half a surrogate pair. *)
Lemma choose_spec (round : nat) (text : list rune) (budget : Z) :
  2 <= budget <= 2 ^ 56 -> budget < PromptUnits text ->
  let i := chooseSessionChunkCut ask round text budget in
  0 < i < Z.of_nat (length text) /\ share budget - 1 <= PromptUnits (take (Z.to_nat i) text) <= budget.
Proof.
  intros Hb Hbig. unfold chooseSessionChunkCut. cbv zeta. pose proof (runeIndex_spec text budget ltac:(lia)) as (H1 & H2 & H3).
  set (hardEnd := runeIndexAtOrBelow _ budget) in *. pose proof (share_le budget ltac:(lia)) as Hs.
  assert (Hlt : hardEnd < Z.of_nat (length text)).
  { destruct (decide (hardEnd = Z.of_nat (length text))) as [E|]; [|lia]. rewrite E, Nat2Z.id, firstn_all in H2. lia. }
  specialize (H3 Hlt). pose proof (units_take_step text (Z.to_nat hardEnd) ltac:(lia)) as Hst.
  replace (S (Z.to_nat hardEnd)) with (Z.to_nat (hardEnd + 1)) in Hst by lia.
  assert (Hpos : 0 < hardEnd).
  { destruct (decide (hardEnd = 0)) as [E|]; [|lia]. rewrite E in Hst, H3. change (PromptUnits (take (Z.to_nat 0) text)) with 0 in Hst. lia. }
  destruct (Z.leb_spec hardEnd 0); [lia|]. rewrite share_eq by lia.
  set (w := runeIndexAtOrBelow _ (Z.max 0 _)). set (minAbs := Z.max (share budget) _).
  assert (Hfit : forall i, 0 < i <= hardEnd -> 0 < i < Z.of_nat (length text) /\ PromptUnits (take (Z.to_nat i) text) <= budget).
  { intros i Hi. split; [lia|]. pose proof (units_take_mono text (Z.to_nat i) (Z.to_nat hardEnd) ltac:(lia)). lia. }
  assert (Hdet : forall i, i = deterministicSessionChunkCut text (sessionChunkUTF16Prefix text) hardEnd minAbs ->
    0 < i < Z.of_nat (length text) /\ share budget - 1 <= PromptUnits (take (Z.to_nat i) text) <= budget).
  { intros i ->. pose proof (deterministic_spec text (sessionChunkUTF16Prefix text) hardEnd minAbs Hpos) as (D1 & D2).
    set (i := deterministicSessionChunkCut _ _ _ _) in *. pose proof (Hfit i D1). rewrite prefix_at in D2 by lia. destruct D2 as [D2|D2]; [lia|].
    rewrite D2 in *. lia. }
  destruct (plannerOffset _ _ _) as [offset|] eqn:E; [|by apply Hdet]. unfold plannerOffset in E. destruct (ask _ _ _ _) as [o|]; [|done].
  destruct (Z.ltb_spec o (minAbs - at_ (sessionChunkUTF16Prefix text) w)) as [|Ho1]; [done|].
  destruct (Z.ltb_spec (at_ (sessionChunkUTF16Prefix text) hardEnd - at_ (sessionChunkUTF16Prefix text) w) o) as [|Ho2]; [done|].
  simpl in E. injection E as <-. set (a := at_ _ w + o).
  destruct (Z.ltb_spec 0 (runeIndexAtOrBelow (sessionChunkUTF16Prefix text) a)); simpl; [|by apply Hdet].
  destruct (Z.leb_spec (runeIndexAtOrBelow (sessionChunkUTF16Prefix text) a) hardEnd); [|by apply Hdet].
  pose proof (runeIndex_spec text a ltac:(lia)) as (A1 & A2 & A3). set (i := runeIndexAtOrBelow _ a) in *.
  destruct (Hfit i ltac:(lia)) as [F1 F2]. split; [lia|]. split; [|lia].
  pose proof (units_take_step text (Z.to_nat i) ltac:(lia)) as Hst'. replace (S (Z.to_nat i)) with (Z.to_nat (i + 1)) in Hst' by lia. lia.
Qed.
End Choose.

(** ** The split *)

Section Splitting.
Variable ask : nat -> list rune -> Z -> Z -> option Z.

Lemma splitFrom_spec (budget maxChunks : Z) (fuel : nat) (remaining : list rune) (chunks : list (list rune)) :
  2 <= budget <= 2 ^ 56 -> (length remaining < fuel)%nat -> Z.of_nat (length chunks) < maxChunks ->
  match splitFrom ask fuel remaining budget maxChunks chunks with
  | Ok cs => exists init last, cs = chunks ++ init ++ [last] /\ concat (init ++ [last]) = remaining /\
      Forall (fun c => share budget - 1 <= PromptUnits c <= budget /\ c <> []) init /\ PromptUnits last <= budget /\
      (remaining <> [] -> last <> []) /\ Z.of_nat (length cs) <= maxChunks
  | Err (TooManyChunks m) => m = maxChunks /\ (maxChunks - Z.of_nat (length chunks) - 1) * (share budget - 1) + budget < PromptUnits remaining
  | Err NoBoundary => False
  end.
Proof.
  intros Hb. revert remaining chunks. induction fuel as [|fuel IH]; intros remaining chunks Hf Hc; [lia|]. cbn [splitFrom].
  destruct (Z.leb_spec (PromptUnits remaining) budget) as [Hle|Hgt].
  { exists [], remaining. rewrite length_app. simpl. rewrite app_nil_r. repeat split; auto; lia. }
  destruct (Z.leb_spec maxChunks (Z.of_nat (length chunks) + 1)) as [Hm|Hm].
  { split; [done|]. replace (maxChunks - Z.of_nat (length chunks) - 1) with 0 by lia. lia. }
  cbv zeta. pose proof (choose_spec ask (length chunks) remaining budget Hb Hgt) as (H1 & H2).
  set (i := chooseSessionChunkCut _ _ _ _) in *.
  destruct (Z.leb_spec i 0); [lia|]. destruct (Z.leb_spec (Z.of_nat (length remaining)) i); [lia|]. simpl.
  assert (Hne : take (Z.to_nat i) remaining <> []).
  { intros E. apply (f_equal length) in E. rewrite length_take in E. simpl in E. lia. }
  assert (Hd : drop (Z.to_nat i) remaining <> []).
  { intros E. apply (f_equal length) in E. rewrite length_drop in E. simpl in E. lia. }
  specialize (IH (drop (Z.to_nat i) remaining) (chunks ++ [take (Z.to_nat i) remaining])).
  rewrite length_drop, length_app in IH. simpl in IH. specialize (IH ltac:(lia) ltac:(lia)).
  destruct (splitFrom _ _ _ _ _ _) as [cs|[m|]]; [|destruct IH as [-> IH]|done].
  - destruct IH as (init & last & -> & E & I1 & I2 & I3 & I4). exists (take (Z.to_nat i) remaining :: init), last.
    split; [by rewrite <- app_assoc|]. split; [simpl; by rewrite E, take_drop|]. split; [by constructor|]. split; [done|]. split; [auto|done].
  - split; [done|]. rewrite <- (take_drop (Z.to_nat i) remaining), PromptUnits_app. lia.
Qed.

Definition effectiveMax (maxChunks : Z) : Z := if maxChunks <=? 0 then 16 else maxChunks.

(** C21. An oversized prompt is transported verbatim: whatever offsets the planner replies,
    the pieces concatenate to the prompt, none is empty or over the budget, and there are
    at most as many as configured. *)
Theorem split_verbatim (prompt : list rune) (budget maxChunks : Z) (cs : list (list rune)) :
  2 <= budget <= 2 ^ 56 -> prompt <> [] -> splitSessionChunks ask prompt budget maxChunks = Ok cs ->
  concat cs = prompt /\ Forall (fun c => c <> [] /\ PromptUnits c <= budget) cs /\ Z.of_nat (length cs) <= effectiveMax maxChunks.
Proof.
  intros Hb Hne E. unfold splitSessionChunks in E. fold (effectiveMax maxChunks) in E.
  assert (0 < effectiveMax maxChunks) by (unfold effectiveMax; destruct (Z.leb_spec maxChunks 0); lia).
  pose proof (splitFrom_spec budget (effectiveMax maxChunks) (S (length prompt)) prompt [] Hb ltac:(lia) ltac:(simpl; lia)) as H'.
  rewrite E in H'. destruct H' as (init & last & -> & H1 & H2 & H3 & H4 & H5). simpl in *. split; [done|]. split; [|done].
  apply Forall_app. split; [|constructor; auto]. eapply Forall_impl; [exact H2|]. simpl. intros c Hc. split; [tauto|lia].
Qed.

(** The split finds a boundary in every prompt and ends; it refuses a prompt only when
    that is longer than the allowed number of pieces at three fifths of the budget. *)
Theorem split_total (prompt : list rune) (budget maxChunks : Z) :
  2 <= budget <= 2 ^ 56 ->
  match splitSessionChunks ask prompt budget maxChunks with
  | Ok _ => True
  | Err e => e = TooManyChunks (effectiveMax maxChunks) /\ (effectiveMax maxChunks - 1) * (share budget - 1) + budget < PromptUnits prompt
  end.
Proof.
  intros Hb. unfold splitSessionChunks. fold (effectiveMax maxChunks).
  assert (0 < effectiveMax maxChunks) by (unfold effectiveMax; destruct (Z.leb_spec maxChunks 0); lia).
  pose proof (splitFrom_spec budget (effectiveMax maxChunks) (S (length prompt)) prompt [] Hb ltac:(lia) ltac:(simpl; lia)) as H'.
  destruct (splitFrom _ _ _ _ _ _) as [cs|[m|]]; [done| |done]. destruct H' as [-> H']. split; [done|]. simpl in H'. lia.
Qed.
End Splitting.

(** A planner that always replies 3, on a text with one non-BMP rune. *)
Definition askThree : nat -> list rune -> Z -> Z -> option Z := fun _ _ _ _ => Some 3.

Example split_surrogates : splitSessionChunks askThree [97; 98; 0x1F600; 99; 100; 101]%N 4 0 = Ok [[97; 98]; [0x1F600; 99]; [100; 101]]%N.
Proof. reflexivity. Qed.

Lemma split_verbatim_witness :
  concat [[97; 98]; [0x1F600; 99]; [100; 101]]%N = [97; 98; 0x1F600; 99; 100; 101]%N.
Proof.
  apply (split_verbatim askThree [97; 98; 0x1F600; 99; 100; 101]%N 4 0 [[97; 98]; [0x1F600; 99]; [100; 101]]%N); [lia|done|reflexivity].
Defined.

Lemma split_total_witness :
  splitSessionChunks askThree [97; 98; 0x1F600; 99; 100; 101]%N 4 2 = Err (TooManyChunks 2) /\ (2 - 1) * (share 4 - 1) + 4 < 7.
Proof.
  split; [reflexivity|]. pose proof (split_total askThree [97; 98; 0x1F600; 99; 100; 101]%N 4 2 ltac:(lia)) as H.
  change (splitSessionChunks askThree [97; 98; 0x1F600; 99; 100; 101]%N 4 2) with (@Err splitError (list (list rune)) (TooManyChunks 2)) in H.
  exact (proj2 H).
Defined.

(** ** The prompts on the wire *)

(** The runes of an ASCII text. *)
Definition ascii (s : string) : list rune := bytesOf s.

Definition isSpaceRune (r : rune) : bool :=
  ((9 <=? r) && (r <=? 13) || (r =? 32) || (r =? 0x85) || (r =? 0xA0) || (r =? 0x1680) || (0x2000 <=? r) && (r <=? 0x200A) ||
   (r =? 0x2028) || (r =? 0x2029) || (r =? 0x202F) || (r =? 0x205F) || (r =? 0x3000))%N.

Fixpoint trimLeftRunes (text : list rune) : list rune :=
  match text with r :: text' => if isSpaceRune r then trimLeftRunes text' else text | [] => [] end.

(** [strings.TrimSpace] *)
Definition trimRunes (text : list rune) : list rune := reverse (trimLeftRunes (reverse (trimLeftRunes text))).

Definition appendSessionChunkFormat (formatPrompt : list rune) : list rune :=
  let f := trimRunes formatPrompt in
  match f with
  | [] => []
  | _ => ascii "[FINAL_RESPONSE_FORMAT_REQUIREMENTS_REPEAT]" ++ [10%N] ++ f ++ [10%N] ++ ascii "[END_FINAL_RESPONSE_FORMAT_REQUIREMENTS]" ++ [10%N]
  end.

Definition intermediateCommand : string :=
  "Store this fragment verbatim in conversation context. Do not answer the original request yet.".
Definition finalCommand : string :=
  "Concatenate every fragment with this marker in numeric order, exactly and without separators. Ignore intermediate assistant reasoning, probes, and cancellation turns. Now execute the reconstructed original request.".

Definition sessionChunkFragmentPrompt (marker : list rune) (index count : Z) (fragment formatPrompt : list rune) (final : bool) : list rune :=
  ascii "[OVERSIZED_REQUEST_" ++ ascii (if final then "FINAL" else "INTERMEDIATE") ++ ascii " marker=" ++ marker ++ ascii " fragment=" ++
  ascii (pretty index) ++ ascii "/" ++ ascii (pretty count) ++ ascii "]" ++ [10%N] ++
  ascii (if final then finalCommand else intermediateCommand) ++ [10%N] ++ appendSessionChunkFormat formatPrompt ++
  ascii "[FRAGMENT_BEGIN marker=" ++ marker ++ ascii " index=" ++ ascii (pretty index) ++ ascii "]" ++ [10%N] ++ fragment ++
  [10%N] ++ ascii "[FRAGMENT_END marker=" ++ marker ++ ascii " index=" ++ ascii (pretty index) ++ ascii "]".

Inductive controlKind := Probe | Cancel.

Definition sessionChunkControlPrompt (formatPrompt : list rune) (kind : controlKind) (value : list rune) : list rune :=
  ascii "[OVERSIZED_REQUEST_CONTROL type=" ++ ascii (match kind with Probe => "probe" | Cancel => "cancel" end) ++ ascii "]" ++ [10%N] ++
  appendSessionChunkFormat formatPrompt ++
  match kind with
  | Probe => ascii "This is a checkpoint only. Preserve every earlier oversized-request fragment exactly as context. " ++
             ascii "Begin a short internal reasoning acknowledgement now, but do not answer the original request. Checkpoint nonce: " ++ value
  | Cancel => value
  end.

Definition sessionChunkCancelInstruction : list rune :=
  ascii "Cancel and ignore the unfinished answer or reasoning from the previous fragment." ++ [10%N] ++
  ascii "Keep every oversized-request fragment already received in this same conversation exactly as context." ++ [10%N] ++
  ascii "Begin a short internal reasoning acknowledgement now, but do not answer the original request yet. The next fragment will follow.".

(** The target of a fragment, and what of it is left for the content. *)
Definition targetRatio (cfg : PromptLimitSettings) : float64 :=
  let r := SessionChunkingTargetRatio cfg in
  if SFleb r (ofInt 0) || SFleb (ofInt 1) r then decimal 85 100 else r.

Definition targetUnits (cfg : PromptLimitSettings) (limit : Z) : Z := toInt (mul64 (ofInt limit) (targetRatio cfg)).

Definition contentBudget (cfg : PromptLimitSettings) (limit : Z) (formatPrompt : list rune) : Z :=
  i64 (targetUnits cfg limit - sessionChunkEnvelopeReserveUnits - PromptUnits formatPrompt).

(** [pretty_N_go] writes at most as many digits as the bound has zeros. *)
Lemma pretty_go_length (k : nat) (x : N) (s : string) :
  (x < 10 ^ N.of_nat k)%N -> (String.length (pretty_N_go x s) <= k + String.length s)%nat.
Proof.
  revert x s. induction k as [|k IH]; intros x s Hx.
  - assert (x = 0%N) as -> by (change (10 ^ N.of_nat 0)%N with 1%N in Hx; lia). done.
  - destruct (decide (x = 0%N)) as [->|Hne]; [rewrite pretty_N_go_0; lia|]. rewrite pretty_N_go_step by lia.
    etransitivity; [apply IH|simpl; lia]. rewrite Nat2N.inj_succ, N.pow_succ_r' in Hx. apply N.Div0.div_lt_upper_bound. lia.
Qed.

Lemma pretty_length (z : Z) : 0 <= z < 10 ^ 20 -> (String.length (pretty z) <= 20)%nat.
Proof.
  intros Hz. destruct z as [|p|p]; [simpl; lia| |lia]. change (pretty (Zpos p)) with (pretty (Npos p)). unfold pretty, pretty_N.
  destruct (decide _); [simpl; lia|]. etransitivity; [apply (pretty_go_length 20)|simpl; lia].
  change (10 ^ N.of_nat 20)%N with (100000000000000000000)%N. lia.
Qed.

Lemma PromptUnits_ascii (s : string) : PromptUnits (ascii s) = Z.of_nat (String.length s).
Proof.
  induction s as [|c s IH]; [done|]. unfold PromptUnits, ascii in *. cbn [bytesOf fold_right String.length]. rewrite IH.
  assert (runeUnits (Ascii.N_of_ascii c) = 1) as ->; [|lia]. unfold runeUnits.
  assert (Ascii.N_of_ascii c < 256)%N by (by destruct c as [[] [] [] [] [] [] [] []]; vm_compute).
  destruct (N.leb_spec 0x10000 (Ascii.N_of_ascii c)); [lia|done].
Qed.

Lemma trimLeftRunes_suffix (text : list rune) : exists p, text = p ++ trimLeftRunes text.
Proof. induction text as [|r text [p IH]]; [by exists []|]. simpl. destruct (isSpaceRune r); [exists (r :: p); simpl; by rewrite <- IH|by exists []]. Qed.

Lemma PromptUnits_reverse (text : list rune) : PromptUnits (reverse text) = PromptUnits text.
Proof.
  induction text as [|r text IH]; [done|]. rewrite reverse_cons, PromptUnits_app, IH. unfold PromptUnits. simpl. lia.
Qed.

Lemma PromptUnits_trim (text : list rune) : PromptUnits (trimRunes text) <= PromptUnits text.
Proof.
  assert (H : forall t, PromptUnits (trimLeftRunes t) <= PromptUnits t).
  { intros t. destruct (trimLeftRunes_suffix t) as [p Hp]. rewrite Hp at 2. rewrite PromptUnits_app. pose proof (PromptUnits_bounds p). lia. }
  unfold trimRunes. rewrite PromptUnits_reverse. etransitivity; [apply H|]. rewrite PromptUnits_reverse. apply H.
Qed.

Lemma PromptUnits_cons (r : rune) (text : list rune) : PromptUnits (r :: text) = runeUnits r + PromptUnits text.
Proof. done. Qed.

Lemma format_units (f : list rune) : 0 <= PromptUnits (appendSessionChunkFormat f) <= PromptUnits f + 200.
Proof.
  pose proof (PromptUnits_trim f) as H. unfold appendSessionChunkFormat. cbv zeta. destruct (trimRunes f) as [|r t] eqn:E.
  { change (PromptUnits []) with 0. pose proof (PromptUnits_bounds f). lia. }
  rewrite <- E in *. rewrite !PromptUnits_app, !PromptUnits_ascii. cbn [String.length]. change (PromptUnits [10%N]) with 1.
  pose proof (PromptUnits_bounds (trimRunes f)). lia.
Qed.

(** The reserve suffices: a fragment within the content budget goes out in a prompt
    within the target share of the limit, whatever the format requirements, the position and
    the marker are; so the check of the wire size cannot fail after a split. *)
Theorem fragment_fits (cfg : PromptLimitSettings) (limit index count : Z) (marker fragment formatPrompt : list rune) (final : bool) :
  0 <= index < 10 ^ 20 -> 0 <= count < 10 ^ 20 -> (length marker <= 16)%nat ->
  minInt <= targetUnits cfg limit - sessionChunkEnvelopeReserveUnits - PromptUnits formatPrompt <= maxInt ->
  PromptUnits fragment <= contentBudget cfg limit formatPrompt ->
  PromptUnits (sessionChunkFragmentPrompt marker index count fragment formatPrompt final) <= targetUnits cfg limit.
Proof.
  intros Hi Hc Hm Hr Hf. unfold contentBudget, sessionChunkEnvelopeReserveUnits in *. rewrite i64_small in Hf by lia.
  unfold sessionChunkFragmentPrompt. rewrite !PromptUnits_app, !PromptUnits_ascii. change (PromptUnits [10%N]) with 1.
  pose proof (pretty_length index Hi). pose proof (pretty_length count Hc). pose proof (PromptUnits_bounds marker).
  pose proof (format_units formatPrompt). pose proof (PromptUnits_bounds formatPrompt).
  destruct final; cbn [String.length finalCommand intermediateCommand]; lia.
Qed.

Definition chunkCfg : PromptLimitSettings := DefaultPromptLimitSettings.

Example target_ex : targetUnits chunkCfg 380000 = 323000 /\ contentBudget chunkCfg 380000 [] = 318904.
Proof. vm_compute. done. Qed.

Lemma fragment_fits_witness :
  PromptUnits (sessionChunkFragmentPrompt (ascii "00ff00ff00ff00ff") 1 2 (ascii "hello") (ascii "reply in JSON") false) <= 323000.
Proof.
  pose proof (fragment_fits chunkCfg 380000 1 2 (ascii "00ff00ff00ff00ff") (ascii "hello") (ascii "reply in JSON") false) as H.
  change (targetUnits chunkCfg 380000) with 323000 in H. apply H; [lia|lia|simpl; lia|vm_compute; split; discriminate|vm_compute; discriminate].
Defined.
