(* ===== verification/ChunkTurn.v ===== *)
(** Committing the pieces of an oversized prompt to one upstream conversation, and
    recovering when that fails: [internal/httpapi/openai/shared], the second half of
    session_chunking.go, session_chunking_failover.go and root_session_failover.go.

    The upstream, the resolver and the clock are what they answer: each answer is a function
    of the calls made so far, so the theorems hold for every behaviour.  The selected account
    is one of these functions, since logging in again or failing over may change it at any
    call.  A computation takes the calls made before it and returns those made after. *)
From S2P Require Import Prelude GoString GoText Json Sse Pool UpstreamError Models PromptLimit SessionChunk.
Local Open Scope string_scope.
Local Open Scope list_scope.
Local Open Scope Z_scope.

Notation err := (UpstreamError.error PromptLimitSettings) (only parsing).

(** ** The stream of one turn *)

(** What the [select] receives; [TurnDone] has the caller's [ctx.Err()]. *)
Inductive turnEvent :=
| Line (r : LineResult)
| LinesClosed
| DoneSignal (e : err)
| TurnDone (caller : err).

Inductive turnKind := TurnFragment | TurnProbe | TurnCancel.

#[global] Instance turnKind_eq_dec : EqDecision turnKind.
Proof. solve_decision. Defined.

Record turnState := { linesOpen : bool; doneOpen : bool; responseID : Z; seen : bool; streamErr : err }.

Definition turnStart : turnState := {| linesOpen := true; doneOpen := true; responseID := 0; seen := false; streamErr := [] |}.

Definition newSessionChunkUncommittedError (why : string) (t : sessionChunkTerminal) (id : Z) (started : bool) (cause : err) : err :=
  LUncommitted {| reason := why; terminal := t; responseMessageID := id; started := started |} :: cause.

Definition endedBeforeCommit (st : turnState) : err :=
  newSessionChunkUncommittedError "upstream stream ended before fragment commit" sessionChunkTerminalEOF (responseID st) (seen st) (streamErr st).

Section Turn.
Variables (parentID : Z) (interruptAfterStart : bool) (kind : turnKind).

Definition advanced (id : Z) : bool := (0 <? id) && negb (id =? parentID).

Definition visible (r : LineResult) : bool :=
  existsb (fun p => negb (bool_decide (TrimSpace (Text p) = ""))) (Parts r ++ ToolDetectionThinkingParts r).

(** One round of the loop: the turn's result or its next state.  A closed channel is set
    to [nil] and is never ready again. *)
Definition turnStep (st : turnState) (ev : turnEvent) : result err Z + turnState :=
  match ev with
  | Line r =>
      if negb (linesOpen st) then inr st
      else
        let id := if 0 <? ResponseMessageID r then ResponseMessageID r else responseID st in
        if negb (bool_decide (ErrorMessage r = "")) then inl (Err [LText ("upstream SSE error: " +:+ ErrorMessage r)])
        else if ContentFilter r then inl (Err [LText "upstream content filter interrupted fragment commit"])
        else
          let s := seen st || visible r in
          if interruptAfterStart && (0 <? id) && s then inl (Ok id)
          else if Stop r then
            if interruptAfterStart && bool_decide (kind = TurnFragment) && negb s && advanced id then inl (Ok id)
            else if interruptAfterStart && negb (bool_decide (kind = TurnFragment)) && advanced id then inl (Ok id)
            else if advanced id && negb interruptAfterStart then inl (Ok id)
            else inl (Err (newSessionChunkUncommittedError "upstream finished before required reasoning/content started"
                             sessionChunkTerminalDone id s []))
          else inr {| linesOpen := true; doneOpen := doneOpen st; responseID := id; seen := s; streamErr := streamErr st |}
  | LinesClosed =>
      if negb (linesOpen st) then inr st
      else if doneOpen st then
        inr {| linesOpen := false; doneOpen := true; responseID := responseID st; seen := seen st; streamErr := streamErr st |}
      else if advanced (responseID st) && negb interruptAfterStart then inl (Ok (responseID st))
      else inl (Err (endedBeforeCommit st))
  | DoneSignal e =>
      if negb (doneOpen st) then inr st
      else
        let st := {| linesOpen := linesOpen st; doneOpen := false; responseID := responseID st; seen := seen st; streamErr := e |} in
        if linesOpen st then inr st
        else if interruptAfterStart && negb (bool_decide (kind = TurnFragment)) && advanced (responseID st) then inl (Ok (responseID st))
        else if advanced (responseID st) && negb interruptAfterStart then inl (Ok (responseID st))
        else inl (Err (endedBeforeCommit st))
  | TurnDone caller =>
      match caller with
      | [] => inl (Err (newSessionChunkUncommittedError "timed out waiting for fragment commit" sessionChunkTerminalTimeout
                          (responseID st) (seen st) [LDeadline]))
      | _ => inl (Err (LWrap "wait for fragment commit: " :: caller))
      end
  end.

(** [None]: still waiting. *)
Fixpoint turnRun (st : turnState) (evs : list turnEvent) : option (result err Z) :=
  match evs with
  | [] => None
  | ev :: evs => match turnStep st ev with inl r => Some r | inr st => turnRun st evs end
  end.

(** The turn's deadline comes at last. *)
Definition turnResult (evs : list turnEvent) (caller : err) : result err Z :=
  match turnRun turnStart (evs ++ [TurnDone caller]) with Some r => r | None => Err [] end.
End Turn.

(** ** Evidence *)

Section Evidence.
Variables (parentID : Z) (kind : turnKind).
Implicit Types (evs : list turnEvent).

(** The identifier announced last, and whether text was seen, in the lines so far. *)
Definition lineID (id : Z) (ev : turnEvent) : Z :=
  match ev with Line r => if 0 <? ResponseMessageID r then ResponseMessageID r else id | _ => id end.
Definition lineVisible (ev : turnEvent) : bool := match ev with Line r => visible r | _ => false end.
Definition lineStop (ev : turnEvent) : bool := match ev with Line r => Stop r | _ => false end.
Definition isLine (ev : turnEvent) : bool := match ev with Line _ => true | _ => false end.

(** A closed channel delivers no more lines. *)
Fixpoint channelOrder evs : Prop :=
  match evs with
  | [] => True
  | LinesClosed :: evs => Forall (fun ev => isLine ev = false) evs
  | _ :: evs => channelOrder evs
  end.

Definition ordered (st : turnState) evs : Prop :=
  if linesOpen st then channelOrder evs else Forall (fun ev => isLine ev = false) evs.

Lemma ordered_tail intr st st' ev evs : turnStep parentID intr kind st ev = inr st' -> ordered st (ev :: evs) -> ordered st' evs.
Proof.
  unfold ordered. destruct st as [lo do_ rid sn se]. intros E H. destruct lo.
  - destruct ev as [r| |e|caller]; cbn [turnStep] in E; simpl in *; [| | |by destruct caller].
    all: destruct do_; simpl in *; repeat match type of E with context [if ?b then _ else _] => destruct b eqn:?; simpl in * end; simplify_eq/=; auto.
  - inversion H as [|? ? H1 H2]; subst. destruct ev as [r| |e|caller]; cbn [turnStep] in E; simpl in *; [| | |by destruct caller].
    all: destruct do_; simpl in *; repeat match type of E with context [if ?b then _ else _] => destruct b eqn:?; simpl in * end; simplify_eq/=; auto.
Qed.

Lemma turn_total intr st evs caller : is_Some (turnRun parentID intr kind st (evs ++ [TurnDone caller])).
Proof.
  revert st. induction evs as [|ev evs IH]; intros st; cbn [app turnRun].
  - cbn [turnStep]. by destruct caller.
  - destruct (turnStep parentID intr kind st ev); [done|apply IH].
Qed.

(** Nothing in it says that the turn failed: no error, no content filter, no timeout. *)
Definition calm (ev : turnEvent) : Prop :=
  match ev with Line r => ErrorMessage r = "" /\ ContentFilter r = false | TurnDone _ => False | _ => True end.

Lemma step_calm intr st ev evs : ordered st (ev :: evs) ->
  match turnStep parentID intr kind st ev with inl (Err _) => True | _ => calm ev end.
Proof.
  intros Ho. destruct ev as [r| |e|caller]; cbn [turnStep calm]; try (by repeat case_match).
  destruct (linesOpen st) eqn:L; cbn [negb].
  - case_bool_decide; cbn [negb]; [|done]. destruct (ContentFilter r); [done|]. by repeat case_match.
  - unfold ordered in Ho. rewrite L in Ho. by inversion Ho.
Qed.

(** What a run relies on when it commits: [n] events were read. *)
Definition evidence (st : turnState) (evs : list turnEvent) (id : Z) : Prop :=
  exists n, let read := take n evs in
    Forall calm read /\ id = fold_left lineID read (responseID st) /\ 0 < id /\
    (seen st || existsb lineVisible read = true \/
     id <> parentID /\ (existsb lineStop read = true \/
       kind <> TurnFragment /\ (exists e, DoneSignal e ∈ read) /\ (linesOpen st = false \/ LinesClosed ∈ read))).

Lemma advanced_spec (id : Z) : advanced parentID id = true -> 0 < id /\ id <> parentID.
Proof. unfold advanced. intros [H1%Z.ltb_lt H2%negb_true_iff%Z.eqb_neq]%andb_true_iff. done. Qed.

Lemma evidence_cons st st' ev evs id :
  calm ev -> responseID st' = lineID (responseID st) ev ->
  seen st' = seen st || lineVisible ev -> (linesOpen st' = false -> linesOpen st = false \/ ev = LinesClosed) ->
  evidence st' evs id -> evidence st (ev :: evs) id.
Proof.
  intros Hc Hid Hs Hl (n & H0 & H1 & H2 & H3). exists (S n). cbn [take fold_left existsb]. rewrite <- Hid. split; [by constructor|]. split; [done|]. split; [done|].
  destruct H3 as [H3|(H3 & H4)].
  - left. rewrite Hs in H3. destruct (seen st), (lineVisible ev); simpl in *; done.
  - right. split; [done|]. destruct H4 as [H4|(H4 & (e & H5) & H6)]; [left; rewrite H4; apply orb_true_r|]. right. split; [done|].
    split; [exists e; by right|]. destruct H6 as [H6|H6]; [|right; by right]. destruct (Hl H6) as [|Hl']; [by left|]. right. rewrite Hl'. by left.
Qed.

Lemma turnRun_evidence st evs id : ordered st evs -> turnRun parentID true kind st evs = Some (Ok id) -> evidence st evs id.
Proof.
  revert st. induction evs as [|ev evs IH]; intros st Ho; cbn [turnRun]; [done|]. pose proof (step_calm true st ev evs Ho) as Hcalm.
  destruct (turnStep parentID true kind st ev) as [r|st'] eqn:E.
  - intros [= ->]. exists 1%nat. cbn [take fold_left existsb]. split; [by repeat constructor|]. destruct ev as [r| |e|caller]; cbn [turnStep] in E.
    + destruct (linesOpen st); simpl in E; [|done]. destruct (bool_decide (ErrorMessage r = "")); simpl in E; [|done].
      destruct (ContentFilter r); [done|]. cbn [lineID lineVisible lineStop]. set (i := if 0 <? ResponseMessageID r then _ else _) in *.
      destruct ((0 <? i) && (seen st || visible r)) eqn:E1.
      { injection E as <-. apply andb_true_iff in E1 as [E1%Z.ltb_lt E2]. split; [done|]. split; [done|]. left. by rewrite orb_false_r. }
      destruct (Stop r) eqn:Es; [|done].
      destruct (bool_decide (kind = TurnFragment)); simpl in E; rewrite ?andb_false_r in E.
      * destruct (negb (seen st || visible r) && advanced parentID i) eqn:E2; [|done]. injection E as <-.
        apply andb_true_iff in E2 as [_ E2]. apply advanced_spec in E2 as [? ?]. split; [done|]. split; [done|]. right. split; [done|by left].
      * destruct (advanced parentID i) eqn:E2; [|done]. injection E as <-. apply advanced_spec in E2 as [? ?].
        split; [done|]. split; [done|]. right. split; [done|by left].
    + destruct (linesOpen st); simpl in E; [|done]. destruct (doneOpen st); [done|]. by rewrite andb_false_r in E.
    + destruct (doneOpen st); simpl in E; [|done]. destruct (linesOpen st) eqn:El; simpl in E; [done|].
      destruct (bool_decide (kind = TurnFragment)) eqn:Ek; simpl in E; rewrite ?andb_false_r in E; [done|].
      destruct (advanced parentID (responseID st)) eqn:E2; simpl in E; [|done]. injection E as <-.
      apply advanced_spec in E2 as [? ?]. apply bool_decide_eq_false_1 in Ek. cbn [lineID lineVisible lineStop].
      split; [done|]. split; [done|]. right. split; [done|]. right. split; [done|]. split; [exists e; by left|by left].
    + by destruct caller.
  - intros H%IH; [|by eapply ordered_tail]. eapply evidence_cons; [exact Hcalm| | | |exact H]; clear H IH Hcalm.
    all: assert (Hl : linesOpen st = false -> isLine ev = false) by (intros Hc; unfold ordered in Ho; rewrite Hc in Ho; by inversion Ho).
    all: destruct ev as [r| |e|caller]; cbn [turnStep] in E; [| | |by destruct caller].
    all: destruct st as [lo do_ rid sn se]; simpl in *; destruct lo, do_; simpl in *;
      repeat match type of E with context [if ?b then _ else _] => destruct b eqn:?; simpl in * end; simplify_eq/=; rewrite ?orb_false_r; auto; by specialize (Hl eq_refl).
Qed.

Lemma channelOrder_snoc evs caller : channelOrder evs -> channelOrder (evs ++ [TurnDone caller]).
Proof.
  induction evs as [|ev evs IH]; [done|]. destruct ev; simpl; auto. intros H. apply Forall_app. split; [done|by constructor].
Qed.

(** C17. A turn of the conversation counts as committed only on evidence from the upstream, read
    before it reported an error, filtered the content or ran into the timeout.  It announced the
    message that becomes the next parent; and either text of it was seen, or the message is not
    the old parent and the stream was stopped regularly, or, for a control turn only, the message
    is not the old parent and the stream ended, lines and end signal, without a stop (and then
    only if the closing of the lines is noticed before the signal, see [control_eof_order]). *)
Theorem commit_needs_evidence evs caller id :
  channelOrder evs -> turnResult parentID true kind evs caller = Ok id ->
  exists read rest, evs = (read ++ rest)%list /\ Forall calm read /\ id = fold_left lineID read 0 /\ 0 < id /\
    (existsb lineVisible read = true \/
     id <> parentID /\ (existsb lineStop read = true \/
       kind <> TurnFragment /\ (exists e, DoneSignal e ∈ read) /\ LinesClosed ∈ read)).
Proof.
  intros Ho H. unfold turnResult in H. destruct (turnRun _ _ _ _ _) as [r|] eqn:E; [|done]. subst r.
  assert (Hord : ordered turnStart (evs ++ [TurnDone caller])) by (by apply channelOrder_snoc).
  apply turnRun_evidence in E; [|done]. destruct E as (n & H0 & H1 & H2 & H3).
  assert (T : take n (evs ++ [TurnDone caller]) = take n evs).
  { rewrite take_app in H0 |- *. destruct (n - length evs)%nat as [|m]; [by rewrite app_nil_r|].
    apply Forall_app in H0 as [_ H0]. by inversion H0. }
  rewrite T in *. cbn [responseID seen turnStart orb linesOpen] in *.
  exists (take n evs), (drop n evs). rewrite take_drop. repeat (split; [done|]).
  destruct H3 as [H3|(H3 & [H4|(H4 & H5 & [H6|H6])])]; [by left|right; split; [done|by left]|discriminate|].
  right. split; [done|]. right. done.
Qed.
End Evidence.

Definition line (id : Z) (text : string) (stop : bool) : LineResult :=
  {| Parsed := true; Stop := stop; ContentFilter := false; ErrorMessage := "";
     Parts := if bool_decide (text = "") then [] else [{| Text := text; Type_ := "thinking" |}];
     ToolDetectionThinkingParts := []; NextType := "thinking"; ResponseMessageID := id |}.

Lemma commit_needs_evidence_witness :
  exists read rest, [Line (line 7 "" false); Line (line 0 "hm" false)] = (read ++ rest)%list /\ 7 = fold_left lineID read 0.
Proof.
  destruct (commit_needs_evidence 3 TurnFragment [Line (line 7 "" false); Line (line 0 "hm" false)] [] 7) as (read & rest & H1 & _ & H2 & _);
    [done|vm_compute; reflexivity|]. by exists read, rest.
Defined.

(** The same stream of a control turn, a new message without visible text that ends without
    a stop: the turn is accepted if the closing of the lines is noticed first, and refused
    if the end signal is, which the pump sends first. *)
Lemma control_eof_order :
  turnResult 3 true TurnProbe [Line (line 7 "" false); LinesClosed; DoneSignal []] [] = Ok 7 /\
  exists e, turnResult 3 true TurnProbe [Line (line 7 "" false); DoneSignal []; LinesClosed] [] = Err e /\
    isRetryableSessionChunkControlError e = true.
Proof. split; [reflexivity|]. eexists. split; [reflexivity|]. vm_compute. reflexivity. Qed.
