(* ===== verification/Traced.v ===== *)
(** Computations that call services: each answer of a service is a function of the calls
    made so far, so that what is shown for every such function holds for every behaviour of
    the services.  A computation takes the calls made before it and returns its result with
    the calls made after it; reasoning is by triples. *)
From S2P Require Import Prelude.
Local Open Scope list_scope.

Definition Traced (C A : Type) := list C -> A * list C.

Section Ops.
Context {C : Type}.

Definition ret {A} (a : A) : Traced C A := fun h => (a, h).
Definition bind {A B} (m : Traced C A) (k : A -> Traced C B) : Traced C B := fun h => let '(a, h) := m h in k a h.

(** Make a call and look at the history with it. *)
Definition perform {A} (c : C) (answer : list C -> A) : Traced C A := fun h => (answer (h ++ [c]), h ++ [c]).
Definition emit (c : C) : Traced C unit := perform c (fun _ => tt).
(** Make a call that is recorded with its answer. *)
Definition note {A} (answer : list C -> A) (c : A -> C) : Traced C A := fun h => let a := answer h in (a, h ++ [c a]).
Definition look {A} (f : list C -> A) : Traced C A := fun h => (f h, h).
End Ops.

Notation "'let*' x ':=' m 'in' k" := (bind m (fun x => k)) (at level 10, x pattern, m at level 100, k at level 200).

(** Go on with the value, return with the error. *)
Definition try {C E A B} (m : Traced C (result E A)) (k : A -> Traced C (result E B)) : Traced C (result E B) :=
  let* r := m in match r with Ok a => k a | Err e => ret (Err e) end.

(** ** Triples *)

Section Triples.
Context {C : Type}.
Implicit Types (P : list C -> Prop) (h : list C).

Definition triple {A} P (m : Traced C A) (Q : A -> list C -> Prop) : Prop := forall h, P h -> Q (m h).1 (m h).2.

Lemma triple_ret {A} P (a : A) Q : (forall h, P h -> Q a h) -> triple P (ret a) Q.
Proof. intros H h. apply H. Qed.

Lemma triple_bind {A B} P (R : A -> list C -> Prop) (m : Traced C A) (k : A -> Traced C B) Q :
  triple P m R -> (forall a, triple (R a) (k a) Q) -> triple P (bind m k) Q.
Proof. intros Hm Hk h Hh. unfold bind. specialize (Hm h Hh). destruct (m h) as [a h']. by apply Hk. Qed.

Lemma triple_try {E A B} P (R : result E A -> list C -> Prop) (m : Traced C (result E A)) (k : A -> Traced C (result E B)) Q :
  triple P m R -> (forall a, triple (R (Ok a)) (k a) Q) -> (forall e h, R (Err e) h -> Q (Err e) h) -> triple P (try m k) Q.
Proof.
  intros Hm Hk He. unfold try. eapply triple_bind; [exact Hm|]. intros [a|e]; [apply Hk|]. apply triple_ret. apply He.
Qed.

Lemma triple_look {A} P (f : list C -> A) Q : (forall h, P h -> Q (f h) h) -> triple P (look f) Q.
Proof. intros H h. apply H. Qed.

Lemma triple_perform {A} P c (f : list C -> A) Q : (forall h, P h -> Q (f (h ++ [c])) (h ++ [c])) -> triple P (perform c f) Q.
Proof. intros H h. apply H. Qed.

Lemma triple_emit P c Q : (forall h, P h -> Q tt (h ++ [c])) -> triple P (emit c) Q.
Proof. intros H h. apply H. Qed.

Lemma triple_note {A} P (f : list C -> A) (c : A -> C) Q :
  (forall h, P h -> Q (f h) (h ++ [c (f h)])) -> triple P (note f c) Q.
Proof. intros H h. apply H. Qed.

Lemma triple_weaken {A} P P' (m : Traced C A) Q Q' :
  triple P' m Q' -> (forall h, P h -> P' h) -> (forall a h, Q' a h -> Q a h) -> triple P m Q.
Proof. intros H H1 H2 h Hh. apply H2, H, H1, Hh. Qed.
End Triples.

(** What a computation keeps, and what is true of its value whatever the answers. *)
Section Keeps.
Context {C : Type}.

Definition keeps {A} (I : list C -> Prop) (m : Traced C A) : Prop := triple I m (fun _ => I).
Definition yields {A} (m : Traced C A) (V : A -> Prop) : Prop := forall h, V (m h).1.

Lemma keeps_ret {A} (I : list C -> Prop) (a : A) : keeps I (ret a).
Proof. by apply triple_ret. Qed.
Lemma keeps_bind {A B} (I : list C -> Prop) (m : Traced C A) (k : A -> Traced C B) :
  keeps I m -> (forall a, keeps I (k a)) -> keeps I (bind m k).
Proof. intros. by eapply triple_bind. Qed.
Lemma keeps_look {A} (I : list C -> Prop) (f : list C -> A) : keeps I (look f).
Proof. by apply triple_look. Qed.
Lemma keeps_emit (I : list C -> Prop) (c : C) : (forall h, I h -> I (h ++ [c])) -> keeps I (emit c).
Proof. intros H h. apply H. Qed.
Lemma keeps_perform {A} (I : list C -> Prop) (c : C) (f : list C -> A) : (forall h, I h -> I (h ++ [c])) -> keeps I (perform c f).
Proof. intros H h. apply H. Qed.
Lemma keeps_note {A} (I : list C -> Prop) (f : list C -> A) (c : A -> C) : (forall a h, I h -> I (h ++ [c a])) -> keeps I (note f c).
Proof. intros H h. apply H. Qed.

Lemma yields_ret {A} (a : A) (V : A -> Prop) : V a -> yields (ret a) V.
Proof. intros H h. exact H. Qed.
Lemma yields_bind {A B} (m : Traced C A) (k : A -> Traced C B) (V : A -> Prop) (W : B -> Prop) :
  yields m V -> (forall a, V a -> yields (k a) W) -> yields (bind m k) W.
Proof. intros Hm Hk h. unfold bind. specialize (Hm h). destruct (m h) as [a h']. by apply Hk. Qed.
Lemma yields_any {A} (m : Traced C A) : yields m (fun _ => True).
Proof. by intros h. Qed.

Lemma triple_value {A} P (m : Traced C A) Q (V : A -> Prop) :
  triple P m Q -> yields m V -> triple P m (fun a h => Q a h /\ V a).
Proof. intros H HV h Hh. split; [by apply H|by apply HV]. Qed.
End Keeps.

(** Walk through a computation that keeps [I], leaving the events to the side condition. *)
Ltac keeps_step :=
  lazymatch goal with
  | |- keeps _ (bind _ _) => apply keeps_bind; [|intros ?]
  | |- keeps _ (ret _) => apply keeps_ret
  | |- keeps _ (look _) => apply keeps_look
  | |- keeps _ (emit _) => apply keeps_emit
  | |- keeps _ (perform _ _) => apply keeps_perform
  | |- keeps _ (note _ _) => apply keeps_note
  | |- keeps _ (match ?x with _ => _ end) => destruct x
  end.

(** The calls made since [h0], every one of which satisfies [Q]. *)
Definition since {C} (h0 : list C) (Q : C -> Prop) (h : list C) : Prop := exists new, h = h0 ++ new /\ Forall Q new.

Lemma since_start {C} (h0 : list C) (Q : C -> Prop) : since h0 Q h0.
Proof. exists []. by rewrite app_nil_r. Qed.

Lemma since_snoc {C} (h0 : list C) (Q : C -> Prop) (h : list C) (c : C) : Q c -> since h0 Q h -> since h0 Q (h ++ [c]).
Proof. intros Hc (new & -> & Hn). exists (new ++ [c]). rewrite app_assoc. split; [done|]. apply Forall_app. by repeat constructor. Qed.

(** Every call made since [h0] was permitted by [P] when it was made. *)
Definition permitted {C} (h0 : list C) (P : list C -> C -> Prop) (h : list C) : Prop :=
  exists new, h = h0 ++ new /\ forall pre c post, new = pre ++ c :: post -> P (h0 ++ pre) c.

Lemma permitted_start {C} (h0 : list C) P : permitted h0 P h0.
Proof. exists []. rewrite app_nil_r. split; [done|]. by intros [|x pre] c post. Qed.

Lemma permitted_snoc {C} (h0 : list C) P (h : list C) (c : C) : permitted h0 P h -> P h c -> permitted h0 P (h ++ [c]).
Proof.
  intros (new & -> & Hn) Hc. exists (new ++ [c]). rewrite app_assoc. split; [done|]. intros pre x post E.
  destruct post as [|y post] using rev_ind.
  - apply app_inj_tail in E as [-> ->]. exact Hc.
  - rewrite app_comm_cons, app_assoc in E. apply app_inj_tail in E as [-> _]. by apply (Hn pre x post).
Qed.

Lemma since_snoc_inv {C} (h0 h : list C) (Q : C -> Prop) (c : C) : (length h0 <= length h)%nat -> since h0 Q (h ++ [c]) -> since h0 Q h.
Proof.
  intros Hl (new & E & Hn). destruct new as [|x new _] using rev_ind.
  - rewrite app_nil_r in E. apply (f_equal length) in E. rewrite length_app in E. simpl in E. lia.
  - rewrite app_assoc in E. apply app_inj_tail in E as [-> _]. exists new. split; [done|]. by apply Forall_app in Hn as [? _].
Qed.

Lemma permitted_length {C} (h0 : list C) P (h : list C) : permitted h0 P h -> (length h0 <= length h)%nat.
Proof. intros (new & -> & _). rewrite length_app. lia. Qed.
