(* ===== verification/Resolver.v ===== *)
(** Request authentication: [internal/auth/request.go].

    The resolver finds out who calls, leases an account of the pool for the request, keeps
    its token usable and moves the request to another account when the first one fails.
    The store and the pool are those of [Config] and [Pool]; other requests change them
    between any two calls, so a [World] gives their state as a function of the events this
    request has caused so far, and what is shown for every world holds under every
    interference.  An event carries its answer.  The critical sections on the resolver's
    own tables are functions on the table; logging is left out. *)
From stdpp Require Import fin_sets.
From Stdlib Require Import Ascii.
From S2P Require Import Prelude GoString GoText Config Affinity Pool PoolSystem Sha256 Json SessionKey CacheKey RequestGuard Traced.
Local Open Scope string_scope.
Local Open Scope Z_scope.
Local Open Scope list_scope.

(** [*AccountHealthError], with what its [Error()] returns. *)
Record HealthReport := { hState : HealthState; hUntil : Z; hText : string }.

(** The package's errors, and an error of the login or of the store with the health report
    [errors.As] finds in it. *)
Inductive authError :=
| ErrUnauthorized | ErrNoAccount | ErrInvalidDirectToken
| ErrOther (text : string) (health : option HealthReport).

Definition asHealthReport (e : authError) : option HealthReport := match e with ErrOther _ h => h | _ => None end.

Record RequestAuth := {
  UseConfigToken : bool; DeepSeekToken : string; CallerID : string; AccountID : string;
  AuthAccount : Account; TriedAccounts : gset string; AuthSessionKey : string
}.

(** ** The caller *)

(** [req.Header], the decoded query, [req.URL.Path] and the body. *)
Record HttpRequest := { Hdr : Header; Query : gmap string (list string); Path : string; Body : list N }.

Definition TargetAccountHeader : string := "X-DeepSeek-Web-To-API-Target-Account".
Definition LegacyTargetAccountHeader : string := "X-Ds2-Target-Account".
Definition SessionAffinityHeader : string := "X-DeepSeek-Web-To-API-Session-Affinity-Key".
Definition LegacySessionAffinityHeader : string := "X-Ds2-Session-Affinity-Key".

Definition requestHeader (req : HttpRequest) (primary : string) (legacy : list string) : string :=
  firstValue (Hdr req) (primary :: legacy).

(** [strconv.ParseBool] *)
Definition ParseBool (s : string) : option bool :=
  if bool_decide (s ∈ ["1"; "t"; "T"; "TRUE"; "true"; "True"]) then Some true
  else if bool_decide (s ∈ ["0"; "f"; "F"; "FALSE"; "false"; "False"]) then Some false
  else None.

Definition allowQueryTokenAuth (getenv : string -> string) : bool :=
  let v := TrimSpace (getenv "DEEPSEEK_WEB_TO_API_ALLOW_QUERY_AUTH") in
  if bool_decide (v = "") then false else default false (ParseBool v).

Definition queryGet (req : HttpRequest) (name : string) : string :=
  match default [] (Query req !! name) with v :: _ => v | [] => "" end.

Definition bearerToken (authHeader : string) : string :=
  if HasPrefix (ToLower authHeader) "bearer " then TrimSpace (strDrop 7 authHeader) else "".

(** The first of the values that is not empty, [v] when all before it are. *)
Definition orElse (s : string) (v : string) : string := if bool_decide (s = "") then v else s.

Definition extractCallerToken (getenv : string -> string) (req : HttpRequest) : string :=
  orElse (bearerToken (TrimSpace (HeaderGet (Hdr req) "Authorization")))
 (orElse (TrimSpace (HeaderGet (Hdr req) "x-api-key"))
 (orElse (TrimSpace (HeaderGet (Hdr req) "x-goog-api-key"))
 (if negb (allowQueryTokenAuth getenv) then ""
  else orElse (TrimSpace (queryGet req "key")) (TrimSpace (queryGet req "api_key"))))).

Definition callerTokenID (token : string) : string :=
  let token := TrimSpace token in
  if bool_decide (token = "") then "" else "caller:" +:+ EncodeToString (take 8 (Sum256 (bytesOf token))).

Section SessionKeys.
(** The decoders of encoding/json. *)
Context (Unmarshal : list N -> option (list (string * json))) (Decode : list N -> option keyJson).

Definition sessionKeyFromRequest (req : HttpRequest) (callerHash : list N) (body : list N) : string :=
  let scope := requestHeader req SessionAffinityHeader [LegacySessionAffinityHeader] in
  let conversationID := ConversationID Decode (Hdr req) body in
  if negb (bool_decide (scope = "")) then ScopedSessionKey callerHash scope
  else if negb (bool_decide (conversationID = "")) then ScopedSessionKey callerHash ("conversation:" +:+ conversationID)
  else
    let bodyKey := SessionKey Unmarshal callerHash body in
    let path := TrimSpace (Path req) in
    if bool_decide (bodyKey = "") then ""
    else if bool_decide (path = "") then bodyKey
    else ScopedSessionKey callerHash ("http:" +:+ path +:+ ":body:" +:+ bodyKey).
End SessionKeys.

(** ** Rejected direct tokens ([r.invalidDirectAt], under [r.mu]) *)

Definition invalidDirectTokenTTL : Z := 600 * second.
Definition maxInvalidDirectTokenKeys : nat := N.to_nat 4096.

Definition markExpired (now markedAt : Z) : bool := invalidDirectTokenTTL <=? timeSub now markedAt.

Definition directTokenBlocked (callerID : string) (now : Z) (m : gmap string Z) : gmap string Z * bool :=
  let callerID := TrimSpace callerID in
  if bool_decide (callerID = "") then (m, false)
  else match m !! callerID with
       | None => (m, false)
       | Some markedAt => if markExpired now markedAt then (delete callerID m, false) else (m, true)
       end.

Definition pruneInvalidDirectLocked (now : Z) (m : gmap string Z) : gmap string Z :=
  filter (fun kv => markExpired now kv.2 = false) m.

(** [iter] is the order in which [range] visits the map. *)
Definition oldestOf (entries : list (string * Z)) : string * Z :=
  fold_left (fun '(id, at_) '(callerID, markedAt) =>
    if bool_decide (id = "") || (markedAt <? at_) then (callerID, markedAt) else (id, at_)) entries ("", zeroTime).

Definition evictOldestInvalidDirectLocked (iter : gmap string Z -> list (string * Z)) (m : gmap string Z) : gmap string Z :=
  let oldestCallerID := (oldestOf (iter m)).1 in
  if bool_decide (oldestCallerID = "") then m else delete oldestCallerID m.

Definition MarkDirectTokenInvalid (iter : gmap string Z -> list (string * Z)) (a : RequestAuth) (now : Z) (m : gmap string Z)
  : gmap string Z :=
  if UseConfigToken a then m
  else
    let callerID := TrimSpace (CallerID a) in
    if bool_decide (callerID = "") then m
    else
      let m := pruneInvalidDirectLocked now m in
      let m := if (maxInvalidDirectTokenKeys <=? size m)%nat then evictOldestInvalidDirectLocked iter m else m in
      <[callerID := now]> m.

(** ** When tokens were refreshed ([r.tokenRefreshedAt], under [r.mu]) *)

(** The value in the configuration, six hours by default. *)
Definition RuntimeTokenRefreshIntervalHours (configured : Z) : Z := if 0 <? configured then configured else 6.

(** [time.Duration(intervalHours) * time.Hour] *)
Definition hours (n : Z) : Z := i64 (n * (3600 * second)).

Definition shouldForceRefresh (configured : Z) (accountID : string) (now : Z) (m : gmap string Z) : gmap string Z * bool :=
  if bool_decide (TrimSpace accountID = "") then (m, false)
  else
    let intervalHours := RuntimeTokenRefreshIntervalHours configured in
    if intervalHours <=? 0 then (m, false)
    else match m !! accountID with
         | None => (<[accountID := now]> m, false)
         | Some last => if timeIsZero last then (<[accountID := now]> m, false)
                        else (m, hours intervalHours <=? timeSub now last)
         end.

Definition markTokenRefreshedNow (accountID : string) (now : Z) (m : gmap string Z) : gmap string Z :=
  if bool_decide (TrimSpace accountID = "") then m else <[accountID := now]> m.

Definition clearTokenRefreshMark (accountID : string) (m : gmap string Z) : gmap string Z :=
  if bool_decide (TrimSpace accountID = "") then m else delete accountID m.

(** ** The calls, and the world that answers them *)

Inductive event :=
| EAcquire (preferred : bool) (target : string) (exclude : gset string) (got : option Account)
| ERelease (id : string)
| ELogin (acc : Account)
| EMark (id : string) (state : HealthState) (until : Z) (reason : string)
| EClearHealth (id : string)
| EUpdateToken (id token : string) (failed : option authError)
| EClearCooldown (id : string)
| ESetCooldown (id state : string) (until : Z)
| ESetDisabled (id reason : string)
| ERefreshCheck (id : string) (force : bool)
| EMarkRefreshed (id : string)
| EClearRefresh (id : string)
| ELock (key : string)
| EUnlock (key : string)
| ELookup (key : string) (bound : string)
| EBind (key id : string).

Definition history : Type := list event.
Definition M : Type -> Type := Traced event.

Record World := {
  storeAt : history -> Store;
  poolAt : history -> Pool;
  clockAt : history -> nat -> Z;
  (** The acquisition ends without an attempt that succeeds. *)
  gaveUp : history -> bool;
  loginReply : history -> Account -> result authError string;
  (** The writes of [UpdateAccountToken] to the database and the file. *)
  persistReply : history -> option authError;
  configuredHours : history -> Z;
  refreshedTable : history -> gmap string Z;
  invalidTable : history -> gmap string Z
}.

Section Operations.
Context (w : World).
Context (Unmarshal : list N -> option (list (string * json))) (Decode : list N -> option keyJson).
Context (getenv : string -> string).

Definition now (h : history) : Z := clockAt w h 0.

(** What [Pool.AcquireWait] and [Pool.AcquireWaitPreferred] return: the answer of the last
    attempt in the critical section, nothing when the loop is left otherwise. *)
Definition AcquireWait (target : string) (exclude : gset string) : M (option Account) :=
  note (fun h => if gaveUp w h then None else (acquireLocked (storeAt w h) (clockAt w h) target exclude (poolAt w h)).2)
       (EAcquire false target exclude).
Definition AcquireWaitPreferred (target : string) (exclude : gset string) : M (option Account) :=
  note (fun h => if gaveUp w h then None else (acquirePreferredLocked (storeAt w h) (clockAt w h) target exclude (poolAt w h)).2)
       (EAcquire true target exclude).

Definition updateAccountToken (id token : string) : M (option authError) :=
  note (fun h => match UpdateAccountToken (storeAt w h) id token with
                 | None => Some (ErrOther "account not found" None)
                 | Some _ => persistReply w h
                 end) (EUpdateToken id token).

(** ** Health *)

Definition resolvedAccountCooldownUntil (state : HealthState) (requested t : Z) : Z :=
  if negb (timeIsZero requested) then requested
  else match state with
       | HealthTemporarilyMuted => t + 7 * 24 * 3600 * second
       | HealthRateLimited => t + 60 * second
       | _ => zeroTime
       end.

Definition persistAccountCooldown (accountID : string) (state : HealthState) (until : Z) : M unit :=
  emit (ESetCooldown accountID (healthStateName state) until).

Definition persistAutomaticAccountDisable (accountID reason : string) : M unit :=
  let* current := look (fun h => FindAccount (storeAt w h) accountID) in
  match current with
  | Some a => if Disabled a && bool_decide (DisabledReason a = reason) then ret tt else emit (ESetDisabled accountID reason)
  | None => emit (ESetDisabled accountID reason)
  end.

(** The branch of a cooldown: the pool may hold a later one than the reported, and that
    one is persisted. *)
Definition recordCooldown (accountID : string) (r : HealthReport) : M unit :=
  let* until := look (fun h => resolvedAccountCooldownUntil (hState r) (hUntil r) (now h)) in
  let* _ := emit (EMark accountID (hState r) until (hText r)) in
  let* until := look (fun h => match (AccountHealth accountID (now h) (poolAt w h)).2 with
                               | Some current => if bool_decide (State current = hState r) then Until current else until
                               | None => until
                               end) in
  persistAccountCooldown accountID (hState r) until.

Definition recordAccountHealth (accountID : string) (e : authError) : M unit :=
  if bool_decide (accountID = "") then ret tt
  else match asHealthReport e with
       | None => ret tt
       | Some r =>
           match hState r with
           | HealthRateLimited | HealthTemporarilyMuted => recordCooldown accountID r
           | HealthInvalidCredentials =>
               let* _ := emit (EMark accountID HealthInvalidCredentials zeroTime (hText r)) in
               persistAutomaticAccountDisable accountID AccountDisabledInvalidCredentials
           | HealthPermanentlyBanned =>
               let* _ := emit (EMark accountID HealthPermanentlyBanned zeroTime (hText r)) in
               persistAutomaticAccountDisable accountID AccountDisabledUpstreamBanned
           | _ => ret tt
           end
       end.

Definition MarkAccountHealth : string -> authError -> M unit := recordAccountHealth.

(** ** Tokens *)

Definition setTokens (a : RequestAuth) (accountToken deepSeekToken : string) : RequestAuth :=
  {| UseConfigToken := UseConfigToken a; DeepSeekToken := deepSeekToken; CallerID := CallerID a; AccountID := AccountID a;
     AuthAccount := withToken (AuthAccount a) accountToken; TriedAccounts := TriedAccounts a; AuthSessionKey := AuthSessionKey a |}.

(** The request after the call, and the error. *)
Definition loginAndPersist (a : RequestAuth) : M (RequestAuth * option authError) :=
  let* r := perform (ELogin (AuthAccount a)) (fun h => loginReply w h (AuthAccount a)) in
  match r with
  | Err e => let* _ := recordAccountHealth (AccountID a) e in ret (a, Some e)
  | Ok token =>
      let a := setTokens a token token in
      let* _ := emit (EMarkRefreshed (AccountID a)) in
      let* _ := emit (EClearHealth (AccountID a)) in
      let* r := updateAccountToken (AccountID a) token in
      match r with
      | Some e => ret (a, Some e)
      | None => let* _ := emit (EClearCooldown (AccountID a)) in ret (a, None)
      end
  end.

(** The critical section of [shouldForceRefresh] on the table as it is then. *)
Definition forceRefresh (accountID : string) : M bool :=
  note (fun h => (shouldForceRefresh (configuredHours w h) accountID (now h) (refreshedTable w h)).2) (ERefreshCheck accountID).

Definition ensureManagedToken (a : RequestAuth) : M (RequestAuth * option authError) :=
  if bool_decide (TrimSpace (Token (AuthAccount a)) = "") then loginAndPersist a
  else
    let* force := forceRefresh (AccountID a) in
    if force then loginAndPersist a else ret (setTokens a (Token (AuthAccount a)) (Token (AuthAccount a)), None).

Definition RefreshToken (a : RequestAuth) : M (RequestAuth * bool) :=
  if negb (UseConfigToken a) || bool_decide (AccountID a = "") then ret (a, false)
  else if bool_decide (TrimSpace (Password (AuthAccount a)) = "") then
    let report := {| hState := HealthInvalidCredentials; hUntil := zeroTime;
                     hText := "stored token was rejected and no password is available for refresh" |} in
    let* _ := recordAccountHealth (AccountID a) (ErrOther (hText report) (Some report)) in
    ret (a, false)
  else
    let* _ := updateAccountToken (AccountID a) "" in
    let* r := loginAndPersist (setTokens a "" (DeepSeekToken a)) in
    ret (r.1, bool_decide (r.2 = None)).

Definition MarkTokenInvalid (a : RequestAuth) : M RequestAuth :=
  if negb (UseConfigToken a) || bool_decide (AccountID a = "") then ret a
  else
    let* _ := emit (EClearRefresh (AccountID a)) in
    let* _ := updateAccountToken (AccountID a) "" in
    ret (setTokens a "" "").

(** ** Leases *)

Definition Release (a : RequestAuth) : M unit :=
  if negb (UseConfigToken a) || bool_decide (AccountID a = "") then ret tt else emit (ERelease (AccountID a)).

Definition leaseAuth (callerID sessionKey : string) (acc : Account) (tried : gset string) : RequestAuth :=
  {| UseConfigToken := true; DeepSeekToken := ""; CallerID := callerID; AccountID := Identifier acc; AuthAccount := acc;
     TriedAccounts := tried; AuthSessionKey := sessionKey |}.

Definition orErr (lastEnsureErr : option authError) : authError := default ErrNoAccount lastEnsureErr.

(** [None]: out of fuel. *)
Fixpoint acquireManagedFrom (fuel : nat) (callerID target : string) (allowOverflow : bool) (tried : gset string)
  (lastEnsureErr : option authError) : M (option (result authError RequestAuth)) :=
  match fuel with
  | O => ret None
  | S fuel =>
      let* configured := look (fun h => length (Accounts (storeAt w h))) in
      if (bool_decide (target = "") || allowOverflow) && (configured <=? size tried)%nat then ret (Some (Err (orErr lastEnsureErr)))
      else
        let* got := (if allowOverflow then AcquireWaitPreferred target tried else AcquireWait target tried) in
        match got with
        | None => ret (Some (Err (orErr lastEnsureErr)))
        | Some acc =>
            let* r := ensureManagedToken (leaseAuth callerID "" acc tried) in
            match r with
            | (a, None) => ret (Some (Ok a))
            | (a, Some e) =>
                let* _ := emit (ERelease (AccountID a)) in
                if negb (bool_decide (target = "")) && negb allowOverflow then ret (Some (Err e))
                else acquireManagedFrom fuel callerID target allowOverflow ({[AccountID a]} ∪ tried) (Some e)
            end
        end
  end.

Definition acquireManagedRequestAuth (fuel : nat) (callerID target : string) (allowOverflow : bool)
  : M (option (result authError RequestAuth)) := acquireManagedFrom fuel callerID target allowOverflow ∅ None.

Definition withTried (a : RequestAuth) (tried : gset string) : RequestAuth :=
  {| UseConfigToken := UseConfigToken a; DeepSeekToken := DeepSeekToken a; CallerID := CallerID a; AccountID := AccountID a;
     AuthAccount := AuthAccount a; TriedAccounts := tried; AuthSessionKey := AuthSessionKey a |}.
Definition withAccount (a : RequestAuth) (acc : Account) : RequestAuth :=
  {| UseConfigToken := UseConfigToken a; DeepSeekToken := DeepSeekToken a; CallerID := CallerID a; AccountID := Identifier acc;
     AuthAccount := acc; TriedAccounts := TriedAccounts a; AuthSessionKey := AuthSessionKey a |}.

Definition tryHeld (a : RequestAuth) : RequestAuth := withTried a ({[AccountID a]} ∪ TriedAccounts a).

Definition bindSessionAffinity (a : RequestAuth) : M unit :=
  if bool_decide (AuthSessionKey a = "") || bool_decide (AccountID a = "") then ret tt else emit (EBind (AuthSessionKey a) (AccountID a)).

Fixpoint switchFrom (fuel : nat) (a : RequestAuth) : M (option (RequestAuth * bool)) :=
  match fuel with
  | O => ret None
  | S fuel =>
      let* got := AcquireWait "" (TriedAccounts a) in
      match got with
      | None => ret (Some (a, false))
      | Some acc =>
          let* r := ensureManagedToken (withAccount a acc) in
          match r with
          | (a, None) => let* _ := bindSessionAffinity a in ret (Some (a, true))
          | (a, Some _) => let* _ := emit (ERelease (AccountID a)) in switchFrom fuel (tryHeld a)
          end
      end
  end.

Definition SwitchAccount (fuel : nat) (a : RequestAuth) : M (option (RequestAuth * bool)) :=
  if negb (UseConfigToken a) then ret (Some (a, false))
  else if bool_decide (AccountID a = "") then switchFrom fuel a
  else let* _ := emit (ERelease (AccountID a)) in switchFrom fuel (tryHeld a).

(** ** Who may come in *)

Definition directAuth (token callerID sessionKey : string) : RequestAuth :=
  {| UseConfigToken := false; DeepSeekToken := token; CallerID := callerID; AccountID := ""; AuthAccount := zeroAccount;
     TriedAccounts := ∅; AuthSessionKey := sessionKey |}.

Definition blockedNow (callerID : string) : M bool :=
  look (fun h => (directTokenBlocked callerID (now h) (invalidTable w h)).2).

Definition ifDirect (callerKey callerID sessionKey : string) (managed : M (option (result authError RequestAuth)))
  : M (option (result authError RequestAuth)) :=
  let* configured := look (fun h => HasAPIKey (storeAt w h) callerKey) in
  if configured then managed
  else let* blocked := blockedNow callerID in
       ret (Some (if blocked then Err ErrInvalidDirectToken else Ok (directAuth callerKey callerID sessionKey))).

Definition targetOf (req : HttpRequest) : string := requestHeader req TargetAccountHeader [LegacyTargetAccountHeader].

Definition Determine (fuel : nat) (req : HttpRequest) : M (option (result authError RequestAuth)) :=
  let callerKey := extractCallerToken getenv req in
  if bool_decide (callerKey = "") then ret (Some (Err ErrUnauthorized))
  else
    let callerID := callerTokenID callerKey in
    ifDirect callerKey callerID "" (acquireManagedRequestAuth fuel callerID (targetOf req) false).

Definition withSessionKey (a : RequestAuth) (key : string) : RequestAuth :=
  {| UseConfigToken := UseConfigToken a; DeepSeekToken := DeepSeekToken a; CallerID := CallerID a; AccountID := AccountID a;
     AuthAccount := AuthAccount a; TriedAccounts := TriedAccounts a; AuthSessionKey := key |}.

(** The binding the session has, while its lock is held. *)
Definition boundAccount (sessionKey target : string) : M string :=
  if bool_decide (sessionKey = "") || negb (bool_decide (target = "")) then ret target
  else note (fun h => (Lookup (affinity (poolAt w h)) (now h) (clockAt w h 1) sessionKey).2) (ELookup sessionKey).

(** What is done between taking the lock of the session and giving it back. *)
Definition acquireForSession (fuel : nat) (callerID sessionKey target : string) (bodyLen : nat)
  : M (option (result authError RequestAuth)) :=
  let* bound := (if (0 <? bodyLen)%nat then boundAccount sessionKey target else ret target) in
  let* r := acquireManagedRequestAuth fuel callerID bound (negb (bool_decide (sessionKey = "")) && bool_decide (target = "")) in
  match r with
  | Some (Ok a) =>
      let a := withSessionKey a sessionKey in
      let* _ := bindSessionAffinity a in
      ret (Some (Ok a))
  | r => ret r
  end.

Definition determineWithSessionKey (fuel : nat) (req : HttpRequest) (inheritedSessionKey : string)
  : M (option (result authError RequestAuth)) :=
  let callerKey := extractCallerToken getenv req in
  if bool_decide (callerKey = "") then ret (Some (Err ErrUnauthorized))
  else
    let callerID := callerTokenID callerKey in
    let sessionKey :=
      if bool_decide (inheritedSessionKey = "") && (0 <? length (Body req))%nat
      then sessionKeyFromRequest Unmarshal Decode req (CallerHash callerKey) (Body req) else inheritedSessionKey in
    ifDirect callerKey callerID sessionKey
      (if (0 <? length (Body req))%nat && negb (bool_decide (sessionKey = "")) then
         let* _ := emit (ELock sessionKey) in
         let* r := acquireForSession fuel callerID sessionKey (targetOf req) (length (Body req)) in
         let* _ := emit (EUnlock sessionKey) in
         ret r
       else acquireForSession fuel callerID sessionKey (targetOf req) (length (Body req))).

Definition DetermineWithSession (fuel : nat) (req : HttpRequest) := determineWithSessionKey fuel req "".
Definition DetermineWithSessionKey (fuel : nat) (req : HttpRequest) (inherited : string) :=
  determineWithSessionKey fuel req (TrimSpace inherited).

(** The caller without an account: the token is left empty for a configured key. *)
Definition DetermineCaller (req : HttpRequest) : M (option (result authError RequestAuth)) :=
  let callerKey := extractCallerToken getenv req in
  if bool_decide (callerKey = "") then ret (Some (Err ErrUnauthorized))
  else
    let callerID := callerTokenID callerKey in
    ifDirect callerKey callerID "" (ret (Some (Ok (directAuth "" callerID "")))).
End Operations.

(** ** Lemmas: the ledger *)

Section Ledger.
Context (w : World).

(** The name under which the pool counts a slot it hands out after [h]: the target as the caller
    wrote it, or else the name in the queue, which is the account's identifier ([lw_queue]). *)
Definition countedUnder (h : history) (preferred : bool) (target : string) (exclude : gset string) (acc : Account) : string :=
  if negb (bool_decide (target = "")) &&
     (negb preferred || bool_decide (is_Some (acquireLocked (storeAt w h) (clockAt w h) target exclude (poolAt w h)).2))
  then target else Identifier acc.

(** What an event after [h] adds to the slots this request holds under a name. *)
Definition delta (h : history) (id : string) (e : event) : Z :=
  match e with
  | EAcquire preferred target exclude (Some acc) => if bool_decide (countedUnder h preferred target exclude acc = id) then 1 else 0
  | ERelease x => if bool_decide (x = id) then -1 else 0
  | _ => 0
  end.

Fixpoint heldFrom (before : history) (id : string) (h : history) : Z :=
  match h with [] => 0 | e :: h => delta before id e + heldFrom (before ++ [e]) id h end.
Definition held (id : string) (h : history) : Z := heldFrom [] id h.

Definition isLeaseEvent (e : event) : bool :=
  match e with EAcquire _ _ _ _ | ERelease _ => true | _ => false end.

Definition one (x id : string) : Z := if bool_decide (x = id) then 1 else 0.

Lemma held_snoc (id : string) (h : history) (e : event) : held id (h ++ [e]) = held id h + delta h id e.
Proof.
  unfold held. assert (E : forall before, heldFrom before id (h ++ [e]) = heldFrom before id h + delta (before ++ h) id e); [|exact (E [])].
  induction h as [|x h IH]; intros before; cbn [heldFrom app]; [by rewrite app_nil_r; lia|]. rewrite IH, <- app_assoc. cbn [app]. lia.
Qed.

Lemma held_quiet (id : string) (h : history) (e : event) : isLeaseEvent e = false -> held id (h ++ [e]) = held id h.
Proof. intros He. rewrite held_snoc. destruct e; try done; simpl; lia. Qed.

(** The ledger reads [f]. *)
Definition books (f : string -> Z) (h : history) : Prop := forall id, held id h = f id.

Lemma books_quiet f h e : isLeaseEvent e = false -> books f h -> books f (h ++ [e]).
Proof. intros He H id. by rewrite held_quiet. Qed.

Lemma books_release f h x : books f h -> books (fun id => f id - one x id) (h ++ [ERelease x]).
Proof. intros H id. rewrite held_snoc, H. unfold delta, one. case_bool_decide; lia. Qed.

Lemma books_acquire f h pref tgt ex acc : countedUnder h pref tgt ex acc = Identifier acc -> books f h ->
  books (fun id => f id + one (Identifier acc) id) (h ++ [EAcquire pref tgt ex (Some acc)]).
Proof. intros E H id. rewrite held_snoc, H. unfold delta, one. rewrite E. case_bool_decide; lia. Qed.

Lemma books_nothing f h pref tgt ex : books f h -> books f (h ++ [EAcquire pref tgt ex None]).
Proof. intros H id. rewrite held_snoc, H. simpl. lia. Qed.

Lemma books_ext f g h : (forall id, f id = g id) -> books f h -> books g h.
Proof. intros E H id. by rewrite H, E. Qed.

(** A name that finds an account, whenever it does, is the account's identifier. *)
Definition canonicalName (name : string) : Prop := forall h acc, FindAccount (storeAt w h) name = Some acc -> Identifier acc = name.

Lemma counted_direct h target ex acc : canonicalName target ->
  (acquireLocked (storeAt w h) (clockAt w h) target ex (poolAt w h)).2 = Some acc -> countedUnder h false target ex acc = Identifier acc.
Proof.
  intros Hc H. unfold countedUnder. cbn [negb orb]. case_bool_decide as Ht; [done|]. cbn [negb andb].
  pose proof (acquireLocked_target (storeAt w h) (clockAt w h) target ex (poolAt w h) Ht) as Hp.
  destruct (acquireLocked _ _ _ _ _) as [p' [a|]]; [|done]. destruct Hp as (_ & Hf & _). simpl in H. injection H as <-. symmetry. by eapply Hc.
Qed.

Lemma counted_preferred h target ex acc : canonicalName target ->
  (acquirePreferredLocked (storeAt w h) (clockAt w h) target ex (poolAt w h)).2 = Some acc -> countedUnder h true target ex acc = Identifier acc.
Proof.
  intros Hc H. unfold countedUnder, acquirePreferredLocked in *. cbn [negb orb]. case_bool_decide as Ht; [done|]. cbn [negb andb].
  pose proof (acquireLocked_target (storeAt w h) (clockAt w h) target ex (poolAt w h) Ht) as Hp.
  destruct (acquireLocked _ _ _ _ _) as [p' [a|]]; [|done]. destruct Hp as (_ & Hf & _). simpl in *. injection H as <-. symmetry. by eapply Hc.
Qed.
End Ledger.

Section Facts.
Context (w : World).
Context (Unmarshal : list N -> option (list (string * json))) (Decode : list N -> option keyJson).
Context (getenv : string -> string).

Ltac quietly := repeat keeps_step; try (intros; by apply books_quiet).

Lemma recordHealth_books f id e : keeps (books w f) (recordAccountHealth w id e).
Proof. unfold recordAccountHealth, recordCooldown, persistAccountCooldown, persistAutomaticAccountDisable. quietly. Qed.

Lemma login_books f a : keeps (books w f) (loginAndPersist w a).
Proof. unfold loginAndPersist, updateAccountToken. quietly. apply recordHealth_books. Qed.

Lemma ensure_books f a : keeps (books w f) (ensureManagedToken w a).
Proof. unfold ensureManagedToken, forceRefresh. quietly; apply login_books. Qed.

(** What logging in leaves of a request: its account, whom it is for, and one token. *)
Definition sameLease (a : RequestAuth) (r : RequestAuth * option authError) : Prop :=
  UseConfigToken r.1 = UseConfigToken a /\ AccountID r.1 = AccountID a /\ CallerID r.1 = CallerID a /\
  TriedAccounts r.1 = TriedAccounts a /\ AuthSessionKey r.1 = AuthSessionKey a /\
  Identifier (AuthAccount r.1) = Identifier (AuthAccount a) /\
  (r.2 = None -> DeepSeekToken r.1 = Token (AuthAccount r.1)).

Lemma sameLease_set a t e : sameLease a (setTokens a t t, e).
Proof. repeat split. apply Identifier_withToken. Qed.

Lemma login_yields a : yields (loginAndPersist w a) (sameLease a).
Proof.
  unfold loginAndPersist. eapply yields_bind; [apply yields_any|]. intros [token|e] _.
  - do 2 (eapply yields_bind; [apply yields_any|intros [] _]). eapply yields_bind; [apply yields_any|]. intros [e|] _.
    + apply yields_ret, sameLease_set.
    + eapply yields_bind; [apply yields_any|intros [] _]. apply yields_ret, sameLease_set.
  - eapply yields_bind; [apply yields_any|intros [] _]. by apply yields_ret.
Qed.

Lemma ensure_yields a : yields (ensureManagedToken w a) (sameLease a).
Proof.
  unfold ensureManagedToken. destruct (bool_decide _); [apply login_yields|].
  eapply yields_bind; [apply yields_any|]. intros [] _; [apply login_yields|]. apply yields_ret, sameLease_set.
Qed.

(** A lease as the handlers get it. *)
Record leaseOk (callerID key : string) (a : RequestAuth) : Prop := {
  lo_managed : UseConfigToken a = true;
  lo_caller : CallerID a = callerID;
  lo_account : AccountID a = Identifier (AuthAccount a);
  lo_token : DeepSeekToken a = Token (AuthAccount a);
  lo_key : AuthSessionKey a = key
}.

Lemma leaseOk_ensure callerID key acc tried a :
  sameLease (leaseAuth callerID key acc tried) (a, None) -> leaseOk callerID key a.
Proof. intros (H1 & H2 & H3 & _ & H5 & H6 & H7). simpl in *. split; [done|done|congruence|by apply H7|done]. Qed.

(** What an acquisition leaves of the ledger. *)
Definition leased (f : string -> Z) (callerID key : string) (r : option (result authError RequestAuth)) (h : history) : Prop :=
  match r with
  | Some (Ok a) => books w (fun id => f id + one (AccountID a) id) h /\ leaseOk callerID key a
  | _ => books w f h
  end.

Lemma acquire_books fuel f callerID target ovf tried last : canonicalName w target ->
  triple (books w f) (acquireManagedFrom w fuel callerID target ovf tried last) (leased f callerID "").
Proof.
  intros Hc. revert tried last. induction fuel as [|fuel IH]; intros tried last; cbn [acquireManagedFrom]; [by apply triple_ret|].
  eapply triple_bind; [by apply triple_look with (Q := fun _ => books w f)|]. intros n. destruct (_ && _); [by apply triple_ret|].
  eapply triple_bind with (R := fun got => books w (fun id => f id + match got with Some acc => one (Identifier acc) id | None => 0 end)).
  { destruct ovf; apply triple_note; intros h Hh; destruct (gaveUp w h);
      try (eapply books_ext; [|by apply books_nothing]; intros; simpl; lia).
    - destruct (acquirePreferredLocked _ _ _ _ _).2 as [acc|] eqn:E; [apply books_acquire; [by apply counted_preferred|done]|].
      eapply books_ext; [|by apply books_nothing]; intros; simpl; lia.
    - destruct (acquireLocked _ _ _ _ _).2 as [acc|] eqn:E; [apply books_acquire; [by apply counted_direct|done]|].
      eapply books_ext; [|by apply books_nothing]; intros; simpl; lia. }
  intros [acc|]; [|apply triple_ret; intros h; apply books_ext; intros; lia].
  eapply triple_bind; [apply triple_value; [apply ensure_books|apply ensure_yields]|]. intros [a [e|]].
  - eapply triple_bind with (R := fun _ => books w f).
    { apply triple_emit. intros h [Hh (_ & H2 & _)]. simpl in H2. eapply books_ext; [|by apply books_release].
      intros x. simpl. rewrite H2. lia. }
    intros ?. destruct (_ && _); [by apply triple_ret|]. apply IH.
  - apply triple_ret. intros h [Hh Hv]. split; [|by eapply leaseOk_ensure].
    destruct Hv as (_ & H2 & _). simpl in H2. by rewrite H2.
Qed.

Lemma bind_books f a : keeps (books w f) (bindSessionAffinity a).
Proof. unfold bindSessionAffinity. quietly. Qed.

(** What a switch leaves of the ledger, the lease before it given back. *)
Definition switched (f : string -> Z) (r : option (RequestAuth * bool)) (h : history) : Prop :=
  match r with
  | Some (a, true) => books w (fun id => f id + one (AccountID a) id) h /\ DeepSeekToken a = Token (AuthAccount a) /\ AccountID a = Identifier (AuthAccount a)
  | _ => books w f h
  end.

Lemma switchFrom_books fuel f a : triple (books w f) (switchFrom w fuel a) (switched f).
Proof.
  revert a. induction fuel as [|fuel IH]; intros a; cbn [switchFrom]; [by apply triple_ret|].
  eapply triple_bind with (R := fun got => books w (fun id => f id + match got with Some acc => one (Identifier acc) id | None => 0 end)).
  { apply triple_note. intros h Hh. destruct (if gaveUp w h then _ else _) as [acc|]; [by apply books_acquire|].
    eapply books_ext; [|by apply books_nothing]. intros. simpl. lia. }
  intros [acc|]; [|apply triple_ret; intros h; apply books_ext; intros; lia].
  eapply triple_bind; [apply triple_value; [apply ensure_books|apply ensure_yields]|]. intros [a' [e|]].
  - eapply triple_bind with (R := fun _ => books w f); [|intros ?; apply IH].
    apply triple_emit. intros h [Hh (_ & H2 & _)]. simpl in H2. eapply books_ext; [|by apply books_release].
    intros x. simpl. rewrite H2. lia.
  - eapply triple_bind with (R := fun _ h => switched f (Some (a', true)) h); [|intros ?; by apply triple_ret].
    intros h [Hh (_ & H2 & _ & _ & _ & H6 & H7)]. simpl in *. rewrite <- H2 in Hh. split; [by apply bind_books|]. split; [by apply H7|congruence].
Qed.

Lemma switch_books fuel f a :
  UseConfigToken a = true -> AccountID a <> "" ->
  triple (books w (fun id => f id + one (AccountID a) id)) (SwitchAccount w fuel a) (switched f).
Proof.
  intros H1 H2. unfold SwitchAccount. rewrite H1, bool_decide_eq_false_2 by done. cbn [negb].
  eapply triple_bind with (R := fun _ => books w f); [|intros ?; apply switchFrom_books].
  apply triple_emit. intros h Hh. eapply books_ext; [|by apply books_release]. intros; simpl; lia.
Qed.
End Facts.

(** ** Lemmas: what the pool hands out *)

Lemma FindAccount_elem (s : Store) (id : string) (acc : Account) : FindAccount s id = Some acc -> acc ∈ Accounts s.
Proof. unfold FindAccount. destruct (findAccountIndexLocked _ _); [|done]. by intros ?%list_elem_of_lookup_2. Qed.

Lemma tryAcquireFrom_found st clk ex i ids p acc :
  (tryAcquireFrom st clk ex i ids p).2 = Some acc -> exists id, FindAccount st id = Some acc.
Proof.
  revert i p. induction ids as [|id ids IH]; intros i p; [done|]. cbn [tryAcquireFrom]. case_bool_decide; [apply IH|].
  destruct (canAcquireIDLocked st (clk i) id p) as [p1 []]; cbn [negb]; [|apply IH].
  destruct (FindAccount st id) eqn:E; [|apply IH]. cbn [snd]. intros [= <-]. by exists id.
Qed.

Lemma acquireLocked_found st clk target ex p acc :
  (acquireLocked st clk target ex p).2 = Some acc -> exists id, FindAccount st id = Some acc.
Proof.
  unfold acquireLocked. case_bool_decide; [apply tryAcquireFrom_found|]. case_bool_decide; [done|].
  destruct (canAcquireIDLocked st (clk 0%nat) target p) as [p1 []]; [|done]. cbn [negb].
  destruct (FindAccount st target) eqn:E; [|done]. cbn [snd]. intros [= <-]. by exists target.
Qed.

Lemma acquirePreferred_found st clk target ex p acc :
  (acquirePreferredLocked st clk target ex p).2 = Some acc -> exists id, FindAccount st id = Some acc.
Proof.
  unfold acquirePreferredLocked. case_bool_decide as Hb; [apply tryAcquireFrom_found|].
  pose proof (acquireLocked_found st clk target ex p) as H. destruct (acquireLocked st clk target ex p) as [p1 [a|]]; [|apply tryAcquireFrom_found].
  cbn [snd] in *. intros [= <-]. by apply H.
Qed.

(** A store whose accounts have identifiers, and a pool whose queue is that of [Reset]. *)
Class Lawful (w : World) : Prop := {
  lw_named : forall h a, a ∈ Accounts (storeAt w h) -> Identifier a <> "";
  lw_nodup : forall h, NoDup (queue (poolAt w h));
  lw_queue : forall h id, id ∈ queue (poolAt w h) -> forall acc, FindAccount (storeAt w h) id = Some acc -> Identifier acc = id
}.

Section Handed.
Context (w : World) {lawful : Lawful w}.

Lemma found_named h id acc : FindAccount (storeAt w h) id = Some acc -> Identifier acc <> "".
Proof. intros H%FindAccount_elem. by eapply lw_named. Qed.

Lemma AcquireWait_named target ex : yields (AcquireWait w target ex) (fun got => forall acc, got = Some acc -> Identifier acc <> "").
Proof.
  intros h acc. cbn. destruct (gaveUp w h); [done|]. intros [id H]%acquireLocked_found. by eapply found_named.
Qed.

Lemma AcquireWaitPreferred_named target ex :
  yields (AcquireWaitPreferred w target ex) (fun got => forall acc, got = Some acc -> Identifier acc <> "").
Proof.
  intros h acc. cbn. destruct (gaveUp w h); [done|]. intros [id H]%acquirePreferred_found. by eapply found_named.
Qed.

(** The account handed out is not one of those excluded. *)
Lemma tryAcquire_new h clk ex acc :
  (tryAcquire (storeAt w h) clk ex (poolAt w h)).2 = Some acc -> Identifier acc ∉ ex.
Proof.
  intros H. destruct (tryAcquire_result (storeAt w h) clk ex (poolAt w h) (lw_nodup h)) as [_ Hs].
  destruct (Hs acc H) as (id & _ & _ & Hin & Hex & Hf & _). by rewrite (lw_queue h id Hin acc Hf).
Qed.

Lemma AcquireWait_new ex : yields (AcquireWait w "" ex) (fun got => forall acc, got = Some acc -> Identifier acc ∉ ex).
Proof. intros h acc. cbn. destruct (gaveUp w h); [done|]. apply tryAcquire_new. Qed.

Lemma AcquireWaitPreferred_new target ex :
  (forall h acc, FindAccount (storeAt w h) target = Some acc -> Identifier acc = target) ->
  yields (AcquireWaitPreferred w target ex) (fun got => forall acc, got = Some acc -> Identifier acc ∉ ex).
Proof.
  intros Hc h acc. cbn. destruct (gaveUp w h); [done|]. unfold acquirePreferredLocked. case_bool_decide as Hne; [apply tryAcquire_new|].
  pose proof (acquireLocked_target (storeAt w h) (clockAt w h) target ex (poolAt w h) Hne) as Ht.
  destruct (acquireLocked _ _ _ _ _) as [p' [a|]].
  - destruct Ht as (Hx & Hf & _). cbn [snd]. intros [= <-]. by rewrite (Hc h a Hf).
  - destruct Ht as (_ & hh & ->). cbn [snd]. intros H.
    destruct (tryAcquire_result (storeAt w h) (fun i => clockAt w h (S i)) ex (setHealth hh (poolAt w h)) (lw_nodup h)) as [_ Hs].
    destruct (Hs acc H) as (id & _ & _ & Hin & Hex & Hf & _). by rewrite (lw_queue h id Hin acc Hf).
Qed.
End Handed.

(** ** The search for an account comes to an end *)

Section Search.
Context (w : World) {lawful : Lawful w}.
(** The identifiers of the accounts that are ever configured. *)
Context (U : gset string) (HU : forall h a, a ∈ Accounts (storeAt w h) -> Identifier a ∈ U).

Lemma AcquireWait_in target ex : yields (AcquireWait w target ex) (fun got => forall acc, got = Some acc -> Identifier acc ∈ U).
Proof.
  intros h acc. cbn. destruct (gaveUp w h); [done|]. intros [id H]%acquireLocked_found. by eapply HU, FindAccount_elem.
Qed.

Lemma AcquireWaitPreferred_in target ex : yields (AcquireWaitPreferred w target ex) (fun got => forall acc, got = Some acc -> Identifier acc ∈ U).
Proof.
  intros h acc. cbn. destruct (gaveUp w h); [done|]. intros [id H]%acquirePreferred_found. by eapply HU, FindAccount_elem.
Qed.

Lemma yields_and {C A} (m : Traced C A) (V W : A -> Prop) : yields m V -> yields m W -> yields m (fun a => V a /\ W a).
Proof. intros HV HW h. by split. Qed.

Lemma tried_grows (id : string) (tried : gset string) : id ∈ U -> (id ∉ tried) -> (size (U ∖ ({[id]} ∪ tried)) < size (U ∖ tried))%nat.
Proof.
  intros H1 H2. apply subset_size. split.
  - intros x. rewrite !elem_of_difference, elem_of_union. tauto.
  - intros Hs. specialize (Hs id). rewrite !elem_of_difference, elem_of_union, elem_of_singleton in Hs. tauto.
Qed.

Definition ends {A} (r : option A) : Prop := r <> None.

Lemma acquire_ends fuel callerID target ovf tried last :
  (ovf = true -> forall h acc, FindAccount (storeAt w h) target = Some acc -> Identifier acc = target) ->
  (size (U ∖ tried) < fuel)%nat -> yields (acquireManagedFrom w fuel callerID target ovf tried last) ends.
Proof.
  intros Hc. revert tried last. induction fuel as [|fuel IH]; intros tried last Hf; [lia|]. cbn [acquireManagedFrom].
  eapply yields_bind; [apply yields_any|]. intros n _. destruct (_ && _); [by apply yields_ret|].
  destruct (bool_decide (target = "")) eqn:Ht, ovf; cbn [negb andb].
  1, 2, 3: eapply yields_bind;
    [apply yields_and; [first [apply AcquireWaitPreferred_in|apply AcquireWait_in]|
                        first [by apply AcquireWaitPreferred_new, Hc|apply bool_decide_eq_true in Ht as ->; by apply AcquireWait_new]]|];
    intros [acc|] [Hin Hnew]; [|by apply yields_ret]; specialize (Hin acc eq_refl); specialize (Hnew acc eq_refl);
    eapply yields_bind; [apply ensure_yields|]; intros [a [e|]] (_ & H2 & _); [|by apply yields_ret];
    eapply yields_bind; [apply yields_any|]; intros ? _; simpl in H2; apply IH; rewrite H2;
    pose proof (tried_grows _ _ Hin Hnew); lia.
  eapply yields_bind; [apply yields_any|]. intros [acc|] _; [|by apply yields_ret].
  eapply yields_bind; [apply yields_any|]. intros [a [e|]] _; [|by apply yields_ret].
  eapply yields_bind; [apply yields_any|]. intros ? _. by apply yields_ret.
Qed.

Lemma switchFrom_ends fuel a : (size (U ∖ TriedAccounts a) < fuel)%nat -> yields (switchFrom w fuel a) ends.
Proof.
  revert a. induction fuel as [|fuel IH]; intros a Hf; [lia|]. cbn [switchFrom].
  eapply yields_bind; [apply yields_and; [apply AcquireWait_in|by apply AcquireWait_new]|].
  intros [acc|] [Hin Hnew]; [|by apply yields_ret]. specialize (Hin acc eq_refl). specialize (Hnew acc eq_refl).
  eapply yields_bind; [apply ensure_yields|]. intros [a' [e|]] (_ & H2 & _ & H4 & _).
  - eapply yields_bind; [apply yields_any|]. intros ? _. apply IH. simpl in *. rewrite H2, H4.
    pose proof (tried_grows _ _ Hin Hnew). lia.
  - eapply yields_bind; [apply yields_any|]. intros ? _. by apply yields_ret.
Qed.

(** Looking for an account ends, whatever logs in and whatever fails: an account whose
    login failed is never tried again by the same request, so acquiring one and switching to
    another both return after at most one attempt for every configured account. *)
Theorem account_search_ends callerID target ovf a h :
  (ovf = true -> forall h acc, FindAccount (storeAt w h) target = Some acc -> Identifier acc = target) ->
  (exists r, (acquireManagedRequestAuth w (S (size U)) callerID target ovf h).1 = Some r) /\
  (exists r, (SwitchAccount w (S (size U)) a h).1 = Some r).
Proof.
  intros Hc. assert (Hs : forall X : gset string, (size (U ∖ X) < S (size U))%nat).
  { intros X. pose proof (subseteq_size (U ∖ X) U ltac:(intros x; rewrite elem_of_difference; tauto)). lia. }
  assert (E : forall A (m : M (option A)), yields m ends -> exists r, (m h).1 = Some r).
  { intros A m Hm. specialize (Hm h). destruct (m h).1 as [r|]; [by exists r|]. by destruct Hm. }
  split; apply E; [by apply acquire_ends|]. unfold SwitchAccount. destruct (negb _); [by apply yields_ret|].
  destruct (bool_decide _); [by apply switchFrom_ends|].
  eapply yields_bind; [apply yields_any|]. intros ? _. by apply switchFrom_ends.
Qed.
End Search.

(** ** The lease of a request, from beginning to end *)

(** What the handlers and the upstream client do with a request they were given. *)
Inductive action := DoSwitch | DoRefresh | DoInvalidate | DoHealth (e : authError).

Inductive outcome := Refused (e : authError) | Finished (a : RequestAuth) (switchFailed : bool).

Section Lease.
Context (w : World) {lawful : Lawful w}.
Context (Unmarshal : list N -> option (list (string * json))) (Decode : list N -> option keyJson).
Context (getenv : string -> string).

(** The actions in order, up to a switch that fails. *)
Fixpoint actions (fuel : nat) (acts : list action) (a : RequestAuth) : M (option (RequestAuth * bool)) :=
  match acts with
  | [] => ret (Some (a, true))
  | DoSwitch :: acts =>
      let* r := SwitchAccount w fuel a in
      match r with
      | Some (a, true) => actions fuel acts a
      | r => ret r
      end
  | DoRefresh :: acts => let* r := RefreshToken w a in actions fuel acts r.1
  | DoInvalidate :: acts => let* a := MarkTokenInvalid w a in actions fuel acts a
  | DoHealth e :: acts => let* _ := MarkAccountHealth w (AccountID a) e in actions fuel acts a
  end.

(** [a, err := Resolver.DetermineWithSession(...); defer Resolver.Release(a)] around them. *)
Definition serve (fuel : nat) (req : HttpRequest) (inherited : string) (acts : list action) : M (option outcome) :=
  let* r := DetermineWithSessionKey w Unmarshal Decode getenv fuel req inherited in
  match r with
  | None => ret None
  | Some (Err e) => ret (Some (Refused e))
  | Some (Ok a) =>
      let* r := actions fuel acts a in
      match r with
      | None => ret None
      | Some (a, ok) => let* _ := Release a in ret (Some (Finished a (negb ok)))
      end
  end.

(** A request in the hands of a handler: a managed one has its account's slot. *)
Definition atWork (f : string -> Z) (a : RequestAuth) (h : history) : Prop :=
  if UseConfigToken a then books w (fun id => f id + one (AccountID a) id) h /\ AccountID a <> "" else books w f h.

Lemma acquire_named fuel callerID target ovf tried last :
  yields (acquireManagedFrom w fuel callerID target ovf tried last) (fun r => forall a, r = Some (Ok a) -> AccountID a <> "").
Proof.
  revert tried last. induction fuel as [|fuel IH]; intros tried last; cbn [acquireManagedFrom]; [by apply yields_ret|].
  eapply yields_bind; [apply yields_any|]. intros n _. destruct (_ && _); [by apply yields_ret|].
  eapply yields_bind with (V := fun got => forall acc, got = Some acc -> Identifier acc <> "").
  { destruct ovf; [by apply AcquireWaitPreferred_named|by apply AcquireWait_named]. }
  intros [acc|] Hn; [|by apply yields_ret]. eapply yields_bind; [apply ensure_yields|]. intros [a [e|]] (_ & H2 & _).
  - eapply yields_bind; [apply yields_any|]. intros ? _. destruct (_ && _); [by apply yields_ret|]. apply IH.
  - apply yields_ret. intros a' [= <-]. simpl in H2. rewrite H2. by apply Hn.
Qed.

(** What affinity remembers are identifiers. *)
Definition boundNames : Prop := forall h key, canonicalName w (Lookup (affinity (poolAt w h)) (now w h) (clockAt w h 1) key).2.

Lemma boundAccount_canonical key target : boundNames -> canonicalName w target -> yields (boundAccount w key target) (canonicalName w).
Proof. intros Hb Ht. unfold boundAccount. destruct (_ || _); [by apply yields_ret|]. intros h. apply Hb. Qed.

Lemma acquireFor_books f fuel callerID key target n : boundNames -> canonicalName w target ->
  triple (books w f) (acquireForSession w fuel callerID key target n)
    (fun r h => match r with Some (Ok a) => atWork f a h | _ => books w f h end).
Proof.
  intros Hb Ht. unfold acquireForSession. eapply triple_bind with (R := fun name h => books w f h /\ canonicalName w name).
  { apply triple_value; destruct (0 <? n)%nat; [|by apply triple_ret|by apply boundAccount_canonical|by apply yields_ret].
    unfold boundAccount. destruct (_ || _); [by apply triple_ret|]. apply triple_note. intros h. by apply books_quiet. }
  intros target'.
  match goal with |- triple _ ?m ?Q => enough (canonicalName w target' -> triple (books w f) m Q) as T by (intros h0 [Hh0 Hc]; by apply T) end. intros Hc.
  eapply triple_bind.
  { eapply triple_value; [by apply acquire_books|apply acquire_named]. }
  intros [[a|e]|]; [|apply triple_ret; by intros h [? _]..].
  eapply triple_bind with (R := fun _ => atWork f (withSessionKey a key)); [|intros ?; by apply triple_ret].
  intros h [[Hk Hl] Hn]. specialize (Hn a eq_refl). unfold atWork. simpl. rewrite (lo_managed _ _ _ Hl). split; [|done].
  by apply bind_books.
Qed.

Lemma ifDirect_books f callerKey callerID key m :
  triple (books w f) m (fun r h => match r with Some (Ok a) => atWork f a h | _ => books w f h end) ->
  triple (books w f) (ifDirect w callerKey callerID key m) (fun r h => match r with Some (Ok a) => atWork f a h | _ => books w f h end).
Proof.
  intros Hm. unfold ifDirect. eapply triple_bind; [by apply triple_look with (Q := fun _ => books w f)|].
  intros []; [done|]. eapply triple_bind; [by apply triple_look with (Q := fun _ => books w f)|]. intros []; by apply triple_ret.
Qed.

Lemma determine_books f fuel req inherited : boundNames -> canonicalName w (targetOf req) ->
  triple (books w f) (determineWithSessionKey w Unmarshal Decode getenv fuel req inherited)
    (fun r h => match r with Some (Ok a) => atWork f a h | _ => books w f h end).
Proof.
  intros Hb Ht. unfold determineWithSessionKey. case_bool_decide; [by apply triple_ret|]. apply ifDirect_books.
  destruct (_ && negb _); [|by apply acquireFor_books].
  eapply triple_bind; [apply triple_emit with (Q := fun _ => books w f); intros h; by apply books_quiet|]. intros u.
  eapply triple_bind; [by apply acquireFor_books|]. intros r.
  eapply triple_bind with (R := fun _ h => match r with Some (Ok a) => atWork f a h | _ => books w f h end);
    [|intros ?; by apply triple_ret].
  apply triple_emit. intros h. destruct r as [[a|e]|]; try by apply books_quiet.
  unfold atWork. destruct (UseConfigToken a); [|by apply books_quiet]. intros [? ?]. split; [by apply books_quiet|done].
Qed.

Lemma switchFrom_named fuel a : AccountID a <> "" ->
  yields (switchFrom w fuel a) (fun r => forall a' ok, r = Some (a', ok) -> AccountID a' <> "" /\ UseConfigToken a' = UseConfigToken a).
Proof.
  revert a. induction fuel as [|fuel IH]; intros a Hn; cbn [switchFrom]; [by apply yields_ret|].
  eapply yields_bind; [by apply AcquireWait_named|]. intros [acc|] Ha; [|apply yields_ret; by intros a' ok [= <- <-]].
  specialize (Ha acc eq_refl). eapply yields_bind; [apply ensure_yields|]. intros [a1 [e|]] (H1 & H2 & _); simpl in *.
  - eapply yields_bind; [apply yields_any|]. intros ? _ h a' ok E.
    assert (Hn1 : AccountID (tryHeld a1) <> "") by (simpl; congruence). destruct (IH (tryHeld a1) Hn1 h a' ok E) as [? E2].
    split; [done|]. rewrite E2. exact H1.
  - eapply yields_bind; [apply yields_any|]. intros ? _. apply yields_ret. intros a' ok [= <- <-]. split; [congruence|done].
Qed.

Lemma SwitchAccount_named fuel a : AccountID a <> "" ->
  yields (SwitchAccount w fuel a) (fun r => forall a' ok, r = Some (a', ok) -> AccountID a' <> "" /\ UseConfigToken a' = UseConfigToken a).
Proof.
  intros Hn. unfold SwitchAccount. destruct (negb _); [apply yields_ret; by intros a' ok [= <- <-]|].
  rewrite bool_decide_eq_false_2 by done. eapply yields_bind; [apply yields_any|]. intros ? _.
  exact (switchFrom_named fuel (tryHeld a) Hn).
Qed.

Lemma refresh_books f a : keeps (books w f) (RefreshToken w a).
Proof.
  unfold RefreshToken, updateAccountToken. repeat keeps_step; try (intros; by apply books_quiet); [apply recordHealth_books|apply login_books].
Qed.

Lemma refresh_yields a : yields (RefreshToken w a) (fun r => UseConfigToken r.1 = UseConfigToken a /\ AccountID r.1 = AccountID a).
Proof.
  unfold RefreshToken. destruct (_ || _); [by apply yields_ret|]. destruct (bool_decide _).
  - eapply yields_bind; [apply yields_any|]. intros ? _. by apply yields_ret.
  - eapply yields_bind; [apply yields_any|]. intros ? _. eapply yields_bind; [apply login_yields|].
    intros r (H1 & H2 & _). by apply yields_ret.
Qed.

Lemma invalidate_books f a : keeps (books w f) (MarkTokenInvalid w a).
Proof. unfold MarkTokenInvalid, updateAccountToken. repeat keeps_step; intros; by apply books_quiet. Qed.

Lemma invalidate_yields a : yields (MarkTokenInvalid w a) (fun a' => UseConfigToken a' = UseConfigToken a /\ AccountID a' = AccountID a).
Proof.
  unfold MarkTokenInvalid. destruct (_ || _); [by apply yields_ret|].
  do 2 (eapply yields_bind; [apply yields_any|]; intros ? _). by apply yields_ret.
Qed.

(** An operation that leaves the ledger and the account alone leaves the request at work. *)
Lemma keeps_atWork {A} f a (m : M A) (g : A -> RequestAuth) :
  (forall f, keeps (books w f) m) -> yields m (fun x => UseConfigToken (g x) = UseConfigToken a /\ AccountID (g x) = AccountID a) ->
  triple (atWork f a) m (fun x => atWork f (g x)).
Proof.
  intros Hk Hy h Hh. destruct (Hy h) as [E1 E2]. unfold atWork in *. rewrite E1, E2.
  destruct (UseConfigToken a); [|by apply Hk]. destruct Hh as [Hb Hn]. split; [by apply Hk|done].
Qed.

Definition afterActions (f : string -> Z) (r : option (RequestAuth * bool)) (h : history) : Prop :=
  match r with
  | None => True
  | Some (a, true) => atWork f a h
  | Some (a, false) => books w f h /\ (UseConfigToken a = true -> AccountID a <> "")
  end.

Lemma switch_atWork f fuel a :
  triple (atWork f a) (SwitchAccount w fuel a) (afterActions f).
Proof.
  intros h Hh. unfold atWork in Hh. destruct (UseConfigToken a) eqn:Eu.
  - destruct Hh as [Hb Hn]. pose proof (switch_books w fuel f a Eu Hn h Hb) as Hs. pose proof (SwitchAccount_named fuel a Hn h) as Hy.
    destruct (SwitchAccount w fuel a h) as [[[a' []]|] h']; simpl in *; [|by split; [|intros _; by eapply Hy]|done].
    destruct Hs as [Hs _]. destruct (Hy a' true eq_refl) as [Hn' Hu]. unfold atWork. by rewrite Hu, Eu.
  - unfold SwitchAccount. rewrite Eu. simpl. by rewrite Eu.
Qed.

Lemma actions_books f fuel acts a : triple (atWork f a) (actions fuel acts a) (afterActions f).
Proof.
  revert a. induction acts as [|[| | |e] acts IH]; intros a; cbn [actions]; [by apply triple_ret|..].
  - eapply triple_bind; [apply switch_atWork|]. intros [[a' []]|]; [apply IH|by apply triple_ret..].
  - eapply triple_bind; [|intros r; apply IH]. apply (keeps_atWork f a _ fst); [intros; apply refresh_books|apply refresh_yields].
  - eapply triple_bind; [|intros r; apply IH]. apply (keeps_atWork f a _ id); [intros; apply invalidate_books|apply invalidate_yields].
  - eapply triple_bind; [|intros r; apply IH].
    apply (keeps_atWork f a _ (fun _ => a)); [intros; apply recordHealth_books|by intros h0].
Qed.

(** *** The search for accounts does not run out *)

Lemma actions_ends (U : gset string) fuel acts a : (forall h a, a ∈ Accounts (storeAt w h) -> Identifier a ∈ U) ->
  (size U < fuel)%nat -> yields (actions fuel acts a) ends.
Proof.
  intros HU Hf. assert (Hs : forall X : gset string, (size (U ∖ X) < fuel)%nat).
  { intros X. pose proof (subseteq_size (U ∖ X) U ltac:(intros x; rewrite elem_of_difference; tauto)). lia. }
  revert a. induction acts as [|[| | |e] acts IH]; intros a; cbn [actions]; [by apply yields_ret|..].
  - eapply yields_bind with (V := ends).
    { unfold SwitchAccount. destruct (negb _); [by apply yields_ret|]. destruct (bool_decide _); [by apply (switchFrom_ends w U HU)|].
      eapply yields_bind; [apply yields_any|]. intros ? _. by apply (switchFrom_ends w U HU). }
    intros [[a' []]|] Hr; [apply IH|by apply yields_ret|by destruct Hr].
  - eapply yields_bind; [apply yields_any|]. intros r _. apply IH.
  - eapply yields_bind; [apply yields_any|]. intros r _. apply IH.
  - eapply yields_bind; [apply yields_any|]. intros r _. apply IH.
Qed.

Lemma determine_ends (U : gset string) fuel req inherited : (forall h a, a ∈ Accounts (storeAt w h) -> Identifier a ∈ U) ->
  boundNames -> canonicalName w (targetOf req) -> (size U < fuel)%nat -> yields (determineWithSessionKey w Unmarshal Decode getenv fuel req inherited) ends.
Proof.
  intros HU Hb Ht Hf. unfold determineWithSessionKey. destruct (bool_decide _); [by apply yields_ret|].
  assert (Hs : (size (U ∖ ∅) < fuel)%nat) by (pose proof (subseteq_size (U ∖ ∅) U ltac:(intros x; rewrite elem_of_difference; tauto)); lia).
  assert (Ha : forall callerID key n, yields (acquireForSession w fuel callerID key (targetOf req) n) ends).
  { intros callerID key n. unfold acquireForSession. eapply yields_bind with (V := canonicalName w).
    { destruct (0 <? n)%nat; [by apply boundAccount_canonical|by apply yields_ret]. }
    intros name Hn. eapply yields_bind; [by apply (acquire_ends w U HU)|].
    intros [[a|e]|] Hr; [|by apply yields_ret|by destruct Hr]. eapply yields_bind; [apply yields_any|]. intros ? _. by apply yields_ret. }
  unfold ifDirect. eapply yields_bind; [apply yields_any|]. intros [] _; [|eapply yields_bind; [apply yields_any|]; intros ? _; by apply yields_ret].
  destruct (_ && _); [|apply Ha]. eapply yields_bind; [apply yields_any|]. intros ? _. eapply yields_bind; [apply Ha|]. intros r Hr.
  eapply yields_bind; [apply yields_any|]. intros ? _. by apply yields_ret.
Qed.

Lemma serve_ends (U : gset string) fuel req inherited acts : (forall h a, a ∈ Accounts (storeAt w h) -> Identifier a ∈ U) ->
  boundNames -> canonicalName w (targetOf req) -> (size U < fuel)%nat -> yields (serve fuel req inherited acts) ends.
Proof.
  intros HU Hb Ht Hf. unfold serve. eapply yields_bind; [by apply (determine_ends U)|]. intros [[a|e]|] Hr; [|by apply yields_ret|by destruct Hr].
  eapply yields_bind; [by apply (actions_ends U)|]. intros [[a' ok]|] Hr'; [|by destruct Hr'].
  eapply yields_bind; [apply yields_any|]. intros ? _. by apply yields_ret.
Qed.

(** C2. The slots a request holds, each under the name the pool counts it by.  Whatever logs in,
    whatever fails and whatever other requests do, if the target the request names and the names
    affinity remembers are identifiers of their accounts, then serving it ends (with fuel for one
    attempt per configured account); refused, it holds no slot, and served, it has given back every
    slot it took when the handler's deferred [Release] has run, provided none of its switches
    failed.  After a switch that fails the ledger ends one below: the slot that [SwitchAccount]
    gave back is released once more. *)
Theorem lease_ledger (U : gset string) fuel req inherited acts h :
  (forall h a, a ∈ Accounts (storeAt w h) -> Identifier a ∈ U) -> (size U < fuel)%nat -> boundNames -> canonicalName w (targetOf req) ->
  let '(r, h') := serve fuel req inherited acts h in
  match r with
  | None => False
  | Some (Refused _) | Some (Finished _ false) => forall id, held w id h' = held w id h
  | Some (Finished a true) => forall id, held w id h' = held w id h - if UseConfigToken a then one (AccountID a) id else 0
  end.
Proof.
  intros HU Hf Hbn Hcn.
  assert (H : triple (books w (fun id => held w id h)) (serve fuel req inherited acts) (fun r h' =>
    match r with
    | None => True
    | Some (Refused _) | Some (Finished _ false) => books w (fun id => held w id h) h'
    | Some (Finished a true) => books w (fun id => held w id h - if UseConfigToken a then one (AccountID a) id else 0) h'
    end)).
  { unfold serve, DetermineWithSessionKey. eapply triple_bind; [by apply determine_books|]. intros [[a|e]|]; [|by apply triple_ret..].
    eapply triple_bind; [apply actions_books|]. intros [[a' ok]|]; [|by apply triple_ret].
    eapply triple_bind with (R := fun _ h' => match negb ok with
       | false => books w (fun id => held w id h) h'
       | true => books w (fun id => held w id h - if UseConfigToken a' then one (AccountID a') id else 0) h' end);
      [|intros ?; by apply triple_ret].
    intros h1 Hh. unfold Release. destruct ok; unfold afterActions, atWork in Hh; destruct (UseConfigToken a') eqn:Eu; cbn [negb orb].
    - destruct Hh as [Hb Hn]. rewrite bool_decide_eq_false_2 by done. eapply books_ext; [|by apply books_release]. intros; simpl; lia.
    - exact Hh.
    - destruct Hh as [Hb Hn]. rewrite bool_decide_eq_false_2 by auto. by apply books_release.
    - destruct Hh as [Hb _]. eapply books_ext; [|exact Hb]. intros; simpl; lia. }
  specialize (H h (fun id => eq_refl)). pose proof (serve_ends U fuel req inherited acts HU Hbn Hcn Hf h) as Hend.
  destruct (serve fuel req inherited acts h) as [[[]|] h']; [exact H..|by apply Hend].
Qed.
End Lease.

(** ** Where a switch leads *)

Section Moves.
Context (w : World) {lawful : Lawful w}.

Lemma switchFrom_moves fuel a :
  yields (switchFrom w fuel a) (fun r => forall a' ok, r = Some (a', ok) ->
    TriedAccounts a ⊆ TriedAccounts a' /\ (ok = true -> (AccountID a' ∉ TriedAccounts a) /\ DeepSeekToken a' = Token (AuthAccount a'))).
Proof.
  revert a. induction fuel as [|fuel IH]; intros a; cbn [switchFrom]; [by apply yields_ret|].
  eapply yields_bind; [by apply AcquireWait_new|]. intros [acc|] Ha; [|apply yields_ret; by intros a' ok [= <- <-]].
  specialize (Ha acc eq_refl). eapply yields_bind; [apply ensure_yields|]. intros [a1 [e|]] (H1 & H2 & _ & H4 & _ & _ & H7); cbn in *.
  - eapply yields_bind; [apply yields_any|]. intros ? _ h a' ok E. destruct (IH (tryHeld a1) h a' ok E) as [Hs Hn]. cbn in Hs, Hn.
    rewrite H4 in Hs, Hn. split; [intros x Hx; apply Hs; by apply elem_of_union_r|]. intros Hok. destruct (Hn Hok) as [Hn1 Hn2].
    split; [|done]. intros Hx. apply Hn1. by apply elem_of_union_r.
  - eapply yields_bind; [apply yields_any|]. intros ? _. apply yields_ret. intros a' ok [= <- <-].
    rewrite H4, H2. split; [done|]. intros _. split; [done|]. by apply H7.
Qed.

(** A switch moves on: the account held before and those tried are not come back to. *)
Lemma SwitchAccount_moves fuel a : UseConfigToken a = true -> AccountID a <> "" ->
  yields (SwitchAccount w fuel a) (fun r => forall a' ok, r = Some (a', ok) ->
    {[AccountID a]} ∪ TriedAccounts a ⊆ TriedAccounts a' /\
    (ok = true -> (AccountID a' ∉ ({[AccountID a]} ∪ TriedAccounts a : gset string)) /\ DeepSeekToken a' = Token (AuthAccount a'))).
Proof.
  intros Hu Hn. unfold SwitchAccount. rewrite Hu, bool_decide_eq_false_2 by done. cbn [negb].
  eapply yields_bind; [apply yields_any|]. intros ? _. exact (switchFrom_moves fuel (tryHeld a)).
Qed.

Lemma RefreshToken_tried a : yields (RefreshToken w a) (fun r => TriedAccounts r.1 = TriedAccounts a).
Proof.
  unfold RefreshToken. destruct (_ || _); [by apply yields_ret|]. destruct (bool_decide _).
  - eapply yields_bind; [apply yields_any|]. intros ? _. by apply yields_ret.
  - eapply yields_bind; [apply yields_any|]. intros ? _. eapply yields_bind; [apply login_yields|].
    intros r (_ & _ & _ & H & _). by apply yields_ret.
Qed.
End Moves.

(** ** A switch that fails *)

Definition scene : Store := rebuildIndexes {|
  sKeys := ["key"]; sAccounts := [bob; alice];
  sRuntime := {| AccountMaxInflight := 1; AccountMaxQueue := 2; GlobalMaxInflight := 2 |};
  keyMap := ∅; accMap := ∅; accTest := ∅; accTestResult := ∅; accSess := ∅ |}.

Definition noonAt (_ : nat) : Z := 0.
Definition aliceID : string := "alice@example.com".

(** The pool, with how often another request got [alice]: others take her slot the moment it
    is free, and keep it. *)
Definition contend (s : Pool * nat) (e : event) : Pool * nat :=
  match e with
  | EAcquire _ target exclude _ => ((acquireLocked scene noonAt target exclude s.1).1, s.2)
  | ERelease x => match Acquire scene noonAt aliceID ∅ (Pool.Release x s.1) with
                  | (p, Some _) => (p, S s.2)
                  | (p, None) => (p, s.2)
                  end
  | _ => s
  end.

(** [bob] is busy from the beginning. *)
Definition busyPool : Pool := (Acquire scene noonAt "+8613800138000" ∅ (NewPool noEnv scene 0)).1.
Definition contended (h : history) : Pool * nat := fold_left contend h (busyPool, O).

(** A request that waits for [bob] gives up in the end. *)
Definition contention : World := {|
  storeAt := fun _ => scene; poolAt := fun h => (contended h).1; clockAt := fun _ => noonAt;
  gaveUp := fun h => existsb (fun e => match e with ERelease _ => true | _ => false end) h;
  loginReply := fun _ _ => Ok "token"; persistReply := fun _ => None; configuredHours := fun _ => 6;
  refreshedTable := fun _ => ∅; invalidTable := fun _ => ∅ |}.

Definition aliceRequest : HttpRequest := {|
  Hdr := {[ "Authorization" := ["Bearer key"]; CanonicalHeaderKey TargetAccountHeader := [aliceID] ]};
  Query := ∅; Path := "/v1/chat/completions"; Body := [] |}.

Definition noUnmarshal (_ : list N) : option (list (string * json)) := None.
Definition noDecode (_ : list N) : option keyJson := None.

Definition failedSwitch : option outcome * history :=
  serve contention noUnmarshal noDecode noEnv 3 aliceRequest "" [DoSwitch] [].

(** A switch that fails costs another request its slot: the request gave [alice] back and
    found no other account, a second request took her slot, and when the first one ends its
    deferred [Release] gives the slot away under the second, so that a third is served by the
    account beside it although the limit is one request per account. *)
Theorem failed_switch_overcommits :
  maxInflightPerAccount busyPool = 1 /\
  (exists a, failedSwitch.1 = Some (Finished a true) /\ AccountID a = aliceID) /\
  held contention aliceID failedSwitch.2 = -1 /\
  (contended failedSwitch.2).2 = 2%nat.
Proof. split; [|split; [eexists; split|split]]; vm_compute; reflexivity. Qed.

(** The pool of [PoolSystem] keeps the promise: with every account named and the pool in a
    state that requests can bring it to, the world is lawful. *)
Lemma reachable_lawful (getenv : string -> string) (s0 : Store) (t : Z) (w : World) :
  (forall h, storeAt w h = rebuildIndexes s0) -> (forall a, a ∈ sAccounts s0 -> Identifier a <> "") ->
  NoDup (enabledIDs (tokenFirst (Accounts (rebuildIndexes s0)))) ->
  (forall h, exists ls s, Forall (canonicalLabel (rebuildIndexes s0)) ls /\
     sysRun (rebuildIndexes s0) ls (sysInit getenv (rebuildIndexes s0) t) = Some s /\ poolAt w h = pool s) ->
  Lawful w.
Proof.
  intros Hst Hn Hnd Hp.
  assert (Hi : forall h, exists s, slotInv (rebuildIndexes s0) s /\ poolAt w h = pool s).
  { intros h. destruct (Hp h) as (ls & s & Hls & Hr & E). exists s. split; [|done].
    apply (run_inv (rebuildIndexes s0) ls _ s Hls (sysInit_slots getenv _ t Hnd) (sysInit_waiters getenv _ t) Hr). }
  split.
  - intros h a. rewrite Hst. unfold Accounts. rewrite rebuildIndexes_accounts. apply Hn.
  - intros h. destruct (Hi h) as (s & Hs & ->). exact (si_nodup _ _ Hs).
  - intros h id. destruct (Hi h) as (s & Hs & ->). rewrite Hst. exact (si_queue _ _ Hs id).
Qed.

(** Nothing happens in the pool but what the request does not see. *)
Definition calm (login : history -> Account -> result authError string) : World := {|
  storeAt := fun _ => scene; poolAt := fun _ => NewPool noEnv scene 0; clockAt := fun _ => noonAt; gaveUp := fun _ => false;
  loginReply := login; persistReply := fun _ => None; configuredHours := fun _ => 6;
  refreshedTable := fun _ => ∅; invalidTable := fun _ => ∅ |}.

Lemma scene_ids : forall a, a ∈ [bob; alice] -> Identifier a <> "".
Proof. intros a Ha. rewrite !elem_of_cons in Ha. destruct Ha as [->|[->|Ha]]; [done..|]. by apply not_elem_of_nil in Ha. Qed.

Lemma calm_lawful login : Lawful (calm login).
Proof.
  eapply (reachable_lawful noEnv _ 0); [intros h; reflexivity|exact scene_ids| |].
  - apply (bool_decide_eq_true_1 _). vm_compute. reflexivity.
  - intros h. eexists [], _. by repeat constructor.
Qed.

(** The accounts of the small scene. *)
Notation sceneIDs := ({[aliceID; "+8613800138000"]} : gset string) (only parsing).

Lemma scene_in h login a : a ∈ Accounts (storeAt (calm login) h) -> Identifier a ∈ sceneIDs.
Proof.
  intros Ha. change (Accounts (storeAt (calm login) h)) with [bob; alice] in Ha. rewrite !elem_of_cons in Ha.
  destruct Ha as [->|[->|Ha]]; [| |by apply not_elem_of_nil in Ha]; apply (bool_decide_eq_true_1 _); vm_compute; reflexivity.
Qed.

Lemma calm_bound login : boundNames (calm login).
Proof.
  intros h key h' acc. assert (E : (Lookup (affinity (poolAt (calm login) h)) (now (calm login) h) (clockAt (calm login) h 1) key).2 = "").
  { unfold Lookup. destruct (bool_decide (key = "")); [done|]. change (affinity (poolAt (calm login) h)) with (affinity (NewPool noEnv scene 0)). vm_compute. by destruct key. }
  rewrite E. intros H. vm_compute in H. discriminate.
Qed.

Lemma lease_ledger_witness :
  let w := calm (fun _ _ => Ok "token") in
  let h' := (serve w noUnmarshal noDecode noEnv 3 aliceRequest "" [DoRefresh; DoSwitch] []).2 in
  Lawful w /\ (forall id, held w id h' = 0).
Proof.
  intros w h'. split; [apply calm_lawful|].
  pose proof (@lease_ledger w (calm_lawful _) noUnmarshal noDecode noEnv sceneIDs 3 aliceRequest "" [DoRefresh; DoSwitch] [] (fun h a => scene_in h _ a)) as H.
  assert (Hf : (size sceneIDs < 3)%nat) by (vm_compute; lia).
  assert (Hc : canonicalName w (targetOf aliceRequest)) by (intros h acc Hacc; vm_compute in Hacc; by injection Hacc as <-).
  specialize (H Hf (calm_bound _) Hc).
  assert (E : exists a, (serve w noUnmarshal noDecode noEnv 3 aliceRequest "" [DoRefresh; DoSwitch] []).1 = Some (Finished a false)).
  { eexists. vm_compute. reflexivity. }
  destruct E as [a E]. unfold h'. destruct (serve _ _ _ _ _ _ _ _ _) as [r h1]. cbn [fst] in E. subst r. exact H.
Defined.

(** The condition on names is needed: a request that names an account by another spelling of its
    mobile number leaves the slot it took behind, and gives back one that it never had. *)
Definition aliasRequest : HttpRequest := {|
  Hdr := {[ "Authorization" := ["Bearer key"]; CanonicalHeaderKey TargetAccountHeader := ["13800138000"] ]};
  Query := ∅; Path := "/v1/chat/completions"; Body := [] |}.

Example alias_leaks_in_ledger :
  let w := calm (fun _ _ => Ok "token") in
  let '(r, h') := serve w noUnmarshal noDecode noEnv 3 aliasRequest "" [] [] in
  (exists a, r = Some (Finished a false)) /\ held w "13800138000" h' = 1 /\ held w "+8613800138000" h' = -1.
Proof. vm_compute. split; [by eexists|by split]. Qed.


(** The login of every account is refused. *)
Lemma account_search_ends_witness :
  let w := calm (fun _ _ => Err (ErrOther "password login is disabled" None)) in
  exists r, (acquireManagedRequestAuth w (S (size ({[aliceID; "+8613800138000"]} : gset string))) "caller:x" "" true []).1 = Some r.
Proof.
  intros w. apply (@account_search_ends w (calm_lawful _) {[aliceID; "+8613800138000"]}) with (a := directAuth "" "" "").
  - intros h a Ha. change (Accounts (storeAt w h)) with [bob; alice] in Ha. rewrite !elem_of_cons in Ha.
    destruct Ha as [->|[->|Ha]]; [| |by apply not_elem_of_nil in Ha]; apply (bool_decide_eq_true_1 _); vm_compute; reflexivity.
  - intros _ h acc H. vm_compute in H. discriminate.
Defined.

(** ** Which account is asked for *)

Section Asking.
Context (w : World).
Context (Unmarshal : list N -> option (list (string * json))) (Decode : list N -> option keyJson).
Context (getenv : string -> string).

(** The events of one acquisition. *)
Definition asks (preferred : bool) (target : string) (e : event) : Prop :=
  match e with
  | EAcquire p t _ _ => p = preferred /\ t = target
  | ELock _ | EUnlock _ | ELookup _ _ | EBind _ _ => False
  | _ => True
  end.

Ltac asking := repeat keeps_step; try (intros; by apply since_snoc).

Lemma recordHealth_asks h0 p t id e : keeps (since h0 (asks p t)) (recordAccountHealth w id e).
Proof. unfold recordAccountHealth, recordCooldown, persistAccountCooldown, persistAutomaticAccountDisable. asking. Qed.

Lemma login_asks h0 p t a : keeps (since h0 (asks p t)) (loginAndPersist w a).
Proof. unfold loginAndPersist, updateAccountToken. asking. apply recordHealth_asks. Qed.

Lemma ensure_asks h0 p t a : keeps (since h0 (asks p t)) (ensureManagedToken w a).
Proof. unfold ensureManagedToken, forceRefresh. asking; apply login_asks. Qed.

Lemma acquire_asks h0 fuel callerID target ovf tried last :
  keeps (since h0 (asks ovf target)) (acquireManagedFrom w fuel callerID target ovf tried last).
Proof.
  revert tried last. induction fuel as [|fuel IH]; intros tried last; cbn [acquireManagedFrom]; [apply keeps_ret|].
  apply keeps_bind; [apply keeps_look|]. intros n. destruct (_ && _); [apply keeps_ret|].
  apply keeps_bind; [destruct ovf; apply keeps_note; intros; by apply since_snoc|]. intros [acc|]; [|apply keeps_ret].
  apply keeps_bind; [apply ensure_asks|]. intros [a [e|]]; [|apply keeps_ret].
  apply keeps_bind; [apply keeps_emit; intros; by apply since_snoc|]. intros ?. destruct (_ && _); [apply keeps_ret|]. apply IH.
Qed.

(** An acquisition asks with nothing excluded first, or not at all. *)
Lemma acquire_first fuel callerID target ovf h :
  let h' := (acquireManagedRequestAuth w fuel callerID target ovf h).2 in
  exists mid, h' = h ++ mid /\ Forall (asks ovf target) mid /\
    (mid = [] \/ exists got rest, mid = EAcquire ovf target ∅ got :: rest).
Proof.
  unfold acquireManagedRequestAuth. destruct fuel as [|fuel]; cbn [acquireManagedFrom].
  { exists []. rewrite app_nil_r. auto. }
  unfold bind at 1, look. destruct (_ && _); [exists []; rewrite app_nil_r; auto|].
  unfold bind at 1.
  match goal with |- context [let '(_, _) := ?m in _] => assert (E : exists got, m = (got, h ++ [EAcquire ovf target ∅ got])) end.
  { destruct ovf; unfold AcquireWaitPreferred, AcquireWait, note; eexists; reflexivity. }
  destruct E as [got E]. rewrite E.
  match goal with |- context [snd (?k _)] => set (rest := k) end.
  assert (Hr : keeps (since (h ++ [EAcquire ovf target ∅ got]) (asks ovf target)) rest).
  { unfold rest. destruct got as [acc|]; [|apply keeps_ret]. apply keeps_bind; [apply ensure_asks|]. intros [a [e|]]; [|apply keeps_ret].
    apply keeps_bind; [apply keeps_emit; intros; by apply since_snoc|]. intros ?. destruct (_ && _); [apply keeps_ret|]. apply acquire_asks. }
  destruct (Hr _ (since_start _ _)) as (new & En & Hn). exists (EAcquire ovf target ∅ got :: new).
  split; [rewrite En, <- app_assoc; reflexivity|]. split; [by constructor|]. right. by exists got, new.
Qed.

(** The events between taking the session's lock and giving it back. *)
Lemma acquireFor_shape fuel callerID key target n h :
  key <> "" -> (0 < n)%nat ->
  let ovf := bool_decide (target = "") in
  let bound := if ovf then (Lookup (affinity (poolAt w h)) (now w h) (clockAt w h 1) key).2 else target in
  let '(r, h') := acquireForSession w fuel callerID key target n h in
  exists mid, h' = h ++ (if ovf then [ELookup key bound] else []) ++ mid ++
      match r with Some (Ok a) => if bool_decide (AccountID a = "") then [] else [EBind key (AccountID a)] | _ => [] end /\
    Forall (asks ovf bound) mid /\ (mid = [] \/ exists got rest, mid = EAcquire ovf bound ∅ got :: rest) /\
    match r with Some (Ok a) => AuthSessionKey a = key | _ => True end.
Proof.
  intros Hk Hn. unfold acquireForSession. rewrite (proj2 (Nat.ltb_lt 0 n) Hn), (bool_decide_eq_false_2 _ Hk). cbn [negb andb].
  unfold boundAccount. rewrite (bool_decide_eq_false_2 _ Hk). cbn [orb]. set (ovf := bool_decide (target = "")).
  set (bound := if ovf then _ else target).
  unfold bind at 1.
  match goal with |- context [let '(_, _) := ?m in _] => assert (E : m = (bound, h ++ if ovf then [ELookup key bound] else [])) end.
  { unfold bound, note, ret. destruct ovf; cbn [negb]; [done|]. by rewrite app_nil_r. }
  rewrite E. set (h1 := h ++ _). pose proof (acquire_first fuel callerID bound ovf h1) as Ha. cbv zeta in Ha.
  unfold bind at 1. destruct (acquireManagedRequestAuth w fuel callerID bound ovf h1) as [r h2]. cbn [snd] in Ha.
  destruct Ha as (mid & -> & Hm & Hf).
  destruct r as [[a|e]|]; [|unfold ret, h1; cbv beta iota; exists mid; by rewrite app_nil_r, <- app_assoc..].
  unfold bind, bindSessionAffinity. simpl. rewrite (bool_decide_eq_false_2 _ Hk). cbn [orb].
  destruct (bool_decide (AccountID a = "")) eqn:Eb; unfold ret, emit, perform, h1; cbv beta iota; exists mid;
    change (AccountID (withSessionKey a key)) with (AccountID a); rewrite Eb; [rewrite app_nil_r|]; by rewrite <- !app_assoc.
Qed.

(** C3. A conversation keeps its account.  For a caller with a configured key and a request with a
    body, whose session key (the inherited one, or else the one derived from the request) is not
    empty, the whole acquisition happens under the session's lock.  With no explicit target it
    asks first for the account the session is bound to then, and, if that one cannot serve, for
    any other; with an explicit target it asks for that account and for no other.  When an
    account is found the session is bound to it before the lock is given back. *)
Theorem session_keeps_account fuel req inherited h :
  let callerKey := extractCallerToken getenv req in
  let key := if bool_decide (TrimSpace inherited = "") then sessionKeyFromRequest Unmarshal Decode req (CallerHash callerKey) (Body req) else TrimSpace inherited in
  let target := targetOf req in
  let ovf := bool_decide (target = "") in
  let bound := if ovf then (Lookup (affinity (poolAt w (h ++ [ELock key]))) (now w (h ++ [ELock key])) (clockAt w (h ++ [ELock key]) 1) key).2
               else target in
  callerKey <> "" -> HasAPIKey (storeAt w h) callerKey = true -> key <> "" -> Body req <> [] ->
  let '(r, h') := DetermineWithSessionKey w Unmarshal Decode getenv fuel req inherited h in
  exists mid, h' = h ++ ELock key :: (if ovf then [ELookup key bound] else []) ++ mid ++
      match r with Some (Ok a) => if bool_decide (AccountID a = "") then [] else [EBind key (AccountID a)] | _ => [] end ++ [EUnlock key] /\
    Forall (asks ovf bound) mid /\ (mid = [] \/ exists got rest, mid = EAcquire ovf bound ∅ got :: rest) /\
    match r with Some (Ok a) => AuthSessionKey a = key | _ => True end.
Proof.
  intros callerKey key target ovf bound H1 H2 H3 H4. unfold DetermineWithSessionKey, determineWithSessionKey.
  assert (Hl : (0 < length (Body req))%nat) by (destruct (Body req); [done|simpl; lia]).
  fold callerKey. rewrite (bool_decide_eq_false_2 _ H1), (proj2 (Nat.ltb_lt 0 _) Hl), andb_true_r. fold key. cbn [andb].
  unfold ifDirect, bind at 1, look. rewrite H2, (bool_decide_eq_false_2 _ H3).
  cbn [negb]. unfold bind at 1, emit, perform. pose proof (acquireFor_shape fuel (callerTokenID callerKey) key target _ (h ++ [ELock key]) H3 Hl) as Hs.
  cbv zeta in Hs. fold target ovf in Hs. fold bound in Hs. unfold bind at 1. fold target.
  destruct (acquireForSession w fuel (callerTokenID callerKey) key target (length (Body req)) (h ++ [ELock key])) as [r h1].
  destruct Hs as (mid & -> & Hm & Hf & Hr). unfold bind, ret. exists mid. split; [|done].
  rewrite <- !app_assoc. reflexivity.
Qed.
End Asking.

(** A keyed caller without a target, in the conversation ["talk"]. *)
Definition talk : HttpRequest := {|
  Hdr := {[ "Authorization" := ["Bearer key"] ]}; Query := ∅; Path := "/v1/chat/completions"; Body := [123%N; 125%N] |}.

Lemma session_keeps_account_witness :
  exists mid last, (DetermineWithSessionKey (calm (fun _ _ => Ok "token")) noUnmarshal noDecode noEnv 3 talk "talk" []).2
    = ELock "talk" :: ELookup "talk" "" :: mid ++ last ++ [EUnlock "talk"] /\ last = [EBind "talk" aliceID].
Proof.
  pose proof (session_keeps_account (calm (fun _ _ => Ok "token")) noUnmarshal noDecode noEnv 3 talk "talk" []) as H. cbv zeta in H.
  specialize (H ltac:(vm_compute; discriminate) ltac:(vm_compute; reflexivity) ltac:(vm_compute; discriminate) ltac:(discriminate)).
  assert (E : exists a, (DetermineWithSessionKey (calm (fun _ _ => Ok "token")) noUnmarshal noDecode noEnv 3 talk "talk" []).1 = Some (Ok a) /\
    AccountID a = aliceID) by (eexists; split; vm_compute; reflexivity).
  destruct E as (a & E & Ea). destruct (DetermineWithSessionKey _ _ _ _ _ _ _ _) as [r h']. cbn [fst snd] in *. subst r.
  destruct H as (mid & -> & _). exists mid, [EBind "talk" aliceID]. rewrite Ea. split; [reflexivity|done].
Defined.

(** ** The table of rejected direct tokens *)

Lemma timeSub_mono (t t' u : Z) : t <= t' -> timeSub t u <= timeSub t' u.
Proof. unfold timeSub. lia. Qed.

Lemma markExpired_mono (t t' at_ : Z) : t <= t' -> markExpired t at_ = true -> markExpired t' at_ = true.
Proof. unfold markExpired. rewrite !Z.leb_le. pose proof (timeSub_mono t t' at_). lia. Qed.

(** The mark the table has for a caller and that still counts. *)
Definition liveMark (m : gmap string Z) (t : Z) (callerID : string) : bool :=
  match m !! callerID with Some at_ => negb (markExpired t at_) | None => false end.

Lemma blocked_live (callerID : string) (t : Z) (m : gmap string Z) :
  TrimSpace callerID <> "" -> (directTokenBlocked callerID t m).2 = liveMark m t (TrimSpace callerID).
Proof.
  intros H. unfold directTokenBlocked, liveMark. rewrite bool_decide_eq_false_2 by done.
  destruct (m !! _) as [at_|]; [|done]. by destruct (markExpired t at_).
Qed.

Lemma prune_live (m : gmap string Z) (t t' : Z) (c : string) :
  t <= t' -> liveMark (pruneInvalidDirectLocked t m) t' c = liveMark m t' c.
Proof.
  intros Ht. unfold liveMark, pruneInvalidDirectLocked. rewrite map_lookup_filter. destruct (m !! c) as [at_|]; [|done]. cbn.
  case_guard as Hg; cbn; [done|]. apply not_false_is_true in Hg. by rewrite (markExpired_mono t t' at_ Ht Hg).
Qed.

Lemma oldestOf_spec (l : list (string * Z)) :
  Forall (fun kv => kv.1 <> "") l -> l <> [] ->
  oldestOf l ∈ l /\ Forall (fun kv => (oldestOf l).2 <= kv.2) l.
Proof.
  intros Hne. unfold oldestOf.
  assert (G : forall l s, Forall (fun kv => kv.1 <> "") l -> s.1 <> "" ->
    let r := fold_left (fun '(id, at_) '(callerID, markedAt) =>
      if bool_decide (id = "") || (markedAt <? at_) then (callerID, markedAt) else (id, at_)) l s in
    (r = s \/ r ∈ l) /\ r.2 <= s.2 /\ Forall (fun kv => r.2 <= kv.2) l).
  { clear l Hne. intros l. induction l as [|[c t] l IH]; intros [id at_] Hl Hs; cbn [fold_left].
    - split; [by left|]. split; [simpl; lia|done].
    - inversion_clear Hl as [|x y Hc Hl']. cbn [fst] in *. rewrite (bool_decide_eq_false_2 _ Hs). cbn [orb].
      destruct (Z.ltb_spec t at_).
      + destruct (IH (c, t) Hl' Hc) as (H1 & H2 & H3). cbn [snd] in *. split; [|split; [lia|by constructor]].
        right. destruct H1 as [->|H1]; [by left|by right].
      + destruct (IH (id, at_) Hl' Hs) as (H1 & H2 & H3). cbn [snd] in *. split; [|split; [lia|constructor; [cbn; lia|done]]].
        destruct H1 as [->|H1]; [by left|right; by right]. }
  destruct l as [|[c t] l]; [done|]. intros _. inversion_clear Hne as [|x y Hc Hl]. cbn [fold_left]. rewrite bool_decide_eq_true_2 by done. cbn [orb].
  destruct (G l (c, t) Hl Hc) as ([E|H1] & H2 & H3).
  - rewrite E in *. split; [by left|]. constructor; [cbn; lia|done].
  - split; [by right|]. constructor; [exact H2|done].
Qed.

Section Marks.
(** [range] visits the entries of a map once each, in any order. *)
Context (iter : gmap string Z -> list (string * Z)) (Hiter : forall m, iter m ≡ₚ map_to_list m).

(** Callers are never the empty string. *)
Definition named (m : gmap string Z) : Prop := m !! "" = None.

Lemma evict_spec (m : gmap string Z) :
  named m -> m <> ∅ -> exists c at_, m !! c = Some at_ /\ (forall c' at', m !! c' = Some at' -> at_ <= at') /\
    evictOldestInvalidDirectLocked iter m = delete c m.
Proof.
  intros Hn Hm. assert (H1 : Forall (fun kv => kv.1 <> "") (iter m)).
  { rewrite Hiter. apply Forall_forall. intros [c t] H%elem_of_map_to_list. cbn. intros ->. by rewrite Hn in H. }
  destruct (oldestOf_spec (iter m) H1) as [Hin Hall].
  { intros E. apply Hm, map_to_list_empty_iff. apply Permutation_nil. rewrite <- Hiter. by rewrite E. }
  unfold evictOldestInvalidDirectLocked. destruct (oldestOf (iter m)) as [c at_]. cbn [fst snd] in *.
  assert (Hc : m !! c = Some at_) by (apply elem_of_map_to_list; by rewrite <- Hiter).
  exists c, at_. split; [done|]. split.
  - intros c' at' H%elem_of_map_to_list. rewrite <- Hiter in H. by apply (proj1 (Forall_forall _ _) Hall) in H.
  - rewrite bool_decide_eq_false_2; [done|]. intros ->. by rewrite Hn in Hc.
Qed.

(** A rejected direct token.  After the mark, the caller is refused for exactly ten
    minutes; the table never holds more than 4096 callers; and of the other callers' marks
    that still count none changes, except that a full table loses one of its oldest. *)
Theorem rejected_token_window (a : RequestAuth) (t0 : Z) (m : gmap string Z) :
  UseConfigToken a = false -> TrimSpace (CallerID a) <> "" -> named m -> (size m <= maxInvalidDirectTokenKeys)%nat ->
  let c := TrimSpace (CallerID a) in
  let m' := MarkDirectTokenInvalid iter a t0 m in
  named m' /\ (size m' <= maxInvalidDirectTokenKeys)%nat /\
  (forall t, (directTokenBlocked (CallerID a) t m').2 = negb (markExpired t t0)) /\
  ((forall c' t, c' <> c -> t0 <= t -> liveMark m' t c' = liveMark m t c') \/
   (size (pruneInvalidDirectLocked t0 m) = maxInvalidDirectTokenKeys /\
    exists old at_, m !! old = Some at_ /\ (forall c' at', m !! c' = Some at' -> markExpired t0 at' = false -> at_ <= at') /\
      forall c' t, c' <> c -> c' <> old -> t0 <= t -> liveMark m' t c' = liveMark m t c')).
Proof.
  intros Hu Hc Hn Hs c m'. set (p := pruneInvalidDirectLocked t0 m).
  assert (Em : m' = <[c := t0]> (if (maxInvalidDirectTokenKeys <=? size p)%nat then evictOldestInvalidDirectLocked iter p else p)).
  { unfold m', MarkDirectTokenInvalid. by rewrite Hu, (bool_decide_eq_false_2 _ Hc). }
  clearbody m'. assert (Hp : p ⊆ m) by apply map_filter_subseteq.
  assert (Hnp : named p). { unfold named, p, pruneInvalidDirectLocked. by rewrite map_lookup_filter, Hn. }
  assert (Hsp : (size p <= maxInvalidDirectTokenKeys)%nat) by (pose proof (map_subseteq_size p m Hp); lia).
  assert (Hlive : forall q t, (forall c', c' <> c -> liveMark (<[c := t0]> q) t c' = liveMark q t c')).
  { intros q t c' Hd. unfold liveMark. by rewrite lookup_insert_ne. }
  assert (Hname : forall q, named q -> named (<[c := t0]> q)).
  { intros q Hq. unfold named. rewrite lookup_insert_ne; [done|]. intros E. by apply Hc. }
  assert (Hblock : forall q t, (directTokenBlocked (CallerID a) t (<[c := t0]> q)).2 = negb (markExpired t t0)).
  { intros q t. rewrite blocked_live by done. unfold liveMark. fold c. by rewrite lookup_insert_eq. }
  destruct (Nat.leb_spec maxInvalidDirectTokenKeys (size p)) as [Hfull|Hroom].
  - assert (Ep : size p = maxInvalidDirectTokenKeys) by lia.
    destruct (evict_spec p Hnp) as (old & at_ & Ho & Hold & E).
    { intros E0. rewrite E0, map_size_empty in Ep. unfold maxInvalidDirectTokenKeys in Ep. lia. }
    rewrite Em, E. split; [|split; [|split; [apply Hblock|right]]].
    + apply Hname. unfold named. rewrite lookup_delete. by case_decide.
    + pose proof (map_size_insert c t0 (delete old p)). pose proof (map_size_delete old p) as Hd. rewrite Ho in Hd. cbn in Hd.
      destruct (delete old p !! c); cbn in *; unfold maxInvalidDirectTokenKeys in *; lia.
    + split; [done|]. exists old, at_. split; [by apply (lookup_weaken p m)|]. split.
      * intros c' at' H1 H2. apply (Hold c' at'). apply map_lookup_filter_Some. by split.
      * intros c' t H1 H2 H3. rewrite Hlive by done. rewrite <- (prune_live m t0 t c' H3). fold p. unfold liveMark.
        by rewrite lookup_delete_ne.
  - rewrite Em. split; [by apply Hname|]. split; [|split; [apply Hblock|left]].
    + pose proof (map_size_insert c t0 p). destruct (p !! c); cbn in *; lia.
    + intros c' t H1 H2. rewrite Hlive by done. by apply prune_live.
Qed.
End Marks.

Lemma rejected_token_window_witness :
  (directTokenBlocked "caller:1" (599 * second) (MarkDirectTokenInvalid map_to_list (directAuth "tok" "caller:1" "") 0 ∅)).2 = true.
Proof.
  destruct (rejected_token_window map_to_list (fun m => reflexivity _) (directAuth "tok" "caller:1" "") 0 ∅) as (_ & _ & H & _);
    [reflexivity|discriminate|reflexivity|vm_compute; lia|]. exact (H (599 * second)).
Defined.

(** ** Who comes in, and when tokens are refreshed *)

Lemma orElse_trimmed (s v : string) : TrimSpace s = s -> TrimSpace v = v -> TrimSpace (orElse s v) = orElse s v.
Proof. intros. unfold orElse. by destruct (bool_decide _). Qed.

Lemma extractCallerToken_trimmed getenv req : TrimSpace (extractCallerToken getenv req) = extractCallerToken getenv req.
Proof.
  unfold extractCallerToken, bearerToken. repeat apply orElse_trimmed; try apply TrimSpace_idem.
  - destruct (HasPrefix _ _); [apply TrimSpace_idem|reflexivity].
  - destruct (negb _); [reflexivity|]. apply orElse_trimmed; apply TrimSpace_idem.
Qed.

(** A caller whose token is not one of the configured keys comes in with that very token and
    without an account, unless the token was rejected lately; no service is called. *)
Theorem direct_caller_untouched w Unmarshal Decode getenv fuel req inherited h :
  let token := extractCallerToken getenv req in
  let r := DetermineWithSessionKey w Unmarshal Decode getenv fuel req inherited h in
  token <> "" -> HasAPIKey (storeAt w h) token = false ->
  r.2 = h /\
  (if liveMark (invalidTable w h) (now w h) (callerTokenID token) then r.1 = Some (Err ErrInvalidDirectToken)
   else exists a, r.1 = Some (Ok a) /\ UseConfigToken a = false /\ DeepSeekToken a = token /\ AccountID a = "").
Proof.
  intros token r H1 H2. assert (Hid : TrimSpace (callerTokenID token) = callerTokenID token /\ callerTokenID token <> "").
  { unfold callerTokenID. rewrite bool_decide_eq_false_2 by (unfold token; by rewrite extractCallerToken_trimmed).
    split; [|by intros [=]]. exact (TrimSpace_hex "c"%char ":"%char "aller" _ eq_refl eq_refl). }
  destruct Hid as [Hid Hne].
  unfold r, DetermineWithSessionKey, determineWithSessionKey. fold token. rewrite (bool_decide_eq_false_2 _ H1).
  unfold ifDirect, blockedNow, bind, look, ret. rewrite H2. cbv beta iota.
  pose proof (blocked_live (callerTokenID token) (now w h) (invalidTable w h)) as Hb. rewrite Hid in Hb. rewrite (Hb Hne).
  split; [done|]. destruct (liveMark _ _ _); [done|]. by eexists.
Qed.
