(* ===== verification/AccountHealth.v ===== *)
(** What upstream answers say about an account: [internal/deepseek/client/account_health.go],
    [account_health_stream.go] and the classification of failures in [client_auth.go].

    Answers are decoded JSON.  The RFC 3339 rendering of a time, the parser of HTTP dates,
    [strconv.ParseFloat] and the rounding of a float64 product are parameters; a time is its
    number of nanoseconds since 1970. *)
From S2P Require Import Prelude GoString GoText Config Affinity Pool Json UpstreamError Resolver.
From Stdlib Require Import Ascii.
Local Open Scope string_scope.
Local Open Scope Z_scope.
Local Open Scope list_scope.

(** [*auth.AccountHealthError] *)
Record accountHealth := { ahState : HealthState; ahUntil : Z; ahCode : Z; ahMessage : string }.

(** ** Codes and messages *)

Definition loginUserBannedCode : Z := 10.
Definition upstreamUserBannedCode : Z := 40012.
Definition upstreamAccountDisabledCode : Z := 90008.
Definition upstreamMutedCode : Z := 50006.
Definition defaultMuteMessage : string := "account temporarily muted by upstream".
Definition defaultBannedMessage : string := "account permanently banned by upstream".
Definition defaultInvalidCredentialsMessage : string := "account credentials rejected by upstream".
Definition defaultRateLimitMessage : string := "account temporarily rate limited by upstream".

Fixpoint firstNonZero (values : list Z) : Z :=
  match values with [] => 0 | v :: values => if v =? 0 then firstNonZero values else v end.

(** [strings.NewReplacer("_", " ", "-", " ")] *)
Fixpoint replaceMarks (s : string) : string :=
  match s with
  | EmptyString => ""
  | String c s => String (if bool_decide (c = "_"%char) || bool_decide (c = "-"%char) then " "%char else c) (replaceMarks s)
  end.

Definition containsAny (s : string) (patterns : list string) : bool := existsb (Contains s) patterns.

Definition normalizedAccountFailureMessage (message : string) : string := ToLower (TrimSpace (replaceMarks message)).

Definition banPatterns : list string :=
  ["user is banned"; "account is banned"; "user has been banned"; "account has been banned";
   "用户已被封禁"; "账号已被封禁"; "账户已被封禁"].
Definition explicitPermanentBanMessage (message : string) : bool :=
  containsAny (normalizedAccountFailureMessage message) banPatterns.

Definition mutePatterns : list string :=
  ["user is muted"; "account is muted"; "user has been muted"; "account has been muted";
   "用户已被禁言"; "账号已被禁言"; "账户已被禁言"].
Definition explicitMuteMessage (message : string) : bool :=
  containsAny (normalizedAccountFailureMessage message) mutePatterns.

Definition credentialPatterns : list string :=
  ["password or user name is wrong"; "username or password is wrong"; "user name or password is wrong";
   "account or password is wrong"; "email or password is wrong"; "invalid password"; "incorrect password"; "wrong password";
   "用户名或密码"; "账号或密码"; "账户或密码"; "密码错误"; "密码不正确"].

(** The two messages, joined by a space and in lower case. *)
Definition combinedMessage (msg bizMsg : string) : string := ToLower (TrimSpace msg +:+ " " +:+ TrimSpace bizMsg).

Definition loginCredentialsRejected (msg bizMsg : string) : bool :=
  containsAny (replaceMarks (combinedMessage msg bizMsg)) credentialPatterns.

Definition orText (s fallback : string) : string := if bool_decide (s = "") then fallback else s.

(** [msg] counts when [bizMsg] is blank. *)
Definition preferredMessage (msg bizMsg : string) : string := orText (TrimSpace bizMsg) (TrimSpace msg).

Definition accountHealthErrorFromCodes (code bizCode : Z) (msg bizMsg : string) (includeLoginBan : bool) : option accountHealth :=
  let message := preferredMessage msg bizMsg in
  let has n := (code =? n) || (bizCode =? n) in
  let report state default :=
    Some {| ahState := state; ahUntil := zeroTime; ahCode := firstNonZero [bizCode; code]; ahMessage := orText message default |} in
  if (includeLoginBan && has loginUserBannedCode) || has upstreamUserBannedCode || has upstreamAccountDisabledCode
     || explicitPermanentBanMessage message
  then report HealthPermanentlyBanned defaultBannedMessage
  else if includeLoginBan && loginCredentialsRejected msg bizMsg
  then report HealthInvalidCredentials defaultInvalidCredentialsMessage
  else if has upstreamMutedCode || explicitMuteMessage message
  then report HealthTemporarilyMuted defaultMuteMessage
  else None.

Definition accountHealthErrorFromResponse (code bizCode : Z) (msg bizMsg : string) : option accountHealth :=
  accountHealthErrorFromCodes code bizCode msg bizMsg false.
Definition loginAccountHealthErrorFromResponse (code bizCode : Z) (msg bizMsg : string) : option accountHealth :=
  accountHealthErrorFromCodes code bizCode msg bizMsg true.

(** ** Authorization *)

Definition tokenCodes : list Z := [40001; 40002; 40003].

Definition isTokenInvalid (status code bizCode : Z) (msg bizMsg : string) : bool :=
  (status =? 401) || (status =? 403) || bool_decide (code ∈ tokenCodes) || bool_decide (bizCode ∈ tokenCodes)
  || containsAny (combinedMessage msg bizMsg) ["token"; "unauthorized"; "expired"; "not login"; "login required"; "invalid jwt"].

Definition authKeywords : list string :=
  ["auth"; "authorization"; "credential"; "expired"; "invalid jwt"; "jwt"; "login"; "not login"; "session expired"; "token";
   "unauthorized"; "登录"; "未登录"; "认证"; "凭证"; "会话过期"; "令牌"].

Definition isAuthIndicativeBizFailure (msg bizMsg : string) : bool := containsAny (combinedMessage msg bizMsg) authKeywords.

Definition shouldAttemptRefresh (status code bizCode : Z) (msg bizMsg : string) : bool :=
  isTokenInvalid status code bizCode msg bizMsg
  || ((status =? 200) && (code =? 0) && negb (bizCode =? 0) && isAuthIndicativeBizFailure msg bizMsg).

Definition authFailureKind (useConfigToken : bool) : FailureKind :=
  if useConfigToken then FailureManagedUnauthorized else FailureDirectUnauthorized.

Definition failureMessage (msg bizMsg fallback : string) : string :=
  orText (TrimSpace bizMsg) (orText (TrimSpace msg) (TrimSpace fallback)).

(** ** Rate limits *)

Definition maxRateLimitCooldown : Z := 900 * second.
Definition defaultRateLimitStateCooldown : Z := 60 * second.

Definition capacityMessages : list string :=
  ["conversation context"; "conversation limit"; "conversation turn"; "conversation has reached";
   "session context"; "session limit"; "session turn"; "session has reached";
   "maximum turns"; "maximum messages"; "too many messages"; "context window"; "context length";
   "prompt is too long"; "input is too long";
   "会话上下文"; "会话轮次"; "会话达到上限"; "会话已达到上限";
   "对话上下文"; "对话轮次"; "对话达到上限"; "上下文长度"; "上下文超限"].

Fixpoint joinSpace (parts : list string) : string :=
  match parts with [] => "" | [s] => s | s :: parts => s +:+ " " +:+ joinSpace parts end.

Definition is429 (status code bizCode : Z) : bool := (status =? 429) || (code =? 429) || (bizCode =? 429).

Definition isSessionCapacityRateLimit (status code bizCode : Z) (msg bizMsg : string) (extraMessages : list string) : bool :=
  if negb (is429 status code bizCode) then false
  else
    let message := normalizedAccountFailureMessage (joinSpace (TrimSpace msg :: TrimSpace bizMsg :: extraMessages)) in
    if bool_decide (message = "") then false else containsAny message capacityMessages.

Section Times.
(** [time.Parse(http.TimeFormat, ...)] *)
Context (parseHTTPTime : string -> option Z).

(** [time.Duration(seconds) * time.Second] wraps. *)
Definition rateLimitUntil (retryAfter : string) (now : Z) : Z :=
  let retryAfter := TrimSpace retryAfter in
  let dated :=
    match parseHTTPTime retryAfter with
    | Some parsed =>
        if now <? parsed
        then if maxRateLimitCooldown <? timeSub parsed now then now + maxRateLimitCooldown else parsed
        else now + defaultRateLimitStateCooldown
    | None => now + defaultRateLimitStateCooldown
    end in
  match Atoi retryAfter with
  | Some seconds =>
      if 0 <? seconds then
        let cooldown := i64 (seconds * second) in
        now + (if maxRateLimitCooldown <? cooldown then maxRateLimitCooldown else cooldown)
      else dated
  | None => dated
  end.

Definition accountRateLimitError (status code bizCode : Z) (msg bizMsg retryAfter : string) (now : Z) : option accountHealth :=
  if negb (is429 status code bizCode) then None
  else Some {| ahState := HealthRateLimited; ahUntil := rateLimitUntil retryAfter now; ahCode := 429;
               ahMessage := orText (preferredMessage msg bizMsg) defaultRateLimitMessage |}.
End Times.

Definition rateLimitScopeFromResponse (status code bizCode : Z) (msg bizMsg : string) (extraMessages : list string) : RateLimitScope :=
  if isSessionCapacityRateLimit status code bizCode msg bizMsg extraMessages then RateLimitScopeSessionCapacity
  else if is429 status code bizCode then RateLimitScopeAccount
  else ScopeUnset.

(** ** Decoded answers *)

Definition jobject := list (string * json).

(** [v, _ := m[key].(map[string]any)]; a missing object has no members. *)
Definition objectAt (key : string) (m : jobject) : jobject := default [] (isObject (member key m)).

Definition extractResponseStatus (resp : jobject) : Z * Z * string * string :=
  let data := objectAt "data" resp in
  let bizMsg := asString (member "biz_msg" data) in
  let bizMsg := if bool_decide (TrimSpace bizMsg = "") then
                  match isObject (member "biz_data" data) with
                  | Some bizData => asString (member "msg" bizData)
                  | None => bizMsg
                  end else bizMsg in
  (IntFrom (member "code" resp), IntFrom (member "biz_code" data), asString (member "msg" resp), bizMsg).

Definition extractCreateSessionID (resp : jobject) : string :=
  let bizData := objectAt "biz_data" (objectAt "data" resp) in
  let own := TrimSpace (asString (member "id" bizData)) in
  if negb (bool_decide (own = "")) then own
  else TrimSpace (asString (member "id" (objectAt "chat_session" bizData))).

Definition extractResponseUser (resp : jobject) : option jobject :=
  let data := objectAt "data" resp in
  match isObject (member "user" (objectAt "biz_data" data)) with
  | Some user => Some user
  | None => isObject (member "user" data)
  end.

Definition truthy (v : option json) : bool :=
  match v with
  | Some (JBool b) => b
  | Some (JNum n _) => negb (n =? 0)
  | Some (JStr s) => EqualFold (TrimSpace s) "true" || bool_decide (TrimSpace s = "1")
  | _ => false
  end.

(** The value [strconv.Atoi] returns whatever the error: clamped when out of range. *)
Definition AtoiValue (s : string) : Z :=
  let '(neg, body) :=
    match s with
    | String "-"%char r => (true, r)
    | String "+"%char r => (false, r)
    | _ => (false, s)
    end in
  if bool_decide (body = "") then 0
  else match digitsVal body 0 with
       | Some v => if (neg : bool) then Z.max minInt (- v) else Z.min maxInt v
       | None => 0
       end.

Definition numericCode (v : option json) : Z :=
  let code := IntFrom v in
  if negb (code =? 0) then code
  else match v with Some (JStr raw) => AtoiValue (TrimSpace raw) | _ => 0 end.

Fixpoint stringField (values : jobject) (keys : list string) : string :=
  match keys with
  | [] => ""
  | key :: keys =>
      let value := TrimSpace (asString (member key values)) in
      if bool_decide (value = "") then stringField values keys else value
  end.

Fixpoint valueFromMaps (key : string) (maps : list jobject) : option json :=
  match maps with
  | [] => None
  | m :: maps => match member key m with Some v => Some v | None => valueFromMaps key maps end
  end.

Section Answers.
(** [strconv.ParseFloat], a number being a fraction, and the nanoseconds [int64(x * 1e9)] of
    a fraction of a second in float64 arithmetic. *)
Context (ParseFloat : string -> option (Z * positive)) (fractionNanos : Z -> positive -> Z).

Definition unixSeconds (v : option json) : Z :=
  let seconds :=
    match v with
    | Some (JNum n d) => Some (n, d)
    | Some (JStr s) => ParseFloat (TrimSpace s)
    | _ => None
    end in
  match seconds with
  | Some (n, d) =>
      if n <=? 0 then zeroTime
      else
        let whole := IntFrom (Some (JNum n d)) in
        whole * second + fractionNanos (n - whole * Zpos d) d
  | None => zeroTime
  end.

Definition accountHealthErrorFromUser (user : option jobject) : option accountHealth :=
  match user with
  | None => None
  | Some user =>
      let chat := objectAt "chat" user in
      if negb (truthy (member "is_muted" chat)) then None
      else Some {| ahState := HealthTemporarilyMuted; ahUntil := unixSeconds (member "mute_until" chat);
                   ahCode := upstreamMutedCode; ahMessage := defaultMuteMessage |}
  end.

Definition withUntil (h : accountHealth) (until : Z) : accountHealth :=
  {| ahState := ahState h; ahUntil := until; ahCode := ahCode h; ahMessage := ahMessage h |}.

(** The code and the message of a chunk. *)
Definition chunkStatus (chunk : jobject) : Z * string :=
  let code := numericCode (member "code" chunk) in
  let message := stringField chunk ["msg"; "message"] in
  let '(code, message) :=
    match isObject (member "data" chunk) with
    | Some data =>
        if code =? 0 then
          (firstNonZero [numericCode (member "code" data); numericCode (member "biz_code" data)],
           orText message (stringField data ["biz_msg"; "msg"; "message"]))
        else (code, message)
    | None => (code, message)
    end in
  match isObject (member "error" chunk) with
  | Some errData =>
      (if code =? 0 then numericCode (member "code" errData) else code,
       orText message (stringField errData ["message"; "msg"]))
  | None => (code, message)
  end.

Definition accountHealthErrorFromSSEChunk (chunk : jobject) : option accountHealth :=
  let '(code, message) := chunkStatus chunk in
  match accountHealthErrorFromCodes code 0 message "" false with
  | None => None
  | Some h =>
      let maps := (match isObject (member "data" chunk) with Some data => [data] | None => [] end) ++ [chunk] in
      match ahState h with
      | HealthTemporarilyMuted =>
          let until := unixSeconds (valueFromMaps "mute_until" maps) in
          Some (withUntil h (if timeIsZero until then unixSeconds (valueFromMaps "end_at" maps) else until))
      | HealthPermanentlyBanned => Some h
      | _ => None
      end
  end.

(** ** Watching a stream ([accountHealthReadCloser]) *)

(** [json.Unmarshal] of the payload of a line. *)
Context (Unmarshal : string -> option jobject).

Definition maxAccountHealthSSELineBytes : nat := N.to_nat 65536.

(** What a line reports. *)
Definition inspectLine (line : string) : option accountHealth :=
  let trimmed := TrimSpace line in
  if negb (HasPrefix trimmed "data:") then None
  else
    let payload := TrimSpace (TrimPrefix trimmed "data:") in
    if bool_decide (payload = "") || bool_decide (payload = "[DONE]") then None
    else match Unmarshal payload with
         | None => None
         | Some chunk => accountHealthErrorFromSSEChunk chunk
         end.

(** What is buffered, and the report that was passed on. *)
Record healthReader := { pendingBytes : string; markOnce : option accountHealth }.

Definition noticeLine (marked : option accountHealth) (line : string) : option accountHealth :=
  match marked with Some h => Some h | None => inspectLine line end.

Definition newline : ascii := ascii_of_N 10.

(** The lines of a text that end with a line break, without it, and what is after the last. *)
Fixpoint cutLines (s : string) : list string * string :=
  match s with
  | EmptyString => ([], "")
  | String c s =>
      let '(ls, rest) := cutLines s in
      if bool_decide (c = newline) then ("" :: ls, rest)
      else match ls with
           | [] => ([], String c rest)
           | l :: ls => (String c l :: ls, rest)
           end
  end.

Definition inspect (r : healthReader) (chunk : string) : healthReader :=
  let '(ls, rest) := cutLines (pendingBytes r +:+ chunk) in
  {| pendingBytes := if (maxAccountHealthSSELineBytes <? String.length rest)%nat then "" else rest;
     markOnce := fold_left noticeLine ls (markOnce r) |}.

(** One [Read]: the bytes it returns and whether they are the last. *)
Definition readHealth (r : healthReader) (read : string * bool) : healthReader :=
  let '(chunk, eof) := read in
  let r := if bool_decide (chunk = "") then r else inspect r chunk in
  if (eof : bool) && negb (bool_decide (pendingBytes r = ""))
  then {| pendingBytes := ""; markOnce := noticeLine (markOnce r) (pendingBytes r) |} else r.

Definition readAll (reads : list (string * bool)) : healthReader :=
  fold_left readHealth reads {| pendingBytes := ""; markOnce := None |}.
End Answers.

(** ** Lemmas: lines *)

(** The lines of a whole body: what is after the last line break counts unless empty. *)
Definition bodyLines (s : string) : list string :=
  let '(ls, rest) := cutLines s in ls ++ if bool_decide (rest = "") then [] else [rest].

Lemma cutLines_app (s t : string) :
  cutLines (s +:+ t) = ((cutLines s).1 ++ (cutLines ((cutLines s).2 +:+ t)).1, (cutLines ((cutLines s).2 +:+ t)).2).
Proof.
  induction s as [|c s IH]; [cbn [cutLines fst snd app]; rewrite !append_nil_l; by destruct (cutLines t)|].
  rewrite append_cons. cbn [cutLines]. rewrite IH.
  destruct (cutLines s) as [ls rest]. cbn [fst snd] in *.
  case_bool_decide as Hc; [done|]. destruct ls as [|l ls]; cbn [fst snd app]; [|done].
  rewrite append_cons. cbn [cutLines]. destruct (cutLines (rest +:+ t)) as [ls' rest']. cbn [fst snd].
  rewrite (bool_decide_eq_false_2 _ Hc). by destruct ls'.
Qed.

Lemma cutLines_rest (s : string) : cutLines (cutLines s).2 = ([], (cutLines s).2).
Proof.
  induction s as [|c s IH]; [done|]. cbn [cutLines]. destruct (cutLines s) as [ls rest]. cbn [fst snd] in *.
  case_bool_decide as Hc; [exact IH|]. destruct ls as [|l ls]; [|exact IH]. cbn [snd cutLines]. rewrite IH.
  by rewrite (bool_decide_eq_false_2 _ Hc).
Qed.

(** No line of the text is longer than [n] bytes. *)
Definition linesWithin (n : nat) (s : string) : Prop :=
  Forall (fun l => String.length l <= n)%nat (cutLines s).1 /\ (String.length (cutLines s).2 <= n)%nat.

(** A text without a line break stays together. *)
Lemma cut_keep (s t : string) :
  cutLines s = ([], s) ->
  cutLines (s +:+ t) = match cutLines t with
                       | ([], r) => ([], s +:+ r)
                       | (l :: ls, r) => ((s +:+ l) :: ls, r)
                       end.
Proof.
  induction s as [|c s IH]; intros Hs; [rewrite append_nil_l; by destruct (cutLines t) as [[|l ls] r]|].
  cbn [cutLines] in Hs. destruct (cutLines s) as [ls rest]. case_bool_decide as Hc; [done|].
  destruct ls as [|l ls]; [|done]. injection Hs as ->. rewrite append_cons. cbn [cutLines]. rewrite (IH eq_refl).
  destruct (cutLines t) as [[|l ls] r]; by rewrite (bool_decide_eq_false_2 _ Hc).
Qed.

Lemma cut_first (s t : string) (n : nat) : cutLines s = ([], s) -> linesWithin n (s +:+ t) -> (String.length s <= n)%nat.
Proof.
  intros Hs [Hl Hr]. rewrite (cut_keep s t Hs) in Hl, Hr. destruct (cutLines t) as [[|l ls] r]; cbn [fst snd] in *.
  - rewrite length_append in Hr. lia.
  - apply Forall_inv in Hl. rewrite length_append in Hl. lia.
Qed.

Lemma rest_within (s t : string) (n : nat) : linesWithin n (s +:+ t) -> (String.length (cutLines s).2 <= n)%nat.
Proof.
  intros [Hl Hr]. apply (cut_first _ t n (cutLines_rest s)). rewrite cutLines_app in Hl, Hr. cbn [fst snd] in *.
  apply Forall_app in Hl as [_ Hl]. by split.
Qed.

Lemma linesWithin_mono (n m : nat) (s : string) : (n <= m)%nat -> linesWithin n s -> linesWithin m s.
Proof. intros Hm [H1 H2]. split; [|lia]. eapply Forall_impl; [exact H1|]. cbn. lia. Qed.

(** ** The health of an account read off a stream *)

Section Watching.
Context (ParseFloat : string -> option (Z * positive)) (fractionNanos : Z -> positive -> Z) (Unmarshal : string -> option jobject).
Notation report := (inspectLine ParseFloat fractionNanos Unmarshal).
Notation notice := (noticeLine ParseFloat fractionNanos Unmarshal).
Notation read := (readHealth ParseFloat fractionNanos Unmarshal).

Definition concatAll (chunks : list string) : string := foldr (fun c s => c +:+ s) "" chunks.

Lemma concatAll_snoc (chunks : list string) (final : string) : concatAll (chunks ++ [final]) = concatAll chunks +:+ final.
Proof.
  induction chunks as [|c chunks IH]; cbn [concatAll foldr app].
  - by rewrite append_nil_l, append_nil_r.
  - fold (concatAll (chunks ++ [final])) (concatAll chunks). by rewrite IH, append_assoc.
Qed.

(** The state between reads that return data only. *)
Definition readState (body : string) : healthReader :=
  {| pendingBytes := (cutLines body).2; markOnce := fold_left notice (cutLines body).1 None |}.

Lemma read_chunk (body chunk : string) :
  (String.length (cutLines (body +:+ chunk)).2 <= maxAccountHealthSSELineBytes)%nat ->
  read (readState body) (chunk, false) = readState (body +:+ chunk).
Proof.
  intros Hl. unfold readHealth. cbn [andb]. case_bool_decide as Hc; [subst; by rewrite append_nil_r|].
  unfold inspect, readState. cbn [pendingBytes markOnce]. rewrite (cutLines_app body chunk) in Hl |- *. cbn [fst snd] in *.
  destruct (cutLines ((cutLines body).2 +:+ chunk)) as [ls rest]. cbn [fst snd] in *.
  destruct (Nat.ltb_spec maxAccountHealthSSELineBytes (String.length rest)); [lia|]. by rewrite fold_left_app.
Qed.

Lemma read_chunks (chunks : list string) (body : string) :
  linesWithin maxAccountHealthSSELineBytes (body +:+ concatAll chunks) ->
  fold_left read ((fun c => (c, false)) <$> chunks) (readState body) = readState (body +:+ concatAll chunks).
Proof.
  revert body. induction chunks as [|c chunks IH]; intros body Hw; cbn [concatAll foldr fmap list_fmap fold_left] in *.
  { by rewrite append_nil_r. }
  fold (concatAll chunks) in *. rewrite <- append_assoc in Hw |- *. rewrite read_chunk; [by apply IH|].
  by eapply rest_within.
Qed.

Lemma notice_first (ls : list string) (m : option accountHealth) :
  fold_left notice ls m = match m with Some h => Some h | None => head (omap report ls) end.
Proof.
  revert m. induction ls as [|l ls IH]; intros m; cbn [fold_left]; [by destruct m|]. rewrite IH. unfold noticeLine.
  destruct m as [h|]; [done|]. cbn. by destruct (report l).
Qed.

(** C14. Watching a stream for reports on the account does not depend on how the stream is cut
    into reads, as long as no line is longer than 64 KiB (a longer one is dropped where a read
    ends): whatever the chunks, the account is marked exactly with the first report that a line
    of the whole body makes, the last line counting even without a line break; and it is marked
    once at most. *)
Theorem watching_sees_first_report (chunks : list string) (final : string) :
  let body := concatAll chunks +:+ final in
  linesWithin maxAccountHealthSSELineBytes body ->
  markOnce (readAll ParseFloat fractionNanos Unmarshal (((fun c => (c, false)) <$> chunks) ++ [(final, true)])) =
    head (omap report (bodyLines body)).
Proof.
  intros body Hw. unfold readAll. rewrite fold_left_app.
  change {| pendingBytes := ""; markOnce := None |} with (readState "").
  assert (Eb : "" +:+ concatAll (chunks ++ [final]) = body) by (rewrite append_nil_l; apply concatAll_snoc).
  assert (Hc : linesWithin maxAccountHealthSSELineBytes ("" +:+ concatAll (chunks ++ [final]))) by by rewrite Eb.
  pose proof (read_chunks (chunks ++ [final]) "" Hc) as Hr. rewrite fmap_app, fold_left_app in Hr. cbn [fmap list_fmap fold_left] in *.
  set (st := fold_left read _ (readState "")) in *.
  assert (E : read st (final, true) = let r := read st (final, false) in
    if negb (bool_decide (pendingBytes r = "")) then {| pendingBytes := ""; markOnce := notice (markOnce r) (pendingBytes r) |} else r).
  { unfold readHealth. by destruct (bool_decide (final = "")). }
  rewrite E, Hr. cbv zeta.
  rewrite Eb. unfold readState, bodyLines. destruct (cutLines body) as [ls rest]. cbn [fst snd pendingBytes markOnce].
  case_bool_decide as Hrest; cbn [negb markOnce]; [rewrite app_nil_r; apply notice_first|].
  change (notice (fold_left notice ls None) rest) with (fold_left notice [rest] (fold_left notice ls None)).
  rewrite <- fold_left_app. apply notice_first.
Qed.
End Watching.

(** A notice of a mute, cut in the middle of its line. *)
Definition demoChunks : list string := ["data: [DON"; "E]" +:+ String newline "data: {'code':"].
Definition demoUnmarshalLine (payload : string) : option jobject :=
  if HasPrefix payload "{" then Some [("code", JNum 50006 1); ("mute_until", JNum 1700000000 1)] else None.

Lemma watching_sees_first_report_witness :
  markOnce (readAll (fun _ => None) (fun _ _ => 0) demoUnmarshalLine (((fun c => (c, false)) <$> demoChunks) ++ [("50006}", true)])) =
    Some {| ahState := HealthTemporarilyMuted; ahUntil := 1700000000 * second; ahCode := 50006; ahMessage := defaultMuteMessage |}.
Proof.
  rewrite watching_sees_first_report; [vm_compute; reflexivity|].
  apply (linesWithin_mono 100); [unfold maxAccountHealthSSELineBytes; lia|]. split; [|vm_compute; lia]. vm_compute. repeat constructor.
Defined.

(** ** Rate limits *)

Section RateLimits.
Context (parseHTTPTime : string -> option Z).

(** A rate limit lasts at most fifteen minutes, and begins now, for any [Retry-After] header
    whose number of seconds fits a duration. *)
Theorem rate_limit_window (retryAfter : string) (now : Z) :
  (forall s, Atoi (TrimSpace retryAfter) = Some s -> s * second <= maxInt) ->
  now < rateLimitUntil parseHTTPTime retryAfter now <= now + maxRateLimitCooldown.
Proof.
  intros Hs. unfold rateLimitUntil.
  assert (Hd : forall o, now < match o with
      | Some parsed => if now <? parsed then if maxRateLimitCooldown <? timeSub parsed now then now + maxRateLimitCooldown else parsed
                       else now + defaultRateLimitStateCooldown
      | None => now + defaultRateLimitStateCooldown end <= now + maxRateLimitCooldown).
  { intros [t|]; unfold maxRateLimitCooldown, defaultRateLimitStateCooldown, second in *; [|lia].
    destruct (Z.ltb_spec now t); [|lia]. destruct (Z.ltb_spec (900 * 1000000000) (timeSub t now)) as [H1|H1]; [lia|].
    unfold timeSub in H1. change minInt with (-9223372036854775808) in H1. change maxInt with 9223372036854775807 in H1. lia. }
  destruct (Atoi (TrimSpace retryAfter)) as [n|]; [|apply Hd]. destruct (Z.ltb_spec 0 n); [|apply Hd].
  specialize (Hs n eq_refl). rewrite i64_small by (unfold second in *; change minInt with (-9223372036854775808); lia).
  destruct (Z.ltb_spec maxRateLimitCooldown (n * second)); unfold maxRateLimitCooldown, second in *; lia.
Qed.

(** Beyond that the duration wraps: a [Retry-After] of three hundred years ends the cooldown
    before it begins, and the pool clears the account's health instead of marking it. *)
Theorem retry_after_wraps (id reason : string) (now : Z) (p : Pool) :
  0 <= now -> let until := rateLimitUntil parseHTTPTime "9223372037" now in
  until < now /\ MarkRateLimited id until reason now now p = if bool_decide (id = "") then p else ClearHealth id p.
Proof.
  intros Hn until.
  assert (E : until = now + i64 (9223372037 * second)) by reflexivity.
  assert (Ei : i64 (9223372037 * second) = -9223372036709551616) by (vm_compute; reflexivity). rewrite Ei in E.
  split; [lia|]. unfold MarkRateLimited, markTransientAccount.
  assert (Hz : timeIsZero until = false) by (apply Z.eqb_neq; unfold zeroTime, second; lia). rewrite Hz.
  destruct (bool_decide (id = "")); [done|]. destruct (Z.ltb_spec now until); [lia|]. done.
Qed.
End RateLimits.
