(* ===== verification/Client.v ===== *)
(** The upstream client's calls on behalf of a request: creating a session and obtaining a
    proof of work, with their retries ([internal/deepseek/client/client_auth.go]), and the
    account marks of [account_health.go].

    The network, the clock and the configuration store are what they answer ([Traced]).  The
    resolver is used through an interface, [AccountSource], that says what a switch and a
    refresh leave of a request; [Resolver] keeps it.  A request's route is the account whose
    HTTP clients are used.  Logging and packet capture are left out. *)
From stdpp Require Import fin_sets.
From S2P Require Import Prelude GoString Config Affinity Pool Json UpstreamError Resolver AccountHealth Traced.
Local Open Scope string_scope.
Local Open Scope Z_scope.
Local Open Scope list_scope.

Notation err := (error unit).

Inductive call :=
| CPostSession (route token : string)
| CPostPow (route token target : string)
| CSolve (challenge : jobject)                   (** [ComputePow] and [BuildPowHeader] *)
| CSend (route token pow session : string)       (** one completion request *)
| CMark (id : string) (h : accountHealth)        (** [Resolver.MarkAccountHealth] *)
| CWatch (id : string)                           (** the body is watched for reports on the account *)
| CSwitch (held : string) (ok : bool)            (** [Resolver.SwitchAccount], the account before it *)
| CRefresh (id : string) (ok : bool)             (** [Resolver.RefreshToken] *)
| CSleep (ms : Z).

Definition history : Type := list call.
Definition M : Type -> Type := Traced call.

(** The answer to a completion request.  [Failed]: no response, with whether the network
    timed out.  A body is its lines, each with its line break but perhaps the last, and the
    error that ends it, empty at the regular end, with whether the network timed out. *)
Record httpBody := { bodyText : list string; bodyError : err; bodyTimeout : bool }.
Inductive sendAnswer :=
| Failed (cause : err) (netTimeout : bool)
| Responded (status : Z) (retryAfter : string) (body : httpBody).

Record ClientWorld := {
  cStore : history -> Store;
  cNow : history -> Z;
  ctxErr : history -> err;
  postReply : history -> result (err * bool) (jobject * Z);
  (** The error of [ComputePow], or, marked [true], that of [BuildPowHeader]. *)
  solveReply : history -> jobject -> result (err * bool) string;
  sendReply : history -> sendAnswer;
  switchReply : history -> RequestAuth -> RequestAuth * bool;
  refreshReply : history -> RequestAuth -> RequestAuth * bool;
  rfc3339 : Z -> string;
  parseHTTPTime : string -> option Z;
  maxRetries : Z
}.

(** A request that has a pooled account. *)
Definition leased (a : RequestAuth) : Prop := UseConfigToken a = true /\ AccountID a <> "".

(** The accounts a request has used up. *)
Definition used (a : RequestAuth) : gset string := {[AccountID a]} ∪ TriedAccounts a.

(** What the client relies on when it switches accounts or refreshes a token. *)
Class AccountSource (cw : ClientWorld) : Prop := {
  as_switched : forall h a a', leased a -> switchReply cw h a = (a', true) ->
    leased a' /\ (AccountID a' ∉ used a) /\ used a ⊆ TriedAccounts a' /\ DeepSeekToken a' = Token (AuthAccount a');
  as_unswitched : forall h a a', leased a -> switchReply cw h a = (a', false) -> leased a' /\ used a ⊆ TriedAccounts a';
  as_refreshed : forall h a a' ok, leased a -> refreshReply cw h a = (a', ok) ->
    leased a' /\ AccountID a' = AccountID a /\ TriedAccounts a' = TriedAccounts a
}.

Section Calls.
Context (cw : ClientWorld).

Definition switchAccount (a : RequestAuth) : M (RequestAuth * bool) :=
  note (fun h => switchReply cw h a) (fun r => CSwitch (AccountID a) r.2).
Definition refreshToken (a : RequestAuth) : M (RequestAuth * bool) :=
  note (fun h => refreshReply cw h a) (fun r => CRefresh (AccountID a) r.2).

(** The error the rest of the code sees. *)
Definition healthError (h : accountHealth) : err :=
  [LHealth {| HState := ahState h; HUntil := if timeIsZero (ahUntil h) then None else Some (rfc3339 cw (ahUntil h));
              HCode := ahCode h; HMessage := ahMessage h |}].

Definition managedAccount (id : string) : M bool := look (fun h => bool_decide (is_Some (FindAccount (cStore cw h) id))).

(** The report, after it was passed to the resolver. *)
Definition markAccountHealth (a : RequestAuth) (code bizCode : Z) (msg bizMsg : string) : M (option accountHealth) :=
  match accountHealthErrorFromResponse code bizCode msg bizMsg with
  | None => ret None
  | Some h =>
      if bool_decide (TrimSpace (AccountID a) = "") then ret (Some h)
      else
        let* known := (if UseConfigToken a then ret true else managedAccount (AccountID a)) in
        if known then let* _ := emit (CMark (AccountID a) h) in ret (Some h) else ret (Some h)
  end.

Definition markAccountRateLimited (a : RequestAuth) (status code bizCode : Z) (msg bizMsg retryAfter : string)
  (extraMessages : list string) : M unit :=
  if bool_decide (rateLimitScopeFromResponse status code bizCode msg bizMsg extraMessages = RateLimitScopeSessionCapacity) then ret tt
  else
    let* report := look (fun h => accountRateLimitError (parseHTTPTime cw) status code bizCode msg bizMsg retryAfter (cNow cw h)) in
    match report with
    | None => ret tt
    | Some h =>
        if bool_decide (TrimSpace (AccountID a) = "") || negb (UseConfigToken a) then ret tt
        else
          let* known := managedAccount (AccountID a) in
          if known then emit (CMark (AccountID a) h) else ret tt
    end.

Definition isAuthFailure (status code bizCode : Z) (msg bizMsg : string) : bool :=
  isTokenInvalid status code bizCode msg bizMsg || isAuthIndicativeBizFailure msg bizMsg.

(** The failure a round leaves for the end of the loop. *)
Record lastFailure := { lfKind : FailureKind; lfStatus : Z; lfMessage : string }.

Definition noFailure : lastFailure := {| lfKind := FailureUnknown; lfStatus := 0; lfMessage := "" |}.

Definition classify (a : RequestAuth) (rateLimited : bool) (status code bizCode : Z) (msg bizMsg message : string) : lastFailure :=
  if rateLimited then {| lfKind := FailureUpstreamStatus; lfStatus := 429; lfMessage := message |}
  else if isAuthFailure status code bizCode msg bizMsg
  then {| lfKind := authFailureKind (UseConfigToken a); lfStatus := 0; lfMessage := message |}
  else if 400 <=? status then {| lfKind := FailureUpstreamStatus; lfStatus := status; lfMessage := message |}
  else {| lfKind := FailureUnknown; lfStatus := 0; lfMessage := message |}.

Definition requestFailure (op : string) (kind : FailureKind) (status : Z) (scope : RateLimitScope) (message : string) : err :=
  [LRequest {| Op := op; Kind := kind; FMessage := message; StatusCode := status; Scope := scope |}].

Definition exhausted (op fallback : string) (lf : lastFailure) : err :=
  if negb (bool_decide (lfKind lf = FailureUnknown)) || (0 <? lfStatus lf)
  then requestFailure op (lfKind lf) (lfStatus lf) (rateLimitScopeFromResponse (lfStatus lf) 0 0 (lfMessage lf) "" []) (lfMessage lf)
  else [LText fallback].

(** What a loop carries: the request, the account whose clients are used, the attempts made,
    whether the token was refreshed, and the last failure. *)
Record retryState := { rsAuth : RequestAuth; rsRoute : string; rsAttempts : Z; rsRefreshed : bool; rsLast : lastFailure }.

Definition again (st : retryState) (a : RequestAuth) (route : string) (attempts : Z) (refreshed : bool) (lf : lastFailure) : retryState :=
  {| rsAuth := a; rsRoute := route; rsAttempts := attempts; rsRefreshed := refreshed; rsLast := lf |}.

Inductive round := Next (st : retryState) | Done (a : RequestAuth) (r : result err string).

(** The end of a round whose answer was refused and reports nothing on the account: refresh
    the token once, else switch the account, else count the attempt. *)
Definition refreshOrSwitch (allowAccountSwitch rateLimited : bool) (scope : RateLimitScope) (status code bizCode : Z) (msg bizMsg : string)
  (st : retryState) (lf : lastFailure) : M round :=
  let a := rsAuth st in
  let counted a := ret (Next (again st a (rsRoute st) (rsAttempts st + 1) (rsRefreshed st) lf)) in
  let switch a :=
    if allowAccountSwitch && negb (bool_decide (scope = RateLimitScopeSessionCapacity)) then
      let* r := switchAccount a in
      match r with
      | (a, true) => ret (Next (again st a (AccountID a) (if rateLimited then rsAttempts st else rsAttempts st + 1) false lf))
      | (a, false) => counted a
      end
    else counted a in
  if negb (UseConfigToken a) then counted a
  else if negb (rsRefreshed st) && shouldAttemptRefresh status code bizCode msg bizMsg then
    let* r := refreshToken a in
    match r with
    | (a, true) => ret (Next (again st a (rsRoute st) (rsAttempts st) true lf))
    | (a, false) => switch a
    end
  else switch a.

(** The end of a round whose answer reports on the account. *)
Definition healthSwitch (allowAccountSwitch : bool) (st : retryState) (h : accountHealth) (lf : lastFailure) : M round :=
  if allowAccountSwitch && UseConfigToken (rsAuth st) then
    let* r := switchAccount (rsAuth st) in
    match r with
    | (a, true) => ret (Next (again st a (AccountID a) (rsAttempts st + 1) false lf))
    | (a, false) => ret (Done a (Err (healthError h)))
    end
  else ret (Done (rsAuth st) (Err (healthError h))).

(** ** Creating a session *)

Definition createSessionRound (allowAccountSwitch : bool) (st : retryState) : M round :=
  let a := rsAuth st in
  let* resp := perform (CPostSession (rsRoute st) (DeepSeekToken a)) (postReply cw) in
  match resp with
  | Err (e, _) =>
      if IsClientCancelledError e || IsUpstreamTimeoutError e then ret (Done a (Err (requestFailureWithOp "create session" e)))
      else ret (Next (again st a (rsRoute st) (rsAttempts st + 1) (rsRefreshed st) (rsLast st)))
  | Ok (resp, status) =>
      let '(code, bizCode, msg, bizMsg) := extractResponseStatus resp in
      let rateLimited := is429 status code bizCode in
      let scope := rateLimitScopeFromResponse status code bizCode msg bizMsg [] in
      let lf := classify a rateLimited status code bizCode msg bizMsg (failureMessage msg bizMsg "create session failed") in
      let* _ := markAccountRateLimited a status code bizCode msg bizMsg "" [] in
      let sessionID := extractCreateSessionID resp in
      if (status =? 200) && (code =? 0) && (bizCode =? 0) && negb (bool_decide (sessionID = "")) then ret (Done a (Ok sessionID))
      else
        let* health := markAccountHealth a code bizCode msg bizMsg in
        match health with
        | Some h => healthSwitch allowAccountSwitch st h lf
        | None => refreshOrSwitch allowAccountSwitch rateLimited scope status code bizCode msg bizMsg st lf
        end
  end.

(** The loop around a round; [None]: out of fuel. *)
Fixpoint retryLoop (fuel : nat) (op fallback : string) (maxAttempts : Z) (body : retryState -> M round) (st : retryState)
  : M (option (RequestAuth * result err string)) :=
  match fuel with
  | O => ret None
  | S fuel =>
      if maxAttempts <=? rsAttempts st then ret (Some (rsAuth st, Err (exhausted op fallback (rsLast st))))
      else
        let* r := body st in
        match r with
        | Next st => retryLoop fuel op fallback maxAttempts body st
        | Done a r => ret (Some (a, r))
        end
  end.

Definition initialRetry (a : RequestAuth) : retryState :=
  {| rsAuth := a; rsRoute := AccountID a; rsAttempts := 0; rsRefreshed := false; rsLast := noFailure |}.

Definition orMax (maxAttempts : Z) : Z := if maxAttempts <=? 0 then maxRetries cw else maxAttempts.

Definition createSession (fuel : nat) (a : RequestAuth) (maxAttempts : Z) (allowAccountSwitch : bool) :=
  retryLoop fuel "create session" "create session failed" (orMax maxAttempts) (createSessionRound allowAccountSwitch) (initialRetry a).

Definition CreateSession (fuel : nat) (a : RequestAuth) (maxAttempts : Z) := createSession fuel a maxAttempts true.
Definition CreateSessionPinned (fuel : nat) (a : RequestAuth) := createSession fuel a 3 false.

(** ** Obtaining a proof of work *)

Definition DeepSeekCompletionTargetPath : string := "/api/v0/chat/completion".

Definition challengeOf (resp : jobject) : jobject := objectAt "challenge" (objectAt "biz_data" (objectAt "data" resp)).

Definition getPowRound (targetPath : string) (allowAccountSwitch : bool) (st : retryState) : M round :=
  let a := rsAuth st in
  let* resp := perform (CPostPow (rsRoute st) (DeepSeekToken a) targetPath) (postReply cw) in
  match resp with
  | Err (e, _) =>
      if IsClientCancelledError e || IsUpstreamTimeoutError e then ret (Done a (Err (requestFailureWithOp "get pow" e)))
      else ret (Next (again st a (rsRoute st) (rsAttempts st + 1) (rsRefreshed st)
                        {| lfKind := FailureUnknown; lfStatus := lfStatus (rsLast st); lfMessage := Error e |}))
  | Ok (resp, status) =>
      let '(code, bizCode, msg, bizMsg) := extractResponseStatus resp in
      let message := failureMessage msg bizMsg "get pow failed" in
      let rateLimited := is429 status code bizCode in
      let scope := rateLimitScopeFromResponse status code bizCode msg bizMsg [] in
      let kept := {| lfKind := lfKind (rsLast st); lfStatus := 0; lfMessage := message |} in
      let* _ := markAccountRateLimited a status code bizCode msg bizMsg "" [] in
      if (status =? 200) && (code =? 0) && (bizCode =? 0) then
        let* header := perform (CSolve (challengeOf resp)) (fun h => solveReply cw h (challengeOf resp)) in
        match header with
        | Ok header => ret (Done a (Ok header))
        | Err (_, false) => ret (Next (again st a (rsRoute st) (rsAttempts st + 1) (rsRefreshed st) kept))
        | Err (e, true) => ret (Done a (Err e))
        end
      else
        let* health := markAccountHealth a code bizCode msg bizMsg in
        match health with
        | Some h => healthSwitch allowAccountSwitch st h kept
        | None => refreshOrSwitch allowAccountSwitch rateLimited scope status code bizCode msg bizMsg st
                    (classify a rateLimited status code bizCode msg bizMsg message)
        end
  end.

Definition getPowForTarget (fuel : nat) (a : RequestAuth) (targetPath : string) (maxAttempts : Z) (allowAccountSwitch : bool) :=
  let targetPath := orText (TrimSpace targetPath) DeepSeekCompletionTargetPath in
  retryLoop fuel "get pow" "get pow failed" (orMax maxAttempts) (getPowRound targetPath allowAccountSwitch) (initialRetry a).

Definition GetPow (fuel : nat) (a : RequestAuth) (maxAttempts : Z) :=
  getPowForTarget fuel a DeepSeekCompletionTargetPath maxAttempts true.
Definition GetPowForTarget (fuel : nat) (a : RequestAuth) (targetPath : string) (maxAttempts : Z) :=
  getPowForTarget fuel a targetPath maxAttempts true.
Definition GetPowPinned (fuel : nat) (a : RequestAuth) := getPowForTarget fuel a DeepSeekCompletionTargetPath 3 false.
End Calls.

(** ** The resolver is such a source *)

(** The resolver keeps the promise, in every lawful world and after any history of its own,
    with fuel for one attempt at every account. *)
Lemma resolver_source (cw : ClientWorld) (w : history -> World) (past : history -> Resolver.history) (U : gset string) :
  (forall h, Lawful (w h)) -> (forall h past a, a ∈ Accounts (storeAt (w h) past) -> Identifier a ∈ U) ->
  (forall h a, switchReply cw h a = default (a, false) (SwitchAccount (w h) (S (size U)) a (past h)).1) ->
  (forall h a, refreshReply cw h a = (RefreshToken (w h) a (past h)).1) ->
  AccountSource cw.
Proof.
  intros Hw HU Hs Hr.
  assert (G : forall h a a' ok, leased a -> switchReply cw h a = (a', ok) ->
    leased a' /\ used a ⊆ TriedAccounts a' /\ (ok = true -> (AccountID a' ∉ used a) /\ DeepSeekToken a' = Token (AuthAccount a'))).
  { intros h a a' ok [H1 H2] E. rewrite Hs in E.
    destruct (proj2 (@account_search_ends (w h) (Hw h) U (HU h) "" "" false a (past h) ltac:(done))) as [r Er].
    rewrite Er in E. cbn in E. subst r.
    destruct (@SwitchAccount_named (w h) (Hw h) _ a H2 (past h) a' ok Er) as [H3 H4].
    destruct (@SwitchAccount_moves (w h) (Hw h) _ a H1 H2 (past h) a' ok Er) as [H5 H6].
    split; [split; congruence|]. by split. }
  split.
  - intros h a a' Hl E. destruct (G h a a' true Hl E) as (H1 & H2 & H3). by destruct (H3 eq_refl).
  - intros h a a' Hl E. by destruct (G h a a' false Hl E) as (H1 & H2 & _).
  - intros h a a' ok [H1 H2] E. rewrite Hr in E.
    destruct (refresh_yields (w h) a (past h)) as [E1 E2]. pose proof (RefreshToken_tried (w h) a (past h)) as E3.
    rewrite E in E1, E2, E3. cbn in *. split; [split; congruence|]. by split.
Qed.

(** ** Lemmas: every round makes progress *)

Section Progress.
Context (cw : ClientWorld) {source : AccountSource cw}.
(** The accounts the source can hand out. *)
Context (U : gset string) (HU : forall h a a', switchReply cw h a = (a', true) -> AccountID a' ∈ U).

(** What is left to do. *)
Definition left (a : RequestAuth) (refreshed : bool) (attempts maxAttempts : Z) : nat :=
  Z.to_nat (maxAttempts - attempts) + 2 * size (U ∖ used a) + (if refreshed then 0 else 1).
Definition leftOf (maxAttempts : Z) (st : retryState) : nat := left (rsAuth st) (rsRefreshed st) (rsAttempts st) maxAttempts.

(** A request that is not pooled neither switches nor refreshes. *)
Definition wellHeld (a : RequestAuth) : Prop := UseConfigToken a = true -> AccountID a <> "".

Lemma used_shrinks (a a' : RequestAuth) : used a ⊆ TriedAccounts a' -> (size (U ∖ used a') <= size (U ∖ used a))%nat.
Proof. intros Hs. apply subseteq_size. intros x. unfold used in *. rewrite !elem_of_difference. intros [H1 H2]. split; [done|]. set_solver. Qed.

Lemma used_shrinks_new (a a' : RequestAuth) :
  AccountID a' ∈ U -> (AccountID a' ∉ used a) -> used a ⊆ TriedAccounts a' -> (size (U ∖ used a') < size (U ∖ used a))%nat.
Proof.
  intros H1 H2 H3. apply subset_size. split.
  - intros x. unfold used in *. rewrite !elem_of_difference. intros [Hx Hn]. split; [done|]. set_solver.
  - intros Hs. specialize (Hs (AccountID a')). rewrite !elem_of_difference in Hs. unfold used in *. set_solver.
Qed.

(** The next state of a round is better than the one before, by a measure [f]. *)
Definition progress (maxAttempts : Z) (st : retryState) (r : round) : Prop :=
  match r with
  | Next st' => (leftOf maxAttempts st' < leftOf maxAttempts st)%nat /\ wellHeld (rsAuth st')
  | Done _ _ => True
  end.

Lemma switch_yields a : leased a -> yields (switchAccount cw a) (fun r =>
  leased r.1 /\ if r.2 then (size (U ∖ used r.1) < size (U ∖ used a))%nat else (size (U ∖ used r.1) <= size (U ∖ used a))%nat).
Proof.
  intros Ha h. cbn. destruct (switchReply cw h a) as [a' []] eqn:E; cbn.
  - destruct (as_switched h a a' Ha E) as (H1 & H2 & H3 & _). split; [done|]. apply used_shrinks_new; [by eapply HU|done..].
  - destruct (as_unswitched h a a' Ha E) as (H1 & H2). split; [done|]. by apply used_shrinks.
Qed.

Lemma refresh_progress a : leased a -> yields (refreshToken cw a) (fun r => leased r.1 /\ used r.1 = used a).
Proof.
  intros Ha h. cbn. destruct (refreshReply cw h a) as [a' ok] eqn:E. destruct (as_refreshed h a a' ok Ha E) as (H1 & H2 & H3).
  split; [done|]. unfold used. cbn. by rewrite H2, H3.
Qed.

Lemma counted_progress maxAttempts st a lf :
  rsAttempts st < maxAttempts -> wellHeld a -> (size (U ∖ used a) <= size (U ∖ used (rsAuth st)))%nat ->
  progress maxAttempts st (Next (again st a (rsRoute st) (rsAttempts st + 1) (rsRefreshed st) lf)).
Proof. intros H1 H2 H3. split; [|done]. unfold leftOf, left. cbn. destruct (rsRefreshed st); lia. Qed.

Lemma refreshOrSwitch_progress maxAttempts allow rl scope status code bizCode msg bizMsg st lf :
  rsAttempts st < maxAttempts -> wellHeld (rsAuth st) ->
  yields (refreshOrSwitch cw allow rl scope status code bizCode msg bizMsg st lf) (progress maxAttempts st).
Proof.
  intros Hm Hw. unfold refreshOrSwitch.
  assert (Hc : forall a, wellHeld a -> (size (U ∖ used a) <= size (U ∖ used (rsAuth st)))%nat ->
    yields (ret (Next (again st a (rsRoute st) (rsAttempts st + 1) (rsRefreshed st) lf)) : M round) (progress maxAttempts st)).
  { intros a H1 H2. apply yields_ret. by apply counted_progress. }
  destruct (UseConfigToken (rsAuth st)) eqn:Eu; cbn [negb]; [|by apply Hc].
  assert (Hs : forall a, leased a -> used a = used (rsAuth st) ->
    yields (if allow && negb (bool_decide (scope = RateLimitScopeSessionCapacity))
            then let* r := switchAccount cw a in
                 match r with
                 | (a, true) => ret (Next (again st a (AccountID a) (if rl : bool then rsAttempts st else rsAttempts st + 1) false lf))
                 | (a, false) => ret (Next (again st a (rsRoute st) (rsAttempts st + 1) (rsRefreshed st) lf))
                 end
            else ret (Next (again st a (rsRoute st) (rsAttempts st + 1) (rsRefreshed st) lf)) : M round) (progress maxAttempts st)).
  { intros a Ha Eu'. destruct (_ && _); [|apply Hc; [by intros _; apply Ha|by rewrite Eu']].
    eapply yields_bind; [by apply switch_yields|]. intros [a' []] [Hl Hz]; cbn in Hz.
    - apply yields_ret. split; [|intros _; apply Hl]. rewrite Eu' in Hz. unfold leftOf, left. cbn. destruct rl, (rsRefreshed st); lia.
    - apply Hc; [intros _; apply Hl|by rewrite Eu' in Hz]. }
  assert (Hl : leased (rsAuth st)) by (split; [done|by apply Hw]).
  destruct (negb (rsRefreshed st) && shouldAttemptRefresh status code bizCode msg bizMsg) eqn:Er; [|by apply Hs].
  eapply yields_bind; [by apply refresh_progress|]. intros [a' []] [H1 H2]; cbn in *; [|by apply Hs].
  apply yields_ret. split; [|intros _; apply H1]. apply andb_true_iff in Er as [Er _]. apply negb_true_iff in Er.
  unfold leftOf, left. cbn. rewrite H2, Er. lia.
Qed.

Lemma healthSwitch_progress maxAttempts allow st hl lf :
  rsAttempts st < maxAttempts -> wellHeld (rsAuth st) -> yields (healthSwitch cw allow st hl lf) (progress maxAttempts st).
Proof.
  intros Hm Hw. unfold healthSwitch. destruct (allow && _) eqn:E; [|by apply yields_ret].
  apply andb_true_iff in E as [_ E]. eapply yields_bind; [apply switch_yields; split; [done|by apply Hw]|].
  intros [a' []] [Hl Hz]; cbn in Hz; apply yields_ret; [|done]. split; [|intros _; apply Hl]. unfold leftOf, left. cbn.
  destruct (rsRefreshed st); lia.
Qed.

Lemma createSessionRound_progress maxAttempts allow st :
  rsAttempts st < maxAttempts -> wellHeld (rsAuth st) -> yields (createSessionRound cw allow st) (progress maxAttempts st).
Proof.
  intros Hm Hw. unfold createSessionRound. eapply yields_bind; [apply yields_any|]. intros [[resp status]|[e nt]] _.
  - destruct (extractResponseStatus resp) as [[[code bizCode] msg] bizMsg]. eapply yields_bind; [apply yields_any|]. intros ? _.
    destruct (_ && _); [by apply yields_ret|]. eapply yields_bind; [apply yields_any|]. intros [hl|] _.
    + by apply healthSwitch_progress.
    + by apply refreshOrSwitch_progress.
  - destruct (_ || _); [by apply yields_ret|]. apply yields_ret. by apply counted_progress.
Qed.

Lemma getPowRound_progress target maxAttempts allow st :
  rsAttempts st < maxAttempts -> wellHeld (rsAuth st) -> yields (getPowRound cw target allow st) (progress maxAttempts st).
Proof.
  intros Hm Hw. unfold getPowRound. eapply yields_bind; [apply yields_any|]. intros [[resp status]|[e nt]] _.
  - destruct (extractResponseStatus resp) as [[[code bizCode] msg] bizMsg]. eapply yields_bind; [apply yields_any|]. intros ? _.
    destruct (_ && _).
    + eapply yields_bind; [apply yields_any|]. intros [hd|[e []]] _; try by apply yields_ret. apply yields_ret. by apply counted_progress.
    + eapply yields_bind; [apply yields_any|]. intros [hl|] _; [by apply healthSwitch_progress|by apply refreshOrSwitch_progress].
  - destruct (_ || _); [by apply yields_ret|]. apply yields_ret. by apply counted_progress.
Qed.

Lemma retryLoop_ends fuel op fallback maxAttempts body st :
  (forall st, rsAttempts st < maxAttempts -> wellHeld (rsAuth st) -> yields (body st) (progress maxAttempts st)) ->
  wellHeld (rsAuth st) -> (leftOf maxAttempts st < fuel)%nat ->
  yields (retryLoop fuel op fallback maxAttempts body st) (fun r => r <> None).
Proof.
  intros Hb. revert st. induction fuel as [|fuel IH]; intros st Hw Hl; [lia|]. cbn [retryLoop].
  destruct (Z.leb_spec maxAttempts (rsAttempts st)) as [H|H]; [by apply yields_ret|].
  eapply yields_bind; [by apply Hb|]. intros [st'|a r] Hp; [|by apply yields_ret].
  destruct Hp as [H1 H2]. apply IH; [done|lia].
Qed.

(** The rounds that are enough: an attempt each, and for every account one more to switch to
    it and one to refresh its token. *)
Definition enoughRounds (maxAttempts : Z) : nat := (Z.to_nat (orMax cw maxAttempts) + 2 * size U + 2)%nat.

(** C13. Creating a session and obtaining a proof of work come to an end, whatever the upstream
    answers: attempts are limited, a token is refreshed at most once for each account, and
    the changes of account that are not counted as attempts, those after a rate limit, use
    the accounts up. *)
Theorem session_setup_ends (a : RequestAuth) (maxAttempts : Z) (allow : bool) (target : string) h :
  wellHeld a ->
  (exists r, (createSession cw (enoughRounds maxAttempts) a maxAttempts allow h).1 = Some r) /\
  (exists r, (getPowForTarget cw (enoughRounds maxAttempts) a target maxAttempts allow h).1 = Some r).
Proof.
  intros Hw. assert (Hf : (leftOf (orMax cw maxAttempts) (initialRetry a) < enoughRounds maxAttempts)%nat).
  { unfold leftOf, left, enoughRounds. cbn. pose proof (subseteq_size (U ∖ used a) U ltac:(intros x; rewrite elem_of_difference; tauto)). lia. }
  assert (E : forall A (m : M (option A)), yields m (fun r => r <> None) -> exists r, (m h).1 = Some r).
  { intros A m Hm. specialize (Hm h). destruct (m h).1 as [r|]; [by exists r|]. by destruct Hm. }
  split; apply E; apply retryLoop_ends; try done; intros; [by apply createSessionRound_progress|by apply getPowRound_progress].
Qed.
End Progress.

(** ** A pinned conversation stays with its account *)

Section Pinned.
Context (cw : ClientWorld) {source : AccountSource cw}.

(** Calls made for the account [id] only, without a switch. *)
Definition pinnedTo (id : string) (c : call) : Prop :=
  match c with
  | CPostSession route _ | CPostPow route _ _ => route = id
  | CMark x _ | CWatch x | CRefresh x _ => x = id
  | CSwitch _ _ => False
  | CSend route _ _ _ => route = id
  | CSolve _ | CSleep _ => True
  end.

Definition pinnedState (id : string) (st : retryState) : Prop := AccountID (rsAuth st) = id /\ rsRoute st = id /\ wellHeld (rsAuth st).

(** What a round leaves. *)
Definition pinnedRound (h0 : history) (id : string) (r : round) (h : history) : Prop :=
  since h0 (pinnedTo id) h /\ match r with Next st => pinnedState id st | Done a _ => AccountID a = id /\ wellHeld a end.

Ltac pinning := repeat keeps_step; try (intros; by apply since_snoc).

Lemma rateLimited_pinned h0 a status code bizCode msg bizMsg ra extra :
  keeps (since h0 (pinnedTo (AccountID a))) (markAccountRateLimited cw a status code bizCode msg bizMsg ra extra).
Proof. unfold markAccountRateLimited, managedAccount. pinning. Qed.

Lemma health_pinned h0 a code bizCode msg bizMsg :
  keeps (since h0 (pinnedTo (AccountID a))) (markAccountHealth cw a code bizCode msg bizMsg).
Proof. unfold markAccountHealth, managedAccount. pinning. Qed.

Lemma refreshOrSwitch_pinned h0 id rl scope status code bizCode msg bizMsg st lf :
  pinnedState id st ->
  triple (since h0 (pinnedTo id)) (refreshOrSwitch cw false rl scope status code bizCode msg bizMsg st lf) (pinnedRound h0 id).
Proof.
  intros (H1 & H2 & H3). unfold refreshOrSwitch. cbn [andb].
  destruct (UseConfigToken (rsAuth st)) eqn:Eu; cbn [negb]; [|apply triple_ret; intros h Hh; by split].
  destruct (negb (rsRefreshed st) && shouldAttemptRefresh status code bizCode msg bizMsg); [|apply triple_ret; intros h Hh; by split].
  eapply triple_bind with (R := fun r h => since h0 (pinnedTo id) h /\ AccountID r.1 = id /\ wellHeld r.1).
  { apply triple_note. intros h Hh. split; [apply since_snoc; [exact H1|exact Hh]|].
    destruct (refreshReply cw h (rsAuth st)) as [a' ok] eqn:E. cbn [fst].
    destruct (as_refreshed h (rsAuth st) a' ok (conj Eu (H3 Eu)) E) as ([Hl1 Hl2] & Hid & _). split; [congruence|by intros _]. }
  intros [a' []]; apply triple_ret; intros h (Hh & Ha & Hw); by split.
Qed.

Lemma healthSwitch_pinned h0 id st hl lf :
  pinnedState id st -> triple (since h0 (pinnedTo id)) (healthSwitch cw false st hl lf) (pinnedRound h0 id).
Proof. intros (H1 & H2 & H3). unfold healthSwitch. apply triple_ret. intros h Hh. by split. Qed.

Lemma createSessionRound_pinned h0 id st :
  pinnedState id st -> triple (since h0 (pinnedTo id)) (createSessionRound cw false st) (pinnedRound h0 id).
Proof.
  intros Hp. pose proof Hp as (H1 & H2 & H3). unfold createSessionRound.
  eapply triple_bind with (R := fun _ => since h0 (pinnedTo id)); [apply triple_perform; intros h; by apply since_snoc|].
  intros [[resp status]|[e nt]].
  - destruct (extractResponseStatus resp) as [[[code bizCode] msg] bizMsg].
    eapply triple_bind with (R := fun _ => since h0 (pinnedTo id)); [rewrite <- H1; apply rateLimited_pinned|]. intros ?.
    destruct (_ && _); [apply triple_ret; intros h Hh; by split|].
    eapply triple_bind with (R := fun _ => since h0 (pinnedTo id)); [rewrite <- H1; apply health_pinned|].
    intros [hl|]; [by apply healthSwitch_pinned|by apply refreshOrSwitch_pinned].
  - destruct (_ || _); apply triple_ret; intros h Hh; by split.
Qed.

Lemma getPowRound_pinned target h0 id st :
  pinnedState id st -> triple (since h0 (pinnedTo id)) (getPowRound cw target false st) (pinnedRound h0 id).
Proof.
  intros Hp. pose proof Hp as (H1 & H2 & H3). unfold getPowRound.
  eapply triple_bind with (R := fun _ => since h0 (pinnedTo id)); [apply triple_perform; intros h; by apply since_snoc|].
  intros [[resp status]|[e nt]].
  - destruct (extractResponseStatus resp) as [[[code bizCode] msg] bizMsg].
    eapply triple_bind with (R := fun _ => since h0 (pinnedTo id)); [rewrite <- H1; apply rateLimited_pinned|]. intros ?.
    destruct (_ && _).
    + eapply triple_bind with (R := fun _ => since h0 (pinnedTo id)); [apply triple_perform; intros h; by apply since_snoc|].
      intros [hd|[e []]]; apply triple_ret; intros h Hh; by split.
    + eapply triple_bind with (R := fun _ => since h0 (pinnedTo id)); [rewrite <- H1; apply health_pinned|].
      intros [hl|]; [by apply healthSwitch_pinned|by apply refreshOrSwitch_pinned].
  - destruct (_ || _); apply triple_ret; intros h Hh; by split.
Qed.

Lemma retryLoop_pinned h0 id fuel op fallback maxAttempts body st :
  (forall st, pinnedState id st -> triple (since h0 (pinnedTo id)) (body st) (pinnedRound h0 id)) -> pinnedState id st ->
  triple (since h0 (pinnedTo id)) (retryLoop fuel op fallback maxAttempts body st)
    (fun r h => since h0 (pinnedTo id) h /\ forall a x, r = Some (a, x) -> AccountID a = id).
Proof.
  intros Hb. revert st. induction fuel as [|fuel IH]; intros st Hp; cbn [retryLoop]; [by apply triple_ret|].
  destruct (maxAttempts <=? rsAttempts st); [apply triple_ret; intros h Hh; split; [done|intros a x [= <- <-]; apply Hp]|].
  eapply triple_bind; [by apply Hb|]. intros [st'|a r].
  - intros h [Hh Hs]. by apply IH.
  - apply triple_ret. intros h [Hh [Ha _]]. split; [done|]. by intros a' x [= <- <-].
Qed.

(** A pinned conversation stays with its account: while its session is created and its proof
    of work obtained every call goes out through that account's route, only that account is
    marked or has its token refreshed, none is switched to, and the request still names that
    account at the end, whatever the upstream answers. *)
Theorem pinned_stays fuel (a : RequestAuth) h :
  wellHeld a ->
  (let '(r, h') := CreateSessionPinned cw fuel a h in
   since h (pinnedTo (AccountID a)) h' /\ forall a' x, r = Some (a', x) -> AccountID a' = AccountID a) /\
  (let '(r, h') := GetPowPinned cw fuel a h in
   since h (pinnedTo (AccountID a)) h' /\ forall a' x, r = Some (a', x) -> AccountID a' = AccountID a).
Proof.
  intros Hw. assert (Hp : pinnedState (AccountID a) (initialRetry a)) by done. split.
  - pose proof (retryLoop_pinned h (AccountID a) fuel "create session" "create session failed" (orMax cw 3) _ _
      (createSessionRound_pinned h (AccountID a)) Hp h (since_start _ _)) as H.
    change (CreateSessionPinned cw fuel a) with (retryLoop fuel "create session" "create session failed" (orMax cw 3) (createSessionRound cw false) (initialRetry a)).
    destruct (retryLoop _ _ _ _ _ _ h) as [r h']. exact H.
  - pose proof (retryLoop_pinned h (AccountID a) fuel "get pow" "get pow failed" (orMax cw 3) _ _
      (getPowRound_pinned DeepSeekCompletionTargetPath h (AccountID a)) Hp h (since_start _ _)) as H.
    change (GetPowPinned cw fuel a) with (retryLoop fuel "get pow" "get pow failed" (orMax cw 3) (getPowRound cw DeepSeekCompletionTargetPath false) (initialRetry a)).
    destruct (retryLoop _ _ _ _ _ _ h) as [r h']. exact H.
Qed.
End Pinned.

(** ** A concrete client *)

(** The upstream answers every call with [status] and an empty object; no account is left to
    switch to, and no token can be refreshed. *)
Definition lonely (status : Z) (send : sendAnswer) : ClientWorld := {|
  cStore := fun _ => scene; cNow := fun _ => 0; ctxErr := fun _ => []; postReply := fun _ => Ok ([], status);
  solveReply := fun _ _ => Ok "pow"; sendReply := fun _ => send;
  switchReply := fun _ a => (tryHeld a, false); refreshReply := fun _ a => (a, false);
  rfc3339 := fun _ => ""; parseHTTPTime := fun _ => None; maxRetries := 3 |}.

#[global] Instance lonely_source status send : AccountSource (lonely status send).
Proof. split; intros h a a'; [by intros _ [=]| |]; [intros Hl [= <-]; by split|intros ok Hl [= <- _]; by split]. Qed.

Definition aliceLease : RequestAuth := leaseAuth "caller:1" "" alice ∅.

Lemma session_setup_ends_witness :
  exists r, (createSession (lonely 503 (Failed [] false)) (enoughRounds (lonely 503 (Failed [] false)) ∅ 3) aliceLease 3 true []).1 = Some r.
Proof.
  apply (@session_setup_ends _ (lonely_source 503 (Failed [] false)) ∅) with (target := ""); [by intros h a a' [=]|by intros _].
Defined.

Lemma pinned_stays_witness : let '(r, h') := CreateSessionPinned (lonely 503 (Failed [] false)) 9 aliceLease [] in
  (length h' = 3)%nat /\ forall a x, r = Some (a, x) -> AccountID a = aliceID.
Proof.
  destruct (@pinned_stays _ (lonely_source 503 (Failed [] false)) 9 aliceLease [] ltac:(by intros _)) as [H _].
  assert (E : length (CreateSessionPinned (lonely 503 (Failed [] false)) 9 aliceLease []).2 = 3%nat) by (vm_compute; reflexivity).
  destruct (CreateSessionPinned _ _ _ _) as [r h']. split; [exact E|apply H].
Defined.
