(* ===== verification/Completion.v ===== *)
(** The completion request with its retries, changes of account and refreshes:
    [internal/deepseek/client/client_completion.go].

    Headers are the token and the proof of work; the payload is the session it names.  The
    request is returned beside the result, since a switch changes it in place even when it
    fails.  JSON, the network and the clock are parameters, the resolver is an
    [AccountSource]; logging and packet capture are left out. *)
From stdpp Require Import fin_sets.
From S2P Require Import Prelude GoString Config Affinity Pool Json UpstreamError Resolver AccountHealth Traced Client.
From Stdlib Require Import Ascii.
Local Open Scope string_scope.
Local Open Scope Z_scope.
Local Open Scope list_scope.

Definition completionFailureBodyLimit : nat := N.to_nat 4096.
Definition completionSSEPreludeLimit : nat := N.to_nat 65536.

(** What the caller gets: the body, and the session and proof of work its continuation would use. *)
Record completionStream := { csBody : httpBody; csContinue : option (string * string) }.

Inductive switchOutcome :=
| Switched (route token pow session : string)
| NoCandidate                                   (** [errNoCompletionSwitchCandidate] *)
| SwitchError (e : err).

Record compState := {
  coAuth : RequestAuth; coRoute : string; coToken : string; coPow : string; coSession : string;
  coAttempts : Z; coRefreshed : bool
}.

Inductive compRound := CNext (st : compState) | CDone (a : RequestAuth) (r : result err completionStream).

Section Completion.
Context (cw : ClientWorld).
(** [json.Unmarshal] into a map, [strconv.ParseFloat] and the float64 product of [AccountHealth]. *)
Context (Unmarshal : string -> option jobject) (ParseFloat : string -> option (Z * positive)) (fractionNanos : Z -> positive -> Z).

(** ** The first line of a response *)

Definition completionPreludePayload (line : string) : string * bool :=
  let line := TrimSpace line in
  if HasPrefix line "data:" then (TrimSpace (TrimPrefix line "data:"), true)
  else if HasPrefix line "{" then (line, true)
  else ("", false).

Definition payloadHealth (payload : string) : option accountHealth :=
  if bool_decide (payload = "") || bool_decide (payload = "[DONE]") then None
  else match Unmarshal payload with
       | Some chunk => accountHealthErrorFromSSEChunk ParseFloat fractionNanos chunk
       | None => None
       end.

(** The report of the first line that carries data.  [read] bytes were buffered so far; the
    body that is handed on is the same, the buffer before the rest. *)
Fixpoint inspectPrelude (read : nat) (lines : list string) (bodyErr : err) : result err (option accountHealth) :=
  let atEnd := match bodyErr with [] => Ok None | e => Err e end in
  if (completionSSEPreludeLimit <? read)%nat then Ok None
  else match lines with
       | [] => atEnd
       | line :: lines =>
           let '(payload, candidate) := completionPreludePayload (TrimSpace line) in
           if candidate then Ok (payloadHealth payload)
           else if HasSuffix line (String newline "") then inspectPrelude (read + String.length line) lines bodyErr
           else atEnd
       end.

Definition markPrelude (a : RequestAuth) (h : accountHealth) : M unit :=
  if UseConfigToken a && negb (bool_decide (TrimSpace (AccountID a) = "")) then emit (CMark (AccountID a) h) else ret tt.

Definition inspectCompletionSSEPrelude (a : RequestAuth) (body : httpBody) : M (result err (option accountHealth)) :=
  match inspectPrelude 0 (bodyText body) (bodyError body) with
  | Ok (Some h) => let* _ := markPrelude a h in ret (Ok (Some h))
  | r => ret r
  end.

Definition wrapAccountHealthBody (a : RequestAuth) : M unit :=
  if UseConfigToken a && negb (bool_decide (AccountID a = "")) then emit (CWatch (AccountID a)) else ret tt.

(** ** A refused request *)

Definition bodyString (body : httpBody) : string := foldr (fun l s => l +:+ s) "" (bodyText body).

(** The body is read up to its limit; a read error counts only before it. *)
Definition limitedBody (body : httpBody) : result err string :=
  let text := bodyString body in
  match bodyError body with
  | [] => Ok (strTake completionFailureBodyLimit text)
  | e => if (completionFailureBodyLimit <? String.length text)%nat then Ok (strTake completionFailureBodyLimit text) else Err e
  end.

(** The codes of a refusal; those of [data] count when the outer ones are zero. *)
Definition refusalStatus (parsed : jobject) : Z * Z * string * string :=
  let '(code, bizCode, msg, bizMsg) := extractResponseStatus parsed in
  match isObject (member "data" parsed) with
  | Some data =>
      (if code =? 0 then IntFrom (member "code" data) else code,
       if bizCode =? 0 then IntFrom (member "biz_code" data) else bizCode, msg, bizMsg)
  | None => (code, bizCode, msg, bizMsg)
  end.

Definition completionStatusFailure (a : RequestAuth) (status : Z) (retryAfter : string) (body : httpBody) : M err :=
  match limitedBody body with
  | Err e =>
      ret (LRequest {| Op := "completion"; Kind := FailureUpstreamNetwork; FMessage := "read upstream error body: " +:+ Error e;
                       StatusCode := status; Scope := ScopeUnset |} :: e)
  | Ok text =>
      let message := orText (TrimSpace text) (StatusText status) in
      let parsed := refusalStatus <$> Unmarshal text in
      let '(code, bizCode, msg, bizMsg) := default (0, 0, "", "") parsed in
      let* health := (match parsed with Some _ => markAccountHealth cw a code bizCode msg bizMsg | None => ret None end) in
      match health with
      | Some h => ret (healthError cw h)
      | None =>
          let* _ := markAccountRateLimited cw a status code bizCode msg bizMsg retryAfter [message] in
          ret (requestFailure "completion"
                 (if isAuthFailure status code bizCode msg bizMsg then authFailureKind (UseConfigToken a) else FailureUpstreamStatus)
                 status (rateLimitScopeFromResponse status code bizCode msg bizMsg [message]) message)
      end
  end.

Definition completionFailureRetryable (e : err) : bool := negb (IsClientCancelledError e) && negb (IsUpstreamTimeoutError e).

(** ** Another account *)

Definition switchable (a : RequestAuth) (acc : Account) : bool :=
  let candidate := TrimSpace (Identifier acc) in
  negb (bool_decide (candidate = "")) && negb (bool_decide (candidate = TrimSpace (AccountID a))) && negb (Disabled acc)
  && negb (bool_decide (candidate ∈ TriedAccounts a)).

Definition hasCompletionSwitchCandidate (a : RequestAuth) : M bool := look (fun h => existsb (switchable a) (Accounts (cStore cw h))).

(** The failure of a call that was answered. *)
Definition retryFailure (op fallback : string) (a : RequestAuth) (status code bizCode : Z) (msg bizMsg : string) : err :=
  requestFailure op (if isAuthFailure status code bizCode msg bizMsg then authFailureKind (UseConfigToken a) else FailureUpstreamStatus)
    status ScopeUnset (failureMessage msg bizMsg fallback).

Definition transportError {A} (op : string) (e : err) (netTimeout : bool) : M (result err A) :=
  look (fun h => Err (transportFailure op (ctxErr cw h) e netTimeout)).

Definition createCompletionRetrySession (a : RequestAuth) (route : string) : M (result err string) :=
  let* resp := perform (CPostSession route (DeepSeekToken a)) (postReply cw) in
  match resp with
  | Err (e, nt) => transportError "create session" e nt
  | Ok (resp, status) =>
      let '(code, bizCode, msg, bizMsg) := extractResponseStatus resp in
      let* _ := markAccountRateLimited cw a status code bizCode msg bizMsg "" [] in
      let sessionID := extractCreateSessionID resp in
      if (status =? 200) && (code =? 0) && (bizCode =? 0) && negb (bool_decide (sessionID = "")) then ret (Ok sessionID)
      else
        let* health := markAccountHealth cw a code bizCode msg bizMsg in
        ret (Err (match health with
                  | Some h => healthError cw h
                  | None => retryFailure "create session" "create session failed" a status code bizCode msg bizMsg
                  end))
  end.

Definition getCompletionRetryPow (a : RequestAuth) (route : string) : M (result err string) :=
  let* resp := perform (CPostPow route (DeepSeekToken a) DeepSeekCompletionTargetPath) (postReply cw) in
  match resp with
  | Err (e, nt) => transportError "get pow" e nt
  | Ok (resp, status) =>
      let '(code, bizCode, msg, bizMsg) := extractResponseStatus resp in
      let* _ := markAccountRateLimited cw a status code bizCode msg bizMsg "" [] in
      if (status =? 200) && (code =? 0) && (bizCode =? 0) then
        let* header := perform (CSolve (challengeOf resp)) (fun h => solveReply cw h (challengeOf resp)) in
        match header with
        | Ok header => ret (Ok header)
        | Err (e, false) => transportError "get pow" e false
        | Err (e, true) => ret (Err e)
        end
      else
        let* health := markAccountHealth cw a code bizCode msg bizMsg in
        ret (Err (match health with
                  | Some h => healthError cw h
                  | None => retryFailure "get pow" "get pow failed" a status code bizCode msg bizMsg
                  end))
  end.

Definition switchCompletionAccount (a : RequestAuth) : M (RequestAuth * switchOutcome) :=
  if negb (UseConfigToken a) then ret (a, NoCandidate)
  else
    let* candidate := hasCompletionSwitchCandidate a in
    if negb candidate then ret (a, NoCandidate)
    else
      let* r := switchAccount cw a in
      match r with
      | (a, false) =>
          let* failed := look (fun h => requestContextFailure "completion" (ctxErr cw h) []) in
          ret (a, match failed with Some e => SwitchError e | None => NoCandidate end)
      | (a, true) =>
          let route := AccountID a in
          let* session := createCompletionRetrySession a route in
          match session with
          | Err e => ret (a, SwitchError e)
          | Ok session =>
              let* pow := getCompletionRetryPow a route in
              ret (a, match pow with Err e => SwitchError e | Ok pow => Switched route (DeepSeekToken a) pow session end)
          end
      end.

(** ** The loop *)

Definition withSwitch (st : compState) (a : RequestAuth) (route token pow session : string) (attempts : Z) : compState :=
  {| coAuth := a; coRoute := route; coToken := token; coPow := pow; coSession := session; coAttempts := attempts;
     coRefreshed := coRefreshed st |}.
Definition withAuth (st : compState) (a : RequestAuth) (attempts : Z) : compState :=
  {| coAuth := a; coRoute := coRoute st; coToken := coToken st; coPow := coPow st; coSession := coSession st; coAttempts := attempts;
     coRefreshed := coRefreshed st |}.
(** The new token with the proof of work the call came with. *)
Definition withRefresh (st : compState) (a : RequestAuth) (powResp : string) : compState :=
  {| coAuth := a; coRoute := AccountID a; coToken := DeepSeekToken a; coPow := powResp; coSession := coSession st;
     coAttempts := coAttempts st; coRefreshed := true |}.

(** Try to go on with another account; [otherwise] when there is none. *)
Definition switchOr (st : compState) (attempts : Z) (lastErr : err) (otherwise : RequestAuth -> M compRound) : M compRound :=
  let* r := switchCompletionAccount (coAuth st) in
  match r with
  | (a, Switched route token pow session) => ret (CNext (withSwitch st a route token pow session attempts))
  | (a, SwitchError e) => ret (CDone a (Err (firstError e lastErr)))
  | (a, NoCandidate) => otherwise a
  end.

Definition sleepCompletionRetry (ms : Z) (st : compState) : M compRound :=
  let* _ := emit (CSleep ms) in
  look (fun h => match ctxErr cw h with
                 | [] => CNext st
                 | e => CDone (coAuth st) (Err (default e (requestContextFailure "completion" e [])))
                 end).

(** The attempt is counted; [allow] says whether another account may be tried, and [pause]
    whether the loop waits before it goes on with the same one. *)
Definition countAttempt (maxAttempts : Z) (allow pause : bool) (st : compState) (lastErr : err) : M compRound :=
  let attempts := coAttempts st + 1 in
  let same a := if pause then sleepCompletionRetry 1000 (withAuth st a attempts) else ret (CNext (withAuth st a attempts)) in
  if maxAttempts <=? attempts then ret (CDone (coAuth st) (Err lastErr))
  else if allow then switchOr st attempts lastErr same
  else same (coAuth st).

(** The account was reported: another one, or the end. *)
Definition afterHealth (allow : bool) (st : compState) (lastErr : err) : M compRound :=
  let giveUp a := ret (CDone a (Err lastErr)) in
  if allow && UseConfigToken (coAuth st) then
    let* candidate := hasCompletionSwitchCandidate (coAuth st) in
    if candidate then switchOr st (coAttempts st) lastErr giveUp else giveUp (coAuth st)
  else giveUp (coAuth st).

Definition refusedRequest (maxAttempts : Z) (allow : bool) (st : compState) (status : Z) (lastErr : err) : M compRound :=
  let capacity := IsSessionCapacityRateLimit lastErr in
  let count st := countAttempt maxAttempts (allow && negb capacity) true st lastErr in
  if allow && negb capacity && (status =? 429) && UseConfigToken (coAuth st) then
    let* candidate := hasCompletionSwitchCandidate (coAuth st) in
    if candidate then switchOr st (coAttempts st) lastErr (fun a => count (withAuth st a (coAttempts st))) else count st
  else count st.

Definition completionRound (powResp : string) (maxAttempts : Z) (allow autoContinue : bool) (st : compState) : M compRound :=
  let a := coAuth st in
  let* answer := perform (CSend (coRoute st) (coToken st) (coPow st) (coSession st)) (sendReply cw) in
  match answer with
  | Failed cause nt =>
      let* lastErr := look (fun h => transportFailure "completion" (ctxErr cw h) cause nt) in
      if negb (completionFailureRetryable lastErr) then ret (CDone a (Err lastErr))
      else countAttempt maxAttempts allow true st lastErr
  | Responded status retryAfter body =>
      if status =? 200 then
        let* _ := wrapAccountHealthBody a in
        let* prelude := inspectCompletionSSEPrelude a body in
        match prelude with
        | Err e =>
            let* lastErr := look (fun h => transportFailure "completion" (ctxErr cw h) e (bodyTimeout body)) in
            if negb (completionFailureRetryable lastErr) then ret (CDone a (Err lastErr))
            else countAttempt maxAttempts allow false st lastErr
        | Ok (Some h) => afterHealth allow st (healthError cw h)
        | Ok None =>
            let session := TrimSpace (coSession st) in
            ret (CDone a (Ok {| csBody := body;
                                csContinue := if autoContinue && negb (bool_decide (session = "")) then Some (session, powResp) else None |}))
        end
      else
        let* lastErr := completionStatusFailure a status retryAfter body in
        match UpstreamError.asHealth lastErr with
        | Some _ => afterHealth allow st lastErr
        | None =>
            if negb (coRefreshed st) && IsManagedUnauthorizedError lastErr then
              let* r := refreshToken cw a in
              match r with
              | (a, true) => ret (CNext (withRefresh st a powResp))
              | (a, false) => refusedRequest maxAttempts allow (withAuth st a (coAttempts st)) status lastErr
              end
            else refusedRequest maxAttempts allow st status lastErr
        end
  end.

(** [None]: out of fuel. *)
Fixpoint completionLoop (fuel : nat) (powResp : string) (maxAttempts : Z) (allow autoContinue : bool) (st : compState)
  : M (option (RequestAuth * result err completionStream)) :=
  match fuel with
  | O => ret None
  | S fuel =>
      let* r := completionRound powResp maxAttempts allow autoContinue st in
      match r with
      | CNext st => completionLoop fuel powResp maxAttempts allow autoContinue st
      | CDone a r => ret (Some (a, r))
      end
  end.

Definition startState (a : RequestAuth) (session powResp : string) : compState :=
  {| coAuth := a; coRoute := AccountID a; coToken := DeepSeekToken a; coPow := powResp; coSession := session; coAttempts := 0;
     coRefreshed := false |}.

Definition callCompletion (fuel : nat) (a : RequestAuth) (session powResp : string) (maxAttempts : Z) (allow autoContinue : bool)
  : M (option (RequestAuth * result err completionStream)) :=
  let maxAttempts := orMax cw maxAttempts in
  let* failed := look (fun h => requestContextFailure "completion" (ctxErr cw h) []) in
  match failed with
  | Some e => ret (Some (a, Err e))
  | None =>
      if maxAttempts <=? 0
      then ret (Some (a, Err (requestFailure "completion" FailureUnknown 0 ScopeUnset "completion failed")))
      else completionLoop fuel powResp maxAttempts allow autoContinue (startState a session powResp)
  end.

Definition CallCompletion (fuel : nat) (a : RequestAuth) (session powResp : string) (maxAttempts : Z) :=
  callCompletion fuel a session powResp maxAttempts true true.
Definition CallCompletionRaw (fuel : nat) (a : RequestAuth) (session powResp : string) (maxAttempts : Z) :=
  callCompletion fuel a session powResp maxAttempts true false.
Definition CallCompletionPinned (fuel : nat) (a : RequestAuth) (session powResp : string) :=
  callCompletion fuel a session powResp 1 false true.
Definition CallCompletionRootPinned (fuel : nat) (a : RequestAuth) (session powResp : string) :=
  callCompletion fuel a session powResp 1 false true.
Definition CallCompletionPinnedRaw (fuel : nat) (a : RequestAuth) (session powResp : string) :=
  callCompletion fuel a session powResp 1 false false.
End Completion.

(** ** The request ends *)

Section Ends.
Context (cw : ClientWorld) {source : AccountSource cw}.
Context (Unmarshal : string -> option jobject) (ParseFloat : string -> option (Z * positive)) (fractionNanos : Z -> positive -> Z).
Context (U : gset string) (HU : forall h a a', switchReply cw h a = (a', true) -> AccountID a' ∈ U).
Context (maxAttempts : Z).

Definition unused (a : RequestAuth) : nat := size (U ∖ used a).

Definition leftFor (st : compState) : nat :=
  Z.to_nat (maxAttempts - coAttempts st) + unused (coAuth st) + (if coRefreshed st then 0 else 1).

Definition moved (a : RequestAuth) (r : RequestAuth * switchOutcome) : Prop :=
  wellHeld r.1 /\ match r.2 with Switched _ _ _ _ => (unused r.1 < unused a)%nat | _ => (unused r.1 <= unused a)%nat end.

Lemma switchCompletion_moved a : wellHeld a -> yields (switchCompletionAccount cw a) (moved a).
Proof.
  intros Hw. unfold switchCompletionAccount. destruct (UseConfigToken a) eqn:Eu; cbn [negb]; [|apply yields_ret; split; [done|cbn; lia]].
  eapply yields_bind; [apply yields_any|]. intros [] _; cbn [negb]; [|apply yields_ret; split; [done|cbn; lia]].
  eapply yields_bind; [by apply (switch_yields cw U HU); split; [done|apply Hw]|]. intros [a' []] [Hl Hz]; cbn in Hl, Hz.
  - assert (Hw' : wellHeld a') by (intros _; apply Hl).
    eapply yields_bind; [apply yields_any|]. intros [session|e] _; [|apply yields_ret; (split; [done|cbn; unfold unused; lia])].
    eapply yields_bind; [apply yields_any|]. intros [pow|e] _; apply yields_ret; split; cbn; unfold unused; first [done|lia].
  - eapply yields_bind; [apply yields_any|]. intros [e|] _; apply yields_ret; (split; [by intros _; apply Hl|exact Hz]).
Qed.

(** The next state is better than [n]. *)
Definition better (n : nat) (r : compRound) : Prop :=
  match r with CNext st => (leftFor st < n)%nat /\ wellHeld (coAuth st) /\ coAttempts st < maxAttempts | CDone _ _ => True end.

Lemma switchOr_better n st attempts lastErr otherwise :
  wellHeld (coAuth st) -> attempts < maxAttempts -> coAttempts st <= attempts -> (leftFor st <= n)%nat ->
  (forall a, wellHeld a -> (unused a <= unused (coAuth st))%nat -> yields (otherwise a) (better n)) ->
  yields (switchOr cw st attempts lastErr otherwise) (better n).
Proof.
  intros Hw Hm Ha Hn Ho. unfold switchOr. eapply yields_bind; [by apply switchCompletion_moved|].
  intros [a' [route token pow session| |e]] [Hw' Hz]; cbn in Hw', Hz; [|by apply Ho|by apply yields_ret].
  apply yields_ret. split; [|done]. unfold leftFor in *. cbn. lia.
Qed.

Lemma countAttempt_better n allow pause st lastErr :
  wellHeld (coAuth st) -> coAttempts st < maxAttempts -> (leftFor st <= n)%nat ->
  yields (countAttempt cw maxAttempts allow pause st lastErr) (better n).
Proof.
  intros Hw Hm Hn. unfold countAttempt. destruct (Z.leb_spec maxAttempts (coAttempts st + 1)); [by apply yields_ret|].
  assert (Hs : forall a, wellHeld a -> (unused a <= unused (coAuth st))%nat ->
    yields (if pause : bool then sleepCompletionRetry cw 1000 (withAuth st a (coAttempts st + 1))
            else ret (CNext (withAuth st a (coAttempts st + 1)))) (better n)).
  { intros a Ha Hu. assert (Hb : better n (CNext (withAuth st a (coAttempts st + 1)))).
    { split; [|done]. unfold leftFor in *. cbn. lia. }
    destruct pause; [|by apply yields_ret]. unfold sleepCompletionRetry. eapply yields_bind; [apply yields_any|]. intros ? _ h.
    unfold look. cbn [fst]. by destruct (ctxErr cw h). }
  destruct allow; [apply switchOr_better; [done|lia|lia|done|apply Hs]|by apply Hs].
Qed.

Lemma afterHealth_better n allow st lastErr :
  wellHeld (coAuth st) -> coAttempts st < maxAttempts -> (leftFor st <= n)%nat -> yields (afterHealth cw allow st lastErr) (better n).
Proof.
  intros Hw Hm Hn. unfold afterHealth. destruct (_ && _); [|by apply yields_ret].
  eapply yields_bind; [apply yields_any|]. intros [] _; [|by apply yields_ret].
  apply switchOr_better; [done|done|lia|done|]. intros a _ _. by apply yields_ret.
Qed.

Lemma refused_better n allow st status lastErr :
  wellHeld (coAuth st) -> coAttempts st < maxAttempts -> (leftFor st <= n)%nat ->
  yields (refusedRequest cw maxAttempts allow st status lastErr) (better n).
Proof.
  intros Hw Hm Hn. unfold refusedRequest.
  destruct (allow && negb (IsSessionCapacityRateLimit lastErr) && (status =? 429) && UseConfigToken (coAuth st)); [|by apply countAttempt_better].
  eapply yields_bind; [apply yields_any|]. intros [] _; [|by apply countAttempt_better].
  apply switchOr_better; [done|done|lia|done|]. intros a Ha Hu. apply countAttempt_better; [done|done|]. unfold leftFor in *. cbn. lia.
Qed.

(** A caller with a token of its own is never taken for a pooled one. *)
Lemma refusal_kind a status ra body : yields (completionStatusFailure cw Unmarshal a status ra body)
  (fun e => UseConfigToken a = false -> IsManagedUnauthorizedError e = false).
Proof.
  unfold completionStatusFailure. destruct (limitedBody body) as [text|e]; [|by apply yields_ret].
  destruct (default (0, 0, "", "") _) as [[[code bizCode] msg] bizMsg]. eapply yields_bind; [apply yields_any|]. intros [hl|] _.
  - by apply yields_ret.
  - eapply yields_bind; [apply yields_any|]. intros ? _. apply yields_ret. intros ->. unfold IsManagedUnauthorizedError. cbn.
    by destruct (isAuthFailure _ _ _ _ _).
Qed.

Lemma round_better powResp allow autoContinue st :
  wellHeld (coAuth st) -> coAttempts st < maxAttempts ->
  yields (completionRound cw Unmarshal ParseFloat fractionNanos powResp maxAttempts allow autoContinue st) (better (leftFor st)).
Proof.
  intros Hw Hm. unfold completionRound. eapply yields_bind; [apply yields_any|]. intros [cause nt|status ra body] _.
  - eapply yields_bind; [apply yields_any|]. intros le _. destruct (negb _); [by apply yields_ret|by apply countAttempt_better].
  - destruct (status =? 200).
    + eapply yields_bind; [apply yields_any|]. intros u _. eapply yields_bind; [apply yields_any|]. intros [[hl|]|e] _.
      * by apply afterHealth_better.
      * by apply yields_ret.
      * eapply yields_bind; [apply yields_any|]. intros le _. destruct (negb _); [by apply yields_ret|by apply countAttempt_better].
    + eapply yields_bind; [apply (refusal_kind (coAuth st) status ra body)|]. intros le Hd.
      destruct (UpstreamError.asHealth le); [by apply afterHealth_better|].
      destruct (negb (coRefreshed st) && IsManagedUnauthorizedError le) eqn:Er; [|by apply refused_better].
      apply andb_true_iff in Er as [Er Hi]. apply negb_true_iff in Er.
      destruct (UseConfigToken (coAuth st)) eqn:Eu.
      * eapply yields_bind; [apply (refresh_progress cw); split; [done|by apply Hw]|]. intros [a' []] [Hl Hu]; cbn in Hl, Hu.
        -- apply yields_ret. split; [|split; [intros _; apply Hl|done]]. unfold leftFor, unused. cbn. rewrite Hu, Er. lia.
        -- apply refused_better; [intros _; apply Hl|done|]. unfold leftFor, unused. cbn. rewrite Hu. lia.
      * by rewrite (Hd eq_refl) in Hi.
Qed.

Lemma completionLoop_ends fuel powResp allow autoContinue st :
  wellHeld (coAuth st) -> coAttempts st < maxAttempts -> (leftFor st < fuel)%nat ->
  yields (completionLoop cw Unmarshal ParseFloat fractionNanos fuel powResp maxAttempts allow autoContinue st) (fun r => r <> None).
Proof.
  revert st. induction fuel as [|fuel IH]; intros st Hw Hm Hl; [lia|]. cbn [completionLoop].
  eapply yields_bind; [by apply round_better|]. intros [st'|a r] Hb; [|by apply yields_ret].
  destruct Hb as (H1 & H2 & H3). apply IH; [done|done|lia].
Qed.

(** *** Counting the requests that are sent *)

Definition isSend (c : call) : bool := match c with CSend _ _ _ _ => true | _ => false end.
Definition sends (h : list call) : nat := length (filter (fun c => isSend c = true) h).

Lemma sends_snoc (h : list call) c : sends (h ++ [c]) = (sends h + if isSend c then 1 else 0)%nat.
Proof. unfold sends. rewrite filter_app, length_app, filter_cons, filter_nil. by destruct (isSend c). Qed.

Definition sentBy (n : nat) (h : history) : Prop := sends h = n.

Lemma sentBy_quiet n h c : isSend c = false -> sentBy n h -> sentBy n (h ++ [c]).
Proof. unfold sentBy. intros E <-. rewrite sends_snoc, E. lia. Qed.

Ltac unsent := repeat keeps_step; try (intros; by apply sentBy_quiet).

Lemma rateLimited_sent n a status code bizCode msg bizMsg ra extra :
  keeps (sentBy n) (markAccountRateLimited cw a status code bizCode msg bizMsg ra extra).
Proof. unfold markAccountRateLimited, managedAccount. unsent. Qed.

Lemma health_sent n a code bizCode msg bizMsg : keeps (sentBy n) (markAccountHealth cw a code bizCode msg bizMsg).
Proof. unfold markAccountHealth, managedAccount. unsent. Qed.

Lemma switchCompletion_sent n a : keeps (sentBy n) (switchCompletionAccount cw a).
Proof.
  unfold switchCompletionAccount, hasCompletionSwitchCandidate, switchAccount, createCompletionRetrySession, getCompletionRetryPow, transportError.
  unsent; try apply rateLimited_sent; apply health_sent.
Qed.

Lemma switchOr_sent n st attempts lastErr otherwise :
  (forall a, keeps (sentBy n) (otherwise a)) -> keeps (sentBy n) (switchOr cw st attempts lastErr otherwise).
Proof.
  intros Ho. unfold switchOr. apply keeps_bind; [apply switchCompletion_sent|].
  intros [a [route token pow session| |e]]; [apply keeps_ret|apply Ho|apply keeps_ret].
Qed.

Lemma countAttempt_sent n allow pause st lastErr : keeps (sentBy n) (countAttempt cw maxAttempts allow pause st lastErr).
Proof.
  assert (Hs : forall a, keeps (sentBy n) (if pause : bool then sleepCompletionRetry cw 1000 (withAuth st a (coAttempts st + 1))
      else ret (CNext (withAuth st a (coAttempts st + 1))))).
  { intros a. unfold sleepCompletionRetry. unsent. }
  unfold countAttempt. destruct (_ <=? _); [apply keeps_ret|]. destruct allow; [by apply switchOr_sent|apply Hs].
Qed.

Lemma afterHealth_sent n allow st lastErr : keeps (sentBy n) (afterHealth cw allow st lastErr).
Proof.
  unfold afterHealth, hasCompletionSwitchCandidate. destruct (_ && _); [|apply keeps_ret].
  apply keeps_bind; [apply keeps_look|]. intros []; [|apply keeps_ret]. apply switchOr_sent. intros a. apply keeps_ret.
Qed.

Lemma refused_sent n allow st status lastErr : keeps (sentBy n) (refusedRequest cw maxAttempts allow st status lastErr).
Proof.
  unfold refusedRequest, hasCompletionSwitchCandidate.
  destruct (allow && negb (IsSessionCapacityRateLimit lastErr) && (status =? 429) && UseConfigToken (coAuth st)); [|apply countAttempt_sent].
  apply keeps_bind; [apply keeps_look|]. intros []; [|apply countAttempt_sent]. apply switchOr_sent. intros a. apply countAttempt_sent.
Qed.

Lemma round_sent powResp allow autoContinue st n :
  triple (sentBy n) (completionRound cw Unmarshal ParseFloat fractionNanos powResp maxAttempts allow autoContinue st) (fun _ => sentBy (S n)).
Proof.
  unfold completionRound. eapply triple_bind with (R := fun _ => sentBy (S n)).
  { apply triple_perform. unfold sentBy. intros h <-. rewrite sends_snoc. cbn. lia. }
  intros answer. change (fun _ : compRound => sentBy (S n)) with (fun _ : compRound => sentBy (S n)).
  match goal with |- triple _ ?m _ => change (keeps (sentBy (S n)) m) end.
  destruct answer as [cause nt|status ra body].
  - apply keeps_bind; [apply keeps_look|]. intros le. destruct (negb _); [apply keeps_ret|apply countAttempt_sent].
  - destruct (status =? 200).
    + apply keeps_bind; [unfold wrapAccountHealthBody; unsent|]. intros u.
      apply keeps_bind; [unfold inspectCompletionSSEPrelude, markPrelude; unsent|]. intros [[hl|]|e].
      * apply afterHealth_sent.
      * apply keeps_ret.
      * apply keeps_bind; [apply keeps_look|]. intros le. destruct (negb _); [apply keeps_ret|apply countAttempt_sent].
    + apply keeps_bind.
      { unfold completionStatusFailure. unsent; [apply health_sent|apply rateLimited_sent]. }
      intros le. destruct (UpstreamError.asHealth le); [apply afterHealth_sent|]. destruct (_ && _); [|apply refused_sent].
      apply keeps_bind; [unfold refreshToken; unsent|]. intros [a []]; [apply keeps_ret|apply refused_sent].
Qed.

Lemma loop_sent fuel powResp allow autoContinue st n :
  wellHeld (coAuth st) -> coAttempts st < maxAttempts ->
  triple (sentBy n) (completionLoop cw Unmarshal ParseFloat fractionNanos fuel powResp maxAttempts allow autoContinue st)
    (fun _ h => (sends h <= n + leftFor st)%nat).
Proof.
  revert st n. induction fuel as [|fuel IH]; intros st n Hw Hm; cbn [completionLoop]; [apply triple_ret; unfold sentBy; lia|].
  eapply triple_bind; [eapply triple_value; [apply round_sent|by apply round_better]|]. intros [st'|a r].
  - intros h [Hs (H1 & H2 & H3)]. pose proof (IH st' (S n) H2 H3 h Hs) as H. cbn in H. lia.
  - apply triple_ret. unfold sentBy. intros h [-> _]. unfold leftFor. lia.
Qed.
End Ends.

(** C12. A completion request comes to an end, and the upstream is asked a bounded number of
    times: once for every attempt, once more after the token was refreshed, and once for
    every account a rate limit or a report on the account made it move to.  This holds for
    every answer of the upstream and every failure of a login. *)
Theorem completion_bounded (cw : ClientWorld) `{source : AccountSource cw} Unmarshal ParseFloat fractionNanos (U : gset string)
  (a : RequestAuth) (session powResp : string) (maxAttempts : Z) (allow autoContinue : bool) h :
  (forall h a a', switchReply cw h a = (a', true) -> AccountID a' ∈ U) -> wellHeld a ->
  let bound := (Z.to_nat (orMax cw maxAttempts) + size U + 1)%nat in
  let '(r, h') := callCompletion cw Unmarshal ParseFloat fractionNanos (S bound) a session powResp maxAttempts allow autoContinue h in
  r <> None /\ (sends h' <= sends h + bound)%nat.
Proof.
  intros HU Hw bound. unfold callCompletion, bind, look. destruct (requestContextFailure _ _ _); [split; [done|lia]|].
  destruct (Z.leb_spec (orMax cw maxAttempts) 0) as [Hm|Hm]; [split; [done|lia]|].
  set (st := startState a session powResp).
  assert (Hl : (leftFor U (orMax cw maxAttempts) st <= bound)%nat).
  { unfold leftFor, unused, bound. cbn. pose proof (subseteq_size (U ∖ used a) U ltac:(intros x; rewrite elem_of_difference; tauto)). lia. }
  pose proof (completionLoop_ends cw Unmarshal ParseFloat fractionNanos U HU (orMax cw maxAttempts) (S bound) powResp allow autoContinue st Hw Hm ltac:(lia) h) as H1.
  pose proof (loop_sent cw Unmarshal ParseFloat fractionNanos U HU (orMax cw maxAttempts) (S bound) powResp allow autoContinue st (sends h) Hw Hm h eq_refl) as H2.
  destruct (completionLoop _ _ _ _ _ _ _ _ _ st h) as [r h']. cbn [fst snd] in *. split; [done|lia].
Qed.

(** ** Where requests go *)

Section Aligned.
Context (cw : ClientWorld) {source : AccountSource cw}.
Context (Unmarshal : string -> option jobject) (ParseFloat : string -> option (Z * positive)) (fractionNanos : Z -> positive -> Z).
Context (h0 : history) (a0 : RequestAuth) (session0 : string).

(** The session that an answer announces. *)
Definition announced (r : result (err * bool) (jobject * Z)) : option string :=
  match r with
  | Ok (resp, _) => let id := extractCreateSessionID resp in if bool_decide (id = "") then None else Some id
  | Err _ => None
  end.

(** The session was created through the account's route. *)
Definition createdOn (h : history) (route session : string) : Prop :=
  exists pre token post, h = pre ++ CPostSession route token :: post /\
    announced (postReply cw (pre ++ [CPostSession route token])) = Some session.

Definition ownSession (h : history) (route session : string) : Prop :=
  (route = AccountID a0 /\ session = session0) \/ createdOn h route session.

Definition switchKept (c : call) : Prop := match c with CSwitch _ false => False | _ => True end.
(** No switch failed so far. *)
Definition clean (h : history) : Prop := since h0 switchKept h.

(** A request goes to a session of the account whose route it takes, and its body is watched
    for reports on that account. *)
Definition aligned (pre : history) (c : call) : Prop :=
  match c with
  | CSend route _ _ session => clean pre -> ownSession pre route session
  | CWatch id => clean pre -> exists pre' token pow session, pre = pre' ++ [CSend id token pow session]
  | _ => True
  end.

Definition neutral (c : call) : Prop := match c with CSend _ _ _ _ | CWatch _ => False | _ => True end.

(** The state of the loop: the account, the route and the session belong together. *)
Definition together (st : compState) (h : history) : Prop :=
  permitted h0 aligned h /\ wellHeld (coAuth st) /\
  (clean h -> coRoute st = AccountID (coAuth st) /\ ownSession h (coRoute st) (coSession st)).

Lemma ownSession_app h h' route session : ownSession h route session -> ownSession (h ++ h') route session.
Proof.
  intros [H|(pre & token & post & -> & H)]; [by left|]. right. exists pre, token, (post ++ h'). split; [by rewrite <- app_assoc|done].
Qed.

Lemma clean_back h c : permitted h0 aligned h -> clean (h ++ [c]) -> clean h.
Proof. intros Hp. apply since_snoc_inv. by eapply permitted_length. Qed.

Lemma neutral_permitted h c : neutral c -> permitted h0 aligned h -> permitted h0 aligned (h ++ [c]).
Proof. intros Hc Hp. apply permitted_snoc; [done|]. by destruct c. Qed.

Lemma neutral_together st h c : neutral c -> together st h -> together st (h ++ [c]).
Proof.
  intros Hc (H1 & H2 & H3). split; [by apply neutral_permitted|]. split; [done|]. intros Hk.
  destruct (H3 (clean_back h c H1 Hk)) as [H4 H5]. split; [done|]. by apply ownSession_app.
Qed.

Ltac neutrally := repeat keeps_step; try (intros; first [by apply neutral_together|by apply neutral_permitted]).

Lemma rateLimited_together st a status code bizCode msg bizMsg ra extra :
  keeps (together st) (markAccountRateLimited cw a status code bizCode msg bizMsg ra extra).
Proof. unfold markAccountRateLimited, managedAccount. neutrally. Qed.

Lemma health_together st a code bizCode msg bizMsg : keeps (together st) (markAccountHealth cw a code bizCode msg bizMsg).
Proof. unfold markAccountHealth, managedAccount. neutrally. Qed.

Lemma permitted_marks a status code bizCode msg bizMsg ra extra :
  keeps (permitted h0 aligned) (markAccountRateLimited cw a status code bizCode msg bizMsg ra extra).
Proof. unfold markAccountRateLimited, managedAccount. neutrally. Qed.

Lemma permitted_health a code bizCode msg bizMsg : keeps (permitted h0 aligned) (markAccountHealth cw a code bizCode msg bizMsg).
Proof. unfold markAccountHealth, managedAccount. neutrally. Qed.

(** A session that was created stays so, whatever else is called. *)
Lemma created_keeps route session {A} (m : M A) :
  keeps (permitted h0 aligned) m -> (forall h, exists new, (m h).2 = h ++ new) ->
  keeps (fun h => permitted h0 aligned h /\ createdOn h route session) m.
Proof.
  intros Hk He h [Hp (pre & token & post & -> & Ha)]. split; [by apply Hk|].
  destruct (He (pre ++ CPostSession route token :: post)) as [new ->]. exists pre, token, (post ++ new).
  split; [by rewrite <- app_assoc|done].
Qed.

Lemma created_snoc route session h c : createdOn h route session -> createdOn (h ++ [c]) route session.
Proof. intros (pre & token & post & -> & Ha). exists pre, token, (post ++ [c]). split; [by rewrite <- app_assoc|done]. Qed.

Definition madeSession (route session : string) (h : history) : Prop := permitted h0 aligned h /\ createdOn h route session.

Lemma neutral_made route session h c : neutral c -> madeSession route session h -> madeSession route session (h ++ [c]).
Proof. intros Hc [H1 H2]. split; [by apply neutral_permitted|by apply created_snoc]. Qed.

Ltac making := repeat keeps_step; try (intros; by apply neutral_made).

Lemma rateLimited_made route session a status code bizCode msg bizMsg ra extra :
  keeps (madeSession route session) (markAccountRateLimited cw a status code bizCode msg bizMsg ra extra).
Proof. unfold markAccountRateLimited, managedAccount. making. Qed.

Lemma health_made route session a code bizCode msg bizMsg :
  keeps (madeSession route session) (markAccountHealth cw a code bizCode msg bizMsg).
Proof. unfold markAccountHealth, managedAccount. making. Qed.

Lemma pow_made route session a : keeps (madeSession route session) (getCompletionRetryPow cw a route).
Proof. unfold getCompletionRetryPow, transportError. making; [apply rateLimited_made|apply health_made]. Qed.

Lemma createRetry_made a route :
  triple (permitted h0 aligned) (createCompletionRetrySession cw a route)
    (fun r h => permitted h0 aligned h /\ match r with Ok session => createdOn h route session | Err _ => True end).
Proof.
  unfold createCompletionRetrySession.
  eapply triple_bind with (R := fun resp h => permitted h0 aligned h /\
    forall session, announced resp = Some session -> createdOn h route session).
  { apply triple_perform. intros h Hp. split; [by apply neutral_permitted|]. intros session Ha. exists h, (DeepSeekToken a), []. by split. }
  intros [[resp status]|[e nt]].
  - destruct (extractResponseStatus resp) as [[[code bizCode] msg] bizMsg]. destruct (announced (Ok (resp, status))) as [session|] eqn:Ea.
    + eapply triple_bind with (R := fun _ => madeSession route session).
      { intros h [H1 H2]. apply rateLimited_made. split; [done|by apply H2]. }
      intros ?. unfold announced in Ea. destruct (bool_decide (extractCreateSessionID resp = "")); [done|]. injection Ea as ->.
      destruct (_ && _); [by apply triple_ret|]. eapply triple_bind; [apply health_made|]. intros hl. apply triple_ret. by intros h [? _].
    + eapply triple_bind with (R := fun _ => permitted h0 aligned); [intros h [H1 _]; by apply permitted_marks|].
      intros ?. unfold announced in Ea. destruct (bool_decide (extractCreateSessionID resp = "")); [|done]. cbn [negb]. rewrite andb_false_r.
      eapply triple_bind; [apply permitted_health|]. intros hl. by apply triple_ret.
  - unfold transportError. apply triple_look. by intros h [? _].
Qed.

Lemma unclean (h : list call) id : permitted h0 aligned h -> ~ clean (h ++ [CSwitch id false]).
Proof.
  intros Hp%permitted_length (new & E & Hn). destruct new as [|x new _] using rev_ind.
  - rewrite app_nil_r in E. apply (f_equal length) in E. rewrite length_app in E. simpl in E. lia.
  - rewrite app_assoc in E. apply app_inj_tail in E as [_ <-]. apply Forall_app in Hn as [_ Hn]. by apply Forall_inv in Hn.
Qed.

(** The loop's state with another request, its headers and payload as before. *)
Definition carried (st : compState) (a : RequestAuth) (h : history) : Prop :=
  permitted h0 aligned h /\ wellHeld a /\ (clean h -> coRoute st = AccountID a /\ ownSession h (coRoute st) (coSession st)).

Definition afterSwitch (st : compState) (r : RequestAuth * switchOutcome) (h : history) : Prop :=
  match r.2 with
  | Switched route _ _ session => permitted h0 aligned h /\ wellHeld r.1 /\ route = AccountID r.1 /\ ownSession h route session
  | NoCandidate => carried st r.1 h
  | SwitchError _ => permitted h0 aligned h
  end.

Lemma switchCompletion_together st a : triple (carried st a) (switchCompletionAccount cw a) (afterSwitch st).
Proof.
  unfold switchCompletionAccount. destruct (UseConfigToken a) eqn:Eu; cbn [negb]; [|by apply triple_ret].
  unfold hasCompletionSwitchCandidate. eapply triple_bind; [by apply triple_look with (Q := fun _ => carried st a)|].
  intros []; cbn [negb]; [|by apply triple_ret].
  eapply triple_bind with (R := fun r h => permitted h0 aligned h /\ wellHeld r.1 /\ (r.2 = false -> ~ clean h)).
  { apply triple_note. intros h (H1 & H2 & H3). split; [by apply neutral_permitted|].
    destruct (switchReply cw h a) as [a' []] eqn:E; cbn [fst snd].
    - destruct (as_switched h a a' (conj Eu (H2 Eu)) E) as (Hl & _). split; [intros _; apply Hl|done].
    - destruct (as_unswitched h a a' (conj Eu (H2 Eu)) E) as (Hl & _). split; [intros _; apply Hl|]. intros _. by apply unclean. }
  intros [a' []].
  - eapply triple_bind with (R := fun r h => (permitted h0 aligned h /\ match r with Ok session => createdOn h (AccountID a') session | Err _ => True end) /\ wellHeld a').
    { intros h (H1 & H2 & _). split; [by apply createRetry_made|done]. }
    intros [session|e]; [|apply triple_ret; by intros h ((H1 & _) & _)].
    eapply triple_bind with (R := fun _ h => madeSession (AccountID a') session h /\ wellHeld a').
    { intros h (H1 & H2). split; [by apply pow_made|done]. }
    intros [pow|e]; apply triple_ret; intros h [[H1 H2] H3]; [|done]. split; [done|]. split; [done|]. split; [done|by right].
  - eapply triple_bind; [apply triple_look with (Q := fun _ h => permitted h0 aligned h /\ wellHeld a' /\ ~ clean h); intros h (H1 & H2 & H3); auto|].
    intros [e|]; apply triple_ret; intros h (H1 & H2 & H3); [done|]. split; [done|]. split; [done|]. intros Hk. by destruct H3.
Qed.

(** What a round leaves. *)
Definition roundTogether (r : compRound) (h : history) : Prop :=
  match r with CNext st => together st h | CDone _ _ => permitted h0 aligned h end.

Lemma switchOr_together st attempts lastErr otherwise a :
  coAuth st = a -> (forall a', triple (carried st a') (otherwise a') roundTogether) ->
  triple (together st) (switchOr cw st attempts lastErr otherwise) roundTogether.
Proof.
  intros <- Ho. unfold switchOr. eapply triple_bind; [exact (switchCompletion_together st (coAuth st))|].
  intros [a' [route token pow session| |e]]; [|apply Ho|by apply triple_ret].
  apply triple_ret. intros h (H1 & H2 & H3 & H4). cbn [fst] in *. split; [done|]. split; [done|]. intros _. by split.
Qed.

Lemma countAttempt_together maxAttempts allow pause st lastErr :
  triple (together st) (countAttempt cw maxAttempts allow pause st lastErr) roundTogether.
Proof.
  assert (Hs : forall a, triple (carried st a) (if pause : bool then sleepCompletionRetry cw 1000 (withAuth st a (coAttempts st + 1))
      else ret (CNext (withAuth st a (coAttempts st + 1)))) roundTogether).
  { intros a. destruct pause; [|by apply triple_ret]. unfold sleepCompletionRetry.
    eapply triple_bind with (R := fun _ => together (withAuth st a (coAttempts st + 1))).
    - apply triple_emit. intros h Hh. by apply neutral_together.
    - intros ?. apply triple_look. intros h Hh. destruct (ctxErr cw h); [exact Hh|apply Hh]. }
  unfold countAttempt. destruct (_ <=? _); [apply triple_ret; by intros h [? _]|].
  destruct allow; [by eapply switchOr_together|exact (Hs (coAuth st))].
Qed.

Lemma afterHealth_together allow st lastErr : triple (together st) (afterHealth cw allow st lastErr) roundTogether.
Proof.
  assert (Hg : forall a, triple (carried st a) (ret (CDone a (Err lastErr)) : M compRound) roundTogether).
  { intros a. apply triple_ret. by intros h [? _]. }
  unfold afterHealth, hasCompletionSwitchCandidate. destruct (_ && _); [|exact (Hg (coAuth st))].
  eapply triple_bind; [by apply triple_look with (Q := fun _ => together st)|]. intros []; [by eapply switchOr_together|exact (Hg (coAuth st))].
Qed.

Lemma refused_together maxAttempts allow st status lastErr :
  triple (together st) (refusedRequest cw maxAttempts allow st status lastErr) roundTogether.
Proof.
  unfold refusedRequest, hasCompletionSwitchCandidate.
  destruct (allow && negb (IsSessionCapacityRateLimit lastErr) && (status =? 429) && UseConfigToken (coAuth st)); [|apply countAttempt_together].
  eapply triple_bind; [by apply triple_look with (Q := fun _ => together st)|]. intros []; [|apply countAttempt_together].
  eapply switchOr_together; [done|]. intros a'. apply (countAttempt_together maxAttempts _ true (withAuth st a' (coAttempts st))).
Qed.

(** Right after a request was sent. *)
Definition justSent (st : compState) (h : history) : Prop :=
  together st h /\ exists pre token pow session, h = pre ++ [CSend (coRoute st) token pow session].

Lemma watch_together st : triple (justSent st) (wrapAccountHealthBody (coAuth st)) (fun _ => together st).
Proof.
  unfold wrapAccountHealthBody. destruct (_ && _); [|apply triple_ret; by intros h [? _]].
  apply triple_emit. intros h [(H1 & H2 & H3) (pre & token & pow & session & E)]. split; [|split; [done|]].
  - apply permitted_snoc; [done|]. intros Hk. destruct (H3 Hk) as [H4 _]. rewrite <- H4. by exists pre, token, pow, session.
  - intros Hk. destruct (H3 (clean_back h _ H1 Hk)) as [H4 H5]. split; [done|]. by apply ownSession_app.
Qed.

Lemma round_together powResp maxAttempts allow autoContinue st :
  triple (together st) (completionRound cw Unmarshal ParseFloat fractionNanos powResp maxAttempts allow autoContinue st) roundTogether.
Proof.
  unfold completionRound. eapply triple_bind with (R := fun _ => justSent st).
  { apply triple_perform. intros h (H1 & H2 & H3). split; [|by exists h, (coToken st), (coPow st), (coSession st)].
    split; [apply permitted_snoc; [done|by intros Hk; apply H3]|]. split; [done|]. intros Hk.
    destruct (H3 (clean_back h _ H1 Hk)) as [H4 H5]. split; [done|]. by apply ownSession_app. }
  intros [cause nt|status ra body].
  - eapply triple_bind; [apply triple_look with (Q := fun _ => together st); by intros h [? _]|]. intros le.
    destruct (negb _); [apply triple_ret; by intros h [? _]|apply countAttempt_together].
  - destruct (status =? 200).
    + eapply triple_bind; [apply watch_together|]. intros u. eapply triple_bind with (R := fun _ => together st).
      { unfold inspectCompletionSSEPrelude, markPrelude. match goal with |- triple _ ?m _ => change (keeps (together st) m) end. neutrally. }
      intros [[hl|]|e].
      * apply afterHealth_together.
      * apply triple_ret. by intros h [? _].
      * eapply triple_bind; [by apply triple_look with (Q := fun _ => together st)|]. intros le.
        destruct (negb _); [apply triple_ret; by intros h [? _]|apply countAttempt_together].
    + eapply triple_bind with (R := fun e h => together st h /\ (UseConfigToken (coAuth st) = false -> IsManagedUnauthorizedError e = false)).
      { apply triple_value; [|apply refusal_kind]. intros h [Hh _]. revert h Hh.
        change (keeps (together st) (completionStatusFailure cw Unmarshal (coAuth st) status ra body)).
        unfold completionStatusFailure. neutrally; [apply health_together|apply rateLimited_together]. }
      intros le. destruct (UpstreamError.asHealth le).
      { intros h [Hh _]. by apply afterHealth_together. }
      destruct (negb (coRefreshed st) && IsManagedUnauthorizedError le) eqn:Er; [|intros h [Hh _]; by apply refused_together].
      apply andb_true_iff in Er as [_ Er].
      eapply triple_bind with (R := fun r h => carried st r.1 h).
      { apply triple_note. intros h [(H1 & H2 & H3) Hd]. destruct (UseConfigToken (coAuth st)) eqn:Eu; [|by rewrite (Hd eq_refl) in Er].
        destruct (refreshReply cw h (coAuth st)) as [a' ok] eqn:E. cbn [fst snd].
        destruct (as_refreshed h (coAuth st) a' ok (conj Eu (H2 Eu)) E) as ([Hl1 Hl2] & Hid & _).
        split; [by apply neutral_permitted|]. split; [by intros _|]. intros Hk. rewrite Hid.
        destruct (H3 (clean_back h _ H1 Hk)) as [H4 H5]. split; [done|]. by apply ownSession_app. }
      intros [a' []]; [|exact (refused_together maxAttempts allow (withAuth st a' (coAttempts st)) status le)].
      apply triple_ret. intros h (H1 & H2 & H3). split; [done|]. split; [done|]. intros Hk. destruct (H3 Hk) as [H4 H5].
      cbn [fst] in H4. split; [done|]. cbn. by rewrite <- H4.
Qed.

Lemma loop_together fuel powResp maxAttempts allow autoContinue st :
  triple (together st) (completionLoop cw Unmarshal ParseFloat fractionNanos fuel powResp maxAttempts allow autoContinue st)
    (fun _ => permitted h0 aligned).
Proof.
  revert st. induction fuel as [|fuel IH]; intros st; cbn [completionLoop]; [apply triple_ret; by intros h [? _]|].
  eapply triple_bind; [apply round_together|]. intros [st'|a r]; [apply IH|by apply triple_ret].
Qed.
End Aligned.

(** ** What a caller that is served gets *)

Section Served.
Context (cw : ClientWorld).
Context (Unmarshal : string -> option jobject) (ParseFloat : string -> option (Z * positive)) (fractionNanos : Z -> positive -> Z).

(** The stream is the body that answered the last request, and nothing was called since but the
    watch on the account of the request, if it is a pooled one. *)
Definition servedBy (a : RequestAuth) (s : completionStream) (h : history) : Prop :=
  exists pre route token pow session retryAfter,
    sendReply cw (pre ++ [CSend route token pow session]) = Responded 200 retryAfter (csBody s) /\
    h = pre ++ CSend route token pow session :: (if UseConfigToken a && negb (bool_decide (AccountID a = "")) then [CWatch (AccountID a)] else []).

Definition unserved (r : compRound) : Prop := match r with CDone _ (Ok _) => False | _ => True end.

Lemma switchOr_unserved st attempts lastErr otherwise : (forall a, yields (otherwise a) unserved) -> yields (switchOr cw st attempts lastErr otherwise) unserved.
Proof. intros Ho. unfold switchOr. eapply yields_bind; [apply yields_any|]. intros [a [| |]] _; [by apply yields_ret|apply Ho|by apply yields_ret]. Qed.

Lemma countAttempt_unserved maxAttempts allow pause st lastErr : yields (countAttempt cw maxAttempts allow pause st lastErr) unserved.
Proof.
  assert (Hs : forall a, yields (if pause : bool then sleepCompletionRetry cw 1000 (withAuth st a (coAttempts st + 1)) else ret (CNext (withAuth st a (coAttempts st + 1)))) unserved).
  { intros a. destruct pause; [|by apply yields_ret]. unfold sleepCompletionRetry. eapply yields_bind; [apply yields_any|]. intros ? _ h. unfold look. cbn [fst]. by destruct (ctxErr cw h). }
  unfold countAttempt. destruct (_ <=? _); [by apply yields_ret|]. destruct allow; [by apply switchOr_unserved|apply Hs].
Qed.

Lemma afterHealth_unserved allow st lastErr : yields (afterHealth cw allow st lastErr) unserved.
Proof.
  unfold afterHealth. destruct (_ && _); [|by apply yields_ret]. eapply yields_bind; [apply yields_any|]. intros [] _; [|by apply yields_ret].
  apply switchOr_unserved. intros a. by apply yields_ret.
Qed.

Lemma refused_unserved maxAttempts allow st status lastErr : yields (refusedRequest cw maxAttempts allow st status lastErr) unserved.
Proof.
  unfold refusedRequest. destruct (allow && negb (IsSessionCapacityRateLimit lastErr) && (status =? 429) && UseConfigToken (coAuth st)); [|apply countAttempt_unserved].
  eapply yields_bind; [apply yields_any|]. intros [] _; [|apply countAttempt_unserved]. apply switchOr_unserved. intros a. apply countAttempt_unserved.
Qed.

Definition roundServed (r : compRound) (h : history) : Prop := match r with CDone a (Ok s) => servedBy a s h | _ => True end.

Lemma unserved_round (m : M compRound) (P : history -> Prop) : yields m unserved -> triple P m roundServed.
Proof. intros H h _. specialize (H h). by destruct (m h) as [[st|a [s|e]] h']. Qed.

Lemma round_served powResp maxAttempts allow autoContinue st :
  triple (fun _ => True) (completionRound cw Unmarshal ParseFloat fractionNanos powResp maxAttempts allow autoContinue st) roundServed.
Proof.
  unfold completionRound. set (a := coAuth st). set (c := CSend (coRoute st) (coToken st) (coPow st) (coSession st)).
  eapply triple_bind with (R := fun answer h => exists pre, h = pre ++ [c] /\ sendReply cw (pre ++ [c]) = answer).
  { apply triple_perform. intros h _. by exists h. }
  intros [cause nt|status ra body].
  { apply unserved_round. eapply yields_bind; [apply yields_any|]. intros le _. destruct (negb _); [by apply yields_ret|apply countAttempt_unserved]. }
  destruct (Z.eqb_spec status 200) as [->|_].
  - eapply triple_bind with (R := fun _ h => exists pre, sendReply cw (pre ++ [c]) = Responded 200 ra body /\
      h = pre ++ c :: (if UseConfigToken a && negb (bool_decide (AccountID a = "")) then [CWatch (AccountID a)] else [])).
    { unfold wrapAccountHealthBody. destruct (_ && _); [apply triple_emit|apply triple_ret]; intros h (pre & -> & E); exists pre; (split; [done|]); by rewrite <- ?app_assoc. }
    intros ?. unfold inspectCompletionSSEPrelude.
    destruct (inspectPrelude Unmarshal ParseFloat fractionNanos 0 (bodyText body) (bodyError body)) as [[hl|]|e].
    + apply unserved_round. eapply yields_bind with (V := fun r => r = Ok (Some hl)); [eapply yields_bind; [apply yields_any|]; intros ? _; by apply yields_ret|].
      intros r ->. apply afterHealth_unserved.
    + intros h (pre & E & ->). unfold bind, ret. by exists pre, (coRoute st), (coToken st), (coPow st), (coSession st), ra.
    + apply unserved_round. eapply yields_bind with (V := fun r => r = Err e); [by apply yields_ret|]. intros r ->.
      eapply yields_bind; [apply yields_any|]. intros le _. destruct (negb _); [by apply yields_ret|apply countAttempt_unserved].
  - apply unserved_round. eapply yields_bind; [apply yields_any|]. intros le _. destruct (UpstreamError.asHealth le); [apply afterHealth_unserved|].
    destruct (_ && _); [|apply refused_unserved]. eapply yields_bind; [apply yields_any|]. intros [a' []] _; [by apply yields_ret|apply refused_unserved].
Qed.

Lemma loop_served fuel powResp maxAttempts allow autoContinue st h :
  match completionLoop cw Unmarshal ParseFloat fractionNanos fuel powResp maxAttempts allow autoContinue st h with
  | (Some (a, Ok s), h') => servedBy a s h'
  | _ => True
  end.
Proof.
  revert st h. induction fuel as [|fuel IH]; intros st h; cbn [completionLoop]; [done|]. unfold bind at 1.
  pose proof (round_served powResp maxAttempts allow autoContinue st h I) as H.
  destruct (completionRound cw Unmarshal ParseFloat fractionNanos powResp maxAttempts allow autoContinue st h) as [[st'|a [s|e]] h']; [apply IH|exact H|done].
Qed.
End Served.

(** C4. Session, account and route belong together.  As long as no switch fails, every
    completion request goes out through the route of an account to a session that was created
    through the same route, the caller's own session for the caller's account, and a body is
    watched for reports only on the account its request was sent for, however often the account is
    changed or its token refreshed.  A caller that is served gets the body that answered the last
    request, and if the account is a pooled one, that body is watched for that account. *)
Theorem completion_aligned (cw : ClientWorld) `{source : AccountSource cw} Unmarshal ParseFloat fractionNanos fuel
  (a : RequestAuth) (session powResp : string) (maxAttempts : Z) (allow autoContinue : bool) h :
  wellHeld a ->
  let '(r, h') := callCompletion cw Unmarshal ParseFloat fractionNanos fuel a session powResp maxAttempts allow autoContinue h in
  permitted h (aligned cw h a session) h' /\
  match r with Some (a', Ok stream) => servedBy cw a' stream h' | _ => True end.
Proof.
  intros Hw. unfold callCompletion, bind, look. destruct (requestContextFailure _ _ _); [split; [apply permitted_start|done]|].
  destruct (_ <=? _); [split; [apply permitted_start|done]|].
  pose proof (loop_together cw Unmarshal ParseFloat fractionNanos h a session fuel powResp (orMax cw maxAttempts) allow autoContinue (startState a session powResp) h) as H.
  pose proof (loop_served cw Unmarshal ParseFloat fractionNanos fuel powResp (orMax cw maxAttempts) allow autoContinue (startState a session powResp) h) as Hs.
  destruct (completionLoop _ _ _ _ _ _ _ _ _ _ h) as [r h']. split; [|by destruct r as [[a' [s|e]]|]].
  apply H. split; [apply permitted_start|]. split; [done|]. intros _. split; [done|by left].
Qed.

(** ** Runs *)

(** A direct world: an upstream that answers every completion request the same way, and no
    second account. *)
Definition noChunks (s : string) : option jobject := None.
Definition noNumber (s : string) : option (Z * positive) := None.
Definition noNanos (n : Z) (d : positive) : Z := 0.

Lemma completion_bounded_witness :
  ((callCompletion (lonely 200 (Failed [] false)) noChunks noNumber noNanos 5 aliceLease "s" "pow" 3 true true []).1 <> None /\
   (sends (callCompletion (lonely 200 (Failed [] false)) noChunks noNumber noNanos 5 aliceLease "s" "pow" 3 true true []).2 <= 4)%nat).
Proof.
  pose proof (@completion_bounded (lonely 200 (Failed [] false)) (lonely_source 200 (Failed [] false)) noChunks noNumber noNanos ∅
    aliceLease "s" "pow" 3 true true []) as H. cbv zeta in H.
  assert (E : S (Z.to_nat (orMax (lonely 200 (Failed [] false)) 3) + size (∅ : gset string) + 1) = 5%nat) by (vm_compute; reflexivity).
  rewrite E in H. assert (E2 : (Z.to_nat (orMax (lonely 200 (Failed [] false)) 3) + size (∅ : gset string) + 1)%nat = 4%nat) by (vm_compute; reflexivity).
  rewrite E2 in H. destruct (callCompletion _ _ _ _ 5 _ _ _ _ _ _ _) as [r h'].
  apply H; [by intros h a a' [=]|by intros _].
Defined.

(** An upstream that answers with an empty body. *)
Notation answered200 := (lonely 200 (Responded 200 "" {| bodyText := []; bodyError := []; bodyTimeout := false |})) (only parsing).

Lemma completion_aligned_witness :
  let '(r, h') := callCompletion answered200 noChunks noNumber noNanos 5 aliceLease "s" "pow" 3 true true [] in
  exists a' stream, r = Some (a', Ok stream) /\ servedBy answered200 a' stream h' /\ permitted [] (aligned answered200 [] aliceLease "s") h'.
Proof.
  pose proof (@completion_aligned answered200 (lonely_source 200 _) noChunks noNumber noNanos 5 aliceLease "s" "pow" 3 true true []) as H.
  assert (E : exists a' stream, (callCompletion answered200 noChunks noNumber noNanos 5 aliceLease "s" "pow" 3 true true []).1 = Some (a', Ok stream))
    by (eexists _, _; vm_compute; reflexivity).
  destruct E as (a' & stream & E). destruct (callCompletion _ _ _ _ 5 _ _ _ _ _ _ _) as [r h']. cbn [fst] in E. subst r.
  exists a', stream. destruct H as [H1 H2]; [by intros _|]. by split.
Defined.

Definition theirSession : jobject := [("data", JObj [("biz_data", JObj [("id", JStr "theirs")])])].

(** An upstream that answers the requests in turn with [answers], the last of them again and
    again; sessions are ["theirs"] and proofs of work ["fresh pow"]. *)
Definition answering (answers : list sendAnswer) (switched : RequestAuth -> RequestAuth * bool) : ClientWorld := {|
  cStore := fun _ => scene; cNow := fun _ => 0; ctxErr := fun _ => [];
  postReply := fun _ => Ok (theirSession, 200); solveReply := fun _ _ => Ok "fresh pow";
  sendReply := fun h => default (Failed [] false) (answers !! pred (sends h));
  switchReply := fun _ a => switched a; refreshReply := fun _ a => (a, true);
  rfc3339 := fun _ => ""; parseHTTPTime := fun _ => None; maxRetries := 3 |}.

Definition noBody : httpBody := {| bodyText := []; bodyError := []; bodyTimeout := false |}.
Definition bobLease : RequestAuth := leaseAuth "caller:1" "" bob {[aliceID]}.

(** A failed switch sends the report to the wrong account: the transport fails, the switch
    from [alice] fails although it left the request with [bob], the request is sent again
    through the route of [alice], and its body is watched for reports on [bob]. *)
Theorem failed_switch_misreports :
  (callCompletion (answering [Failed [] false; Responded 200 "" noBody] (fun _ => (bobLease, false))) noChunks noNumber noNanos 5
     aliceLease "s" "pow" 3 true false []).2
  = [CSend aliceID "" "pow" "s"; CSwitch aliceID false; CSleep 1000; CSend aliceID "" "pow" "s"; CWatch (Identifier bob)].
Proof. vm_compute. reflexivity. Qed.

(** A proof of work outlives its account: after a switch from [alice] to [bob] and a refresh
    of [bob]'s token the request is sent through [bob]'s route to [bob]'s session with the
    proof of work of [alice], and so is what continues the answer. *)
Theorem stale_proof_of_work :
  let answers := [Responded 429 "" noBody; Responded 401 "" noBody; Responded 200 "" noBody] in
  let '(r, h) := callCompletion (answering answers (fun _ => (bobLease, true))) noChunks noNumber noNanos 5
                   aliceLease "s" "pow of alice" 3 true true [] in
  filter (fun c => isSend c = true) h =
    [CSend aliceID "" "pow of alice" "s"; CSend (Identifier bob) "" "fresh pow" "theirs";
     CSend (Identifier bob) "" "pow of alice" "theirs"] /\
  r = Some (bobLease, Ok {| csBody := noBody; csContinue := Some ("theirs", "pow of alice") |}).
Proof. vm_compute. split; reflexivity. Qed.
