(* ===== verification/SafetyCheck.v ===== *)
(** The safety review of requests: [internal/safetyllm/cache.go] and [checker.go].

    [lruCache] is the map and the linked list as the code keeps them, and refines a list of
    entries, the most recently used first.  The checker is a step relation over concurrent
    checks: a step is one critical section of one check, so a run is an interleaving.  The
    upstream's answers, the clock and the configuration at the time it is read are part of
    the labels. *)
From S2P Require Import Prelude GoString Affinity Sha256 AuditText.
From Stdlib Require Import Ascii.
Local Open Scope string_scope.
Local Open Scope Z_scope.
Local Open Scope list_scope.

Record Verdict := { Violation : bool; Cached : bool; LatencyMs : Z; FailedOpen : bool }.

Definition pass : Verdict := {| Violation := false; Cached := false; LatencyMs := 0; FailedOpen := false |}.
Definition asCached (v : Verdict) : Verdict :=
  {| Violation := Violation v; Cached := true; LatencyMs := LatencyMs v; FailedOpen := FailedOpen v |}.

(** ** The cache *)

Record cacheEntry := { ceKey : string; ceVerdict : Verdict; expiresAt : Z }.

(** A list element is a number; [elements] is what the live ones hold, [order] the list from
    its front. *)
Record lruCache := {
  lruMax : Z; items : gmap string nat; order : list nat; elements : gmap nat cacheEntry; nextElement : nat
}.

Definition newLRUCache (max : Z) : lruCache :=
  {| lruMax := if max <=? 0 then 1 else max; items := ∅; order := []; elements := ∅; nextElement := 0 |}.

Definition without (el : nat) (l : list nat) : list nat := filter (fun x => x <> el) l.

Definition lruGet (key : string) (now : Z) (c : lruCache) : lruCache * option Verdict :=
  match items c !! key with
  | None => (c, None)
  | Some el =>
      match elements c !! el with
      | None => (c, None)
      | Some entry =>
          if negb (timeIsZero (expiresAt entry)) && (expiresAt entry <? now)
          then ({| lruMax := lruMax c; items := delete key (items c); order := without el (order c);
                   elements := delete el (elements c); nextElement := nextElement c |}, None)
          else ({| lruMax := lruMax c; items := items c; order := el :: without el (order c);
                   elements := elements c; nextElement := nextElement c |}, Some (ceVerdict entry))
      end
  end.

(** The loop that drops the back of the list. *)
Fixpoint evict (fuel : nat) (c : lruCache) : lruCache :=
  match fuel with
  | O => c
  | S fuel =>
      if Z.of_nat (length (order c)) <=? lruMax c then c
      else match last (order c) with
           | None => c
           | Some oldest =>
               evict fuel {| lruMax := lruMax c;
                             items := match elements c !! oldest with Some e => delete (ceKey e) (items c) | None => items c end;
                             order := without oldest (order c); elements := delete oldest (elements c);
                             nextElement := nextElement c |}
           end
  end.

Definition lruSet (key : string) (v : Verdict) (expires : Z) (c : lruCache) : lruCache :=
  let entry := {| ceKey := key; ceVerdict := v; expiresAt := expires |} in
  match items c !! key with
  | Some el =>
      {| lruMax := lruMax c; items := items c; order := el :: without el (order c);
         elements := <[el := entry]> (elements c); nextElement := nextElement c |}
  | None =>
      let el := nextElement c in
      evict (S (length (order c)))
        {| lruMax := lruMax c; items := <[key := el]> (items c); order := el :: order c;
           elements := <[el := entry]> (elements c); nextElement := S el |}
  end.

Definition lruSize (c : lruCache) : nat := length (order c).

Definition purge (c : lruCache) : lruCache :=
  {| lruMax := lruMax c; items := ∅; order := []; elements := ∅; nextElement := nextElement c |}.

(** *** What it implements *)

Notation entryList := (list cacheEntry).
Definition others (key : string) (l : entryList) : entryList := filter (fun e => ceKey e <> key) l.
Definition entryOf (key : string) (l : entryList) : option cacheEntry := find (fun e => bool_decide (ceKey e = key)) l.

Definition specGet (key : string) (now : Z) (l : entryList) : entryList * option Verdict :=
  match entryOf key l with
  | None => (l, None)
  | Some e => if negb (timeIsZero (expiresAt e)) && (expiresAt e <? now) then (others key l, None)
              else (e :: others key l, Some (ceVerdict e))
  end.

Definition specSet (max : Z) (key : string) (v : Verdict) (expires : Z) (l : entryList) : entryList :=
  take (Z.to_nat max) ({| ceKey := key; ceVerdict := v; expiresAt := expires |} :: others key l).

(** The entries in the order of the list. *)
Definition view (c : lruCache) : entryList := omap (fun el => elements c !! el) (order c).

Record lruOk (c : lruCache) : Prop := {
  lo_max : 0 < lruMax c;
  lo_nodup : NoDup (order c);
  lo_live : forall el, el ∈ order c <-> is_Some (elements c !! el);
  lo_index : forall key el, items c !! key = Some el <-> exists e, elements c !! el = Some e /\ ceKey e = key;
  lo_fresh : forall el, is_Some (elements c !! el) -> (el < nextElement c)%nat;
  lo_bound : Z.of_nat (length (order c)) <= lruMax c
}.

Lemma newCache_ok (max : Z) : lruOk (newLRUCache max).
Proof.
  split; simpl; try (by constructor).
  - destruct (Z.leb_spec max 0); lia.
  - intros el. rewrite lookup_empty. split; [by intros ?%not_elem_of_nil|by intros [? ?]].
  - intros key el. rewrite !lookup_empty. split; [done|by intros (? & ? & _)].
  - intros el. rewrite lookup_empty. by intros [? ?].
  - destruct (Z.leb_spec max 0); lia.
Qed.

Lemma purge_ok (c : lruCache) : lruOk c -> lruOk (purge c) /\ view (purge c) = [].
Proof.
  intros [H1 H2 H3 H4 H5 H6]. split; [|done]. split; simpl; try (by constructor); try lia.
  - intros el. rewrite lookup_empty. split; [by intros ?%not_elem_of_nil|by intros [? ?]].
  - intros key el. rewrite !lookup_empty. split; [done|by intros (? & ? & _)].
  - intros el. rewrite lookup_empty. by intros [? ?].
Qed.

(** *** The refinement *)

(** [lruOk] without the bound on the length. *)
Record lruWeak (c : lruCache) : Prop := {
  lw_nodup : NoDup (order c);
  lw_live : forall el, el ∈ order c <-> is_Some (elements c !! el);
  lw_index : forall key el, items c !! key = Some el <-> exists e, elements c !! el = Some e /\ ceKey e = key;
  lw_fresh : forall el, is_Some (elements c !! el) -> (el < nextElement c)%nat
}.

Lemma ok_weak (c : lruCache) : lruOk c -> lruWeak c.
Proof. intros [? ? ? ? ? ?]. by split. Qed.

Lemma elem_without (el x : nat) (l : list nat) : x ∈ without el l <-> x <> el /\ x ∈ l.
Proof. unfold without. by rewrite list_elem_of_filter. Qed.

Lemma without_shorter (el : nat) (l : list nat) : el ∈ l -> (S (length (without el l)) <= length l)%nat.
Proof.
  intros [l1 [l2 ->]]%list_elem_of_split. unfold without. rewrite filter_app, filter_cons, decide_False by (by intros ?).
  rewrite !length_app. pose proof (length_filter (fun x => x <> el) l1). pose proof (length_filter (fun x => x <> el) l2). simpl. lia.
Qed.

Lemma without_nodup (el : nat) (l : list nat) : NoDup l -> NoDup (without el l).
Proof. apply NoDup_filter. Qed.

Lemma omap_live {B} (f g : nat -> option B) (l : list nat) : (forall x, x ∈ l -> f x = g x) -> omap f l = omap g l.
Proof.
  intros H. induction l as [|x l IH]; [done|]. cbn. rewrite (H x) by left. destruct (g x); [f_equal|]; apply IH; intros y Hy; apply H; by right.
Qed.

Lemma length_view (c : lruCache) : lruWeak c -> length (view c) = length (order c).
Proof.
  intros W. assert (H : forall x, x ∈ order c -> is_Some (elements c !! x)) by (intros x; apply W).
  unfold view. induction (order c) as [|x l IH]; [done|]. destruct (H x) as [e E]; [left|]. cbn. rewrite E. cbn. f_equal.
  apply IH. intros y Hy. apply H. by right.
Qed.

Lemma others_view (c : lruCache) (key : string) (el : nat) :
  lruWeak c -> items c !! key = Some el -> others key (view c) = omap (fun el => elements c !! el) (without el (order c)).
Proof.
  intros W Hi. assert (H : forall x, x ∈ order c -> exists e, elements c !! x = Some e /\ (ceKey e <> key <-> x <> el)).
  { intros x [e E]%(lw_live c W). exists e. split; [done|]. split; [intros Hn ->; apply Hn|intros Hn Hk; apply Hn; subst key].
    - apply (lw_index c W) in Hi as (e' & E' & <-). by assert (e' = e) as -> by congruence.
    - assert (items c !! ceKey e = Some x) by (apply (lw_index c W); eauto). congruence. }
  unfold view, others, without. induction (order c) as [|x l IH]; [done|].
  destruct (H x) as (e & E & Hk); [left|]. cbn [omap list_omap]. rewrite E. cbv iota beta. rewrite !filter_cons.
  destruct (decide (x <> el)) as [Hx|Hx].
  - rewrite decide_True by (by apply Hk). cbn. rewrite E. f_equal. apply IH. intros y Hy. apply H. by right.
  - rewrite decide_False by (by intros ?%Hk). apply IH. intros y Hy. apply H. by right.
Qed.

Lemma others_absent (c : lruCache) (key : string) : lruWeak c -> items c !! key = None -> others key (view c) = view c.
Proof.
  intros W Hi. assert (H : forall x, x ∈ order c -> forall e, elements c !! x = Some e -> ceKey e <> key).
  { intros x _ e E <-. assert (items c !! ceKey e = Some x) by (apply (lw_index c W); eauto). congruence. }
  unfold view, others. induction (order c) as [|x l IH]; [done|]. cbn [omap list_omap].
  assert (IH' := IH ltac:(intros y Hy; apply H; by right)). destruct (elements c !! x) as [e|] eqn:E; [|done].
  rewrite filter_cons, decide_True by (apply (H x); [left|done]). by f_equal.
Qed.

Lemma entryOf_cons (key : string) (e : cacheEntry) (l : entryList) :
  entryOf key (e :: l) = if bool_decide (ceKey e = key) then Some e else entryOf key l.
Proof. reflexivity. Qed.

Lemma entryOf_view (c : lruCache) (key : string) :
  lruWeak c -> entryOf key (view c) = match items c !! key with Some el => elements c !! el | None => None end.
Proof.
  intros W. assert (H : forall x e, elements c !! x = Some e -> (ceKey e = key <-> items c !! key = Some x)).
  { intros x e E. rewrite (lw_index c W). split; [eauto|]. intros (e' & ? & <-). congruence. }
  assert (Hl : forall el, items c !! key = Some el -> el ∈ order c).
  { intros el (e & E & _)%(lw_index c W). apply (lw_live c W). eauto. }
  unfold view. revert Hl. generalize (order c). intros l Hl.
  assert (G : forall l, entryOf key (omap (fun el => elements c !! el) l) =
    match items c !! key with Some el => if bool_decide (el ∈ l) then elements c !! el else None | None => None end).
  { clear l Hl. intros l. induction l as [|x l IH].
    - destruct (items c !! key) as [el|]; [|done]. case_bool_decide as Hb; [by apply not_elem_of_nil in Hb|done].
    - cbn [omap list_omap]. destruct (elements c !! x) as [e|] eqn:E.
      + rewrite entryOf_cons, IH. destruct (items c !! key) as [el|] eqn:Ei.
        * destruct (decide (ceKey e = key)) as [Hk|Hk]; [rewrite bool_decide_eq_true_2 by done|rewrite bool_decide_eq_false_2 by done].
          -- apply (H x e E) in Hk. assert (el = x) as -> by congruence. rewrite bool_decide_eq_true_2 by left. done.
          -- assert (el <> x) by (intros ->; apply Hk; by apply (H x e E)).
             destruct (decide (el ∈ l)); [rewrite !bool_decide_eq_true_2 by (try right; done)|rewrite !bool_decide_eq_false_2 by set_solver]; done.
        * rewrite bool_decide_eq_false_2; [done|]. intros Hk. apply (H x e E) in Hk. congruence.
      + rewrite IH. destruct (items c !! key) as [el|] eqn:Ei; [|done].
        assert (el <> x) by (intros ->; apply (lw_index c W) in Ei as (? & ? & _); congruence).
        destruct (decide (el ∈ l)); [rewrite !bool_decide_eq_true_2 by (try right; done)|rewrite !bool_decide_eq_false_2 by set_solver]; done. }
  rewrite G. destruct (items c !! key) as [el|]; [|done]. by rewrite bool_decide_eq_true_2 by (by apply Hl).
Qed.

Lemma drop_weak (c : lruCache) (el : nat) (e : cacheEntry) :
  lruWeak c -> elements c !! el = Some e ->
  lruWeak {| lruMax := lruMax c; items := delete (ceKey e) (items c); order := without el (order c);
             elements := delete el (elements c); nextElement := nextElement c |}.
Proof.
  intros [H1 H2 H3 H4] He. assert (Hi : items c !! ceKey e = Some el) by (apply H3; eauto). split; simpl.
  - by apply without_nodup.
  - intros x. rewrite elem_without, H2, lookup_delete_is_Some. naive_solver.
  - intros key x. rewrite lookup_delete_Some, H3. split.
    + intros (Hk & e' & E & <-). exists e'. rewrite lookup_delete_ne; [done|]. intros ->. apply Hk. congruence.
    + intros (e' & [Hx E]%lookup_delete_Some & <-). split; [|eauto]. intros Hk.
      assert (items c !! ceKey e' = Some x) by (apply H3; eauto). congruence.
  - intros x [? ?]%lookup_delete_is_Some. auto.
Qed.

Lemma front_weak (c : lruCache) (el : nat) (e : cacheEntry) (elems : gmap nat cacheEntry) :
  lruWeak c -> elements c !! el = Some e -> (exists e', elems = <[el := e']> (elements c) /\ ceKey e' = ceKey e) ->
  lruWeak {| lruMax := lruMax c; items := items c; order := el :: without el (order c); elements := elems; nextElement := nextElement c |}.
Proof.
  intros [H1 H2 H3 H4] He (e' & -> & Ek). split; simpl.
  - constructor; [by rewrite elem_without; intros [? _]|by apply without_nodup].
  - intros x. rewrite elem_of_cons, elem_without, H2, lookup_insert_is_Some. destruct (decide (x = el)) as [->|]; naive_solver.
  - intros key x. rewrite H3. split.
    + intros (ex & Ex & <-). destruct (decide (x = el)) as [->|Hn]; [|exists ex; by rewrite lookup_insert_ne].
      exists e'. rewrite lookup_insert_eq. split; [done|congruence].
    + intros (ex & [[<- <-]|[Hn Ex]]%lookup_insert_Some & <-); eauto.
  - intros x. rewrite lookup_insert_is_Some. intros [->|[? ?]]; apply H4; eauto.
Qed.

Lemma evict_weak (fuel : nat) (c : lruCache) :
  lruWeak c -> 0 < lruMax c -> (length (order c) <= fuel)%nat ->
  lruOk (evict fuel c) /\ lruMax (evict fuel c) = lruMax c /\ view (evict fuel c) = take (Z.to_nat (lruMax c)) (view c).
Proof.
  revert c. induction fuel as [|fuel IH]; intros c W Hm Hf; cbn [evict].
  - split; [|split; [done|by rewrite take_ge by (rewrite length_view by done; lia)]]. destruct W. split; try done. lia.
  - destruct (Z.leb_spec (Z.of_nat (length (order c))) (lruMax c)) as [Hle|Hgt].
    { split; [|split; [done|by rewrite take_ge by (rewrite length_view by done; lia)]]. destruct W. by split. }
    destruct (last (order c)) as [oldest|] eqn:El; [|apply last_None in El; rewrite El in Hgt; simpl in Hgt; lia].
    apply last_Some in El as [l El]. destruct (lw_live c W oldest) as [He _]. destruct He as [e He]; [rewrite El; set_solver|].
    rewrite He. assert (Hw : without oldest (order c) = l).
    { pose proof (lw_nodup c W) as Hn. rewrite El in Hn |- *. apply NoDup_app in Hn as (_ & Hx & _).
      unfold without. rewrite filter_app, filter_cons, decide_False, filter_nil, app_nil_r by auto.
      clear -Hx. induction l as [|x l IH]; [done|]. rewrite filter_cons, decide_True; [f_equal; apply IH; intros y Hy; apply Hx; by right|].
      intros ->. apply (Hx oldest); by left. }
    pose proof (drop_weak c oldest e W He) as W'. destruct (IH _ W') as (H1 & H2 & H3); [done|cbn; rewrite Hw; rewrite El, length_app in Hf; simpl in Hf; lia|].
    split; [done|]. split; [done|]. rewrite H3. cbn [lruMax].
    assert (Hv : view c = view {| lruMax := lruMax c; items := delete (ceKey e) (items c); order := without oldest (order c);
                 elements := delete oldest (elements c); nextElement := nextElement c |} ++ [e]).
    { unfold view. cbn [order elements]. rewrite Hw. rewrite El at 1. rewrite omap_app. f_equal; [|cbn; by rewrite He].
      apply omap_live. intros x Hx. rewrite lookup_delete_ne; [done|]. intros <-.
      pose proof (lw_nodup c W) as Hn. rewrite El in Hn. apply NoDup_app in Hn as (_ & Hy & _). apply (Hy _ Hx). by left. }
    rewrite Hv. rewrite take_app_le; [done|]. rewrite (length_view _ W'). cbn [order]. rewrite Hw.
    rewrite El, length_app in Hgt. simpl in Hgt. lia.
Qed.

Lemma set_weak (c : lruCache) (key : string) (v : Verdict) (expires : Z) :
  lruOk c -> lruOk (lruSet key v expires c) /\ lruMax (lruSet key v expires c) = lruMax c /\
  view (lruSet key v expires c) = specSet (lruMax c) key v expires (view c).
Proof.
  intros I. pose proof (ok_weak c I) as W. unfold lruSet, specSet. set (entry := {| ceKey := key; ceVerdict := v; expiresAt := expires |}).
  destruct (items c !! key) as [el|] eqn:Hi.
  - pose proof Hi as (e & He & Hk)%(lw_index c W).
    assert (W' : lruWeak {| lruMax := lruMax c; items := items c; order := el :: without el (order c);
                   elements := <[el := entry]> (elements c); nextElement := nextElement c |})
      by (apply (front_weak c el e); [done|done|by exists entry]).
    assert (Hlen : (S (length (without el (order c))) <= length (order c))%nat)
      by (apply without_shorter, (lw_live c W); eauto).
    assert (Hv : view {| lruMax := lruMax c; items := items c; order := el :: without el (order c);
                   elements := <[el := entry]> (elements c); nextElement := nextElement c |} = entry :: others key (view c)).
    { unfold view at 1. cbn [order elements]. cbn [omap list_omap]. rewrite lookup_insert_eq. f_equal. rewrite (others_view c key el) by done.
      apply omap_live. intros x [Hx _]%elem_without. by rewrite lookup_insert_ne. }
    split; [|split; [done|]].
    + pose proof (lo_bound c I). destruct W'. split; try done; [apply I|]. cbn [order length lruMax]. lia.
    + rewrite Hv, take_ge; [done|]. rewrite <- Hv, (length_view _ W'). pose proof (lo_bound c I). cbn [order length]. lia.
  - set (el := nextElement c).
    assert (Hfresh : elements c !! el = None).
    { destruct (elements c !! el) eqn:E; [|done]. assert (el < nextElement c)%nat by (apply (lw_fresh c W); eauto). unfold el in *. lia. }
    assert (Hno : el ∉ order c) by (rewrite (lw_live c W), Hfresh; by intros [? ?]).
    assert (Hk : forall x e, elements c !! x = Some e -> ceKey e <> key).
    { intros x e E Ek. subst key. assert (items c !! ceKey e = Some x) by (apply (lw_index c W); eauto). congruence. }
    assert (W' : lruWeak {| lruMax := lruMax c; items := <[key := el]> (items c); order := el :: order c;
                   elements := <[el := entry]> (elements c); nextElement := S el |}).
    { split; simpl.
      - constructor; [done|apply W].
      - intros x. rewrite elem_of_cons, lookup_insert_is_Some, (lw_live c W). destruct (decide (x = el)) as [->|]; naive_solver.
      - intros k x. rewrite lookup_insert_Some, (lw_index c W). split.
        + intros [[<- <-]|[Hn (e & E & <-)]]; [exists entry; by rewrite lookup_insert_eq|]. exists e.
          rewrite lookup_insert_ne; [done|]. intros <-. congruence.
        + intros (e & [[<- <-]|[Hn E]]%lookup_insert_Some & <-); [by left|right]. split; [by intros E'; apply (Hk x e)|eauto].
      - intros x. rewrite lookup_insert_is_Some. intros [->|[_ Hx]]; [lia|]. apply (lw_fresh c W) in Hx. unfold el. lia. }
    destruct (evict_weak (S (length (order c))) _ W') as (H1 & H2 & H3); [apply I|cbn; lia|].
    split; [done|]. split; [done|]. rewrite H3. cbn [lruMax]. f_equal.
    rewrite (others_absent c key) by done. unfold view. cbn [order elements omap list_omap]. rewrite lookup_insert_eq. f_equal.
    apply omap_live. intros x Hx. rewrite lookup_insert_ne; [done|]. by intros <-.
Qed.

Lemma get_weak (c : lruCache) (key : string) (now : Z) :
  lruOk c -> lruOk (lruGet key now c).1 /\ lruMax (lruGet key now c).1 = lruMax c /\
  (view (lruGet key now c).1, (lruGet key now c).2) = specGet key now (view c).
Proof.
  intros I. pose proof (ok_weak c I) as W. unfold lruGet, specGet. rewrite (entryOf_view c key W).
  destruct (items c !! key) as [el|] eqn:Hi; [|done]. pose proof Hi as (e & He & <-)%(lw_index c W). rewrite He.
  assert (Hlen : (S (length (without el (order c))) <= length (order c))%nat)
    by (apply without_shorter, (lw_live c W); eauto).
  pose proof (lo_bound c I) as Hb. destruct (negb _ && _); cbn [fst snd].
  - pose proof (drop_weak c el e W He) as W'. split; [|split; [done|]].
    + destruct W'. split; try done; [apply I|]. cbn [order lruMax]. lia.
    + f_equal. rewrite (others_view c (ceKey e) el) by done. unfold view. cbn [order elements].
      apply omap_live. intros x [Hx _]%elem_without. by rewrite lookup_delete_ne.
  - assert (W' : lruWeak {| lruMax := lruMax c; items := items c; order := el :: without el (order c); elements := elements c;
                   nextElement := nextElement c |}).
    { apply (front_weak c el e); [done|done|]. exists e. by rewrite insert_id. }
    split; [|split; [done|]].
    + destruct W'. split; try done; [apply I|]. cbn [order length lruMax]. lia.
    + f_equal. rewrite (others_view c (ceKey e) el) by done. unfold view. cbn [order elements omap list_omap]. by rewrite He.
Qed.

(** C35. The cache of verdicts, a map into a linked list, is a list of at most the configured
    number of entries with distinct keys, the most recently used first: a lookup returns the
    last verdict stored under the key unless it expired, was pushed out by more recently used
    keys or was purged, and moves it to the front. *)
Theorem lru_refines (c : lruCache) (key : string) (now expires : Z) (v : Verdict) :
  lruOk c ->
  (lruOk (lruGet key now c).1 /\ (view (lruGet key now c).1, (lruGet key now c).2) = specGet key now (view c)) /\
  (lruOk (lruSet key v expires c) /\ view (lruSet key v expires c) = specSet (lruMax c) key v expires (view c)) /\
  (lruOk (purge c) /\ view (purge c) = []) /\ (lruSize c <= Z.to_nat (lruMax c))%nat.
Proof.
  intros I. destruct (get_weak c key now I) as (? & _ & ?). destruct (set_weak c key v expires I) as (? & _ & ?).
  split; [done|]. split; [done|]. split; [by apply purge_ok|]. pose proof (lo_bound c I). unfold lruSize. lia.
Qed.

(** ** The checker *)

Record Config := {
  Enabled : bool; Model : string; TimeoutMs : Z; FailOpen : bool; CacheTTLSeconds : Z; CacheMaxEntries : Z;
  MinInputChars : Z; MaxInputChars : Z; MaxConcurrent : Z
}.

Definition DefaultConfig : Config := {|
  Enabled := false; Model := "deepseek-v4-flash-nothinking"; TimeoutMs := 5000; FailOpen := true; CacheTTLSeconds := 600;
  CacheMaxEntries := 10000; MinInputChars := 30; MaxInputChars := 8000; MaxConcurrent := 16 |}.

Definition auditSemantics : Type := bool * string * bool.
Definition semanticsFor (cfg : Config) : auditSemantics := (Enabled cfg, Model cfg, FailOpen cfg).

Record Counters := {
  requestsTotal : Z; violations : Z; okCount : Z; skipped : Z; cacheHits : Z; timeouts : Z; upstreamErrors : Z; parseErrors : Z;
  failOpenInvocations : Z; concurrentInflight : Z; totalLatencyMs : Z; latencyMeasureCount : Z
}.

(** One change of the counters: the amounts that are added. *)
Definition zeroCounters : Counters := Build_Counters 0 0 0 0 0 0 0 0 0 0 0 0.
Definition bump (s d : Counters) : Counters :=
  Build_Counters (requestsTotal s + requestsTotal d) (violations s + violations d) (okCount s + okCount d) (skipped s + skipped d)
    (cacheHits s + cacheHits d) (timeouts s + timeouts d) (upstreamErrors s + upstreamErrors d) (parseErrors s + parseErrors d)
    (failOpenInvocations s + failOpenInvocations d) (concurrentInflight s + concurrentInflight d) (totalLatencyMs s + totalLatencyMs d)
    (latencyMeasureCount s + latencyMeasureCount d).
Definition aRequest : Counters := Build_Counters 1 0 0 0 0 0 0 0 0 0 0 0.
Definition aSkip : Counters := Build_Counters 0 0 1 1 0 0 0 0 0 0 0 0.
Definition aVerdict (violation : bool) : Counters :=
  if violation then Build_Counters 0 1 0 0 0 0 0 0 0 0 0 0 else Build_Counters 0 0 1 0 0 0 0 0 0 0 0 0.
Definition aHit (violation : bool) : Counters :=
  if violation then Build_Counters 0 1 0 0 1 0 0 0 0 0 0 0 else Build_Counters 0 0 1 0 1 0 0 0 0 0 0 0.
Definition anError (deadline : bool) : Counters :=
  if deadline then Build_Counters 0 0 0 0 0 1 0 0 0 0 0 0 else Build_Counters 0 0 0 0 0 0 1 0 0 0 0 0.
Definition aParseError : Counters := Build_Counters 0 0 0 0 0 0 0 1 0 0 0 0.
Definition aFallback (failOpen : bool) : Counters :=
  if failOpen then Build_Counters 0 0 1 0 0 0 0 0 1 0 0 0 else Build_Counters 0 1 0 0 0 0 0 0 0 0 0 0.
Definition anEntry (n : Z) : Counters := Build_Counters 0 0 0 0 0 0 0 0 0 n 0 0.
Definition aMeasured (violation : bool) (latency : Z) : Counters :=
  if violation then Build_Counters 0 1 0 0 0 0 0 0 0 0 latency 1 else Build_Counters 0 0 1 0 0 0 0 0 0 0 latency 1.

(** What is looked at of a text. *)
Definition auditInput (text : string) : string := TrimSpace (stripKnownInjections (stripDeepSeekProtocolMarkers text)).

Definition clipInput (cfg : Config) (trimmed : string) : string :=
  let n := Z.of_nat (String.length trimmed) in
  if (MaxInputChars cfg <? n) && (0 <? MaxInputChars cfg) then
    let keep := Z.to_nat (MaxInputChars cfg / 2) in
    strTake keep trimmed +:+ "

[... truncated for safety check ...]

" +:+ strDrop (String.length trimmed - keep) trimmed
  else trimmed.

Definition hashInput (s : string) : string := EncodeToString (Sum256 (bytesOf s)).
Definition auditKey (cfg : Config) (text : string) : string := hashInput (clipInput cfg (auditInput text)).

Definition verdictExpiry (cfg : Config) (now : Z) : Z := now + i64 (CacheTTLSeconds cfg * second).

(** Where a check is.  [PFail held]: about to fall back, [held] says whether it has a slot of
    the semaphore. *)
Inductive phase :=
| PNew
| PPurge
| PCount
| PExamine
| PKeep
| PHit (v : Verdict)
| PWait
| PEnter
| PCall (prompt : string)
| PFail (held : bool) (latency : Z)
| PSave (v : Verdict)
| PTally (v : Verdict)
| PLeave (v : Verdict)
| PFree (v : Verdict)
| PDone (v : Verdict).

Record check := { ckText : string; ckCfg : Config; ckPhase : phase }.
Definition at_ (p : phase) (ck : check) : check := {| ckText := ckText ck; ckCfg := ckCfg ck; ckPhase := p |}.

(** A verdict that was reached: by the model's output for a prompt or, without one, by a
    jailbreak phrase.  The code does not keep these; the theorems speak about them. *)
Record judgement := { jKey : string; jViolation : bool; jModel : string; jAnswer : option (string * string) }.

Record Checker := {
  cache : lruCache; semUsed : nat; semCap : nat; counters : Counters; lastSemantics : auditSemantics; hasDoer : bool;
  checks : list check; judged : list judgement
}.

(** A step is taken by one check: on its own at some time, by the configuration it reads, by
    the end of its context while it waits for a slot, or by the upstream's answer to the prompt
    it was sent: an output, or an error with whether it is the deadline. *)
Inductive move := Begin (cfg : Config) | Go (now : Z) | GiveUp | Answer (asked : string) (output : result bool string) (latency : Z).

Definition put (s : Checker) (i : nat) (ck : check) (p : phase) (c : lruCache) (sem : nat) (d : Counters) (j : list judgement) : Checker :=
  {| cache := c; semUsed := sem; semCap := semCap s; counters := bump (counters s) d; lastSemantics := lastSemantics s;
     hasDoer := hasDoer s; checks := <[i := at_ p ck]> (checks s); judged := judged s ++ j |}.

(** [maybePurgeCacheOnSemanticsChange] up to the purge. *)
Definition compareSemantics (s : Checker) (i : nat) (ck : check) (cfg : Config) : Checker :=
  {| cache := cache s; semUsed := semUsed s; semCap := semCap s; counters := counters s; lastSemantics := semanticsFor cfg;
     hasDoer := hasDoer s;
     checks := <[i := {| ckText := ckText ck; ckCfg := cfg;
                         ckPhase := if bool_decide (lastSemantics s = semanticsFor cfg) then PCount else PPurge |}]> (checks s);
     judged := judged s |}.

Definition failOpenVerdict (cfg : Config) (latency : Z) : Verdict :=
  {| Violation := negb (FailOpen cfg); Cached := false; LatencyMs := latency; FailedOpen := true |}.

Definition examine (s : Checker) (i : nat) (ck : check) (now : Z) : Checker :=
  let cfg := ckCfg ck in
  let trimmed := auditInput (ckText ck) in
  if Z.of_nat (String.length trimmed) <? MinInputChars cfg then put s i ck (PDone pass) (cache s) (semUsed s) aSkip []
  else if matchesHardJailbreakSignal trimmed then put s i ck PKeep (cache s) (semUsed s) (aVerdict true) []
  else match lruGet (auditKey cfg (ckText ck)) now (cache s) with
       | (c, Some v) => put s i ck (PHit v) c (semUsed s) zeroCounters []
       | (c, None) => put s i ck PWait c (semUsed s) zeroCounters []
       end.

Definition hardVerdict : Verdict := {| Violation := true; Cached := false; LatencyMs := 0; FailedOpen := false |}.

Definition checkStep (i : nat) (m : move) (s : Checker) : option Checker :=
  match checks s !! i with
  | None => None
  | Some ck =>
      let cfg := ckCfg ck in
      let key := auditKey cfg (ckText ck) in
      let goto p := put s i ck p (cache s) (semUsed s) in
      match ckPhase ck, m with
      | PNew, Begin cfg => Some (compareSemantics s i ck cfg)
      | PPurge, Go _ => Some (put s i ck PCount (purge (cache s)) (semUsed s) zeroCounters [])
      | PCount, Go _ => Some (if negb (Enabled cfg) || negb (hasDoer s) then goto (PDone pass) zeroCounters [] else goto PExamine aRequest [])
      | PExamine, Go now => Some (examine s i ck now)
      | PKeep, Go now =>
          let hash := hashInput (auditInput (ckText ck)) in
          Some (put s i ck (PDone hardVerdict) (lruSet hash hardVerdict (verdictExpiry cfg now) (cache s)) (semUsed s) zeroCounters
                  [{| jKey := hash; jViolation := true; jModel := ""; jAnswer := None |}])
      | PHit v, Go _ => Some (goto (PDone (asCached v)) (aHit (Violation v)) [])
      | PWait, Go _ => if (semUsed s <? semCap s)%nat then Some (put s i ck PEnter (cache s) (S (semUsed s)) zeroCounters []) else None
      | PWait, GiveUp => Some (goto (PFail false 0) zeroCounters [])
      | PEnter, Go _ => Some (goto (PCall (buildAuditPrompt (clipInput cfg (auditInput (ckText ck))))) (anEntry 1) [])
      | PCall prompt, Answer asked answer latency =>
          if negb (bool_decide (asked = prompt)) then None
          else match answer with
          | Err deadline => Some (goto (PFail true latency) (anError deadline) [])
          | Ok output =>
          match parseBinaryVerdict output with
          | None => Some (goto (PFail true latency) aParseError [])
          | Some violation =>
              Some (goto (PSave {| Violation := violation; Cached := false; LatencyMs := latency; FailedOpen := false |}) zeroCounters
                      [{| jKey := key; jViolation := violation; jModel := Model cfg; jAnswer := Some (prompt, output) |}])
          end end
      | PFail held latency, Go _ =>
          let v := failOpenVerdict cfg latency in
          Some (goto (if held then PLeave v else PDone v) (aFallback (FailOpen cfg)) [])
      | PSave v, Go now => Some (put s i ck (PTally v) (lruSet key v (verdictExpiry cfg now) (cache s)) (semUsed s) zeroCounters [])
      | PTally v, Go _ => Some (goto (PLeave v) (aMeasured (Violation v) (LatencyMs v)) [])
      | PLeave v, Go _ => Some (goto (PFree v) (anEntry (-1)) [])
      | PFree v, Go _ => Some (put s i ck (PDone v) (cache s) (pred (semUsed s)) zeroCounters [])
      | _, _ => None
      end
  end.

Fixpoint checkRun (ms : list (nat * move)) (s : Checker) : option Checker :=
  match ms with
  | [] => Some s
  | (i, m) :: ms => match checkStep i m s with Some s => checkRun ms s | None => None end
  end.

(** [NewLLMCheckerWithSource], and the calls of [CheckWithAuth] that are going to be made. *)
Definition NewLLMChecker (bootstrap : Config) (doer : bool) (texts : list string) : Checker :=
  {| cache := newLRUCache (CacheMaxEntries bootstrap); semUsed := 0;
     semCap := Z.to_nat (if MaxConcurrent bootstrap <=? 0 then 1 else MaxConcurrent bootstrap);
     counters := zeroCounters; lastSemantics := (false, "", false); hasDoer := doer;
     checks := (fun text => {| ckText := text; ckCfg := DefaultConfig; ckPhase := PNew |}) <$> texts; judged := [] |}.

Definition checkerEnabled (cfg : Config) (s : Checker) : bool := Enabled cfg && hasDoer s.

(** [Stats]: the counters, the cache size and the average latency. *)
Definition avgLatencyMs (s : Checker) : Z :=
  if 0 <? latencyMeasureCount (counters s) then totalLatencyMs (counters s) `quot` latencyMeasureCount (counters s) else 0.
Definition cacheSize (s : Checker) : Z := Z.of_nat (lruSize (cache s)).

(** ** Every check is counted and the semaphore is kept *)

(** The review is switched on for this check. *)
Definition reviewed (doer : bool) (ck : check) : bool := Enabled (ckCfg ck) && doer.
(** A check that was counted as a request. *)
Definition requested (p : phase) : nat := match p with PNew | PPurge | PCount => 0 | _ => 1 end.
(** A check whose verdict, of this kind, was counted. *)
Definition judgedAs (violation : bool) (p : phase) : nat :=
  match p with
  | PKeep => if violation then 1 else 0
  | PLeave v | PFree v | PDone v => if Bool.eqb (Violation v) violation then 1 else 0
  | _ => 0
  end.
Definition amount (count : phase -> nat) (doer : bool) (ck : check) : nat := if reviewed doer ck then count (ckPhase ck) else 0.
(** A check beyond the first tests and not at its end. *)
Definition underway (p : phase) : bool := match p with PNew | PPurge | PCount | PDone _ => false | _ => true end.
(** A check between the two updates of the gauge. *)
Definition flying (ck : check) : nat :=
  match ckPhase ck with PCall _ | PFail true _ | PSave _ | PTally _ | PLeave _ => 1 | _ => 0 end.
(** A check that has a slot. *)
Definition holding (ck : check) : nat :=
  match ckPhase ck with PEnter | PCall _ | PFail true _ | PSave _ | PTally _ | PLeave _ | PFree _ => 1 | _ => 0 end.

Record accounted (s : Checker) : Prop := {
  ac_requests : requestsTotal (counters s) = Z.of_nat (sum_list_with (amount requested (hasDoer s)) (checks s));
  ac_passed : okCount (counters s) = Z.of_nat (sum_list_with (amount (judgedAs false) (hasDoer s)) (checks s));
  ac_violating : violations (counters s) = Z.of_nat (sum_list_with (amount (judgedAs true) (hasDoer s)) (checks s));
  ac_reviewed : forall i ck, checks s !! i = Some ck -> underway (ckPhase ck) = true -> reviewed (hasDoer s) ck = true;
  ac_inflight : concurrentInflight (counters s) = Z.of_nat (sum_list_with flying (checks s));
  ac_slots : semUsed s = sum_list_with holding (checks s);
  ac_cap : (semUsed s <= semCap s)%nat
}.

(** What a step adds to the counters is what it changes of the check's part in them. *)
Definition counted (d : Counters) (p p' : phase) : Prop :=
  requestsTotal d + Z.of_nat (requested p) = Z.of_nat (requested p') /\
  okCount d + Z.of_nat (judgedAs false p) = Z.of_nat (judgedAs false p') /\
  violations d + Z.of_nat (judgedAs true p) = Z.of_nat (judgedAs true p').

Lemma put_accounted (s : Checker) (i : nat) (ck : check) (p : phase) (c : lruCache) (sem : nat) (d : Counters) (j : list judgement) :
  accounted s -> checks s !! i = Some ck ->
  (if reviewed (hasDoer s) ck then counted d (ckPhase ck) p else underway p = false /\ requestsTotal d = 0 /\ okCount d = 0 /\ violations d = 0) ->
  concurrentInflight d + Z.of_nat (flying ck) = Z.of_nat (flying (at_ p ck)) ->
  (sem + holding ck = semUsed s + holding (at_ p ck))%nat -> (sem <= semCap s)%nat ->
  accounted (put s i ck p c sem d j).
Proof.
  intros [H1 H2 H3 H0 H4 H5 H6] Hi E1 E2 E3 E4.
  pose proof (sum_insert (amount requested (hasDoer s)) _ i _ (at_ p ck) Hi). pose proof (sum_insert flying _ i _ (at_ p ck) Hi).
  pose proof (sum_insert (amount (judgedAs false) (hasDoer s)) _ i _ (at_ p ck) Hi).
  pose proof (sum_insert (amount (judgedAs true) (hasDoer s)) _ i _ (at_ p ck) Hi).
  pose proof (sum_insert holding _ i _ (at_ p ck) Hi).
  assert (R : reviewed (hasDoer s) (at_ p ck) = reviewed (hasDoer s) ck) by done. unfold amount in *. rewrite R in *.
  split; try (cbn; unfold counted, amount in *; destruct (reviewed (hasDoer s) ck); cbn in *; lia).
  intros k x [(-> & <- & _)|[_ Hk]]%list_lookup_insert_Some; [|by apply (H0 k)].
  cbn [put hasDoer]. rewrite R. destruct (reviewed (hasDoer s) ck); [done|]. cbn. destruct E1 as [-> _]. done.
Qed.

(** A step of a check under way. *)
Lemma underway_accounted (s : Checker) (i : nat) (ck : check) (p : phase) (c : lruCache) (sem : nat) (d : Counters) (j : list judgement) :
  accounted s -> checks s !! i = Some ck -> underway (ckPhase ck) = true -> counted d (ckPhase ck) p ->
  concurrentInflight d + Z.of_nat (flying ck) = Z.of_nat (flying (at_ p ck)) ->
  (sem + holding ck = semUsed s + holding (at_ p ck))%nat -> (sem <= semCap s)%nat ->
  accounted (put s i ck p c sem d j).
Proof. intros I Hi U E. apply put_accounted; [done|done|]. by rewrite (ac_reviewed s I i ck Hi U). Qed.

Lemma begin_accounted (s : Checker) (i : nat) (ck : check) (cfg : Config) :
  accounted s -> checks s !! i = Some ck -> ckPhase ck = PNew -> accounted (compareSemantics s i ck cfg).
Proof.
  intros [H1 H2 H3 H0 H4 H5 H6] Hi Hp. unfold compareSemantics. set (p := if bool_decide _ then PCount else PPurge).
  assert (Hx : p = PCount \/ p = PPurge) by (unfold p; case_bool_decide; auto).
  set (ck' := {| ckText := ckText ck; ckCfg := cfg; ckPhase := p |}).
  assert (E : forall f, f ck = 0%nat -> f ck' = 0%nat -> sum_list_with f (<[i := ck']> (checks s)) = sum_list_with f (checks s)).
  { intros f Z1 Z2. pose proof (sum_insert f _ i _ ck' Hi). lia. }
  assert (Z : forall count, count PNew = 0%nat -> count PCount = 0%nat -> count PPurge = 0%nat ->
    amount count (hasDoer s) ck = 0%nat /\ amount count (hasDoer s) ck' = 0%nat).
  { intros count Z1 Z2 Z3. unfold amount. rewrite Hp, Z1. unfold ck'; cbn [ckPhase]. destruct Hx as [-> | ->]; rewrite ?Z2, ?Z3; by repeat case_match. }
  split; cbn [counters checks semUsed semCap hasDoer]; try rewrite E; try done;
    try (by apply (Z requested)); try (by apply (Z (judgedAs false))); try (by apply (Z (judgedAs true)));
    try (unfold flying, holding; rewrite Hp; done); try (unfold flying, holding, ck'; cbn [ckPhase]; by destruct Hx as [-> | ->]).
  intros k x [(-> & <- & _)|[_ Hk]]%list_lookup_insert_Some; [unfold ck'; cbn [ckPhase]; by destruct Hx as [-> | ->]|by apply (H0 k)].
Qed.

Lemma step_accounted (i : nat) (m : move) (s s' : Checker) : accounted s -> checkStep i m s = Some s' -> accounted s'.
Proof.
  intros I. unfold checkStep. destruct (checks s !! i) as [ck|] eqn:Hi; [|done]. cbv zeta. pose proof (ac_cap s I) as Hc.
  assert (Hone : (holding ck <= semUsed s)%nat).
  { rewrite (ac_slots s I). clear -Hi. revert i Hi. induction (checks s) as [|x l IH]; intros [|i] Hi; try done; simpl in *.
    - injection Hi as ->. lia.
    - specialize (IH i Hi). lia. }
  destruct ck as [text cfg p]. cbn [ckPhase ckCfg ckText] in *.
  destruct p as [| | | | |v| | |prompt|held lat|v|v|v|v|v]; destruct m as [cfg'|now| |asked out lat']; try discriminate 1.
  - intros [= <-]. by apply begin_accounted.
  - intros [= <-]. apply put_accounted; try done. by destruct (reviewed _ _).
  - intros [= <-]. destruct (negb _ || _) eqn:D; apply put_accounted; try done; unfold reviewed; cbn [ckCfg];
      destruct (Enabled cfg), (hasDoer s); done.
  - intros [= <-]. unfold examine. cbn [ckText ckCfg]. destruct (_ <? _); [by apply underway_accounted|].
    destruct (matchesHardJailbreakSignal _); [by apply underway_accounted|].
    destruct (lruGet _ _ _) as [c [v|]]; by apply underway_accounted.
  - intros [= <-]. by apply underway_accounted.
  - intros [= <-]. apply underway_accounted; try done; by destruct v as [[] ? ? ?].
  - destruct (Nat.ltb_spec (semUsed s) (semCap s)); [|done]. intros [= <-]. apply underway_accounted; try done. cbn. lia.
  - intros [= <-]. by apply underway_accounted.
  - intros [= <-]. by apply underway_accounted.
  - destruct (negb _); [done|]. destruct out as [out|deadline].
    + destruct (parseBinaryVerdict out) as [viol|]; intros [= <-]; by apply underway_accounted.
    + intros [= <-]. apply underway_accounted; try done; by destruct deadline.
  - intros [= <-]. destruct held; apply underway_accounted; try done; unfold counted, failOpenVerdict; cbn; by destruct (FailOpen cfg).
  - intros [= <-]. by apply underway_accounted.
  - intros [= <-]. apply underway_accounted; try done; by destruct v as [[] ? ? ?].
  - intros [= <-]. apply underway_accounted; try done; by destruct v as [[] ? ? ?].
  - intros [= <-]. apply underway_accounted; try done; try (by destruct v as [[] ? ? ?]); cbn in *; lia.
Qed.

Lemma run_accounted (ms : list (nat * move)) (s s' : Checker) : accounted s -> checkRun ms s = Some s' -> accounted s'.
Proof.
  revert s. induction ms as [|[i m] ms IH]; intros s I; [by intros [= <-]|]. cbn [checkRun].
  destruct (checkStep i m s) as [s1|] eqn:Hs; [|done]. apply IH. by eapply step_accounted.
Qed.

(** The size of the semaphore and the presence of a doer are fixed. *)
Lemma run_fixed (ms : list (nat * move)) (s s' : Checker) : checkRun ms s = Some s' -> semCap s' = semCap s /\ hasDoer s' = hasDoer s.
Proof.
  revert s. induction ms as [|[i m] ms IH]; intros s; [by intros [= <-]|]. cbn [checkRun].
  destruct (checkStep i m s) as [s1|] eqn:Hs; [|done]. intros [-> ->]%IH. clear -Hs. revert Hs. unfold checkStep, examine, put, compareSemantics.
  cbv zeta. intros H. repeat case_match; simplify_eq; done.
Qed.

Lemma start_accounted (bootstrap : Config) (doer : bool) (texts : list string) : accounted (NewLLMChecker bootstrap doer texts).
Proof.
  assert (E : forall f : check -> nat, (forall t, f {| ckText := t; ckCfg := DefaultConfig; ckPhase := PNew |} = 0%nat) ->
    sum_list_with f (checks (NewLLMChecker bootstrap doer texts)) = 0%nat).
  { intros f Hf. apply sum_zero. apply Forall_fmap, Forall_true. intros t. apply Hf. }
  split; cbn [hasDoer NewLLMChecker counters zeroCounters requestsTotal okCount violations concurrentInflight semUsed]; rewrite ?E by done; try done;
    [|cbn; lia]. intros i ck (t & -> & _)%list_lookup_fmap_Some. done.
Qed.

(** C24. Every interleaving of safety checks keeps the books.  The requests counted are the checks
    for which the review was switched on, from the point on at which they are counted; the
    verdicts counted as passed and those counted as violations are the checks that ended, or are
    about to end, with a verdict of that kind; the gauge is the number of upstream calls; and
    never more checks than configured hold a slot of the semaphore, which every check that ends
    has given back. *)
Theorem checks_accounted (bootstrap : Config) (doer : bool) (texts : list string) (ms : list (nat * move)) (s : Checker) :
  checkRun ms (NewLLMChecker bootstrap doer texts) = Some s ->
  requestsTotal (counters s) = Z.of_nat (sum_list_with (amount requested doer) (checks s)) /\
  okCount (counters s) = Z.of_nat (sum_list_with (amount (judgedAs false) doer) (checks s)) /\
  violations (counters s) = Z.of_nat (sum_list_with (amount (judgedAs true) doer) (checks s)) /\
  concurrentInflight (counters s) = Z.of_nat (sum_list_with flying (checks s)) /\
  (sum_list_with flying (checks s) <= sum_list_with holding (checks s))%nat /\
  Z.of_nat (sum_list_with holding (checks s)) <= Z.max 1 (MaxConcurrent bootstrap) /\
  semUsed s = sum_list_with holding (checks s).
Proof.
  intros Hr. pose proof (run_accounted ms _ s (start_accounted bootstrap doer texts) Hr) as [H1 H2 H3 _ H4 H5 H6].
  apply run_fixed in Hr as [Hcap Hd]. cbn in Hd. rewrite Hd in *. repeat (split; [done|]). split; [|split; [|done]].
  - apply sum_le. intros [t cfg p]. by destruct p as [| | | | |v| | |prompt|[] lat|v|v|v|v|v]; cbn; lia.
  - rewrite <- H5. rewrite Hcap in H6. cbn in H6. destruct (Z.leb_spec (MaxConcurrent bootstrap) 0); lia.
Qed.

(** ** Where verdicts come from *)

(** Some judgement under this key says so. *)
Definition vouched (s : Checker) (key : string) (v : Verdict) : Prop :=
  FailedOpen v = false /\ exists j, j ∈ judged s /\ jKey j = key /\ jViolation j = Violation v.

(** A judgement is what the model answered when it was asked about a text with this key, or a
    jailbreak phrase was found. *)
Definition judgedRight (j : judgement) : Prop :=
  match jAnswer j with
  | Some (prompt, output) => parseBinaryVerdict output = Some (jViolation j) /\
      exists clipped, prompt = buildAuditPrompt clipped /\ hashInput clipped = jKey j
  | None => jViolation j = true
  end.

Definition tooShort (ck : check) : Prop := Z.of_nat (String.length (auditInput (ckText ck))) < MinInputChars (ckCfg ck).

(** Why a check ends with this verdict. *)
Definition explained (s : Checker) (ck : check) (v : Verdict) : Prop :=
  (FailedOpen v = true /\ Violation v = negb (FailOpen (ckCfg ck))) \/
  (v = pass /\ (Enabled (ckCfg ck) = false \/ hasDoer s = false \/ tooShort ck)) \/
  (v = hardVerdict /\ matchesHardJailbreakSignal (auditInput (ckText ck)) = true) \/
  vouched s (auditKey (ckCfg ck) (ckText ck)) v.

Definition explainedPhase (s : Checker) (ck : check) : Prop :=
  match ckPhase ck with
  | PKeep => matchesHardJailbreakSignal (auditInput (ckText ck)) = true
  | PHit v | PSave v => vouched s (auditKey (ckCfg ck) (ckText ck)) v
  | PCall prompt => prompt = buildAuditPrompt (clipInput (ckCfg ck) (auditInput (ckText ck)))
  | PTally v | PLeave v | PFree v | PDone v => explained s ck v
  | _ => True
  end.

Record trusted (s : Checker) : Prop := {
  tr_cache : lruOk (cache s);
  tr_entries : Forall (fun e => vouched s (ceKey e) (ceVerdict e)) (view (cache s));
  tr_judged : Forall judgedRight (judged s);
  tr_checks : forall i ck, checks s !! i = Some ck -> explainedPhase s ck
}.

(** More is judged later on. *)
Definition extends (s s' : Checker) : Prop := hasDoer s' = hasDoer s /\ exists new, judged s' = judged s ++ new.

Lemma vouched_extends (s s' : Checker) (key : string) (v : Verdict) : extends s s' -> vouched s key v -> vouched s' key v.
Proof. intros [_ [new E]] (Hf & j & Hj & ?). split; [done|]. exists j. rewrite E. set_solver. Qed.

Lemma explained_extends (s s' : Checker) (ck : check) (v : Verdict) : extends s s' -> explained s ck v -> explained s' ck v.
Proof.
  intros He [H|[[H1 H2]|[H|H]]]; [by left|right; left|right; right; by left|right; right; right; by eapply vouched_extends].
  split; [done|]. by rewrite (proj1 He).
Qed.

Lemma explainedPhase_extends (s s' : Checker) (ck : check) : extends s s' -> explainedPhase s ck -> explainedPhase s' ck.
Proof.
  intros He. unfold explainedPhase. destruct (ckPhase ck); eauto using vouched_extends, explained_extends.
Qed.

Lemma put_extends (s : Checker) (i : nat) (ck : check) (p : phase) (c : lruCache) (sem : nat) (d : Counters) (j : list judgement) :
  extends s (put s i ck p c sem d j).
Proof. split; [done|by exists j]. Qed.

Lemma put_judged (s : Checker) (i : nat) (ck : check) (p : phase) (c : lruCache) (sem : nat) (d : Counters) (j : judgement) :
  j ∈ judged (put s i ck p c sem d [j]).
Proof. apply elem_of_app. right. by left. Qed.

Lemma put_trusted (s : Checker) (i : nat) (ck : check) (p : phase) (c : lruCache) (sem : nat) (d : Counters) (j : list judgement) :
  trusted s -> checks s !! i = Some ck -> lruOk c ->
  (forall e, e ∈ view c -> e ∈ view (cache s) \/ vouched (put s i ck p c sem d j) (ceKey e) (ceVerdict e)) ->
  Forall judgedRight j -> explainedPhase (put s i ck p c sem d j) (at_ p ck) -> trusted (put s i ck p c sem d j).
Proof.
  intros [H1 H2 H3 H4] Hi Hc Hv Hj Hp. pose proof (put_extends s i ck p c sem d j) as He. split.
  - done.
  - apply Forall_forall. intros e [Ho|?]%Hv; [|done]. eapply vouched_extends; [done|]. exact (proj1 (Forall_forall _ _) H2 e Ho).
  - cbn. by apply Forall_app.
  - intros k x Hk. cbn [put checks] in Hk. apply list_lookup_insert_Some in Hk as [(-> & <- & _)|[_ Hk]]; [done|].
    eapply explainedPhase_extends; [done|by eapply H4].
Qed.

Lemma specGet_in (key : string) (now : Z) (l : list cacheEntry) (e : cacheEntry) : e ∈ (specGet key now l).1 -> e ∈ l.
Proof.
  unfold specGet, others. destruct (entryOf key l) as [x|] eqn:E; [|done].
  assert (Hx : x ∈ l) by (apply list_elem_of_In; apply (List.find_some _ _ E)).
  destruct (_ && _); cbn [fst]; [by intros [_ ?]%list_elem_of_filter|].
  intros [->|[_ ?]%list_elem_of_filter]%elem_of_cons; done.
Qed.

Lemma specGet_hit (key : string) (now : Z) (l : list cacheEntry) (v : Verdict) :
  (specGet key now l).2 = Some v -> exists e, e ∈ l /\ ceKey e = key /\ ceVerdict e = v.
Proof.
  unfold specGet. destruct (entryOf key l) as [x|] eqn:E; [|done]. destruct (_ && _); [done|]. intros [= <-].
  apply List.find_some in E as [Hin Hk%bool_decide_eq_true_1]. exists x. split; [by apply list_elem_of_In|done].
Qed.

Lemma specSet_in (max : Z) (key : string) (v : Verdict) (expires : Z) (l : list cacheEntry) (e : cacheEntry) :
  e ∈ specSet max key v expires l -> e ∈ l \/ (ceKey e = key /\ ceVerdict e = v).
Proof.
  intros H. assert (Hs : e ∈ {| ceKey := key; ceVerdict := v; expiresAt := expires |} :: others key l)
    by (eapply (subseteq_take (Z.to_nat max)); exact H).
  apply elem_of_cons in Hs as [->|[_ ?]%list_elem_of_filter]; [by right|by left].
Qed.

(** A step that leaves the cache and the judgements alone. *)
Lemma quiet_trusted (s : Checker) (i : nat) (ck : check) (p : phase) (sem : nat) (d : Counters) :
  trusted s -> checks s !! i = Some ck -> explainedPhase s (at_ p ck) -> trusted (put s i ck p (cache s) sem d []).
Proof.
  intros T Hi Hp. apply put_trusted; [done|done|apply T|by left|done|]. eapply explainedPhase_extends; [apply put_extends|done].
Qed.

Lemma store_trusted (s : Checker) (i : nat) (ck : check) (p : phase) (key : string) (v : Verdict) (expires : Z) (d : Counters) (j : list judgement) :
  trusted s -> checks s !! i = Some ck -> Forall judgedRight j ->
  (forall c, vouched (put s i ck p c (semUsed s) d j) key v) ->
  (forall c, explainedPhase (put s i ck p c (semUsed s) d j) (at_ p ck)) ->
  trusted (put s i ck p (lruSet key v expires (cache s)) (semUsed s) d j).
Proof.
  intros T Hi Hj Hv Hp. destruct (set_weak (cache s) key v expires (tr_cache s T)) as (Hok & _ & Hview).
  apply put_trusted; [done|done|done| |done|apply Hp]. rewrite Hview. intros e [?|[<- <-]]%specSet_in; [by left|right; apply Hv].
Qed.

Lemma examine_trusted (s : Checker) (i : nat) (ck : check) (now : Z) :
  trusted s -> checks s !! i = Some ck -> trusted (examine s i ck now).
Proof.
  intros T Hi. unfold examine. destruct (Z.ltb_spec (Z.of_nat (String.length (auditInput (ckText ck)))) (MinInputChars (ckCfg ck))).
  { apply quiet_trusted; [done|done|]. right. left. split; [done|]. right. by right. }
  destruct (matchesHardJailbreakSignal _) eqn:Eh; [by apply quiet_trusted|].
  destruct (get_weak (cache s) (auditKey (ckCfg ck) (ckText ck)) now (tr_cache s T)) as (Hok & _ & Hg).
  destruct (lruGet _ now (cache s)) as [c r]. cbn [fst snd] in *.
  assert (Hin : forall e, e ∈ view c -> e ∈ view (cache s)).
  { intros e He. apply (specGet_in (auditKey (ckCfg ck) (ckText ck)) now). by rewrite <- Hg. }
  destruct r as [v|].
  - apply put_trusted; [done|done|done|intros e He; left; by apply Hin|done|].
    destruct (specGet_hit (auditKey (ckCfg ck) (ckText ck)) now (view (cache s)) v) as (e & He & Hk & Hv); [by rewrite <- Hg|].
    pose proof (proj1 (Forall_forall _ _) (tr_entries s T) e He) as Hvo. cbv beta in Hvo. rewrite Hk, Hv in Hvo.
    exact (vouched_extends _ _ _ _ (put_extends _ _ _ _ _ _ _ _) Hvo).
  - apply put_trusted; [done|done|done|intros e He; left; by apply Hin|done|done].
Qed.

Lemma step_trusted (i : nat) (m : move) (s s' : Checker) : trusted s -> checkStep i m s = Some s' -> trusted s'.
Proof.
  intros T. unfold checkStep. destruct (checks s !! i) as [ck|] eqn:Hi; [|done]. cbv zeta.
  pose proof (tr_checks s T i ck Hi) as Hp. unfold explainedPhase in Hp.
  destruct (ckPhase ck) as [| | | | |v| | |prompt|held lat|v|v|v|v|v] eqn:Ep; destruct m as [cfg'|now| |asked out lat']; try discriminate 1.
  - intros [= <-]. destruct T as [H1 H2 H3 H4].
    assert (He : extends s (compareSemantics s i ck cfg')) by (split; [done|exists []; by rewrite app_nil_r]). split; try done.
    intros k x [(-> & <- & _)|[_ Hk]]%list_lookup_insert_Some.
    + unfold explainedPhase. cbn [ckPhase]. destruct (bool_decide _); exact I.
    + eapply explainedPhase_extends; [exact He|by eapply H4].
  - intros [= <-]. destruct (purge_ok (cache s) (tr_cache s T)) as [Hok Hv].
    apply put_trusted; [done|done|done| |done|done]. rewrite Hv. by intros e ?%not_elem_of_nil.
  - intros [= <-]. destruct (Enabled (ckCfg ck)) eqn:Ee, (hasDoer s) eqn:Ed; cbn [negb orb]; apply quiet_trusted; try (exact T); try (exact Hi);
      first [exact I|right; left; split; [reflexivity|auto]].
  - intros [= <-]. by apply examine_trusted.
  - intros [= <-]. apply store_trusted; [done|done|by repeat constructor| |].
    + intros c. split; [done|]. eexists. split; [apply put_judged|split; reflexivity].
    + intros c. right. right. by left.
  - intros [= <-]. apply quiet_trusted; [done|done|]. right. right. right. exact Hp.
  - destruct (_ <? _)%nat; [|done]. intros [= <-]. by apply quiet_trusted.
  - intros [= <-]. by apply quiet_trusted.
  - intros [= <-]. by apply quiet_trusted.
  - destruct (negb _); [done|]. destruct out as [out|deadline]; [|intros [= <-]; by apply quiet_trusted].
    destruct (parseBinaryVerdict out) as [viol|] eqn:Eo; intros [= <-]; [|by apply quiet_trusted].
    apply put_trusted; [done|done|apply T|by left|constructor; [|done]; split; [done|by eexists]|].
    split; [done|]. eexists. split; [apply put_judged|split; reflexivity].
  - intros [= <-]. assert (Hx : explained s ck (failOpenVerdict (ckCfg ck) lat)) by (by left).
    destruct held; by apply quiet_trusted.
  - intros [= <-]. apply store_trusted; [done|done|by constructor| |].
    + intros c. eapply vouched_extends; [apply put_extends|exact Hp].
    + intros c. right. right. right. eapply vouched_extends; [apply put_extends|exact Hp].
  - intros [= <-]. by apply quiet_trusted.
  - intros [= <-]. by apply quiet_trusted.
  - intros [= <-]. by apply quiet_trusted.
Qed.

Lemma run_trusted (ms : list (nat * move)) (s s' : Checker) : trusted s -> checkRun ms s = Some s' -> trusted s'.
Proof.
  revert s. induction ms as [|[i m] ms IH]; intros s T; [by intros [= <-]|]. cbn [checkRun].
  destruct (checkStep i m s) as [s1|] eqn:Hs; [|done]. apply IH. by eapply step_trusted.
Qed.

Lemma start_trusted (bootstrap : Config) (doer : bool) (texts : list string) : trusted (NewLLMChecker bootstrap doer texts).
Proof.
  split; [apply newCache_ok|by constructor|by constructor|].
  intros i ck (t & -> & _)%list_lookup_fmap_Some. done.
Qed.

(** The answers a run judges by are answers given in it. *)
Definition heard (ms : list (nat * move)) (j : judgement) : Prop :=
  match jAnswer j with Some (prompt, output) => exists i latency, (i, Answer prompt (Ok output) latency) ∈ ms | None => True end.

Lemma step_heard (i : nat) (m : move) (s s' : Checker) : checkStep i m s = Some s' ->
  judged s' = judged s \/ exists j, judged s' = judged s ++ [j] /\ heard [(i, m)] j.
Proof.
  unfold checkStep. destruct (checks s !! i) as [ck|]; [|done]. cbv zeta.
  destruct (ckPhase ck) as [| | | | |v| | |prompt|held lat|v|v|v|v|v]; destruct m as [cfg'|now| |asked out lat']; try discriminate 1;
    try (intros [= <-]; left; cbn [put judged]; by rewrite app_nil_r).
  - intros [= <-]. by left.
  - intros [= <-]. left. destruct (_ || _); cbn [put judged]; by rewrite app_nil_r.
  - intros [= <-]. left. unfold examine. repeat case_match; cbn [put judged]; by rewrite app_nil_r.
  - intros [= <-]. right. by eexists.
  - destruct (_ <? _)%nat; [|done]. intros [= <-]. left. cbn [put judged]. by rewrite app_nil_r.
  - case_bool_decide as E; [|done]. subst asked. cbn [negb]. destruct out as [out|deadline];
      [destruct (parseBinaryVerdict out)|]; intros [= <-]; try (left; cbn [put judged]; by rewrite app_nil_r).
    right. eexists. split; [done|]. cbn. exists i, lat'. by left.
Qed.

Lemma heard_app (ms ms' : list (nat * move)) (j : judgement) : heard ms j \/ heard ms' j -> heard (ms ++ ms') j.
Proof. unfold heard. destruct (jAnswer j) as [[]|]; [|done]. intros [(i & l & H)|(i & l & H)]; exists i, l; set_solver. Qed.

Lemma run_heard (ms : list (nat * move)) (s s' : Checker) (old : list (nat * move)) :
  Forall (heard old) (judged s) -> checkRun ms s = Some s' -> Forall (heard (old ++ ms)) (judged s').
Proof.
  revert s old. induction ms as [|[i m] ms IH]; intros s old H; [intros [= <-]; by rewrite app_nil_r|]. cbn [checkRun].
  destruct (checkStep i m s) as [s1|] eqn:Hs; [|done]. intros Hr.
  replace (old ++ (i, m) :: ms) with ((old ++ [(i, m)]) ++ ms) by (by rewrite <- app_assoc). apply (IH s1); [|done].
  assert (H' : Forall (heard (old ++ [(i, m)])) (judged s)) by (eapply Forall_impl; [exact H|intros j Hj; apply heard_app; by left]).
  apply step_heard in Hs as [->|(j & -> & Hj)]; [done|]. apply Forall_app. split; [done|]. constructor; [|done]. apply heard_app. by right.
Qed.

(** C11. With fail-open switched off nothing passes unreviewed: in every interleaving, through
    the cache, outages and changes of the configuration, a check that lets a text pass was
    switched off, or the text was too short to be looked at, or the model was asked, by this
    check or an earlier one, and its output reads as a pass.  What it was asked about has the
    hash of what the check looks at: the text without the gateway's own markers and, above the
    configured length, with its middle left out, so that two long texts that differ only there
    are one to the review. *)
Theorem nothing_unreviewed (bootstrap : Config) (doer : bool) (texts : list string) (ms : list (nat * move)) (s : Checker)
  (i : nat) (ck : check) (v : Verdict) :
  checkRun ms (NewLLMChecker bootstrap doer texts) = Some s ->
  checks s !! i = Some ck -> ckPhase ck = PDone v -> FailOpen (ckCfg ck) = false -> Violation v = false ->
  Enabled (ckCfg ck) = false \/ doer = false \/ tooShort ck \/
  exists k clipped output latency, (k, Answer (buildAuditPrompt clipped) (Ok output) latency) ∈ ms /\
    hashInput clipped = hashInput (clipInput (ckCfg ck) (auditInput (ckText ck))) /\ parseBinaryVerdict output = Some false.
Proof.
  intros Hr Hi Hp Hf Hv. pose proof (run_trusted ms _ s (start_trusted bootstrap doer texts) Hr) as T.
  pose proof (run_heard ms (NewLLMChecker bootstrap doer texts) s [] (Forall_nil_2 _) Hr) as Hh.
  pose proof (proj2 (run_fixed ms _ s Hr)) as Hd. cbn in Hd. rewrite <- Hd.
  pose proof (tr_checks s T i ck Hi) as He. unfold explainedPhase in He. rewrite Hp in He.
  destruct He as [[_ E]|[[_ H]|[[-> _]|(_ & j & Hj & Hk & E)]]]; [rewrite Hf, Hv in E; discriminate E|naive_solver|discriminate Hv|].
  right. right. right. pose proof (proj1 (Forall_forall _ _) (tr_judged s T) j Hj) as Hright. unfold judgedRight in Hright.
  pose proof (proj1 (Forall_forall _ _) Hh j Hj) as Hheard. unfold heard in Hheard.
  destruct (jAnswer j) as [[prompt output]|] eqn:Eo; [|congruence]. destruct Hright as [Hout (clipped & -> & Hc)].
  destruct Hheard as (k & latency & Hin). exists k, clipped, output, latency. split; [done|]. rewrite Hv in E. rewrite E in Hout.
  split; [by rewrite Hc, Hk|done].
Qed.

(** ** Runs *)

Definition strict (model : string) : Config := {|
  Enabled := true; Model := model; TimeoutMs := 5000; FailOpen := false; CacheTTLSeconds := 600; CacheMaxEntries := 10; MinInputChars := 4;
  MaxInputChars := 8000; MaxConcurrent := 2 |}.

(** The model's answer to a check of this text. *)
Definition answered (text output : string) (latency : Z) : move :=
  Answer (buildAuditPrompt (clipInput (strict "") (auditInput text))) (Ok output) latency.

(** A check of ["hello"] that the model passes. *)
Definition passed : list (nat * move) :=
  [(0%nat, Begin (strict "pro")); (0%nat, Go 0); (0%nat, Go 0); (0%nat, Go 0); (0%nat, Go 0); (0%nat, Go 0);
   (0%nat, answered "hello" "不违规" 7); (0%nat, Go 0); (0%nat, Go 0); (0%nat, Go 0); (0%nat, Go 0)].

Lemma lru_refines_witness :
  let c := lruSet "k" pass 5 (newLRUCache 2) in
  (lruGet "k" 3 c).2 = Some pass /\ (view (lruGet "k" 3 c).1, (lruGet "k" 3 c).2) = specGet "k" 3 (view c).
Proof.
  intros c. assert (Hc : lruOk c) by (apply (set_weak (newLRUCache 2) "k" pass 5), newCache_ok).
  split; [reflexivity|]. apply (lru_refines c "k" 3 0 pass Hc).
Defined.

Lemma checks_accounted_witness :
  exists s, checkRun (take 6 passed) (NewLLMChecker (strict "pro") true ["hello"]) = Some s /\
    concurrentInflight (counters s) = 1 /\ Z.of_nat (sum_list_with holding (checks s)) <= 2.
Proof.
  eexists. split; [vm_compute; reflexivity|]. split; [reflexivity|].
  apply (checks_accounted (strict "pro") true ["hello"] (take 6 passed)). vm_compute. reflexivity.
Defined.

Lemma nothing_unreviewed_witness :
  exists s, checkRun passed (NewLLMChecker (strict "pro") true ["hello"]) = Some s /\
    exists k clipped output latency, (k, Answer (buildAuditPrompt clipped) (Ok output) latency) ∈ passed /\
      hashInput clipped = hashInput "hello" /\ parseBinaryVerdict output = Some false.
Proof.
  set (v := {| Violation := false; Cached := false; LatencyMs := 7; FailedOpen := false |}).
  set (ck := {| ckText := "hello"; ckCfg := strict "pro"; ckPhase := PDone v |}).
  assert (Hr : exists s, checkRun passed (NewLLMChecker (strict "pro") true ["hello"]) = Some s /\ checks s !! 0%nat = Some ck).
  { eexists. split; [vm_compute; reflexivity|reflexivity]. }
  assert (Hs : Z.of_nat (String.length (auditInput "hello")) = 5) by (vm_compute; reflexivity).
  destruct Hr as (s & Hr & Hi). exists s. split; [exact Hr|].
  destruct (nothing_unreviewed (strict "pro") true ["hello"] passed s 0 ck v Hr Hi eq_refl eq_refl eq_refl)
    as [H|[H|[H|(k & clipped & output & latency & H1 & H2 & H3)]]]; [discriminate H|discriminate H| |].
  { unfold tooShort in H. cbn [ckText ckCfg ck MinInputChars strict] in H. rewrite Hs in H. discriminate H. }
  exists k, clipped, output, latency. refine (conj H1 (conj _ H3)). rewrite H2. vm_compute. reflexivity.
Defined.

(** ** What the review misses *)

(** A verdict of the previous model outlives the purge: the check that asked it stores its
    verdict after the configuration changed and the cache was purged, and the next check, under
    the new model, is served from it. *)
Definition overtaken : list (nat * move) :=
  [(0%nat, Begin (strict "flash")); (0%nat, Go 0); (0%nat, Go 0); (0%nat, Go 0); (0%nat, Go 0); (0%nat, Go 0);
   (0%nat, answered "hello" "不违规" 7);
   (1%nat, Begin (strict "pro")); (1%nat, Go 0);
   (0%nat, Go 0);
   (2%nat, Begin (strict "pro")); (2%nat, Go 0); (2%nat, Go 0); (2%nat, Go 0)].

Theorem stale_verdict_survives_purge :
  exists s, checkRun overtaken (NewLLMChecker (strict "flash") true ["hello"; "other"; "hello"]) = Some s /\
    ckPhase <$> checks s !! 2%nat = Some (PDone {| Violation := false; Cached := true; LatencyMs := 7; FailedOpen := false |}) /\
    jModel <$> judged s = ["flash"].
Proof. eexists. split; [vm_compute; reflexivity|]. split; reflexivity. Qed.

(** The review can be switched off from inside the text: when a text begins with the gateway's
    own banner everything after it is cut off, and the check passes it as too short without
    asking the model. *)
Theorem banner_disables_review (s : Checker) (i : nat) (ck : check) (rest : string) (d : ascii) (now : Z) :
  checks s !! i = Some ck -> ckPhase ck = PExamine -> 0 < MinInputChars (ckCfg ck) -> plainByte d = true ->
  ckText ck = hd "" knownGatewayInjections +:+ rest +:+ String d "" ->
  Forall (fun m => Index (ckText ck) m = None) deepseekProtocolStandaloneMarkers ->
  exists s', checkStep i (Go now) s = Some s' /\ ckPhase <$> checks s' !! i = Some (PDone pass) /\ judged s' = judged s.
Proof.
  intros Hi Hp Hm Hd Et Hn. unfold checkStep. rewrite Hi, Hp. cbv zeta. eexists. split; [reflexivity|].
  unfold examine, auditInput. rewrite Et in Hn |- *. rewrite banner_hides by done. cbn [String.length].
  destruct (Z.ltb_spec (Z.of_nat 0) (MinInputChars (ckCfg ck))) as [_|?]; [|lia].
  cbn [put checks judged]. rewrite list_lookup_insert_eq by (by eapply lookup_lt_Some). by rewrite app_nil_r.
Qed.
