(* ===== verification/PrefixPlan.v ===== *)
(** The stable prefix of a conversation's transcript:
    [internal/httpapi/openai/history/current_input_prefix.go].

    The store remembers, per conversation, up to two prefixes of earlier transcripts; a
    request whose transcript still begins with one of them sends the prefix byte for byte as
    before (inline) or by the file it was uploaded as, and only the tail anew.  The critical
    sections of the store are functions on its state with the clock reading as an argument;
    [iter] is the order in which a Go map is walked.  The prompt that is built from the body
    and the token counts are left out. *)
From S2P Require Import Prelude GoString GoText Affinity Sha256.
From Stdlib Require Import Ascii.
Local Open Scope string_scope.
Local Open Scope Z_scope.
Local Open Scope list_scope.

Definition currentInputTargetTailChars : Z := 32768.
Definition currentInputMaxTailChars : Z := 131072.
Definition currentInputPrefixTTL : Z := 1800 * second.
Definition currentInputPrefixMaxStates : nat := N.to_nat 2048.
Definition currentInputPrefixMaxVariants : nat := 2.

Inductive currentInputPrefixMode := prefixModeFile | prefixModeInline.
#[global] Instance prefixMode_eq_dec : EqDecision currentInputPrefixMode.
Proof. solve_decision. Defined.

Record currentInputPrefixVariant := { PrefixText : string; PrefixHash : string; FileID : string }.
Record currentInputPrefixState := {
  Mode : currentInputPrefixMode; Key : string; Variants : list currentInputPrefixVariant; UpdatedAt : Z
}.
Record currentInputPrefixPlan := {
  planMode : currentInputPrefixMode; planKey : string; planPrefix : string; planHash : string; planFile : string; TailText : string;
  Reused : bool; CheckpointRefresh : bool
}.

Notation prefixStates := (gmap string currentInputPrefixState).

Definition len (s : string) : Z := Z.of_nat (String.length s).

(** ** Transcripts *)

Definition newlineStr : string := String "010"%char "".
(** A role block begins after this. *)
Definition roleMark : string := newlineStr +:+ "=== ".

(** [strings.LastIndex] *)
Fixpoint LastIndex (s sub : string) : option nat :=
  match s with
  | EmptyString => if HasPrefix "" sub then Some 0%nat else None
  | String c s' => match LastIndex s' sub with
                   | Some j => Some (S j)
                   | None => if HasPrefix s sub then Some 0%nat else None
                   end
  end.

Definition currentInputTextHash (text : string) : string :=
  if bool_decide (text = "") then "" else strTake 16 (EncodeToString (Sum256 (bytesOf text))).

Definition transcriptBoundaryAtOrAfter (text : string) (start : Z) : option nat :=
  let start := Z.to_nat (Z.max 0 start) in
  if (String.length text <=? start)%nat then None
  else match Index (strDrop start text) roleMark with
       | None => None
       | Some idx => Some (start + idx + 1)%nat
       end.

(** The cut that leaves a tail of about the target size. *)
Definition standardCut (fullText : string) : option (string * string) :=
  if currentInputTargetTailChars <? len fullText then
    match transcriptBoundaryAtOrAfter fullText (len fullText - currentInputTargetTailChars) with
    | Some cut =>
        let prefix := strTake cut fullText in
        let tail := strDrop cut fullText in
        if (currentInputTargetTailChars / 4 <=? len prefix) && negb (bool_decide (TrimSpace tail = "")) && (len tail <=? currentInputMaxTailChars)
        then Some (prefix, tail) else None
    | None => None
    end
  else None.

(** The cut before the last role block. *)
Definition softCut (fullText : string) : option (string * string) :=
  match LastIndex fullText roleMark with
  | None => None
  | Some lastIdx =>
      let prefix := strTake (S lastIdx) fullText in
      let tail := strDrop (S lastIdx) fullText in
      if bool_decide (TrimSpace prefix = "") || bool_decide (TrimSpace tail = "") then None
      else if currentInputMaxTailChars <? len tail then None
      else Some (prefix, tail)
  end.

Definition splitCurrentInputPrefixTail (fullText : string) : option (string * string) :=
  let fullText := TrimSpace fullText in
  if bool_decide (fullText = "") then None
  else
    let fullText := fullText +:+ newlineStr in
    match standardCut fullText with Some r => Some r | None => softCut fullText end.

(** [strings.Count] of the mark, whose occurrences cannot overlap. *)
Fixpoint countMarks (s : string) : nat :=
  match s with
  | EmptyString => 0
  | String _ s' => (if HasPrefix s roleMark then 1 else 0) + countMarks s'
  end.

Definition countTranscriptEntries (text : string) : nat :=
  let text := TrimSpace text in
  if bool_decide (text = "") then 0
  else ((if HasPrefix text "=== " then 1 else 0) + countMarks text)%nat.

(** ** The store *)

Section Store.
Variable iter : prefixStates -> list (string * currentInputPrefixState).

Definition expired (now : Z) (st : currentInputPrefixState) : bool := currentInputPrefixTTL <? timeSub now (UpdatedAt st).

Definition older (best : string * Z) (e : string * currentInputPrefixState) : string * Z :=
  if bool_decide (best.1 = "") || (UpdatedAt e.2 <? best.2) then (e.1, UpdatedAt e.2) else best.

Definition pruneLocked (now : Z) (states : prefixStates) : prefixStates :=
  let states := filter (fun e => expired now e.2 = false) states in
  if (size states <=? currentInputPrefixMaxStates)%nat then states
  else
    let '(oldestKey, _) := fold_left older (iter states) ("", now) in
    if bool_decide (oldestKey = "") then states else delete oldestKey states.

(** May this variant serve the transcript? *)
Definition usable (mode : currentInputPrefixMode) (fullText : string) (v : currentInputPrefixVariant) : bool :=
  negb (bool_decide (PrefixText v = "")) &&
  negb (bool_decide (mode = prefixModeFile) && bool_decide (FileID v = "")) &&
  HasPrefix fullText (PrefixText v) &&
  (len fullText - len (PrefixText v) <=? currentInputMaxTailChars).

(** The walk over the variants from index [i] on, with the best so far. *)
Fixpoint walkVariants (mode : currentInputPrefixMode) (fullText : string) (vs : list currentInputPrefixVariant) (i : nat)
  (best : option nat) (bestLen : Z) : option nat :=
  match vs with
  | [] => best
  | v :: vs =>
      if usable mode fullText v && (bestLen <? len (PrefixText v))
      then walkVariants mode fullText vs (S i) (Some i) (len (PrefixText v))
      else walkVariants mode fullText vs (S i) best bestLen
  end.

(** The element at [i] moved to the front. *)
Definition promote (i : nat) (vs : list currentInputPrefixVariant) : list currentInputPrefixVariant :=
  match vs !! i with
  | Some hot => if bool_decide (i = 0%nat) then vs else hot :: take i vs ++ drop (S i) vs
  | None => vs
  end.

Definition plan (key fullText : string) (mode : currentInputPrefixMode) (now : Z) (states : prefixStates)
  : prefixStates * option currentInputPrefixPlan :=
  let fullText := TrimSpace fullText in
  if bool_decide (key = "") || bool_decide (fullText = "") then (states, None)
  else
    let fullText := fullText +:+ newlineStr in
    let states := pruneLocked now states in
    let states := match states !! key with Some st => if expired now st then delete key states else states | None => states end in
    let refresh := (states, match splitCurrentInputPrefixTail fullText with
                            | Some (prefix, tail) =>
                                Some {| planMode := mode; planKey := key; planPrefix := prefix; planHash := currentInputTextHash prefix;
                                        planFile := ""; TailText := tail; Reused := false; CheckpointRefresh := true |}
                            | None => None
                            end) in
    match states !! key with
    | Some st =>
        if bool_decide (Mode st = mode) then
          match walkVariants mode fullText (Variants st) 0 None 0 with
          | Some bestIdx =>
              match Variants st !! bestIdx with
              | Some hot =>
                  (<[key := {| Mode := Mode st; Key := Key st; Variants := promote bestIdx (Variants st); UpdatedAt := now |}]> states,
                   Some {| planMode := mode; planKey := key; planPrefix := PrefixText hot; planHash := PrefixHash hot; planFile := FileID hot;
                           TailText := strDrop (String.length (PrefixText hot)) fullText; Reused := true; CheckpointRefresh := false |})
              | None => refresh
              end
          | None => refresh
          end
        else refresh
    | None => refresh
    end.

Definition activeStates (now : Z) (states : prefixStates) : prefixStates * Z :=
  let states := pruneLocked now states in (states, Z.of_nat (size states)).

(** The position of a variant with this text. *)
Fixpoint seenAt (prefix : string) (vs : list currentInputPrefixVariant) : option nat :=
  match vs with
  | [] => None
  | v :: vs => if bool_decide (PrefixText v = prefix) then Some 0%nat else S <$> seenAt prefix vs
  end.

Definition withFile (fileID : string) (v : currentInputPrefixVariant) : currentInputPrefixVariant :=
  {| PrefixText := PrefixText v; PrefixHash := PrefixHash v; FileID := fileID |}.

Definition storePlan (p : currentInputPrefixPlan) (now : Z) (states : prefixStates) : prefixStates :=
  if bool_decide (planKey p = "") || bool_decide (planPrefix p = "") then states
  else if bool_decide (planMode p = prefixModeFile) && bool_decide (planFile p = "") then states
  else
    let states := pruneLocked now states in
    let fresh := {| Mode := planMode p; Key := planKey p; Variants := []; UpdatedAt := zeroTime |} in
    let st := match states !! planKey p with
              | Some st => if bool_decide (Mode st = planMode p) then st else fresh
              | None => fresh
              end in
    let save vs := <[planKey p := {| Mode := Mode st; Key := Key st; Variants := vs; UpdatedAt := now |}]> states in
    match seenAt (planPrefix p) (Variants st) with
    | Some i =>
        let vs := if bool_decide (planMode p = prefixModeFile) && negb (bool_decide (planFile p = ""))
                  then alter (withFile (planFile p)) i (Variants st) else Variants st in
        save (promote i vs)
    | None =>
        save (take currentInputPrefixMaxVariants
                ({| PrefixText := planPrefix p; PrefixHash := planHash p; FileID := planFile p |} :: Variants st))
    end.

(** ** The two ways to use it *)

(** [strings.TrimRight(s, "\n")] *)
Definition trimRightNewlines (s : string) : string := strRev (trimLeftByte "010"%char (strRev s)).

Definition currentInputInlinePrefixInstruction : string :=
  let quote := String (ascii_of_N 34) "" in
  "Everything above the " +:+ quote +:+ "RECENT CONVERSATION TURNS" +:+ quote +:+ " marker is stable prior context — treat it as background and do not re-deliberate it. The section below that marker contains the most recent turns including the latest user request. Respond to that latest user request directly.".

Definition buildInlinePrefixBody (prefix tail : string) : string :=
  let tail := TrimSpace tail in
  trimRightNewlines prefix +:+ newlineStr +:+ newlineStr +:+ "--- RECENT CONVERSATION TURNS ---" +:+ newlineStr +:+ newlineStr +:+
  (if bool_decide (tail = "") then "" else tail +:+ newlineStr +:+ newlineStr) +:+
  "--- INSTRUCTION ---" +:+ newlineStr +:+ currentInputInlinePrefixInstruction.

(** The body of the user message, with the plan it was made from; [None]: not applied. *)
Definition applyCurrentInputInlinePrefix (key fullText : string) (now1 now2 : Z) (states : prefixStates)
  : prefixStates * option (string * currentInputPrefixPlan) :=
  if bool_decide (key = "") then (states, None)
  else match plan key fullText prefixModeInline now1 states with
       | (states, None) => (states, None)
       | (states, Some p) =>
           let states := if Reused p then states else storePlan p now2 states in
           (states, Some (buildInlinePrefixBody (planPrefix p) (TailText p), p))
       end.

Definition currentInputFilePrompt : string := "Continue from the latest state in the attached DEEPSEEK_WEB_TO_API_HISTORY.txt context. Treat it as the current working state and answer the latest user request directly.".

Definition currentInputFilePromptWithTail (tailText : string) : string :=
  let tailText := TrimSpace tailText in
  if bool_decide (tailText = "") then currentInputFilePrompt
  else "Continue from the stable prefix in the attached DEEPSEEK_WEB_TO_API_HISTORY.txt context, then apply the recent conversation tail below. Answer the latest user request directly." +:+ newlineStr +:+ newlineStr +:+ "Recent conversation tail after the attached prefix:" +:+ newlineStr +:+ tailText.

Definition withUpload (p : currentInputPrefixPlan) (fileID : string) : currentInputPrefixPlan :=
  {| planMode := planMode p; planKey := planKey p; planPrefix := planPrefix p; planHash := planHash p; planFile := fileID;
     TailText := TailText p; Reused := Reused p; CheckpointRefresh := CheckpointRefresh p |}.

(** [upload] is the file's id or the error of [uploadCurrentInputFile]. *)
Definition applyCurrentInputStablePrefix (key fullText : string) (upload : string -> result string string) (now1 now2 : Z) (states : prefixStates)
  : prefixStates * result string (option (string * currentInputPrefixPlan)) :=
  if bool_decide (key = "") then (states, Ok None)
  else match plan key fullText prefixModeFile now1 states with
       | (states, None) => (states, Ok None)
       | (states, Some p) =>
           if Reused p then (states, Ok (Some (currentInputFilePromptWithTail (TailText p), p)))
           else match upload (planPrefix p) with
                | Err e => (states, Err e)
                | Ok fileID =>
                    let p := withUpload p fileID in
                    (storePlan p now2 states, Ok (Some (currentInputFilePromptWithTail (TailText p), p)))
                end
       end.
End Store.

(** ** Keys *)

(** What the key is made from: the caller, the session, the account or the caller's own token,
    the model, and the two options. *)
Record prefixCaller := { pcCaller : string; pcSession : string; pcAccount : string; pcToken : string }.

Definition boolText (b : bool) : string := if b then "true" else "false".

Definition currentInputPrefixKeyForMode (a : option prefixCaller) (resolved requested modelType : string) (thinking search : bool)
  (mode : currentInputPrefixMode) : string :=
  match a with
  | None => ""
  | Some a =>
      if bool_decide (TrimSpace (pcSession a) = "") then ""
      else
        let model := if bool_decide (TrimSpace resolved = "") then TrimSpace requested else TrimSpace resolved in
        let actor :=
          match mode with
          | prefixModeInline => "inline"
          | prefixModeFile =>
              let account := TrimSpace (pcAccount a) in
              if bool_decide (account = "") && negb (bool_decide (TrimSpace (pcToken a) = ""))
              then "direct:" +:+ currentInputTextHash (pcToken a) else account
          end in
        if bool_decide (actor = "") then ""
        else Join [TrimSpace (pcCaller a); TrimSpace (pcSession a); actor; model; TrimSpace modelType;
                   "thinking=" +:+ boolText thinking; "search=" +:+ boolText search] "|"
  end.

(** ** Lemmas: trimming and cutting *)

Lemma leadSpace_TrimSpace (s : string) : leadSpace (TrimSpace s) = None.
Proof.
  unfold TrimSpace, trimRightSpace. set (l := trimLeftSpace s). set (r := trimLeftSpaceRev (strRev l)).
  destruct (trim_suffix _ _ trimLeftSpaceRev trimLeftSpaceRev_eq (strRev l)) as [p Hp]. fold r in Hp.
  apply (leadRest_app space2 space3 _ (strRev p)). rewrite <- strRev_app, <- Hp, strRev_involutive.
  apply (trim_lead _ _ trimLeftSpace trimLeftSpace_eq).
Qed.

(** A line break after a trimmed text is trimmed again. *)
Lemma TrimSpace_newline (s : string) : TrimSpace (TrimSpace s +:+ newlineStr) = TrimSpace s.
Proof.
  pose proof (leadSpace_TrimSpace s) as Hl. rewrite <- (TrimSpace_idem s) at 2. generalize dependent (TrimSpace s). clear s. intros t Hl.
  assert (Hn : t = "" \/ leadSpace (t +:+ newlineStr) = None).
  { assert (H2 : forall a, space2 a "010" = false) by (intros a; unfold space2; by rewrite andb_false_r).
    assert (H3 : forall a b, space3 a b "010" = false).
    { intros a b. unfold space3. change (code "010") with 10%N. cbn [N.eqb N.leb Pos.eqb]. cbn. by rewrite !andb_false_r. }
    destruct t as [|a [|b [|c t]]]; [by left|right..]; rewrite ?append_cons; revert Hl; unfold leadSpace, leadRest, newlineStr;
      rewrite ?append_nil_l; cbv beta iota; rewrite ?H2, ?H3; by repeat case_match. }
  destruct Hn as [-> | Hn]; [reflexivity|]. unfold TrimSpace.
  rewrite (trim_fix _ _ trimLeftSpace trimLeftSpace_eq (t +:+ newlineStr) Hn), (trim_fix _ _ trimLeftSpace trimLeftSpace_eq t Hl).
  unfold trimRightSpace. rewrite strRev_app. change (strRev newlineStr) with newlineStr. unfold newlineStr. by rewrite append_cons, append_nil_l.
Qed.

(** The text is cut after the line break before a role block. *)
Definition atBoundary (text : string) (n : nat) : Prop := exists k, n = S k /\ HasPrefix (strDrop k text) roleMark = true.

Lemma boundary_after (text : string) (start : Z) (cut : nat) : transcriptBoundaryAtOrAfter text start = Some cut -> atBoundary text cut.
Proof.
  unfold transcriptBoundaryAtOrAfter. destruct (_ <=? _)%nat; [done|]. destruct (Index _ _) as [idx|] eqn:E; [|done]. intros [= <-].
  apply Index_spec in E as [E _]. rewrite strDrop_drop in E. eexists. split; [|exact E]. lia.
Qed.

Lemma lastIndex_found (s sub : string) (i : nat) : LastIndex s sub = Some i -> HasPrefix (strDrop i s) sub = true.
Proof.
  revert i. induction s as [|c s IH]; intros i; cbn [LastIndex].
  - destruct (HasPrefix "" sub) eqn:E; [|done]. by intros [= <-].
  - destruct (LastIndex s sub) as [j|]; [intros [= <-]; exact (IH j eq_refl)|].
    destruct (HasPrefix (String c s) sub) eqn:E; [|done]. by intros [= <-].
Qed.

Lemma boundary_tail (text : string) (n : nat) : atBoundary text n -> HasPrefix (strDrop n text) "=== " = true.
Proof.
  intros (k & -> & H). apply HasPrefix_spec in H as [r H]. replace (S k) with (k + 1)%nat by lia. rewrite <- strDrop_drop, H.
  unfold roleMark, newlineStr. rewrite append_cons, append_nil_l, append_cons. cbn [strDrop]. apply HasPrefix_app.
Qed.

Lemma boundary_nonempty (text : string) (n : nat) : atBoundary text n -> strTake n text <> "".
Proof.
  intros (k & -> & H) E. apply HasPrefix_length in H. rewrite length_strDrop in H.
  assert (String.length (strTake (S k) text) = 0%nat) by by rewrite E. rewrite length_strTake in H0.
  change (String.length roleMark) with 5%nat in H. lia.
Qed.

(** A cut is lossless, at a boundary, and its tail is not too long. *)
Definition goodCut (text : string) (r : string * string) : Prop :=
  r.1 +:+ r.2 = text /\ r.1 <> "" /\ len r.2 <= currentInputMaxTailChars /\ HasPrefix r.2 "=== " = true.

Lemma cut_at (text : string) (n : nat) :
  atBoundary text n -> len (strDrop n text) <= currentInputMaxTailChars -> goodCut text (strTake n text, strDrop n text).
Proof.
  intros H Hl. split; [apply strTake_drop|]. split; [by apply boundary_nonempty|]. split; [done|]. by apply boundary_tail.
Qed.

Lemma split_good (fullText : string) (r : string * string) :
  splitCurrentInputPrefixTail fullText = Some r -> goodCut (TrimSpace fullText +:+ newlineStr) r.
Proof.
  unfold splitCurrentInputPrefixTail. case_bool_decide; [done|]. set (text := _ +:+ newlineStr).
  destruct (standardCut text) as [r'|] eqn:E.
  - intros [= <-]. unfold standardCut in E. destruct (_ <? _); [|done]. destruct (transcriptBoundaryAtOrAfter _ _) as [cut|] eqn:Ec; [|done].
    destruct (_ && _ && _) eqn:Eb; [|done]. injection E as <-. apply andb_true_iff in Eb as [_ Eb%Z.leb_le].
    apply cut_at; [by eapply boundary_after|done].
  - unfold softCut. destruct (LastIndex _ _) as [i|] eqn:Ei; [|done]. destruct (_ || _); [done|].
    destruct (Z.ltb_spec currentInputMaxTailChars (len (strDrop (S i) text))); [done|].
    intros Hr. assert (r = (strTake (S i) text, strDrop (S i) text)) as -> by congruence. apply cut_at; [|lia]. exists i. split; [done|]. by apply lastIndex_found.
Qed.

(** ** Lemmas: variants *)

(** [best] is the longest usable variant of [l], with its length. *)
Definition bestOf (mode : currentInputPrefixMode) (fullText : string) (l : list currentInputPrefixVariant) (best : option nat) (bl : Z) : Prop :=
  match best with
  | None => bl = 0 /\ forall v, v ∈ l -> usable mode fullText v = false
  | Some j => exists v, l !! j = Some v /\ usable mode fullText v = true /\ bl = len (PrefixText v) /\
                forall w, w ∈ l -> usable mode fullText w = true -> len (PrefixText w) <= bl
  end.

Lemma usable_length (mode : currentInputPrefixMode) (fullText : string) (v : currentInputPrefixVariant) :
  usable mode fullText v = true -> 0 < len (PrefixText v).
Proof. unfold usable, len. destruct (PrefixText v); simpl; [done|lia]. Qed.

Lemma usable_fits (mode : currentInputPrefixMode) (fullText : string) (v : currentInputPrefixVariant) :
  usable mode fullText v = true ->
  HasPrefix fullText (PrefixText v) = true /\ len fullText - len (PrefixText v) <= currentInputMaxTailChars /\
  (mode = prefixModeFile -> FileID v <> "").
Proof.
  unfold usable. intros H. apply andb_true_iff in H as [H Hl%Z.leb_le]. apply andb_true_iff in H as [H Hp]. apply andb_true_iff in H as [_ Hf].
  split; [done|]. split; [done|]. intros -> E. by rewrite E in Hf.
Qed.

Lemma walk_best (mode : currentInputPrefixMode) (fullText : string) (pre vs : list currentInputPrefixVariant) (best : option nat) (bl : Z) :
  bestOf mode fullText pre best bl ->
  exists bl', bestOf mode fullText (pre ++ vs) (walkVariants mode fullText vs (length pre) best bl) bl'.
Proof.
  revert pre best bl. induction vs as [|v vs IH]; intros pre best bl Hb; cbn [walkVariants].
  { exists bl. by rewrite app_nil_r. }
  replace (S (length pre)) with (length (pre ++ [v])) by (rewrite length_app; simpl; lia).
  replace (pre ++ v :: vs) with ((pre ++ [v]) ++ vs) by by rewrite <- app_assoc.
  destruct (usable mode fullText v && (bl <? len (PrefixText v))) eqn:E; apply IH.
  - apply andb_true_iff in E as [Eu El%Z.ltb_lt]. exists v. split; [by rewrite lookup_app_r, Nat.sub_diag by lia|].
    split; [done|]. split; [done|]. intros w [Hw| ->%list_elem_of_singleton]%elem_of_app Hu; [|lia].
    destruct best as [j|]; cbn in Hb; [destruct Hb as (x & _ & _ & -> & Hx); specialize (Hx w Hw Hu); lia|].
    destruct Hb as [_ Hn]. by rewrite (Hn w Hw) in Hu.
  - destruct best as [j|]; cbn in Hb |- *.
    + destruct Hb as (x & Hx & Hu & -> & Hw). exists x. split; [by apply lookup_app_l_Some|]. split; [done|]. split; [done|].
      intros w [?| ->%list_elem_of_singleton]%elem_of_app Huw; [by apply Hw|]. rewrite Huw in E. cbn in E. apply Z.ltb_ge in E. lia.
    + destruct Hb as [-> Hn]. split; [done|]. intros w [?| ->%list_elem_of_singleton]%elem_of_app; [by apply Hn|].
      destruct (usable mode fullText v) eqn:Eu; [|done]. apply usable_length in Eu. cbn in E. apply Z.ltb_ge in E. lia.
Qed.

Lemma walk_spec (mode : currentInputPrefixMode) (fullText : string) (vs : list currentInputPrefixVariant) :
  exists bl, bestOf mode fullText vs (walkVariants mode fullText vs 0 None 0) bl.
Proof. apply (walk_best mode fullText [] vs None 0). split; [done|]. by intros v ?%not_elem_of_nil. Qed.

Lemma promote_perm (i : nat) (vs : list currentInputPrefixVariant) : Permutation (promote i vs) vs.
Proof.
  unfold promote. destruct (vs !! i) as [hot|] eqn:E; [|done]. case_bool_decide; [done|].
  rewrite Permutation_middle. by rewrite (take_drop_middle vs i hot E).
Qed.

Lemma seenAt_some (prefix : string) (vs : list currentInputPrefixVariant) (i : nat) :
  seenAt prefix vs = Some i -> exists v, vs !! i = Some v /\ PrefixText v = prefix.
Proof.
  revert i. induction vs as [|v vs IH]; intros i; cbn [seenAt]; [done|]. case_bool_decide as E; [intros [= <-]; by exists v|].
  destruct (seenAt prefix vs) as [j|]; [|done]. intros [= <-]. exact (IH j eq_refl).
Qed.

Lemma seenAt_none (prefix : string) (vs : list currentInputPrefixVariant) :
  seenAt prefix vs = None -> forall v, v ∈ vs -> PrefixText v <> prefix.
Proof.
  induction vs as [|v vs IH]; cbn [seenAt]; [by intros _ v ?%not_elem_of_nil|]. case_bool_decide as E; [done|].
  destruct (seenAt prefix vs); [done|]. intros _ w [->|Hw]%elem_of_cons; [done|]. by apply IH.
Qed.

(** ** What a plan is *)

Section Plans.
Variable iter : prefixStates -> list (string * currentInputPrefixState).

Lemma prune_lookup (now : Z) (states : prefixStates) (key : string) (st : currentInputPrefixState) :
  pruneLocked iter now states !! key = Some st -> states !! key = Some st /\ expired now st = false.
Proof.
  unfold pruneLocked. set (kept := filter _ states).
  assert (Hk : kept !! key = Some st -> states !! key = Some st /\ expired now st = false) by (intros [? ?]%map_lookup_filter_Some; done).
  destruct (_ <=? _)%nat; [done|]. destruct (fold_left _ _ _) as [o t]. case_bool_decide; [done|]. by intros [_ ?%Hk]%lookup_delete_Some.
Qed.

(** The refresh branch of [plan]. *)
Definition refreshed (key fullText : string) (mode : currentInputPrefixMode) (p : currentInputPrefixPlan) : Prop :=
  Reused p = false /\ goodCut (TrimSpace fullText +:+ newlineStr) (planPrefix p, TailText p) /\ planFile p = "" /\
  planHash p = currentInputTextHash (planPrefix p).

(** The branch that goes on with a stored prefix. *)
Definition reusedFrom (states : prefixStates) (key fullText : string) (mode : currentInputPrefixMode) (now : Z) (p : currentInputPrefixPlan) : Prop :=
  Reused p = true /\
  exists st v, states !! key = Some st /\ expired now st = false /\ Mode st = mode /\ v ∈ Variants st /\
    usable mode (TrimSpace fullText +:+ newlineStr) v = true /\
    (planPrefix p, planHash p, planFile p) = (PrefixText v, PrefixHash v, FileID v) /\
    (forall w, w ∈ Variants st -> usable mode (TrimSpace fullText +:+ newlineStr) w = true -> len (PrefixText w) <= len (PrefixText v)).

Lemma plan_cases (key fullText : string) (mode : currentInputPrefixMode) (now : Z) (states states' : prefixStates) (p : currentInputPrefixPlan) :
  plan iter key fullText mode now states = (states', Some p) ->
  planKey p = key /\ planMode p = mode /\ key <> "" /\ planPrefix p +:+ TailText p = TrimSpace fullText +:+ newlineStr /\
  (refreshed key fullText mode p \/ reusedFrom states key fullText mode now p).
Proof.
  unfold plan. destruct (bool_decide (key = "") || _) eqn:E0; [done|]. apply orb_false_iff in E0 as [Ek _]. apply bool_decide_eq_false_1 in Ek.
  set (text := TrimSpace fullText +:+ newlineStr). set (kept := match pruneLocked iter now states !! key with
    | Some st => if expired now st then delete key (pruneLocked iter now states) else pruneLocked iter now states
    | None => pruneLocked iter now states end).
  assert (Hkept : forall st, kept !! key = Some st -> states !! key = Some st /\ expired now st = false).
  { intros st. unfold kept. destruct (pruneLocked iter now states !! key) as [st0|] eqn:E; [|congruence].
    destruct (expired now st0) eqn:Ex; [by rewrite lookup_delete_eq|]. rewrite E. intros [= <-]. split; [|done]. by apply prune_lookup in E as [? _]. }
  assert (Hr : forall s0, (s0, match splitCurrentInputPrefixTail text with
      | Some (prefix, tail) => Some {| planMode := mode; planKey := key; planPrefix := prefix; planHash := currentInputTextHash prefix;
                                       planFile := ""; TailText := tail; Reused := false; CheckpointRefresh := true |}
      | None => None end) = (states', Some p) ->
    planKey p = key /\ planMode p = mode /\ key <> "" /\ planPrefix p +:+ TailText p = text /\
    (refreshed key fullText mode p \/ reusedFrom states key fullText mode now p)).
  { intros s0. destruct (splitCurrentInputPrefixTail text) as [[prefix tail]|] eqn:Es; [|done]. intros [= _ <-]. cbn [planKey planMode planPrefix TailText].
    apply split_good in Es. unfold text in Es. rewrite TrimSpace_newline in Es. split_and!; [done|done|done|apply Es|]. left.
    split; [done|]. split; [exact Es|]. done. }
  destruct (kept !! key) as [st|] eqn:Est; [|apply Hr]. destruct (Hkept st eq_refl) as [Hst Hex]. case_bool_decide as Em; [|apply Hr].
  destruct (walk_spec mode text (Variants st)) as [bl Hb]. destruct (walkVariants _ _ _ _ _ _) as [j|]; [|apply Hr].
  destruct Hb as (v & Hv & Hu & -> & Hmax). rewrite Hv. intros [= _ <-]. cbn [planKey planMode planPrefix TailText]. split_and!; try done.
  - destruct (usable_fits _ _ _ Hu) as ([r ->]%HasPrefix_spec & _). by rewrite strDrop_app.
  - right. split; [done|]. exists st, v. split_and!; try done. by eapply list_elem_of_lookup_2.
Qed.
End Plans.

(** C23. A transcript goes out whole: the prefix and the tail of a plan are the transcript, and
    the tail is never longer than allowed.  A fresh plan cuts before a role block; a plan that
    goes on with a stored prefix takes it, with its file, from the entry that this very key
    has in the same mode and that was used within the time to live, and takes the longest one
    that fits. *)
Theorem plan_lossless iter (key fullText : string) (mode : currentInputPrefixMode) (now : Z) (states states' : prefixStates) (p : currentInputPrefixPlan) :
  plan iter key fullText mode now states = (states', Some p) ->
  planPrefix p +:+ TailText p = TrimSpace fullText +:+ newlineStr /\ len (TailText p) <= currentInputMaxTailChars /\
  (Reused p = false -> HasPrefix (TailText p) "=== " = true /\ planPrefix p <> "") /\
  (Reused p = true -> exists st v, states !! key = Some st /\ timeSub now (UpdatedAt st) <= currentInputPrefixTTL /\ Mode st = mode /\
     v ∈ Variants st /\ PrefixText v = planPrefix p /\ FileID v = planFile p /\ (mode = prefixModeFile -> planFile p <> "") /\
     (forall w, w ∈ Variants st -> usable mode (TrimSpace fullText +:+ newlineStr) w = true -> len (PrefixText w) <= len (planPrefix p))).
Proof.
  intros H. destruct (plan_cases _ _ _ _ _ _ _ _ H) as (_ & _ & _ & E & [(Hr & (_ & H1 & H2 & H3) & _)|(Hr & st & v & Hst & Hex & Hm & Hv & Hu & Ev & Hmax)]).
  - split; [done|]. split; [done|]. split; [done|]. by rewrite Hr.
  - injection Ev as E1 E2 E3. apply usable_fits in Hu as (_ & Hl & Hf). split; [done|]. split; [|split; [by rewrite Hr|]].
    + apply (f_equal String.length) in E. rewrite length_append in E. unfold len in *. rewrite E1 in E. lia.
    + intros _. exists st, v. split; [done|]. split; [unfold expired in Hex; bool_cases; lia|]. split_and!; try done; [by rewrite E3|]. rewrite E1. exact Hmax.
Qed.

(** ** The store stays small and in order *)

Record stateOk (key : string) (st : currentInputPrefixState) : Prop := {
  so_key : Key st = key /\ key <> "";
  so_few : (length (Variants st) <= currentInputPrefixMaxVariants)%nat;
  so_nodup : NoDup (PrefixText <$> Variants st);
  so_variants : Forall (fun v => PrefixText v <> "" /\ (Mode st = prefixModeFile -> FileID v <> "")) (Variants st)
}.

Definition storeOk (states : prefixStates) : Prop :=
  map_Forall stateOk states /\ (size states <= S currentInputPrefixMaxStates)%nat.

Inductive prefixOp :=
| DoPlan (key fullText : string) (mode : currentInputPrefixMode) (now : Z)
| DoStore (p : currentInputPrefixPlan) (now : Z)
| DoCount (now : Z).

Section Runs.
Variable iter : prefixStates -> list (string * currentInputPrefixState).
Hypothesis iter_perm : forall m, Permutation (iter m) (map_to_list m).

Definition prefixStep (states : prefixStates) (op : prefixOp) : prefixStates :=
  match op with
  | DoPlan key fullText mode now => (plan iter key fullText mode now states).1
  | DoStore p now => storePlan iter p now states
  | DoCount now => (activeStates iter now states).1
  end.

Lemma older_key (l : list (string * currentInputPrefixState)) (best : string * Z) : (fold_left older l best).1 ∈ best.1 :: l.*1.
Proof.
  revert best. induction l as [|e l IH]; intros best; [by left|]. cbn [fold_left]. rewrite fmap_cons. specialize (IH (older best e)).
  assert (Ho : (older best e).1 = best.1 \/ (older best e).1 = e.1) by (unfold older; destruct (_ || _); auto).
  rewrite !elem_of_cons in *. destruct Ho as [E|E]; rewrite E in IH; tauto.
Qed.

Lemma prune_ok (now : Z) (states : prefixStates) : storeOk states ->
  map_Forall stateOk (pruneLocked iter now states) /\ (size (pruneLocked iter now states) <= currentInputPrefixMaxStates)%nat.
Proof.
  intros [H1 H2]. unfold pruneLocked. set (kept := filter _ states).
  assert (Hf : map_Forall stateOk kept) by (intros k st [? _]%map_lookup_filter_Some; by apply H1).
  assert (Hs : (size kept <= S currentInputPrefixMaxStates)%nat) by (etransitivity; [apply map_size_filter|done]).
  destruct (Nat.leb_spec (size kept) currentInputPrefixMaxStates) as [?|Hbig]; [done|].
  destruct (iter kept) as [|e l] eqn:El.
  { pose proof (iter_perm kept) as Hp. rewrite El in Hp. apply Permutation_nil in Hp. apply map_to_list_empty_iff in Hp. rewrite Hp, map_size_empty in Hbig. lia. }
  assert (Hkeys : forall k, k ∈ (iter kept).*1 -> is_Some (kept !! k) /\ k <> "").
  { intros k Hk. rewrite (iter_perm kept) in Hk. apply list_elem_of_fmap in Hk as ([k' st] & -> & Hk%elem_of_map_to_list). cbn [fst].
    split; [by eexists|]. exact (proj2 (so_key _ _ (Hf _ _ Hk))). }
  cbn [fold_left]. change (older ("", now) e) with (e.1, UpdatedAt e.2).
  pose proof (older_key l (e.1, UpdatedAt e.2)) as Ho. cbn [fst] in Ho.
  destruct (fold_left older l (e.1, UpdatedAt e.2)) as [oldest t]. cbn [fst] in Ho.
  destruct (Hkeys oldest) as [Hin Hne]; [by rewrite El, fmap_cons|]. rewrite bool_decide_eq_false_2 by done.
  split; [intros k st [_ ?]%lookup_delete_Some; by apply Hf|]. rewrite map_size_delete. destruct Hin as [x ->]. lia.
Qed.

Lemma save_ok (key : string) (st : currentInputPrefixState) (states : prefixStates) :
  map_Forall stateOk states -> (size states <= currentInputPrefixMaxStates)%nat -> stateOk key st -> storeOk (<[key := st]> states).
Proof.
  intros H1 H2 H3. split; [by apply map_Forall_insert_2|]. rewrite map_size_insert. destruct (states !! key); unfold id; lia.
Qed.

Lemma perm_ok (key : string) (st : currentInputPrefixState) (vs : list currentInputPrefixVariant) (now : Z) :
  stateOk key st -> Permutation vs (Variants st) ->
  stateOk key {| Mode := Mode st; Key := Key st; Variants := vs; UpdatedAt := now |}.
Proof. intros [H1 H2 H3 H4] Hp. by split; cbn [Mode Key Variants UpdatedAt]; rewrite ?Hp. Qed.

Lemma plan_ok (key fullText : string) (mode : currentInputPrefixMode) (now : Z) (states : prefixStates) :
  storeOk states -> storeOk (plan iter key fullText mode now states).1.
Proof.
  intros I. unfold plan. destruct (_ || _); [done|]. destruct (prune_ok now states I) as [Hf Hs].
  set (text := _ +:+ newlineStr). set (pruned := pruneLocked iter now states) in *.
  set (kept := match pruned !! key with Some st => if expired now st then delete key pruned else pruned | None => pruned end).
  assert (Hk : map_Forall stateOk kept /\ (size kept <= currentInputPrefixMaxStates)%nat).
  { unfold kept. destruct (pruned !! key) as [st|]; [|done]. destruct (expired now st); [|done].
    split; [intros k x [_ ?]%lookup_delete_Some; by apply Hf|]. rewrite map_size_delete. destruct (pruned !! key); unfold id; lia. }
  destruct Hk as [Hkf Hks]. assert (Hd : storeOk kept) by (split; [done|lia]).
  destruct (kept !! key) as [st|] eqn:Est; [|done]. case_bool_decide; [|done].
  destruct (walkVariants _ _ _ _ _ _) as [j|]; [|done]. destruct (Variants st !! j); [|done]. cbn [fst].
  apply save_ok; [done|done|]. apply perm_ok; [by apply Hkf|apply promote_perm].
Qed.

Lemma withFile_texts (fileID : string) (i : nat) (vs : list currentInputPrefixVariant) :
  PrefixText <$> alter (withFile fileID) i vs = PrefixText <$> vs.
Proof. revert i. induction vs as [|v vs IH]; intros [|i]; try done. cbn. f_equal. exact (IH i). Qed.

Lemma storePlan_ok (p : currentInputPrefixPlan) (now : Z) (states : prefixStates) : storeOk states -> storeOk (storePlan iter p now states).
Proof.
  intros I. unfold storePlan. destruct (bool_decide (planKey p = "") || bool_decide (planPrefix p = "")) eqn:E0; [done|]. apply orb_false_iff in E0 as [Ek%bool_decide_eq_false_1 Ep%bool_decide_eq_false_1].
  destruct (bool_decide (planMode p = prefixModeFile) && bool_decide (planFile p = "")) eqn:E1; [done|].
  assert (Hfile : planMode p = prefixModeFile -> planFile p <> "").
  { intros Em Ef. rewrite Em, Ef in E1. discriminate E1. }
  destruct (prune_ok now states I) as [Hf Hs]. set (pruned := pruneLocked iter now states) in *. cbv zeta.
  set (st := match pruned !! planKey p with Some _ => _ | None => _ end).
  assert (Hst : stateOk (planKey p) st /\ Mode st = planMode p).
  { assert (Hfresh : stateOk (planKey p) {| Mode := planMode p; Key := planKey p; Variants := []; UpdatedAt := zeroTime |}) by (split; cbn; [done|lia|constructor|constructor]).
    unfold st. destruct (pruned !! planKey p) as [x|] eqn:Ex; [|exact (conj Hfresh eq_refl)]. destruct (decide (Mode x = planMode p)) as [Hx|Hx];
      [rewrite (bool_decide_eq_true_2 _ Hx); split; [by apply Hf|done]|by rewrite (bool_decide_eq_false_2 _ Hx)]. }
  destruct Hst as [Hok Hm]. destruct (seenAt (planPrefix p) (Variants st)) as [i|] eqn:Ei.
  - apply save_ok; [done|done|]. set (vs := if _ && _ then _ else _).
    assert (Hvs : stateOk (planKey p) {| Mode := Mode st; Key := Key st; Variants := vs; UpdatedAt := now |}).
    { unfold vs. destruct (bool_decide (planMode p = prefixModeFile) && negb (bool_decide (planFile p = ""))) eqn:Eb; [|exact (perm_ok _ st (Variants st) now Hok (Permutation_refl _))]. apply andb_true_iff in Eb as [_ Eb%negb_true_iff%bool_decide_eq_false_1].
      destruct Hok as [H1 H2 H3 H4]. split; cbn [Mode Key Variants]; [done|by rewrite length_alter|by rewrite withFile_texts|].
      apply Forall_forall. intros v Hv. apply list_elem_of_lookup in Hv as [j Hj].
      destruct (decide (j = i)) as [->|Hne].
      - rewrite list_lookup_alter_eq in Hj. destruct (Variants st !! i) as [w|] eqn:Ew; [|done]. injection Hj as <-.
        destruct (proj1 (Forall_lookup _ _) H4 i w Ew). by split.
      - rewrite list_lookup_alter_ne in Hj by done. exact (proj1 (Forall_lookup _ _) H4 j v Hj). }
    by apply (perm_ok _ _ (promote i vs) now Hvs), promote_perm.
  - apply save_ok; [done|done|]. destruct Hok as [H1 H2 H3 H4]. pose proof (seenAt_none _ _ Ei) as Hnew.
    set (new := {| PrefixText := planPrefix p; PrefixHash := planHash p; FileID := planFile p |}).
    split; cbn [Mode Key Variants]; [done|rewrite length_take; lia| |].
    + rewrite fmap_take. eapply sublist_NoDup; [|apply sublist_take]. rewrite fmap_cons. constructor; [|done].
      intros (v & Ev & Hv)%list_elem_of_fmap. by apply (Hnew v Hv).
    + apply Forall_take. constructor; [|done]. split; [done|]. cbn. rewrite Hm. exact Hfile.
Qed.

Lemma prefixStep_ok (states : prefixStates) (op : prefixOp) : storeOk states -> storeOk (prefixStep states op).
Proof.
  intros I. destruct op as [key fullText mode now|p now|now]; [by apply plan_ok|by apply storePlan_ok|].
  destruct (prune_ok now states I) as [? ?]. split; [done|]. cbn. lia.
Qed.
End Runs.

(** After any sequence of plans, stores and counts, with any clock, the store holds at most
    one entry over the configured number of conversations; every entry is filed under its own
    key, has at most two prefixes, all different and none empty, and in file mode each with the
    file it was uploaded as. *)
Theorem prefix_store_bounded iter (ops : list prefixOp) :
  (forall m, Permutation (iter m) (map_to_list m)) ->
  let states := fold_left (prefixStep iter) ops ∅ in
  (size states <= 2049)%nat /\ map_Forall stateOk states.
Proof.
  intros Hi states. assert (H : storeOk states).
  { unfold states. assert (H0 : storeOk ∅) by (split; [apply map_Forall_empty|rewrite map_size_empty; lia]).
    revert H0. generalize (∅ : prefixStates). induction ops as [|op ops IH]; intros s0 H0; [done|]. cbn [fold_left]. apply IH. by apply prefixStep_ok. }
  destruct H as [H1 H2]. split; [exact H2|done].
Qed.

(** ** What was stored is found again *)

Lemma storePlan_has iter (p : currentInputPrefixPlan) (now : Z) (states : prefixStates) :
  planKey p <> "" -> planPrefix p <> "" -> (planMode p = prefixModeFile -> planFile p <> "") ->
  exists st v, storePlan iter p now states !! planKey p = Some st /\ Mode st = planMode p /\ UpdatedAt st = now /\
    v ∈ Variants st /\ PrefixText v = planPrefix p /\ (planMode p = prefixModeFile -> FileID v <> "").
Proof.
  intros Hk Hp Hf. unfold storePlan. rewrite (bool_decide_eq_false_2 _ Hk), (bool_decide_eq_false_2 _ Hp). cbn [orb].
  assert (E1 : bool_decide (planMode p = prefixModeFile) && bool_decide (planFile p = "") = false).
  { destruct (decide (planMode p = prefixModeFile)) as [Em|Em]; [|by rewrite (bool_decide_eq_false_2 _ Em)].
    by rewrite (bool_decide_eq_false_2 _ (Hf Em)), andb_false_r. }
  rewrite E1. cbv zeta. set (pruned := pruneLocked iter now states). set (st := match pruned !! planKey p with Some _ => _ | None => _ end).
  assert (Hm : Mode st = planMode p).
  { unfold st. destruct (pruned !! planKey p) as [x|]; [|done]. destruct (decide (Mode x = planMode p)) as [Hx|Hx];
      [by rewrite (bool_decide_eq_true_2 _ Hx)|by rewrite (bool_decide_eq_false_2 _ Hx)]. }
  destruct (seenAt (planPrefix p) (Variants st)) as [i|] eqn:Ei; rewrite lookup_insert_eq.
  - destruct (seenAt_some _ _ _ Ei) as (v & Hv & Ev).
    set (vs := if bool_decide (planMode p = prefixModeFile) && negb (bool_decide (planFile p = "")) then _ else _).
    assert (Hvs : exists w, w ∈ vs /\ PrefixText w = planPrefix p /\ (planMode p = prefixModeFile -> FileID w <> "")).
    { unfold vs. destruct (decide (planMode p = prefixModeFile)) as [Em|Em].
      - rewrite (bool_decide_eq_true_2 _ Em), (bool_decide_eq_false_2 _ (Hf Em)). cbn [negb andb].
        exists (withFile (planFile p) v). split; [|by split; [exact Ev|auto]]. apply list_elem_of_lookup. exists i. by rewrite list_lookup_alter_eq, Hv.
      - rewrite (bool_decide_eq_false_2 _ Em). cbn [andb]. exists v. split; [by eapply list_elem_of_lookup_2|]. by split. }
    destruct Hvs as (w & Hw & E & Ef). eexists _, w. split; [reflexivity|]. cbn [Mode UpdatedAt Variants].
    split; [done|]. split; [done|]. split; [by rewrite promote_perm|done].
  - eexists _, _. split; [reflexivity|]. cbn [Mode UpdatedAt Variants]. split; [done|]. split; [done|]. split; [by left|]. done.
Qed.

(** The next turn hits.  Once a prefix is stored, every transcript of that conversation
    that begins with it, within the time to live and with a tail that is not too long, is sent
    with a stored prefix at least as long, unless so many conversations are active that the
    store is over its limit. *)
Lemma stored_prefix_hits iter (p : currentInputPrefixPlan) (fullText more : string) (now now' : Z) (states : prefixStates) :
  planKey p <> "" -> planPrefix p <> "" -> (planMode p = prefixModeFile -> planFile p <> "") ->
  let states' := storePlan iter p now states in
  (size states' <= 2048)%nat -> timeSub now' now <= currentInputPrefixTTL ->
  TrimSpace fullText <> "" -> TrimSpace fullText +:+ newlineStr = planPrefix p +:+ more -> len more <= currentInputMaxTailChars ->
  exists states'' q, plan iter (planKey p) fullText (planMode p) now' states' = (states'', Some q) /\ Reused q = true /\
    len (planPrefix p) <= len (planPrefix q).
Proof.
  intros Hk Hp Hf states' Hs Ht Hn Hfull Hmore.
  destruct (storePlan_has iter p now states Hk Hp Hf) as (st & v & Hst & Hm & Hu & Hv & Ev & Hvf). fold states' in Hst.
  assert (Hex : expired now' st = false) by (unfold expired; rewrite Hu; apply Z.ltb_ge; lia).
  assert (Hkept : pruneLocked iter now' states' !! planKey p = Some st).
  { unfold pruneLocked. set (kept := filter _ states'). assert (Hsz : (size kept <= currentInputPrefixMaxStates)%nat)
      by (etransitivity; [apply map_size_filter|exact Hs]).
    destruct (Nat.leb_spec (size kept) currentInputPrefixMaxStates); [|lia]. by apply map_lookup_filter_Some. }
  unfold plan. rewrite (bool_decide_eq_false_2 _ Hk), (bool_decide_eq_false_2 _ Hn). cbn [orb]. rewrite Hkept, Hex, Hkept.
  rewrite (bool_decide_eq_true_2 _ Hm). set (text := TrimSpace fullText +:+ newlineStr) in *.
  destruct (walk_spec (planMode p) text (Variants st)) as [bl Hb].
  assert (Huse : usable (planMode p) text v = true).
  { unfold usable. rewrite Ev, (bool_decide_eq_false_2 _ Hp), Hfull, HasPrefix_app. cbn [negb].
    assert (Hfile : bool_decide (planMode p = prefixModeFile) && bool_decide (FileID v = "") = false).
    { destruct (decide (planMode p = prefixModeFile)) as [Em|Em]; [|by rewrite (bool_decide_eq_false_2 _ Em)].
      by rewrite (bool_decide_eq_false_2 _ (Hvf Em)), andb_false_r. }
    rewrite Hfile. cbn [negb andb]. unfold len in *. rewrite length_append. apply Z.leb_le. lia. }
  destruct (walkVariants _ _ _ _ _ _) as [j|]; [|destruct Hb as [_ Hb]; by rewrite (Hb v Hv) in Huse].
  destruct Hb as (x & Hx & _ & -> & Hmax). rewrite Hx. eexists _, _. split; [reflexivity|]. split; [done|]. cbn [planPrefix].
  rewrite <- Ev. by apply Hmax.
Qed.

(** ** A conversation *)

Definition demoIter (m : prefixStates) : list (string * currentInputPrefixState) := map_to_list m.
Definition turn1 : string := roleMark +:+ "user" +:+ newlineStr +:+ "hi" +:+ roleMark +:+ "assistant" +:+ newlineStr +:+ "hello".
Definition turn2 : string := turn1 +:+ roleMark +:+ "user" +:+ newlineStr +:+ "more".

Definition plan1 : prefixStates * option currentInputPrefixPlan := plan demoIter "k" turn1 prefixModeInline 0 ∅.
Definition anchor : currentInputPrefixPlan := default (withUpload (Build_currentInputPrefixPlan prefixModeInline "" "" "" "" "" false false) "") plan1.2.

Lemma plan_lossless_witness : exists states p, plan1 = (states, Some p) /\ planPrefix p +:+ TailText p = TrimSpace turn1 +:+ newlineStr.
Proof.
  destruct plan1 as [states [p|]] eqn:E; [|vm_compute in E; discriminate E]. exists states, p. split; [done|].
  apply (plan_lossless demoIter "k" turn1 prefixModeInline 0 ∅ states p E).
Defined.

Lemma prefix_store_bounded_witness :
  (size (fold_left (prefixStep demoIter) [DoPlan "k" turn1 prefixModeInline 0; DoStore anchor 1; DoCount 2] ∅) <= 2049)%nat.
Proof. apply prefix_store_bounded. by intros m. Defined.
