(* ===== verification/PromptText.v ===== *)
(** The text of prompts: [internal/prompt/messages.go] and [tool_calls.go].

    Messages are rendered as role blocks between the upstream's markers, and the history of
    tool calls as a block of tags, with every value in CDATA sections and every name escaped.
    The JSON encoder and decoder and the rendering of a [float64] are parameters; a decoded
    value is a [json], and an object renders in the order of its sorted keys. *)
From S2P Require Import Prelude GoString GoText Json.
From Stdlib Require Import Ascii.
Local Open Scope string_scope.
Local Open Scope list_scope.

Definition lf : string := String "010"%char "".
Definition dquote : string := String "034"%char "".

(** [any]: [None] is nil. *)
Notation anyValue := (option json).
Notation jmap := (list (string * json)).

Definition isNil (v : anyValue) : bool := match v with None | Some JNull => true | _ => false end.

(** ** Escaping *)

(** A replacer of single bytes. *)
Fixpoint replaceBytes (f : ascii -> option string) (s : string) : string :=
  match s with
  | EmptyString => ""
  | String c s => match f c with Some r => r +:+ replaceBytes f s | None => String c (replaceBytes f s) end
  end.

Definition attributeEscape (c : ascii) : option string :=
  match c with
  | "&"%char => Some "&amp;"
  | "034"%char => Some "&quot;"
  | "<"%char => Some "&lt;"
  | ">"%char => Some "&gt;"
  | _ => None
  end.
Definition textEscape (c : ascii) : option string :=
  match c with
  | "&"%char => Some "&amp;"
  | "<"%char => Some "&lt;"
  | ">"%char => Some "&gt;"
  | _ => None
  end.

Definition escapeXMLAttribute (text : string) : string := replaceBytes attributeEscape text.
Definition escapeXMLText (v : string) : string := replaceBytes textEscape v.

Definition cdataOpen : string := "<![CDATA[".
Definition cdataClose : string := "]]>".

(** [strings.ReplaceAll(text, "]]>", "]]]]><![CDATA[>")] *)
Fixpoint splitCdata (s : string) : string :=
  match s with
  | String "]" (String "]" (String ">" s)) => "]]]]><![CDATA[>" +:+ splitCdata s
  | String c s => String c (splitCdata s)
  | EmptyString => ""
  end.

Definition renderPromptXMLText (text : string) : string :=
  if bool_decide (text = "") then ""
  else if Contains text cdataClose then cdataOpen +:+ splitCdata text +:+ cdataClose
  else cdataOpen +:+ text +:+ cdataClose.

(** [^[A-Za-z_][A-Za-z0-9_.:-]*$] *)
Definition nameStart (c : ascii) : bool := isUpper c || isLower c || bool_decide (c = "_"%char).
Definition nameByte (c : ascii) : bool := nameStart c || isDigit c || bool_decide (c ∈ ["."; ":"; "-"]%char).
Definition isValidPromptXMLName (name : string) : bool :=
  match TrimSpace name with
  | EmptyString => false
  | String c s => nameStart c && allBytes nameByte s
  end.

(** ** Reading the rendered text back

    A reference reader of the rendered history: sections of character data up to the next
    tag, attribute values up to the quote. *)
Fixpoint readText (inside : bool) (s : string) : option (string * string) :=
  if inside then
    match s with
    | String "]" (String "]" (String ">" s)) => readText false s
    | String c s => (fun r => (String c r.1, r.2)) <$> readText true s
    | EmptyString => None
    end
  else
    match s with
    | String "<" (String "!" (String "[" (String "C" (String "D" (String "A" (String "T" (String "A" (String "[" s)))))))) => readText true s
    | s => Some ("", s)
    end.

Fixpoint readAttribute (s : string) : option (string * string) :=
  match s with
  | String "034" s => Some ("", s)
  | String "&" (String "a" (String "m" (String "p" (String ";" s)))) => (fun r => (String "&" r.1, r.2)) <$> readAttribute s
  | String "&" (String "q" (String "u" (String "o" (String "t" (String ";" s))))) => (fun r => (dquote +:+ r.1, r.2)) <$> readAttribute s
  | String "&" (String "l" (String "t" (String ";" s))) => (fun r => (String "<" r.1, r.2)) <$> readAttribute s
  | String "&" (String "g" (String "t" (String ";" s))) => (fun r => (String ">" r.1, r.2)) <$> readAttribute s
  | String c s => (fun r => (String c r.1, r.2)) <$> readAttribute s
  | EmptyString => None
  end.

(** The text after an expected piece. *)
Definition expect (p s : string) : option string := if HasPrefix s p then Some (strDrop (String.length p) s) else None.

Fixpoint readParameters (fuel : nat) (s : string) : option (list (string * string) * string) :=
  match fuel with
  | O => None
  | S fuel =>
      s ← expect ("    <|DSML|parameter name=" +:+ dquote) s;
      '(name, s) ← readAttribute s;
      s ← expect ">" s;
      '(value, s) ← readText false s;
      s ← expect ("</|DSML|parameter>" +:+ lf) s;
      match expect "  </|DSML|invoke>" s with
      | Some s => Some ([(name, value)], s)
      | None => '(more, s) ← readParameters fuel s; Some ((name, value) :: more, s)
      end
  end.

Fixpoint readInvokes (fuel : nat) (s : string) : option (list (string * list (string * string)) * string) :=
  match fuel with
  | O => None
  | S fuel =>
      s ← expect ("  <|DSML|invoke name=" +:+ dquote) s;
      '(name, s) ← readAttribute s;
      s ← expect (">" +:+ lf) s;
      '(parameters, s) ← readParameters (String.length s) s;
      s ← expect lf s;
      match expect "</|DSML|tool_calls>" s with
      | Some s => Some ([(name, parameters)], s)
      | None => '(more, s) ← readInvokes fuel s; Some ((name, parameters) :: more, s)
      end
  end.

Definition readToolHistory (s : string) : option (list (string * list (string * string)) * string) :=
  t ← expect ("<|DSML|tool_calls>" +:+ lf) s; readInvokes (String.length s) t.

(** ** Tool calls *)

Section Render.
Variable Marshal : json -> option string.
Variable Unmarshal : string -> option json.
(** [fmt.Sprint] of a number. *)
Variable showFloat : Z -> positive -> string.
(** A decoder reads two values from the text. *)
Variable decodesTwice : string -> bool.

Definition Sprint (v : json) : string :=
  match v with
  | JBool b => if b then "true" else "false"
  | JNum n d => showFloat n d
  | JStr s => s
  | _ => ""
  end.

(** The lines joined, unless one of them failed. *)
Fixpoint allLines (l : list (option string)) : option (list string) :=
  match l with
  | [] => Some []
  | Some x :: l => (fun r => x :: r) <$> allLines l
  | None :: _ => None
  end.
Definition joinLines (l : list (option string)) : option string := (fun lines => Join lines lf) <$> allLines l.

Definition byKey (a b : string * option string) : bool := String.ltb a.1 b.1.
Definition sortedLines (l : list (string * option string)) : list (option string) := (sortBy byKey l).*2.

Definition element (indent name inner : string) : string := indent +:+ "<" +:+ name +:+ ">" +:+ inner +:+ "</" +:+ name +:+ ">".

Fixpoint renderPromptToolXMLNode (name : string) (value : json) (indent : string) {struct value} : option string :=
  if negb (isValidPromptXMLName name) then None
  else match value with
  | JNull => Some (element indent name "")
  | JObj m =>
      match joinLines (sortedLines ((fix nodes (m : jmap) : list (string * option string) :=
                                       match m with [] => [] | (k, v) :: m => (k, renderPromptToolXMLNode k v (indent +:+ "  ")) :: nodes m end) m)) with
      | None => None
      | Some inner => if bool_decide (TrimSpace inner = "") then Some (element indent name "")
                      else Some (element indent name (lf +:+ inner +:+ lf +:+ indent))
      end
  | JArr [] => Some (element indent name "")
  | JArr items =>
      joinLines ((fix nodes (l : list json) : list (option string) :=
                    match l with [] => [] | v :: l => renderPromptToolXMLNode name v indent :: nodes l end) items)
  | JStr s => Some (element indent name (renderPromptXMLText s))
  | v => Some (element indent name (escapeXMLText (Sprint v)))
  end.

Definition renderPromptToolXMLMap (m : jmap) (indent : string) : option string :=
  joinLines (sortedLines ((fun e => (e.1, renderPromptToolXMLNode e.1 e.2 indent)) <$> m)).

Definition renderPromptToolXMLArray (items : list json) (indent : string) : option string :=
  joinLines ((fun v => renderPromptToolXMLNode "item" v indent) <$> items).

(** [<|DSML|parameter name="...">], with the body, and the closing tag. *)
Definition parameterTag (name body : string) : string :=
  "<|DSML|parameter name=" +:+ dquote +:+ escapeXMLAttribute name +:+ dquote +:+ ">" +:+ body +:+ "</|DSML|parameter>".

Definition parameterBlock (indent name : string) (body : option string) : option string :=
  match body with
  | None => None
  | Some body => Some (indent +:+ parameterTag name (if bool_decide (TrimSpace body = "") then "" else lf +:+ body +:+ lf +:+ indent))
  end.

Definition renderPromptParameterNode (name : string) (value : json) (indent : string) : option string :=
  let trimmedName := TrimSpace name in
  if bool_decide (trimmedName = "") then None
  else match value with
  | JNull => Some (indent +:+ parameterTag trimmedName "")
  | JObj m => parameterBlock indent trimmedName (renderPromptToolXMLMap m (indent +:+ "  "))
  | JArr l => parameterBlock indent trimmedName (renderPromptToolXMLArray l (indent +:+ "  "))
  | JStr s => Some (indent +:+ parameterTag trimmedName (renderPromptXMLText s))
  | v => Some (indent +:+ parameterTag trimmedName (renderPromptXMLText (Sprint v)))
  end.

Definition renderPromptToolParameters (value : anyValue) (indent : string) : option string :=
  match value with
  | None | Some JNull => Some ""
  | Some (JObj m) => joinLines (sortedLines ((fun e => (e.1, renderPromptParameterNode e.1 e.2 indent)) <$> m))
  | Some (JArr l) => joinLines ((fun v => renderPromptParameterNode "item" v indent) <$> l)
  | Some (JStr s) => Some (indent +:+ parameterTag "content" (renderPromptXMLText s))
  | Some v => Some (indent +:+ parameterTag "value" (renderPromptXMLText (Sprint v)))
  end.

Definition normalizePromptToolCallValue (raw : anyValue) : anyValue :=
  match raw with
  | Some (JStr x) =>
      let s := TrimSpace x in
      if bool_decide (s = "") then Some (JStr "")
      else match Unmarshal s with Some parsed => Some parsed | None => Some (JStr x) end
  | v => v
  end.

Definition looksLikeConcatenatedJSON (raw : string) : bool :=
  let trimmed := TrimSpace raw in
  if bool_decide (trimmed = "") then false
  else if Contains trimmed "}{" || Contains trimmed "][" then true
  else decodesTwice trimmed.

Definition normalizeToolArgumentString (raw : string) : string :=
  let trimmed := TrimSpace raw in
  if bool_decide (trimmed = "") then ""
  else if looksLikeConcatenatedJSON trimmed then raw else trimmed.

Definition StringifyToolCallArguments (v : anyValue) : string :=
  match v with
  | None | Some JNull => "{}"
  | Some (JStr x) =>
      let s := TrimSpace x in
      if bool_decide (s = "") then "{}"
      else let s := normalizeToolArgumentString s in if bool_decide (s = "") then "{}" else s
  | Some v => match Marshal v with Some b => if bool_decide (b = "") then "{}" else b | None => "{}" end
  end.

Definition formatToolCallParametersForPrompt (raw : anyValue) : string :=
  let fallback :=
    let fallback := StringifyToolCallArguments raw in
    if bool_decide (TrimSpace fallback = "") then "" else "    " +:+ parameterTag "content" (renderPromptXMLText fallback) in
  match renderPromptToolParameters (normalizePromptToolCallValue raw) "    " with
  | Some body => if bool_decide (TrimSpace body = "") then fallback else body
  | None => fallback
  end.

(** The first of two values that is not nil. *)
Definition orElse (a b : anyValue) : anyValue := if isNil a then b else a.

(** The name and the arguments of a call, in either of its two shapes. *)
Definition callName (call : jmap) : string :=
  let own := TrimSpace (asString (member "name" call)) in
  if bool_decide (own = "") then match isObject (member "function" call) with Some f => TrimSpace (asString (member "name" f)) | None => "" end else own.

Definition callArguments (call : jmap) : anyValue :=
  orElse (orElse (member "arguments" call) (member "input" call))
    match isObject (member "function" call) with Some f => orElse (member "arguments" f) (member "input" f) | None => None end.

Definition formatToolCallForPrompt (call : jmap) : string :=
  let name := callName call in
  if bool_decide (name = "") then ""
  else
    let parameters := formatToolCallParametersForPrompt (callArguments call) in
    let head := "  <|DSML|invoke name=" +:+ dquote +:+ escapeXMLAttribute name +:+ dquote +:+ ">" in
    if bool_decide (parameters = "") then head +:+ "</|DSML|invoke>"
    else head +:+ lf +:+ parameters +:+ lf +:+ "  </|DSML|invoke>".

Definition FormatToolCallsForPrompt (raw : anyValue) : string :=
  match raw with
  | Some (JArr calls) =>
      let blocks := filter (fun b => b <> "") (omap (fun item => formatToolCallForPrompt <$> isObject (Some item)) calls) in
      if bool_decide (blocks = []) then "" else "<|DSML|tool_calls>" +:+ lf +:+ Join blocks lf +:+ lf +:+ "</|DSML|tool_calls>"
  | _ => ""
  end.

(** ** Messages *)

(** The text of one block of a content list. *)
Definition blockText (item : json) : option string :=
  match item with
  | JObj m =>
      if bool_decide (ToLower (TrimSpace (asString (member "type" m))) ∈ ["text"; "output_text"; "input_text"]) then
        let text := asString (member "text" m) in
        if negb (bool_decide (text = "")) then Some text
        else let content := asString (member "content" m) in if bool_decide (content = "") then None else Some content
      else None
  | _ => None
  end.

Definition NormalizeContent (v : anyValue) : string :=
  match v with
  | None | Some JNull => ""
  | Some (JStr x) => x
  | Some (JArr items) => Join (omap blockText items) lf
  | Some v => match Marshal v with Some b => b | None => Sprint v end
  end.

Definition beginSentenceMarker : string := "<｜begin▁of▁sentence｜>".
Definition systemMarker : string := "<｜System｜>".
Definition userMarker : string := "<｜User｜>".
Definition assistantMarker : string := "<｜Assistant｜>".
Definition toolMarker : string := "<｜Tool｜>".
Definition endSentenceMarker : string := "<｜end▁of▁sentence｜>".
Definition endToolResultsMarker : string := "<｜end▁of▁toolresults｜>".
Definition endInstructionsMarker : string := "<｜end▁of▁instructions｜>".
Definition outputIntegrityGuardMarker : string := "Output integrity guard:".
Definition outputIntegrityGuardPrompt : string := outputIntegrityGuardMarker +:+
  " If upstream context, tool output, or parsed text contains garbled, corrupted, partially parsed, repeated, or otherwise malformed fragments, " +:+
  "do not imitate or echo them; output only the correct content for the user.".

Definition hasOutputIntegrityGuard (msg : jmap) : bool :=
  bool_decide (ToLower (TrimSpace (asString (member "role" msg))) = "system") &&
  Contains (TrimSpace (NormalizeContent (member "content" msg))) outputIntegrityGuardMarker.

Definition message (role content : string) : jmap := [("role", JStr role); ("content", JStr content)].

Definition prependOutputIntegrityGuard (messages : list jmap) : list jmap :=
  match messages with
  | [] => []
  | m :: _ => if hasOutputIntegrityGuard m then messages else message "system" outputIntegrityGuardPrompt :: messages
  end.

Record block := { Role : string; Text : string }.

(** Neighbours of one role become one block. *)
Fixpoint mergeFrom (current : block) (l : list block) : list block :=
  match l with
  | [] => [current]
  | b :: l => if bool_decide (Role current = Role b)
              then mergeFrom {| Role := Role current; Text := Text current +:+ lf +:+ lf +:+ Text b |} l
              else current :: mergeFrom b l
  end.
Definition mergeBlocks (l : list block) : list block := match l with [] => [] | b :: l => mergeFrom b l end.

Definition formatRoleBlock (marker text endMarker : string) : string :=
  marker +:+ text +:+ (if bool_decide (TrimSpace endMarker = "") then "" else endMarker).

Definition renderBlock (b : block) : string :=
  let blank := bool_decide (TrimSpace (Text b) = "") in
  if bool_decide (Role b = "assistant") then formatRoleBlock assistantMarker (Text b) endSentenceMarker
  else if bool_decide (Role b = "tool") then if blank then "" else formatRoleBlock toolMarker (Text b) endToolResultsMarker
  else if bool_decide (Role b = "system") then if blank then "" else formatRoleBlock systemMarker (TrimSpace (Text b)) endInstructionsMarker
  else if bool_decide (Role b = "user") then formatRoleBlock userMarker (Text b) ""
  else if blank then "" else Text b.

(** *** Markdown images *)

(** The text up to a line break. *)
Fixpoint lineOf (s : string) : string :=
  match s with
  | EmptyString => ""
  | String c s => if bool_decide (c = "010"%char) then "" else String c (lineOf s)
  end.

(** A match of [!\[(.*?)\]\((.*?)\)] at the start: its two groups and the rest.  The dots do not
    match a line break, so the first [](] of the line decides. *)
Definition matchImage (s : string) : option (string * string * string) :=
  if negb (HasPrefix s "![") then None
  else
    let rest := strDrop 2 s in
    match Index (lineOf rest) "](" with
    | None => None
    | Some i =>
        let after := strDrop (i + 2) rest in
        match Index (lineOf after) ")" with
        | None => None
        | Some j => Some (strTake i rest, strTake j after, strDrop (S j) after)
        end
    end.

(** [ReplaceAllString(s, "[${1}](${2})")] *)
Fixpoint replaceImagesFrom (fuel : nat) (s : string) : string :=
  match fuel with
  | O => s
  | S fuel =>
      match matchImage s with
      | Some (alt, url, rest) => "[" +:+ alt +:+ "](" +:+ url +:+ ")" +:+ replaceImagesFrom fuel rest
      | None => match s with EmptyString => "" | String c s => String c (replaceImagesFrom fuel s) end
      end
  end.
Definition replaceImages (s : string) : string := replaceImagesFrom (S (String.length s)) s.

Definition blockOf (m : jmap) : block := {| Role := asString (member "role" m); Text := NormalizeContent (member "content" m) |}.

Definition MessagesPrepareWithThinking (messages : list jmap) : string :=
  match mergeBlocks (blockOf <$> prependOutputIntegrityGuard messages) with
  | [] => ""
  | merged =>
      let lastRole := match last merged with Some b => Role b | None => "" end in
      replaceImages (beginSentenceMarker +:+ Join (renderBlock <$> merged) "" +:+
                     (if bool_decide (lastRole = "assistant") then "" else assistantMarker))
  end.

Definition MessagesPrepare (messages : list jmap) : string := MessagesPrepareWithThinking messages.
End Render.

(** ** Proofs *)

(** All the bytes a pattern may start with. *)
Ltac byteCases c := destruct c as [[] [] [] [] [] [] [] []]; try reflexivity.

Lemma readText_inside (s : string) : readText true s =
  if HasPrefix s cdataClose then readText false (strDrop 3 s)
  else match s with EmptyString => None | String c s => (fun r => (String c r.1, r.2)) <$> readText true s end.
Proof.
  destruct s as [|a s]; [reflexivity|]. byteCases a.
  destruct s as [|b s]; [reflexivity|]. byteCases b.
  destruct s as [|c s]; [reflexivity|]. byteCases c. cbn. by rewrite HasPrefix_nil.
Qed.
Lemma splitCdata_eq (s : string) : splitCdata s =
  if HasPrefix s cdataClose then "]]]]><![CDATA[>" +:+ splitCdata (strDrop 3 s)
  else match s with EmptyString => "" | String c s => String c (splitCdata s) end.
Proof.
  destruct s as [|a s]; [reflexivity|]. byteCases a.
  destruct s as [|b s]; [reflexivity|]. byteCases b.
  destruct s as [|c s]; [reflexivity|]. byteCases c. cbn. by rewrite HasPrefix_nil.
Qed.
Lemma readText_open (s : string) : readText false (cdataOpen +:+ s) = readText true s.
Proof. reflexivity. Qed.
Lemma readText_stop (s : string) : HasPrefix s cdataOpen = false -> readText false s = Some ("", s).
Proof.
  do 9 (destruct s as [|? s]; [reflexivity|]; match goal with |- context [String ?a s] => byteCases a end).
  cbn. by rewrite HasPrefix_nil.
Qed.

Lemma readAttribute_escape (s rest : string) : readAttribute (escapeXMLAttribute s +:+ String "034" rest) = Some (s, rest).
Proof.
  induction s as [|c s IH]; [reflexivity|].
  cut (readAttribute (escapeXMLAttribute (String c s) +:+ String "034" rest) =
       (fun r => (String c r.1, r.2)) <$> readAttribute (escapeXMLAttribute s +:+ String "034" rest)); [by rewrite IH|].
  byteCases c.
Qed.
Lemma expect_app (p s : string) : expect p (p +:+ s) = Some s.
Proof. unfold expect. by rewrite HasPrefix_app, strDrop_app. Qed.

Lemma Contains_tail (c : ascii) (s sub : string) : Contains (String c s) sub = false -> HasPrefix (String c s) sub = false /\ Contains s sub = false.
Proof. unfold Contains. cbn [Index]. destruct (HasPrefix (String c s) sub); [done|]. by destruct (Index s sub). Qed.
Lemma splitCdata_id (s : string) : Contains s cdataClose = false -> splitCdata s = s.
Proof.
  induction s as [|c s IH]; [done|]. intros [Hp Hs]%Contains_tail. rewrite splitCdata_eq, Hp. by rewrite IH.
Qed.
Lemma splitCdata_head (c : ascii) (s : string) : exists r, splitCdata (String c s) = String c r.
Proof.
  rewrite splitCdata_eq. destruct (HasPrefix (String c s) cdataClose) eqn:Hp; [|by eexists].
  cbn in Hp. destruct (ascii_dec c "]") as [->|]; [by eexists|]. exfalso. revert Hp. by case_decide.
Qed.
Lemma HasPrefix_cons (a b : ascii) (s p : string) : HasPrefix (String b s) (String a p) = bool_decide (a = b) && HasPrefix s p.
Proof. reflexivity. Qed.

(** Splitting leaves no closing tag that was not in the text. *)
Lemma splitCdata_close (c : ascii) (s rest : string) : HasPrefix (String c s) cdataClose = false ->
  HasPrefix (String c (splitCdata s +:+ cdataClose +:+ rest)) cdataClose = false.
Proof.
  unfold cdataClose at 1 3. rewrite !HasPrefix_cons. destruct (bool_decide ("]"%char = c)); [|done]. cbn [andb].
  destruct s as [|d s]; [done|]. rewrite HasPrefix_cons. intros H. destruct (bool_decide ("]"%char = d)) eqn:Hd.
  - apply bool_decide_eq_true in Hd as <-. cbn [andb] in H. rewrite splitCdata_eq.
    destruct (HasPrefix (String "]" s) cdataClose) eqn:Hp; [reflexivity|].
    rewrite append_cons, HasPrefix_cons. destruct s as [|e s]; [reflexivity|].
    destruct (splitCdata_head e s) as [r ->]. rewrite append_cons. revert H. rewrite !HasPrefix_cons, !HasPrefix_nil.
    intros ->. by rewrite andb_false_r.
  - destruct (splitCdata_head d s) as [r ->]. by rewrite append_cons, HasPrefix_cons, Hd.
Qed.

Lemma readText_split (s rest : string) : HasPrefix rest cdataOpen = false ->
  readText true (splitCdata s +:+ cdataClose +:+ rest) = Some (s, rest).
Proof.
  intros Hrest. induction s as [s IH] using string_length_ind.
  rewrite splitCdata_eq. destruct (HasPrefix s cdataClose) eqn:Hp.
  - apply HasPrefix_spec in Hp as [r ->]. change (strDrop 3 (cdataClose +:+ r)) with r.
    change (readText true (("]]]]><![CDATA[>" +:+ splitCdata r) +:+ cdataClose +:+ rest)) with
      ((fun q => (String "]" q.1, q.2)) <$> ((fun q => (String "]" q.1, q.2)) <$>
       ((fun q => (String ">" q.1, q.2)) <$> readText true (splitCdata r +:+ cdataClose +:+ rest)))).
    rewrite IH; [reflexivity|]. rewrite length_append. cbn. lia.
  - destruct s as [|c s]; [by apply readText_stop|].
    rewrite append_cons, readText_inside, splitCdata_close by done. rewrite IH; [reflexivity|cbn; lia].
Qed.

Lemma readText_render (s rest : string) : HasPrefix rest cdataOpen = false ->
  readText false (renderPromptXMLText s +:+ rest) = Some (s, rest).
Proof.
  intros Hrest. unfold renderPromptXMLText. destruct (bool_decide (s = "")) eqn:He.
  { apply bool_decide_eq_true in He as ->. by apply readText_stop. }
  destruct (Contains s cdataClose) eqn:Hc; rewrite !append_assoc, readText_open; [by apply readText_split|].
  rewrite <- (splitCdata_id s Hc) at 1. by apply readText_split.
Qed.
(** A parameter line and an invocation, as the renderer writes them. *)
Definition parameterLine (p : string * string) : string := "    " +:+ parameterTag p.1 (renderPromptXMLText p.2).
Definition invocation (c : string * list (string * string)) : string :=
  "  <|DSML|invoke name=" +:+ dquote +:+ escapeXMLAttribute c.1 +:+ dquote +:+ ">" +:+ lf +:+
  Join (parameterLine <$> c.2) lf +:+ lf +:+ "  </|DSML|invoke>".

Lemma Join_cons (x y : string) (l : list string) (sep : string) : Join (x :: y :: l) sep = x +:+ sep +:+ Join (y :: l) sep.
Proof. reflexivity. Qed.
Lemma Join_length (l : list string) (sep : string) : Forall (fun x => x <> "") l -> length l <= String.length (Join l sep).
Proof.
  induction 1 as [|x [|y l] Hx _ IH]; [cbn; lia|destruct x; [done|cbn; lia]|].
  rewrite Join_cons, !length_append. destruct x; [done|]. cbn in *. lia.
Qed.

Lemma readParameter (fuel : nat) (p : string * string) (T : string) :
  readParameters (S fuel) (parameterLine p +:+ lf +:+ T) =
  match expect "  </|DSML|invoke>" T with
  | Some s => Some ([p], s)
  | None => '(more, s) ← readParameters fuel T; Some (p :: more, s)
  end.
Proof.
  destruct p as [n v].
  assert (parameterLine (n, v) +:+ lf +:+ T = ("    <|DSML|parameter name=" +:+ dquote) +:+ escapeXMLAttribute n +:+
    String "034" (">" +:+ renderPromptXMLText v +:+ ("</|DSML|parameter>" +:+ lf) +:+ T)) as ->.
  { unfold parameterLine, parameterTag. cbn [fst snd]. rewrite !append_assoc. reflexivity. }
  cbn [readParameters]. rewrite expect_app. cbn [mbind option_bind]. rewrite readAttribute_escape. cbn [mbind option_bind].
  rewrite expect_app. cbn [mbind option_bind]. rewrite readText_render by reflexivity. cbn [mbind option_bind].
  by rewrite expect_app.
Qed.

Lemma readParameters_lines (ps : list (string * string)) (fuel : nat) (rest : string) : ps <> [] -> length ps <= fuel ->
  readParameters fuel (Join (parameterLine <$> ps) lf +:+ lf +:+ "  </|DSML|invoke>" +:+ rest) = Some (ps, rest).
Proof.
  revert fuel. induction ps as [|p ps IH]; [done|]. intros [|fuel] _ Hf; [cbn in Hf; lia|]. cbn in Hf.
  destruct ps as [|q ps]; cbn [fmap list_fmap].
  - cbn [Join]. by rewrite readParameter, expect_app.
  - rewrite Join_cons, !append_assoc, readParameter.
    rewrite <- (fmap_cons parameterLine q ps), IH by (done || cbn in *; lia).
    destruct ps; reflexivity.
Qed.

Lemma parameterLine_nonempty (p : string * string) : parameterLine p <> "".
Proof. done. Qed.
Lemma invocation_nonempty c : invocation c <> "".
Proof. done. Qed.

Lemma readInvoke (fuel : nat) c (T : string) : c.2 <> [] ->
  readInvokes (S fuel) (invocation c +:+ lf +:+ T) =
  match expect "</|DSML|tool_calls>" T with
  | Some s => Some ([c], s)
  | None => '(more, s) ← readInvokes fuel T; Some (c :: more, s)
  end.
Proof.
  destruct c as [n ps]. cbn [snd]. intros Hps.
  assert (invocation (n, ps) +:+ lf +:+ T = ("  <|DSML|invoke name=" +:+ dquote) +:+ escapeXMLAttribute n +:+
    String "034" ((">" +:+ lf) +:+ Join (parameterLine <$> ps) lf +:+ lf +:+ "  </|DSML|invoke>" +:+ lf +:+ T)) as ->.
  { unfold invocation. cbn [fst snd]. rewrite !append_assoc. reflexivity. }
  cbn [readInvokes]. rewrite expect_app. cbn [mbind option_bind]. rewrite readAttribute_escape. cbn [mbind option_bind].
  rewrite expect_app. cbn [mbind option_bind]. rewrite readParameters_lines; [|done|].
  - cbn [mbind option_bind]. by rewrite expect_app.
  - rewrite length_append. etrans; [|apply Nat.le_add_r]. rewrite <- (length_fmap parameterLine).
    apply Join_length, Forall_fmap, Forall_forall. intros p _. apply parameterLine_nonempty.
Qed.

Lemma readInvokes_blocks (cs : list (string * list (string * string))) (fuel : nat) (rest : string) :
  cs <> [] -> Forall (fun c => c.2 <> []) cs -> length cs <= fuel ->
  readInvokes fuel (Join (invocation <$> cs) lf +:+ lf +:+ "</|DSML|tool_calls>" +:+ rest) = Some (cs, rest).
Proof.
  intros Hne Hcs. revert fuel Hne. induction Hcs as [|c cs Hc _ IH]; [done|]. intros [|fuel] _ Hf; [cbn in Hf; lia|]. cbn in Hf.
  destruct cs as [|d cs]; cbn [fmap list_fmap].
  - cbn [Join]. by rewrite readInvoke, expect_app.
  - rewrite Join_cons, !append_assoc, readInvoke by done.
    rewrite <- (fmap_cons invocation d cs), IH by (done || cbn in *; lia).
    destruct cs; reflexivity.
Qed.
Lemma parameterLine_shape (p : string * string) : exists r, parameterLine p = "    " +:+ String "<" (r +:+ ">").
Proof.
  exists ("|DSML|parameter name=" +:+ dquote +:+ escapeXMLAttribute p.1 +:+ dquote +:+ ">" +:+ renderPromptXMLText p.2 +:+ "</|DSML|parameter").
  unfold parameterLine, parameterTag. rewrite !append_assoc. reflexivity.
Qed.
Lemma shape_join (u v l a b : string) (c : ascii) :
  (u +:+ String c (a +:+ v)) +:+ l +:+ u +:+ String c (b +:+ v) = u +:+ String c ((a +:+ v +:+ l +:+ u +:+ String c b) +:+ v).
Proof. by rewrite !append_assoc, !append_cons, !append_assoc. Qed.
Lemma lines_shape (p : string * string) (ps : list (string * string)) :
  exists r, Join (parameterLine <$> p :: ps) lf = "    " +:+ String "<" (r +:+ ">").
Proof.
  revert p. induction ps as [|q ps IH]; intros p; [apply parameterLine_shape|].
  destruct (parameterLine_shape p) as [a Ha], (IH q) as [b Hb]. rewrite !fmap_cons in *. rewrite Join_cons, Hb, Ha.
  exists (a +:+ ">" +:+ lf +:+ "    " +:+ String "<" b). apply shape_join.
Qed.
Lemma lines_visible (p : string * string) (ps : list (string * string)) : TrimSpace (Join (parameterLine <$> p :: ps) lf) <> "".
Proof.
  destruct (lines_shape p ps) as [r ->]. change (TrimSpace (String "<" (r +:+ ">")) <> "").
  rewrite (TrimSpace_plain "<" ">") by reflexivity. done.
Qed.

Lemma allLines_some (l : list string) : allLines (Some <$> l) = Some l.
Proof. induction l as [|x l IH]; [done|]. cbn [fmap list_fmap allLines]. by rewrite IH. Qed.

Section History.
Variable Marshal : json -> option string.
Variable Unmarshal : string -> option json.
Variable showFloat : Z -> positive -> string.
Variable decodesTwice : string -> bool.
Notation format := (formatToolCallForPrompt Marshal Unmarshal showFloat decodesTwice).
Notation formatAll := (FormatToolCallsForPrompt Marshal Unmarshal showFloat decodesTwice).

(** The arguments of a call, where they are an object of strings. *)
Definition flatMember (e : string * json) : bool :=
  negb (bool_decide (TrimSpace e.1 = "")) && match e.2 with JStr _ => true | _ => false end.
Definition flatArguments (call : jmap) : option jmap :=
  match normalizePromptToolCallValue Unmarshal (callArguments call) with
  | Some (JObj m) => if negb (bool_decide (m = [])) && forallb flatMember m then Some m else None
  | _ => None
  end.

(** What a call says: its name and its arguments in the order of their names. *)
Definition callHistory (call : jmap) : string * list (string * string) :=
  (callName call, (fun e => (TrimSpace e.1, asString (Some e.2))) <$> sortBy (fun a b => String.ltb a.1 b.1) (default [] (flatArguments call))).

Definition plainCall (call : jmap) : bool := negb (bool_decide (callName call = "")) && bool_decide (is_Some (flatArguments call)).

Lemma flatArguments_some call m : flatArguments call = Some m ->
  normalizePromptToolCallValue Unmarshal (callArguments call) = Some (JObj m) /\ m <> [] /\ Forall (fun e => flatMember e = true) m.
Proof.
  unfold flatArguments. destruct (normalizePromptToolCallValue _ _) as [[]|]; try done.
  destruct (bool_decide (members = [])) eqn:He; [done|]. cbn [negb andb]. destruct (forallb flatMember members) eqn:Hf; [|done].
  intros [= <-]. split_and!; [done|by apply bool_decide_eq_false in He|]. rewrite forallb_forall in Hf. apply Forall_forall. intros e He'. apply Hf, list_elem_of_In, He'.
Qed.

Lemma renderParameter_flat (e : string * json) (indent : string) : flatMember e = true ->
  renderPromptParameterNode showFloat e.1 e.2 indent = Some (indent +:+ parameterTag (TrimSpace e.1) (renderPromptXMLText (asString (Some e.2)))).
Proof.
  destruct e as [k v]. unfold flatMember, renderPromptParameterNode. cbn [fst snd].
  destruct (bool_decide (TrimSpace k = "")); [done|]. by destruct v.
Qed.

Lemma parameters_flat (m : jmap) : m <> [] -> Forall (fun e => flatMember e = true) m ->
  exists p ps, (fun e => (TrimSpace e.1, asString (Some e.2))) <$> sortBy (fun a b => String.ltb a.1 b.1) m = p :: ps /\
  renderPromptToolParameters showFloat (Some (JObj m)) "    " = Some (Join (parameterLine <$> p :: ps) lf).
Proof.
  intros Hm Hf. cbn [renderPromptToolParameters]. unfold sortedLines.
  rewrite (sortBy_fmap _ byKey (fun a b => String.ltb a.1 b.1)) by done. rewrite <- list_fmap_compose.
  pose proof (sortBy_perm (fun a b => String.ltb a.1 b.1) m) as Hp.
  rewrite <- Hp in Hf. destruct (sortBy _ m) as [|e l]; [by apply Permutation_nil in Hp|]. clear Hp Hm.
  exists (TrimSpace e.1, asString (Some e.2)), ((fun e => (TrimSpace e.1, asString (Some e.2))) <$> l). split; [done|].
  unfold joinLines. change (?x :: ((fun e => (TrimSpace e.1, asString (Some e.2))) <$> l)) with ((fun e => (TrimSpace e.1, asString (Some e.2))) <$> e :: l).
  rewrite <- (list_fmap_compose _ parameterLine).
  assert (forall es, Forall (fun e => flatMember e = true) es ->
    (snd ∘ (fun e : string * json => (e.1, renderPromptParameterNode showFloat e.1 e.2 "    "))) <$> es =
    Some <$> ((parameterLine ∘ (fun e : string * json => (TrimSpace e.1, asString (Some e.2)))) <$> es)) as ->; [|by rewrite allLines_some|done].
  induction 1 as [|x es Hx _ IH]; [done|]. rewrite !fmap_cons, IH. f_equal. cbn. by apply renderParameter_flat.
Qed.

Lemma format_plain (call : jmap) : plainCall call = true ->
  format call = invocation (callHistory call) /\ (callHistory call).2 <> [].
Proof.
  unfold plainCall. rewrite andb_true_iff. intros [Hn Hs]. apply negb_true_iff, bool_decide_eq_false in Hn.
  apply bool_decide_eq_true in Hs as [m Hm]. pose proof (flatArguments_some call m Hm) as (Hv & Hne & Hf).
  destruct (parameters_flat m Hne Hf) as (p & ps & Hl & Hr).
  unfold callHistory. rewrite Hm. change (default [] (Some m)) with m. rewrite Hl. split; [|done].
  unfold formatToolCallForPrompt, formatToolCallParametersForPrompt. rewrite (bool_decide_eq_false_2 _ Hn), Hv, Hr.
  rewrite (bool_decide_eq_false_2 _ (lines_visible p ps)).
  assert (Join (parameterLine <$> p :: ps) lf <> "") as Hb by (intros Hx; apply (lines_visible p ps); by rewrite Hx).
  rewrite (bool_decide_eq_false_2 _ Hb). unfold invocation. cbn [fst snd]. rewrite !append_assoc. reflexivity.
Qed.

Lemma formatAll_plain (calls : list jmap) : calls <> [] -> Forall (fun c => plainCall c = true) calls ->
  formatAll (Some (JArr (JObj <$> calls))) =
  ("<|DSML|tool_calls>" +:+ lf) +:+ Join (invocation <$> (callHistory <$> calls)) lf +:+ lf +:+ "</|DSML|tool_calls>".
Proof.
  intros Hne Hall. unfold FormatToolCallsForPrompt.
  assert (filter (fun b => b <> "") (omap (fun item => format <$> isObject (Some item)) (JObj <$> calls)) = invocation <$> (callHistory <$> calls)) as ->.
  { clear Hne. induction Hall as [|c cs Hc _ IH]; [done|].
    change (omap _ (JObj <$> c :: cs)) with (format c :: omap (fun item => format <$> isObject (Some item)) (JObj <$> cs)).
    destruct (format_plain c Hc) as [-> _]. rewrite filter_cons_True, IH by apply invocation_nonempty. done. }
  destruct calls; [done|]. rewrite !append_assoc. reflexivity.
Qed.

(** C19. Nothing in a tool call can break out of its place in the prompt: the rendered history of
    calls whose arguments are objects of strings reads back as exactly those calls, names,
    parameter names and values, whatever text, markup or section ends they contain. *)
Theorem tool_history_reads_back (calls : list jmap) (rest : string) :
  calls <> [] -> Forall (fun c => plainCall c = true) calls ->
  readToolHistory (formatAll (Some (JArr (JObj <$> calls))) +:+ rest) = Some (callHistory <$> calls, rest).
Proof.
  intros Hne Hall. rewrite formatAll_plain by done. unfold readToolHistory. rewrite append_assoc, expect_app. cbn [mbind option_bind].
  rewrite !append_assoc. apply readInvokes_blocks.
  - by destruct calls.
  - apply Forall_fmap. eapply Forall_impl; [exact Hall|]. intros c Hc. by apply format_plain.
  - rewrite !length_append. assert (length (callHistory <$> calls) <= String.length (Join (invocation <$> (callHistory <$> calls)) lf)); [|lia].
    rewrite <- (length_fmap invocation). apply Join_length, Forall_fmap, Forall_forall. intros c _. apply invocation_nonempty.
Qed.
End History.

(** A value with a section end and markup in it, and a name with a quote. *)
Lemma tool_history_reads_back_witness :
  exists shown, FormatToolCallsForPrompt (fun _ => None) (fun _ => None) (fun _ _ => "") (fun _ => false)
    (Some (JArr [JObj [("name", JStr (dquote +:+ "run")); ("input", JObj [("path", JStr "<b>"); ("code", JStr "a]]>b</|DSML|parameter>")])]])) = shown /\
  readToolHistory shown = Some ([(dquote +:+ "run", [("code", "a]]>b</|DSML|parameter>"); ("path", "<b>")])], "").
Proof.
  eexists. split; [reflexivity|].
  pose proof (tool_history_reads_back (fun _ => None) (fun _ => None) (fun _ _ => "") (fun _ => false)
    [[("name", JStr (dquote +:+ "run")); ("input", JObj [("path", JStr "<b>"); ("code", JStr "a]]>b</|DSML|parameter>")])]] "") as H.
  rewrite append_nil_r in H. apply H; [done|]. by repeat constructor.
Defined.

(** ** Merging *)

(** Neighbours have different roles. *)
Fixpoint alternates (l : list block) : Prop :=
  match l with
  | a :: ((b :: _) as r) => Role a <> Role b /\ alternates r
  | _ => True
  end.

(** A run of blocks of one role, as one block. *)
Definition joinRun (r : block * list block) : block :=
  {| Role := Role r.1; Text := Join (Text <$> r.1 :: r.2) (lf +:+ lf) |}.

Lemma Join_snoc (x : string) (l : list string) (y sep : string) : Join ((x :: l) ++ [y]) sep = Join (x :: l) sep +:+ sep +:+ y.
Proof.
  revert x. induction l as [|z l IH]; intros x; [done|].
  change ((x :: z :: l) ++ [y]) with (x :: z :: (l ++ [y])). rewrite !Join_cons.
  change (z :: (l ++ [y])) with ((z :: l) ++ [y]). by rewrite IH, !append_assoc.
Qed.

Lemma mergeFrom_role (b : block) (l : list block) : exists c r, mergeFrom b l = c :: r /\ Role c = Role b.
Proof.
  revert b. induction l as [|d l IH]; intros b; [by exists b, []|]. cbn [mergeFrom].
  destruct (bool_decide (Role b = Role d)); [|by exists b, (mergeFrom d l)]. apply (IH {| Role := Role b; Text := _ |}).
Qed.

Lemma mergeFrom_runs (run : block * list block) (l : list block) : Forall (fun b => Role b = Role run.1) run.2 ->
  exists runs, concat ((fun r => r.1 :: r.2) <$> runs) = run.1 :: run.2 ++ l /\
    Forall (fun r => Forall (fun b => Role b = Role r.1) r.2) runs /\
    mergeFrom (joinRun run) l = joinRun <$> runs /\ alternates (mergeFrom (joinRun run) l).
Proof.
  revert run. induction l as [|b l IH]; intros [h t] Ht; cbn [fst snd] in *.
  { exists [(h, t)]. cbn [mergeFrom fmap list_fmap concat fst snd]. rewrite !app_nil_r. split_and!; try done. by repeat constructor. }
  cbn [mergeFrom]. change (Role (joinRun (h, t))) with (Role h). destruct (decide (Role h = Role b)) as [Hr|Hr].
  - rewrite (bool_decide_eq_true_2 _ Hr).
    assert ({| Role := Role h; Text := Text (joinRun (h, t)) +:+ lf +:+ lf +:+ Text b |} = joinRun (h, t ++ [b])) as ->.
    { unfold joinRun. cbn [fst snd Text]. f_equal. change (h :: t ++ [b]) with ((h :: t) ++ [b]). rewrite fmap_app, fmap_cons.
      change (Text <$> [b]) with [Text b]. by rewrite Join_snoc, <- !append_assoc. }
    destruct (IH (h, t ++ [b])) as (runs & Hc & Hf & Hm & Ha).
    { apply Forall_app. by repeat constructor. }
    exists runs. split_and!; try done. rewrite Hc. cbn [fst snd]. by rewrite <- app_assoc.
  - rewrite (bool_decide_eq_false_2 _ Hr). destruct (IH (b, [])) as (runs & Hc & Hf & Hm & Ha); [constructor|].
    change (joinRun (b, [])) with {| Role := Role b; Text := Text b |} in *. replace {| Role := Role b; Text := Text b |} with b in * by (by destruct b).
    exists ((h, t) :: runs). rewrite fmap_cons. cbn [concat fst snd fmap list_fmap]. rewrite Hc. split_and!; [done|by constructor|by rewrite Hm|].
    destruct (mergeFrom_role b l) as (c & r & Hcr & Hrole). rewrite Hcr in *. cbn. split; [|done]. by rewrite Hrole.
Qed.

(** Merging cuts the blocks into runs of one role and joins each run with blank lines; what is
    left alternates. *)
Theorem mergeBlocks_runs (l : list block) :
  exists runs, concat ((fun r => r.1 :: r.2) <$> runs) = l /\
    Forall (fun r => Forall (fun b => Role b = Role r.1) r.2) runs /\
    mergeBlocks l = joinRun <$> runs /\ alternates (mergeBlocks l).
Proof.
  destruct l as [|b l]; [by exists []|]. destruct (mergeFrom_runs (b, []) l) as (runs & Hc & Hf & Hm & Ha); [constructor|].
  change (joinRun (b, [])) with {| Role := Role b; Text := Text b |} in *. replace {| Role := Role b; Text := Text b |} with b in * by (by destruct b).
  by exists runs.
Qed.

(** Images are rewritten to links in one pass, so an image after an exclamation mark survives. *)
Example image_survives : replaceImages "!![a](b)" = "![a](b)" /\ replaceImages "![a](b)" = "[a](b)".
Proof. split; reflexivity. Qed.
