(* ===== verification/ToolRepair.v ===== *)
(** Repairing tool messages: [internal/promptcompat/tool_message_repair.go].

    Clients send calls and results of tools in many shapes.  Before a prompt is built, every
    call is brought to one shape and given an identifier, and every result is attached to one
    of the calls that wait for an answer.  The state is the queue of those calls and a counter
    for new identifiers; each operation takes it and gives it back. *)
From S2P Require Import Prelude GoString GoText Json PromptText.
From S2P Require UpstreamSession.
Local Open Scope string_scope.
Local Open Scope list_scope.

Notation deleteMember := UpstreamSession.deleteMember.

(** [m[k] = v] *)
Definition assign (k : string) (v : json) (m : jmap) : jmap :=
  match member k m with Some _ => UpstreamSession.setMember k v m | None => m ++ [(k, v)] end.

Record pendingToolCall := { ID : string; Name : string }.
#[export] Instance pendingToolCall_eq_dec : EqDecision pendingToolCall.
Proof. solve_decision. Defined.
Record repairState := { pending : list pendingToolCall; nextID : Z }.
Definition withPending (s : repairState) (p : list pendingToolCall) : repairState := {| pending := p; nextID := nextID s |}.

(** ** Looking into a message *)

Definition kindOf (m : jmap) : string := ToLower (TrimSpace (asString (member "type" m))).

Fixpoint firstNonEmptyString (values : list anyValue) : string :=
  match values with
  | [] => ""
  | v :: l => let text := TrimSpace (asString v) in if bool_decide (text = "") then firstNonEmptyString l else text
  end.

Fixpoint firstExisting (m : jmap) (keys : list string) : anyValue :=
  match keys with
  | [] => None
  | k :: l => if isNil (member k m) then firstExisting m l else member k m
  end.

Definition isToolResultBlock (block : jmap) : bool :=
  bool_decide (kindOf block ∈ ["tool_result"; "function_call_output"; "tooloutput"; "tool_output"]).

(** A value that is an object with the type of a tool result. *)
Definition resultBlock (v : anyValue) : option jmap :=
  match isObject v with Some block => if isToolResultBlock block then Some block else None | None => None end.

Definition read (m : jmap) (keys : list string) : string := firstNonEmptyString ((fun k => member k m) <$> keys).

Definition hasToolResultShape (msg : jmap) : bool :=
  negb (bool_decide (read msg ["tool_call_id"; "call_id"; "tool_use_id"; "callId"; "toolCallId"; "toolUseId"] = "")) ||
  isToolResultBlock msg || bool_decide (is_Some (resultBlock (member "content" msg))).

Definition textFromContentBlock (block : jmap) : string :=
  if bool_decide (kindOf block ∈ ["text"; "input_text"; "output_text"]) then read block ["text"; "content"] else "".

Definition normalizeOpenAIRoleForPrompt (role : string) : string :=
  let role := ToLower (TrimSpace role) in if bool_decide (role = "developer") then "system" else role.

(** ** The queue *)

Definition nextToolCallID (s : repairState) : repairState * string :=
  let n := i64 (nextID s + 1) in ({| pending := pending s; nextID := n |}, "call_repaired_" +:+ pretty n).

(** The first waiting call that satisfies [f], and the others. *)
Fixpoint takeFirst (f : pendingToolCall -> bool) (l : list pendingToolCall) : option (pendingToolCall * list pendingToolCall) :=
  match l with
  | [] => None
  | p :: l => if f p then Some (p, l) else (fun r => (r.1, p :: r.2)) <$> takeFirst f l
  end.

Definition nameOr (name : string) (p : pendingToolCall) : string := if bool_decide (name = "") then Name p else name.

(** The end of [consumePendingToolCall]: no waiting call has the identifier or the name. *)
Definition consumeUnmatched (s : repairState) (callID name : string) : repairState * (string * string) :=
  match pending s with
  | p :: l =>
      if bool_decide (length (p :: l) = 1) || bool_decide (callID = "") then (withPending s l, (ID p, nameOr name p))
      else (s, (callID, name))
  | [] => if bool_decide (callID = "") then let '(s, id) := nextToolCallID s in (s, (id, name)) else (s, (callID, name))
  end.

Definition consumeByName (s : repairState) (callID name : string) : repairState * (string * string) :=
  match (if bool_decide (name = "") then None else takeFirst (fun p => EqualFold (Name p) name) (pending s)) with
  | Some (p, l) => (withPending s l, (ID p, name))
  | None => consumeUnmatched s callID name
  end.

Definition consumePendingToolCall (s : repairState) (callID name : string) : repairState * (string * string) :=
  let callID := TrimSpace callID in
  let name := TrimSpace name in
  match (if bool_decide (callID = "") then None else takeFirst (fun p => bool_decide (ID p = callID)) (pending s)) with
  | Some (p, l) => (withPending s l, (callID, nameOr name p))
  | None => consumeByName s callID name
  end.

(** What a repaired call puts into the queue. *)
Definition pendingOf (call : json) : option pendingToolCall :=
  match call with
  | JObj c =>
      let id := read c ["id"; "call_id"; "tool_call_id"; "callId"; "toolCallId"] in
      if bool_decide (id = "") then None
      else
        let own := read c ["name"] in
        Some {| ID := id;
                Name := match isObject (member "function" c) with
                        | Some f => if bool_decide (own = "") then read f ["name"] else own
                        | None => own
                        end |}
  | _ => None
  end.

Definition recordPendingToolCalls (s : repairState) (calls : list json) : repairState :=
  withPending s (pending s ++ omap pendingOf calls).

Section Repair.
Variable Marshal : json -> option string.
Variable showFloat : Z -> positive -> string.
Variable decodesTwice : string -> bool.
Notation Stringify := (StringifyToolCallArguments Marshal decodesTwice).
Notation NormalizeOpenAIContentForPrompt := (NormalizeContent Marshal showFloat).

(** ** Calls *)

Definition callNameKeys : list string := ["name"; "tool_name"; "function_name"; "recipient_name"; "toolName"; "functionName"].
Definition functionNameKeys : list string := ["name"; "tool_name"; "function_name"; "toolName"; "functionName"].
Definition argumentKeys : list string := ["arguments"; "input"; "args"; "parameters"; "params"; "arguments_json"; "input_json"].
Definition callIDKeys : list string := ["id"; "call_id"; "tool_call_id"; "tool_use_id"; "callId"; "toolCallId"; "toolUseId"].

(** The one shape of a call. *)
Definition repairedCall (id name arguments : string) : json :=
  JObj [("id", JStr id); ("type", JStr "function"); ("function", JObj [("name", JStr name); ("arguments", JStr arguments)])].

Definition repairToolCall (s : repairState) (call : jmap) : repairState * option json :=
  let fn := isObject (member "function" call) in
  let own := read call callNameKeys in
  let name := match fn with Some f => if bool_decide (own = "") then read f functionNameKeys else own | None => own end in
  if bool_decide (name = "") then (s, None)
  else
    let args := firstExisting call argumentKeys in
    let args := match fn with Some f => if isNil args then firstExisting f argumentKeys else args | None => args end in
    let own := read call callIDKeys in
    let '(s, id) := if bool_decide (own = "") then nextToolCallID s else (s, own) in
    (s, Some (repairedCall id name (Stringify args))).

(** The objects of a list, each repaired. *)
Fixpoint repairCalls (s : repairState) (items : list json) : repairState * list json :=
  match items with
  | [] => (s, [])
  | JObj call :: l =>
      let '(s, r) := repairToolCall s call in
      let '(s, calls) := repairCalls s l in
      (s, match r with Some c => c :: calls | None => calls end)
  | _ :: l => repairCalls s l
  end.

Definition repairToolCalls (s : repairState) (raw : anyValue) : repairState * list json :=
  let items := match raw with Some (JArr l) => l | Some (JObj m) => [JObj m] | _ => [] end in
  let '(s, calls) := repairCalls s items in (recordPendingToolCalls s calls, calls).

Definition assistantMessageFromToolCallItem (s : repairState) (item : jmap) : repairState * option jmap :=
  match repairToolCall s item with
  | (s, None) => (s, None)
  | (s, Some call) => (recordPendingToolCalls s [call], Some [("role", JStr "assistant"); ("tool_calls", JArr [call])])
  end.

(** The text and the calls of the blocks of an assistant message. *)
Fixpoint assistantBlocks (s : repairState) (items : list json) : repairState * (list string * list json) :=
  match items with
  | [] => (s, ([], []))
  | JObj block :: l =>
      if bool_decide (kindOf block ∈ ["tool_use"; "function_call"; "tool_call"; "toolcall"; "tool_use_call"]) then
        let '(s, r) := repairToolCall s block in
        let '(s, (texts, calls)) := assistantBlocks s l in
        (s, (texts, match r with Some c => c :: calls | None => calls end))
      else
        let text := if bool_decide (kindOf block ∈ ["text"; "input_text"; "output_text"]) then textFromContentBlock block
                    else TrimSpace (NormalizeOpenAIContentForPrompt (Some (JArr [JObj block]))) in
        let '(s, (texts, calls)) := assistantBlocks s l in
        (s, (if bool_decide (TrimSpace text = "") then texts else text :: texts, calls))
  | _ :: l => assistantBlocks s l
  end.

Definition repairAssistantContentBlocks (s : repairState) (msg : jmap) : repairState * option jmap :=
  match member "content" msg with
  | Some (JArr items) =>
      let '(s, (texts, calls)) := assistantBlocks s items in
      if bool_decide (calls = []) then (s, None)
      else
        let out := deleteMember "content" msg in
        let out := if bool_decide (texts = []) then out else assign "content" (JStr (Join texts lf)) out in
        (recordPendingToolCalls s calls, Some (assign "tool_calls" (JArr calls) out))
  | _ => (s, None)
  end.

(** ** Results *)

Definition contentKeys : list string := ["content"; "output"; "result"; "text"; "observation"; "data"].
Definition resultIDKeys : list string := ["tool_call_id"; "call_id"; "tool_use_id"; "id"; "callId"; "toolCallId"; "toolUseId"].

Definition resultContent (msg : jmap) : json :=
  let content := firstExisting msg contentKeys in
  let content := match resultBlock content with Some block => firstExisting block contentKeys | None => content end in
  match content with Some v => v | None => JStr "" end.

(** The one shape of a result. *)
Definition repairedResult (id : string) (content : json) (name : string) : jmap :=
  [("role", JStr "tool"); ("tool_call_id", JStr id); ("content", content)] ++ (if bool_decide (name = "") then [] else [("name", JStr name)]).

Definition repairToolResultMessage (s : repairState) (msg : jmap) : repairState * jmap :=
  let '(s, (id, name)) := consumePendingToolCall s (read msg resultIDKeys) (read msg callNameKeys) in
  (s, repairedResult id (resultContent msg) name).

(** [flushText] *)
Definition flushText (role : string) (texts : list string) : list jmap :=
  if bool_decide (texts = []) then []
  else [message (if bool_decide (TrimSpace role = "") then "user" else role) (Join texts lf)].

(** The results among the blocks of a message, and the texts between them. *)
Fixpoint splitResults (s : repairState) (role : string) (texts : list string) (found : bool) (items : list json) : repairState * (bool * list jmap) :=
  match items with
  | [] => (s, (found, flushText role texts))
  | JObj block :: l =>
      if isToolResultBlock block then
        let '(s, r) := repairToolResultMessage s block in
        let '(s, (found, out)) := splitResults s role [] true l in
        (s, (found, flushText role texts ++ r :: out))
      else
        let text := textFromContentBlock block in
        splitResults s role (if bool_decide (TrimSpace text = "") then texts else texts ++ [text]) found l
  | _ :: l => splitResults s role texts found l
  end.

Definition repairToolResultsFromContent (s : repairState) (role : string) (content : anyValue) : repairState * list jmap :=
  match content with
  | Some (JArr ((_ :: _) as items)) =>
      let '(s, (found, out)) := splitResults s (normalizeOpenAIRoleForPrompt role) [] false items in
      (s, if found then out else [])
  | _ => match resultBlock content with
         | Some block => let '(s, r) := repairToolResultMessage s block in (s, [r])
         | None => (s, [])
         end
  end.

(** ** Messages *)

Definition roleOf (m : jmap) : string := ToLower (TrimSpace (asString (member "role" m))).

(** Results among the content of the message, or the message as it is. *)
Definition splitOrKeep (s : repairState) (role : string) (msg : jmap) : repairState * list jmap :=
  match repairToolResultsFromContent s role (member "content" msg) with
  | (s, []) => (s, [msg])
  | split => split
  end.

Definition single (r : repairState * jmap) : repairState * list jmap := (r.1, [r.2]).

(** The switch over the role. *)
Definition repairByRole (s : repairState) (role : string) (msg : jmap) : repairState * list jmap :=
  if bool_decide (role = "assistant") then
    match repairAssistantContentBlocks s msg with
    | (s, Some out) => (s, [out])
    | (s, None) =>
        let '(s, calls) := repairToolCalls s (member "tool_calls" msg) in
        (s, [if bool_decide (calls = []) then msg else assign "tool_calls" (JArr calls) msg])
    end
  else if bool_decide (role ∈ ["tool"; "function"]) then single (repairToolResultMessage s msg)
  else if bool_decide (role = "user") && hasToolResultShape msg then single (repairToolResultMessage s msg)
  else splitOrKeep s role msg.

Definition repairOpenAIToolMessage (s : repairState) (msg : jmap) : repairState * list jmap :=
  let role := roleOf msg in
  if negb (bool_decide (role = "")) then repairByRole s role msg
  else if bool_decide (kindOf msg ∈ ["function_call_output"; "tool_result"; "tooloutput"; "tool_output"]) then single (repairToolResultMessage s msg)
  else if bool_decide (kindOf msg ∈ ["function_call"; "tool_call"; "tool_use"; "toolcall"; "tool_use_call"]) then
    match assistantMessageFromToolCallItem s msg with
    | (s, Some out) => (s, [out])
    | (s, None) => repairByRole s role msg
    end
  else repairByRole s role msg.

Fixpoint repairFrom (s : repairState) (raw : list json) : repairState * list jmap :=
  match raw with
  | [] => (s, [])
  | JObj msg :: l =>
      let '(s, out) := repairOpenAIToolMessage s msg in
      let '(s, more) := repairFrom s l in (s, out ++ more)
  | _ :: l => repairFrom s l
  end.

Definition repairOpenAIToolMessages (raw : list json) : list jmap := (repairFrom {| pending := []; nextID := 0 |} raw).2.
End Repair.

(** ** Roles in ASCII *)

Lemma asciiOnly_concat (s t : string) : asciiOnly (s +:+ t) = asciiOnly s && asciiOnly t.
Proof. induction s as [|c s IH]; [done|]. rewrite append_cons. cbn [asciiOnly]. by rewrite IH, andb_assoc. Qed.
Lemma asciiOnly_rev (s : string) : asciiOnly (strRev s) = asciiOnly s.
Proof.
  induction s as [|c s IH]; [done|]. change (strRev (String c s)) with (revOnto s (String c "")).
  rewrite revOnto_app, asciiOnly_concat, IH. cbn [asciiOnly]. by rewrite andb_true_r, andb_comm.
Qed.
Lemma asciiOnly_TrimSpace (s : string) : asciiOnly s = true -> asciiOnly (TrimSpace s) = true.
Proof.
  intros H. unfold TrimSpace, trimRightSpace. rewrite asciiOnly_rev.
  destruct (trim_suffix _ _ trimLeftSpace trimLeftSpace_eq s) as [p Hp].
  destruct (trim_suffix _ _ trimLeftSpaceRev trimLeftSpaceRev_eq (strRev (trimLeftSpace s))) as [q Hq].
  rewrite Hp, asciiOnly_concat, andb_true_iff in H. destruct H as [_ H].
  rewrite <- (asciiOnly_rev (trimLeftSpace s)), Hq, asciiOnly_concat, andb_true_iff in H. apply H.
Qed.
Lemma asciiOnly_lower (s : string) : asciiOnly (lower s) = asciiOnly s.
Proof. induction s as [|c s IH]; [done|]. cbn [lower asciiOnly]. rewrite IH. f_equal. by destruct c as [[] [] [] [] [] [] [] []]. Qed.

Definition asciiRole (m : jmap) : Prop := asciiOnly (asString (member "role" m)) = true.

Lemma roleOf_normal (m : jmap) : asciiRole m -> asciiOnly (roleOf m) = true /\ ToLower (TrimSpace (roleOf m)) = roleOf m.
Proof.
  unfold asciiRole, roleOf. intros H%asciiOnly_TrimSpace. rewrite (ToLower_ascii _ H).
  assert (asciiOnly (lower (TrimSpace (asString (member "role" m)))) = true) as Hl by (by rewrite asciiOnly_lower). split; [done|].
  rewrite ToLower_ascii by (by apply asciiOnly_TrimSpace). by rewrite TrimSpace_lower, TrimSpace_idem, lower_idem.
Qed.

(** ** The queue *)

Lemma takeFirst_spec f l p r : takeFirst f l = Some (p, r) -> exists l1 l2, l = l1 ++ p :: l2 /\ r = l1 ++ l2 /\ f p = true /\ Forall (fun q => f q = false) l1.
Proof.
  revert p r. induction l as [|q l IH]; [done|]. intros p r. cbn [takeFirst]. destruct (f q) eqn:Hq.
  - intros [= <- <-]. by exists [], l.
  - destruct (takeFirst f l) as [[p' r']|]; [|done]. intros [= <- <-].
    destruct (IH _ _ eq_refl) as (l1 & l2 & -> & -> & Hp & Hl). exists (q :: l1), l2. split_and!; [done..|by constructor].
Qed.
Lemma takeFirst_none f l : takeFirst f l = None -> Forall (fun q => f q = false) l.
Proof. induction l as [|q l IH]; [constructor|]. cbn [takeFirst]. destruct (f q) eqn:Hq; [done|]. destruct (takeFirst f l); [done|]. constructor; auto. Qed.

(** A result takes a waiting call out of the queue, or it takes none. *)
Definition took (s s' : repairState) (p : pendingToolCall) : Prop :=
  exists l1 l2, pending s = l1 ++ p :: l2 /\ s' = withPending s (l1 ++ l2).

(** What a result is attached to: to the first waiting call with its identifier, else to the
    first one with its name, else to the oldest one if the result has no identifier or only one call
    waits.  That call and no other leaves the queue, and the result gets its identifier, and its name
    if it had none.  Otherwise the result keeps its identifier, or gets a new one when it had none. *)
Theorem consume_answers (s s' : repairState) (callID name id' name' : string) :
  consumePendingToolCall s callID name = (s', (id', name')) ->
  (exists p, took s s' p /\ id' = ID p /\ name' = nameOr (TrimSpace name) p) \/
  (s' = s /\ id' = TrimSpace callID /\ name' = TrimSpace name /\ id' <> "" /\ length (pending s) <> 1 /\
   Forall (fun p => ID p <> id' /\ (name' <> "" -> EqualFold (Name p) name' = false)) (pending s)) \/
  (pending s = [] /\ TrimSpace callID = "" /\ name' = TrimSpace name /\ (s', id') = nextToolCallID s).
Proof.
  unfold consumePendingToolCall. set (c := TrimSpace callID). set (n := TrimSpace name).
  destruct (if bool_decide (c = "") then None else takeFirst (fun p => bool_decide (ID p = c)) (pending s)) as [[p l]|] eqn:H1.
  { destruct (bool_decide (c = "")); [done|]. apply takeFirst_spec in H1 as (l1 & l2 & Hp & -> & Hid%bool_decide_eq_true & _).
    intros [= <- <- <-]. left. exists p. split_and!; [by exists l1, l2|done|done]. }
  unfold consumeByName.
  destruct (if bool_decide (n = "") then None else takeFirst (fun p => EqualFold (Name p) n) (pending s)) as [[p l]|] eqn:H2.
  { destruct (bool_decide (n = "")) eqn:Hn; [done|]. apply takeFirst_spec in H2 as (l1 & l2 & Hp & -> & _).
    intros [= <- <- <-]. left. exists p. split_and!; [by exists l1, l2|done|]. unfold nameOr. by rewrite Hn. }
  unfold consumeUnmatched. destruct (decide (c = "")) as [Hc|Hc].
  - rewrite (bool_decide_eq_true_2 _ Hc) in *. destruct (pending s) as [|p l] eqn:Hp; [|rewrite orb_true_r].
    + destruct (nextToolCallID s) as [s2 i] eqn:Hi. intros [= <- <- <-]. right; right. done.
    + intros [= <- <- <-]. left. exists p. split_and!; [by exists [], l|done|done].
  - rewrite (bool_decide_eq_false_2 _ Hc) in *. destruct (pending s) as [|p l] eqn:Hp; [|rewrite orb_false_r].
    + intros [= <- <- <-]. right; left. by repeat split.
    + destruct (bool_decide (length (p :: l) = 1)) eqn:Hl.
      * intros [= <- <- <-]. left. exists p. split_and!; [by exists [], l|done|done].
      * intros [= <- <- <-]. right; left. apply bool_decide_eq_false in Hl. split_and!; try done.
        apply takeFirst_none in H1. rewrite Forall_forall in *. intros q Hq. split.
        -- by apply (bool_decide_eq_false (ID q = c)), H1.
        -- intros Hn. rewrite (bool_decide_eq_false_2 _ Hn) in H2. apply takeFirst_none in H2. rewrite Forall_forall in H2. by apply H2.
Qed.

(** ** Every result has an identifier *)

(** The calls in the queue have identifiers. *)
Definition queued (s : repairState) : Prop := Forall (fun p => ID p <> "") (pending s).

(** A message of a tool names the call it answers. *)
Definition identified (m : jmap) : Prop :=
  roleOf m ∈ ["tool"; "function"] -> exists id, member "tool_call_id" m = Some (JStr id) /\ id <> "".

Lemma consume_queued s callID name s' id' name' : queued s ->
  consumePendingToolCall s callID name = (s', (id', name')) -> queued s' /\ id' <> "".
Proof.
  intros Hs [ (p & (l1 & l2 & Hp & ->) & -> & _) | [ (-> & -> & _ & H & _) | (Hp & _ & _ & [= -> ->]) ] ]%consume_answers.
  - unfold queued in *. rewrite Hp in Hs. apply Forall_app in Hs as [H1 [H2 H3]%Forall_cons]. split; [|done].
    by apply Forall_app.
  - done.
  - unfold queued. cbn [pending]. by rewrite Hp.
Qed.

Lemma pendingOf_id c p : pendingOf c = Some p -> ID p <> "".
Proof.
  destruct c; try done. unfold pendingOf. cbn zeta.
  destruct (bool_decide (read members ["id"; "call_id"; "tool_call_id"; "callId"; "toolCallId"] = "")) eqn:H; [done|].
  intros [= <-]. by apply bool_decide_eq_false in H.
Qed.

Lemma record_queued s calls : queued s -> queued (recordPendingToolCalls s calls).
Proof.
  intros H. apply Forall_app. split; [exact H|]. apply Forall_forall. intros p Hp.
  apply list_elem_of_omap in Hp as (c & _ & Hc). by apply pendingOf_id in Hc.
Qed.

Section Identified.
Variable Marshal : json -> option string.
Variable showFloat : Z -> positive -> string.
Variable decodesTwice : string -> bool.
Notation repairCall := (repairToolCall Marshal decodesTwice).
Notation blocks := (assistantBlocks Marshal showFloat decodesTwice).

Lemma repairToolCall_pending s call : pending (repairCall s call).1 = pending s.
Proof.
  unfold repairToolCall. cbn zeta. destruct (bool_decide (_ = "")); [done|].
  by destruct (bool_decide (read call callIDKeys = "")).
Qed.
Lemma repairCalls_pending s items : pending (repairCalls Marshal decodesTwice s items).1 = pending s.
Proof.
  revert s. induction items as [|x items IH]; intros s; [done|]. destruct x; cbn [repairCalls]; try apply IH.
  pose proof (repairToolCall_pending s members) as H. destruct (repairCall s members) as [s1 r].
  specialize (IH s1). destruct (repairCalls Marshal decodesTwice s1 items) as [s2 cs]. cbn [fst] in *. congruence.
Qed.
Lemma blocks_pending s items : pending (blocks s items).1 = pending s.
Proof.
  revert s. induction items as [|x items IH]; intros s; [done|]. destruct x; cbn [assistantBlocks]; try apply IH.
  destruct (bool_decide (kindOf members ∈ _)).
  - pose proof (repairToolCall_pending s members) as H. destruct (repairCall s members) as [s1 r].
    specialize (IH s1). destruct (blocks s1 items) as [s2 [ts cs]]. cbn [fst] in *. congruence.
  - specialize (IH s). destruct (blocks s items) as [s2 [ts cs]]. exact IH.
Qed.

Lemma member_result id content name : member "tool_call_id" (repairedResult id content name) = Some (JStr id).
Proof. reflexivity. Qed.

Lemma repairToolResultMessage_ok s msg s' m : queued s ->
  repairToolResultMessage s msg = (s', m) -> queued s' /\ identified m.
Proof.
  intros Hs. unfold repairToolResultMessage.
  destruct (consumePendingToolCall s _ _) as [s1 [id name]] eqn:Hc. intros [= <- <-].
  apply consume_queued in Hc as [H1 H2]; [|done]. split; [done|]. intros _. by exists id.
Qed.

(** Text between results is not a result. *)
Lemma flushText_ok r texts : ToLower (TrimSpace r) = r -> r ∉ ["tool"; "function"] -> Forall identified (flushText r texts).
Proof.
  intros Hn Hr. unfold flushText. destruct (bool_decide (texts = [])); [constructor|].
  constructor; [|constructor]. intros H. exfalso. revert H. unfold roleOf, message. cbn [member].
  change (bool_decide ("role" = "role")) with true. cbn iota. cbn [asString].
  destruct (bool_decide (TrimSpace r = "")) eqn:Hb; [|by rewrite Hn]. change (ToLower (TrimSpace "user")) with "user". set_solver.
Qed.

Lemma splitResults_ok s r texts found items s' found' out : queued s -> ToLower (TrimSpace r) = r -> r ∉ ["tool"; "function"] ->
  splitResults s r texts found items = (s', (found', out)) -> queued s' /\ Forall identified out.
Proof.
  intros Hs Hn Hr. revert s texts found s' found' out Hs. induction items as [|x items IH]; intros s texts found s' found' out Hs.
  { intros [= <- <- <-]. split; [done|]. by apply flushText_ok. }
  destruct x; cbn [splitResults]; try (by apply IH).
  destruct (isToolResultBlock members); [|by apply IH].
  destruct (repairToolResultMessage s members) as [s1 m] eqn:Hm. apply repairToolResultMessage_ok in Hm as [H1 Hm]; [|done].
  destruct (splitResults s1 r [] true items) as [s2 [f2 out2]] eqn:H2. apply IH in H2 as [H2 Ho]; [|done].
  intros [= <- <- <-]. split; [done|]. apply Forall_app. split; [by apply flushText_ok|by constructor].
Qed.

Lemma splitOrKeep_ok s role msg s' out : queued s -> role = roleOf msg -> asciiRole msg -> role ∉ ["tool"; "function"] ->
  splitOrKeep s role msg = (s', out) -> queued s' /\ Forall identified out.
Proof.
  intros Hs -> Ha Hr. pose proof (roleOf_normal msg Ha) as [Hasc Hn].
  assert (forall s' out, repairToolResultsFromContent s (roleOf msg) (member "content" msg) = (s', out) -> queued s' /\ Forall identified out) as Hc.
  { intros s1 o. unfold repairToolResultsFromContent.
    assert (forall block s1 o, (let '(s, r) := repairToolResultMessage s block in (s, [r])) = (s1, o) -> queued s1 /\ Forall identified o) as Hb.
    { intros block s2 o2. destruct (repairToolResultMessage s block) as [s3 m] eqn:Hm. intros [= <- <-].
      apply repairToolResultMessage_ok in Hm as [H1 H2]; [|done]. split; [done|by repeat constructor]. }
    assert (forall v s1 o, match resultBlock v with Some block => let '(s, r) := repairToolResultMessage s block in (s, [r]) | None => (s, []) end = (s1, o) ->
      queued s1 /\ Forall identified o) as Hv.
    { intros v s2 o2. destruct (resultBlock v) as [block|]; [apply Hb|]. intros [= <- <-]. by split; [|constructor]. }
    destruct (member "content" msg) as [[| | | |[|x items]|]|]; try apply Hv.
    destruct (splitResults s (normalizeOpenAIRoleForPrompt (roleOf msg)) [] false (x :: items)) as [s2 [f2 o2]] eqn:H2.
    intros [= <- <-]. apply splitResults_ok in H2 as [H2 Ho]; [|done|..].
    - split; [done|]. by destruct f2.
    - unfold normalizeOpenAIRoleForPrompt. rewrite Hn. by destruct (bool_decide (roleOf msg = "developer")).
    - unfold normalizeOpenAIRoleForPrompt. rewrite Hn. destruct (bool_decide (roleOf msg = "developer")); [set_solver|done]. }
  unfold splitOrKeep. destruct (repairToolResultsFromContent s (roleOf msg) (member "content" msg)) as [s1 o] eqn:H1.
  destruct (Hc _ _ eq_refl) as [Hq Ho]. destruct o as [|m o]; intros [= <- <-]; [|done].
  split; [done|]. constructor; [|constructor]. by intros ?.
Qed.

Lemma member_set_ne k k' v m : k <> k' -> member k (UpstreamSession.setMember k' v m) = member k m.
Proof.
  intros Hne. unfold UpstreamSession.setMember. induction m as [|[k2 v2] m IH]; [done|]. rewrite fmap_cons. cbn [fst].
  destruct (bool_decide (k2 = k')) eqn:H.
  - apply bool_decide_eq_true in H as ->. cbn [member]. by rewrite (bool_decide_eq_false_2 _ Hne).
  - cbn [member]. by rewrite IH.
Qed.
Lemma member_appended k m m' : member k (m ++ m') = match member k m with Some v => Some v | None => member k m' end.
Proof. induction m as [|[k2 v2] m IH]; [done|]. cbn [app member]. by destruct (bool_decide (k = k2)). Qed.
Lemma member_assign_ne k k' v m : k <> k' -> member k (assign k' v m) = member k m.
Proof.
  intros Hne. unfold assign. destruct (member k' m); [by apply member_set_ne|]. rewrite member_appended. cbn [member].
  rewrite (bool_decide_eq_false_2 _ Hne). by destruct (member k m).
Qed.
Lemma member_delete_ne k k' m : k <> k' -> member k (deleteMember k' m) = member k m.
Proof.
  intros Hne. unfold deleteMember. induction m as [|[k2 v2] m IH]; [done|]. destruct (decide (k2 = k')) as [->|H].
  - rewrite filter_cons_False by (cbn; naive_solver). cbn [member]. by rewrite (bool_decide_eq_false_2 _ Hne).
  - rewrite filter_cons_True by done. cbn [member]. by rewrite IH.
Qed.

Lemma not_result m : roleOf m = "assistant" -> identified m.
Proof. intros H Hr. rewrite H in Hr. set_solver. Qed.
Lemma roleOf_assign_calls v m : roleOf (assign "tool_calls" v m) = roleOf m.
Proof. unfold roleOf. by rewrite member_assign_ne. Qed.

Lemma repairByRole_ok s msg s' out : queued s -> asciiRole msg ->
  repairByRole Marshal showFloat decodesTwice s (roleOf msg) msg = (s', out) -> queued s' /\ Forall identified out.
Proof.
  intros Hs Ha. unfold repairByRole. destruct (decide (roleOf msg = "assistant")) as [Hr|Hr].
  { rewrite (bool_decide_eq_true_2 _ Hr). unfold repairAssistantContentBlocks, repairToolCalls.
    assert (forall s1, pending s1 = pending s -> queued s1) as Hq by (intros s1 He; unfold queued; by rewrite He).
    assert (forall s1, queued s1 -> (let '(s, calls) := let '(s, calls) := repairCalls Marshal decodesTwice s1 match member "tool_calls" msg with
      Some (JArr l) => l | Some (JObj m) => [JObj m] | _ => [] end in (recordPendingToolCalls s calls, calls) in
      (s, [if bool_decide (calls = []) then msg else assign "tool_calls" (JArr calls) msg])) = (s', out) -> queued s' /\ Forall identified out) as Hc.
    { intros s1 H1. pose proof (repairCalls_pending s1 match member "tool_calls" msg with Some (JArr l) => l | Some (JObj m) => [JObj m] | _ => [] end) as Hp.
      destruct (repairCalls _ _ s1 _) as [s2 cs]. intros [= <- <-]. split; [apply record_queued; unfold queued in *; cbn [fst] in Hp; by rewrite Hp|].
      constructor; [|constructor]. apply not_result. destruct (bool_decide (cs = [])); [done|by rewrite roleOf_assign_calls]. }
    destruct (member "content" msg) as [[| | | |items|]|]; try (by apply Hc).
    pose proof (blocks_pending s items) as Hp. destruct (blocks s items) as [s1 [texts calls]]. cbn [fst] in Hp.
    destruct (bool_decide (calls = [])); [by apply Hc, Hq|]. intros [= <- <-]. split; [by apply record_queued, Hq|].
    constructor; [|constructor]. apply not_result. rewrite roleOf_assign_calls.
    destruct (bool_decide (texts = [])); unfold roleOf in *; rewrite ?member_assign_ne, ?member_delete_ne by done; done. }
  rewrite (bool_decide_eq_false_2 _ Hr). destruct (decide (roleOf msg ∈ ["tool"; "function"])) as [Ht|Ht].
  { rewrite (bool_decide_eq_true_2 _ Ht). unfold single. destruct (repairToolResultMessage s msg) as [s1 m] eqn:Hm. intros [= <- <-].
    apply repairToolResultMessage_ok in Hm as [H1 H2]; [|done]. split; [done|by repeat constructor]. }
  rewrite (bool_decide_eq_false_2 _ Ht). destruct (bool_decide (roleOf msg = "user") && hasToolResultShape msg).
  - unfold single. destruct (repairToolResultMessage s msg) as [s1 m] eqn:Hm. intros [= <- <-].
    apply repairToolResultMessage_ok in Hm as [H1 H2]; [|done]. split; [done|by repeat constructor].
  - by apply splitOrKeep_ok.
Qed.

Lemma repairMessage_ok s msg s' out : queued s -> asciiRole msg ->
  repairOpenAIToolMessage Marshal showFloat decodesTwice s msg = (s', out) -> queued s' /\ Forall identified out.
Proof.
  intros Hs Ha. unfold repairOpenAIToolMessage. destruct (bool_decide (roleOf msg = "")); cbn [negb]; [|by apply repairByRole_ok].
  destruct (bool_decide (kindOf msg ∈ ["function_call_output"; "tool_result"; "tooloutput"; "tool_output"])).
  { unfold single. destruct (repairToolResultMessage s msg) as [s1 m] eqn:Hm. intros [= <- <-].
    apply repairToolResultMessage_ok in Hm as [H1 H2]; [|done]. split; [done|by repeat constructor]. }
  destruct (bool_decide (kindOf msg ∈ _)); [|by apply repairByRole_ok].
  unfold assistantMessageFromToolCallItem. pose proof (repairToolCall_pending s msg) as Hp.
  destruct (repairCall s msg) as [s1 [call|]]; cbn [fst] in Hp.
  - intros [= <- <-]. split; [apply record_queued; unfold queued in *; by rewrite Hp|]. constructor; [|constructor]. by apply not_result.
  - apply repairByRole_ok; [|done]. unfold queued in *. by rewrite Hp.
Qed.

(** Whatever shapes a client sends, every tool message of the repaired history says which call it
    answers, with an identifier that is not empty. *)
Theorem results_identified (raw : list json) : (forall msg, JObj msg ∈ raw -> asciiRole msg) ->
  Forall identified (repairOpenAIToolMessages Marshal showFloat decodesTwice raw).
Proof.
  intros Hraw. unfold repairOpenAIToolMessages. assert (queued {| pending := []; nextID := 0 |}) as Hs by constructor.
  revert Hs. generalize {| pending := []; nextID := 0 |}. induction raw as [|x raw IH]; intros s Hs; [constructor|].
  assert (forall msg, JObj msg ∈ raw -> asciiRole msg) as Hr by (intros; apply Hraw; by right).
  destruct x; cbn [repairFrom]; try (by apply IH).
  destruct (repairOpenAIToolMessage _ _ _ s members) as [s1 out] eqn:H1. apply repairMessage_ok in H1 as [H1 Ho]; [|done|apply Hraw; by left].
  specialize (IH Hr s1 H1). destruct (repairFrom _ _ _ s1 raw) as [s2 more]. by apply Forall_app.
Qed.
End Identified.

(** ** Conversations that follow the protocol *)

(** What a client says in the standard shapes: text, calls with identifier, name and arguments, and
    results, with the identifier of the call or without one. *)
Inductive turn :=
| Say (role text : string)
| Calls (text : option string) (calls : list (string * string * string))
| Result (id : option string) (content : json).

Definition encodeCall (c : string * string * string) : json :=
  JObj [("id", JStr c.1.1); ("type", JStr "function"); ("function", JObj [("name", JStr c.1.2); ("arguments", JStr c.2)])].
Definition waitingCall (c : string * string * string) : pendingToolCall := {| ID := c.1.1; Name := c.1.2 |}.

Definition encode (t : turn) : jmap :=
  match t with
  | Say role text => message role text
  | Calls text calls => [("role", JStr "assistant")] ++ match text with Some x => [("content", JStr x)] | None => [] end ++
                        [("tool_calls", JArr (encodeCall <$> calls))]
  | Result id content => [("role", JStr "tool")] ++ match id with Some i => [("tool_call_id", JStr i)] | None => [] end ++ [("content", content)]
  end.

(** The result as it is passed on: with the identifier and the name of the call it answers. *)
Definition answer (p : pendingToolCall) (content : json) : jmap :=
  [("role", JStr "tool"); ("tool_call_id", JStr (ID p)); ("content", content); ("name", JStr (Name p))].

(** The waiting call that a result answers, and those that go on waiting: the first call with the
    identifier, or the oldest one. *)
Inductive answers : option string -> list pendingToolCall -> pendingToolCall -> list pendingToolCall -> Prop :=
| answers_oldest p l : answers None (p :: l) p l
| answers_named i l1 p l2 : ID p = i -> Forall (fun q => ID q <> i) l1 -> answers (Some i) (l1 ++ p :: l2) p (l1 ++ l2).

(** The protocol: calls wait, and a result answers one of them.  [passed waiting l out]: with these
    calls waiting the turns [l] are passed on as [out]. *)
Inductive passed : list pendingToolCall -> list turn -> list jmap -> Prop :=
| passed_end waiting : passed waiting [] []
| passed_say waiting role text l out : passed waiting l out -> passed waiting (Say role text :: l) (encode (Say role text) :: out)
| passed_calls waiting text calls l out : passed (waiting ++ (waitingCall <$> calls)) l out ->
    passed waiting (Calls text calls :: l) (encode (Calls text calls) :: out)
| passed_result waiting id content p rest l out : answers id waiting p rest -> passed rest l out ->
    passed waiting (Result id content :: l) (answer p content :: out).

(** A text that trimming leaves alone and that is not empty. *)
Definition word (s : string) : bool := bool_decide (TrimSpace s = s) && negb (bool_decide (s = "")).
Lemma word_spec s : word s = true -> TrimSpace s = s /\ s <> "".
Proof. unfold word. rewrite andb_true_iff, negb_true_iff, bool_decide_eq_true, bool_decide_eq_false. done. Qed.

Lemma read_word (m : jmap) (k : string) (ks : list string) (s : string) :
  member k m = Some (JStr s) -> word s = true -> read m (k :: ks) = s.
Proof.
  intros Hm [Ht Hs]%word_spec. unfold read. cbn [fmap list_fmap firstNonEmptyString]. rewrite Hm. cbn [asString]. rewrite Ht.
  by rewrite (bool_decide_eq_false_2 _ Hs).
Qed.
Lemma read_skip (m : jmap) (k : string) (ks : list string) : member k m = None -> read m (k :: ks) = read m ks.
Proof. intros Hm. unfold read. cbn [fmap list_fmap firstNonEmptyString]. by rewrite Hm. Qed.

Section Protocol.
Variable Marshal : json -> option string.
Variable showFloat : Z -> positive -> string.
Variable decodesTwice : string -> bool.
Notation Stringify := (StringifyToolCallArguments Marshal decodesTwice).
Notation repair := (repairOpenAIToolMessages Marshal showFloat decodesTwice).

Definition wellCall (c : string * string * string) : bool :=
  word c.1.1 && word c.1.2 && bool_decide (Stringify (Some (JStr c.2)) = c.2).

Definition wellTurn (t : turn) : bool :=
  match t with
  | Say role text => bool_decide (role ∈ ["user"; "system"; "developer"; "assistant"])
  | Calls text calls => negb (bool_decide (calls = [])) && forallb wellCall calls
  | Result id content => match id with Some i => word i | None => true end && negb (isNil (Some content)) &&
                         bool_decide (resultBlock (Some content) = None)
  end.

Lemma repairToolCall_well s c : wellCall c = true ->
  repairToolCall Marshal decodesTwice s [("id", JStr c.1.1); ("type", JStr "function"); ("function", JObj [("name", JStr c.1.2); ("arguments", JStr c.2)])] =
  (s, Some (encodeCall c)).
Proof.
  unfold wellCall. rewrite !andb_true_iff, bool_decide_eq_true. intros [[Hi Hn] Ha]. unfold repairToolCall.
  change (isObject (member "function" _)) with (Some [("name", JStr c.1.2); ("arguments", JStr c.2)]). cbn iota.
  assert (forall m : jmap, m = [("id", JStr c.1.1); ("type", JStr "function"); ("function", JObj [("name", JStr c.1.2); ("arguments", JStr c.2)])] ->
    read m callNameKeys = "" /\ firstExisting m argumentKeys = None /\ read m callIDKeys = c.1.1) as Hm.
  { intros m ->. split_and!; [reflexivity|reflexivity|]. by apply read_word. }
  destruct (Hm _ eq_refl) as (-> & -> & ->). change (bool_decide ("" = "")) with true. cbn iota.
  assert (read [("name", JStr c.1.2); ("arguments", JStr c.2)] functionNameKeys = c.1.2) as -> by (by apply read_word).
  apply word_spec in Hn as [_ Hn], Hi as [_ Hi]. rewrite (bool_decide_eq_false_2 _ Hn), (bool_decide_eq_false_2 _ Hi).
  change (isNil None) with true. cbn iota. change (firstExisting _ argumentKeys) with (Some (JStr c.2)). by rewrite Ha.
Qed.

Lemma repairCalls_well s cs : forallb wellCall cs = true -> repairCalls Marshal decodesTwice s (encodeCall <$> cs) = (s, encodeCall <$> cs).
Proof.
  induction cs as [|c cs IH]; [done|]. cbn [forallb]. rewrite andb_true_iff. intros [Hc Hcs].
  rewrite fmap_cons. unfold encodeCall at 1, repairedCall. cbn [repairCalls]. by rewrite repairToolCall_well, IH.
Qed.

Lemma pendingOf_well cs : forallb wellCall cs = true -> omap pendingOf (encodeCall <$> cs) = waitingCall <$> cs.
Proof.
  induction cs as [|c cs IH]; [done|]. cbn [forallb]. rewrite andb_true_iff. intros [Hc Hcs]. rewrite !fmap_cons.
  change (omap pendingOf (encodeCall c :: (encodeCall <$> cs))) with
    (match pendingOf (encodeCall c) with Some p => p :: omap pendingOf (encodeCall <$> cs) | None => omap pendingOf (encodeCall <$> cs) end).
  rewrite (IH Hcs). unfold wellCall in Hc. rewrite !andb_true_iff in Hc. destruct Hc as [[Hi Hn] _].
  assert (pendingOf (encodeCall c) = Some (waitingCall c)) as ->; [|done]. unfold encodeCall, repairedCall, pendingOf.
  assert (forall m : jmap, m = [("id", JStr c.1.1); ("type", JStr "function"); ("function", JObj [("name", JStr c.1.2); ("arguments", JStr c.2)])] ->
    read m ["id"; "call_id"; "tool_call_id"; "callId"; "toolCallId"] = c.1.1 /\ read m ["name"] = "") as Hm.
  { intros m ->. split; [by apply read_word|reflexivity]. }
  destruct (Hm _ eq_refl) as [-> ->]. apply word_spec in Hi as [_ Hi]. rewrite (bool_decide_eq_false_2 _ Hi).
  change (bool_decide ("" = "")) with true. cbn iota. change (isObject _) with (Some [("name", JStr c.1.2); ("arguments", JStr c.2)]). cbn iota.
  assert (read [("name", JStr c.1.2); ("arguments", JStr c.2)] ["name"] = c.1.2) as -> by (by apply read_word). done.
Qed.

Lemma step_say s role text : bool_decide (role ∈ ["user"; "system"; "developer"; "assistant"]) = true ->
  repairOpenAIToolMessage Marshal showFloat decodesTwice s (message role text) = (s, [message role text]).
Proof.
  intros H%bool_decide_eq_true. rewrite !elem_of_cons in H. destruct H as [->|[->|[->|[->|H%elem_of_nil]]]]; try done.
  assert (repairOpenAIToolMessage Marshal showFloat decodesTwice s (message "assistant" text) =
    (withPending s (pending s ++ []), [message "assistant" text])) as -> by done. rewrite app_nil_r. by destruct s.
Qed.

Lemma step_calls s text cs : cs <> [] -> forallb wellCall cs = true ->
  repairOpenAIToolMessage Marshal showFloat decodesTwice s (encode (Calls text cs)) =
  (withPending s (pending s ++ (waitingCall <$> cs)), [encode (Calls text cs)]).
Proof.
  intros Hne Hcs.
  assert (repairOpenAIToolMessage Marshal showFloat decodesTwice s (encode (Calls text cs)) =
    (let '(s, calls) := repairToolCalls Marshal decodesTwice s (Some (JArr (encodeCall <$> cs))) in
     (s, [if bool_decide (calls = []) then encode (Calls text cs) else assign "tool_calls" (JArr calls) (encode (Calls text cs))]))) as ->.
  { by destruct text. }
  unfold repairToolCalls. rewrite repairCalls_well by done. unfold recordPendingToolCalls. rewrite pendingOf_well by done.
  rewrite bool_decide_eq_false_2 by (by destruct cs). by destruct text.
Qed.

Lemma consume_head s i p l : word i = true -> takeFirst (fun p => bool_decide (ID p = i)) (pending s) = Some (p, l) ->
  consumePendingToolCall s i "" = (withPending s l, (ID p, Name p)).
Proof.
  intros [Hi Hn]%word_spec Ht. unfold consumePendingToolCall. rewrite Hi, (bool_decide_eq_false_2 _ Hn), Ht.
  apply takeFirst_spec in Ht as (_ & _ & _ & _ & Hp%bool_decide_eq_true & _). by rewrite Hp.
Qed.

Lemma consume_oldest s p l : pending s = p :: l -> consumePendingToolCall s "" "" = (withPending s l, (ID p, Name p)).
Proof.
  intros Hp. unfold consumePendingToolCall, consumeByName, consumeUnmatched. change (TrimSpace "") with "".
  change (bool_decide ("" = "")) with true. cbn iota. rewrite Hp, orb_true_r. done.
Qed.

Lemma takeFirst_named i l1 p l2 : ID p = i -> Forall (fun q => ID q <> i) l1 ->
  takeFirst (fun q => bool_decide (ID q = i)) (l1 ++ p :: l2) = Some (p, l1 ++ l2).
Proof.
  intros H. induction 1 as [|q l1 Hq _ IH]; cbn [app takeFirst]; [by rewrite bool_decide_eq_true_2|].
  by rewrite bool_decide_eq_false_2, IH.
Qed.

Lemma answers_kept id waiting p rest : answers id waiting p rest -> Forall (fun q => Name q <> "") waiting ->
  Name p <> "" /\ Forall (fun q => Name q <> "") rest.
Proof.
  intros []; [by intros []%Forall_cons|]. intros [H1 [H2 H3]%Forall_cons]%Forall_app. split; [done|]. by apply Forall_app.
Qed.

Lemma waiting_named cs : forallb wellCall cs = true -> Forall (fun q => Name q <> "") (waitingCall <$> cs).
Proof.
  intros H. apply Forall_fmap, Forall_forall. intros c Hc. apply list_elem_of_In in Hc. apply (proj1 (forallb_forall _ _) H) in Hc.
  unfold wellCall in Hc. rewrite !andb_true_iff in Hc. destruct Hc as [[_ Hn] _]. by apply word_spec in Hn as [_ Hn].
Qed.

Lemma step_result s id content p l : wellTurn (Result id content) = true ->
  answers id (pending s) p l -> Name p <> "" ->
  repairOpenAIToolMessage Marshal showFloat decodesTwice s (encode (Result id content)) = (withPending s l, [answer p content]).
Proof.
  cbn [wellTurn]. rewrite !andb_true_iff, negb_true_iff, bool_decide_eq_true. intros [[Hi Hc] Hb] Ht Hname.
  assert (repairOpenAIToolMessage Marshal showFloat decodesTwice s (encode (Result id content)) =
          single (repairToolResultMessage s (encode (Result id content)))) as -> by (by destruct id).
  unfold repairToolResultMessage.
  assert (resultContent (encode (Result id content)) = content) as ->.
  { unfold resultContent. assert (firstExisting (encode (Result id content)) contentKeys = Some content) as ->.
    { unfold contentKeys. destruct id; cbn [firstExisting]; change (member "content" _) with (Some content); by rewrite Hc. }
    by rewrite Hb. }
  assert (read (encode (Result id content)) callNameKeys = "") as -> by (by destruct id).
  assert (repairedResult (ID p) content (Name p) = answer p content) as E by (unfold repairedResult; by rewrite (bool_decide_eq_false_2 _ Hname)).
  destruct id as [i|].
  - assert (read (encode (Result (Some i) content)) resultIDKeys = i) as -> by (by apply read_word).
    rewrite (consume_head s i p l); [unfold single; cbn [fst snd]; by rewrite E|done|]. inversion Ht as [|? l1 ? l2 H1 H2 He]; subst. by apply takeFirst_named.
  - change (read (encode (Result None content)) resultIDKeys) with "". inversion Ht as [? ? He|]; subst.
    rewrite (consume_oldest s p l) by done. unfold single. cbn [fst snd]. by rewrite E.
Qed.

(** C18. A history that follows the protocol of tool calls keeps its meaning: every message, of
    whatever role, with text or calls, passes unchanged and in its place, and every result is passed on
    with its own content and with the identifier and the name of the call it answers, the first waiting
    one with the identifier it has, or the oldest waiting one if it has none. *)
Theorem conversation_preserved (l : list turn) (out : list jmap) :
  forallb wellTurn l = true -> passed [] l out -> repair (JObj ∘ encode <$> l) = out.
Proof.
  intros Hw Ha. unfold repairOpenAIToolMessages.
  assert (forall waiting, passed waiting l out -> Forall (fun q => Name q <> "") waiting -> forall s, pending s = waiting ->
    (repairFrom Marshal showFloat decodesTwice s (JObj ∘ encode <$> l)).2 = out) as H; [|by apply (H [])].
  clear Ha. intros waiting Ha. induction Ha as [waiting|waiting role text l out _ IH|waiting text cs l out _ IH|waiting id content p rest l out Hp _ IH];
    intros Hn s Hs; [done|..]; cbn [forallb] in Hw; apply andb_true_iff in Hw as [Ht Hw]; specialize (IH Hw); rewrite fmap_cons;
    change ((JObj ∘ encode) ?t) with (JObj (encode t)); cbn [repairFrom].
  - change (encode (Say role text)) with (message role text). rewrite step_say by exact Ht.
    specialize (IH Hn s Hs). destruct (repairFrom _ _ _ s _) as [s2 more]. cbn [snd] in *. by subst.
  - cbn [wellTurn] in Ht. apply andb_true_iff in Ht as [Hne Hcs]. apply negb_true_iff, bool_decide_eq_false in Hne.
    rewrite step_calls by done. rewrite Hs. specialize (IH ltac:(apply Forall_app; split; [done|by apply waiting_named]) (withPending s (waiting ++ (waitingCall <$> cs))) eq_refl).
    destruct (repairFrom _ _ _ _ _) as [s2 more]. cbn [snd] in *. by subst.
  - rewrite <- Hs in Hp, Hn. destruct (answers_kept _ _ _ _ Hp Hn) as [Hname Hrest]. rewrite (step_result s id content p rest Ht Hp Hname).
    specialize (IH Hrest (withPending s rest) eq_refl). destruct (repairFrom _ _ _ (withPending s rest) _) as [s2 more]. cbn [snd] in *. by subst.
Qed.
End Protocol.

Lemma results_identified_witness : Forall identified (repairOpenAIToolMessages (fun _ => None) (fun _ _ => "") (fun _ => false)
    [JObj [("role", JStr "tool"); ("content", JStr "42")]]).
Proof.
  apply (results_identified (fun _ => None) (fun _ _ => "") (fun _ => false)).
  intros msg H. apply list_elem_of_singleton in H. by injection H as ->.
Defined.

(** Two calls, answered out of order: the first result names its call, the second does not. *)
Lemma conversation_preserved_witness :
  repairOpenAIToolMessages (fun _ => None) (fun _ _ => "") (fun _ => false)
    (JObj ∘ encode <$> [Say "user" "go"; Calls None [("a", "read", "{}"); ("b", "write", "{}")]; Result (Some "b") (JStr "done"); Result None (JStr "text");
                        Say "assistant" "ready"]) =
  [message "user" "go"; encode (Calls None [("a", "read", "{}"); ("b", "write", "{}")]);
   answer {| ID := "b"; Name := "write" |} (JStr "done"); answer {| ID := "a"; Name := "read" |} (JStr "text"); message "assistant" "ready"].
Proof.
  apply (conversation_preserved (fun _ => None) (fun _ _ => "") (fun _ => false)); [reflexivity|].
  apply passed_say, passed_calls. eapply (passed_result _ _ _ _ [_]).
  { apply (answers_named "b" [{| ID := "a"; Name := "read" |}] {| ID := "b"; Name := "write" |} []); [reflexivity|]. constructor; [discriminate|constructor]. }
  eapply passed_result; [apply answers_oldest|]. apply passed_say, passed_end.
Defined.

(** Calls among the blocks of a message replace the calls listed beside them. *)
Example listed_calls_lost :
  repairOpenAIToolMessages (fun _ => None) (fun _ _ => "") (fun _ => false)
    [JObj [("role", JStr "assistant");
           ("content", JArr [JObj [("type", JStr "tool_use"); ("id", JStr "a"); ("name", JStr "read")]]);
           ("tool_calls", JArr [repairedCall "b" "write" "{}"])]] =
  [[("role", JStr "assistant"); ("tool_calls", JArr [repairedCall "a" "read" "{}"])]].
Proof. reflexivity. Qed.

(** A thinking block beside a call is dropped. *)
Example thinking_beside_call_lost :
  repairOpenAIToolMessages (fun _ => None) (fun _ _ => "") (fun _ => false)
    [JObj [("role", JStr "assistant");
           ("content", JArr [JObj [("type", JStr "thinking"); ("thinking", JStr "plan")];
                             JObj [("type", JStr "tool_use"); ("id", JStr "a"); ("name", JStr "read")]])]] =
  [[("role", JStr "assistant"); ("tool_calls", JArr [repairedCall "a" "read" "{}"])]].
Proof. reflexivity. Qed.
