(* ===== verification/Transcript.v ===== *)
(** Messages for the prompt and the transcript of a conversation:
    [internal/promptcompat/message_normalize.go] and [history_transcript.go].

    Repaired messages become role and text; a history becomes a numbered transcript.  In the
    transcript that is kept between turns, the volatile fields of the metadata blocks that some
    clients put into every message are removed.  The JSON codec is a parameter. *)
From S2P Require Import Prelude GoString GoText Json Affinity PromptText ToolRepair PrefixPlan.
From Stdlib Require Import Ascii.
Local Open Scope string_scope.
Local Open Scope list_scope.

(** ** Reasoning blocks *)

Definition assistantReasoningLabel : string := "reasoning_content".

Definition extractOpenAIReasoningTextFromItem (m : jmap) : string :=
  if bool_decide (kindOf m ∈ ["reasoning"; "thinking"]) then read m ["text"; "thinking"; "content"] else "".

Definition extractOpenAIReasoningTextFromItemMap (item : json) : string :=
  match item with JObj m => extractOpenAIReasoningTextFromItem m | _ => "" end.

Definition extractOpenAIReasoningPartsFromItems (items : list json) : list string :=
  filter (fun text => text <> "") (extractOpenAIReasoningTextFromItemMap <$> items).

Definition extractOpenAIReasoningContentFromMessage (v : anyValue) : string :=
  match v with
  | Some (JArr x) => Join (extractOpenAIReasoningPartsFromItems x) lf
  | Some (JObj m) => extractOpenAIReasoningTextFromItem m
  | _ => ""
  end.

Definition normalizeOpenAIReasoningContentForPrompt (v : anyValue) : string :=
  match v with
  | Some (JStr x) => x
  | v => extractOpenAIReasoningContentFromMessage v
  end.

Definition formatPromptLabeledBlock (label text : string) : string :=
  let label := TrimSpace label in
  let text := TrimSpace text in
  if bool_decide (label = "") then text else "[" +:+ label +:+ "]" +:+ lf +:+ text +:+ lf +:+ "[/" +:+ label +:+ "]".

(** ** Metadata blocks *)

(** [\s] of the pattern. *)
Definition patternSpace (c : ascii) : bool := bool_decide (c ∈ [" "; "009"; "010"; "012"; "013"]%char).
Fixpoint skipPatternSpace (s : string) : string :=
  match s with String c r => if patternSpace c then skipPatternSpace r else s | EmptyString => "" end.

Definition fence : string := "```".

(** The start of a metadata block: the text after [(?:Conversation info|Sender) ... json\s*\n?]. *)
Definition metadataStart (s : string) : option string :=
  match (match expect "Conversation info" s with Some r => Some r | None => expect "Sender" s end) with
  | Some r =>
      match expect " (untrusted metadata):" r with
      | Some r => match expect (fence +:+ "json") (skipPatternSpace r) with Some r => Some (skipPatternSpace r) | None => None end
      | None => None
      end
  | None => None
  end.

(** A match at the start of the text: its three groups and the rest.  The body ends at the first
    fence, and a line break before the fence belongs to the fence. *)
Definition matchMetadata (s : string) : option (string * string * string * string) :=
  match metadataStart s with
  | None => None
  | Some r =>
      match Index r fence with
      | None => None
      | Some i =>
          let head := strTake (String.length s - String.length r) s in
          let body := strTake i r in
          let rest := strDrop (i + 3) r in
          if HasSuffix body lf then Some (head, TrimSuffix body lf, lf +:+ fence, rest) else Some (head, body, fence, rest)
      end
  end.

Definition volatileFields : list string := ["message_id"; "timestamp"; "timestamp_ms"].

Fixpoint stripVolatileMetadataFields (value : json) : json :=
  match value with
  | JObj m => JObj ((fix fields (m : jmap) : jmap :=
                       match m with
                       | [] => []
                       | (k, v) :: m => if bool_decide (k ∈ volatileFields) then fields m else (k, stripVolatileMetadataFields v) :: fields m
                       end) m)
  | JArr l => JArr ((fix items (l : list json) : list json :=
                       match l with [] => [] | v :: l => stripVolatileMetadataFields v :: items l end) l)
  | v => v
  end.

Section Transcript.
Variable Marshal : json -> option string.
Variable MarshalIndent : json -> option string.
Variable Unmarshal : string -> option json.
Variable showFloat : Z -> positive -> string.
Variable decodesTwice : string -> bool.
Notation NormalizeOpenAIContentForPrompt := (NormalizeContent Marshal showFloat).
Notation FormatToolCalls := (FormatToolCallsForPrompt Marshal Unmarshal showFloat decodesTwice).

Definition canonicalizeMetadataJSON (raw : string) : option string :=
  match Unmarshal (TrimSpace raw) with
  | Some value => MarshalIndent (stripVolatileMetadataFields value)
  | None => None
  end.

(** [ReplaceAllStringFunc] of the pattern. *)
Fixpoint replaceMetadata (fuel : nat) (s : string) : string :=
  match fuel with
  | O => s
  | S fuel =>
      match matchMetadata s with
      | Some (head, body, close, rest) =>
          head +:+ default body (canonicalizeMetadataJSON body) +:+ close +:+ replaceMetadata fuel rest
      | None => match s with EmptyString => "" | String c s => String c (replaceMetadata fuel s) end
      end
  end.

Definition canonicalizeVolatileTranscriptText (text : string) : string :=
  if bool_decide (text = "") || negb (Contains text "untrusted metadata") then text else replaceMetadata (S (String.length text)) text.

(** ** Messages for the prompt *)

Definition buildAssistantContentForPrompt (msg : jmap) : string :=
  let content := TrimSpace (NormalizeOpenAIContentForPrompt (member "content" msg)) in
  let reasoning := TrimSpace (normalizeOpenAIReasoningContentForPrompt (member "reasoning_content" msg)) in
  let reasoning := if bool_decide (reasoning = "") then TrimSpace (extractOpenAIReasoningContentFromMessage (member "content" msg)) else reasoning in
  let toolHistory := FormatToolCalls (member "tool_calls" msg) in
  Join (filter (fun part => part <> "")
          [if bool_decide (reasoning = "") then "" else formatPromptLabeledBlock assistantReasoningLabel reasoning; content; toolHistory])
       (lf +:+ lf).

Definition buildToolContentForPrompt (msg : jmap) : string :=
  let content := NormalizeOpenAIContentForPrompt (member "content" msg) in
  if bool_decide (TrimSpace content = "") then "null" else content.

(** The message of the prompt, if the message says anything. *)
Definition normalizeMessage (msg : jmap) : option jmap :=
  let role := roleOf msg in
  if bool_decide (role = "assistant") then
    let content := buildAssistantContentForPrompt msg in
    if bool_decide (content = "") then None else Some (message "assistant" content)
  else if bool_decide (role ∈ ["tool"; "function"]) then Some (message "tool" (buildToolContentForPrompt msg))
  else if bool_decide (role ∈ ["user"; "system"; "developer"]) then
    Some (message (normalizeOpenAIRoleForPrompt role) (NormalizeOpenAIContentForPrompt (member "content" msg)))
  else
    let content := NormalizeOpenAIContentForPrompt (member "content" msg) in
    if bool_decide (content = "") then None
    else Some (message (normalizeOpenAIRoleForPrompt (if bool_decide (role = "") then "user" else role)) content).

Definition NormalizeOpenAIMessagesForPrompt (raw : list json) : list jmap :=
  omap normalizeMessage (repairOpenAIToolMessages Marshal showFloat decodesTwice raw).

(** ** The transcript *)

Definition historyTranscriptTitle : string := "# DEEPSEEK_WEB_TO_API_HISTORY.txt".
Definition historyTranscriptSummary : string := "Prior conversation history and tool progress.".

Definition buildToolHistoryContent (msg : jmap) : string :=
  let content := TrimSpace (NormalizeOpenAIContentForPrompt (member "content" msg)) in
  let name := TrimSpace (asString (member "name" msg)) in
  let callID := TrimSpace (asString (member "tool_call_id" msg)) in
  let parts := (if bool_decide (name = "") then [] else ["name=" +:+ name]) ++ (if bool_decide (callID = "") then [] else ["tool_call_id=" +:+ callID]) in
  let header := if bool_decide (parts = []) then "" else "[" +:+ Join parts " " +:+ "]" in
  if bool_decide (header = "") then content
  else if bool_decide (content = "") then header
  else header +:+ lf +:+ content.

Definition buildOpenAIHistoryEntry (role : string) (msg : jmap) (canonicalizeVolatileMetadata : bool) : string :=
  let content :=
    if bool_decide (role = "assistant") then buildAssistantContentForPrompt msg
    else if bool_decide (role ∈ ["tool"; "function"]) then buildToolHistoryContent msg
    else NormalizeOpenAIContentForPrompt (member "content" msg) in
  let content := TrimSpace content in
  if canonicalizeVolatileMetadata then TrimSpace (canonicalizeVolatileTranscriptText content) else content.

Definition roleLabelForHistory (role : string) : string :=
  let role := ToLower (TrimSpace role) in
  if bool_decide (role = "function") then "tool" else if bool_decide (role = "") then "unknown" else role.

(** The role and the text of a message's entry, if it has one. *)
Definition historyEntry (canonicalize : bool) (raw : json) : option (string * string) :=
  match raw with
  | JObj msg =>
      let role := normalizeOpenAIRoleForPrompt (roleOf msg) in
      let content := TrimSpace (buildOpenAIHistoryEntry role msg canonicalize) in
      if bool_decide (content = "") then None else Some (role, content)
  | _ => None
  end.

(** ["=== %d. %s ===\n%s\n\n"] *)
Definition showEntry (n : N) (e : string * string) : string :=
  "=== " +:+ pretty n +:+ ". " +:+ ToUpper (roleLabelForHistory e.1) +:+ " ===" +:+ lf +:+ e.2 +:+ lf +:+ lf.

(** The entries from number [n + 1] on. *)
Fixpoint showEntries (n : N) (l : list (string * string)) : string :=
  match l with
  | [] => ""
  | e :: l => showEntry (n + 1) e +:+ showEntries (n + 1) l
  end.

Definition transcriptBuilder (messages : list json) (canonicalize : bool) : string :=
  historyTranscriptTitle +:+ lf +:+ historyTranscriptSummary +:+ lf +:+ lf +:+ showEntries 0 (omap (historyEntry canonicalize) messages).

Definition buildOpenAIHistoryTranscript (messages : list json) (canonicalize : bool) : string :=
  match messages with
  | [] => ""
  | _ =>
      let transcript := TrimSpace (transcriptBuilder messages canonicalize) in
      if bool_decide (transcript = "") then "" else transcript +:+ lf
  end.

Definition BuildOpenAIHistoryTranscript (messages : list json) : string := buildOpenAIHistoryTranscript messages false.
Definition BuildOpenAICurrentInputContextTranscript (messages : list json) : string := buildOpenAIHistoryTranscript messages true.

Definition BuildOpenAICurrentUserInputTranscript (text : string) : string :=
  if bool_decide (TrimSpace text = "") then "" else buildOpenAIHistoryTranscript [JObj (message "user" text)] false.
End Transcript.

(** ** The transcript only grows *)

Lemma append_last_inj (s t : string) (c : ascii) : s +:+ String c "" = t +:+ String c "" -> s = t.
Proof.
  intros H. assert (TrimSuffix (s +:+ String c "") (String c "") = TrimSuffix (t +:+ String c "") (String c "")) as E by (by rewrite H).
  by rewrite !TrimSuffix_app in E.
Qed.

Lemma newline_lead (s X : string) : leadSpaceRev s = None -> s <> "" -> leadSpaceRev (s +:+ String "010" X) = None.
Proof.
  unfold leadSpaceRev, leadRest. destruct s as [|a [|b [|c s]]]; [done|..]; rewrite ?append_cons, ?append_nil_l; intros H _.
  - destruct (space1 a); [done|]. assert (space2 "010" a = false) as -> by (by destruct a as [[] [] [] [] [] [] [] []]).
    destruct X as [|x X]; [done|]. assert (space3 x "010" a = false) as ->; [|done].
    unfold space3. destruct (code x =? 0xE1)%N, (code x =? 0xE2)%N, (code x =? 0xE3)%N; by destruct a as [[] [] [] [] [] [] [] []].
  - destruct (space1 a); [done|]. destruct (space2 b a); [done|].
    assert (space3 "010" b a = false) as ->; [|done]. unfold space3. by destruct a as [[] [] [] [] [] [] [] []].
  - destruct (space1 a); [done|]. destruct (space2 b a); [done|]. by destruct (space3 c b a).
Qed.

Lemma TrimSpace_ends (s : string) : leadSpaceRev (strRev (TrimSpace s)) = None.
Proof.
  unfold TrimSpace, trimRightSpace. rewrite strRev_involutive.
  apply (trim_lead _ _ trimLeftSpaceRev trimLeftSpaceRev_eq).
Qed.

(** What starts with a plain byte and ends, after a line break, with trimmed text, loses only what follows. *)
Lemma trim_body (c : ascii) (X content : string) : plainByte c = true -> TrimSpace content = content -> content <> "" ->
  TrimSpace (String c X +:+ lf +:+ content +:+ lf +:+ lf) = String c X +:+ lf +:+ content.
Proof.
  intros Hc Ht Hne. set (body := String c X +:+ lf +:+ content).
  replace (String c X +:+ lf +:+ content +:+ lf +:+ lf) with (body +:+ lf +:+ lf) by (unfold body; by rewrite !append_assoc).
  unfold TrimSpace. rewrite (trim_fix _ _ trimLeftSpace trimLeftSpace_eq).
  2: { unfold body. rewrite !append_cons. by apply plain_leadSpace. }
  unfold trimRightSpace. rewrite !strRev_app. change (strRev lf) with lf.
  change (trimLeftSpaceRev ((lf +:+ lf) +:+ strRev body)) with (trimLeftSpaceRev (strRev body)).
  rewrite (trim_fix _ _ trimLeftSpaceRev trimLeftSpaceRev_eq); [apply strRev_involutive|].
  unfold body. rewrite !strRev_app. change (strRev lf) with lf. rewrite append_assoc. apply newline_lead.
  - rewrite <- Ht. apply TrimSpace_ends.
  - intros He. apply Hne. rewrite <- (strRev_involutive content), He. done.
Qed.

(** The text of an entry: trimmed and not empty. *)
Definition trimmedText (s : string) : Prop := TrimSpace s = s /\ s <> "".

Lemma entries_shape (es : list (string * string)) (n : N) (c : string) : trimmedText c -> Forall (fun e => trimmedText e.2) es ->
  exists X d, lf +:+ c +:+ lf +:+ lf +:+ showEntries n es = X +:+ lf +:+ d +:+ lf +:+ lf /\ trimmedText d.
Proof.
  intros Hc Hes. revert n c Hc. induction Hes as [|e es He _ IH]; intros n c Hc.
  { exists "", c. split; [|done]. cbn [showEntries]. by rewrite append_nil_r. }
  destruct (IH (n + 1)%N e.2 He) as (X & d & HX & Hd).
  exists (lf +:+ c +:+ lf +:+ lf +:+ "=== " +:+ pretty (n + 1)%N +:+ ". " +:+ ToUpper (roleLabelForHistory e.1) +:+ " ===" +:+ X), d. split; [|done].
  cbn [showEntries]. unfold showEntry. rewrite !append_assoc, HX. done.
Qed.

Lemma showEntries_app (n : N) (l l' : list (string * string)) :
  showEntries n (l ++ l') = showEntries n l +:+ showEntries (n + N.of_nat (length l)) l'.
Proof.
  revert n. induction l as [|e l IH]; intros n; [cbn; by rewrite N.add_0_r|].
  change ((e :: l) ++ l') with (e :: (l ++ l')). cbn [showEntries]. rewrite IH, append_assoc.
  by replace (n + N.of_nat (length (e :: l)))%N with (n + 1 + N.of_nat (length l))%N by (cbn [length]; lia).
Qed.

Lemma showEntries_end (n : N) (l : list (string * string)) : l <> [] -> exists r, showEntries n l = r +:+ lf.
Proof.
  revert n. induction l as [|e l IH]; [done|]. intros n _. cbn [showEntries]. unfold showEntry. destruct l as [|e' l].
  - exists ("=== " +:+ pretty (n + 1)%N +:+ ". " +:+ ToUpper (roleLabelForHistory e.1) +:+ " ===" +:+ lf +:+ e.2 +:+ lf).
    cbn [showEntries]. by rewrite !append_assoc.
  - destruct (IH (n + 1)%N) as [r ->]; [done|].
    exists (("=== " +:+ pretty (n + 1)%N +:+ ". " +:+ ToUpper (roleLabelForHistory e.1) +:+ " ===" +:+ lf +:+ e.2 +:+ lf +:+ lf) +:+ r).
    by rewrite !append_assoc.
Qed.

Section Grows.
Variable Marshal : json -> option string.
Variable MarshalIndent : json -> option string.
Variable Unmarshal : string -> option json.
Variable showFloat : Z -> positive -> string.
Variable decodesTwice : string -> bool.
Variable canonicalize : bool.
Notation entry := (historyEntry Marshal MarshalIndent Unmarshal showFloat decodesTwice canonicalize).
Notation builder ms := (transcriptBuilder Marshal MarshalIndent Unmarshal showFloat decodesTwice ms canonicalize).
Notation transcript ms := (buildOpenAIHistoryTranscript Marshal MarshalIndent Unmarshal showFloat decodesTwice ms canonicalize).

Lemma entry_trimmed (m : json) (e : string * string) : entry m = Some e -> trimmedText e.2.
Proof.
  destruct m as [| | | | |msg]; try done. unfold historyEntry. cbn zeta.
  set (content := TrimSpace (buildOpenAIHistoryEntry _ _ _ _ _ _ _ _)).
  destruct (bool_decide (content = "")) eqn:H; [done|]. intros [= <-]. split; [apply TrimSpace_idem|by apply bool_decide_eq_false in H].
Qed.

(** The text that is built is the transcript and one more line break. *)
Lemma transcript_builder (ms : list json) : ms <> [] -> transcript ms +:+ lf = builder ms /\ TrimSpace (transcript ms) +:+ lf = transcript ms.
Proof.
  intros Hms.
  assert (Forall (fun e => trimmedText e.2) (omap entry ms)) as Hes.
  { apply Forall_forall. intros e He. apply list_elem_of_omap in He as (m & _ & Hm). by apply entry_trimmed in Hm. }
  destruct (entries_shape (omap entry ms) 0 historyTranscriptSummary) as (X & d & HX & [Hd Hne]); [done|done|].
  assert (builder ms = String "#" (strDrop 1 historyTranscriptTitle +:+ X) +:+ lf +:+ d +:+ lf +:+ lf) as Hb.
  { unfold transcriptBuilder. rewrite HX. change historyTranscriptTitle with (String "#" "" +:+ strDrop 1 historyTranscriptTitle) at 1.
    rewrite !append_assoc. reflexivity. }
  assert (TrimSpace (builder ms) = String "#" (strDrop 1 historyTranscriptTitle +:+ X) +:+ lf +:+ d) as Ht by (rewrite Hb; by apply trim_body).
  assert (transcript ms = TrimSpace (builder ms) +:+ lf) as Hm.
  { unfold buildOpenAIHistoryTranscript. destruct ms; [done|]. rewrite bool_decide_eq_false_2; [done|]. rewrite Ht. done. }
  split.
  - rewrite Hm, Ht, Hb, !append_assoc. done.
  - rewrite Hm. change lf with newlineStr. by rewrite TrimSpace_newline.
Qed.

Lemma builder_app (ms more : list json) :
  builder (ms ++ more) = builder ms +:+ showEntries (N.of_nat (length (omap entry ms))) (omap entry more).
Proof. unfold transcriptBuilder. by rewrite omap_app, showEntries_app, !append_assoc. Qed.

(** The transcript of a conversation that goes on begins, byte for byte, with the transcript
    of the conversation so far. *)
Lemma transcript_prefix (ms more : list json) : exists r, transcript (ms ++ more) = transcript ms +:+ r.
Proof.
  destruct ms as [|m ms]; [by exists (transcript more)|].
  destruct (transcript_builder (m :: ms)) as [H1 _]; [done|]. destruct (transcript_builder ((m :: ms) ++ more)) as [H2 _]; [done|].
  rewrite builder_app, <- H1 in H2. destruct (omap entry more) as [|e es] eqn:He.
  - cbn [showEntries] in H2. rewrite append_nil_r in H2. apply append_last_inj in H2. exists "". by rewrite append_nil_r.
  - destruct (showEntries_end (N.of_nat (length (omap entry (m :: ms)))) (e :: es)) as [r Hr]; [done|]. rewrite Hr in H2.
    exists (lf +:+ r). apply (append_last_inj _ _ "010"). change (String "010" "") with lf. by rewrite H2, !append_assoc.
Qed.
End Grows.

(** ** The next turn reuses the prefix *)

Lemma trimLeftByte_app (c : ascii) (a b : string) :
  trimLeftByte c (a +:+ b) = trimLeftByte c b \/ exists a', trimLeftByte c (a +:+ b) = a' +:+ b.
Proof.
  induction a as [|x a IH]; [by left|]. rewrite append_cons. cbn [trimLeftByte]. destruct (bool_decide _); [exact IH|]. right. by exists (String x a).
Qed.

Lemma trimLeftByte_rest (c : ascii) (s : string) : exists a, s = a +:+ trimLeftByte c s.
Proof.
  induction s as [|x s [a IH]]; [by exists ""|]. cbn [trimLeftByte]. destruct (bool_decide _); [|by exists ""].
  exists (String x a). by rewrite append_cons, <- IH.
Qed.

(** More text leaves the trimmed text a prefix of the trimmed text. *)
Lemma newlines_prefix (s r : string) : exists x, trimRightNewlines (s +:+ r) = trimRightNewlines s +:+ x.
Proof.
  unfold trimRightNewlines. rewrite strRev_app. destruct (trimLeftByte_app "010" (strRev r) (strRev s)) as [->|[a ->]]; [exists ""; by rewrite append_nil_r|].
  destruct (trimLeftByte_rest "010" (strRev s)) as [b E]. exists (strRev b +:+ strRev a).
  rewrite strRev_app. rewrite E at 1. by rewrite strRev_app, append_assoc.
Qed.

Lemma shorter_prefix (s t x y : string) : t +:+ y = s +:+ x -> String.length s <= String.length t -> exists r, t = s +:+ r.
Proof.
  revert t. induction s as [|c s IH]; intros t E L; [by exists t|]. destruct t as [|d t]; [cbn in L; lia|].
  rewrite !append_cons in E. injection E as -> E. destruct (IH t E) as [r ->]; [cbn in L; lia|]. by exists r.
Qed.

(** C20. From turn to turn.  When a turn's transcript was cut into a fresh prefix and a tail, the next
    turn of that conversation, whatever was said meanwhile, is cut again, without losing a byte of its
    transcript, after a stored prefix that begins with the earlier one, so that the two turns' messages
    begin with the same bytes, those of the earlier prefix up to its last line breaks; as long as the
    rest is not too long, the entry is within its time to live and the store within its limit. *)
Theorem next_turn_reuses Marshal MarshalIndent Unmarshal showFloat decodesTwice iter (key : string) (ms more : list json)
  (now1 now2 now3 now4 : Z) (states states1 : prefixStates) (body : string) (p : currentInputPrefixPlan) :
  let transcript := BuildOpenAICurrentInputContextTranscript Marshal MarshalIndent Unmarshal showFloat decodesTwice in
  ms <> [] ->
  applyCurrentInputInlinePrefix iter key (transcript ms) now1 now2 states = (states1, Some (body, p)) -> Reused p = false ->
  (size states1 <= 2048)%nat -> (timeSub now3 now2 <= currentInputPrefixTTL)%Z ->
  (len (transcript (ms ++ more)) - len (planPrefix p) <= currentInputMaxTailChars)%Z ->
  exists states2 body2 q, applyCurrentInputInlinePrefix iter key (transcript (ms ++ more)) now3 now4 states1 = (states2, Some (body2, q)) /\
    Reused q = true /\ planPrefix q +:+ TailText q = transcript (ms ++ more) /\ HasPrefix (planPrefix q) (planPrefix p) = true /\
    HasPrefix body (trimRightNewlines (planPrefix p)) = true /\ HasPrefix body2 (trimRightNewlines (planPrefix p)) = true.
Proof.
  intros transcript Hms H1 Hr Hsize Htime Htail.
  destruct (transcript_prefix Marshal MarshalIndent Unmarshal showFloat decodesTwice true ms more) as [r Hgrow].
  destruct (transcript_builder Marshal MarshalIndent Unmarshal showFloat decodesTwice true ms Hms) as [_ Htrim].
  destruct (transcript_builder Marshal MarshalIndent Unmarshal showFloat decodesTwice true (ms ++ more)) as [Hb Htrim2]; [by destruct ms|].
  change (buildOpenAIHistoryTranscript Marshal MarshalIndent Unmarshal showFloat decodesTwice ?x true) with (transcript x) in *.
  unfold applyCurrentInputInlinePrefix in H1. destruct (bool_decide (key = "")) eqn:Hk; [done|].
  destruct (plan iter key (transcript ms) prefixModeInline now1 states) as [s1 [p1|]] eqn:Hp; [|done].
  injection H1 as Hs Hbody ->. rewrite Hr in Hs.
  destruct (plan_cases _ _ _ _ _ _ _ _ Hp) as (Hkey & Hmode & Hne & Hcut & Hcase).
  assert (planPrefix p <> "") as Hpne by (destruct Hcase as [(_ & (_ & Hx & _) & _)|[Hr' _]]; [exact Hx|congruence]).
  change newlineStr with lf in Hcut. rewrite Htrim in Hcut.
  destruct (stored_prefix_hits iter p (transcript (ms ++ more)) (TailText p +:+ r) now2 now3 s1) as (s2 & q & Hq & Hrq & Hlen).
  - by rewrite Hkey.
  - done.
  - by rewrite Hmode.
  - by rewrite Hs.
  - done.
  - intros He. rewrite He in Htrim2. rewrite <- Htrim2 in Hb.
    apply (f_equal String.length) in Hb. revert Hb. unfold transcriptBuilder. rewrite !length_append. cbn. lia.
  - change newlineStr with lf. rewrite Htrim2, Hgrow, <- Hcut, append_assoc. done.
  - rewrite Hgrow, <- Hcut in Htail. unfold len in *. rewrite !length_append in *. lia.
  - rewrite Hkey, Hmode, Hs in Hq. unfold applyCurrentInputInlinePrefix. rewrite Hk, Hq. eexists _, _, _. split; [reflexivity|].
    rewrite <- Hkey, <- Hmode, <- Hs in Hq. destruct (plan_cases _ _ _ _ _ _ _ _ Hq) as (_ & _ & _ & Hcut2 & _).
    change newlineStr with lf in Hcut2. rewrite Htrim2 in Hcut2.
    destruct (shorter_prefix (planPrefix p) (planPrefix q) (TailText p +:+ r) (TailText q)) as [x Hx].
    { rewrite Hcut2, Hgrow, <- Hcut. by rewrite append_assoc. }
    { unfold len in Hlen. lia. }
    split; [done|]. split; [exact Hcut2|]. split; [rewrite Hx; apply HasPrefix_app|].
    split; [rewrite <- Hbody; unfold buildInlinePrefixBody; apply HasPrefix_app|].
    destruct (newlines_prefix (planPrefix p) x) as [y Hy]. unfold buildInlinePrefixBody. rewrite Hx, Hy, append_assoc. apply HasPrefix_app.
Qed.

(** ** Volatile metadata *)

Lemma skip_solid (c : ascii) (s : string) : patternSpace c = false -> skipPatternSpace (String c s) = String c s.
Proof. intros H. cbn [skipPatternSpace]. by rewrite H. Qed.

Lemma fence_line (s X : string) : HasPrefix s fence = false -> HasPrefix (s +:+ lf +:+ X) fence = false.
Proof.
  unfold fence. destruct s as [|a [|b [|c s]]]; rewrite ?append_cons, ?append_nil_l; rewrite ?HasPrefix_cons, ?HasPrefix_nil; intros H; unfold lf.
  - reflexivity.
  - rewrite append_cons, HasPrefix_cons. by rewrite andb_false_r.
  - rewrite append_cons, HasPrefix_cons. by rewrite !andb_false_r.
  - exact H.
Qed.

Lemma index_fence (a X : string) : Contains a fence = false -> Index (a +:+ lf +:+ fence +:+ X) fence = Some (S (String.length a)).
Proof.
  induction a as [|c a IH].
  { intros _. change ("" +:+ lf +:+ fence +:+ X) with (String "010" (String "`" (String "`" (String "`" X)))). cbn. by rewrite HasPrefix_nil. }
  intros [Hp Ha]%Contains_tail. specialize (IH Ha).
  pose proof (fence_line (String c a) (fence +:+ X) Hp) as Hf. rewrite append_cons in *. cbn [Index]. rewrite Hf, IH. done.
Qed.

(** A metadata block. *)
Definition metadataBlock (sender : bool) (body rest : string) : string :=
  (if sender then "Sender" else "Conversation info") +:+ " (untrusted metadata):" +:+ lf +:+ fence +:+ "json" +:+ lf +:+ body +:+ lf +:+ fence +:+ rest.

(** A body that a fence cannot cut: it begins with a visible byte and has no fence. *)
Definition solidBody (body : string) : bool :=
  match body with String c _ => negb (patternSpace c) && negb (Contains body fence) | EmptyString => false end.

Lemma match_block (sender : bool) (body rest : string) : solidBody body = true ->
  matchMetadata (metadataBlock sender body rest) =
  Some ((if sender then "Sender" else "Conversation info") +:+ " (untrusted metadata):" +:+ lf +:+ fence +:+ "json" +:+ lf, body, lf +:+ fence, rest).
Proof.
  intros Hb. set (after := body +:+ lf +:+ fence +:+ rest).
  assert (metadataStart (metadataBlock sender body rest) = Some after) as Hs.
  { destruct body as [|c body]; [done|]. cbn [solidBody] in Hb. rewrite andb_true_iff, negb_true_iff in Hb. destruct Hb as [Hc _].
    assert (metadataStart (metadataBlock sender (String c body) rest) = Some (skipPatternSpace after)) as -> by (by destruct sender).
    unfold after. rewrite append_cons. by rewrite skip_solid. }
  assert (Contains body fence = false) as Hf.
  { destruct body; [done|]. cbn [solidBody] in Hb. rewrite andb_true_iff, !negb_true_iff in Hb. apply Hb. }
  unfold matchMetadata. rewrite Hs. unfold after at 1. rewrite index_fence by done. fold after.
  set (head := (if sender then "Sender" else "Conversation info") +:+ " (untrusted metadata):" +:+ lf +:+ fence +:+ "json" +:+ lf).
  assert (metadataBlock sender body rest = head +:+ after) as ->.
  { unfold metadataBlock, head, after. by rewrite !append_assoc. }
  rewrite length_append, Nat.add_sub, strTake_app.
  assert (strTake (S (String.length body)) after = body +:+ lf) as ->.
  { unfold after. rewrite <- (append_assoc body lf). replace (S (String.length body)) with (String.length (body +:+ lf)) by (rewrite length_append; cbn; lia). apply strTake_app. }
  rewrite HasSuffix_app, TrimSuffix_app.
  assert (strDrop (S (String.length body) + 3) after = rest) as ->; [|done].
  unfold after. rewrite <- (append_assoc body lf), <- (append_assoc (body +:+ lf) fence).
  replace (S (String.length body) + 3) with (String.length ((body +:+ lf) +:+ fence)) by (rewrite !length_append; cbn; lia). apply strDrop_app.
Qed.

Lemma metadataStart_shorter (s r : string) : metadataStart s = Some r -> String.length r <= String.length s.
Proof.
  unfold metadataStart.
  assert (forall p s r, expect p s = Some r -> String.length r <= String.length s) as He.
  { intros p t u. unfold expect. destruct (HasPrefix t p); [|done]. intros [= <-]. rewrite length_strDrop. lia. }
  assert (forall s, String.length (skipPatternSpace s) <= String.length s) as Hk.
  { intros t. induction t as [|c t IH]; [done|]. cbn [skipPatternSpace]. destruct (patternSpace c); cbn in *; lia. }
  destruct (match expect "Conversation info" s with Some r => Some r | None => expect "Sender" s end) as [t|] eqn:H1; [|done].
  assert (String.length t <= String.length s) as Ht.
  { destruct (expect "Conversation info" s) eqn:E; [injection H1 as <-; eauto|eauto]. }
  destruct (expect " (untrusted metadata):" t) as [u|] eqn:H2; [|done]. apply He in H2.
  destruct (expect (fence +:+ "json") (skipPatternSpace u)) as [v|] eqn:H3; [|done]. apply He in H3.
  intros [= <-]. pose proof (Hk u). pose proof (Hk v). lia.
Qed.

Section Volatile.
Variable MarshalIndent : json -> option string.
Variable Unmarshal : string -> option json.
Notation replace' := (replaceMetadata MarshalIndent Unmarshal).
Notation canonicalText := (canonicalizeVolatileTranscriptText MarshalIndent Unmarshal).

(** More fuel than the text is long changes nothing. *)
Lemma replace_fuel (f g : nat) (s : string) : String.length s < f -> String.length s < g -> replace' f s = replace' g s.
Proof.
  revert g s. induction f as [|f IH]; [lia|]. intros [|g] s Hf Hg; [lia|]. cbn [replaceMetadata].
  destruct (matchMetadata s) as [[[[h b] c] rest]|] eqn:Hm.
  - do 3 f_equal. assert (String.length rest < String.length s) as Hr; [|apply IH; lia].
    unfold matchMetadata in Hm. destruct (metadataStart s) as [r|] eqn:Hs; [|done]. apply metadataStart_shorter in Hs.
    destruct (Index r fence) as [i|] eqn:Hi; [|done]. apply Index_spec in Hi as [Hp _]. apply HasPrefix_length in Hp. rewrite length_strDrop in Hp. cbn in Hp.
    assert (rest = strDrop (i + 3) r) as -> by (destruct (HasSuffix _ _); congruence). rewrite length_strDrop. lia.
  - destruct s as [|c s]; [done|]. f_equal. cbn in *. apply IH; lia.
Qed.

Lemma canonical_block (sender : bool) (body rest : string) : solidBody body = true ->
  canonicalText (metadataBlock sender body rest) =
  (if sender then "Sender" else "Conversation info") +:+ " (untrusted metadata):" +:+ lf +:+ fence +:+ "json" +:+ lf +:+
  default body (canonicalizeMetadataJSON MarshalIndent Unmarshal body) +:+ lf +:+ fence +:+ replace' (S (String.length rest)) rest.
Proof.
  intros Hb. unfold canonicalizeVolatileTranscriptText.
  assert (bool_decide (metadataBlock sender body rest = "") || negb (Contains (metadataBlock sender body rest) "untrusted metadata") = false) as -> by (by destruct sender).
  remember (replace' (S (String.length rest)) rest) as tail eqn:Htail.
  set (text := metadataBlock sender body rest). cbn [replaceMetadata]. unfold text at 1. rewrite match_block by done. rewrite !append_assoc.
  subst tail. do 9 f_equal. apply replace_fuel; [|lia]. unfold text, metadataBlock. rewrite !length_append. cbn. lia.
Qed.

(** Fields that change with every request do not change the transcript: texts that begin with
    metadata blocks whose objects agree after the volatile fields are removed become the same text. *)
Theorem volatile_fields_ignored (sender : bool) (a b rest : string) (va vb : json) :
  solidBody a = true -> solidBody b = true -> Unmarshal (TrimSpace a) = Some va -> Unmarshal (TrimSpace b) = Some vb ->
  stripVolatileMetadataFields va = stripVolatileMetadataFields vb -> is_Some (MarshalIndent (stripVolatileMetadataFields va)) ->
  canonicalText (metadataBlock sender a rest) = canonicalText (metadataBlock sender b rest).
Proof.
  intros Ha Hb Hva Hvb Heq [j Hj]. rewrite !canonical_block by done. unfold canonicalizeMetadataJSON. rewrite Hva, Hvb, <- Heq, Hj. done.
Qed.
End Volatile.

(** No volatile field at any depth. *)
Fixpoint volatileFree (v : json) : bool :=
  match v with
  | JObj m => (fix fields (m : jmap) : bool :=
                 match m with [] => true | (k, v) :: m => negb (bool_decide (k ∈ volatileFields)) && volatileFree v && fields m end) m
  | JArr l => (fix items (l : list json) : bool := match l with [] => true | v :: l => volatileFree v && items l end) l
  | _ => true
  end.

Lemma stripped_free : forall v, volatileFree (stripVolatileMetadataFields v) = true.
Proof.
  fix IH 1. intros [| | | |items|members]; try reflexivity.
  - cbn. induction items as [|v l IHl]; [reflexivity|]. rewrite (IH v). exact IHl.
  - cbn. induction members as [|[k v] m IHm]; [reflexivity|]. destruct (bool_decide (k ∈ volatileFields)) eqn:Hk; [exact IHm|].
    cbn. rewrite Hk, (IH v). exact IHm.
Qed.

(** ** A conversation *)

Definition demoMessages : list json := [JObj (message "user" "hi"); JObj (message "assistant" "hello")].
Definition demoTranscript : list json -> string :=
  BuildOpenAICurrentInputContextTranscript (fun _ => None) (fun _ => None) (fun _ => None) (fun _ _ => "") (fun _ => false).
Definition demoFirst := applyCurrentInputInlinePrefix demoIter "k" (demoTranscript demoMessages) 0 1 ∅.
Definition demoPlan : string * currentInputPrefixPlan := default ("", anchor) demoFirst.2.

Lemma next_turn_reuses_witness :
  exists states2 body2 q, applyCurrentInputInlinePrefix demoIter "k" (demoTranscript (demoMessages ++ [JObj (message "user" "more")])) 5 6 demoFirst.1 = (states2, Some (body2, q)) /\ Reused q = true.
Proof.
  assert (E : demoFirst = (demoFirst.1, Some (demoPlan.1, demoPlan.2))) by (vm_compute; reflexivity).
  destruct (next_turn_reuses (fun _ => None) (fun _ => None) (fun _ => None) (fun _ _ => "") (fun _ => false) demoIter "k"
    demoMessages [JObj (message "user" "more")] 0 1 5 6 ∅ demoFirst.1 demoPlan.1 demoPlan.2) as (states2 & body2 & q & H1 & H2 & _).
  - discriminate.
  - exact E.
  - vm_compute; reflexivity.
  - vm_compute. lia.
  - vm_compute. discriminate.
  - vm_compute. discriminate.
  - exists states2, body2, q. split; [exact H1|exact H2].
Defined.

Definition demoUnmarshal (s : string) : option json :=
  if bool_decide (s = "{a}") then Some (JObj [("timestamp", JNum 1 1); ("id", JStr "x")])
  else if bool_decide (s = "{b}") then Some (JObj [("timestamp", JNum 2 1); ("id", JStr "x")]) else None.

Lemma volatile_fields_ignored_witness :
  canonicalizeVolatileTranscriptText (fun _ => Some "{x}") demoUnmarshal (metadataBlock true "{a}" " hi") =
  canonicalizeVolatileTranscriptText (fun _ => Some "{x}") demoUnmarshal (metadataBlock true "{b}" " hi").
Proof.
  eapply (volatile_fields_ignored (fun _ => Some "{x}") demoUnmarshal true "{a}" "{b}" " hi"); try reflexivity. by eexists.
Defined.
