(* ===== verification/StreamShared.v ===== *)
(** What the streams of the OpenAI and Claude APIs share: tool events ([toolstream.Event],
    [toolcall.ParsedToolCall]) and the helpers of internal/httpapi/openai/shared on them
    ([assistant_toolcalls.go], [handler_toolcall_format.go], [upstream_empty.go]).

    The parser of complete tool blocks, the normalisation of arguments, the JSON encoder and the
    source of unique identifiers are parameters. *)
From S2P Require Import Prelude GoString Json Sse Pump StreamEngine.
Local Open Scope string_scope.
Local Open Scope Z_scope.
Local Open Scope list_scope.

Record ParsedToolCall := { Name : string; Input : json }.
Record ToolCallDelta := { Index : Z; DeltaName : string; Arguments : string }.
(** [toolstream.Event] *)
Record toolEvent := { Content : string; ToolCalls : list ParsedToolCall; ToolCallDeltas : list ToolCallDelta }.

(** ** The texts of an answer *)

(** The string builders of a runtime: what the upstream sent, and what is left of it after cleaning. *)
Record texts := { rawThinking : string; thinking : string; toolDetectionThinking : string; rawText : string; text : string }.

Definition addDetection (t : texts) (p : ContentPart) : texts :=
  {| rawThinking := rawThinking t; thinking := thinking t; toolDetectionThinking := grow (toolDetectionThinking t) (Text p); rawText := rawText t; text := text t |}.
Definition addRawThinking (x : string) (t : texts) : texts :=
  {| rawThinking := rawThinking t +:+ x; thinking := thinking t; toolDetectionThinking := toolDetectionThinking t; rawText := rawText t; text := text t |}.
Definition addThinking (x : string) (t : texts) : texts :=
  {| rawThinking := rawThinking t; thinking := thinking t +:+ x; toolDetectionThinking := toolDetectionThinking t; rawText := rawText t; text := text t |}.
Definition addRawText (x : string) (t : texts) : texts :=
  {| rawThinking := rawThinking t; thinking := thinking t; toolDetectionThinking := toolDetectionThinking t; rawText := rawText t +:+ x; text := text t |}.
Definition addText (x : string) (t : texts) : texts :=
  {| rawThinking := rawThinking t; thinking := thinking t; toolDetectionThinking := toolDetectionThinking t; rawText := rawText t; text := text t +:+ x |}.

Definition decision (stop : bool) (reason : StopReason) (contentSeen : bool) : ParsedDecision :=
  {| DecStop := stop; DecStopReason := reason; ContentSeen := contentSeen |}.


(** ** What a stream says, without its frames *)

Definition joined (l : list string) : string := foldr (fun x acc => x +:+ acc) "" l.

Lemma joined_snoc (l : list string) (x : string) : joined (l ++ [x]) = joined l +:+ x.
Proof. unfold joined. induction l as [|y l IH]; cbn [app foldr]; [by rewrite append_nil_r|by rewrite IH, append_assoc]. Qed.

(** The pieces that a sequence of texts adds, each without what overlaps the text before it. *)
Definition addPiece (acc : list string) (x : string) : list string :=
  let t := TrimContinuationOverlap (joined acc) x in if bool_decide (t = "") then acc else acc ++ [t].
Definition pieces (l : list string) : list string := fold_left addPiece l [].

Lemma pieces_snoc (l : list string) (x : string) : pieces (l ++ [x]) = addPiece (pieces l) x.
Proof. apply fold_left_app. Qed.

(** A sieve over a sequence of chunks: its state and all its events. *)
Definition sieved {V} (ProcessChunk : V -> string -> V * list toolEvent) (v : V) (chunks : list string) : V * list toolEvent :=
  fold_left (fun r c => let '(v, es) := ProcessChunk r.1 c in (v, r.2 ++ es)) chunks (v, []).

Lemma sieved_snoc {V} (ProcessChunk : V -> string -> V * list toolEvent) (v : V) (chunks : list string) (c : string) :
  sieved ProcessChunk v (chunks ++ [c]) =
  ((ProcessChunk (sieved ProcessChunk v chunks).1 c).1, (sieved ProcessChunk v chunks).2 ++ (ProcessChunk (sieved ProcessChunk v chunks).1 c).2).
Proof. unfold sieved. rewrite fold_left_app. cbn [fold_left]. by destruct (ProcessChunk _ c). Qed.

(** The first list that is not empty. *)
Definition firstOf {A} (ls : list (list A)) : list A := default [] (List.find (fun l => negb (bool_decide (length l = 0%nat))) ls).

(** ** Maps and deltas *)

(** A read of a Go map. *)
Definition get {V} (d : V) (m : gmap Z V) (k : Z) : V := default d (m !! k).

Lemma get_insert {V} (d x : V) (m : gmap Z V) (c k : Z) : get d (<[c := x]> m) k = if decide (k = c) then x else get d m k.
Proof. unfold get. destruct (decide (k = c)) as [->|H]; [by rewrite lookup_insert_eq|by rewrite lookup_insert_ne]. Qed.

(** [FilterIncrementalToolCallDeltasByAllowed]: the names are kept in [seenNames]. *)
Fixpoint filterIncrementalToolCallDeltasByAllowed (deltas : list ToolCallDelta) (seenNames : gmap Z string) : gmap Z string * list ToolCallDelta :=
  match deltas with
  | [] => (seenNames, [])
  | d :: l =>
      if negb (bool_decide (DeltaName d = "")) then
        let '(names, out) := filterIncrementalToolCallDeltasByAllowed l (<[Index d := DeltaName d]> seenNames) in (names, d :: out)
      else
        let '(names, out) := filterIncrementalToolCallDeltasByAllowed l seenNames in
        (names, if bool_decide (TrimSpace (get "" seenNames (Index d)) = "") then out else d :: out)
  end.

(** The calls of [DetectAssistantToolCalls]. *)
Definition DetectAssistantToolCalls (parseToolCalls : string -> list ParsedToolCall) (raw visibleText exposedThinking detectionThinking : string) : list ParsedToolCall :=
  match parseToolCalls raw with
  | [] => if negb (bool_decide (TrimSpace visibleText = "")) then []
          else parseToolCalls (if bool_decide (TrimSpace detectionThinking = "") then exposedThinking else detectionThinking)
  | calls => calls
  end.

Definition UpstreamEmptyOutputDetail (contentFilter : bool) : Z * string * string :=
  if contentFilter then (400, "Upstream content filtered the response and returned no output.", "content_filter")
  else (429, "Upstream returned no output. Retry later or reduce the input size.", "upstream_empty_output").

(** [string(b)] after [b, _ := json.Marshal(v)] *)
Definition marshalled (Marshal : json -> option string) (v : json) : string := default "" (Marshal v).

(** ** Tool calls as the chat stream shows them *)

(** An element of [tool_calls] in a chunk; [None]: the field is left out. *)
Record shownCall := { scIndex : Z; scID : string; scName : option string; scArguments : option string }.

(** The identifiers given to the calls of a stream, and the number of identifiers drawn so far. *)
Definition callIDs : Type := gmap Z string * nat.

Section Format.
(** The [n]-th identifier, without dashes. *)
Variable uuid : nat -> string.

Definition freshCall (i : Z) (ids : callIDs) : callIDs * string :=
  let id := "call_" +:+ uuid ids.2 in ((<[i := id]> ids.1, S ids.2), id).

Fixpoint FormatIncrementalStreamToolCallDeltas (deltas : list ToolCallDelta) (ids : callIDs) : callIDs * list shownCall :=
  match deltas with
  | [] => (ids, [])
  | d :: l =>
      if bool_decide (DeltaName d = "") && bool_decide (Arguments d = "") then FormatIncrementalStreamToolCallDeltas l ids
      else
        let own := get "" ids.1 (Index d) in
        let '(ids, callID) := if bool_decide (own = "") then freshCall (Index d) ids else (ids, own) in
        let item := {| scIndex := Index d; scID := callID; scName := if bool_decide (DeltaName d = "") then None else Some (DeltaName d);
                       scArguments := if bool_decide (Arguments d = "") then None else Some (Arguments d) |} in
        let '(ids, out) := FormatIncrementalStreamToolCallDeltas l ids in (ids, item :: out)
  end.

Fixpoint formatCallsFrom (marshal : json -> string) (i : Z) (calls : list ParsedToolCall) (ids : callIDs) : callIDs * list shownCall :=
  match calls with
  | [] => (ids, [])
  | c :: l =>
      let own := TrimSpace (get "" ids.1 i) in
      let '(ids, callID) := if bool_decide (own = "") then freshCall i ids else (ids, own) in
      let item := {| scIndex := i; scID := callID; scName := Some (Name c); scArguments := Some (marshal (Input c)) |} in
      let '(ids, out) := formatCallsFrom marshal (i + 1) l ids in (ids, item :: out)
  end.

(** [ids] is never nil where it is called. *)
Definition FormatFinalStreamToolCallsWithStableIDs (normalizeCalls : list ParsedToolCall -> list ParsedToolCall) (marshal : json -> string)
  (calls : list ParsedToolCall) (ids : callIDs) : callIDs * list shownCall :=
  match calls with
  | [] => (ids, [])
  | _ => formatCallsFrom marshal 0 (normalizeCalls calls) ids
  end.
End Format.
