(* ===== verification/SchemaNormalize.v ===== *)
(** Arguments of tool calls in the types their schemas ask for:
    [internal/toolcall/toolcalls_schema_normalize.go].

    A value where a schema admits strings only is replaced by its JSON text; everything else is
    left as it is.  [nil] is [JNull], the field of a map that is absent.  The JSON encoder is a
    parameter. *)
From S2P Require Import Prelude GoString Json Sse Pump StreamEngine StreamShared.
Local Open Scope string_scope.
Local Open Scope list_scope.

Notation jmap := (list (string * json)).

(** [m[k]], [nil] included. *)
Definition at_ (m : jmap) (k : string) : json := default JNull (member k m).
Definition isNil (v : json) : bool := match v with JNull => true | _ => false end.

Definition firstNonNil (values : list json) : json := default JNull (List.find (fun v => negb (isNil v)) values).

(** ** Schemas *)

Definition isStringConst (v : json) : bool := match v with JStr _ => true | _ => false end.

Definition isStringEnum (v : json) : bool :=
  match v with JArr (x :: l) => forallb isStringConst (x :: l) | _ => false end.

(** The loop of [isOnlyStringLikeTypes] after [hasString]. *)
Fixpoint onlyStringLikeFrom (hasString : bool) (values : list json) : bool :=
  match values with
  | [] => hasString
  | JStr typ :: l =>
      let typ := ToLower (TrimSpace typ) in
      if bool_decide (typ = "string") then onlyStringLikeFrom true l
      else if bool_decide (typ = "null") then onlyStringLikeFrom hasString l else false
  | _ :: _ => false
  end.
Definition isOnlyStringLikeTypes (values : list json) : bool := onlyStringLikeFrom false values.

Definition shouldCoerceSchemaToString (schema : jmap) : bool :=
  isStringConst (at_ schema "const") || isStringEnum (at_ schema "enum") ||
  match at_ schema "type" with
  | JStr v => EqualFold (TrimSpace v) "string"
  | JArr v => isOnlyStringLikeTypes v
  | _ => false
  end.

Definition hasType (schema : jmap) (name : string) : bool :=
  match at_ schema "type" with JStr typ => EqualFold (TrimSpace typ) name | _ => false end.
Definition isMap (v : json) : bool := match v with JObj _ => true | _ => false end.
Definition present (schema : jmap) (k : string) : bool := bool_decide (is_Some (member k schema)).

Definition looksLikeObjectSchema (schema : jmap) : bool := hasType schema "object" || isMap (at_ schema "properties") || present schema "additionalProperties".
Definition looksLikeArraySchema (schema : jmap) : bool := hasType schema "array" || present schema "items".

(** The schema of a member: its own, or the one for additional members; [None]: left alone. *)
Definition memberSchema (schema : jmap) (key : string) : option json :=
  let properties := match at_ schema "properties" with JObj m => m | _ => [] end in
  match member key properties with
  | Some propSchema => Some propSchema
  | None => let additional := at_ schema "additionalProperties" in if isNil additional then None else Some additional
  end.

(** The schema of the [i]-th item. *)
Definition itemSchema (itemsSchema : json) (i : nat) : option json :=
  match itemsSchema with JArr schemas => schemas !! i | schema => Some schema end.

Section Normalize.
Variable Marshal : json -> option string.

Definition stringifySchemaValue (value : json) : json * bool :=
  match value with
  | JNull | JStr _ => (value, false)
  | _ => match Marshal value with Some b => (JStr b, true) | None => (value, false) end
  end.

(** What a schema map asks of a value. *)
Inductive demand := Stringify | Members | Items (itemsSchema : json) | Nothing.
Definition demandOf (schema : json) : demand :=
  match schema with
  | JObj (x :: l) =>
      let schemaMap := x :: l in
      if shouldCoerceSchemaToString schemaMap then Stringify
      else if looksLikeObjectSchema schemaMap then Members
      else if looksLikeArraySchema schemaMap then
        let itemsSchema := at_ schemaMap "items" in if isNil itemsSchema then Nothing else Items itemsSchema
      else Nothing
  | _ => Nothing
  end.
Definition mapOf (schema : json) : jmap := match schema with JObj m => m | _ => [] end.

(** A value and the schema it has, if any. *)
Definition normalizeUnder (normalize : json -> json -> json * bool) (value : json) (schema : option json) : json * bool :=
  match schema with Some s => normalize value s | None => (value, false) end.

(** The loops over members and items; whether anything changed. *)
Section Loops.
Variable normalize : json -> json -> json * bool.
Fixpoint normalizeMembers (schema : jmap) (m : jmap) : jmap * bool :=
  match m with
  | [] => ([], false)
  | (key, current) :: m =>
      let next := normalizeUnder normalize current (memberSchema schema key) in
      let rest := normalizeMembers schema m in ((key, next.1) :: rest.1, next.2 || rest.2)
  end.
Fixpoint normalizeItems (itemsSchema : json) (i : nat) (arr : list json) : list json * bool :=
  match arr with
  | [] => ([], false)
  | item :: arr =>
      let next := normalizeUnder normalize item (itemSchema itemsSchema i) in
      let rest := normalizeItems itemsSchema (S i) arr in (next.1 :: rest.1, next.2 || rest.2)
  end.
End Loops.

Fixpoint normalizeToolValueWithSchema (value schema : json) {struct value} : json * bool :=
  match value with
  | JNull => (value, false)
  | _ =>
      match demandOf schema with
      | Stringify => stringifySchemaValue value
      | Members =>
          match value with
          | JObj obj => let out := normalizeMembers normalizeToolValueWithSchema (mapOf schema) obj in if out.2 then (JObj out.1, true) else (value, false)
          | _ => (value, false)
          end
      | Items itemsSchema =>
          match value with
          | JArr arr => let out := normalizeItems normalizeToolValueWithSchema itemsSchema 0 arr in if out.2 then (JArr out.1, true) else (value, false)
          | _ => (value, false)
          end
      | Nothing => (value, false)
      end
  end.

(** ** Tools *)

(** Name and schema of a tool; the description is not used here. *)
Definition schemaKeys : list string := ["parameters"; "input_schema"; "inputSchema"; "schema"].
Definition ExtractToolMeta (tool : jmap) : string * json :=
  let name := TrimSpace (asString (member "name" tool)) in
  let schema := firstNonNil (at_ tool <$> schemaKeys) in
  match at_ tool "function" with
  | JObj fn => (if bool_decide (name = "") then TrimSpace (asString (member "name" fn)) else name, firstNonNil (schema :: (at_ fn <$> schemaKeys)))
  | _ => (name, schema)
  end.

Definition addSchema (out : gmap string json) (item : json) : gmap string json :=
  match item with
  | JObj tool => let '(name, schema) := ExtractToolMeta tool in
                 if bool_decide (name = "") || isNil schema then out else <[ToLower name := schema]> out
  | _ => out
  end.
Definition buildToolSchemaIndex (toolsRaw : json) : gmap string json :=
  match toolsRaw with JArr tools => fold_left addSchema tools ∅ | _ => ∅ end.

Definition normalizeCall (schemas : gmap string json) (call : ParsedToolCall) : ParsedToolCall * bool :=
  match schemas !! ToLower (TrimSpace (Name call)) with
  | None => (call, false)
  | Some schema =>
      if isNil (Input call) then (call, false)
      else match normalizeToolValueWithSchema (Input call) schema with
           | (_, false) => (call, false)
           | (JObj input, true) => ({| Name := Name call; Input := JObj input |}, true)
           | (_, true) => (call, true)
           end
  end.

Definition NormalizeParsedToolCallsForSchemas (toolsRaw : json) (calls : list ParsedToolCall) : list ParsedToolCall :=
  let schemas := buildToolSchemaIndex toolsRaw in
  if bool_decide (schemas = ∅) then calls
  else
    let out := normalizeCall schemas <$> calls in
    if existsb snd out then out.*1 else calls.

(** ** What a schema says

    Written down from the shape of the schema, without the code's tests. *)

(** Only strings are admitted: a string constant, a list of string constants, the type [string],
    or a list of types of which one is [string] and the others [null]. *)
Inductive stringsOnly (m : jmap) : Prop :=
| strings_const t : member "const" m = Some (JStr t) -> stringsOnly m
| strings_enum v l : member "enum" m = Some (JArr (v :: l)) -> Forall (fun v => exists t, v = JStr t) (v :: l) -> stringsOnly m
| strings_type t : member "type" m = Some (JStr t) -> EqualFold (TrimSpace t) "string" = true -> stringsOnly m
| strings_types l : member "type" m = Some (JArr l) ->
    Exists (fun v => exists t, v = JStr t /\ ToLower (TrimSpace t) = "string") l ->
    Forall (fun v => exists t, v = JStr t /\ (ToLower (TrimSpace t) = "string" \/ ToLower (TrimSpace t) = "null")) l -> stringsOnly m.

Definition typed (m : jmap) (name : string) : Prop := exists t, member "type" m = Some (JStr t) /\ EqualFold (TrimSpace t) name = true.
Definition objectLike (m : jmap) : Prop := typed m "object" \/ (exists props, member "properties" m = Some (JObj props)) \/ is_Some (member "additionalProperties" m).
Definition arrayLike (m : jmap) : Prop := typed m "array" \/ is_Some (member "items" m).

(** The schema of the member [key]: the property of that name, or, when no property has it, the
    one for additional members. *)
Inductive memberOf (m : jmap) (key : string) : json -> Prop :=
| member_declared props schema : member "properties" m = Some (JObj props) -> member key props = Some schema -> memberOf m key schema
| member_additional schema : (forall props, member "properties" m = Some (JObj props) -> member key props = None) ->
    member "additionalProperties" m = Some schema -> schema <> JNull -> memberOf m key schema.

(** The schema of the item [i]: the one in its place, or the one for all. *)
Inductive itemOf (m : jmap) (i : nat) : json -> Prop :=
| item_placed l schema : member "items" m = Some (JArr l) -> l !! i = Some schema -> itemOf m i schema
| item_each schema : member "items" m = Some schema -> schema <> JNull -> (forall l, schema <> JArr l) -> itemOf m i schema.

(** [normal schema v v']: in the form of [schema] the value [v] is [v']. *)
Inductive normal : json -> json -> json -> Prop :=
| normal_nil schema : normal schema JNull JNull
| normal_schemaless schema v : (forall m, schema <> JObj m) -> normal schema v v
| normal_string m t : stringsOnly m -> normal (JObj m) (JStr t) (JStr t)
| normal_text m v t : stringsOnly m -> v <> JNull -> (forall s, v <> JStr s) -> Marshal v = Some t -> normal (JObj m) v (JStr t)
| normal_textless m v : stringsOnly m -> Marshal v = None -> normal (JObj m) v v
| normal_object m obj obj' : ~ stringsOnly m -> objectLike m ->
    Forall2 (fun kv kv' => kv'.1 = kv.1 /\
      ((exists schema, memberOf m kv.1 schema /\ normal schema kv.2 kv'.2) \/
       ((forall schema, ~ memberOf m kv.1 schema) /\ kv'.2 = kv.2))) obj obj' ->
    normal (JObj m) (JObj obj) (JObj obj')
| normal_array m arr arr' : ~ stringsOnly m -> ~ objectLike m -> arrayLike m -> length arr' = length arr ->
    (forall i v, arr !! i = Some v -> exists v', arr' !! i = Some v' /\
      ((exists schema, itemOf m i schema /\ normal schema v v') \/
       ((forall schema, ~ itemOf m i schema) /\ v' = v))) ->
    normal (JObj m) (JArr arr) (JArr arr')
| normal_other m v : ~ stringsOnly m -> (objectLike m -> forall obj, v <> JObj obj) ->
    (~ objectLike m -> arrayLike m -> forall arr, v <> JArr arr) -> normal (JObj m) v v.

(** The schema declared for a name: that of the last tool of the request which has the name, up to
    case and white space, and a schema. *)
Definition declares (item : json) (name : string) (schema : json) : Prop :=
  exists tool n, item = JObj tool /\ ExtractToolMeta tool = (n, schema) /\ n <> "" /\ schema <> JNull /\ ToLower n = name.
Definition declared (toolsRaw : json) (name : string) (schema : json) : Prop :=
  exists l item l', toolsRaw = JArr (l ++ item :: l') /\ declares item name schema /\ forall item' schema', item' ∈ l' -> ~ declares item' name schema'.

(** ** The code reads schemas so *)

Lemma member_at m k v : v <> JNull -> at_ m k = v <-> member k m = Some v.
Proof. intros N. unfold at_. destruct (member k m); simpl; split; congruence. Qed.

Lemma isStringConst_spec v : isStringConst v = true <-> exists t, v = JStr t.
Proof. destruct v; simpl; split; eauto; try discriminate; intros [? [=]]. Qed.

Lemma onlyStringLikeFrom_spec l : forall has, onlyStringLikeFrom has l = true <->
  (has = true \/ Exists (fun v => exists t, v = JStr t /\ ToLower (TrimSpace t) = "string") l) /\
  Forall (fun v => exists t, v = JStr t /\ (ToLower (TrimSpace t) = "string" \/ ToLower (TrimSpace t) = "null")) l.
Proof.
  induction l as [|v l IH]; intros has; simpl.
  - rewrite Exists_nil. split; [auto|by intros [[]]].
  - rewrite Exists_cons, Forall_cons. destruct v as [| | |t| |]; try (split; [discriminate|by intros [_ [(? & [=] & _) _]]]).
    repeat case_bool_decide; rewrite ?IH; naive_solver.
Qed.

Lemma stringsOnly_spec m : shouldCoerceSchemaToString m = true <-> stringsOnly m.
Proof.
  unfold shouldCoerceSchemaToString. rewrite !orb_true_iff, isStringConst_spec. split.
  - intros [[[t E]|E]|E].
    + apply (strings_const m t). by apply member_at.
    + destruct (at_ m "enum") as [| | | |[|v l]|] eqn:A; try discriminate E. apply (strings_enum m v l); [by apply member_at|].
      apply Forall_forall. intros x I. apply isStringConst_spec. by apply (proj1 (forallb_forall _ _) E), list_elem_of_In.
    + destruct (at_ m "type") as [| | |t|l|] eqn:A; try discriminate E.
      * apply (strings_type m t); [by apply member_at|done].
      * apply onlyStringLikeFrom_spec in E as [[[=]|X] Y]. apply (strings_types m l); [by apply member_at|done|done].
  - intros [t E|v l E X|t E X|l E X Y]; apply member_at in E; try discriminate; rewrite E; eauto.
    + left; right. apply forallb_forall. intros x I. apply isStringConst_spec. by apply (proj1 (Forall_forall _ _) X), list_elem_of_In.
    + right. apply onlyStringLikeFrom_spec. eauto.
Qed.

Lemma hasType_spec m name : hasType m name = true <-> typed m name.
Proof.
  unfold hasType, typed. split.
  - destruct (at_ m "type") as [| | |t| |] eqn:A; try discriminate. intros E. exists t. split; [by apply member_at|done].
  - intros (t & E & X). apply member_at in E; [|done]. by rewrite E.
Qed.

Lemma objectLike_spec m : looksLikeObjectSchema m = true <-> objectLike m.
Proof.
  unfold looksLikeObjectSchema, objectLike, present. rewrite !orb_true_iff, hasType_spec, bool_decide_eq_true.
  assert (P : isMap (at_ m "properties") = true <-> exists props, member "properties" m = Some (JObj props)); [|rewrite P; tauto].
  split; [destruct (at_ m "properties") eqn:A; try discriminate; intros _; eexists; by apply member_at|].
  intros [props E]. apply member_at in E; [|done]. by rewrite E.
Qed.

Lemma arrayLike_spec m : looksLikeArraySchema m = true <-> arrayLike m.
Proof. unfold looksLikeArraySchema, arrayLike, present. by rewrite orb_true_iff, hasType_spec, bool_decide_eq_true. Qed.

Lemma memberOf_spec m key schema : memberSchema m key = Some schema <-> memberOf m key schema.
Proof.
  unfold memberSchema.
  assert (P : (exists props, member "properties" m = Some (JObj props) /\ match at_ m "properties" with JObj m => m | _ => [] end = props) \/
              ((forall props, member "properties" m <> Some (JObj props)) /\ match at_ m "properties" with JObj m => m | _ => [] end = [])).
  { unfold at_. destruct (member "properties" m) as [[]|]; simpl; eauto; right; (split; [congruence|done]). }
  destruct P as [(props & E & ->)|[N ->]].
  - destruct (member key props) as [s|] eqn:K.
    + split; [intros [= <-]; by apply (member_declared m key props)|]. intros [p' s' E' K'|s' X]; [congruence|].
      rewrite (X _ E) in K. discriminate.
    + unfold at_. split.
      * destruct (member "additionalProperties" m) as [a|] eqn:A; simpl; [|done]. destruct (isNil a) eqn:Z; [done|]. intros [= <-].
        apply member_additional; [congruence|done|by intros ->].
      * intros [p' s' E' K'|s' X A Z]; [congruence|]. rewrite A. simpl. by destruct s'.
  - simpl. unfold at_. split.
    + destruct (member "additionalProperties" m) as [a|] eqn:A; simpl; [|done]. destruct (isNil a) eqn:Z; [done|]. intros [= <-].
      apply member_additional; [by intros p' E%N|done|by intros ->].
    + intros [p' s' E' K'|s' X A Z]; [by apply N in E'|]. rewrite A. simpl. by destruct s'.
Qed.

Lemma itemOf_spec m i schema : isNil (at_ m "items") = false -> itemSchema (at_ m "items") i = Some schema <-> itemOf m i schema.
Proof.
  intros N. unfold at_ in N |- *. destruct (member "items" m) as [v|] eqn:A; simpl in N |- *; [|discriminate].
  assert (Z : v <> JNull) by (by intros ->). split.
  - intros E. destruct v as [| | | |l|]; simpl in E; try (injection E as <-; by apply item_each). by apply (item_placed m i l).
  - intros [l' s' E K|s' E Z' X]; rewrite A in E; injection E as ->; [done|]. destruct s' as [| | | |l|]; try done. by destruct (X l).
Qed.

Lemma itemOf_none m i schema : isNil (at_ m "items") = true -> ~ itemOf m i schema.
Proof.
  intros N [l s E K|s E Z X]; unfold at_ in N; rewrite E in N; simpl in N; [discriminate|]. by destruct s.
Qed.

Lemma addSchema_spec out item name : addSchema out item !! name = out !! name \/ declares item name (default JNull (addSchema out item !! name)).
Proof.
  unfold addSchema. destruct item as [| | | | |tool]; auto. destruct (ExtractToolMeta tool) as [n schema] eqn:E.
  case_bool_decide as N; [by left|]. simpl. destruct (isNil schema) eqn:Z; [by left|].
  destruct (decide (ToLower n = name)) as [<-|D]; [|left; by rewrite lookup_insert_ne].
  right. rewrite lookup_insert_eq. simpl. exists tool, n. repeat split; auto. by intros ->.
Qed.
Lemma addSchema_declares out item name schema : declares item name schema -> addSchema out item !! name = Some schema.
Proof.
  intros (tool & n & -> & E & N & Z & <-). unfold addSchema. rewrite E, bool_decide_eq_false_2 by done.
  destruct schema; simpl; try done; by rewrite lookup_insert_eq.
Qed.
Lemma addSchema_silent out item name : (forall schema, ~ declares item name schema) -> addSchema out item !! name = out !! name.
Proof. intros N. destruct (addSchema_spec out item name) as [E|D]; [done|]. by apply N in D. Qed.

Lemma schemaIndex_last l : forall out name, (forall item schema, item ∈ l -> ~ declares item name schema) -> fold_left addSchema l out !! name = out !! name.
Proof.
  induction l as [|item l IH]; intros out name N; simpl; [done|]. rewrite IH by set_solver. apply addSchema_silent. set_solver.
Qed.

(** The index holds exactly the declared schemas. *)
Lemma schemaIndex_spec toolsRaw name schema : buildToolSchemaIndex toolsRaw !! name = Some schema <-> declared toolsRaw name schema.
Proof.
  split.
  - destruct toolsRaw as [| | | |tools|]; simpl; try done. induction tools as [|item tools IH] using rev_ind; [done|].
    rewrite fold_left_app. simpl. destruct (addSchema_spec (fold_left addSchema tools ∅) item name) as [E|D]; intros L.
    + rewrite E in L.
      destruct (decide (exists s, addSchema ∅ item !! name = Some s)) as [[s F]|F].
      * destruct (addSchema_spec ∅ item name) as [G|G]; [by rewrite F in G|]. rewrite F in G. simpl in G.
        exists tools, item, []. split; [done|]. split; [|intros ? ? []%not_elem_of_nil].
        pose proof (addSchema_declares (fold_left addSchema tools ∅) _ _ _ G) as K. congruence.
      * destruct (IH L) as (l & x & l' & [= ->] & D & N). exists l, x, (l' ++ [item]). split; [f_equal; by rewrite <- app_assoc|]. split; [done|].
        intros y s' [I|I%list_elem_of_singleton]%elem_of_app; [by apply N|]. subst y. intros D'. apply F. exists s'. by apply addSchema_declares.
    + rewrite L in D. simpl in D. exists tools, item, []. split; [done|]. split; [done|intros ? ? []%not_elem_of_nil].
  - intros (l & item & l' & -> & D & N). simpl. rewrite fold_left_app. simpl. rewrite schemaIndex_last by done. by apply addSchema_declares.
Qed.

(** ** A second pass finds nothing to do

    [conforms] says of a value, with the code's own tests, that a pass leaves it alone. *)

Section LoopsConform.
Variable conforms : json -> json -> bool.
Definition conformsUnder (value : json) (schema : option json) : bool := match schema with Some s => conforms value s | None => true end.
Fixpoint membersConform (schema : jmap) (m : jmap) : bool :=
  match m with [] => true | (key, current) :: m => conformsUnder current (memberSchema schema key) && membersConform schema m end.
Fixpoint itemsConform (itemsSchema : json) (i : nat) (arr : list json) : bool :=
  match arr with [] => true | item :: arr => conformsUnder item (itemSchema itemsSchema i) && itemsConform itemsSchema (S i) arr end.
End LoopsConform.

Fixpoint conforms (value schema : json) {struct value} : bool :=
  match value with
  | JNull => true
  | _ =>
      match demandOf schema with
      | Stringify => match value with JStr _ => true | _ => bool_decide (Marshal value = None) end
      | Members => match value with JObj obj => membersConform conforms (mapOf schema) obj | _ => true end
      | Items itemsSchema => match value with JArr arr => itemsConform conforms itemsSchema 0 arr | _ => true end
      | Nothing => true
      end
  end.

(** ** Normalized values conform, and those that conform are left alone *)

(** What is shown of a normalization: its result conforms, it says truly whether it changed
    anything, and it changes nothing of a value that conforms. *)
Definition settles (A : Type) (good : A -> bool) (value : A) (r : A * bool) : Prop :=
  good r.1 = true /\ (r.2 = false -> r.1 = value) /\ (good value = true -> r.2 = false).

Notation settled f := (forall schema, settles json (fun v => conforms v schema) f (normalizeToolValueWithSchema f schema)).

Lemma under_settles value schema : settled value ->
  settles json (fun v => conformsUnder conforms v schema) value (normalizeUnder normalizeToolValueWithSchema value schema).
Proof. intros H. destruct schema as [s|]; [apply H|]. by repeat split. Qed.

(** A cell and the rest of a loop. *)
Lemma cell_settles {A B} (mk : A -> B) (good : A -> bool) goodRest (value : A) rest (r : A * bool) rr :
  settles A good value r -> settles (list B) goodRest rest rr ->
  good r.1 && goodRest rr.1 = true /\ (r.2 || rr.2 = false -> mk r.1 :: rr.1 = mk value :: rest) /\
  (good value && goodRest rest = true -> r.2 || rr.2 = false).
Proof.
  intros (H1 & H2 & H3) (K1 & K2 & K3). rewrite H1, K1. repeat split.
  - intros [F G]%orb_false_iff. by rewrite (H2 F), (K2 G).
  - intros [F G]%andb_true_iff. by rewrite (H3 F), (K3 G).
Qed.

Lemma members_settle schema m : (Forall (fun kv => settled (kv.2)) m) ->
  settles jmap (membersConform conforms schema) m (normalizeMembers normalizeToolValueWithSchema schema m).
Proof.
  induction 1 as [|[key current] m H _ IH]; [by repeat split|].
  exact (cell_settles (pair key) _ _ _ _ _ _ (under_settles current (memberSchema schema key) H) IH).
Qed.

Lemma items_settle itemsSchema arr : (Forall (fun v => settled v) arr) -> forall i,
  settles (list json) (itemsConform conforms itemsSchema i) arr (normalizeItems normalizeToolValueWithSchema itemsSchema i arr).
Proof.
  induction 1 as [|item arr H _ IH]; intros i; [by repeat split|].
  exact (cell_settles id _ _ _ _ _ _ (under_settles item (itemSchema itemsSchema i) H) (IH (S i))).
Qed.

(** A container is rebuilt only when something in it changed. *)
Lemma rebuilt_settles {A} (mk : A -> json) (good : A -> bool) (goodValue : json -> bool) (a : A) (r : A * bool) :
  (forall x, goodValue (mk x) = good x) -> settles A good a r ->
  settles json goodValue (mk a) (if r.2 then (mk r.1, true) else (mk a, false)).
Proof.
  intros E (H1 & H2 & H3). destruct r as [x changed]; simpl in *. unfold settles.
  destruct changed; simpl; rewrite ?E; repeat split; auto; try congruence.
  rewrite <- (H2 eq_refl). exact H1.
Qed.

Lemma stringify_settles value (good : json -> bool) : isNil value = false ->
  (forall v, good v = match v with JNull | JStr _ => true | _ => bool_decide (Marshal v = None) end) ->
  settles json good value (stringifySchemaValue value).
Proof.
  intros N E. unfold settles, stringifySchemaValue.
  destruct value; simpl in *; try discriminate; rewrite ?E;
    try destruct (Marshal _) eqn:M; simpl; rewrite ?E, ?M; repeat split; try congruence.
Qed.

Lemma normalize_settles : forall value, settled value.
Proof.
  fix IH 1. intros value schema.
  assert (U : forall v, settles json (fun v => conforms v schema) v (v, false) <-> conforms v schema = true).
  { intros v. split; [by intros []|by repeat split]. }
  assert (N : demandOf schema = Nothing -> forall v, conforms v schema = true) by (intros E []; simpl; rewrite ?E; reflexivity).
  destruct value as [|b|n d|t|items|members];
    [by apply U|..]; simpl normalizeToolValueWithSchema; destruct (demandOf schema) as [| |itemsSchema|] eqn:E;
    try (apply U; first [apply N; exact E|simpl; by rewrite E]);
    try (apply stringify_settles; [reflexivity|]; intros []; simpl; by rewrite ?E).
  - apply (rebuilt_settles JArr (itemsConform conforms itemsSchema 0)); [intros x; simpl; by rewrite E|].
    apply items_settle. induction items as [|x l IHl]; constructor; [apply IH|exact IHl].
  - apply (rebuilt_settles JObj (membersConform conforms (mapOf schema))); [intros x; simpl; by rewrite E|].
    apply members_settle. induction members as [|[k x] l IHl]; constructor; [apply IH|exact IHl].
Qed.

(** What is left alone is the value itself, and a normalization is settled by the first pass. *)
Lemma normalize_again value schema :
  normalizeToolValueWithSchema (normalizeToolValueWithSchema value schema).1 schema = ((normalizeToolValueWithSchema value schema).1, false).
Proof.
  destruct (normalize_settles value schema) as [C _]. destruct (normalize_settles (normalizeToolValueWithSchema value schema).1 schema) as (_ & F & G).
  specialize (G C). by apply injective_projections; [apply F|].
Qed.

(** ** Calls *)

Definition callConforms (schemas : gmap string json) (call : ParsedToolCall) : bool :=
  conformsUnder conforms (Input call) (schemas !! ToLower (TrimSpace (Name call))).

(** Arguments are a map, or absent. *)
Definition mapInput (call : ParsedToolCall) : Prop := Input call = JNull \/ exists m, Input call = JObj m.

(** Arguments of an object schema stay a map. *)
Lemma normalize_map schema m : demandOf schema <> Stringify -> exists m', (normalizeToolValueWithSchema (JObj m) schema).1 = JObj m'.
Proof.
  intros D. simpl. destruct (demandOf schema); try contradiction; eauto. destruct (normalizeMembers _ _ _) as [out []]; simpl; eauto.
Qed.

(** The schema of the tool asks for an object, not for a string. *)
Definition objectSchema (schemas : gmap string json) (call : ParsedToolCall) : Prop :=
  forall s, schemas !! ToLower (TrimSpace (Name call)) = Some s -> demandOf s <> Stringify.

Lemma normalizeCall_name schemas call : Name (normalizeCall schemas call).1 = Name call.
Proof.
  unfold normalizeCall. destruct (schemas !! _); [|done]. destruct (isNil _); [done|].
  by destruct (normalizeToolValueWithSchema _ _) as [[] []].
Qed.

Lemma normalizeCall_settles schemas call : objectSchema schemas call -> mapInput call ->
  settles _ (callConforms schemas) call (normalizeCall schemas call).
Proof.
  intros O M. unfold objectSchema in O. unfold normalizeCall, settles, callConforms.
  destruct (schemas !! _) as [schema|] eqn:E; [|simpl; rewrite E; by repeat split].
  destruct M as [M|[m M]]; rewrite M; simpl isNil; cbv iota; [simpl; rewrite E, M; by repeat split|].
  destruct (normalize_map schema m (O _ eq_refl)) as [m' V]. destruct (normalize_settles (JObj m) schema) as (H1 & H2 & H3).
  destruct (normalizeToolValueWithSchema (JObj m) schema) as [v []]; simpl in V, H1, H2, H3; subst v; simpl; rewrite ?E.
  - repeat split; auto; congruence.
  - simpl. rewrite M. specialize (H2 eq_refl). repeat split; auto. congruence.
Qed.

Lemma normalizeCall_map schemas call : mapInput call -> mapInput (normalizeCall schemas call).1.
Proof.
  unfold normalizeCall. destruct (schemas !! _); [|done]. destruct (isNil _); [done|].
  destruct (normalizeToolValueWithSchema _ _) as [[] []]; try done. right. simpl. eauto.
Qed.

Lemma normalizeCall_again schemas call : objectSchema schemas call -> mapInput call ->
  (normalizeCall schemas (normalizeCall schemas call).1).1 = (normalizeCall schemas call).1.
Proof.
  intros O M. destruct (normalizeCall_settles _ _ O M) as [C _].
  assert (O' : objectSchema schemas (normalizeCall schemas call).1) by (unfold objectSchema; by rewrite normalizeCall_name).
  destruct (normalizeCall_settles _ _ O' (normalizeCall_map _ _ M)) as (_ & F & G). auto.
Qed.

Lemma unchanged_calls schemas calls : existsb snd (normalizeCall schemas <$> calls) = false ->
  (normalizeCall schemas <$> calls).*1 = calls.
Proof.
  induction calls as [|call calls IH]; [done|]. simpl. intros [F G]%orb_false_iff. f_equal; [|by apply IH].
  revert F. unfold normalizeCall. destruct (schemas !! _); [|done]. destruct (isNil _); [done|].
  by destruct (normalizeToolValueWithSchema _ _) as [[] []].
Qed.

(** Whatever changed, the result is the calls, each normalized. *)
Lemma normalized_calls toolsRaw calls :
  NormalizeParsedToolCallsForSchemas toolsRaw calls = (normalizeCall (buildToolSchemaIndex toolsRaw) <$> calls).*1.
Proof.
  unfold NormalizeParsedToolCallsForSchemas. case_bool_decide as E.
  - rewrite E. symmetry. apply unchanged_calls. induction calls as [|call calls IH]; [done|]. cbn [fmap list_fmap existsb]. rewrite IH, orb_false_r.
    unfold normalizeCall. by rewrite lookup_empty.
  - destruct (existsb _ _) eqn:F; [done|]. symmetry. by apply unchanged_calls.
Qed.

(** The calls stay as many, in their order and under their names. *)
Lemma normalized_names toolsRaw calls : Name <$> NormalizeParsedToolCallsForSchemas toolsRaw calls = Name <$> calls.
Proof.
  rewrite normalized_calls. induction calls as [|call calls IH]; [done|]. simpl. f_equal; [apply normalizeCall_name|exact IH].
Qed.

Lemma normalized_length toolsRaw calls : length (NormalizeParsedToolCallsForSchemas toolsRaw calls) = length calls.
Proof. pose proof (f_equal length (normalized_names toolsRaw calls)) as L. by rewrite !length_fmap in L. Qed.

(** ** Normalization brings a value in the form of its schema *)

Lemma demandOf_spec m : match demandOf (JObj m) with
  | Stringify => stringsOnly m
  | Members => ~ stringsOnly m /\ objectLike m
  | Items itemsSchema => ~ stringsOnly m /\ ~ objectLike m /\ arrayLike m /\ itemsSchema = at_ m "items" /\ isNil itemsSchema = false
  | Nothing => ~ stringsOnly m /\ ~ objectLike m /\ (arrayLike m -> isNil (at_ m "items") = true)
  end.
Proof.
  pose proof (stringsOnly_spec m) as S. pose proof (objectLike_spec m) as O. pose proof (arrayLike_spec m) as A.
  destruct m as [|x m]; [change (false = true <-> stringsOnly []) in S; change (false = true <-> objectLike []) in O; change (false = true <-> arrayLike []) in A; simpl; intuition discriminate|].
  unfold demandOf. destruct (shouldCoerceSchemaToString _); [by apply S|]. destruct (looksLikeObjectSchema _); [intuition discriminate|].
  destruct (looksLikeArraySchema _); [|intuition discriminate]. destruct (isNil _) eqn:N; intuition discriminate.
Qed.

(** A member or item by the schema found for it. *)
Lemma under_normal (schemaAt : option json) (isSchema : json -> Prop) v :
  (forall schema, schemaAt = Some schema <-> isSchema schema) ->
  (forall schema, normal schema v (normalizeToolValueWithSchema v schema).1) ->
  (exists schema, isSchema schema /\ normal schema v (normalizeUnder normalizeToolValueWithSchema v schemaAt).1) \/
  ((forall schema, ~ isSchema schema) /\ (normalizeUnder normalizeToolValueWithSchema v schemaAt).1 = v).
Proof.
  intros E H. destruct schemaAt as [schema|]; simpl; [left; exists schema; split; [by apply E|apply H]|].
  right. split; [|done]. by intros schema F%E.
Qed.

Lemma members_normal m obj : Forall (fun kv => forall schema, normal schema kv.2 (normalizeToolValueWithSchema kv.2 schema).1) obj ->
  Forall2 (fun kv kv' => kv'.1 = kv.1 /\
      ((exists schema, memberOf m kv.1 schema /\ normal schema kv.2 kv'.2) \/
       ((forall schema, ~ memberOf m kv.1 schema) /\ kv'.2 = kv.2))) obj (normalizeMembers normalizeToolValueWithSchema m obj).1.
Proof.
  induction 1 as [|[key v] obj H _ IH]; simpl; constructor; [|exact IH].
  split; [done|]. apply under_normal; [intros schema; apply memberOf_spec|exact H].
Qed.

Lemma items_normal itemsSchema isSchema arr : Forall (fun v => forall schema, normal schema v (normalizeToolValueWithSchema v schema).1) arr -> forall k,
  (forall i schema, itemSchema itemsSchema i = Some schema <-> isSchema i schema) ->
  let arr' := (normalizeItems normalizeToolValueWithSchema itemsSchema k arr).1 in
  length arr' = length arr /\
  forall i v, arr !! i = Some v -> exists v', arr' !! i = Some v' /\
      ((exists schema, isSchema (k + i) schema /\ normal schema v v') \/ ((forall schema, ~ isSchema (k + i) schema) /\ v' = v)).
Proof.
  intros F. induction F as [|v arr H _ IH]; intros k E arr'; [done|]. simpl in arr'. destruct (IH (S k) E) as [L N]. subst arr'.
  split; [simpl; by rewrite L|]. intros [|i] x X.
  - injection X as <-. simpl. eexists. split; [done|]. rewrite Nat.add_0_r. by apply under_normal.
  - destruct (N i x X) as (v' & K & R). exists v'. split; [exact K|]. by rewrite <- Nat.add_succ_comm.
Qed.

Lemma stringify_normal m value : stringsOnly m -> normal (JObj m) value (stringifySchemaValue value).1.
Proof.
  intros S. unfold stringifySchemaValue.
  destruct value; try destruct (Marshal _) eqn:M; simpl; first [apply normal_nil|by apply normal_string|by apply normal_text|by apply normal_textless].
Qed.

Lemma unchanged_normal m value : ~ stringsOnly m -> ~ objectLike m -> (arrayLike m -> isNil (at_ m "items") = true) -> normal (JObj m) value value.
Proof.
  intros S O A. destruct (looksLikeArraySchema m) eqn:L.
  - apply arrayLike_spec in L. destruct value as [| | | |arr|]; try (apply normal_other; done).
    apply normal_array; auto. intros i v K. exists v. split; [done|]. right. split; [|done]. intros schema. apply itemOf_none. auto.
  - apply normal_other; [done|tauto|]. intros _ K%arrayLike_spec. congruence.
Qed.

Lemma rebuilt_fst {A} (mk : A -> json) (value : json) (r : A * bool) : (r.2 = false -> mk r.1 = value) ->
  (if r.2 then (mk r.1, true) else (value, false)).1 = mk r.1.
Proof. destruct r as [a []]; simpl; [done|]. symmetry. auto. Qed.

Lemma normalize_normal : forall value schema, normal schema value (normalizeToolValueWithSchema value schema).1.
Proof.
  fix IH 1. intros value schema.
  destruct schema as [| | | | |m]; try (destruct value; apply normal_schemaless; discriminate).
  pose proof (demandOf_spec m) as D.
  destruct value as [| | | |arr|obj]; [apply normal_nil|..]; cbn [normalizeToolValueWithSchema]; revert D; destruct (demandOf (JObj m)) as [| |itemsSchema|]; intros D;
    try (by apply stringify_normal); try (apply unchanged_normal; tauto);
    try (destruct D as (S & O & A & -> & N); apply normal_other; tauto || done);
    try (destruct D as [S O]; apply normal_other; tauto || done).
  - destruct D as (S & O & A & -> & N).
    assert (F : Forall (fun v => forall schema, normal schema v (normalizeToolValueWithSchema v schema).1) arr)
      by (induction arr as [|x l IHl]; constructor; [apply IH|exact IHl]).
    refine (eq_ind_r (normal (JObj m) (JArr arr)) _ (rebuilt_fst JArr (JArr arr) (normalizeItems normalizeToolValueWithSchema (at_ m "items") 0 arr) _)).
    + destruct (items_normal (at_ m "items") (itemOf m) arr F 0) as [L X]; [intros i schema; by apply itemOf_spec|]. by apply normal_array.
    + intros E. f_equal. apply (items_settle (at_ m "items") arr) in E; [done|]. apply Forall_forall. intros v _. apply normalize_settles.
  - destruct D as [S O].
    assert (F : Forall (fun kv => forall schema, normal schema kv.2 (normalizeToolValueWithSchema kv.2 schema).1) obj)
      by (induction obj as [|[k x] l IHl]; constructor; [apply IH|exact IHl]).
    refine (eq_ind_r (normal (JObj m) (JObj obj)) _ (rebuilt_fst JObj (JObj obj) (normalizeMembers normalizeToolValueWithSchema m obj) _)).
    + apply normal_object; [done|done|]. by apply members_normal.
    + intros E. f_equal. apply (members_settle m obj) in E; [done|]. apply Forall_forall. intros v _. apply normalize_settles.
Qed.

(** Arguments of a schema that admits strings only are kept as they are. *)
Lemma normalizeCall_strings schemas call s : mapInput call -> schemas !! ToLower (TrimSpace (Name call)) = Some s -> demandOf s = Stringify ->
  (normalizeCall schemas call).1 = call.
Proof.
  intros M E D. unfold normalizeCall. rewrite E. destruct M as [M|[m M]]; rewrite M; simpl; [done|]. rewrite D. by destruct (Marshal _).
Qed.

Lemma normalizeCall_twice schemas call : mapInput call -> (normalizeCall schemas (normalizeCall schemas call).1).1 = (normalizeCall schemas call).1.
Proof.
  intros M. destruct (schemas !! ToLower (TrimSpace (Name call))) as [s|] eqn:E.
  - destruct (demandOf s) eqn:D; [by rewrite !(normalizeCall_strings schemas call s)|..];
      (apply normalizeCall_again; [|done]; intros s' E'; congruence).
  - by unfold normalizeCall; rewrite !E; simpl; rewrite E.
Qed.

(** The arguments of a call after normalization. *)
Lemma normalizeCall_normal schemas call : mapInput call ->
  match schemas !! ToLower (TrimSpace (Name call)) with
  | None => (normalizeCall schemas call).1 = call
  | Some schema => (forall m, schema = JObj m -> stringsOnly m -> (normalizeCall schemas call).1 = call) /\
      ((forall m, schema = JObj m -> ~ stringsOnly m) -> normal schema (Input call) (Input (normalizeCall schemas call).1))
  end.
Proof.
  intros M. destruct (schemas !! _) as [schema|] eqn:E; [|unfold normalizeCall; by rewrite E]. split.
  - intros m -> S. apply (normalizeCall_strings _ _ (JObj m)); try done. pose proof (demandOf_spec m) as D. destruct (demandOf (JObj m)); tauto.
  - intros N. unfold normalizeCall. rewrite E. pose proof (normalize_normal (Input call) schema) as X.
    destruct M as [M|[m M]]; [rewrite M; simpl; first [rewrite M|idtac]; apply normal_nil|].
    rewrite M in X |- *. cbn [isNil].
    assert (D : demandOf schema <> Stringify).
    { intros D. destruct schema as [| | | | |sm]; try discriminate D. pose proof (demandOf_spec sm) as K. rewrite D in K. by apply (N sm). }
    destruct (normalize_map schema m D) as [m' V]. destruct (normalize_settles (JObj m) schema) as (_ & H & _).
    destruct (normalizeToolValueWithSchema (JObj m) schema) as [v []]; simpl in *; subst v; simpl; [done|]. rewrite M. by rewrite (H eq_refl) in X.
Qed.

(** C9. After the calls of a reply are put in the form of the tools the request declared, they are the
    same calls under the same names and in the same order.  The arguments of a call whose name no
    tool declares, or whose tool admits only strings, are those the model wrote.  The others are in
    the form of the schema declared for the name, at every depth: where the schema, read from its
    [const], [enum] and [type], admits only strings, a value that is neither a string nor [nil] is
    replaced by its JSON text, if it has one; members follow [properties] and then
    [additionalProperties], items follow [items]; everything else is as it was.  A second pass
    changes nothing. *)
Theorem arguments_conform toolsRaw calls :
  Forall mapInput calls ->
  let out := NormalizeParsedToolCallsForSchemas toolsRaw calls in
  length out = length calls /\
  (forall i call, calls !! i = Some call -> exists input, out !! i = Some {| Name := Name call; Input := input |} /\
    let name := ToLower (TrimSpace (Name call)) in
    ((forall schema, ~ declared toolsRaw name schema) -> input = Input call) /\
    (forall schema, declared toolsRaw name schema ->
       (forall m, schema = JObj m -> stringsOnly m -> input = Input call) /\
       ((forall m, schema = JObj m -> ~ stringsOnly m) -> normal schema (Input call) input))) /\
  NormalizeParsedToolCallsForSchemas toolsRaw out = out.
Proof.
  intros M out. split; [apply normalized_length|]. split.
  - intros i call L. subst out. rewrite normalized_calls, !list_lookup_fmap, L. simpl.
    exists (Input (normalizeCall (buildToolSchemaIndex toolsRaw) call).1). split.
    { rewrite <- (normalizeCall_name (buildToolSchemaIndex toolsRaw) call). by destruct (normalizeCall _ call).1. }
    apply list_elem_of_lookup_2 in L. apply (proj1 (Forall_forall _ _) M) in L.
    pose proof (normalizeCall_normal (buildToolSchemaIndex toolsRaw) call L) as N.
    pose proof (schemaIndex_spec toolsRaw (ToLower (TrimSpace (Name call)))) as I.
    destruct (buildToolSchemaIndex toolsRaw !! _) as [s|].
    + split; [intros X; destruct (X s); by apply I|]. intros schema D%I. injection D as <-. destruct N as [N1 N2].
      split; [intros m E S; by rewrite (N1 m E S)|exact N2].
    + rewrite N. split; [done|]. by intros schema D%I.
  - subst out. rewrite !normalized_calls, <- !list_fmap_compose. apply list_fmap_ext. intros i call L. unfold compose.
    apply list_elem_of_lookup_2 in L. apply (proj1 (Forall_forall _ _) M) in L. by apply normalizeCall_twice.
Qed.

End Normalize.

(** The JSON text of whole numbers, here. *)
Definition demoMarshal (v : json) : option string := match v with JNum 5 1 => Some "5" | _ => Some "{}" end.
Notation demoTools := (JArr [JObj [("type", JStr "function");
  ("function", JObj [("name", JStr "Read");
    ("parameters", JObj [("type", JStr "object");
       ("properties", JObj [("path", JObj [("type", JStr "string")]);
                            ("lines", JObj [("type", JStr "array"); ("items", JObj [("type", JArr [JStr "string"; JStr "null"])])])])])])]]) (only parsing).
Notation demoCalls := [{| Name := "read"; Input := JObj [("path", JNum 5 1); ("lines", JArr [JStr "a"; JObj [("b", JNull)]]); ("limit", JNum 5 1)] |}] (only parsing).

Lemma arguments_conform_witness :
  let out := NormalizeParsedToolCallsForSchemas demoMarshal demoTools demoCalls in
  out = [{| Name := "read"; Input := JObj [("path", JStr "5"); ("lines", JArr [JStr "a"; JStr "{}"]); ("limit", JNum 5 1)] |}] /\
  NormalizeParsedToolCallsForSchemas demoMarshal demoTools out = out.
Proof.
  split; [by vm_compute|]. apply (arguments_conform demoMarshal demoTools demoCalls).
  apply Forall_singleton. right. eexists. reflexivity.
Defined.
