(* ===== verification/ResponsesStream.v ===== *)
(** The event stream of the Responses API:
    [internal/httpapi/openai/responses/responses_stream_runtime_core.go], [_events.go],
    [_toolcalls.go], [_toolcalls_finalize.go], [responses_stream_delta_batch.go] and the payloads of
    [internal/format/openai/render_stream_events.go].

    The runtime turns parsed upstream lines into numbered events: items are announced, filled and
    closed, and a terminal event ends the stream.  What is written to the client is a list of
    frames.  The sieve for tool calls is any state machine with the operations of [ToolSieve]; the
    parser of complete tool blocks, the cleaning of text, the normalisation of arguments, the JSON
    codec and the source of unique identifiers are parameters; usage counts are left out. *)
From S2P Require Import Prelude GoString GoText Json Sse Pump StreamEngine.
From S2P Require Export StreamShared.
From S2P Require ToolRepair.
Local Open Scope string_scope.
Local Open Scope Z_scope.
Local Open Scope list_scope.

Notation jmap := (list (string * json)).

(** ** What is written *)

(** The object of [BuildResponseObjectFromItems], without the time and the usage. *)
Record responseObject := { Output : list json; OutputText : string }.

(** The events with the fields of their payloads that vary. *)
Inductive event :=
| Created
| ItemAdded (index : Z) (id : string) (item : jmap)
| ItemDone (index : Z) (id : string) (item : jmap)
| PartAdded (index : Z) (id : string)
| PartDone (index : Z) (id text : string)
| TextDelta (index : Z) (id delta : string)
| TextDone (index : Z) (id text : string)
| ReasoningDelta (delta : string)
| ArgumentsDelta (index : Z) (id callID delta : string)
| ArgumentsDone (index : Z) (id callID name arguments : string)
| Completed (obj : responseObject)
| Failed (status : Z) (message code : string).

Inductive frame :=
| Event (sequence : Z) (e : event)
| DoneFrame.

(** ** State *)

(** The writer, the counters and the items put before the answer. *)
Record wire := {
  sequence : Z; started : bool; nextOutputID : Z; uuids : nat; outputPrefix : list json; written : list frame
}.
Record messageState := {
  messageItemID : string; messageOutputID : Z; messageAdded : bool; messagePartAdded : bool; visibleText : string
}.
Record functionState := {
  streamToolCallIDs : gmap Z string; functionItemIDs : gmap Z string; functionOutputIDs : gmap Z Z; functionArgs : gmap Z string;
  functionDone : gmap Z bool; functionAdded : gmap Z bool; functionNames : gmap Z string
}.
Record finals := {
  failed : bool; finalErrorStatus : Z; finalErrorMessage : string; finalErrorCode : string;
  finalThinking : string; finalText : string; finalFinishReason : string; completedObject : option responseObject
}.

Definition emptyFunctions : functionState :=
  {| streamToolCallIDs := ∅; functionItemIDs := ∅; functionOutputIDs := ∅; functionArgs := ∅; functionDone := ∅; functionAdded := ∅; functionNames := ∅ |}.
Definition noFinals : finals :=
  {| failed := false; finalErrorStatus := 0; finalErrorMessage := ""; finalErrorCode := ""; finalThinking := ""; finalText := "";
     finalFinishReason := ""; completedObject := None |}.

Record runtime (S : Type) := {
  sieve : S; onWire : wire; message : messageState; functions : functionState; seen : texts; final : finals; responseMessageID : Z;
  toolCallsEmitted : bool; toolCallsDoneEmitted : bool; persisted : list (option responseObject)
}.
Arguments Build_runtime {S}.
Arguments sieve {S}.
Arguments onWire {S}.
Arguments message {S}.
Arguments functions {S}.
Arguments seen {S}.
Arguments final {S}.
Arguments responseMessageID {S}.
Arguments toolCallsEmitted {S}.
Arguments toolCallsDoneEmitted {S}.
Arguments persisted {S}.

Section Runtime.
Context {S : Type}.
Variable ProcessChunk : S -> string -> S * list toolEvent.
Variable FlushSieve : S -> S * list toolEvent.
Variable parseToolCalls : string -> list ParsedToolCall.
Variable clean : string -> string.
Variable normalizeCalls : list ParsedToolCall -> list ParsedToolCall.
Variable Marshal : json -> option string.
Variable Unmarshal : string -> option json.
(** The [n]-th identifier, without dashes. *)
Variable uuid : nat -> string.
Variables thinkingEnabled searchEnabled bufferToolContent emitEarlyToolDeltas toolRequired : bool.

(** ** Setters *)

Definition withWire (w : wire) (s : runtime S) : runtime S :=
  Build_runtime (sieve s) w (message s) (functions s) (seen s) (final s) (responseMessageID s) (toolCallsEmitted s) (toolCallsDoneEmitted s) (persisted s).
Definition withMessage (m : messageState) (s : runtime S) : runtime S :=
  Build_runtime (sieve s) (onWire s) m (functions s) (seen s) (final s) (responseMessageID s) (toolCallsEmitted s) (toolCallsDoneEmitted s) (persisted s).
Definition withFunctions (f : functionState) (s : runtime S) : runtime S :=
  Build_runtime (sieve s) (onWire s) (message s) f (seen s) (final s) (responseMessageID s) (toolCallsEmitted s) (toolCallsDoneEmitted s) (persisted s).
Definition withTexts (t : texts) (s : runtime S) : runtime S :=
  Build_runtime (sieve s) (onWire s) (message s) (functions s) t (final s) (responseMessageID s) (toolCallsEmitted s) (toolCallsDoneEmitted s) (persisted s).
Definition withFinal (f : finals) (s : runtime S) : runtime S :=
  Build_runtime (sieve s) (onWire s) (message s) (functions s) (seen s) f (responseMessageID s) (toolCallsEmitted s) (toolCallsDoneEmitted s) (persisted s).
Definition withSieve (v : S) (s : runtime S) : runtime S :=
  Build_runtime v (onWire s) (message s) (functions s) (seen s) (final s) (responseMessageID s) (toolCallsEmitted s) (toolCallsDoneEmitted s) (persisted s).
Definition withMessageID (n : Z) (s : runtime S) : runtime S :=
  Build_runtime (sieve s) (onWire s) (message s) (functions s) (seen s) (final s) n (toolCallsEmitted s) (toolCallsDoneEmitted s) (persisted s).
Definition withEmitted (emitted done : bool) (s : runtime S) : runtime S :=
  Build_runtime (sieve s) (onWire s) (message s) (functions s) (seen s) (final s) (responseMessageID s) emitted done (persisted s).
Definition persist (o : option responseObject) (s : runtime S) : runtime S :=
  Build_runtime (sieve s) (onWire s) (message s) (functions s) (seen s) (final s) (responseMessageID s) (toolCallsEmitted s) (toolCallsDoneEmitted s) (persisted s ++ [o]).

(** ** Writing *)

Definition sendEvent (e : event) (w : wire) : wire :=
  let n := sequence w + 1 in
  {| sequence := n; started := started w; nextOutputID := nextOutputID w; uuids := uuids w; outputPrefix := outputPrefix w;
     written := written w ++ [Event n e] |}.
Definition sendDone (w : wire) : wire :=
  {| sequence := sequence w; started := started w; nextOutputID := nextOutputID w; uuids := uuids w; outputPrefix := outputPrefix w;
     written := written w ++ [DoneFrame] |}.
Definition freshID (prefix : string) (w : wire) : wire * string :=
  ({| sequence := sequence w; started := started w; nextOutputID := nextOutputID w; uuids := Datatypes.S (uuids w); outputPrefix := outputPrefix w;
      written := written w |}, prefix +:+ uuid (uuids w)).
Definition allocateOutputIndex (w : wire) : wire * Z :=
  ({| sequence := sequence w; started := started w; nextOutputID := nextOutputID w + 1; uuids := uuids w; outputPrefix := outputPrefix w;
      written := written w |}, nextOutputID w).
Definition setPrefix (l : list json) (w : wire) : wire :=
  {| sequence := sequence w; started := started w; nextOutputID := nextOutputID w; uuids := uuids w; outputPrefix := l; written := written w |}.
Definition setStarted (w : wire) : wire :=
  {| sequence := sequence w; started := true; nextOutputID := nextOutputID w; uuids := uuids w; outputPrefix := outputPrefix w; written := written w |}.

(** The items of the prefix, each with an identifier. *)
Fixpoint emitPrefixItems (items : list json) (w : wire) : wire * list json :=
  match items with
  | [] => (w, [])
  | JObj item :: l =>
      let own := TrimSpace (asString (member "id" item)) in
      let '(w, id, item) := if bool_decide (own = "")
                            then let '(w, id) := freshID "item_" w in (w, id, ToolRepair.assign "id" (JStr id) item)
                            else (w, own, item) in
      let '(w, index) := allocateOutputIndex w in
      let w := sendEvent (ItemDone index id item) (sendEvent (ItemAdded index id item) w) in
      let '(w, items) := emitPrefixItems l w in (w, JObj item :: items)
  | v :: l => let '(w, items) := emitPrefixItems l w in (w, v :: items)
  end.

Definition start (w : wire) : wire :=
  if started w then w
  else
    let w := sendEvent Created (setStarted w) in
    let '(w, items) := emitPrefixItems (outputPrefix w) w in setPrefix items w.

Definition put (f : wire -> wire) (s : runtime S) : runtime S := withWire (f (onWire s)) s.
Definition send (e : event) (s : runtime S) : runtime S := put (sendEvent e) s.

(** ** The message item *)

Definition setMessageID (id : string) (m : messageState) : messageState :=
  {| messageItemID := id; messageOutputID := messageOutputID m; messageAdded := messageAdded m; messagePartAdded := messagePartAdded m; visibleText := visibleText m |}.
Definition setMessageIndex (i : Z) (m : messageState) : messageState :=
  {| messageItemID := messageItemID m; messageOutputID := i; messageAdded := messageAdded m; messagePartAdded := messagePartAdded m; visibleText := visibleText m |}.
Definition setAdded (added part : bool) (m : messageState) : messageState :=
  {| messageItemID := messageItemID m; messageOutputID := messageOutputID m; messageAdded := added; messagePartAdded := part; visibleText := visibleText m |}.
Definition addVisible (t : string) (m : messageState) : messageState :=
  {| messageItemID := messageItemID m; messageOutputID := messageOutputID m; messageAdded := messageAdded m; messagePartAdded := messagePartAdded m;
     visibleText := visibleText m +:+ t |}.

Definition ensureMessageItemID (s : runtime S) : runtime S :=
  if negb (bool_decide (TrimSpace (messageItemID (message s)) = "")) then s
  else let '(w, id) := freshID "msg_" (onWire s) in withMessage (setMessageID id (message s)) (withWire w s).

Definition ensureMessageOutputIndex (s : runtime S) : runtime S :=
  if 0 <=? messageOutputID (message s) then s
  else let '(w, i) := allocateOutputIndex (onWire s) in withMessage (setMessageIndex i (message s)) (withWire w s).

Definition messageItem (id : string) (status : string) (content : option (list json)) : jmap :=
  [("id", JStr id); ("type", JStr "message"); ("role", JStr "assistant"); ("status", JStr status)] ++
  match content with Some c => [("content", JArr c)] | None => [] end.
Definition outputText (t : string) : json := JObj [("type", JStr "output_text"); ("text", JStr t)].

Definition ensureMessageItemAdded (s : runtime S) : runtime S :=
  if messageAdded (message s) then s
  else
    let s := ensureMessageOutputIndex (ensureMessageItemID (put start s)) in
    let id := messageItemID (message s) in
    let s := send (ItemAdded (messageOutputID (message s)) id (messageItem id "in_progress" None)) s in
    withMessage (setAdded true (messagePartAdded (message s)) (message s)) s.

Definition ensureMessageContentPartAdded (s : runtime S) : runtime S :=
  if messagePartAdded (message s) then s
  else
    let s := ensureMessageOutputIndex (ensureMessageItemID (ensureMessageItemAdded s)) in
    let s := send (PartAdded (messageOutputID (message s)) (messageItemID (message s))) s in
    withMessage (setAdded (messageAdded (message s)) true (message s)) s.

Definition emitTextDelta (content : string) (s : runtime S) : runtime S :=
  if bool_decide (content = "") then s
  else
    let s := ensureMessageContentPartAdded s in
    let s := withMessage (addVisible content (message s)) s in
    let s := ensureMessageOutputIndex (ensureMessageItemID s) in
    send (TextDelta (messageOutputID (message s)) (messageItemID (message s)) content) s.

Definition closeMessageItem (s : runtime S) : runtime S :=
  if negb (messageAdded (message s)) then s
  else
    let s := ensureMessageOutputIndex (ensureMessageItemID s) in
    let id := messageItemID (message s) in
    let i := messageOutputID (message s) in
    let t := visibleText (message s) in
    let s := if messagePartAdded (message s)
             then let s := send (PartDone i id t) (send (TextDone i id t) s) in withMessage (setAdded (messageAdded (message s)) false (message s)) s
             else s in
    send (ItemDone i id (messageItem id "completed" (Some [outputText t]))) s.

(** ** Function items *)

Definition setItemIDs (m : gmap Z string) (f : functionState) : functionState :=
  {| streamToolCallIDs := streamToolCallIDs f; functionItemIDs := m; functionOutputIDs := functionOutputIDs f; functionArgs := functionArgs f;
     functionDone := functionDone f; functionAdded := functionAdded f; functionNames := functionNames f |}.
Definition setCallIDs (m : gmap Z string) (f : functionState) : functionState :=
  {| streamToolCallIDs := m; functionItemIDs := functionItemIDs f; functionOutputIDs := functionOutputIDs f; functionArgs := functionArgs f;
     functionDone := functionDone f; functionAdded := functionAdded f; functionNames := functionNames f |}.
Definition setOutputIDs (m : gmap Z Z) (f : functionState) : functionState :=
  {| streamToolCallIDs := streamToolCallIDs f; functionItemIDs := functionItemIDs f; functionOutputIDs := m; functionArgs := functionArgs f;
     functionDone := functionDone f; functionAdded := functionAdded f; functionNames := functionNames f |}.
Definition setArgs (m : gmap Z string) (f : functionState) : functionState :=
  {| streamToolCallIDs := streamToolCallIDs f; functionItemIDs := functionItemIDs f; functionOutputIDs := functionOutputIDs f; functionArgs := m;
     functionDone := functionDone f; functionAdded := functionAdded f; functionNames := functionNames f |}.
Definition setDone (m : gmap Z bool) (f : functionState) : functionState :=
  {| streamToolCallIDs := streamToolCallIDs f; functionItemIDs := functionItemIDs f; functionOutputIDs := functionOutputIDs f; functionArgs := functionArgs f;
     functionDone := m; functionAdded := functionAdded f; functionNames := functionNames f |}.
Definition setFnAdded (m : gmap Z bool) (f : functionState) : functionState :=
  {| streamToolCallIDs := streamToolCallIDs f; functionItemIDs := functionItemIDs f; functionOutputIDs := functionOutputIDs f; functionArgs := functionArgs f;
     functionDone := functionDone f; functionAdded := m; functionNames := functionNames f |}.
Definition setNames (m : gmap Z string) (f : functionState) : functionState :=
  {| streamToolCallIDs := streamToolCallIDs f; functionItemIDs := functionItemIDs f; functionOutputIDs := functionOutputIDs f; functionArgs := functionArgs f;
     functionDone := functionDone f; functionAdded := functionAdded f; functionNames := m |}.
Definition onFunctions (f : functionState -> functionState) (s : runtime S) : runtime S := withFunctions (f (functions s)) s.

Definition ensureFunctionItemID (c : Z) (s : runtime S) : runtime S :=
  if negb (bool_decide (TrimSpace (get "" (functionItemIDs (functions s)) c) = "")) then s
  else let '(w, id) := freshID "fc_" (onWire s) in onFunctions (fun f => setItemIDs (<[c := id]> (functionItemIDs f)) f) (withWire w s).

Definition ensureToolCallID (c : Z) (s : runtime S) : runtime S :=
  if negb (bool_decide (TrimSpace (get "" (streamToolCallIDs (functions s)) c) = "")) then s
  else let '(w, id) := freshID "call_" (onWire s) in onFunctions (fun f => setCallIDs (<[c := id]> (streamToolCallIDs f)) f) (withWire w s).

Definition ensureFunctionOutputIndex (c : Z) (s : runtime S) : runtime S :=
  match functionOutputIDs (functions s) !! c with
  | Some _ => s
  | None => let '(w, i) := allocateOutputIndex (onWire s) in onFunctions (fun f => setOutputIDs (<[c := i]> (functionOutputIDs f)) f) (withWire w s)
  end.

(** The index and the two identifiers of a call, in the order in which they are asked for. *)
Definition ensureFunction (c : Z) (s : runtime S) : runtime S := ensureToolCallID c (ensureFunctionItemID c (ensureFunctionOutputIndex c s)).
Definition indexOf (c : Z) (s : runtime S) : Z := get 0 (functionOutputIDs (functions s)) c.
Definition itemIDOf (c : Z) (s : runtime S) : string := get "" (functionItemIDs (functions s)) c.
Definition callIDOf (c : Z) (s : runtime S) : string := get "" (streamToolCallIDs (functions s)) c.

Definition functionItem (id callID name arguments status : string) : jmap :=
  [("id", JStr id); ("type", JStr "function_call"); ("call_id", JStr callID); ("name", JStr name); ("arguments", JStr arguments); ("status", JStr status)].

Definition resetStreamToolCallState (s : runtime S) : runtime S := withFunctions emptyFunctions s.

Definition ensureFunctionItemAdded (c : Z) (name : string) (s : runtime S) : runtime S :=
  let s := if bool_decide (TrimSpace name = "") then s else onFunctions (fun f => setNames (<[c := TrimSpace name]> (functionNames f)) f) s in
  if get false (functionAdded (functions s)) c then s
  else
    let fnName := TrimSpace (get "" (functionNames (functions s)) c) in
    if bool_decide (fnName = "") then s
    else
      let s := ensureFunction c (put start s) in
      let s := send (ItemAdded (indexOf c s) (itemIDOf c s) (functionItem (itemIDOf c s) (callIDOf c s) fnName "" "in_progress")) s in
      let s := onFunctions (fun f => setFnAdded (<[c := true]> (functionAdded f)) f) s in
      withEmitted true (toolCallsDoneEmitted s) s.

Definition emitFunctionCallDelta (s : runtime S) (d : ToolCallDelta) : runtime S :=
  let c := Index d in
  let s := ensureFunctionItemAdded c (DeltaName d) s in
  if bool_decide (TrimSpace (Arguments d) = "") then s
  else
    let s := onFunctions (fun f => setArgs (<[c := get "" (functionArgs f) c +:+ Arguments d]> (functionArgs f)) f) s in
    let s := ensureFunction c s in
    send (ArgumentsDelta (indexOf c s) (itemIDOf c s) (callIDOf c s) (Arguments d)) s.
Definition emitFunctionCallDeltaEvents (deltas : list ToolCallDelta) (s : runtime S) : runtime S := fold_left emitFunctionCallDelta deltas s.

Definition normalizeJSONString (raw : string) : string :=
  let s := TrimSpace raw in
  if bool_decide (s = "") then "{}"
  else match Unmarshal s with
       | Some v => default raw (Marshal v)
       | None => raw
       end.

(** The two events that close a function item, and its marks. *)
Definition closeFunction (c : Z) (name args : string) (s : runtime S) : runtime S :=
  let s := send (ArgumentsDone (indexOf c s) (itemIDOf c s) (callIDOf c s) name (normalizeJSONString args)) s in
  let s := send (ItemDone (indexOf c s) (itemIDOf c s) (functionItem (itemIDOf c s) (callIDOf c s) name args "completed")) s in
  let s := onFunctions (fun f => setDone (<[c := true]> (functionDone f)) f) s in
  withEmitted (toolCallsEmitted s) true s.

Definition emitFunctionCallDone (s : runtime S) (c : Z) (tc : ParsedToolCall) : runtime S :=
  if bool_decide (TrimSpace (Name tc) = "") then s
  else
    let s := ensureFunctionItemAdded c (Name tc) s in
    if get false (functionDone (functions s)) c then s
    else
      let s := ensureFunction c s in
      let args := marshalled Marshal (Input tc) in
      let s := onFunctions (fun f => setArgs (<[c := args]> (functionArgs f)) f) s in
      closeFunction c (Name tc) args s.

Fixpoint emitDoneFrom (c : Z) (calls : list ParsedToolCall) (s : runtime S) : runtime S :=
  match calls with
  | [] => s
  | tc :: l => emitDoneFrom (c + 1) l (emitFunctionCallDone s c tc)
  end.
Definition emitFunctionCallDoneEvents (calls : list ParsedToolCall) (s : runtime S) : runtime S := emitDoneFrom 0 (normalizeCalls calls) s.

(** The deltas of one event; [None]: nothing is left of them and the event is skipped. *)
Definition processDeltas (deltas : list ToolCallDelta) (s : runtime S) : option (runtime S) * runtime S :=
  match deltas with
  | [] => (Some s, s)
  | _ => if negb emitEarlyToolDeltas then (None, s)
         else
           let '(names, filtered) := filterIncrementalToolCallDeltasByAllowed deltas (functionNames (functions s)) in
           let s := onFunctions (setNames names) s in
           match filtered with
           | [] => (None, s)
           | _ => (Some (emitFunctionCallDeltaEvents filtered s), s)
           end
  end.

Definition processToolEvent (s : runtime S) (evt : toolEvent) : runtime S :=
  let s := if bool_decide (Content evt = "") then s
           else let cleaned := clean (Content evt) in
                if negb (bool_decide (cleaned = "")) && (negb searchEnabled || negb (IsCitation cleaned)) then emitTextDelta cleaned s else s in
  match processDeltas (ToolCallDeltas evt) s with
  | (None, s) => s
  | (Some s, _) =>
      match ToolCalls evt with
      | [] => s
      | calls => resetStreamToolCallState (emitFunctionCallDoneEvents calls s)
      end
  end.
Definition processToolStreamEvents (events : list toolEvent) (s : runtime S) : runtime S := fold_left processToolEvent events s.

(** ** Parsed lines *)

Record deltaBatch := { batchKind : string; batchText : string }.
Definition emptyBatch : deltaBatch := {| batchKind := ""; batchText := "" |}.

Definition flushBatch (b : deltaBatch) (s : runtime S) : runtime S * deltaBatch :=
  if bool_decide (batchKind b = "") || bool_decide (batchText b = "") then (s, b)
  else
    let s := put start s in
    let s := if bool_decide (batchKind b = "reasoning") then send (ReasoningDelta (batchText b)) s
             else if bool_decide (batchKind b = "text") then emitTextDelta (batchText b) s else s in
    (s, emptyBatch).

Definition appendBatch (kind t : string) (r : runtime S * deltaBatch) : runtime S * deltaBatch :=
  let '(s, b) := r in
  if bool_decide (t = "") then r
  else
    let '(s, b) := if negb (bool_decide (batchKind b = "")) && negb (bool_decide (batchKind b = kind)) then flushBatch b s else r in
    (s, {| batchKind := kind; batchText := batchText b +:+ t |}).

Definition onTexts (f : texts -> texts) (s : runtime S) : runtime S := withTexts (f (seen s)) s.

(** A part of reasoning. *)
Definition onThinkingPart (p : ContentPart) (r : runtime S * deltaBatch * bool) : runtime S * deltaBatch * bool :=
  let '(s, b, contentSeen) := r in
  let rawTrimmed := TrimContinuationOverlap (rawThinking (seen s)) (Text p) in
  let s := onTexts (addRawThinking rawTrimmed) s in
  let contentSeen := contentSeen || negb (bool_decide (rawTrimmed = "")) in
  if negb thinkingEnabled then (s, b, contentSeen)
  else
    let cleanedText := clean rawTrimmed in
    let trimmed := TrimContinuationOverlap (thinking (seen s)) cleanedText in
    if bool_decide (cleanedText = "") || bool_decide (trimmed = "") then (s, b, contentSeen)
    else (appendBatch "reasoning" trimmed (onTexts (addThinking trimmed) s, b), contentSeen).

(** A part of text. *)
Definition onTextPart (p : ContentPart) (r : runtime S * deltaBatch * bool) : runtime S * deltaBatch * bool :=
  let '(s, b, contentSeen) := r in
  let rawTrimmed := TrimContinuationOverlap (rawText (seen s)) (Text p) in
  if bool_decide (rawTrimmed = "") then r
  else
    let s := onTexts (addRawText rawTrimmed) s in
    let cleanedText := clean rawTrimmed in
    if searchEnabled && IsCitation cleanedText then (s, b, true)
    else
      let trimmed := TrimContinuationOverlap (text (seen s)) cleanedText in
      let s := onTexts (addText trimmed) s in
      if negb bufferToolContent then
        if bool_decide (trimmed = "") then (s, b, true) else (appendBatch "text" trimmed (s, b), true)
      else
        let '(s, b) := flushBatch b s in
        let '(v, events) := ProcessChunk (sieve s) rawTrimmed in
        (processToolStreamEvents events (withSieve v s), b, true).

Definition onPart (r : runtime S * deltaBatch * bool) (p : ContentPart) : runtime S * deltaBatch * bool :=
  if bool_decide (Type_ p = "thinking") then onThinkingPart p r else onTextPart p r.

Definition onParsed (s : runtime S) (parsed : LineResult) : runtime S * ParsedDecision :=
  if negb (Parsed parsed) then (s, decision false "" false)
  else
    let s := if 0 <? ResponseMessageID parsed then withMessageID (ResponseMessageID parsed) s else s in
    if ContentFilter parsed || negb (bool_decide (ErrorMessage parsed = "")) then (s, decision true "content_filter" false)
    else if Stop parsed then (s, decision true "" false)
    else
      let s := onTexts (fun t => fold_left addDetection (ToolDetectionThinkingParts parsed) t) s in
      let '(s, b, contentSeen) := fold_left onPart (Parts parsed) (s, emptyBatch, false) in
      let '(s, _) := flushBatch b s in
      (s, decision false "" contentSeen).

(** ** The end *)

(** The code of [BuildResponsesFailedPayload]. *)
Definition failureCode (code : string) : string := let code := TrimSpace code in if bool_decide (code = "") then "api_error" else code.

Definition failResponse (status : Z) (message code : string) (s : runtime S) : runtime S :=
  let f := final s in
  let s := withFinal {| failed := true; finalErrorStatus := status; finalErrorMessage := message; finalErrorCode := code;
                        finalThinking := finalThinking f; finalText := finalText f; finalFinishReason := finalFinishReason f; completedObject := completedObject f |} s in
  if negb (started (onWire s)) then s
  else put sendDone (send (Failed status message (failureCode code)) (persist None s)).

Definition markContextCancelled (s : runtime S) : runtime S :=
  let f := final s in
  withFinal {| failed := true; finalErrorStatus := 499; finalErrorMessage := "request context cancelled"; finalErrorCode := StopReasonContextCancelled;
               finalThinking := finalThinking f; finalText := finalText f; finalFinishReason := finalFinishReason f; completedObject := completedObject f |} s.

(** The calls announced and not yet closed, by index. *)
Definition incompleteFunctions (s : runtime S) : list Z :=
  let f := functions s in
  sortBy Z.ltb (filter (fun c => get false (functionDone f) c = false /\ TrimSpace (get "" (functionNames f) c) <> "")
                  (omap (fun e : Z * bool => if e.2 then Some e.1 else None) (map_to_list (functionAdded f)))).

Definition closeIncompleteFunctionItem (s : runtime S) (c : Z) : runtime S :=
  let name := TrimSpace (get "" (functionNames (functions s)) c) in
  let own := TrimSpace (get "" (functionArgs (functions s)) c) in
  let args := if bool_decide (own = "") then "{}" else own in
  closeFunction c name args (ensureFunction c s).
Definition closeIncompleteFunctionItems (s : runtime S) : runtime S := fold_left closeIncompleteFunctionItem (incompleteFunctions s) s.

(** The calls of the final object, with their output indices. *)
Fixpoint completedCalls (c : Z) (calls : list ParsedToolCall) (s : runtime S) : runtime S * list (Z * json) :=
  match calls with
  | [] => (s, [])
  | tc :: l =>
      if bool_decide (TrimSpace (Name tc) = "") then completedCalls (c + 1) l s
      else
        let s := ensureFunction c s in
        let item := JObj (functionItem (itemIDOf c s) (callIDOf c s) (Name tc) (marshalled Marshal (Input tc)) "completed") in
        let i := indexOf c s in
        let '(s, items) := completedCalls (c + 1) l s in (s, (i, item) :: items)
  end.

(** The message of the final object. *)
Definition completedMessage (thinkingText finalText : string) (calls : list ParsedToolCall) (s : runtime S) : runtime S * list (Z * json) :=
  let item content s :=
    let s := ensureMessageItemID (ensureMessageOutputIndex s) in
    (s, [(messageOutputID (message s), JObj (messageItem (messageItemID (message s)) "completed" (Some content)))]) in
  if messageAdded (message s) then item [outputText (visibleText (message s))] s
  else match calls with
       | [] =>
           let content := (if bool_decide (thinkingText = "") then [] else [JObj [("type", JStr "reasoning"); ("text", JStr thinkingText)]]) ++
                          (if bool_decide (finalText = "") then [] else [outputText finalText]) in
           match content with [] => (s, []) | _ => item content s end
       | _ => (s, [])
       end.

Definition buildCompletedResponseObject (thinkingText finalText : string) (calls : list ParsedToolCall) (s : runtime S) : runtime S * responseObject :=
  let '(s, messageItems) := completedMessage thinkingText finalText calls s in
  let '(s, callItems) := completedCalls 0 (normalizeCalls calls) s in
  let indexed := sortBy (fun a b => a.1 <? b.1) (messageItems ++ callItems) in
  let visible := visibleText (message s) in
  let shown := if bool_decide (visible = "") && bool_decide (calls = []) then (if bool_decide (finalText = "") then thinkingText else finalText) else visible in
  (s, {| Output := outputPrefix (onWire s) ++ indexed.*2; OutputText := shown |}).

(** The end of [finalize], once there is something to deliver. *)
Definition complete (thinkingText finalText : string) (calls : list ParsedToolCall) (s : runtime S) : runtime S :=
  let s := closeIncompleteFunctionItems (put start s) in
  let '(s, obj) := buildCompletedResponseObject thinkingText finalText calls s in
  let f := final s in
  let s := withFinal {| failed := failed f; finalErrorStatus := finalErrorStatus f; finalErrorMessage := finalErrorMessage f; finalErrorCode := finalErrorCode f;
                        finalThinking := finalThinking f; ResponsesStream.finalText := ResponsesStream.finalText f; finalFinishReason := finalFinishReason f;
                        completedObject := Some obj |} s in
  put sendDone (send (Completed obj) (persist (Some obj) s)).

(** What [finalize] does before it decides: the held text, the calls found at the end, the message closed. *)
Definition settle (finishReason : string) (s : runtime S) : runtime S * list ParsedToolCall :=
  let t := seen s in
  let finalText := clean (text t) in
  let s := withFinal {| failed := false; finalErrorStatus := 0; finalErrorMessage := ""; finalErrorCode := ""; finalThinking := thinking t;
                        ResponsesStream.finalText := finalText; finalFinishReason := finishReason; completedObject := completedObject (final s) |} s in
  let s := if bufferToolContent then let '(v, events) := FlushSieve (sieve s) in processToolStreamEvents events (withSieve v s) else s in
  let detected := DetectAssistantToolCalls parseToolCalls (rawText (seen s)) finalText (rawThinking (seen s)) (toolDetectionThinking t) in
  let s := match detected with
           | [] => s
           | _ => let s := withEmitted true (toolCallsDoneEmitted s) s in
                  if toolCallsDoneEmitted s then s else emitFunctionCallDoneEvents detected s
           end in
  (closeMessageItem s, detected).

Definition finalize (finishReason : string) (deferEmptyOutput : bool) (s : runtime S) : runtime S * bool :=
  let '(s, detected) := settle finishReason s in
  let finalText := ResponsesStream.finalText (final s) in
  if toolRequired && bool_decide (detected = []) then
    (failResponse 422 "tool_choice requires at least one valid tool call." "tool_choice_violation" s, true)
  else if bool_decide (detected = []) && bool_decide (TrimSpace finalText = "") then
    let '(status, message, code) := UpstreamEmptyOutputDetail (bool_decide (finishReason = "content_filter")) in
    if deferEmptyOutput then
      let f := final s in
      (withFinal {| failed := failed f; finalErrorStatus := status; finalErrorMessage := message; finalErrorCode := code; finalThinking := finalThinking f;
                    ResponsesStream.finalText := ResponsesStream.finalText f; finalFinishReason := finalFinishReason f; completedObject := completedObject f |} s, false)
    else (failResponse status message code s, true)
  else (complete (finalThinking (final s)) finalText detected s, true).

(** [newResponsesStreamRuntime], with the prefix announced at once when there is one. *)
Definition newResponsesStreamRuntime (v : S) (outputPrefix : list json) : runtime S :=
  let s := Build_runtime v {| sequence := 0; started := false; nextOutputID := 0; uuids := 0; outputPrefix := outputPrefix; written := [] |}
             {| messageItemID := ""; messageOutputID := -1; messageAdded := false; messagePartAdded := false; visibleText := "" |}
             emptyFunctions {| rawThinking := ""; thinking := ""; toolDetectionThinking := ""; rawText := ""; text := "" |} noFinals 0 false false [] in
  match outputPrefix with [] => s | _ => put start s end.
End Runtime.
