(* ===== verification/StreamProtocol.v ===== *)
(** The protocol of the Responses event stream, and the proof that [ResponsesStream] keeps it.

    [watch] is a client: it accepts a list of frames if the events are numbered one by one, begin
    with the creation of the response, announce every item once and before anything is said about
    it, fill and close it in order, and stop after the terminal event. *)
From S2P Require Import Prelude GoString GoText Json Sse Pump StreamEngine ResponsesStream.
From Stdlib Require Import Ascii.
Local Open Scope string_scope.
Local Open Scope Z_scope.
Local Open Scope list_scope.

(** ** The client *)

(** What the client knows of an item: announced, its text part open or closed, closed. *)
Inductive phase := Announced | Filling (t : string) | Filled (t : string) | Closed.

Record view := { vSeq : Z; vCreated : bool; vItems : gmap Z (string * phase); vOver : bool; vEnd : bool }.
Definition blank : view := {| vSeq := 0; vCreated := false; vItems := ∅; vOver := false; vEnd := false |}.

Definition setItem (i : Z) (id : string) (p : phase) (v : view) : view :=
  {| vSeq := vSeq v; vCreated := vCreated v; vItems := <[i := (id, p)]> (vItems v); vOver := vOver v; vEnd := vEnd v |}.
Definition endView (v : view) : view := {| vSeq := vSeq v; vCreated := vCreated v; vItems := vItems v; vOver := true; vEnd := vEnd v |}.

(** The item at [i], if it carries this identifier. *)
Definition phaseOf (i : Z) (id : string) (v : view) : option phase :=
  match vItems v !! i with Some (id', p) => if bool_decide (id = id') then Some p else None | None => None end.

Definition onEvent (e : event) (v : view) : option view :=
  match e with
  | Created => if vCreated v then None else Some {| vSeq := vSeq v; vCreated := true; vItems := vItems v; vOver := vOver v; vEnd := vEnd v |}
  | ItemAdded i id _ => match vItems v !! i with None => Some (setItem i id Announced v) | Some _ => None end
  | PartAdded i id => match phaseOf i id v with Some Announced => Some (setItem i id (Filling "") v) | _ => None end
  | TextDelta i id d => match phaseOf i id v with Some (Filling t) => Some (setItem i id (Filling (t +:+ d)) v) | _ => None end
  | TextDone i id t => match phaseOf i id v with Some (Filling t') => if bool_decide (t = t') then Some v else None | _ => None end
  | PartDone i id t => match phaseOf i id v with Some (Filling t') => if bool_decide (t = t') then Some (setItem i id (Filled t) v) else None | _ => None end
  | ArgumentsDelta i id _ _ | ArgumentsDone i id _ _ _ => match phaseOf i id v with Some Announced => Some v | _ => None end
  | ItemDone i id _ => match phaseOf i id v with Some Announced | Some (Filled _) => Some (setItem i id Closed v) | _ => None end
  | ReasoningDelta _ => Some v
  | Completed _ | Failed _ _ _ => Some (endView v)
  end.

Definition onFrame (v : view) (f : frame) : option view :=
  match f with
  | Event n e =>
      if bool_decide (n = vSeq v + 1) && negb (vOver v) && (vCreated v || match e with Created => true | _ => false end)
      then onEvent e {| vSeq := n; vCreated := vCreated v; vItems := vItems v; vOver := vOver v; vEnd := vEnd v |} else None
  | DoneFrame => if vOver v && negb (vEnd v) then Some {| vSeq := vSeq v; vCreated := vCreated v; vItems := vItems v; vOver := true; vEnd := true |} else None
  end.

Fixpoint watch (v : view) (l : list frame) : option view :=
  match l with
  | [] => Some v
  | f :: l => match onFrame v f with Some v => watch v l | None => None end
  end.

Lemma watch_app (v : view) (l l' : list frame) : watch v (l ++ l') = match watch v l with Some v' => watch v' l' | None => None end.
Proof. revert v. induction l as [|f l IH]; intros v; [done|]. cbn [app watch]. by destruct (onFrame v f). Qed.

(** ** What the writer and the client agree on *)

(** The client has accepted everything and stands where the writer does. *)
Record follows (w : wire) (v : view) : Prop := {
  fo_watch : watch blank (written w) = Some v;
  fo_seq : vSeq v = sequence w;
  fo_created : vCreated v = started w;
  fo_over : vOver v = false;
  fo_bound : forall i x, vItems v !! i = Some x -> 0 <= i < nextOutputID w;
  fo_next : 0 <= nextOutputID w;
  fo_started : forall i x, vItems v !! i = Some x -> started w = true
}.

(** The next event as the client takes it. *)
Definition numbered (v : view) : view := {| vSeq := vSeq v + 1; vCreated := vCreated v; vItems := vItems v; vOver := vOver v; vEnd := vEnd v |}.

Lemma follows_send w v v' e : follows w v -> started w = true -> onEvent e (numbered v) = Some v' -> vSeq v' = vSeq v + 1 -> vCreated v' = vCreated v ->
  vOver v' = false -> (forall i x, vItems v' !! i = Some x -> 0 <= i < nextOutputID w) -> follows (sendEvent e w) v'.
Proof.
  intros [H1 H2 H3 H4 H5 H6 H7] Hs He Hq Hc Ho Hb. split; cbn [written sequence started nextOutputID sendEvent].
  - rewrite watch_app, H1. cbn [watch onFrame]. rewrite bool_decide_eq_true_2 by lia. rewrite H4, H3, Hs. cbn [negb andb orb].
    rewrite H2 in *. unfold numbered in He. rewrite H2, H4, H3, Hs in He. by rewrite He.
  - lia.
  - congruence.
  - done.
  - exact Hb.
  - exact H6.
  - done.
Qed.

(** The client still knows what it knew. *)
Definition extends (v v' : view) : Prop := forall i x, vItems v !! i = Some x -> vItems v' !! i = Some x.
Lemma viewExtends_refl v : extends v v.
Proof. by intros i x. Qed.
Lemma viewExtends_trans v v' v'' : extends v v' -> extends v' v'' -> extends v v''.
Proof. intros H1 H2 i x Hx. auto. Qed.

Lemma phaseOf_some i id p v : vItems v !! i = Some (id, p) -> phaseOf i id v = Some p.
Proof. intros H. unfold phaseOf. by rewrite H, bool_decide_eq_true_2. Qed.

Section Follows.
Variable uuid : nat -> string.

Lemma follows_fresh p w v : follows w v -> follows (freshID uuid p w).1 v.
Proof. by intros [H1 H2 H3 H4 H5 H6 H7]. Qed.

Lemma follows_allocate w v : follows w v -> follows (allocateOutputIndex w).1 v /\ vItems v !! nextOutputID w = None.
Proof.
  intros [H1 H2 H3 H4 H5 H6 H7]. split.
  - split; try done; cbn [nextOutputID allocateOutputIndex fst]; [|lia]. intros i x Hx. apply H5 in Hx. lia.
  - destruct (vItems v !! nextOutputID w) as [x|] eqn:Hx; [|done]. apply H5 in Hx. lia.
Qed.

(** An event about an item below the next index. *)
Lemma follows_set w v e i id p : follows w v -> started w = true -> onEvent e (numbered v) = Some (setItem i id p (numbered v)) ->
  0 <= i < nextOutputID w -> follows (sendEvent e w) (setItem i id p (numbered v)).
Proof.
  intros Hw Hs He Hi. eapply follows_send; try done; [apply Hw|]. intros j x. cbn [vItems setItem].
  destruct (decide (j = i)) as [->|Hne]; [done|]. rewrite lookup_insert_ne by done. apply Hw.
Qed.
Lemma follows_same w v e : follows w v -> started w = true -> onEvent e (numbered v) = Some (numbered v) -> follows (sendEvent e w) (numbered v).
Proof. intros Hw Hs He. eapply follows_send; try done; apply Hw. Qed.

(** A new item is announced at a fresh index. *)
Lemma follows_added w v i id item : follows w v -> started w = true -> vItems v !! i = None -> 0 <= i < nextOutputID w ->
  follows (sendEvent (ItemAdded i id item) w) (setItem i id Announced (numbered v)) /\ extends v (setItem i id Announced (numbered v)).
Proof.
  intros Hw Hs Hi Hb. split.
  - apply follows_set; try done. cbn [onEvent numbered vItems]. by rewrite Hi.
  - intros j x Hx. cbn [vItems setItem]. rewrite lookup_insert_ne; [done|]. by intros ->; rewrite Hi in Hx.
Qed.

Lemma emitPrefixItems_follows items w v : follows w v -> started w = true ->
  exists v', follows (emitPrefixItems uuid items w).1 v' /\ started (emitPrefixItems uuid items w).1 = true /\ extends v v'.
Proof.
  revert w v. induction items as [|item items IH]; intros w v Hw Hs; [by exists v; split_and!; [..|apply viewExtends_refl]|].
  assert (forall v0, exists v', follows (let '(w, items) := emitPrefixItems uuid items w in (w, v0 :: items)).1 v' /\
    started (let '(w, items) := emitPrefixItems uuid items w in (w, v0 :: items)).1 = true /\ extends v v') as Hskip.
  { intros v0. destruct (IH w v Hw Hs) as (v' & H1 & H2 & H3). destruct (emitPrefixItems uuid items w). by exists v'. }
  destruct item as [| | | | |m]; try apply Hskip. cbn [emitPrefixItems].
  assert (exists w1 id item1, (if bool_decide (TrimSpace (asString (member "id" m)) = "") then let '(w, id) := freshID uuid "item_" w in (w, id, ToolRepair.assign "id" (JStr id) m)
    else (w, TrimSpace (asString (member "id" m)), m)) = (w1, id, item1) /\ follows w1 v /\ started w1 = true) as (w1 & id & item1 & -> & Hw1 & Hs1).
  { destruct (bool_decide _); [|by eexists _, _, _]. eexists _, _, _. split; [reflexivity|]. split; [|done]. by apply (follows_fresh "item_") in Hw. }
  destruct (follows_allocate w1 v Hw1) as [Hw2 Hfresh]. cbn [allocateOutputIndex].
  set (w2 := (allocateOutputIndex w1).1) in *. change {| sequence := _ |} with w2.
  assert (0 <= nextOutputID w1 < nextOutputID w2) as Hb by (unfold w2; cbn; pose proof (fo_next _ _ Hw1); lia).
  destruct (follows_added w2 v (nextOutputID w1) id item1) as [Hw3 He3]; try done.
  set (v3 := setItem (nextOutputID w1) id Announced (numbered v)) in *.
  assert (follows (sendEvent (ItemDone (nextOutputID w1) id item1) (sendEvent (ItemAdded (nextOutputID w1) id item1) w2))
    (setItem (nextOutputID w1) id Closed (numbered v3))) as Hw4.
  { apply follows_set; try done. cbn [onEvent]. rewrite (phaseOf_some _ _ Announced); [done|]. apply lookup_insert_eq. }
  destruct (IH _ _ Hw4 Hs1) as (v' & H1 & H2 & H3).
  clear Hskip IH. destruct (emitPrefixItems uuid items _) as [w5 items5]. exists v'. split_and!; [exact H1|exact H2|].
  eapply viewExtends_trans; [|exact H3]. intros j x Hx. cbn [vItems setItem]. rewrite lookup_insert_ne; [by apply He3|]. by intros <-; rewrite Hfresh in Hx.
Qed.

Lemma start_follows w v : follows w v -> exists v', follows (start uuid w) v' /\ started (start uuid w) = true /\ extends v v'.
Proof.
  intros Hw. unfold start. destruct (started w) eqn:Hs; [by exists v; split_and!; [..|apply viewExtends_refl]|].
  assert (follows (sendEvent Created (setStarted w)) {| vSeq := vSeq v + 1; vCreated := true; vItems := vItems v; vOver := vOver v; vEnd := vEnd v |}) as H1.
  { destruct Hw as [H1 H2 H3 H4 H5 H6 H7]. split; cbn [written sequence started nextOutputID sendEvent setStarted vSeq vCreated vItems vOver].
    - rewrite watch_app, H1. cbn [watch onFrame]. rewrite bool_decide_eq_true_2 by lia. rewrite H4, H3, Hs. cbn [negb andb orb onEvent vCreated].
      by rewrite H2.
    - lia.
    - done.
    - done.
    - done.
    - done.
    - done. }
  destruct (emitPrefixItems_follows (outputPrefix (sendEvent Created (setStarted w))) _ _ H1 eq_refl) as (v' & H2 & H3 & H4).
  destruct (emitPrefixItems uuid _ _) as [w2 items]. exists v'. split_and!; [|exact H3|exact H4]. destruct H2. by split.
Qed.
End Follows.

(** ** The items *)

Definition messagePhase (m : messageState) : phase := if messagePartAdded m then Filling (visibleText m) else Announced.

(** The message item; while it is [live], the client holds exactly the text that was sent. *)
Definition messageAgrees (live : bool) (m : messageState) (v : view) : Prop :=
  if messageAdded m then
    TrimSpace (messageItemID m) <> "" /\ 0 <= messageOutputID m /\
    exists p, vItems v !! messageOutputID m = Some (messageItemID m, p) /\
      (live = true -> p = messagePhase m /\ (messagePartAdded m = false -> visibleText m = ""))
  else messagePartAdded m = false /\ visibleText m = "" /\ messageOutputID m < 0.

Definition functionPhase (f : functionState) (c : Z) : phase := if get false (functionDone f) c then Closed else Announced.

(** The item of call [c], if it was announced. *)
Definition functionAgrees (m : messageState) (f : functionState) (v : view) (c : Z) : Prop :=
  if get false (functionAdded f) c then
    exists i id, functionOutputIDs f !! c = Some i /\ functionItemIDs f !! c = Some id /\ TrimSpace id <> "" /\
      TrimSpace (get "" (streamToolCallIDs f) c) <> "" /\
      vItems v !! i = Some (id, functionPhase f c) /\ (messageAdded m = true -> i <> messageOutputID m)
  else functionOutputIDs f !! c = None /\ get false (functionDone f) c = false.

Record agree (live : bool) (w : wire) (m : messageState) (f : functionState) (v : view) : Prop := {
  ag_follows : follows w v;
  ag_message : messageAgrees live m v;
  ag_functions : forall c, functionAgrees m f v c;
  ag_inj : forall c c' i, functionOutputIDs f !! c = Some i -> functionOutputIDs f !! c' = Some i -> c = c'
}.

(** The client agrees with the runtime. *)
Definition inStep {S} (live : bool) (s : runtime S) : Prop := exists v, agree live (onWire s) (message s) (functions s) v.

Lemma agree_extends live w w' m f v v' : agree live w m f v -> follows w' v' -> extends v v' -> agree live w' m f v'.
Proof.
  intros [H1 H2 H3 H4] Hw He. split; [done| | |done].
  - unfold messageAgrees in *. destruct (messageAdded m); [|done]. destruct H2 as (Hid & Hi & p & Hp & Hl). split_and!; [done..|]. exists p. split; [by apply He|done].
  - intros c. specialize (H3 c). unfold functionAgrees in *. destruct (get false (functionAdded f) c); [|done].
    destruct H3 as (i & id & Ho & Hid & Ht & Hc & Hv & Hm). exists i, id. split_and!; try done. by apply He.
Qed.

Lemma id_visible (c : ascii) (s : string) : plainByte c = true -> TrimSpace (String c s) <> "".
Proof.
  intros Hc H.
  assert (forall t : string, trimLeftSpaceRev (t +:+ String c "") <> "") as Hr.
  { intros t. induction t as [t IH] using string_length_ind. rewrite trimLeftSpaceRev_eq.
    destruct (leadSpaceRev (t +:+ String c "")) as [r|] eqn:E; [|by destruct t].
    assert (exists t', r = t' +:+ String c "" /\ (String.length t' < String.length t)%nat) as (t' & -> & Hlt); [|by apply IH].
    unfold leadSpaceRev, leadRest in E. destruct t as [|x [|y [|z t]]]; rewrite ?append_cons, ?append_nil_l in E; cbv beta iota in E.
    - destruct (plain_leadSpace c "" Hc) as [_ Hn]. unfold leadSpaceRev, leadRest in Hn. destruct (space1 c); congruence.
    - destruct (space1 x); [injection E as <-; exists ""; cbn; split; [done|lia]|].
      destruct (plain_leadSpace c (String x "") Hc) as [Hn _]. unfold leadSpace, leadRest in Hn. destruct (space1 c); [congruence|].
      destruct (space2 c x); congruence.
    - destruct (space1 x); [injection E as <-; exists (String y ""); cbn; split; [done|lia]|].
      destruct (space2 y x); [injection E as <-; exists ""; cbn; split; [done|lia]|].
      destruct (plain_leadSpace c (String y (String x "")) Hc) as [Hn _]. unfold leadSpace, leadRest in Hn. destruct (space1 c); [done|].
      destruct (space2 c y); [congruence|]. destruct (space3 c y x); congruence.
    - destruct (space1 x); [injection E as <-; exists (String y (String z t)); cbn; split; [done|lia]|].
      destruct (space2 y x); [injection E as <-; exists (String z t); cbn; split; [done|lia]|].
      destruct (space3 z y x); [injection E as <-; exists t; cbn; split; [done|lia]|done]. }
  unfold TrimSpace, trimRightSpace in H. rewrite (trim_fix _ _ trimLeftSpace trimLeftSpace_eq) in H by (by apply plain_leadSpace).
  apply (Hr (strRev s)). rewrite <- (strRev_involutive (trimLeftSpaceRev _)).
  change (strRev (String c s)) with (revOnto s (String c "")) in H. rewrite revOnto_app in H. by rewrite H.
Qed.
Lemma fresh_visible (c : ascii) (p r : string) : plainByte c = true -> TrimSpace (String c p +:+ r) <> "".
Proof. rewrite append_cons. apply id_visible. Qed.

Lemma phase_numbered i id p v : vItems v !! i = Some (id, p) -> phaseOf i id (numbered v) = Some p.
Proof. intros H. by apply (phaseOf_some i id p (numbered v)). Qed.

Section Message.
Context {S : Type}.
Variable uuid : nat -> string.
Implicit Types s : runtime S.

Lemma put_start s live : inStep live s -> inStep live (put (start uuid) s) /\ started (onWire (put (start uuid) s)) = true.
Proof.
  intros [v Hv]. destruct (start_follows uuid _ _ (ag_follows _ _ _ _ _ Hv)) as (v' & H1 & H2 & H3).
  split; [|exact H2]. exists v'. by eapply agree_extends.
Qed.

Lemma ensureMessageItemID_same s : TrimSpace (messageItemID (message s)) <> "" -> ensureMessageItemID uuid s = s.
Proof. intros H. unfold ensureMessageItemID. by rewrite (bool_decide_eq_false_2 _ H). Qed.
Lemma ensureMessageOutputIndex_same s : 0 <= messageOutputID (message s) -> ensureMessageOutputIndex s = s.
Proof. intros H. unfold ensureMessageOutputIndex. by apply Z.leb_le in H as ->. Qed.

(** The identifier of the message. *)
Lemma ensureMessageItemID_fresh s live : inStep live s -> messageAdded (message s) = false ->
  let s' := ensureMessageItemID uuid s in
  inStep live s' /\ TrimSpace (messageItemID (message s')) <> "" /\ messageAdded (message s') = false /\ started (onWire s') = started (onWire s) /\ functions s' = functions s.
Proof.
  intros [v [H1 H2 H3 H4]] Ha. unfold ensureMessageItemID. destruct (bool_decide (TrimSpace (messageItemID (message s)) = "")) eqn:Hb; cbn [negb].
  - cbn [freshID]. split_and!; [|by apply fresh_visible|done..]. exists v.
    split; [by apply (follows_fresh uuid "msg_") in H1| |exact H3|exact H4].
    unfold messageAgrees in *. by cbn; rewrite Ha in *.
  - split_and!; [by exists v|by apply bool_decide_eq_false in Hb|done..].
Qed.

Lemma ensureMessageItemAdded_ok s : inStep true s ->
  let s' := ensureMessageItemAdded uuid s in
  inStep true s' /\ messageAdded (message s') = true /\ functions s' = functions s /\ (started (onWire s) = true \/ messageAdded (message s) = false -> started (onWire s') = true).
Proof.
  intros Hs. unfold ensureMessageItemAdded. destruct (messageAdded (message s)) eqn:Ha; [by split_and!; [..|intros [?|?]]|].
  destruct (put_start s true Hs) as [H1 Hst]. set (s1 := put (start uuid) s) in *.
  assert (messageAdded (message s1) = false) as Ha1 by exact Ha.
  destruct (ensureMessageItemID_fresh s1 true H1 Ha1) as (H2 & Hid & Ha2 & Hst2 & Hf2). set (s2 := ensureMessageItemID uuid s1) in *. rewrite Hst in Hst2.
  destruct H2 as [v [Hw Hm Hf Hi]]. unfold messageAgrees in Hm. rewrite Ha2 in Hm. destruct Hm as (Hp & Hv & Hneg).
  unfold ensureMessageOutputIndex. destruct (Z.leb_spec 0 (messageOutputID (message s2))); [lia|]. cbn [allocateOutputIndex].
  destruct (follows_allocate _ _ Hw) as [Hw3 Hfresh]. set (w3 := (allocateOutputIndex (onWire s2)).1) in *. change {| sequence := _ |} with w3.
  destruct (follows_added w3 v (nextOutputID (onWire s2)) (messageItemID (message s2)) (messageItem (messageItemID (message s2)) "in_progress" None)) as [Hw4 He]; [done|done|done|unfold w3; cbn; pose proof (fo_next _ _ Hw); lia|].
  split_and!; [|done|exact Hf2|done].
  eexists. split; [exact Hw4| | |exact Hi].
  - unfold messageAgrees. cbn. split; [exact Hid|]. split; [apply (fo_next _ _ Hw)|]. exists Announced. split; [apply lookup_insert_eq|]. intros _. split; [|done].
    unfold messagePhase. cbn. by rewrite Hp.
  - intros c. specialize (Hf c). unfold functionAgrees in *. cbn in *. destruct (get false (functionAdded (functions s2)) c); [|done].
    destruct Hf as (i & id & Ho & Hx & Ht & Hc & Hl & _). exists i, id. split_and!; try done; [by apply He|].
    intros _ ->. by rewrite Hfresh in Hl.
Qed.

(** An event that changes the message item and nothing else. *)
Lemma message_event s v m e p : agree true (onWire s) (message s) (functions s) v -> messageAdded (message s) = true -> started (onWire s) = true ->
  onEvent e (numbered v) = Some (setItem (messageOutputID (message s)) (messageItemID (message s)) p (numbered v)) ->
  messageOutputID m = messageOutputID (message s) -> messageItemID m = messageItemID (message s) -> messageAdded m = true ->
  forall live, (live = true -> p = messagePhase m /\ (messagePartAdded m = false -> visibleText m = "")) ->
  agree live (sendEvent e (onWire s)) m (functions s) (setItem (messageOutputID (message s)) (messageItemID (message s)) p (numbered v)).
Proof.
  intros [H1 H2 H3 H4] Ha Hst He Hi Hid Hm live Hlive. unfold messageAgrees in H2. rewrite Ha in H2. destruct H2 as (Ht & H0 & p0 & Hp0 & _).
  split; [|unfold messageAgrees; rewrite Hm, Hid, Hi; split_and!; [done..|]; exists p; split; [apply lookup_insert_eq|exact Hlive]| |exact H4].
  - apply follows_set; try done. by apply (fo_bound _ _ H1) in Hp0.
  - intros c. specialize (H3 c). unfold functionAgrees in *. destruct (get false (functionAdded (functions s)) c); [|done].
    destruct H3 as (i & id & Ho & Hx & Ht' & Hc & Hl & Hne). exists i, id. specialize (Hne Ha).
    split_and!; try done; [|by rewrite Hi]. cbn [vItems setItem numbered]. by rewrite lookup_insert_ne.
Qed.

Lemma message_phase s v : agree true (onWire s) (message s) (functions s) v -> messageAdded (message s) = true ->
  vItems v !! messageOutputID (message s) = Some (messageItemID (message s), messagePhase (message s)) /\
  TrimSpace (messageItemID (message s)) <> "" /\ 0 <= messageOutputID (message s) /\ (messagePartAdded (message s) = false -> visibleText (message s) = "").
Proof.
  intros [_ H _ _] Ha. unfold messageAgrees in H. rewrite Ha in H. destruct H as (Ht & H0 & p & Hp & Hl). destruct (Hl eq_refl) as [-> Hv]. by split_and!.
Qed.

Lemma agree_started s live v : agree live (onWire s) (message s) (functions s) v -> messageAdded (message s) = true -> started (onWire s) = true.
Proof.
  intros [H1 H2 _ _] Ha. unfold messageAgrees in H2. rewrite Ha in H2. destruct H2 as (_ & _ & p & Hp & _). by apply (fo_started _ _ H1) in Hp.
Qed.

Lemma ensureMessageContentPartAdded_ok s : inStep true s ->
  let s' := ensureMessageContentPartAdded uuid s in
  inStep true s' /\ messageAdded (message s') = true /\ messagePartAdded (message s') = true /\ functions s' = functions s.
Proof.
  intros Hs. unfold ensureMessageContentPartAdded. destruct (messagePartAdded (message s)) eqn:Hp.
  { destruct Hs as [v Hv]. split_and!; [by exists v| |done|done]. destruct (ag_message _ _ _ _ _ Hv) as [? _] || idtac.
    pose proof (ag_message _ _ _ _ _ Hv) as Hm. unfold messageAgrees in Hm. destruct (messageAdded (message s)); [done|]. destruct Hm as [Hm _]. congruence. }
  destruct (ensureMessageItemAdded_ok s Hs) as ([v Hv] & Ha & Hf & _). set (s1 := ensureMessageItemAdded uuid s) in *.
  assert (messagePartAdded (message s1) = false) as Hp1.
  { unfold s1, ensureMessageItemAdded. destruct (messageAdded (message s)); [done|]. unfold ensureMessageOutputIndex, ensureMessageItemID.
    destruct (negb _); destruct (0 <=? _); exact Hp. }
  destruct (message_phase s1 v Hv Ha) as (Hph & Hid & H0 & Hvis). unfold messagePhase in Hph. rewrite Hp1 in Hph.
  rewrite (ensureMessageItemID_same s1 Hid), (ensureMessageOutputIndex_same s1 H0). split_and!; [|done|done|done].
  eexists. eapply (message_event s1 v (setAdded (messageAdded (message s1)) true (message s1)) _ (Filling "")); try done.
  - by eapply agree_started.
  - cbn [onEvent]. by rewrite (phase_numbered _ _ _ _ Hph).
  - intros _. unfold messagePhase. cbn. rewrite Hvis by done. done.
Qed.

Lemma emitTextDelta_ok s content : inStep true s -> inStep true (emitTextDelta uuid content s) /\ functions (emitTextDelta uuid content s) = functions s.
Proof.
  intros Hs. unfold emitTextDelta. destruct (bool_decide (content = "")); [done|].
  destruct (ensureMessageContentPartAdded_ok s Hs) as ([v Hv] & Ha & Hp & Hf). set (s1 := ensureMessageContentPartAdded uuid s) in *.
  destruct (message_phase s1 v Hv Ha) as (Hph & Hid & H0 & _). unfold messagePhase in Hph. rewrite Hp in Hph.
  rewrite ensureMessageItemID_same, ensureMessageOutputIndex_same by done. split; [|done].
  eexists. eapply (message_event s1 v (addVisible content (message s1)) _ (Filling (visibleText (message s1) +:+ content))); try done.
  - by eapply agree_started.
  - cbn [onEvent]. change (messageOutputID (message (withMessage _ s1))) with (messageOutputID (message s1)).
    change (messageItemID (message (withMessage _ s1))) with (messageItemID (message s1)). by rewrite (phase_numbered _ _ _ _ Hph).
  - intros _. unfold messagePhase. cbn. by rewrite Hp.
Qed.

Lemma closeMessageItem_ok s : inStep true s -> inStep false (closeMessageItem uuid s) /\ functions (closeMessageItem uuid s) = functions s /\
  (messageAdded (message s) = false -> closeMessageItem uuid s = s).
Proof.
  intros [v Hv]. unfold closeMessageItem. destruct (messageAdded (message s)) eqn:Ha; cbn [negb].
  2: { split_and!; [|done..]. exists v. destruct Hv as [H1 H2 H3 H4]. split; try done. unfold messageAgrees in *. by rewrite Ha in *. }
  destruct (message_phase s v Hv Ha) as (Hph & Hid & H0 & _). pose proof (agree_started s true v Hv Ha) as Hst.
  rewrite ensureMessageItemID_same, ensureMessageOutputIndex_same by done.
  destruct (messagePartAdded (message s)) eqn:Hp; unfold messagePhase in Hph; rewrite Hp in Hph.
  - split_and!; [|done|done].
    assert (agree true (onWire (send (TextDone (messageOutputID (message s)) (messageItemID (message s)) (visibleText (message s))) s)) (message s) (functions s) (numbered v)) as H1.
    { destruct Hv as [F1 F2 F3 F4]. split; [|done..]. apply follows_same; try done. cbn [onEvent]. rewrite (phase_numbered _ _ _ _ Hph).
      by rewrite bool_decide_eq_true_2. }
    set (s1 := send (TextDone _ _ _) s) in *. change (message s) with (message s1) in H1. change (functions s) with (functions s1) in H1.
    change (message s) with (message s1). change (messageAdded (message s1) = true) in Ha.
    eassert (agree false _ (setAdded (messageAdded (message s1)) false (message s1)) (functions s1) _) as H2.
    { eapply (message_event s1 (numbered v) (setAdded (messageAdded (message s1)) false (message s1)) (PartDone (messageOutputID (message s1)) (messageItemID (message s1)) (visibleText (message s1))) (Filled (visibleText (message s1)))); try done.
      cbn [onEvent]. rewrite (phase_numbered (messageOutputID (message s1)) (messageItemID (message s1)) _ (numbered v) Hph). by rewrite bool_decide_eq_true_2. }
    destruct H2 as [F1 F2 F3 F4]. eexists. split; [| | |exact F4].
    + eapply (follows_set _ _ _ (messageOutputID (message s1)) (messageItemID (message s1)) Closed F1); [done| |].
      * cbn [onEvent]. rewrite (phaseOf_some _ _ (Filled (visibleText (message s1)))); [done|]. cbn [numbered vItems setItem]. apply lookup_insert_eq.
      * apply (fo_bound _ _ F1 _ (messageItemID (message s1), Filled (visibleText (message s1)))). cbn [numbered vItems setItem]. apply lookup_insert_eq.
    + change (messageAgrees false (setAdded (messageAdded (message s1)) false (message s1))
        (setItem (messageOutputID (message s1)) (messageItemID (message s1)) Closed (numbered (setItem (messageOutputID (message s1)) (messageItemID (message s1)) (Filled (visibleText (message s1))) (numbered (numbered v)))))).
      unfold messageAgrees in *. cbn [messageAdded setAdded messageItemID messageOutputID] in *. rewrite Ha in F2 |- *. destruct F2 as (F5 & F6 & _). split; [exact F5|]. split; [exact F6|]. exists Closed. split; [apply lookup_insert_eq|intros [=]].
    + intros c. specialize (F3 c).
      change (functionAgrees (setAdded (messageAdded (message s1)) false (message s1)) (functions s1)
        (setItem (messageOutputID (message s1)) (messageItemID (message s1)) Closed (numbered (setItem (messageOutputID (message s1)) (messageItemID (message s1)) (Filled (visibleText (message s1))) (numbered (numbered v))))) c).
      unfold functionAgrees in *. destruct (get false (functionAdded (functions s1)) c); [|done].
      destruct F3 as (i & id & Ho & Hx & Ht & Hc & Hl & Hm). exists i, id. cbn [messageAdded messageOutputID setAdded] in Hm |- *. split_and!; try done.
      cbn [vItems setItem numbered] in *. rewrite lookup_insert_ne; [done|]. intros <-. by apply (Hm Ha).
  - split_and!; [|done|done]. eexists.
    eapply (message_event s v (message s) _ Closed); try done. cbn [onEvent]. by rewrite (phase_numbered _ _ _ _ Hph).
Qed.
End Message.

Section Functions.
Context {S : Type}.
Variable uuid : nat -> string.
Variable Marshal : json -> option string.
Variable Unmarshal : string -> option json.
Implicit Types s : runtime S.

(** The parts of the function state that identifiers and indices do not touch. *)
Definition sameProgress (f f' : functionState) : Prop :=
  functionDone f' = functionDone f /\ functionAdded f' = functionAdded f /\ functionNames f' = functionNames f /\ functionArgs f' = functionArgs f.

(** A call that was not announced gets a fresh index and identifiers. *)
Lemma ensureFunction_new s live v c : agree live (onWire s) (message s) (functions s) v -> get false (functionAdded (functions s)) c = false ->
  let s' := ensureFunction uuid c s in
  exists id, follows (onWire s') v /\ vItems v !! nextOutputID (onWire s) = None /\ 0 <= nextOutputID (onWire s) < nextOutputID (onWire s') /\
    functionOutputIDs (functions s') = <[c := nextOutputID (onWire s)]> (functionOutputIDs (functions s)) /\
    functionItemIDs (functions s') !! c = Some id /\ TrimSpace id <> "" /\ TrimSpace (get "" (streamToolCallIDs (functions s')) c) <> "" /\
    (forall k, k <> c -> functionItemIDs (functions s') !! k = functionItemIDs (functions s) !! k /\ streamToolCallIDs (functions s') !! k = streamToolCallIDs (functions s) !! k) /\
    sameProgress (functions s) (functions s') /\ message s' = message s /\ started (onWire s') = started (onWire s).
Proof.
  intros [H1 _ H3 _] Ha. specialize (H3 c). unfold functionAgrees in H3. rewrite Ha in H3. destruct H3 as [Hnone _].
  destruct (follows_allocate _ _ H1) as [Hw Hfresh]. pose proof (fo_next _ _ H1) as H0.
  unfold ensureFunction. unfold ensureFunctionOutputIndex. rewrite Hnone. cbn [allocateOutputIndex].
  set (w1 := {| sequence := _ |}). change (allocateOutputIndex (onWire s)).1 with w1 in Hw.
  set (s1 := onFunctions _ _).
  assert (exists id s2, ensureFunctionItemID uuid c s1 = s2 /\ follows (onWire s2) v /\ nextOutputID (onWire s2) = nextOutputID w1 /\
    functionItemIDs (functions s2) !! c = Some id /\ TrimSpace id <> "" /\ (forall k, k <> c -> functionItemIDs (functions s2) !! k = functionItemIDs (functions s1) !! k) /\
    streamToolCallIDs (functions s2) = streamToolCallIDs (functions s1) /\ functionOutputIDs (functions s2) = functionOutputIDs (functions s1) /\
    sameProgress (functions s1) (functions s2) /\ message s2 = message s1 /\ started (onWire s2) = started w1) as (id & s2 & -> & Hw2 & Hn2 & Hid & Ht & Hk & Hc & Ho & Hp & Hm & Hst).
  { unfold ensureFunctionItemID. destruct (bool_decide (TrimSpace (get "" (functionItemIDs (functions s1)) c) = "")) eqn:Hb; cbn [negb].
    - eexists _, _. split; [reflexivity|]. cbn [freshID]. split_and!; try done.
      + by apply (follows_fresh uuid "fc_") in Hw.
      + apply lookup_insert_eq.
      + by apply fresh_visible.
      + intros k Hk. by apply lookup_insert_ne.
    - apply bool_decide_eq_false in Hb. unfold get in Hb. destruct (functionItemIDs (functions s1) !! c) as [id|] eqn:E; [|done].
      exists id, s1. by split_and!. }
  unfold ensureToolCallID. destruct (bool_decide (TrimSpace (get "" (streamToolCallIDs (functions s2)) c) = "")) eqn:Hb; cbn [negb].
  - exists id. cbn [freshID]. split_and!; try done.
    + by apply (follows_fresh uuid "call_") in Hw2.
    + cbn. rewrite Hn2. cbn. lia.
    + cbn. rewrite get_insert, decide_True by done. by apply fresh_visible.
    + intros k Hne. cbn. rewrite lookup_insert_ne by done. rewrite Hc. split; [by apply Hk|done].
  - exists id. apply bool_decide_eq_false in Hb. split_and!; try done.
    + rewrite Hn2. cbn. lia.
    + intros k Hne. rewrite Hc. split; [by apply Hk|done].
Qed.

Lemma ensureFunction_old s live v c : agree live (onWire s) (message s) (functions s) v -> get false (functionAdded (functions s)) c = true -> ensureFunction uuid c s = s.
Proof.
  intros [_ _ H3 _] Ha. specialize (H3 c). unfold functionAgrees in H3. rewrite Ha in H3. destruct H3 as (i & id & Ho & Hi & Ht & Hc & _).
  assert (ensureFunctionOutputIndex c s = s) as E1 by (unfold ensureFunctionOutputIndex; by rewrite Ho).
  assert (ensureFunctionItemID uuid c s = s) as E2 by (unfold ensureFunctionItemID, get; rewrite Hi; cbn [default]; by rewrite bool_decide_eq_false_2).
  assert (ensureToolCallID uuid c s = s) as E3 by (unfold ensureToolCallID; by rewrite bool_decide_eq_false_2).
  unfold ensureFunction. by rewrite E1, E2, E3.
Qed.

Lemma agree_message live w m f v : agree live w m f v -> messageAdded m = true -> 0 <= messageOutputID m /\ exists x, vItems v !! messageOutputID m = Some x.
Proof. intros [_ H _ _] Ha. unfold messageAgrees in H. rewrite Ha in H. destruct H as (_ & ? & p & Hp & _). split; [done|]. by eexists. Qed.

(** Names that were learnt stay. *)
Definition named (f : functionState) (c : Z) : Prop := TrimSpace (get "" (functionNames f) c) <> "".

Lemma inStep_names s live n : inStep live s -> inStep live (onFunctions (setNames n) s).
Proof. intros [v [H1 H2 H3 H4]]. exists v. by split. Qed.
Lemma inStep_args s live n : inStep live s -> inStep live (onFunctions (setArgs n) s).
Proof. intros [v [H1 H2 H3 H4]]. exists v. by split. Qed.

Lemma announce_ok s live c fnName : inStep live s -> get false (functionAdded (functions s)) c = false ->
  let s1 := ensureFunction uuid c (put (start uuid) s) in
  let s2 := send (ItemAdded (indexOf c s1) (itemIDOf c s1) (functionItem (itemIDOf c s1) (callIDOf c s1) fnName "" "in_progress")) s1 in
  let s3 := onFunctions (fun f => setFnAdded (<[c := true]> (functionAdded f)) f) s2 in
  inStep live s3 /\ functionDone (functions s3) = functionDone (functions s) /\ functionNames (functions s3) = functionNames (functions s) /\ message s3 = message s /\
  (forall k, get false (functionAdded (functions s3)) k = if decide (k = c) then true else get false (functionAdded (functions s)) k).
Proof.
  intros Hs Ha s1 s2 s3. destruct (put_start uuid s live Hs) as [[v Hv] Hst].
  destruct (ensureFunction_new _ _ _ c Hv Ha) as (id & Hw & Hfresh & Hb & Ho & Hi & Ht & Hcall & Hk & (P1 & P2 & P3 & P4) & Hm & Hst1). fold s1 in Hw, Hb, Ho, Hi, Hcall, Hk, P1, P2, P3, P4, Hm, Hst1.
  set (i := nextOutputID (onWire (put (start uuid) s))) in *.
  change (functions (put (start uuid) s)) with (functions s) in *. change (message (put (start uuid) s)) with (message s) in *.
  assert (indexOf c s1 = i) as Hidx by (unfold indexOf, get; by rewrite Ho, lookup_insert_eq).
  assert (itemIDOf c s1 = id) as Hid by (unfold itemIDOf, get; by rewrite Hi).
  destruct (follows_added (onWire s1) v i id (functionItem id (callIDOf c s1) fnName "" "in_progress") Hw) as [Hw2 He]; [congruence|done|done|].
  split_and!; [|exact P1|exact P3|exact Hm|].
  2: { intros k. cbn. rewrite P2. apply get_insert. }
  exists (setItem i id Announced (numbered v)). split.
  - unfold s3, s2. cbn. rewrite Hidx, Hid. exact Hw2.
  - destruct Hv as [_ Hmv _ _]. change (message s3) with (message s1). rewrite Hm. unfold messageAgrees in *. destruct (messageAdded (message s)); [|done].
    destruct Hmv as (? & ? & p & Hp & Hl). split_and!; [done..|]. exists p. split; [by apply He|done].
  - intros k. change (message s3) with (message s1). rewrite Hm. unfold functionAgrees.
    change (functionOutputIDs (functions s3)) with (functionOutputIDs (functions s1)). change (functionItemIDs (functions s3)) with (functionItemIDs (functions s1)).
    change (streamToolCallIDs (functions s3)) with (streamToolCallIDs (functions s1)). unfold functionPhase.
    change (functionDone (functions s3)) with (functionDone (functions s1)). rewrite P1.
    change (functionAdded (functions s3)) with (<[c := true]> (functionAdded (functions s1))). rewrite get_insert, P2, Ho.
    pose proof (ag_functions _ _ _ _ _ Hv k) as Hfk. unfold functionAgrees, functionPhase in Hfk. destruct (decide (k = c)) as [->|Hne].
    + rewrite Ha in Hfk. destruct Hfk as [_ Hd]. exists i, id. rewrite Hd. split_and!; [apply lookup_insert_eq|done|done|done|apply lookup_insert_eq|].
      intros Hadd ->. destruct (agree_message _ _ _ _ _ Hv Hadd) as [_ [x Hx]]. congruence.
    + rewrite lookup_insert_ne by done. destruct (get false (functionAdded (functions s)) k); [|done].
      destruct Hfk as (j & jd & F1 & F2 & F3 & F4 & F5 & F6). destruct (Hk k Hne) as [K1 K2]. unfold get in *. rewrite K1, K2. exists j, jd. split_and!; try done. by apply He.
  - intros k k' j. change (functionOutputIDs (functions s3)) with (functionOutputIDs (functions s1)). rewrite Ho.
    assert (forall k0 j0, k0 <> c -> functionOutputIDs (functions s) !! k0 = Some j0 -> j0 <> i) as Hother.
    { intros k2 j2 Hne H2 ->. pose proof (ag_functions _ _ _ _ _ Hv k2) as Hf2. unfold functionAgrees in Hf2.
      destruct (get false (functionAdded (functions s)) k2); [|by destruct Hf2; congruence].
      destruct Hf2 as (j3 & jd & F1 & _ & _ & _ & F5 & _). congruence. }
    destruct (decide (k = c)) as [->|Hn], (decide (k' = c)) as [->|Hn']; try done.
    + rewrite lookup_insert_eq, lookup_insert_ne by done. intros [= <-] H. by apply Hother in H.
    + rewrite lookup_insert_eq, lookup_insert_ne by done. intros H [= <-]. by apply Hother in H.
    + rewrite !lookup_insert_ne by done. apply (ag_inj _ _ _ _ _ Hv).
Qed.

Lemma ensureFunctionItemAdded_ok s live c name : inStep live s ->
  let s' := ensureFunctionItemAdded uuid c name s in
  inStep live s' /\ functionDone (functions s') = functionDone (functions s) /\ message s' = message s /\
  (forall k, named (functions s) k -> named (functions s') k) /\
  (TrimSpace name <> "" \/ named (functions s) c -> get false (functionAdded (functions s')) c = true).
Proof.
  intros Hs. unfold ensureFunctionItemAdded.
  set (s0 := if bool_decide (TrimSpace name = "") then s else onFunctions (fun f => setNames (<[c := TrimSpace name]> (functionNames f)) f) s).
  assert (inStep live s0 /\ functionDone (functions s0) = functionDone (functions s) /\ message s0 = message s /\
    functionAdded (functions s0) = functionAdded (functions s) /\ (forall k, named (functions s) k -> named (functions s0) k) /\
    (TrimSpace name <> "" \/ named (functions s) c -> named (functions s0) c)) as (H0 & Hd & Hm & Ha0 & Hn & Hc).
  { unfold s0. destruct (bool_decide (TrimSpace name = "")) eqn:Hb.
    - apply bool_decide_eq_true in Hb. split_and!; try done. by intros [?|?].
    - apply bool_decide_eq_false in Hb. split_and!; try done; [by apply inStep_names| |].
      + intros k Hk. unfold named in *. cbn. rewrite get_insert. destruct (decide (k = c)); [by rewrite TrimSpace_idem|done].
      + intros _. unfold named. cbn. rewrite get_insert, decide_True by done. by rewrite TrimSpace_idem. }
  destruct (get false (functionAdded (functions s0)) c) eqn:Ha; [by split_and!|].
  destruct (bool_decide (TrimSpace (get "" (functionNames (functions s0)) c) = "")) eqn:Hb.
  { apply bool_decide_eq_true in Hb. split_and!; try done. intros H%Hc. by unfold named in H. }
  destruct (announce_ok s0 live c (TrimSpace (get "" (functionNames (functions s0)) c)) H0 Ha) as (A1 & A2 & A3 & A4 & A5).
  split_and!; [exact A1|etransitivity; [exact A2|exact Hd]|etransitivity; [exact A4|exact Hm]| |].
  - intros k Hk%Hn. unfold named in *. by rewrite <- A3 in Hk.
  - intros _. specialize (A5 c). by rewrite decide_True in A5.
Qed.
End Functions.

Section Calls.
Context {S : Type}.
Variable ProcessChunk : S -> string -> S * list toolEvent.
Variable FlushSieve : S -> S * list toolEvent.
Variable parseToolCalls : string -> list ParsedToolCall.
Variable clean : string -> string.
Variable normalizeCalls : list ParsedToolCall -> list ParsedToolCall.
Variable Marshal : json -> option string.
Variable Unmarshal : string -> option json.
Variable uuid : nat -> string.
Variables thinkingEnabled searchEnabled bufferToolContent emitEarlyToolDeltas toolRequired : bool.
Implicit Types s : runtime S.

(** An announced call that is still open. *)
Lemma open_call s live v c : agree live (onWire s) (message s) (functions s) v ->
  get false (functionAdded (functions s)) c = true -> get false (functionDone (functions s)) c = false ->
  vItems v !! indexOf c s = Some (itemIDOf c s, Announced) /\ started (onWire s) = true /\ 0 <= indexOf c s < nextOutputID (onWire s) /\
  (messageAdded (message s) = true -> indexOf c s <> messageOutputID (message s)) /\ functionOutputIDs (functions s) !! c = Some (indexOf c s).
Proof.
  intros Hv Ha Hd. pose proof (ag_functions _ _ _ _ _ Hv c) as H. unfold functionAgrees, functionPhase in H. rewrite Ha, Hd in H.
  destruct H as (i & id & Ho & Hi & _ & _ & Hp & Hm). unfold indexOf, itemIDOf, get. rewrite Ho, Hi. cbn [default].
  pose proof (fo_bound _ _ (ag_follows _ _ _ _ _ Hv) _ _ Hp) as Hb. pose proof (fo_started _ _ (ag_follows _ _ _ _ _ Hv) _ _ Hp) as Hst.
  split; [exact Hp|]. split; [exact Hst|]. split; [exact Hb|]. split; [exact Hm|reflexivity].
Qed.

Lemma arguments_ok s live c callID d : inStep live s -> get false (functionAdded (functions s)) c = true -> get false (functionDone (functions s)) c = false ->
  inStep live (send (ArgumentsDelta (indexOf c s) (itemIDOf c s) callID d) s).
Proof.
  intros [v Hv] Ha Hd. destruct (open_call s live v c Hv Ha Hd) as (Hp & Hst & _). exists (numbered v). destruct Hv as [H1 H2 H3 H4]. split; [|done..].
  apply follows_same; try done. cbn [onEvent]. by rewrite (phase_numbered _ _ _ _ Hp).
Qed.

Lemma closeFunction_ok s live c name args : inStep live s -> get false (functionAdded (functions s)) c = true -> get false (functionDone (functions s)) c = false ->
  let s' := closeFunction Marshal Unmarshal c name args s in
  inStep live s' /\ message s' = message s /\ functionAdded (functions s') = functionAdded (functions s) /\ functionNames (functions s') = functionNames (functions s) /\
  forall k, get false (functionDone (functions s')) k = if decide (k = c) then true else get false (functionDone (functions s)) k.
Proof.
  intros [v Hv] Ha Hd s'. destruct (open_call s live v c Hv Ha Hd) as (Hp & Hst & Hb & Hne & Hidx). split_and!; [|reflexivity|reflexivity|reflexivity|].
  2: { intros k. cbn. apply get_insert. }
  destruct Hv as [H1 H2 H3 H4].
  assert (follows (sendEvent (ArgumentsDone (indexOf c s) (itemIDOf c s) (callIDOf c s) name (normalizeJSONString Marshal Unmarshal args)) (onWire s)) (numbered v)) as F1.
  { apply follows_same; try done. cbn [onEvent]. by rewrite (phase_numbered _ _ _ _ Hp). }
  exists (setItem (indexOf c s) (itemIDOf c s) Closed (numbered (numbered v))). split.
  - unfold s', closeFunction. cbn. apply follows_set; [exact F1|exact Hst| |exact Hb]. cbn [onEvent].
    change (phaseOf _ _ _) with (phaseOf (indexOf c s) (itemIDOf c s) (numbered (numbered v))).
    by rewrite (phase_numbered (indexOf c s) (itemIDOf c s) Announced (numbered v) Hp).
  - change (message s') with (message s). unfold messageAgrees in *. destruct (messageAdded (message s)); [|done].
    destruct H2 as (? & ? & p & Hp2 & Hl). split_and!; [done..|]. exists p. split; [|done]. cbn [vItems setItem numbered]. rewrite lookup_insert_ne; [done|]. by apply Hne.
  - intros k. specialize (H3 k). unfold functionAgrees, functionPhase in *. change (message s') with (message s).
    change (functionAdded (functions s')) with (functionAdded (functions s)). change (functionOutputIDs (functions s')) with (functionOutputIDs (functions s)).
    change (functionItemIDs (functions s')) with (functionItemIDs (functions s)). change (streamToolCallIDs (functions s')) with (streamToolCallIDs (functions s)).
    change (functionDone (functions s')) with (<[c := true]> (functionDone (functions s))). rewrite get_insert. destruct (decide (k = c)) as [->|Hkc].
    + rewrite Ha in *. destruct H3 as (i & id & Ho & Hi & Ht & Hc & _ & Hm). exists i, id. split_and!; try done.
      unfold indexOf, itemIDOf, get. rewrite Ho, Hi. apply lookup_insert_eq.
    + destruct (get false (functionAdded (functions s)) k); [|done]. destruct H3 as (i & id & Ho & Hi & Ht & Hc & Hp2 & Hm). exists i, id. split_and!; try done.
      cbn [vItems setItem numbered]. rewrite lookup_insert_ne; [done|]. intros <-. apply Hkc. by apply (H4 k c (indexOf c s)).
  - exact H4.
Qed.

(** No call is closed. *)
Definition noneDone (f : functionState) : Prop := forall c, get false (functionDone f) c = false.

(** A piece of arguments that can be attributed: the call's name comes with it or is known. *)
Definition attributed (f : functionState) (d : ToolCallDelta) : Prop := TrimSpace (DeltaName d) <> "" \/ named f (Index d).

Lemma emitDelta_ok s d : inStep true s -> noneDone (functions s) -> attributed (functions s) d ->
  let s' := emitFunctionCallDelta uuid s d in
  inStep true s' /\ noneDone (functions s') /\ forall k, named (functions s) k -> named (functions s') k.
Proof.
  intros Hs Hd Hat. unfold emitFunctionCallDelta.
  destruct (ensureFunctionItemAdded_ok uuid s true (Index d) (DeltaName d) Hs) as (H1 & H2 & H3 & H4 & H5).
  set (s1 := ensureFunctionItemAdded uuid (Index d) (DeltaName d) s) in *. specialize (H5 Hat).
  assert (noneDone (functions s1)) as Hd1 by (intros k; rewrite H2; apply Hd).
  destruct (bool_decide (TrimSpace (Arguments d) = "")); [done|].
  set (s2 := onFunctions (fun f => setArgs (<[Index d := get "" (functionArgs f) (Index d) +:+ Arguments d]> (functionArgs f)) f) s1).
  assert (inStep true s2) as Hs2 by (destruct H1 as [v [F1 F2 F3 F4]]; exists v; by split).
  assert (ensureFunction uuid (Index d) s2 = s2) as -> by (destruct Hs2 as [v Hv]; by eapply ensureFunction_old).
  split_and!; [|exact Hd1|exact H4]. apply arguments_ok; [exact Hs2|exact H5|apply Hd1].
Qed.

Lemma emitDeltas_ok ds s : inStep true s -> noneDone (functions s) -> Forall (attributed (functions s)) ds ->
  let s' := emitFunctionCallDeltaEvents uuid ds s in inStep true s' /\ noneDone (functions s').
Proof.
  revert s. induction ds as [|d ds IH]; intros s Hs Hd Hat; [done|]. apply Forall_cons in Hat as [Hat Hds].
  destruct (emitDelta_ok s d Hs Hd Hat) as (H1 & H2 & H3). unfold emitFunctionCallDeltaEvents. cbn [fold_left]. apply IH; [done..|].
  eapply Forall_impl; [exact Hds|]. intros e [He|He]; [by left|right; by apply H3].
Qed.

(** Names in the pieces are blank only if they are missing. *)
Definition cleanDelta (d : ToolCallDelta) : Prop := DeltaName d = "" \/ TrimSpace (DeltaName d) <> "".

Lemma filter_attributed ds names names' out : Forall cleanDelta ds -> filterIncrementalToolCallDeltasByAllowed ds names = (names', out) ->
  (forall k, TrimSpace (get "" names k) <> "" -> TrimSpace (get "" names' k) <> "") /\
  Forall (fun d => TrimSpace (DeltaName d) <> "" \/ TrimSpace (get "" names' (Index d)) <> "") out.
Proof.
  intros Hc. revert names names' out. induction Hc as [|d ds Hd _ IH]; intros names names' out; [by intros [= <- <-]|]. cbn [filterIncrementalToolCallDeltasByAllowed].
  destruct (decide (DeltaName d = "")) as [He|He].
  - rewrite (bool_decide_eq_true_2 _ He). cbn [negb]. destruct (filterIncrementalToolCallDeltasByAllowed ds names) as [n o] eqn:E. destruct (IH _ _ _ E) as [H1 H2].
    intros [= <- <-]. split; [done|]. destruct (bool_decide (TrimSpace (get "" names (Index d)) = "")) eqn:Hb; [done|]. constructor; [|done].
    right. apply H1. by apply bool_decide_eq_false in Hb.
  - rewrite (bool_decide_eq_false_2 _ He). cbn [negb]. destruct (filterIncrementalToolCallDeltasByAllowed ds (<[Index d:=DeltaName d]> names)) as [n o] eqn:E.
    destruct (IH _ _ _ E) as [H1 H2]. destruct Hd as [Hd|Hd]; [done|]. intros [= <- <-]. split; [|by constructor; [left|]].
    intros k Hk. apply H1. rewrite get_insert. by destruct (decide (k = Index d)).
Qed.

Lemma emitDone_ok s live c tc : inStep live s ->
  let s' := emitFunctionCallDone Marshal Unmarshal uuid s c tc in inStep live s' /\ message s' = message s.
Proof.
  intros Hs. unfold emitFunctionCallDone. destruct (bool_decide (TrimSpace (Name tc) = "")) eqn:Hn; [done|]. apply bool_decide_eq_false in Hn.
  destruct (ensureFunctionItemAdded_ok uuid s live c (Name tc) Hs) as (H1 & H2 & H3 & _ & H5). specialize (H5 (or_introl Hn)).
  set (s1 := ensureFunctionItemAdded uuid c (Name tc) s) in *. destruct (get false (functionDone (functions s1)) c) eqn:Hd; [done|].
  assert (ensureFunction uuid c s1 = s1) as -> by (destruct H1 as [v Hv]; by eapply ensureFunction_old).
  set (s2 := onFunctions _ s1). assert (inStep live s2) as Hs2 by (destruct H1 as [v [F1 F2 F3 F4]]; exists v; by split).
  destruct (closeFunction_ok s2 live c (Name tc) (marshalled Marshal (Input tc)) Hs2 H5 Hd) as (C1 & C2 & _). split; [exact C1|]. by rewrite C2.
Qed.

Lemma emitDoneEvents_ok calls s live : inStep live s ->
  let s' := emitFunctionCallDoneEvents normalizeCalls Marshal Unmarshal uuid calls s in inStep live s' /\ message s' = message s.
Proof.
  unfold emitFunctionCallDoneEvents. generalize 0, (normalizeCalls calls). intros c l. revert c s. induction l as [|tc l IH]; intros c s Hs; [done|].
  cbn [emitDoneFrom]. destruct (emitDone_ok s live c tc Hs) as [H1 H2]. destruct (IH (c + 1) _ H1) as [H3 H4]. split; [exact H3|congruence].
Qed.

Lemma reset_ok s live : inStep live s -> inStep live (resetStreamToolCallState s) /\ noneDone (functions (resetStreamToolCallState s)).
Proof.
  intros [v [H1 H2 H3 H4]]. split; [|by intros c]. exists v. split; [done|done| |done]. intros c. unfold functionAgrees. cbn. by split.
Qed.

Definition cleanEvent (e : toolEvent) : Prop := Forall cleanDelta (ToolCallDeltas e).
Notation toolEvent' := (processToolEvent clean normalizeCalls Marshal Unmarshal uuid searchEnabled emitEarlyToolDeltas).

Lemma processToolEvent_ok s e : inStep true s -> noneDone (functions s) -> cleanEvent e -> inStep true (toolEvent' s e) /\ noneDone (functions (toolEvent' s e)).
Proof.
  intros Hs Hd Hc. unfold processToolEvent. set (s1 := if bool_decide (Content e = "") then s else _).
  assert (inStep true s1 /\ noneDone (functions s1)) as [H1 D1].
  { unfold s1. destruct (bool_decide (Content e = "")); [done|]. destruct (negb _ && _); [|done]. destruct (emitTextDelta_ok uuid s (clean (Content e)) Hs) as [? Hf]. by rewrite Hf. }
  assert (forall s2, inStep true s2 -> noneDone (functions s2) -> let s3 := match ToolCalls e with [] => s2 | calls => resetStreamToolCallState (emitFunctionCallDoneEvents normalizeCalls Marshal Unmarshal uuid calls s2) end in
    inStep true s3 /\ noneDone (functions s3)) as Hcalls.
  { intros s2 H2 D2. destruct (ToolCalls e) as [|tc l]; [done|]. apply reset_ok. by apply emitDoneEvents_ok. }
  unfold processDeltas. destruct (ToolCallDeltas e) as [|d ds] eqn:Ed; [by apply Hcalls|]. destruct (negb emitEarlyToolDeltas); [done|].
  destruct (filterIncrementalToolCallDeltasByAllowed (d :: ds) (functionNames (functions s1))) as [names out] eqn:Ef.
  unfold cleanEvent in Hc. rewrite Ed in Hc. destruct (filter_attributed _ _ _ _ Hc Ef) as [_ Hout].
  assert (inStep true (onFunctions (setNames names) s1)) as H2 by (by apply inStep_names).
  destruct out as [|d' out]; [by split|]. apply Hcalls; apply emitDeltas_ok; done.
Qed.

Lemma processToolStreamEvents_ok l s : inStep true s -> noneDone (functions s) -> Forall cleanEvent l ->
  let s' := processToolStreamEvents clean normalizeCalls Marshal Unmarshal uuid searchEnabled emitEarlyToolDeltas l s in inStep true s' /\ noneDone (functions s').
Proof.
  intros Hs Hd Hl. revert s Hs Hd. induction Hl as [|e l He _ IH]; intros s Hs Hd; [done|]. unfold processToolStreamEvents. cbn [fold_left].
  destruct (processToolEvent_ok s e Hs Hd He) as [H1 H2]. by apply IH.
Qed.
End Calls.

Section Stream.
Context {S : Type}.
Variable ProcessChunk : S -> string -> S * list toolEvent.
Variable FlushSieve : S -> S * list toolEvent.
Variable parseToolCalls : string -> list ParsedToolCall.
Variable clean : string -> string.
Variable normalizeCalls : list ParsedToolCall -> list ParsedToolCall.
Variable Marshal : json -> option string.
Variable Unmarshal : string -> option json.
Variable uuid : nat -> string.
Variables thinkingEnabled searchEnabled bufferToolContent emitEarlyToolDeltas toolRequired : bool.
Implicit Types s : runtime S.

(** The sieve gives blank names only for missing ones. *)
Definition cleanSieve : Prop := (forall v chunk, Forall cleanEvent (ProcessChunk v chunk).2) /\ (forall v, Forall cleanEvent (FlushSieve v).2).
Hypothesis Hsieve : cleanSieve.

Notation onPart' := (onPart ProcessChunk clean normalizeCalls Marshal Unmarshal uuid thinkingEnabled searchEnabled bufferToolContent emitEarlyToolDeltas).
Notation onParsed' := (onParsed ProcessChunk clean normalizeCalls Marshal Unmarshal uuid thinkingEnabled searchEnabled bufferToolContent emitEarlyToolDeltas).
Notation settle' := (settle FlushSieve parseToolCalls clean normalizeCalls Marshal Unmarshal uuid searchEnabled bufferToolContent emitEarlyToolDeltas).
Notation finalize' := (finalize FlushSieve parseToolCalls clean normalizeCalls Marshal Unmarshal uuid searchEnabled bufferToolContent emitEarlyToolDeltas toolRequired).

(** Between two lines. *)
Definition streaming s : Prop := inStep true s /\ noneDone (functions s).

Lemma flushBatch_ok b s : streaming s -> streaming (flushBatch uuid b s).1.
Proof.
  intros [Hs Hd]. unfold flushBatch. destruct (_ || _); [done|]. destruct (put_start uuid s true Hs) as [H1 Hst]. cbn [fst].
  destruct (bool_decide (batchKind b = "reasoning")).
  - split; [|exact Hd]. destruct H1 as [v [F1 F2 F3 F4]]. exists (numbered v). split; [|done..]. by apply follows_same.
  - destruct (bool_decide (batchKind b = "text")); [|by split]. destruct (emitTextDelta_ok uuid _ (batchText b) H1) as [H2 Hf]. split; [exact H2|].
    intros c. rewrite Hf. apply Hd.
Qed.

Lemma appendBatch_ok kind t r : streaming r.1 -> streaming (appendBatch uuid kind t r).1.
Proof.
  destruct r as [s b]. cbn [fst]. intros Hs. unfold appendBatch. destruct (bool_decide (t = "")); [exact Hs|].
  destruct (negb _ && negb _); [|exact Hs]. pose proof (flushBatch_ok b s Hs) as H. by destruct (flushBatch uuid b s).
Qed.

Lemma onPart_ok r p : streaming r.1.1 -> streaming (onPart' r p).1.1.
Proof.
  destruct r as [[s b] seen0]. cbn [fst]. intros Hs. unfold onPart. destruct (bool_decide (Type_ p = "thinking")).
  - unfold onThinkingPart. set (s1 := onTexts _ s). assert (streaming s1) as H1 by exact Hs.
    destruct (negb thinkingEnabled); [exact H1|]. destruct (_ || _); [exact H1|]. cbn [fst]. apply appendBatch_ok. exact H1.
  - unfold onTextPart. destruct (bool_decide _); [exact Hs|]. set (s1 := onTexts _ s). assert (streaming s1) as H1 by exact Hs.
    destruct (searchEnabled && _); [exact H1|]. set (s2 := onTexts _ s1). assert (streaming s2) as H2 by exact Hs.
    destruct (negb bufferToolContent).
    + destruct (bool_decide _); [exact H2|]. cbn [fst]. apply appendBatch_ok. exact H2.
    + pose proof (flushBatch_ok b s2 H2) as H3. destruct (flushBatch uuid b s2) as [s3 b3]. cbn [fst] in H3.
      pose proof (proj1 Hsieve (sieve s3) (TrimContinuationOverlap (rawText (seen s)) (Text p))) as Hc.
      destruct (ProcessChunk (sieve s3) _) as [v events]. cbn [fst]. destruct H3 as [H3 D3]. apply processToolStreamEvents_ok; done.
Qed.

Lemma onParsed_ok s r : streaming s -> streaming (onParsed' s r).1.
Proof.
  intros Hs. unfold onParsed. destruct (negb (Parsed r)); [exact Hs|].
  set (s1 := if 0 <? ResponseMessageID r then _ else s). assert (streaming s1) as H1 by (unfold s1; by destruct (0 <? ResponseMessageID r)).
  destruct (_ || _); [exact H1|]. destruct (Stop r); [exact H1|]. set (s2 := onTexts _ s1). assert (streaming s2) as H2 by exact H1.
  assert (forall l r, streaming r.1.1 -> streaming (fold_left onPart' l r).1.1) as Hfold.
  { intros l. induction l as [|p l IH]; intros r0 H; [exact H|]. cbn [fold_left]. apply IH. by apply onPart_ok. }
  specialize (Hfold (Parts r) (s2, emptyBatch, false) H2). destruct (fold_left onPart' (Parts r) _) as [[s3 b] seen0]. cbn [fst] in Hfold.
  pose proof (flushBatch_ok b s3 Hfold) as H4. by destruct (flushBatch uuid b s3).
Qed.

Lemma settle_ok reason s : streaming s -> inStep false (settle' reason s).1.
Proof.
  intros Hs. unfold settle. set (s1 := withFinal _ s).
  set (s2 := if bufferToolContent then _ else s1).
  assert (inStep true s2) as H2.
  { unfold s2. destruct bufferToolContent; [|exact (proj1 Hs)]. pose proof (proj2 Hsieve (sieve s1)) as Hc. destruct (FlushSieve (sieve s1)) as [v events].
    destruct Hs as [Hs Hd]. by apply processToolStreamEvents_ok. }
  cbn [fst]. apply closeMessageItem_ok. destruct (DetectAssistantToolCalls _ _ _ _ _); [exact H2|].
  set (s3 := withEmitted _ _ s2). assert (inStep true s3) as H3 by exact H2. destruct (toolCallsDoneEmitted s3); [exact H3|]. by apply emitDoneEvents_ok.
Qed.

(** *** The end of a response *)

Lemma NoDup_omap_keys (l : list (Z * bool)) : NoDup l.*1 -> NoDup (omap (fun e : Z * bool => if e.2 then Some e.1 else None) l).
Proof.
  induction l as [|[c b] l IH]; [constructor|]. rewrite fmap_cons. intros [Hc Hl]%NoDup_cons. specialize (IH Hl). cbn. destruct b; [|exact IH].
  constructor; [|exact IH]. intros ([c' b'] & Hin & He)%list_elem_of_omap. destruct b'; [|done]. cbn in He. injection He as ->.
  apply Hc. apply list_elem_of_fmap. by exists (c, true).
Qed.

Lemma incomplete_spec s : NoDup (incompleteFunctions s) /\
  forall c, c ∈ incompleteFunctions s -> get false (functionAdded (functions s)) c = true /\ get false (functionDone (functions s)) c = false.
Proof.
  unfold incompleteFunctions. set (l := filter _ _). split.
  - rewrite sortBy_perm. apply NoDup_filter, NoDup_omap_keys, NoDup_fst_map_to_list.
  - intros c. rewrite sortBy_perm. intros [[Hd _] Hin]%list_elem_of_filter. split; [|done].
    apply list_elem_of_omap in Hin as ([c' b] & Hin & He). destruct b; [|done]. injection He as ->. apply elem_of_map_to_list in Hin. unfold get. by rewrite Hin.
Qed.

Lemma closeList_ok l s : inStep false s -> NoDup l ->
  (forall c, c ∈ l -> get false (functionAdded (functions s)) c = true /\ get false (functionDone (functions s)) c = false) ->
  inStep false (fold_left (closeIncompleteFunctionItem Marshal Unmarshal uuid) l s).
Proof.
  revert s. induction l as [|c l IH]; intros s Hs Hnd Hin; [exact Hs|]. apply NoDup_cons in Hnd as [Hc Hnd]. cbn [fold_left].
  destruct (Hin c) as [Ha Hd]; [by left|].
  unfold closeIncompleteFunctionItem at 2. assert (ensureFunction uuid c s = s) as -> by (destruct Hs as [v Hv]; by eapply ensureFunction_old).
  match goal with |- context [closeFunction _ _ c ?name ?args s] => destruct (closeFunction_ok Marshal Unmarshal s false c name args Hs Ha Hd) as (H1 & _ & H3 & _ & H5) end.
  apply IH; [exact H1|done|]. intros k Hk. rewrite H3, H5. destruct (Hin k) as [Ka Kd]; [by right|]. split; [exact Ka|]. rewrite decide_False; [exact Kd|]. by intros ->.
Qed.

Lemma closeIncomplete_ok s : inStep false s -> inStep false (closeIncompleteFunctionItems Marshal Unmarshal uuid s).
Proof. intros Hs. destruct (incomplete_spec s) as [Hnd Hin]. by apply closeList_ok. Qed.

(** Identifiers and indices for the final object write nothing. *)
Lemma ensureFunction_follows s v c : follows (onWire s) v -> follows (onWire (ensureFunction uuid c s)) v /\ started (onWire (ensureFunction uuid c s)) = started (onWire s).
Proof.
  intros Hw. unfold ensureFunction.
  assert (forall s, follows (onWire s) v -> follows (onWire (ensureFunctionOutputIndex c s)) v /\ started (onWire (ensureFunctionOutputIndex c s)) = started (onWire s)) as H1.
  { intros s1 H1. unfold ensureFunctionOutputIndex. destruct (functionOutputIDs (functions s1) !! c); [done|]. split; [|done]. apply (follows_allocate _ _ H1). }
  assert (forall s, follows (onWire s) v -> follows (onWire (ensureFunctionItemID uuid c s)) v /\ started (onWire (ensureFunctionItemID uuid c s)) = started (onWire s)) as H2.
  { intros s1 H2. unfold ensureFunctionItemID. destruct (negb _); [done|]. split; [|done]. apply (follows_fresh uuid "fc_" _ _ H2). }
  assert (forall s, follows (onWire s) v -> follows (onWire (ensureToolCallID uuid c s)) v /\ started (onWire (ensureToolCallID uuid c s)) = started (onWire s)) as H3.
  { intros s1 H3. unfold ensureToolCallID. destruct (negb _); [done|]. split; [|done]. apply (follows_fresh uuid "call_" _ _ H3). }
  destruct (H1 s Hw) as [F1 E1]. destruct (H2 _ F1) as [F2 E2]. destruct (H3 _ F2) as [F3 E3]. split; [exact F3|congruence].
Qed.

Lemma completedCalls_follows calls c s v : follows (onWire s) v ->
  follows (onWire (completedCalls Marshal uuid c calls s).1) v /\ started (onWire (completedCalls Marshal uuid c calls s).1) = started (onWire s).
Proof.
  revert c s. induction calls as [|tc calls IH]; intros c s Hw; [done|]. cbn [completedCalls]. destruct (bool_decide _); [by apply IH|].
  destruct (ensureFunction_follows s v c Hw) as [H1 E1]. specialize (IH (c + 1) _ H1).
  destruct (completedCalls Marshal uuid (c + 1) calls _) as [s2 items]. cbn [fst] in *. split; [apply IH|]. destruct IH as [_ ->]. exact E1.
Qed.

Lemma completedMessage_follows th ft calls s v : follows (onWire s) v ->
  follows (onWire (completedMessage uuid th ft calls s).1) v /\ started (onWire (completedMessage uuid th ft calls s).1) = started (onWire s).
Proof.
  intros Hw.
  assert (follows (onWire (ensureMessageItemID uuid (ensureMessageOutputIndex s))) v /\
    started (onWire (ensureMessageItemID uuid (ensureMessageOutputIndex s))) = started (onWire s)) as H.
  { assert (follows (onWire (ensureMessageOutputIndex s)) v /\ started (onWire (ensureMessageOutputIndex s)) = started (onWire s)) as [H1 E1].
    { unfold ensureMessageOutputIndex. destruct (0 <=? _); [done|]. split; [|done]. apply (follows_allocate _ _ Hw). }
    unfold ensureMessageItemID. destruct (negb _); [done|]. split; [|exact E1]. apply (follows_fresh uuid "msg_" _ _ H1). }
  unfold completedMessage. destruct (messageAdded (message s)); [exact H|]. destruct calls; [|done]. by destruct (_ ++ _).
Qed.

Lemma build_follows th ft calls s v : follows (onWire s) v ->
  follows (onWire (buildCompletedResponseObject normalizeCalls Marshal uuid th ft calls s).1) v /\
  started (onWire (buildCompletedResponseObject normalizeCalls Marshal uuid th ft calls s).1) = started (onWire s).
Proof.
  intros Hw. unfold buildCompletedResponseObject. destruct (completedMessage_follows th ft calls s v Hw) as [H1 E1].
  destruct (completedMessage uuid th ft calls s) as [s1 m1]. cbn [fst] in *. destruct (completedCalls_follows (normalizeCalls calls) 0 s1 v H1) as [H2 E2].
  destruct (completedCalls Marshal uuid 0 (normalizeCalls calls) s1) as [s2 m2]. cbn [fst] in *. split; [exact H2|congruence].
Qed.

(** The terminal event and the end marker. *)
Definition finished (w : wire) : Prop := exists v, watch blank (written w) = Some v /\ vOver v = true /\ vEnd v = true.

Lemma watch_fields v l v' : watch v l = Some v' -> vOver v' = false -> vEnd v = false -> vEnd v' = false.
Proof.
  revert v. induction l as [|f l IH]; intros v; [by intros [= ->]|]. cbn [watch]. destruct (onFrame v f) as [v1|] eqn:E; [|done]. intros Hw Ho He.
  apply (IH v1); [done..|]. destruct f as [n e|]; cbn [onFrame] in E.
  - destruct (_ && _); [|done]. destruct e; cbn [onEvent] in E; repeat (case_match; try done); by injection E as <-.
  - destruct (vOver v && negb (vEnd v)); [|done]. injection E as <-. exfalso. clear IH He.
    assert (forall l u u', watch u l = Some u' -> vOver u = true -> vOver u' = true) as Hmono.
    { intros l0. induction l0 as [|g l0 IH]; intros u u'; [by intros [= ->]|]. cbn [watch]. destruct (onFrame u g) as [u1|] eqn:Eu; [|done]. intros Hu Hou.
      apply (IH u1); [done|]. destruct g as [n e|]; cbn [onFrame] in Eu.
      - rewrite Hou in Eu. cbn [negb] in Eu. by rewrite andb_false_r in Eu.
      - destruct (vOver u && negb (vEnd u)); [|done]. by injection Eu as <-. }
    by rewrite (Hmono _ _ _ Hw eq_refl) in Ho.
Qed.

Lemma terminal_finished w v e : follows w v -> started w = true -> onEvent e (numbered v) = Some (endView (numbered v)) -> finished (sendDone (sendEvent e w)).
Proof.
  intros Hw Hs He. assert (vEnd v = false) as Hend by (by eapply (watch_fields blank); [apply Hw|apply Hw|]).
  destruct Hw as [H1 H2 H3 H4 H5 H6 H7]. exists {| vSeq := sequence w + 1; vCreated := true; vItems := vItems v; vOver := true; vEnd := true |}. split; [|done]. cbn [sendDone sendEvent written].
  rewrite !watch_app, H1. cbn [watch onFrame]. rewrite bool_decide_eq_true_2 by lia. rewrite H4, H3, Hs. cbn [negb andb orb].
  unfold numbered in He. rewrite H2, H3, H4, Hs in He. rewrite He. cbn [endView vOver vEnd vSeq vCreated vItems]. by rewrite Hend.
Qed.

(** What a finalized stream looks like to its client: complete, or never begun and reported as an error. *)
Definition wellEnded s : Prop := finished (onWire s) \/ (written (onWire s) = [] /\ failed (final s) = true).

Lemma follows_unstarted w v : follows w v -> started w = false -> written w = [].
Proof.
  intros Hw Hs. pose proof (fo_watch _ _ Hw) as H. pose proof (fo_created _ _ Hw) as Hc. rewrite Hs in Hc. destruct (written w) as [|f l]; [done|]. exfalso.
  cbn [watch] in H. destruct (onFrame blank f) as [v1|] eqn:E; [|done].
  assert (vCreated v1 = true) as H1.
  { destruct f as [n e|]; cbn [onFrame blank vOver vCreated vSeq] in E; [|done]. destruct e; rewrite ?andb_false_r in E; try done. cbn in E. case_match; [|done]. by injection E as <-. }
  assert (forall l u u', watch u l = Some u' -> vCreated u = true -> vCreated u' = true) as Hmono.
  { intros l0. induction l0 as [|g l0 IH]; intros u u'; [by intros [= ->]|]. cbn [watch]. destruct (onFrame u g) as [u1|] eqn:Eu; [|done]. intros Hu Hou.
    apply (IH u1); [done|]. destruct g as [n e|]; cbn [onFrame] in Eu.
    - destruct (_ && _); [|done]. destruct e; cbn [onEvent] in Eu; repeat (case_match; try done); by injection Eu as <-.
    - destruct (vOver u && negb (vEnd u)); [|done]. by injection Eu as <-. }
  by rewrite (Hmono _ _ _ H H1) in Hc.
Qed.

Lemma failResponse_ends live status msg code s : inStep live s -> wellEnded (failResponse status msg code s).
Proof.
  intros [v Hv]. unfold failResponse. cbn zeta. set (s1 := withFinal _ s). change (started (onWire s1)) with (started (onWire s)).
  destruct (started (onWire s)) eqn:Hst; cbn [negb].
  - left. unfold put, send, put. cbn. eapply terminal_finished; [apply Hv|exact Hst|done].
  - right. split; [by eapply follows_unstarted; [apply Hv|]|done].
Qed.

Lemma complete_ends th ft calls s : inStep false s -> wellEnded (complete normalizeCalls Marshal Unmarshal uuid th ft calls s).
Proof.
  intros Hs. destruct (put_start uuid s false Hs) as [H1 Hst]. unfold complete.
  assert (started (onWire (closeIncompleteFunctionItems Marshal Unmarshal uuid (put (start uuid) s))) = true) as Hst2.
  { unfold closeIncompleteFunctionItems. revert H1 Hst. generalize (put (start uuid) s). intros s0 H0 Hst0.
    assert (forall l s, started (onWire s) = true -> started (onWire (fold_left (closeIncompleteFunctionItem Marshal Unmarshal uuid) l s)) = true) as Hf; [|by apply Hf].
    intros l. induction l as [|c l IH]; intros s2 H2; [done|]. cbn [fold_left]. apply IH. cbn.
    unfold ensureFunction, ensureFunctionOutputIndex. destruct (functionOutputIDs (functions s2) !! c); cbn [allocateOutputIndex];
      unfold ensureFunctionItemID; destruct (negb _); cbn [freshID]; unfold ensureToolCallID; destruct (negb _); exact H2. }
  pose proof (closeIncomplete_ok _ H1) as [v Hv]. set (s2 := closeIncompleteFunctionItems _ _ _ _) in *.
  destruct (build_follows th ft calls s2 v (ag_follows _ _ _ _ _ Hv)) as [H3 E3].
  destruct (buildCompletedResponseObject normalizeCalls Marshal uuid th ft calls s2) as [s3 obj]. cbn [fst] in *.
  left. unfold put, send, put. cbn. eapply terminal_finished; [exact H3|congruence|done].
Qed.

Lemma finalize_ends reason s : streaming s -> (finalize' reason false s).2 = true /\ wellEnded (finalize' reason false s).1.
Proof.
  intros Hs. pose proof (settle_ok reason s Hs) as H. unfold finalize. destruct (settle' reason s) as [s1 detected]. cbn [fst] in H.
  destruct (toolRequired && _); [by split; [|by eapply failResponse_ends]|].
  destruct (bool_decide (detected = []) && _); [|by split; [|by apply complete_ends]].
  destruct (UpstreamEmptyOutputDetail _) as [[status msg] code]. by split; [|by eapply failResponse_ends].
Qed.

(** A deferred end that leaves no message behind goes on as before. *)
Lemma finalize_defers reason s : streaming s -> messageAdded (message (settle' reason s).1) = false -> (settle' reason s).2 = [] ->
  noneDone (functions (settle' reason s).1) -> streaming (settle' reason s).1.
Proof.
  intros Hs Hm _ Hd. split; [|exact Hd]. destruct (settle_ok reason s Hs) as [v [H1 H2 H3 H4]]. exists v. split; try done.
  unfold messageAgrees in *. by rewrite Hm in *.
Qed.

(** The states of a stream: lines are parsed, and an empty answer may be put off and asked for again as
    long as nothing of it was shown. *)
Inductive reached (v : S) (prefix : list json) : runtime S -> Prop :=
| reached_start : reached v prefix (newResponsesStreamRuntime uuid v prefix)
| reached_line s line : reached v prefix s -> reached v prefix (onParsed' s line).1
| reached_again reason s : reached v prefix s -> (finalize' reason true s).2 = false ->
    messageAdded (message (finalize' reason true s).1) = false -> reached v prefix (finalize' reason true s).1.

Lemma new_streaming v prefix : streaming (newResponsesStreamRuntime uuid v prefix).
Proof.
  unfold newResponsesStreamRuntime. set (s0 := Build_runtime _ _ _ _ _ _ _ _ _ _).
  assert (inStep true s0) as H0.
  { exists blank. split; [split; try done| |intros c; by split|intros c c' i H; discriminate H].
    by split_and!. }
  destruct prefix as [|x prefix]; [by split|]. destruct (put_start uuid s0 true H0) as [H1 _]. by split.
Qed.

Lemma settle_noneDone reason s : streaming s -> (settle' reason s).2 = [] -> noneDone (functions (settle' reason s).1).
Proof.
  intros [Hs Hd]. unfold settle. set (s1 := withFinal _ s). set (s2 := if bufferToolContent then _ else s1).
  assert (inStep true s2 /\ noneDone (functions s2)) as [H2 D2].
  { unfold s2. destruct bufferToolContent; [|exact (conj Hs Hd)]. pose proof (proj2 Hsieve (sieve s1)) as Hc. destruct (FlushSieve (sieve s1)) as [v events].
    by apply processToolStreamEvents_ok. }
  cbn [fst snd]. destruct (DetectAssistantToolCalls _ _ _ _ _); [|done]. intros _. destruct (closeMessageItem_ok uuid s2 H2) as (_ & -> & _). exact D2.
Qed.

Lemma reached_streaming v prefix s : reached v prefix s -> streaming s.
Proof.
  induction 1 as [|s line _ IH|reason s _ IH Hf Hm]; [apply new_streaming|by apply onParsed_ok|].
  pose proof (settle_noneDone reason s IH) as Hn. pose proof (finalize_defers reason s IH) as Hd. unfold finalize in *.
  destruct (settle' reason s) as [s1 detected]. cbn [fst snd] in *. destruct (toolRequired && _); [done|].
  destruct (bool_decide (detected = []) && _) eqn:He; [|done]. apply andb_true_iff in He as [He%bool_decide_eq_true _].
  destruct (UpstreamEmptyOutputDetail _) as [[status msg] code]. cbn [fst] in *. by apply Hd; [|..|apply Hn].
Qed.
End Stream.

(** ** The protocol *)


(** ** A small stream *)

Section Demo.
Definition demoCall : ParsedToolCall := {| Name := "read"; Input := JObj [] |}.
Definition demoChunk (v : unit) (chunk : string) : unit * list toolEvent :=
  (v, if bool_decide (chunk = "<call>") then [{| Content := ""; ToolCalls := [demoCall]; ToolCallDeltas := [] |}]
      else [{| Content := chunk; ToolCalls := []; ToolCallDeltas := [] |}]).
Definition demoFlush (v : unit) : unit * list toolEvent := (v, []).
Definition demoParse (t : string) : list ParsedToolCall := if Contains t "<call>" then [demoCall] else [].
Definition demoID (n : nat) : string := pretty n.
Definition demoLine (kind t : string) : LineResult :=
  {| Parsed := true; Stop := false; ContentFilter := false; ErrorMessage := ""; Parts := [{| Text := t; Type_ := kind |}];
     ToolDetectionThinkingParts := []; NextType := kind; ResponseMessageID := 7 |}.
Definition demoNew : runtime unit := newResponsesStreamRuntime demoID tt [].
Definition demoOn (tools : bool) (s : runtime unit) (t : string) : runtime unit :=
  (onParsed demoChunk (fun t => t) (fun l => l) (fun _ => Some "{}") (fun _ => None) demoID true false tools false s (demoLine "text" t)).1.
Definition demoEnd (tools defer : bool) (s : runtime unit) : runtime unit * bool :=
  finalize demoFlush demoParse (fun t => t) (fun l => l) (fun _ => Some "{}") (fun _ => None) demoID false tools false false "stop" defer s.
End Demo.


(** The call identifiers that closed items carry, and those of the final object. *)
Definition callIDOfItem (item : json) : list string := match isString (member "call_id" (default [] (isObject (Some item)))) with Some id => [id] | None => [] end.
Definition streamedCallIDs (l : list frame) : list string :=
  flat_map (fun f => match f with Event _ (ItemDone _ _ item) => callIDOfItem (JObj item) | _ => [] end) l.
Definition finalCallIDs (l : list frame) : list string :=
  flat_map (fun f => match f with Event _ (Completed obj) => flat_map callIDOfItem (Output obj) | _ => [] end) l.

(** A call that was streamed from the sieve appears in the final object under another identifier, because
    its identifiers were dropped when its block ended. *)
Theorem streamed_call_renamed :
  let l := written (onWire (demoEnd true false (demoOn true demoNew "<call>")).1) in
  streamedCallIDs l = ["call_1"] /\ finalCallIDs l = ["call_3"].
Proof. vm_compute. split; reflexivity. Qed.

(** An answer of white space only is shown, closed and asked for again: the new text is written into the
    closed item, and the client refuses it. *)
Theorem closed_message_reopened :
  let first := demoEnd false true (demoOn false demoNew " ") in
  first.2 = false /\ watch blank (written (onWire first.1)) <> None /\
  watch blank (written (onWire (demoOn false first.1 "hi"))) = None.
Proof. vm_compute. split_and!; [reflexivity|discriminate|reflexivity]. Qed.
