(* ===== verification/ClaudeStream.v ===== *)
(** The event stream of the Claude API: [internal/httpapi/claude] stream_runtime_core.go,
    stream_runtime_emit.go, stream_runtime_finalize.go, and the run of
    handler_stream_realtime.go over the stream engine.

    An answer is a message of numbered blocks, at most one of them open: text and reasoning are
    streamed in deltas, tool calls follow as blocks of their own, and the message is closed by its
    stop reason or by an error.  What is written is a list of events.  The sieve, the filter of
    leaked tool results, the cleaning of text, tool parsing and the
    JSON encoder are parameters; token counts are left out. *)
From S2P Require Import Prelude GoString Json Sse Pump StreamEngine StreamShared.
From S2P Require SchemaNormalize.
Local Open Scope string_scope.
Local Open Scope Z_scope.
Local Open Scope list_scope.

(** The type of a block, and of a delta. *)
Inductive blockKind := BText | BThinking | BTool (id name : string).
Inductive deltaKind := DText | DThinking | DJson.

Inductive event :=
| MessageStart
| Ping
| BlockStart (index : Z) (kind : blockKind)
| BlockDelta (index : Z) (kind : deltaKind) (text : string)
| BlockStop (index : Z)
| MessageDelta (stopReason : string)
| MessageStop
| ErrorEvent (message code : string).

(** [claudeStreamRuntime]; [V] is the state of the sieve, [F] that of the filter. *)
Record runtime (V F : Type) := {
  sieve : V; leakedFilter : F; thinking : string; text : string; rawText : string; toolCalls : list ParsedToolCall;
  nextBlockIndex : Z; thinkingBlockOpen : bool; thinkingBlockIndex : Z; textBlockOpen : bool; textBlockIndex : Z;
  ended : bool; upstreamErr : string; responseMessageID : Z; finalContent : list json; completed : bool; written : list event
}.
Arguments Build_runtime {V F}.
Arguments sieve {V F}.
Arguments leakedFilter {V F}.
Arguments thinking {V F}.
Arguments text {V F}.
Arguments rawText {V F}.
Arguments toolCalls {V F}.
Arguments nextBlockIndex {V F}.
Arguments thinkingBlockOpen {V F}.
Arguments thinkingBlockIndex {V F}.
Arguments textBlockOpen {V F}.
Arguments textBlockIndex {V F}.
Arguments ended {V F}.
Arguments upstreamErr {V F}.
Arguments responseMessageID {V F}.
Arguments finalContent {V F}.
Arguments completed {V F}.
Arguments written {V F}.

Section Claude.
Context {V F : Type}.
Variable ProcessChunk : V -> string -> V * list toolEvent.
Variable FlushSieve : V -> V * list toolEvent.
Variable Filter : F -> string -> F * string.
(** [cleanVisibleOutput] and [cleanVisibleOutputPreservingToolMarkup] *)
Variables clean cleanKeepingTools : string -> string.
Variable parseToolCalls : string -> list ParsedToolCall.
Variable normalizeCalls : list ParsedToolCall -> list ParsedToolCall.
Variable Marshal : json -> option string.
Variables thinkingEnabled searchEnabled bufferToolContent : bool.
(** [time.Now().UnixNano()] in [emitToolUseBlocks] *)
Variable idSeed : Z.
Notation state := (runtime V F).

(** ** Updates *)

Definition withSieve (v : V) (s : state) : state :=
  Build_runtime v (leakedFilter s) (thinking s) (text s) (rawText s) (toolCalls s) (nextBlockIndex s) (thinkingBlockOpen s) (thinkingBlockIndex s)
    (textBlockOpen s) (textBlockIndex s) (ended s) (upstreamErr s) (responseMessageID s) (finalContent s) (completed s) (written s).
Definition withFilter (f : F) (s : state) : state :=
  Build_runtime (sieve s) f (thinking s) (text s) (rawText s) (toolCalls s) (nextBlockIndex s) (thinkingBlockOpen s) (thinkingBlockIndex s)
    (textBlockOpen s) (textBlockIndex s) (ended s) (upstreamErr s) (responseMessageID s) (finalContent s) (completed s) (written s).
Definition withTexts (thinking text rawText : string) (s : state) : state :=
  Build_runtime (sieve s) (leakedFilter s) thinking text rawText (toolCalls s) (nextBlockIndex s) (thinkingBlockOpen s) (thinkingBlockIndex s)
    (textBlockOpen s) (textBlockIndex s) (ended s) (upstreamErr s) (responseMessageID s) (finalContent s) (completed s) (written s).
Definition withToolCalls (l : list ParsedToolCall) (s : state) : state :=
  Build_runtime (sieve s) (leakedFilter s) (thinking s) (text s) (rawText s) l (nextBlockIndex s) (thinkingBlockOpen s) (thinkingBlockIndex s)
    (textBlockOpen s) (textBlockIndex s) (ended s) (upstreamErr s) (responseMessageID s) (finalContent s) (completed s) (written s).
Definition withNext (n : Z) (s : state) : state :=
  Build_runtime (sieve s) (leakedFilter s) (thinking s) (text s) (rawText s) (toolCalls s) n (thinkingBlockOpen s) (thinkingBlockIndex s)
    (textBlockOpen s) (textBlockIndex s) (ended s) (upstreamErr s) (responseMessageID s) (finalContent s) (completed s) (written s).
Definition withThinkingBlock (opened : bool) (index : Z) (s : state) : state :=
  Build_runtime (sieve s) (leakedFilter s) (thinking s) (text s) (rawText s) (toolCalls s) (nextBlockIndex s) opened index
    (textBlockOpen s) (textBlockIndex s) (ended s) (upstreamErr s) (responseMessageID s) (finalContent s) (completed s) (written s).
Definition withTextBlock (opened : bool) (index : Z) (s : state) : state :=
  Build_runtime (sieve s) (leakedFilter s) (thinking s) (text s) (rawText s) (toolCalls s) (nextBlockIndex s) (thinkingBlockOpen s) (thinkingBlockIndex s)
    opened index (ended s) (upstreamErr s) (responseMessageID s) (finalContent s) (completed s) (written s).
Definition withEnd (ended completed : bool) (s : state) : state :=
  Build_runtime (sieve s) (leakedFilter s) (thinking s) (text s) (rawText s) (toolCalls s) (nextBlockIndex s) (thinkingBlockOpen s) (thinkingBlockIndex s)
    (textBlockOpen s) (textBlockIndex s) ended (upstreamErr s) (responseMessageID s) (finalContent s) completed (written s).
Definition withUpstream (err : string) (id : Z) (s : state) : state :=
  Build_runtime (sieve s) (leakedFilter s) (thinking s) (text s) (rawText s) (toolCalls s) (nextBlockIndex s) (thinkingBlockOpen s) (thinkingBlockIndex s)
    (textBlockOpen s) (textBlockIndex s) (ended s) err id (finalContent s) (completed s) (written s).
Definition withContent (l : list json) (s : state) : state :=
  Build_runtime (sieve s) (leakedFilter s) (thinking s) (text s) (rawText s) (toolCalls s) (nextBlockIndex s) (thinkingBlockOpen s) (thinkingBlockIndex s)
    (textBlockOpen s) (textBlockIndex s) (ended s) (upstreamErr s) (responseMessageID s) l (completed s) (written s).

(** ** Writing *)

Definition send (e : event) (s : state) : state :=
  Build_runtime (sieve s) (leakedFilter s) (thinking s) (text s) (rawText s) (toolCalls s) (nextBlockIndex s) (thinkingBlockOpen s) (thinkingBlockIndex s)
    (textBlockOpen s) (textBlockIndex s) (ended s) (upstreamErr s) (responseMessageID s) (finalContent s) (completed s) (written s ++ [e]).

Definition sendErrorWithCode (message code : string) (s : state) : state :=
  let msg := TrimSpace message in
  let code := TrimSpace code in
  send (ErrorEvent (if bool_decide (msg = "") then "upstream stream error" else msg) (if bool_decide (code = "") then "internal_error" else code)) s.
Definition sendError (message : string) (s : state) : state := sendErrorWithCode message "internal_error" s.
Definition sendPing (s : state) : state := send Ping s.
Definition sendMessageStart (s : state) : state := send MessageStart s.

Definition closeThinkingBlock (s : state) : state :=
  if negb (thinkingBlockOpen s) then s else withThinkingBlock false (-1) (send (BlockStop (thinkingBlockIndex s)) s).
Definition closeTextBlock (s : state) : state :=
  if negb (textBlockOpen s) then s else withTextBlock false (-1) (send (BlockStop (textBlockIndex s)) s).

(** The guarded beginnings of a block in [onParsed] and [emitTextDelta]. *)
Definition openThinkingBlock (s : state) : state :=
  if thinkingBlockOpen s then s
  else let i := nextBlockIndex s in withThinkingBlock true i (send (BlockStart i BThinking) (withNext (i + 1) s)).
Definition openTextBlock (s : state) : state :=
  if textBlockOpen s then s
  else let i := nextBlockIndex s in withTextBlock true i (send (BlockStart i BText) (withNext (i + 1) s)).

Definition emitThinkingDelta (trimmed : string) (s : state) : state :=
  let s := withTexts (thinking s +:+ trimmed) (text s) (rawText s) s in
  let s := openThinkingBlock (closeTextBlock s) in
  send (BlockDelta (thinkingBlockIndex s) DThinking trimmed) s.

Definition emitTextDelta (raw : string) (s : state) : state :=
  let '(f, raw) := Filter (leakedFilter s) raw in
  let s := withFilter f s in
  if bool_decide (raw = "") then s
  else
    let cleanedText := clean raw in
    if bool_decide (cleanedText = "") then s
    else if searchEnabled && IsCitation cleanedText then s
    else
      let trimmed := TrimContinuationOverlap (text s) cleanedText in
      if bool_decide (trimmed = "") then s
      else
        let s := withTexts (thinking s) (text s +:+ trimmed) (rawText s) s in
        let s := openTextBlock (closeThinkingBlock s) in
        send (BlockDelta (textBlockIndex s) DText trimmed) s.

Definition processToolEvent (s : state) (evt : toolEvent) : state :=
  match ToolCalls evt with
  | [] => if bool_decide (Content evt = "") then s else emitTextDelta (Content evt) s
  | calls => withToolCalls (toolCalls s ++ calls) s
  end.
Definition processToolStreamEvents (events : list toolEvent) (s : state) : state := fold_left processToolEvent events s.

(** ** Parsed lines *)

(** One part; the flag is [contentSeen]. *)
Definition onPart (r : state * bool) (p : ContentPart) : state * bool :=
  let '(s, contentSeen) := r in
  let cleanedText := if bufferToolContent then cleanKeepingTools (Text p) else clean (Text p) in
  let isThinking := bool_decide (Type_ p = "thinking") in
  if bool_decide (cleanedText = "") then r
  else if negb isThinking && searchEnabled && IsCitation cleanedText then r
  else if isThinking then
    if negb thinkingEnabled then (s, true)
    else
      let trimmed := TrimContinuationOverlap (thinking s) cleanedText in
      if bool_decide (trimmed = "") then (s, true) else (emitThinkingDelta trimmed s, true)
  else
    let rawTrimmed := TrimContinuationOverlap (rawText s) (Text p) in
    if bool_decide (rawTrimmed = "") then (s, true)
    else
      let s := withTexts (thinking s) (text s) (rawText s +:+ rawTrimmed) s in
      if bufferToolContent then
        let '(v, events) := ProcessChunk (sieve s) rawTrimmed in (processToolStreamEvents events (withSieve v s), true)
      else (emitTextDelta rawTrimmed s, true).

Definition onParsed (s : state) (parsed : LineResult) : state * ParsedDecision :=
  if negb (Parsed parsed) then (s, decision false "" false)
  else
    let s := if 0 <? ResponseMessageID parsed then withUpstream (upstreamErr s) (ResponseMessageID parsed) s else s in
    if negb (bool_decide (ErrorMessage parsed = "")) then (withUpstream (ErrorMessage parsed) (responseMessageID s) s, decision true "upstream_error" false)
    else if Stop parsed then (s, decision true "" false)
    else let '(s, contentSeen) := fold_left onPart (Parts parsed) (s, false) in (s, decision false "" contentSeen).

(** ** The end *)

Definition toolID (index : Z) : string := "toolu_" +:+ pretty idSeed +:+ "_" +:+ pretty index.

Definition toolContent (index : Z) (tc : ParsedToolCall) : json :=
  JObj [("type", JStr "tool_use"); ("id", JStr (toolID index)); ("name", JStr (Name tc)); ("input", Input tc)].

(** The blocks of the calls from [index] on. *)
Fixpoint emitToolBlocks (index : Z) (calls : list ParsedToolCall) (s : state) : state :=
  match calls with
  | [] => s
  | tc :: l =>
      let s := withContent (finalContent s ++ [toolContent index tc]) s in
      let s := send (BlockStart index (BTool (toolID index) (Name tc))) s in
      let s := send (BlockDelta index DJson (marshalled Marshal (Input tc))) s in
      emitToolBlocks (index + 1) l (send (BlockStop index) s)
  end.

(** [emitToolUseBlocks]; it sets the stop reason when there is a call. *)
Definition emitToolUseBlocks (calls : list ParsedToolCall) (stopReason : string) (s : state) : state * string :=
  match calls with
  | [] => (s, stopReason)
  | _ =>
      let detected := normalizeCalls calls in
      let s := emitToolBlocks (nextBlockIndex s) detected s in
      (withNext (nextBlockIndex s + Z.of_nat (length detected)) s, "tool_use")
  end.

(** The calls of the answer: those of the sieve, or else those found in the text, or in the reasoning
    when there is no text. *)
Definition detectCalls (finalThinking toolParseText : string) (s : state) : list ParsedToolCall :=
  match toolCalls s with
  | [] => match parseToolCalls toolParseText with
          | [] => if bool_decide (toolParseText = "") && negb (bool_decide (finalThinking = "")) then parseToolCalls finalThinking else []
          | calls => calls
          end
  | calls => calls
  end.

Definition finalize (stopReason : string) (s : state) : state :=
  if ended s then s
  else
    let s := withEnd true (completed s) s in
    let s := if bufferToolContent then let '(v, events) := FlushSieve (sieve s) in processToolStreamEvents events (withSieve v s) else s in
    let s := closeTextBlock (closeThinkingBlock s) in
    let finalThinking := thinking s in
    let finalText := clean (text s) in
    let s := withContent ((if bool_decide (finalThinking = "") then [] else [JObj [("type", JStr "thinking"); ("thinking", JStr finalThinking)]]) ++
                          (if bool_decide (finalText = "") then [] else [JObj [("type", JStr "text"); ("text", JStr finalText)]])) s in
    let toolParseText := cleanKeepingTools (rawText s) in
    let '(s, stopReason) := if bufferToolContent then emitToolUseBlocks (detectCalls finalThinking toolParseText s) stopReason s else (s, stopReason) in
    withEnd true true (send MessageStop (send (MessageDelta stopReason) s)).

Definition onFinalize (reason : StopReason) (scannerErr : option pumpError) (s : state) : state :=
  if bool_decide (reason = "upstream_error") then sendError (upstreamErr s) s
  else match ClassifyTerminalFailure reason scannerErr with
       | Some failure => sendErrorWithCode (Message failure) (Code failure) s
       | None => finalize "end_turn" s
       end.

(** ** The run *)

Definition newClaudeStreamRuntime (v : V) (f : F) : state :=
  Build_runtime v f "" "" "" [] 0 false (-1) false (-1) false "" 0 [] false [].

(** What the hooks of [handleClaudeStreamRealtime] do to the runtime. *)
Definition act (s : state) (a : action) : state :=
  match a with
  | OnParsed parsed => (onParsed s parsed).1
  | OnKeepAlive => sendPing s
  | OnFinalize reason err => onFinalize reason err s
  | OnContextDone => s
  end.

(** The runtime after the engine has taken these events; [true]: it has returned. *)
Definition realtime (cfg : ConsumeConfig) (start : Z) (v : V) (f : F) (events : list selectEvent) : state * bool :=
  let s := sendMessageStart (newClaudeStreamRuntime v f) in
  let '(e, ret) := ConsumeSSE (Some onParsed) cfg start s events in (fold_left act (calls e) s, ret).
End Claude.

(** ** The client *)

Record block := { bKind : blockKind; bText : string }.
Record view := { vStarted : bool; vClosed : list block; vOpen : option block; vReason : option string; vOver : bool; vFailed : bool }.
Definition blank : view := {| vStarted := false; vClosed := []; vOpen := None; vReason := None; vOver := false; vFailed := false |}.

Definition fits (k : blockKind) (d : deltaKind) : bool :=
  match k, d with BText, DText | BThinking, DThinking | BTool _ _, DJson => true | _, _ => false end.

(** The index of the block that is open, or that is opened next. *)
Definition vIndex (v : view) : Z := Z.of_nat (length (vClosed v)).
Definition withBlocks (closed : list block) (opened : option block) (v : view) : view :=
  {| vStarted := vStarted v; vClosed := closed; vOpen := opened; vReason := vReason v; vOver := vOver v; vFailed := vFailed v |}.
Definition ending (reason : option string) (over bad : bool) (v : view) : view :=
  {| vStarted := vStarted v; vClosed := vClosed v; vOpen := vOpen v; vReason := reason; vOver := over; vFailed := bad |}.

(** What the client makes of an event; [None]: the stream is broken. *)
Definition onEvent (v : view) (e : event) : option view :=
  if vOver v then None
  else if negb (vStarted v) then
    match e with
    | MessageStart => Some {| vStarted := true; vClosed := vClosed v; vOpen := vOpen v; vReason := vReason v; vOver := false; vFailed := false |}
    | _ => None
    end
  else
    match e, vOpen v, vReason v with
    | Ping, _, _ => Some v
    | BlockStart i k, None, None => if i =? vIndex v then Some (withBlocks (vClosed v) (Some {| bKind := k; bText := "" |}) v) else None
    | BlockDelta i d t, Some b, _ =>
        if (i =? vIndex v) && fits (bKind b) d then Some (withBlocks (vClosed v) (Some {| bKind := bKind b; bText := bText b +:+ t |}) v) else None
    | BlockStop i, Some b, _ => if i =? vIndex v then Some (withBlocks (vClosed v ++ [b]) None v) else None
    | MessageDelta r, None, None => Some (ending (Some r) false false v)
    | MessageStop, None, Some r => Some (ending (Some r) true false v)
    | ErrorEvent _ _, _, _ => Some (ending (vReason v) true true v)
    | _, _, _ => None
    end.

Fixpoint watch (v : view) (l : list event) : option view :=
  match l with
  | [] => Some v
  | e :: l => match onEvent v e with Some v => watch v l | None => None end
  end.

Lemma clientWatch_app (v : view) (l l' : list event) : watch v (l ++ l') = match watch v l with Some v' => watch v' l' | None => None end.
Proof. revert v. induction l as [|e l IH]; intros v; [done|]. cbn [app watch]. by destruct (onEvent v e). Qed.

(** Everything the client knows, and what is said in blocks that satisfy [f]. *)
Definition blocks (v : view) : list block := vClosed v ++ option_list (vOpen v).
Definition isText (b : block) : bool := match bKind b with BText => true | _ => false end.
Definition isThinking (b : block) : bool := match bKind b with BThinking => true | _ => false end.
Definition said (f : block -> bool) (l : list block) : string := foldr (fun b acc => if f b then bText b +:+ acc else acc) "" l.
(** The tool calls among the blocks. *)
Definition toolsIn (l : list block) : list (string * string * string) :=
  omap (fun b => match bKind b with BTool id name => Some (id, name, bText b) | _ => None end) l.

Lemma said_app f l l' : said f (l ++ l') = said f l +:+ said f l'.
Proof. induction l as [|b l IH]; [done|]. cbn [said app foldr] in *. fold (said f (l ++ l')) (said f l) in *. destruct (f b); rewrite IH; [by rewrite append_assoc|done]. Qed.

Lemma toolsIn_app l l' : toolsIn (l ++ l') = toolsIn l ++ toolsIn l'.
Proof. apply omap_app. Qed.

(** ** What the runtime and the client agree on *)

Section Agree.
Context {V F : Type}.
Implicit Types (s : runtime V F) (v : view).

Record agree (s : runtime V F) (v : view) : Prop := {
  ag_watch : watch blank (written s) = Some v;
  ag_live : vStarted v = true /\ vReason v = None /\ vOver v = false /\ vFailed v = false;
  ag_next : nextBlockIndex s = Z.of_nat (length (blocks v));
  ag_open : match vOpen v with
            | None => thinkingBlockOpen s = false /\ textBlockOpen s = false
            | Some b => match bKind b with
                        | BThinking => thinkingBlockOpen s = true /\ textBlockOpen s = false /\ thinkingBlockIndex s = vIndex v
                        | BText => thinkingBlockOpen s = false /\ textBlockOpen s = true /\ textBlockIndex s = vIndex v
                        | BTool _ _ => False
                        end
            end;
  ag_text : said isText (blocks v) = text s;
  ag_thinking : said isThinking (blocks v) = thinking s;
  ag_tools : toolsIn (blocks v) = []
}.

(** The client after one more event. *)
Lemma watch_send s v v' e : watch blank (written s) = Some v -> onEvent v e = Some v' -> watch blank (written (send e s)) = Some v'.
Proof. intros H1 H2. cbn [written send]. rewrite clientWatch_app, H1. cbn [watch]. by rewrite H2. Qed.

(** What is not seen by the client may change. *)
Lemma agree_same s s' v : agree s v -> written s' = written s -> nextBlockIndex s' = nextBlockIndex s -> thinkingBlockOpen s' = thinkingBlockOpen s ->
  thinkingBlockIndex s' = thinkingBlockIndex s -> textBlockOpen s' = textBlockOpen s -> textBlockIndex s' = textBlockIndex s ->
  text s' = text s -> thinking s' = thinking s -> agree s' v.
Proof. intros [H1 H2 H3 H4 H5 H6 H7] E1 E2 E3 E4 E5 E6 E7 E8. split; by rewrite ?E1, ?E2, ?E3, ?E4, ?E5, ?E6, ?E7, ?E8. Qed.

Lemma sendPing_ok s v : agree s v -> agree (sendPing s) v.
Proof.
  intros [H1 (A & B & C & D) H3 H4 H5 H6 H7]. split; try done. eapply watch_send; [exact H1|]. unfold onEvent. by rewrite C, A.
Qed.

Lemma close_blocks v b : vOpen v = Some b -> blocks (withBlocks (vClosed v ++ [b]) None v) = blocks v.
Proof. intros H. unfold blocks. cbn. by rewrite app_nil_r, H. Qed.

Lemma closeThinkingBlock_ok s v : agree s v -> exists v', agree (closeThinkingBlock s) v' /\ thinkingBlockOpen (closeThinkingBlock s) = false /\
  textBlockOpen (closeThinkingBlock s) = textBlockOpen s /\ blocks v' = blocks v.
Proof.
  intros Hs. unfold closeThinkingBlock. destruct (thinkingBlockOpen s) eqn:Ht; [|by exists v]. cbn [negb].
  pose proof Hs as [H1 (A & B & C & D) H3 H4 H5 H6 H7]. destruct (vOpen v) as [b|] eqn:Ho; [|rewrite Ht in H4; naive_solver].
  destruct b as [[| |id name] t]; cbn [bKind] in H4; [destruct H4; congruence| |done]. destruct H4 as (_ & H4 & Hi).
  exists (withBlocks (vClosed v ++ [{| bKind := BThinking; bText := t |}]) None v). split; [|split; [done|split; [done|by apply close_blocks]]].
  split; rewrite ?(close_blocks v _ Ho); try done.
  eapply watch_send; [exact H1|]. unfold onEvent. by rewrite C, A, Ho, Hi, Z.eqb_refl.
Qed.

Lemma closeTextBlock_ok s v : agree s v -> exists v', agree (closeTextBlock s) v' /\ textBlockOpen (closeTextBlock s) = false /\
  thinkingBlockOpen (closeTextBlock s) = thinkingBlockOpen s /\ blocks v' = blocks v.
Proof.
  intros Hs. unfold closeTextBlock. destruct (textBlockOpen s) eqn:Ht; [|by exists v]. cbn [negb].
  pose proof Hs as [H1 (A & B & C & D) H3 H4 H5 H6 H7]. destruct (vOpen v) as [b|] eqn:Ho; [|rewrite Ht in H4; naive_solver].
  destruct b as [[| |id name] t]; cbn [bKind] in H4; [|destruct H4 as (_ & ? & _); congruence|done]. destruct H4 as (H4 & _ & Hi).
  exists (withBlocks (vClosed v ++ [{| bKind := BText; bText := t |}]) None v). split; [|split; [done|split; [done|by apply close_blocks]]].
  split; rewrite ?(close_blocks v _ Ho); try done.
  eapply watch_send; [exact H1|]. unfold onEvent. by rewrite C, A, Ho, Hi, Z.eqb_refl.
Qed.

(** Opening a block of a kind, with nothing in it yet. *)
Lemma opened_said (f : block -> bool) v k : vOpen v = None -> said f (blocks (withBlocks (vClosed v) (Some {| bKind := k; bText := "" |}) v)) = said f (blocks v).
Proof. intros H. unfold blocks. cbn [vClosed vOpen withBlocks option_list]. rewrite H, !said_app. cbn. by destruct (f _). Qed.

Lemma openThinkingBlock_ok s v : agree s v -> textBlockOpen s = false -> exists (v' : view) (t : string), agree (openThinkingBlock s) v' /\ thinkingBlockOpen (openThinkingBlock s) = true /\ vOpen v' = Some {| bKind := BThinking; bText := t |}.
Proof.
  intros Hs Ht. unfold openThinkingBlock. pose proof Hs as [H1 (A & B & C & D) H3 H4 H5 H6 H7].
  destruct (thinkingBlockOpen s) eqn:Hb.
  - destruct (vOpen v) as [[[| |id name] t]|] eqn:Ho; cbn [bKind] in H4; [destruct H4; congruence| |done|destruct H4; congruence]. by exists v, t.
  - destruct (vOpen v) as [[[| |id name] t]|] eqn:Ho; cbn [bKind] in H4; [destruct H4 as (_ & ? & _); congruence|destruct H4; congruence|done|].
    set (v' := withBlocks (vClosed v) (Some {| bKind := BThinking; bText := "" |}) v). exists v', "". split; [|done].
    split; try done.
    + eapply watch_send; [exact H1|]. unfold onEvent. rewrite C, A, Ho, B. cbn [negb nextBlockIndex withNext]. rewrite H3. unfold blocks. rewrite Ho, app_nil_r, Z.eqb_refl. done.
    + cbn [nextBlockIndex withThinkingBlock send withNext]. rewrite H3. unfold blocks. rewrite Ho. cbn. rewrite !length_app. cbn. lia.
    + cbn. split_and!; [done|done|]. unfold vIndex. cbn. rewrite H3. unfold blocks. by rewrite Ho, app_nil_r.
    + unfold v'. by rewrite opened_said.
    + unfold v'. by rewrite opened_said.
    + unfold blocks in *. cbn. rewrite Ho, app_nil_r in H7. by rewrite toolsIn_app, H7.
Qed.

Lemma openTextBlock_ok s v : agree s v -> thinkingBlockOpen s = false -> exists (v' : view) (t : string), agree (openTextBlock s) v' /\ textBlockOpen (openTextBlock s) = true /\ vOpen v' = Some {| bKind := BText; bText := t |}.
Proof.
  intros Hs Ht. unfold openTextBlock. pose proof Hs as [H1 (A & B & C & D) H3 H4 H5 H6 H7].
  destruct (textBlockOpen s) eqn:Hb.
  - destruct (vOpen v) as [[[| |id name] t]|] eqn:Ho; cbn [bKind] in H4; [|destruct H4; congruence|done|destruct H4; congruence]. by exists v, t.
  - destruct (vOpen v) as [[[| |id name] t]|] eqn:Ho; cbn [bKind] in H4; [destruct H4 as (_ & ? & _); congruence|destruct H4; congruence|done|].
    set (v' := withBlocks (vClosed v) (Some {| bKind := BText; bText := "" |}) v). exists v', "". split; [|done].
    split; try done.
    + eapply watch_send; [exact H1|]. unfold onEvent. rewrite C, A, Ho, B. cbn [negb nextBlockIndex withNext]. rewrite H3. unfold blocks. rewrite Ho, app_nil_r, Z.eqb_refl. done.
    + cbn [nextBlockIndex withTextBlock send withNext]. rewrite H3. unfold blocks. rewrite Ho. cbn. rewrite !length_app. cbn. lia.
    + cbn. split_and!; [done|done|]. unfold vIndex. cbn. rewrite H3. unfold blocks. by rewrite Ho, app_nil_r.
    + unfold v'. by rewrite opened_said.
    + unfold v'. by rewrite opened_said.
    + unfold blocks in *. cbn. rewrite Ho, app_nil_r in H7. by rewrite toolsIn_app, H7.
Qed.

(** A delta to the open block, which the runtime has counted already. *)
Lemma delta_said (f : block -> bool) v k t d : (forall t', f {| bKind := k; bText := t' |} = f {| bKind := k; bText := t |}) ->
  vOpen v = Some {| bKind := k; bText := t |} ->
  said f (blocks (withBlocks (vClosed v) (Some {| bKind := k; bText := t +:+ d |}) v)) = said f (blocks v) +:+ (if f {| bKind := k; bText := t |} then d else "").
Proof.
  intros Hf H. unfold blocks. cbn [vClosed vOpen withBlocks option_list]. rewrite H, !said_app. cbn. rewrite (Hf (t +:+ d)).
  destruct (f _); by rewrite ?append_nil_r, ?append_assoc, ?append_nil_r.
Qed.

Lemma textDelta_ok s v t d : agree s v -> vOpen v = Some {| bKind := BText; bText := t |} ->
  exists v', agree (send (BlockDelta (textBlockIndex s) DText d) (withTexts (thinking s) (text s +:+ d) (rawText s) s)) v'.
Proof.
  intros [H1 (A & B & C & D) H3 H4 H5 H6 H7] Ho. rewrite Ho in H4. cbn [bKind] in H4. destruct H4 as (H4 & H4' & Hi).
  exists (withBlocks (vClosed v) (Some {| bKind := BText; bText := t +:+ d |}) v). split; try done.
  - eapply watch_send; [exact H1|]. unfold onEvent. rewrite C, A, Ho, Hi, Z.eqb_refl. done.
  - cbn [nextBlockIndex send withTexts]. rewrite H3. unfold blocks. rewrite Ho. cbn. by rewrite !length_app.
  - rewrite (delta_said _ _ _ t) by done. cbn. by rewrite H5.
  - rewrite (delta_said _ _ _ t) by done. cbn. by rewrite append_nil_r.
  - unfold blocks in *. rewrite Ho in H7. rewrite toolsIn_app in *. exact H7.
Qed.

Lemma thinkingDelta_ok s v t d : agree s v -> vOpen v = Some {| bKind := BThinking; bText := t |} ->
  exists v', agree (send (BlockDelta (thinkingBlockIndex s) DThinking d) (withTexts (thinking s +:+ d) (text s) (rawText s) s)) v'.
Proof.
  intros [H1 (A & B & C & D) H3 H4 H5 H6 H7] Ho. rewrite Ho in H4. cbn [bKind] in H4. destruct H4 as (H4 & H4' & Hi).
  exists (withBlocks (vClosed v) (Some {| bKind := BThinking; bText := t +:+ d |}) v). split; try done.
  - eapply watch_send; [exact H1|]. unfold onEvent. rewrite C, A, Ho, Hi, Z.eqb_refl. done.
  - cbn [nextBlockIndex send withTexts]. rewrite H3. unfold blocks. rewrite Ho. cbn. by rewrite !length_app.
  - rewrite (delta_said _ _ _ t) by done. cbn. by rewrite append_nil_r.
  - rewrite (delta_said _ _ _ t) by done. cbn. by rewrite H6.
  - unfold blocks in *. rewrite Ho in H7. rewrite toolsIn_app in *. exact H7.
Qed.
End Agree.

(** ** Every step keeps them in step *)

Section Steps.
Context {V F : Type}.
Variable ProcessChunk : V -> string -> V * list toolEvent.
Variable FlushSieve : V -> V * list toolEvent.
Variable Filter : F -> string -> F * string.
Variables clean cleanKeepingTools : string -> string.
Variables thinkingEnabled searchEnabled bufferToolContent : bool.
Implicit Types (s : runtime V F) (v : view).

(** The client follows, and [ended] is as given. *)
Definition inStep (b : bool) s : Prop := (exists v, agree s v) /\ ended s = b.

Lemma inStep_same b s s' : inStep b s -> ended s' = ended s -> written s' = written s -> nextBlockIndex s' = nextBlockIndex s -> thinkingBlockOpen s' = thinkingBlockOpen s ->
  thinkingBlockIndex s' = thinkingBlockIndex s -> textBlockOpen s' = textBlockOpen s -> textBlockIndex s' = textBlockIndex s ->
  text s' = text s -> thinking s' = thinking s -> inStep b s'.
Proof. intros [[v Hv] E] E0 E1 E2 E3 E4 E5 E6 E7 E8. split; [exists v; by eapply agree_same|congruence]. Qed.

(** Opening and closing blocks does not look at the texts. *)
Lemma textSide_texts a b c s : openTextBlock (closeThinkingBlock (withTexts a b c s)) = withTexts a b c (openTextBlock (closeThinkingBlock s)).
Proof. unfold openTextBlock, closeThinkingBlock. cbn [thinkingBlockOpen withTexts]. destruct (thinkingBlockOpen s); cbn; by destruct (textBlockOpen s). Qed.
Lemma thinkingSide_texts a b c s : openThinkingBlock (closeTextBlock (withTexts a b c s)) = withTexts a b c (openThinkingBlock (closeTextBlock s)).
Proof. unfold openThinkingBlock, closeTextBlock. cbn [textBlockOpen withTexts]. destruct (textBlockOpen s); cbn; by destruct (thinkingBlockOpen s). Qed.
Lemma textSide_same s : let s' := openTextBlock (closeThinkingBlock s) in thinking s' = thinking s /\ text s' = text s /\ rawText s' = rawText s /\ ended s' = ended s.
Proof. unfold openTextBlock, closeThinkingBlock. destruct (thinkingBlockOpen s); cbn; by destruct (textBlockOpen s). Qed.
Lemma thinkingSide_same s : let s' := openThinkingBlock (closeTextBlock s) in thinking s' = thinking s /\ text s' = text s /\ rawText s' = rawText s /\ ended s' = ended s.
Proof. unfold openThinkingBlock, closeTextBlock. destruct (textBlockOpen s); cbn; by destruct (thinkingBlockOpen s). Qed.

Lemma emitThinkingDelta_ok b d s : inStep b s -> inStep b (emitThinkingDelta d s).
Proof.
  intros [[v Hv] He]. unfold emitThinkingDelta. rewrite thinkingSide_texts.
  destruct (closeTextBlock_ok s v Hv) as (v1 & H1 & Hc & _). destruct (openThinkingBlock_ok _ _ H1 Hc) as (v2 & t & H2 & _ & Ho).
  destruct (thinkingSide_same s) as (E1 & E2 & E3 & E4). split; [|by rewrite <- He]. rewrite <- E1, <- E2, <- E3. exact (thinkingDelta_ok _ _ t d H2 Ho).
Qed.

Lemma textDelta_inStep b raw s : inStep b s -> inStep b (emitTextDelta Filter clean searchEnabled raw s).
Proof.
  intros Hs. unfold emitTextDelta. destruct (Filter (leakedFilter s) raw) as [f r].
  assert (inStep b (withFilter f s)) as Hf by (by eapply inStep_same). clear Hs.
  destruct (bool_decide (r = "")); [done|]. destruct (bool_decide (clean r = "")); [done|].
  destruct (searchEnabled && IsCitation (clean r)); [done|]. set (d := TrimContinuationOverlap _ _). destruct (bool_decide (d = "")); [done|].
  destruct Hf as [[v Hv] He].
  set (s1 := withFilter f s) in *. rewrite textSide_texts.
  destruct (closeThinkingBlock_ok s1 v Hv) as (v1 & H1 & Hc & _). destruct (openTextBlock_ok _ _ H1 Hc) as (v2 & t & H2 & _ & Ho).
  destruct (textSide_same s1) as (E1 & E2 & E3 & E4). split; [|by rewrite <- He]. rewrite <- E1, <- E2, <- E3. exact (textDelta_ok _ _ t d H2 Ho).
Qed.

Lemma toolEvents_inStep b events s : inStep b s -> inStep b (processToolStreamEvents Filter clean searchEnabled events s).
Proof.
  unfold processToolStreamEvents. revert s. induction events as [|e events IH]; intros s Hs; [done|]. cbn [fold_left]. apply IH. unfold processToolEvent.
  destruct (ToolCalls e); [destruct (bool_decide _); [done|by apply textDelta_inStep]|by eapply inStep_same].
Qed.

Lemma part_inStep b p s seen : inStep b s -> inStep b (onPart ProcessChunk Filter clean cleanKeepingTools thinkingEnabled searchEnabled bufferToolContent (s, seen) p).1.
Proof.
  intros Hs. unfold onPart. set (c := if bufferToolContent then _ else _).
  destruct (bool_decide (c = "")); [done|]. destruct (_ && IsCitation c); [done|]. destruct (bool_decide (Type_ p = "thinking")).
  - destruct thinkingEnabled; [|done]. cbn [negb]. destruct (bool_decide _); [done|]. by apply emitThinkingDelta_ok.
  - set (r := TrimContinuationOverlap _ _). destruct (bool_decide (r = "")); [done|].
    assert (inStep b (withTexts (thinking s) (text s) (rawText s +:+ r) s)) as Hs1 by (by eapply inStep_same).
    destruct bufferToolContent; [|by apply textDelta_inStep]. destruct (ProcessChunk _ r) as [w events]. apply toolEvents_inStep. by eapply inStep_same.
Qed.

Lemma line_inStep b p s : inStep b s -> inStep b (onParsed ProcessChunk Filter clean cleanKeepingTools thinkingEnabled searchEnabled bufferToolContent s p).1.
Proof.
  intros Hs. unfold onParsed. destruct (Parsed p); [|done]. cbn [negb].
  set (s1 := if 0 <? ResponseMessageID p then _ else s). assert (inStep b s1) as H1 by (unfold s1; destruct (0 <? _); [by eapply inStep_same|done]). clearbody s1.
  destruct (negb _); [by eapply inStep_same|]. destruct (Stop p); [done|].
  assert (forall l seen, inStep b (fold_left (onPart ProcessChunk Filter clean cleanKeepingTools thinkingEnabled searchEnabled bufferToolContent) l (s1, seen)).1) as H.
  { intros l. revert H1. generalize s1. clear. induction l as [|q l IH]; intros s H seen; [done|]. cbn [fold_left].
    pose proof (part_inStep b q s seen H) as Hq. destruct (onPart _ _ _ _ _ _ _ (s, seen) q) as [s2 b2]. by apply IH. }
  specialize (H (Parts p) false). by destruct (fold_left _ _ _) as [s2 b2].
Qed.

(** The end of a message or of a broken stream, as the client sees it. *)
Lemma sendError_ok message code s v : agree s v ->
  watch blank (written (sendErrorWithCode message code s)) = Some (ending None true true v).
Proof.
  intros [H1 (A & B & C & D) _ _ _ _ _]. eapply watch_send; [exact H1|]. unfold onEvent. rewrite C, A, B. by destruct (vOpen v).
Qed.

Lemma settled_ok b s : inStep b s -> exists v, agree (closeTextBlock (closeThinkingBlock s)) v /\ vOpen v = None.
Proof.
  intros [[v Hv] _]. destruct (closeThinkingBlock_ok s v Hv) as (v1 & H1 & Hc & Ht & _). destruct (closeTextBlock_ok _ _ H1) as (v2 & H2 & Hc2 & Ht2 & _).
  exists v2. split; [done|]. pose proof (ag_open _ _ H2) as H. destruct (vOpen v2) as [[[| |id name] t]|]; cbn [bKind] in H; [| |done|done]; destruct H as (E1 & E2 & _); congruence.
Qed.
End Steps.

(** ** Tool calls *)

Section Tools.
Context {V F : Type}.
Variable Marshal : json -> option string.
Variable idSeed : Z.
Implicit Types (s : runtime V F) (v : view).

Definition toolBlock (i : Z) (tc : ParsedToolCall) : block := {| bKind := BTool (toolID idSeed i) (Name tc); bText := marshalled Marshal (Input tc) |}.
Definition numbered {A} (f : Z -> ParsedToolCall -> A) (i : Z) (calls : list ParsedToolCall) : list A := imap (fun k tc => f (i + Z.of_nat k) tc) calls.

Lemma numbered_cons {A} (f : Z -> ParsedToolCall -> A) i tc l : numbered f i (tc :: l) = f i tc :: numbered f (i + 1) l.
Proof. unfold numbered. rewrite imap_cons. f_equal; [f_equal; lia|]. apply imap_ext. intros k x _. unfold compose. f_equal. lia. Qed.

Lemma emitToolBlocks_ok i calls s v : watch blank (written s) = Some v -> vStarted v = true -> vOver v = false -> vReason v = None -> vOpen v = None -> i = vIndex v ->
  let s' := emitToolBlocks Marshal idSeed i calls s in
  watch blank (written s') = Some (withBlocks (vClosed v ++ numbered toolBlock i calls) None v) /\
  finalContent s' = finalContent s ++ numbered (toolContent idSeed) i calls /\ text s' = text s /\ thinking s' = thinking s /\ rawText s' = rawText s /\
  toolCalls s' = toolCalls s.
Proof.
  revert i s v. induction calls as [|tc calls IH]; intros i s v Hw Hst Hov Hr Ho Hi; cbn [emitToolBlocks].
  { cbn. rewrite !app_nil_r. split_and!; try done. rewrite Hw. destruct v; cbn in *; by subst. }
  set (s1 := withContent _ s). set (s2 := send (BlockStart _ _) s1). set (s3 := send (BlockDelta _ _ _) s2). set (s4 := send (BlockStop i) s3).
  assert (watch blank (written s4) = Some (withBlocks (vClosed v ++ [toolBlock i tc]) None v)) as H4.
  { eapply (watch_send s3). 1: eapply (watch_send s2). 1: eapply (watch_send s1); [exact Hw|].
    - unfold onEvent. rewrite Hov, Hst, Ho, Hr, Hi, Z.eqb_refl. reflexivity.
    - unfold onEvent. cbn [vOver vStarted vOpen withBlocks bKind fits]. rewrite Hov, Hst. cbn [negb]. rewrite Hi. unfold vIndex. cbn [vClosed withBlocks]. rewrite Z.eqb_refl. reflexivity.
    - unfold onEvent. cbn [vOver vStarted vOpen withBlocks]. rewrite Hov, Hst. cbn [negb]. rewrite Hi. unfold vIndex. cbn [vClosed withBlocks]. rewrite Z.eqb_refl. reflexivity. }
  destruct (IH (i + 1) s4 _ H4) as (Hw' & Hc & Ht & Hth & Hra & Htc); try done.
  { unfold vIndex in *. cbn. rewrite length_app. cbn. lia. }
  rewrite !numbered_cons. split_and!; [|rewrite Hc; change (finalContent s4) with (finalContent s ++ [toolContent idSeed i tc]); by rewrite <- app_assoc|done..].
  rewrite Hw'. cbn [vClosed withBlocks]. by rewrite <- app_assoc.
Qed.

Lemma numbered_toolsIn i calls : toolsIn (numbered toolBlock i calls) = numbered (fun i tc => (toolID idSeed i, Name tc, marshalled Marshal (Input tc))) i calls.
Proof. revert i. induction calls as [|tc l IH]; intros i; [done|]. rewrite !numbered_cons. cbn. f_equal. apply IH. Qed.

Lemma numbered_said (f : block -> bool) i calls : (forall i tc, f (toolBlock i tc) = false) -> said f (numbered toolBlock i calls) = "".
Proof. intros Hf. revert i. induction calls as [|tc l IH]; intros i; [done|]. rewrite numbered_cons. cbn. rewrite Hf. apply IH. Qed.
End Tools.

(** ** What the answer says

    A reading of the upstream parts that knows nothing of frames and blocks: the reasoning, the
    raw text in pieces, the events that the sieve makes of them, and from these the text and the
    calls. *)

Section Heard.
Context {V F : Type}.
Variable ProcessChunk : V -> string -> V * list toolEvent.
Variable FlushSieve : V -> V * list toolEvent.
Variable Filter : F -> string -> F * string.
Variables clean cleanKeepingTools : string -> string.
Variables thinkingEnabled searchEnabled bufferToolContent : bool.
Variables (w : V) (f0 : F).
Implicit Types (s : runtime V F).

(** The lines whose parts are read: understood, and neither an error nor the end. *)
Definition streamed (r : LineResult) : bool := Parsed r && bool_decide (ErrorMessage r = "") && negb (Stop r).
Definition partsOf (rs : list LineResult) : list ContentPart := flat_map (fun r => if streamed r then Parts r else []) rs.

Definition isReasoning (p : ContentPart) : bool := bool_decide (Type_ p = "thinking").
Definition cleanedPart (p : ContentPart) : string := if bufferToolContent then cleanKeepingTools (Text p) else clean (Text p).
(** A part with nothing left after cleaning is dropped, and so is a citation in the text of a search. *)
Definition kept (p : ContentPart) : bool :=
  negb (bool_decide (cleanedPart p = "")) && (isReasoning p || negb searchEnabled || negb (IsCitation (cleanedPart p))).

Definition saidThinking (ps : list ContentPart) : string :=
  joined (pieces (if thinkingEnabled then cleanedPart <$> List.filter (fun p => kept p && isReasoning p) ps else [])).
Definition rawPieces (ps : list ContentPart) : list string := pieces (Text <$> List.filter (fun p => kept p && negb (isReasoning p)) ps).

(** What the sieve makes of the text, the last flush included when the answer is [over]; without
    tools every piece is plain content. *)
Definition eventsOf (ps : list ContentPart) (over : bool) : list toolEvent :=
  if bufferToolContent then
    let '(v, es) := sieved ProcessChunk w (rawPieces ps) in es ++ (if over then (FlushSieve v).2 else [])
  else (fun c => {| Content := c; ToolCalls := []; ToolCallDeltas := [] |}) <$> rawPieces ps.

(** The contents of the events without calls, through the filter of leaked tool results. *)
Definition leakFree (es : list toolEvent) : F * list string :=
  fold_left (fun r e => match ToolCalls e with
    | [] => if bool_decide (Content e = "") then r else let '(f, t) := Filter r.1 (Content e) in (f, r.2 ++ [t])
    | _ => r end) es (f0, []).
Definition showable (t : string) : bool :=
  negb (bool_decide (t = "")) && negb (bool_decide (clean t = "")) && negb (searchEnabled && IsCitation (clean t)).
Definition saidText (es : list toolEvent) : string := joined (pieces (clean <$> List.filter showable (leakFree es).2)).
Definition saidCalls (es : list toolEvent) : list ParsedToolCall := flat_map ToolCalls es.

(** The runtime has recorded what the parts [ps] say. *)
Record recorded (ps : list ContentPart) (over : bool) s : Prop := {
  rc_thinking : thinking s = saidThinking ps;
  rc_raw : rawText s = joined (rawPieces ps);
  rc_text : text s = saidText (eventsOf ps over);
  rc_calls : toolCalls s = saidCalls (eventsOf ps over)
}.

(** While the stream runs sieve and filter are known too. *)
Definition hears (es : list toolEvent) s : Prop :=
  leakedFilter s = (leakFree es).1 /\ text s = saidText es /\ toolCalls s = saidCalls es.
Definition listening (ps : list ContentPart) s : Prop :=
  recorded ps false s /\ hears (eventsOf ps false) s /\ (bufferToolContent = true -> sieve s = (sieved ProcessChunk w (rawPieces ps)).1).

Lemma grow_piece (l : list string) (x : string) : joined (addPiece l x) = joined l +:+ TrimContinuationOverlap (joined l) x.
Proof. unfold addPiece. case_bool_decide as E; [by rewrite E, append_nil_r|apply joined_snoc]. Qed.

Lemma kept_snoc (b : ContentPart -> bool) (ps : list ContentPart) (p : ContentPart) :
  List.filter b (ps ++ [p]) = List.filter b ps ++ (if b p then [p] else []).
Proof. rewrite List.filter_app. cbn. by destruct (b p). Qed.

(** Opening and closing blocks and sending say nothing new. *)
Definition sameWords s s' : Prop :=
  sieve s' = sieve s /\ leakedFilter s' = leakedFilter s /\ thinking s' = thinking s /\ text s' = text s /\ rawText s' = rawText s /\ toolCalls s' = toolCalls s.

Lemma openText_words s : sameWords s (openTextBlock (closeThinkingBlock s)).
Proof. unfold openTextBlock, closeThinkingBlock. destruct (thinkingBlockOpen s); cbn; by destruct (textBlockOpen s). Qed.
Lemma openThinking_words s : sameWords s (openThinkingBlock (closeTextBlock s)).
Proof. unfold openThinkingBlock, closeTextBlock. destruct (textBlockOpen s); cbn; by destruct (thinkingBlockOpen s). Qed.
Lemma close_words s : sameWords s (closeTextBlock (closeThinkingBlock s)).
Proof. unfold closeTextBlock, closeThinkingBlock. destruct (thinkingBlockOpen s); cbn; by destruct (textBlockOpen s). Qed.

Definition plainEvent (c : string) : toolEvent := {| Content := c; ToolCalls := []; ToolCallDeltas := [] |}.

Lemma leakFree_snoc (es : list toolEvent) (e : toolEvent) :
  leakFree (es ++ [e]) = match ToolCalls e with
    | [] => if bool_decide (Content e = "") then leakFree es
            else ((Filter (leakFree es).1 (Content e)).1, (leakFree es).2 ++ [(Filter (leakFree es).1 (Content e)).2])
    | _ => leakFree es end.
Proof. unfold leakFree. rewrite fold_left_app. cbn [fold_left]. destruct (ToolCalls e); [|done]. case_bool_decide; [done|]. by destruct (Filter _ _). Qed.

Lemma saidText_snoc (l : list string) (x : string) : joined (pieces (clean <$> List.filter showable (l ++ [x]))) =
  if showable x then joined (addPiece (pieces (clean <$> List.filter showable l)) (clean x)) else joined (pieces (clean <$> List.filter showable l)).
Proof.
  rewrite List.filter_app. cbn [List.filter]. destruct (showable x); [|by rewrite app_nil_r]. rewrite fmap_app. cbn. by rewrite pieces_snoc.
Qed.

(** Content that arrives. *)
Lemma emitText_hears (es : list toolEvent) (raw : string) s : raw <> "" -> hears es s ->
  let s' := emitTextDelta Filter clean searchEnabled raw s in
  hears (es ++ [plainEvent raw]) s' /\ sieve s' = sieve s /\ thinking s' = thinking s /\ rawText s' = rawText s.
Proof.
  intros Hne (Hf & Ht & Hc). unfold emitTextDelta. rewrite Hf. unfold hears, saidText, saidCalls. rewrite leakFree_snoc, flat_map_app.
  cbn [ToolCalls plainEvent Content flat_map]. rewrite bool_decide_eq_false_2, !app_nil_r by done.
  destruct (Filter (leakFree es).1 raw) as [f t]. cbn [fst snd]. rewrite saidText_snoc.
  change (showable t) with (negb (bool_decide (t = "")) && negb (bool_decide (clean t = "")) && negb (searchEnabled && IsCitation (clean t))).
  destruct (bool_decide (t = "")); [done|]. destruct (bool_decide (clean t = "")); [done|]. destruct (searchEnabled && IsCitation (clean t)); [done|].
  cbn [negb andb]. rewrite grow_piece. change (joined (pieces (clean <$> List.filter showable (leakFree es).2))) with (saidText es). rewrite <- Ht. cbn [text withFilter].
  case_bool_decide as Etr; [by rewrite Etr, append_nil_r|].
  match goal with |- context [openTextBlock (closeThinkingBlock ?x)] => destruct (openText_words x) as (A & B & C & D & E & G) end.
  cbn [leakedFilter text toolCalls sieve thinking rawText send]. by rewrite A, B, C, D, E, G.
Qed.

Lemma event_hears (es : list toolEvent) (e : toolEvent) s : hears es s ->
  let s' := processToolEvent Filter clean searchEnabled s e in
  hears (es ++ [e]) s' /\ sieve s' = sieve s /\ thinking s' = thinking s /\ rawText s' = rawText s.
Proof.
  intros H. unfold processToolEvent. destruct (ToolCalls e) as [|c cs] eqn:Ec.
  - destruct (bool_decide (Content e = "")) eqn:Et; bool_cases.
    + destruct H as (Hf & Ht & Hc). unfold hears, saidText, saidCalls. rewrite leakFree_snoc, Ec, bool_decide_eq_true_2, flat_map_app by done. cbn. rewrite Ec, !app_nil_r. done.
    + destruct (emitText_hears es (Content e) s Et H) as [Hh Hr]. split; [|exact Hr]. revert Hh. unfold hears, saidText, saidCalls.
      rewrite !leakFree_snoc, Ec, !flat_map_app. cbn. by rewrite Ec.
  - destruct H as (Hf & Ht & Hc). unfold hears, saidText, saidCalls. rewrite leakFree_snoc, Ec, flat_map_app. cbn. rewrite Ec, Hc. by rewrite app_nil_r.
Qed.

Lemma events_hear (events es : list toolEvent) s : hears es s ->
  let s' := processToolStreamEvents Filter clean searchEnabled events s in
  hears (es ++ events) s' /\ sieve s' = sieve s /\ thinking s' = thinking s /\ rawText s' = rawText s.
Proof.
  unfold processToolStreamEvents. revert es s. induction events as [|e events IH]; intros es s H; [by rewrite app_nil_r|]. cbn [fold_left].
  destruct (event_hears es e s H) as (H1 & A & B & C). destruct (IH _ _ H1) as (H2 & A2 & B2 & C2). rewrite <- app_assoc in H2. cbn [app] in H2.
  split; [exact H2|]. by rewrite A2, B2, C2.
Qed.

Lemma hears_recorded (ps : list ContentPart) (over : bool) s :
  hears (eventsOf ps over) s -> thinking s = saidThinking ps -> rawText s = joined (rawPieces ps) -> recorded ps over s.
Proof. intros (A & B & C) D E. by split. Qed.

(** A part of reasoning, or one that is dropped, does not touch the text. *)
Lemma rawPieces_other (ps : list ContentPart) (p : ContentPart) : kept p && negb (isReasoning p) = false -> rawPieces (ps ++ [p]) = rawPieces ps.
Proof. intros H. unfold rawPieces. by rewrite kept_snoc, H, app_nil_r. Qed.
Lemma eventsOf_other (ps : list ContentPart) (p : ContentPart) (over : bool) : rawPieces (ps ++ [p]) = rawPieces ps -> eventsOf (ps ++ [p]) over = eventsOf ps over.
Proof. intros H. unfold eventsOf. by rewrite H. Qed.
Lemma thinking_other (ps : list ContentPart) (p : ContentPart) : kept p && isReasoning p = false -> saidThinking (ps ++ [p]) = saidThinking ps.
Proof. intros H. unfold saidThinking. rewrite kept_snoc, H, app_nil_r. done. Qed.

(** Nothing is said. *)
Lemma listening_same (ps : list ContentPart) (p : ContentPart) s s' :
  rawPieces (ps ++ [p]) = rawPieces ps -> saidThinking (ps ++ [p]) = saidThinking ps -> sameWords s s' -> listening ps s -> listening (ps ++ [p]) s'.
Proof.
  intros Hr Ht (A & B & C & D & E & G) ([R1 R2 R3 R4] & (H1 & H2 & H3) & Hs). unfold listening. rewrite (eventsOf_other _ _ _ Hr), Hr.
  split; [|split]; [split; rewrite ?Ht, ?(eventsOf_other _ _ _ Hr), ?Hr; congruence|unfold hears; split_and!; congruence|intros Hb; by rewrite A, Hs].
Qed.

Lemma part_listens (ps : list ContentPart) (p : ContentPart) s (seen : bool) : listening ps s ->
  listening (ps ++ [p]) (onPart ProcessChunk Filter clean cleanKeepingTools thinkingEnabled searchEnabled bufferToolContent (s, seen) p).1.
Proof.
  intros Hl. pose proof Hl as ([R1 R2 R3 R4] & Hh & Hs). unfold onPart. fold (isReasoning p). change (if bufferToolContent then cleanKeepingTools (Text p) else clean (Text p)) with (cleanedPart p).
  assert (Hsame : sameWords s s) by done.
  destruct (bool_decide (cleanedPart p = "")) eqn:Ec.
  { cbn [fst]. eapply listening_same; [|..|exact Hsame|exact Hl]; [apply rawPieces_other|apply thinking_other]; unfold kept; by rewrite Ec. }
  destruct (negb (isReasoning p) && searchEnabled && IsCitation (cleanedPart p)) eqn:Ei.
  { assert (Hk : kept p = false). { unfold kept. destruct (isReasoning p), searchEnabled, (IsCitation _); try done; by rewrite andb_false_r. }
    eapply listening_same; [|..|exact Hsame|exact Hl]; [apply rawPieces_other|apply thinking_other]; by rewrite Hk. }
  assert (Hk : kept p = true). { unfold kept. rewrite Ec. destruct (isReasoning p), searchEnabled, (IsCitation _); done. }
  destruct (isReasoning p) eqn:Er.
  - assert (Hraw : rawPieces (ps ++ [p]) = rawPieces ps) by (apply rawPieces_other; by rewrite Er, andb_false_r).
    destruct thinkingEnabled eqn:Et; cbn [negb].
    2: { eapply listening_same; [exact Hraw|by unfold saidThinking; rewrite Et|exact Hsame|exact Hl]. }
    assert (Hth : saidThinking (ps ++ [p]) = saidThinking ps +:+ TrimContinuationOverlap (saidThinking ps) (cleanedPart p)).
    { unfold saidThinking. rewrite Et, kept_snoc, Hk, Er. cbn [andb]. rewrite fmap_app. cbn. rewrite pieces_snoc. apply grow_piece. }
    rewrite R1. destruct (bool_decide (TrimContinuationOverlap (saidThinking ps) (cleanedPart p) = "")) eqn:Etr; [apply bool_decide_eq_true in Etr|].
    { eapply listening_same; [exact Hraw|by rewrite Hth, Etr, append_nil_r|exact Hsame|exact Hl]. }
    cbn [fst]. unfold emitThinkingDelta. match goal with |- context [openThinkingBlock (closeTextBlock ?x)] => destruct (openThinking_words x) as (A & B & C & D & E & G) end.
    destruct Hh as (H1 & H2 & H3). unfold listening. rewrite (eventsOf_other _ _ _ Hraw), Hraw. cbn in A, B, C, D, E, G.
    split; [|split]; [split; rewrite ?Hth, ?(eventsOf_other _ _ _ Hraw), ?Hraw; cbn; congruence|unfold hears; cbn; split_and!; congruence|intros Hb; cbn; by rewrite A, Hs].
  - assert (Hth : saidThinking (ps ++ [p]) = saidThinking ps) by (apply thinking_other; by rewrite Er, andb_false_r).
    assert (Hraw : rawPieces (ps ++ [p]) = addPiece (rawPieces ps) (Text p)).
    { unfold rawPieces. rewrite kept_snoc, Hk, Er. cbn [andb negb]. rewrite fmap_app. cbn. apply pieces_snoc. }
    rewrite R2.
    destruct (bool_decide (TrimContinuationOverlap (joined (rawPieces ps)) (Text p) = "")) eqn:Etr; [apply bool_decide_eq_true in Etr|apply bool_decide_eq_false in Etr].
    { eapply listening_same; [unfold addPiece in Hraw; by rewrite Hraw, bool_decide_eq_true_2|exact Hth|exact Hsame|exact Hl]. }
    assert (Hraw' : rawPieces (ps ++ [p]) = rawPieces ps ++ [TrimContinuationOverlap (joined (rawPieces ps)) (Text p)]) by (rewrite Hraw; unfold addPiece; by rewrite bool_decide_eq_false_2).
    set (t := TrimContinuationOverlap _ _) in *. set (s1 := withTexts _ _ _ s). assert (Hh1 : hears (eventsOf ps false) s1) by exact Hh.
    assert (Hr1 : rawText s1 = joined (rawPieces (ps ++ [p]))) by (by rewrite Hraw', joined_snoc).
    destruct bufferToolContent eqn:Eb.
    + change (sieve s1) with (sieve s). rewrite (Hs eq_refl). destruct (ProcessChunk (sieved ProcessChunk w (rawPieces ps)).1 t) as [v es] eqn:Ep. cbn [fst].
      assert (Hev : eventsOf (ps ++ [p]) false = eventsOf ps false ++ es /\ (sieved ProcessChunk w (rawPieces (ps ++ [p]))).1 = v).
      { unfold eventsOf. rewrite Eb, Hraw', sieved_snoc, Ep. destruct (sieved ProcessChunk w (rawPieces ps)) as [v' es']. cbn. by rewrite !app_nil_r. }
      destruct Hev as [Hev Hv]. destruct (events_hear es _ (withSieve v s1) Hh1) as (H2 & A & B & C). rewrite <- Hev in H2. split; [|split].
      * apply hears_recorded; [exact H2| |]; [rewrite B, Hth; exact R1|by rewrite C].
      * exact H2.
      * intros _. by rewrite A, Hv.
    + assert (Hev : eventsOf (ps ++ [p]) false = eventsOf ps false ++ [plainEvent t]) by (unfold eventsOf; by rewrite Eb, Hraw', fmap_app).
      destruct (emitText_hears _ t s1 Etr Hh1) as (H2 & A & B & C). rewrite <- Hev in H2. cbn [fst]. split; [|split].
      * apply hears_recorded; [exact H2| |]; [rewrite B, Hth; exact R1|by rewrite C].
      * exact H2.
      * by rewrite Eb.
Qed.

Lemma recorded_words (ps : list ContentPart) (over : bool) s s' : thinking s' = thinking s -> text s' = text s -> rawText s' = rawText s -> toolCalls s' = toolCalls s ->
  recorded ps over s -> recorded ps over s'.
Proof. intros A B C D [R1 R2 R3 R4]. split; congruence. Qed.
Lemma listening_words (ps : list ContentPart) s s' : sameWords s s' -> listening ps s -> listening ps s'.
Proof.
  intros (A & B & C & D & E & G) (R & (H1 & H2 & H3) & Hs). split; [by eapply recorded_words|]. split; [unfold hears; split_and!; congruence|].
  intros Hb. by rewrite A, Hs.
Qed.

Lemma line_listens (ps : list ContentPart) (r : LineResult) s : listening ps s ->
  listening (ps ++ (if streamed r then Parts r else []))
    (onParsed ProcessChunk Filter clean cleanKeepingTools thinkingEnabled searchEnabled bufferToolContent s r).1.
Proof.
  intros Hl. unfold onParsed, streamed. destruct (Parsed r); cbn [negb andb]; [|by rewrite app_nil_r].
  set (s1 := if 0 <? ResponseMessageID r then _ else s). assert (H1 : listening ps s1) by (unfold s1; destruct (0 <? _); [eapply listening_words; [|exact Hl]; done|done]). clearbody s1.
  destruct (bool_decide (ErrorMessage r = "")); cbn [negb andb]; [|rewrite app_nil_r; eapply listening_words; [|exact H1]; done].
  destruct (Stop r); cbn [negb]; [by rewrite app_nil_r|].
  assert (H : forall l ps s seen, listening ps s ->
    listening (ps ++ l) (fold_left (onPart ProcessChunk Filter clean cleanKeepingTools thinkingEnabled searchEnabled bufferToolContent) l (s, seen)).1).
  { clear. induction l as [|q l IH]; intros ps s seen H; [by rewrite app_nil_r|]. cbn [fold_left].
    pose proof (part_listens ps q s seen H) as Hq. destruct (onPart _ _ _ _ _ _ _ (s, seen) q) as [s2 b2]. specialize (IH _ s2 b2 Hq). by rewrite <- app_assoc in IH. }
  specialize (H (Parts r) ps s1 false H1). by destruct (fold_left _ _ _) as [s2 b2].
Qed.

Lemma partsOf_app (a b : list LineResult) : partsOf (a ++ b) = partsOf a ++ partsOf b.
Proof. apply flat_map_app. Qed.

Lemma start_listens : listening [] (sendMessageStart (newClaudeStreamRuntime w f0)).
Proof.
  assert (rawPieces [] = []) as Hr by done. assert (saidThinking [] = "") as Ht by (unfold saidThinking; by destruct thinkingEnabled).
  assert (eventsOf [] false = []) as He by (unfold eventsOf; rewrite Hr; by destruct bufferToolContent).
  unfold listening. rewrite He, Hr. split; [split; rewrite ?He, ?Hr, ?Ht; done|]. split; [by split_and!|done].
Qed.

(** The flush at the end. *)
Lemma flush_recorded (ps : list ContentPart) s : listening ps s ->
  recorded ps true (if bufferToolContent then let '(v, events) := FlushSieve (sieve s) in processToolStreamEvents Filter clean searchEnabled events (withSieve v s) else s).
Proof.
  intros ([R1 R2 R3 R4] & Hh & Hs). unfold eventsOf in Hh. assert (He : eventsOf ps true = eventsOf ps false ++ if bufferToolContent then (FlushSieve (sieve s)).2 else []).
  { unfold eventsOf. destruct bufferToolContent; [|by rewrite app_nil_r]. rewrite (Hs eq_refl). destruct (sieved _ _ _) as [v es]. cbn. by rewrite app_nil_r. }
  fold (eventsOf ps false) in Hh. destruct bufferToolContent eqn:Eb.
  - destruct (FlushSieve (sieve s)) as [v es]. destruct (events_hear es _ (withSieve v s) Hh) as (H2 & A & B & C). apply hears_recorded; [|by rewrite B|by rewrite C].
    rewrite He. exact H2.
  - rewrite app_nil_r in He. apply hears_recorded; [|done..]. by rewrite He.
Qed.

End Heard.

(** ** The whole stream *)

Section Stream.
Context {V F : Type}.
Variable ProcessChunk : V -> string -> V * list toolEvent.
Variable FlushSieve : V -> V * list toolEvent.
Variable Filter : F -> string -> F * string.
Variables clean cleanKeepingTools : string -> string.
Variable parseToolCalls : string -> list ParsedToolCall.
Variable normalizeCalls : list ParsedToolCall -> list ParsedToolCall.
Variable Marshal : json -> option string.
Variables thinkingEnabled searchEnabled bufferToolContent : bool.
Variable idSeed : Z.
Implicit Types (s : runtime V F) (v : view).

Notation finish := (finalize FlushSieve Filter clean cleanKeepingTools parseToolCalls normalizeCalls Marshal searchEnabled bufferToolContent idSeed).
Notation finalizeHook := (onFinalize FlushSieve Filter clean cleanKeepingTools parseToolCalls normalizeCalls Marshal searchEnabled bufferToolContent idSeed).
Notation step := (onParsed ProcessChunk Filter clean cleanKeepingTools thinkingEnabled searchEnabled bufferToolContent).
Notation play := (act ProcessChunk FlushSieve Filter clean cleanKeepingTools parseToolCalls normalizeCalls Marshal thinkingEnabled searchEnabled bufferToolContent idSeed).
Notation run := (realtime ProcessChunk FlushSieve Filter clean cleanKeepingTools parseToolCalls normalizeCalls Marshal thinkingEnabled searchEnabled bufferToolContent idSeed).

(** The recorded texts of an answer. *)
Definition recordedTexts (s : runtime V F) : list json :=
  (if bool_decide (thinking s = "") then [] else [JObj [("type", JStr "thinking"); ("thinking", JStr (thinking s))]]) ++
  (if bool_decide (clean (text s) = "") then [] else [JObj [("type", JStr "text"); ("text", JStr (clean (text s)))]]).

(** The calls of an answer with tools: those that the sieve found, else those in the whole raw
    text, else, when there is no text, those in the reasoning; normalised. *)
Definition answerCalls s : list ParsedToolCall :=
  let raw := cleanKeepingTools (rawText s) in
  if bufferToolContent
  then normalizeCalls (firstOf [toolCalls s; parseToolCalls raw; if bool_decide (raw = "") && negb (bool_decide (thinking s = "")) then parseToolCalls (thinking s) else []])
  else [].

(** The client has the whole answer: the texts, then the calls under the identifiers that are
    recorded, and the stop reason tells whether there are any. *)
Definition answered s v : Prop :=
  vOver v = true /\ vFailed v = false /\ vOpen v = None /\ said isText (vClosed v) = text s /\ said isThinking (vClosed v) = thinking s /\
  exists n, toolsIn (vClosed v) = numbered (fun i tc => (toolID idSeed i, Name tc, marshalled Marshal (Input tc))) n (answerCalls s) /\
    finalContent s = recordedTexts s ++ numbered (toolContent idSeed) n (answerCalls s) /\
    vReason v = Some (match answerCalls s with [] => "end_turn" | _ => "tool_use" end).

Lemma detect_first s : detectCalls parseToolCalls (thinking s) (cleanKeepingTools (rawText s)) s =
  firstOf [toolCalls s; parseToolCalls (cleanKeepingTools (rawText s));
    if bool_decide (cleanKeepingTools (rawText s) = "") && negb (bool_decide (thinking s = "")) then parseToolCalls (thinking s) else []].
Proof.
  unfold detectCalls, firstOf. destruct (toolCalls s) as [|c l]; [|done]. cbn. destruct (parseToolCalls (cleanKeepingTools (rawText s))) as [|c l]; [|done]. cbn.
  destruct (_ && _); [|done]. by destruct (parseToolCalls (thinking s)).
Qed.

Lemma finalize_ok s : (forall l, length (normalizeCalls l) = length l) -> inStep false s ->
  exists v, watch blank (written (finish "end_turn" s)) = Some v /\ answered (finish "end_turn" s) v.
Proof.
  intros Hlen [Hv He]. unfold finalize. rewrite He. set (s1 := withEnd true (completed s) s).
  assert (inStep true s1) as H1 by (split; [|done]; destruct Hv as [v Hv]; exists v; by eapply agree_same).
  set (s2 := if bufferToolContent then _ else s1).
  assert (inStep true s2) as H2.
  { unfold s2. destruct bufferToolContent; [|done]. destruct (FlushSieve (sieve s1)) as [w events]. apply toolEvents_inStep. by eapply inStep_same. }
  clearbody s2. destruct (settled_ok _ s2 H2) as (v & Hag & Ho). set (s3 := closeTextBlock (closeThinkingBlock s2)) in *.
  set (s4 := withContent _ s3). change (thinking s3) with (thinking s4). set (calls := detectCalls parseToolCalls _ _ s4).
  pose proof Hag as [Hw (A & B & C & D) Hn _ Ht Hth Htools]. unfold blocks in *. rewrite Ho, app_nil_r in *.
  assert (watch blank (written s4) = Some v) as Hw4 by exact Hw.
  assert (exists s5 reason n found, (if bufferToolContent then emitToolUseBlocks normalizeCalls Marshal idSeed calls "end_turn" s4 else (s4, "end_turn")) = (s5, reason) /\
    found = answerCalls s4 /\ rawText s5 = rawText s4 /\ toolCalls s5 = toolCalls s4 /\
    watch blank (written s5) = Some (withBlocks (vClosed v ++ numbered (toolBlock Marshal idSeed) n found) None v) /\
    finalContent s5 = recordedTexts s4 ++ numbered (toolContent idSeed) n found /\ text s5 = text s4 /\ thinking s5 = thinking s4 /\
    reason = match found with [] => "end_turn" | _ => "tool_use" end) as (s5 & reason & n & found & -> & Hf5 & Hra5 & Htc5 & Hw5 & Hc5 & Ht5 & Hth5 & ->).
  { assert (exists n : Z, watch blank (written s4) = Some (withBlocks (vClosed v ++ numbered (toolBlock Marshal idSeed) n []) None v) /\
      finalContent s4 = recordedTexts s4 ++ numbered (toolContent idSeed) n []) as (n0 & Q1 & Q2).
    { exists 0. cbn [numbered imap]. rewrite !app_nil_r. split; [|done]. rewrite Hw4. destruct v; cbn in *; by subst. }
    assert (Hans : answerCalls s4 = if bufferToolContent then normalizeCalls calls else []).
    { unfold answerCalls. rewrite <- detect_first. done. }
    destruct bufferToolContent; [|exists s4, "end_turn", n0, []; by split_and!].
    unfold emitToolUseBlocks. destruct calls as [|c l] eqn:Hcalls.
    { specialize (Hlen []). destruct (normalizeCalls []); [|done]. exists s4, "end_turn", n0, []. by split_and!. }
    rewrite <- Hcalls in *. clear Q1 Q2.
    destruct (emitToolBlocks_ok Marshal idSeed (nextBlockIndex s4) (normalizeCalls calls) s4 v Hw4 A C B Ho Hn) as (Hw' & Hc & Ht' & Hth' & Hra' & Htc').
    eexists _, _, (nextBlockIndex s4), (normalizeCalls calls). split; [reflexivity|]. split_and!; [done|exact Hra'|exact Htc'|exact Hw'|exact Hc|exact Ht'|exact Hth'|].
    specialize (Hlen calls). rewrite Hcalls in Hlen |- *. by destruct (normalizeCalls (c :: l)). }
  assert (Hsame : answerCalls s5 = answerCalls s4) by (unfold answerCalls; by rewrite Hra5, Htc5, Hth5). rewrite <- Hsame in Hf5.
  eexists. split.
  { cbn [written withEnd]. eapply watch_send; [eapply watch_send; [exact Hw5|]|].
    - unfold onEvent. cbn [vOver vStarted vOpen vReason withBlocks]. rewrite C, A, B. reflexivity.
    - unfold onEvent. cbn [vOver vStarted vOpen vReason withBlocks ending]. rewrite A. reflexivity. }
  unfold answered. cbn [vOver vFailed vOpen vClosed vReason ending withBlocks text thinking finalContent withEnd send].
  match goal with |- context [answerCalls ?x] => change (answerCalls x) with (answerCalls s5) end. rewrite <- Hf5.
  split_and!; [done|done|done| | |exists n; split_and!; [|by rewrite Hc5; unfold recordedTexts; cbn [text thinking withEnd send]; rewrite Ht5, Hth5|done]].
  - rewrite said_app, numbered_said, append_nil_r, Ht, Ht5 by done. done.
  - rewrite said_app, numbered_said, append_nil_r, Hth, Hth5 by done. done.
  - by rewrite toolsIn_app, Htools, numbered_toolsIn.
Qed.

(** What a hook does before the end keeps client and runtime in step. *)
Lemma body_ok (body : list action) s : Forall (fun a => isEnd a = false) body -> inStep false s -> inStep false (fold_left play body s).
Proof.
  intros Hb. revert s. induction Hb as [|a body Ha _ IH]; intros s Hs; [done|]. cbn [fold_left]. apply IH.
  destruct a; cbn [isEnd act] in *; [by apply line_inStep| |done|done]. destruct Hs as [[v Hv] He]. split; [|done]. exists v. by apply sendPing_ok.
Qed.

(** *** What is recorded *)

Variables (w : V) (f0 : F).
Notation listens := (listening ProcessChunk FlushSieve Filter clean cleanKeepingTools thinkingEnabled searchEnabled bufferToolContent w f0).
Notation records := (recorded ProcessChunk FlushSieve Filter clean cleanKeepingTools thinkingEnabled searchEnabled bufferToolContent w f0).

Lemma body_listens (body : list action) ps s : Forall (fun a => isEnd a = false) body -> listens ps s ->
  listens (ps ++ partsOf (parsedOf body)) (fold_left play body s).
Proof.
  intros Hb. revert ps s. induction Hb as [|a body Ha _ IH]; intros ps s Hs; [by rewrite app_nil_r|]. cbn [fold_left].
  destruct a; cbn [isEnd act parsedOf] in *; try done.
  - change (partsOf (parsed :: parsedOf body)) with ((if streamed parsed then Parts parsed else []) ++ partsOf (parsedOf body)). rewrite app_assoc.
    apply IH. by apply line_listens.
  - apply IH. eapply listening_words; [|exact Hs]. done.
Qed.

Lemma emitBlocks_words i calls s : let s' := emitToolBlocks Marshal idSeed i calls s in
  thinking s' = thinking s /\ text s' = text s /\ rawText s' = rawText s /\ toolCalls s' = toolCalls s.
Proof.
  revert i s. induction calls as [|d l IH]; intros i s; [done|]. cbn [emitToolBlocks].
  match goal with |- context [emitToolBlocks _ _ _ l ?x] => exact (IH (i + 1) x) end.
Qed.

Lemma emitTools_words calls reason s : let s' := (emitToolUseBlocks normalizeCalls Marshal idSeed calls reason s).1 in
  thinking s' = thinking s /\ text s' = text s /\ rawText s' = rawText s /\ toolCalls s' = toolCalls s.
Proof. unfold emitToolUseBlocks. destruct calls as [|c l]; [done|]. exact (emitBlocks_words _ _ s). Qed.

Lemma finalize_recorded reason ps s : ended s = false -> listens ps s -> records ps true (finish reason s).
Proof.
  intros He Hl. unfold finalize. rewrite He. set (s1 := withEnd true (completed s) s).
  assert (listens ps s1) as H1 by (by eapply listening_words; [|exact Hl]).
  pose proof (flush_recorded ProcessChunk FlushSieve Filter clean cleanKeepingTools thinkingEnabled searchEnabled bufferToolContent w f0 ps s1 H1) as H2.
  set (s2 := if bufferToolContent then _ else s1) in *. clearbody s2.
  destruct (close_words s2) as (_ & _ & A & B & C & D). set (s3 := closeTextBlock (closeThinkingBlock s2)) in *.
  set (s4 := withContent _ s3). set (calls := detectCalls parseToolCalls _ _ s4).
  destruct (emitTools_words calls reason s4) as (E1 & E2 & E3 & E4).
  change (thinking s4) with (thinking s3) in E1. change (text s4) with (text s3) in E2. change (rawText s4) with (rawText s3) in E3.
  change (toolCalls s4) with (toolCalls s3) in E4.
  destruct bufferToolContent; [destruct (emitToolUseBlocks normalizeCalls Marshal idSeed calls reason s4) as [s5 r5]; cbn [fst] in *|];
    (eapply recorded_words; [..|exact H2]; cbn [thinking text rawText toolCalls withEnd withContent s4 send]; congruence).
Qed.

(** The last call that fails the stream. *)
Definition failing (a : action) : Prop :=
  match a with OnFinalize reason err => reason = "upstream_error" \/ is_Some (ClassifyTerminalFailure reason err) | _ => False end.

Lemma onFinalize_recorded reason err ps s v : ended s = false -> listens ps s ->
  vOver v = true -> (failing (OnFinalize reason err) -> vFailed v = true) -> (~ failing (OnFinalize reason err) -> vFailed v = false) ->
  records ps (vOver v && negb (vFailed v)) (finalizeHook reason err s).
Proof.
  intros He Hl Ho Hf Hn. rewrite Ho. unfold onFinalize. cbn [failing] in *. destruct (bool_decide (reason = "upstream_error")) eqn:Hr; bool_cases.
  { rewrite Hf by (by left). exact (proj1 (listening_words _ _ _ _ _ _ _ _ _ _ _ s (sendError (upstreamErr s) s) ltac:(done) Hl)). }
  destruct (ClassifyTerminalFailure reason err) as [failure|].
  { rewrite Hf by (right; by eexists).
    exact (proj1 (listening_words _ _ _ _ _ _ _ _ _ _ _ s (sendErrorWithCode (Message failure) (Code failure) s) ltac:(done) Hl)). }
  rewrite Hn by (intros [?|[? ?]]; done). by apply finalize_recorded.
Qed.

Lemma onFinalize_ok reason err s : (forall l, length (normalizeCalls l) = length l) -> inStep false s ->
  let s' := finalizeHook reason err s in
  exists v, watch blank (written s') = Some v /\ vOver v = true /\ said isText (blocks v) = text s' /\ said isThinking (blocks v) = thinking s' /\
    ((failing (OnFinalize reason err) /\ vFailed v = true) \/ (~ failing (OnFinalize reason err) /\ answered s' v)).
Proof.
  intros Hlen Hs. cbn [failing]. unfold onFinalize.
  assert (forall message code, exists v, watch blank (written (sendErrorWithCode message code s)) = Some v /\ vOver v = true /\ vFailed v = true /\
    said isText (blocks v) = text s /\ said isThinking (blocks v) = thinking s) as Herr.
  { intros message code. destruct Hs as [[v Hv] _]. eexists. split; [by apply sendError_ok|]. cbn [vOver vFailed ending]. split_and!; [done|done| |]; apply Hv. }
  destruct (bool_decide (reason = "upstream_error")) eqn:Hr; bool_cases.
  { destruct (Herr (upstreamErr s) "internal_error") as (v & H1 & H2 & H3 & H4 & H5). exists v. split_and!; [done..|]. left. split; [by left|done]. }
  destruct (ClassifyTerminalFailure reason err) as [failure|] eqn:Hc.
  { destruct (Herr (Message failure) (Code failure)) as (v & H1 & H2 & H3 & H4 & H5). exists v. split_and!; [done..|]. left. split; [right; by eexists|done]. }
  destruct (finalize_ok s Hlen Hs) as (v & H1 & H2). exists v. pose proof H2 as (H3 & H4 & H5 & H6 & H7 & _). unfold blocks. rewrite H5, app_nil_r.
  split_and!; [done..|]. right. split; [|done]. intros [H|H]; [done|by destruct H].
Qed.

Lemma start_ok (v : V) (f : F) : inStep false (sendMessageStart (newClaudeStreamRuntime v f)).
Proof. split; [|done]. eexists. split; try reflexivity; by split_and!. Qed.
End Stream.

(** C6. A streamed answer of the Claude API.  Over any run of the engine, with any upstream lines, what
    was written is at every moment a correct beginning of a message: blocks are numbered, opened one at
    a time, filled by deltas of their kind and closed.  What the deltas say is what the upstream
    parts say: the reasoning, and the text of the events that the sieve makes of the raw text
    (without tools, of the text itself), each without what overlaps the text before it.  When the engine
    returns and the request was not cancelled (a cancelled one may stop anywhere) the
    message is over: with an error exactly if the engine reported one, a truncated upstream included,
    and otherwise, after the last flush of the sieve, with every block closed, the calls in blocks of
    their own under the identifiers and with the arguments that are recorded - those that the
    sieve found, else those found in the whole text, or in the reasoning of an answer
    without text - and a stop reason that says whether there are calls. *)
Theorem claude_stream_protocol {V F : Type} ProcessChunk FlushSieve Filter clean cleanKeepingTools parseToolCalls toolsRaw Marshal
  thinkingEnabled searchEnabled bufferToolContent idSeed (cfg : ConsumeConfig) (start : Z) (w : V) (f : F) (events : list selectEvent) :
  Forall wellTimed events ->
  let s0 := sendMessageStart (newClaudeStreamRuntime w f) in
  let normalizeCalls := SchemaNormalize.NormalizeParsedToolCallsForSchemas Marshal toolsRaw in
  let '(e, _) := ConsumeSSE (Some (onParsed ProcessChunk Filter clean cleanKeepingTools thinkingEnabled searchEnabled bufferToolContent)) cfg start s0 events in
  let '(s, ret) := realtime ProcessChunk FlushSieve Filter clean cleanKeepingTools parseToolCalls normalizeCalls Marshal
                     thinkingEnabled searchEnabled bufferToolContent idSeed cfg start w f events in
  exists v, watch blank (written s) = Some v /\ said isText (blocks v) = text s /\ said isThinking (blocks v) = thinking s /\
    recorded ProcessChunk FlushSieve Filter clean cleanKeepingTools thinkingEnabled searchEnabled bufferToolContent w f
      (partsOf (parsedOf (calls e))) (vOver v && negb (vFailed v)) s /\
    (vFailed v = true <-> exists a, last (calls e) = Some a /\ failing a) /\
    (vOver v = true -> vFailed v = true \/ answered clean cleanKeepingTools parseToolCalls normalizeCalls Marshal bufferToolContent idSeed s v) /\
    (ret = false -> vOver v = false) /\ (ret = true -> Forall uncancelled events -> vOver v = true).
Proof.
  intros Hw s0 normalizeCalls.
  pose proof (SchemaNormalize.normalized_length Marshal toolsRaw : forall l, length (normalizeCalls l) = length l) as Hlen. unfold realtime. fold s0.
  destruct (ConsumeSSE _ cfg start s0 events) as [e ret] eqn:E. unfold ConsumeSSE in E.
  destruct (engineRun_ends _ _ _ _ _ _ Hw E) as (more & Hc & body & fin & -> & Hbody & Hfin). cbn [calls app] in Hc. rewrite Hc.
  assert (Forall uncancelled events -> OnContextDone ∉ body ++ fin) as Hlive.
  { intros Hu. destruct (engineRun_uncancelled _ _ _ _ _ _ Hw Hu E) as (m & Hm & Hn). cbn [calls app] in Hm. by rewrite <- Hc, Hm. }
  pose proof (body_ok ProcessChunk FlushSieve Filter clean cleanKeepingTools parseToolCalls normalizeCalls Marshal thinkingEnabled searchEnabled
    bufferToolContent idSeed body s0 Hbody (start_ok w f)) as Hs.
  pose proof (body_listens ProcessChunk FlushSieve Filter clean cleanKeepingTools parseToolCalls normalizeCalls Marshal thinkingEnabled searchEnabled
    bufferToolContent idSeed w f body [] s0 Hbody (start_listens _ _ _ _ _ _ _ _ w f)) as Hl. cbn [app] in Hl.
  assert (forall a, a ∈ body -> ~ failing a) as Hnf.
  { intros a Ha. pose proof (proj1 (Forall_forall _ _) Hbody a Ha) as Hx. intros Hf. destruct a; first [done|discriminate Hx]. }
  rewrite fold_left_app. set (s1 := fold_left _ body s0) in *. destruct ret.
  - destruct Hfin as (a & -> & Ha). rewrite last_snoc, parsedOf_app. cbn [fold_left]. destruct a as [| |reason err|]; try done; cbn [act parsedOf]; rewrite app_nil_r.
    + destruct (onFinalize_ok FlushSieve Filter clean cleanKeepingTools parseToolCalls normalizeCalls Marshal searchEnabled bufferToolContent idSeed reason err s1 Hlen Hs)
        as (v & H1 & H2 & H3 & H4 & H5). exists v. split_and!; [done|done|done| | | |done|done].
      * apply onFinalize_recorded; [apply Hs|exact Hl|exact H2|..]; intros Hf; destruct H5 as [[? Hx]|[? (_ & Hx & _)]]; done.
      * split; [intros Hf; eexists; split; [reflexivity|]; destruct H5 as [[? _]|[_ (_ & Hx & _)]]; [done|congruence]|].
        intros (a & [= <-] & Hf). by destruct H5 as [[_ ?]|[? _]].
      * intros _. destruct H5 as [[_ ?]|[_ ?]]; [by left|by right].
    + destruct Hs as [[v [H1 (A & B & C & D) H3 H4 H5 H6 H7]] _]. exists v. split_and!; try done.
      * rewrite C. apply Hl.
      * split; [congruence|]. by intros (a & [= <-] & ?).
      * congruence.
      * intros _ Hu. destruct (Hlive Hu). set_solver.
  - subst fin. rewrite app_nil_r. cbn [fold_left]. destruct Hs as [[v [H1 (A & B & C & D) H3 H4 H5 H6 H7]] _]. exists v. split_and!; try done.
    + rewrite C. apply Hl.
    + split; [congruence|]. intros (a & Hx & Hf). destruct (Hnf a); [|done]. by apply last_Some_elem_of.
    + congruence.
Qed.

(** The Claude handler stops only at a line that ends the answer. *)
Lemma claude_stops_at_terminal {V F : Type} ProcessChunk Filter clean cleanKeepingTools thinkingEnabled searchEnabled bufferToolContent (s : runtime V F) (r : LineResult) :
  DecStop (onParsed ProcessChunk Filter clean cleanKeepingTools thinkingEnabled searchEnabled bufferToolContent s r).2 = true -> isTerminal r = true.
Proof.
  unfold onParsed, isTerminal. destruct (Parsed r); [|done]. cbn [negb]. set (s1 := if 0 <? ResponseMessageID r then _ else _). clearbody s1.
  destruct (bool_decide (ErrorMessage r = "")); cbn [negb]; [|by rewrite orb_true_r]. destruct (Stop r); [done|]. by destruct (fold_left _ _ _).
Qed.

(** ** A small stream *)

Definition demoLine (kind t : string) : LineResult :=
  {| Parsed := true; Stop := false; ContentFilter := false; ErrorMessage := ""; Parts := [{| Text := t; Type_ := kind |}];
     ToolDetectionThinkingParts := []; NextType := kind; ResponseMessageID := 7 |}.
Definition demoRead : ParsedToolCall := {| Name := "read"; Input := JObj [] |}.
(** A sieve that takes ["<call>"] for a call. *)
Definition demoChunk (v : unit) (chunk : string) : unit * list toolEvent :=
  (v, [if bool_decide (chunk = "<call>") then {| Content := ""; ToolCalls := [demoRead]; ToolCallDeltas := [] |}
       else {| Content := chunk; ToolCalls := []; ToolCallDeltas := [] |}]).
Definition demoEvents : list selectEvent :=
  quiet <$> [SelLine (demoLine "thinking" "hm"); SelLine (demoLine "text" "one"); SelTick; SelLine (demoLine "text" "<call>"); SelLine (demoLine "text" "two"); SelClosed None].
Notation demoRun :=
  (realtime demoChunk (fun v => (v, [])) (fun f t => (f, t)) (fun t => t) (fun t => t) (fun _ => []) (SchemaNormalize.NormalizeParsedToolCallsForSchemas (fun _ => Some "{}") JNull) (fun _ => Some "{}") true false true 5
    StreamEngine.demoCfg 0 tt tt demoEvents) (only parsing).

Example demo_written : written demoRun.1 =
  [MessageStart; BlockStart 0 BThinking; BlockDelta 0 DThinking "hm"; BlockStop 0; BlockStart 1 BText; BlockDelta 1 DText "one"; Ping; BlockDelta 1 DText "two";
   BlockStop 1; BlockStart 2 (BTool "toolu_5_2" "read"); BlockDelta 2 DJson "{}"; BlockStop 2; MessageDelta "tool_use"; MessageStop].
Proof. vm_compute. reflexivity. Qed.

Lemma claude_stream_protocol_witness :
  let '(s, ret) := demoRun in ret = true -> exists v, watch blank (written s) = Some v /\ vOver v = true /\ said isText (blocks v) = text s.
Proof.
  pose proof (claude_stream_protocol demoChunk (fun v => (v, [])) (fun f t => (f, t)) (fun t => t) (fun t => t) (fun _ => []) JNull (fun _ => Some "{}")
    true false true 5 StreamEngine.demoCfg 0 tt tt demoEvents) as H.
  assert (Forall wellTimed demoEvents) as Hw by (repeat (constructor; [intros [=]|]); constructor). specialize (H Hw). cbv zeta in H.
  assert (Forall uncancelled demoEvents) as Hu by (repeat constructor).
  destruct (ConsumeSSE _ _ _ _ _) as [e r]. destruct demoRun as [s ret]. intros Hret. destruct H as (v & H1 & H2 & _ & _ & _ & _ & H7).
  exists v. split; [exact H1|]. split; [|exact H2]. apply H7; [exact Hret|exact Hu].
Defined.
