(* ===== verification/ChatStream.v ===== *)
(** The event stream of the chat completions API: [internal/httpapi/openai/chat]
    chat_stream_runtime.go, and the attempts of empty_retry_runtime.go that share one stream.

    An answer is a list of chunks: deltas of text, reasoning or tool calls, the first of them with
    the role, then a chunk with the reason for the end, or an error, and the end marker.  An attempt
    that ends with nothing to show may be put off, and another answer is asked for in the same
    stream.  The sieve, the cleaning of text, tool parsing, the JSON
    encoder, the source of identifiers and the requests of the retries are parameters; usage counts,
    the history record and log lines are left out. *)
From S2P Require Import Prelude GoString Json Sse Pump StreamEngine StreamShared.
From S2P Require UpstreamError SchemaNormalize.
Local Open Scope string_scope.
Local Open Scope Z_scope.
Local Open Scope list_scope.

Inductive delta :=
| DContent (t : string)
| DReasoning (t : string)
| DTools (calls : list shownCall).

Inductive frame :=
| Chunk (role : bool) (d : delta)
| FinishChunk (reason : string)
| FailedChunk (status : Z) (message code : string)
| DoneFrame
| KeepAlive.

(** The fields that describe the end. *)
Record finals := {
  finalThinking : string; finalText : string; finalFinishReason : string; finalErrorStatus : Z; finalErrorMessage : string; finalErrorCode : string
}.

(** [chatStreamRuntime]; [V] is the state of the sieve. *)
Record runtime (V : Type) := {
  toolSieve : V; firstChunkSent : bool; toolCallsEmitted : bool; toolCallsDoneEmitted : bool; streamToolCallIDs : callIDs; streamToolNames : gmap Z string;
  seen : texts; responseMessageID : Z; finalToolCalls : list shownCall; final : finals; written : list frame
}.
Arguments Build_runtime {V}.
Arguments toolSieve {V}.
Arguments firstChunkSent {V}.
Arguments toolCallsEmitted {V}.
Arguments toolCallsDoneEmitted {V}.
Arguments streamToolCallIDs {V}.
Arguments streamToolNames {V}.
Arguments seen {V}.
Arguments responseMessageID {V}.
Arguments finalToolCalls {V}.
Arguments final {V}.
Arguments written {V}.

Section Chat.
Context {V : Type}.
Variable ProcessChunk : V -> string -> V * list toolEvent.
Variable FlushSieve : V -> V * list toolEvent.
Variable clean : string -> string.
Variable parseToolCalls : string -> list ParsedToolCall.
Variable normalizeCalls : list ParsedToolCall -> list ParsedToolCall.
Variable Marshal : json -> option string.
Variable uuid : nat -> string.
Variables canFlush thinkingEnabled exposeReasoning searchEnabled requireToolCall bufferToolContent emitEarlyToolDeltas : bool.
Notation state := (runtime V).

(** ** Updates *)

Definition withSieve (v : V) (s : state) : state :=
  Build_runtime v (firstChunkSent s) (toolCallsEmitted s) (toolCallsDoneEmitted s) (streamToolCallIDs s) (streamToolNames s) (seen s)
    (responseMessageID s) (finalToolCalls s) (final s) (written s).
Definition withEmitted (emitted done : bool) (s : state) : state :=
  Build_runtime (toolSieve s) (firstChunkSent s) emitted done (streamToolCallIDs s) (streamToolNames s) (seen s)
    (responseMessageID s) (finalToolCalls s) (final s) (written s).
Definition withCallIDs (ids : callIDs) (s : state) : state :=
  Build_runtime (toolSieve s) (firstChunkSent s) (toolCallsEmitted s) (toolCallsDoneEmitted s) ids (streamToolNames s) (seen s)
    (responseMessageID s) (finalToolCalls s) (final s) (written s).
Definition withNames (names : gmap Z string) (s : state) : state :=
  Build_runtime (toolSieve s) (firstChunkSent s) (toolCallsEmitted s) (toolCallsDoneEmitted s) (streamToolCallIDs s) names (seen s)
    (responseMessageID s) (finalToolCalls s) (final s) (written s).
Definition onTexts (f : texts -> texts) (s : state) : state :=
  Build_runtime (toolSieve s) (firstChunkSent s) (toolCallsEmitted s) (toolCallsDoneEmitted s) (streamToolCallIDs s) (streamToolNames s) (f (seen s))
    (responseMessageID s) (finalToolCalls s) (final s) (written s).
Definition withMessageID (n : Z) (s : state) : state :=
  Build_runtime (toolSieve s) (firstChunkSent s) (toolCallsEmitted s) (toolCallsDoneEmitted s) (streamToolCallIDs s) (streamToolNames s) (seen s)
    n (finalToolCalls s) (final s) (written s).
Definition addFinalCalls (l : list shownCall) (s : state) : state :=
  Build_runtime (toolSieve s) (firstChunkSent s) (toolCallsEmitted s) (toolCallsDoneEmitted s) (streamToolCallIDs s) (streamToolNames s) (seen s)
    (responseMessageID s) (finalToolCalls s ++ l) (final s) (written s).
Definition withFinal (f : finals) (s : state) : state :=
  Build_runtime (toolSieve s) (firstChunkSent s) (toolCallsEmitted s) (toolCallsDoneEmitted s) (streamToolCallIDs s) (streamToolNames s) (seen s)
    (responseMessageID s) (finalToolCalls s) f (written s).

Definition withError (status : Z) (message code : string) (f : finals) : finals :=
  {| finalThinking := finalThinking f; finalText := finalText f; finalFinishReason := finalFinishReason f;
     finalErrorStatus := status; finalErrorMessage := message; finalErrorCode := code |}.
Definition withAnswer (thinking text : string) (f : finals) : finals :=
  {| finalThinking := thinking; finalText := text; finalFinishReason := finalFinishReason f;
     finalErrorStatus := finalErrorStatus f; finalErrorMessage := finalErrorMessage f; finalErrorCode := finalErrorCode f |}.
Definition withFinish (reason : string) (f : finals) : finals :=
  {| finalThinking := finalThinking f; finalText := finalText f; finalFinishReason := reason;
     finalErrorStatus := finalErrorStatus f; finalErrorMessage := finalErrorMessage f; finalErrorCode := finalErrorCode f |}.

(** ** Writing *)

Definition sendChunk (c : frame) (s : state) : state :=
  Build_runtime (toolSieve s) (firstChunkSent s) (toolCallsEmitted s) (toolCallsDoneEmitted s) (streamToolCallIDs s) (streamToolNames s) (seen s)
    (responseMessageID s) (finalToolCalls s) (final s) (written s ++ [c]).
Definition markFirst (s : state) : state :=
  Build_runtime (toolSieve s) true (toolCallsEmitted s) (toolCallsDoneEmitted s) (streamToolCallIDs s) (streamToolNames s) (seen s)
    (responseMessageID s) (finalToolCalls s) (final s) (written s).

Definition sendDelta (d : delta) (s : state) : state := sendChunk (Chunk (negb (firstChunkSent s)) d) (markFirst s).
Definition sendKeepAlive (s : state) : state := if negb canFlush then s else sendChunk KeepAlive s.
Definition sendDone (s : state) : state := sendChunk DoneFrame s.

Definition sendFailedChunk (status : Z) (message code : string) (s : state) : state :=
  sendDone (sendChunk (FailedChunk status message code) (withFinal (withError status message code (final s)) s)).

Definition markContextCancelled (s : state) : state :=
  withFinal (withFinish StopReasonContextCancelled (withAnswer (thinking (seen s)) (clean (text (seen s)))
    (withError 499 "request context cancelled" StopReasonContextCancelled (final s)))) s.

Definition resetStreamToolCallState (s : state) : state := withNames ∅ (withCallIDs (∅, (streamToolCallIDs s).2) s).

(** [chatDeltaBatch] *)
Record deltaBatch := { batchField : string; batchText : string }.
Definition emptyBatch : deltaBatch := {| batchField := ""; batchText := "" |}.
Definition deltaOf (field t : string) : delta := if bool_decide (field = "content") then DContent t else DReasoning t.

Definition flushBatch (r : state * deltaBatch) : state * deltaBatch :=
  let '(s, b) := r in
  if bool_decide (batchField b = "") || bool_decide (batchText b = "") then r else (sendDelta (deltaOf (batchField b) (batchText b)) s, emptyBatch).
Definition appendBatch (field t : string) (r : state * deltaBatch) : state * deltaBatch :=
  if bool_decide (t = "") then r
  else
    let '(s, b) := if negb (bool_decide (batchField r.2 = "")) && negb (bool_decide (batchField r.2 = field)) then flushBatch r else r in
    (s, {| batchField := field; batchText := batchText b +:+ t |}).

(** ** Tool events *)

(** The complete calls of an event: announced in one delta, kept for the record. *)
Definition sendCalls (calls : list ParsedToolCall) (s : state) : state :=
  let '(ids, formatted) := FormatFinalStreamToolCallsWithStableIDs uuid normalizeCalls (marshalled Marshal) calls (streamToolCallIDs s) in
  sendDelta (DTools formatted) (addFinalCalls formatted (withCallIDs ids (withEmitted true true s))).

(** Cleaned content of an event, if it is shown. *)
Definition shownContent (content : string) : string :=
  if bool_decide (content = "") || requireToolCall then ""
  else let cleaned := clean content in if searchEnabled && IsCitation cleaned then "" else cleaned.

(** The deltas of a call that is not complete. *)
Definition sendCallDeltas (deltas : list ToolCallDelta) (r : state * deltaBatch) : state * deltaBatch :=
  if negb emitEarlyToolDeltas then r
  else
    let '(names, filtered) := filterIncrementalToolCallDeltasByAllowed deltas (streamToolNames r.1) in
    let r := (withNames names r.1, r.2) in
    let '(ids, formatted) := FormatIncrementalStreamToolCallDeltas uuid filtered (streamToolCallIDs r.1) in
    let r := (withCallIDs ids r.1, r.2) in
    match formatted with
    | [] => r
    | _ => let '(s, b) := flushBatch r in (sendDelta (DTools formatted) (withEmitted true (toolCallsDoneEmitted s) s), b)
    end.

(** One event of the sieve; the flag is [toolCallJustCompleted]. *)
Definition onToolEvent (r : state * deltaBatch * bool) (evt : toolEvent) : state * deltaBatch * bool :=
  let '(s, b, completed) := r in
  match ToolCallDeltas evt, ToolCalls evt with
  | _ :: _, _ => (sendCallDeltas (ToolCallDeltas evt) (s, b), completed)
  | [], _ :: _ => let '(s, b) := flushBatch (s, b) in (resetStreamToolCallState (sendCalls (ToolCalls evt) s), b, true)
  | [], [] => (appendBatch "content" (shownContent (Content evt)) (s, b), completed)
  end.

(** ** Parsed lines *)

(** The state, the batch, [toolCallJustCompleted] and [contentSeen]. *)
Definition partState : Type := state * deltaBatch * bool * bool.

Definition onThinkingPart (p : ContentPart) (r : partState) : partState :=
  let '(s, b, completed, contentSeen) := r in
  let rawTrimmed := TrimContinuationOverlap (rawThinking (seen s)) (Text p) in
  let s := onTexts (addRawThinking rawTrimmed) s in
  let contentSeen := contentSeen || negb (bool_decide (rawTrimmed = "")) in
  if negb thinkingEnabled then (s, b, completed, contentSeen)
  else
    let cleanedText := clean rawTrimmed in
    let trimmed := TrimContinuationOverlap (thinking (seen s)) cleanedText in
    if bool_decide (cleanedText = "") || bool_decide (trimmed = "") then (s, b, completed, contentSeen)
    else
      let s := onTexts (addThinking trimmed) s in
      (if exposeReasoning then appendBatch "reasoning_content" trimmed (s, b) else (s, b), completed, contentSeen).

Definition onTextPart (p : ContentPart) (r : partState) : partState :=
  let '(s, b, completed, contentSeen) := r in
  let rawTrimmed := TrimContinuationOverlap (rawText (seen s)) (Text p) in
  if bool_decide (rawTrimmed = "") then r
  else
    let s := onTexts (addRawText rawTrimmed) s in
    let cleanedText := clean rawTrimmed in
    if searchEnabled && IsCitation cleanedText then (s, b, completed, true)
    else
      let trimmed := TrimContinuationOverlap (text (seen s)) cleanedText in
      let s := onTexts (addText trimmed) s in
      if negb bufferToolContent then (appendBatch "content" trimmed (s, b), completed, true)
      else
        let '(v, events) := ProcessChunk (toolSieve s) rawTrimmed in
        (fold_left onToolEvent events (withSieve v s, b, completed), true).

Definition onPart (r : partState) (p : ContentPart) : partState :=
  if bool_decide (Type_ p = "thinking") then onThinkingPart p r else onTextPart p r.

Definition onParsed (s : state) (parsed : LineResult) : state * ParsedDecision :=
  if negb (Parsed parsed) then (s, decision false "" false)
  else
    let s := if 0 <? ResponseMessageID parsed then withMessageID (ResponseMessageID parsed) s else s in
    if ContentFilter parsed then (s, decision true (if bool_decide (TrimSpace (text (seen s)) = "") then "content_filter" else StopReasonHandlerRequested) false)
    else if negb (bool_decide (ErrorMessage parsed = "")) then (s, decision true "content_filter" false)
    else if Stop parsed then (s, decision true StopReasonHandlerRequested false)
    else
      let s := onTexts (fun t => fold_left addDetection (ToolDetectionThinkingParts parsed) t) s in
      let '(s, b, completed, contentSeen) := fold_left onPart (Parts parsed) (s, emptyBatch, false, false) in
      let '(s, _) := flushBatch (s, b) in
      (s, if completed : bool then decision true StopReasonHandlerRequested contentSeen else decision false "" contentSeen).

(** ** The end *)

(** One event of the last flush. *)
Definition onFlushEvent (r : state * deltaBatch) (evt : toolEvent) : state * deltaBatch :=
  let r := match ToolCalls evt with
           | [] => r
           | calls => let '(s, b) := flushBatch r in (resetStreamToolCallState (sendCalls calls s), b)
           end in
  appendBatch "content" (shownContent (Content evt)) r.

Definition flushSieve (s : state) : state :=
  let '(v, events) := FlushSieve (toolSieve s) in
  (flushBatch (fold_left onFlushEvent events (withSieve v s, emptyBatch))).1.

Definition finalize (finishReason : string) (deferEmptyOutput : bool) (s : state) : state * bool :=
  let t := seen s in
  let finalText := clean (text t) in
  let s := withFinal (withAnswer (thinking t) finalText (withError 0 "" "" (final s))) s in
  let detected := DetectAssistantToolCalls parseToolCalls (rawText t) finalText (rawThinking t) (toolDetectionThinking t) in
  let s := if negb (bool_decide (length detected = 0%nat)) && negb (toolCallsDoneEmitted s) then sendCalls detected s
           else if bufferToolContent then flushSieve s else s in
  let none := bool_decide (length detected = 0%nat) && negb (toolCallsEmitted s) in
  let finishReason := if none then finishReason else "tool_calls" in
  if requireToolCall && none then (sendFailedChunk 422 "tool_choice requires at least one valid tool call." "tool_choice_violation" s, true)
  else if none && bool_decide (TrimSpace finalText = "") then
    let '(status, message, code) := UpstreamEmptyOutputDetail (bool_decide (finishReason = "content_filter")) in
    if deferEmptyOutput then (withFinal (withError status message code (final s)) s, false)
    else (sendFailedChunk status message code s, true)
  else (sendDone (sendChunk (FinishChunk finishReason) (withFinal (withFinish finishReason (final s)) s)), true).

Definition callJSON (c : shownCall) : json :=
  JObj [("index", JNum (scIndex c) 1); ("id", JStr (scID c)); ("type", JStr "function");
        ("function", JObj ((if scName c is Some n then [("name", JStr n)] else []) ++ (if scArguments c is Some a then [("arguments", JStr a)] else [])))].

Definition responseMessages (s : state) : list json :=
  let f := final s in
  if negb (bool_decide (finalErrorMessage f = "")) || (responseMessageID s <=? 0) then []
  else
    let calls := finalToolCalls s in
    [JObj ([("role", JStr "assistant"); ("content", match calls with [] => JStr (finalText f) | _ => JNull end)] ++
           (if exposeReasoning && negb (bool_decide (TrimSpace (finalThinking f) = "")) then [("reasoning_content", JStr (finalThinking f))] else []) ++
           (match calls with [] => [] | _ => [("tool_calls", JArr (callJSON <$> calls))] end))].

(** ** Attempts *)

Definition newChatStreamRuntime (v : V) : state :=
  Build_runtime v false false false (∅, 0%nat) ∅ {| rawThinking := ""; thinking := ""; toolDetectionThinking := ""; rawText := ""; text := "" |} 0 []
    {| finalThinking := ""; finalText := ""; finalFinishReason := ""; finalErrorStatus := 0; finalErrorMessage := ""; finalErrorCode := "" |} [].

(** What the hooks of [consumeChatStreamAttempt] do: the runtime, [finalReason] and [abnormalTerminal]. *)
Definition act (r : state * string * bool) (a : action) : state * string * bool :=
  let '(s, finalReason, abnormal) := r in
  match a with
  | OnParsed parsed => ((onParsed s parsed).1, finalReason, abnormal)
  | OnKeepAlive => (sendKeepAlive s, finalReason, abnormal)
  | OnFinalize reason err =>
      match ClassifyTerminalFailure reason err with
      | Some failure => (sendFailedChunk (Status failure) (Message failure) (Code failure) s, finalReason, true)
      | None => (s, if bool_decide (reason = "content_filter") then "content_filter" else finalReason, abnormal)
      end
  | OnContextDone => (markContextCancelled s, finalReason, abnormal)
  end.

Inductive attemptEnd := Terminal | Retryable.

(** [None]: the engine has not returned yet. *)
Definition consumeChatStreamAttempt (cfg : ConsumeConfig) (start : Z) (events : list selectEvent) (allowDeferEmpty : bool) (s : state) : state * option attemptEnd :=
  let '(e, ret) := ConsumeSSE (Some onParsed) cfg start s events in
  let '(s, finalReason, abnormal) := fold_left act (calls e) (s, "stop", false) in
  if negb ret then (s, None)
  else if bool_decide (finalErrorCode (final s) = StopReasonContextCancelled) || abnormal then (s, Some Terminal)
  else
    let '(s, terminalWritten) := finalize finalReason (allowDeferEmpty && negb (bool_decide (finalReason = "content_filter"))) s in
    (s, Some (if terminalWritten then Terminal else Retryable)).

Definition emptyOutputRetryMaxAttempts : nat := 3.

(** What becomes of a retry: it cannot be prepared, the request fails, it is refused, or it answers
    (with the session it went to, and whether that is a fresh root) with these events. *)
Inductive retry :=
| NotPrepared
| CallLimited (message : string)
| CallError (d : UpstreamError.UpstreamErrorDetail)
| Refused (status : Z) (body : string)
| Answers (sessionID : string) (replayedRoot : bool) (start : Z) (events : list selectEvent).

Record outcome := { success : bool; outMessageID : Z; outMessages : list json; outSession : string; outReplayed : bool }.
Definition noOutcome : outcome := {| success := false; outMessageID := 0; outMessages := []; outSession := ""; outReplayed := false |}.

Definition delivered (sessionID : string) (replayedRoot : bool) (s : state) : outcome :=
  if negb (bool_decide (finalErrorMessage (final s) = "")) then noOutcome
  else
    let messages := responseMessages s in
    {| success := negb (bool_decide (length messages = 0%nat)); outMessageID := responseMessageID s; outMessages := messages; outSession := sessionID; outReplayed := replayedRoot |}.

(** The loop of [handleStreamWithRetry]; [attempts] retries have been made, and [retries] is what becomes
    of the next ones.  [None]: still waiting for the upstream. *)
Fixpoint streamAttempts (cfg : ConsumeConfig) (attempts : nat) (sessionID : string) (replayedRoot : bool) (start : Z) (events : list selectEvent)
  (retries : list retry) (s : state) : state * option outcome :=
  match consumeChatStreamAttempt cfg start events (attempts <? emptyOutputRetryMaxAttempts)%nat s with
  | (s, None) => (s, None)
  | (s, Some Terminal) => (s, Some (delivered sessionID replayedRoot s))
  | (s, Some Retryable) =>
      if (emptyOutputRetryMaxAttempts <=? attempts)%nat then ((finalize "stop" false s).1, Some noOutcome)
      else match retries with
           | [] => (s, None)
           | NotPrepared :: _ => ((finalize "stop" false s).1, Some noOutcome)
           | CallLimited message :: _ => (sendFailedChunk 413 message "prompt_too_large" s, Some noOutcome)
           | CallError d :: _ =>
               (if UpstreamError.Stopped d then s else sendFailedChunk (UpstreamError.DStatus d) (UpstreamError.DMessage d) (UpstreamError.DCode d) s, Some noOutcome)
           | Refused status body :: _ => (sendFailedChunk status body "error" s, Some noOutcome)
           | Answers sid replayed start events :: retries =>
               streamAttempts cfg (S attempts) (if bool_decide (sid = "") then sessionID else sid) (replayed || replayedRoot) start events retries s
           end
  end.

Definition handleStreamWithRetry (cfg : ConsumeConfig) (completionID : string) (start : Z) (events : list selectEvent) (retries : list retry) (v : V) : state * option outcome :=
  streamAttempts cfg 0 completionID false start events retries (newChatStreamRuntime v).
End Chat.

(** ** The client *)

Record view := { vRole : bool; vContent : string; vReasoning : string; vTools : list shownCall; vFinish : option string; vFailed : bool; vDone : bool }.
Definition blank : view := {| vRole := false; vContent := ""; vReasoning := ""; vTools := []; vFinish := None; vFailed := false; vDone := false |}.
(** The answer is over: finished or failed. *)
Definition over (v : view) : bool := match vFinish v with Some _ => true | None => vFailed v end.

Definition addDelta (d : delta) (v : view) : view :=
  match d with
  | DContent t => {| vRole := true; vContent := vContent v +:+ t; vReasoning := vReasoning v; vTools := vTools v; vFinish := vFinish v; vFailed := vFailed v; vDone := vDone v |}
  | DReasoning t => {| vRole := true; vContent := vContent v; vReasoning := vReasoning v +:+ t; vTools := vTools v; vFinish := vFinish v; vFailed := vFailed v; vDone := vDone v |}
  | DTools l => {| vRole := true; vContent := vContent v; vReasoning := vReasoning v; vTools := vTools v ++ l; vFinish := vFinish v; vFailed := vFailed v; vDone := vDone v |}
  end.
Definition endView (finish : option string) (bad done : bool) (v : view) : view :=
  {| vRole := vRole v; vContent := vContent v; vReasoning := vReasoning v; vTools := vTools v; vFinish := finish; vFailed := bad; vDone := done |}.

(** What the client makes of a frame; [None]: the stream is broken. *)
Definition onFrame (v : view) (f : frame) : option view :=
  match f with
  | DoneFrame => if over v && negb (vDone v) then Some (endView (vFinish v) (vFailed v) true v) else None
  | _ =>
      if over v then None
      else match f with
           | Chunk role d => if Bool.eqb role (negb (vRole v)) then Some (addDelta d v) else None
           | FinishChunk r => Some (endView (Some r) false false v)
           | FailedChunk _ _ _ => Some (endView None true false v)
           | _ => Some v
           end
  end.

Fixpoint watch (v : view) (l : list frame) : option view :=
  match l with
  | [] => Some v
  | f :: l => match onFrame v f with Some v => watch v l | None => None end
  end.

Lemma chatWatch_app (v : view) (l l' : list frame) : watch v (l ++ l') = match watch v l with Some v' => watch v' l' | None => None end.
Proof. revert v. induction l as [|f l IH]; intros v; [done|]. cbn [app watch]. by destruct (onFrame v f). Qed.

(** ** What the runtime and the client agree on *)

Definition pending (field : string) (b : deltaBatch) : string := if bool_decide (batchField b = field) then batchText b else "".
(** The field of a batch is set together with its text. *)
Definition batchOk (b : deltaBatch) : Prop := b = emptyBatch \/ (batchField b = "content" \/ batchField b = "reasoning_content") /\ batchText b <> "".

Lemma batchOk_empty : batchOk emptyBatch.
Proof. by left. Qed.

Section Agree.
Context {V : Type}.
Variables thinkingEnabled exposeReasoning bufferToolContent emitEarlyToolDeltas : bool.
Implicit Types (s : runtime V) (v : view) (b : deltaBatch).

Record agree (b : deltaBatch) (s : runtime V) (v : view) : Prop := {
  ag_watch : watch blank (written s) = Some v;
  ag_live : over v = false /\ vDone v = false;
  ag_batch : batchOk b;
  ag_role : vRole v = firstChunkSent s;
  ag_tools : vTools v <> [] <-> toolCallsEmitted s = true;
  ag_done : toolCallsDoneEmitted s = true -> toolCallsEmitted s = true;
  ag_ids : Forall (fun c => scID c <> "") (vTools v);
  ag_calls : emitEarlyToolDeltas = false -> vTools v = finalToolCalls s;
  ag_content : bufferToolContent = false -> vContent v +:+ pending "content" b = text (seen s);
  ag_reasoning : thinkingEnabled && exposeReasoning = true -> vReasoning v +:+ pending "reasoning_content" b = thinking (seen s)
}.

(** What the client does not see may change. *)
Lemma chatAgree_same b s s' v : agree b s v -> written s' = written s -> firstChunkSent s' = firstChunkSent s -> toolCallsEmitted s' = toolCallsEmitted s ->
  toolCallsDoneEmitted s' = toolCallsDoneEmitted s -> finalToolCalls s' = finalToolCalls s -> text (seen s') = text (seen s) ->
  thinking (seen s') = thinking (seen s) -> agree b s' v.
Proof. intros [H1 H2 H3 H4 H5 H6 H7 H8 H9 H10] E1 E2 E3 E4 E5 E6 E7. split; by rewrite ?E1, ?E2, ?E3, ?E4, ?E5, ?E6, ?E7. Qed.

Lemma watch_chunk b s v d : agree b s v -> watch blank (written (sendDelta d s)) = Some (addDelta d v).
Proof.
  intros [H1 [H2 _] _ H4 _ _ _ _ _ _]. cbn [written sendDelta sendChunk markFirst]. rewrite chatWatch_app, H1. cbn [watch onFrame].
  rewrite H2, H4, Bool.eqb_reflx. done.
Qed.

Lemma addDelta_live d v : over v = false /\ vDone v = false -> over (addDelta d v) = false /\ vDone (addDelta d v) = false.
Proof. by destruct d. Qed.

Lemma flush_ok b s v : agree b s v -> exists v', agree (flushBatch (s, b)).2 (flushBatch (s, b)).1 v' /\ (flushBatch (s, b)).2 = emptyBatch.
Proof.
  intros Hs. unfold flushBatch. destruct (ag_batch _ _ _ Hs) as [->|[Hf Ht]]; [by exists v|].
  assert (bool_decide (batchField b = "") || bool_decide (batchText b = "") = false) as -> by (destruct Hf as [->| ->]; by rewrite (bool_decide_eq_false_2 (batchText b = ""))).
  cbn [fst snd]. eexists. split; [|done]. pose proof (watch_chunk _ _ _ (deltaOf (batchField b) (batchText b)) Hs) as Hw.
  destruct Hs as [H1 H2 H3 H4 H5 H6 H7 H8 H9 H10].
  split; try exact Hw; try exact batchOk_empty; try (by apply addDelta_live); unfold deltaOf, pending in *; destruct Hf as [Hf|Hf]; rewrite Hf in *;
    cbn in *; rewrite ?append_nil_r in *; done.
Qed.

Lemma pending_append field field' b0 t : b0 = emptyBatch \/ batchField b0 = field -> field = "content" \/ field = "reasoning_content" ->
  field' = "content" \/ field' = "reasoning_content" ->
  pending field' {| batchField := field; batchText := batchText b0 +:+ t |} = pending field' b0 +:+ (if bool_decide (field = field') then t else "").
Proof.
  intros H0 Hf Hf'. unfold pending. cbn [batchField batchText]. destruct (bool_decide (field = field')) eqn:E; bool_cases.
  - subst field'. destruct H0 as [->|H0]; [by destruct Hf as [-> | ->]|]. by rewrite bool_decide_eq_true_2.
  - rewrite append_nil_r. destruct H0 as [->|H0]; [by destruct Hf' as [-> | ->]|]. by rewrite H0, bool_decide_eq_false_2.
Qed.

(** Text is appended to the batch, and counted in the runtime by [g]. *)
Lemma append_ok field t g b s v : field = "content" \/ field = "reasoning_content" -> agree b s v ->
  (bufferToolContent = false -> text (g (seen s)) = text (seen s) +:+ (if bool_decide (field = "content") then t else "")) ->
  (thinkingEnabled && exposeReasoning = true -> thinking (g (seen s)) = thinking (seen s) +:+ (if bool_decide (field = "reasoning_content") then t else "")) ->
  exists v', agree (appendBatch field t (onTexts g s, b)).2 (appendBatch field t (onTexts g s, b)).1 v'.
Proof.
  intros Hfield Hs Htext Hthink.
  unfold appendBatch. destruct (bool_decide (t = "")) eqn:Et; bool_cases.
  { subst t. exists v. cbn [fst snd]. destruct Hs as [H1 H2 H3 H4 H5 H6 H7 H8 H9 H10]. split; try done; cbn [seen onTexts].
    - intros Hb. rewrite Htext, H9 by done. destruct (bool_decide (field = "content")); by rewrite append_nil_r.
    - intros Hb. rewrite Hthink, H10 by done. destruct (bool_decide (field = "reasoning_content")); by rewrite append_nil_r. }
  assert (forall b0 s0 v0, agree b0 s0 v0 -> seen s0 = seen s -> b0 = emptyBatch \/ batchField b0 = field ->
    agree {| batchField := field; batchText := batchText b0 +:+ t |} (onTexts g s0) v0) as Hput.
  { intros b0 s0 v0 [H1 H2 H3 H4 H5 H6 H7 H8 H9 H10] He Hb0. split; try done; cbn [seen onTexts].
    - right. cbn. split; [done|]. by destruct (batchText b0).
    - intros Hb. rewrite pending_append, <- append_assoc, H9, He, Htext by auto. done.
    - intros Hb. rewrite pending_append, <- append_assoc, H10, He, Hthink by auto. done. }
  cbn [snd]. destruct (negb (bool_decide (batchField b = "")) && negb (bool_decide (batchField b = field))) eqn:Hc.
  - destruct (flush_ok b s v Hs) as (v' & H' & He).
    assert (flushBatch (onTexts g s, b) = (onTexts g (flushBatch (s, b)).1, (flushBatch (s, b)).2) /\ seen (flushBatch (s, b)).1 = seen s) as [-> Hseen]
      by (unfold flushBatch; by destruct (_ || _)).
    rewrite He in *. exists v'. cbn [fst snd]. apply (Hput emptyBatch); [done|done|by left].
  - exists v. cbn [fst snd]. apply (Hput b); [done|done|]. apply andb_false_iff in Hc as [Hc|Hc]; bool_cases; [|by right].
    destruct (ag_batch _ _ _ Hs) as [->|[[Hb|Hb] _]]; [by left|congruence..].
Qed.
End Agree.

(** ** Every step keeps them in step *)

Section Steps.
Context {V : Type}.
Variable ProcessChunk : V -> string -> V * list toolEvent.
Variable FlushSieve : V -> V * list toolEvent.
Variable clean : string -> string.
Variable normalizeCalls : list ParsedToolCall -> list ParsedToolCall.
Variable Marshal : json -> option string.
Variable uuid : nat -> string.
Variables canFlush thinkingEnabled exposeReasoning searchEnabled requireToolCall bufferToolContent emitEarlyToolDeltas : bool.
Hypothesis normalizeCalls_length : forall l, length (normalizeCalls l) = length l.
Implicit Types (s : runtime V) (b : deltaBatch).

Notation agrees := (agree thinkingEnabled exposeReasoning bufferToolContent emitEarlyToolDeltas).
Notation deliver := (sendCalls normalizeCalls Marshal uuid).

Definition inStep (r : runtime V * deltaBatch) : Prop := exists v, agrees r.2 r.1 v.

Lemma chatStep_same b s s' : inStep (s, b) -> written s' = written s -> firstChunkSent s' = firstChunkSent s -> toolCallsEmitted s' = toolCallsEmitted s ->
  toolCallsDoneEmitted s' = toolCallsDoneEmitted s -> finalToolCalls s' = finalToolCalls s -> text (seen s') = text (seen s) ->
  thinking (seen s') = thinking (seen s) -> inStep (s', b).
Proof. intros [v Hv] E1 E2 E3 E4 E5 E6 E7. exists v. cbn [fst snd] in *. by eapply chatAgree_same. Qed.

Lemma flush_inStep r : inStep r -> inStep (flushBatch r) /\ (flushBatch r).2 = emptyBatch.
Proof. destruct r as [s b]. intros [v Hv]. destruct (flush_ok _ _ _ _ b s v Hv) as (v' & H & He). split; [by exists v'|done]. Qed.

(** Identifiers are never empty. *)
Lemma formatCalls_ids marshal i calls ids : let out := (formatCallsFrom uuid marshal i calls ids).2 in
  Forall (fun c => scID c <> "") out /\ length out = length calls.
Proof.
  revert i ids. induction calls as [|c calls IH]; intros i ids; [done|]. cbn [formatCallsFrom].
  destruct (bool_decide (TrimSpace (get "" ids.1 i) = "")) eqn:Hb; bool_cases; cbn [freshCall];
    match goal with |- context [formatCallsFrom _ _ _ _ ?x] => specialize (IH (i + 1) x) end; destruct (formatCallsFrom _ _ _ _ _) as [ids2 out]; cbn [snd] in *;
    destruct IH as [H1 H2]; (split; [constructor; [done|exact H1]|cbn; by rewrite H2]).
Qed.

Lemma formatIncremental_ids deltas ids : Forall (fun c => scID c <> "") (FormatIncrementalStreamToolCallDeltas uuid deltas ids).2.
Proof.
  revert ids. induction deltas as [|d deltas IH]; intros ids; [constructor|]. cbn [FormatIncrementalStreamToolCallDeltas].
  destruct (_ && _); [apply IH|]. destruct (bool_decide (get "" ids.1 (Index d) = "")) eqn:Hb; bool_cases; cbn [freshCall];
    match goal with |- context [FormatIncrementalStreamToolCallDeltas _ _ ?x] => specialize (IH x) end;
    destruct (FormatIncrementalStreamToolCallDeltas _ _ _) as [ids2 out]; cbn [snd] in *; by constructor.
Qed.

(** Complete calls, with nothing held back. *)
Lemma sendCalls_inStep calls s : calls <> [] -> inStep (s, emptyBatch) -> inStep (deliver calls s, emptyBatch) /\ toolCallsEmitted (deliver calls s) = true.
Proof.
  intros Hne [v Hv]. unfold sendCalls, FormatFinalStreamToolCallsWithStableIDs. destruct calls as [|c l]; [done|].
  pose proof (formatCalls_ids (marshalled Marshal) 0 (normalizeCalls (c :: l)) (streamToolCallIDs s)) as [Hid Hlen]. rewrite normalizeCalls_length in Hlen.
  destruct (formatCallsFrom _ _ _ _ _) as [ids out]. cbn [snd] in *. split; [|done]. eexists. cbn [fst snd] in *.
  pose proof (watch_chunk _ _ _ _ emptyBatch s v (DTools out) Hv) as Hw. destruct Hv as [H1 H2 H3 H4 H5 H6 H7 H8 H9 H10].
  split; try exact Hw; try done; cbn [vTools addDelta toolCallsEmitted sendDelta sendChunk markFirst addFinalCalls withCallIDs withEmitted finalToolCalls].
  - split; [done|]. intros _ E. apply app_eq_nil in E as [_ ->]. done.
  - by apply Forall_app.
  - intros He. by rewrite H8.
Qed.

Lemma reset_inStep b s : inStep (s, b) -> inStep (resetStreamToolCallState s, b).
Proof. intros H. by eapply chatStep_same. Qed.

Lemma onTexts_id s : onTexts (fun t => t) s = s.
Proof. by destruct s. Qed.

Lemma appendContent_inStep t r : bufferToolContent = true -> inStep r -> inStep (appendBatch "content" t r).
Proof.
  intros Hbuf. destruct r as [s b]. intros [v Hv]. rewrite <- (onTexts_id s).
  eapply (append_ok _ _ _ _ "content" t (fun x => x) b s v) in Hv as [v' Hv']; [by exists v'|by left|congruence|].
  intros _. by rewrite append_nil_r.
Qed.

Lemma sendCallDeltas_inStep deltas r : inStep r -> inStep (sendCallDeltas uuid emitEarlyToolDeltas deltas r).
Proof.
  destruct r as [s b]. intros Hs. unfold sendCallDeltas. destruct emitEarlyToolDeltas eqn:He; [|done]. cbn [negb fst snd].
  destruct (filterIncrementalToolCallDeltasByAllowed deltas (streamToolNames s)) as [names filtered].
  pose proof (formatIncremental_ids filtered (streamToolCallIDs (withNames names s))) as Hid.
  destruct (FormatIncrementalStreamToolCallDeltas uuid filtered _) as [ids formatted]. cbn [snd] in Hid.
  assert (inStep (withCallIDs ids (withNames names s), b)) as Hs1 by (by eapply chatStep_same).
  destruct formatted as [|c l]; [exact Hs1|]. destruct (flush_inStep _ Hs1) as [Hf Hb]. destruct (flushBatch _) as [s2 b2]. cbn [snd] in Hb. subst b2.
  destruct Hf as [v Hv]. cbn [fst snd] in Hv. eexists. cbn [fst snd]. pose proof (watch_chunk _ _ _ _ emptyBatch s2 v (DTools (c :: l)) Hv) as Hw.
  destruct Hv as [H1 H2 H3 H4 H5 H6 H7 H8 H9 H10].
  split; try exact Hw; try done; cbn [vTools addDelta toolCallsEmitted sendDelta sendChunk markFirst withEmitted].
  - split; [done|]. intros _ E. by apply app_eq_nil in E as [_ ?].
  - by apply Forall_app.
  - congruence.
Qed.

Notation toolStep := (onToolEvent clean normalizeCalls Marshal uuid searchEnabled requireToolCall emitEarlyToolDeltas).
Lemma toolEvent_inStep evt r : bufferToolContent = true -> inStep r.1 -> inStep (toolStep r evt).1.
Proof.
  intros Hbuf. destruct r as [[s b] completed]. cbn [fst]. intros Hs. unfold onToolEvent.
  destruct (ToolCallDeltas evt); [|by apply sendCallDeltas_inStep].
  destruct (ToolCalls evt) as [|c l]; [by apply appendContent_inStep|].
  destruct (flush_inStep _ Hs) as [Hf Hb]. destruct (flushBatch (s, b)) as [s2 b2]. cbn [snd] in Hb. subst b2. cbn [fst].
  apply reset_inStep. by apply sendCalls_inStep.
Qed.

Notation partStep := (onPart ProcessChunk clean normalizeCalls Marshal uuid thinkingEnabled exposeReasoning searchEnabled requireToolCall bufferToolContent emitEarlyToolDeltas).
Lemma part_ok p (r : partState) : inStep r.1.1 -> inStep (partStep r p).1.1.
Proof.
  destruct r as [[[s b] completed] contentSeen]. cbn [fst]. intros Hs. unfold onPart. destruct (bool_decide (Type_ p = "thinking")).
  - unfold onThinkingPart. set (raw := TrimContinuationOverlap _ _). set (s1 := onTexts (addRawThinking raw) s).
    assert (inStep (s1, b)) as Hs1 by (by eapply chatStep_same). destruct (negb thinkingEnabled) eqn:Ht; [exact Hs1|].
    set (t := TrimContinuationOverlap _ _). destruct (bool_decide (clean raw = "") || bool_decide (t = "")); [exact Hs1|]. destruct Hs1 as [v Hv]. cbn [fst snd] in Hv.
    destruct (Bool.bool_dec exposeReasoning true) as [Hx|Hx%Bool.not_true_is_false]; rewrite Hx.
    + eapply (append_ok _ _ _ _ "reasoning_content" t (addThinking t) b s1 v) in Hv as [v' Hv']; [exists v'; exact Hv'|by right| |done].
      intros _. by rewrite append_nil_r.
    + exists v. cbn [fst snd]. destruct Hv as [H1 H2 H3 H4 H5 H6 H7 H8 H9 H10]. split; try done. intros E. rewrite Hx, andb_false_r in E. done.
  - unfold onTextPart. set (raw := TrimContinuationOverlap _ _). destruct (bool_decide (raw = "")); [exact Hs|]. set (s1 := onTexts (addRawText raw) s).
    assert (inStep (s1, b)) as Hs1 by (by eapply chatStep_same). destruct (searchEnabled && IsCitation (clean raw)); [exact Hs1|].
    set (t := TrimContinuationOverlap _ _). destruct Hs1 as [v Hv]. cbn [fst snd] in Hv. destruct (Bool.bool_dec bufferToolContent true) as [Hbuf|Hbuf%Bool.not_true_is_false]; rewrite Hbuf; cbn [negb].
    + destruct (ProcessChunk _ raw) as [w events]. cbn [fst].
      assert (inStep (withSieve w (onTexts (addText t) s1), b)) as H0.
      { exists v. cbn [fst snd]. destruct Hv as [H1 H2 H3 H4 H5 H6 H7 H8 H9 H10]. split; try done. congruence. }
      revert H0. generalize (withSieve w (onTexts (addText t) s1)) b completed. clear - Hbuf normalizeCalls_length.
      induction events as [|e events IH]; intros s b completed Hs; [exact Hs|]. cbn [fold_left].
      pose proof (toolEvent_inStep e (s, b, completed) Hbuf Hs) as He. destruct (toolStep (s, b, completed) e) as [[s2 b2] c2]. by apply IH.
    + eapply (append_ok _ _ _ _ "content" t (addText t) b s1 v) in Hv as [v' Hv']; [exists v'; exact Hv'|by left|done|]. intros _. by rewrite append_nil_r.
Qed.

Notation lineStep := (onParsed ProcessChunk clean normalizeCalls Marshal uuid thinkingEnabled exposeReasoning searchEnabled requireToolCall bufferToolContent emitEarlyToolDeltas).
Lemma line_ok p s : inStep (s, emptyBatch) -> inStep ((lineStep s p).1, emptyBatch).
Proof.
  intros Hs. unfold onParsed. destruct (Parsed p); [|done]. cbn [negb].
  set (s1 := if 0 <? ResponseMessageID p then _ else s). assert (inStep (s1, emptyBatch)) as H1 by (unfold s1; destruct (0 <? _); [by eapply chatStep_same|done]). clearbody s1.
  destruct (ContentFilter p); [done|]. destruct (negb _); [done|]. destruct (Stop p); [done|].
  set (s2 := onTexts _ s1). assert (inStep (s2, emptyBatch)) as H2.
  { eapply chatStep_same; [exact H1|..]; try done; unfold s2; cbn [seen onTexts]; generalize (seen s1); induction (ToolDetectionThinkingParts p) as [|q l IH]; intros t; try done; cbn [fold_left]; by rewrite IH. }
  clearbody s2. assert (inStep (fold_left partStep (Parts p) (s2, emptyBatch, false, false)).1.1) as H3.
  { assert (forall l (r : partState), inStep r.1.1 -> inStep (fold_left partStep l r).1.1) as H; [|by apply H].
    intros l. induction l as [|q l IH]; intros r Hr; [exact Hr|]. cbn [fold_left]. apply IH. by apply part_ok. }
  destruct (fold_left _ _ _) as [[[s3 b3] completed] contentSeen]. cbn [fst] in H3. destruct (flush_inStep _ H3) as [H4 H5].
  destruct (flushBatch (s3, b3)) as [s4 b4]. cbn [snd] in H5. subst b4. exact H4.
Qed.

Notation lastStep := (flushSieve FlushSieve clean normalizeCalls Marshal uuid searchEnabled requireToolCall).
Lemma flushSieve_inStep s : bufferToolContent = true -> inStep (s, emptyBatch) -> inStep (lastStep s, emptyBatch).
Proof.
  intros Hbuf Hs. unfold flushSieve. destruct (FlushSieve (toolSieve s)) as [w events].
  assert (inStep (withSieve w s, emptyBatch)) as H0 by (by eapply chatStep_same).
  assert (inStep (fold_left (onFlushEvent clean normalizeCalls Marshal uuid searchEnabled requireToolCall) events (withSieve w s, emptyBatch))) as H1.
  { revert H0. generalize (withSieve w s, emptyBatch). induction events as [|e events IH]; intros r Hr; [exact Hr|]. cbn [fold_left]. apply IH.
    unfold onFlushEvent. apply appendContent_inStep; [done|]. destruct (ToolCalls e) as [|c l]; [exact Hr|].
    destruct (flush_inStep _ Hr) as [Hf Hb]. destruct (flushBatch r) as [s2 b2]. cbn [snd] in Hb. subst b2. apply reset_inStep. by apply sendCalls_inStep. }
  destruct (flush_inStep _ H1) as [H2 H3]. destruct (flushBatch _) as [s2 b2]. cbn [fst snd] in *. by subst b2.
Qed.

(** What was announced stays announced. *)
Lemma flushBatch_emitted (r : runtime V * deltaBatch) : toolCallsEmitted (flushBatch r).1 = toolCallsEmitted r.1.
Proof. destruct r as [s b]. unfold flushBatch. by destruct (_ || _). Qed.
Lemma appendBatch_emitted field t (r : runtime V * deltaBatch) : toolCallsEmitted (appendBatch field t r).1 = toolCallsEmitted r.1.
Proof.
  destruct r as [s b]. unfold appendBatch. destruct (bool_decide (t = "")); [done|]. cbn [snd].
  destruct (_ && _); [|done]. pose proof (flushBatch_emitted (s, b)) as H. by destruct (flushBatch (s, b)).
Qed.
Lemma flushSieve_emitted s : toolCallsEmitted s = true -> toolCallsEmitted (lastStep s) = true.
Proof.
  intros Hs. unfold flushSieve. destruct (FlushSieve (toolSieve s)) as [w events]. rewrite flushBatch_emitted.
  assert (forall l (r : runtime V * deltaBatch), toolCallsEmitted r.1 = true -> toolCallsEmitted (fold_left (onFlushEvent clean normalizeCalls Marshal uuid searchEnabled requireToolCall) l r).1 = true) as H; [|by apply H].
  intros l. induction l as [|e l IH]; intros r Hr; [done|]. cbn [fold_left]. apply IH. unfold onFlushEvent. rewrite appendBatch_emitted.
  destruct (ToolCalls e) as [|c cs]; [done|]. destruct (flushBatch r) as [s2 b2]. cbn [fst]. unfold resetStreamToolCallState, withNames, withCallIDs, sendCalls. by destruct (FormatFinalStreamToolCallsWithStableIDs _ _ _ _ _).
Qed.

(** Nothing but the end is recorded in [final]. *)
Lemma flushBatch_final (r : runtime V * deltaBatch) : final (flushBatch r).1 = final r.1.
Proof. destruct r as [s b]. unfold flushBatch. by destruct (_ || _). Qed.
Lemma appendBatch_final field t (r : runtime V * deltaBatch) : final (appendBatch field t r).1 = final r.1.
Proof.
  destruct r as [s b]. unfold appendBatch. destruct (bool_decide (t = "")); [done|]. cbn [snd].
  destruct (_ && _); [|done]. pose proof (flushBatch_final (s, b)) as H. by destruct (flushBatch (s, b)).
Qed.
Lemma sendCalls_final calls s : final (deliver calls s) = final s.
Proof. unfold sendCalls. by destruct (FormatFinalStreamToolCallsWithStableIDs _ _ _ _ _). Qed.
Lemma flushSieve_final s : final (lastStep s) = final s.
Proof.
  unfold flushSieve. destruct (FlushSieve (toolSieve s)) as [w events]. rewrite flushBatch_final.
  assert (forall l (r : runtime V * deltaBatch), final (fold_left (onFlushEvent clean normalizeCalls Marshal uuid searchEnabled requireToolCall) l r).1 = final r.1) as H; [|by rewrite H].
  intros l. induction l as [|e l IH]; intros r; [done|]. cbn [fold_left]. rewrite IH. unfold onFlushEvent. rewrite appendBatch_final.
  destruct (ToolCalls e) as [|c cs]; [done|]. pose proof (flushBatch_final r) as H. destruct (flushBatch r) as [s2 b2].
  cbn [fst] in *. unfold resetStreamToolCallState, withNames, withCallIDs. cbn [final]. by rewrite sendCalls_final.
Qed.

(** A line and a keep-alive leave it too. *)
Lemma toolEvent_final evt (r : runtime V * deltaBatch * bool) : final (toolStep r evt).1.1 = final r.1.1.
Proof.
  destruct r as [[s b] completed]. unfold onToolEvent. destruct (ToolCallDeltas evt) as [|d ds].
  - destruct (ToolCalls evt) as [|c cs]; [apply (appendBatch_final "content" _ (s, b))|]. pose proof (flushBatch_final (s, b)) as H. destruct (flushBatch (s, b)) as [s2 b2].
    cbn [fst] in *. unfold resetStreamToolCallState, withNames, withCallIDs. cbn [final]. by rewrite sendCalls_final.
  - cbn [fst]. unfold sendCallDeltas. destruct (negb emitEarlyToolDeltas); [done|]. cbn [fst snd].
    destruct (filterIncrementalToolCallDeltasByAllowed _ _) as [names l]. destruct (FormatIncrementalStreamToolCallDeltas _ _ _) as [ids [|x xs]]; [done|].
    pose proof (flushBatch_final (withCallIDs ids (withNames names s), b)) as H. by destruct (flushBatch _) as [s2 b2].
Qed.

Lemma part_final p (r : partState) : final (partStep r p).1.1.1 = final r.1.1.1.
Proof.
  destruct r as [[[s b] completed] contentSeen]. unfold onPart. destruct (bool_decide (Type_ p = "thinking")).
  - unfold onThinkingPart. destruct (negb thinkingEnabled); [done|]. destruct (_ || _); [done|]. destruct exposeReasoning; [|done].
    cbn [fst]. by rewrite appendBatch_final.
  - unfold onTextPart. destruct (bool_decide _); [done|]. destruct (searchEnabled && _); [done|]. destruct (negb bufferToolContent).
    + cbn [fst]. by rewrite appendBatch_final.
    + destruct (ProcessChunk _ _) as [w events]. cbn [fst].
      assert (forall l (r : runtime V * deltaBatch * bool), final (fold_left toolStep l r).1.1 = final r.1.1) as H; [|by rewrite H].
      intros l. induction l as [|e l IH]; intros r; [done|]. cbn [fold_left]. by rewrite IH, toolEvent_final.
Qed.

Lemma line_final p s : final (lineStep s p).1 = final s.
Proof.
  unfold onParsed. destruct (negb (Parsed p)); [done|]. set (s1 := if 0 <? ResponseMessageID p then _ else s). assert (final s1 = final s) as <- by (unfold s1; by destruct (0 <? _)).
  clearbody s1. destruct (ContentFilter p); [done|]. destruct (negb _); [done|]. destruct (Stop p); [done|].
  set (s2 := onTexts _ s1). change (final s1) with (final s2). clearbody s2.
  assert (forall l (r : partState), final (fold_left partStep l r).1.1.1 = final r.1.1.1) as H.
  { intros l. induction l as [|q l IH]; intros r; [done|]. cbn [fold_left]. by rewrite IH, part_final. }
  specialize (H (Parts p) (s2, emptyBatch, false, false)). destruct (fold_left _ _ _) as [[[s3 b3] completed] contentSeen]. cbn [fst] in H.
  pose proof (flushBatch_final (s3, b3)) as Hf. destruct (flushBatch (s3, b3)) as [s4 b4]. cbn [fst] in *. by rewrite Hf.
Qed.
End Steps.

(** ** Attempts *)

Section Attempts.
Context {V : Type}.
Variable ProcessChunk : V -> string -> V * list toolEvent.
Variable FlushSieve : V -> V * list toolEvent.
Variable clean : string -> string.
Variable parseToolCalls : string -> list ParsedToolCall.
Variable normalizeCalls : list ParsedToolCall -> list ParsedToolCall.
Variable Marshal : json -> option string.
Variable uuid : nat -> string.
Variables canFlush thinkingEnabled exposeReasoning searchEnabled requireToolCall bufferToolContent emitEarlyToolDeltas : bool.
Hypothesis normalizeCalls_length : forall l, length (normalizeCalls l) = length l.
Implicit Types (s : runtime V).

Notation inStep := (inStep thinkingEnabled exposeReasoning bufferToolContent emitEarlyToolDeltas).
Notation ending := (finalize FlushSieve clean parseToolCalls normalizeCalls Marshal uuid searchEnabled requireToolCall bufferToolContent).
Notation lineStep := (onParsed ProcessChunk clean normalizeCalls Marshal uuid thinkingEnabled exposeReasoning searchEnabled requireToolCall bufferToolContent emitEarlyToolDeltas).
Notation hook := (act ProcessChunk clean normalizeCalls Marshal uuid canFlush thinkingEnabled exposeReasoning searchEnabled requireToolCall bufferToolContent emitEarlyToolDeltas).
Notation consume := (consumeChatStreamAttempt ProcessChunk FlushSieve clean parseToolCalls normalizeCalls Marshal uuid canFlush thinkingEnabled exposeReasoning
  searchEnabled requireToolCall bufferToolContent emitEarlyToolDeltas).
Notation loop := (streamAttempts ProcessChunk FlushSieve clean parseToolCalls normalizeCalls Marshal uuid canFlush thinkingEnabled exposeReasoning
  searchEnabled requireToolCall bufferToolContent emitEarlyToolDeltas).

(** The client was shown what the runtime records. *)
Record shown (s : runtime V) (v : view) : Prop := {
  sh_watch : watch blank (written s) = Some v;
  sh_ids : Forall (fun c => scID c <> "") (vTools v);
  sh_calls : emitEarlyToolDeltas = false -> vTools v = finalToolCalls s;
  sh_content : bufferToolContent = false -> vContent v = text (seen s);
  sh_reasoning : thinkingEnabled && exposeReasoning = true -> vReasoning v = thinking (seen s)
}.

(** The answer is over and marked; without an error it has a reason that tells whether there are calls. *)
Definition closed (s : runtime V) (v : view) : Prop :=
  over v = true /\ vDone v = true /\
  (finalErrorMessage (final s) = "" -> vFailed v = false /\ exists r, vFinish v = Some r /\ (r = "tool_calls" <-> vTools v <> [])).

Lemma inStep_shown s : inStep (s, emptyBatch) -> exists v, shown s v /\ over v = false /\ (vTools v <> [] <-> toolCallsEmitted s = true).
Proof.
  intros [v [H1 [H2 H2'] H3 H4 H5 H6 H7 H8 H9 H10]]. exists v. cbn [fst snd] in *. split; [|done]. split; try done.
  - intros Hb. rewrite <- H9 by done. cbn. by rewrite append_nil_r.
  - intros Hb. rewrite <- H10 by done. cbn. by rewrite append_nil_r.
Qed.

Lemma failed_ok status message code s : inStep (s, emptyBatch) -> message <> "" -> exists v, shown (sendFailedChunk status message code s) v /\ closed (sendFailedChunk status message code s) v.
Proof.
  intros Hs Hm. destruct (inStep_shown s Hs) as (v & [H1 H2 H3 H4 H5] & Ho & _). exists (endView None true true v). split; [split; try done|].
  - cbn [written sendFailedChunk sendDone sendChunk withFinal]. rewrite !chatWatch_app, H1. cbn [watch onFrame]. rewrite Ho. reflexivity.
  - split; [done|]. split; [done|]. cbn. done.
Qed.

(** A failure with any message, an empty body included. *)
Lemma refused_ok status message code s : inStep (s, emptyBatch) -> exists v, shown (sendFailedChunk status message code s) v /\ vDone v = true.
Proof.
  intros Hs. destruct (inStep_shown s Hs) as (v & [H1 H2 H3 H4 H5] & Ho & _). exists (endView None true true v). split; [split; try done|done].
  cbn [written sendFailedChunk sendDone sendChunk withFinal]. rewrite !chatWatch_app, H1. cbn [watch onFrame]. rewrite Ho. reflexivity.
Qed.

Definition ready s : Prop := inStep (s, emptyBatch) /\ finalErrorCode (final s) <> StopReasonContextCancelled.

Lemma inStep_final f s : inStep (s, emptyBatch) -> inStep (withFinal f s, emptyBatch).
Proof. intros H. by eapply chatStep_same. Qed.

Lemma emptyDetail_ok b : (UpstreamEmptyOutputDetail b).1.2 <> "" /\ (UpstreamEmptyOutputDetail b).2 <> StopReasonContextCancelled.
Proof. by destruct b. Qed.

Lemma chatFinalize_ok reason defer s : inStep (s, emptyBatch) -> reason <> "tool_calls" ->
  let r := ending reason defer s in
  if r.2 then exists v, shown r.1 v /\ closed r.1 v else ready r.1 /\ defer = true.
Proof.
  intros Hs Hr. unfold finalize. set (s1 := withFinal _ s). assert (inStep (s1, emptyBatch)) as H1 by (by apply inStep_final).
  assert (finalErrorMessage (final s1) = "") as Herr by done.
  set (detected := DetectAssistantToolCalls _ _ _ _ _). set (s2 := if negb _ && negb _ then _ else _).
  assert (inStep (s2, emptyBatch) /\ (detected <> [] -> toolCallsEmitted s2 = true) /\ final s2 = final s1) as (H2 & Hem & Hfin).
  { unfold s2. destruct (bool_decide (length detected = 0%nat)) eqn:Hd; bool_cases; cbn [negb andb].
    - apply nil_length_inv in Hd. rewrite Hd. destruct bufferToolContent eqn:Hb; [|done].
      split_and!; [by apply flushSieve_inStep|done|apply flushSieve_final].
    - assert (detected <> []) as Hne by (by intros ->). destruct (toolCallsDoneEmitted s1) eqn:Hdone; cbn [negb].
      + assert (toolCallsEmitted s1 = true) as He by (destruct H1 as [v Hv]; by apply (ag_done _ _ _ _ _ _ _ Hv)).
        destruct bufferToolContent eqn:Hb; [|done].
        split_and!; [by apply flushSieve_inStep|intros _; by apply flushSieve_emitted|apply flushSieve_final].
      + split_and!; [by apply sendCalls_inStep|intros _; by eapply sendCalls_inStep|]. unfold sendCalls. by destruct (FormatFinalStreamToolCallsWithStableIDs _ _ _ _ _). }
  clearbody s2. set (none := bool_decide _ && _).
  destruct (requireToolCall && none); [by apply failed_ok|].
  destruct (none && bool_decide (TrimSpace _ = "")) eqn:Hnone.
  - destruct (UpstreamEmptyOutputDetail _) as [[status message] code] eqn:Hd.
    assert (message <> "" /\ code <> StopReasonContextCancelled) as [Hm Hc] by (match type of Hd with UpstreamEmptyOutputDetail ?b = _ => pose proof (emptyDetail_ok b) as E end; by rewrite Hd in E).
    destruct defer; cbn [fst snd]; [|by apply failed_ok]. split; [|done]. split; [by apply inStep_final|done].
  - cbn [fst snd]. destruct (inStep_shown s2 H2) as (v & [G1 G2 G3 G4 G5] & Ho & Htools).
    exists (endView (Some (if none then reason else "tool_calls")) false true v). split; [split; try done|].
    + cbn [written sendDone sendChunk withFinal]. rewrite !chatWatch_app, G1. cbn [watch onFrame]. rewrite Ho. reflexivity.
    + split; [done|]. split; [done|]. intros _. split; [done|]. eexists. split; [reflexivity|]. cbn [vTools endView]. rewrite Htools. unfold none.
      destruct (bool_decide (length detected = 0%nat)) eqn:Hl; bool_cases; cbn [andb].
      * destruct (toolCallsEmitted s2); cbn [negb]; naive_solver.
      * assert (toolCallsEmitted s2 = true) as -> by (apply Hem; by intros ->). done.
Qed.

Lemma body_ready (body : list action) reason abnormal s : Forall (fun a => isEnd a = false) body -> inStep (s, emptyBatch) ->
  exists s', fold_left hook body (s, reason, abnormal) = (s', reason, abnormal) /\ inStep (s', emptyBatch) /\ final s' = final s.
Proof.
  intros Hb. revert s. induction Hb as [|a body Ha _ IH]; intros s Hs; [by exists s|]. cbn [fold_left].
  assert (exists s1, hook (s, reason, abnormal) a = (s1, reason, abnormal) /\ inStep (s1, emptyBatch) /\ final s1 = final s) as (s1 & -> & H1 & E1).
  { destruct a as [p| | |]; try done; cbn [act]; eexists; (split; [reflexivity|]).
    - split; [by apply line_ok|apply line_final].
    - unfold sendKeepAlive. destruct (negb canFlush); [done|]. split; [|done]. destruct Hs as [v [H1 [H2 H2'] H3 H4 H5 H6 H7 H8 H9 H10]]. exists v. cbn [fst snd] in *.
      split; try done. cbn [written sendChunk]. rewrite chatWatch_app, H1. cbn [watch onFrame]. by rewrite H2. }
  destruct (IH s1 H1) as (s' & E & H' & Ef). exists s'. by rewrite E, Ef, E1.
Qed.

(** What an attempt leaves behind. *)
Lemma consume_ok cfg start events allow s : ready s -> Forall wellTimed events ->
  match consume cfg start events allow s with
  | (s', None) => inStep (s', emptyBatch)
  | (s', Some Retryable) => ready s' /\ allow = true
  | (s', Some Terminal) => exists v, shown s' v /\ (closed s' v \/ (over v = false /\ finalErrorMessage (final s') <> "" /\ ~ Forall uncancelled events))
  end.
Proof.
  intros [Hs Hcode] Hw. unfold consumeChatStreamAttempt. destruct (ConsumeSSE _ _ _ _ _) as [e ret] eqn:E. unfold ConsumeSSE in E.
  destruct (engineRun_ends _ _ _ _ _ _ Hw E) as (more & Hc & body & fin & -> & Hbody & Hfin). cbn [calls app] in Hc. rewrite Hc, fold_left_app.
  destruct (body_ready body "stop" false s Hbody Hs) as (s1 & -> & H1 & E1). destruct ret; cbn [negb]; [|by subst fin].
  destruct Hfin as (a & -> & Ha). cbn [fold_left]. destruct a as [| |reason err|]; try done; cbn [act].
  - destruct (ClassifyTerminalFailure reason err) as [failure|] eqn:Hf.
    + rewrite orb_true_r. destruct (failed_ok (Status failure) (Message failure) (Code failure) s1 H1) as (v & G1 & G2); [|exists v; by split; [|left]].
      unfold ClassifyTerminalFailure in Hf. repeat case_match; by simplify_eq.
    + rewrite E1, bool_decide_eq_false_2 by done. cbn [orb]. set (r := if bool_decide (reason = "content_filter") then "content_filter" else "stop").
      assert (r <> "tool_calls") as Hr by (unfold r; by destruct (bool_decide _)). clearbody r.
      pose proof (chatFinalize_ok r (allow && negb (bool_decide (r = "content_filter"))) s1 H1 Hr) as Hend. destruct (ending r _ s1) as [s2 terminal]. cbn [fst snd] in Hend.
      destruct terminal; [|destruct Hend as [G1 [G2 _]%andb_true_iff]; by split]. destruct Hend as (v & G1 & G2). exists v. by split; [|left].
  - cbn [final markContextCancelled withFinal finalErrorCode withFinish withAnswer withError]. rewrite bool_decide_eq_true_2 by done. cbn [orb].
    destruct (inStep_shown s1 H1) as (v & [G1 G2 G3 G4 G5] & Ho & _). exists v. split; [by split|]. right. split; [done|]. split; [done|]. intros Hu.
    destruct (engineRun_uncancelled _ _ _ _ _ _ Hw Hu E) as (m & Hm & Hn). cbn [calls app] in Hm. rewrite Hc in Hm. subst m. apply Hn. set_solver.
Qed.

(** Nobody cancels the request while these retries are made. *)
Definition undisturbed (r : retry) : Prop :=
  match r with CallError d => UpstreamError.Stopped d = false | Answers _ _ _ events => Forall uncancelled events | _ => True end.
Definition timely (r : retry) : Prop := match r with Answers _ _ _ events => Forall wellTimed events | _ => True end.

Lemma loop_ok cfg attempts sessionID replayed start events retries s : ready s -> Forall wellTimed events -> Forall timely retries ->
  let '(s', out) := loop cfg attempts sessionID replayed start events retries s in
  exists v, shown s' v /\ match out with
  | None => over v = false
  | Some o => (Forall uncancelled events -> Forall undisturbed retries -> vDone v = true) /\ (success o = true -> closed s' v /\ finalErrorMessage (final s') = "")
  end.
Proof.
  intros Hs Hw Ht. revert attempts sessionID replayed start events s Hs Hw. induction Ht as [|r retries Hr Ht IH]; intros attempts sessionID replayed start events s Hs Hw; cbn [streamAttempts].
  all: pose proof (consume_ok cfg start events (attempts <? emptyOutputRetryMaxAttempts)%nat s Hs Hw) as Hc;
    destruct (consume cfg start events _ s) as [s1 [[|]|]]; [|destruct Hc as [[H1 H1'] _]|destruct (inStep_shown s1 Hc) as (v & G1 & G2 & _); by exists v].
  all: try (destruct Hc as (v & G1 & G2); exists v; split; [done|]; split;
    [intros Hu _; destruct G2 as [(_ & ? & _)|(_ & _ & ?)]; done|
     unfold delivered; destruct (bool_decide (finalErrorMessage (final s1) = "")) eqn:He; cbn [negb]; [|done]; bool_cases; intros _; destruct G2 as [G2|(_ & ? & _)]; done]).
  all: assert (exists v, shown (ending "stop" false s1).1 v /\ vDone v = true) as (vf & F1 & F2)
    by (pose proof (chatFinalize_ok "stop" false s1 H1 ltac:(done)) as Hend; destruct (ending "stop" false s1) as [s2 [|]]; [destruct Hend as (v & G1 & _ & G2 & _); by exists v|by destruct Hend]).
  all: destruct (emptyOutputRetryMaxAttempts <=? attempts)%nat; [by exists vf|].
  - destruct (inStep_shown s1 H1) as (v & G1 & G2 & _). by exists v.
  - destruct r as [|message|d|status body|sid rep st ev].
    + by exists vf.
    + destruct (refused_ok 413 message "prompt_too_large" s1 H1) as (v & G1 & G2). by exists v.
    + destruct (UpstreamError.Stopped d) eqn:Hd.
      * destruct (inStep_shown s1 H1) as (v & G1 & G2 & _). exists v. split; [done|]. split; [|done]. intros _ Hu. inversion Hu as [|? ? Hx]; subst. cbn in Hx. congruence.
      * destruct (refused_ok (UpstreamError.DStatus d) (UpstreamError.DMessage d) (UpstreamError.DCode d) s1 H1) as (v & G1 & G2). by exists v.
    + destruct (refused_ok status body "error" s1 H1) as (v & G1 & G2). by exists v.
    + specialize (IH (S attempts) (if bool_decide (sid = "") then sessionID else sid) (rep || replayed) st ev s1 (conj H1 H1') Hr).
      destruct (loop cfg (S attempts) _ _ st ev retries s1) as [s2 [o|]]; [|done]. destruct IH as (v & G1 & G2 & G3). exists v. split; [done|]. split; [|done].
      intros _ Hu. inversion Hu as [|? ? Hx Hy]; subst. by apply G2.
Qed.
End Attempts.

(** ** What the answer says

    A reading of the upstream lines that knows nothing of frames, batches and deltas: the texts of
    the answer, what of it is to be visible, and the groups of calls in the order in which they are
    complete. *)

Section Reading.
Context {V : Type}.
Variable ProcessChunk : V -> string -> V * list toolEvent.
Variable FlushSieve : V -> V * list toolEvent.
Variable clean : string -> string.
Variable parseToolCalls : string -> list ParsedToolCall.
Variable normalizeCalls : list ParsedToolCall -> list ParsedToolCall.
Variable Marshal : json -> option string.
Variable uuid : nat -> string.
Variables canFlush thinkingEnabled exposeReasoning searchEnabled requireToolCall bufferToolContent emitEarlyToolDeltas : bool.
Implicit Types (s : runtime V) (b : deltaBatch).

Record reading := { rdSieve : V; rdTexts : texts; rdContent : string; rdCalls : list (list ParsedToolCall) }.
Implicit Type rd : reading.

Definition saying (f : texts -> texts) rd : reading := {| rdSieve := rdSieve rd; rdTexts := f (rdTexts rd); rdContent := rdContent rd; rdCalls := rdCalls rd |}.
Definition showing (t : string) rd : reading := {| rdSieve := rdSieve rd; rdTexts := rdTexts rd; rdContent := rdContent rd +:+ t; rdCalls := rdCalls rd |}.
Definition calling (g : list ParsedToolCall) rd : reading :=
  {| rdSieve := rdSieve rd; rdTexts := rdTexts rd; rdContent := rdContent rd; rdCalls := rdCalls rd ++ [g] |}.
Definition sieving (v : V) rd : reading := {| rdSieve := v; rdTexts := rdTexts rd; rdContent := rdContent rd; rdCalls := rdCalls rd |}.

(** Content is visible cleaned, unless a call is required or it is a citation of a search. *)
Definition visible (t : string) : string :=
  if bool_decide (t = "") then "" else if requireToolCall then "" else if searchEnabled && IsCitation (clean t) then "" else clean t.

(** An event of the sieve, [last]: of its last flush.  While the stream runs an event with deltas of a
    call says nothing yet, and one with calls nothing else. *)
Definition readEvent (last : bool) rd (e : toolEvent) : reading :=
  if negb last && (0 <? length (ToolCallDeltas e))%nat then rd
  else match ToolCalls e with
       | [] => showing (visible (Content e)) rd
       | g => if last then showing (visible (Content e)) (calling g rd) else calling g rd
       end.

Definition readThinking (p : ContentPart) rd : reading :=
  let t := TrimContinuationOverlap (rawThinking (rdTexts rd)) (Text p) in
  let rd := saying (addRawThinking t) rd in
  if thinkingEnabled then saying (addThinking (TrimContinuationOverlap (thinking (rdTexts rd)) (clean t))) rd else rd.

Definition readText (p : ContentPart) rd : reading :=
  let t := TrimContinuationOverlap (rawText (rdTexts rd)) (Text p) in
  if bool_decide (t = "") then rd
  else
    let rd := saying (addRawText t) rd in
    if searchEnabled && IsCitation (clean t) then rd
    else
      let new := TrimContinuationOverlap (text (rdTexts rd)) (clean t) in
      let rd := saying (addText new) rd in
      if bufferToolContent then let '(v, es) := ProcessChunk (rdSieve rd) t in fold_left (readEvent false) es (sieving v rd)
      else showing new rd.

Definition readPart rd (p : ContentPart) : reading := if bool_decide (Type_ p = "thinking") then readThinking p rd else readText p rd.

(** Lines that end the answer or were not understood are not read. *)
Definition readLine rd (r : LineResult) : reading :=
  if Parsed r && negb (ContentFilter r) && bool_decide (ErrorMessage r = "") && negb (Stop r)
  then fold_left readPart (Parts r) (saying (fun t => fold_left addDetection (ToolDetectionThinkingParts r) t) rd) else rd.

(** The end of an attempt: calls found in the whole answer count if none was complete before;
    otherwise the sieve is flushed. *)
Definition readEnd rd : reading :=
  let t := rdTexts rd in
  match DetectAssistantToolCalls parseToolCalls (rawText t) (clean (text t)) (rawThinking t) (toolDetectionThinking t), rdCalls rd with
  | (_ :: _) as detected, [] => calling detected rd
  | _, _ => if bufferToolContent then let '(v, es) := FlushSieve (rdSieve rd) in fold_left (readEvent true) es (sieving v rd) else rd
  end.

Inductive heard := Line (r : LineResult) | End.
Definition hear rd (h : heard) : reading := match h with Line r => readLine rd r | End => readEnd rd end.
Definition silence (v : V) : reading :=
  {| rdSieve := v; rdTexts := {| rawThinking := ""; thinking := ""; toolDetectionThinking := ""; rawText := ""; text := "" |}; rdContent := ""; rdCalls := [] |}.

(** *** What was written *)

Definition contentOf (l : list frame) : string := joined ((fun f => match f with Chunk _ (DContent t) => t | _ => "" end) <$> l).

Lemma contentOf_snoc (l : list frame) (f : frame) : contentOf (l ++ [f]) = contentOf l +:+ match f with Chunk _ (DContent t) => t | _ => "" end.
Proof. unfold contentOf. rewrite fmap_app. apply joined_snoc. Qed.

Lemma watch_content (l : list frame) v v' : watch v l = Some v' -> vContent v' = vContent v +:+ contentOf l.
Proof.
  revert v. induction l as [|f l IH]; intros v; cbn [watch]; [intros [= <-]; by rewrite append_nil_r|].
  destruct (onFrame v f) as [v1|] eqn:E; [|done]. intros ->%IH. change (contentOf (f :: l)) with (match f with Chunk _ (DContent t) => t | _ => "" end +:+ contentOf l).
  rewrite <- append_assoc. f_equal. unfold onFrame in E. destruct f as [role [t|t|cs]|r|? ? ?| |]; repeat case_match; simplify_eq; cbn; by rewrite ?append_nil_r.
Qed.

(** The name and the arguments of the calls of a record. *)
Definition callBodies (l : list shownCall) : list (option string * option string) := (fun c => (scName c, scArguments c)) <$> l.
Definition bodiesOf (groups : list (list ParsedToolCall)) : list (option string * option string) :=
  flat_map (fun g => (fun tc => (Some (Name tc), Some (marshalled Marshal (Input tc)))) <$> normalizeCalls g) groups.

(** The runtime and what it has written say what the reading says. *)
Record reads rd (r : runtime V * deltaBatch) : Prop := {
  rd_sieve : toolSieve r.1 = rdSieve rd;
  rd_texts : seen r.1 = rdTexts rd;
  rd_content : contentOf (written r.1) +:+ pending "content" r.2 = rdContent rd;
  rd_calls : callBodies (finalToolCalls r.1) = bodiesOf (rdCalls rd);
  rd_done : toolCallsDoneEmitted r.1 = (0 <? length (rdCalls rd))%nat;
  rd_batch : batchOk r.2
}.

Lemma reads_same rd s s' b : reads rd (s, b) -> toolSieve s' = toolSieve s -> seen s' = seen s -> contentOf (written s') = contentOf (written s) ->
  finalToolCalls s' = finalToolCalls s -> toolCallsDoneEmitted s' = toolCallsDoneEmitted s -> reads rd (s', b).
Proof. intros [H1 H2 H3 H4 H5 H6] E1 E2 E3 E4 E5. cbn [fst snd] in *. split; cbn [fst snd]; congruence. Qed.

Lemma sendDelta_content d s : contentOf (written (sendDelta d s)) = contentOf (written s) +:+ match d with DContent t => t | _ => "" end.
Proof. cbn [written sendDelta sendChunk markFirst]. rewrite contentOf_snoc. by destruct d. Qed.

Lemma flush_reads rd r : reads rd r -> reads rd (flushBatch r) /\ (flushBatch r).2 = emptyBatch.
Proof.
  destruct r as [s b]. intros [H1 H2 H3 H4 H5 H6]. cbn [fst snd] in *. unfold flushBatch. destruct H6 as [->|[Hf Ht]].
  { split; [|done]. split; try done. by left. }
  assert (bool_decide (batchField b = "") || bool_decide (batchText b = "") = false) as -> by (destruct Hf as [->| ->]; by rewrite (bool_decide_eq_false_2 (batchText b = ""))).
  split; [|done]. split; try done; cbn [fst snd]; [|by left]. rewrite sendDelta_content, <- H3. unfold deltaOf, pending. cbn [batchField batchText emptyBatch].
  destruct Hf as [->| ->]; cbn; by rewrite ?append_nil_r.
Qed.

Lemma append_reads field t rd r : field = "content" \/ field = "reasoning_content" -> reads rd r ->
  reads (showing (if bool_decide (field = "content") then t else "") rd) (appendBatch field t r).
Proof.
  intros Hfield Hr. unfold appendBatch. destruct (bool_decide (t = "")) eqn:Et; bool_cases.
  { subst t. destruct Hr as [H1 H2 H3 H4 H5 H6]. split; try done. cbn [rdContent showing]. rewrite <- H3. destruct (bool_decide _); by rewrite append_nil_r. }
  assert (Hput : forall s0 b0, reads rd (s0, b0) -> b0 = emptyBatch \/ batchField b0 = field ->
    reads (showing (if bool_decide (field = "content") then t else "") rd) (s0, {| batchField := field; batchText := batchText b0 +:+ t |})).
  { intros s0 b0 [H1 H2 H3 H4 H5 H6] Hb0. cbn [fst snd] in *. split; try done; cbn [fst snd].
    - cbn [rdContent showing]. rewrite <- H3, pending_append, append_assoc by auto. done.
    - right. cbn. split; [done|]. by destruct (batchText b0). }
  destruct r as [s b]. cbn [snd]. destruct (negb (bool_decide (batchField b = "")) && negb (bool_decide (batchField b = field))) eqn:Hc.
  - destruct (flush_reads rd (s, b) Hr) as [Hf He]. destruct (flushBatch (s, b)) as [s1 b1]. cbn [snd] in He. subst b1. apply Hput; [done|by left].
  - apply Hput; [done|]. apply andb_false_iff in Hc as [Hc|Hc]; bool_cases; [|by right].
    destruct (rd_batch _ _ Hr) as [Hb|[[Hb|Hb] _]]; cbn [snd] in Hb; [by left|congruence..].
Qed.

Lemma formatCalls_bodies i calls ids : callBodies (formatCallsFrom uuid (marshalled Marshal) i calls ids).2 =
  (fun tc => (Some (Name tc), Some (marshalled Marshal (Input tc)))) <$> calls.
Proof.
  revert i ids. induction calls as [|c calls IH]; intros i ids; [done|]. cbn [formatCallsFrom].
  destruct (bool_decide (TrimSpace (get "" ids.1 i) = "")); cbn [freshCall];
    match goal with |- context [formatCallsFrom _ _ _ _ ?x] => specialize (IH (i + 1) x) end; destruct (formatCallsFrom _ _ _ _ _) as [ids2 out];
    cbn [snd] in *; change (callBodies (?c :: out)) with ((scName c, scArguments c) :: callBodies out); by rewrite IH.
Qed.

Notation deliver := (sendCalls normalizeCalls Marshal uuid).

Lemma bodiesOf_snoc groups g : bodiesOf (groups ++ [g]) = bodiesOf groups ++ bodiesOf [g].
Proof. apply flat_map_app. Qed.

Lemma sendCalls_reads g rd s : g <> [] -> reads rd (s, emptyBatch) -> reads (calling g rd) (deliver g s, emptyBatch).
Proof.
  intros Hne [H1 H2 H3 H4 H5 H6]. cbn [fst snd] in *. unfold sendCalls, FormatFinalStreamToolCallsWithStableIDs. destruct g as [|c l]; [done|].
  pose proof (formatCalls_bodies 0 (normalizeCalls (c :: l)) (streamToolCallIDs s)) as Hb. destruct (formatCallsFrom _ _ _ _ _) as [ids out]. cbn [snd] in Hb.
  split; try done; cbn [fst snd].
  - rewrite sendDelta_content. cbn [written addFinalCalls withCallIDs withEmitted]. rewrite append_nil_r. exact H3.
  - cbn [finalToolCalls sendDelta sendChunk markFirst addFinalCalls withCallIDs withEmitted rdCalls calling]. unfold callBodies in *. rewrite fmap_app, Hb, H4, bodiesOf_snoc.
    unfold bodiesOf at 3. cbn [flat_map]. by rewrite app_nil_r.
  - cbn [toolCallsDoneEmitted sendDelta sendChunk markFirst addFinalCalls withCallIDs withEmitted rdCalls calling]. rewrite length_app, Nat.add_comm. done.
Qed.

Lemma reset_reads rd s b : reads rd (s, b) -> reads rd (resetStreamToolCallState s, b).
Proof. intros H. by eapply reads_same. Qed.

Lemma visible_shown t : shownContent clean searchEnabled requireToolCall t = visible t.
Proof. unfold shownContent, visible. destruct (bool_decide (t = "")); [done|]. by destruct requireToolCall. Qed.

Lemma content_reads t rd r : reads rd r -> reads (showing t rd) (appendBatch "content" t r).
Proof. intros H. exact (append_reads "content" t rd r (or_introl eq_refl) H). Qed.

Notation toolStep := (onToolEvent clean normalizeCalls Marshal uuid searchEnabled requireToolCall emitEarlyToolDeltas).

Lemma callDeltas_reads deltas rd r : reads rd r -> reads rd (sendCallDeltas uuid emitEarlyToolDeltas deltas r).
Proof.
  destruct r as [s b]. intros Hs. unfold sendCallDeltas. destruct (negb emitEarlyToolDeltas); [done|]. cbn [fst snd].
  destruct (filterIncrementalToolCallDeltasByAllowed deltas (streamToolNames s)) as [names filtered].
  destruct (FormatIncrementalStreamToolCallDeltas uuid filtered _) as [ids formatted].
  assert (reads rd (withCallIDs ids (withNames names s), b)) as Hs1 by (by eapply reads_same). destruct formatted as [|c l]; [exact Hs1|].
  destruct (flush_reads _ _ Hs1) as [Hf _]. destruct (flushBatch _) as [s2 b2]. eapply reads_same; [exact Hf|done..| |done|done].
  rewrite sendDelta_content. cbn [written withEmitted]. by rewrite append_nil_r.
Qed.

Lemma toolEvent_reads e rd r : reads rd r.1 -> reads (readEvent false rd e) (toolStep r e).1.
Proof.
  destruct r as [[s b] completed]. cbn [fst]. intros Hs. unfold onToolEvent, readEvent. cbn [negb andb].
  destruct (ToolCallDeltas e) as [|d ds]; cbn [length]; [|by apply callDeltas_reads]. cbn [Nat.ltb Nat.leb].
  destruct (ToolCalls e) as [|c l]; [cbn [fst]; rewrite visible_shown; by apply content_reads|].
  destruct (flush_reads _ _ Hs) as [Hf Hb]. destruct (flushBatch (s, b)) as [s2 b2]. cbn [snd] in Hb. subst b2. cbn [fst].
  apply reset_reads. by apply sendCalls_reads.
Qed.

Notation partStep := (onPart ProcessChunk clean normalizeCalls Marshal uuid thinkingEnabled exposeReasoning searchEnabled requireToolCall bufferToolContent emitEarlyToolDeltas).

Lemma saying_reads f rd s b : reads rd (s, b) -> reads (saying f rd) (onTexts f s, b).
Proof. intros [H1 H2 H3 H4 H5 H6]. split; try done. cbn [fst snd seen onTexts rdTexts saying] in *. by rewrite H2. Qed.

Lemma addNothing_text rd : saying (addThinking "") rd = rd.
Proof. destruct rd as [v [] c g]. unfold saying, addThinking. cbn. by rewrite append_nil_r. Qed.

Lemma showing_nothing rd : showing "" rd = rd.
Proof. destruct rd. unfold showing. cbn. by rewrite append_nil_r. Qed.

Lemma part_reads p rd (r : partState) : reads rd r.1.1 -> reads (readPart rd p) (partStep r p).1.1.
Proof.
  destruct r as [[[s b] completed] contentSeen]. cbn [fst]. intros Hs. unfold onPart, readPart. destruct (bool_decide (Type_ p = "thinking")).
  - unfold onThinkingPart, readThinking. rewrite <- (rd_texts _ _ Hs). cbn [fst]. set (t := TrimContinuationOverlap (rawThinking (seen s)) (Text p)).
    pose proof (saying_reads (addRawThinking t) rd s b Hs) as H1. destruct thinkingEnabled; cbn [negb]; [|exact H1].
    rewrite <- (rd_texts _ _ H1). cbn [fst]. set (new := TrimContinuationOverlap (thinking _) (clean t)).
    destruct (bool_decide (clean t = "") || bool_decide (new = "")) eqn:He.
    + assert (new = "") as ->; [|by rewrite addNothing_text]. apply orb_true_iff in He as [He|He]; bool_cases; [|done]. unfold new. by rewrite He.
    + pose proof (saying_reads (addThinking new) _ _ _ H1) as H2. destruct exposeReasoning; [|exact H2]. cbn [fst].
      pose proof (append_reads "reasoning_content" new _ _ (or_intror eq_refl) H2) as H3. cbn in H3. by rewrite showing_nothing in H3.
  - unfold onTextPart, readText. rewrite <- (rd_texts _ _ Hs). cbn [fst]. set (t := TrimContinuationOverlap (rawText (seen s)) (Text p)). destruct (bool_decide (t = "")); [exact Hs|].
    pose proof (saying_reads (addRawText t) rd s b Hs) as H1. destruct (searchEnabled && IsCitation (clean t)); [exact H1|].
    rewrite <- (rd_texts _ _ H1). cbn [fst]. set (new := TrimContinuationOverlap (text _) (clean t)). pose proof (saying_reads (addText new) _ _ _ H1) as H2.
    destruct bufferToolContent; cbn [negb]; [|by apply content_reads].
    rewrite <- (rd_sieve _ _ H2). cbn [fst]. destruct (ProcessChunk _ t) as [v es]. cbn [fst].
    assert (reads (sieving v (saying (addText new) (saying (addRawText t) rd))) (withSieve v (onTexts (addText new) (onTexts (addRawText t) s)), b)) as H3.
    { destruct H2 as [E1 E2 E3 E4 E5 E6]. split; try done. }
    revert H3. generalize (withSieve v (onTexts (addText new) (onTexts (addRawText t) s))) b completed. generalize (sieving v (saying (addText new) (saying (addRawText t) rd))). clear.
    induction es as [|e es IH]; intros rd s b c Hs; [exact Hs|]. cbn [fold_left].
    pose proof (toolEvent_reads e rd (s, b, c) Hs) as He. destruct (toolStep (s, b, c) e) as [[s2 b2] c2]. by apply IH.
Qed.

Notation lineStep := (onParsed ProcessChunk clean normalizeCalls Marshal uuid thinkingEnabled exposeReasoning searchEnabled requireToolCall bufferToolContent emitEarlyToolDeltas).
Lemma line_reads p rd s : reads rd (s, emptyBatch) -> reads (readLine rd p) ((lineStep s p).1, emptyBatch).
Proof.
  intros Hs. unfold onParsed, readLine. destruct (Parsed p); [|done]. cbn [negb andb].
  set (s1 := if 0 <? ResponseMessageID p then _ else s). assert (reads rd (s1, emptyBatch)) as H1 by (unfold s1; destruct (0 <? _); [by eapply reads_same|done]). clearbody s1.
  destruct (ContentFilter p); [done|]. cbn [negb andb]. destruct (bool_decide (ErrorMessage p = "")); [|done]. cbn [negb andb]. destruct (Stop p); [done|]. cbn [negb].
  pose proof (saying_reads (fun t => fold_left addDetection (ToolDetectionThinkingParts p) t) _ _ _ H1) as H2.
  assert (forall l rd (r : partState), reads rd r.1.1 -> reads (fold_left readPart l rd) (fold_left partStep l r).1.1) as H.
  { intros l. induction l as [|q l IH]; intros rd' r Hr; [exact Hr|]. cbn [fold_left]. apply IH. by apply part_reads. }
  specialize (H (Parts p) _ (onTexts (fun t => fold_left addDetection (ToolDetectionThinkingParts p) t) s1, emptyBatch, false, false) H2).
  destruct (fold_left partStep _ _) as [[[s3 b3] completed] contentSeen]. cbn [fst] in H. destruct (flush_reads _ _ H) as [H4 H5].
  destruct (flushBatch (s3, b3)) as [s4 b4]. cbn [snd] in H5. subst b4. exact H4.
Qed.

(** *** The ends, and the whole run *)

Notation ending := (finalize FlushSieve clean parseToolCalls normalizeCalls Marshal uuid searchEnabled requireToolCall bufferToolContent).
Notation hook := (act ProcessChunk clean normalizeCalls Marshal uuid canFlush thinkingEnabled exposeReasoning searchEnabled requireToolCall bufferToolContent emitEarlyToolDeltas).
Notation consume := (consumeChatStreamAttempt ProcessChunk FlushSieve clean parseToolCalls normalizeCalls Marshal uuid canFlush thinkingEnabled exposeReasoning
  searchEnabled requireToolCall bufferToolContent emitEarlyToolDeltas).
Notation loop := (streamAttempts ProcessChunk FlushSieve clean parseToolCalls normalizeCalls Marshal uuid canFlush thinkingEnabled exposeReasoning
  searchEnabled requireToolCall bufferToolContent emitEarlyToolDeltas).

Lemma lastFlush_reads rd s : reads rd (s, emptyBatch) ->
  reads (let '(v, es) := FlushSieve (rdSieve rd) in fold_left (readEvent true) es (sieving v rd))
    (flushSieve FlushSieve clean normalizeCalls Marshal uuid searchEnabled requireToolCall s, emptyBatch).
Proof.
  intros Hs. unfold flushSieve. rewrite <- (rd_sieve _ _ Hs). cbn [fst]. destruct (FlushSieve (toolSieve s)) as [v es].
  assert (reads (sieving v rd) (withSieve v s, emptyBatch)) as H0 by (destruct Hs as [E1 E2 E3 E4 E5 E6]; by split).
  assert (forall es rd r, reads rd r -> reads (fold_left (readEvent true) es rd)
    (fold_left (onFlushEvent clean normalizeCalls Marshal uuid searchEnabled requireToolCall) es r)) as H.
  { clear. induction es as [|e es IH]; intros rd r Hr; [exact Hr|]. cbn [fold_left]. apply IH. unfold onFlushEvent, readEvent. cbn [negb andb].
    rewrite visible_shown. destruct (ToolCalls e) as [|c l]; apply content_reads; [exact Hr|].
    destruct (flush_reads _ _ Hr) as [Hf Hb]. destruct (flushBatch r) as [s2 b2]. cbn [snd] in Hb. subst b2. apply reset_reads. by apply sendCalls_reads. }
  destruct (flush_reads _ _ (H es _ _ H0)) as [H2 H3]. destruct (flushBatch _) as [s2 b2]. cbn [fst snd] in *. by subst b2.
Qed.

Lemma failed_reads status message code rd s : reads rd (s, emptyBatch) -> reads rd (sendFailedChunk status message code s, emptyBatch).
Proof. intros H. eapply reads_same; [exact H|done..| |done|done]. cbn [written sendFailedChunk sendDone sendChunk withFinal]. by rewrite !contentOf_snoc, !append_nil_r. Qed.

Lemma finalize_reads reason defer rd s : reads rd (s, emptyBatch) -> reads (readEnd rd) ((ending reason defer s).1, emptyBatch).
Proof.
  intros Hs. unfold finalize, readEnd. set (s1 := withFinal _ s). assert (reads rd (s1, emptyBatch)) as H1 by (by eapply reads_same).
  rewrite <- (rd_texts _ _ Hs). cbn [fst]. set (detected := DetectAssistantToolCalls _ _ _ _ _). set (rd' := match detected with [] => _ | _ => _ end).
  set (s2 := if negb _ && negb _ then _ else _).
  assert (reads rd' (s2, emptyBatch)) as H2.
  { pose proof (rd_done _ _ H1) as Hd. cbn [fst] in Hd. unfold rd', s2. rewrite Hd. destruct detected as [|c l]; cbn [length].
    - rewrite bool_decide_eq_true_2 by done. cbn [negb andb]. destruct bufferToolContent; [by apply lastFlush_reads|exact H1].
    - rewrite bool_decide_eq_false_2 by done. cbn [negb andb]. destruct (rdCalls rd) as [|g gs] eqn:Eg; cbn [length Nat.ltb Nat.leb negb].
      + by apply sendCalls_reads.
      + destruct bufferToolContent; [by apply lastFlush_reads|exact H1]. }
  clearbody rd' s2. destruct (requireToolCall && _); [by apply failed_reads|]. destruct (_ && bool_decide (TrimSpace _ = "")).
  - destruct (UpstreamEmptyOutputDetail _) as [[status message] code]. destruct defer; [by eapply reads_same|by apply failed_reads].
  - eapply reads_same; [exact H2|done..| |done|done]. cbn [fst written sendDone sendChunk withFinal]. by rewrite !contentOf_snoc, !append_nil_r.
Qed.

(** Did the calls of the engine end an attempt that was not abnormal? *)
Definition calledEnd (l : list action) : bool :=
  match last l with Some (OnFinalize reason err) => match ClassifyTerminalFailure reason err with None => true | Some _ => false end | _ => false end.

(** What an attempt hears: the lines that the engine gives the handler, and the end. *)
Definition heardOnce (cfg : ConsumeConfig) (start : Z) (events : list selectEvent) s : list heard :=
  let '(e, _) := ConsumeSSE (Some lineStep) cfg start s events in
  (Line <$> parsedOf (calls e)) ++ (if calledEnd (calls e) then [End] else []).

(** Further attempts are made, and heard, only while the one before ended with nothing to show; when
    there can be no further one, that end is final. *)
Fixpoint heardBy (cfg : ConsumeConfig) (attempts : nat) (start : Z) (events : list selectEvent) (retries : list retry) s : list heard :=
  heardOnce cfg start events s ++
  match consume cfg start events (attempts <? emptyOutputRetryMaxAttempts)%nat s with
  | (s, Some Retryable) =>
      if (emptyOutputRetryMaxAttempts <=? attempts)%nat then [End]
      else match retries with
           | NotPrepared :: _ => [End]
           | Answers _ _ start events :: retries => heardBy cfg (S attempts) start events retries s
           | _ => []
           end
  | _ => []
  end.

Lemma body_reads (body : list action) reason abnormal rd s : Forall (fun a => isEnd a = false) body -> reads rd (s, emptyBatch) ->
  reads (fold_left hear (Line <$> parsedOf body) rd) ((fold_left hook body (s, reason, abnormal)).1.1, emptyBatch).
Proof.
  intros Hb. revert rd s. induction Hb as [|a body Ha _ IH]; intros rd s Hs; [exact Hs|]. cbn [fold_left].
  destruct a as [p| | |]; try done; cbn [act parsedOf fmap list_fmap fold_left].
  - apply IH. by apply line_reads.
  - apply IH. unfold sendKeepAlive. destruct (negb canFlush); [done|]. eapply reads_same; [exact Hs|done..| |done|done].
    cbn [written sendChunk]. by rewrite contentOf_snoc, append_nil_r.
Qed.

Notation readyFor := (ready thinkingEnabled exposeReasoning bufferToolContent emitEarlyToolDeltas).
Hypothesis normalizeCalls_length : forall l, length (normalizeCalls l) = length l.

Lemma consume_reads cfg start events allow rd s : readyFor s -> Forall wellTimed events -> reads rd (s, emptyBatch) ->
  reads (fold_left hear (heardOnce cfg start events s) rd) ((consume cfg start events allow s).1, emptyBatch).
Proof.
  intros [Hin Hcode] Hw Hs. unfold consumeChatStreamAttempt, heardOnce. destruct (ConsumeSSE _ _ _ _ _) as [e ret] eqn:E. unfold ConsumeSSE in E.
  destruct (engineRun_ends _ _ _ _ _ _ Hw E) as (more & Hc & body & fin & -> & Hbody & Hfin). cbn [calls app] in Hc. rewrite Hc, parsedOf_app, fmap_app, !fold_left_app.
  pose proof (body_reads body "stop" false rd s Hbody Hs) as H1.
  destruct (body_ready ProcessChunk clean normalizeCalls Marshal uuid canFlush thinkingEnabled exposeReasoning searchEnabled requireToolCall bufferToolContent
    emitEarlyToolDeltas normalizeCalls_length body "stop" false s Hbody Hin) as (s1 & Hf & _ & E1).
  rewrite Hf in *. cbn [fst] in H1. unfold calledEnd. rewrite last_app. destruct ret; cbn [negb].
  - destruct Hfin as (a & -> & Ha). cbn [fold_left last]. destruct a as [| |reason err|]; try done; cbn [act parsedOf fmap list_fmap fold_left].
    + destruct (ClassifyTerminalFailure reason err) as [failure|]; cbv beta iota; cbn [fold_left].
      * rewrite orb_true_r. cbn [fst]. by apply failed_reads.
      * rewrite E1, bool_decide_eq_false_2 by done. cbn [orb]. set (r := if bool_decide (reason = "content_filter") then _ else _).
        pose proof (finalize_reads r (allow && negb (bool_decide (r = "content_filter"))) _ _ H1) as H2. destruct (ending r _ s1) as [s2 terminal]. exact H2.
    + cbn [final markContextCancelled withFinal finalErrorCode withFinish withAnswer withError]. rewrite bool_decide_eq_true_2 by done. cbn [orb].
      eapply reads_same; [exact H1|done..].
  - subst fin. cbn [fold_left last parsedOf fmap list_fmap]. destruct (last body) as [a|] eqn:Ea; [|exact H1].
    apply last_Some_elem_of in Ea. pose proof (proj1 (Forall_forall _ _) Hbody a Ea) as Hx. by destruct a.
Qed.

Lemma loop_reads cfg attempts sessionID replayed start events retries rd s : readyFor s -> Forall wellTimed events -> Forall timely retries -> reads rd (s, emptyBatch) ->
  reads (fold_left hear (heardBy cfg attempts start events retries s) rd) ((loop cfg attempts sessionID replayed start events retries s).1, emptyBatch).
Proof.
  intros Hs Hw Ht. revert attempts sessionID replayed start events rd s Hs Hw.
  induction Ht as [|r retries Hr Ht IH]; intros attempts sessionID replayed start events rd s Hs Hw Hrd; cbn [streamAttempts heardBy]; rewrite fold_left_app.
  all: pose proof (consume_ok ProcessChunk FlushSieve clean parseToolCalls normalizeCalls Marshal uuid canFlush thinkingEnabled exposeReasoning searchEnabled requireToolCall
      bufferToolContent emitEarlyToolDeltas normalizeCalls_length cfg start events (attempts <? emptyOutputRetryMaxAttempts)%nat s Hs Hw) as Hc;
    pose proof (consume_reads cfg start events (attempts <? emptyOutputRetryMaxAttempts)%nat rd s Hs Hw Hrd) as H1;
    destruct (consume cfg start events _ s) as [s1 [[|]|]]; cbn [fst] in H1; [exact H1| |exact H1].
  all: pose proof (finalize_reads "stop" false _ _ H1) as H2.
  all: destruct (emptyOutputRetryMaxAttempts <=? attempts)%nat; [exact H2|].
  - exact H1.
  - destruct r as [|message|d|status body|sid rep st ev]; cbn [fold_left fst].
    + exact H2.
    + by apply failed_reads.
    + destruct (UpstreamError.Stopped d); [exact H1|by apply failed_reads].
    + by apply failed_reads.
    + destruct Hc as [Hc _]. by apply IH.
Qed.
End Reading.

(** C7. A streamed chat completion.  Over any upstream lines and any retries of attempts that ended with
    nothing to show, what was written is at every moment a correct beginning of an answer: the first
    delta, and only it, carries the role, and every call is shown with an identifier.  What it says is
    what the lines say that the engine gave the handler, over all attempts: the visible content is,
    with tools, the cleaned content of the sieve's events on the raw text (with those of the flushes
    at the ends of attempts), and without tools the cleaned text itself; the reasoning, if it is
    exposed, is what the reading has; the calls that are recorded, and shown unless
    early deltas of calls are on, have the names and the arguments of the normalised calls in the
    order in which they are complete, those found in the whole answer only if no call was complete
    before (two calls of one answer may share an index, [call_indices_collide]).  When the handler is
    done, and nobody cancelled the request (a cancelled one may stop anywhere), the answer is over: one
    chunk with the reason or one error, then the end marker, and nothing after it.  A success is a
    finished answer, whose reason says whether there are calls. *)
Theorem chat_stream_protocol {V : Type} ProcessChunk FlushSieve clean parseToolCalls toolsRaw Marshal uuid canFlush thinkingEnabled exposeReasoning
  searchEnabled requireToolCall bufferToolContent emitEarlyToolDeltas (cfg : ConsumeConfig) (completionID : string) (start : Z)
  (events : list selectEvent) (retries : list retry) (w : V) :
  Forall wellTimed events -> Forall timely retries ->
  let normalizeCalls := SchemaNormalize.NormalizeParsedToolCallsForSchemas Marshal toolsRaw in
  let '(s, out) := handleStreamWithRetry ProcessChunk FlushSieve clean parseToolCalls normalizeCalls Marshal uuid canFlush thinkingEnabled exposeReasoning
                     searchEnabled requireToolCall bufferToolContent emitEarlyToolDeltas cfg completionID start events retries w in
  let said := heardBy ProcessChunk FlushSieve clean parseToolCalls normalizeCalls Marshal uuid canFlush thinkingEnabled exposeReasoning
                searchEnabled requireToolCall bufferToolContent emitEarlyToolDeltas cfg 0 start events retries (newChatStreamRuntime w) in
  let rd := fold_left (hear ProcessChunk FlushSieve clean parseToolCalls thinkingEnabled searchEnabled requireToolCall bufferToolContent) said (silence w) in
  exists v, shown thinkingEnabled exposeReasoning bufferToolContent emitEarlyToolDeltas s v /\
  vContent v = rdContent rd /\ seen s = rdTexts rd /\ callBodies (finalToolCalls s) = bodiesOf normalizeCalls Marshal (rdCalls rd) /\
  match out with
  | None => over v = false
  | Some o => (Forall uncancelled events -> Forall undisturbed retries -> vDone v = true) /\ (success o = true -> closed s v /\ finalErrorMessage (final s) = "")
  end.
Proof.
  intros Hw Ht normalizeCalls. pose proof (SchemaNormalize.normalized_length Marshal toolsRaw : forall l, length (normalizeCalls l) = length l) as Hlen.
  assert (ready thinkingEnabled exposeReasoning bufferToolContent emitEarlyToolDeltas (newChatStreamRuntime w)) as Hr.
  { split; [|done]. eexists. split; try reflexivity; try done; by left. }
  pose proof (loop_ok ProcessChunk FlushSieve clean parseToolCalls normalizeCalls Marshal uuid canFlush thinkingEnabled exposeReasoning searchEnabled requireToolCall
    bufferToolContent emitEarlyToolDeltas Hlen cfg 0 completionID false start events retries _ Hr Hw Ht) as Hloop.
  assert (reads normalizeCalls Marshal (silence w) (newChatStreamRuntime w, emptyBatch)) as H0 by (split; try done; by left).
  pose proof (loop_reads ProcessChunk FlushSieve clean parseToolCalls normalizeCalls Marshal uuid canFlush thinkingEnabled exposeReasoning searchEnabled requireToolCall
    bufferToolContent emitEarlyToolDeltas Hlen cfg 0 completionID false start events retries _ _ Hr Hw Ht H0) as Hrd.
  unfold handleStreamWithRetry. destruct (streamAttempts _ _ _ _ _ _ _ _ _ _ _ _ _ _ _ _ _ _ _ _ _ _) as [s out]. cbn [fst] in Hrd. cbv zeta.
  destruct Hloop as (v & Hv & Hout). exists v. split; [exact Hv|]. destruct Hrd as [R1 R2 R3 R4 R5 R6]. cbn [fst snd] in *.
  pose proof (watch_content _ _ _ (sh_watch _ _ _ _ _ _ Hv)) as Hc. cbn in Hc, R3. rewrite append_nil_r in R3. split_and!; [by rewrite Hc|exact R2|exact R4|exact Hout].
Qed.

Section Bounded.
Context {V : Type}.
Variable ProcessChunk : V -> string -> V * list toolEvent.
Variable FlushSieve : V -> V * list toolEvent.
Variable clean : string -> string.
Variable parseToolCalls : string -> list ParsedToolCall.
Variable normalizeCalls : list ParsedToolCall -> list ParsedToolCall.
Variable Marshal : json -> option string.
Variable uuid : nat -> string.
Variables canFlush thinkingEnabled exposeReasoning searchEnabled requireToolCall bufferToolContent emitEarlyToolDeltas : bool.
Notation loop := (streamAttempts ProcessChunk FlushSieve clean parseToolCalls normalizeCalls Marshal uuid canFlush thinkingEnabled exposeReasoning
  searchEnabled requireToolCall bufferToolContent emitEarlyToolDeltas).

(** The body of an answer ends, or the request is cancelled. *)
Definition answersEnd (r : retry) : Prop := match r with Answers _ _ _ events => existsb closing events = true | _ => True end.

Lemma loop_returns cfg attempts sessionID replayed start events retries (s : runtime V) :
  existsb closing events = true -> Forall answersEnd retries -> (emptyOutputRetryMaxAttempts <= attempts + length retries)%nat ->
  is_Some (loop cfg attempts sessionID replayed start events retries s).2 /\
  loop cfg attempts sessionID replayed start events retries s = loop cfg attempts sessionID replayed start events (take (emptyOutputRetryMaxAttempts - attempts) retries) s.
Proof.
  intros He Hr. revert attempts sessionID replayed start events s He. induction Hr as [|r retries Hr _ IH]; intros attempts sessionID replayed start events s He Hn;
    [rewrite take_nil|destruct (emptyOutputRetryMaxAttempts - attempts)%nat as [|k] eqn:Hk; cbn [take]]; cbn [streamAttempts].
  all: assert (exists s1 a, consumeChatStreamAttempt ProcessChunk FlushSieve clean parseToolCalls normalizeCalls Marshal uuid canFlush thinkingEnabled exposeReasoning
         searchEnabled requireToolCall bufferToolContent emitEarlyToolDeltas cfg start events (attempts <? emptyOutputRetryMaxAttempts)%nat s = (s1, Some a)) as (s1 & a & ->)
    by (unfold consumeChatStreamAttempt, ConsumeSSE; match goal with |- context [engineRun ?f ?c ?l ?x] => pose proof (engineRun_returns f c l x ltac:(eassumption)) as Hret; destruct (engineRun f c l x) as [e ret] end;
        cbn [snd] in Hret; subst ret; destruct (fold_left _ _ _) as [[s1 r1] ab]; cbn [negb]; destruct (_ || _); [by eexists _, _|]; destruct (finalize _ _ _ _ _ _ _ _ _ _ _ _) as [s2 b]; by eexists _, _).
  all: destruct a; [by split|].
  - cbn [length] in Hn. rewrite Nat.add_0_r in Hn. apply Nat.leb_le in Hn. rewrite Hn. by split.
  - assert (emptyOutputRetryMaxAttempts <=? attempts = true)%nat as -> by (apply Nat.leb_le; lia). by split.
  - assert (emptyOutputRetryMaxAttempts <=? attempts = false)%nat as -> by (apply Nat.leb_gt; lia).
    destruct r as [|message|d|status body|sid rep st ev]; try by split.
    destruct (IH (S attempts) (if bool_decide (sid = "") then sessionID else sid) (rep || replayed) st ev s1 Hr) as [H1 H2]; [cbn [length] in Hn; lia|].
    replace (emptyOutputRetryMaxAttempts - S attempts)%nat with k in H2 by lia. by split.
Qed.
End Bounded.

(** C10. However often the upstream answers with nothing to show, the handler asks at most three more
    times: if every body ends it returns, and what a fourth retry would bring does not matter. *)
Theorem chat_attempts_bounded {V : Type} ProcessChunk FlushSieve clean parseToolCalls toolsRaw Marshal uuid canFlush thinkingEnabled exposeReasoning
  searchEnabled requireToolCall bufferToolContent emitEarlyToolDeltas (cfg : ConsumeConfig) (completionID : string) (start : Z)
  (events : list selectEvent) (retries : list retry) (w : V) :
  existsb closing events = true -> Forall answersEnd retries -> (3 <= length retries)%nat ->
  let handle := handleStreamWithRetry ProcessChunk FlushSieve clean parseToolCalls (SchemaNormalize.NormalizeParsedToolCallsForSchemas Marshal toolsRaw) Marshal uuid canFlush thinkingEnabled exposeReasoning
                  searchEnabled requireToolCall bufferToolContent emitEarlyToolDeltas cfg completionID start events in
  is_Some (handle retries w).2 /\ handle retries w = handle (take 3 retries) w.
Proof. intros He Hr Hn handle. by apply loop_returns. Qed.

(** ** Small streams *)

Definition demoParts (l : list (string * string)) : LineResult :=
  {| Parsed := true; Stop := false; ContentFilter := false; ErrorMessage := ""; Parts := (fun p => {| Type_ := p.1; Text := p.2 |}) <$> l;
     ToolDetectionThinkingParts := []; NextType := "text"; ResponseMessageID := 7 |}.
Definition demoRead : ParsedToolCall := {| Name := "read"; Input := JObj [] |}.
(** A sieve that takes ["<call>"] for a call. *)
Definition demoChunk (v : unit) (chunk : string) : unit * list toolEvent :=
  (v, [if bool_decide (chunk = "<call>") then {| Content := ""; ToolCalls := [demoRead]; ToolCallDeltas := [] |}
       else {| Content := chunk; ToolCalls := []; ToolCallDeltas := [] |}]).
Notation demoHandle tools events retries :=
  (handleStreamWithRetry demoChunk (fun v => (v, [])) (fun t => t) (fun _ => []) (SchemaNormalize.NormalizeParsedToolCallsForSchemas (fun _ => Some "{}") JNull) (fun _ => Some "{}") (fun n => pretty n) true true true false false
    tools false StreamEngine.demoCfg "s1" 0 (quiet <$> events) retries tt) (only parsing).

(** An attempt with nothing but white space is put off, and the retry answers in the same stream. *)
Example demo_retry : (written (demoHandle false [SelLine (demoParts [("thinking", "hm")]); SelTick; SelClosed None]
    [Answers "s2" true 0 (quiet <$> [SelLine (demoParts [("text", "one"); ("text", " two")]); SelClosed None])]).1) =
  [Chunk true (DReasoning "hm"); KeepAlive; Chunk false (DContent "one two"); FinishChunk "stop"; DoneFrame].
Proof. vm_compute. reflexivity. Qed.

(** Two calls that complete in one line are shown under the same index, with different identifiers. *)
Theorem call_indices_collide : exists a b, (written (demoHandle true [SelLine (demoParts [("text", "<call>"); ("thinking", "x"); ("text", "<call>")]); SelClosed None] []).1) =
  [Chunk true (DTools [a]); Chunk false (DReasoning "x"); Chunk false (DTools [b]); FinishChunk "tool_calls"; DoneFrame] /\
  scIndex a = scIndex b /\ scID a <> scID b.
Proof. eexists _, _. vm_compute. split_and!; [reflexivity|reflexivity|discriminate]. Qed.

Lemma chat_stream_protocol_witness :
  let '(s, out) := demoHandle false [SelLine (demoParts [("text", "one")]); SelClosed None] [] in
  exists v, shown true true false false s v /\ match out with None => over v = false | Some _ => vDone v = true end.
Proof.
  pose proof (chat_stream_protocol demoChunk (fun v => (v, [])) (fun t => t) (fun _ => []) JNull (fun _ => Some "{}") (fun n => pretty n) true true true false false
    false false StreamEngine.demoCfg "s1" 0 (quiet <$> [SelLine (demoParts [("text", "one")]); SelClosed None]) [] tt) as H.
  assert (Forall wellTimed (quiet <$> [SelLine (demoParts [("text", "one")]); SelClosed None])) as Hw by (repeat (constructor; [intros [=]|]); constructor).
  assert (Forall uncancelled (quiet <$> [SelLine (demoParts [("text", "one")]); SelClosed None])) as Hu by (repeat constructor).
  specialize (H Hw (Forall_nil_2 _)). cbv zeta in H. destruct (handleStreamWithRetry _ _ _ _ _ _ _ _ _ _ _ _ _ _ _ _ _ _ _ _) as [s out].
  destruct H as (v & H1 & _ & _ & _ & H2). exists v. split; [exact H1|]. destruct out as [o|]; [|exact H2]. destruct H2 as [H2 _]. apply H2; [exact Hu|constructor].
Defined.

Lemma chat_attempts_bounded_witness :
  is_Some (demoHandle false [SelClosed None] [NotPrepared; NotPrepared; NotPrepared; NotPrepared]).2 /\
  demoHandle false [SelClosed None] [NotPrepared; NotPrepared; NotPrepared; NotPrepared] = demoHandle false [SelClosed None] [NotPrepared; NotPrepared; NotPrepared].
Proof.
  apply (chat_attempts_bounded demoChunk (fun v => (v, [])) (fun t => t) (fun _ => []) JNull (fun _ => Some "{}") (fun n => pretty n) true true true false false
    false false StreamEngine.demoCfg "s1" 0 (quiet <$> [SelClosed None]) [NotPrepared; NotPrepared; NotPrepared; NotPrepared] tt); [reflexivity|by repeat constructor|cbn; lia].
Defined.
