(* ===== verification/StreamWire.v ===== *)
(** The bytes of the event streams: [sendEvent] and [sendDone] of the Responses API with the payloads
    of [internal/format/openai/render_stream_events.go], [sendChunk], [sendDone] and [sendKeepAlive]
    of the chat API with the chunks of [render_chat.go], and [send] of the Claude API.

    The frames are those of [ResponsesStream], [ChatStream] and [ClaudeStream].  A client that reads
    server-sent events and decodes their data is given as specification.  The JSON codec, the names
    and times of a request and the counts of tokens are parameters. *)
From S2P Require Import Prelude GoString GoText Json StreamShared.
From S2P Require ResponsesStream ChatStream ClaudeStream.
From Stdlib Require Import Ascii.
Local Open Scope string_scope.
Local Open Scope Z_scope.
Local Open Scope list_scope.

Notation jmap := (list (string * json)).
Notation int n := (JNum n 1).

(** ** A client of server-sent events *)

Definition lineFeed : ascii := "010".
Definition eol : string := String lineFeed "".

(** What arrives between two blank lines: a name and data. *)
Record block := { bEvent : string; bData : string }.

(** A line is a field and its value, after a colon and at most one blank. *)
Definition splitField (line : string) : string * string :=
  match GoString.Index line ":" with
  | Some i => (strTake i line, TrimPrefix (strDrop (S i) line) " ")
  | None => (line, "")
  end.

Fixpoint readLines (name : string) (data : option string) (lines : list string) : list block :=
  match lines with
  | [] => []
  | line :: l =>
      if bool_decide (line = "") then option_list ((fun d => {| bEvent := name; bData := d |}) <$> data) ++ readLines "" None l
      else
        let '(field, value) := splitField line in
        if bool_decide (field = "event") then readLines value data l
        else if bool_decide (field = "data") then readLines name (Some (match data with Some d => d +:+ eol +:+ value | None => value end)) l
        else readLines name data l
  end.
Definition readStream (bytes : string) : list block := readLines "" None (SplitByte lineFeed bytes).

(** ** Blocks as they are written *)

(** [data: ] and the text, after the name if there is one. *)
Definition dataBytes (data : string) : string := "data: " +:+ data +:+ eol +:+ eol.
Definition eventBytes (name data : string) : string := "event: " +:+ name +:+ eol +:+ dataBytes data.
Definition keepAliveBytes : string := ": keep-alive" +:+ eol +:+ eol.

Definition oneLine (s : string) : bool := allBytes (fun c => negb (bool_decide (c = lineFeed))) s.

Lemma SplitByte_oneLine s : oneLine s = true -> SplitByte lineFeed s = [s].
Proof.
  induction s as [|c s IH]; [done|]. unfold oneLine in *. cbn [allBytes SplitByte]. intros [H Hs]%andb_true_iff.
  rewrite (IH Hs). by case_bool_decide.
Qed.

Lemma oneLine_app s t : oneLine s = true -> oneLine t = true -> oneLine (s +:+ t) = true.
Proof.
  unfold oneLine. intros Hs Ht. induction s as [|c s IH]; [done|]. rewrite append_cons. cbn [allBytes] in *. apply andb_true_iff in Hs as [H Hs]. by rewrite H, IH.
Qed.

(** A line that ends is read before what follows. *)
Lemma split_line line rest : oneLine line = true -> SplitByte lineFeed (line +:+ eol +:+ rest) = line :: SplitByte lineFeed rest.
Proof. intros H. unfold eol. change (String lineFeed "" +:+ rest) with (String lineFeed rest). by rewrite SplitByte_sep, SplitByte_oneLine. Qed.

Lemma split_blank rest : SplitByte lineFeed (eol +:+ rest) = "" :: SplitByte lineFeed rest.
Proof. by apply (split_line ""). Qed.

Lemma field_event value : splitField ("event: " +:+ value) = ("event", value).
Proof. destruct value; vm_compute; reflexivity. Qed.
Lemma field_data value : splitField ("data: " +:+ value) = ("data", value).
Proof. destruct value; vm_compute; reflexivity. Qed.

(** Whatever follows, a client that waits for a block reads [b] first, if anything. *)
Definition reads (bytes : string) (b : option block) : Prop :=
  forall rest, readStream (bytes +:+ rest) = option_list b ++ readStream rest.

Lemma read_data data name rest : oneLine data = true ->
  readLines name None (SplitByte lineFeed (dataBytes data +:+ rest)) = {| bEvent := name; bData := data |} :: readStream rest.
Proof.
  intros H. unfold dataBytes. replace (("data: " +:+ data +:+ eol +:+ eol) +:+ rest) with (("data: " +:+ data) +:+ eol +:+ (eol +:+ rest)) by by rewrite !append_assoc.
  rewrite split_line by by apply oneLine_app. rewrite split_blank. cbn [readLines]. rewrite field_data. reflexivity.
Qed.

Lemma read_dataBytes data : oneLine data = true -> reads (dataBytes data) (Some {| bEvent := ""; bData := data |}).
Proof. intros H rest. by apply read_data. Qed.

Lemma read_eventBytes name data : oneLine name = true -> oneLine data = true -> reads (eventBytes name data) (Some {| bEvent := name; bData := data |}).
Proof.
  intros Hn Hd rest. unfold readStream, eventBytes.
  replace (("event: " +:+ name +:+ eol +:+ dataBytes data) +:+ rest) with (("event: " +:+ name) +:+ eol +:+ (dataBytes data +:+ rest)) by by rewrite !append_assoc.
  rewrite split_line by by apply oneLine_app. cbn [readLines]. rewrite field_event. exact (read_data data name rest Hd).
Qed.

Lemma read_keepAlive : reads keepAliveBytes None.
Proof.
  intros rest. unfold readStream, keepAliveBytes. replace ((": keep-alive" +:+ eol +:+ eol) +:+ rest) with (": keep-alive" +:+ eol +:+ (eol +:+ rest)) by by rewrite !append_assoc.
  by rewrite split_line, split_blank.
Qed.

(** Everything that was written, and what is read of it. *)
Definition allBytesOf {A} (bytes : A -> string) (l : list A) : string := foldr (fun a acc => bytes a +:+ acc) "" l.

Lemma read_all {A} (bytes : A -> string) (seen : A -> option block) (l : list A) :
  Forall (fun a => reads (bytes a) (seen a)) l -> readStream (allBytesOf bytes l) = omap seen l.
Proof.
  induction 1 as [|a l H _ IH]; [reflexivity|]. cbn [allBytesOf foldr]. rewrite H. fold (allBytesOf bytes l). rewrite IH. cbn. by destruct (seen a).
Qed.

(** ** Reading payloads *)

Definition strField (k : string) (m : jmap) : string := asString (member k m).
Definition intField (k : string) (m : jmap) : Z := match member k m with Some (int n) => n | _ => 0 end.
Definition mapField (k : string) (m : jmap) : jmap := match member k m with Some (JObj m) => m | _ => [] end.
Definition listField (k : string) (m : jmap) : list json := match member k m with Some (JArr l) => l | _ => [] end.
Definition asMap (v : json) : jmap := match v with JObj m => m | _ => [] end.

Section Codec.
Variable Marshal : json -> option string.
Variable Unmarshal : string -> option json.

(** [b, _ := json.Marshal(m)] *)
Definition jsonText (m : jmap) : string := marshalled Marshal (JObj m).

(** The codec carries this payload: its text is one line that begins with a brace and is decoded to it. *)
Definition carried (m : jmap) : Prop :=
  oneLine (jsonText m) = true /\ HasPrefix (jsonText m) "{" = true /\ Unmarshal (jsonText m) = Some (JObj m).

(** The data of a block: the end marker or a payload. *)
Definition decodeData {A} (done : A) (payload : jmap -> option A) (b : block) : option A :=
  if bool_decide (bData b = "[DONE]") then Some done
  else match Unmarshal (bData b) with Some (JObj m) => payload m | _ => None end.

Lemma decode_carried {A} (done : A) (payload : jmap -> option A) name m : carried m ->
  decodeData done payload {| bEvent := name; bData := jsonText m |} = payload m.
Proof.
  intros (_ & H1 & H2). unfold decodeData. cbn [bData]. rewrite bool_decide_eq_false_2, H2; [done|]. intros E. rewrite E in H1. discriminate H1.
Qed.

(** A client recovers the frames that are shown to it, if it recovers each of them. *)
Lemma recovers {A} (bytes : A -> string) (seen : A -> option block) (decode : block -> option A) (visible : A -> bool) (l : list A) :
  Forall (fun a => reads (bytes a) (seen a) /\ seen a ≫= decode = if visible a then Some a else None) l ->
  omap decode (readStream (allBytesOf bytes l)) = List.filter visible l.
Proof.
  intros H. rewrite (read_all bytes seen) by (eapply Forall_impl; [exact H|]; by intros a [? _]).
  induction H as [|a l [_ H] _ IH]; [done|]. cbn. destruct (seen a) as [b|] eqn:E; cbn in *.
  - rewrite H, IH. by destruct (visible a).
  - rewrite IH. by destruct (visible a).
Qed.

(** ** The Responses API *)

Section Responses.
Variables responseID model : string.
(** [created_at] and [usage] of the final object. *)
Variables (createdAt : Z) (usage : json).

Definition BuildResponsesCreatedPayload : jmap :=
  [("type", JStr "response.created"); ("id", JStr responseID); ("response_id", JStr responseID); ("object", JStr "response");
   ("model", JStr model); ("status", JStr "in_progress")].
Definition BuildResponsesOutputItemAddedPayload (itemID : string) (outputIndex : Z) (item : jmap) : jmap :=
  [("type", JStr "response.output_item.added"); ("id", JStr responseID); ("response_id", JStr responseID); ("output_index", int outputIndex);
   ("item_id", JStr itemID); ("item", JObj item)].
Definition BuildResponsesOutputItemDonePayload (itemID : string) (outputIndex : Z) (item : jmap) : jmap :=
  [("type", JStr "response.output_item.done"); ("id", JStr responseID); ("response_id", JStr responseID); ("output_index", int outputIndex);
   ("item_id", JStr itemID); ("item", JObj item)].
Definition BuildResponsesContentPartAddedPayload (itemID : string) (outputIndex contentIndex : Z) (part : json) : jmap :=
  [("type", JStr "response.content_part.added"); ("id", JStr responseID); ("response_id", JStr responseID); ("item_id", JStr itemID);
   ("output_index", int outputIndex); ("content_index", int contentIndex); ("part", part)].
Definition BuildResponsesContentPartDonePayload (itemID : string) (outputIndex contentIndex : Z) (part : json) : jmap :=
  [("type", JStr "response.content_part.done"); ("id", JStr responseID); ("response_id", JStr responseID); ("item_id", JStr itemID);
   ("output_index", int outputIndex); ("content_index", int contentIndex); ("part", part)].
Definition BuildResponsesTextDeltaPayload (itemID : string) (outputIndex contentIndex : Z) (delta : string) : jmap :=
  [("type", JStr "response.output_text.delta"); ("id", JStr responseID); ("response_id", JStr responseID); ("item_id", JStr itemID);
   ("output_index", int outputIndex); ("content_index", int contentIndex); ("delta", JStr delta)].
Definition BuildResponsesTextDonePayload (itemID : string) (outputIndex contentIndex : Z) (text : string) : jmap :=
  [("type", JStr "response.output_text.done"); ("id", JStr responseID); ("response_id", JStr responseID); ("item_id", JStr itemID);
   ("output_index", int outputIndex); ("content_index", int contentIndex); ("text", JStr text)].
Definition BuildResponsesReasoningDeltaPayload (delta : string) : jmap :=
  [("type", JStr "response.reasoning.delta"); ("id", JStr responseID); ("response_id", JStr responseID); ("delta", JStr delta)].
Definition BuildResponsesFunctionCallArgumentsDeltaPayload (itemID : string) (outputIndex : Z) (callID delta : string) : jmap :=
  [("type", JStr "response.function_call_arguments.delta"); ("id", JStr responseID); ("response_id", JStr responseID); ("item_id", JStr itemID);
   ("output_index", int outputIndex); ("call_id", JStr callID); ("delta", JStr delta)].
(** The arguments of the event are normalized already. *)
Definition BuildResponsesFunctionCallArgumentsDonePayload (itemID : string) (outputIndex : Z) (callID name arguments : string) : jmap :=
  [("type", JStr "response.function_call_arguments.done"); ("id", JStr responseID); ("response_id", JStr responseID); ("item_id", JStr itemID);
   ("output_index", int outputIndex); ("call_id", JStr callID); ("name", JStr name); ("arguments", JStr arguments)].

Definition responsesErrorType (status : Z) : string :=
  if bool_decide (status = 400 \/ status = 404 \/ status = 422) then "invalid_request_error"
  else if status =? 401 then "authentication_error"
  else if status =? 403 then "permission_error"
  else if status =? 429 then "rate_limit_error"
  else if status =? 503 then "service_unavailable_error"
  else if 500 <=? status then "api_error" else "invalid_request_error".

(** The code of the event is the one after its default. *)
Definition BuildResponsesFailedPayload (status : Z) (message code : string) : jmap :=
  [("type", JStr "response.failed"); ("id", JStr responseID); ("response_id", JStr responseID); ("object", JStr "response"); ("model", JStr model);
   ("status", JStr "failed"); ("status_code", int status);
   ("error", JObj [("message", JStr message); ("type", JStr (responsesErrorType status)); ("code", JStr code); ("param", JNull)])].

Definition BuildResponseObjectFromItems (o : ResponsesStream.responseObject) : jmap :=
  [("id", JStr responseID); ("type", JStr "response"); ("object", JStr "response"); ("created_at", int createdAt); ("status", JStr "completed");
   ("model", JStr model); ("output", JArr (ResponsesStream.Output o)); ("output_text", JStr (ResponsesStream.OutputText o)); ("usage", usage)].
Definition BuildResponsesCompletedPayload (response : jmap) : jmap :=
  [("type", JStr "response.completed"); ("response_id", JStr (asString (member "id" response))); ("response", JObj response)].

(** The name of an event and its payload. *)
Definition responsesPayload (e : ResponsesStream.event) : string * jmap :=
  match e with
  | ResponsesStream.Created => ("response.created", BuildResponsesCreatedPayload)
  | ResponsesStream.ItemAdded i id item => ("response.output_item.added", BuildResponsesOutputItemAddedPayload id i item)
  | ResponsesStream.ItemDone i id item => ("response.output_item.done", BuildResponsesOutputItemDonePayload id i item)
  | ResponsesStream.PartAdded i id => ("response.content_part.added", BuildResponsesContentPartAddedPayload id i 0 (ResponsesStream.outputText ""))
  | ResponsesStream.PartDone i id t => ("response.content_part.done", BuildResponsesContentPartDonePayload id i 0 (ResponsesStream.outputText t))
  | ResponsesStream.TextDelta i id d => ("response.output_text.delta", BuildResponsesTextDeltaPayload id i 0 d)
  | ResponsesStream.TextDone i id t => ("response.output_text.done", BuildResponsesTextDonePayload id i 0 t)
  | ResponsesStream.ReasoningDelta d => ("response.reasoning.delta", BuildResponsesReasoningDeltaPayload d)
  | ResponsesStream.ArgumentsDelta i id c d => ("response.function_call_arguments.delta", BuildResponsesFunctionCallArgumentsDeltaPayload id i c d)
  | ResponsesStream.ArgumentsDone i id c n a => ("response.function_call_arguments.done", BuildResponsesFunctionCallArgumentsDonePayload id i c n a)
  | ResponsesStream.Completed o => ("response.completed", BuildResponsesCompletedPayload (BuildResponseObjectFromItems o))
  | ResponsesStream.Failed s m c => ("response.failed", BuildResponsesFailedPayload s m c)
  end.

(** [sendEvent] with its sequence number, and [sendDone]. *)
Definition numberedPayload (n : Z) (e : ResponsesStream.event) : jmap := (responsesPayload e).2 ++ [("sequence_number", int n)].
Definition responsesBytes (f : ResponsesStream.frame) : string :=
  match f with
  | ResponsesStream.Event n e => eventBytes (responsesPayload e).1 (jsonText (numberedPayload n e))
  | ResponsesStream.DoneFrame => dataBytes "[DONE]"
  end.
End Responses.

(** ** The chat completions API *)

Section Chat.
Variables (completionID model : string) (created : Z) (chatUsage : list (string * json)).

Definition BuildChatStreamDeltaChoice (index : Z) (delta : jmap) : json := JObj [("delta", JObj delta); ("index", int index)].
Definition BuildChatStreamFinishChoice (index : Z) (finishReason : string) : json :=
  JObj [("delta", JObj []); ("index", int index); ("finish_reason", JStr finishReason)].
Definition BuildChatStreamChunk (choices : list json) (usage : jmap) : jmap :=
  [("id", JStr completionID); ("object", JStr "chat.completion.chunk"); ("created", int created); ("model", JStr model); ("choices", JArr choices)] ++
  match usage with [] => [] | _ => [("usage", JObj usage)] end.

Definition OpenAIErrorType (status : Z) : string :=
  if status =? 400 then "invalid_request_error"
  else if status =? 401 then "authentication_error"
  else if status =? 403 then "permission_error"
  else if status =? 429 then "rate_limit_error"
  else if status =? 499 then "request_cancelled_error"
  else if (status =? 502) || (status =? 504) then "api_error"
  else if status =? 503 then "service_unavailable_error"
  else if 500 <=? status then "api_error" else "invalid_request_error".

(** The member of a delta. *)
Definition deltaMember (d : ChatStream.delta) : string * json :=
  match d with
  | ChatStream.DContent t => ("content", JStr t)
  | ChatStream.DReasoning t => ("reasoning_content", JStr t)
  | ChatStream.DTools calls => ("tool_calls", JArr (ChatStream.callJSON <$> calls))
  end.

(** The payload of a frame; [None]: a marker or a comment. *)
Definition chatPayload (f : ChatStream.frame) : option jmap :=
  match f with
  | ChatStream.Chunk role d => Some (BuildChatStreamChunk [BuildChatStreamDeltaChoice 0 (deltaMember d :: (if role : bool then [("role", JStr "assistant")] else []))] [])
  | ChatStream.FinishChunk reason => Some (BuildChatStreamChunk [BuildChatStreamFinishChoice 0 reason] chatUsage)
  | ChatStream.FailedChunk status message code =>
      Some [("status_code", int status); ("error", JObj [("message", JStr message); ("type", JStr (OpenAIErrorType status)); ("code", JStr code); ("param", JNull)])]
  | ChatStream.DoneFrame | ChatStream.KeepAlive => None
  end.
Definition chatBytes (f : ChatStream.frame) : string :=
  match chatPayload f with
  | Some m => dataBytes (jsonText m)
  | None => if f is ChatStream.KeepAlive then keepAliveBytes else dataBytes "[DONE]"
  end.
End Chat.

(** ** The Claude API *)

Section Claude.
Variables (messageID claudeModel : string) (inputTokens outputTokens : Z).

Definition blockBody (k : ClaudeStream.blockKind) : jmap :=
  match k with
  | ClaudeStream.BText => [("type", JStr "text"); ("text", JStr "")]
  | ClaudeStream.BThinking => [("type", JStr "thinking"); ("thinking", JStr "")]
  | ClaudeStream.BTool id name => [("type", JStr "tool_use"); ("id", JStr id); ("name", JStr name); ("input", JObj [])]
  end.
Definition deltaBody (k : ClaudeStream.deltaKind) (t : string) : jmap :=
  match k with
  | ClaudeStream.DText => [("type", JStr "text_delta"); ("text", JStr t)]
  | ClaudeStream.DThinking => [("type", JStr "thinking_delta"); ("thinking", JStr t)]
  | ClaudeStream.DJson => [("type", JStr "input_json_delta"); ("partial_json", JStr t)]
  end.

Definition claudePayload (e : ClaudeStream.event) : string * jmap :=
  match e with
  | ClaudeStream.MessageStart =>
      ("message_start", [("type", JStr "message_start");
        ("message", JObj [("id", JStr messageID); ("type", JStr "message"); ("role", JStr "assistant"); ("model", JStr claudeModel); ("content", JArr []);
                          ("stop_reason", JNull); ("stop_sequence", JNull); ("usage", JObj [("input_tokens", int inputTokens); ("output_tokens", int 0)])])])
  | ClaudeStream.Ping => ("ping", [("type", JStr "ping")])
  | ClaudeStream.BlockStart i k => ("content_block_start", [("type", JStr "content_block_start"); ("index", int i); ("content_block", JObj (blockBody k))])
  | ClaudeStream.BlockDelta i k t => ("content_block_delta", [("type", JStr "content_block_delta"); ("index", int i); ("delta", JObj (deltaBody k t))])
  | ClaudeStream.BlockStop i => ("content_block_stop", [("type", JStr "content_block_stop"); ("index", int i)])
  | ClaudeStream.MessageDelta r =>
      ("message_delta", [("type", JStr "message_delta"); ("delta", JObj [("stop_reason", JStr r); ("stop_sequence", JNull)]);
                         ("usage", JObj [("output_tokens", int outputTokens)])])
  | ClaudeStream.MessageStop => ("message_stop", [("type", JStr "message_stop")])
  | ClaudeStream.ErrorEvent m c =>
      ("error", [("type", JStr "error"); ("error", JObj [("type", JStr "api_error"); ("message", JStr m); ("code", JStr c); ("param", JNull)])])
  end.
Definition claudeBytes (e : ClaudeStream.event) : string := eventBytes (claudePayload e).1 (jsonText (claudePayload e).2).
End Claude.

(** ** What a client makes of a payload *)

Definition itemFields (m : jmap) : Z * string := (intField "output_index" m, strField "item_id" m).
Definition partText (m : jmap) : string := strField "text" (mapField "part" m).

(** An event of the Responses API, by its type. *)
Definition readResponsesEvent (m : jmap) : option ResponsesStream.event :=
  let '(i, id) := itemFields m in
  let type := strField "type" m in
  if String.eqb type "response.created" then Some ResponsesStream.Created
  else if String.eqb type "response.output_item.added" then Some (ResponsesStream.ItemAdded i id (mapField "item" m))
  else if String.eqb type "response.output_item.done" then Some (ResponsesStream.ItemDone i id (mapField "item" m))
  else if String.eqb type "response.content_part.added" then Some (ResponsesStream.PartAdded i id)
  else if String.eqb type "response.content_part.done" then Some (ResponsesStream.PartDone i id (partText m))
  else if String.eqb type "response.output_text.delta" then Some (ResponsesStream.TextDelta i id (strField "delta" m))
  else if String.eqb type "response.output_text.done" then Some (ResponsesStream.TextDone i id (strField "text" m))
  else if String.eqb type "response.reasoning.delta" then Some (ResponsesStream.ReasoningDelta (strField "delta" m))
  else if String.eqb type "response.function_call_arguments.delta" then Some (ResponsesStream.ArgumentsDelta i id (strField "call_id" m) (strField "delta" m))
  else if String.eqb type "response.function_call_arguments.done" then Some (ResponsesStream.ArgumentsDone i id (strField "call_id" m) (strField "name" m) (strField "arguments" m))
  else if String.eqb type "response.completed" then
    let o := mapField "response" m in Some (ResponsesStream.Completed {| ResponsesStream.Output := listField "output" o; ResponsesStream.OutputText := strField "output_text" o |})
  else if String.eqb type "response.failed" then
    let e := mapField "error" m in Some (ResponsesStream.Failed (intField "status_code" m) (strField "message" e) (strField "code" e))
  else None.
Definition readResponses : block -> option ResponsesStream.frame :=
  decodeData ResponsesStream.DoneFrame (fun m => ResponsesStream.Event (intField "sequence_number" m) <$> readResponsesEvent m).

(** A call as the chat API shows it. *)
Definition optionalField (k : string) (m : jmap) : option string := match member k m with Some (JStr s) => Some s | _ => None end.
Definition readCall (v : json) : shownCall :=
  let fn := mapField "function" (asMap v) in
  {| scIndex := intField "index" (asMap v); scID := strField "id" (asMap v); scName := optionalField "name" fn; scArguments := optionalField "arguments" fn |}.
Definition readDelta (m : jmap) : option ChatStream.delta :=
  match member "content" m, member "reasoning_content" m, member "tool_calls" m with
  | Some (JStr t), _, _ => Some (ChatStream.DContent t)
  | _, Some (JStr t), _ => Some (ChatStream.DReasoning t)
  | _, _, Some (JArr l) => Some (ChatStream.DTools (readCall <$> l))
  | _, _, _ => None
  end.
Definition readChunk (m : jmap) : option ChatStream.frame :=
  match member "error" m with
  | Some (JObj e) => Some (ChatStream.FailedChunk (intField "status_code" m) (strField "message" e) (strField "code" e))
  | _ =>
      let choice := asMap (default JNull (head (listField "choices" m))) in
      match member "finish_reason" choice with
      | Some (JStr r) => Some (ChatStream.FinishChunk r)
      | _ => let d := mapField "delta" choice in ChatStream.Chunk (bool_decide (is_Some (member "role" d))) <$> readDelta d
      end
  end.
Definition readChat : block -> option ChatStream.frame := decodeData ChatStream.DoneFrame readChunk.

Definition readBlockKind (m : jmap) : ClaudeStream.blockKind :=
  let type := strField "type" m in
  if String.eqb type "text" then ClaudeStream.BText
  else if String.eqb type "thinking" then ClaudeStream.BThinking else ClaudeStream.BTool (strField "id" m) (strField "name" m).
Definition readBlockDelta (i : Z) (m : jmap) : ClaudeStream.event :=
  let type := strField "type" m in
  if String.eqb type "text_delta" then ClaudeStream.BlockDelta i ClaudeStream.DText (strField "text" m)
  else if String.eqb type "thinking_delta" then ClaudeStream.BlockDelta i ClaudeStream.DThinking (strField "thinking" m)
  else ClaudeStream.BlockDelta i ClaudeStream.DJson (strField "partial_json" m).
Definition readClaudeEvent (name : string) (m : jmap) : option ClaudeStream.event :=
  let i := intField "index" m in
  if String.eqb name "message_start" then Some ClaudeStream.MessageStart
  else if String.eqb name "ping" then Some ClaudeStream.Ping
  else if String.eqb name "content_block_start" then Some (ClaudeStream.BlockStart i (readBlockKind (mapField "content_block" m)))
  else if String.eqb name "content_block_delta" then Some (readBlockDelta i (mapField "delta" m))
  else if String.eqb name "content_block_stop" then Some (ClaudeStream.BlockStop i)
  else if String.eqb name "message_delta" then Some (ClaudeStream.MessageDelta (strField "stop_reason" (mapField "delta" m)))
  else if String.eqb name "message_stop" then Some ClaudeStream.MessageStop
  else if String.eqb name "error" then
    let e := mapField "error" m in Some (ClaudeStream.ErrorEvent (strField "message" e) (strField "code" e))
  else None.
Definition readClaude (b : block) : option ClaudeStream.event :=
  match Unmarshal (bData b) with Some (JObj m) => readClaudeEvent (bEvent b) m | _ => None end.

(** ** Every frame is recovered *)

Lemma readResponses_payload id model created usage n e :
  (fun m => ResponsesStream.Event (intField "sequence_number" m) <$> readResponsesEvent m) (numberedPayload id model created usage n e) = Some (ResponsesStream.Event n e).
Proof. destruct e as [| | | | | | | | | |[]|]; reflexivity. Qed.

Lemma readCall_callJSON c : readCall (ChatStream.callJSON c) = c.
Proof. by destruct c as [i id [n|] [a|]]. Qed.

Lemma readDelta_member d role : readDelta (deltaMember d :: (if role : bool then [("role", JStr "assistant")] else [])) = Some d.
Proof.
  destruct d as [t|t|l]; [by destruct role..|]. assert (readCall <$> (ChatStream.callJSON <$> l) = l) as E.
  { induction l as [|c l IH]; [done|]. by rewrite !fmap_cons, readCall_callJSON, IH. }
  destruct role; exact (f_equal (fun x => Some (ChatStream.DTools x)) E).
Qed.

Lemma readChunk_payload id model created usage f m : chatPayload id model created usage f = Some m -> readChunk m = Some f.
Proof.
  destruct f as [role d|r|s msg c| |]; intros [= <-]; try reflexivity.
  - set (dd := deltaMember d :: (if role : bool then [("role", JStr "assistant")] else [])).
    change (ChatStream.Chunk (bool_decide (is_Some (member "role" dd))) <$> readDelta dd = Some (ChatStream.Chunk role d)).
    unfold dd. rewrite readDelta_member. by destruct role, d.
  - by destruct usage.
Qed.

Lemma readClaude_payload id model input output e : readClaudeEvent (claudePayload id model input output e).1 (claudePayload id model input output e).2 = Some e.
Proof. destruct e as [| |i [| |]|i [| |] t| | | |]; reflexivity. Qed.
End Codec.

(** A frame of the chat API that is more than a comment. *)
Definition notComment (f : ChatStream.frame) : bool := match f with ChatStream.KeepAlive => false | _ => true end.

(** C8. The bytes of every event stream can be read: a client that takes server-sent events from them and
    decodes their data, by a codec that carries the payloads, gets back the frames the runtime wrote,
    one by one and in order, with every number, identifier, delta, call and error; of the chat stream
    it sees everything but the comments that keep the connection alive.  So what is shown of the
    frames is shown of what reaches the client. *)
Theorem streams_read_back Marshal Unmarshal :
  (forall id model created usage (l : list ResponsesStream.frame),
     (forall n e, ResponsesStream.Event n e ∈ l -> carried Marshal Unmarshal (numberedPayload id model created usage n e)) ->
     omap (readResponses Unmarshal) (readStream (allBytesOf (responsesBytes Marshal id model created usage) l)) = l) /\
  (forall id model created usage (l : list ChatStream.frame),
     (forall f m, f ∈ l -> chatPayload id model created usage f = Some m -> carried Marshal Unmarshal m) ->
     omap (readChat Unmarshal) (readStream (allBytesOf (chatBytes Marshal id model created usage) l)) = List.filter notComment l) /\
  (forall id model input output (l : list ClaudeStream.event),
     (forall e, e ∈ l -> carried Marshal Unmarshal (claudePayload id model input output e).2) ->
     omap (readClaude Unmarshal) (readStream (allBytesOf (claudeBytes Marshal id model input output) l)) = l).
Proof.
  assert (Hall : forall A (l : list A), List.filter (fun _ => true) l = l) by (intros A l; induction l as [|a l IH]; [done|]; cbn; by rewrite IH).
  split_and!; intros id model x y l H.
  - rewrite (recovers _ (fun f => Some match f with
        | ResponsesStream.Event n e => {| bEvent := (responsesPayload id model x y e).1; bData := jsonText Marshal (numberedPayload id model x y n e) |}
        | ResponsesStream.DoneFrame => {| bEvent := ""; bData := "[DONE]" |} end) _ (fun _ => true)); [apply Hall|].
    apply Forall_forall. intros [n e|] Hf; [|split; [by apply read_dataBytes|reflexivity]].
    destruct (H n e Hf) as (C & C'). split; [apply read_eventBytes; [by destruct e|exact C]|].
    cbn [mbind option_bind]. unfold readResponses. rewrite decode_carried by done. apply readResponses_payload.
  - rewrite (recovers _ (fun f => match chatPayload id model x y f with
        | Some m => Some {| bEvent := ""; bData := jsonText Marshal m |}
        | None => if f is ChatStream.KeepAlive then None else Some {| bEvent := ""; bData := "[DONE]" |} end) _ notComment); [done|].
    apply Forall_forall. intros f Hf. unfold chatBytes. destruct (chatPayload id model x y f) as [m|] eqn:E.
    + destruct (H f m Hf E) as (C & C'). split; [by apply read_dataBytes|]. cbn [mbind option_bind]. unfold readChat. rewrite decode_carried by done.
      rewrite (readChunk_payload _ _ _ _ _ _ E). by destruct f.
    + destruct f; try discriminate E; split; try reflexivity; [by apply read_dataBytes|exact read_keepAlive].
  - rewrite (recovers _ (fun e => Some {| bEvent := (claudePayload id model x y e).1; bData := jsonText Marshal (claudePayload id model x y e).2 |}) _ (fun _ => true)); [apply Hall|].
    apply Forall_forall. intros e Hf. destruct (H e Hf) as (C & _ & C'). split; [apply read_eventBytes; [by destruct e|exact C]|].
    cbn [mbind option_bind]. unfold readClaude. cbn [bData bEvent]. rewrite C'. apply readClaude_payload.
Qed.

(** ** A small stream of each kind *)

(** A codec for payloads that differ in their type. *)
Definition typeMarshal (v : json) : option string := Some ("{" +:+ strField "type" (asMap v) +:+ "}").
Definition typeUnmarshal (s : string) : option json :=
  if String.eqb s "{response.created}" then Some (JObj (numberedPayload "r" "m" 0 JNull 1 ResponsesStream.Created))
  else if String.eqb s "{response.reasoning.delta}" then Some (JObj (numberedPayload "r" "m" 0 JNull 2 (ResponsesStream.ReasoningDelta "hm")))
  else if String.eqb s "{}" then Some (JObj (BuildChatStreamChunk "c" "m" 0 [BuildChatStreamDeltaChoice 0 [("content", JStr "one"); ("role", JStr "assistant")]] []))
  else if String.eqb s "{ping}" then Some (JObj [("type", JStr "ping")])
  else None.

Lemma streams_read_back_witness :
  omap (readResponses typeUnmarshal) (readStream (allBytesOf (responsesBytes typeMarshal "r" "m" 0 JNull)
    [ResponsesStream.Event 1 ResponsesStream.Created; ResponsesStream.Event 2 (ResponsesStream.ReasoningDelta "hm"); ResponsesStream.DoneFrame])) =
    [ResponsesStream.Event 1 ResponsesStream.Created; ResponsesStream.Event 2 (ResponsesStream.ReasoningDelta "hm"); ResponsesStream.DoneFrame] /\
  omap (readChat typeUnmarshal) (readStream (allBytesOf (chatBytes typeMarshal "c" "m" 0 [])
    [ChatStream.KeepAlive; ChatStream.Chunk true (ChatStream.DContent "one"); ChatStream.DoneFrame])) = [ChatStream.Chunk true (ChatStream.DContent "one"); ChatStream.DoneFrame] /\
  omap (readClaude typeUnmarshal) (readStream (allBytesOf (claudeBytes typeMarshal "i" "m" 0 0) [ClaudeStream.Ping; ClaudeStream.Ping])) = [ClaudeStream.Ping; ClaudeStream.Ping].
Proof.
  destruct (streams_read_back typeMarshal typeUnmarshal) as (A & B & C). split_and!.
  - apply A. intros n e. rewrite !elem_of_cons, elem_of_nil. intros [[= -> ->]|[[= -> ->]|[[=]|[]]]]; by vm_compute.
  - apply B. intros f m. rewrite !elem_of_cons, elem_of_nil. intros [->|[->|[->|[]]]] [= <-]. by vm_compute.
  - apply C. intros e. rewrite !elem_of_cons, elem_of_nil. intros [->|[->|[]]]; by vm_compute.
Defined.
